(* ===== verification/_CoqProject ===== *)
-Q . S2P
Prelude.v
CInt.v
Spl.v
Numeric.v
SafeNumerics.v
Clock.v
MessageQueue.v
Qmf.v
Resample.v
HalfBand.v
Resample48.v
Resample22.v
ResampleShapes.v
Resampler.v
Vad.v
GainTable.v
Digital.v
Instance.v
Mic.v
Analog.v
Session.v
Contract.v
GainControl.v
AudioProcessing.v
Wav.v
Tool.v
AudioUtil.v
ChannelBuffer.v
Base64.v
Base64White.v
StringEncode.v
StringFields.v
StringUtils.v
StringBuilder.v
StringToNumber.v
SslIdentity.v
BitrateAllocation.v
TimeDelta.v
Queues.v
CowBuffer.v
ByteOrder.v
TcpSocket.v
FifoBuffer.v
BufferQueue.v
SparseFir.v
ThreeBand.v
Double.v
Conversions.v
Sinc.v
PushSinc.v
AudioBuffer.v
FloatBuffer.v
MultiControl.v
MultiThreads.v
Locks.v
