(* ===== verification/Prelude.v ===== *)
(** * Verification of the WebRTC automatic gain control in [src/]

    The repository is the legacy automatic gain control (AGC) of WebRTC in
    fixed-point C, with the part of the WebRTC signal processing library it
    comes with, under two C++ wrappers: the product interface
    ([audio_processing_impl.cc]) with one channel and one band, which a
    command-line tool applies to WAV files, and the multi-channel wrapper of
    WebRTC ([gain_control_impl_webrtc.cc]), which works on audio buffers and is
    built with the tests.  This development models the C code of
    [src/digital_agc/] completely, most of the C code of [src/common_audio/], and
    both wrappers with the code between them and the samples.

    ** The program

    An AGC instance ([LegacyAgc]) receives audio in frames of 10 ms, as 16-bit
    samples in one to three frequency bands.  Per frame the application calls
    - [WebRtcAgc_AddFarend] with the loudspeaker signal, which feeds the
      far-end voice activity detector (VAD);
    - [WebRtcAgc_AddMic] (analog mode) or [WebRtcAgc_VirtualMic] (adaptive
      digital mode) with the microphone signal, which applies a gain to it,
      measures envelopes and energies into a queue of two frames, and runs the
      microphone VAD;
    - [WebRtcAgc_Process], which runs the digital AGC
      ([WebRtcAgc_ProcessDigital]) on the samples and then, in the adaptive
      modes, the analog level control ([WebRtcAgc_ProcessAnalog]) on the
      measurements in the queue; the latter reports the next recording level.

    The digital AGC measures the envelope of each millisecond, maps it through
    a compressor table computed by [WebRtcAgc_CalculateGainTable] when the
    instance is configured, gates and limits the resulting gains and
    interpolates them over the samples.  The analog control raises or lowers
    the recording level from counters of how long the speech level has been
    outside two ranges around the target.

    The product interface owns one gain control with one instance on the heap;
    it processes blocks of 20 ms at 8 kHz.  The multi-channel wrapper keeps one
    instance per channel; render, capture and control threads share it under two
    locks.  Its audio comes from buffers that hold a frame as channels and bands,
    both as integers and as single-precision floats.

    ** The files

    - [Prelude]: the outcomes of a C computation ([res]), total weakest
      preconditions ([wp]), loops and bounds-checked memory accesses.
    - [CInt]: fixed-width integers with their conversions and checked
      arithmetic, their [wp] rules and the tactic [wp_step].
    - [Spl]: [digital_agc/signal_processing_library.{h,c}].
    - [Numeric]: [common_audio/spl_inl.h], [division_operations.c],
      [spl_sqrt_floor.c], [copy_set_operations.c].
    - [SafeNumerics]: [base/numerics/safe_conversions.h], [safe_compare.h] and
      [safe_minmax.h] on the integer types, and [dot_product_with_scale.cc].
    - [Clock]: calendar times and wrapping time stamps of [base/timeutils.cc].
    - [MessageQueue]: [base/messagequeue.{h,cc}].
    - [Qmf]: [common_audio/splitting_filter.c].
    - [Resample]: [common_audio/resample_by_2.c] and the resamplers by 2/3 and
      3/4 of [common_audio/resample_fractional.c].
    - [HalfBand]: [common_audio/resample_by_2_internal.c].
    - [Resample48]: [common_audio/resample_48khz.c].
    - [Resample22], [ResampleShapes]: the resamplers by 8/11 and
      [common_audio/resample.c], and the lengths and states of all resamplers.
    - [Resampler]: [common_audio/resampler/resampler.{h,cc}].
    - [Vad], [GainTable], [Digital]: the VAD, the compressor table and the
      digital AGC of [digital_agc/digital_agc.c].
    - [Instance]: the record [LegacyAgc] and the life cycle and configuration
      functions of [digital_agc/analog_agc.c].
    - [Mic]: the input functions of [analog_agc.c].
    - [Analog]: the analog control and [WebRtcAgc_Process], with the invariant
      [agc_ok] of the instance and the proofs that the stages of the control
      keep it.
    - [Session]: the outcome of each public operation on an instance that
      satisfies [agc_ok], and sessions as a step relation.
    - [Contract]: what the wrappers rely on, as the classes [AgcContract] (one band at
      8 kHz) and [AgcChannel] (any rate, any number of bands) over an abstract
      invariant; the instances discharge them with [agc_ok].
    - [GainControl]: [gain_control_impl.{h,cc}] on a heap of controllers.
    - [AudioProcessing]: [audio_processing_impl.{h,cc}], the abstract machine of
      the settings, and the step relation of the object.
    - [Wav]: [common_audio/wav_header.{h,cc}] and [wav_file.{h,cc}].
    - [Tool]: [spec/agc_spec.cc].
    - [AudioUtil]: [common_audio/audio_util.{h,cc}], with a model of finite
      single-precision numbers.
    - [ChannelBuffer]: [common_audio/channel_buffer.{h,cc}].
    - [Base64], [Base64White]: [base/base64.{h,cc}], and what white space means to the decoder.
    - [StringEncode], [StringFields]: [base/stringencode.{h,cc}], text in other forms and fields
      of strings.
    - [StringUtils]: [base/stringutils.{h,cc}].
    - [StringBuilder]: [base/strings/string_builder.{h,cc}] and the conversions of integers
      of [stringencode.cc].
    - [StringToNumber]: [base/string_to_number.{h,cc}] for integers.
    - [SslIdentity]: key parameters, PEM text and certificate times of [base/sslidentity.{h,cc}].
    - [BitrateAllocation]: [api/video/video_bitrate_allocation.{h,cc}].
    - [TimeDelta]: [api/units/time_delta.{h,cc}].
    - [Queues], [BufferQueue]: [base/swap_queue.h] and [base/bufferqueue.{h,cc}].
    - [CowBuffer]: byte buffers, reference counts and copy-on-write buffers of [base/buffer.h],
      [refcountedobject.h], [scoped_ref_ptr.h] and [copyonwritebuffer.{h,cc}].
    - [ByteOrder]: [base/byteorder.h], on hosts of either order.
    - [TcpSocket]: packets over a stream, [base/asynctcpsocket.{h,cc}].
    - [FifoBuffer]: the ring buffer of [base/stream.{h,cc}].
    - [SparseFir], [ThreeBand]: [common_audio/sparse_fir_filter.{h,cc}] and
      [three_band_filter_bank.{h,cc}].
    - [Double]: finite double-precision numbers and bounds for their rounding.
    - [Conversions]: the outcome of the conversions of [AudioUtil].
    - [Sinc]: [common_audio/resampler/sinc_resampler.{h,cc}] with both
      convolutions.
    - [PushSinc]: [push_sinc_resampler.{h,cc}] and [push_resampler.{h,cc}].
    - [AudioBuffer]: [api/audio/audio_frame.{h,cc}], [splitting_filter.{h,cc}] and
      [audio_buffer.{h,cc}].
    - [FloatBuffer]: the floating-point interface of [audio_buffer.{h,cc}].
    - [MultiControl]: [gain_control_impl_webrtc.{h,cc}] and the frame that
      [gain_control_unittest.cc] drives.
    - [MultiThreads]: the calls of that wrapper as sections under its locks, and
      their interleavings as a step relation.
    - [Locks]: the two critical sections as recursive locks ([base/criticalsection.{h,cc}]),
      the calls with the places where they enter and leave them, and threads.

    Functions and struct fields keep their names.  A long function is split at
    its own comment blocks or loops into stages, one definition each, that the
    definition with the name of the function composes in the order of the
    source.

    ** Conventions

    - A C integer is a [Z]; a variable that the code keeps at a width has the
      conversion to that width ([to_i16], [to_u32], ...) where the code
      assigns it.  Sizes of arrays are [nat]; sums and differences of [size_t] with
      numbers that the caller chooses wrap around ([size_plus]).  Arithmetic on [int] goes through [add32], [mul32], [shl32]
      and the like, which give [Fault SignedOverflow], [Fault ShiftRange] or
      [Fault DivByZero] where C leaves the result undefined; unsigned
      arithmetic wraps.  Two implementation-defined or undefined cases are
      taken as gcc and clang define them: [>>] of a negative value is the
      arithmetic shift and [<<] of a negative value a multiplication (which
      faults when the product does not fit).
    - An array is a list; an access goes through [rd] or [wr], which give
      [Fault OutOfBounds] outside it.
    - An error return is a value: an operation returns its code (0 or -1) and
      the state it leaves, also after an error.  A [Fault] means undefined
      behaviour, and a [wp] states that there is none.
    - Output parameters and arrays modified in place are returned.  Where the
      code relies on overlapping arrays ([resample_fractional.c], called in
      place) the model works on one memory with pointers; the all-pass cascade
      of [splitting_filter.c] returns the array it used as scratch space.
      [WebRtcAgc_ProcessDigital] copies its input to its output when they
      differ, so the same definition covers both uses.  Loops over independent
      bands run band by band where the source runs sample by sample.
    - Uninitialised memory ([WebRtcAgc_Create]) is an argument; what is proved
      about [WebRtcAgc_Init] holds for every content.
    - A pointer into a buffer is an offset into the list that holds the buffer;
      a controller of [GainControl] is an index into a heap, so that leaks and
      the indeterminate pointer of the constructor are visible.
    - [RTC_CHECK] and [RTC_DCHECK] are modelled as in a debug build: a check that
      fails gives [Fault AssertionFailed].
    - A file is a list of bytes; opening and writing it succeed.
    - A [float] or [double] is a finite number with an unlimited exponent; every
      operation is exact followed by one rounding to nearest, ties to even.
      Infinities do not occur: a division by zero is a fault.
    - The functions [sin] and [cos] of the C library, whose accuracy the language
      leaves open, are operations of the class [Libm]; nothing is assumed about
      them.  The class [Architecture] chooses between the two convolutions of the
      sinc resampler, [Build] whether checks for clang builds are compiled.

    ** What is shown

    - The product interface ([AudioProcessing], [GainControl]): the outcome of
      [ProcessStream] in every mode, the invariant of the object in every sequence
      of calls, and a refinement of the control functions to an abstract machine
      on the settings.
    - The tool ([Tool], [Wav]): it terminates on every file of 16-bit samples with the
      header that the writer makes, and its output is
      the file of what the object returns for the complete blocks; headers and
      files that are written are read back.
    - The multi-channel wrapper ([MultiControl], [MultiThreads], [Locks]): the outcome of a
      frame from the split to the merge, the independence of the channels, safety
      in every interleaving of the calls that keep one format, with all settings
      applied when no call is under way; and, for any calls, that the locks are taken
      and left so that no threads block each other for ever, that the members are
      accessed under [crit_capture_], and that every schedule ends.
    - Buffers ([AudioUtil], [ChannelBuffer], [AudioBuffer]): the views of a buffer
      are disjoint, its integer and its floating-point side stay in sync, and
      a frame survives being separated and interleaved again; streams of frames
      pass through a buffer that works at another rate than its devices.  The
      floating-point interface ([FloatBuffer]) gives back the documented conversion of
      the samples it took in; the conversions themselves ([Conversions]) are defined on
      every finite float and inverse where the types allow it.
    - The resamplers of the audio buffers ([Sinc], [PushSinc]): the rounded index of
      the sinc resampler stays so close to the exact position that every block
      asks for its input exactly once, for all pairs of the usual rates; so no
      check fails and no access is out of bounds.
    - The three-band filter bank ([ThreeBand]) does not see the boundaries of
      blocks, as the two-band bank of [Qmf].
    - The resampler class ([Resampler]): the outcome of [Reset] and [Push] in every
      mode, and where it departs from its header.
    - The containers and tools of the base library: the swap queue and the buffer
      queue are first-in first-out queues ([Queues], [BufferQueue]), the ring buffer is
      a tape ([FifoBuffer]), copy-on-write buffers act as if each had memory of its own
      ([CowBuffer]), a message queue accounts for all data it was given,
      those it drops after [Quit] included ([MessageQueue]), base64, hexadecimal and UTF-8 text is decoded to what was
      encoded ([Base64], [StringEncode]), splitting and joining are inverse
      ([StringFields]), wildcard patterns match what they stand for
      ([StringUtils]), builders hold the text that was appended ([StringBuilder]), a string is
      a number exactly if its digits stand for one of the type ([StringToNumber]), PEM text
      is read back ([SslIdentity]), packets arrive whole and in order over any stream and
      between hosts of any byte order ([TcpSocket], [ByteOrder]), a bitrate
      allocation keeps the sum of its layers and prints within its buffer
      ([BitrateAllocation]), durations are numbers with two infinities, printed exactly
      ([TimeDelta]), the safe
      comparisons, minima and clamps are those of the numbers ([SafeNumerics]), and
      calendar times are counted in the Gregorian calendar ([Clock]).
    - The public operations ([Session]): from [WebRtcAgc_Init] on, any
      interleaving of operations keeps [agc_ok]; [WebRtcAgc_ProcessAnalog] is
      total; [WebRtcAgc_AddMic] and [WebRtcAgc_VirtualMic] never take their
      error returns; [WebRtcAgc_Process] returns 16-bit samples and a level
      between the minimum output level and the analog maximum.  The only
      possible fault of an operation is one overflow inside the VAD it calls, on the
      frame it passes to it.  The queue between
      microphone and controller is first in, first out; with echo the level is
      never raised.
    - The digital AGC ([Digital], [GainTable], [Vad]): [ProcessDigital] is
      total up to the VAD overflow, which is characterised and shown
      reachable; the limiter loop terminates and its gains cannot clip a
      sample of the measured band; the table computation is free of faults.
    - Configuration ([Instance]): what is set is what is read back; every
      rejection with the state it leaves, and no others.
    - The libraries ([Spl], [Numeric], [Qmf], [Resample], [HalfBand]):
      filters never overflow on any stream (each state bound is an inductive
      invariant derived from the filter coefficients); square root, division,
      dot product and leading-zero count agree with their mathematical
      definitions; in-place resampling computes the convolution of the
      original input; block boundaries are invisible to the filter bank.
    - Where the code does not keep its promise a theorem shows the input:
      large compression gains, the limiter threshold, the wrapping envelope
      sum, the drifting frame energy, the weak range checks, the overflow of
      the VAD on 13 seconds of audio, leaked controllers, the pointer that is
      used before it is set, the stale format of [set_analog_level_limits], the packets of
      65536 bytes whose length does not fit, and certificate times that are read beyond
      their end.

    ** Bounds

    - The limiter loop is the only loop without a syntactic bound.  Each pass
      lowers the gain by the factor 253/256, and at most 1134 passes take the
      largest gain of the invariant to zero, where the loop stops;
      [limit_fuel] is 2048, and [limit_gain_spec] shows that it is not
      exhausted.
    - The theorems on [ProcessDigital] and on sessions assume at most 18 dB of
      compression gain (the default is 9); [compression_gain_overflows] shows
      that 19 dB do overflow.
    - The frame energy of the analog control drifts by less than one unit per
      block of 2 ms; the invariant counts the blocks, and [block_bound] = 2^27
      of them (three days of audio) keep it within 32 bits.
    - The level range has at least 42 and at most 104857 steps
      ([level_args_ok]): outside it the 32-bit products of the level overflow
      or the derived levels lose their order.
    - Full-scale input overflows the half-band filters with 15 extra bits;
      samples up to 5700 do not.  The fractional resamplers take inputs up to
      47000.  The resamplers of 48 kHz multiply the worst-case gains of two or
      three banks: their theorem is about samples up to 640, 500, 96 and 56.
    - The index of the sinc resampler is off by at most 2^-44 per operation; the
      room it has is 2^-5, so [max_calls] = 2^30 calls (four months of audio) are
      safe.  The fuel of its outer loop, two rounds per sample and two more, is
      enough since a call takes two rounds.
    - [ProcessInput] gets as much fuel as there are bytes and one more: every packet
      takes at least the two bytes of its length.

    ** What is not modelled

    [WebRtcAgc_Free] and other functions that only release memory; code behind
    [MIC_LEVEL_FEEDBACK] and [WEBRTC_AGC_DEBUG_DUMP], which the build does not
    define; the convolution for NEON; the safe numerics on floating-point and enumeration
    types; buffers that are cleared when they are freed, or filled by a function; the rest of
    the base library (threads, the sockets of the system, OpenSSL, the other streams), which
    the audio code does not call; clocks, logging and formatted output of
    floating-point numbers; the test frameworks;
    errors of the file system; the copies of AGC routines in [common_audio], which have the
    text of those in [digital_agc]. *)
From stdpp Require Export base list numbers option.
From Stdlib Require Export ZArith Lia.

Declare Scope agc_scope.
Delimit Scope agc_scope with agc.
#[global] Open Scope Z_scope.
#[global] Open Scope agc_scope.

(** ** Outcomes of a C computation

    A C expression or statement either produces a value or runs into one of the
    situations the C standard leaves undefined (or, for the one unbounded loop
    of the program, exhausts the fuel of the model). *)

Inductive fault : Set :=
| SignedOverflow
| ShiftRange
| DivByZero
| OutOfBounds
| NullPointer
| Uninitialized
| UseAfterFree
| ConversionRange
| AssertionFailed
| OutOfFuel.

#[export] Instance fault_eq_dec : EqDecision fault.
Proof. solve_decision. Defined.

Inductive res (A : Type) : Type :=
| Ok (a : A)
| Fault (f : fault).
Arguments Ok {A} a.
Arguments Fault {A} f.

#[export] Instance res_ret : MRet res := fun A => @Ok A.
#[export] Instance res_bind : MBind res :=
  fun A B k m => match m with Ok a => k a | Fault f => Fault f end.
#[export] Instance res_fmap : FMap res :=
  fun A B g m => match m with Ok a => Ok (g a) | Fault f => Fault f end.

Definition is_ok {A} (m : res A) : bool :=
  match m with Ok _ => true | Fault _ => false end.

(** ** Total-correctness weakest preconditions

    [wp m Q]: [m] produces a value (no undefined behaviour, no exhausted fuel)
    and that value satisfies [Q]. *)

Definition wp {A} (m : res A) (Q : A -> Prop) : Prop :=
  match m with Ok a => Q a | Fault _ => False end.

Lemma wp_ok {A} (m : res A) (Q : A -> Prop) :
  wp m Q <-> exists a, m = Ok a /\ Q a.
Proof. destruct m as [a|f]; simpl; split; [eauto|by intros (?&[=->]&?)|done|by intros (?&?&?)]. Qed.

Lemma wp_ret {A} (a : A) (Q : A -> Prop) : Q a -> wp (Ok a) Q.
Proof. done. Qed.

Lemma wp_mret {A} (a : A) (Q : A -> Prop) : Q a -> wp (mret a) Q.
Proof. done. Qed.

Lemma wp_bind {A B} (m : res A) (k : A -> res B) (Q : B -> Prop) :
  wp m (fun a => wp (k a) Q) -> wp (m ≫= k) Q.
Proof. by destruct m. Qed.

Lemma wp_mono {A} (m : res A) (P Q : A -> Prop) :
  wp m P -> (forall a, P a -> Q a) -> wp m Q.
Proof. destruct m; simpl; auto. Qed.

Lemma wp_and {A} (m : res A) (P Q : A -> Prop) :
  wp m P -> wp m Q -> wp m (fun a => P a /\ Q a).
Proof. destruct m; simpl; auto. Qed.

Lemma wp_eq {A} (m : res A) (a : A) (Q : A -> Prop) :
  m = Ok a -> Q a -> wp m Q.
Proof. by intros ->. Qed.

Lemma wp_pure {A} (m : res A) (a : A) : wp m (fun x => x = a) -> m = Ok a.
Proof. destruct m; simpl; [by intros ->|done]. Qed.

(** A sequence that ends does so through both of its parts. *)
Lemma bind_inv {A B} (m : res A) (k : A -> res B) b :
  m ≫= k = Ok b -> exists a, m = Ok a /\ k a = Ok b.
Proof. destruct m as [a|f]; [by exists a|done]. Qed.

(** Sequencing as an equation, for steps that only need rewriting. *)
Lemma bind_ok {A B} (a : A) (k : A -> res B) : Ok a ≫= k = k a.
Proof. done. Qed.

(** [upto m Q]: [m] returns a result in [Q] or overflows a signed integer. *)
Definition upto {A} (m : res A) (Q : A -> Prop) : Prop :=
  match m with Ok a => Q a | Fault f => f = SignedOverflow end.

Lemma upto_bind {A B} (m : res A) (k : A -> res B) (Q : B -> Prop) :
  upto m (fun a => upto (k a) Q) -> upto (m ≫= k) Q.
Proof. by destruct m. Qed.

Lemma upto_ret {A} (a : A) (Q : A -> Prop) : Q a -> upto (Ok a) Q.
Proof. done. Qed.

Lemma upto_mono {A} (m : res A) (P Q : A -> Prop) :
  upto m P -> (forall a, P a -> Q a) -> upto m Q.
Proof. destruct m; cbn; auto. Qed.

Lemma upto_wp {A} (m : res A) (Q : A -> Prop) : wp m Q -> upto m Q.
Proof. by destruct m. Qed.

Lemma upto_true {A} (m : res A) (Q : A -> Prop) :
  upto m (fun _ => True) -> (forall a, m = Ok a -> Q a) -> upto m Q.
Proof. destruct m; cbn; auto. Qed.

(** ** Loops

    [for_ n i body s] is [for (j = i; j < i + n; j++) s = body(j, s)]. *)

Fixpoint for_ {S} (n : nat) (i : Z) (body : Z -> S -> res S) (s : S) : res S :=
  match n with
  | O => Ok s
  | Datatypes.S n' => s' ← body i s; for_ n' (i + 1) body s'
  end.

Lemma wp_for {S} (I : Z -> S -> Prop) (n : nat) (i : Z) body (s : S)
    (Q : S -> Prop) :
  I i s ->
  (forall j t, i <= j < i + Z.of_nat n -> I j t -> wp (body j t) (I (j + 1))) ->
  (forall t, I (i + Z.of_nat n) t -> Q t) ->
  wp (for_ n i body s) Q.
Proof.
  revert i s. induction n as [|n IH]; intros i s Hi Hstep Hend; simpl.
  - apply Hend. by rewrite Z.add_0_r.
  - apply wp_bind. eapply wp_mono; [apply Hstep; [lia|done]|].
    intros t Ht. apply IH; [done| |].
    + intros j u Hj. apply Hstep. lia.
    + intros u Hu. apply Hend.
      by replace (i + Z.of_nat (Datatypes.S n))
        with (i + 1 + Z.of_nat n) by lia.
Qed.

(** [each f s l] threads [s] through the elements of [l], as a loop
    [for (x : l) s = f(s, x)] does. *)
Fixpoint each {S A} (f : S -> A -> res S) (s : S) (l : list A) : res S :=
  match l with
  | [] => Ok s
  | x :: l' => s' ← f s x; each f s' l'
  end.

Lemma each_app {S A} (f : S -> A -> res S) s l1 l2 :
  each f s (l1 ++ l2) = (t ← each f s l1; each f t l2).
Proof.
  revert s. induction l1 as [|a l1 IH]; intros s; cbn; [done|].
  destruct (f s a); cbn; [apply IH|done].
Qed.

Lemma wp_each {S A} (I : S -> Prop) (P : A -> Prop) f (s : S) (l : list A) :
  I s -> Forall P l ->
  (forall t x, I t -> P x -> wp (f t x) I) ->
  wp (each f s l) I.
Proof.
  intros Hs Hl Hf. revert s Hs.
  induction Hl as [|x l Hx Hl IH]; intros s Hs; simpl; [done|].
  apply wp_bind. eapply wp_mono; [by apply Hf|]. auto.
Qed.

(** ** Finite ranges

    A computable fact about the numbers below a constant is checked number by number. *)

Lemma below_all (n : nat) (P : Z -> Prop) v :
  Forall P (map Z.of_nat (seq 0 n)) -> 0 <= v < Z.of_nat n -> P v.
Proof.
  intros H Hv. apply (proj1 (List.Forall_forall _ _) H), in_map_iff. exists (Z.to_nat v).
  split; [lia|]. apply in_seq. lia.
Qed.

Ltac enumerate v n :=
  pattern v; apply (below_all n);
  [repeat (apply List.Forall_cons; [vm_compute; repeat split; done|]); apply List.Forall_nil|lia].

(** ** Arrays

    Arrays are lists; a read or write outside the bounds is undefined
    behaviour. *)

Definition zlen {A} (l : list A) : Z := Z.of_nat (length l).

Definition rd {A} (l : list A) (i : Z) : res A :=
  if i <? 0 then Fault OutOfBounds
  else match l !! Z.to_nat i with
       | Some v => Ok v
       | None => Fault OutOfBounds
       end.

Definition wr {A} (l : list A) (i : Z) (v : A) : res (list A) :=
  if (0 <=? i) && (i <? zlen l) then Ok (<[Z.to_nat i := v]> l)
  else Fault OutOfBounds.

(** [take_exact n l]: the [n] elements read from the pointer [l]. *)
Definition take_exact {A} (n : nat) (l : list A) : res (list A) :=
  if (n <=? length l)%nat then Ok (take n l) else Fault OutOfBounds.

Lemma wp_take_exact {A} n (l : list A) (Q : list A -> Prop) :
  (n <= length l)%nat -> Q (take n l) -> wp (take_exact n l) Q.
Proof. intros Hn HQ. unfold take_exact. by rewrite (proj2 (Nat.leb_le _ _)). Qed.

Lemma wp_rd {A} (l : list A) (i : Z) (Q : A -> Prop) :
  0 <= i < zlen l ->
  (forall v, l !! Z.to_nat i = Some v -> Q v) ->
  wp (rd l i) Q.
Proof.
  unfold rd, zlen. intros Hi HQ. rewrite (proj2 (Z.ltb_ge _ _)) by lia.
  destruct (lookup_lt_is_Some_2 l (Z.to_nat i)) as [v Hv]; [lia|].
  rewrite Hv. simpl. auto.
Qed.

Lemma upto_rd {A} (l : list A) (i : Z) (Q : A -> Prop) :
  0 <= i < zlen l -> (forall v, Q v) -> upto (rd l i) Q.
Proof. intros Hi HQ. apply upto_wp, wp_rd; auto. Qed.

Lemma wp_rd_Forall {A} (P : A -> Prop) (l : list A) (i : Z) (Q : A -> Prop) :
  Forall P l -> 0 <= i < zlen l -> (forall v, P v -> Q v) -> wp (rd l i) Q.
Proof.
  intros Hl Hi HQ. apply wp_rd; [done|]. intros v Hv. apply HQ.
  by eapply Forall_lookup_1.
Qed.

Lemma wp_wr {A} (l : list A) (i : Z) (v : A) (Q : list A -> Prop) :
  0 <= i < zlen l -> Q (<[Z.to_nat i := v]> l) -> wp (wr l i v) Q.
Proof.
  unfold wr. intros Hi HQ.
  by rewrite (proj2 (Z.leb_le _ _)), (proj2 (Z.ltb_lt _ _)) by lia.
Qed.

Lemma wr_ok {A} (l : list A) i v : (i < length l)%nat -> wr l (Z.of_nat i) v = Ok (<[i := v]> l).
Proof. intros H. apply wp_pure, wp_wr; [unfold zlen; lia|by rewrite Nat2Z.id]. Qed.

Lemma zlen_insert {A} (l : list A) i v : zlen (<[i := v]> l) = zlen l.
Proof. unfold zlen. by rewrite length_insert. Qed.

Lemma zlen_nonneg {A} (l : list A) : 0 <= zlen l.
Proof. unfold zlen. lia. Qed.

(** ** Sums *)

Fixpoint zsum (l : list Z) : Z := match l with [] => 0 | x :: l' => x + zsum l' end.

Lemma zsum_app l1 l2 : zsum (l1 ++ l2) = zsum l1 + zsum l2.
Proof. induction l1 as [|x l1 IH]; cbn; lia. Qed.

Lemma zsum_insert l k old v :
  l !! k = Some old -> zsum (<[k := v]> l) = zsum l - old + v.
Proof.
  revert k. induction l as [|x l IH]; intros [|k]; try done; intros Hk.
  - injection Hk as ->. cbn. lia.
  - change (x + zsum (<[k := v]> l) = x + zsum l - old + v).
    rewrite (IH _ Hk). lia.
Qed.

Lemma zsum_bounds lo hi (P : Z -> Prop) l :
  (forall x, P x -> lo <= x <= hi) -> Forall P l ->
  lo * zlen l <= zsum l <= hi * zlen l.
Proof.
  unfold zlen. intros HP. induction 1 as [|x l Hx _ IH]; cbn [zsum length]; [lia|].
  specialize (HP x Hx). lia.
Qed.

(** ** Record updates

    [field_setter eta f] builds the function that replaces field [f], given the
    eta expansion [fun s => Mk (f1 s) (f2 s) ...] of the record. *)

Ltac field_setter eta f :=
  let e := eval cbv beta delta [eta] in eta in
  match eval pattern f in e with
  | ?g _ => let t := eval cbv beta in (fun v s => g (fun _ => v) s) in exact t
  end.

(** [s |> f]: the state after the assignment [f]. *)
Notation "s |> f" := (f s) (at level 50, left associativity, only parsing)
  : agc_scope.

(** ** Case analysis on the conditions of the code *)

Ltac case_if :=
  match goal with
  | |- context [if ?a <? ?b then _ else _] =>
      destruct (Z.ltb_spec a b)
  | |- context [if ?a <=? ?b then _ else _] =>
      destruct (Z.leb_spec a b)
  | |- context [if ?a =? ?b then _ else _] =>
      destruct (Z.eqb_spec a b)
  | |- context [if negb (?a =? ?b) then _ else _] =>
      destruct (Z.eqb_spec a b); cbn [negb]
  | |- context [if ?a then _ else _] =>
      let H := fresh "Hb" in destruct a eqn:H
  end.

Create HintDb agc discriminated.
#[export] Hint Resolve wp_ret wp_mret : agc.
