(* ===== verification/CInt.v ===== *)
(** * C integers

    The fixed-width integers of the program as ranges of [Z], the conversions
    between them, and the arithmetic of the C types [int], [uint32_t] and
    [int64_t] on the targets of the build (gcc and clang, 32-bit [int], two's
    complement):

    - a signed result outside the range of its type is the fault
      [SignedOverflow]; a shift count outside [0, 31] is [ShiftRange]; a zero
      divisor is [DivByZero];
    - unsigned arithmetic and conversions to a narrower type wrap;
    - [>>] on a negative value is the arithmetic shift, and [<<] on a negative
      value is a multiplication (both as gcc and clang define them). *)
From S2P Require Import Prelude.

Abbreviation INT16_MIN := (-32768).
Abbreviation INT16_MAX := 32767.
Abbreviation INT32_MIN := (-2147483648).
Abbreviation INT32_MAX := 2147483647.
Abbreviation UINT32_MAX := 4294967295.
Abbreviation INT64_MIN := (-9223372036854775808).
Abbreviation INT64_MAX := 9223372036854775807.

Definition i16 (x : Z) : Prop := INT16_MIN <= x <= INT16_MAX.
Definition i32 (x : Z) : Prop := INT32_MIN <= x <= INT32_MAX.
Definition i64 (x : Z) : Prop := INT64_MIN <= x <= INT64_MAX.
Definition u8 (x : Z) : Prop := 0 <= x <= 255.
Definition u16 (x : Z) : Prop := 0 <= x <= 65535.
Definition u32 (x : Z) : Prop := 0 <= x <= UINT32_MAX.

(** Conversions: [(int16_t)x], [(int32_t)x], [(uint8_t)x], ... *)
Definition to_i16 (x : Z) : Z := (x + 32768) mod 65536 - 32768.
Definition to_i32 (x : Z) : Z := (x + 2147483648) mod 4294967296 - 2147483648.
Definition to_u8 (x : Z) : Z := x mod 256.
Definition to_u16 (x : Z) : Z := x mod 65536.
Definition to_u32 (x : Z) : Z := x mod 4294967296.

(** Arithmetic of [int] (and of [int32_t] and the promoted 16-bit types). *)
Definition chk32 (x : Z) : res Z :=
  if (INT32_MIN <=? x) && (x <=? INT32_MAX) then Ok x else Fault SignedOverflow.
Definition add32 (a b : Z) : res Z := chk32 (a + b).
Definition sub32 (a b : Z) : res Z := chk32 (a - b).
Definition mul32 (a b : Z) : res Z := chk32 (a * b).
Definition neg32 (a : Z) : res Z := chk32 (- a).
Definition div32 (a b : Z) : res Z :=
  if b =? 0 then Fault DivByZero else chk32 (Z.quot a b).
Definition rem32 (a b : Z) : res Z :=
  if b =? 0 then Fault DivByZero
  else if (a =? INT32_MIN) && (b =? -1) then Fault SignedOverflow
  else Ok (Z.rem a b).
Definition shl32 (a c : Z) : res Z :=
  if (0 <=? c) && (c <=? 31) then chk32 (Z.shiftl a c) else Fault ShiftRange.
Definition shr32 (a c : Z) : res Z :=
  if (0 <=? c) && (c <=? 31) then Ok (Z.shiftr a c) else Fault ShiftRange.

(** Arithmetic of [int64_t]. *)
Definition chk64 (x : Z) : res Z :=
  if (INT64_MIN <=? x) && (x <=? INT64_MAX) then Ok x else Fault SignedOverflow.
Definition add64 (a b : Z) : res Z := chk64 (a + b).
Definition mul64 (a b : Z) : res Z := chk64 (a * b).

(** Arithmetic of [uint32_t]. *)
Definition addu (a b : Z) : Z := to_u32 (a + b).
Definition subu (a b : Z) : Z := to_u32 (a - b).
Definition mulu (a b : Z) : Z := to_u32 (a * b).
Definition shlu (a c : Z) : res Z :=
  if (0 <=? c) && (c <=? 31) then Ok (to_u32 (Z.shiftl a c))
  else Fault ShiftRange.
Definition shru (a c : Z) : res Z :=
  if (0 <=? c) && (c <=? 31) then Ok (Z.shiftr a c) else Fault ShiftRange.

(** ** Linear arithmetic over shifts, masks and casts *)

Lemma land_mask x n : 0 <= n -> Z.land x (2 ^ n - 1) = x mod 2 ^ n.
Proof.
  intros Hn. rewrite <- Z.land_ones by done.
  by rewrite Z.ones_equiv, <- Z.sub_1_r.
Qed.

Lemma land_ffff x : Z.land x 65535 = x mod 65536.
Proof. apply (land_mask x 16). lia. Qed.
Lemma land_3fff x : Z.land x 16383 = x mod 16384.
Proof. apply (land_mask x 14). lia. Qed.
Lemma land_1fff x : Z.land x 8191 = x mod 8192.
Proof. apply (land_mask x 13). lia. Qed.
Lemma land_7fffffff x : Z.land x 2147483647 = x mod 2147483648.
Proof. apply (land_mask x 31). lia. Qed.

Create Rewrite HintDb cbits.
#[export] Hint Rewrite land_ffff land_3fff land_1fff land_7fffffff : cbits.
#[export] Hint Rewrite Z.shiftr_div_pow2 Z.shiftl_mul_pow2 using lia : cbits.

Ltac eval_pow2 :=
  repeat match goal with
    | |- context [2 ^ Zpos ?p] =>
        let v := eval compute in (2 ^ Zpos p) in change (2 ^ Zpos p) with v
    | H : context [2 ^ Zpos ?p] |- _ =>
        let v := eval compute in (2 ^ Zpos p) in change (2 ^ Zpos p) with v in H
    end.

Ltac unfold_ranges :=
  unfold addu, subu, mulu in *;
  unfold to_i16, to_i32, to_u8, to_u16, to_u32,
    i16, i32, i64, u8, u16, u32 in *.

(** [cint]: linear integer arithmetic after expanding ranges, casts, masks and
    shifts by constants. *)
Ltac cint :=
  unfold_ranges; autorewrite with cbits in *; eval_pow2;
  Z.to_euclidean_division_equations; lia.

Lemma to_i16_id x : i16 x -> to_i16 x = x.
Proof. intros. cint. Qed.
Lemma to_i32_id x : i32 x -> to_i32 x = x.
Proof. intros. cint. Qed.
Lemma to_u16_id x : u16 x -> to_u16 x = x.
Proof. intros. cint. Qed.
Lemma to_u32_id x : u32 x -> to_u32 x = x.
Proof. intros. cint. Qed.

(** Wrapping twice is wrapping once. *)
Lemma addu_wrap_l x y : addu (to_u32 x) y = to_u32 (x + y).
Proof. unfold addu, to_u32. apply Z.add_mod_idemp_l. lia. Qed.
Lemma to_i32_u32 x : to_i32 (to_u32 x) = to_i32 x.
Proof. unfold to_i32, to_u32. by rewrite Z.add_mod_idemp_l by lia. Qed.

Lemma to_i16_range x : i16 (to_i16 x).
Proof. cint. Qed.
Lemma to_i32_range x : i32 (to_i32 x).
Proof. cint. Qed.
Lemma to_u8_range x : u8 (to_u8 x).
Proof. cint. Qed.
Lemma to_u16_range x : u16 (to_u16 x).
Proof. cint. Qed.
Lemma to_u32_range x : u32 (to_u32 x).
Proof. cint. Qed.
#[export] Hint Resolve to_i16_range to_i32_range to_u8_range to_u16_range
  to_u32_range : agc.

(** ** Proof rules for the checked operations *)

Lemma wp_chk32 x (Q : Z -> Prop) : i32 x -> Q x -> wp (chk32 x) Q.
Proof.
  unfold chk32, i32. intros Hx HQ.
  by rewrite (proj2 (Z.leb_le _ _)), (proj2 (Z.leb_le _ _)) by lia.
Qed.

Lemma upto_chk32 x (Q : Z -> Prop) : (i32 x -> Q x) -> upto (chk32 x) Q.
Proof.
  unfold chk32, i32. intros HQ. case_match eqn:E; [|done]. apply HQ.
  apply andb_prop in E as [E1%Z.leb_le E2%Z.leb_le]. done.
Qed.

Lemma wp_chk64 x (Q : Z -> Prop) : i64 x -> Q x -> wp (chk64 x) Q.
Proof.
  unfold chk64, i64. intros Hx HQ.
  by rewrite (proj2 (Z.leb_le _ _)), (proj2 (Z.leb_le _ _)) by lia.
Qed.

Lemma chk32_ok x : i32 x -> chk32 x = Ok x.
Proof. intros. by apply wp_pure, wp_chk32. Qed.

Lemma chk32_fault x : ~ i32 x -> chk32 x = Fault SignedOverflow.
Proof.
  unfold chk32, i32. intros Hx.
  destruct (Z.leb_spec INT32_MIN x), (Z.leb_spec x INT32_MAX);
    simpl; auto; lia.
Qed.

Section rules.
Context (a b : Z) (Q : Z -> Prop).

Lemma wp_add32 : i32 (a + b) -> Q (a + b) -> wp (add32 a b) Q.
Proof. apply wp_chk32. Qed.
Lemma wp_sub32 : i32 (a - b) -> Q (a - b) -> wp (sub32 a b) Q.
Proof. apply wp_chk32. Qed.
Lemma wp_mul32 : i32 (a * b) -> Q (a * b) -> wp (mul32 a b) Q.
Proof. apply wp_chk32. Qed.
Lemma wp_neg32 : i32 (- a) -> Q (- a) -> wp (neg32 a) Q.
Proof. apply wp_chk32. Qed.
Lemma wp_add64 : i64 (a + b) -> Q (a + b) -> wp (add64 a b) Q.
Proof. apply wp_chk64. Qed.
Lemma wp_mul64 : i64 (a * b) -> Q (a * b) -> wp (mul64 a b) Q.
Proof. apply wp_chk64. Qed.

Lemma wp_div32 :
  b <> 0 -> i32 (Z.quot a b) -> Q (Z.quot a b) -> wp (div32 a b) Q.
Proof.
  unfold div32. intros Hb. destruct (Z.eqb_spec b 0); [done|].
  apply wp_chk32.
Qed.

Lemma wp_rem32 :
  b <> 0 -> (a <> INT32_MIN \/ b <> -1) -> Q (Z.rem a b) ->
  wp (rem32 a b) Q.
Proof.
  unfold rem32. intros Hb Hab HQ.
  destruct (Z.eqb_spec b 0); [done|].
  destruct (Z.eqb_spec a INT32_MIN), (Z.eqb_spec b (-1));
    simpl; auto; lia.
Qed.

Lemma wp_shl32 :
  0 <= b <= 31 -> i32 (Z.shiftl a b) -> Q (Z.shiftl a b) ->
  wp (shl32 a b) Q.
Proof.
  unfold shl32. intros Hb.
  rewrite (proj2 (Z.leb_le _ _)), (proj2 (Z.leb_le _ _)) by lia.
  apply wp_chk32.
Qed.

Lemma wp_shr32 : 0 <= b <= 31 -> Q (Z.shiftr a b) -> wp (shr32 a b) Q.
Proof.
  unfold shr32. intros Hb HQ.
  by rewrite (proj2 (Z.leb_le _ _)), (proj2 (Z.leb_le _ _)) by lia.
Qed.

Lemma wp_shlu :
  0 <= b <= 31 -> Q (to_u32 (Z.shiftl a b)) -> wp (shlu a b) Q.
Proof.
  unfold shlu. intros Hb HQ.
  by rewrite (proj2 (Z.leb_le _ _)), (proj2 (Z.leb_le _ _)) by lia.
Qed.

Lemma wp_shru : 0 <= b <= 31 -> Q (Z.shiftr a b) -> wp (shru a b) Q.
Proof.
  unfold shru. intros Hb HQ.
  by rewrite (proj2 (Z.leb_le _ _)), (proj2 (Z.leb_le _ _)) by lia.
Qed.
End rules.

(** [wp_step] executes one statement whose side conditions are linear;
    [wp_run] executes as many as it can. *)
Ltac wp_step :=
  lazymatch goal with
  | |- wp (_ ≫= _) _ => apply wp_bind
  | |- wp (Ok _) _ => apply wp_ret
  | |- wp (mret _) _ => apply wp_mret
  | |- wp (chk32 _) _ => apply wp_chk32; [cint|]
  | |- wp (add32 _ _) _ => apply wp_add32; [cint|]
  | |- wp (sub32 _ _) _ => apply wp_sub32; [cint|]
  | |- wp (mul32 _ _) _ => apply wp_mul32; [cint|]
  | |- wp (neg32 _) _ => apply wp_neg32; [cint|]
  | |- wp (div32 _ _) _ => apply wp_div32; [cint|cint|]
  | |- wp (rem32 _ _) _ => apply wp_rem32; [cint|cint|]
  | |- wp (shl32 _ _) _ => apply wp_shl32; [cint|cint|]
  | |- wp (shr32 _ _) _ => apply wp_shr32; [cint|]
  | |- wp (shlu _ _) _ => apply wp_shlu; [cint|]
  | |- wp (shru _ _) _ => apply wp_shru; [cint|]
  | |- wp (add64 _ _) _ => apply wp_add64; [cint|]
  | |- wp (mul64 _ _) _ => apply wp_mul64; [cint|]
  end; cbv beta.

Ltac wp_run := repeat wp_step.

(** [upto_step] executes one statement that can only overflow. *)
Ltac upto_step :=
  lazymatch goal with
  | |- upto (_ ≫= _) _ => apply upto_bind
  | |- upto (Ok _) _ => apply upto_ret
  | |- upto (chk32 _) _ => apply upto_chk32; intros _
  | |- upto (add32 _ _) _ => apply upto_chk32; intros _
  | |- upto (sub32 _ _) _ => apply upto_chk32; intros _
  | |- upto (mul32 _ _) _ => apply upto_chk32; intros _
  | |- upto (rd _ _) _ => apply upto_rd; [unfold zlen; lia|intros ?]
  end; cbv beta.
