(* ===== verification/Spl.v ===== *)
(** * Signal processing library

    [digital_agc/signal_processing_library.h] and
    [digital_agc/signal_processing_library.c]: leading-zero counts and norms,
    guarded division, saturation, the fixed-point square root, the polyphase
    half-band decimator and the scaled dot product. *)
From S2P Require Import Prelude CInt.

(** ** Macros and inline functions (signal_processing_library.h) *)

Definition WEBRTC_SPL_WORD32_MAX : Z := INT32_MAX.
Definition WEBRTC_SPL_WORD32_MIN : Z := INT32_MIN.

Definition WebRtcSpl_CountLeadingZeros32 (n : Z) : Z :=
  if n =? 0 then 32 else 31 - Z.log2 n.

Definition WebRtcSpl_NormW32 (a : Z) : Z :=
  if a =? 0 then 0
  else WebRtcSpl_CountLeadingZeros32 (if a <? 0 then Z.lnot a else a) - 1.

Definition WebRtcSpl_NormU32 (a : Z) : Z :=
  if a =? 0 then 0 else WebRtcSpl_CountLeadingZeros32 a.

(** [C + (B >> 16) * A] is computed in [int], the low product and the final sum
    in [uint32_t]: the value of the macro is a [uint32_t]. *)
Definition WEBRTC_SPL_SCALEDIFF32 (A B C : Z) : res Z :=
  hi ← mul32 (Z.shiftr B 16) A;
  s ← add32 C hi;
  Ok (addu (to_u32 s) (Z.shiftr (mulu (Z.land B 65535) A) 16)).

Definition WEBRTC_SPL_MIN (A B : Z) : Z := if A <? B then A else B.
Definition WEBRTC_SPL_MAX (A B : Z) : Z := if B <? A then A else B.
Definition WEBRTC_SPL_ABS_W32 (a : Z) : res Z :=
  if 0 <=? a then Ok a else neg32 a.
Definition WEBRTC_SPL_UMUL (a b : Z) : Z := mulu (to_u32 a) (to_u32 b).
Definition WEBRTC_SPL_UMUL_32_16 (a b : Z) : Z := mulu (to_u32 a) (to_u16 b).
Definition WEBRTC_SPL_MUL_16_U16 (a b : Z) : res Z :=
  mul32 (to_i16 a) (to_u16 b).

Definition kResampleAllpass1 : list Z := [3284; 24441; 49528].
Definition kResampleAllpass2 : list Z := [12199; 37471; 60255].

(** [MUL_ACCUM_1] and [MUL_ACCUM_2] are the same macro; every use stores the
    result in an [int32_t]. *)
Definition MUL_ACCUM (a b c : Z) : res Z :=
  to_i32 <$> WEBRTC_SPL_SCALEDIFF32 a b c.

Definition WEBRTC_SPL_SHIFT_W32 (x c : Z) : res Z :=
  if 0 <=? c then (p ← shl32 1 c; mul32 x p) else shr32 x (- c).
Definition WEBRTC_SPL_LSHIFT_W32 (x c : Z) : res Z := shl32 x c.

Definition WebRtcSpl_SatW32ToW16 (value32 : Z) : Z :=
  if INT16_MAX <? value32 then INT16_MAX
  else if value32 <? INT16_MIN then INT16_MIN
  else to_i16 value32.

Definition WebRtcSpl_AddSatW16 (a b : Z) : res Z :=
  s ← add32 a b; Ok (WebRtcSpl_SatW32ToW16 s).

(** ** Guarded division *)

Definition WebRtcSpl_DivW32W16ResW16 (num den : Z) : res Z :=
  if negb (den =? 0) then (q ← div32 num den; Ok (to_i16 q))
  else Ok 32767.

Definition WebRtcSpl_DivW32W16 (num den : Z) : res Z :=
  if negb (den =? 0) then div32 num den else Ok INT32_MAX.

(** ** Square root *)

Definition WebRtcSpl_SqrtLocal (inp : Z) : res Z :=
  B ← div32 inp 2;
  B ← sub32 B 1073741824;
  let x_half := to_i16 (Z.shiftr B 16) in
  B ← add32 B 1073741824;
  B ← add32 B 1073741824;
  x2 ← mul32 x_half x_half;
  x2 ← mul32 x2 2;
  A ← neg32 x2;
  B ← add32 B (Z.shiftr A 1);
  let A := Z.shiftr A 16 in
  A ← mul32 A A;
  A ← mul32 A 2;
  let t16 := to_i16 (Z.shiftr A 16) in
  t ← mul32 (-20480) t16;
  t ← mul32 t 2;
  B ← add32 B t;
  A ← mul32 x_half t16;
  A ← mul32 A 2;
  let t16 := to_i16 (Z.shiftr A 16) in
  t ← mul32 28672 t16;
  t ← mul32 t 2;
  B ← add32 B t;
  let t16 := to_i16 (Z.shiftr x2 16) in
  A ← mul32 x_half t16;
  A ← mul32 A 2;
  B ← add32 B (Z.shiftr A 1);
  add32 B 32768.

Definition k_sqrt_2 : Z := 23170.

(** The part of [WebRtcSpl_Sqrt] after the sign of the argument is removed. *)
Definition sqrt_positive (A : Z) : res Z :=
  let sh := WebRtcSpl_NormW32 A in
  A ← WEBRTC_SPL_LSHIFT_W32 A sh;
  A ← (if A <? WEBRTC_SPL_WORD32_MAX - 32767 then add32 A 32768
       else Ok WEBRTC_SPL_WORD32_MAX);
  let x_norm := to_i16 (Z.shiftr A 16) in
  nshift ← div32 sh 2;
  if nshift <? 0 then Ok (-1) else
  A ← WEBRTC_SPL_LSHIFT_W32 x_norm 16;
  A ← WEBRTC_SPL_ABS_W32 A;
  A ← WebRtcSpl_SqrtLocal A;
  A ← (if 2 * nshift =? sh then
         let t16 := to_i16 (Z.shiftr A 16) in
         A ← mul32 k_sqrt_2 t16;
         A ← mul32 A 2;
         A ← add32 A 32768;
         let A := Z.land A 2147418112 in
         Ok (Z.shiftr A 15)
       else Ok (Z.shiftr A 16));
  let A := Z.land A 65535 in
  shr32 A nshift.

Definition WebRtcSpl_Sqrt (value : Z) : res Z :=
  if value <? 0 then
    if value =? WEBRTC_SPL_WORD32_MIN then sqrt_positive WEBRTC_SPL_WORD32_MAX
    else (A ← neg32 value; sqrt_positive A)
  else if value =? 0 then Ok 0
  else sqrt_positive value.

(** ** Memory *)

(** The loop overwrites the first [length] elements of the array. *)
Fixpoint WebRtcSpl_MemSetW32 (ptr : list Z) (set_value : Z) (len : nat)
    : res (list Z) :=
  match len with
  | O => Ok ptr
  | S len' =>
      match ptr with
      | [] => Fault OutOfBounds
      | _ :: ptr' =>
          rest ← WebRtcSpl_MemSetW32 ptr' set_value len';
          Ok (set_value :: rest)
      end
  end.

(** ** Decimator: two cascades of three first-order all-pass filters *)

Record allpass8 := AllPass8 {
  state0 : Z; state1 : Z; state2 : Z; state3 : Z;
  state4 : Z; state5 : Z; state6 : Z; state7 : Z
}.

Definition load_allpass8 (filtState : list Z) : res allpass8 :=
  s0 ← rd filtState 0; s1 ← rd filtState 1;
  s2 ← rd filtState 2; s3 ← rd filtState 3;
  s4 ← rd filtState 4; s5 ← rd filtState 5;
  s6 ← rd filtState 6; s7 ← rd filtState 7;
  Ok (AllPass8 s0 s1 s2 s3 s4 s5 s6 s7).

Definition store_allpass8 (st : allpass8) (filtState : list Z) : list Z :=
  [state0 st; state1 st; state2 st; state3 st;
   state4 st; state5 st; state6 st; state7 st] ++ drop 8 filtState.

(** One cascade: the input, the coefficients and the four state registers
    ([x[-1]] and the last outputs of the three sections). *)
Definition allpass_cascade (a0 a1 a2 : Z) (in32 : Z) (s0 s1 s2 s3 : Z)
    : res (Z * Z * Z * Z) :=
  diff ← sub32 in32 s1;
  tmp1 ← MUL_ACCUM a0 diff s0;
  diff ← sub32 tmp1 s2;
  tmp2 ← MUL_ACCUM a1 diff s1;
  diff ← sub32 tmp2 s3;
  s3' ← MUL_ACCUM a2 diff s2;
  Ok (in32, tmp1, tmp2, s3').

Definition downsample_sample (in0 in1 : Z) (st : allpass8)
    : res (allpass8 * Z) :=
  in32 ← mul32 in0 1024;
  '(s0, s1, s2, s3) ← allpass_cascade 12199 37471 60255 in32
      (state0 st) (state1 st) (state2 st) (state3 st);
  in32 ← mul32 in1 1024;
  '(s4, s5, s6, s7) ← allpass_cascade 3284 24441 49528 in32
      (state4 st) (state5 st) (state6 st) (state7 st);
  t ← add32 s3 s7;
  t ← add32 t 1024;
  let out32 := Z.shiftr t 11 in
  Ok (AllPass8 s0 s1 s2 s3 s4 s5 s6 s7, WebRtcSpl_SatW32ToW16 out32).

Fixpoint downsample_loop (n : nat) (inp : list Z) (st : allpass8)
    : res (allpass8 * list Z) :=
  match n with
  | O => Ok (st, [])
  | S n' =>
      in0 ← rd inp 0;
      in1 ← rd inp 1;
      '(st, o) ← downsample_sample in0 in1 st;
      '(st, os) ← downsample_loop n' (drop 2 inp) st;
      Ok (st, o :: os)
  end.

(** Returns the [len >> 1] output samples and the updated filter state. *)
Definition WebRtcSpl_DownsampleBy2 (inp : list Z) (len : nat)
    (filtState : list Z) : res (list Z * list Z) :=
  st ← load_allpass8 filtState;
  '(st, out) ← downsample_loop (len / 2) inp st;
  Ok (out, store_allpass8 st filtState).

(** ** Scaled dot product *)

Definition dot_term (sum a b scaling : Z) : res Z :=
  p ← mul32 a b; q ← shr32 p scaling; add64 sum q.

Fixpoint dot_tail (vector1 vector2 : list Z) (n : nat) (scaling sum : Z)
    : res Z :=
  match n with
  | O => Ok sum
  | S n' =>
      a ← rd vector1 0; b ← rd vector2 0;
      sum ← dot_term sum a b scaling;
      dot_tail (drop 1 vector1) (drop 1 vector2) n' scaling sum
  end.

(** The loop unrolled by four, then the remaining products. *)
Fixpoint dot_unrolled (vector1 vector2 : list Z) (n : nat) (scaling sum : Z)
    : res Z :=
  match n with
  | S (S (S (S n'))) =>
      a ← rd vector1 0; b ← rd vector2 0; sum ← dot_term sum a b scaling;
      a ← rd vector1 1; b ← rd vector2 1; sum ← dot_term sum a b scaling;
      a ← rd vector1 2; b ← rd vector2 2; sum ← dot_term sum a b scaling;
      a ← rd vector1 3; b ← rd vector2 3; sum ← dot_term sum a b scaling;
      dot_unrolled (drop 4 vector1) (drop 4 vector2) n' scaling sum
  | _ => dot_tail vector1 vector2 n scaling sum
  end.

Definition WebRtcSpl_DotProductWithScale (vector1 vector2 : list Z)
    (length : nat) (scaling : Z) : res Z :=
  sum ← dot_unrolled vector1 vector2 length scaling 0;
  let sum := if WEBRTC_SPL_WORD32_MAX <? sum then WEBRTC_SPL_WORD32_MAX
             else if sum <? WEBRTC_SPL_WORD32_MIN then WEBRTC_SPL_WORD32_MIN
             else sum in
  Ok (to_i32 sum).

(** * Lemmas *)

(** ** Norms *)

Lemma clz_bounds n :
  0 < n <= UINT32_MAX -> 0 <= WebRtcSpl_CountLeadingZeros32 n <= 31.
Proof.
  intros Hn. unfold WebRtcSpl_CountLeadingZeros32.
  destruct (Z.eqb_spec n 0); [lia|].
  pose proof (Z.log2_nonneg n).
  assert (Z.log2 n < 32) by (apply Z.log2_lt_pow2; lia). lia.
Qed.

(** Shifting left by the number of leading zeros puts the top bit in place. *)
Lemma clz_normalizes n :
  0 < n <= UINT32_MAX ->
  2 ^ 31 <= n * 2 ^ WebRtcSpl_CountLeadingZeros32 n < 2 ^ 32.
Proof.
  intros Hn. pose proof (clz_bounds n Hn) as Hc.
  unfold WebRtcSpl_CountLeadingZeros32 in *.
  destruct (Z.eqb_spec n 0); [lia|].
  destruct (Z.log2_spec n) as [Hlo Hhi]; [lia|].
  pose proof (Z.log2_nonneg n).
  set (k := Z.log2 n) in *.
  assert (0 < 2 ^ (31 - k)) by (apply Z.pow_pos_nonneg; lia).
  assert (E1 : 2 ^ k * 2 ^ (31 - k) = 2 ^ 31)
    by (rewrite <- Z.pow_add_r by lia; f_equal; lia).
  assert (E2 : 2 ^ Z.succ k * 2 ^ (31 - k) = 2 ^ 32)
    by (rewrite <- Z.pow_add_r by lia; f_equal; lia).
  split; [rewrite <- E1|rewrite <- E2].
  - apply Z.mul_le_mono_nonneg_r; lia.
  - apply Z.mul_lt_mono_pos_r; lia.
Qed.

Lemma normW32_pos a :
  0 < a <= INT32_MAX ->
  0 <= WebRtcSpl_NormW32 a <= 30 /\
  2 ^ 30 <= a * 2 ^ WebRtcSpl_NormW32 a < 2 ^ 31.
Proof.
  intros Ha. unfold WebRtcSpl_NormW32.
  destruct (Z.eqb_spec a 0); [lia|].
  destruct (Z.ltb_spec a 0); [lia|].
  pose proof (clz_bounds a ltac:(lia)) as Hb.
  pose proof (clz_normalizes a ltac:(lia)) as Hn.
  set (c := WebRtcSpl_CountLeadingZeros32 a) in *.
  destruct (Z.eq_dec c 0) as [E|E].
  { rewrite E in Hn. cbn in Hn. lia. }
  assert (Hp : 2 ^ c = 2 * 2 ^ (c - 1))
    by (rewrite <- Z.pow_succ_r by lia; f_equal; lia).
  rewrite Hp in Hn. lia.
Qed.

Lemma normU32_pos a :
  0 < a <= UINT32_MAX ->
  0 <= WebRtcSpl_NormU32 a <= 31 /\
  2 ^ 31 <= a * 2 ^ WebRtcSpl_NormU32 a < 2 ^ 32.
Proof.
  intros Ha. unfold WebRtcSpl_NormU32.
  destruct (Z.eqb_spec a 0); [lia|].
  split; [by apply clz_bounds|by apply clz_normalizes].
Qed.

(** ** Saturation *)

Lemma sat_clamp v :
  WebRtcSpl_SatW32ToW16 v = Z.max INT16_MIN (Z.min INT16_MAX v).
Proof.
  unfold WebRtcSpl_SatW32ToW16.
  destruct (Z.ltb_spec INT16_MAX v); [lia|].
  destruct (Z.ltb_spec v INT16_MIN); [lia|].
  rewrite to_i16_id; unfold i16; lia.
Qed.

Lemma sat_i16 v : i16 (WebRtcSpl_SatW32ToW16 v).
Proof. rewrite sat_clamp. cint. Qed.
#[export] Hint Resolve sat_i16 : agc.

(** ** Guarded division *)

Lemma quot_pos_bounds a b :
  0 < b -> - Z.abs a <= Z.quot a b <= Z.abs a.
Proof. intros Hb. Z.to_euclidean_division_equations. nia. Qed.

Lemma wp_DivW32W16ResW16 num den (Q : Z -> Prop) :
  i32 num -> 0 < den -> Q (to_i16 (Z.quot num den)) ->
  wp (WebRtcSpl_DivW32W16ResW16 num den) Q.
Proof.
  intros Hn Hd HQ. unfold WebRtcSpl_DivW32W16ResW16.
  destruct (Z.eqb_spec den 0); [lia|]; simpl negb; cbv iota.
  apply wp_bind, wp_div32; [done| |done].
  unfold i32 in *. Z.to_euclidean_division_equations. nia.
Qed.

Lemma wp_DivW32W16 num den (Q : Z -> Prop) :
  i32 num -> 0 < den -> Q (Z.quot num den) ->
  wp (WebRtcSpl_DivW32W16 num den) Q.
Proof.
  intros Hn Hd HQ. unfold WebRtcSpl_DivW32W16.
  destruct (Z.eqb_spec den 0); [lia|]; simpl negb; cbv iota.
  apply wp_div32; [done| |done].
  unfold i32 in *. Z.to_euclidean_division_equations. nia.
Qed.

(** ** The multiply-accumulate of the filters

    When nothing overflows, [MUL_ACCUM a b c] is [c + floor (a * b / 2^16)]. *)

Lemma scale_split a b :
  Z.shiftr b 16 * a + Z.shiftr (Z.land b 65535 * a) 16 = (a * b) / 65536.
Proof.
  autorewrite with cbits; eval_pow2.
  rewrite (Z.div_mod b 65536) at 3 by lia.
  replace (a * (65536 * (b / 65536) + b mod 65536))
    with (b mod 65536 * a + b / 65536 * a * 65536) by ring.
  rewrite Z.div_add by lia. lia.
Qed.

Lemma wp_MUL_ACCUM a b c (Q : Z -> Prop) :
  u16 a -> i32 b -> i32 (c + Z.shiftr b 16 * a) ->
  i32 (c + (a * b) / 65536) ->
  Q (c + (a * b) / 65536) -> wp (MUL_ACCUM a b c) Q.
Proof.
  intros Ha Hb Hc Hr HQ. unfold MUL_ACCUM, WEBRTC_SPL_SCALEDIFF32.
  assert (Hhi : -32768 <= Z.shiftr b 16 <= 32767) by cint.
  assert (Hmul : i32 (Z.shiftr b 16 * a)) by (unfold u16, i32 in *; nia).
  unfold mul32. rewrite (chk32_ok _ Hmul). simpl.
  unfold add32. rewrite (chk32_ok _ Hc). simpl.
  assert (Hlo : 0 <= Z.land b 65535 * a < 4294967296).
  { assert (0 <= Z.land b 65535 <= 65535) by cint. unfold u16 in Ha. nia. }
  assert (E : mulu (Z.land b 65535) a = Z.land b 65535 * a)
    by (unfold mulu, to_u32; rewrite Z.mod_small; lia).
  rewrite E. revert HQ Hr. rewrite <- scale_split.
  generalize (Z.shiftr (Z.land b 65535 * a) 16); intros l.
  generalize (Z.shiftr b 16 * a); intros h HQ Hr.
  replace (to_i32 _) with (c + (h + l)); [done|].
  by rewrite addu_wrap_l, to_i32_u32, Z.add_assoc, to_i32_id by (clear -Hr; cint).
Qed.

(** ** Stability of the all-pass sections

    One section computes [y = p + floor (a (x - q) / 2^16)] from the input [x],
    the previous input [p] and the previous output [q].  For inputs bounded by
    [X] the quantity [2^16 p - a q] stays below [(2^16 + a) X] up to a rounding
    slack, which bounds the output: the section is an invariant of the state,
    not of a finite number of samples. *)

Definition ap_slack (a : Z) : Z := 65536 * a / (65536 - a) + 1.
Definition ap_gain (a X : Z) : Z :=
  ((65536 + 2 * a) * X + ap_slack a) / 65536 + 1.

Definition ap_section (a X p q : Z) : Prop :=
  - X <= p <= X /\
  - ((65536 + a) * X + ap_slack a) <= 65536 * p - a * q
    <= (65536 + a) * X + ap_slack a /\
  - ap_gain a X <= q <= ap_gain a X.

Lemma ap_slack_spec a :
  0 <= a < 65536 -> 65536 * a <= ap_slack a * (65536 - a).
Proof.
  intros Ha. unfold ap_slack.
  pose proof (Z.div_mod (65536 * a) (65536 - a) ltac:(lia)).
  pose proof (Z.mod_pos_bound (65536 * a) (65536 - a) ltac:(lia)). nia.
Qed.

Lemma ap_section_step a X p q x :
  0 <= a < 65536 -> 0 <= X -> - X <= x <= X -> ap_section a X p q ->
  ap_section a X x (p + (a * (x - q)) / 65536).
Proof.
  intros Ha HX Hx (Hp & He & Hq).
  pose proof (ap_slack_spec a Ha) as HK.
  pose proof (Z.div_mod (a * (x - q)) 65536 ltac:(lia)) as Hd.
  pose proof (Z.mod_pos_bound (a * (x - q)) 65536 ltac:(lia)) as Hr.
  set (r := (a * (x - q)) mod 65536) in *.
  set (y := p + (a * (x - q)) / 65536).
  set (e := 65536 * p - a * q) in *.
  set (K := ap_slack a) in *.
  assert (Ey : 65536 * y = e + a * x - r) by (subst y e; lia).
  assert (Ha2 : 0 <= 65536 * 65536 - a * a) by nia.
  assert (Hx1 : (65536 * 65536 - a * a) * x <= (65536 * 65536 - a * a) * X)
    by (apply Z.mul_le_mono_nonneg_l; lia).
  assert (Hx2 : (65536 * 65536 - a * a) * - X <= (65536 * 65536 - a * a) * x)
    by (apply Z.mul_le_mono_nonneg_l; lia).
  assert (He1 : a * e <= a * ((65536 + a) * X + K))
    by (apply Z.mul_le_mono_nonneg_l; lia).
  assert (He2 : a * - ((65536 + a) * X + K) <= a * e)
    by (apply Z.mul_le_mono_nonneg_l; lia).
  assert (Hr1 : 0 <= a * r <= a * 65535) by (split; nia).
  assert (Hax : - (a * X) <= a * x <= a * X) by (split; nia).
  unfold ap_section, ap_gain. fold y K. clearbody y e r K. clear Hd Hq.
  assert (Hsum : -65536 - ((65536 + 2 * a) * X + K) <= 65536 * y
                 <= (65536 + 2 * a) * X + K) by lia.
  repeat split; try lia.
  all: Z.to_euclidean_division_equations; lia.
Qed.

(** The state of a cascade of three sections: each section's output is the next
    one's input. *)
Definition cascade_ok (a0 a1 a2 X s0 s1 s2 s3 : Z) : Prop :=
  let X1 := ap_gain a0 X in
  let X2 := ap_gain a1 X1 in
  ap_section a0 X s0 s1 /\ ap_section a1 X1 s1 s2 /\ ap_section a2 X2 s2 s3.

(** The static condition under which no intermediate value overflows. *)
Definition cascade_fits (a0 a1 a2 X : Z) : bool :=
  let X1 := ap_gain a0 X in
  let X2 := ap_gain a1 X1 in
  let X3 := ap_gain a2 X2 in
  forallb (fun a => (0 <=? a) && (a <? 65536)) [a0; a1; a2] &&
  forallb (fun x => (0 <=? x) && (x <=? 536870912)) [X; X1; X2; X3].

Lemma wp_MUL_ACCUM_small a x p q (Q : Z -> Prop) :
  0 <= a < 65536 -> -536870912 <= p <= 536870912 ->
  -1073741824 <= x - q <= 1073741824 ->
  Q (p + (a * (x - q)) / 65536) -> wp (MUL_ACCUM a (x - q) p) Q.
Proof.
  intros Ha Hp Hd HQ.
  assert (Hm : -1073741824 <= a * (x - q) / 65536 <= 1073741824).
  { split; [apply Z.div_le_lower_bound|apply Z.div_le_upper_bound]; nia. }
  assert (Hs : -1073741824 <= Z.shiftr (x - q) 16 * a <= 1073741824).
  { assert (-16384 <= Z.shiftr (x - q) 16 <= 16384) by cint. nia. }
  apply wp_MUL_ACCUM; [unfold u16|..]; try done; unfold i32; lia.
Qed.

Lemma wp_allpass_cascade a0 a1 a2 X x s0 s1 s2 s3 :
  cascade_fits a0 a1 a2 X = true -> - X <= x <= X ->
  cascade_ok a0 a1 a2 X s0 s1 s2 s3 ->
  wp (allpass_cascade a0 a1 a2 x s0 s1 s2 s3)
     (fun '(t0, t1, t2, t3) =>
        cascade_ok a0 a1 a2 X t0 t1 t2 t3 /\
        - 536870912 <= t3 <= 536870912).
Proof.
  unfold cascade_fits, cascade_ok. simpl.
  set (X1 := ap_gain a0 X). set (X2 := ap_gain a1 X1).
  set (X3 := ap_gain a2 X2).
  intros Hfit Hx (H0 & H1 & H2).
  rewrite !andb_true_iff, !Z.leb_le, !Z.ltb_lt in Hfit.
  destruct Hfit as [(? & ? & ? & _) (? & ? & ? & ? & _)].
  pose proof (ap_section_step a0 X s0 s1 x ltac:(lia) ltac:(lia) Hx H0) as H0'.
  pose proof H0' as (_ & _ & Hy1). fold X1 in Hy1.
  pose proof (ap_section_step a1 X1 s1 s2 _ ltac:(lia) ltac:(lia) Hy1 H1) as H1'.
  pose proof H1' as (_ & _ & Hy2). fold X2 in Hy2.
  pose proof (ap_section_step a2 X2 s2 s3 _ ltac:(lia) ltac:(lia) Hy2 H2) as H2'.
  pose proof H2' as (_ & _ & Hy3). fold X3 in Hy3.
  destruct H0 as (Hs0 & _ & Hs1), H1 as (Hs1' & _ & Hs2),
    H2 as (Hs2' & _ & Hs3). fold X1 in Hs1. fold X2 in Hs2. fold X3 in Hs3.
  unfold allpass_cascade.
  wp_step. apply wp_sub32; [unfold i32; lia|].
  wp_step. apply wp_MUL_ACCUM_small; [lia..|].
  wp_step. apply wp_sub32; [unfold i32; lia|].
  wp_step. apply wp_MUL_ACCUM_small; [lia..|].
  wp_step. apply wp_sub32; [unfold i32; lia|].
  wp_step. apply wp_MUL_ACCUM_small; [lia..|].
  apply wp_ret. split; [done|lia].
Qed.

Definition samples16 : list Z -> Prop := Forall i16.

(** The state invariant of the decimator: both cascades, inputs in Q10. *)
Definition downsample_ok (st : allpass8) : Prop :=
  cascade_ok 12199 37471 60255 33554432
    (state0 st) (state1 st) (state2 st) (state3 st) /\
  cascade_ok 3284 24441 49528 33554432
    (state4 st) (state5 st) (state6 st) (state7 st).

Lemma downsample_ok_zero : downsample_ok (AllPass8 0 0 0 0 0 0 0 0).
Proof. vm_compute. intuition discriminate. Qed.

Lemma wp_downsample_sample in0 in1 st :
  i16 in0 -> i16 in1 -> downsample_ok st ->
  wp (downsample_sample in0 in1 st)
     (fun '(st', o) => downsample_ok st' /\ i16 o).
Proof.
  intros H0 H1 [Hl Hu]. unfold downsample_sample.
  do 2 wp_step. wp_step. eapply wp_mono.
  { apply (wp_allpass_cascade _ _ _ 33554432);
      [vm_compute; reflexivity|unfold i16 in *; lia|exact Hl]. }
  intros [[[s0 s1] s2] s3] [Hc Hs3].
  do 2 wp_step. wp_step. eapply wp_mono.
  { apply (wp_allpass_cascade _ _ _ 33554432);
      [vm_compute; reflexivity|unfold i16 in *; lia|exact Hu]. }
  intros [[[s4 s5] s6] s7] [Hc' Hs7].
  clear Hl Hu. wp_run. split; [by split|apply sat_i16].
Qed.

Lemma wp_downsample_loop n inp st :
  samples16 inp -> (2 * n <= length inp)%nat -> downsample_ok st ->
  wp (downsample_loop n inp st)
     (fun '(st', out) =>
        downsample_ok st' /\ samples16 out /\ length out = n).
Proof.
  revert inp st. induction n as [|n IH]; intros inp st Hin Hlen Hst; simpl.
  { split; [exact Hst|split; [by apply Forall_nil|done]]. }
  wp_step. apply (wp_rd_Forall i16); [done|unfold zlen; lia|]; intros in0 H0.
  wp_step. apply (wp_rd_Forall i16); [done|unfold zlen; lia|]; intros in1 H1.
  wp_step. eapply wp_mono; [by apply wp_downsample_sample|].
  intros [st' o] [Hst' Ho].
  wp_step. eapply wp_mono.
  { apply IH; [by apply Forall_drop|rewrite length_drop; lia|done]. }
  intros [st'' os] (Hst'' & Hos & Hl). simpl.
  split; [exact Hst''|split; [by apply Forall_cons|simpl; lia]].
Qed.

(** ** Scaled dot product *)

(** The mathematical value: the sum of the shifted products. *)
Fixpoint dot_spec (v1 v2 : list Z) (n : nat) (scaling : Z) {struct n} : Z :=
  match n, v1, v2 with
  | S n', a :: v1', b :: v2' =>
      Z.shiftr (a * b) scaling + dot_spec v1' v2' n' scaling
  | _, _, _ => 0
  end.

Lemma shifted_product_bounds a b k :
  i16 a -> i16 b -> 0 <= k <= 31 ->
  -1073741824 <= Z.shiftr (a * b) k <= 1073741824.
Proof.
  unfold i16. intros Ha Hb Hk. rewrite Z.shiftr_div_pow2 by lia.
  assert (Hp : 0 < 2 ^ k) by (apply Z.pow_pos_nonneg; lia).
  assert (-1073741824 <= a * b <= 1073741824) by nia.
  split; [apply Z.div_le_lower_bound|apply Z.div_le_upper_bound]; nia.
Qed.

Definition dot_headroom (sum : Z) (n : nat) : Prop :=
  - (INT64_MAX - Z.of_nat n * 1073741824) <= sum
  <= INT64_MAX - Z.of_nat n * 1073741824.

Lemma dot_term_ok sum a b k n :
  i16 a -> i16 b -> 0 <= k <= 31 -> dot_headroom sum (S n) ->
  dot_term sum a b k = Ok (sum + Z.shiftr (a * b) k) /\
  dot_headroom (sum + Z.shiftr (a * b) k) n.
Proof.
  unfold dot_headroom. intros Ha Hb Hk Hs.
  pose proof (shifted_product_bounds a b k Ha Hb Hk).
  split; [|lia]. apply wp_pure. unfold dot_term.
  wp_step. apply wp_mul32; [unfold i16, i32 in *; nia|].
  wp_step. apply wp_shr32; [done|]. apply wp_add64; [unfold i64; lia|done].
Qed.

Lemma dot_tail_spec v1 v2 n k sum :
  samples16 v1 -> samples16 v2 -> (n <= length v1)%nat -> (n <= length v2)%nat ->
  0 <= k <= 31 -> dot_headroom sum n ->
  dot_tail v1 v2 n k sum = Ok (sum + dot_spec v1 v2 n k).
Proof.
  revert v1 v2 sum. induction n as [|n IH]; intros v1 v2 sum H1 H2 L1 L2 Hk Hs.
  { simpl. by rewrite Z.add_0_r. }
  destruct v1 as [|a v1], v2 as [|b v2]; simpl in L1, L2; try lia.
  inversion_clear H1; inversion_clear H2. simpl.
  destruct (dot_term_ok sum a b k n) as [-> Hs']; [done..|]. simpl.
  rewrite !drop_0, IH by (done || lia). f_equal. lia.
Qed.

(** The unrolled loop computes what the plain loop computes. *)
Lemma dot_unrolled_eq_tail v1 v2 n k sum :
  dot_unrolled v1 v2 n k sum = dot_tail v1 v2 n k sum.
Proof.
  revert v1 v2 sum. induction n as [n IH] using lt_wf_ind; intros v1 v2 sum.
  destruct n as [|[|[|[|n]]]]; try done.
  simpl dot_unrolled. simpl dot_tail.
  rewrite !drop_drop. simpl Nat.add.
  assert (R : forall (v : list Z) (i j : nat),
    rd (drop i v) (Z.of_nat j) = rd v (Z.of_nat (i + j))).
  { intros v i j. unfold rd. rewrite !(proj2 (Z.ltb_ge _ 0)) by lia.
    by rewrite !Nat2Z.id, lookup_drop. }
  pose proof (fun v => R v 1%nat 0%nat) as R1.
  pose proof (fun v => R v 2%nat 0%nat) as R2.
  pose proof (fun v => R v 3%nat 0%nat) as R3. simpl in R1, R2, R3.
  rewrite !R1, !R2, !R3.
  change (Z.of_nat 1) with 1; change (Z.of_nat 2) with 2;
    change (Z.of_nat 3) with 3.
  repeat (match goal with
    | |- (?m ≫= _) = (?m ≫= _) => destruct m; simpl; [|done]
    end).
  apply IH. lia.
Qed.

(** ** Square root: no undefined behaviour, and the range of the result *)

Lemma wp_SqrtLocal inp :
  1073741824 <= inp <= 2147418112 ->
  wp (WebRtcSpl_SqrtLocal inp) (fun B => 1073741824 <= B <= INT32_MAX).
Proof.
  intros Hin. unfold WebRtcSpl_SqrtLocal. do 4 wp_step.
  remember (to_i16 (Z.shiftr (Z.quot inp 2 - 1073741824) 16)) as xh eqn:Exh.
  assert (Hxh : -8192 <= xh <= -1) by (subst xh; cint).
  assert (Hrel : 65536 * xh <= Z.quot inp 2 - 1073741824 < 65536 * xh + 65536)
    by (subst xh; cint).
  assert (Hh : Z.quot inp 2 <= 1073709056) by cint.
  remember (Z.quot inp 2) as h eqn:Eh. clear Exh Eh Hin.
  do 4 wp_step.
  wp_step. apply wp_mul32; [cint || (unfold i32; nia)|].
  assert (Hsq : 1 <= xh * xh <= 67108864) by nia.
  assert (Hcub : xh * xh <= - 8192 * xh) by nia.
  remember (xh * xh) as sq eqn:Esq.
  do 2 wp_step. do 2 wp_step. do 2 wp_step.
  remember (Z.shiftr (- (sq * 2)) 16) as A eqn:EA.
  assert (HA : -2048 <= A <= -1) by (subst A; cint).
  assert (HA' : 65536 * A <= - (sq * 2) < 65536 * A + 65536) by (subst A; cint).
  wp_step. apply wp_mul32; [unfold i32; nia|].
  assert (HA2 : 1 <= A * A <= - 2048 * A) by nia.
  remember (A * A) as AA eqn:EAA.
  do 2 wp_step.
  remember (to_i16 (Z.shiftr (AA * 2) 16)) as t eqn:Et.
  assert (Ht : 0 <= t <= 128) by (subst t; cint).
  assert (Ht' : 65536 * t <= AA * 2) by (subst t; cint).
  do 6 wp_step.
  wp_step. apply wp_mul32; [unfold i32; nia|].
  assert (Hxt : - 128 * 8192 <= xh * t <= 0) by nia.
  remember (xh * t) as xt eqn:Ext.
  do 2 wp_step.
  remember (to_i16 (Z.shiftr (xt * 2) 16)) as t2 eqn:Et2.
  assert (Ht2 : -32 <= t2 <= 0) by (subst t2; cint).
  do 6 wp_step.
  remember (to_i16 (Z.shiftr (sq * 2) 16)) as t3 eqn:Et3.
  assert (Ht3 : 0 <= t3 <= 2048) by (subst t3; cint).
  assert (Ht3' : 65536 * t3 <= sq * 2) by (subst t3; cint).
  wp_step. apply wp_mul32; [unfold i32; nia|].
  assert (Hxt3 : - 2048 * 8192 <= xh * t3 <= 0) by nia.
  remember (xh * t3) as xt3 eqn:Ext3.
  wp_run; cint.
Qed.

Lemma wp_sqrt_positive v :
  0 < v <= INT32_MAX ->
  wp (sqrt_positive v)
     (fun r => 0 <= r <= 65535 /\ (v < 1073741824 -> r <= 32767)).
Proof.
  intros Hv. unfold sqrt_positive, WEBRTC_SPL_LSHIFT_W32.
  destruct (normW32_pos v Hv) as [Hsh Hn].
  remember (WebRtcSpl_NormW32 v) as sh eqn:Esh.
  assert (Hsl : Z.shiftl v sh = v * 2 ^ sh) by (apply Z.shiftl_mul_pow2; lia).
  assert (Hsh0 : v < 1073741824 -> 1 <= sh).
  { intros. destruct (Z.eq_dec sh 0) as [->|]; [|lia]. cbn in Hn. lia. }
  wp_step. apply wp_shl32; [lia|rewrite Hsl; unfold i32; lia|].
  rewrite Hsl. remember (v * 2 ^ sh) as w eqn:Ew. clear Ew Hsl Esh.
  cbn in Hn.
  wp_step. apply (wp_mono _ (fun A => 1073741824 <= A <= INT32_MAX)).
  { unfold WEBRTC_SPL_WORD32_MAX. case_if; wp_run; cint. }
  intros A HA.
  remember (to_i16 (Z.shiftr A 16)) as xn eqn:Exn.
  assert (Hxn : 16384 <= xn <= 32767) by (subst xn; cint). clear Exn.
  wp_step. apply wp_div32; [lia|cint|].
  assert (Hns : 0 <= Z.quot sh 2 <= 15) by cint.
  assert (Hns1 : 2 * Z.quot sh 2 = sh -> v < 1073741824 -> 1 <= Z.quot sh 2)
    by lia.
  remember (Z.quot sh 2) as ns eqn:Ens. clear Ens.
  case_if; [lia|].
  wp_step. apply wp_shl32; [lia|cint|].
  wp_step. unfold WEBRTC_SPL_ABS_W32. case_if; [|cint]. apply wp_ret.
  wp_step. eapply wp_mono; [apply wp_SqrtLocal; cint|]. intros B HB. simpl in HB.
  wp_step.
  apply (wp_mono _ (fun C => 0 <= C <= 65535 /\
                     (2 * ns <> sh -> C <= 32767))).
  { unfold k_sqrt_2. case_if; wp_run.
    - remember (23170 * to_i16 (Z.shiftr B 16) * 2 + 32768) as u eqn:Eu.
      assert (0 <= Z.land u 2147418112 <= INT32_MAX).
      { split; [apply Z.land_nonneg; lia|].
        apply Z.lt_succ_r. change (Z.succ INT32_MAX) with (2 ^ 31).
        apply (Z.le_lt_trans _ (Z.land 2147418112 2147418112)); [|done].
        rewrite Z.land_diag, Z.land_comm. apply Z.ldiff_le; [lia|].
        rewrite Z.land_comm. apply Z.bits_inj'. intros i Hi.
        rewrite Z.ldiff_spec, Z.land_spec, Z.bits_0.
        by destruct (Z.testbit u i), (Z.testbit 2147418112 i). }
      cint.
    - cint. }
  intros C [HC HC']. rewrite land_ffff, Z.mod_small by lia.
  apply wp_shr32; [lia|].
  rewrite Z.shiftr_div_pow2 by lia.
  assert (1 <= 2 ^ ns) by (apply Z.lt_pred_le, Z.pow_pos_nonneg; lia).
  assert (HC2 : 0 <= C / 2 ^ ns <= C).
  { split; [apply Z.div_pos; lia|].
    apply Z.div_le_upper_bound; [lia|]. nia. }
  split; [lia|]. intros Hlt.
  destruct (Z.eq_dec (2 * ns) sh) as [E|E]; [|lia].
  assert (Hp : 2 ^ ns = 2 * 2 ^ (ns - 1))
    by (rewrite <- Z.pow_succ_r by lia; f_equal; lia).
  assert (1 <= 2 ^ (ns - 1)) by (apply Z.lt_pred_le, Z.pow_pos_nonneg; lia).
  apply Z.lt_succ_r, Z.div_lt_upper_bound; nia.
Qed.

Lemma wp_Sqrt v :
  i32 v ->
  wp (WebRtcSpl_Sqrt v)
     (fun r => 0 <= r <= 65535 /\ (Z.abs v < 1073741824 -> r <= 32767) /\
               (v = 0 -> r = 0)).
Proof.
  intros Hv. unfold WebRtcSpl_Sqrt, WEBRTC_SPL_WORD32_MIN, WEBRTC_SPL_WORD32_MAX.
  repeat case_if; [| |wp_run; lia|].
  - eapply wp_mono; [by apply wp_sqrt_positive|].
    intros r [? _]. simpl in *. lia.
  - wp_step. apply wp_neg32; [cint|].
    eapply wp_mono; [apply wp_sqrt_positive; cint|].
    intros r [? ?]. simpl in *. lia.
  - eapply wp_mono; [apply wp_sqrt_positive; cint|].
    intros r [? ?]. simpl in *. lia.
Qed.

(** ** The library functions on arrays *)

(** The eight-word filter state as an array. *)
Definition filt_ok (filtState : list Z) : Prop :=
  match filtState with
  | [s0; s1; s2; s3; s4; s5; s6; s7] =>
      downsample_ok (AllPass8 s0 s1 s2 s3 s4 s5 s6 s7)
  | _ => False
  end.

Lemma filt_ok_zero : filt_ok (replicate 8 0).
Proof. apply downsample_ok_zero. Qed.

Lemma wp_DownsampleBy2 inp len fs :
  samples16 inp -> (2 * (len / 2) <= length inp)%nat -> filt_ok fs ->
  wp (WebRtcSpl_DownsampleBy2 inp len fs)
     (fun '(out, fs') =>
        filt_ok fs' /\ samples16 out /\ length out = (len / 2)%nat).
Proof.
  intros Hin Hlen Hfs. unfold WebRtcSpl_DownsampleBy2.
  destruct fs as [|s0 [|s1 [|s2 [|s3 [|s4 [|s5 [|s6 [|s7 [|]]]]]]]]];
    simpl in Hfs; try done.
  wp_step. apply wp_ret.
  wp_step. eapply wp_mono; [by apply wp_downsample_loop|].
  intros [[] out] (Hst & Hout & Hl). done.
Qed.

(** A stream of blocks through one filter state. *)
Definition downsample_stream (len : nat) (blocks : list (list Z))
    (fs : list Z) : res (list Z) :=
  each (fun fs inp => '(_, fs') ← WebRtcSpl_DownsampleBy2 inp len fs; Ok fs')
    fs blocks.

(** The decimator never overflows: from the zero state, a stream of any
    number of blocks of 16-bit samples is filtered without undefined behaviour,
    however long it runs, and the state keeps its invariant. *)
Lemma downsample_stream_total len blocks :
  Forall (fun b => samples16 b /\ length b = len) blocks ->
  exists fs, downsample_stream len blocks (replicate 8 0) = Ok fs /\ filt_ok fs.
Proof.
  intros Hb. apply wp_ok. unfold downsample_stream.
  eapply (wp_each filt_ok); [apply filt_ok_zero|exact Hb|].
  intros fs b Hfs [Hs Hl]. wp_step. eapply wp_mono.
  { apply wp_DownsampleBy2; [done| |done].
    rewrite Hl. pose proof (Nat.div_mod_eq len 2). lia. }
  intros [out fs'] [Hfs' _]. exact Hfs'.
Qed.


(** The scaled dot product, whose loop is unrolled by four and accumulates
    in 64 bits, is the sum of the shifted products clamped to 32 bits, for any
    length below 2^32. *)
Lemma DotProductWithScale_spec v1 v2 n k :
  samples16 v1 -> samples16 v2 ->
  (n <= length v1)%nat -> (n <= length v2)%nat ->
  Z.of_nat n < 2 ^ 32 -> 0 <= k <= 31 ->
  WebRtcSpl_DotProductWithScale v1 v2 n k =
  Ok (Z.max INT32_MIN (Z.min INT32_MAX (dot_spec v1 v2 n k))).
Proof.
  intros H1 H2 L1 L2 Hn Hk. unfold WebRtcSpl_DotProductWithScale.
  rewrite dot_unrolled_eq_tail, dot_tail_spec; try done.
  2:{ unfold dot_headroom. lia. }
  simpl. unfold WEBRTC_SPL_WORD32_MAX, WEBRTC_SPL_WORD32_MIN.
  generalize (dot_spec v1 v2 n k). intros x. f_equal.
  repeat case_if; rewrite to_i32_id; unfold i32; lia.
Qed.

(** The fixed-point square root has no undefined behaviour on any 32-bit
    argument, [INT32_MIN] included; its result is between 0 and 65535, and fits
    in 16 signed bits when the magnitude of the argument is below 2^30 (what
    the callers, which narrow it to [int16_t], rely on). *)
Lemma Sqrt_total v :
  i32 v ->
  exists r, WebRtcSpl_Sqrt v = Ok r /\ 0 <= r <= 65535 /\
            (Z.abs v < 2 ^ 30 -> i16 r).
Proof.
  intros Hv. apply wp_ok. eapply wp_mono; [by apply wp_Sqrt|].
  intros r (H1 & H2 & _). split; [done|].
  intros Hlt. unfold i16. lia.
Qed.
