(* ===== verification/Numeric.v ===== *)
(** * Numeric routines of common_audio

    [common_audio/spl_inl.h] (saturating arithmetic, bit counting),
    [common_audio/division_operations.c], [common_audio/spl_sqrt_floor.c] and
    [common_audio/copy_set_operations.c].  The functions these files share with
    [digital_agc/signal_processing_library.c] have the same text there and are
    modelled in [Spl]. *)
From S2P Require Import Prelude CInt Spl.

(** ** Saturating arithmetic (spl_inl.h) *)

Definition WebRtcSpl_AddSatW32 (a b : Z) : Z :=
  let sum := to_i32 (addu (to_u32 a) (to_u32 b)) in
  if Bool.eqb (a <? 0) (b <? 0) && negb (Bool.eqb (a <? 0) (sum <? 0))
  then (if sum <? 0 then INT32_MAX else INT32_MIN)
  else sum.

Definition WebRtcSpl_SubSatW32 (a b : Z) : Z :=
  let diff := to_i32 (subu (to_u32 a) (to_u32 b)) in
  if negb (Bool.eqb (a <? 0) (b <? 0)) && negb (Bool.eqb (a <? 0) (diff <? 0))
  then (if diff <? 0 then INT32_MAX else INT32_MIN)
  else diff.

Definition WebRtcSpl_SubSatW16 (var1 var2 : Z) : res Z :=
  d ← sub32 var1 var2; Ok (WebRtcSpl_SatW32ToW16 d).

(** ** Bit counting (spl_inl.h) *)

Definition WebRtcSpl_GetSizeInBits (n : Z) : Z :=
  32 - WebRtcSpl_CountLeadingZeros32 n.

Definition WebRtcSpl_NormW16 (a : Z) : Z :=
  if a =? 0 then 0
  else WebRtcSpl_CountLeadingZeros32 (if a <? 0 then Z.lnot a else a) - 17.

Definition WebRtc_MulAccumW16 (a b c : Z) : res Z :=
  p ← mul32 a b; add32 p c.

(** Copies every bit of [n] to all lower positions. *)
Definition smear (n : Z) : Z :=
  let n := Z.lor n (Z.shiftr n 1) in
  let n := Z.lor n (Z.shiftr n 2) in
  let n := Z.lor n (Z.shiftr n 4) in
  let n := Z.lor n (Z.shiftr n 8) in
  Z.lor n (Z.shiftr n 16).

(** The index of the look-up: the six top bits of the product. *)
Definition clz_index (n : Z) : Z := Z.shiftr (mulu n 2349541521) 26.

(** [table] is [kWebRtcSpl_CountLeadingZeros32_Table], which is declared
    [extern] and defined outside the sources. *)
Definition WebRtcSpl_CountLeadingZeros32_NotBuiltin (table : list Z) (n : Z)
    : res Z := rd table (clz_index (smear n)).

Definition WebRtcSpl_CountLeadingZeros64_NotBuiltin (table : list Z) (n : Z) : res Z :=
  let leading_zeros := if Z.shiftr n 32 =? 0 then 32 else 0 in
  c ← WebRtcSpl_CountLeadingZeros32_NotBuiltin table (to_u32 (Z.shiftr n (32 - leading_zeros)));
  Ok (leading_zeros + c).

(** The builtin for 64 bits. *)
Definition WebRtcSpl_CountLeadingZeros64 (n : Z) : Z :=
  if n =? 0 then 64 else 63 - Z.log2 n.

(** ** Division (division_operations.c) *)

Definition WebRtcSpl_DivU32U16 (num den : Z) : Z :=
  if negb (den =? 0) then Z.quot num den else UINT32_MAX.

(** One round of the long division: [div], [L_num]. *)
Definition q31_step (L_den : Z) (k : Z) (s : Z * Z) : res (Z * Z) :=
  let '(div, L_num) := s in
  div ← shl32 div 1;
  L_num ← shl32 L_num 1;
  if L_den <=? L_num then
    L_num ← sub32 L_num L_den;
    div ← add32 div 1;
    Ok (div, L_num)
  else Ok (div, L_num).

Definition WebRtcSpl_DivResultInQ31 (num den : Z) : res Z :=
  if num =? 0 then Ok 0 else
  '(L_num, s1) ← (if num <? 0 then n ← neg32 num; Ok (n, 1) else Ok (num, 0));
  '(L_den, s2) ← (if den <? 0 then n ← neg32 den; Ok (n, 1) else Ok (den, 0));
  '(div, _) ← for_ 31 0 (q31_step L_den) (0, L_num);
  if s1 + s2 =? 1 then neg32 div else Ok div.

(** The high and low halves of a value in the format of the function. *)
Definition hi_part (x : Z) : Z := to_i16 (Z.shiftr x 16).
Definition low_part (x : Z) : res Z :=
  h ← shl32 (hi_part x) 16; d ← sub32 x h; Ok (to_i16 (Z.shiftr d 1)).

Definition WebRtcSpl_DivW32HiLow (num den_hi den_low : Z) : res Z :=
  a ← WebRtcSpl_DivW32W16 536870911 den_hi;
  let approx := to_i16 a in
  p ← mul32 den_hi approx;
  t1 ← shl32 p 1;
  p ← mul32 den_low approx;
  t2 ← shl32 (Z.shiftr p 15) 1;
  tmpW32 ← add32 t1 t2;
  tmpW32 ← sub32 2147483647 tmpW32;
  let tmp_hi := hi_part tmpW32 in
  tmp_low ← low_part tmpW32;
  p ← mul32 tmp_hi approx;
  q ← mul32 tmp_low approx;
  s ← add32 p (Z.shiftr q 15);
  tmpW32 ← shl32 s 1;
  let tmp_hi := hi_part tmpW32 in
  tmp_low ← low_part tmpW32;
  let num_hi := hi_part num in
  num_low ← low_part num;
  p ← mul32 num_hi tmp_hi;
  q ← mul32 num_hi tmp_low;
  s ← add32 p (Z.shiftr q 15);
  q ← mul32 num_low tmp_hi;
  tmpW32 ← add32 s (Z.shiftr q 15);
  WEBRTC_SPL_LSHIFT_W32 tmpW32 3.

(** ** Integer square root (spl_sqrt_floor.c) *)

Definition WEBRTC_SPL_SQRT_ITER (N : Z) (s : Z * Z) : res (Z * Z) :=
  let '(value, root) := s in
  p ← shl32 1 N;
  try1 ← add32 root p;
  t ← shl32 try1 N;
  if t <=? value then
    value ← sub32 value t;
    q ← shl32 2 N;
    Ok (value, Z.lor root q)
  else Ok (value, root).

(** The sixteen expansions of the macro, from 15 down to 0. *)
Definition WebRtcSpl_SqrtFloor (value : Z) : res Z :=
  '(_, root) ← for_ 16 0 (fun i => WEBRTC_SPL_SQRT_ITER (15 - i)) (value, 0);
  Ok (Z.shiftr root 1).

(** ** Copy and set operations (copy_set_operations.c) *)

Fixpoint WebRtcSpl_MemSetW16 (ptr : list Z) (set_value : Z) (len : nat)
    : res (list Z) :=
  match len with
  | O => Ok ptr
  | S len' =>
      match ptr with
      | [] => Fault OutOfBounds
      | _ :: ptr' =>
          rest ← WebRtcSpl_MemSetW16 ptr' set_value len';
          Ok (set_value :: rest)
      end
  end.

Definition WebRtcSpl_ZerosArrayW16 (vector : list Z) (len : nat) : res (list Z) :=
  WebRtcSpl_MemSetW16 vector 0 len.
Definition WebRtcSpl_ZerosArrayW32 (vector : list Z) (len : nat) : res (list Z) :=
  WebRtcSpl_MemSetW32 vector 0 len.

(** [dest] points at element [pos] of the array [mem] and moves down while
    [source] moves up. *)
Fixpoint WebRtcSpl_MemCpyReversedOrder (mem : list Z) (pos : Z)
    (source : list Z) (len : nat) : res (list Z) :=
  match len with
  | O => Ok mem
  | S len' =>
      v ← rd source 0;
      mem ← wr mem pos v;
      WebRtcSpl_MemCpyReversedOrder mem (pos - 1) (drop 1 source) len'
  end.

(** [length - samples] is a [size_t]: more samples than there are is a read far
    outside the vector. *)
Definition WebRtcSpl_CopyFromEndW16 (vector_in : list Z) (len samples : nat)
    (vector_out : list Z) : res (list Z) :=
  if (len <? samples)%nat then Fault OutOfBounds else
  src ← take_exact samples (drop (len - samples) vector_in);
  _ ← take_exact samples vector_out;
  Ok (src ++ drop samples vector_out).

(** * Lemmas *)

(** ** Saturation *)

Definition clamp32 (x : Z) : Z := Z.max INT32_MIN (Z.min INT32_MAX x).

Lemma to_i32_sum a b : to_i32 (addu (to_u32 a) (to_u32 b)) = to_i32 (a + b).
Proof. unfold addu, to_u32, to_i32. Z.to_euclidean_division_equations. lia. Qed.

Lemma to_i32_diff a b : to_i32 (subu (to_u32 a) (to_u32 b)) = to_i32 (a - b).
Proof. unfold subu, to_u32, to_i32. Z.to_euclidean_division_equations. lia. Qed.

Lemma AddSat_clamp a b : i32 a -> i32 b -> WebRtcSpl_AddSatW32 a b = clamp32 (a + b).
Proof.
  intros Ha Hb. unfold WebRtcSpl_AddSatW32, clamp32. rewrite to_i32_sum.
  unfold i32 in *. unfold to_i32.
  destruct (Z.ltb_spec a 0), (Z.ltb_spec b 0),
    (Z.ltb_spec ((a + b + 2147483648) mod 4294967296 - 2147483648) 0);
    cbn [Bool.eqb negb andb]; Z.to_euclidean_division_equations; lia.
Qed.

Lemma SubSat_clamp a b : i32 a -> i32 b -> WebRtcSpl_SubSatW32 a b = clamp32 (a - b).
Proof.
  intros Ha Hb. unfold WebRtcSpl_SubSatW32, clamp32. rewrite to_i32_diff.
  unfold i32 in *. unfold to_i32.
  destruct (Z.ltb_spec a 0), (Z.ltb_spec b 0),
    (Z.ltb_spec ((a - b + 2147483648) mod 4294967296 - 2147483648) 0);
    cbn [Bool.eqb negb andb]; Z.to_euclidean_division_equations; lia.
Qed.

(** ** Smearing *)

(** [ones n k m]: from the top bit [k] of [n] down, [m] bits of the smeared
    value are set; nothing above [k] is. *)
Definition ones (x k m : Z) : Prop :=
  (forall i, k < i -> Z.testbit x i = false) /\
  (forall i, 0 <= i -> k - m < i <= k -> Z.testbit x i = true).

Lemma ones_step x k m s :
  0 <= s <= m -> ones x k m -> ones (Z.lor x (Z.shiftr x s)) k (m + s).
Proof.
  intros Hs [Hhi Hlo]. split; intros i Hi.
  - rewrite Z.lor_spec, Hhi by lia. destruct (Z.lt_ge_cases i 0).
    { by rewrite Z.testbit_neg_r by lia. }
    rewrite Z.shiftr_spec by lia. apply Hhi. lia.
  - intros Hi'. rewrite Z.lor_spec, Z.shiftr_spec by lia.
    destruct (Z.lt_ge_cases (k - m) i).
    + by rewrite Hlo by lia.
    + rewrite (Hlo (i + s)) by lia. apply orb_true_r.
Qed.

Lemma ones_full x k m : 0 <= k -> k < m -> ones x k m -> x = 2 ^ (k + 1) - 1.
Proof.
  intros Hk Hm [Hhi Hlo]. replace (2 ^ (k + 1) - 1) with (Z.ones (k + 1)) by (rewrite Z.ones_equiv; lia).
  apply Z.bits_inj'. intros i Hi.
  destruct (Z.lt_ge_cases i (k + 1)).
  - rewrite Z.ones_spec_low by lia. apply Hlo; lia.
  - rewrite Z.ones_spec_high by lia. apply Hhi. lia.
Qed.

Lemma smear_spec n :
  0 < n <= UINT32_MAX -> smear n = 2 ^ (Z.log2 n + 1) - 1.
Proof.
  intros Hn. set (k := Z.log2 n). pose proof (Z.log2_nonneg n) as Hk0. fold k in Hk0.
  assert (Hk : k < 32) by (apply Z.log2_lt_pow2; lia).
  assert (H1 : ones n k 1).
  { split; intros i Hi.
    - apply Z.bits_above_log2; [lia|done].
    - intros Hi'. replace i with k by lia. apply Z.bit_log2. lia. }
  apply (ones_full _ k 32); [done|done|]. unfold smear. cbv zeta.
  apply (ones_step _ k 16); [lia|]. apply (ones_step _ k 8); [lia|].
  apply (ones_step _ k 4); [lia|]. apply (ones_step _ k 2); [lia|].
  by apply (ones_step _ k 1).
Qed.

(** The values [n] can take after the normalisation, with their leading zeros. *)
Definition clz_entries : list (Z * Z) :=
  map (fun k => (clz_index (2 ^ k - 1), 32 - k)) (seqZ 0 33).

(** The comment of the code: the 33 indices are pairwise different. *)
Lemma clz_indices_unique : NoDup (map fst clz_entries).
Proof. apply (bool_decide_unpack _). vm_compute. exact I. Qed.

Lemma clz_entry k : 0 <= k <= 32 -> In (clz_index (2 ^ k - 1), 32 - k) clz_entries.
Proof.
  intros Hk. apply in_map_iff. exists k. split; [done|].
  apply list_elem_of_In, elem_of_seqZ. lia.
Qed.

(** ** Integer square root *)

(** After the step for [N]: [root] is twice a multiple of 2^N, and [value] is
    what remains of the argument. *)
Definition sqrt_inv (v N : Z) (s : Z * Z) : Prop :=
  exists r, 0 <= r /\ fst s = v - (r * 2 ^ N) * (r * 2 ^ N) /\ 0 <= fst s /\
            snd s = 2 * (r * 2 ^ N) /\ v < (r * 2 ^ N + 2 ^ N) * (r * 2 ^ N + 2 ^ N).

Lemma lor_disjoint a N : 0 <= N -> Z.lor (a * 2 ^ (N + 1)) (2 ^ N) = a * 2 ^ (N + 1) + 2 ^ N.
Proof.
  intros HN. pose proof (Z.add_lor_land (a * 2 ^ (N + 1)) (2 ^ N)) as Hs.
  assert (E : Z.land (a * 2 ^ (N + 1)) (2 ^ N) = 0); [|lia].
  apply Z.bits_inj'. intros i Hi. rewrite Z.land_spec, Z.bits_0.
  destruct (Z.eq_dec i N) as [->|Hne].
  - by rewrite Z.mul_pow2_bits_low by lia.
  - rewrite (Z.pow2_bits_false N) by lia. apply andb_false_r.
Qed.

Lemma pow2_16 N : 0 <= N <= 15 -> 1 <= 2 ^ N <= 32768 /\ 2 ^ (N + 1) = 2 * 2 ^ N.
Proof.
  intros HN. rewrite Z.pow_add_r by lia. split; [|lia].
  pose proof (Z.pow_le_mono_r 2 N 15 ltac:(lia) ltac:(lia)).
  pose proof (Z.pow_pos_nonneg 2 N ltac:(lia) ltac:(lia)). lia.
Qed.

(** The trial value fits: either the root so far is small or the step is. *)
Lemma sqrt_trial_range v R p :
  0 <= v <= INT32_MAX -> 0 <= R -> R * R <= v -> 1 <= p <= 32768 ->
  (p <= 8192 \/ p = 32768 /\ R = 0 \/ p = 16384 /\ R <= 32768) ->
  0 <= (2 * R + p) * p <= INT32_MAX.
Proof. intros. assert (R <= 46340) by nia. nia. Qed.

Lemma wp_SQRT_ITER v N s :
  0 <= v <= INT32_MAX -> 0 <= N <= 15 -> sqrt_inv v (N + 1) s ->
  wp (WEBRTC_SPL_SQRT_ITER N s) (sqrt_inv v N).
Proof.
  intros Hv HN (r & Hr & E1 & H1 & E2 & H2). destruct s as [value root].
  cbn [fst snd] in *. subst value root. unfold WEBRTC_SPL_SQRT_ITER.
  destruct (pow2_16 N HN) as [Hp Hpp].
  assert (Hmul : r * 2 ^ (N + 1) = 2 * r * 2 ^ N) by lia.
  set (R := r * 2 ^ (N + 1)) in *. set (p := 2 ^ N) in *.
  assert (HR : 0 <= R /\ R * R <= v) by nia.
  assert (Hcase : p <= 8192 \/ p = 32768 /\ R = 0 \/ p = 16384 /\ R <= 32768).
  { destruct (Z.le_gt_cases N 13) as [H13|H13].
    - left. unfold p. pose proof (Z.pow_le_mono_r 2 N 13 ltac:(lia) H13). lia.
    - right. assert (E : N = 14 \/ N = 15) by lia.
      assert (R <= 46340) by nia.
      destruct E as [-> | ->]; change p with (2 ^ 14) in * || change p with (2 ^ 15) in *;
        cbn in Hmul; [right|left]; nia. }
  pose proof (sqrt_trial_range v R p Hv (proj1 HR) (proj2 HR) Hp Hcase) as Ht.
  assert (Hs1 : Z.shiftl 1 N = p) by (rewrite Z.shiftl_mul_pow2 by lia; unfold p; lia).
  assert (Hs2 : Z.shiftl 2 N = 2 * p) by (rewrite Z.shiftl_mul_pow2 by lia; unfold p; lia).
  wp_step. apply wp_shl32; [lia|rewrite Hs1; unfold i32; lia|]. rewrite Hs1.
  assert (R <= 46340) by nia.
  wp_step. apply wp_add32; [unfold i32; lia|].
  wp_step. apply wp_shl32; [lia|rewrite Z.shiftl_mul_pow2 by lia; fold p; unfold i32; lia|].
  rewrite Z.shiftl_mul_pow2 by lia. fold p.
  destruct (Z.leb_spec ((2 * R + p) * p) (v - R * R)).
  - wp_step. apply wp_sub32; [unfold i32; nia|].
    wp_step. apply wp_shl32; [lia|rewrite Hs2; unfold i32; lia|]. rewrite Hs2. wp_step.
    exists (2 * r + 1). cbn [fst snd]. fold p.
    assert (E : (2 * r + 1) * p = R + p) by lia. rewrite E.
    rewrite Hpp in H2.
    split; [lia|]. split; [ring|]. split; [lia|]. split; [|by replace (R + p + p) with (R + 2 * p) by lia].
    replace (2 * R) with (r * 2 ^ (N + 1 + 1))
      by (rewrite (Z.pow_add_r 2 (N + 1)) by lia; unfold R; lia).
    rewrite <-Hpp, lor_disjoint by lia.
    rewrite (Z.pow_add_r 2 (N + 1)) by lia. unfold R, p in *. lia.
  - wp_step. exists (2 * r). cbn [fst snd]. fold p.
    assert (E : 2 * r * p = R) by lia. rewrite E.
    split; [lia|]. split; [done|]. split; [lia|]. split; [done|]. lia.
Qed.

(** A negative argument never passes a trial. *)
Lemma sqrt_iter_negative v N :
  v < 0 -> 0 <= N <= 15 -> WEBRTC_SPL_SQRT_ITER N (v, 0) = Ok (v, 0).
Proof.
  intros Hv HN. apply wp_pure. unfold WEBRTC_SPL_SQRT_ITER.
  destruct (pow2_16 N HN) as [Hp _].
  wp_step. apply wp_shl32; [lia|rewrite Z.shiftl_mul_pow2 by lia; unfold i32; lia|].
  rewrite Z.shiftl_mul_pow2, Z.mul_1_l by lia.
  wp_step. apply wp_add32; [unfold i32; lia|]. rewrite Z.add_0_l.
  wp_step. apply wp_shl32; [lia|rewrite Z.shiftl_mul_pow2 by lia; unfold i32; nia|].
  rewrite Z.shiftl_mul_pow2 by lia.
  rewrite (proj2 (Z.leb_gt _ _)) by nia. by wp_step.
Qed.

Lemma sqrt_floor_negative n i v :
  v < 0 -> 0 <= i -> i + Z.of_nat n <= 16 ->
  for_ n i (fun j => WEBRTC_SPL_SQRT_ITER (15 - j)) (v, 0) = Ok (v, 0).
Proof.
  intros Hv. revert i. induction n as [|n IH]; intros i Hi Hn; [done|].
  cbn [for_]. rewrite sqrt_iter_negative by lia. rewrite bind_ok. apply IH; lia.
Qed.

(** ** Division in Q31 *)

(** [j] rounds of the long division of [n] by [d]. *)
Definition q31_inv (n d j : Z) (s : Z * Z) : Prop :=
  n * 2 ^ j = fst s * d + snd s /\ 0 <= snd s < d /\ 0 <= fst s < 2 ^ j.

Lemma wp_q31_step n d j s :
  0 < d <= 1073741824 -> 0 <= j <= 30 -> q31_inv n d j s ->
  wp (q31_step d j s) (q31_inv n d (j + 1)).
Proof.
  intros Hd Hj. destruct s as [q r]. intros (E & Hr & Hq). cbn [fst snd] in *.
  pose proof (Z.pow_le_mono_r 2 j 30 ltac:(lia) ltac:(lia)).
  assert (E1 : 2 ^ (j + 1) = 2 * 2 ^ j) by (rewrite Z.pow_add_r by lia; lia).
  unfold q31_step. unfold q31_inv. rewrite E1.
  wp_step. apply wp_shl32; [lia|rewrite Z.shiftl_mul_pow2 by lia; unfold i32; lia|].
  wp_step. apply wp_shl32; [lia|rewrite Z.shiftl_mul_pow2 by lia; unfold i32; lia|].
  rewrite !Z.shiftl_mul_pow2 by lia. change (2 ^ 1) with 2.
  destruct (Z.leb_spec d (r * 2)).
  - wp_step. apply wp_sub32; [unfold i32; lia|].
    wp_step. apply wp_add32; [unfold i32; lia|]. wp_step. cbn [fst snd].
    split_and!; lia.
  - wp_step. cbn [fst snd]. split_and!; lia.
Qed.

Lemma wp_q31_loop n d :
  0 <= n < d -> d <= 1073741824 ->
  wp (for_ 31 0 (q31_step d) (0, n)) (fun s => fst s = n * 2 ^ 31 / d).
Proof.
  intros Hn Hd. apply (wp_for (q31_inv n d)).
  - split; cbn [fst snd]; lia.
  - intros j t Hj. apply wp_q31_step; lia.
  - intros [q r] (E & Hr & _). cbn [fst snd] in *.
    apply (Z.div_unique _ _ _ r); [lia|]. rewrite (Z.mul_comm d). exact E.
Qed.

(** The quotient of magnitudes with the sign of the operands is the truncating
    quotient. *)
Lemma quot_signs n d :
  d <> 0 ->
  Z.quot (n * 2 ^ 31) d =
  (if Bool.eqb (n <? 0) (d <? 0) then Z.abs n * 2 ^ 31 / Z.abs d
   else - (Z.abs n * 2 ^ 31 / Z.abs d)).
Proof.
  intros Hd. destruct (Z.ltb_spec n 0), (Z.ltb_spec d 0); cbn [Bool.eqb].
  - rewrite <-Z.quot_opp_opp by lia. rewrite Z.quot_div_nonneg by lia. f_equal; lia.
  - rewrite <-(Z.opp_involutive (n * 2 ^ 31)), Z.quot_opp_l by lia.
    rewrite Z.quot_div_nonneg by lia. do 2 f_equal; lia.
  - rewrite <-(Z.opp_involutive d) at 1. rewrite Z.quot_opp_r by lia.
    rewrite Z.quot_div_nonneg by lia. do 2 f_equal; lia.
  - rewrite Z.quot_div_nonneg by lia. f_equal; lia.
Qed.

Lemma magnitude_sign x :
  Z.abs x <= INT32_MAX ->
  (if x <? 0 then n ← neg32 x; Ok (n, 1) else Ok (x, 0)) =
  Ok (Z.abs x, if x <? 0 then 1 else 0).
Proof.
  intros H. destruct (Z.ltb_spec x 0).
  - unfold neg32. rewrite chk32_ok by (unfold i32; lia). rewrite bind_ok.
    by rewrite Z.abs_neq by lia.
  - by rewrite Z.abs_eq by lia.
Qed.

(** ** Reversed copy *)

Lemma copy_reversed_app pre mid post src n :
  length mid = n -> (n <= length src)%nat ->
  WebRtcSpl_MemCpyReversedOrder (pre ++ mid ++ post) (zlen pre + Z.of_nat n - 1) src n =
  Ok (pre ++ reverse (take n src) ++ post).
Proof.
  revert mid post src. induction n as [|n IH]; intros mid post src Hm Hs.
  { destruct mid; [|done]. by rewrite take_0. }
  destruct src as [|x src]; [cbn in Hs; lia|].
  destruct mid as [|m mid _] using rev_ind; [done|].
  rewrite length_app in Hm. cbn [length] in Hm.
  cbn [WebRtcSpl_MemCpyReversedOrder]. change (rd (x :: src) 0) with (Ok x).
  rewrite bind_ok. unfold wr.
  assert (Hpos : zlen pre + Z.of_nat (S n) - 1 = Z.of_nat (length pre + length mid))
    by (unfold zlen; lia).
  rewrite (proj2 (Z.leb_le _ _)) by (unfold zlen; lia).
  rewrite (proj2 (Z.ltb_lt _ _)) by (unfold zlen; rewrite !length_app; cbn; lia).
  cbn [andb]. rewrite bind_ok, Hpos, Nat2Z.id.
  rewrite insert_app_r, <-(app_assoc mid), (insert_app_r_alt mid) by lia.
  replace (length mid - length mid)%nat with 0%nat by lia. cbn [list_insert insert app].
  replace (Z.of_nat (length pre + length mid) - 1) with (zlen pre + Z.of_nat n - 1)
    by (unfold zlen; lia).
  change (drop 1 (x :: src)) with src. rewrite (IH mid (x :: post)); [|lia|cbn in Hs; lia].
  cbn [take]. by rewrite reverse_cons, <-!app_assoc.
Qed.

(** * Theorems *)

(** [WebRtcSpl_SqrtFloor] is the exact integer square root of every
    non-negative 32-bit argument, computed without overflow; it returns 0 for
    every negative argument. *)
Lemma SqrtFloor_exact v : i32 v -> WebRtcSpl_SqrtFloor v = Ok (Z.sqrt v).
Proof.
  intros Hv. unfold WebRtcSpl_SqrtFloor. destruct (Z.lt_ge_cases v 0).
  { rewrite sqrt_floor_negative by lia. rewrite bind_ok, Z.sqrt_neg by lia. done. }
  apply wp_pure, wp_bind. unfold i32 in Hv.
  apply (wp_for (fun i => sqrt_inv v (16 - i))).
  - exists 0. cbn. lia.
  - intros j t Hj. replace (16 - j) with (15 - j + 1) by lia.
    replace (16 - (j + 1)) with (15 - j) by lia. apply wp_SQRT_ITER; lia.
  - intros [value root] (r & Hr & E1 & H1 & E2 & H2). cbn [fst snd wp] in *. subst root.
    change (2 ^ (16 - (0 + Z.of_nat 16))) with 1 in *. rewrite !Z.mul_1_r in *.
    rewrite Z.mul_comm, Z.shiftr_div_pow2 by lia. change (2 ^ 1) with 2.
    rewrite Z.div_mul by lia. symmetry. apply Z.sqrt_unique. lia.
Qed.

(** [WebRtcSpl_DivResultInQ31] is the truncated quotient in Q31, for every
    numerator smaller than the denominator in absolute value, as long as the
    denominator is at most 2^30. *)
Lemma DivResultInQ31_spec num den :
  Z.abs num < Z.abs den <= 2 ^ 30 ->
  WebRtcSpl_DivResultInQ31 num den = Ok (Z.quot (num * 2 ^ 31) den).
Proof.
  intros H. change (2 ^ 30) with 1073741824 in H. unfold WebRtcSpl_DivResultInQ31.
  destruct (Z.eqb_spec num 0) as [->|Hn]; [by rewrite Z.quot_0_l by lia|].
  rewrite quot_signs by lia.
  destruct (proj1 (wp_ok _ _) (wp_q31_loop (Z.abs num) (Z.abs den) ltac:(lia) ltac:(lia)))
    as ([q r] & E & Eq). cbn [fst] in Eq.
  assert (Hq : 0 <= q < 2 ^ 31).
  { subst q. split; [apply Z.div_pos; lia|]. apply Z.div_lt_upper_bound; lia. }
  rewrite !magnitude_sign by lia. rewrite !bind_ok. cbv beta iota.
  rewrite E, bind_ok. cbv beta iota. rewrite <-Eq.
  destruct (num <? 0), (den <? 0); cbn [Bool.eqb Z.add Z.eqb Pos.eqb Pos.add];
    try done; unfold neg32; by rewrite chk32_ok by (unfold i32; lia).
Qed.

(** The documented precondition (a denominator larger than the numerator) is not
    enough: just above 2^30 the doubled remainder overflows. *)
Example DivResultInQ31_large_denominator :
  WebRtcSpl_DivResultInQ31 1073741824 1073741825 = Fault SignedOverflow.
Proof. vm_compute. reflexivity. Qed.

(** [WebRtcSpl_DivW32HiLow] documents that numerator and denominator may have the
    same absolute value; for -den / den with den = 1073748290 the final shift
    overflows. *)
Example DivW32HiLow_equal_overflow :
  16384 * 65536 + 3233 * 2 = 1073748290 /\
  WebRtcSpl_DivW32HiLow (-1073748290) 16384 3233 = Fault SignedOverflow /\
  WebRtcSpl_DivW32HiLow 1073748290 16384 3233 = Ok 2147483640.
Proof. vm_compute. by split_and!. Qed.

(** The saturating 32-bit addition and subtraction, written with unsigned
    arithmetic and sign tests, clamp the exact sum and difference to the range of
    [int32_t], for all arguments. *)
Lemma saturating_clamp a b :
  i32 a -> i32 b ->
  WebRtcSpl_AddSatW32 a b = clamp32 (a + b) /\
  WebRtcSpl_SubSatW32 a b = clamp32 (a - b).
Proof. intros Ha Hb. split; [by apply AddSat_clamp|by apply SubSat_clamp]. Qed.

Lemma saturating_clamp_witness :
  WebRtcSpl_AddSatW32 2000000000 2000000000 = 2147483647 /\
  WebRtcSpl_SubSatW32 (-2000000000) 2000000000 = -2147483648.
Proof.
  split.
  - apply (saturating_clamp 2000000000 2000000000); unfold i32; lia.
  - apply (saturating_clamp (-2000000000) 2000000000); unfold i32; lia.
Defined.

(** The reversed copy fills the array from its last element down. *)
Lemma MemCpyReversedOrder_reverse dst src :
  length src = length dst ->
  WebRtcSpl_MemCpyReversedOrder dst (zlen dst - 1) src (length dst) =
  Ok (reverse src).
Proof.
  intros H. pose proof (copy_reversed_app [] dst [] src (length dst) eq_refl
    ltac:(lia)) as E.
  rewrite !app_nil_r, take_ge in E by lia. exact E.
Qed.

(** ** Counting leading zeros without the builtin *)

Section clz.
Context (table : list Z).
(** What the comment of the code says of the table: each of the 33 normalised
    values finds its answer. *)
Hypothesis table_answers : forall i z, In (i, z) clz_entries -> rd table i = Ok z.

(** The portable leading-zero count (smear the top bit down, multiply, look
    up) agrees with the builtin on every 32-bit value, given a table that answers
    the 33 normalised values. *)
Lemma clz_not_builtin n :
  u32 n ->
  WebRtcSpl_CountLeadingZeros32_NotBuiltin table n =
  Ok (WebRtcSpl_CountLeadingZeros32 n).
Proof.
  intros Hn. unfold WebRtcSpl_CountLeadingZeros32_NotBuiltin, u32 in *.
  apply table_answers. unfold WebRtcSpl_CountLeadingZeros32.
  destruct (Z.eqb_spec n 0) as [->|Hne]; [apply (clz_entry 0); lia|].
  rewrite smear_spec by lia. replace (31 - Z.log2 n) with (32 - (Z.log2 n + 1)) by lia.
  apply clz_entry. pose proof (Z.log2_nonneg n).
  assert (Z.log2 n < 32) by (apply Z.log2_lt_pow2; lia). lia.
Qed.

(** The 64-bit count works on the upper half of the number, or on the lower one
    where the upper is zero. *)
Lemma clz64_not_builtin n :
  0 <= n < 2 ^ 64 ->
  WebRtcSpl_CountLeadingZeros64_NotBuiltin table n = Ok (WebRtcSpl_CountLeadingZeros64 n).
Proof.
  intros Hn. unfold WebRtcSpl_CountLeadingZeros64_NotBuiltin, WebRtcSpl_CountLeadingZeros64.
  pose proof (Z.shiftr_div_pow2 n 32 ltac:(lia)) as E32.
  assert (H32 : 0 <= n / 2 ^ 32 < 2 ^ 32)
    by (split; [apply Z.div_pos|apply Z.div_lt_upper_bound]; lia).
  cbv zeta. destruct (Z.eqb_spec (Z.shiftr n 32) 0) as [E|E].
  - change (32 - 32) with 0. rewrite Z.shiftr_0_r.
    assert (Hs : 0 <= n < 2 ^ 32) by (rewrite E32 in E; apply Z.div_small_iff in E; lia).
    unfold to_u32. rewrite Z.mod_small by lia.
    rewrite clz_not_builtin, bind_ok by (unfold u32; lia). f_equal.
    unfold WebRtcSpl_CountLeadingZeros32. case_match; lia.
  - change (32 - 0) with 32. rewrite E32 in *. unfold to_u32. rewrite Z.mod_small by lia.
    rewrite clz_not_builtin, bind_ok by (unfold u32; lia). f_equal.
    unfold WebRtcSpl_CountLeadingZeros32.
    assert (n <> 0) by (intros ->; by apply E).
    rewrite !(proj2 (Z.eqb_neq _ 0)) by done.
    rewrite <- E32, Z.log2_shiftr by lia.
    assert (32 <= Z.log2 n) by (apply Z.log2_le_pow2; [lia|]; 
      destruct (Z.lt_ge_cases n (2 ^ 32)); [|done]; rewrite Z.div_small in E; lia).
    lia.
Qed.
End clz.

(** A table with the 33 answers at their places. *)
Definition clz_table : list Z :=
  map (fun i => match List.find (fun e => fst e =? i) clz_entries with
                | Some e => snd e
                | None => -1
                end) (seqZ 0 64).

