(* ===== verification/SafeNumerics.v ===== *)
(** * Conversions and comparisons of integers of different types

    [base/numerics/safe_conversions.h], [safe_conversions_impl.h],
    [safe_compare.h] and [safe_minmax.h] for integer types, whose template
    specialisations are chosen by functions on types, and the dot product of
    [common_audio/dot_product_with_scale.cc] that uses them.  The specialisations for
    floating-point types and enumerations are not modelled. *)
From S2P Require Import Prelude CInt Spl.

(** ** Integer types *)

Record int_type := IntType { is_signed : bool; size_of : Z }.

Definition int8 := IntType true 1.
Definition int16 := IntType true 2.
Definition int32 := IntType true 4.
Definition int64 := IntType true 8.
Definition uint8 := IntType false 1.
Definition uint16 := IntType false 2.
Definition uint32 := IntType false 4.
Definition uint64 := IntType false 8.
Definition int_types : list int_type :=
  [int8; int16; int32; int64; uint8; uint16; uint32; uint64].

Definition bits (t : int_type) : Z := size_of t * 8.
Definition lowest (t : int_type) : Z := if is_signed t then - 2 ^ (bits t - 1) else 0.
Definition highest (t : int_type) : Z :=
  if is_signed t then 2 ^ (bits t - 1) - 1 else 2 ^ bits t - 1.

(** Conversion wraps around. *)
Definition static_cast (t : int_type) (v : Z) : Z :=
  (v - lowest t) mod 2 ^ bits t + lowest t.

Definition in_type (t : int_type) (v : Z) : Prop := lowest t <= v <= highest t.

(** ** safe_conversions_impl.h *)

Inductive DstRange := OVERLAPS_RANGE | CONTAINS_RANGE.

Definition max_exponent (t : int_type) : Z := if is_signed t then bits t - 1 else bits t.

(** The four specialisations of [StaticRangeCheck]. *)
Definition StaticRangeCheck (Dst Src : int_type) : DstRange :=
  match is_signed Dst, is_signed Src with
  | true, true => if max_exponent Src <=? max_exponent Dst then CONTAINS_RANGE else OVERLAPS_RANGE
  | false, false => if size_of Src <=? size_of Dst then CONTAINS_RANGE else OVERLAPS_RANGE
  | true, false => if max_exponent Src <=? max_exponent Dst then CONTAINS_RANGE else OVERLAPS_RANGE
  | false, true => OVERLAPS_RANGE
  end.

Inductive RangeCheckResult := TYPE_VALID | TYPE_UNDERFLOW | TYPE_OVERFLOW | TYPE_INVALID.

Definition BASE_NUMERIC_RANGE_CHECK_RESULT (is_in_upper_bound is_in_lower_bound : bool)
    : RangeCheckResult :=
  match is_in_upper_bound, is_in_lower_bound with
  | true, true => TYPE_VALID
  | true, false => TYPE_UNDERFLOW
  | false, true => TYPE_OVERFLOW
  | false, false => TYPE_INVALID
  end.

(** [RangeCheckImpl::Check]. *)
Definition RangeCheck (Dst Src : int_type) (value : Z) : RangeCheckResult :=
  match StaticRangeCheck Dst Src with
  | CONTAINS_RANGE => TYPE_VALID
  | OVERLAPS_RANGE =>
      match is_signed Dst, is_signed Src with
      | true, true => BASE_NUMERIC_RANGE_CHECK_RESULT
                        (value <=? static_cast Src (highest Dst))
                        (static_cast Src (lowest Dst) <=? value)
      | false, false => BASE_NUMERIC_RANGE_CHECK_RESULT
                          (value <=? static_cast Src (highest Dst)) true
      | true, false => if size_of Src <? size_of Dst then TYPE_VALID
                       else BASE_NUMERIC_RANGE_CHECK_RESULT
                              (value <=? static_cast Src (highest Dst)) true
      | false, true => if max_exponent Src <=? bits Dst
                       then BASE_NUMERIC_RANGE_CHECK_RESULT true (static_cast Src 0 <=? value)
                       else BASE_NUMERIC_RANGE_CHECK_RESULT
                              (value <=? static_cast Src (highest Dst))
                              (static_cast Src 0 <=? value)
      end
  end.

(** ** safe_conversions.h *)

Definition IsValueInRangeForNumericType (Dst Src : int_type) (value : Z) : bool :=
  match RangeCheck Dst Src value with TYPE_VALID => true | _ => false end.

Definition checked_cast (Dst Src : int_type) (value : Z) : res Z :=
  if IsValueInRangeForNumericType Dst Src value then Ok (static_cast Dst value)
  else Fault AssertionFailed.
Definition dchecked_cast : int_type -> int_type -> Z -> res Z := checked_cast.

Definition saturated_cast (Dst Src : int_type) (value : Z) : res Z :=
  match RangeCheck Dst Src value with
  | TYPE_VALID => Ok (static_cast Dst value)
  | TYPE_UNDERFLOW => Ok (lowest Dst)
  | TYPE_OVERFLOW => Ok (highest Dst)
  | TYPE_INVALID => Fault AssertionFailed
  end.

(** ** safe_compare.h *)

Inductive Op := EqOp | NeOp | LtOp | LeOp | GtOp | GeOp.

Definition compare (op : Op) (a b : Z) : bool :=
  match op with
  | EqOp => a =? b | NeOp => negb (a =? b) | LtOp => a <? b
  | LeOp => a <=? b | GtOp => b <? a | GeOp => b <=? a
  end.

(** The usual arithmetic conversions: both operands get the wider type, an unsigned
    one where the widths agree. *)
Definition common_type (t1 t2 : int_type) : int_type :=
  if size_of t1 <? size_of t2 then t2
  else if size_of t2 <? size_of t1 then t1
  else IntType (is_signed t1 && is_signed t2) (size_of t1).
Definition apply_op (op : Op) (t1 t2 : int_type) (a b : Z) : bool :=
  compare op (static_cast (common_type t1 t2) a) (static_cast (common_type t1 t2) b).

(** A signed type that is larger than [T1]: a pointer has 8 bytes. *)
Definition LargerInt (T1 T2 : int_type) : option int_type :=
  if (size_of T1 <? size_of T2) || (size_of T1 <? 8) then
    match size_of T1 with
    | 1 => Some int16 | 2 => Some int32 | 4 => Some int64 | _ => None
    end
  else None.

Definition make_unsigned (t : int_type) : int_type := IntType false (size_of t).

(** The five overloads of [Cmp]. *)
Definition Cmp (op : Op) (T1 T2 : int_type) (a b : Z) : bool :=
  match is_signed T1, is_signed T2 with
  | true, true | false, false => apply_op op T1 T2 a b
  | true, false =>
      match LargerInt T2 T1 with
      | Some t => apply_op op T1 t a (static_cast t b)
      | None => if a <? 0 then apply_op op int32 int32 (-1) 0
                else apply_op op (make_unsigned T1) T2 (static_cast (make_unsigned T1) a) b
      end
  | false, true =>
      match LargerInt T1 T2 with
      | Some t => apply_op op t T2 (static_cast t a) b
      | None => if b <? 0 then apply_op op int32 int32 0 (-1)
                else apply_op op T1 (make_unsigned T2) a (static_cast (make_unsigned T2) b)
      end
  end.

(** The unary plus promotes the types below [int]. *)
Definition promoted (t : int_type) : int_type := if size_of t <? 4 then int32 else t.
Definition SafeOp (op : Op) (T1 T2 : int_type) (a b : Z) : bool :=
  Cmp op (promoted T1) (promoted T2) a b.
Definition SafeEq := SafeOp EqOp.
Definition SafeNe := SafeOp NeOp.
Definition SafeLt := SafeOp LtOp.
Definition SafeLe := SafeOp LeOp.
Definition SafeGt := SafeOp GtOp.
Definition SafeGe := SafeOp GeOp.

(** ** safe_minmax.h *)

Definition min_t (T1 T2 : int_type) : int_type :=
  if SafeLt T1 T2 (lowest T1) (lowest T2) then T1
  else if SafeGt T1 T2 (lowest T1) (lowest T2) then T2
  else if SafeLe T1 T2 (highest T1) (highest T2) then T1 else T2.
Definition max_t (T1 T2 : int_type) : int_type :=
  if SafeGe T1 T2 (highest T1) (highest T2) then T1 else T2.

(** [A] where it is given, [B] otherwise; [None] where the assertion fails. *)
Definition TypeOr (A : option int_type) (B : int_type) : option int_type :=
  let type := match A with Some t => t | None => B end in
  if SafeLe type B (lowest type) (lowest B) && SafeGe type B (highest type) (highest B)
  then Some type else None.

Definition SafeMin (R : option int_type) (T1 T2 : int_type) (a b : Z) : option Z :=
  R2 ← TypeOr R (min_t T1 T2);
  Some (if SafeLt T1 T2 a b then static_cast R2 a else static_cast R2 b).
Definition SafeMax (R : option int_type) (T1 T2 : int_type) (a b : Z) : option Z :=
  R2 ← TypeOr R (max_t T1 T2);
  Some (if SafeGt T1 T2 a b then static_cast R2 a else static_cast R2 b).

Section clamp.
Context (T L H : int_type).

(** The ends of the range of the result, and the types of the constants that hold them. *)
Definition r_min : option Z :=
  m ← SafeMin None H T (lowest H) (lowest T);
  SafeMax None L (min_t H T) (lowest L) m.
Definition r_min_type : int_type := max_t L (min_t H T).
Definition r_max : option Z :=
  m ← SafeMax None L T (highest L) (highest T);
  SafeMin None H (max_t L T) (highest H) m.
Definition r_max_type : int_type := min_t H (max_t L T).

Definition AcceptableType (A : int_type) : bool :=
  match r_min, r_max with
  | Some lo, Some hi =>
      ((size_of A <=? size_of L) || (size_of A <=? size_of H) || (size_of A <=? size_of T)) &&
      (SafeLe A r_min_type (lowest A) lo && SafeLe r_max_type A hi (highest A))
  | _, _ => false
  end.

Definition best_signed_type : int_type :=
  if AcceptableType int8 then int8 else if AcceptableType int16 then int16
  else if AcceptableType int32 then int32 else int64.
Definition best_unsigned_type : int_type :=
  if AcceptableType uint8 then uint8 else if AcceptableType uint16 then uint16
  else if AcceptableType uint32 then uint32 else uint64.

(** [None] where the assertion fails. *)
Definition ClampType : option int_type :=
  let type :=
    if is_signed T
    then if AcceptableType best_signed_type then best_signed_type else best_unsigned_type
    else if AcceptableType best_unsigned_type then best_unsigned_type else best_signed_type in
  if AcceptableType type then Some type else None.

(** The debug check compares the bounds with [SafeLe], as all such checks do. *)
Definition SafeClamp (R : option int_type) (x min max : Z) : option (res Z) :=
  C ← ClampType;
  R2 ← TypeOr R C;
  Some (if negb (SafeLe L H min max) then Fault AssertionFailed else
        Ok (if SafeLe T L x min then static_cast R2 min
            else if SafeGe T H x max then static_cast R2 max else static_cast R2 x)).

End clamp.

(** ** dot_product_with_scale.cc *)

(** The loops are those of the function of this name in [Spl]. *)
Definition DotProductWithScale (vector1 vector2 : list Z) (length : nat) (scaling : Z)
    : res Z :=
  sum ← dot_unrolled vector1 vector2 length scaling 0;
  saturated_cast int32 int64 sum.

(** * Lemmas *)

Lemma int_type_ok t : In t int_types -> In (size_of t) [1; 2; 4; 8].
Proof. intros H. cbn in H. destruct_or! H; subst; cbn; tauto. Qed.

Lemma static_cast_id t v : 0 < size_of t -> in_type t v -> static_cast t v = v.
Proof.
  intros Ht. unfold static_cast, in_type. intros Hv. rewrite Z.mod_small; [lia|].
  unfold lowest, highest, bits in *. destruct (is_signed t); [|lia].
  replace (2 ^ (size_of t * 8)) with (2 * 2 ^ (size_of t * 8 - 1)); [lia|].
  rewrite <- Z.pow_succ_r by lia. f_equal. lia.
Qed.

(** All types at once. *)
Ltac all_types :=
  repeat match goal with
  | H : In _ int_types |- _ => cbn [In int_types] in H; destruct_or! H; subst
  | H : False |- _ => destruct H
  end.
Ltac in_range :=
  unfold in_type, lowest, highest, bits, common_type, int8, int16, int32, int64, uint8,
    uint16, uint32, uint64 in *;
  cbn [is_signed size_of Z.ltb Z.compare Pos.compare Pos.compare_cont andb] in *; lia.

Lemma apply_op_id op t1 t2 a b :
  let t := common_type t1 t2 in
  0 < size_of t -> in_type t a -> in_type t b -> apply_op op t1 t2 a b = compare op a b.
Proof. intros t Ht Ha Hb. unfold apply_op. fold t. by rewrite !static_cast_id. Qed.

Lemma compare_signs op a b :
  a < 0 <= b -> compare op (-1) 0 = compare op a b /\ compare op 0 (-1) = compare op b a.
Proof.
  intros H. destruct op; cbn; split; symmetry;
    (apply Z.eqb_neq || apply negb_true_iff, Z.eqb_neq ||
     (apply Z.ltb_lt; lia) || (apply Z.ltb_ge; lia) ||
     (apply Z.leb_le; lia) || (apply Z.leb_gt; lia)); lia.
Qed.

(** The overloads agree with the comparison of the numbers. *)
Lemma Cmp_spec op t1 t2 a b :
  In t1 [int32; int64; uint32; uint64] -> In t2 [int32; int64; uint32; uint64] ->
  in_type t1 a -> in_type t2 b -> Cmp op t1 t2 a b = compare op a b.
Proof.
  intros H1 H2 Ha Hb. cbn [In] in H1, H2. destruct_or! H1; destruct_or! H2; subst; try done;
    unfold Cmp, LargerInt, make_unsigned; cbn -[in_type apply_op static_cast];
    rewrite ?static_cast_id by in_range;
    try (apply apply_op_id; in_range).
  all: match goal with |- context [?x <? 0] => destruct (Z.ltb_spec x 0) end.
  all: rewrite ?static_cast_id by in_range.
  all: rewrite apply_op_id by in_range.
  all: try done.
  all: apply compare_signs; in_range.
Qed.

Lemma promoted_ok t v :
  In t int_types -> in_type t v ->
  In (promoted t) [int32; int64; uint32; uint64] /\ in_type (promoted t) v.
Proof. intros H Hv. all_types; (split; [cbn; tauto|unfold promoted; cbn -[in_type]; in_range]). Qed.

Lemma SafeOp_spec op t1 t2 a b :
  In t1 int_types -> In t2 int_types -> in_type t1 a -> in_type t2 b ->
  SafeOp op t1 t2 a b = compare op a b.
Proof.
  intros H1 H2 Ha Hb. destruct (promoted_ok _ _ H1 Ha), (promoted_ok _ _ H2 Hb).
  by apply Cmp_spec.
Qed.

Lemma ends_ok t : In t int_types ->
  in_type t (lowest t) /\ in_type t (highest t) /\ 0 < size_of t.
Proof. intros H. all_types; (split_and!; [in_range|in_range|done]). Qed.

(** A check that knows the source range. *)
Lemma RangeCheck_spec Dst Src v :
  In Dst int_types -> In Src int_types -> in_type Src v ->
  RangeCheck Dst Src v =
    if v <? lowest Dst then TYPE_UNDERFLOW
    else if highest Dst <? v then TYPE_OVERFLOW else TYPE_VALID.
Proof.
  intros H1 H2 Hv.
  destruct (Z.ltb_spec v (lowest Dst)), (Z.ltb_spec (highest Dst) v); all_types;
    try (exfalso; in_range);
    unfold RangeCheck, StaticRangeCheck; cbn -[static_cast lowest highest];
    rewrite ?static_cast_id by in_range;
    repeat match goal with |- context [?x <=? ?y] => destruct (Z.leb_spec x y) end;
    try done; exfalso; in_range.
Qed.

Lemma saturated_cast_spec Dst Src v :
  In Dst int_types -> In Src int_types -> in_type Src v ->
  saturated_cast Dst Src v = Ok (Z.max (lowest Dst) (Z.min v (highest Dst))).
Proof.
  intros H1 H2 Hv. unfold saturated_cast. rewrite RangeCheck_spec by done.
  destruct (ends_ok Dst H1) as ([_ ?] & [? _] & Hs).
  destruct (Z.ltb_spec v (lowest Dst)); [f_equal; lia|].
  destruct (Z.ltb_spec (highest Dst) v); [f_equal; lia|].
  rewrite static_cast_id by (done || (unfold in_type; lia)). f_equal. lia.
Qed.

Lemma checked_cast_spec Dst Src v :
  In Dst int_types -> In Src int_types -> in_type Src v ->
  checked_cast Dst Src v =
    if (lowest Dst <=? v) && (v <=? highest Dst) then Ok v else Fault AssertionFailed.
Proof.
  intros H1 H2 Hv. unfold checked_cast, IsValueInRangeForNumericType.
  rewrite RangeCheck_spec by done. destruct (ends_ok Dst H1) as (_ & _ & Hs).
  rewrite (Z.leb_antisym v), (Z.leb_antisym (highest Dst)).
  destruct (Z.ltb_spec v (lowest Dst)); [done|].
  destruct (Z.ltb_spec (highest Dst) v); [done|].
  cbn. by rewrite static_cast_id by (done || (unfold in_type; lia)).
Qed.

(** ** Minima and maxima *)

Lemma min_t_spec t1 t2 : In t1 int_types -> In t2 int_types ->
  In (min_t t1 t2) int_types /\ lowest (min_t t1 t2) = Z.min (lowest t1) (lowest t2) /\
  Z.min (highest t1) (highest t2) <= highest (min_t t1 t2).
Proof.
  intros H1 H2. destruct (ends_ok t1 H1) as (L1 & G1 & _), (ends_ok t2 H2) as (L2 & G2 & _).
  unfold min_t, SafeLt, SafeGt, SafeLe. rewrite !SafeOp_spec by done. cbn [compare].
  repeat case_match; repeat match goal with
    | H : (_ <? _) = true |- _ => apply Z.ltb_lt in H
    | H : (_ <? _) = false |- _ => apply Z.ltb_ge in H end; split_and!; (done || lia).
Qed.

Lemma max_t_spec t1 t2 : In t1 int_types -> In t2 int_types ->
  In (max_t t1 t2) int_types /\ highest (max_t t1 t2) = Z.max (highest t1) (highest t2) /\
  lowest (max_t t1 t2) <= Z.max (lowest t1) (lowest t2).
Proof.
  intros H1 H2. destruct (ends_ok t1 H1) as (L1 & G1 & _), (ends_ok t2 H2) as (L2 & G2 & _).
  unfold max_t, SafeGe. rewrite !SafeOp_spec by done. cbn [compare].
  destruct (Z.leb_spec (highest t2) (highest t1)); split_and!; (done || lia).
Qed.

Lemma TypeOr_None t : In t int_types -> TypeOr None t = Some t.
Proof.
  intros H. destruct (ends_ok t H) as (L & G & _). unfold TypeOr, SafeLe, SafeGe.
  rewrite !SafeOp_spec by done. cbn [compare]. by rewrite !Z.leb_refl.
Qed.

(** A type that is asked for has to hold the values of the default type. *)
Lemma TypeOr_Some r t : In r int_types -> In t int_types ->
  TypeOr (Some r) t =
    if (lowest r <=? lowest t) && (highest t <=? highest r) then Some r else None.
Proof.
  intros H1 H2. destruct (ends_ok r H1) as (L1 & G1 & _), (ends_ok t H2) as (L2 & G2 & _).
  unfold TypeOr, SafeLe, SafeGe. by rewrite !SafeOp_spec by done.
Qed.

Lemma SafeMin_spec t1 t2 a b :
  In t1 int_types -> In t2 int_types -> in_type t1 a -> in_type t2 b ->
  SafeMin None t1 t2 a b = Some (Z.min a b) /\ in_type (min_t t1 t2) (Z.min a b).
Proof.
  intros H1 H2 Ha Hb. destruct (min_t_spec t1 t2 H1 H2) as (Hm & Hl & Hh).
  destruct (ends_ok _ Hm) as (_ & _ & Hs).
  assert (Hr : in_type (min_t t1 t2) (Z.min a b)) by (unfold in_type in *; lia).
  split; [|done]. unfold SafeMin, SafeLt. rewrite TypeOr_None by done. cbn [mbind option_bind].
  rewrite SafeOp_spec by done. cbn [compare]. f_equal.
  destruct (Z.ltb_spec a b).
  - replace (Z.min a b) with a in * by lia. by apply static_cast_id.
  - replace (Z.min a b) with b in * by lia. by apply static_cast_id.
Qed.

Lemma SafeMax_spec t1 t2 a b :
  In t1 int_types -> In t2 int_types -> in_type t1 a -> in_type t2 b ->
  SafeMax None t1 t2 a b = Some (Z.max a b) /\ in_type (max_t t1 t2) (Z.max a b).
Proof.
  intros H1 H2 Ha Hb. destruct (max_t_spec t1 t2 H1 H2) as (Hm & Hl & Hh).
  destruct (ends_ok _ Hm) as (_ & _ & Hs).
  assert (Hr : in_type (max_t t1 t2) (Z.max a b)) by (unfold in_type in *; lia).
  split; [|done]. unfold SafeMax, SafeGt. rewrite TypeOr_None by done. cbn [mbind option_bind].
  rewrite SafeOp_spec by done. cbn [compare]. f_equal.
  destruct (Z.ltb_spec b a).
  - replace (Z.max a b) with a in * by lia. by apply static_cast_id.
  - replace (Z.max a b) with b in * by lia. by apply static_cast_id.
Qed.

(** ** Clamping *)

(** The first acceptable type, or the last one. *)
Definition best (acc : int_type -> bool) (t1 t2 t3 t4 : int_type) : int_type :=
  if acc t1 then t1 else if acc t2 then t2 else if acc t3 then t3 else t4.

Lemma best_in acc t1 t2 t3 t4 :
  In t1 int_types -> In t2 int_types -> In t3 int_types -> In t4 int_types ->
  In (best acc t1 t2 t3 t4) int_types.
Proof. intros. unfold best. by repeat case_match. Qed.

Lemma best_types acc :
  In (best acc int8 int16 int32 int64) int_types /\
  In (best acc uint8 uint16 uint32 uint64) int_types.
Proof. split; apply best_in; cbn; tauto. Qed.

Section clamp_lemmas.
Context (T L H : int_type).
Hypothesis (HT : In T int_types) (HL : In L int_types) (HH : In H int_types).

Lemma r_min_spec :
  let lo := Z.max (lowest L) (Z.min (lowest H) (lowest T)) in
  r_min T L H = Some lo /\ In (r_min_type T L H) int_types /\ in_type (r_min_type T L H) lo.
Proof.
  intros lo. destruct (ends_ok T HT) as (T1 & _), (ends_ok L HL) as (L1 & _), (ends_ok H HH) as (H1 & _).
  destruct (SafeMin_spec H T _ _ HH HT H1 T1) as [E1 I1].
  destruct (min_t_spec H T HH HT) as (Hm & _).
  destruct (SafeMax_spec L (min_t H T) _ _ HL Hm L1 I1) as [E2 I2].
  unfold r_min, r_min_type. rewrite E1. cbn [mbind option_bind]. split; [done|].
  split; [|done]. by apply max_t_spec.
Qed.

Lemma r_max_spec :
  let hi := Z.min (highest H) (Z.max (highest L) (highest T)) in
  r_max T L H = Some hi /\ In (r_max_type T L H) int_types /\ in_type (r_max_type T L H) hi.
Proof.
  intros hi. destruct (ends_ok T HT) as (_ & T1 & _), (ends_ok L HL) as (_ & L1 & _),
    (ends_ok H HH) as (_ & H1 & _).
  destruct (SafeMax_spec L T _ _ HL HT L1 T1) as [E1 I1].
  destruct (max_t_spec L T HL HT) as (Hm & _).
  destruct (SafeMin_spec H (max_t L T) _ _ HH Hm H1 I1) as [E2 I2].
  unfold r_max, r_max_type. rewrite E1. cbn [mbind option_bind]. split; [done|].
  split; [|done]. by apply min_t_spec.
Qed.

(** The acceptable types by their ends. *)
Definition acceptable (A : int_type) : bool :=
  ((size_of A <=? size_of L) || (size_of A <=? size_of H) || (size_of A <=? size_of T)) &&
  ((lowest A <=? Z.max (lowest L) (Z.min (lowest H) (lowest T))) &&
   (Z.min (highest H) (Z.max (highest L) (highest T)) <=? highest A)).

Lemma AcceptableType_eq A : In A int_types -> AcceptableType T L H A = acceptable A.
Proof.
  intros HA. destruct r_min_spec as (E1 & I1 & R1), r_max_spec as (E2 & I2 & R2).
  destruct (ends_ok A HA) as (A1 & A2 & _).
  unfold AcceptableType. rewrite E1, E2. unfold SafeLe. by rewrite !SafeOp_spec by done.
Qed.

Definition pick (acc : int_type -> bool) : option int_type :=
  let s := best acc int8 int16 int32 int64 in
  let u := best acc uint8 uint16 uint32 uint64 in
  let type := if is_signed T then if acc s then s else u else if acc u then u else s in
  if acc type then Some type else None.

Lemma pick_ext acc acc' :
  (forall A, In A int_types -> acc A = acc' A) -> pick acc = pick acc'.
Proof.
  intros E. unfold pick. cbv zeta.
  assert (Eb : forall t1 t2 t3 t4, In t1 int_types -> In t2 int_types -> In t3 int_types ->
    best acc t1 t2 t3 t4 = best acc' t1 t2 t3 t4) by (intros; unfold best; by rewrite !E).
  rewrite !Eb by (cbn; tauto). destruct (best_types acc') as [Is Iu].
  set (s := best _ int8 _ _ _) in *. set (u := best _ uint8 _ _ _) in *.
  rewrite !(E s), !(E u) by done. rewrite E; [done|]. by repeat case_match.
Qed.

End clamp_lemmas.

(** Every combination of types has a type for the result. *)
Lemma picks_exist :
  forallb (fun T => forallb (fun L => forallb (fun H =>
    match pick T (acceptable T L H) with Some C => acceptable T L H C | None => false end)
    int_types) int_types) int_types = true.
Proof. vm_compute. reflexivity. Qed.

Lemma ClampType_spec T L H :
  In T int_types -> In L int_types -> In H int_types ->
  exists C, ClampType T L H = Some C /\ In C int_types /\ acceptable T L H C = true.
Proof.
  intros HT HL HH.
  assert (E : ClampType T L H = pick T (acceptable T L H)).
  { transitivity (pick T (AcceptableType T L H)); [done|]. apply pick_ext. intros A HA.
    by apply AcceptableType_eq. }
  pose proof picks_exist as P.
  rewrite forallb_forall in P. specialize (P T HT). rewrite forallb_forall in P.
  specialize (P L HL). rewrite forallb_forall in P. specialize (P H HH).
  rewrite E. destruct (pick _ _) as [C|] eqn:EC; [|done]. exists C. split; [done|].
  split; [|done]. unfold pick in EC. cbv zeta in EC.
  destruct (best_types (acceptable T L H)) as [Is Iu].
  destruct (acceptable T L H (if is_signed T then _ else _)); [|done]. injection EC as <-.
  by repeat case_match.
Qed.

Lemma SafeClamp_spec T L H x min max :
  In T int_types -> In L int_types -> In H int_types ->
  in_type T x -> in_type L min -> in_type H max ->
  SafeClamp T L H None x min max =
    Some (if min <=? max then Ok (Z.max min (Z.min x max)) else Fault AssertionFailed).
Proof.
  intros HT HL HH Hx Hmin Hmax.
  destruct (ClampType_spec T L H HT HL HH) as (C & EC & IC & AC).
  unfold acceptable in AC. rewrite !andb_true_iff, !Z.leb_le in AC. destruct AC as (_ & A1 & A2).
  destruct (ends_ok C IC) as (_ & _ & Hs).
  unfold SafeClamp. rewrite EC. cbn [mbind option_bind]. rewrite TypeOr_None by done.
  cbn [mbind option_bind]. unfold SafeLe, SafeGe. rewrite !SafeOp_spec by done. cbn [compare].
  destruct (Z.leb_spec min max) as [Hle|Hgt]; cbn [negb]; [|done]. do 2 f_equal.
  unfold in_type in *.
  destruct (Z.leb_spec x min); [|destruct (Z.leb_spec max x)];
    (rewrite static_cast_id; [lia|done|unfold in_type; lia]).
Qed.

(** ** The dot product *)

Lemma dot_spec_range v1 v2 n k :
  samples16 v1 -> samples16 v2 -> 0 <= k <= 31 ->
  Z.abs (dot_spec v1 v2 n k) <= Z.of_nat n * 1073741824.
Proof.
  intros H1 H2 Hk. revert v1 v2 H1 H2. induction n as [|n IH]; intros v1 v2 H1 H2.
  { by destruct v1, v2. }
  destruct v1 as [|a v1], v2 as [|b v2]; cbn [dot_spec]; try lia.
  pose proof (Forall_inv H1) as Ha. pose proof (Forall_inv H2) as Hb.
  apply Forall_inv_tail in H1, H2.
  specialize (IH v1 v2 H1 H2). pose proof (shifted_product_bounds a b k Ha Hb Hk). lia.
Qed.

(** The two copies of the scaled dot product agree. *)
Lemma DotProductWithScale_copies v1 v2 n k :
  samples16 v1 -> samples16 v2 -> (n <= length v1)%nat -> (n <= length v2)%nat ->
  Z.of_nat n < 2 ^ 32 -> 0 <= k <= 31 ->
  DotProductWithScale v1 v2 n k = WebRtcSpl_DotProductWithScale v1 v2 n k.
Proof.
  intros H1 H2 L1 L2 Hn Hk.
  pose proof (DotProductWithScale_spec v1 v2 n k H1 H2 L1 L2 Hn Hk) as E.
  pose proof (dot_spec_range v1 v2 n k H1 H2 Hk) as Hr.
  unfold WebRtcSpl_DotProductWithScale in *.
  pose proof (dot_tail_spec v1 v2 n k 0 H1 H2 L1 L2 Hk ltac:(unfold dot_headroom; lia)) as Et.
  rewrite <- dot_unrolled_eq_tail in Et. rewrite E. unfold DotProductWithScale. rewrite Et.
  rewrite bind_ok, Z.add_0_l, saturated_cast_spec; [f_equal|cbn; tauto|cbn; tauto|].
  - change (lowest int32) with INT32_MIN. change (highest int32) with INT32_MAX. lia.
  - unfold in_type. change (lowest int64) with INT64_MIN.
    change (highest int64) with INT64_MAX. lia.
Qed.

(** * Theorems *)

(** On any two of the eight integer types the safe operations are the operations
    on the numbers, whatever the language's conversions do to operands of different
    signedness and width: the comparisons ([RTC_CHECK_EQ] and the like are made of
    them), minimum, maximum and clamping to a third type (a type for the result
    exists for every combination, and bounds in the wrong order are caught), and
    the casts, which saturate or stop exactly where the value does not fit. *)
Lemma safe_operations T1 T2 a b :
  In T1 int_types -> In T2 int_types -> in_type T1 a -> in_type T2 b ->
  (forall op, SafeOp op T1 T2 a b = compare op a b) /\
  SafeMin None T1 T2 a b = Some (Z.min a b) /\
  SafeMax None T1 T2 a b = Some (Z.max a b) /\
  (forall T3 c, In T3 int_types -> in_type T3 c ->
     SafeClamp T1 T2 T3 None a b c =
       Some (if b <=? c then Ok (Z.max b (Z.min a c)) else Fault AssertionFailed)) /\
  saturated_cast T2 T1 a = Ok (Z.max (lowest T2) (Z.min a (highest T2))) /\
  checked_cast T2 T1 a =
    (if (lowest T2 <=? a) && (a <=? highest T2) then Ok a else Fault AssertionFailed).
Proof.
  intros H1 H2 Ha Hb. split; [intros op; by apply SafeOp_spec|].
  split; [by apply SafeMin_spec|]. split; [by apply SafeMax_spec|].
  split; [intros T3 c H3 Hc; by apply SafeClamp_spec|].
  split; [by apply saturated_cast_spec|by apply checked_cast_spec].
Qed.

(** The plain operator on the same operands. *)
Example plain_comparison : apply_op LtOp int32 uint32 (-1) 0 = false.
Proof. reflexivity. Qed.
