(* ===== verification/Clock.v ===== *)
(** * Times

    [base/timeutils.cc]: the conversion of a broken-down UTC time to seconds since 1970,
    time stamps of 32 bits that wrap around, and differences of times.  The clocks
    themselves are not modelled. *)
From S2P Require Import Prelude CInt.

(** [std::tm]; [tm_year] counts from 1900, [tm_mon] from 0, [tm_mday] from 1. *)
Record tm := MkTm {
  tm_year : Z; tm_mon : Z; tm_mday : Z; tm_hour : Z; tm_min : Z; tm_sec : Z
}.

Definition mdays : list Z := [31; 28; 31; 30; 31; 30; 31; 31; 30; 31; 30; 31].
Definition cumul_mdays : list Z := [0; 31; 59; 90; 120; 151; 181; 212; 243; 273; 304; 334].

Definition expiry_in_leap_year (year : Z) : bool :=
  (Z.rem year 4 =? 0) && (negb (Z.rem year 100 =? 0) || (Z.rem year 400 =? 0)).

Definition TmToSeconds (t : tm) : res Z :=
  year ← add32 (tm_year t) 1900;
  let month := tm_mon t in
  day ← sub32 (tm_mday t) 1;
  let hour := tm_hour t in
  let min := tm_min t in
  let sec := tm_sec t in
  let leap := expiry_in_leap_year year in
  if year <? 1970 then Ok (-1) else
  if (month <? 0) || (11 <? month) then Ok (-1) else
  md ← rd mdays month;
  if (day <? 0) || (md + (if leap && (month =? 2 - 1) then 1 else 0) <=? day) then Ok (-1) else
  if (hour <? 0) || (23 <? hour) then Ok (-1) else
  if (min <? 0) || (59 <? min) then Ok (-1) else
  if (sec <? 0) || (59 <? sec) then Ok (-1) else
  cm ← rd cumul_mdays month;
  day ← add32 day cm;
  y4 ← sub32 (Z.quot year 4) (1970 / 4);
  y100 ← sub32 (Z.quot year 100) (1970 / 100);
  y400 ← sub32 (Z.quot year 400) (1970 / 400);
  d ← sub32 y4 y100;
  d ← add32 d y400;
  day ← add32 day d;
  day ← (if leap && (month <=? 2 - 1) then sub32 day 1 else Ok day);
  y ← sub32 year 1970;
  s ← mul64 y 365;
  s ← add64 s day;
  s ← mul64 s 24;
  s ← add64 s hour;
  s ← mul64 s 60;
  s ← add64 s min;
  s ← mul64 s 60;
  add64 s sec.

(** ** Wrapping time stamps *)

Record TimestampWrapAroundHandler := MkWrap { last_ts_ : Z; num_wrap_ : Z }.

Definition TimestampWrapAroundHandler_new : TimestampWrapAroundHandler := MkWrap 0 (-1).

Definition shl64 (a c : Z) : res Z :=
  if (0 <=? c) && (c <=? 63) then chk64 (Z.shiftl a c) else Fault ShiftRange.

Definition Unwrap (h : TimestampWrapAroundHandler) (ts : Z) : res (Z * TimestampWrapAroundHandler) :=
  if num_wrap_ h =? -1 then Ok (ts, MkWrap ts 0) else
  if ts <? last_ts_ h then
    n ← (if (0xf0000000 <=? last_ts_ h) && (ts <? 0x0fffffff)
         then add64 (num_wrap_ h) 1 else Ok (num_wrap_ h));
    w ← shl64 n 32;
    v ← add64 ts w;
    Ok (v, MkWrap ts n)
  else if 0xf0000000 <? subu ts (last_ts_ h) then
    n ← chk64 (num_wrap_ h - 1);
    w ← shl64 n 32;
    v ← add64 ts w;
    Ok (v, h)
  else
    w ← shl64 (num_wrap_ h) 32;
    v ← add64 ts w;
    Ok (v, MkWrap ts (num_wrap_ h)).

Definition TimeDiff32 (later earlier : Z) : Z := to_i32 (subu later earlier).
Definition TimeDiff (later earlier : Z) : res Z := chk64 (later - earlier).

(** ** The calendar *)

Definition is_leap (y : Z) : bool :=
  (y mod 4 =? 0) && (negb (y mod 100 =? 0) || (y mod 400 =? 0)).

Definition month_length (y m : Z) : Z :=
  if m =? 1 then (if is_leap y then 29 else 28) else default 0 (mdays !! Z.to_nat m).

(** The days of the years from 1970 to before [1970 + n], and those of the first [m]
    months of a year. *)
Fixpoint days_of_years (n : nat) : Z :=
  match n with
  | O => 0
  | S n => days_of_years n + (if is_leap (1970 + Z.of_nat n) then 366 else 365)
  end.

Fixpoint days_of_months (y : Z) (m : nat) : Z :=
  match m with
  | O => 0
  | S m => days_of_months y m + month_length y (Z.of_nat m)
  end.

Definition valid_time (t : tm) : bool :=
  let y := tm_year t + 1900 in
  (1970 <=? y) && (0 <=? tm_mon t) && (tm_mon t <=? 11) &&
  (1 <=? tm_mday t) && (tm_mday t <=? month_length y (tm_mon t)) &&
  (0 <=? tm_hour t) && (tm_hour t <=? 23) && (0 <=? tm_min t) && (tm_min t <=? 59) &&
  (0 <=? tm_sec t) && (tm_sec t <=? 59).

Definition seconds (t : tm) : Z :=
  let y := tm_year t + 1900 in
  let days := days_of_years (Z.to_nat (y - 1970)) + days_of_months y (Z.to_nat (tm_mon t)) +
              (tm_mday t - 1) in
  ((days * 24 + tm_hour t) * 60 + tm_min t) * 60 + tm_sec t.

(** * Lemmas *)

(** The leap years up to a year. *)
Definition leaps (y : Z) : Z := y / 4 - y / 100 + y / 400.

Lemma div_succ y k :
  0 < k -> (y + 1) / k = y / k + (if (y + 1) mod k =? 0 then 1 else 0).
Proof.
  intros Hk. pose proof (Z.div_mod y k ltac:(lia)) as E. pose proof (Z.mod_pos_bound y k Hk) as B.
  destruct (Z.eq_dec (y mod k) (k - 1)) as [Er|Hr].
  - assert (Ey : y + 1 = (y / k + 1) * k) by lia. rewrite Ey at 1 2.
    rewrite Z.div_mul, Z.mod_mul by lia. done.
  - rewrite <- (Z.div_unique_pos (y + 1) k (y / k) (y mod k + 1)) by lia.
    rewrite <- (Z.mod_unique_pos (y + 1) k (y / k) (y mod k + 1)) by lia.
    rewrite (proj2 (Z.eqb_neq _ _)) by lia. lia.
Qed.

Lemma multiple_mod y a b : 0 < a -> 0 < b -> y mod (a * b) = 0 -> y mod a = 0.
Proof.
  intros Ha Hb H. apply Z.mod_divide; [lia|]. apply Z.mod_divide in H; [|lia].
  destruct H as [q ->]. exists (q * b). lia.
Qed.

Lemma leaps_step y : leaps (y + 1) = leaps y + (if is_leap (y + 1) then 1 else 0).
Proof.
  unfold leaps, is_leap. rewrite !div_succ by lia.
  pose proof (multiple_mod (y + 1) 4 25 ltac:(lia) ltac:(lia)) as H1.
  pose proof (multiple_mod (y + 1) 100 4 ltac:(lia) ltac:(lia)) as H2.
  change (4 * 25) with 100 in H1. change (100 * 4) with 400 in H2.
  destruct (Z.eqb_spec ((y + 1) mod 4) 0); destruct (Z.eqb_spec ((y + 1) mod 100) 0);
    destruct (Z.eqb_spec ((y + 1) mod 400) 0); cbn [negb andb orb];
    (exfalso; tauto) || lia.
Qed.

Lemma days_of_years_eq n :
  days_of_years n = 365 * Z.of_nat n + leaps (1969 + Z.of_nat n) - leaps 1969.
Proof.
  induction n as [|n IH]; cbn [days_of_years]; [by rewrite Z.add_0_r, Z.mul_0_r, Z.sub_diag|].
  replace (1969 + Z.of_nat (S n)) with ((1969 + Z.of_nat n) + 1) by lia.
  rewrite leaps_step, IH. replace (1969 + Z.of_nat n + 1) with (1970 + Z.of_nat n) by lia.
  destruct (is_leap _); lia.
Qed.

Lemma days_of_months_eq y m :
  (m <= 11)%nat ->
  days_of_months y m =
  default 0 (cumul_mdays !! m) + (if is_leap y && (1 <? Z.of_nat m) then 1 else 0).
Proof.
  intros Hm. do 12 (destruct m as [|m];
    [cbn [days_of_months]; unfold month_length; destruct (is_leap y); reflexivity|]). lia.
Qed.

Lemma leap_year_eq y : 0 <= y -> expiry_in_leap_year y = is_leap y.
Proof. intros Hy. unfold expiry_in_leap_year, is_leap. by rewrite !Z.rem_mod_nonneg by lia. Qed.

Lemma rd_month (l : list Z) m :
  length l = 12%nat -> 0 <= m <= 11 -> rd l m = Ok (default 0 (l !! Z.to_nat m)).
Proof.
  intros L Hm. apply wp_pure, wp_rd; [unfold zlen; lia|]. by intros v ->.
Qed.

(** The table of months with the leap day added where it belongs. *)
Lemma month_length_eq y m :
  0 <= m <= 11 ->
  month_length y m = default 0 (mdays !! Z.to_nat m) + (if is_leap y && (m =? 1) then 1 else 0).
Proof.
  intros Hm. unfold month_length. destruct (Z.eqb_spec m 1) as [->|Hne].
  - by destruct (is_leap y).
  - rewrite andb_false_r. lia.
Qed.

Lemma cumul_range m : 0 <= default 0 (cumul_mdays !! m) <= 334.
Proof. do 12 (destruct m as [|m]; [cbv [default from_option id]; simpl; lia|]). simpl. lia. Qed.

Lemma mdays_range m : 0 <= default 0 (mdays !! m) <= 31.
Proof. do 12 (destruct m as [|m]; [cbv [default from_option id]; simpl; lia|]). simpl. lia. Qed.

Lemma leaps_bounds y : 1970 <= y <= INT32_MAX -> leaps 1969 <= leaps y <= leaps 1969 + (y - 1969).
Proof.
  intros Hy. replace y with (1969 + Z.of_nat (Z.to_nat (y - 1969))) by lia.
  generalize (Z.to_nat (y - 1969)) as n. intros n. induction n as [|n IH].
  - rewrite Z.add_0_r. lia.
  - replace (1969 + Z.of_nat (S n)) with ((1969 + Z.of_nat n) + 1) by lia. rewrite leaps_step.
    destruct (is_leap _); lia.
Qed.


Lemma add32_ok a b : i32 (a + b) -> add32 a b = Ok (a + b).
Proof. apply chk32_ok. Qed.

Lemma sub32_ok a b : i32 (a - b) -> sub32 a b = Ok (a - b).
Proof. apply chk32_ok. Qed.

Lemma chk64_ok a : i64 a -> chk64 a = Ok a.
Proof. intros Ha. by apply wp_pure, wp_chk64. Qed.

Lemma add64_ok a b : i64 (a + b) -> add64 a b = Ok (a + b).
Proof. apply chk64_ok. Qed.

Lemma mul64_ok a b : i64 (a * b) -> mul64 a b = Ok (a * b).
Proof. apply chk64_ok. Qed.

Lemma month_length_range y m : month_length y m <= 31.
Proof.
  unfold month_length. destruct (m =? 1); [destruct (is_leap y); lia|]. apply mdays_range.
Qed.

(** A range test by two comparisons against its negation. *)
Ltac outside a b c :=
  let E := fresh in
  assert (E : a && b = negb c)
    by (apply eq_true_iff_eq; rewrite andb_true_iff, negb_true_iff, orb_false_iff,
          ?Z.leb_le, ?Z.ltb_ge, ?Z.leb_gt; lia);
  let F := fresh in
  destruct c eqn:F; [by rewrite E|];
  rewrite E; apply orb_false_iff in F; rewrite ?Z.ltb_ge, ?Z.leb_gt in F; cbn [negb andb]; clear E.

(** The part of the function behind the tests. *)
Lemma total_seconds y m d h mi s :
  let year := y + 1900 in
  1970 <= year <= INT32_MAX -> 0 <= m <= 11 -> 1 <= d <= 31 -> 0 <= h <= 23 -> 0 <= mi <= 59 ->
  0 <= s <= 59 ->
  (day ← add32 (d - 1) (default 0 (cumul_mdays !! Z.to_nat m));
   y4 ← sub32 (Z.quot year 4) (1970 / 4);
   y100 ← sub32 (Z.quot year 100) (1970 / 100);
   y400 ← sub32 (Z.quot year 400) (1970 / 400);
   d ← sub32 y4 y100;
   d ← add32 d y400;
   day ← add32 day d;
   day ← (if is_leap year && (m <=? 1) then sub32 day 1 else Ok day);
   y ← sub32 year 1970;
   s' ← mul64 y 365;
   s' ← add64 s' day;
   s' ← mul64 s' 24;
   s' ← add64 s' h;
   s' ← mul64 s' 60;
   s' ← add64 s' mi;
   s' ← mul64 s' 60;
   add64 s' s) = Ok (seconds (MkTm y m d h mi s)).
Proof.
  intros year Hy Hm Hd Hh Hmi Hs. pose proof (cumul_range (Z.to_nat m)) as Hc.
  pose proof (leaps_bounds year Hy) as HL. unfold leaps in HL.
  change (1969 / 4 - 1969 / 100 + 1969 / 400) with 477 in HL.
  change (1970 / 4) with 492. change (1970 / 100) with 19. change (1970 / 400) with 4.
  rewrite !Z.quot_div_nonneg by lia.
  assert (B : forall k, 0 < k -> 0 <= year / k <= year).
  { intros k Hk. split; [apply Z.div_pos; lia|apply Z.div_le_upper_bound; nia]. }
  pose proof (B 4 ltac:(lia)) as B4. pose proof (B 100 ltac:(lia)) as B100.
  pose proof (B 400 ltac:(lia)) as B400. clear B.
  set (c := default 0 (cumul_mdays !! Z.to_nat m)) in *.
  rewrite (add32_ok (d - 1)), bind_ok by (unfold i32; lia).
  rewrite (sub32_ok (year / 4)), (sub32_ok (year / 100)), (sub32_ok (year / 400)), !bind_ok
    by (unfold i32; lia).
  rewrite (sub32_ok (year / 4 - 492)), bind_ok by (unfold i32; lia).
  rewrite (add32_ok (year / 4 - 492 - _)), bind_ok by (unfold i32; lia).
  rewrite (add32_ok (d - 1 + c)), bind_ok by (unfold i32; lia).
  set (day := d - 1 + c + _).
  assert (Hday : 0 <= day <= INT32_MAX - 1000) by (unfold day; lia).
  set (z := if is_leap year && (m <=? 1) then 1 else 0).
  assert (Ez : (if is_leap year && (m <=? 1) then sub32 day 1 else Ok day) = Ok (day - z)).
  { unfold z. destruct (is_leap year && (m <=? 1)); [apply sub32_ok; unfold i32; lia|].
    by rewrite Z.sub_0_r. }
  assert (Hz : 0 <= z <= 1) by (unfold z; destruct (is_leap year && (m <=? 1)); lia).
  rewrite Ez, bind_ok, (sub32_ok year), bind_ok by (unfold i32; lia).
  rewrite mul64_ok, bind_ok by (unfold i64; lia).
  rewrite (add64_ok (_ * 365)), bind_ok by (unfold i64; lia).
  rewrite mul64_ok, bind_ok by (unfold i64; lia). rewrite add64_ok, bind_ok by (unfold i64; lia).
  rewrite mul64_ok, bind_ok by (unfold i64; lia). rewrite add64_ok, bind_ok by (unfold i64; lia).
  rewrite mul64_ok, bind_ok by (unfold i64; lia). rewrite add64_ok by (unfold i64; lia).
  f_equal. unfold seconds. cbn [tm_year tm_mon tm_mday tm_hour tm_min tm_sec]. fold year.
  rewrite days_of_years_eq, days_of_months_eq by lia. fold c.
  replace (1969 + Z.of_nat (Z.to_nat (year - 1970))) with (year - 1) by lia.
  assert (EL : leaps year = leaps (year - 1) + (if is_leap year then 1 else 0)).
  { pose proof (leaps_step (year - 1)) as E. by rewrite Z.sub_add in E. }
  change (leaps 1969) with 477. unfold leaps in EL at 1.
  assert (Ed : day - z = d - 1 + c + (leaps (year - 1) - 477) +
                        (if is_leap year && (1 <? Z.of_nat (Z.to_nat m)) then 1 else 0)).
  { unfold day, z. rewrite Z2Nat.id by lia. destruct (is_leap year); cbn [andb];
      [destruct (Z.leb_spec m 1), (Z.ltb_spec 1 m)|]; lia. }
  rewrite Ed. set (q := if is_leap year && _ then 1 else 0).
  rewrite !Z2Nat.id by lia. lia.
Qed.

(** C32: [TmToSeconds] counts the seconds since 1970 of every valid time, the days being
    those of all years and months before it in the Gregorian calendar, and returns -1
    for every time that does not exist; no arithmetic overflows while the year, counted
    from 1900, can be counted from 0 in an [int], and the day of the month is not the
    smallest [int], from which 1 is subtracted. *)
Theorem TmToSeconds_spec t :
  i32 (tm_year t) -> tm_year t <= INT32_MAX - 1900 -> i32 (tm_mon t) ->
  INT32_MIN < tm_mday t <= INT32_MAX -> i32 (tm_hour t) -> i32 (tm_min t) -> i32 (tm_sec t) ->
  TmToSeconds t = Ok (if valid_time t then seconds t else -1).
Proof.
  destruct t as [y m d h mi s]; cbn [tm_year tm_mon tm_mday tm_hour tm_min tm_sec].
  unfold i32. intros Hy Hy' Hm Hd Hh Hmi Hs. unfold TmToSeconds, valid_time.
  cbn [tm_year tm_mon tm_mday tm_hour tm_min tm_sec]. set (year := y + 1900).
  rewrite (add32_ok y 1900), bind_ok, (sub32_ok d 1), bind_ok by (unfold i32; lia).
  fold year. cbv zeta.
  destruct (Z.ltb_spec year 1970) as [Hyr|Hyr].
  { by rewrite (proj2 (Z.leb_gt _ _)) by lia. }
  rewrite (proj2 (Z.leb_le 1970 year)) by lia. cbn [andb].
  destruct (Z.ltb_spec m 0) as [Hm0|Hm0]; cbn [orb].
  { by rewrite (proj2 (Z.leb_gt 0 m)) by lia. }
  rewrite (proj2 (Z.leb_le 0 m)) by lia. cbn [andb].
  destruct (Z.ltb_spec 11 m) as [Hm1|Hm1].
  { by rewrite (proj2 (Z.leb_gt m 11)) by lia. }
  rewrite (proj2 (Z.leb_le m 11)) by lia. cbn [andb].
  rewrite (rd_month mdays m eq_refl (conj Hm0 Hm1)), bind_ok. rewrite (leap_year_eq year) by lia.
  change (2 - 1) with 1. rewrite <- month_length_eq by lia.
  outside (1 <=? d) (d <=? month_length year m) ((d - 1 <? 0) || (month_length year m <=? d - 1)).
  outside (0 <=? h) (h <=? 23) ((h <? 0) || (23 <? h)).
  outside (0 <=? mi) (mi <=? 59) ((mi <? 0) || (59 <? mi)).
  outside (0 <=? s) (s <=? 59) ((s <? 0) || (59 <? s)).
  rewrite (rd_month cumul_mdays m eq_refl (conj Hm0 Hm1)), bind_ok.
  pose proof (month_length_range year m). apply total_seconds; lia.
Qed.

(** The leap day of the year 2000, and a day that does not exist. *)
Lemma TmToSeconds_spec_witness :
  TmToSeconds (MkTm 100 1 29 12 30 15) = Ok (seconds (MkTm 100 1 29 12 30 15)) /\
  TmToSeconds (MkTm 101 1 29 12 30 15) = Ok (-1).
Proof.
  split; (refine (eq_trans (TmToSeconds_spec _ _ _ _ _ _ _ _) _);
    [unfold i32; cbn; lia|cbn; lia|unfold i32; cbn; lia|cbn; lia|unfold i32; cbn; lia
    |unfold i32; cbn; lia|unfold i32; cbn; lia|reflexivity]).
Defined.

(** The counting of years does not overflow earlier than the [int] does. *)
Example year_overflow : TmToSeconds (MkTm INT32_MAX 0 1 0 0 0) = Fault SignedOverflow.
Proof. reflexivity. Qed.

(** ** Unwrapping *)

(** The handler holds the 64-bit time [l] of the last time stamp it went by. *)
Definition holds (h : TimestampWrapAroundHandler) (l : Z) : Prop :=
  0 <= last_ts_ h < 2 ^ 32 /\ 0 <= num_wrap_ h /\ l = num_wrap_ h * 2 ^ 32 + last_ts_ h.

(** A step back over a multiple of 2^32 is answered, but not gone by. *)
Definition reference (l t : Z) : Z := if t / 2 ^ 32 <? l / 2 ^ 32 then l else t.

Lemma shl64_32 n : -1 <= n <= 2 ^ 30 -> shl64 n 32 = Ok (n * 2 ^ 32).
Proof.
  intros Hn. unfold shl64. cbn [Z.leb andb Z.compare Pos.compare Pos.compare_cont].
  rewrite Z.shiftl_mul_pow2 by lia. apply chk64_ok. unfold i64. lia.
Qed.

(** One time stamp at a distance of less than 2^28 from the last one. *)
Lemma Unwrap_near h l t :
  holds h l -> Z.abs (t - l) <= 0x0fffffff -> l <= 2 ^ 61 ->
  exists h', Unwrap h (t mod 2 ^ 32) = Ok (t, h') /\ holds h' (reference l t).
Proof.
  intros (Hl & Hn & El) Ht Hb. unfold Unwrap.
  rewrite (proj2 (Z.eqb_neq _ _)) by lia.
  pose proof (Z.div_mod t (2 ^ 32) ltac:(lia)) as Et.
  pose proof (Z.mod_pos_bound t (2 ^ 32) ltac:(lia)) as Bt.
  set (ts := t mod 2 ^ 32) in *. set (q := t / 2 ^ 32) in *.
  assert (Eq : l / 2 ^ 32 = num_wrap_ h)
    by (symmetry; apply (Z.div_unique_pos _ _ _ (last_ts_ h)); lia).
  unfold reference. fold q. rewrite Eq. set (n := num_wrap_ h) in *. set (la := last_ts_ h) in *.
  assert (Hq : q = n - 1 \/ q = n \/ q = n + 1) by lia.
  destruct (Z.ltb_spec ts la) as [Hlt|Hge].
  - destruct Hq as [Hq|[Hq|Hq]]; [exfalso; lia| |].
    + assert (Ec : (0xf0000000 <=? la) && (ts <? 0x0fffffff) = false).
      { apply andb_false_iff. rewrite Z.leb_gt, Z.ltb_ge. lia. }
      rewrite Ec, bind_ok, shl64_32, bind_ok by lia.
      rewrite add64_ok, bind_ok by (unfold i64; lia). exists (MkWrap ts n).
      split; [f_equal; f_equal; lia|]. rewrite (proj2 (Z.ltb_ge q n)) by lia.
      unfold holds; cbn [last_ts_ num_wrap_]; lia.
    + assert (Ec : (0xf0000000 <=? la) && (ts <? 0x0fffffff) = true).
      { apply andb_true_iff. rewrite Z.leb_le, Z.ltb_lt. lia. }
      rewrite Ec, add64_ok, bind_ok by (unfold i64; lia).
      rewrite shl64_32, bind_ok by lia. rewrite add64_ok, bind_ok by (unfold i64; lia).
      exists (MkWrap ts (n + 1)). split; [f_equal; f_equal; lia|].
      rewrite (proj2 (Z.ltb_ge q n)) by lia. unfold holds; cbn [last_ts_ num_wrap_]; lia.
  - assert (Es : subu ts la = ts - la) by (unfold subu; apply to_u32_id; unfold u32; lia).
    rewrite Es. destruct Hq as [Hq|[Hq|Hq]]; [| |exfalso; lia].
    + rewrite (proj2 (Z.ltb_lt _ _)) by lia. rewrite chk64_ok, bind_ok by (unfold i64; lia).
      rewrite shl64_32, bind_ok by lia. rewrite add64_ok, bind_ok by (unfold i64; lia).
      exists h. split; [f_equal; f_equal; lia|]. rewrite (proj2 (Z.ltb_lt q n)) by lia.
      by unfold holds.
    + rewrite (proj2 (Z.ltb_ge _ _)) by lia. rewrite shl64_32, bind_ok by lia.
      rewrite add64_ok, bind_ok by (unfold i64; lia). exists (MkWrap ts n).
      split; [f_equal; f_equal; lia|]. rewrite (proj2 (Z.ltb_ge q n)) by lia.
      unfold holds; cbn [last_ts_ num_wrap_]; lia.
Qed.

Fixpoint unwrap_all (h : TimestampWrapAroundHandler) (ts : list Z) : res (list Z) :=
  match ts with
  | [] => Ok []
  | x :: ts => '(v, h) ← Unwrap h x; vs ← unwrap_all h ts; Ok (v :: vs)
  end.

(** Times, each near the one the handler went by last. *)
Fixpoint near_times (l : Z) (ts : list Z) : Prop :=
  match ts with
  | [] => True
  | t :: ts => Z.abs (t - l) <= 0x0fffffff /\ t <= 2 ^ 61 /\ near_times (reference l t) ts
  end.

(** The times are found again from their lower 32 bits, forwards and backwards. *)
Lemma unwrap_times t ts :
  0 <= t < 2 ^ 32 -> near_times t ts ->
  unwrap_all TimestampWrapAroundHandler_new (map (fun t => t mod 2 ^ 32) (t :: ts)) = Ok (t :: ts).
Proof.
  intros Ht H. cbn [map unwrap_all]. rewrite Z.mod_small by lia.
  change (Unwrap TimestampWrapAroundHandler_new t) with (Ok (t, MkWrap t 0) : res _).
  rewrite bind_ok.
  enough (E : forall h l, holds h l -> l <= 2 ^ 61 -> near_times l ts ->
                unwrap_all h (map (fun t => t mod 2 ^ 32) ts) = Ok ts).
  { rewrite (E (MkWrap t 0) t); [done|unfold holds; cbn; lia|lia|done]. }
  clear t Ht H. induction ts as [|t ts IH]; intros h l Hh Hl H; cbn [map unwrap_all]; [done|].
  destruct H as (Hd & Hb & H). destruct (Unwrap_near h l t Hh Hd Hl) as (h' & -> & Hh').
  rewrite bind_ok, (IH h' (reference l t)); [done|done| |done].
  unfold reference. by destruct (_ <? _).
Qed.

(** The times of the unit test: back over 0, forwards again, and over 2^32. *)
Example unwrap_test :
  unwrap_all TimestampWrapAroundHandler_new
    (map (fun t => t mod 2 ^ 32) [2; -2; 2; 0x0fffffff; 0x1fffffff]) =
  Ok [2; -2; 2; 0x0fffffff; 0x1fffffff].
Proof. vm_compute. reflexivity. Qed.
