(* ===== verification/MessageQueue.v ===== *)
(** * Message queues

    [base/messagequeue.{h,cc}]: a queue of messages for the handlers of one thread, which any thread
    may post to, at once or for a later time.

    The methods run under the lock of the queue and are atomic steps.  The clock is an
    argument [now].  [SocketServer::Wait] is a call to an object the queue is given:
    while it waits other threads post, and it returns a flag at some later time, so
    each wait is an argument [mq_wait] of [Get].  Messages carry pointers to data that
    the queue owns from the post until it hands them out or deletes them; the result
    of a method says what it deleted.  The destructors of the data do not call the
    queue here.  [std::priority_queue] is the list of its elements, the top first.
    Logging, tracing and the registration with the manager are left out. *)
From Stdlib Require Import String Sorted.
From S2P Require Import Prelude CInt Clock.

(** ** Messages *)

Record Location := MkLocation { function_name_ : string; file_and_line_ : string }.
Definition Location_default : Location := MkLocation "Unknown" "Unknown".

Record Message := MkMessage {
  posted_from : Location; phandler : option nat; message_id : Z; pdata : option nat;
  ts_sensitive : Z
}.

Definition Message_default : Message := MkMessage Location_default None 0 None 0.

Definition MQID_ANY : Z := to_u32 (-1).
Definition MQID_DISPOSE : Z := to_u32 (-2).

Definition Match (m : Message) (handler : option nat) (id : Z) : bool :=
  (bool_decide (handler = None) || bool_decide (handler = phandler m)) &&
  ((id =? MQID_ANY) || (id =? message_id m)).

Record DelayedMessage := MkDelayed {
  cmsDelay_ : Z; msTrigger_ : Z; num_ : Z; msg_ : Message
}.

(** [operator<]: the greater message is the one to be delivered first. *)
Definition delayed_less (a b : DelayedMessage) : bool :=
  (msTrigger_ b <? msTrigger_ a) || ((msTrigger_ b =? msTrigger_ a) && (num_ b <? num_ a)).

Record MessageQueue := MkQueue {
  fPeekKeep_ : bool; msgPeek_ : Message; msgq_ : list Message; dmsgq_ : list DelayedMessage;
  dmsgq_next_num_ : Z; stop_ : Z
}.

Definition kForever : Z := -1.
Definition kMaxMsgLatency : Z := 150.

(** [msgPeek_] is default constructed. *)
Definition MessageQueue_new : MessageQueue := MkQueue false Message_default [] [] 0 0.

Definition with_msgq (l : list Message) (q : MessageQueue) : MessageQueue :=
  MkQueue (fPeekKeep_ q) (msgPeek_ q) l (dmsgq_ q) (dmsgq_next_num_ q) (stop_ q).
Definition with_dmsgq (l : list DelayedMessage) (n : Z) (q : MessageQueue) : MessageQueue :=
  MkQueue (fPeekKeep_ q) (msgPeek_ q) (msgq_ q) l n (stop_ q).
Definition with_peek (keep : bool) (m : Message) (q : MessageQueue) : MessageQueue :=
  MkQueue keep m (msgq_ q) (dmsgq_ q) (dmsgq_next_num_ q) (stop_ q).
Definition with_stop (s : Z) (q : MessageQueue) : MessageQueue :=
  MkQueue (fPeekKeep_ q) (msgPeek_ q) (msgq_ q) (dmsgq_ q) (dmsgq_next_num_ q) s.

Definition mq_size (q : MessageQueue) : nat :=
  (length (msgq_ q) + length (dmsgq_ q) + if fPeekKeep_ q then 1 else 0)%nat.
Definition mq_empty (q : MessageQueue) : bool := (mq_size q =? 0)%nat.

Definition IsQuitting (q : MessageQueue) : bool := negb (stop_ q =? 0).
(** The second component says whether the socket server is woken up. *)
Definition Quit (q : MessageQueue) : MessageQueue * bool := (with_stop 1 q, true).
Definition Restart (q : MessageQueue) : MessageQueue := with_stop 0 q.

(** ** Posting *)

(** The queue, and whether the socket server is woken up. *)
Definition Post (q : MessageQueue) (now : Z) (from : Location) (handler : option nat) (id : Z)
    (data : option nat) (time_sensitive : bool) : res (MessageQueue * bool) :=
  if IsQuitting q then Ok (q, false) else
  ts ← (if time_sensitive then add64 now kMaxMsgLatency else Ok 0);
  Ok (with_msgq (msgq_ q ++ [MkMessage from handler id data ts]) q, true).

(** [push]: behind the messages that are not less. *)
Fixpoint pq_push (d : DelayedMessage) (l : list DelayedMessage) : list DelayedMessage :=
  match l with
  | [] => [d]
  | e :: l' => if delayed_less e d then d :: l else e :: pq_push d l'
  end.

Definition DoDelayPost (q : MessageQueue) (from : Location) (cmsDelay tstamp : Z)
    (handler : option nat) (id : Z) (data : option nat) : res (MessageQueue * bool) :=
  if IsQuitting q then Ok (q, false) else
  let msg := MkMessage from handler id data 0 in
  let dmsg := MkDelayed cmsDelay tstamp (dmsgq_next_num_ q) msg in
  let next := addu (dmsgq_next_num_ q) 1 in
  if 0 =? next then Fault AssertionFailed else
  Ok (with_dmsgq (pq_push dmsg (dmsgq_ q)) next q, true).

Definition TimeAfter (now elapsed : Z) : res Z :=
  if negb (0 <=? elapsed) then Fault AssertionFailed else chk64 (now + elapsed).
Definition TimeUntil (now later : Z) : res Z := chk64 (later - now).

Definition PostDelayed (q : MessageQueue) (now : Z) (from : Location) (cmsDelay : Z)
    (handler : option nat) (id : Z) (data : option nat) : res (MessageQueue * bool) :=
  tstamp ← TimeAfter now cmsDelay;
  DoDelayPost q from cmsDelay tstamp handler id data.

(** The overload for 32-bit time stamps. *)
Definition PostAt32 (q : MessageQueue) (now : Z) (from : Location) (tstamp : Z)
    (handler : option nat) (id : Z) (data : option nat) : res (MessageQueue * bool) :=
  let delay := subu (to_u32 now) tstamp in
  DoDelayPost q from delay tstamp handler id data.

Definition PostAt (q : MessageQueue) (now : Z) (from : Location) (tstamp : Z)
    (handler : option nat) (id : Z) (data : option nat) : res (MessageQueue * bool) :=
  delay ← TimeUntil now tstamp;
  DoDelayPost q from delay tstamp handler id data.

(** [None]: there is nothing to dispose of, and nothing is posted. *)
Definition Dispose (q : MessageQueue) (now : Z) (from : Location) (doomed : option nat)
    : res (MessageQueue * bool) :=
  match doomed with
  | None => Ok (q, false)
  | Some _ => Post q now from None MQID_DISPOSE doomed false
  end.

(** ** Clearing *)

(** [delete] of a pointer. *)
Definition delete (p : option nat) : list nat := match p with Some d => [d] | None => [] end.

(** A message is handed to the caller's list, or its data are deleted. *)
Definition take_out (m : Message) (removed : option (list Message)) : list nat * option (list Message) :=
  match removed with
  | Some r => ([], Some (r ++ [m]))
  | None => (delete (pdata m), None)
  end.

(** The loops over the two containers: what is deleted, the caller's list and what stays. *)
Fixpoint clear_loop {A} (get : A -> Message) (handler : option nat) (id : Z) (l : list A)
    (removed : option (list Message)) : list nat * option (list Message) * list A :=
  match l with
  | [] => ([], removed, [])
  | x :: l =>
    if Match (get x) handler id then
      let '(d1, removed) := take_out (get x) removed in
      let '(d2, removed, kept) := clear_loop get handler id l removed in
      (d1 ++ d2, removed, kept)
    else
      let '(d, removed, kept) := clear_loop get handler id l removed in
      (d, removed, x :: kept)
  end.

Definition ClearInternal (q : MessageQueue) (handler : option nat) (id : Z)
    (removed : option (list Message)) : list nat * option (list Message) * MessageQueue :=
  let '(d1, removed, keep) :=
    if fPeekKeep_ q && Match (msgPeek_ q) handler id
    then let '(d, removed) := take_out (msgPeek_ q) removed in (d, removed, false)
    else ([], removed, fPeekKeep_ q) in
  let '(d2, removed, ms) := clear_loop (fun m => m) handler id (msgq_ q) removed in
  let '(d3, removed, ds) := clear_loop msg_ handler id (dmsgq_ q) removed in
  (d1 ++ d2 ++ d3, removed,
   MkQueue keep (msgPeek_ q) ms ds (dmsgq_next_num_ q) (stop_ q)).

Definition Clear (q : MessageQueue) (handler : option nat) (id : Z)
    (removed : option (list Message)) : list nat * option (list Message) * MessageQueue :=
  ClearInternal q handler id removed.

(** ** Getting *)

Definition GetDelay (q : MessageQueue) (now : Z) : res Z :=
  match msgq_ q, dmsgq_ q with
  | _ :: _, _ => Ok 0
  | [], top :: _ =>
    t ← TimeUntil now (msTrigger_ top);
    let delay := to_i32 t in
    Ok (if delay <? 0 then 0 else delay)
  | [], [] => Ok kForever
  end.

(** The first pass: the messages whose time has come move over. *)
Fixpoint trigger_loop (msCurrent : Z) (msgq : list Message) (dmsgq : list DelayedMessage)
    : res (Z * list Message * list DelayedMessage) :=
  match dmsgq with
  | [] => Ok (kForever, msgq, [])
  | top :: rest =>
    if msCurrent <? msTrigger_ top then
      cmsDelayNext ← TimeDiff (msTrigger_ top) msCurrent;
      Ok (cmsDelayNext, msgq, dmsgq)
    else trigger_loop msCurrent (msgq ++ [msg_ top]) rest
  end.

(** The passes that pull a message: what is deleted, whether there is a message, the
    contents of [*pmsg] and the queue. *)
Fixpoint pull_loop (msgq : list Message) (pmsg : Message) : res (list nat * bool * Message * list Message) :=
  match msgq with
  | [] => Ok ([], false, pmsg, [])
  | m :: rest =>
    if MQID_DISPOSE =? message_id m then
      if negb (bool_decide (phandler m = None)) then Fault AssertionFailed else
      '(d, found, pmsg, rest) ← pull_loop rest Message_default;
      Ok (delete (pdata m) ++ d, found, pmsg, rest)
    else Ok ([], true, m, rest)
  end.

(** What a round of [Get] ends with: it returns, or waits for some time. *)
Inductive get_outcome := Returns (b : bool) | Waits (cms : Z).

(** The round, up to the call of [Wait]. *)
Definition get_round (q : MessageQueue) (pmsg : Message) (cmsWait cmsElapsed msCurrent : Z)
    : res (list nat * get_outcome * Message * MessageQueue) :=
  '(cmsDelayNext, ms, ds) ← trigger_loop msCurrent (msgq_ q) (dmsgq_ q);
  '(d, found, pmsg, ms) ← pull_loop ms pmsg;
  let q := with_msgq ms (with_dmsgq ds (dmsgq_next_num_ q) q) in
  if found : bool then Ok (d, Returns true, pmsg, q) else
  if IsQuitting q then Ok (d, Returns false, pmsg, q) else
  let cmsNext :=
    if cmsWait =? kForever then cmsDelayNext
    else let cmsNext := Z.max 0 (cmsWait - cmsElapsed) in
         if negb (cmsDelayNext =? kForever) && (cmsDelayNext <? cmsNext) then cmsDelayNext
         else cmsNext in
  Ok (d, Waits (to_i32 cmsNext), pmsg, q).

(** What other threads may do; a call of [Clear] keeps the messages in a list or not. *)
Inductive mq_op :=
| OpPost (now : Z) (from : Location) (handler : option nat) (id : Z) (data : option nat)
    (time_sensitive : bool)
| OpPostDelayed (now : Z) (from : Location) (cmsDelay : Z) (handler : option nat) (id : Z)
    (data : option nat)
| OpPostAt (now : Z) (from : Location) (tstamp : Z) (handler : option nat) (id : Z)
    (data : option nat)
| OpPostAt32 (now : Z) (from : Location) (tstamp : Z) (handler : option nat) (id : Z)
    (data : option nat)
| OpDispose (now : Z) (from : Location) (doomed : option nat)
| OpClear (handler : option nat) (id : Z) (keep : bool)
| OpQuit
| OpRestart.

(** What becomes of data: they are given to the queue, which drops them if it does not
    store the message; it deletes data, and hands out the messages it removes.  The last
    component says whether the queue was told to quit. *)
Record effects := MkEffects {
  given : list nat; dropped : list nat; deleted : list nat; removed : list Message; quits : bool
}.
Definition no_effects : effects := MkEffects [] [] [] [] false.
Definition then_effects (a b : effects) : effects :=
  MkEffects (given a ++ given b) (dropped a ++ dropped b) (deleted a ++ deleted b)
    (removed a ++ removed b) (quits a || quits b).

(** The caller of a post gives its data away.  When the message is stored the socket server
    is woken up, otherwise nothing refers to the data any more. *)
Definition posted (data : option nat) (r : MessageQueue * bool) : effects * MessageQueue :=
  (MkEffects (delete data) (if r.2 then [] else delete data) [] [] false, r.1).

Definition mq_apply (q : MessageQueue) (op : mq_op) : res (effects * MessageQueue) :=
  match op with
  | OpPost now from h id data ts => r ← Post q now from h id data ts; Ok (posted data r)
  | OpPostDelayed now from c h id data => r ← PostDelayed q now from c h id data; Ok (posted data r)
  | OpPostAt now from t h id data => r ← PostAt q now from t h id data; Ok (posted data r)
  | OpPostAt32 now from t h id data => r ← PostAt32 q now from t h id data; Ok (posted data r)
  | OpDispose now from doomed => r ← Dispose q now from doomed; Ok (posted doomed r)
  | OpClear h id keep =>
    let '(d, r, q) := Clear q h id (if keep then Some [] else None) in
    Ok (MkEffects [] [] d (default [] r) false, q)
  | OpQuit => Ok (MkEffects [] [] [] [] true, (Quit q).1)
  | OpRestart => Ok (no_effects, Restart q)
  end.

Fixpoint mq_apply_all (q : MessageQueue) (ops : list mq_op) : res (effects * MessageQueue) :=
  match ops with
  | [] => Ok (no_effects, q)
  | op :: ops => '(e1, q) ← mq_apply q op; '(e2, q) ← mq_apply_all q ops;
                 Ok (then_effects e1 e2, q)
  end.

(** A call of [Wait]: what the other threads do in the meantime, what it returns and the
    time then. *)
Record mq_wait := MkWait { w_ops : list mq_op; w_result : bool; w_now : Z }.

(** The loop of [Get]; when the waits are used up it is still waiting. *)
Fixpoint get_loop (waits : list mq_wait) (q : MessageQueue) (pmsg : Message)
    (cmsWait msStart cmsElapsed msCurrent : Z) : res (effects * get_outcome * Message * MessageQueue) :=
  '(d, o, pmsg, q) ← get_round q pmsg cmsWait cmsElapsed msCurrent;
  let e := MkEffects [] [] d [] false in
  match o, waits with
  | Returns _, _ | Waits _, [] => Ok (e, o, pmsg, q)
  | Waits _, w :: waits =>
    '(e2, q) ← mq_apply_all q (w_ops w);
    let e := then_effects e e2 in
    if negb (w_result w) then Ok (e, Returns false, pmsg, q) else
    let msCurrent := w_now w in
    cmsElapsed ← TimeDiff msCurrent msStart;
    if negb (cmsWait =? kForever) && (cmsWait <=? cmsElapsed)
    then Ok (e, Returns false, pmsg, q)
    else '(e3, o, pmsg, q) ← get_loop waits q pmsg cmsWait msStart cmsElapsed msCurrent;
         Ok (then_effects e e3, o, pmsg, q)
  end.

Definition Get (q : MessageQueue) (pmsg : Message) (cmsWait now : Z) (waits : list mq_wait)
    : res (effects * get_outcome * Message * MessageQueue) :=
  if fPeekKeep_ q then Ok (no_effects, Returns true, msgPeek_ q, with_peek false (msgPeek_ q) q)
  else get_loop waits q pmsg cmsWait now 0 now.

Definition Peek (q : MessageQueue) (pmsg : Message) (cmsWait now : Z) (waits : list mq_wait)
    : res (effects * get_outcome * Message * MessageQueue) :=
  if fPeekKeep_ q then Ok (no_effects, Returns true, msgPeek_ q, q)
  else
    '(e, o, pmsg, q) ← Get q pmsg cmsWait now waits;
    match o with
    | Returns true => Ok (e, o, pmsg, with_peek true pmsg q)
    | _ => Ok (e, o, pmsg, q)
    end.

(** What is deleted at the end. *)
Definition DoDestroy (q : MessageQueue) : list nat * MessageQueue :=
  let '(d, _, q) := ClearInternal q None MQID_ANY None in (d, q).

(** Calls of the thread that owns the queue, between those of others. *)
Inductive mq_call :=
| COp (op : mq_op)
| CGet (cmsWait now : Z) (waits : list mq_wait)
| CPeek (cmsWait now : Z) (waits : list mq_wait).

(** The result of a call, what it does to data, and the messages it delivers. *)
Definition mq_call_run (q : MessageQueue) (c : mq_call)
    : res (get_outcome * effects * list Message * MessageQueue) :=
  match c with
  | COp op => '(e, q) ← mq_apply q op; Ok (Returns true, e, [], q)
  | CGet w now waits =>
    '(e, o, m, q) ← Get q Message_default w now waits;
    Ok (o, e, match o with Returns true => [m] | _ => [] end, q)
  | CPeek w now waits =>
    '(e, o, m, q) ← Peek q Message_default w now waits; Ok (o, e, [], q)
  end.

Fixpoint mq_run (q : MessageQueue) (cs : list mq_call)
    : res (effects * list Message * MessageQueue) :=
  match cs with
  | [] => Ok (no_effects, [], q)
  | c :: cs =>
    '(_, e1, m1, q) ← mq_call_run q c;
    '(e2, m2, q) ← mq_run q cs;
    Ok (then_effects e1 e2, m1 ++ m2, q)
  end.

(** Delayed messages of the same time are delivered in the order of the posts. *)
Definition post_at (now t id : Z) : mq_call := COp (OpPostAt now Location_default t None id None).
Example identical_times :
  ('(_, ms, q) ← mq_run MessageQueue_new
    ([post_at 100 100 3; post_at 100 98 0; post_at 100 99 1; post_at 100 100 4; post_at 100 99 2] ++
     replicate 6 (CGet 0 100 [MkWait [] true 100]));
  Ok (map message_id ms, mq_size q)) = Ok ([0; 1; 2; 3; 4], 0%nat).
Proof. vm_compute. reflexivity. Qed.

(** ** The messages of a queue and their data *)

Definition contents (q : MessageQueue) : list Message :=
  (if fPeekKeep_ q then [msgPeek_ q] else []) ++ msgq_ q ++ map msg_ (dmsgq_ q).

Definition data_of (ms : list Message) : list nat := concat (map (fun m => delete (pdata m)) ms).

Lemma data_of_app l k : data_of (l ++ k) = data_of l ++ data_of k.
Proof. unfold data_of. by rewrite map_app, concat_app. Qed.

Lemma data_of_cons m l : data_of (m :: l) = delete (pdata m) ++ data_of l.
Proof. done. Qed.

Lemma data_of_perm l k : l ≡ₚ k -> data_of l ≡ₚ data_of k.
Proof.
  induction 1 as [|x l k _ IH|x y l|l k m _ IH1 _ IH2]; cbn; [done|by rewrite IH| |by rewrite IH1].
  rewrite !app_assoc. apply Permutation_app; [apply Permutation_app_comm|done].
Qed.

(** What a call does to data is accounted for: what is given is dropped, stored, deleted or
    handed out, and nothing else; and a queue that does not quit drops nothing. *)
Definition balanced (q : MessageQueue) (e : effects) (out : list Message) (q' : MessageQueue) : Prop :=
  given e ++ data_of (contents q) ≡ₚ
  dropped e ++ deleted e ++ data_of (removed e) ++ data_of out ++ data_of (contents q') /\
  (IsQuitting q = false -> quits e = false -> IsQuitting q' = false /\ dropped e = []).

(** [solve_perm]: permutations of concatenations. *)
Ltac solve_perm := solve [rewrite ?app_nil_r, <- ?app_assoc; solve_Permutation].

Lemma balanced_then q e1 o1 q1 e2 o2 q2 :
  balanced q e1 o1 q1 -> balanced q1 e2 o2 q2 ->
  balanced q (then_effects e1 e2) (o1 ++ o2) q2.
Proof.
  unfold balanced, then_effects; cbn [given dropped deleted removed quits]. intros [H1 K1] [H2 K2]. split.
  - rewrite !data_of_app.
    transitivity (given e2 ++ (given e1 ++ data_of (contents q))); [solve_perm|].
    rewrite H1.
    transitivity (dropped e1 ++ deleted e1 ++ data_of (removed e1) ++ data_of o1 ++
                  (given e2 ++ data_of (contents q1))); [solve_perm|].
    rewrite H2. solve_perm.
  - intros Hq E. apply orb_false_iff in E as [E1 E2]. destruct (K1 Hq E1) as [Hq1 ->].
    by destruct (K2 Hq1 E2) as [Hq2 ->].
Qed.

(** ** The invariant *)

(** A message that disposes of an object has no handler. *)
Definition message_ok (m : Message) : Prop := message_id m = MQID_DISPOSE -> phandler m = None.

(** The order of delivery: sooner, or at the same time and posted earlier. *)
Definition earlier (a b : DelayedMessage) : Prop :=
  msTrigger_ a < msTrigger_ b \/ (msTrigger_ a = msTrigger_ b /\ num_ a < num_ b).

(** Times at which no difference overflows. *)
Definition time_ok (t : Z) : Prop := - 2 ^ 61 <= t <= 2 ^ 61.

Definition delayed_ok (n : Z) (d : DelayedMessage) : Prop := time_ok (msTrigger_ d) /\ num_ d < n.

Record mq_ok (q : MessageQueue) : Prop := {
  ok_messages : Forall message_ok (contents q);
  ok_delayed : Forall (delayed_ok (dmsgq_next_num_ q)) (dmsgq_ q);
  ok_sorted : StronglySorted earlier (dmsgq_ q);
  ok_count : 0 <= dmsgq_next_num_ q < 2 ^ 32
}.

(** How many delayed messages an operation posts. *)
Definition delays (op : mq_op) : Z :=
  match op with OpPostDelayed _ _ _ _ _ _ | OpPostAt _ _ _ _ _ _ | OpPostAt32 _ _ _ _ _ _ => 1 | _ => 0 end.

(** The calls that are legal: messages to dispose of objects come from [Dispose], the
    delay is not negative, and the times are far from the limits of 64 bits. *)
Definition mq_op_ok (op : mq_op) : Prop :=
  match op with
  | OpPost now _ h id _ _ => time_ok now /\ (id = MQID_DISPOSE -> h = None)
  | OpPostDelayed now _ c h id _ => time_ok now /\ 0 <= c /\ time_ok (now + c) /\ (id = MQID_DISPOSE -> h = None)
  | OpPostAt now _ t h id _ => time_ok now /\ time_ok t /\ (id = MQID_DISPOSE -> h = None)
  | OpPostAt32 now _ t h id _ => time_ok now /\ u32 t /\ (id = MQID_DISPOSE -> h = None)
  | OpDispose now _ _ => time_ok now
  | OpClear _ _ _ | OpQuit | OpRestart => True
  end.

Lemma new_ok : mq_ok MessageQueue_new.
Proof. split; cbn; [apply List.Forall_nil|apply List.Forall_nil|constructor|lia]. Qed.

Lemma less_earlier e d : delayed_less e d = true <-> earlier d e.
Proof.
  unfold delayed_less, earlier. rewrite orb_true_iff, andb_true_iff, !Z.ltb_lt, Z.eqb_eq. lia.
Qed.

Lemma pq_push_perm d l : pq_push d l ≡ₚ d :: l.
Proof.
  induction l as [|e l IH]; cbn [pq_push]; [done|]. destruct (delayed_less e d); [done|].
  rewrite IH. constructor.
Qed.

Lemma earlier_trans a b c : earlier a b -> earlier b c -> earlier a c.
Proof. unfold earlier. lia. Qed.

Lemma pq_push_sorted d l n :
  StronglySorted earlier l -> Forall (delayed_ok n) l -> num_ d = n -> StronglySorted earlier (pq_push d l).
Proof.
  intros Hs Hl Hn. induction l as [|e l IH]; cbn [pq_push]; [repeat constructor|].
  pose proof (StronglySorted_inv Hs) as [Hs' He]. pose proof (List.Forall_inv Hl) as [_ Hne].
  pose proof (List.Forall_inv_tail Hl) as Hl'. destruct (delayed_less e d) eqn:E.
  - apply less_earlier in E. constructor; [done|]. apply List.Forall_cons; [done|].
    apply List.Forall_forall. intros x Hx. apply (earlier_trans _ e); [done|].
    by apply (proj1 (List.Forall_forall _ _) He).
  - constructor; [by apply IH|]. rewrite pq_push_perm. apply List.Forall_cons; [|done].
    assert (H : ~ earlier d e) by (intros H; apply less_earlier in H; congruence).
    unfold earlier in *. lia.
Qed.

(** ** Posting *)

Lemma contents_push q m :
  contents (with_msgq (msgq_ q ++ [m]) q) ≡ₚ m :: contents q.
Proof. unfold contents; cbn. destruct (fPeekKeep_ q); solve_Permutation. Qed.

Lemma contents_delay q d n :
  contents (with_dmsgq (pq_push d (dmsgq_ q)) n q) ≡ₚ msg_ d :: contents q.
Proof.
  unfold contents; cbn. rewrite (Permutation_map msg_ (pq_push_perm d (dmsgq_ q))). cbn.
  destruct (fPeekKeep_ q); solve_Permutation.
Qed.

Lemma add64_time now : time_ok now -> add64 now kMaxMsgLatency = Ok (now + kMaxMsgLatency).
Proof. intros H. apply add64_ok. unfold time_ok, i64, kMaxMsgLatency in *. lia. Qed.

(** What holds after an operation that posts at most [n] delayed messages, and does not
    peek. *)
Record step_ok (q : MessageQueue) (n : Z) (e : effects) (out : list Message) (q' : MessageQueue) : Prop := {
  step_inv : mq_ok q';
  step_count : dmsgq_next_num_ q <= dmsgq_next_num_ q' <= dmsgq_next_num_ q + n;
  step_balance : balanced q e out q';
  step_peek : fPeekKeep_ q = false -> fPeekKeep_ q' = false;
  step_out : Forall message_ok out
}.

Lemma posted_step q data m q' :
  contents q' ≡ₚ m :: contents q -> pdata m = data -> stop_ q' = stop_ q ->
  balanced q (MkEffects (delete data) [] [] [] false) [] q'.
Proof.
  intros Hc <- Hs. split; cbn; [by rewrite (data_of_perm _ _ Hc)|]. unfold IsQuitting. by rewrite Hs.
Qed.

Lemma balanced_same q q' : contents q' = contents q -> stop_ q' = stop_ q \/ stop_ q' = 0 ->
  balanced q no_effects [] q'.
Proof. intros Hc Hs. split; cbn; [by rewrite Hc|]. unfold IsQuitting. by destruct Hs as [-> | ->]. Qed.

(** Nothing is stored, deleted or handed out. *)
Lemma idle_step q e q' n :
  mq_ok q' -> balanced q e [] q' -> dmsgq_next_num_ q' = dmsgq_next_num_ q ->
  fPeekKeep_ q' = fPeekKeep_ q -> 0 <= n -> step_ok q n e [] q'.
Proof. intros H Hc E Hp Hn. split; [done|lia|done|by rewrite Hp|apply List.Forall_nil]. Qed.

(** A queue that quits drops what it is given. *)
Lemma dropped_step q data n :
  mq_ok q -> IsQuitting q = true -> 0 <= n -> let '(e, q') := posted data (q, false) in step_ok q n e [] q'.
Proof. intros H Hq Hn. apply idle_step; try done. split; cbn; [done|congruence]. Qed.

Lemma Post_step q now from h id data ts :
  mq_ok q -> time_ok now -> (id = MQID_DISPOSE -> h = None) ->
  wp (Post q now from h id data ts) (fun r =>
    let '(e, q') := posted data r in step_ok q 0 e [] q').
Proof.
  intros Hq Hn Hm. unfold Post. destruct (IsQuitting q) eqn:Eq; [by apply dropped_step|].
  assert (E : (if ts then add64 now kMaxMsgLatency else Ok 0) =
              Ok (if ts then now + kMaxMsgLatency else 0)) by (destruct ts; [by apply add64_time|done]).
  rewrite E, bind_ok. cbn [wp posted fst snd]. set (m := MkMessage from h id data _).
  pose proof (contents_push q m) as Hc. destruct Hq as [H1 H2 H3 H4]. split; [|cbn; lia| |done|apply List.Forall_nil].
  - split; [|done..]. rewrite Hc. by apply List.Forall_cons.
  - by apply (posted_step _ _ m).
Qed.

Lemma DoDelayPost_step q from c t h id data :
  mq_ok q -> time_ok t -> (id = MQID_DISPOSE -> h = None) -> dmsgq_next_num_ q + 1 < 2 ^ 32 ->
  wp (DoDelayPost q from c t h id data) (fun r =>
    let '(e, q') := posted data r in step_ok q 1 e [] q').
Proof.
  intros Hq Ht Hm Hk. unfold DoDelayPost.
  destruct (IsQuitting q) eqn:Eq; [by apply dropped_step|].
  destruct Hq as [H1 H2 H3 H4].
  assert (E : addu (dmsgq_next_num_ q) 1 = dmsgq_next_num_ q + 1)
    by (unfold addu; apply to_u32_id; unfold u32; lia).
  rewrite E, (proj2 (Z.eqb_neq _ _)) by lia. cbn [wp posted fst snd].
  set (d := MkDelayed c t (dmsgq_next_num_ q) _).
  pose proof (contents_delay q d (dmsgq_next_num_ q + 1)) as Hc. split; [|cbn; lia| |done|apply List.Forall_nil].
  - split; cbn; [| | |lia].
    + rewrite Hc. by apply List.Forall_cons.
    + rewrite pq_push_perm. apply List.Forall_cons; [split; [done|cbn; lia]|].
      apply (List.Forall_impl _ (P := delayed_ok (dmsgq_next_num_ q))); [|done].
      intros x [Hx1 Hx2]. split; [done|lia].
    + by apply (pq_push_sorted _ _ (dmsgq_next_num_ q)).
  - by apply (posted_step _ _ (msg_ d)).
Qed.

(** ** Clearing *)

(** The loops take out the messages that match, in their order, and keep the others. *)
Lemma clear_loop_spec {A} (get : A -> Message) h id l removed :
  clear_loop get h id l removed =
  (let out := map get (List.filter (fun x => Match (get x) h id) l) in
   (match removed with Some _ => [] | None => data_of out end,
    option_map (fun r => r ++ out) removed,
    List.filter (fun x => negb (Match (get x) h id)) l)).
Proof.
  revert removed. induction l as [|x l IH]; intros removed; cbn [clear_loop List.filter].
  { destruct removed; cbn; by rewrite ?app_nil_r. }
  destruct (Match (get x) h id); cbn [negb].
  - destruct removed as [r|]; cbn [take_out]; rewrite IH; cbn; [by rewrite <- app_assoc|done].
  - rewrite IH. done.
Qed.

Lemma filter_split {A} (f : A -> bool) l :
  List.filter f l ++ List.filter (fun x => negb (f x)) l ≡ₚ l.
Proof.
  induction l as [|x l IH]; cbn; [done|]. destruct (f x); cbn; [by rewrite IH|].
  rewrite <- Permutation_middle. by rewrite IH.
Qed.

Lemma filter_of_map {A B} (f : B -> bool) (g : A -> B) l :
  List.filter f (map g l) = map g (List.filter (fun x => f (g x)) l).
Proof. induction l as [|x l IH]; cbn; [done|]. destruct (f (g x)); cbn; by rewrite IH. Qed.

Lemma filter_sorted {A} (R : A -> A -> Prop) f l : StronglySorted R l -> StronglySorted R (List.filter f l).
Proof.
  induction 1 as [|x l Hs IH Hx]; cbn; [constructor|]. destruct (f x); [|done].
  constructor; [done|]. exact (incl_Forall (incl_filter f l) Hx).
Qed.

Lemma Clear_step q h id keep :
  mq_ok q ->
  wp (mq_apply q (OpClear h id keep)) (fun '(e, q') => step_ok q 0 e [] q' /\
    contents q' = List.filter (fun m => negb (Match m h id)) (contents q) /\
    (keep = true -> removed e = List.filter (fun m => Match m h id) (contents q) /\ deleted e = []) /\
    (keep = false -> removed e = [] /\ deleted e = data_of (List.filter (fun m => Match m h id) (contents q)))).
Proof.
  intros Hq. cbn [mq_apply]. unfold Clear, ClearInternal.
  set (mt := fun m => Match m h id). set (pk := if fPeekKeep_ q then [msgPeek_ q] else []).
  set (r0 := if keep then Some [] else None : option (list Message)).
  assert (E : (if fPeekKeep_ q && Match (msgPeek_ q) h id
               then let '(d, removed) := take_out (msgPeek_ q) r0 in (d, removed, false)
               else ([], r0, fPeekKeep_ q)) =
              (if keep then [] else data_of (List.filter mt pk),
               option_map (fun r => r ++ List.filter mt pk) r0,
               fPeekKeep_ q && negb (mt (msgPeek_ q)))).
  { unfold pk, mt, r0. destruct (fPeekKeep_ q); [|by destruct keep]. cbn [List.filter andb].
    destruct (Match (msgPeek_ q) h id), keep; cbn; rewrite ?app_nil_r; done. }
  rewrite E, clear_loop_spec. cbv beta iota zeta. rewrite clear_loop_spec. cbv beta iota zeta.
  rewrite map_id. change (fun x : Message => Match x h id) with mt. cbn [wp].
  set (q' := MkQueue _ _ _ _ _ _).
  assert (Ec : contents q' = List.filter (fun m => negb (mt m)) (contents q)).
  { unfold contents, q'; cbn. rewrite !List.filter_app. f_equal; [|f_equal].
    - unfold pk. destruct (fPeekKeep_ q); [|done]. cbn. by destruct (mt _).
    - exact (eq_sym (filter_of_map (fun m => negb (mt m)) msg_ (dmsgq_ q))). }
  assert (Eo : List.filter mt (contents q) =
               List.filter mt pk ++ List.filter mt (msgq_ q) ++
               map msg_ (List.filter (fun x => Match (msg_ x) h id) (dmsgq_ q))).
  { unfold contents. fold pk. rewrite !List.filter_app. do 2 f_equal.
    exact (filter_of_map mt msg_ (dmsgq_ q)). }
  assert (Hok : mq_ok q').
  { destruct Hq as [H1 H2 H3 H4]. split; [| | |done].
    - rewrite Ec. exact (incl_Forall (incl_filter _ _) H1).
    - exact (incl_Forall (incl_filter _ _) H2).
    - by apply filter_sorted. }
  assert (Hb : data_of (contents q) ≡ₚ data_of (List.filter mt (contents q)) ++ data_of (contents q')).
  { rewrite Ec, <- data_of_app. symmetry. apply data_of_perm, filter_split. }
  split; [split; [done|cbn; lia| |cbn; by intros ->|apply List.Forall_nil]|split; [done|split]].
  - split; [|done]. cbn [given dropped deleted removed app]. rewrite Hb, Eo.
    unfold r0. destruct keep; cbn -[data_of contents]; rewrite ?data_of_app; solve_perm.
  - intros ->. unfold r0; cbn. by rewrite Eo, app_assoc.
  - intros ->. unfold r0; cbn -[data_of contents]. by rewrite Eo, !data_of_app.
Qed.

(** ** Every operation *)

Lemma time_chk a b : time_ok a -> time_ok b -> chk64 (a - b) = Ok (a - b).
Proof. unfold time_ok. intros Ha Hb. apply chk64_ok. unfold i64. lia. Qed.

Lemma mq_apply_step q op :
  mq_ok q -> mq_op_ok op -> dmsgq_next_num_ q + delays op < 2 ^ 32 ->
  wp (mq_apply q op) (fun '(e, q') => step_ok q (delays op) e [] q').
Proof.
  intros Hq Ho Hk. destruct op as [now f h id d ts|now f c h id d|now f t h id d|now f t h id d|now f d|h id k| |];
    cbn [mq_apply mq_op_ok delays] in *.
  - destruct Ho. apply wp_bind. eapply wp_mono; [by apply Post_step|]. intros r. cbn. by destruct (posted d r).
  - destruct Ho as (H1 & H2 & H3 & H4). apply wp_bind. unfold PostDelayed, TimeAfter.
    rewrite (proj2 (Z.leb_le _ _)) by done. cbn [negb].
    rewrite chk64_ok, bind_ok by (unfold time_ok, i64 in *; lia).
    eapply wp_mono; [by apply DoDelayPost_step|]. intros r. cbn. by destruct (posted d r).
  - destruct Ho as (H1 & H2 & H3). apply wp_bind. unfold PostAt, TimeUntil.
    rewrite time_chk, bind_ok by done.
    eapply wp_mono; [by apply DoDelayPost_step|]. intros r. cbn. by destruct (posted d r).
  - destruct Ho as (H1 & H2 & H3). apply wp_bind. unfold PostAt32.
    eapply wp_mono; [apply DoDelayPost_step; try done; unfold time_ok, u32 in *; lia|].
    intros r. cbn. by destruct (posted d r).
  - apply wp_bind. unfold Dispose. destruct d as [d|].
    + eapply wp_mono; [by apply Post_step|]. intros r. cbn. by destruct (posted (Some d) r).
    + by apply idle_step.
  - eapply wp_mono; [by apply (Clear_step q h id k)|]. by intros [e q'] (H & _).
  - cbn. apply idle_step; [by destruct Hq|by split|done..].
  - cbn. apply idle_step; [by destruct Hq|by apply balanced_same; [|right]|done..].
Qed.

Lemma step_then q n1 e1 o1 q1 n2 e2 o2 q2 :
  step_ok q n1 e1 o1 q1 -> step_ok q1 n2 e2 o2 q2 -> step_ok q (n1 + n2) (then_effects e1 e2) (o1 ++ o2) q2.
Proof.
  intros [A1 B1 C1 D1 E1] [A2 B2 C2 D2 E2].
  split; [done|lia|by eapply balanced_then|tauto|by apply Forall_app].
Qed.

Lemma delays_nonneg op : 0 <= delays op.
Proof. destruct op; cbn; lia. Qed.

Definition all_delays (ops : list mq_op) : Z := zsum (map delays ops).

Lemma all_delays_nonneg ops : 0 <= all_delays ops.
Proof. induction ops as [|op ops IH]; cbn; [lia|]. unfold all_delays in *. pose proof (delays_nonneg op). lia. Qed.

Lemma mq_apply_all_step ops : forall q,
  mq_ok q -> Forall mq_op_ok ops -> dmsgq_next_num_ q + all_delays ops < 2 ^ 32 ->
  wp (mq_apply_all q ops) (fun '(e, q') => step_ok q (all_delays ops) e [] q').
Proof.
  induction ops as [|op ops IH]; intros q Hq Ho Hk; cbn [mq_apply_all].
  { cbn. by apply idle_step. }
  pose proof (List.Forall_inv Ho) as H1. pose proof (List.Forall_inv_tail Ho) as H2.
  change (all_delays (op :: ops)) with (delays op + all_delays ops) in *.
  pose proof (all_delays_nonneg ops). apply wp_bind. eapply wp_mono; [apply mq_apply_step; [done|done|lia]|].
  intros [e1 q1] S1. apply wp_bind. pose proof S1 as [A1 B1 _ _ _].
  eapply wp_mono; [apply (IH q1); [done|done|lia]|]. intros [e2 q2] S2.
  exact (step_then _ _ _ _ _ _ _ _ _ S1 S2).
Qed.

(** ** A round of [Get] *)

Definition due (now : Z) (d : DelayedMessage) : Prop := msTrigger_ d <= now.

Lemma trigger_loop_spec now ds : forall ms n,
  time_ok now -> Forall (delayed_ok n) ds -> StronglySorted earlier ds ->
  exists soon later, ds = soon ++ later /\ Forall (due now) soon /\ Forall (fun d => now < msTrigger_ d) later /\
    trigger_loop now ms ds =
    Ok (match later with [] => kForever | d :: _ => msTrigger_ d - now end, ms ++ map msg_ soon, later).
Proof.
  induction ds as [|d ds IH]; intros ms n Hn Hd Hs; cbn [trigger_loop].
  { exists [], []. split; [done|]. split; [apply List.Forall_nil|]. split; [apply List.Forall_nil|].
    by rewrite app_nil_r. }
  pose proof (List.Forall_inv Hd) as [Ht _]. pose proof (List.Forall_inv_tail Hd) as Hd'.
  pose proof (StronglySorted_inv Hs) as [Hs' He]. destruct (Z.ltb_spec now (msTrigger_ d)) as [Hlt|Hge].
  - unfold TimeDiff. rewrite time_chk, bind_ok by done. exists [], (d :: ds). split; [done|].
    split; [apply List.Forall_nil|]. split; [|by rewrite app_nil_r]. apply List.Forall_cons; [done|].
    apply (List.Forall_impl _ (P := earlier d)); [|done]. unfold earlier. intros x Hx. lia.
  - destruct (IH (ms ++ [msg_ d]) n Hn Hd' Hs') as (soon & later & -> & H1 & H2 & H3).
    exists (d :: soon), later. split; [done|]. split; [by apply List.Forall_cons|]. split; [done|].
    rewrite H3. cbn. by rewrite <- app_assoc.
Qed.

Definition disposes (m : Message) : Prop := message_id m = MQID_DISPOSE.

Lemma pull_loop_spec ms : forall pmsg,
  Forall message_ok ms ->
  exists front rest pmsg', ms = front ++ rest /\ Forall disposes front /\
    match rest with
    | [] => pull_loop ms pmsg = Ok (data_of front, false, pmsg', [])
    | m :: rest => ~ disposes m /\ pull_loop ms pmsg = Ok (data_of front, true, m, rest)
    end.
Proof.
  induction ms as [|m ms IH]; intros pmsg Hm; cbn [pull_loop].
  { exists [], [], pmsg. split; [done|]. split; [apply List.Forall_nil|done]. }
  pose proof (List.Forall_inv Hm) as H1. pose proof (List.Forall_inv_tail Hm) as H2.
  destruct (Z.eqb_spec MQID_DISPOSE (message_id m)) as [E|E].
  - rewrite bool_decide_eq_true_2 by by apply H1. cbn [negb].
    destruct (IH Message_default H2) as (front & rest & pm & -> & Hf & Hr).
    exists (m :: front), rest, pm. split; [done|]. split; [by apply List.Forall_cons|].
    rewrite data_of_cons. destruct rest as [|m' rest]; [by rewrite Hr|]. destruct Hr as [Hr ->]. done.
  - exists [], (m :: ms), pmsg. split; [done|]. split; [apply List.Forall_nil|].
    split; [|done]. unfold disposes. congruence.
Qed.

(** What a round is to do at a time [now]: the delayed messages that are due go behind
    those in the queue, the messages at the front that dispose of objects are taken
    out and their data deleted, and the next message is returned.  If there is none
    and the queue is not quitting, the round waits, not longer than to the time of the
    next delayed message, nor than the caller has asked for. *)
Definition round_spec (q : MessageQueue) (cmsWait cmsElapsed now : Z) (d : list nat) (o : get_outcome)
    (m : Message) (q' : MessageQueue) : Prop :=
  exists soon later front rest,
    dmsgq_ q = soon ++ later /\ Forall (due now) soon /\ Forall (fun d => now < msTrigger_ d) later /\
    msgq_ q ++ map msg_ soon = front ++ rest /\ Forall disposes front /\ d = data_of front /\
    dmsgq_ q' = later /\
    match rest with
    | m0 :: rest => ~ disposes m0 /\ o = Returns true /\ m = m0 /\ msgq_ q' = rest
    | [] =>
      msgq_ q' = [] /\
      if IsQuitting q then o = Returns false
      else exists cms, o = Waits (to_i32 cms) /\
        Forall (fun d => cms <= msTrigger_ d - now) later /\
        (cmsWait <> kForever -> 0 <= cms <= Z.max 0 (cmsWait - cmsElapsed)) /\
        (cmsWait = kForever -> later = [] -> cms = kForever)
    end.

Definition delivered (o : get_outcome) (m : Message) : list Message :=
  match o with Returns true => [m] | _ => [] end.

(** The queue after a round. *)
Lemma round_state q soon later front out rest' d :
  mq_ok q -> fPeekKeep_ q = false -> dmsgq_ q = soon ++ later -> msgq_ q ++ map msg_ soon = front ++ out ++ rest' ->
  d = data_of front ->
  step_ok q 0 (MkEffects [] [] d [] false) out (with_msgq rest' (with_dmsgq later (dmsgq_next_num_ q) q)).
Proof.
  intros [H1 H2 H3 H4] Hp Ed Em ->.
  assert (Ec : contents q = front ++ out ++ rest' ++ map msg_ later).
  { unfold contents. rewrite Hp, Ed, map_app. cbn [app]. by rewrite app_assoc, Em, <- !app_assoc. }
  assert (Ec' : contents (with_msgq rest' (with_dmsgq later (dmsgq_next_num_ q) q)) = rest' ++ map msg_ later)
    by (unfold contents; cbn; by rewrite Hp).
  split; [|cbn; lia| |done|rewrite Ec, !Forall_app in H1; tauto].
  - rewrite Ec, !Forall_app in H1. rewrite Ed, Forall_app in H2. split; [| | |done].
    + rewrite Ec', Forall_app. tauto.
    + apply H2.
    + rewrite Ed in H3. cbn. clear -H3. induction soon as [|x soon IH]; [done|].
      apply StronglySorted_inv in H3 as [H3 _]. auto.
  - split; [|done]. rewrite Ec, Ec'. cbn [given dropped deleted removed app].
    rewrite !data_of_app. change (data_of []) with (@nil nat). solve_perm.
Qed.

Lemma get_round_step q pmsg w el now :
  mq_ok q -> fPeekKeep_ q = false -> time_ok now ->
  wp (get_round q pmsg w el now) (fun '(d, o, m, q') =>
    round_spec q w el now d o m q' /\ step_ok q 0 (MkEffects [] [] d [] false) (delivered o m) q').
Proof.
  intros Hq Hp Hn. unfold get_round. pose proof Hq as [H1 H2 H3 _].
  destruct (trigger_loop_spec now (dmsgq_ q) (msgq_ q) _ Hn H2 H3) as (soon & later & Ed & S1 & S2 & ->).
  rewrite bind_ok.
  assert (Hm : Forall message_ok (msgq_ q ++ map msg_ soon)).
  { unfold contents in H1. rewrite Hp, Ed, map_app, !Forall_app in H1. apply Forall_app. tauto. }
  destruct (pull_loop_spec _ pmsg Hm) as (front & rest & pm & Em & Hf & Hr).
  destruct rest as [|m rest].
  - rewrite Hr, bind_ok. cbv zeta. change (IsQuitting (with_msgq _ _)) with (IsQuitting q).
    pose proof (round_state q soon later front [] [] _ Hq Hp Ed Em eq_refl) as S.
    unfold round_spec. destruct (IsQuitting q).
    { split; [|done]. exists soon, later, front, []. do 7 (split; [done|]). done. }
    cbn [wp]. set (cms := if w =? kForever then _ else _). split; [|done].
    exists soon, later, front, []. do 7 (split; [done|]). split; [done|]. exists cms. split; [done|].
    assert (Hl : forall d l, later = d :: l -> Forall (fun x => msTrigger_ d <= msTrigger_ x) later /\ now < msTrigger_ d).
    { intros d l ->. split; [|exact (List.Forall_inv S2)]. rewrite Ed in H3.
      assert (H3' : StronglySorted earlier (d :: l)).
      { clear -H3. induction soon as [|x soon IH]; [done|]. apply StronglySorted_inv in H3 as [H3 _]. auto. }
      apply StronglySorted_inv in H3' as [_ He]. apply List.Forall_cons; [lia|].
      apply (List.Forall_impl _ (P := earlier d)); [|done]. unfold earlier. intros x Hx. lia. }
    unfold cms. destruct later as [|d later].
    + split; [apply List.Forall_nil|]. destruct (Z.eqb_spec w kForever) as [|Hw]; [done|]. cbn. split; [lia|done].
    + destruct (Hl d later eq_refl) as [Hl1 Hl2].
      assert (Hk : (msTrigger_ d - now =? kForever) = false) by (apply Z.eqb_neq; unfold kForever; lia).
      rewrite Hk. cbn [negb andb]. split; [|split; [|done]].
      * apply (List.Forall_impl _ (P := fun x => msTrigger_ d <= msTrigger_ x)); [|done]. intros x Hx.
        destruct (w =? kForever); [lia|]. destruct (Z.ltb_spec (msTrigger_ d - now) (Z.max 0 (w - el))); lia.
      * intros Hw. rewrite (proj2 (Z.eqb_neq w _)) by done.
        destruct (Z.ltb_spec (msTrigger_ d - now) (Z.max 0 (w - el))); lia.
  - destruct Hr as [Hd ->]. rewrite bind_ok. cbn [wp delivered]. split.
    + exists soon, later, front, (m :: rest). do 7 (split; [done|]). done.
    + by apply (round_state q soon later front [m] rest).
Qed.

(** ** Waiting *)

Definition wait_ok (w : mq_wait) : Prop := Forall mq_op_ok (w_ops w) /\ time_ok (w_now w).

Definition wait_delays (ws : list mq_wait) : Z := zsum (map (fun w => all_delays (w_ops w)) ws).

Lemma wait_delays_nonneg ws : 0 <= wait_delays ws.
Proof.
  induction ws as [|w ws IH]; [done|]. pose proof (all_delays_nonneg (w_ops w)).
  change (wait_delays (w :: ws)) with (all_delays (w_ops w) + wait_delays ws). lia.
Qed.

Lemma step_more q n k e o q' : step_ok q n e o q' -> n <= k -> step_ok q k e o q'.
Proof. intros [A B C D E] H. split; [done|lia|done|done|done]. Qed.

Lemma get_loop_step ws : forall q pmsg w start el now,
  mq_ok q -> fPeekKeep_ q = false -> time_ok start -> time_ok now -> Forall wait_ok ws ->
  dmsgq_next_num_ q + wait_delays ws < 2 ^ 32 ->
  wp (get_loop ws q pmsg w start el now) (fun '(e, o, m, q') =>
    step_ok q (wait_delays ws) e (delivered o m) q').
Proof.
  induction ws as [|wt ws IH]; intros q pmsg w start el now Hq Hp Hs Hn Hw Hk; cbn [get_loop];
    apply wp_bind; (eapply wp_mono; [by apply get_round_step|]); intros [[[d o] m] q1] [_ S1].
  { by destruct o. }
  pose proof (wait_delays_nonneg ws) as Hws. pose proof (all_delays_nonneg (w_ops wt)) as Hop.
  change (wait_delays (wt :: ws)) with (all_delays (w_ops wt) + wait_delays ws) in *.
  pose proof (List.Forall_inv Hw) as [Ho Ht]. pose proof (List.Forall_inv_tail Hw) as Hw'.
  pose proof S1 as [A1 B1 _ D1 _]. specialize (D1 Hp). destruct o as [b|cms].
  { apply (step_more _ 0); [done|lia]. }
  apply wp_bind. eapply wp_mono; [apply mq_apply_all_step; [done|done|lia]|]. intros [e2 q2] S2.
  pose proof (step_then _ _ _ _ _ _ _ _ _ S1 S2) as S12. cbn [delivered app] in S12.
  pose proof S2 as [A2 B2 _ D2 _]. specialize (D2 D1).
  destruct (w_result wt); cbn [negb]; [|apply (step_more _ (0 + all_delays (w_ops wt))); [done|lia]].
  unfold TimeDiff. rewrite time_chk, bind_ok by done.
  destruct (_ && _); [apply (step_more _ (0 + all_delays (w_ops wt))); [done|lia]|].
  apply wp_bind. eapply wp_mono; [apply IH; [done..|lia]|]. intros [[[e3 o3] m3] q3] S3.
  exact (step_then _ _ _ _ _ _ _ _ _ S12 S3).
Qed.

Lemma keep_contents q : fPeekKeep_ q = true -> contents q = msgPeek_ q :: contents (with_peek false (msgPeek_ q) q).
Proof. intros H. unfold contents; cbn. by rewrite H. Qed.

(** [Get] and [Peek] as steps, without what they say of [fPeekKeep_]. *)
Definition call_ok (q : MessageQueue) (n : Z) (e : effects) (out : list Message) (q' : MessageQueue) : Prop :=
  mq_ok q' /\ dmsgq_next_num_ q' <= dmsgq_next_num_ q + n /\ balanced q e out q'.

Lemma step_call q n e o q' : step_ok q n e o q' -> call_ok q n e o q'.
Proof. intros [A B C D _]. split; [done|]. split; [lia|done]. Qed.

Lemma Get_step q pmsg w now ws :
  mq_ok q -> time_ok now -> Forall wait_ok ws -> dmsgq_next_num_ q + wait_delays ws < 2 ^ 32 ->
  wp (Get q pmsg w now ws) (fun '(e, o, m, q') => call_ok q (wait_delays ws) e (delivered o m) q' /\
    Forall message_ok (delivered o m) /\ (o = Returns true -> fPeekKeep_ q' = false)).
Proof.
  intros Hq Hn Hw Hk. unfold Get. destruct (fPeekKeep_ q) eqn:Hp.
  - cbn [wp delivered]. pose proof (keep_contents q Hp) as Ec. pose proof (wait_delays_nonneg ws).
    destruct Hq as [H1 H2 H3 H4]. pose proof H1 as H1'. rewrite Ec in H1.
    split; [split; [|split; [cbn; lia|]]|split; [|done]].
    + split; [|done..]. exact (List.Forall_inv_tail H1).
    + split; [|done]. rewrite Ec, data_of_cons. cbn. by rewrite app_nil_r.
    + apply List.Forall_cons; [exact (List.Forall_inv H1)|apply List.Forall_nil].
  - eapply wp_mono; [by apply get_loop_step|]. intros [[[e o] m] q'] S. split; [by apply step_call|].
    split; [by apply S|]. intros _. by apply S.
Qed.

Lemma Peek_step q pmsg w now ws :
  mq_ok q -> time_ok now -> Forall wait_ok ws -> dmsgq_next_num_ q + wait_delays ws < 2 ^ 32 ->
  wp (Peek q pmsg w now ws) (fun '(e, o, m, q') => call_ok q (wait_delays ws) e [] q').
Proof.
  intros Hq Hn Hw Hk. unfold Peek. destruct (fPeekKeep_ q) eqn:Hp.
  - pose proof (wait_delays_nonneg ws). split; [done|]. split; [lia|by apply balanced_same; [|left]].
  - apply wp_bind. eapply wp_mono; [by apply Get_step|]. intros [[[e o] m] q'] [(A & B & C) [D E]].
    destruct o as [[]|cms]; [|by split..]. specialize (E eq_refl).
    assert (Ec : contents (with_peek true m q') = m :: contents q')
      by (unfold contents; cbn; by rewrite E).
    split; [|split; [cbn; lia|]].
    + destruct A as [H1 H2 H3 H4]. split; [|done..]. rewrite Ec.
      apply List.Forall_cons; [exact (List.Forall_inv D)|done].
    + destruct C as [C K]. split; [|done]. rewrite Ec, data_of_cons, C. unfold delivered. cbn [data_of map concat app].
      by rewrite app_nil_r.
Qed.

(** ** Runs *)

Definition call_delays (c : mq_call) : Z :=
  match c with COp op => delays op | CGet _ _ ws | CPeek _ _ ws => wait_delays ws end.

Definition mq_call_ok (c : mq_call) : Prop :=
  match c with
  | COp op => mq_op_ok op
  | CGet _ now ws | CPeek _ now ws => time_ok now /\ Forall wait_ok ws
  end.

Lemma call_delays_nonneg c : 0 <= call_delays c.
Proof. destruct c; [apply delays_nonneg|apply wait_delays_nonneg|apply wait_delays_nonneg]. Qed.

Lemma mq_call_step q c :
  mq_ok q -> mq_call_ok c -> dmsgq_next_num_ q + call_delays c < 2 ^ 32 ->
  wp (mq_call_run q c) (fun '(_, e, out, q') => call_ok q (call_delays c) e out q').
Proof.
  intros Hq Hc Hk. destruct c as [op|w now ws|w now ws]; cbn [mq_call_run]; apply wp_bind.
  - eapply wp_mono; [by apply mq_apply_step|]. intros [e q'] S. by apply step_call.
  - destruct Hc. eapply wp_mono; [by apply Get_step|]. intros [[[e o] m] q'] [S _]. exact S.
  - destruct Hc. eapply wp_mono; [by apply Peek_step|]. intros [[[e o] m] q'] S. exact S.
Qed.

Definition run_delays (cs : list mq_call) : Z := zsum (map call_delays cs).

Lemma mq_run_step cs : forall q,
  mq_ok q -> Forall mq_call_ok cs -> dmsgq_next_num_ q + run_delays cs < 2 ^ 32 ->
  wp (mq_run q cs) (fun '(e, out, q') => mq_ok q' /\ balanced q e out q').
Proof.
  induction cs as [|c cs IH]; intros q Hq Hc Hk; cbn [mq_run]; [split; [done|by apply balanced_same; [|left]]|].
  pose proof (call_delays_nonneg c).
  assert (Hr : forall l, 0 <= run_delays l).
  { induction l as [|x l IHl]; [done|]. pose proof (call_delays_nonneg x).
    change (run_delays (x :: l)) with (call_delays x + run_delays l). lia. }
  change (run_delays (c :: cs)) with (call_delays c + run_delays cs) in Hk. specialize (Hr cs).
  apply wp_bind. eapply wp_mono; [apply mq_call_step; [done|exact (List.Forall_inv Hc)|lia]|].
  intros [[[o e1] m1] q1] (A1 & B1 & C1). apply wp_bind.
  eapply wp_mono; [apply IH; [done|exact (List.Forall_inv_tail Hc)|lia]|].
  intros [[e2 m2] q2] [A2 C2]. split; [done|by eapply balanced_then].
Qed.

(** C29: whatever legal calls are made on a new message queue, by its own thread and by others
    while it waits, none fails, and all data are accounted for.  Legal calls post messages
    to dispose of objects only through [Dispose], have delays from 0 and times within 2^61
    milliseconds, and fewer than 2^32 of them post delayed messages.  What the queue was given
    is exactly what it has dropped, what it has deleted, what is in the messages it
    handed out, when they were got or when they were cleared into a list, and what is in
    the messages it still holds; nothing is delivered twice or deleted after it was handed out.
    Data are dropped, and lost, only after the queue was told to quit. *)
Theorem message_queue_ledger cs :
  Forall mq_call_ok cs -> run_delays cs < 2 ^ 32 ->
  exists e out q, mq_run MessageQueue_new cs = Ok (e, out, q) /\
    given e ≡ₚ dropped e ++ deleted e ++ data_of (removed e) ++ data_of out ++ data_of (contents q) /\
    (quits e = false -> dropped e = []).
Proof.
  intros Hc Hk. destruct (proj1 (wp_ok _ _) (mq_run_step cs MessageQueue_new new_ok Hc Hk))
    as ([[e out] q] & E & _ & B & K).
  exists e, out, q. split; [done|]. cbn in B. rewrite app_nil_r in B. split; [done|].
  intros H. by apply K.
Qed.

(** A message is delayed and another posted while the owner waits; the first is delivered,
    the data of a third are deleted with the object it disposes of, a fourth is
    cleared into a list, and what is posted after [Quit] is dropped. *)
Lemma message_queue_ledger_witness :
  exists e out q, mq_run MessageQueue_new
    [COp (OpPostDelayed 100 Location_default 50 (Some 1%nat) 7 (Some 70%nat));
     COp (OpDispose 100 Location_default (Some 80%nat));
     COp (OpPost 100 Location_default (Some 2%nat) 9 (Some 90%nat) true);
     COp (OpClear (Some 2%nat) MQID_ANY true);
     CGet kForever 100 [MkWait [OpPost 110 Location_default None 5 (Some 60%nat) false] true 120];
     COp OpQuit; COp (OpPost 120 Location_default None 3 (Some 40%nat) false)]
    = Ok (e, out, q) /\
    given e ≡ₚ dropped e ++ deleted e ++ data_of (removed e) ++ data_of out ++ data_of (contents q) /\
    (quits e = false -> dropped e = []).
Proof.
  apply message_queue_ledger; [|vm_compute; reflexivity].
  repeat (apply List.Forall_cons; [|]); [..|apply List.Forall_nil].
  - cbn. unfold time_ok. split_and!; try lia. intros H; vm_compute in H; discriminate H.
  - cbn. unfold time_ok. lia.
  - cbn. unfold time_ok. split; [lia|]. intros H; vm_compute in H; discriminate H.
  - exact I.
  - cbn. unfold time_ok. split; [lia|]. apply List.Forall_cons; [|apply List.Forall_nil].
    split; [|cbn; unfold time_ok; lia]. apply List.Forall_cons; [|apply List.Forall_nil].
    cbn. unfold time_ok. split; [lia|]. intros H; vm_compute in H; discriminate H.
  - exact I.
  - cbn. unfold time_ok. split; [lia|done].
Defined.

(** The end of a queue deletes the data of everything it holds. *)
Lemma DoDestroy_data q :
  mq_ok q -> (DoDestroy q).1 = data_of (contents q) /\ contents (DoDestroy q).2 = [].
Proof.
  intros Hq. pose proof (Clear_step q None MQID_ANY false Hq) as H. cbn [mq_apply] in H.
  unfold Clear in H. unfold DoDestroy. destruct (ClearInternal _ _ _ _) as [[d r] q'].
  cbn [wp deleted fst snd] in *. destruct H as (_ & Ec & _ & Ed). destruct (Ed eq_refl) as [_ ->].
  assert (M : forall l, List.filter (fun m => Match m None MQID_ANY) l = l)
    by (induction l as [|m l IH]; [done|]; cbn in *; by rewrite IH).
  rewrite M, Ec. split; [done|]. clear. induction (contents q) as [|m l IH]; [done|exact IH].
Qed.

(** A post that comes after [Quit] is dropped with its data, which nobody deletes. *)
Example post_after_quit :
  ('(e, _, q) ← mq_run MessageQueue_new
     [COp OpQuit; COp (OpPost 0 Location_default None 1 (Some 42%nat) false)];
   Ok (given e, dropped e, deleted e, contents q)) = Ok ([42%nat], [42%nat], [], []).
Proof. reflexivity. Qed.

(** Times are cut to 32 bits: with a message that is due in 2^32 - 1 milliseconds the queue
    waits for ever, and with one due in 2^31 the reported delay is 0. *)
Example times_truncated :
  ('(q, _) ← PostAt MessageQueue_new 0 Location_default (2 ^ 32 - 1) None 1 None;
   '(_, o, _, _) ← get_round q Message_default kForever 0 0;
   Ok o) = Ok (Waits kForever) /\
  ('(q, _) ← PostAt MessageQueue_new 0 Location_default (2 ^ 31) None 1 None;
   GetDelay q 0) = Ok 0.
Proof. split; vm_compute; reflexivity. Qed.

(** The timeout is tested before the queue: a message that came in while [Get] waited its
    time stays there. *)
Example timeout_first :
  ('(_, o, _, q) ← Get MessageQueue_new Message_default 10 0
     [MkWait [OpPost 9 Location_default None 1 None false] true 10];
   Ok (o, length (msgq_ q))) = Ok (Returns false, 1%nat).
Proof. vm_compute. reflexivity. Qed.
