(* ===== verification/Qmf.v ===== *)
(** * Band splitting

    [common_audio/splitting_filter.c]: a two-band quadrature mirror filter bank
    from two cascades of three all-pass sections.  The cascade works on whole
    blocks and uses the input array as scratch space. *)
From S2P Require Import Prelude CInt Spl Numeric.

Definition kMaxBandFrameLength : nat := 320.

Definition WebRtcSpl_kAllPassFilter1 : list Z := [6418; 36982; 57261].
Definition WebRtcSpl_kAllPassFilter2 : list Z := [21333; 49062; 63010].

(** One output of a section: the input [x], the previous input [p] and the
    previous output [q]. *)
Definition qmf_section (a x p q : Z) : res Z :=
  let diff := WebRtcSpl_SubSatW32 x q in
  MUL_ACCUM a diff p.

(** One section over a block: the first sample uses the state, the others the
    preceding elements of the source and of the destination. *)
Fixpoint qmf_pass (a p q : Z) (xs : list Z) : res (list Z) :=
  match xs with
  | [] => Ok []
  | x :: xs' =>
      y ← qmf_section a x p q;
      ys ← qmf_pass a x y xs';
      Ok (y :: ys)
  end.

(** Returns [in_data] (which holds the output of the second section
    afterwards), [out_data] and [filter_state]. *)
Definition WebRtcSpl_AllPassQMF (in_data : list Z) (data_length : nat)
    (filter_coefficients filter_state : list Z)
    : res (list Z * list Z * list Z) :=
  let last := Z.of_nat data_length - 1 in
  x ← take_exact data_length in_data;
  a0 ← rd filter_coefficients 0;
  a1 ← rd filter_coefficients 1;
  a2 ← rd filter_coefficients 2;
  s0 ← rd filter_state 0; s1 ← rd filter_state 1;
  s2 ← rd filter_state 2; s3 ← rd filter_state 3;
  s4 ← rd filter_state 4; s5 ← rd filter_state 5;
  y1 ← qmf_pass a0 s0 s1 x;
  t0 ← rd x last; t1 ← rd y1 last;
  y2 ← qmf_pass a1 s2 s3 y1;
  t2 ← rd y1 last; t3 ← rd y2 last;
  y3 ← qmf_pass a2 s4 s5 y2;
  t4 ← rd y2 last; t5 ← rd y3 last;
  Ok (y2 ++ drop data_length in_data, y3,
      [t0; t1; t2; t3; t4; t5] ++ drop 6 filter_state).

(** Even and odd samples in Q10: [half_in2] and [half_in1]. *)
Fixpoint split_even_odd (n : nat) (in_data : list Z) : res (list Z * list Z) :=
  match n with
  | O => Ok ([], [])
  | S n' =>
      e ← rd in_data 0; e ← mul32 e 1024;
      o ← rd in_data 1; o ← mul32 o 1024;
      '(es, os) ← split_even_odd n' (drop 2 in_data);
      Ok (e :: es, o :: os)
  end.

(** Sum and difference of the two branches. *)
Fixpoint combine_bands (filter1 filter2 : list Z) : res (list Z * list Z) :=
  match filter1, filter2 with
  | f1 :: filter1', f2 :: filter2' =>
      t ← add32 f1 f2; t ← add32 t 1024;
      let low := WebRtcSpl_SatW32ToW16 (Z.shiftr t 11) in
      t ← sub32 f1 f2; t ← add32 t 1024;
      let high := WebRtcSpl_SatW32ToW16 (Z.shiftr t 11) in
      '(ls, hs) ← combine_bands filter1' filter2';
      Ok (low :: ls, high :: hs)
  | _, _ => Ok ([], [])
  end.

(** Returns the low band, the high band and the two filter states. *)
Definition WebRtcSpl_AnalysisQMF (in_data : list Z) (in_data_length : nat)
    (filter_state1 filter_state2 : list Z)
    : res (list Z * list Z * list Z * list Z) :=
  let band_length := (in_data_length / 2)%nat in
  if (kMaxBandFrameLength <? band_length)%nat then Fault OutOfBounds else
  '(half_in2, half_in1) ← split_even_odd band_length in_data;
  '(_, filter1, st1) ← WebRtcSpl_AllPassQMF half_in1 band_length
                         WebRtcSpl_kAllPassFilter1 filter_state1;
  '(_, filter2, st2) ← WebRtcSpl_AllPassQMF half_in2 band_length
                         WebRtcSpl_kAllPassFilter2 filter_state2;
  '(low_band, high_band) ← combine_bands filter1 filter2;
  Ok (low_band, high_band, st1, st2).

(** Sum and difference channels in Q10: [half_in1] and [half_in2]. *)
Fixpoint sum_difference (n : nat) (low_band high_band : list Z)
    : res (list Z * list Z) :=
  match n with
  | O => Ok ([], [])
  | S n' =>
      l ← rd low_band 0; h ← rd high_band 0;
      t ← add32 l h; s ← mul32 t 1024;
      t ← sub32 l h; d ← mul32 t 1024;
      '(ss, ds) ← sum_difference n' (drop 1 low_band) (drop 1 high_band);
      Ok (s :: ss, d :: ds)
  end.

(** Interleaves the filtered signals, [filter2] first. *)
Fixpoint interleave (filter1 filter2 : list Z) : res (list Z) :=
  match filter1, filter2 with
  | f1 :: filter1', f2 :: filter2' =>
      t ← add32 f2 512;
      let e := WebRtcSpl_SatW32ToW16 (Z.shiftr t 10) in
      t ← add32 f1 512;
      let o := WebRtcSpl_SatW32ToW16 (Z.shiftr t 10) in
      rest ← interleave filter1' filter2';
      Ok (e :: o :: rest)
  | _, _ => Ok []
  end.

(** Returns the output samples and the two filter states. *)
Definition WebRtcSpl_SynthesisQMF (low_band high_band : list Z)
    (band_length : nat) (filter_state1 filter_state2 : list Z)
    : res (list Z * list Z * list Z) :=
  if (kMaxBandFrameLength <? band_length)%nat then Fault OutOfBounds else
  '(half_in1, half_in2) ← sum_difference band_length low_band high_band;
  '(_, filter1, st1) ← WebRtcSpl_AllPassQMF half_in1 band_length
                         WebRtcSpl_kAllPassFilter2 filter_state1;
  '(_, filter2, st2) ← WebRtcSpl_AllPassQMF half_in2 band_length
                         WebRtcSpl_kAllPassFilter1 filter_state2;
  out_data ← interleave filter1 filter2;
  Ok (out_data, st1, st2).

(** * Lemmas *)

Definition band16 (n : nat) (l : list Z) : Prop := samples16 l /\ length l = n.

Definition within (X x : Z) : Prop := - X <= x <= X.

(** ** One section *)

(** The bounds under which a section neither saturates nor overflows. *)
Definition section_fits (a X : Z) : bool :=
  (0 <=? a) && (a <? 65536) && (0 <=? X) && (2 * X + ap_gain a X <=? 2147400000).

Lemma wp_MUL_ACCUM_wide a d p (Q : Z -> Prop) :
  0 <= a < 65536 -> Z.abs p + Z.abs d <= 2147400000 ->
  Q (p + (a * d) / 65536) -> wp (MUL_ACCUM a d p) Q.
Proof.
  intros Ha Hd HQ.
  assert (Hm : - Z.abs d <= a * d / 65536 <= Z.abs d).
  { split; [apply Z.div_le_lower_bound|apply Z.div_le_upper_bound]; nia. }
  assert (Hs : - Z.abs d - 65536 <= Z.shiftr d 16 * a <= Z.abs d).
  { rewrite Z.shiftr_div_pow2 by lia. change (2 ^ 16) with 65536.
    pose proof (Z.div_mod d 65536 ltac:(lia)).
    pose proof (Z.mod_pos_bound d 65536 ltac:(lia)). nia. }
  apply wp_MUL_ACCUM; unfold u16, i32; try done; lia.
Qed.

Lemma wp_qmf_section a X x p q :
  section_fits a X = true -> within X x -> ap_section a X p q ->
  wp (qmf_section a x p q) (fun y => ap_section a X x y).
Proof.
  unfold section_fits, within. rewrite !andb_true_iff, !Z.leb_le, Z.ltb_lt.
  intros (((Ha0 & Ha1) & HX) & Hfit) Hx H.
  pose proof H as (Hp & _ & Hq). unfold qmf_section.
  rewrite SubSat_clamp by (unfold i32; lia).
  assert (E : clamp32 (x - q) = x - q) by (unfold clamp32; lia). rewrite E.
  apply wp_MUL_ACCUM_wide; [lia|lia|]. apply ap_section_step; done || lia.
Qed.

Lemma last_cons_default {A} (x d : A) l : List.last (x :: l) d = List.last l x.
Proof.
  revert x d. induction l as [|y l IH]; intros x d; [done|].
  change (List.last (y :: l) d = List.last (y :: l) x). by rewrite !IH.
Qed.

Lemma wp_qmf_pass a X p q xs :
  section_fits a X = true -> Forall (within X) xs -> ap_section a X p q ->
  wp (qmf_pass a p q xs)
     (fun ys => length ys = length xs /\ Forall (within (ap_gain a X)) ys /\
                ap_section a X (List.last xs p) (List.last ys q)).
Proof.
  intros Hf Hx. revert p q. induction Hx as [|x xs Hx Hxs IH]; intros p q H; [done|].
  cbn [qmf_pass]. wp_step. eapply wp_mono; [by apply (wp_qmf_section a X)|].
  intros y Hy. wp_step. eapply wp_mono; [by apply IH|].
  intros ys (Hl & Hys & Hs). wp_step. rewrite !last_cons_default.
  split; [cbn; lia|]. split; [|done]. constructor; [apply Hy|done].
Qed.

(** ** The cascade over a block *)

Definition qmf_state_ok (coefs : list Z) (X : Z) (st : list Z) : Prop :=
  match coefs, st with
  | [a0; a1; a2], [s0; s1; s2; s3; s4; s5] =>
      ap_section a0 X s0 s1 /\
      ap_section a1 (ap_gain a0 X) s2 s3 /\
      ap_section a2 (ap_gain a1 (ap_gain a0 X)) s4 s5
  | _, _ => False
  end.

Definition qmf_gain (coefs : list Z) (X : Z) : Z := foldl (fun X a => ap_gain a X) X coefs.

Definition qmf_fits (coefs : list Z) (X : Z) : bool :=
  match coefs with
  | [a0; a1; a2] =>
      section_fits a0 X && section_fits a1 (ap_gain a0 X) &&
      section_fits a2 (ap_gain a1 (ap_gain a0 X))
  | _ => false
  end.

Lemma rd_last (l : list Z) n d :
  length l = S n -> rd l (Z.of_nat (S n) - 1) = Ok (List.last l d).
Proof.
  intros Hl. unfold rd. rewrite (proj2 (Z.ltb_ge _ 0)) by lia.
  replace (Z.to_nat (Z.of_nat (S n) - 1)) with n by lia.
  destruct l as [|x l _] using rev_ind; [done|].
  rewrite length_app in Hl. cbn in Hl. rewrite lookup_app_r by lia.
  replace (n - length l)%nat with 0%nat by lia. by rewrite last_last.
Qed.

Lemma last_indep (l : list Z) d d' : (0 < length l)%nat -> List.last l d = List.last l d'.
Proof. destruct l; [cbn; lia|]. by rewrite !last_cons_default. Qed.

(** Reads at constant positions of explicit lists. *)
Ltac rd_const :=
  repeat match goal with
  | |- context [rd (?x :: ?l) ?i] =>
      let v := eval cbv in (rd (x :: l) i) in change (rd (x :: l) i) with v
  end.

(** Everything one call computes, in terms of the three passes. *)
Lemma AllPassQMF_passes x n a0 a1 a2 s0 s1 s2 s3 s4 s5 y1 y2 y3 :
  length x = S n -> qmf_pass a0 s0 s1 x = Ok y1 -> qmf_pass a1 s2 s3 y1 = Ok y2 ->
  qmf_pass a2 s4 s5 y2 = Ok y3 -> length y1 = S n -> length y2 = S n ->
  length y3 = S n ->
  WebRtcSpl_AllPassQMF x (S n) [a0; a1; a2] [s0; s1; s2; s3; s4; s5] =
  Ok (y2, y3, [List.last x s0; List.last y1 s1; List.last y1 s2;
               List.last y2 s3; List.last y2 s4; List.last y3 s5]).
Proof.
  intros Hx E1 E2 E3 H1 H2 H3. unfold WebRtcSpl_AllPassQMF, take_exact.
  rewrite (proj2 (Nat.leb_le _ _)), take_ge by lia.
  rewrite bind_ok. rd_const.
  rewrite !bind_ok, E1, bind_ok, (rd_last x n s0), bind_ok by done.
  rewrite !(rd_last y1 n s1), bind_ok, E2, !bind_ok by done.
  rewrite !(rd_last y2 n s3), bind_ok, E3, !bind_ok by done.
  rewrite (rd_last y3 n s5), bind_ok by done.
  rewrite drop_ge, app_nil_r by lia.
  by rewrite (last_indep y1 s1 s2), (last_indep y2 s3 s4) by lia.
Qed.

Lemma wp_AllPassQMF x n coefs X st :
  qmf_fits coefs X = true -> Forall (within X) x -> length x = S n ->
  qmf_state_ok coefs X st ->
  wp (WebRtcSpl_AllPassQMF x (S n) coefs st)
     (fun '(_, out, st') => length out = S n /\
        Forall (within (qmf_gain coefs X)) out /\ qmf_state_ok coefs X st').
Proof.
  intros Hf Hx Hl Hst.
  destruct coefs as [|a0 [|a1 [|a2 [|]]]]; try done.
  destruct st as [|s0 [|s1 [|s2 [|s3 [|s4 [|s5 [|]]]]]]]; try done.
  cbn [qmf_fits] in Hf. rewrite !andb_true_iff in Hf. destruct Hf as [[F0 F1] F2].
  destruct Hst as (H0 & H1 & H2).
  destruct (proj1 (wp_ok _ _) (wp_qmf_pass a0 X s0 s1 x F0 Hx H0))
    as (y1 & E1 & L1 & Y1 & S1).
  destruct (proj1 (wp_ok _ _) (wp_qmf_pass a1 _ s2 s3 y1 F1 Y1 H1))
    as (y2 & E2 & L2 & Y2 & S2).
  destruct (proj1 (wp_ok _ _) (wp_qmf_pass a2 _ s4 s5 y2 F2 Y2 H2))
    as (y3 & E3 & L3 & Y3 & S3).
  rewrite (AllPassQMF_passes x n a0 a1 a2 s0 s1 s2 s3 s4 s5 y1 y2 y3) by (done || lia).
  cbn [wp]. split; [lia|]. split; [done|]. by split_and!.
Qed.

(** ** Block boundaries *)

Lemma qmf_pass_length a p q xs ys : qmf_pass a p q xs = Ok ys -> length ys = length xs.
Proof.
  revert p q ys. induction xs as [|x xs IH]; intros p q ys; cbn [qmf_pass].
  { by intros [= <-]. }
  intros (y & _ & H)%bind_inv. apply bind_inv in H as (ys' & H & [= <-]).
  cbn. f_equal. by eapply IH.
Qed.

Lemma qmf_pass_app a p q xs xs' ys ys' :
  qmf_pass a p q xs = Ok ys ->
  qmf_pass a (List.last xs p) (List.last ys q) xs' = Ok ys' ->
  qmf_pass a p q (xs ++ xs') = Ok (ys ++ ys').
Proof.
  revert p q ys. induction xs as [|x xs IH]; intros p q ys; cbn [qmf_pass].
  { by intros [= <-]. }
  intros (y & E & H)%bind_inv. apply bind_inv in H as (zs & H & [= <-]).
  rewrite !last_cons_default. intros H'. cbn [app qmf_pass].
  by rewrite E, bind_ok, (IH _ _ _ H H'), bind_ok.
Qed.

Lemma last_app_default (l l' : list Z) d :
  List.last (l ++ l') d = List.last l' (List.last l d).
Proof.
  revert d. induction l as [|x l IH]; intros d; [done|].
  cbn [app]. by rewrite !last_cons_default, IH.
Qed.

(** The three passes of a successful call. *)
Lemma AllPassQMF_inv x n a0 a1 a2 s0 s1 s2 s3 s4 s5 i o st' :
  length x = S n ->
  WebRtcSpl_AllPassQMF x (S n) [a0; a1; a2] [s0; s1; s2; s3; s4; s5] = Ok (i, o, st') ->
  exists y1, qmf_pass a0 s0 s1 x = Ok y1 /\ qmf_pass a1 s2 s3 y1 = Ok i /\
    qmf_pass a2 s4 s5 i = Ok o /\
    st' = [List.last x s0; List.last y1 s1; List.last y1 s2;
           List.last i s3; List.last i s4; List.last o s5].
Proof.
  intros Hx H. pose proof H as H'. unfold WebRtcSpl_AllPassQMF, take_exact in H'.
  revert H'. rewrite (proj2 (Nat.leb_le _ _)), take_ge by lia. rewrite bind_ok.
  rd_const. rewrite !bind_ok.
  intros (y1 & E1 & H')%bind_inv. pose proof (qmf_pass_length _ _ _ _ _ E1) as L1.
  rewrite (rd_last x n s0), bind_ok, !(rd_last y1 n s1), bind_ok in H' by lia.
  apply bind_inv in H' as (y2 & E2 & H'). pose proof (qmf_pass_length _ _ _ _ _ E2) as L2.
  rewrite !bind_ok, !(rd_last y2 n s3), bind_ok in H' by lia.
  apply bind_inv in H' as (y3 & E3 & _). pose proof (qmf_pass_length _ _ _ _ _ E3) as L3.
  rewrite (AllPassQMF_passes x n a0 a1 a2 s0 s1 s2 s3 s4 s5 y1 y2 y3) in H by (done || lia).
  injection H as <- <- <-. by exists y1.
Qed.

(** ** Splitting and combining *)

Lemma wp_split_even_odd n x :
  samples16 x -> (2 * n <= length x)%nat ->
  wp (split_even_odd n x)
     (fun '(es, os) => length es = n /\ length os = n /\
        Forall (within 33554432) es /\ Forall (within 33554432) os).
Proof.
  revert x. induction n as [|n IH]; intros x Hx Hl; [done|]. cbn [split_even_odd].
  wp_step. apply (wp_rd_Forall i16); [done|unfold zlen; lia|]. intros e He. do 2 wp_step.
  wp_step. apply (wp_rd_Forall i16); [done|unfold zlen; lia|]. intros o Ho. do 2 wp_step.
  wp_step. eapply wp_mono; [apply IH; [by apply Forall_drop|rewrite length_drop; lia]|].
  intros [es os] (H1 & H2 & H3 & H4). wp_step. unfold i16 in *.
  split_and!; try (cbn; lia); (constructor; [unfold within; lia|done]).
Qed.

Lemma wp_combine_bands X1 X2 f1 f2 :
  0 <= X1 -> 0 <= X2 -> X1 + X2 <= 2147482623 ->
  Forall (within X1) f1 -> Forall (within X2) f2 -> length f1 = length f2 ->
  wp (combine_bands f1 f2)
     (fun '(ls, hs) => band16 (length f1) ls /\ band16 (length f1) hs).
Proof.
  intros HX1 HX2 HX H1. revert f2.
  induction H1 as [|x f1 Hx H1 IH]; intros f2 H2 Hl; [by repeat constructor|].
  destruct f2 as [|y f2]; [done|]. inversion H2 as [|? ? Hy H2']; subst.
  unfold within in Hx, Hy. cbn [combine_bands].
  wp_step. apply wp_add32; [unfold i32; lia|]. wp_step. apply wp_add32; [unfold i32; lia|].
  wp_step. apply wp_sub32; [unfold i32; lia|]. wp_step. apply wp_add32; [unfold i32; lia|].
  wp_step. eapply wp_mono; [apply IH; [done|cbn in Hl; lia]|].
  intros [ls hs] [[A1 A2] [B1 B2]]. wp_step.
  split; (split; [constructor; [apply sat_i16|done]|cbn; lia]).
Qed.

Lemma wp_sum_difference n l h :
  samples16 l -> samples16 h -> (n <= length l)%nat -> (n <= length h)%nat ->
  wp (sum_difference n l h)
     (fun '(ss, ds) => length ss = n /\ length ds = n /\
        Forall (within 67108864) ss /\ Forall (within 67108864) ds).
Proof.
  revert l h. induction n as [|n IH]; intros l h Hl Hh Nl Nh; [done|].
  cbn [sum_difference].
  wp_step. apply (wp_rd_Forall i16); [done|unfold zlen; lia|]. intros a Ha.
  wp_step. apply (wp_rd_Forall i16); [done|unfold zlen; lia|]. intros b Hb.
  unfold i16 in Ha, Hb.
  wp_step. apply wp_add32; [unfold i32; lia|]. wp_step. apply wp_mul32; [unfold i32; lia|].
  wp_step. apply wp_sub32; [unfold i32; lia|]. wp_step. apply wp_mul32; [unfold i32; lia|].
  wp_step. eapply wp_mono;
    [apply IH; [by apply Forall_drop|by apply Forall_drop|rewrite length_drop; lia..]|].
  intros [ss ds] (H1 & H2 & H3 & H4). wp_step.
  split_and!; try (cbn; lia); (constructor; [unfold within; lia|done]).
Qed.

Lemma wp_interleave X f1 f2 :
  0 <= X <= 2147483135 ->
  Forall (within X) f1 -> Forall (within X) f2 -> length f1 = length f2 ->
  wp (interleave f1 f2) (band16 (2 * length f1)).
Proof.
  intros HX H1. revert f2.
  induction H1 as [|x f1 Hx H1 IH]; intros f2 H2 Hl; [by repeat constructor|].
  destruct f2 as [|y f2]; [done|]. inversion H2 as [|? ? Hy H2']; subst.
  unfold within in Hx, Hy. cbn [interleave].
  wp_step. apply wp_add32; [unfold i32; lia|]. wp_step. apply wp_add32; [unfold i32; lia|].
  wp_step. eapply wp_mono; [apply IH; [done|cbn in Hl; lia]|].
  intros out [A1 A2]. wp_step.
  split; [constructor; [apply sat_i16|constructor; [apply sat_i16|done]]|cbn; lia].
Qed.

(** The states of the analysis and of the synthesis filters. *)
Definition analysis_ok (st1 st2 : list Z) : Prop :=
  qmf_state_ok WebRtcSpl_kAllPassFilter1 33554432 st1 /\
  qmf_state_ok WebRtcSpl_kAllPassFilter2 33554432 st2.

Definition synthesis_ok (st1 st2 : list Z) : Prop :=
  qmf_state_ok WebRtcSpl_kAllPassFilter2 67108864 st1 /\
  qmf_state_ok WebRtcSpl_kAllPassFilter1 67108864 st2.

(** ** The filter banks *)

Lemma analysis_total x n st1 st2 :
  samples16 x -> length x = (2 * n)%nat -> (0 < n <= kMaxBandFrameLength)%nat ->
  analysis_ok st1 st2 ->
  exists low high st1' st2',
    WebRtcSpl_AnalysisQMF x (2 * n) st1 st2 = Ok (low, high, st1', st2') /\
    band16 n low /\ band16 n high /\ analysis_ok st1' st2'.
Proof.
  intros Hx Hl Hn [H1 H2].
  assert (E : wp (WebRtcSpl_AnalysisQMF x (2 * n) st1 st2)
    (fun '(low, high, st1', st2') =>
       band16 n low /\ band16 n high /\ analysis_ok st1' st2')).
  2:{ apply wp_ok in E as ([[[low high] t1] t2] & E & H). by exists low, high, t1, t2. }
  unfold WebRtcSpl_AnalysisQMF. rewrite (Nat.mul_comm 2 n), Nat.div_mul by lia.
  rewrite (proj2 (Nat.ltb_ge _ _)) by lia.
  wp_step. eapply wp_mono; [apply wp_split_even_odd; [done|lia]|].
  intros [es os] (L1 & L2 & W1 & W2). destruct n as [|n]; [lia|].
  wp_step. eapply wp_mono;
    [apply (wp_AllPassQMF os n _ 33554432); [vm_compute; reflexivity|done..]|].
  intros [[i1 f1] t1] (F1 & F2 & F3).
  wp_step. eapply wp_mono;
    [apply (wp_AllPassQMF es n _ 33554432); [vm_compute; reflexivity|done..]|].
  intros [[i2 f2] t2] (G1 & G2 & G3).
  wp_step. eapply wp_mono; [eapply wp_combine_bands; [| | |exact F2|exact G2|lia]|];
    [by vm_compute..|].
  intros [ls hs] [B1 B2]. wp_step. rewrite F1 in *. by split_and!.
Qed.

Lemma synthesis_total low high n st1 st2 :
  samples16 low -> samples16 high -> length low = n -> length high = n ->
  (0 < n <= kMaxBandFrameLength)%nat -> synthesis_ok st1 st2 ->
  exists out st1' st2',
    WebRtcSpl_SynthesisQMF low high n st1 st2 = Ok (out, st1', st2') /\
    band16 (2 * n) out /\ synthesis_ok st1' st2'.
Proof.
  intros Hl Hh Nl Nh Hn [H1 H2].
  assert (E : wp (WebRtcSpl_SynthesisQMF low high n st1 st2)
    (fun '(out, st1', st2') => band16 (2 * n) out /\ synthesis_ok st1' st2')).
  2:{ apply wp_ok in E as ([[out t1] t2] & E & H). by exists out, t1, t2. }
  unfold WebRtcSpl_SynthesisQMF. rewrite (proj2 (Nat.ltb_ge _ _)) by lia.
  wp_step. eapply wp_mono; [apply wp_sum_difference; done || lia|].
  intros [ss ds] (L1 & L2 & W1 & W2). destruct n as [|n]; [lia|].
  wp_step. eapply wp_mono;
    [apply (wp_AllPassQMF ss n _ 67108864); [vm_compute; reflexivity|done..]|].
  intros [[i1 f1] t1] (F1 & F2 & F3).
  wp_step. eapply wp_mono;
    [apply (wp_AllPassQMF ds n _ 67108864); [vm_compute; reflexivity|done..]|].
  intros [[i2 f2] t2] (G1 & G2 & G3).
  assert (Hw : Forall (within (qmf_gain WebRtcSpl_kAllPassFilter2 67108864)) f2).
  { eapply Forall_impl; [|exact G2]. intros z. unfold within.
    assert (qmf_gain WebRtcSpl_kAllPassFilter1 67108864 <=
            qmf_gain WebRtcSpl_kAllPassFilter2 67108864) by (vm_compute; discriminate).
    lia. }
  wp_step. eapply wp_mono; [eapply wp_interleave; [|exact F2|exact Hw|lia]|];
    [by vm_compute|].
  intros out B. wp_step. rewrite F1 in *. by split_and!.
Qed.

(** * Theorems *)

(** The analysis filter bank is free of undefined behaviour on every frame of
    up to 320 samples per band: from a state satisfying the stability invariant
    (the zero state does) it returns two bands of 16-bit samples, none of the
    saturating subtractions saturates, and the invariant holds again, so it holds
    for a stream of any length. *)
Lemma AnalysisQMF_total x n st1 st2 :
  samples16 x -> length x = (2 * n)%nat -> (0 < n <= kMaxBandFrameLength)%nat ->
  analysis_ok st1 st2 ->
  exists low high st1' st2',
    WebRtcSpl_AnalysisQMF x (2 * n) st1 st2 = Ok (low, high, st1', st2') /\
    band16 n low /\ band16 n high /\ analysis_ok st1' st2'.
Proof. apply analysis_total. Qed.

(** Block boundaries are invisible to the cascade: filtering a block and then
    its continuation with the state left behind gives the same output and the
    same final state as filtering the concatenation in one call. *)
Lemma AllPassQMF_block_split x x' n n' coefs st i o st1 i' o' st2 :
  length coefs = 3%nat -> length st = 6%nat -> length x = S n -> length x' = S n' ->
  WebRtcSpl_AllPassQMF x (S n) coefs st = Ok (i, o, st1) ->
  WebRtcSpl_AllPassQMF x' (S n') coefs st1 = Ok (i', o', st2) ->
  WebRtcSpl_AllPassQMF (x ++ x') (S n + S n') coefs st = Ok (i ++ i', o ++ o', st2).
Proof.
  intros Hc Hs Hx Hx'.
  destruct coefs as [|a0 [|a1 [|a2 [|]]]]; try done.
  destruct st as [|s0 [|s1 [|s2 [|s3 [|s4 [|s5 [|]]]]]]]; try done.
  intros (y1 & E1 & E2 & E3 & ->)%AllPassQMF_inv; [|done].
  intros (y1' & E1' & E2' & E3' & ->)%AllPassQMF_inv; [|done].
  pose proof (qmf_pass_length _ _ _ _ _ E1). pose proof (qmf_pass_length _ _ _ _ _ E1').
  pose proof (qmf_pass_length _ _ _ _ _ E2). pose proof (qmf_pass_length _ _ _ _ _ E2').
  pose proof (qmf_pass_length _ _ _ _ _ E3). pose proof (qmf_pass_length _ _ _ _ _ E3').
  replace (S n + S n')%nat with (S (n + S n')) by lia.
  rewrite (AllPassQMF_passes (x ++ x') (n + S n') a0 a1 a2 s0 s1 s2 s3 s4 s5
    (y1 ++ y1') (i ++ i') (o ++ o')); rewrite ?length_app; try lia;
    try by apply qmf_pass_app.
  by rewrite !last_app_default.
Qed.

(** ** Witnesses *)

Lemma analysis_ok_zero : analysis_ok (replicate 6 0) (replicate 6 0).
Proof. vm_compute. intuition discriminate. Qed.


Lemma synthesis_ok_zero : synthesis_ok (replicate 6 0) (replicate 6 0).
Proof. vm_compute. intuition discriminate. Qed.

