(* ===== verification/Resample.v ===== *)
(** * Resampling

    [WebRtcSpl_UpsampleBy2] of [common_audio/resample_by_2.c] (its counterpart
    [WebRtcSpl_DownsampleBy2] has the same text as in
    [digital_agc/signal_processing_library.c] and is modelled in [Spl]) and the
    polyphase resamplers by 2/3 and 3/4 of
    [common_audio/resample_fractional.c].  Their callers in
    [common_audio/resample_48khz.c] let input and output overlap, so the model
    works on one memory with two pointers. *)
From S2P Require Import Prelude CInt Spl.

(** ** Interpolator by two *)

Definition upsample_sample (in0 : Z) (st : allpass8) : res (allpass8 * Z * Z) :=
  in32 ← mul32 in0 1024;
  '(s0, s1, s2, s3) ← allpass_cascade 3284 24441 49528 in32
      (state0 st) (state1 st) (state2 st) (state3 st);
  t ← add32 s3 512;
  let out0 := WebRtcSpl_SatW32ToW16 (Z.shiftr t 10) in
  '(s4, s5, s6, s7) ← allpass_cascade 12199 37471 60255 in32
      (state4 st) (state5 st) (state6 st) (state7 st);
  t ← add32 s7 512;
  let out1 := WebRtcSpl_SatW32ToW16 (Z.shiftr t 10) in
  Ok (AllPass8 s0 s1 s2 s3 s4 s5 s6 s7, out0, out1).

Fixpoint upsample_loop (n : nat) (inp : list Z) (st : allpass8)
    : res (allpass8 * list Z) :=
  match n with
  | O => Ok (st, [])
  | S n' =>
      in0 ← rd inp 0;
      '(st, o0, o1) ← upsample_sample in0 st;
      '(st, os) ← upsample_loop n' (drop 1 inp) st;
      Ok (st, o0 :: o1 :: os)
  end.

(** Returns the [2 * len] output samples and the updated filter state. *)
Definition WebRtcSpl_UpsampleBy2 (inp : list Z) (len : nat)
    (filtState : list Z) : res (list Z * list Z) :=
  st ← load_allpass8 filtState;
  '(st, out) ← upsample_loop len inp st;
  Ok (out, store_allpass8 st filtState).

(** ** Polyphase filters *)

Definition kCoefficients48To32 : list (list Z) :=
  [[778; -2050; 1087; 23285; 12903; -3783; 441; 222];
   [222; 441; -3783; 12903; 23285; 1087; -2050; 778]].

Definition kCoefficients32To24 : list (list Z) :=
  [[767; -2362; 2434; 24406; 10620; -3838; 721; 90];
   [386; -381; -2646; 19062; 19062; -2646; -381; 386];
   [90; 721; -3838; 10620; 24406; 2434; -2362; 767]].

(** [tmp += coef[0] * In[0]; tmp += coef[1] * In[1]; ...] with [In] at position
    [pos] of the memory. *)
Fixpoint fir_sum (coefs : list Z) (mem : list Z) (pos tmp : Z) : res Z :=
  match coefs with
  | [] => Ok tmp
  | c :: coefs' =>
      x ← rd mem pos;
      p ← mul32 c x;
      tmp ← add32 tmp p;
      fir_sum coefs' mem (pos + 1) tmp
  end.

(** Row [j] of the coefficients filters from [In[j]] on and writes [Out[j]]. *)
Fixpoint fir_rows (rows : list (list Z)) (mem : list Z) (inp outp : Z)
    : res (list Z) :=
  match rows with
  | [] => Ok mem
  | coefs :: rows' =>
      tmp ← fir_sum coefs mem inp 16384;
      mem ← wr mem outp tmp;
      fir_rows rows' mem (inp + 1) (outp + 1)
  end.

(** [K] blocks of [nin] inputs and [nout] outputs: [In += nin; Out += nout] after
    each. *)
Fixpoint blocks (block : list Z -> Z -> Z -> res (list Z)) (nin nout : nat) (K : nat)
    (mem : list Z) (inp outp : Z) : res (list Z) :=
  match K with
  | O => Ok mem
  | S K' =>
      mem ← block mem inp outp;
      blocks block nin nout K' mem (inp + Z.of_nat nin) (outp + Z.of_nat nout)
  end.

Definition WebRtcSpl_Resample48khzTo32khz (mem : list Z) (In Out : Z) (K : nat)
    : res (list Z) := blocks (fir_rows kCoefficients48To32) 3 2 K mem In Out.

Definition WebRtcSpl_Resample32khzTo24khz (mem : list Z) (In Out : Z) (K : nat)
    : res (list Z) := blocks (fir_rows kCoefficients32To24) 4 3 K mem In Out.

(** * Lemmas *)

(** ** Interpolator *)

Definition upsample_ok (st : allpass8) : Prop :=
  cascade_ok 3284 24441 49528 33554432
    (state0 st) (state1 st) (state2 st) (state3 st) /\
  cascade_ok 12199 37471 60255 33554432
    (state4 st) (state5 st) (state6 st) (state7 st).

Definition up_ok (fs : list Z) : Prop :=
  exists st, load_allpass8 fs = Ok st /\ upsample_ok st /\ length fs = 8%nat.

Lemma up_ok_zero : up_ok (replicate 8 0).
Proof. eexists. split; [reflexivity|]. split; [|done]. vm_compute. intuition discriminate. Qed.

Lemma wp_upsample_sample in0 st :
  i16 in0 -> upsample_ok st ->
  wp (upsample_sample in0 st)
     (fun '(st', o0, o1) => upsample_ok st' /\ i16 o0 /\ i16 o1).
Proof.
  intros H0 [Hl Hu]. unfold upsample_sample.
  wp_step. apply wp_mul32; [unfold i16, i32 in *; lia|]. wp_step. eapply wp_mono.
  { apply (wp_allpass_cascade _ _ _ 33554432);
      [vm_compute; reflexivity|unfold i16 in *; lia|exact Hl]. }
  intros [[[s0 s1] s2] s3] [Hc Hs3].
  wp_step. apply wp_add32; [unfold i32; lia|]. wp_step. eapply wp_mono.
  { apply (wp_allpass_cascade _ _ _ 33554432);
      [vm_compute; reflexivity|unfold i16 in *; lia|exact Hu]. }
  intros [[[s4 s5] s6] s7] [Hc' Hs7].
  wp_step. apply wp_add32; [unfold i32; lia|]. wp_step.
  split; [by split|]. split; apply sat_i16.
Qed.

Lemma wp_upsample_loop n inp st :
  samples16 inp -> (n <= length inp)%nat -> upsample_ok st ->
  wp (upsample_loop n inp st)
     (fun '(st', out) => upsample_ok st' /\ samples16 out /\ length out = (2 * n)%nat).
Proof.
  revert inp st. induction n as [|n IH]; intros inp st Hin Hlen Hst; cbn [upsample_loop].
  { split; [exact Hst|split; [by apply Forall_nil|done]]. }
  wp_step. apply (wp_rd_Forall i16); [done|unfold zlen; lia|]; intros in0 H0.
  wp_step. eapply wp_mono; [by apply wp_upsample_sample|].
  intros [[st' o0] o1] (Hst' & Ho0 & Ho1).
  wp_step. eapply wp_mono; [apply IH; [by apply Forall_drop|rewrite length_drop; lia|done]|].
  intros [st'' os] (Hst'' & Hos & Hl). wp_step.
  split; [exact Hst''|]. split; [by repeat apply Forall_cons|cbn; lia].
Qed.

(** ** Polyphase filters *)

(** The exact value of a row at a position of the memory. *)
Fixpoint conv (coefs xs : list Z) : Z :=
  match coefs, xs with
  | c :: coefs', x :: xs' => c * x + conv coefs' xs'
  | _, _ => 0
  end.

Definition abs_sum (coefs : list Z) : Z := foldr (fun c s => Z.abs c + s) 0 coefs.

Lemma fir_sum_exact coefs mem pos tmp M :
  0 <= pos -> pos + zlen coefs <= zlen mem -> 0 <= M ->
  Forall (fun x => - M <= x <= M) (take (length coefs) (drop (Z.to_nat pos) mem)) ->
  Z.abs tmp + abs_sum coefs * M <= INT32_MAX ->
  fir_sum coefs mem pos tmp =
  Ok (tmp + conv coefs (drop (Z.to_nat pos) mem)).
Proof.
  revert pos tmp. induction coefs as [|c coefs IH]; intros pos tmp Hp Hl HM Hx Hb.
  { cbn. by rewrite Z.add_0_r. }
  cbn [fir_sum]. unfold zlen in Hl. cbn [length] in Hl.
  assert (Hlt : (Z.to_nat pos < length mem)%nat) by lia.
  destruct (lookup_lt_is_Some_2 mem _ Hlt) as [x Ex].
  unfold rd. rewrite (proj2 (Z.ltb_ge _ 0)) by lia. rewrite Ex, bind_ok.
  rewrite (drop_S mem x (Z.to_nat pos) Ex) in Hx |- *. cbn [length take] in Hx.
  inversion Hx as [|? ? Hx0 Hx']; subst. cbn [conv].
  cbn [abs_sum foldr] in Hb. fold (abs_sum coefs) in Hb.
  assert (Habs : 0 <= abs_sum coefs).
  { clear. induction coefs; cbn; [lia|]. fold (abs_sum coefs). lia. }
  assert (Hcx : Z.abs (c * x) <= Z.abs c * M) by (rewrite Z.abs_mul; nia).
  assert (0 <= abs_sum coefs * M) by nia.
  unfold mul32, add32. rewrite !chk32_ok, bind_ok by (unfold i32; lia).
  rewrite chk32_ok, bind_ok by (unfold i32; lia).
  replace (S (Z.to_nat pos)) with (Z.to_nat (pos + 1)) in Hx' |- * by lia.
  rewrite IH; [f_equal; lia|lia|unfold zlen; lia|done|done|lia].
Qed.

(** Out-of-place reference: the outputs of one block as a function of the input
    from the block's first sample on. *)
Fixpoint fir_values (rows : list (list Z)) (xs : list Z) : list Z :=
  match rows with
  | [] => []
  | coefs :: rows' => (16384 + conv coefs xs) :: fir_values rows' (drop 1 xs)
  end.

Lemma fir_values_length rows xs : length (fir_values rows xs) = length rows.
Proof. revert xs. induction rows; intros xs; cbn; [done|]. by f_equal. Qed.

(** Replacing a segment. *)
Lemma wr_insert (mem : list Z) (o : nat) v :
  (o < length mem)%nat -> wr mem (Z.of_nat o) v = Ok (<[o := v]> mem).
Proof.
  intros H. unfold wr, zlen. rewrite (proj2 (Z.leb_le _ _)) by lia.
  rewrite (proj2 (Z.ltb_lt _ _)) by lia. by rewrite Nat2Z.id.
Qed.

(** ** Filtering in place

    A filter that turns blocks of [f_in] samples into [f_out] samples, together
    with its out-of-place reference: the outputs of a block depend on the [f_need]
    samples from its first one on, and the output lies at least [f_gap] words
    below the input. *)
Record fractional := Fractional {
  f_block : list Z -> Z -> Z -> res (list Z);
  f_values : list Z -> list Z;
  f_in : nat; f_out : nat; f_need : nat; f_gap : nat
}.

Definition within (M : Z) : list Z -> Prop := Forall (fun x => - M <= x <= M).

(** On samples within [M] a block overflows nowhere, writes the values of the
    reference, within [N], and nothing else. *)
Record fractional_ok (f : fractional) (M N : Z) : Prop := {
  f_len xs : length (f_values f xs) = f_out f;
  f_exact mem i o :
    (o + f_gap f <= i)%nat -> (i + f_need f <= length mem)%nat ->
    within M (take (f_need f) (drop i mem)) ->
    f_block f mem (Z.of_nat i) (Z.of_nat o) =
    Ok (take o mem ++ f_values f (drop i mem) ++ drop (o + f_out f) mem);
  f_within xs :
    (f_need f <= length xs)%nat -> within M (take (f_need f) xs) -> within N (f_values f xs);
  f_rate : (f_out f <= f_in f <= f_need f)%nat
}.

Fixpoint block_values (f : fractional) (K : nat) (xs : list Z) : list Z :=
  match K with
  | O => []
  | S K' => f_values f xs ++ block_values f K' (drop (f_in f) xs)
  end.

Lemma within_take M n k xs : (k <= n)%nat -> within M (take n xs) -> within M (take k xs).
Proof.
  intros Hk H. replace (take k xs) with (take k (take n xs)); [by apply Forall_take|].
  rewrite take_take. f_equal. lia.
Qed.

Lemma within_take_drop M n k j xs :
  (k + j <= n)%nat -> within M (take n xs) -> within M (take j (drop k xs)).
Proof.
  intros Hk H. rewrite take_drop_commute. apply Forall_drop.
  by apply (within_take M n); [lia|].
Qed.

(** The samples that [K] blocks read. *)
Definition reach (f : fractional) (K : nat) : nat :=
  match K with O => 0%nat | S K' => (f_in f * K' + f_need f)%nat end.

Section in_place.
Context (f : fractional) (M N : Z) (Hf : fractional_ok f M N).

Lemma block_values_length K xs : length (block_values f K xs) = (f_out f * K)%nat.
Proof.
  revert xs. induction K as [|K IH]; intros xs; [cbn; lia|].
  cbn [block_values]. rewrite length_app, (f_len f M N Hf), IH. lia.
Qed.

Lemma reach_S K : (0 < K)%nat -> reach f (S K) = (f_in f + reach f K)%nat.
Proof. destruct K; cbn [reach]; lia. Qed.

Lemma need_reach K : (f_need f <= reach f (S K))%nat.
Proof. cbn [reach]. lia. Qed.

Lemma reach_step K : (f_in f + reach f K <= reach f (S K))%nat.
Proof.
  pose proof (f_rate f M N Hf). destruct K; [cbn [reach]; lia|].
  rewrite (reach_S (S K)); lia.
Qed.

(** The output never catches up with the input: the blocks can be filtered in
    one buffer, as if the input were preserved. *)
Lemma blocks_in_place K mem (i o : nat) :
  (o + f_gap f <= i)%nat -> (i + reach f K <= length mem)%nat ->
  within M (take (reach f K) (drop i mem)) ->
  blocks (f_block f) (f_in f) (f_out f) K mem (Z.of_nat i) (Z.of_nat o) =
  Ok (take o mem ++ block_values f K (drop i mem) ++ drop (o + f_out f * K) mem).
Proof.
  pose proof (f_rate f M N Hf) as Hrate.
  revert mem i o. induction K as [|K IH]; intros mem i o Ho Hl Hx.
  { cbn. by rewrite Nat.mul_0_r, Nat.add_0_r, take_drop. }
  pose proof (need_reach K) as Hn. pose proof (reach_step K) as Hs.
  cbn [blocks block_values].
  rewrite (f_exact f M N Hf), bind_ok; [|done|lia|by eapply within_take; [|exact Hx]].
  set (v := f_values f (drop i mem)).
  assert (Hv : length v = f_out f) by apply (f_len f M N Hf).
  set (mem1 := take o mem ++ v ++ drop (o + f_out f) mem).
  assert (Hto : length (take o mem) = o) by (rewrite length_take; lia).
  assert (L1 : length mem1 = length mem).
  { unfold mem1. rewrite !length_app, length_drop. lia. }
  assert (Hd : forall k, (o + f_out f <= k)%nat -> drop k mem1 = drop k mem).
  { intros k Hk. unfold mem1. rewrite app_assoc, drop_app_ge by (rewrite length_app; lia).
    rewrite length_app, drop_drop. f_equal. lia. }
  assert (Ht : take (o + f_out f) mem1 = take o mem ++ v).
  { unfold mem1. rewrite app_assoc. apply take_app_length'. rewrite length_app. lia. }
  rewrite <-!Nat2Z.inj_add.
  rewrite IH; [|lia|lia|].
  2:{ rewrite Hd by lia. rewrite <-drop_drop. by eapply within_take_drop; [|exact Hx]. }
  rewrite Ht, !Hd by lia. rewrite <-drop_drop, <-!app_assoc.
  do 4 f_equal. by rewrite <-Nat.add_assoc, Nat.mul_succ_r, (Nat.add_comm (f_out f)).
Qed.

Lemma block_values_within K xs :
  (reach f K <= length xs)%nat -> within M (take (reach f K) xs) ->
  within N (block_values f K xs).
Proof.
  revert xs. induction K as [|K IH]; intros xs Hl Hx; [constructor|].
  pose proof (need_reach K) as Hn. pose proof (reach_step K) as Hs.
  cbn [block_values]. apply Forall_app. split.
  - apply (f_within f M N Hf); [lia|by eapply within_take; [|exact Hx]].
  - apply IH; [rewrite length_drop; lia|by eapply within_take_drop; [|exact Hx]].
Qed.
End in_place.

(** *** The row filters *)

Definition row_ok (M : Z) (coefs : list Z) : Prop :=
  length coefs = 8%nat /\ 16384 + abs_sum coefs * M <= INT32_MAX.

Lemma abs_sum_nonneg coefs : 0 <= abs_sum coefs.
Proof. induction coefs; cbn; [lia|]. fold (abs_sum coefs). lia. Qed.

Lemma conv_bound M coefs xs :
  0 <= M -> within M (take (length coefs) xs) -> Z.abs (conv coefs xs) <= abs_sum coefs * M.
Proof.
  intros HM. revert xs. induction coefs as [|c coefs IH]; intros xs Hx; [by destruct xs|].
  pose proof (abs_sum_nonneg coefs) as Hs.
  cbn [abs_sum foldr]. fold (abs_sum coefs). destruct xs as [|x xs]; cbn [conv]; [nia|].
  cbn [length take] in Hx. inversion Hx as [|? ? Hx0 Hx']; subst.
  specialize (IH xs Hx').
  assert (Z.abs (c * x) <= Z.abs c * M) by (rewrite Z.abs_mul; nia). lia.
Qed.

Lemma fir_rows_in_place M rs mem (i o : nat) :
  0 <= M -> Forall (row_ok M) rs -> (o <= i)%nat -> (i + length rs + 7 <= length mem)%nat ->
  within M (take (length rs + 7) (drop i mem)) ->
  fir_rows rs mem (Z.of_nat i) (Z.of_nat o) =
  Ok (take o mem ++ fir_values rs (drop i mem) ++ drop (o + length rs) mem).
Proof.
  intros HM Hrs. revert mem i o. induction Hrs as [|c rs [Hc Hb] Hrs IH]; intros mem i o Ho Hl Hx.
  { cbn. by rewrite Nat.add_0_r, take_drop. }
  cbn [length] in Hl, Hx. cbn [fir_rows fir_values].
  rewrite (fir_sum_exact c mem (Z.of_nat i) 16384 M);
    [|lia|unfold zlen; lia|done|rewrite Nat2Z.id; by eapply within_take; [|exact Hx]; lia|lia].
  rewrite Nat2Z.id, bind_ok, wr_insert, bind_ok by lia.
  set (v := 16384 + conv c (drop i mem)).
  replace (Z.of_nat i + 1) with (Z.of_nat (S i)) by lia.
  replace (Z.of_nat o + 1) with (Z.of_nat (S o)) by lia.
  assert (Hd : forall k, (o < k)%nat -> drop k (<[o:=v]> mem) = drop k mem)
    by (intros k Hk; by rewrite drop_insert_lt by lia).
  rewrite IH; rewrite ?length_insert; [|lia|lia|].
  2:{ rewrite Hd by lia.
      replace (S i) with (i + 1)%nat by lia. rewrite <-drop_drop.
      by eapply within_take_drop; [|exact Hx]; lia. }
  rewrite !Hd by (cbn; lia).
  rewrite (take_S_r _ _ v) by (by rewrite list_lookup_insert_eq by lia).
  rewrite take_insert_ge by lia. rewrite <-app_assoc. cbn [app length].
  replace (S i) with (i + 1)%nat by lia. rewrite <-drop_drop.
  by replace (o + S (length rs))%nat with (S o + length rs)%nat by lia.
Qed.

Definition fir_bound (rows : list (list Z)) (M : Z) : Z :=
  foldr (fun c b => Z.max (16384 + abs_sum c * M) b) 0 rows.

Lemma fir_values_within M N rows xs :
  0 <= M -> Forall (row_ok M) rows -> within M (take (length rows + 7) xs) ->
  fir_bound rows M <= N -> within N (fir_values rows xs).
Proof.
  intros HM Hrows. revert xs. induction Hrows as [|c rows [Hc _] _ IH]; intros xs Hx HN; [constructor|].
  cbn [fir_bound foldr] in HN. fold (fir_bound rows M) in HN. cbn [fir_values length] in Hx |- *.
  assert (Hw : within M (take (length c) xs)) by (by eapply within_take; [|exact Hx]; lia).
  pose proof (conv_bound M c xs HM Hw). constructor; [lia|].
  apply IH; [by eapply within_take_drop; [|exact Hx]; lia|lia].
Qed.

Definition row_filter (rows : list (list Z)) (nin : nat) : fractional :=
  Fractional (fir_rows rows) (fir_values rows) nin (length rows) (length rows + 7) 0.

Lemma row_filter_ok rows nin M :
  0 <= M -> Forall (row_ok M) rows -> (length rows <= nin <= length rows + 7)%nat ->
  fractional_ok (row_filter rows nin) M (fir_bound rows M).
Proof.
  intros HM Hrows Hn. constructor; cbn.
  - apply fir_values_length.
  - intros mem i o Ho Hl Hx. apply (fir_rows_in_place M); try done; lia.
  - intros xs _ Hx. by apply (fir_values_within M).
  - done.
Qed.

Definition filter_48To32 : fractional := row_filter kCoefficients48To32 3.
Definition filter_32To24 : fractional := row_filter kCoefficients32To24 4.

Lemma filter_48To32_ok M :
  0 <= M <= 47000 -> fractional_ok filter_48To32 M (fir_bound kCoefficients48To32 M).
Proof.
  intros HM. apply row_filter_ok; [lia| |cbn; lia]. repeat constructor; cbn; lia.
Qed.

Lemma filter_32To24_ok M :
  0 <= M <= 47000 -> fractional_ok filter_32To24 M (fir_bound kCoefficients32To24 M).
Proof.
  intros HM. apply row_filter_ok; [lia| |cbn; lia]. repeat constructor; cbn; lia.
Qed.

(** * Theorems *)

(** The interpolator never overflows: from a state satisfying the stability
    invariant (the zero state does), every block of 16-bit samples gives twice as
    many 16-bit samples, and the invariant holds again. *)
Lemma UpsampleBy2_total inp len fs :
  samples16 inp -> (len <= length inp)%nat -> up_ok fs ->
  exists out fs', WebRtcSpl_UpsampleBy2 inp len fs = Ok (out, fs') /\
    samples16 out /\ length out = (2 * len)%nat /\ up_ok fs'.
Proof.
  intros Hi Hl (st & E & Hst & Hf). unfold WebRtcSpl_UpsampleBy2. rewrite E, bind_ok.
  destruct (proj1 (wp_ok _ _) (wp_upsample_loop len inp st Hi Hl Hst))
    as ([st' out] & E' & H1 & H2 & H3).
  rewrite E', bind_ok. eexists _, _. split; [reflexivity|]. split; [done|]. split; [done|].
  exists st'. unfold store_allpass8. rewrite drop_ge, app_nil_r by lia.
  split; [by destruct st'|]. by split.
Qed.
