(* ===== verification/HalfBand.v ===== *)
(** * Half-band filters of the resamplers

    [common_audio/resample_by_2_internal.c]: decimators, interpolators and
    low-pass filters by two, from cascades of three all-pass sections with Q14
    coefficients.  Samples are shifted left by 15, so the filters use the whole
    32-bit range; every addition, subtraction and product is checked. *)
From S2P Require Import Prelude CInt Spl.

Definition kResampleAllpass : list (list Z) :=
  [[821; 6110; 12382]; [3050; 9368; 15063]].

(** [diff = (diff + (1 << 13)) >> 14]: scale down and round. *)
Definition scale_round (diff : Z) : res Z :=
  t ← add32 diff 8192; Ok (Z.shiftr t 14).

(** [diff = diff >> 14; if (diff < 0) diff += 1]: scale down and truncate. *)
Definition scale_trunc (diff : Z) : Z :=
  let d := Z.shiftr diff 14 in if d <? 0 then d + 1 else d.

(** The four registers of a cascade: the last input and the last outputs of the
    three sections. *)
Record regs := Regs { r0 : Z; r1 : Z; r2 : Z; r3 : Z }.

(** One sample through the three sections. *)
Definition cascade (c0 c1 c2 : Z) (tmp0 : Z) (s : regs) : res regs :=
  d ← sub32 tmp0 (r1 s);
  d ← scale_round d;
  p ← mul32 d c0;
  tmp1 ← add32 (r0 s) p;
  d ← sub32 tmp1 (r2 s);
  p ← mul32 (scale_trunc d) c1;
  tmp2 ← add32 (r1 s) p;
  d ← sub32 tmp2 (r3 s);
  p ← mul32 (scale_trunc d) c2;
  tmp3 ← add32 (r2 s) p;
  Ok (Regs tmp0 tmp1 tmp2 tmp3).

(** The two filters of the file: coefficient rows 1 and 0. *)
Definition lower_filter : Z -> regs -> res regs := cascade 3050 9368 15063.
Definition upper_filter : Z -> regs -> res regs := cascade 821 6110 12382.

(** A loop over the samples of a branch: the outputs ([r3] after each sample)
    and the final registers. *)
Fixpoint run_filter (filter : Z -> regs -> res regs) (xs : list Z) (s : regs)
    : res (list Z * regs) :=
  match xs with
  | [] => Ok ([], s)
  | x :: xs' =>
      s ← filter x s;
      '(ys, s') ← run_filter filter xs' s;
      Ok (r3 s :: ys, s')
  end.

(** Registers [state[k] .. state[k + 3]]. *)
Definition load_regs (state : list Z) (k : Z) : res regs :=
  a ← rd state k; b ← rd state (k + 1); c ← rd state (k + 2); d ← rd state (k + 3);
  Ok (Regs a b c d).
Definition regs_list (s : regs) : list Z := [r0 s; r1 s; r2 s; r3 s].

(** Every second of the samples, starting with the first: [in[i << 1]]. *)
Fixpoint stride2 (n : nat) (inp : list Z) : res (list Z) :=
  match n with
  | O => Ok []
  | S n' => x ← rd inp 0; xs ← stride2 n' (drop 2 inp); Ok (x :: xs)
  end.

(** [((int32_t)in << 15) + (1 << 14)]. *)
Definition widen (x : Z) : res Z := t ← shl32 x 15; add32 t 16384.
Fixpoint widen_all (xs : list Z) : res (list Z) :=
  match xs with
  | [] => Ok []
  | x :: xs' => y ← widen x; ys ← widen_all xs'; Ok (y :: ys)
  end.

(** [out[i << 1]] from the first list and [out[(i << 1) + 1]] from the second. *)
Fixpoint zip2 (a b : list Z) : list Z :=
  match a, b with
  | x :: a', y :: b' => x :: y :: zip2 a' b'
  | _, _ => []
  end.

Definition halve (xs : list Z) : list Z := map (fun x => Z.shiftr x 1) xs.

(** The limit to 16 bits. *)
Definition saturate (x : Z) : Z :=
  let x := if 32767 <? x then 32767 else x in
  let x := if x <? -32768 then -32768 else x in
  to_i16 x.

(** ** Decimators *)

(** The final loop of [WebRtcSpl_DownBy2IntToShort], two outputs per round. *)
Fixpoint combine_short (n : nat) (inp : list Z) : res (list Z) :=
  match n with
  | O => Ok []
  | S n' =>
      a ← rd inp 0; b ← rd inp 1; t0 ← add32 a b;
      a ← rd inp 2; b ← rd inp 3; t1 ← add32 a b;
      rest ← combine_short (Nat.pred n') (drop 4 inp);
      Ok (saturate (Z.shiftr t0 15) :: saturate (Z.shiftr t1 15) :: rest)
  end.

(** Returns the overwritten input, the output and the state. *)
Definition WebRtcSpl_DownBy2IntToShort (inp : list Z) (len : nat)
    (state : list Z) : res (list Z * list Z * list Z) :=
  let n := (len / 2)%nat in
  s ← load_regs state 0;
  even ← stride2 n inp;
  '(lo, s) ← run_filter lower_filter even s;
  u ← load_regs state 4;
  odd ← stride2 n (drop 1 inp);
  '(up, u) ← run_filter upper_filter odd u;
  let inp := zip2 (halve lo) (halve up) ++ drop (2 * n) inp in
  out ← combine_short n inp;
  Ok (inp, out, regs_list s ++ regs_list u ++ drop 8 state).

Fixpoint add_halves (lo up : list Z) : res (list Z) :=
  match lo, up with
  | a :: lo', b :: up' =>
      t ← add32 (Z.shiftr a 1) (Z.shiftr b 1);
      ts ← add_halves lo' up';
      Ok (t :: ts)
  | _, _ => Ok []
  end.

Definition WebRtcSpl_DownBy2ShortToInt (inp : list Z) (len : nat)
    (state : list Z) : res (list Z * list Z) :=
  let n := (len / 2)%nat in
  s ← load_regs state 0;
  even ← stride2 n inp; even ← widen_all even;
  '(lo, s) ← run_filter lower_filter even s;
  u ← load_regs state 4;
  odd ← stride2 n (drop 1 inp); odd ← widen_all odd;
  '(up, u) ← run_filter upper_filter odd u;
  out ← add_halves lo up;
  Ok (out, regs_list s ++ regs_list u ++ drop 8 state).

(** ** Interpolators

    Both branches filter the same input; the upper branch gives the even
    outputs. *)

Definition interpolate (x : list Z) (state : list Z)
    : res (list Z * list Z * list Z) :=
  u ← load_regs state 4;
  '(up, u) ← run_filter upper_filter x u;
  s ← load_regs state 0;
  '(lo, s) ← run_filter lower_filter x s;
  Ok (up, lo, regs_list s ++ regs_list u ++ drop 8 state).

Definition WebRtcSpl_UpBy2ShortToInt (inp : list Z) (len : nat) (state : list Z)
    : res (list Z * list Z) :=
  x ← take_exact len inp; x ← widen_all x;
  '(up, lo, state) ← interpolate x state;
  let down := map (fun v => Z.shiftr v 15) in
  Ok (zip2 (down up) (down lo), state).

Definition WebRtcSpl_UpBy2IntToInt (inp : list Z) (len : nat) (state : list Z)
    : res (list Z * list Z) :=
  x ← take_exact len inp;
  '(up, lo, state) ← interpolate x state;
  Ok (zip2 up lo, state).

Definition WebRtcSpl_UpBy2IntToShort (inp : list Z) (len : nat) (state : list Z)
    : res (list Z * list Z) :=
  x ← take_exact len inp;
  '(up, lo, state) ← interpolate x state;
  let down := map (fun v => saturate (Z.shiftr v 15)) in
  Ok (zip2 (down up) (down lo), state).

(** ** Low-pass filters

    Sixteen registers: the even outputs average the odd inputs delayed by one
    (the delay element is [state[12]], the last input of the fourth branch)
    through the lower filter and the even inputs through the upper one; the odd
    outputs average the even inputs through the lower and the odd inputs through
    the upper filter. *)

(** The inputs of the first branch: the delay element, then the odd samples but
    the last. *)
Definition delayed (d : Z) (odd : list Z) : list Z := take (length odd) (d :: odd).

Fixpoint average_halves (lo up : list Z) : res (list Z) :=
  match lo, up with
  | a :: lo', b :: up' =>
      t ← add32 (Z.shiftr a 1) (Z.shiftr b 1);
      ts ← average_halves lo' up';
      Ok (Z.shiftr t 15 :: ts)
  | _, _ => Ok []
  end.

Definition lowpass (even odd state : list Z) : res (list Z * list Z) :=
  a ← load_regs state 0;
  d ← rd state 12;
  '(lo, a) ← run_filter lower_filter (delayed d odd) a;
  b ← load_regs state 4;
  '(up, b) ← run_filter upper_filter even b;
  evens ← average_halves lo up;
  c ← load_regs state 8;
  '(lo, c) ← run_filter lower_filter even c;
  e ← load_regs state 12;
  '(up, e) ← run_filter upper_filter odd e;
  odds ← average_halves lo up;
  Ok (zip2 evens odds,
      regs_list a ++ regs_list b ++ regs_list c ++ regs_list e ++ drop 16 state).

Definition WebRtcSpl_LPBy2ShortToInt (inp : list Z) (len : nat) (state : list Z)
    : res (list Z * list Z) :=
  let n := (len / 2)%nat in
  odd ← stride2 n (drop 1 inp); odd ← widen_all odd;
  even ← stride2 n inp; even ← widen_all even;
  lowpass even odd state.

Definition WebRtcSpl_LPBy2IntToInt (inp : list Z) (len : nat) (state : list Z)
    : res (list Z * list Z) :=
  let n := (len / 2)%nat in
  odd ← stride2 n (drop 1 inp);
  even ← stride2 n inp;
  lowpass even odd state.

(** * Lemmas *)

(** ** Stability of a Q14 section

    A section computes [y = p + c r] where [r] is [(x - q) / 2^14] up to an
    error of one.  As for the sections of [Spl], [2^14 p - c q] stays bounded by
    the bound [X] of the inputs, up to a slack for the rounding. *)

Definition q14_slack (c : Z) : Z := 16384 * (c * c) / (16384 - c) + 1.
Definition q14_gain (c X : Z) : Z :=
  ((16384 + 2 * c) * X + q14_slack c + 16384 * c) / 16384 + 1.

Definition q14_section (c X p q : Z) : Prop :=
  - X <= p <= X /\
  - ((16384 + c) * X + q14_slack c) <= 16384 * p - c * q
    <= (16384 + c) * X + q14_slack c /\
  - q14_gain c X <= q <= q14_gain c X.

Lemma q14_slack_spec c :
  0 <= c < 16384 -> 16384 * (c * c) <= q14_slack c * (16384 - c).
Proof.
  intros Hc. unfold q14_slack.
  pose proof (Z.div_mod (16384 * (c * c)) (16384 - c) ltac:(lia)).
  pose proof (Z.mod_pos_bound (16384 * (c * c)) (16384 - c) ltac:(lia)). nia.
Qed.

Lemma q14_section_step c X p q x r :
  0 <= c < 16384 -> 0 <= X -> - X <= x <= X -> q14_section c X p q ->
  -16384 <= 16384 * r - (x - q) <= 16384 ->
  q14_section c X x (p + r * c).
Proof.
  intros Hc HX Hx (Hp & He & Hq) Hr.
  pose proof (q14_slack_spec c Hc) as HK.
  set (K := q14_slack c) in *. set (y := p + r * c).
  set (e := 16384 * p - c * q) in *. set (d := 16384 * r - (x - q)) in *.
  assert (Ey : 16384 * y = e + c * x + c * d) by (subst y e d; lia).
  assert (Hc2 : 0 <= 16384 * 16384 - c * c) by nia.
  assert (Hx1 : (16384 * 16384 - c * c) * x <= (16384 * 16384 - c * c) * X)
    by (apply Z.mul_le_mono_nonneg_l; lia).
  assert (Hx2 : (16384 * 16384 - c * c) * - X <= (16384 * 16384 - c * c) * x)
    by (apply Z.mul_le_mono_nonneg_l; lia).
  assert (He1 : c * e <= c * ((16384 + c) * X + K))
    by (apply Z.mul_le_mono_nonneg_l; lia).
  assert (He2 : c * - ((16384 + c) * X + K) <= c * e)
    by (apply Z.mul_le_mono_nonneg_l; lia).
  assert (Hd1 : c * c * d <= c * c * 16384) by (apply Z.mul_le_mono_nonneg_l; nia).
  assert (Hd2 : c * c * -16384 <= c * c * d) by (apply Z.mul_le_mono_nonneg_l; nia).
  assert (Hcd : - (16384 * c) <= c * d <= 16384 * c) by nia.
  assert (Hcx : - (c * X) <= c * x <= c * X) by nia.
  unfold q14_section, q14_gain. fold y K. clearbody y e d K. clear Hq Hr.
  assert (Hsum : - ((16384 + 2 * c) * X + K + 16384 * c) <= 16384 * y
                 <= (16384 + 2 * c) * X + K + 16384 * c) by lia.
  repeat split; try lia.
  all: Z.to_euclidean_division_equations; lia.
Qed.

Definition q14_fits (c X : Z) : bool :=
  (0 <=? c) && (c <? 16384) && (0 <=? X) && (X + q14_gain c X <=? 2147400000).

Lemma scale_trunc_error d : -16384 <= 16384 * scale_trunc d - d <= 16384.
Proof.
  unfold scale_trunc. rewrite Z.shiftr_div_pow2 by lia. change (2 ^ 14) with 16384.
  destruct (Z.ltb_spec (d / 16384) 0); Z.to_euclidean_division_equations; lia.
Qed.

Lemma wp_q14_trunc {A} c X x p q (k : Z -> res A) (Q : A -> Prop) :
  q14_fits c X = true -> - X <= x <= X -> q14_section c X p q ->
  (forall y, q14_section c X x y -> wp (k y) Q) ->
  wp (d ← sub32 x q; m ← mul32 (scale_trunc d) c; t ← add32 p m; k t) Q.
Proof.
  unfold q14_fits. rewrite !andb_true_iff, !Z.leb_le, Z.ltb_lt.
  intros (((Hc0 & Hc1) & HX) & Hf) Hx H HQ. pose proof H as (Hp & _ & Hq).
  wp_step. apply wp_sub32; [unfold i32; lia|].
  pose proof (scale_trunc_error (x - q)) as He.
  assert (Hm : - (Z.abs (x - q) + 16384) <= scale_trunc (x - q) * c <=
                Z.abs (x - q) + 16384) by nia.
  pose proof (q14_section_step c X p q x _ ltac:(lia) HX Hx H He) as Hy.
  wp_step. apply wp_mul32; [unfold i32; lia|].
  wp_step. apply wp_add32; [destruct Hy as (_ & _ & Hy); unfold i32; lia|]. by apply HQ.
Qed.

Lemma wp_q14_round {A} c X x p q (k : Z -> res A) (Q : A -> Prop) :
  q14_fits c X = true -> - X <= x <= X -> q14_section c X p q ->
  (forall y, q14_section c X x y -> wp (k y) Q) ->
  wp (d ← sub32 x q; r ← scale_round d; m ← mul32 r c; t ← add32 p m; k t) Q.
Proof.
  unfold q14_fits. rewrite !andb_true_iff, !Z.leb_le, Z.ltb_lt.
  intros (((Hc0 & Hc1) & HX) & Hf) Hx H HQ. pose proof H as (Hp & _ & Hq).
  wp_step. apply wp_sub32; [unfold i32; lia|]. unfold scale_round.
  wp_step. wp_step. apply wp_add32; [unfold i32; lia|]. wp_step.
  rewrite Z.shiftr_div_pow2 by lia. change (2 ^ 14) with 16384.
  set (r := (x - q + 8192) / 16384).
  assert (He : -16384 <= 16384 * r - (x - q) <= 16384)
    by (subst r; Z.to_euclidean_division_equations; lia).
  assert (Hm : - (Z.abs (x - q) + 16384) <= r * c <= Z.abs (x - q) + 16384) by nia.
  pose proof (q14_section_step c X p q x r ltac:(lia) HX Hx H He) as Hy.
  wp_step. apply wp_mul32; [unfold i32; lia|].
  wp_step. apply wp_add32; [destruct Hy as (_ & _ & Hy); unfold i32; lia|]. by apply HQ.
Qed.

(** ** The cascades *)

Definition regs_ok (c0 c1 c2 X : Z) (s : regs) : Prop :=
  q14_section c0 X (r0 s) (r1 s) /\
  q14_section c1 (q14_gain c0 X) (r1 s) (r2 s) /\
  q14_section c2 (q14_gain c1 (q14_gain c0 X)) (r2 s) (r3 s).

Definition cascade_gain (c0 c1 c2 X : Z) : Z :=
  q14_gain c2 (q14_gain c1 (q14_gain c0 X)).

Definition q14_cascade_fits (c0 c1 c2 X : Z) : bool :=
  q14_fits c0 X && q14_fits c1 (q14_gain c0 X) &&
  q14_fits c2 (q14_gain c1 (q14_gain c0 X)).

Lemma wp_cascade c0 c1 c2 X x s :
  q14_cascade_fits c0 c1 c2 X = true -> - X <= x <= X -> regs_ok c0 c1 c2 X s ->
  wp (cascade c0 c1 c2 x s) (regs_ok c0 c1 c2 X).
Proof.
  unfold q14_cascade_fits. rewrite !andb_true_iff. intros ((F0 & F1) & F2) Hx (H0 & H1 & H2).
  unfold cascade.
  apply (wp_q14_round c0 X); [done..|]. intros y1 S1.
  apply (wp_q14_trunc c1 (q14_gain c0 X)); [done|apply S1|done|]. intros y2 S2.
  apply (wp_q14_trunc c2 (q14_gain c1 (q14_gain c0 X))); [done|apply S2|done|].
  intros y3 S3. cbn. by split_and!.
Qed.

(** A filter that keeps an invariant on inputs up to [X], with outputs up to [Y]. *)
Definition stable (filter : Z -> regs -> res regs) (I : regs -> Prop) (X Y : Z) : Prop :=
  (forall x s, - X <= x <= X -> I s -> wp (filter x s) I) /\
  (forall s, I s -> - Y <= r3 s <= Y).

Lemma stable_cascade c0 c1 c2 X :
  q14_cascade_fits c0 c1 c2 X = true ->
  stable (cascade c0 c1 c2) (regs_ok c0 c1 c2 X) X (cascade_gain c0 c1 c2 X).
Proof.
  intros Hf. split; [intros x s; by apply wp_cascade|].
  intros s (_ & _ & _ & _ & H). exact H.
Qed.

Definition bounded (X : Z) : list Z -> Prop := Forall (fun x => - X <= x <= X).

Lemma wp_run_filter filter I X Y xs s :
  stable filter I X Y -> bounded X xs -> I s ->
  wp (run_filter filter xs s)
     (fun '(ys, s') => bounded Y ys /\ length ys = length xs /\ I s').
Proof.
  intros [Hf Ho] Hx. revert s. induction Hx as [|x xs Hx Hxs IH]; intros s Hs.
  { cbn. by split_and!; [constructor|..]. }
  cbn [run_filter]. wp_step. eapply wp_mono; [by apply Hf|]. intros s1 H1.
  wp_step. eapply wp_mono; [by apply IH|]. intros [ys s2] (Hy & Hl & H2). wp_step.
  split_and!; [|cbn; lia|done]. constructor; [by apply Ho|done].
Qed.

(** ** Input and output conversions *)

Lemma wp_stride2 X n x :
  bounded X x -> (2 * n <= S (length x))%nat ->
  wp (stride2 n x) (fun xs => bounded X xs /\ length xs = n).
Proof.
  revert x. induction n as [|n IH]; intros x Hx Hl; [by repeat constructor|].
  cbn [stride2]. wp_step. eapply wp_rd_Forall; [exact Hx|unfold zlen; lia|].
  intros v Hv. wp_step. eapply wp_mono.
  { apply IH; [by apply Forall_drop|rewrite length_drop; lia]. }
  intros xs [H1 H2]. wp_step. split; [by constructor|cbn; lia].
Qed.

Lemma wp_widen_all X x :
  0 <= X <= 32768 -> bounded X x -> (X < 32768 \/ samples16 x) ->
  wp (widen_all x)
     (fun xs => bounded (X * 32768 + 16384) xs /\ length xs = length x).
Proof.
  intros HX Hx. induction Hx as [|v x Hv Hx IH]; intros Hs; [by repeat constructor|].
  cbn [widen_all]. unfold widen.
  assert (Hv' : -32768 <= v <= 32767).
  { destruct Hs as [|Hs]; [lia|]. by inversion Hs. }
  wp_step. wp_step. apply wp_shl32; [lia|rewrite Z.shiftl_mul_pow2 by lia; unfold i32; lia|].
  rewrite Z.shiftl_mul_pow2 by lia. apply wp_add32; [unfold i32; lia|].
  wp_step. eapply wp_mono; [apply IH|].
  { destruct Hs as [|Hs]; [by left|]. right. by inversion Hs. }
  intros xs [H1 H2]. wp_step. split; [constructor; [lia|done]|cbn; lia].
Qed.

Lemma zip2_length a b : length a = length b -> length (zip2 a b) = (2 * length a)%nat.
Proof.
  revert b. induction a as [|x a IH]; intros [|y b]; try done. intros [= H].
  cbn. rewrite IH by done. lia.
Qed.

Lemma zip2_Forall (P : Z -> Prop) a b : Forall P a -> Forall P b -> Forall P (zip2 a b).
Proof.
  intros Ha. revert b. induction Ha as [|x a Hx Ha IH]; intros b Hb; [constructor|].
  destruct Hb; [constructor|]. cbn. constructor; [done|]. constructor; [done|]. by apply IH.
Qed.

Lemma saturate_i16 x : i16 (saturate x).
Proof. apply to_i16_range. Qed.

(** The half sum of two branches. *)
Lemma half_sum_bounds Y W a b :
  - Y <= a <= Y -> - W <= b <= W ->
  - ((Y + W) / 2 + 1) <= Z.shiftr a 1 + Z.shiftr b 1 <= (Y + W) / 2.
Proof.
  intros Ha Hb. rewrite !Z.shiftr_div_pow2 by lia. change (2 ^ 1) with 2.
  Z.to_euclidean_division_equations. lia.
Qed.

Lemma wp_average_halves Y W lo up :
  0 <= Y + W <= 4294960000 -> bounded Y lo -> bounded W up -> length lo = length up ->
  wp (average_halves lo up)
     (fun ts => length ts = length lo /\ bounded ((Y + W) / 65536 + 1) ts).
Proof.
  intros HY Hlo. revert up. induction Hlo as [|a lo Ha Hlo IH]; intros up Hup Hl.
  { by repeat constructor. }
  destruct up as [|b up]; [done|]. inversion Hup as [|? ? Hb Hup']; subst.
  pose proof (half_sum_bounds Y W a b Ha Hb) as Hs.
  assert ((Y + W) / 2 <= 2147480000) by (apply Z.div_le_upper_bound; lia).
  cbn [average_halves]. wp_step. apply wp_add32; [unfold i32; lia|].
  wp_step. eapply wp_mono; [apply IH; [done|cbn in Hl; lia]|].
  intros ts [H1 H2]. wp_step. split; [cbn; lia|]. constructor; [|done].
  revert Hs. generalize (Z.shiftr a 1 + Z.shiftr b 1). intros t Ht.
  rewrite Z.shiftr_div_pow2 by lia. change (2 ^ 15) with 32768.
  clear - Ht HY. Z.to_euclidean_division_equations. lia.
Qed.

Lemma wp_add_halves Y W lo up :
  0 <= Y + W <= 4294960000 -> bounded Y lo -> bounded W up -> length lo = length up ->
  wp (add_halves lo up)
     (fun ts => length ts = length lo /\ bounded ((Y + W) / 2 + 1) ts).
Proof.
  intros HY Hlo. revert up. induction Hlo as [|a lo Ha Hlo IH]; intros up Hup Hl.
  { by repeat constructor. }
  destruct up as [|b up]; [done|]. inversion Hup as [|? ? Hb Hup']; subst.
  pose proof (half_sum_bounds Y W a b Ha Hb) as Hs.
  assert ((Y + W) / 2 <= 2147480000) by (apply Z.div_le_upper_bound; lia).
  cbn [add_halves]. wp_step. apply wp_add32; [unfold i32; lia|].
  wp_step. eapply wp_mono; [apply IH; [done|cbn in Hl; lia]|].
  intros ts [H1 H2]. wp_step. split; [cbn; lia|]. constructor; [lia|done].
Qed.

(** ** Filter banks *)

Definition lower_ok (X : Z) : regs -> Prop := regs_ok 3050 9368 15063 X.
Definition upper_ok (X : Z) : regs -> Prop := regs_ok 821 6110 12382 X.

Definition bank_ok (X : Z) (state : list Z) : Prop :=
  exists s u, state = regs_list s ++ regs_list u /\ lower_ok X s /\ upper_ok X u.

Definition lowpass_ok (X : Z) (state : list Z) : Prop :=
  exists a b c e,
    state = regs_list a ++ regs_list b ++ regs_list c ++ regs_list e /\
    lower_ok X a /\ upper_ok X b /\ lower_ok X c /\ upper_ok X e.

Definition lower_gain : Z -> Z := cascade_gain 3050 9368 15063.
Definition upper_gain : Z -> Z := cascade_gain 821 6110 12382.

Definition bank_fits (X : Z) : bool :=
  q14_cascade_fits 3050 9368 15063 X && q14_cascade_fits 821 6110 12382 X &&
  (0 <=? lower_gain X + upper_gain X) && (lower_gain X + upper_gain X <=? 4294960000).

Section bank.
Context (X : Z) (Hfit : bank_fits X = true).

Lemma bank_fits_inv :
  stable lower_filter (lower_ok X) X (lower_gain X) /\
  stable upper_filter (upper_ok X) X (upper_gain X) /\
  0 <= lower_gain X + upper_gain X <= 4294960000.
Proof.
  unfold bank_fits in Hfit. rewrite !andb_true_iff, !Z.leb_le in Hfit.
  destruct Hfit as [[[F1 F2] F3] F4].
  split; [by apply stable_cascade|]. split; [by apply stable_cascade|done].
Qed.

Lemma load_lower s u l : load_regs (regs_list s ++ regs_list u ++ l) 0 = Ok s.
Proof. by destruct s. Qed.
Lemma load_upper s u l : load_regs (regs_list s ++ regs_list u ++ l) 4 = Ok u.
Proof. by destruct s, u. Qed.

Lemma wp_interpolate x state :
  bounded X x -> bank_ok X state ->
  wp (interpolate x state)
     (fun '(up, lo, state') => length up = length x /\ length lo = length x /\
        bounded (upper_gain X) up /\ bounded (lower_gain X) lo /\ bank_ok X state').
Proof.
  intros Hx (s & u & -> & Hs & Hu). destruct bank_fits_inv as (SL & SU & _).
  unfold interpolate. rewrite <-(app_nil_r (regs_list u)), load_upper, load_lower, bind_ok.
  wp_step. eapply wp_mono; [by apply (wp_run_filter _ _ _ _ x u SU)|].
  intros [up u'] (A1 & A2 & A3). rewrite bind_ok.
  wp_step. eapply wp_mono; [by apply (wp_run_filter _ _ _ _ x s SL)|].
  intros [lo s'] (B1 & B2 & B3). wp_step. split_and!; try done.
  by exists s', u'.
Qed.

(** The two branches of a decimator. *)
Lemma wp_DownBy2ShortToInt_wide n x M state :
  0 <= M <= 32767 -> M * 32768 + 16384 <= X -> bounded M x -> (2 * n <= length x)%nat ->
  bank_ok X state ->
  wp (WebRtcSpl_DownBy2ShortToInt x (2 * n) state)
     (fun '(out, state') => length out = n /\
        bounded ((lower_gain X + upper_gain X) / 2 + 1) out /\ bank_ok X state').
Proof.
  intros HM HMX Hx Hl (s & u & -> & Hs & Hu). destruct bank_fits_inv as (SL & SU & SG).
  unfold WebRtcSpl_DownBy2ShortToInt. rewrite (Nat.mul_comm 2 n), Nat.div_mul by lia.
  rewrite <-(app_nil_r (regs_list u)), load_upper, load_lower, bind_ok.
  assert (Hmono : forall l, bounded (M * 32768 + 16384) l -> bounded X l).
  { intros l. apply Forall_impl. cbn. intros. lia. }
  wp_step. eapply wp_mono; [apply (wp_stride2 M); [done|lia]|]. intros e [E1 E2].
  wp_step. eapply wp_mono; [apply (wp_widen_all M); [lia|done|left; lia]|].
  intros e' [E3 E4].
  wp_step. eapply wp_mono; [apply (wp_run_filter _ _ _ _ e' s SL); auto|].
  intros [lo s'] (A1 & A2 & A3). rewrite bind_ok.
  wp_step. eapply wp_mono;
    [apply (wp_stride2 M); [by apply Forall_drop|rewrite length_drop; lia]|].
  intros o [O1 O2].
  wp_step. eapply wp_mono; [apply (wp_widen_all M); [lia|done|left; lia]|].
  intros o' [O3 O4].
  wp_step. eapply wp_mono; [apply (wp_run_filter _ _ _ _ o' u SU); auto|].
  intros [up u'] (B1 & B2 & B3).
  wp_step. eapply wp_mono; [apply (wp_add_halves (lower_gain X) (upper_gain X)); done || lia|].
  intros out [C1 C2]. wp_step. split; [lia|]. split; [done|]. by exists s', u'.
Qed.

Lemma wp_UpBy2ShortToInt_wide n x M state :
  0 <= M <= 32767 -> M * 32768 + 16384 <= X -> bounded M x -> (n <= length x)%nat ->
  bank_ok X state ->
  wp (WebRtcSpl_UpBy2ShortToInt x n state)
     (fun '(out, state') => length out = (2 * n)%nat /\ bank_ok X state').
Proof.
  intros HM HMX Hx Hl Hst. unfold WebRtcSpl_UpBy2ShortToInt, take_exact.
  rewrite (proj2 (Nat.leb_le _ _)), bind_ok by lia.
  wp_step. eapply wp_mono;
    [apply (wp_widen_all M); [lia|by apply Forall_take|left; lia]|].
  intros x' [E1 E2]. rewrite length_take in E2.
  wp_step. eapply wp_mono; [apply wp_interpolate; [|exact Hst]|].
  { eapply Forall_impl; [|exact E1]. cbn. intros. lia. }
  intros [[up lo] state'] (H1 & H2 & _ & _ & H3). wp_step.
  rewrite zip2_length, length_map by (rewrite !length_map; lia). split; [lia|done].
Qed.

Lemma delayed_bounded d odd : - X <= d <= X -> bounded X odd -> bounded X (delayed d odd).
Proof. intros Hd Ho. by apply Forall_take, Forall_cons. Qed.

Lemma wp_lowpass even odd state :
  bounded X even -> bounded X odd -> length even = length odd -> lowpass_ok X state ->
  wp (lowpass even odd state)
     (fun '(out, state') => length out = (2 * length even)%nat /\
        bounded ((lower_gain X + upper_gain X) / 65536 + 1) out /\
        lowpass_ok X state').
Proof.
  intros He Ho Hl (a & b & c & e & -> & Ha & Hb & Hc & Hd).
  destruct bank_fits_inv as (SL & SU & SG). unfold lowpass.
  assert (L : forall k s, k = 0 /\ s = a \/ k = 4 /\ s = b \/ k = 8 /\ s = c \/ k = 12 /\ s = e ->
    load_regs (regs_list a ++ regs_list b ++ regs_list c ++ regs_list e) k = Ok s).
  { intros k s. destruct a, b, c, e.
    intros [[-> ->]|[[-> ->]|[[-> ->]|[-> ->]]]]; reflexivity. }
  rewrite (L 0 a), (L 4 b), (L 8 c), (L 12 e), bind_ok by tauto.
  assert (R : rd (regs_list a ++ regs_list b ++ regs_list c ++ regs_list e) 12 = Ok (r0 e))
    by (by destruct a, b, c, e).
  rewrite R, bind_ok.
  assert (Hdel : length (delayed (r0 e) odd) = length odd).
  { unfold delayed. rewrite length_take. cbn. lia. }
  wp_step. eapply wp_mono; [apply (wp_run_filter _ _ _ _ _ a SL); [|done]|].
  { apply delayed_bounded; [apply Hd|done]. }
  intros [lo a'] (A1 & A2 & A3). rewrite bind_ok.
  wp_step. eapply wp_mono; [by apply (wp_run_filter _ _ _ _ _ b SU)|].
  intros [up b'] (B1 & B2 & B3).
  wp_step. eapply wp_mono;
    [apply (wp_average_halves (lower_gain X) (upper_gain X)); done || lia|].
  intros evens [C1 C2]. rewrite bind_ok.
  wp_step. eapply wp_mono; [by apply (wp_run_filter _ _ _ _ _ c SL)|].
  intros [lo' c'] (D1 & D2 & D3). rewrite bind_ok.
  wp_step. eapply wp_mono; [by apply (wp_run_filter _ _ _ _ _ e SU)|].
  intros [up' e'] (F1 & F2 & F3).
  wp_step. eapply wp_mono;
    [apply (wp_average_halves (lower_gain X) (upper_gain X)); done || lia|].
  intros odds [G1 G2]. wp_step. rewrite zip2_length by lia.
  split; [lia|]. split; [by apply zip2_Forall|]. by exists a', b', c', e'.
Qed.

Lemma wp_LPBy2ShortToInt_wide n x M state :
  0 <= M <= 32767 -> M * 32768 + 16384 <= X -> bounded M x -> (2 * n <= length x)%nat ->
  lowpass_ok X state ->
  wp (WebRtcSpl_LPBy2ShortToInt x (2 * n) state)
     (fun '(out, state') => length out = (2 * n)%nat /\
        bounded ((lower_gain X + upper_gain X) / 65536 + 1) out /\
        lowpass_ok X state').
Proof.
  intros HM HMX Hx Hl Hst.
  unfold WebRtcSpl_LPBy2ShortToInt. rewrite (Nat.mul_comm 2 n), Nat.div_mul by lia.
  assert (Hmono : forall l, bounded (M * 32768 + 16384) l -> bounded X l).
  { intros l. apply Forall_impl. cbn. intros. lia. }
  wp_step. eapply wp_mono;
    [apply (wp_stride2 M); [by apply Forall_drop|rewrite length_drop; lia]|].
  intros o [O1 O2].
  wp_step. eapply wp_mono; [apply (wp_widen_all M); [lia|done|left; lia]|].
  intros o' [O3 O4].
  wp_step. eapply wp_mono; [apply (wp_stride2 M); [done|lia]|]. intros e [E1 E2].
  wp_step. eapply wp_mono; [apply (wp_widen_all M); [lia|done|left; lia]|].
  intros e' [E3 E4].
  eapply wp_mono; [apply wp_lowpass; auto; lia|].
  intros [out state'] (H1 & H2 & H3). split; [lia|done].
Qed.
End bank.

(** * Theorems *)

(** The largest internal level of the theorem below: 16-bit samples up to 5700. *)
Definition headroom : Z := 5700 * 32768 + 16384.

(** The half-band filters on 16-bit input need 15 dB of headroom: on samples up to 5700 in magnitude the interpolator, the decimator and the
    low-pass filter are free of overflow from any state satisfying the stability
    invariant (the zero state does), return the documented number of samples and
    keep the invariant; the outputs of the low-pass filter stay below 37700, in
    the range the fractional resamplers accept. *)
Lemma halfband_headroom x n st8 st16 :
  bounded 5700 x -> (2 * n <= length x)%nat -> bank_ok headroom st8 ->
  lowpass_ok headroom st16 ->
  (exists out st', WebRtcSpl_UpBy2ShortToInt x n st8 = Ok (out, st') /\
     length out = (2 * n)%nat /\ bank_ok headroom st') /\
  (exists out st', WebRtcSpl_DownBy2ShortToInt x (2 * n) st8 = Ok (out, st') /\
     length out = n /\ bank_ok headroom st') /\
  (exists out st', WebRtcSpl_LPBy2ShortToInt x (2 * n) st16 = Ok (out, st') /\
     length out = (2 * n)%nat /\ bounded 37700 out /\ lowpass_ok headroom st').
Proof.
  intros Hx Hl H8 H16.
  assert (Hf : bank_fits headroom = true) by (vm_compute; reflexivity).
  assert (HM : 5700 * 32768 + 16384 <= headroom) by (unfold headroom; lia).
  split; [|split].
  - destruct (proj1 (wp_ok _ _) (wp_UpBy2ShortToInt_wide headroom Hf n x 5700 st8
      ltac:(lia) HM Hx ltac:(lia) H8)) as ([out st'] & E & H1 & H2).
    exists out, st'. exact (conj E (conj H1 H2)).
  - destruct (proj1 (wp_ok _ _) (wp_DownBy2ShortToInt_wide headroom Hf n x 5700 st8
      ltac:(lia) HM Hx Hl H8)) as ([out st'] & E & H1 & _ & H2).
    exists out, st'. exact (conj E (conj H1 H2)).
  - destruct (proj1 (wp_ok _ _) (wp_LPBy2ShortToInt_wide headroom Hf n x 5700 st16
      ltac:(lia) HM Hx Hl H16)) as ([out st'] & E & H1 & H2 & H3).
    exists out, st'. refine (conj E (conj H1 (conj _ H3))). eapply Forall_impl; [|exact H2].
    assert ((lower_gain headroom + upper_gain headroom) / 65536 + 1 <= 37700)
      by (vm_compute; discriminate).
    cbn. intros. lia.
Qed.

Lemma bank_ok_zero : bank_ok headroom (replicate 8 0).
Proof.
  exists (Regs 0 0 0 0), (Regs 0 0 0 0). split; [done|]. vm_compute. intuition discriminate.
Qed.

Lemma lowpass_ok_zero : lowpass_ok headroom (replicate 16 0).
Proof.
  exists (Regs 0 0 0 0), (Regs 0 0 0 0), (Regs 0 0 0 0), (Regs 0 0 0 0).
  split; [done|]. vm_compute. intuition discriminate.
Qed.

(** On full-scale input the filters overflow within three samples of a
    branch: two samples of 32767 followed by one of -32768 make the first
    difference of the interpolator exceed 32 bits, from the zero state; so do the
    even samples of the decimator and of the low-pass filter. *)
Lemma halfband_full_scale_overflow :
  WebRtcSpl_UpBy2ShortToInt [32767; 32767; -32768] 3 (replicate 8 0) =
    Fault SignedOverflow /\
  WebRtcSpl_DownBy2ShortToInt [32767; 0; 32767; 0; -32768; 0] 6 (replicate 8 0) =
    Fault SignedOverflow /\
  WebRtcSpl_LPBy2ShortToInt [32767; 0; 32767; 0; -32768; 0] 6 (replicate 16 0) =
    Fault SignedOverflow.
Proof. vm_compute. by split_and!. Qed.
