(* ===== verification/Resample48.v ===== *)
(** * Resampling from and to 48 kHz

    [common_audio/resample_48khz.c]: the half-band filters of [HalfBand] and the
    fractional resamplers of [Resample] composed on one block of temporary memory.
    A call processes 10 ms; the last samples of the fractional stage are kept in
    the state and copied in front of the next block. *)
From S2P Require Import Prelude CInt Spl Resample HalfBand.

(** ** Memory *)

(** A routine that writes [xs] from [p] on, and [memcpy] of [n] values at [p]. *)
Definition store_at (p : nat) (xs mem : list Z) : res (list Z) :=
  if (p + length xs <=? length mem)%nat
  then Ok (take p mem ++ xs ++ drop (p + length xs) mem) else Fault OutOfBounds.

Definition load_at (n p : nat) (mem : list Z) : res (list Z) :=
  if (p + n <=? length mem)%nat then Ok (take n (drop p mem)) else Fault OutOfBounds.

(** [memcpy(tmpmem + p, S, 8); memcpy(S, tmpmem + p + len, 8)]: the state goes in
    front of the [len] samples at [p + 8], their last 8 become the state. *)
Definition exchange_history (p len : nat) (S mem : list Z) : res (list Z * list Z) :=
  mem ← store_at p S mem;
  S ← load_at 8 (p + len) mem;
  Ok (mem, S).

(** ** Resamplers *)

Record State48khzTo16khz := MkState48To16 {
  S_48_48 : list Z; S_48_32 : list Z; S_32_16 : list Z
}.

Definition WebRtcSpl_Resample48khzTo16khz (inp : list Z) (state : State48khzTo16khz)
    (tmpmem : list Z) : res (list Z * State48khzTo16khz * list Z) :=
  '(x, s1) ← WebRtcSpl_LPBy2ShortToInt inp 480 (S_48_48 state);
  tmpmem ← store_at 16 x tmpmem;
  '(tmpmem, s2) ← exchange_history 8 480 (S_48_32 state) tmpmem;
  tmpmem ← WebRtcSpl_Resample48khzTo32khz tmpmem 8 0 160;
  '(tmpmem, out, s3) ← WebRtcSpl_DownBy2IntToShort tmpmem 320 (S_32_16 state);
  Ok (out, MkState48To16 s1 s2 s3, tmpmem).

Definition WebRtcSpl_ResetResample48khzTo16khz : State48khzTo16khz :=
  MkState48To16 (replicate 16 0) (replicate 8 0) (replicate 8 0).

Record State16khzTo48khz := MkState16To48 {
  S_16_32 : list Z; S_32_24 : list Z; up_24_48 : list Z
}.

Definition WebRtcSpl_Resample16khzTo48khz (inp : list Z) (state : State16khzTo48khz)
    (tmpmem : list Z) : res (list Z * State16khzTo48khz * list Z) :=
  '(x, s1) ← WebRtcSpl_UpBy2ShortToInt inp 160 (S_16_32 state);
  tmpmem ← store_at 16 x tmpmem;
  '(tmpmem, s2) ← exchange_history 8 320 (S_32_24 state) tmpmem;
  tmpmem ← WebRtcSpl_Resample32khzTo24khz tmpmem 8 0 80;
  '(out, s3) ← WebRtcSpl_UpBy2IntToShort tmpmem 240 (up_24_48 state);
  Ok (out, MkState16To48 s1 s2 s3, tmpmem).

Definition WebRtcSpl_ResetResample16khzTo48khz : State16khzTo48khz :=
  MkState16To48 (replicate 8 0) (replicate 8 0) (replicate 8 0).

Record State48khzTo8khz := MkState48To8 {
  S_48_24 : list Z; S_24_24 : list Z; S_24_16 : list Z; S_16_8 : list Z
}.

Definition WebRtcSpl_Resample48khzTo8khz (inp : list Z) (state : State48khzTo8khz)
    (tmpmem : list Z) : res (list Z * State48khzTo8khz * list Z) :=
  '(x, s1) ← WebRtcSpl_DownBy2ShortToInt inp 480 (S_48_24 state);
  tmpmem ← store_at 256 x tmpmem;
  '(x, s2) ← WebRtcSpl_LPBy2IntToInt (drop 256 tmpmem) 240 (S_24_24 state);
  tmpmem ← store_at 16 x tmpmem;
  '(tmpmem, s3) ← exchange_history 8 240 (S_24_16 state) tmpmem;
  tmpmem ← WebRtcSpl_Resample48khzTo32khz tmpmem 8 0 80;
  '(tmpmem, out, s4) ← WebRtcSpl_DownBy2IntToShort tmpmem 160 (S_16_8 state);
  Ok (out, MkState48To8 s1 s2 s3 s4, tmpmem).

Definition WebRtcSpl_ResetResample48khzTo8khz : State48khzTo8khz :=
  MkState48To8 (replicate 8 0) (replicate 16 0) (replicate 8 0) (replicate 8 0).

Record State8khzTo48khz := MkState8To48 {
  S_8_16 : list Z; S_16_12 : list Z; S_12_24 : list Z; S_24_48 : list Z
}.

Definition WebRtcSpl_Resample8khzTo48khz (inp : list Z) (state : State8khzTo48khz)
    (tmpmem : list Z) : res (list Z * State8khzTo48khz * list Z) :=
  '(x, s1) ← WebRtcSpl_UpBy2ShortToInt inp 80 (S_8_16 state);
  tmpmem ← store_at 264 x tmpmem;
  '(tmpmem, s2) ← exchange_history 256 160 (S_16_12 state) tmpmem;
  tmpmem ← WebRtcSpl_Resample32khzTo24khz tmpmem 256 240 40;
  '(x, s3) ← WebRtcSpl_UpBy2IntToInt (drop 240 tmpmem) 120 (S_12_24 state);
  tmpmem ← store_at 0 x tmpmem;
  '(out, s4) ← WebRtcSpl_UpBy2IntToShort tmpmem 240 (S_24_48 state);
  Ok (out, MkState8To48 s1 s2 s3 s4, tmpmem).

Definition WebRtcSpl_ResetResample8khzTo48khz : State8khzTo48khz :=
  MkState8To48 (replicate 8 0) (replicate 8 0) (replicate 8 0) (replicate 8 0).

(** * Lemmas *)

(** ** The half-band stages *)

Lemma bounded_mono X Y xs : X <= Y -> bounded X xs -> bounded Y xs.
Proof. intros H. apply Forall_impl. cbn. intros. lia. Qed.

Lemma shiftr_bounds Y s v : 0 <= s -> - Y <= v <= Y -> - (Y / 2 ^ s + 1) <= Z.shiftr v s <= Y / 2 ^ s.
Proof.
  intros Hs Hv. rewrite Z.shiftr_div_pow2 by done.
  assert (0 < 2 ^ s) by (apply Z.pow_pos_nonneg; lia).
  split; [|apply Z.div_le_mono; lia].
  apply Z.div_le_lower_bound; [done|].
  pose proof (Z.mul_succ_div_gt Y (2 ^ s) ltac:(done)). nia.
Qed.

(** Only the samples of the block are read. *)
Lemma stride2_app n x e : (2 * n <= S (length x))%nat -> stride2 n (x ++ e) = stride2 n x.
Proof.
  revert x. induction n as [|n IH]; intros x Hl; [done|]. destruct x as [|a [|b x]]; cbn in Hl; [lia| |].
  - replace n with 0%nat by lia. done.
  - cbn [stride2]. change (rd ((a :: b :: x) ++ e) 0) with (Ok a).
    change (rd (a :: b :: x) 0) with (Ok a). rewrite !bind_ok.
    change (drop 2 ((a :: b :: x) ++ e)) with (x ++ e). change (drop 2 (a :: b :: x)) with x.
    by rewrite IH by lia.
Qed.

Lemma wp_stride2_block X n x :
  bounded X (take (2 * n) x) -> (2 * n <= length x)%nat ->
  wp (stride2 n x) (fun xs => bounded X xs /\ length xs = n) /\
  wp (stride2 n (drop 1 x)) (fun xs => bounded X xs /\ length xs = n).
Proof.
  intros Hx Hl. rewrite <- (take_drop (2 * n) x).
  assert (L : length (take (2 * n) x) = (2 * n)%nat) by (rewrite length_take; lia).
  split.
  - rewrite stride2_app by lia. apply wp_stride2; [done|lia].
  - destruct (take (2 * n) x) as [|a l] eqn:E.
    + cbn in L. replace n with 0%nat by lia. by repeat constructor.
    + change (drop 1 ((a :: l) ++ drop (2 * n) x)) with (l ++ drop (2 * n) x).
      cbn in L. rewrite stride2_app by lia.
      apply wp_stride2; [by inversion Hx|lia].
Qed.

Lemma wp_combine_short Y n inp :
  (2 * Y <= 2147483647) -> bounded Y (take (4 * n) inp) -> (4 * n <= length inp)%nat ->
  wp (combine_short (2 * n) inp) (fun out => samples16 out /\ length out = (2 * n)%nat).
Proof.
  intros HY. revert inp. induction n as [|n IH]; intros inp Hb Hl; [by repeat constructor|].
  replace (2 * S n)%nat with (S (S (2 * n))) by lia. cbn [combine_short Nat.pred].
  destruct inp as [|a [|b [|c [|d inp]]]]; cbn in Hl; try lia.
  replace (4 * S n)%nat with (4 + 4 * n)%nat in Hb by lia. cbn [take Nat.add] in Hb.
  inversion Hb as [|? ? Ha Hb1]; subst. inversion Hb1 as [|? ? Hb' Hb2]; subst.
  inversion Hb2 as [|? ? Hc Hb3]; subst. inversion Hb3 as [|? ? Hd Hb4]; subst.
  change (rd (a :: b :: c :: d :: inp) 0) with (Ok a).
  change (rd (a :: b :: c :: d :: inp) 1) with (Ok b).
  change (rd (a :: b :: c :: d :: inp) 2) with (Ok c).
  change (rd (a :: b :: c :: d :: inp) 3) with (Ok d). rewrite !bind_ok.
  wp_step. apply wp_add32; [unfold i32; lia|]. rewrite !bind_ok.
  wp_step. apply wp_add32; [unfold i32; lia|].
  change (drop 4 (a :: b :: c :: d :: inp)) with inp.
  wp_step. eapply wp_mono; [apply IH; [exact Hb4|lia]|]. intros out [H1 H2]. wp_step.
  split; [|cbn; lia]. by repeat (constructor; [apply saturate_i16|]).
Qed.

Section stages.
Context (X : Z) (Hfit : bank_fits X = true).

Lemma wp_UpBy2ShortToInt_bounded n x M state :
  0 <= M <= 32767 -> M * 32768 + 16384 <= X -> bounded M x -> (n <= length x)%nat ->
  bank_ok X state ->
  wp (WebRtcSpl_UpBy2ShortToInt x n state)
     (fun '(out, state') => length out = (2 * n)%nat /\
        bounded (Z.max (lower_gain X) (upper_gain X) / 32768 + 1) out /\ bank_ok X state').
Proof.
  intros HM HMX Hx Hl Hst. unfold WebRtcSpl_UpBy2ShortToInt.
  apply wp_bind, wp_take_exact; [done|].
  wp_step. eapply wp_mono;
    [apply (wp_widen_all M); [lia|by apply Forall_take|left; lia]|].
  intros x' [E1 E2]. rewrite length_take in E2.
  wp_step. eapply wp_mono; [apply (wp_interpolate X Hfit); [|exact Hst]|].
  { by eapply bounded_mono. }
  intros [[up lo] state'] (H1 & H2 & H3 & H4 & H5). wp_step.
  rewrite zip2_length, length_map by (rewrite !length_map; lia). split; [lia|].
  split; [|done].
  apply zip2_Forall; apply Forall_map; (eapply Forall_impl; [|eassumption]); cbn; intros v Hv;
    (pose proof (shiftr_bounds (Z.max (lower_gain X) (upper_gain X)) 15 v ltac:(lia) ltac:(lia))
       as Hs); change (2 ^ 15) with 32768 in Hs; lia.
Qed.

Lemma wp_UpBy2IntToInt_wide n x state :
  bounded X (take n x) -> (n <= length x)%nat -> bank_ok X state ->
  wp (WebRtcSpl_UpBy2IntToInt x n state)
     (fun '(out, state') => length out = (2 * n)%nat /\
        bounded (Z.max (lower_gain X) (upper_gain X)) out /\ bank_ok X state').
Proof.
  intros Hx Hl Hst. unfold WebRtcSpl_UpBy2IntToInt.
  apply wp_bind, wp_take_exact; [done|].
  wp_step. eapply wp_mono; [by apply (wp_interpolate X Hfit)|].
  intros [[up lo] state'] (H1 & H2 & H3 & H4 & H5). rewrite length_take in H1, H2. wp_step.
  rewrite zip2_length by lia. split; [lia|]. split; [|done].
  apply zip2_Forall; (eapply bounded_mono; [|eassumption]); lia.
Qed.

Lemma wp_UpBy2IntToShort_wide n x state :
  bounded X (take n x) -> (n <= length x)%nat -> bank_ok X state ->
  wp (WebRtcSpl_UpBy2IntToShort x n state)
     (fun '(out, state') => length out = (2 * n)%nat /\ samples16 out /\ bank_ok X state').
Proof.
  intros Hx Hl Hst. unfold WebRtcSpl_UpBy2IntToShort.
  apply wp_bind, wp_take_exact; [done|].
  wp_step. eapply wp_mono; [by apply (wp_interpolate X Hfit)|].
  intros [[up lo] state'] (H1 & H2 & H3 & H4 & H5). rewrite length_take in H1, H2. wp_step.
  rewrite zip2_length, length_map by (rewrite !length_map; lia). split; [lia|].
  split; [|done]. apply zip2_Forall; apply Forall_map, Forall_true; intros; apply saturate_i16.
Qed.

Lemma wp_LPBy2IntToInt_wide n x state :
  bounded X (take (2 * n) x) -> (2 * n <= length x)%nat -> lowpass_ok X state ->
  wp (WebRtcSpl_LPBy2IntToInt x (2 * n) state)
     (fun '(out, state') => length out = (2 * n)%nat /\
        bounded ((lower_gain X + upper_gain X) / 65536 + 1) out /\ lowpass_ok X state').
Proof.
  intros Hx Hl Hst. unfold WebRtcSpl_LPBy2IntToInt. rewrite (Nat.mul_comm 2 n), Nat.div_mul by lia.
  destruct (wp_stride2_block X n x Hx Hl) as [He Ho].
  wp_step. eapply wp_mono; [exact Ho|]. intros o [O1 O2].
  wp_step. eapply wp_mono; [exact He|]. intros e [E1 E2].
  eapply wp_mono; [apply (wp_lowpass X Hfit); auto; lia|].
  intros [out state'] (H1 & H2 & H3). split; [lia|done].
Qed.

Lemma halve_bounded Y xs : bounded Y xs -> bounded (Y / 2 + 1) (halve xs).
Proof.
  intros H. apply Forall_map. eapply Forall_impl; [|exact H]. cbn. intros v Hv.
  pose proof (shiftr_bounds Y 1 v ltac:(lia) Hv) as Hs. change (2 ^ 1) with 2 in Hs. lia.
Qed.

Lemma wp_DownBy2IntToShort_wide n x state :
  lower_gain X <= 2147483640 -> upper_gain X <= 2147483640 ->
  bounded X (take (4 * n) x) -> (4 * n <= length x)%nat -> bank_ok X state ->
  wp (WebRtcSpl_DownBy2IntToShort x (4 * n) state)
     (fun '(x', out, state') => length x' = length x /\ length out = (2 * n)%nat /\
        samples16 out /\ bank_ok X state').
Proof.
  intros HL HU Hx Hl (s & u & -> & Hs & Hu). destruct (bank_fits_inv X Hfit) as (SL & SU & SG).
  unfold WebRtcSpl_DownBy2IntToShort.
  replace (4 * n / 2)%nat with (2 * n)%nat
    by (replace (4 * n)%nat with (2 * n * 2)%nat by lia; by rewrite Nat.div_mul).
  replace (4 * n)%nat with (2 * (2 * n))%nat in * by lia.
  destruct (wp_stride2_block X (2 * n) x Hx Hl) as [He Ho].
  rewrite <- (app_nil_r (regs_list u)), load_upper, load_lower, bind_ok.
  wp_step. eapply wp_mono; [exact He|]. intros e [E1 E2].
  wp_step. eapply wp_mono; [by apply (wp_run_filter _ _ _ _ e s SL)|].
  intros [lo s'] (A1 & A2 & A3). rewrite bind_ok.
  wp_step. eapply wp_mono; [exact Ho|]. intros o [O1 O2].
  wp_step. eapply wp_mono; [by apply (wp_run_filter _ _ _ _ o u SU)|].
  intros [up u'] (B1 & B2 & B3). cbv zeta.
  assert (Lz : length (zip2 (halve lo) (halve up)) = (2 * (2 * n))%nat).
  { unfold halve. rewrite zip2_length, length_map by (rewrite !length_map; lia). lia. }
  assert (HY : bounded (2147483640 / 2 + 1) (zip2 (halve lo) (halve up))).
  { apply zip2_Forall; apply halve_bounded; (eapply bounded_mono; [|eassumption]); lia. }
  wp_step. eapply wp_mono.
  { apply (wp_combine_short (2147483640 / 2 + 1) n); [vm_compute; discriminate| |].
    - replace (4 * n)%nat with (2 * (2 * n))%nat by lia. by rewrite take_app_length' by done.
    - rewrite length_app, Lz, length_drop. lia. }
  intros out [H1 H2]. wp_step. split; [rewrite length_app, Lz, length_drop; lia|].
  split; [lia|]. split; [done|]. exists s', u'. split; [done|]. by split.
Qed.
End stages.

(** ** The fractional stage *)

Definition history_ok (M : Z) (S : list Z) : Prop := bounded M S /\ length S = 8%nat.

(** New samples behind the history and the exchange of the history: the memory
    holds the old history and the samples in sequence. *)
Lemma wp_history {A} M p S x mem (Q : A -> Prop) k :
  (8 <= length x)%nat -> (p + 8 + length x <= length mem)%nat -> history_ok M S -> bounded M x ->
  (forall mem' S', length mem' = length mem -> history_ok M S' ->
     within M (take (8 + length x) (drop p mem')) -> wp (k mem' S') Q) ->
  wp (mem ← store_at (p + 8) x mem;
      '(mem, S) ← exchange_history p (length x) S mem;
      (k mem S : res A)) Q.
Proof.
  intros H8 Hlen [HS LS] Hbx Hk.
  unfold store_at at 1. rewrite (proj2 (Nat.leb_le _ _)) by lia. rewrite bind_ok.
  unfold exchange_history, store_at.
  set (e := drop (p + 8 + length x) mem).
  assert (Lt : length (take (p + 8) mem) = (p + 8)%nat) by (rewrite length_take; lia).
  rewrite LS, !length_app, Lt. rewrite (proj2 (Nat.leb_le _ _)) by lia. rewrite bind_ok.
  assert (E1 : take p (take (p + 8) mem ++ x ++ e) = take p mem).
  { rewrite take_app_le, take_take by lia. f_equal. lia. }
  assert (E2 : drop (p + 8) (take (p + 8) mem ++ x ++ e) = x ++ e) by (by apply drop_app_length').
  rewrite E1, E2.
  assert (Lp : length (take p mem) = p) by (rewrite length_take; lia).
  assert (L2 : length (take p mem ++ S ++ x ++ e) = length mem).
  { rewrite !length_app, Lp, LS. unfold e. rewrite length_drop. lia. }
  unfold load_at. rewrite L2, (proj2 (Nat.leb_le _ _)), !bind_ok by lia.
  assert (Ed : take 8 (drop (p + length x) (take p mem ++ S ++ x ++ e)) = drop (length x - 8) x).
  { rewrite <- drop_drop, drop_app_length' by done. rewrite app_assoc.
    rewrite drop_app_le by (rewrite length_app; lia). rewrite drop_app_ge by lia.
    rewrite take_app_length' by (rewrite length_drop; lia). f_equal. lia. }
  rewrite Ed. apply Hk.
  - done.
  - split; [by apply Forall_drop|rewrite length_drop; lia].
  - rewrite drop_app_length', app_assoc by done.
    rewrite take_app_length' by (rewrite length_app; lia). by apply Forall_app.
Qed.

(** The exchange of the history and the filter in place. *)
Lemma wp_fractional_stage {A} f K M N p o S x mem (Q : A -> Prop) k :
  fractional_ok f M N -> (f_need f <= f_in f + 8)%nat ->
  (8 <= length x)%nat -> length x = (f_in f * K)%nat -> (o + f_gap f <= p)%nat ->
  (p + 8 + length x <= length mem)%nat -> history_ok M S -> bounded M x ->
  (forall mem' S', length mem' = length mem -> history_ok M S' ->
     bounded N (take (f_out f * K) (drop o mem')) -> wp (k mem' S') Q) ->
  wp (mem ← store_at (p + 8) x mem;
      '(mem, S) ← exchange_history p (length x) S mem;
      mem ← blocks (f_block f) (f_in f) (f_out f) K mem (Z.of_nat p) (Z.of_nat o);
      (k mem S : res A)) Q.
Proof.
  intros Hf Hneed H8 Hx Hop Hlen HS Hbx Hk. pose proof (f_rate f M N Hf) as Hrate.
  apply (wp_history M); try done. intros m S' Lm HS' Hw.
  assert (HK : (reach f K <= 8 + length x)%nat) by (rewrite Hx; destruct K; cbn [reach]; lia).
  apply (within_take _ _ _ _ HK) in Hw.
  rewrite (blocks_in_place f M N Hf) by (done || lia).
  rewrite bind_ok. pose proof (block_values_length f M N Hf K (drop p m)) as Lr.
  assert (Lo : length (take o m) = o) by (rewrite length_take; lia).
  apply Hk.
  - rewrite !length_app, Lr, Lo, length_drop. nia.
  - done.
  - rewrite drop_app_length' by done. rewrite take_app_length' by done.
    apply (block_values_within f M N Hf); [rewrite length_drop; lia|done].
Qed.

(** ** Levels

    The bounds of the signal at the stages of a resampler whose input is bounded
    by [B]: in the first filter bank, of the samples of the fractional stage, and
    in the last filter bank. *)

Definition shifted (B : Z) : Z := B * 32768 + 16384.
Definition mean_gain (X : Z) : Z := lower_gain X + upper_gain X.
Definition max_gain (X : Z) : Z := Z.max (lower_gain X) (upper_gain X).
Definition lp_level (X : Z) : Z := mean_gain X / 65536 + 1.
Definition up_level (B : Z) : Z := max_gain (shifted B) / 32768 + 1.

Definition down3_fits (X1 : Z) : bool :=
  let M := lp_level X1 in let X2 := fir_bound kCoefficients48To32 M in
  bank_fits X1 && (0 <=? M) && (M <=? 47000) && bank_fits X2 &&
  (lower_gain X2 <=? 2147483640) && (upper_gain X2 <=? 2147483640).

Definition up3_fits (B : Z) : bool :=
  let M := up_level B in let X2 := fir_bound kCoefficients32To24 M in
  (0 <=? B) && (B <=? 32767) && bank_fits (shifted B) && (0 <=? M) && (M <=? 47000) &&
  bank_fits X2.

Record down16_ok (B : Z) (s : State48khzTo16khz) : Prop := {
  d16_lp : lowpass_ok (shifted B) (S_48_48 s);
  d16_history : history_ok (lp_level (shifted B)) (S_48_32 s);
  d16_down : bank_ok (fir_bound kCoefficients48To32 (lp_level (shifted B))) (S_32_16 s)
}.

Record up16_ok (B : Z) (s : State16khzTo48khz) : Prop := {
  u16_up : bank_ok (shifted B) (S_16_32 s);
  u16_history : history_ok (up_level B) (S_32_24 s);
  u16_last : bank_ok (fir_bound kCoefficients32To24 (up_level B)) (up_24_48 s)
}.

Definition down8_level (B : Z) : Z := mean_gain (shifted B) / 2 + 1.

Record down8_ok (B : Z) (s : State48khzTo8khz) : Prop := {
  d8_down : bank_ok (shifted B) (S_48_24 s);
  d8_lp : lowpass_ok (down8_level B) (S_24_24 s);
  d8_history : history_ok (lp_level (down8_level B)) (S_24_16 s);
  d8_last : bank_ok (fir_bound kCoefficients48To32 (lp_level (down8_level B))) (S_16_8 s)
}.

Record up8_ok (B : Z) (s : State8khzTo48khz) : Prop := {
  u8_up : bank_ok (shifted B) (S_8_16 s);
  u8_history : history_ok (up_level B) (S_16_12 s);
  u8_second : bank_ok (fir_bound kCoefficients32To24 (up_level B)) (S_12_24 s);
  u8_last : bank_ok (max_gain (fir_bound kCoefficients32To24 (up_level B))) (S_24_48 s)
}.

(** The two kinds of fractional stages in the form of the code. *)
Lemma wp_stage_48To32 {A} M p K S x mem (Q : A -> Prop) k :
  0 <= M <= 47000 -> (2 < K)%nat -> length x = (3 * K)%nat ->
  (p + 8 + 3 * K <= length mem)%nat -> history_ok M S -> bounded M x ->
  (forall mem' S', length mem' = length mem -> history_ok M S' ->
     bounded (fir_bound kCoefficients48To32 M) (take (2 * K) mem') -> wp (k mem' S') Q) ->
  wp (mem ← store_at (p + 8) x mem;
      '(mem, S) ← exchange_history p (3 * K) S mem;
      mem ← WebRtcSpl_Resample48khzTo32khz mem (Z.of_nat p) 0 K;
      (k mem S : res A)) Q.
Proof.
  intros HM HK Hx Hlen HS Hb Hk. rewrite <- Hx.
  apply (wp_fractional_stage filter_48To32 K M (fir_bound kCoefficients48To32 M) p 0); try done; try (cbn; lia).
  by apply filter_48To32_ok.
Qed.

Lemma wp_stage_32To24 {A} M p o K S x mem (Q : A -> Prop) k :
  0 <= M <= 47000 -> (2 < K)%nat -> length x = (4 * K)%nat -> (o <= p)%nat ->
  (p + 8 + 4 * K <= length mem)%nat -> history_ok M S -> bounded M x ->
  (forall mem' S', length mem' = length mem -> history_ok M S' ->
     bounded (fir_bound kCoefficients32To24 M) (take (3 * K) (drop o mem')) -> wp (k mem' S') Q) ->
  wp (mem ← store_at (p + 8) x mem;
      '(mem, S) ← exchange_history p (4 * K) S mem;
      mem ← WebRtcSpl_Resample32khzTo24khz mem (Z.of_nat p) (Z.of_nat o) K;
      (k mem S : res A)) Q.
Proof.
  intros HM HK Hx Ho Hlen HS Hb Hk. rewrite <- Hx.
  apply (wp_fractional_stage filter_32To24 K M (fir_bound kCoefficients32To24 M) p o); try done; try (cbn; lia).
  by apply filter_32To24_ok.
Qed.

Lemma wp_Resample48khzTo16khz B x st mem :
  0 <= B <= 32767 -> down3_fits (shifted B) = true -> bounded B x -> length x = 480%nat ->
  (496 <= length mem)%nat -> down16_ok B st ->
  wp (WebRtcSpl_Resample48khzTo16khz x st mem) (fun '(out, st', mem') =>
    samples16 out /\ length out = 160%nat /\ down16_ok B st' /\ length mem' = length mem).
Proof.
  intros HB Hfit Hx Lx Lm [H1 H2 H3]. unfold down3_fits in Hfit.
  rewrite !andb_true_iff, !Z.leb_le in Hfit. destruct Hfit as [[[[[F1 F2] F3] F4] F5] F6].
  unfold WebRtcSpl_Resample48khzTo16khz. apply wp_bind.
  eapply wp_mono; [apply (wp_LPBy2ShortToInt_wide (shifted B) F1 240 x B); try done; lia|].
  intros [y s1] (L1 & B1 & G1).
  apply (wp_stage_48To32 (lp_level (shifted B)) 8 160); try done; try lia.
  intros mem1 s2 L2 G2 B2. apply wp_bind.
  eapply wp_mono.
  { apply (wp_DownBy2IntToShort_wide _ F4 80 mem1); try done. lia. }
  intros [[mem2 out] s3] (L3 & L4 & B4 & G3). apply wp_ret.
  split; [done|]. split; [done|]. split; [by constructor|lia].
Qed.

Lemma wp_Resample16khzTo48khz B x st mem :
  up3_fits B = true -> bounded B x -> length x = 160%nat ->
  (336 <= length mem)%nat -> up16_ok B st ->
  wp (WebRtcSpl_Resample16khzTo48khz x st mem) (fun '(out, st', mem') =>
    samples16 out /\ length out = 480%nat /\ up16_ok B st' /\ length mem' = length mem).
Proof.
  intros Hfit Hx Lx Lm [H1 H2 H3]. unfold up3_fits in Hfit.
  rewrite !andb_true_iff, !Z.leb_le in Hfit. destruct Hfit as [[[[[F1 F2] F3] F4] F5] F6].
  unfold WebRtcSpl_Resample16khzTo48khz. apply wp_bind.
  eapply wp_mono.
  { apply (wp_UpBy2ShortToInt_bounded (shifted B) F3 160 x B); try done; try lia. }
  intros [y s1] (L1 & B1 & G1).
  apply (wp_stage_32To24 (up_level B) 8 0 80); try done; try lia.
  intros mem1 s2 L2 G2 B2. apply wp_bind.
  eapply wp_mono; [apply (wp_UpBy2IntToShort_wide _ F6 240 mem1); try done; lia|].
  intros [out s3] (L3 & B3 & G3). apply wp_ret.
  split; [done|]. split; [done|]. split; [by constructor|lia].
Qed.

Lemma wp_store_at p xs mem :
  (p + length xs <= length mem)%nat ->
  wp (store_at p xs mem) (fun mem' => length mem' = length mem /\
    take (length xs) (drop p mem') = xs).
Proof.
  intros H. unfold store_at. rewrite (proj2 (Nat.leb_le _ _)) by lia.
  assert (Lp : length (take p mem) = p) by (rewrite length_take; lia).
  cbn. split; [rewrite !length_app, Lp, length_drop; lia|].
  by rewrite drop_app_length', take_app_length' by done.
Qed.

Lemma wp_Resample48khzTo8khz B x st mem :
  0 <= B <= 32767 -> bank_fits (shifted B) = true -> down3_fits (down8_level B) = true ->
  bounded B x -> length x = 480%nat -> (496 <= length mem)%nat -> down8_ok B st ->
  wp (WebRtcSpl_Resample48khzTo8khz x st mem) (fun '(out, st', mem') =>
    samples16 out /\ length out = 80%nat /\ down8_ok B st' /\ length mem' = length mem).
Proof.
  intros HB F0 Hfit Hx Lx Lm [H0 H1 H2 H3]. unfold down3_fits in Hfit.
  rewrite !andb_true_iff, !Z.leb_le in Hfit. destruct Hfit as [[[[[F1 F2] F3] F4] F5] F6].
  unfold WebRtcSpl_Resample48khzTo8khz. apply wp_bind.
  eapply wp_mono.
  { apply (wp_DownBy2ShortToInt_wide (shifted B) F0 240 x B); try done; lia. }
  intros [y s0] (L0 & B0 & G0). apply wp_bind.
  eapply wp_mono; [apply (wp_store_at 256); lia|]. intros mem0 [L0' E0].
  rewrite L0 in E0. apply wp_bind.
  eapply wp_mono.
  { apply (wp_LPBy2IntToInt_wide (down8_level B) F1 120 (drop 256 mem0)); [| |done].
    - change (2 * 120)%nat with 240%nat. by rewrite E0.
    - rewrite length_drop. lia. }
  intros [z s1] (L1 & B1 & G1).
  apply (wp_stage_48To32 (lp_level (down8_level B)) 8 80); try done; try lia.
  intros mem1 s2 L2 G2 B2. apply wp_bind.
  eapply wp_mono.
  { apply (wp_DownBy2IntToShort_wide _ F4 40 mem1); try done. lia. }
  intros [[mem2 out] s3] (L3 & L4 & B4 & G3). apply wp_ret.
  split; [done|]. split; [done|]. split; [by constructor|lia].
Qed.

Lemma wp_Resample8khzTo48khz B x st mem :
  up3_fits B = true -> bank_fits (max_gain (fir_bound kCoefficients32To24 (up_level B))) = true ->
  bounded B x -> length x = 80%nat -> (424 <= length mem)%nat -> up8_ok B st ->
  wp (WebRtcSpl_Resample8khzTo48khz x st mem) (fun '(out, st', mem') =>
    samples16 out /\ length out = 480%nat /\ up8_ok B st' /\ length mem' = length mem).
Proof.
  intros Hfit F7 Hx Lx Lm [H1 H2 H3 H4]. unfold up3_fits in Hfit.
  rewrite !andb_true_iff, !Z.leb_le in Hfit. destruct Hfit as [[[[[F1 F2] F3] F4] F5] F6].
  unfold WebRtcSpl_Resample8khzTo48khz. apply wp_bind.
  eapply wp_mono.
  { apply (wp_UpBy2ShortToInt_bounded (shifted B) F3 80 x B); try done; try lia. }
  intros [y s1] (L1 & B1 & G1).
  apply (wp_stage_32To24 (up_level B) 256 240 40); try done; try lia.
  intros mem1 s2 L2 G2 B2. apply wp_bind.
  eapply wp_mono.
  { apply (wp_UpBy2IntToInt_wide _ F6 120 (drop 240 mem1)); try done.
    rewrite length_drop. lia. }
  intros [z s3] (L3 & B3 & G3). apply wp_bind.
  eapply wp_mono; [apply (wp_store_at 0); lia|]. intros mem2 [L4 E4]. rewrite L3 in E4.
  apply wp_bind. eapply wp_mono.
  { apply (wp_UpBy2IntToShort_wide _ F7 240 mem2); try done; [|lia].
    rewrite drop_0 in E4. change (2 * 120)%nat with 240%nat in E4. by rewrite E4. }
  intros [out s4] (L5 & B5 & G5). apply wp_ret.
  split; [done|]. split; [done|]. split; [by constructor|lia].
Qed.

(** ** The zero states *)

Lemma regs_zero c0 c1 c2 X :
  q14_cascade_fits c0 c1 c2 X = true -> regs_ok c0 c1 c2 X (Regs 0 0 0 0).
Proof.
  unfold q14_cascade_fits, q14_fits. rewrite !andb_true_iff, !Z.leb_le, !Z.ltb_lt.
  intros [[[[[A1 A2] A3] _] [[[B1 B2] B3] _]] [[[C1 C2] C3] _]].
  assert (H : forall c Y, 0 <= c < 16384 -> 0 <= Y -> q14_section c Y 0 0).
  { intros c Y Hc HY. assert (0 <= q14_slack c).
    { unfold q14_slack. assert (0 <= 16384 * (c * c) / (16384 - c)); [|lia].
      apply Z.div_pos; nia. }
    assert (0 <= q14_gain c Y).
    { unfold q14_gain. assert (0 <= ((16384 + 2 * c) * Y + q14_slack c + 16384 * c) / 16384);
        [|lia]. apply Z.div_pos; nia. }
    unfold q14_section. nia. }
  split; [|split]; by apply H.
Qed.

Lemma bank_zero X : bank_fits X = true -> bank_ok X (replicate 8 0).
Proof.
  unfold bank_fits. rewrite !andb_true_iff. intros [[[F1 F2] _] _].
  exists (Regs 0 0 0 0), (Regs 0 0 0 0). split; [done|]. by split; apply regs_zero.
Qed.

Lemma lowpass_zero X : bank_fits X = true -> lowpass_ok X (replicate 16 0).
Proof.
  unfold bank_fits. rewrite !andb_true_iff. intros [[[F1 F2] _] _].
  exists (Regs 0 0 0 0), (Regs 0 0 0 0), (Regs 0 0 0 0), (Regs 0 0 0 0). split; [done|].
  by split_and!; apply regs_zero.
Qed.

Lemma history_zero M : 0 <= M -> history_ok M (replicate 8 0).
Proof. intros H. split; [|done]. repeat constructor; lia. Qed.

Lemma wp_triple {A B C} (m : res (A * B * C)) (Q : A -> B -> C -> Prop) :
  wp m (fun '(a, b, c) => Q a b c) -> exists a b c, m = Ok (a, b, c) /\ Q a b c.
Proof. destruct m as [[[a b] c]|]; [|done]. intros H. by exists a, b, c. Qed.

(** * Theorems *)

(** The resamplers from and to 48 kHz are free of overflow and of accesses
    outside the temporary memory of 496 words, whatever it held before, on any
    stream of blocks whose samples are bounded by 640 (48 to 16 kHz), 500 (16 to
    48), 96 (48 to 8) and 56 (8 to 48), from the state that the reset functions
    establish: they return 160, 480, 80 and 480 samples of 16 bits and keep the
    invariant of their state. *)
Lemma resample_48khz_total mem :
  (496 <= length mem)%nat ->
  (down16_ok 640 WebRtcSpl_ResetResample48khzTo16khz /\ forall x st,
     bounded 640 x -> length x = 480%nat -> down16_ok 640 st ->
     exists out st' mem', WebRtcSpl_Resample48khzTo16khz x st mem = Ok (out, st', mem') /\
       samples16 out /\ length out = 160%nat /\ down16_ok 640 st' /\ length mem' = length mem) /\
  (up16_ok 500 WebRtcSpl_ResetResample16khzTo48khz /\ forall x st,
     bounded 500 x -> length x = 160%nat -> up16_ok 500 st ->
     exists out st' mem', WebRtcSpl_Resample16khzTo48khz x st mem = Ok (out, st', mem') /\
       samples16 out /\ length out = 480%nat /\ up16_ok 500 st' /\ length mem' = length mem) /\
  (down8_ok 96 WebRtcSpl_ResetResample48khzTo8khz /\ forall x st,
     bounded 96 x -> length x = 480%nat -> down8_ok 96 st ->
     exists out st' mem', WebRtcSpl_Resample48khzTo8khz x st mem = Ok (out, st', mem') /\
       samples16 out /\ length out = 80%nat /\ down8_ok 96 st' /\ length mem' = length mem) /\
  (up8_ok 56 WebRtcSpl_ResetResample8khzTo48khz /\ forall x st,
     bounded 56 x -> length x = 80%nat -> up8_ok 56 st ->
     exists out st' mem', WebRtcSpl_Resample8khzTo48khz x st mem = Ok (out, st', mem') /\
       samples16 out /\ length out = 480%nat /\ up8_ok 56 st' /\ length mem' = length mem).
Proof.
  intros Lm. split_and!.
  - constructor; [by apply lowpass_zero|by apply history_zero|by apply bank_zero].
  - intros x st Hx Lx Hst. apply wp_triple.
    by apply wp_Resample48khzTo16khz; [lia|vm_compute|..].
  - constructor; [by apply bank_zero|by apply history_zero|by apply bank_zero].
  - intros x st Hx Lx Hst. apply wp_triple.
    apply wp_Resample16khzTo48khz; try done. lia.
  - constructor; [by apply bank_zero|by apply lowpass_zero|by apply history_zero|by apply bank_zero].
  - intros x st Hx Lx Hst. apply wp_triple.
    by apply wp_Resample48khzTo8khz; [lia|vm_compute|vm_compute|..].
  - constructor; [by apply bank_zero|by apply history_zero|by apply bank_zero|by apply bank_zero].
  - intros x st Hx Lx Hst. apply wp_triple.
    apply wp_Resample8khzTo48khz; try done. lia.
Qed.

