(* ===== verification/Resample22.v ===== *)
(** * Resampling from and to 22 kHz

    [common_audio/resample.c] and the resampler by 8/11 of
    [common_audio/resample_fractional.c].  The filters of this ratio are symmetric:
    one pass over the coefficients computes two outputs, from a window read upwards
    and from one read downwards.  The blocks are filtered in place and the stages
    composed as in [Resample48]; the 10 ms of a call are cut into sub-blocks. *)
From S2P Require Import Prelude CInt Spl Resample HalfBand Resample48.

(** ** Symmetric filters *)

Definition kCoefficients44To32 : list (list Z) :=
  [[117; -669; 2245; -6183; 26267; 13529; -3245; 845; -138];
   [-101; 612; -2283; 8532; 29790; -5138; 1789; -524; 91];
   [50; -292; 1016; -3064; 32010; 3933; -1147; 315; -53];
   [-156; 974; -3863; 18603; 21691; -6246; 2353; -712; 126]].

Definition kCoefficients32To22 : list (list Z) :=
  [[127; -712; 2359; -6333; 23456; 16775; -3695; 945; -154];
   [-39; 230; -830; 2785; 32366; -2324; 760; -218; 38];
   [117; -663; 2222; -6133; 26634; 13070; -3174; 831; -137];
   [-77; 457; -1677; 5958; 31175; -4136; 1405; -408; 71];
   [98; -560; 1900; -5406; 29240; 9423; -2480; 663; -110]].

(** [coef = coef_ptr[k]; tmp1 += coef * in1[k]; tmp2 += coef * in2[-k]], for the
    successive [k]. *)
Fixpoint dot_sums (coefs : list Z) (mem : list Z) (in1 in2 tmp1 tmp2 : Z) : res (Z * Z) :=
  match coefs with
  | [] => Ok (tmp1, tmp2)
  | coef :: coefs' =>
      x ← rd mem in1; p ← mul32 coef x; tmp1 ← add32 tmp1 p;
      x ← rd mem in2; p ← mul32 coef x; tmp2 ← add32 tmp2 p;
      dot_sums coefs' mem (in1 + 1) (in2 - 1) tmp1 tmp2
  end.

(** The first output is stored before the last sample of the second window is
    read. *)
Definition dot_product (mem : list Z) (in1 in2 : Z) (coef_ptr : list Z) (out1 out2 : Z)
    : res (list Z) :=
  '(tmp1, tmp2) ← dot_sums (take 8 coef_ptr) mem in1 in2 16384 16384;
  coef ← rd coef_ptr 8;
  x ← rd mem (in1 + 8); p ← mul32 coef x; v ← add32 tmp1 p; mem ← wr mem out1 v;
  x ← rd mem (in2 - 8); p ← mul32 coef x; v ← add32 tmp2 p; wr mem out2 v.

Definition WebRtcSpl_ResampDotProduct : list Z -> Z -> Z -> list Z -> Z -> Z -> res (list Z) :=
  dot_product.
Definition WebRtcSpl_DotProdIntToInt : list Z -> Z -> Z -> list Z -> Z -> Z -> res (list Z) :=
  dot_product.

(** Both sums are complete before they are scaled, saturated and stored. *)
Definition WebRtcSpl_DotProdIntToShort (In : list Z) (in1 in2 : Z) (coef_ptr : list Z)
    : res (Z * Z) :=
  '(tmp1, tmp2) ← dot_sums coef_ptr In in1 in2 16384 16384;
  Ok (saturate (Z.shiftr tmp1 15), saturate (Z.shiftr tmp2 15)).

(** ** Blocks *)

(** [((int32_t)In[3] << 15) + (1 << 14)]: the output at a sample of the input. *)
Definition copy_sample (mem : list Z) (In Out : Z) : res (list Z) :=
  x ← rd mem (In + 3); v ← widen x; wr mem Out v.

(** The loop body of [WebRtcSpl_Resample44khzTo32khz]. *)
Definition block_44To32 (mem : list Z) (In Out : Z) : res (list Z) :=
  mem ← copy_sample mem In Out;
  k3 ← rd kCoefficients44To32 3;
  tmp ← fir_sum k3 mem (In + 5) 16384;
  mem ← wr mem (Out + 4) tmp;
  k0 ← rd kCoefficients44To32 0;
  mem ← WebRtcSpl_ResampDotProduct mem In (In + 17) k0 (Out + 1) (Out + 7);
  k1 ← rd kCoefficients44To32 1;
  mem ← WebRtcSpl_ResampDotProduct mem (In + 2) (In + 15) k1 (Out + 2) (Out + 6);
  k2 ← rd kCoefficients44To32 2;
  WebRtcSpl_ResampDotProduct mem (In + 3) (In + 14) k2 (Out + 3) (Out + 5).

Definition WebRtcSpl_Resample44khzTo32khz (mem : list Z) (In Out : Z) (K : nat)
    : res (list Z) := blocks block_44To32 11 8 K mem In Out.

(** The loop body of [WebRtcSpl_32khzTo22khzIntToInt]. *)
Definition block_32To22 (mem : list Z) (In Out : Z) : res (list Z) :=
  mem ← copy_sample mem In Out;
  k0 ← rd kCoefficients32To22 0;
  mem ← WebRtcSpl_DotProdIntToInt mem In (In + 22) k0 (Out + 1) (Out + 10);
  k1 ← rd kCoefficients32To22 1;
  mem ← WebRtcSpl_DotProdIntToInt mem (In + 2) (In + 20) k1 (Out + 2) (Out + 9);
  k2 ← rd kCoefficients32To22 2;
  mem ← WebRtcSpl_DotProdIntToInt mem (In + 3) (In + 19) k2 (Out + 3) (Out + 8);
  k3 ← rd kCoefficients32To22 3;
  mem ← WebRtcSpl_DotProdIntToInt mem (In + 5) (In + 17) k3 (Out + 4) (Out + 7);
  k4 ← rd kCoefficients32To22 4;
  WebRtcSpl_DotProdIntToInt mem (In + 6) (In + 16) k4 (Out + 5) (Out + 6).

Definition WebRtcSpl_32khzTo22khzIntToInt (mem : list Z) (In Out : Z) (K : nat)
    : res (list Z) := blocks block_32To22 16 11 K mem In Out.

(** The loop body of [WebRtcSpl_32khzTo22khzIntToShort]: the samples stored at
    [Out[0]], ..., [Out[10]]. *)
Definition block_32To22_short (mem : list Z) (In : Z) : res (list Z) :=
  x ← rd mem (In + 3);
  k0 ← rd kCoefficients32To22 0;
  '(o1, o10) ← WebRtcSpl_DotProdIntToShort mem In (In + 22) k0;
  k1 ← rd kCoefficients32To22 1;
  '(o2, o9) ← WebRtcSpl_DotProdIntToShort mem (In + 2) (In + 20) k1;
  k2 ← rd kCoefficients32To22 2;
  '(o3, o8) ← WebRtcSpl_DotProdIntToShort mem (In + 3) (In + 19) k2;
  k3 ← rd kCoefficients32To22 3;
  '(o4, o7) ← WebRtcSpl_DotProdIntToShort mem (In + 5) (In + 17) k3;
  k4 ← rd kCoefficients32To22 4;
  '(o5, o6) ← WebRtcSpl_DotProdIntToShort mem (In + 6) (In + 16) k4;
  Ok [saturate x; o1; o2; o3; o4; o5; o6; o7; o8; o9; o10].

Fixpoint WebRtcSpl_32khzTo22khzIntToShort (mem : list Z) (In : Z) (K : nat)
    : res (list Z) :=
  match K with
  | O => Ok []
  | S K' =>
      o ← block_32To22_short mem In;
      os ← WebRtcSpl_32khzTo22khzIntToShort mem (In + 16) K';
      Ok (o ++ os)
  end.

(** ** Resamplers *)

(** A call processes [n] sub-blocks; the input and output pointers move on, the
    state and the temporary memory stay. *)
Fixpoint sub_blocks {St} (n nin : nat) (step : list Z -> St -> list Z -> res (list Z * St * list Z))
    (inp : list Z) (state : St) (tmpmem : list Z) : res (list Z * St * list Z) :=
  match n with
  | O => Ok ([], state, tmpmem)
  | S n' =>
      '(out, state, tmpmem) ← step inp state tmpmem;
      '(rest, state, tmpmem) ← sub_blocks n' nin step (drop nin inp) state tmpmem;
      Ok (out ++ rest, state, tmpmem)
  end.

Record State22khzTo16khz := MkState22To16 {
  S_22_44 : list Z; S_44_32 : list Z; last_32_16 : list Z
}.

Definition step_22To16 (inp : list Z) (state : State22khzTo16khz) (tmpmem : list Z)
    : res (list Z * State22khzTo16khz * list Z) :=
  '(x, s1) ← WebRtcSpl_UpBy2ShortToInt inp 44 (S_22_44 state);
  tmpmem ← store_at 16 x tmpmem;
  '(tmpmem, s2) ← exchange_history 8 88 (S_44_32 state) tmpmem;
  tmpmem ← WebRtcSpl_Resample44khzTo32khz tmpmem 8 0 8;
  '(tmpmem, out, s3) ← WebRtcSpl_DownBy2IntToShort tmpmem 64 (last_32_16 state);
  Ok (out, MkState22To16 s1 s2 s3, tmpmem).

Definition WebRtcSpl_Resample22khzTo16khz :
    list Z -> State22khzTo16khz -> list Z -> res (list Z * State22khzTo16khz * list Z) :=
  sub_blocks 5 44 step_22To16.

Definition WebRtcSpl_ResetResample22khzTo16khz : State22khzTo16khz :=
  MkState22To16 (replicate 8 0) (replicate 8 0) (replicate 8 0).

Record State16khzTo22khz := MkState16To22 { first_16_32 : list Z; S_32_22 : list Z }.

Definition step_16To22 (inp : list Z) (state : State16khzTo22khz) (tmpmem : list Z)
    : res (list Z * State16khzTo22khz * list Z) :=
  '(x, s1) ← WebRtcSpl_UpBy2ShortToInt inp 40 (first_16_32 state);
  tmpmem ← store_at 8 x tmpmem;
  '(tmpmem, s2) ← exchange_history 0 80 (S_32_22 state) tmpmem;
  out ← WebRtcSpl_32khzTo22khzIntToShort tmpmem 0 5;
  Ok (out, MkState16To22 s1 s2, tmpmem).

Definition WebRtcSpl_Resample16khzTo22khz :
    list Z -> State16khzTo22khz -> list Z -> res (list Z * State16khzTo22khz * list Z) :=
  sub_blocks 4 40 step_16To22.

Definition WebRtcSpl_ResetResample16khzTo22khz : State16khzTo22khz :=
  MkState16To22 (replicate 8 0) (replicate 8 0).

Record State22khzTo8khz := MkState22To8 {
  S_22_22 : list Z; S_22_16 : list Z; last_16_8 : list Z
}.

Definition step_22To8 (inp : list Z) (state : State22khzTo8khz) (tmpmem : list Z)
    : res (list Z * State22khzTo8khz * list Z) :=
  '(x, s1) ← WebRtcSpl_LPBy2ShortToInt inp 110 (S_22_22 state);
  tmpmem ← store_at 16 x tmpmem;
  '(tmpmem, s2) ← exchange_history 8 110 (S_22_16 state) tmpmem;
  tmpmem ← WebRtcSpl_Resample44khzTo32khz tmpmem 8 0 10;
  '(tmpmem, out, s3) ← WebRtcSpl_DownBy2IntToShort tmpmem 80 (last_16_8 state);
  Ok (out, MkState22To8 s1 s2 s3, tmpmem).

Definition WebRtcSpl_Resample22khzTo8khz :
    list Z -> State22khzTo8khz -> list Z -> res (list Z * State22khzTo8khz * list Z) :=
  sub_blocks 2 110 step_22To8.

Definition WebRtcSpl_ResetResample22khzTo8khz : State22khzTo8khz :=
  MkState22To8 (replicate 16 0) (replicate 8 0) (replicate 8 0).

Record State8khzTo22khz := MkState8To22 {
  first_8_16 : list Z; S_16_11 : list Z; S_11_22 : list Z
}.

Definition step_8To22 (inp : list Z) (state : State8khzTo22khz) (tmpmem : list Z)
    : res (list Z * State8khzTo22khz * list Z) :=
  '(x, s1) ← WebRtcSpl_UpBy2ShortToInt inp 40 (first_8_16 state);
  tmpmem ← store_at 18 x tmpmem;
  '(tmpmem, s2) ← exchange_history 10 80 (S_16_11 state) tmpmem;
  tmpmem ← WebRtcSpl_32khzTo22khzIntToInt tmpmem 10 0 5;
  '(out, s3) ← WebRtcSpl_UpBy2IntToShort tmpmem 55 (S_11_22 state);
  Ok (out, MkState8To22 s1 s2 s3, tmpmem).

Definition WebRtcSpl_Resample8khzTo22khz :
    list Z -> State8khzTo22khz -> list Z -> res (list Z * State8khzTo22khz * list Z) :=
  sub_blocks 2 40 step_8To22.

Definition WebRtcSpl_ResetResample8khzTo22khz : State8khzTo22khz :=
  MkState8To22 (replicate 8 0) (replicate 8 0) (replicate 8 0).

(** * Lemmas *)

(** ** One pass over the coefficients *)

(** The samples from position [e] downwards. *)
Definition downward (e : nat) (xs : list Z) : list Z := reverse (take (S e) xs).

Lemma downward_S e xs x : xs !! S e = Some x -> downward (S e) xs = x :: downward e xs.
Proof. intros H. unfold downward. by rewrite (take_S_r _ _ _ H), reverse_snoc. Qed.

Lemma downward_take n e xs : (e < n)%nat -> downward e (take n xs) = downward e xs.
Proof. intros H. unfold downward. rewrite take_take. do 2 f_equal. lia. Qed.

Lemma downward_within M e xs : within M (take (S e) xs) -> within M (downward e xs).
Proof. intros H. by apply Forall_reverse. Qed.

(** A product and an accumulation that fit. *)
Lemma mac_exact {A} c x t M R (k : Z -> res A) :
  0 <= M -> - M <= x <= M -> 0 <= R -> Z.abs t + (Z.abs c * M + R) <= INT32_MAX ->
  (p ← mul32 c x; t ← add32 t p; k t) = k (t + c * x) /\
  Z.abs (t + c * x) + R <= INT32_MAX.
Proof.
  intros HM Hx HR Hb. assert (Z.abs (c * x) <= Z.abs c * M) by (rewrite Z.abs_mul; nia).
  unfold mul32, add32. rewrite !chk32_ok, !bind_ok by (unfold i32; lia).
  rewrite chk32_ok by (unfold i32; lia). split; [done|lia].
Qed.

Lemma rd_nat {A} (l : list A) (n : nat) x : l !! n = Some x -> rd l (Z.of_nat n) = Ok x.
Proof.
  intros H. unfold rd. rewrite (proj2 (Z.ltb_ge _ _)) by lia. by rewrite Nat2Z.id, H.
Qed.

(** Both windows lie in the region of samples within [M]. *)
Lemma dot_sums_exact coefs mem M (a e : nat) t1 t2 :
  0 <= M -> (a + length coefs <= length mem)%nat -> (e < length mem)%nat ->
  (length coefs <= S e)%nat ->
  within M (take (length coefs) (drop a mem)) ->
  within M (take (length coefs) (downward e mem)) ->
  Z.abs t1 + abs_sum coefs * M <= INT32_MAX -> Z.abs t2 + abs_sum coefs * M <= INT32_MAX ->
  dot_sums coefs mem (Z.of_nat a) (Z.of_nat e) t1 t2 =
  Ok (t1 + conv coefs (drop a mem), t2 + conv coefs (downward e mem)).
Proof.
  intros HM. revert a e t1 t2.
  induction coefs as [|c coefs IH]; intros a e t1 t2 Ha He Hc W1 W2 B1 B2.
  { cbn. by rewrite !Z.add_0_r. }
  cbn [length] in *. cbn [dot_sums].
  destruct (lookup_lt_is_Some_2 mem a ltac:(lia)) as [x Ex].
  destruct (lookup_lt_is_Some_2 mem e ltac:(lia)) as [y Ey].
  rewrite (rd_nat _ _ _ Ex), (rd_nat _ _ _ Ey), !bind_ok.
  rewrite (drop_S _ _ _ Ex) in W1 |- *. cbn [take] in W1.
  inversion W1 as [|? ? Hx W1']; subst.
  assert (Ed : exists r, downward e mem = y :: r /\ (coefs = [] \/ r = downward (pred e) mem /\ (0 < e)%nat)).
  { unfold downward. rewrite (take_S_r _ _ _ Ey), reverse_snoc.
    eexists. split; [reflexivity|]. destruct e as [|e']; [|right; by split; [|lia]].
    left. destruct coefs; [done|cbn in *; lia]. }
  destruct Ed as (r & Ed & Er). rewrite Ed in W2 |- *. cbn [take] in W2.
  inversion W2 as [|? ? Hy W2']; subst.
  cbn [abs_sum foldr] in B1, B2. fold (abs_sum coefs) in B1, B2.
  pose proof (abs_sum_nonneg coefs) as Hs.
  assert (0 <= abs_sum coefs * M) by nia.
  rewrite (proj1 (mac_exact c x t1 M (abs_sum coefs * M) _ HM Hx ltac:(done) ltac:(lia))).
  cbv beta. rewrite ?bind_ok, (proj1 (mac_exact c y t2 M (abs_sum coefs * M) _ HM Hy ltac:(done) ltac:(lia))).
  pose proof (proj2 (mac_exact c x t1 M (abs_sum coefs * M) (@Ok Z) HM Hx ltac:(done) ltac:(lia))) as B1'.
  pose proof (proj2 (mac_exact c y t2 M (abs_sum coefs * M) (@Ok Z) HM Hy ltac:(done) ltac:(lia))) as B2'.
  cbn [conv]. destruct Er as [-> | [-> He0]].
  { cbn. do 2 f_equal; lia. }
  replace (Z.of_nat a + 1) with (Z.of_nat (S a)) by lia.
  replace (Z.of_nat e - 1) with (Z.of_nat (pred e)) by lia.
  rewrite IH; [do 2 f_equal; lia|lia|lia|lia|done|done|lia|lia].
Qed.

Lemma conv_snoc cs c xs x :
  xs !! length cs = Some x -> conv (cs ++ [c]) xs = conv cs xs + c * x.
Proof.
  revert xs. induction cs as [|d cs IH]; intros [|y xs] H; try done.
  - injection H as ->. cbn. destruct xs; lia.
  - cbn [app conv]. rewrite (IH xs) by done. lia.
Qed.

Lemma abs_sum_snoc cs c : abs_sum (cs ++ [c]) = abs_sum cs + Z.abs c.
Proof. unfold abs_sum. induction cs as [|d cs IH]; cbn; lia. Qed.

Lemma downward_lookup e k xs :
  (k <= e)%nat -> (e < length xs)%nat -> downward e xs !! k = xs !! (e - k)%nat.
Proof.
  intros Hk He. unfold downward. rewrite reverse_lookup by (rewrite length_take; lia).
  rewrite length_take, lookup_take_lt by lia. f_equal. lia.
Qed.

Lemma dot_product_exact coefs mem M (a e o1 o2 : nat) :
  0 <= M -> length coefs = 9%nat -> 16384 + abs_sum coefs * M <= INT32_MAX ->
  (a + 9 <= length mem)%nat -> (8 <= e < length mem)%nat ->
  within M (take 9 (drop a mem)) -> within M (take 9 (downward e mem)) ->
  (o1 < length mem)%nat -> (o2 < length mem)%nat -> (o1 < e - 8)%nat ->
  dot_product mem (Z.of_nat a) (Z.of_nat e) coefs (Z.of_nat o1) (Z.of_nat o2) =
  Ok (<[o2 := 16384 + conv coefs (downward e mem)]>
        (<[o1 := 16384 + conv coefs (drop a mem)]> mem)).
Proof.
  intros HM Hc Hb Ha He W1 W2 H1 H2 Hd.
  destruct (lookup_lt_is_Some_2 coefs 8 ltac:(lia)) as [c Ec].
  assert (Es : coefs = take 8 coefs ++ [c]).
  { rewrite <- (take_drop 8 coefs) at 1. f_equal. rewrite (drop_S _ _ _ Ec).
    by rewrite drop_ge by lia. }
  set (cs := take 8 coefs) in *.
  assert (Lc : length cs = 8%nat) by (unfold cs; rewrite length_take; lia).
  rewrite Es, abs_sum_snoc in Hb. pose proof (abs_sum_nonneg cs) as Hs.
  assert (0 <= abs_sum cs * M) by nia.
  destruct (lookup_lt_is_Some_2 mem (a + 8) ltac:(lia)) as [x Ex].
  destruct (lookup_lt_is_Some_2 mem (e - 8) ltac:(lia)) as [y Ey].
  assert (Ex' : drop a mem !! length cs = Some x) by (by rewrite lookup_drop, Lc).
  assert (Ey' : downward e mem !! length cs = Some y)
    by (by rewrite Lc, downward_lookup by lia).
  assert (Hx : - M <= x <= M).
  { eapply (Forall_lookup_1 _ _ 8 x W1). by rewrite lookup_take_lt, <- Lc by lia. }
  assert (Hy : - M <= y <= M).
  { eapply (Forall_lookup_1 _ _ 8 y W2). by rewrite lookup_take_lt, <- Lc by lia. }
  assert (Hcx : forall z, - M <= z <= M -> Z.abs (c * z) <= Z.abs c * M)
    by (intros; rewrite Z.abs_mul; nia).
  unfold dot_product. fold cs.
  rewrite (dot_sums_exact cs mem M a e); rewrite ?Lc; try done; try lia;
    [|by eapply within_take; [|exact W1]; lia|by eapply within_take; [|exact W2]; lia].
  rewrite bind_ok, (rd_nat coefs 8 c Ec : rd coefs 8 = _), bind_ok.
  assert (Hw : forall xs, within M (take 8 xs) -> Z.abs (conv cs xs) <= abs_sum cs * M)
    by (intros xs Hw; apply conv_bound; by rewrite ?Lc).
  pose proof (Hw _ (within_take M 9 8 _ ltac:(lia) W1)) as C1.
  pose proof (Hw _ (within_take M 9 8 _ ltac:(lia) W2)) as C2.
  replace (Z.of_nat a + 8) with (Z.of_nat (a + 8)) by lia.
  replace (Z.of_nat e - 8) with (Z.of_nat (e - 8)) by lia.
  rewrite (rd_nat _ _ _ Ex), bind_ok.
  specialize (Hcx x Hx) as Hx'. specialize (Hcx y Hy) as Hy'.
  unfold mul32, add32. rewrite !chk32_ok, !bind_ok by (unfold i32; lia).
  rewrite chk32_ok, bind_ok by (unfold i32; lia). rewrite wr_insert, bind_ok by lia.
  rewrite (rd_nat _ (e - 8) y), bind_ok by (by rewrite list_lookup_insert_ne by lia).
  rewrite !chk32_ok, !bind_ok by (unfold i32; lia).
  rewrite chk32_ok, bind_ok by (unfold i32; lia).
  rewrite wr_insert by (rewrite length_insert; lia).
  rewrite Es. rewrite (conv_snoc _ _ _ _ Ex'), (conv_snoc _ _ _ _ Ey').
  by rewrite !Z.add_assoc.
Qed.

(** ** The blocks in place *)

Lemma conv_take n cs xs : (length cs <= n)%nat -> conv cs (take n xs) = conv cs xs.
Proof.
  revert n xs. induction cs as [|c cs IH]; intros n xs Hn; [by destruct (take n xs), xs|].
  destruct n as [|n]; [cbn in Hn; lia|]. destruct xs as [|x xs]; [done|].
  cbn [take conv]. f_equal. apply IH. cbn in Hn. lia.
Qed.

Lemma downward_window e xs :
  (8 <= e < length xs)%nat -> take 9 (downward e xs) = reverse (take 9 (drop (e - 8) xs)).
Proof.
  intros He. apply list_eq. intros k. destruct (decide (k < 9)%nat) as [Hk|Hk].
  - rewrite lookup_take_lt by done. rewrite downward_lookup by lia.
    rewrite reverse_lookup by (rewrite length_take, length_drop; lia).
    rewrite length_take, length_drop, lookup_take_lt, lookup_drop by lia. f_equal. lia.
  - rewrite !lookup_ge_None_2; [done| |]; rewrite ?length_reverse, length_take, ?length_drop; lia.
Qed.

(** [m] agrees with [mem] from position [s] on. *)
Definition same_tail (s : nat) (mem m : list Z) : Prop :=
  length m = length mem /\ drop s m = drop s mem.

Lemma same_tail_refl s mem : same_tail s mem mem.
Proof. done. Qed.

Lemma same_tail_insert s mem m k v :
  (k < s)%nat -> same_tail s mem m -> same_tail s mem (<[k := v]> m).
Proof.
  intros Hk [Hl Hd]. split; [by rewrite length_insert|]. by rewrite drop_insert_lt by lia.
Qed.

Lemma same_tail_drop s mem m k : (s <= k)%nat -> same_tail s mem m -> drop k m = drop k mem.
Proof.
  intros Hk [_ Hd]. replace k with (s + (k - s))%nat by lia. by rewrite <- !drop_drop, Hd.
Qed.

Section block_steps.
Context (M : Z) (HM : 0 <= M <= 39000) (mem : list Z) (i n : nat).
Context (Hlen : (i + n <= length mem)%nat) (Hw : within M (take n (drop i mem))).

Let xs := drop i mem.

Lemma symmetric_step s m coefs a e u v za ze zu zv :
  same_tail s mem m -> length coefs = 9%nat -> 16384 + abs_sum coefs * M <= INT32_MAX ->
  (s <= i + a)%nat -> (s + 8 <= i + e)%nat -> (a + 9 <= n)%nat -> (8 <= e < n)%nat ->
  za = Z.of_nat (i + a) -> ze = Z.of_nat (i + e) -> zu = Z.of_nat u -> zv = Z.of_nat v ->
  (u < i + e - 8)%nat -> (v < i + n)%nat ->
  dot_product m za ze coefs zu zv =
  Ok (<[v := 16384 + conv coefs (downward e xs)]> (<[u := 16384 + conv coefs (drop a xs)]> m)).
Proof.
  intros Hs Hc Hb Ha Ha' He He' -> -> -> -> Hu Hv. pose proof (proj1 Hs) as Hl.
  assert (Lx : length xs = (length mem - i)%nat) by apply length_drop.
  assert (Da : drop (i + a) m = drop a xs)
    by (rewrite (same_tail_drop s mem m) by done; unfold xs; by rewrite drop_drop).
  assert (De : take 9 (downward (i + e) m) = take 9 (downward e xs)).
  { rewrite !downward_window by lia. do 2 f_equal.
    rewrite (same_tail_drop s mem m) by (done || lia). unfold xs. rewrite drop_drop.
    f_equal. lia. }
  rewrite (dot_product_exact coefs m M (i + a) (i + e) u v); try done; try lia.
  - rewrite Da. rewrite <- (conv_take 9 coefs (downward (i + e) m)), De by lia.
    by rewrite conv_take by lia.
  - rewrite Da. by eapply within_take_drop; [|exact Hw].
  - rewrite De, downward_window by lia. apply Forall_reverse.
    eapply within_take_drop; [|exact Hw]. lia.
Qed.

Definition impulse : list Z := [0; 0; 0; 32768].

Lemma copy_sample_step {A} o zi zo (k : list Z -> res A) :
  (4 <= n)%nat -> (o < length mem)%nat -> zi = Z.of_nat i -> zo = Z.of_nat o ->
  (m ← copy_sample mem zi zo; k m) = k (<[o := 16384 + conv impulse xs]> mem).
Proof.
  intros Hn Ho -> ->. unfold copy_sample.
  destruct (lookup_lt_is_Some_2 mem (i + 3) ltac:(lia)) as [x Ex].
  replace (Z.of_nat i + 3) with (Z.of_nat (i + 3)) by lia. rewrite (rd_nat _ _ _ Ex), bind_ok.
  assert (Hx : - M <= x <= M).
  { eapply (Forall_lookup_1 _ _ 3 x Hw). by rewrite lookup_take_lt, lookup_drop by lia. }
  unfold widen, add32. change (shl32 x 15) with (chk32 (Z.shiftl x 15)).
  rewrite Z.shiftl_mul_pow2 by lia. change (2 ^ 15) with 32768.
  rewrite chk32_ok, bind_ok, chk32_ok, bind_ok by (unfold i32; lia).
  rewrite wr_insert, bind_ok by done. do 2 f_equal.
  assert (E : conv impulse xs = 32768 * x); [|lia].
  unfold xs. rewrite <- (conv_take 4) by done. unfold impulse.
  assert (E3 : take 4 (drop i mem) !! 3%nat = Some x)
    by (by rewrite lookup_take_lt, lookup_drop by lia).
  destruct (take 4 (drop i mem)) as [|? [|? [|? [|y l]]]]; try done. injection E3 as ->.
  cbn [conv]. destruct l; lia.
Qed.
End block_steps.

(** The outputs of a block as a function of the input from its first sample on:
    row [c] from position [a] upwards, or from position [e] downwards. *)
Definition up_value (c : list Z) (a : nat) (xs : list Z) : Z := 16384 + conv c (drop a xs).
Definition down_value (c : list Z) (e : nat) (xs : list Z) : Z := 16384 + conv c (downward e xs).
Definition row44 (j : nat) : list Z := nth j kCoefficients44To32 [].
Definition row32 (j : nat) : list Z := nth j kCoefficients32To22 [].

Definition values_44To32 (xs : list Z) : list Z :=
  [up_value impulse 0 xs; up_value (row44 0) 0 xs; up_value (row44 1) 2 xs;
   up_value (row44 2) 3 xs; up_value (row44 3) 5 xs; down_value (row44 2) 14 xs;
   down_value (row44 1) 15 xs; down_value (row44 0) 17 xs].

Definition values_32To22 (xs : list Z) : list Z :=
  [up_value impulse 0 xs; up_value (row32 0) 0 xs; up_value (row32 1) 2 xs;
   up_value (row32 2) 3 xs; up_value (row32 3) 5 xs; up_value (row32 4) 6 xs;
   down_value (row32 4) 16 xs; down_value (row32 3) 17 xs; down_value (row32 2) 19 xs;
   down_value (row32 1) 20 xs; down_value (row32 0) 22 xs].

Definition filter_44To32 : fractional := Fractional block_44To32 values_44To32 11 8 18 8.
Definition filter_32To22 : fractional := Fractional block_32To22 values_32To22 16 11 23 10.

(** Writing into a segment of a list. *)
Lemma insert_segment (P cells R : list Z) o k v :
  length P = o -> (k < length cells)%nat ->
  <[(o + k)%nat := v]> (P ++ cells ++ R) = P ++ <[k := v]> cells ++ R.
Proof. intros <- Hk. by rewrite insert_app_r, insert_app_l. Qed.

Lemma insert_segment0 (P cells R : list Z) o v :
  length P = o -> (0 < length cells)%nat ->
  <[o := v]> (P ++ cells ++ R) = P ++ <[0%nat := v]> cells ++ R.
Proof. intros HP Hk. rewrite <- (insert_segment P cells R o 0 v HP Hk). by rewrite Nat.add_0_r. Qed.

Lemma split_segment (mem : list Z) o n :
  mem = take o mem ++ take n (drop o mem) ++ drop (o + n) mem.
Proof. by rewrite <- drop_drop, !take_drop. Qed.

Ltac tail_steps := repeat (apply same_tail_insert; [lia|]); apply same_tail_refl.

(** One symmetric pair of outputs; [step] is [symmetric_step] at the block. *)
Ltac symmetric step s coefs a e u v :=
  rewrite ?bind_ok, (step s _ coefs a e u v);
  [|tail_steps|reflexivity|cbn; lia|lia|lia|lia|lia|lia|lia|lia|lia|lia|lia].

Lemma block_44To32_exact M mem i o :
  0 <= M <= 39000 -> (o + 8 <= i)%nat -> (i + 18 <= length mem)%nat ->
  within M (take 18 (drop i mem)) ->
  block_44To32 mem (Z.of_nat i) (Z.of_nat o) =
  Ok (take o mem ++ values_44To32 (drop i mem) ++ drop (o + 8) mem).
Proof.
  intros HM Ho Hl Hw. unfold block_44To32, WebRtcSpl_ResampDotProduct.
  erewrite (copy_sample_step M HM mem i 18 Hl Hw o); [|lia|lia|done|done].
  change (rd kCoefficients44To32 3) with (Ok (row44 3)). rewrite bind_ok.
  change (rd kCoefficients44To32 0) with (Ok (row44 0)).
  change (rd kCoefficients44To32 1) with (Ok (row44 1)).
  change (rd kCoefficients44To32 2) with (Ok (row44 2)).
  set (m1 := <[o := _]> mem).
  assert (T1 : same_tail i mem m1) by (unfold m1; tail_steps).
  replace (Z.of_nat i + 5) with (Z.of_nat (i + 5)) by lia.
  assert (D1 : drop (i + 5) m1 = drop 5 (drop i mem)).
  { rewrite (same_tail_drop i mem m1) by (done || lia). by rewrite drop_drop. }
  rewrite (fir_sum_exact _ _ _ _ M); rewrite ?Nat2Z.id, ?D1; [|lia| |lia| |cbn; lia].
  2:{ unfold zlen. rewrite (proj1 T1). cbn. lia. }
  2:{ by eapply within_take_drop; [|exact Hw]; cbn; lia. }
  rewrite bind_ok. replace (Z.of_nat o + 4) with (Z.of_nat (o + 4)) by lia.
  rewrite wr_insert by (rewrite (proj1 T1); lia). unfold m1. clear T1 D1. clear m1.
  pose proof (symmetric_step M HM mem i 18 Hl Hw) as step.
  symmetric step i (row44 0) 0%nat 17%nat (o + 1)%nat (o + 7)%nat.
  symmetric step i (row44 1) 2%nat 15%nat (o + 2)%nat (o + 6)%nat.
  symmetric step i (row44 2) 3%nat 14%nat (o + 3)%nat (o + 5)%nat.
  clear step. f_equal. set (xs := drop i mem). clearbody xs.
  rewrite (split_segment mem o 8) at 1.
  assert (L : length (take 8 (drop o mem)) = 8%nat) by (rewrite length_take, length_drop; lia).
  rewrite insert_segment0 by (rewrite ?L, ?length_take; lia).
  rewrite !insert_segment by (rewrite ?length_insert, ?L, ?length_take; lia).
  set (cells := take 8 (drop o mem)) in *. clearbody cells.
  do 8 (destruct cells as [|? cells]; [done|]). by destruct cells.
Qed.

Lemma block_32To22_exact M mem i o :
  0 <= M <= 39000 -> (o + 10 <= i)%nat -> (i + 23 <= length mem)%nat ->
  within M (take 23 (drop i mem)) ->
  block_32To22 mem (Z.of_nat i) (Z.of_nat o) =
  Ok (take o mem ++ values_32To22 (drop i mem) ++ drop (o + 11) mem).
Proof.
  intros HM Ho Hl Hw. unfold block_32To22, WebRtcSpl_DotProdIntToInt.
  erewrite (copy_sample_step M HM mem i 23 Hl Hw o); [|lia|lia|done|done].
  change (rd kCoefficients32To22 0) with (Ok (row32 0)).
  change (rd kCoefficients32To22 1) with (Ok (row32 1)).
  change (rd kCoefficients32To22 2) with (Ok (row32 2)).
  change (rd kCoefficients32To22 3) with (Ok (row32 3)).
  change (rd kCoefficients32To22 4) with (Ok (row32 4)).
  pose proof (symmetric_step M HM mem i 23 Hl Hw) as step.
  symmetric step i (row32 0) 0%nat 22%nat (o + 1)%nat (o + 10)%nat.
  symmetric step (S i) (row32 1) 2%nat 20%nat (o + 2)%nat (o + 9)%nat.
  symmetric step (S i) (row32 2) 3%nat 19%nat (o + 3)%nat (o + 8)%nat.
  symmetric step (S i) (row32 3) 5%nat 17%nat (o + 4)%nat (o + 7)%nat.
  symmetric step (S i) (row32 4) 6%nat 16%nat (o + 5)%nat (o + 6)%nat.
  clear step. f_equal. set (xs := drop i mem). clearbody xs.
  rewrite (split_segment mem o 11) at 1.
  assert (L : length (take 11 (drop o mem)) = 11%nat) by (rewrite length_take, length_drop; lia).
  rewrite insert_segment0 by (rewrite ?L, ?length_take; lia).
  rewrite !insert_segment by (rewrite ?length_insert, ?L, ?length_take; lia).
  set (cells := take 11 (drop o mem)) in *. clearbody cells.
  do 11 (destruct cells as [|? cells]; [done|]). by destruct cells.
Qed.

(** ** The filters as stages *)

Definition rows_bound_44To32 : Z -> Z := fir_bound (impulse :: kCoefficients44To32).
Definition rows_bound_32To22 : Z -> Z := fir_bound (impulse :: kCoefficients32To22).

Lemma up_value_within M N n c a xs :
  0 <= M -> (a + length c <= n)%nat -> within M (take n xs) -> 16384 + abs_sum c * M <= N ->
  - N <= up_value c a xs <= N.
Proof.
  intros HM Hn Hw HN. unfold up_value.
  assert (W : within M (take (length c) (drop a xs))) by (by eapply within_take_drop; [|exact Hw]).
  pose proof (conv_bound M c _ HM W). lia.
Qed.

Lemma window_down M n e xs :
  (8 <= e < n)%nat -> (n <= length xs)%nat -> within M (take n xs) ->
  within M (take 9 (downward e xs)).
Proof.
  intros He Hn Hw. rewrite downward_window by lia. apply Forall_reverse.
  eapply within_take_drop; [|exact Hw]. lia.
Qed.

Lemma down_value_within M N n c e xs :
  0 <= M -> length c = 9%nat -> (8 <= e < n)%nat -> (n <= length xs)%nat ->
  within M (take n xs) -> 16384 + abs_sum c * M <= N -> - N <= down_value c e xs <= N.
Proof.
  intros HM Hc He Hn Hw HN. unfold down_value.
  pose proof (conv_bound M c (downward e xs) HM) as H. rewrite Hc in H.
  specialize (H (window_down M n e xs He Hn Hw)). lia.
Qed.

Lemma fir_bound_row (rows : list (list Z)) M c : c ∈ rows -> 16384 + abs_sum c * M <= fir_bound rows M.
Proof.
  induction 1; unfold fir_bound in *; cbn [foldr]; lia.
Qed.

Ltac value_steps M n Hw :=
  repeat (apply Forall_cons;
    [first [apply (up_value_within M _ n) | apply (down_value_within M _ n)];
       first [exact Hw | done | (apply fir_bound_row; repeat constructor) | (cbn; lia)]|]);
  apply Forall_nil; done.

Lemma filter_44To32_ok M :
  0 <= M <= 39000 -> fractional_ok filter_44To32 M (rows_bound_44To32 M).
Proof.
  intros HM. constructor; cbn [f_len f_block f_values f_in f_out f_need f_gap filter_44To32].
  - done.
  - intros mem i o. by apply block_44To32_exact.
  - intros xs Hl Hw. unfold values_44To32, rows_bound_44To32. value_steps M 18%nat Hw.
  - lia.
Qed.

Lemma filter_32To22_ok M :
  0 <= M <= 39000 -> fractional_ok filter_32To22 M (rows_bound_32To22 M).
Proof.
  intros HM. constructor; cbn [f_len f_block f_values f_in f_out f_need f_gap filter_32To22].
  - done.
  - intros mem i o. by apply block_32To22_exact.
  - intros xs Hl Hw. unfold values_32To22, rows_bound_32To22. value_steps M 23%nat Hw.
  - lia.
Qed.

(** The filter to 16-bit samples reads the same windows. *)
Lemma wp_dot_short M mem (i n a e : nat) c za ze :
  0 <= M -> length c = 9%nat -> 16384 + abs_sum c * M <= INT32_MAX ->
  (i + n <= length mem)%nat -> (a + 9 <= n)%nat -> (8 <= e < n)%nat ->
  within M (take n (drop i mem)) -> za = Z.of_nat (i + a) -> ze = Z.of_nat (i + e) ->
  wp (WebRtcSpl_DotProdIntToShort mem za ze c) (fun '(o1, o2) => i16 o1 /\ i16 o2).
Proof.
  intros HM Hc Hb Hl Ha He Hw -> ->. unfold WebRtcSpl_DotProdIntToShort.
  rewrite (dot_sums_exact c mem M (i + a) (i + e)); rewrite ?Hc; try done; try lia.
  - cbn. split; apply saturate_i16.
  - rewrite <- drop_drop. by eapply within_take_drop; [|exact Hw].
  - rewrite downward_window by lia. apply Forall_reverse.
    replace (i + e - 8)%nat with (i + (e - 8))%nat by lia. rewrite <- drop_drop.
    eapply within_take_drop; [|exact Hw]. lia.
Qed.

Lemma wp_block_short M mem (i : nat) :
  0 <= M <= 39000 -> (i + 23 <= length mem)%nat -> within M (take 23 (drop i mem)) ->
  wp (block_32To22_short mem (Z.of_nat i)) (fun out => samples16 out /\ length out = 11%nat).
Proof.
  intros HM Hl Hw. unfold block_32To22_short.
  apply wp_bind, wp_rd; [unfold zlen; lia|]. intros x _.
  change (rd kCoefficients32To22 0) with (Ok (row32 0)).
  change (rd kCoefficients32To22 1) with (Ok (row32 1)).
  change (rd kCoefficients32To22 2) with (Ok (row32 2)).
  change (rd kCoefficients32To22 3) with (Ok (row32 3)).
  change (rd kCoefficients32To22 4) with (Ok (row32 4)).
  assert (step : forall (a e j : nat) za ze, (a + 9 <= 23)%nat -> (8 <= e < 23)%nat -> (j < 5)%nat ->
      za = Z.of_nat (i + a) -> ze = Z.of_nat (i + e) ->
      wp (WebRtcSpl_DotProdIntToShort mem za ze (row32 j)) (fun '(o1, o2) => i16 o1 /\ i16 o2)).
  { intros a e j za ze Ha He Hj -> ->.
    apply (wp_dot_short M mem i 23 a e); try done; try lia;
      do 5 (destruct j as [|j]; [cbn; lia|]); lia. }
  apply wp_bind, wp_ret, wp_bind. eapply wp_mono; [apply (step 0%nat 22%nat 0%nat); lia|].
  intros [o1 o10] [? ?]. apply wp_bind, wp_ret, wp_bind.
  eapply wp_mono; [apply (step 2%nat 20%nat 1%nat); lia|].
  intros [o2 o9] [? ?]. apply wp_bind, wp_ret, wp_bind.
  eapply wp_mono; [apply (step 3%nat 19%nat 2%nat); lia|].
  intros [o3 o8] [? ?]. apply wp_bind, wp_ret, wp_bind.
  eapply wp_mono; [apply (step 5%nat 17%nat 3%nat); lia|].
  intros [o4 o7] [? ?]. apply wp_bind, wp_ret, wp_bind.
  eapply wp_mono; [apply (step 6%nat 16%nat 4%nat); lia|].
  intros [o5 o6] [? ?]. apply wp_ret. split; [|done].
  repeat (apply Forall_cons; [done || apply saturate_i16|]). done.
Qed.

Lemma wp_32khzTo22khzIntToShort M mem (i K : nat) :
  0 <= M <= 39000 -> (i + 16 * K + 7 <= length mem)%nat ->
  within M (take (16 * K + 7) (drop i mem)) ->
  wp (WebRtcSpl_32khzTo22khzIntToShort mem (Z.of_nat i) K)
     (fun out => samples16 out /\ length out = (11 * K)%nat).
Proof.
  intros HM. revert i. induction K as [|K IH]; intros i Hl Hw; [by repeat constructor|].
  cbn [WebRtcSpl_32khzTo22khzIntToShort].
  apply wp_bind. eapply wp_mono; [apply (wp_block_short M); [lia|lia|]|].
  { by eapply within_take; [|exact Hw]; lia. }
  intros o [O1 O2].
  replace (Z.of_nat i + 16) with (Z.of_nat (i + 16)) by lia.
  apply wp_bind. eapply wp_mono; [apply IH; [lia|]|].
  { rewrite <- drop_drop. by eapply within_take_drop; [|exact Hw]; lia. }
  intros os [P1 P2]. apply wp_ret.
  split; [by apply Forall_app|rewrite length_app; lia].
Qed.

(** ** The resamplers *)

Definition down44_fits (X1 M : Z) : bool :=
  let X2 := rows_bound_44To32 M in
  bank_fits X1 && (0 <=? M) && (M <=? 39000) && bank_fits X2 &&
  (lower_gain X2 <=? 2147483640) && (upper_gain X2 <=? 2147483640).

Definition up22_fits (B : Z) : bool :=
  (0 <=? B) && (B <=? 32767) && bank_fits (shifted B) &&
  (0 <=? up_level B) && (up_level B <=? 39000).

(** A call of [n] sub-blocks keeps the invariant that its steps keep. *)
Lemma wp_sub_blocks {St} (I : St -> Prop) B n nin nout L step inp (state : St) mem :
  (forall x st m, bounded B x -> (nin <= length x)%nat -> I st -> length m = L ->
     wp (step x st m) (fun '(out, st', m') =>
       samples16 out /\ length out = nout /\ I st' /\ length m' = L)) ->
  bounded B inp -> (n * nin <= length inp)%nat -> I state -> length mem = L ->
  wp (sub_blocks n nin step inp state mem) (fun '(out, st', m') =>
    samples16 out /\ length out = (n * nout)%nat /\ I st' /\ length m' = L).
Proof.
  intros Hstep. revert inp state mem. induction n as [|n IH]; intros inp state mem Hb Hl Hi Lm.
  { by repeat constructor. }
  cbn [sub_blocks]. apply wp_bind. eapply wp_mono; [apply Hstep; try done; lia|].
  intros [[out st1] m1] (A1 & A2 & A3 & A4). apply wp_bind. eapply wp_mono.
  { apply IH; [by apply Forall_drop|rewrite length_drop; lia|done|done]. }
  intros [[rest st2] m2] (B1 & B2 & B3 & B4). apply wp_ret.
  split; [by apply Forall_app|]. split; [rewrite length_app; lia|done].
Qed.

Lemma wp_stage_44To32 {A} M K S x mem (Q : A -> Prop) k :
  0 <= M <= 39000 -> (2 < K)%nat -> length x = (11 * K)%nat ->
  (16 + 11 * K <= length mem)%nat -> history_ok M S -> bounded M x ->
  (forall mem' S', length mem' = length mem -> history_ok M S' ->
     bounded (rows_bound_44To32 M) (take (8 * K) mem') -> wp (k mem' S') Q) ->
  wp (mem ← store_at 16 x mem;
      '(mem, S) ← exchange_history 8 (11 * K) S mem;
      mem ← WebRtcSpl_Resample44khzTo32khz mem 8 0 K;
      (k mem S : res A)) Q.
Proof.
  intros HM HK Hx Hlen HS Hb Hk. rewrite <- Hx.
  apply (wp_fractional_stage filter_44To32 K M (rows_bound_44To32 M) 8 0);
    try done; try (cbn; lia).
  by apply filter_44To32_ok.
Qed.

Lemma wp_stage_32To22 {A} M K S x mem (Q : A -> Prop) k :
  0 <= M <= 39000 -> (2 < K)%nat -> length x = (16 * K)%nat ->
  (18 + 16 * K <= length mem)%nat -> history_ok M S -> bounded M x ->
  (forall mem' S', length mem' = length mem -> history_ok M S' ->
     bounded (rows_bound_32To22 M) (take (11 * K) mem') -> wp (k mem' S') Q) ->
  wp (mem ← store_at 18 x mem;
      '(mem, S) ← exchange_history 10 (16 * K) S mem;
      mem ← WebRtcSpl_32khzTo22khzIntToInt mem 10 0 K;
      (k mem S : res A)) Q.
Proof.
  intros HM HK Hx Hlen HS Hb Hk. rewrite <- Hx.
  apply (wp_fractional_stage filter_32To22 K M (rows_bound_32To22 M) 10 0);
    try done; try (cbn; lia).
  by apply filter_32To22_ok.
Qed.

Record r22to16_ok (B : Z) (s : State22khzTo16khz) : Prop := {
  r2216_up : bank_ok (shifted B) (S_22_44 s);
  r2216_history : history_ok (up_level B) (S_44_32 s);
  r2216_down : bank_ok (rows_bound_44To32 (up_level B)) (last_32_16 s)
}.

Record r16to22_ok (B : Z) (s : State16khzTo22khz) : Prop := {
  r1622_up : bank_ok (shifted B) (first_16_32 s);
  r1622_history : history_ok (up_level B) (S_32_22 s)
}.

Record r22to8_ok (B : Z) (s : State22khzTo8khz) : Prop := {
  r228_lp : lowpass_ok (shifted B) (S_22_22 s);
  r228_history : history_ok (lp_level (shifted B)) (S_22_16 s);
  r228_down : bank_ok (rows_bound_44To32 (lp_level (shifted B))) (last_16_8 s)
}.

Record r8to22_ok (B : Z) (s : State8khzTo22khz) : Prop := {
  r822_up : bank_ok (shifted B) (first_8_16 s);
  r822_history : history_ok (up_level B) (S_16_11 s);
  r822_last : bank_ok (rows_bound_32To22 (up_level B)) (S_11_22 s)
}.

Lemma wp_step_22To16 B L x st mem :
  0 <= B <= 32767 -> down44_fits (shifted B) (up_level B) = true -> (104 <= L)%nat ->
  bounded B x -> (44 <= length x)%nat -> r22to16_ok B st -> length mem = L ->
  wp (step_22To16 x st mem) (fun '(out, st', mem') =>
    samples16 out /\ length out = 32%nat /\ r22to16_ok B st' /\ length mem' = L).
Proof.
  intros HB Hfit HL Hx Lx [H1 H2 H3] Lm. unfold down44_fits in Hfit.
  rewrite !andb_true_iff, !Z.leb_le in Hfit. destruct Hfit as [[[[[F1 F2] F3] F4] F5] F6].
  unfold step_22To16. apply wp_bind.
  eapply wp_mono; [apply (wp_UpBy2ShortToInt_bounded (shifted B) F1 44 x B); try done; try lia|].
  intros [y s1] (L1 & B1 & G1).
  apply (wp_stage_44To32 (up_level B) 8); try done; try lia.
  intros mem1 s2 L2 G2 B2. apply wp_bind.
  eapply wp_mono; [apply (wp_DownBy2IntToShort_wide _ F4 16 mem1); try done; lia|].
  intros [[mem2 out] s3] (L3 & L4 & B4 & G3). apply wp_ret.
  split; [done|]. split; [done|]. split; [by constructor|lia].
Qed.

Lemma wp_step_22To8 B L x st mem :
  0 <= B <= 32767 -> down44_fits (shifted B) (lp_level (shifted B)) = true -> (126 <= L)%nat ->
  bounded B x -> (110 <= length x)%nat -> r22to8_ok B st -> length mem = L ->
  wp (step_22To8 x st mem) (fun '(out, st', mem') =>
    samples16 out /\ length out = 40%nat /\ r22to8_ok B st' /\ length mem' = L).
Proof.
  intros HB Hfit HL Hx Lx [H1 H2 H3] Lm. unfold down44_fits in Hfit.
  rewrite !andb_true_iff, !Z.leb_le in Hfit. destruct Hfit as [[[[[F1 F2] F3] F4] F5] F6].
  unfold step_22To8. apply wp_bind.
  eapply wp_mono; [apply (wp_LPBy2ShortToInt_wide (shifted B) F1 55 x B); try done; lia|].
  intros [y s1] (L1 & B1 & G1).
  apply (wp_stage_44To32 (lp_level (shifted B)) 10); try done; try lia.
  intros mem1 s2 L2 G2 B2. apply wp_bind.
  eapply wp_mono; [apply (wp_DownBy2IntToShort_wide _ F4 20 mem1); try done; lia|].
  intros [[mem2 out] s3] (L3 & L4 & B4 & G3). apply wp_ret.
  split; [done|]. split; [done|]. split; [by constructor|lia].
Qed.

Lemma wp_step_8To22 B L x st mem :
  up22_fits B = true -> bank_fits (rows_bound_32To22 (up_level B)) = true -> (98 <= L)%nat ->
  bounded B x -> (40 <= length x)%nat -> r8to22_ok B st -> length mem = L ->
  wp (step_8To22 x st mem) (fun '(out, st', mem') =>
    samples16 out /\ length out = 110%nat /\ r8to22_ok B st' /\ length mem' = L).
Proof.
  intros Hfit F6 HL Hx Lx [H1 H2 H3] Lm. unfold up22_fits in Hfit.
  rewrite !andb_true_iff, !Z.leb_le in Hfit. destruct Hfit as [[[[F1 F2] F3] F4] F5].
  unfold step_8To22. apply wp_bind.
  eapply wp_mono; [apply (wp_UpBy2ShortToInt_bounded (shifted B) F3 40 x B); try done; try lia|].
  intros [y s1] (L1 & B1 & G1).
  apply (wp_stage_32To22 (up_level B) 5); try done; try lia.
  intros mem1 s2 L2 G2 B2. apply wp_bind.
  eapply wp_mono; [apply (wp_UpBy2IntToShort_wide _ F6 55 mem1); try done; lia|].
  intros [out s3] (L3 & B3 & G3). apply wp_ret.
  split; [done|]. split; [done|]. split; [by constructor|lia].
Qed.

Lemma wp_step_16To22 B L x st mem :
  up22_fits B = true -> (88 <= L)%nat ->
  bounded B x -> (40 <= length x)%nat -> r16to22_ok B st -> length mem = L ->
  wp (step_16To22 x st mem) (fun '(out, st', mem') =>
    samples16 out /\ length out = 55%nat /\ r16to22_ok B st' /\ length mem' = L).
Proof.
  intros Hfit HL Hx Lx [H1 H2] Lm. unfold up22_fits in Hfit.
  rewrite !andb_true_iff, !Z.leb_le in Hfit. destruct Hfit as [[[[F1 F2] F3] F4] F5].
  unfold step_16To22. apply wp_bind.
  eapply wp_mono; [apply (wp_UpBy2ShortToInt_bounded (shifted B) F3 40 x B); try done; try lia|].
  intros [y s1] (L1 & B1 & G1). change (2 * 40)%nat with 80%nat in L1. rewrite <- L1.
  apply (wp_history (up_level B) 0); try done; try lia.
  intros mem1 s2 L2 G2 Hw. apply wp_bind. eapply wp_mono.
  { apply (wp_32khzTo22khzIntToShort (up_level B) mem1 0 5); [lia|lia|].
    by eapply within_take; [|exact Hw]; lia. }
  intros out [O1 O2]. apply wp_ret.
  split; [done|]. split; [done|]. split; [by constructor|lia].
Qed.

(** * Theorems *)

(** The four fractional filters (2/3, 3/4, 8/11, 11/16) work in place: with the
    output in the same buffer at or below the input (8 and 10 words below for the
    last two; the callers use a distance of 8, 10 and 16), every output is the exact
    convolution of the original input with its row of coefficients plus the
    rounding offset, even where the output overwrites the input of the same block;
    nothing else in the buffer changes, and nothing overflows for inputs up to 47000
    (39000 for the last two) in magnitude. *)
Lemma fractional_in_place mem (i o K : nat) :
  ((o <= i)%nat -> (i + 3 * K + 6 <= length mem)%nat -> within 47000 (drop i mem) ->
   WebRtcSpl_Resample48khzTo32khz mem (Z.of_nat i) (Z.of_nat o) K =
   Ok (take o mem ++ block_values filter_48To32 K (drop i mem) ++ drop (o + 2 * K) mem)) /\
  ((o <= i)%nat -> (i + 4 * K + 6 <= length mem)%nat -> within 47000 (drop i mem) ->
   WebRtcSpl_Resample32khzTo24khz mem (Z.of_nat i) (Z.of_nat o) K =
   Ok (take o mem ++ block_values filter_32To24 K (drop i mem) ++ drop (o + 3 * K) mem)) /\
  ((o + 8 <= i)%nat -> (i + 11 * K + 7 <= length mem)%nat -> within 39000 (drop i mem) ->
   WebRtcSpl_Resample44khzTo32khz mem (Z.of_nat i) (Z.of_nat o) K =
   Ok (take o mem ++ block_values filter_44To32 K (drop i mem) ++ drop (o + 8 * K) mem)) /\
  ((o + 10 <= i)%nat -> (i + 16 * K + 7 <= length mem)%nat -> within 39000 (drop i mem) ->
   WebRtcSpl_32khzTo22khzIntToInt mem (Z.of_nat i) (Z.of_nat o) K =
   Ok (take o mem ++ block_values filter_32To22 K (drop i mem) ++ drop (o + 11 * K) mem)).
Proof.
  assert (in_place : forall f M N, fractional_ok f M N -> (o + f_gap f <= i)%nat ->
    (i + reach f K <= length mem)%nat -> within M (drop i mem) ->
    blocks (f_block f) (f_in f) (f_out f) K mem (Z.of_nat i) (Z.of_nat o) =
    Ok (take o mem ++ block_values f K (drop i mem) ++ drop (o + f_out f * K) mem)).
  { intros f M N Hf Ho Hl Hx. apply (blocks_in_place f M N Hf); [done|done|by apply Forall_take]. }
  split_and!; intros Ho Hl Hx;
    [eapply (in_place _ _ _ (filter_48To32_ok 47000 ltac:(lia)))
    |eapply (in_place _ _ _ (filter_32To24_ok 47000 ltac:(lia)))
    |eapply (in_place _ _ _ (filter_44To32_ok 39000 ltac:(lia)))
    |eapply (in_place _ _ _ (filter_32To22_ok 39000 ltac:(lia)))];
    try done; try (cbn; lia); destruct K; cbn; lia.
Qed.

(** The resamplers from and to 22 kHz are free of overflow and of accesses
    outside the temporary memory (104, 88, 126 and 98 words, whatever they held
    before) on any stream of blocks of 10 ms whose samples are bounded by 400 (22 to
    16 kHz), 4660 (16 to 22), 520 (22 to 8) and 400 (8 to 22), from the state that
    the reset functions establish: they return 160, 220, 80 and 220 samples of 16
    bits and keep the invariant of their state. *)
Lemma resample_22khz_total mem :
  ((104 <= length mem)%nat -> r22to16_ok 400 WebRtcSpl_ResetResample22khzTo16khz /\ forall x st,
     bounded 400 x -> length x = 220%nat -> r22to16_ok 400 st ->
     exists out st' mem', WebRtcSpl_Resample22khzTo16khz x st mem = Ok (out, st', mem') /\
       samples16 out /\ length out = 160%nat /\ r22to16_ok 400 st' /\ length mem' = length mem) /\
  ((88 <= length mem)%nat -> r16to22_ok 4660 WebRtcSpl_ResetResample16khzTo22khz /\ forall x st,
     bounded 4660 x -> length x = 160%nat -> r16to22_ok 4660 st ->
     exists out st' mem', WebRtcSpl_Resample16khzTo22khz x st mem = Ok (out, st', mem') /\
       samples16 out /\ length out = 220%nat /\ r16to22_ok 4660 st' /\ length mem' = length mem) /\
  ((126 <= length mem)%nat -> r22to8_ok 520 WebRtcSpl_ResetResample22khzTo8khz /\ forall x st,
     bounded 520 x -> length x = 220%nat -> r22to8_ok 520 st ->
     exists out st' mem', WebRtcSpl_Resample22khzTo8khz x st mem = Ok (out, st', mem') /\
       samples16 out /\ length out = 80%nat /\ r22to8_ok 520 st' /\ length mem' = length mem) /\
  ((98 <= length mem)%nat -> r8to22_ok 400 WebRtcSpl_ResetResample8khzTo22khz /\ forall x st,
     bounded 400 x -> length x = 80%nat -> r8to22_ok 400 st ->
     exists out st' mem', WebRtcSpl_Resample8khzTo22khz x st mem = Ok (out, st', mem') /\
       samples16 out /\ length out = 220%nat /\ r8to22_ok 400 st' /\ length mem' = length mem).
Proof.
  split_and!; intros Lm; (split;
    [constructor; (apply bank_zero || apply lowpass_zero || apply history_zero); vm_compute; done|]);
    intros x st Hx Lx Hst; apply wp_triple.
  - apply (wp_sub_blocks (r22to16_ok 400) 400 5 44 32); try done; [|lia].
    intros. by apply (wp_step_22To16 400 (length mem)); [lia|vm_compute|..].
  - apply (wp_sub_blocks (r16to22_ok 4660) 4660 4 40 55); try done; [|lia].
    intros. by apply (wp_step_16To22 4660 (length mem)).
  - apply (wp_sub_blocks (r22to8_ok 520) 520 2 110 40); try done; [|lia].
    intros. by apply (wp_step_22To8 520 (length mem)); [lia|vm_compute|..].
  - apply (wp_sub_blocks (r8to22_ok 400) 400 2 40 110); try done; [|lia].
    intros. by apply (wp_step_8To22 400 (length mem)).
Qed.

