(* ===== verification/ResampleShapes.v ===== *)
(** * The shapes of the resamplers

    What the callers of the resampling routines rely on whatever the samples are: a
    call on enough input and on states of the right size returns the fixed number
    of 16-bit samples and states of the same size, or a filter overflows.  (That
    the filters do not overflow on bounded input is shown with the filters.) *)
From S2P Require Import Prelude CInt Spl Resample HalfBand Resample48 Resample22.

(** ** By two *)

Lemma upto_MUL_ACCUM a b c : upto (MUL_ACCUM a b c) (fun _ => True).
Proof.
  unfold MUL_ACCUM, WEBRTC_SPL_SCALEDIFF32, mul32, add32, chk32.
  by repeat (case_match; cbn).
Qed.

Lemma upto_allpass_cascade a0 a1 a2 x s0 s1 s2 s3 :
  upto (allpass_cascade a0 a1 a2 x s0 s1 s2 s3) (fun _ => True).
Proof.
  unfold allpass_cascade.
  repeat (upto_step || (eapply upto_mono; [apply upto_MUL_ACCUM|intros ? _])). done.
Qed.

Lemma load_allpass8_ok fs : length fs = 8%nat -> is_ok (load_allpass8 fs) = true.
Proof. by do 9 (destruct fs as [|? fs]; try done). Qed.

Lemma upto_UpsampleBy2 inp len fs :
  (len <= length inp)%nat -> length fs = 8%nat ->
  upto (WebRtcSpl_UpsampleBy2 inp len fs) (fun '(out, fs') =>
    samples16 out /\ length out = (2 * len)%nat /\ length fs' = 8%nat).
Proof.
  intros Hl Hf. unfold WebRtcSpl_UpsampleBy2.
  pose proof (load_allpass8_ok fs Hf) as Hok. destruct (load_allpass8 fs) as [st|]; [|done].
  apply upto_bind, upto_ret, upto_bind.
  assert (H : upto (upsample_loop len inp st) (fun '(_, out) =>
    samples16 out /\ length out = (2 * len)%nat)).
  { clear Hok Hf fs. revert inp st Hl. induction len as [|n IH]; intros inp st Hl; [by repeat constructor|].
    cbn [upsample_loop]. upto_step. upto_step. unfold upsample_sample.
    repeat upto_step. eapply upto_mono; [apply upto_allpass_cascade|]. intros [[[s0 s1] s2] s3] _.
    repeat upto_step. eapply upto_mono; [apply upto_allpass_cascade|]. intros [[[s4 s5] s6] s7] _.
    repeat upto_step. eapply upto_mono; [apply IH; rewrite length_drop; lia|].
    intros [st' os] [H1 H2]. upto_step. split; [|cbn; lia].
    by repeat (constructor; [apply sat_i16|]). }
  eapply upto_mono; [exact H|]. intros [st' out] [H1 H2]. upto_step.
  split_and!; [done|done|]. unfold store_allpass8. rewrite length_app, length_drop. cbn. lia.
Qed.

Lemma upto_DownsampleBy2 inp len fs :
  (2 * (len / 2) <= length inp)%nat -> length fs = 8%nat ->
  upto (WebRtcSpl_DownsampleBy2 inp len fs) (fun '(out, fs') =>
    samples16 out /\ length out = (len / 2)%nat /\ length fs' = 8%nat).
Proof.
  intros Hl Hf. unfold WebRtcSpl_DownsampleBy2.
  pose proof (load_allpass8_ok fs Hf) as Hok. destruct (load_allpass8 fs) as [st|]; [|done].
  apply upto_bind, upto_ret, upto_bind. generalize dependent (len / 2)%nat. intros n Hl.
  assert (H : upto (downsample_loop n inp st) (fun '(_, out) =>
    samples16 out /\ length out = n)).
  { clear Hok Hf fs. revert inp st Hl. induction n as [|n IH]; intros inp st Hl; [by repeat constructor|].
    cbn [downsample_loop]. upto_step. upto_step. upto_step. upto_step. unfold downsample_sample.
    repeat upto_step. eapply upto_mono; [apply upto_allpass_cascade|]. intros [[[s0 s1] s2] s3] _.
    repeat upto_step. eapply upto_mono; [apply upto_allpass_cascade|]. intros [[[s4 s5] s6] s7] _.
    repeat upto_step. eapply upto_mono; [apply IH; rewrite length_drop; lia|].
    intros [st' os] [H1 H2]. upto_step. split; [|cbn; lia].
    constructor; [apply sat_i16|done]. }
  eapply upto_mono; [exact H|]. intros [st' out] [H1 H2]. upto_step.
  split_and!; [done|done|]. unfold store_allpass8. rewrite length_app, length_drop. cbn. lia.
Qed.

(** ** Half-band filters *)

Definition shape_ok (f : Z -> regs -> res regs) : Prop := forall x s, upto (f x s) (fun _ => True).

Lemma upto_cascade c0 c1 c2 : shape_ok (cascade c0 c1 c2).
Proof. intros x s. unfold cascade, scale_round. repeat upto_step. done. Qed.

Lemma upto_run_filter f xs s :
  shape_ok f -> upto (run_filter f xs s) (fun '(ys, _) => length ys = length xs).
Proof.
  intros Hf. revert s. induction xs as [|x xs IH]; intros s; [done|].
  cbn [run_filter]. upto_step. eapply upto_mono; [apply Hf|]. intros s1 _. upto_step.
  eapply upto_mono; [apply IH|]. intros [ys s2] H. upto_step. cbn. lia.
Qed.

Lemma upto_stride2 n x :
  (2 * n <= S (length x))%nat -> upto (stride2 n x) (fun xs => length xs = n).
Proof.
  intros H. apply upto_wp. revert x H. induction n as [|n IH]; intros x H; [done|].
  cbn [stride2]. apply wp_bind, wp_rd; [unfold zlen; lia|]. intros v _.
  apply wp_bind. eapply wp_mono; [apply IH; rewrite length_drop; lia|]. intros xs <-. done.
Qed.

Lemma upto_widen_all xs : upto (widen_all xs) (fun ys => length ys = length xs).
Proof.
  induction xs as [|x xs IH]; [done|]. cbn [widen_all]. upto_step. unfold widen. upto_step.
  change (shl32 x 15) with (chk32 (Z.shiftl x 15)). repeat upto_step.
  eapply upto_mono; [exact IH|]. intros ys H; cbv beta in *. upto_step. cbn. lia.
Qed.

Lemma upto_load_regs state k :
  0 <= k -> k + 4 <= zlen state -> upto (load_regs state k) (fun _ => True).
Proof. intros Hk Hl. unfold load_regs. unfold zlen in Hl. repeat upto_step. done. Qed.

Lemma upto_average_halves lo up :
  length lo = length up -> upto (average_halves lo up) (fun ys => length ys = length lo).
Proof.
  revert up. induction lo as [|a lo IH]; intros [|b up] H; try done.
  cbn [average_halves]. upto_step. upto_step. upto_step.
  eapply upto_mono; [apply IH; cbn in H; lia|]. intros ys Hy. cbv beta in Hy. upto_step. cbn. lia.
Qed.

Lemma upto_take_exact {A} n (l : list A) :
  (n <= length l)%nat -> upto (take_exact n l) (fun x => length x = n).
Proof. intros H. apply upto_wp, wp_take_exact; [done|]. rewrite length_take. lia. Qed.

Lemma upto_interpolate x state :
  length state = 8%nat ->
  upto (interpolate x state) (fun '(up, lo, state') =>
    length up = length x /\ length lo = length x /\ length state' = 8%nat).
Proof.
  intros Hs. unfold interpolate. upto_step.
  eapply upto_mono; [apply upto_load_regs; unfold zlen; lia|]. intros u _. upto_step.
  eapply upto_mono; [apply upto_run_filter, upto_cascade|]. intros [up u'] H1. upto_step.
  eapply upto_mono; [apply upto_load_regs; unfold zlen; lia|]. intros s _. upto_step.
  eapply upto_mono; [apply upto_run_filter, upto_cascade|]. intros [lo s'] H2. upto_step.
  split_and!; [done|done|]. rewrite !length_app, length_drop. cbn. lia.
Qed.

Lemma upto_UpBy2ShortToInt inp len state :
  (len <= length inp)%nat -> length state = 8%nat ->
  upto (WebRtcSpl_UpBy2ShortToInt inp len state) (fun '(out, state') =>
    length out = (2 * len)%nat /\ length state' = 8%nat).
Proof.
  intros Hl Hs. unfold WebRtcSpl_UpBy2ShortToInt. upto_step.
  eapply upto_mono; [by apply upto_take_exact|]. intros x Hx; cbv beta in *. upto_step.
  eapply upto_mono; [apply upto_widen_all|]. intros y Hy; cbv beta in *. upto_step.
  eapply upto_mono; [by apply upto_interpolate|]. intros [[up lo] s'] (H1 & H2 & H3). upto_step.
  rewrite zip2_length by (rewrite !length_map; lia). rewrite length_map. split; [lia|done].
Qed.

Lemma upto_UpBy2IntToShort inp len state :
  (len <= length inp)%nat -> length state = 8%nat ->
  upto (WebRtcSpl_UpBy2IntToShort inp len state) (fun '(out, state') =>
    samples16 out /\ length out = (2 * len)%nat /\ length state' = 8%nat).
Proof.
  intros Hl Hs. unfold WebRtcSpl_UpBy2IntToShort. upto_step.
  eapply upto_mono; [by apply upto_take_exact|]. intros x Hx; cbv beta in *. upto_step.
  eapply upto_mono; [by apply upto_interpolate|]. intros [[up lo] s'] (H1 & H2 & H3). upto_step.
  rewrite zip2_length by (rewrite !length_map; lia). rewrite length_map.
  split_and!; [|lia|done].
  apply zip2_Forall; apply Forall_map, Forall_true; intros; apply saturate_i16.
Qed.

Lemma upto_combine_short n inp :
  (4 * n <= length inp)%nat ->
  upto (combine_short (2 * n) inp) (fun out => samples16 out /\ length out = (2 * n)%nat).
Proof.
  revert inp. induction n as [|n IH]; intros inp Hl; [by repeat constructor|].
  replace (2 * S n)%nat with (S (S (2 * n))) by lia. cbn [combine_short Nat.pred].
  repeat upto_step. eapply upto_mono; [apply IH; rewrite length_drop; lia|].
  intros out [H1 H2]. upto_step. split; [|cbn; lia].
  by repeat (constructor; [apply saturate_i16|]).
Qed.

Lemma upto_DownBy2IntToShort n inp state :
  (4 * n <= length inp)%nat -> length state = 8%nat ->
  upto (WebRtcSpl_DownBy2IntToShort inp (4 * n) state) (fun '(inp', out, state') =>
    length inp' = length inp /\ samples16 out /\ length out = (2 * n)%nat /\
    length state' = 8%nat).
Proof.
  intros Hl Hs. unfold WebRtcSpl_DownBy2IntToShort.
  replace (4 * n / 2)%nat with (2 * n)%nat
    by (replace (4 * n)%nat with (2 * n * 2)%nat by lia; by rewrite Nat.div_mul).
  upto_step. eapply upto_mono; [apply upto_load_regs; unfold zlen; lia|]. intros s _. upto_step.
  eapply upto_mono; [apply upto_stride2; lia|]. intros even He. cbv beta in *. upto_step.
  eapply upto_mono; [apply upto_run_filter, upto_cascade|]. intros [lo s'] H1. upto_step.
  eapply upto_mono; [apply upto_load_regs; unfold zlen; lia|]. intros u _. upto_step.
  eapply upto_mono; [apply upto_stride2; rewrite length_drop; lia|]. intros odd Ho. cbv beta in *.
  upto_step. eapply upto_mono; [apply upto_run_filter, upto_cascade|]. intros [up u'] H2.
  cbv zeta. upto_step.
  assert (Lz : length (zip2 (halve lo) (halve up)) = (4 * n)%nat).
  { unfold halve. rewrite zip2_length, length_map by (rewrite !length_map; lia). lia. }
  eapply upto_mono; [apply (upto_combine_short n); rewrite length_app, Lz; lia|].
  intros out [H3 H4]. upto_step. split_and!; [|done|done|].
  - rewrite length_app, Lz, length_drop. lia.
  - rewrite !length_app, length_drop. cbn. lia.
Qed.

Lemma upto_lowpass even odd state :
  length even = length odd -> length state = 16%nat ->
  upto (lowpass even odd state) (fun '(out, state') =>
    length out = (2 * length even)%nat /\ length state' = 16%nat).
Proof.
  intros Hl Hs. unfold lowpass.
  assert (Ld : forall d, length (delayed d odd) = length odd)
    by (intros; unfold delayed; rewrite length_take; cbn; lia).
  upto_step. eapply upto_mono; [apply upto_load_regs; unfold zlen; lia|]. intros a _.
  upto_step. upto_step. upto_step.
  eapply upto_mono; [apply upto_run_filter, upto_cascade|]. intros [lo a'] H1. rewrite Ld in H1.
  upto_step. eapply upto_mono; [apply upto_load_regs; unfold zlen; lia|]. intros b _. upto_step.
  eapply upto_mono; [apply upto_run_filter, upto_cascade|]. intros [up b'] H2. upto_step.
  eapply upto_mono; [apply upto_average_halves; lia|]. intros evens H3. cbv beta in *.
  upto_step. eapply upto_mono; [apply upto_load_regs; unfold zlen; lia|]. intros c _. upto_step.
  eapply upto_mono; [apply upto_run_filter, upto_cascade|]. intros [lo2 c'] H4. upto_step.
  eapply upto_mono; [apply upto_load_regs; unfold zlen; lia|]. intros e _. upto_step.
  eapply upto_mono; [apply upto_run_filter, upto_cascade|]. intros [up2 e'] H5. upto_step.
  eapply upto_mono; [apply upto_average_halves; lia|]. intros odds H6. cbv beta in *. upto_step.
  rewrite zip2_length by lia. split; [lia|]. rewrite !length_app, length_drop. cbn. lia.
Qed.

Lemma upto_LPBy2ShortToInt n inp state :
  (2 * n <= length inp)%nat -> length state = 16%nat ->
  upto (WebRtcSpl_LPBy2ShortToInt inp (2 * n) state) (fun '(out, state') =>
    length out = (2 * n)%nat /\ length state' = 16%nat).
Proof.
  intros Hl Hs. unfold WebRtcSpl_LPBy2ShortToInt.
  replace (2 * n / 2)%nat with n by (rewrite Nat.mul_comm; by rewrite Nat.div_mul).
  upto_step. eapply upto_mono; [apply upto_stride2; rewrite length_drop; lia|].
  intros odd Ho. cbv beta in *. upto_step.
  eapply upto_mono; [apply upto_widen_all|]. intros odd' Ho'. cbv beta in *. upto_step.
  eapply upto_mono; [apply upto_stride2; lia|]. intros even He. cbv beta in *. upto_step.
  eapply upto_mono; [apply upto_widen_all|]. intros even' He'. cbv beta in *.
  eapply upto_mono; [apply upto_lowpass; [lia|done]|]. intros [out s'] [H1 H2]. split; [lia|done].
Qed.

(** ** Fractional filters *)

Lemma upto_wr (mem : list Z) i v (Q : list Z -> Prop) :
  0 <= i < zlen mem -> (forall m, length m = length mem -> Q m) -> upto (wr mem i v) Q.
Proof. intros Hi HQ. apply upto_wp, wp_wr; [done|]. apply HQ. apply length_insert. Qed.

Lemma upto_fir_sum coefs mem pos tmp :
  0 <= pos -> pos + zlen coefs <= zlen mem -> upto (fir_sum coefs mem pos tmp) (fun _ => True).
Proof.
  unfold zlen. revert pos tmp. induction coefs as [|c coefs IH]; intros pos tmp Hp Hl; [done|].
  cbn [length] in Hl. cbn [fir_sum]. repeat upto_step. apply IH; lia.
Qed.

Lemma upto_fir_rows rows mem inp outp :
  Forall (fun c => length c = 8%nat) rows -> 0 <= inp -> 0 <= outp ->
  inp + zlen rows + 7 <= zlen mem -> outp + zlen rows <= zlen mem ->
  upto (fir_rows rows mem inp outp) (fun m => length m = length mem).
Proof.
  unfold zlen. intros Hr. revert mem inp outp.
  induction Hr as [|c rows Hc Hr IH]; intros mem inp outp Hi Ho H1 H2; [done|].
  cbn [length] in *. cbn [fir_rows]. upto_step.
  eapply upto_mono; [apply upto_fir_sum; unfold zlen; lia|]. intros t _. upto_step.
  apply upto_wr; [unfold zlen; lia|]. intros m Hm. rewrite <- Hm. apply IH; lia.
Qed.

Lemma upto_dot_sums coefs mem in1 in2 t1 t2 :
  0 <= in1 -> in1 + zlen coefs <= zlen mem -> zlen coefs - 1 <= in2 < zlen mem ->
  upto (dot_sums coefs mem in1 in2 t1 t2) (fun _ => True).
Proof.
  unfold zlen. revert in1 in2 t1 t2.
  induction coefs as [|c coefs IH]; intros in1 in2 t1 t2 H1 H2 H3; [done|].
  cbn [length] in *. cbn [dot_sums]. repeat upto_step.
  destruct coefs; [done|]. apply IH; cbn [length] in *; lia.
Qed.

Lemma upto_dot_product mem in1 in2 coefs out1 out2 :
  length coefs = 9%nat -> 0 <= in1 -> in1 + 9 <= zlen mem -> 8 <= in2 < zlen mem ->
  0 <= out1 < zlen mem -> 0 <= out2 < zlen mem ->
  upto (dot_product mem in1 in2 coefs out1 out2) (fun m => length m = length mem).
Proof.
  unfold zlen. intros Hc H1 H2 H3 H4 H5. unfold dot_product. upto_step.
  eapply upto_mono; [apply upto_dot_sums; unfold zlen; rewrite ?length_take; lia|].
  intros [t1 t2] _. repeat upto_step.
  apply upto_wr; [unfold zlen; lia|]. intros m Hm. repeat upto_step.
  apply upto_wr; [unfold zlen; lia|]. intros m' Hm'. lia.
Qed.

(** A block reads [need] samples from the input position and writes [nout] words. *)
Definition block_shape (block : list Z -> Z -> Z -> res (list Z)) (need nout : nat) : Prop :=
  forall mem inp outp, 0 <= inp -> 0 <= outp -> inp + Z.of_nat need <= zlen mem ->
    outp + Z.of_nat nout <= zlen mem -> upto (block mem inp outp) (fun m => length m = length mem).

Lemma rows_shape rows :
  Forall (fun c => length c = 8%nat) rows ->
  block_shape (fir_rows rows) (length rows + 7) (length rows).
Proof. intros Hr mem inp outp H1 H2 H3 H4. apply upto_fir_rows; unfold zlen in *; auto; lia. Qed.

Lemma upto_copy_sample mem inp outp :
  0 <= inp -> inp + 4 <= zlen mem -> 0 <= outp < zlen mem ->
  upto (copy_sample mem inp outp) (fun m => length m = length mem).
Proof.
  intros H1 H2 H3. unfold copy_sample, zlen in *. upto_step. upto_step. unfold widen.
  upto_step. upto_step.
  lazymatch goal with |- upto (shl32 ?x 15) _ => change (shl32 x 15) with (chk32 (Z.shiftl x 15)) end.
  repeat upto_step. by apply upto_wr.
Qed.

(** One symmetric pair in a memory of the length of [mem]. *)
Ltac dot_step :=
  eapply upto_mono;
    [apply upto_dot_product; [reflexivity|unfold zlen in *; lia..]|];
  let m := fresh "m" in let H := fresh "Hm" in intros m H; cbv beta in H.

Lemma block_44To32_shape : block_shape block_44To32 18 8.
Proof.
  intros mem inp outp H1 H2 H3 H4. unfold block_44To32, WebRtcSpl_ResampDotProduct.
  change (rd kCoefficients44To32 3) with (Ok (row44 3)).
  change (rd kCoefficients44To32 0) with (Ok (row44 0)).
  change (rd kCoefficients44To32 1) with (Ok (row44 1)).
  change (rd kCoefficients44To32 2) with (Ok (row44 2)).
  upto_step. eapply upto_mono; [apply upto_copy_sample; unfold zlen in *; lia|].
  intros m0 Hm0. cbv beta in Hm0. repeat upto_step.
  eapply upto_mono; [apply upto_fir_sum; [lia|change (zlen (row44 3)) with 9; unfold zlen in *; lia]|]. intros t _.
  upto_step. apply upto_wr; [unfold zlen in *; lia|]. intros m1 Hm1.
  do 2 upto_step. upto_step. dot_step. do 2 upto_step. upto_step. dot_step. do 2 upto_step.
  dot_step. lia.
Qed.

Lemma block_32To22_shape : block_shape block_32To22 23 11.
Proof.
  intros mem inp outp H1 H2 H3 H4. unfold block_32To22, WebRtcSpl_DotProdIntToInt.
  change (rd kCoefficients32To22 0) with (Ok (row32 0)).
  change (rd kCoefficients32To22 1) with (Ok (row32 1)).
  change (rd kCoefficients32To22 2) with (Ok (row32 2)).
  change (rd kCoefficients32To22 3) with (Ok (row32 3)).
  change (rd kCoefficients32To22 4) with (Ok (row32 4)).
  upto_step. eapply upto_mono; [apply upto_copy_sample; unfold zlen in *; lia|].
  intros m0 Hm0. cbv beta in Hm0.
  do 4 (do 3 upto_step; dot_step). do 2 upto_step. dot_step. lia.
Qed.

Lemma upto_blocks block need nin nout K mem inp outp :
  block_shape block need nout -> (nout <= nin <= need)%nat -> 0 <= inp -> 0 <= outp <= inp ->
  inp + Z.of_nat (nin * K + need - nin) <= zlen mem ->
  upto (blocks block nin nout K mem inp outp) (fun m => length m = length mem).
Proof.
  intros Hb Hn. revert mem inp outp. induction K as [|K IH]; intros mem inp outp H1 H2 H3; [done|].
  cbn [blocks]. upto_step.
  eapply upto_mono; [apply Hb; unfold zlen in *; nia|].
  intros m Hm. cbv beta in Hm. rewrite <- Hm. apply IH; unfold zlen in *; nia.
Qed.

Lemma upto_dot_short mem in1 in2 c :
  length c = 9%nat -> 0 <= in1 -> in1 + 9 <= zlen mem -> 8 <= in2 < zlen mem ->
  upto (WebRtcSpl_DotProdIntToShort mem in1 in2 c) (fun '(o1, o2) => i16 o1 /\ i16 o2).
Proof.
  intros Hc H1 H2 H3. unfold WebRtcSpl_DotProdIntToShort. upto_step.
  eapply upto_mono; [apply upto_dot_sums; unfold zlen in *; lia|]. intros [t1 t2] _. upto_step.
  split; apply saturate_i16.
Qed.

Lemma upto_block_short mem inp :
  0 <= inp -> inp + 23 <= zlen mem ->
  upto (block_32To22_short mem inp) (fun out => samples16 out /\ length out = 11%nat).
Proof.
  unfold zlen. intros H1 H2. unfold block_32To22_short.
  change (rd kCoefficients32To22 0) with (Ok (row32 0)).
  change (rd kCoefficients32To22 1) with (Ok (row32 1)).
  change (rd kCoefficients32To22 2) with (Ok (row32 2)).
  change (rd kCoefficients32To22 3) with (Ok (row32 3)).
  change (rd kCoefficients32To22 4) with (Ok (row32 4)).
  upto_step. upto_step.
  do 5 (do 3 upto_step; eapply upto_mono;
    [apply upto_dot_short; [done|unfold zlen; lia..]|]; intros [? ?] [? ?]).
  upto_step. split; [|done]. repeat (apply Forall_cons; [done || apply saturate_i16|]). done.
Qed.

Lemma upto_32khzTo22khzIntToShort mem inp K :
  0 <= inp -> inp + 16 * Z.of_nat K + 7 <= zlen mem ->
  upto (WebRtcSpl_32khzTo22khzIntToShort mem inp K)
       (fun out => samples16 out /\ length out = (11 * K)%nat).
Proof.
  unfold zlen. revert inp. induction K as [|K IH]; intros inp H1 H2; [by repeat constructor|].
  cbn [WebRtcSpl_32khzTo22khzIntToShort].
  upto_step. eapply upto_mono; [apply upto_block_short; unfold zlen; lia|]. intros o [O1 O2].
  upto_step. eapply upto_mono; [apply IH; lia|]. intros os [P1 P2]. upto_step.
  split; [by apply Forall_app|rewrite length_app; lia].
Qed.

(** ** Memory *)

Lemma upto_store_at p xs mem :
  (p + length xs <= length mem)%nat ->
  upto (store_at p xs mem) (fun m => length m = length mem).
Proof.
  intros H. apply upto_wp. eapply wp_mono; [by apply wp_store_at|]. by intros m [? _].
Qed.

Lemma upto_exchange_history p len S mem :
  length S = 8%nat -> (p + 8 + len <= length mem)%nat ->
  upto (exchange_history p len S mem) (fun '(m, S') => length m = length mem /\ length S' = 8%nat).
Proof.
  intros HS Hl. unfold exchange_history. upto_step.
  eapply upto_mono; [apply upto_store_at; lia|]. intros m Hm. cbv beta in Hm. upto_step.
  unfold load_at. rewrite (proj2 (Nat.leb_le _ _)) by lia. upto_step. upto_step.
  split; [done|]. rewrite length_take, length_drop. lia.
Qed.

(** ** Routines on blocks

    What a resampler promises its callers: from [nin] samples, a state of the right
    shape and [nmem] words of memory it makes [nout] 16-bit samples and a state of
    the right shape, unless a filter overflows. *)
Class BlockRoutine {St : Type} (step : list Z -> St -> list Z -> res (list Z * St * list Z))
    (nin nout nmem : nat) (shape : St -> Prop) : Prop :=
  block_routine x st mem :
    (nin <= length x)%nat -> shape st -> (nmem <= length mem)%nat ->
    upto (step x st mem) (fun '(out, st', mem') =>
      samples16 out /\ length out = nout /\ shape st' /\ length mem' = length mem).

Record shape_48To16 (s : State48khzTo16khz) : Prop := {
  sh48_lp : length (S_48_48 s) = 16%nat; sh48_h : length (S_48_32 s) = 8%nat;
  sh48_d : length (S_32_16 s) = 8%nat }.
Record shape_16To48 (s : State16khzTo48khz) : Prop := {
  sh16_u : length (S_16_32 s) = 8%nat; sh16_h : length (S_32_24 s) = 8%nat;
  sh16_l : length (up_24_48 s) = 8%nat }.
Record shape_22To16 (s : State22khzTo16khz) : Prop := {
  sh2216_u : length (S_22_44 s) = 8%nat; sh2216_h : length (S_44_32 s) = 8%nat;
  sh2216_d : length (last_32_16 s) = 8%nat }.
Record shape_16To22 (s : State16khzTo22khz) : Prop := {
  sh1622_u : length (first_16_32 s) = 8%nat; sh1622_h : length (S_32_22 s) = 8%nat }.
Record shape_22To8 (s : State22khzTo8khz) : Prop := {
  sh228_lp : length (S_22_22 s) = 16%nat; sh228_h : length (S_22_16 s) = 8%nat;
  sh228_d : length (last_16_8 s) = 8%nat }.
Record shape_8To22 (s : State8khzTo22khz) : Prop := {
  sh822_u : length (first_8_16 s) = 8%nat; sh822_h : length (S_16_11 s) = 8%nat;
  sh822_l : length (S_11_22 s) = 8%nat }.

(** A routine on a sub-block, repeated. *)
#[export] Instance sub_blocks_routine {St} (step : list Z -> St -> list Z -> _)
    n nin nout nmem shape :
  BlockRoutine step nin nout nmem shape ->
  BlockRoutine (sub_blocks n nin step) (n * nin) (n * nout) nmem shape.
Proof.
  intros Hstep. unfold BlockRoutine.
  induction n as [|n IH]; intros x st mem Hx Hs Hm; [by repeat constructor|].
  cbn [sub_blocks]. upto_step. eapply upto_mono; [apply Hstep; [lia|done|done]|].
  intros [[out st1] m1] (A1 & A2 & A3 & A4). upto_step.
  eapply upto_mono; [apply IH; [rewrite length_drop; lia|done|lia]|].
  intros [[rest st2] m2] (B1 & B2 & B3 & B4). upto_step.
  split_and!; [by apply Forall_app|rewrite length_app; lia|done|lia].
Qed.

(** The fractional stage: samples behind the history, exchange, filter. *)
Lemma upto_stage {A} block need nin nout K p o S x mem (Q : A -> Prop) k :
  block_shape block need nout -> (nout <= nin <= need)%nat -> (need <= nin + 8)%nat ->
  (o <= p)%nat -> length x = (nin * K)%nat -> (p + 8 + nin * K <= length mem)%nat ->
  length S = 8%nat ->
  (forall mem' S', length mem' = length mem -> length S' = 8%nat -> upto (k mem' S') Q) ->
  upto (mem ← store_at (p + 8) x mem;
        '(mem, S) ← exchange_history p (nin * K) S mem;
        mem ← blocks block nin nout K mem (Z.of_nat p) (Z.of_nat o);
        (k mem S : res A)) Q.
Proof.
  intros Hb Hn Hneed Hop Hx Hl HS Hk. upto_step.
  eapply upto_mono; [apply upto_store_at; lia|]. intros m1 Hm1. cbv beta in Hm1. upto_step.
  eapply upto_mono; [apply upto_exchange_history; [done|lia]|]. intros [m2 S'] [Hm2 HS'].
  upto_step. eapply upto_mono.
  { apply (upto_blocks _ need); [done|done|lia|lia|unfold zlen; nia]. }
  intros m3 Hm3. cbv beta in Hm3. apply Hk; [lia|done].
Qed.

#[export] Instance routine_48To16 :
  BlockRoutine WebRtcSpl_Resample48khzTo16khz 480 160 496 shape_48To16.
Proof.
  intros x st mem Hx [S1 S2 S3] Hm. unfold WebRtcSpl_Resample48khzTo16khz. upto_step.
  eapply upto_mono; [apply (upto_LPBy2ShortToInt 240); done|]. intros [y s1] [L1 G1].
  apply (upto_stage (fir_rows kCoefficients48To32) 9 3 2 160 8 0); try done; try lia.
  { apply rows_shape. by repeat constructor. }
  intros m2 s2 Hm2 G2. upto_step.
  eapply upto_mono; [apply (upto_DownBy2IntToShort 80); [lia|done]|].
  intros [[m3 out] s3] (L3 & B3 & L4 & G3). upto_step. split_and!; [done|done|by constructor|lia].
Qed.

#[export] Instance routine_16To48 :
  BlockRoutine WebRtcSpl_Resample16khzTo48khz 160 480 336 shape_16To48.
Proof.
  intros x st mem Hx [S1 S2 S3] Hm. unfold WebRtcSpl_Resample16khzTo48khz. upto_step.
  eapply upto_mono; [apply (upto_UpBy2ShortToInt x 160); done|]. intros [y s1] [L1 G1].
  apply (upto_stage (fir_rows kCoefficients32To24) 10 4 3 80 8 0); try done; try lia.
  { apply rows_shape. by repeat constructor. }
  intros m2 s2 Hm2 G2. upto_step.
  eapply upto_mono; [apply (upto_UpBy2IntToShort m2 240); [lia|done]|].
  intros [out s3] (B3 & L4 & G3). upto_step. split_and!; [done|done|by constructor|lia].
Qed.

#[local] Instance routine_step_22To16 : BlockRoutine step_22To16 44 32 104 shape_22To16.
Proof.
  intros x st mem Hx [S1 S2 S3] Hm. unfold step_22To16. upto_step.
  eapply upto_mono; [apply (upto_UpBy2ShortToInt x 44); done|]. intros [y s1] [L1 G1].
  apply (upto_stage block_44To32 18 11 8 8 8 0); try done; try lia.
  { apply block_44To32_shape. }
  intros m2 s2 Hm2 G2. upto_step.
  eapply upto_mono; [apply (upto_DownBy2IntToShort 16); [lia|done]|].
  intros [[m3 out] s3] (L3 & B3 & L4 & G3). upto_step. split_and!; [done|done|by constructor|lia].
Qed.

#[export] Instance routine_22To16 :
  BlockRoutine WebRtcSpl_Resample22khzTo16khz 220 160 104 shape_22To16 :=
  sub_blocks_routine step_22To16 5 44 32 104 shape_22To16 routine_step_22To16.

#[local] Instance routine_step_16To22 : BlockRoutine step_16To22 40 55 88 shape_16To22.
Proof.
  intros x st mem Hx [S1 S2] Hm. unfold step_16To22. upto_step.
  eapply upto_mono; [apply (upto_UpBy2ShortToInt x 40); done|]. intros [y s1] [L1 G1]. upto_step.
  eapply upto_mono; [apply (upto_store_at 8); lia|]. intros m1 Hm1. cbv beta in Hm1. upto_step.
  eapply upto_mono; [apply upto_exchange_history; [done|lia]|]. intros [m2 s2] [Hm2 G2]. upto_step.
  eapply upto_mono; [apply upto_32khzTo22khzIntToShort; unfold zlen; lia|].
  intros out [B1 B2]. upto_step. split_and!; [done|done|by constructor|lia].
Qed.

#[export] Instance routine_16To22 :
  BlockRoutine WebRtcSpl_Resample16khzTo22khz 160 220 88 shape_16To22 :=
  sub_blocks_routine step_16To22 4 40 55 88 shape_16To22 routine_step_16To22.

#[local] Instance routine_step_22To8 : BlockRoutine step_22To8 110 40 126 shape_22To8.
Proof.
  intros x st mem Hx [S1 S2 S3] Hm. unfold step_22To8. upto_step.
  eapply upto_mono; [apply (upto_LPBy2ShortToInt 55); done|]. intros [y s1] [L1 G1].
  apply (upto_stage block_44To32 18 11 8 10 8 0); try done; try lia.
  { apply block_44To32_shape. }
  intros m2 s2 Hm2 G2. upto_step.
  eapply upto_mono; [apply (upto_DownBy2IntToShort 20); [lia|done]|].
  intros [[m3 out] s3] (L3 & B3 & L4 & G3). upto_step. split_and!; [done|done|by constructor|lia].
Qed.

#[export] Instance routine_22To8 :
  BlockRoutine WebRtcSpl_Resample22khzTo8khz 220 80 126 shape_22To8 :=
  sub_blocks_routine step_22To8 2 110 40 126 shape_22To8 routine_step_22To8.

#[local] Instance routine_step_8To22 : BlockRoutine step_8To22 40 110 98 shape_8To22.
Proof.
  intros x st mem Hx [S1 S2 S3] Hm. unfold step_8To22. upto_step.
  eapply upto_mono; [apply (upto_UpBy2ShortToInt x 40); done|]. intros [y s1] [L1 G1].
  apply (upto_stage block_32To22 23 16 11 5 10 0); try done; try lia.
  { apply block_32To22_shape. }
  intros m2 s2 Hm2 G2. upto_step.
  eapply upto_mono; [apply (upto_UpBy2IntToShort m2 55); [lia|done]|].
  intros [out s3] (B3 & L4 & G3). upto_step. split_and!; [done|done|by constructor|lia].
Qed.

#[export] Instance routine_8To22 :
  BlockRoutine WebRtcSpl_Resample8khzTo22khz 80 220 98 shape_8To22 :=
  sub_blocks_routine step_8To22 2 40 110 98 shape_8To22 routine_step_8To22.
