(* ===== verification/Resampler.v ===== *)
(** * The resampler class

    [common_audio/resampler/resampler.cc]: a mode for each supported ratio of
    sampling rates, the states that a mode needs, and [Push], which checks the sizes
    of its buffers and runs the filters of [Resample], [Resample48] and
    [Resample22] over the blocks.  A stereo resampler owns two mono ones.

    Lengths are [nat]: a [size_t] does not wrap for any array that exists.  [malloc]
    succeeds; what the memory holds then is the parameter [garbage]. *)
From S2P Require Import Prelude CInt Spl Resample HalfBand Resample48 Resample22 ResampleShapes.
From Stdlib Require Import ZifyNat.

Inductive ResamplerMode : Set :=
| kResamplerMode1To1 | kResamplerMode1To2 | kResamplerMode1To3 | kResamplerMode1To4
| kResamplerMode1To6 | kResamplerMode1To12 | kResamplerMode2To3 | kResamplerMode2To11
| kResamplerMode4To11 | kResamplerMode8To11 | kResamplerMode11To16 | kResamplerMode11To32
| kResamplerMode2To1 | kResamplerMode3To1 | kResamplerMode4To1 | kResamplerMode6To1
| kResamplerMode12To1 | kResamplerMode3To2 | kResamplerMode11To2 | kResamplerMode11To4
| kResamplerMode11To8.

#[export] Instance mode_eq_dec : EqDecision ResamplerMode.
Proof. solve_decision. Defined.

(** ** The mode of a pair of rates *)

(** [while (c != 0) { a = b; b = c; c = a % b; }]; [|b|] decreases. *)
Fixpoint euclid (fuel : nat) (b c : Z) : res Z :=
  match fuel with
  | O => Fault OutOfFuel
  | S fuel' => if c =? 0 then Ok b else (c' ← rem32 b c; euclid fuel' c c')
  end.

(** [None] is the return value -1. *)
Definition ComputeResamplerMode (in_freq_hz out_freq_hz : Z) : res (option ResamplerMode) :=
  c ← rem32 in_freq_hz out_freq_hz;
  b ← euclid (S (Z.abs_nat c)) out_freq_hz c;
  reduced_in_freq ← div32 in_freq_hz b;
  reduced_out_freq ← div32 out_freq_hz b;
  Ok (if reduced_in_freq =? reduced_out_freq then Some kResamplerMode1To1
      else if reduced_in_freq =? 1 then
        if reduced_out_freq =? 2 then Some kResamplerMode1To2
        else if reduced_out_freq =? 3 then Some kResamplerMode1To3
        else if reduced_out_freq =? 4 then Some kResamplerMode1To4
        else if reduced_out_freq =? 6 then Some kResamplerMode1To6
        else if reduced_out_freq =? 12 then Some kResamplerMode1To12
        else None
      else if reduced_out_freq =? 1 then
        if reduced_in_freq =? 2 then Some kResamplerMode2To1
        else if reduced_in_freq =? 3 then Some kResamplerMode3To1
        else if reduced_in_freq =? 4 then Some kResamplerMode4To1
        else if reduced_in_freq =? 6 then Some kResamplerMode6To1
        else if reduced_in_freq =? 12 then Some kResamplerMode12To1
        else None
      else if (reduced_in_freq =? 2) && (reduced_out_freq =? 3) then Some kResamplerMode2To3
      else if (reduced_in_freq =? 2) && (reduced_out_freq =? 11) then Some kResamplerMode2To11
      else if (reduced_in_freq =? 4) && (reduced_out_freq =? 11) then Some kResamplerMode4To11
      else if (reduced_in_freq =? 8) && (reduced_out_freq =? 11) then Some kResamplerMode8To11
      else if (reduced_in_freq =? 3) && (reduced_out_freq =? 2) then Some kResamplerMode3To2
      else if (reduced_in_freq =? 11) && (reduced_out_freq =? 2) then Some kResamplerMode11To2
      else if (reduced_in_freq =? 11) && (reduced_out_freq =? 4) then Some kResamplerMode11To4
      else if (reduced_in_freq =? 11) && (reduced_out_freq =? 16) then Some kResamplerMode11To16
      else if (reduced_in_freq =? 11) && (reduced_out_freq =? 32) then Some kResamplerMode11To32
      else if (reduced_in_freq =? 11) && (reduced_out_freq =? 8) then Some kResamplerMode11To8
      else None).

(** ** States *)

(** What a [void*] state points to: nothing, the eight words of a filter by two, or
    the state of a fractional resampler. *)
Inductive state_block :=
| null_state
| words (w : list Z)
| state_16To48 (s : State16khzTo48khz)
| state_48To16 (s : State48khzTo16khz)
| state_8To22 (s : State8khzTo22khz)
| state_16To22 (s : State16khzTo22khz)
| state_22To8 (s : State22khzTo8khz)
| state_22To16 (s : State22khzTo16khz).

Record states := MkStates { state1_ : state_block; state2_ : state_block; state3_ : state_block }.

(** The casts of the pointers; a null pointer (or one of another type) is not
    dereferenced. *)
Definition as_words (b : state_block) : res (list Z) :=
  match b with words w => Ok w | _ => Fault NullPointer end.
Definition as_16To48 (b : state_block) : res State16khzTo48khz :=
  match b with state_16To48 s => Ok s | _ => Fault NullPointer end.
Definition as_48To16 (b : state_block) : res State48khzTo16khz :=
  match b with state_48To16 s => Ok s | _ => Fault NullPointer end.
Definition as_8To22 (b : state_block) : res State8khzTo22khz :=
  match b with state_8To22 s => Ok s | _ => Fault NullPointer end.
Definition as_16To22 (b : state_block) : res State16khzTo22khz :=
  match b with state_16To22 s => Ok s | _ => Fault NullPointer end.
Definition as_22To8 (b : state_block) : res State22khzTo8khz :=
  match b with state_22To8 s => Ok s | _ => Fault NullPointer end.
Definition as_22To16 (b : state_block) : res State22khzTo16khz :=
  match b with state_22To16 s => Ok s | _ => Fault NullPointer end.

Definition zero_words : state_block := words (replicate 8 0).
Definition new_16To48 : state_block := state_16To48 WebRtcSpl_ResetResample16khzTo48khz.
Definition new_48To16 : state_block := state_48To16 WebRtcSpl_ResetResample48khzTo16khz.
Definition new_8To22 : state_block := state_8To22 WebRtcSpl_ResetResample8khzTo22khz.
Definition new_16To22 : state_block := state_16To22 WebRtcSpl_ResetResample16khzTo22khz.
Definition new_22To8 : state_block := state_22To8 WebRtcSpl_ResetResample22khzTo8khz.
Definition new_22To16 : state_block := state_22To16 WebRtcSpl_ResetResample22khzTo16khz.

(** The switch of [Reset]; the pointers it does not assign are null. *)
Definition create_states (mode : ResamplerMode) : states :=
  match mode with
  | kResamplerMode1To1 => MkStates null_state null_state null_state
  | kResamplerMode1To2 => MkStates zero_words null_state null_state
  | kResamplerMode1To3 => MkStates new_16To48 null_state null_state
  | kResamplerMode1To4 => MkStates zero_words zero_words null_state
  | kResamplerMode1To6 => MkStates zero_words new_16To48 null_state
  | kResamplerMode1To12 => MkStates zero_words zero_words new_16To48
  | kResamplerMode2To3 => MkStates new_16To48 zero_words null_state
  | kResamplerMode2To11 => MkStates zero_words new_8To22 null_state
  | kResamplerMode4To11 => MkStates new_8To22 null_state null_state
  | kResamplerMode8To11 => MkStates new_16To22 null_state null_state
  | kResamplerMode11To16 => MkStates zero_words new_22To16 null_state
  | kResamplerMode11To32 => MkStates zero_words new_22To16 zero_words
  | kResamplerMode2To1 => MkStates zero_words null_state null_state
  | kResamplerMode3To1 => MkStates new_48To16 null_state null_state
  | kResamplerMode4To1 => MkStates zero_words zero_words null_state
  | kResamplerMode6To1 => MkStates new_48To16 zero_words null_state
  | kResamplerMode12To1 => MkStates new_48To16 zero_words zero_words
  | kResamplerMode3To2 => MkStates zero_words new_48To16 null_state
  | kResamplerMode11To2 => MkStates new_22To8 zero_words null_state
  | kResamplerMode11To4 => MkStates new_22To8 null_state null_state
  | kResamplerMode11To8 => MkStates new_22To16 null_state null_state
  end.

(** The buffers [in_buffer_] and [out_buffer_] are never allocated and left out. *)
#[warnings="-register-all"]
Inductive Resampler := MkResampler {
  own_states : states;
  my_in_frequency_khz_ : Z; my_out_frequency_khz_ : Z;
  my_mode_ : ResamplerMode; num_channels_ : nat;
  slave_left_ : option Resampler; slave_right_ : option Resampler
}.

Definition Resampler_default : Resampler :=
  MkResampler (MkStates null_state null_state null_state) 0 0 kResamplerMode1To1 0 None None.

(** [Reset], given the constructor that [new Resampler(inFreq, outFreq, 1)] runs. *)
Definition reset_with (new_mono : res Resampler) (r : Resampler)
    (inFreq outFreq : Z) (num_channels : nat) : res (Z * Resampler) :=
  if negb ((num_channels =? 1)%nat || (num_channels =? 2)%nat) then Ok (-1, r) else
  mode ← ComputeResamplerMode inFreq outFreq;
  match mode with
  | None => Ok (-1, r)
  | Some mode =>
      in_khz ← div32 inFreq 1000;
      out_khz ← div32 outFreq 1000;
      '(slave_l, slave_r) ← (if (num_channels =? 2)%nat then
                          l ← new_mono; r ← new_mono; Ok (Some l, Some r)
                        else Ok (None, None));
      Ok (0, MkResampler (create_states mode) in_khz out_khz mode num_channels slave_l slave_r)
  end.

(** A mono resampler creates no others. *)
Definition new_mono (inFreq outFreq : Z) : res Resampler :=
  '(_, r) ← reset_with (Fault NullPointer) Resampler_default inFreq outFreq 1;
  Ok r.

Definition Reset (r : Resampler) (inFreq outFreq : Z) (num_channels : nat)
    : res (Z * Resampler) :=
  reset_with (new_mono inFreq outFreq) r inFreq outFreq num_channels.

Definition Resampler_new (inFreq outFreq : Z) (num_channels : nat) : res Resampler :=
  '(_, r) ← Reset Resampler_default inFreq outFreq num_channels;
  Ok r.

Definition ResetIfNeeded (r : Resampler) (inFreq outFreq : Z) (num_channels : nat)
    : res (Z * Resampler) :=
  tmpInFreq_kHz ← div32 inFreq 1000;
  tmpOutFreq_kHz ← div32 outFreq 1000;
  if negb (tmpInFreq_kHz =? my_in_frequency_khz_ r) ||
     negb (tmpOutFreq_kHz =? my_out_frequency_khz_ r) ||
     negb (num_channels =? num_channels_ r)%nat
  then Reset r inFreq outFreq num_channels
  else Ok (0, r).

(** ** Pushing samples *)

(** The number of rounds of [for (size_t i = 0; i < n; i += step)]. *)
Definition rounds (n step : nat) : nat := ((n + step - 1) / step)%nat.

(** [r(in + i, out + place(i), state, tmp_mem)] for [i = 0, blk, 2 blk, ...]. *)
Fixpoint block_loop {St} (r : list Z -> St -> list Z -> res (list Z * St * list Z))
    (blk : nat) (place : nat -> nat) (n i : nat) (inp : list Z) (state : St)
    (tmp_mem out : list Z) : res (list Z * St) :=
  match n with
  | O => Ok (out, state)
  | S n' =>
      '(o, state, tmp_mem) ← r (drop i inp) state tmp_mem;
      out ← store_at (place i) o out;
      block_loop r blk place n' (i + blk) inp state tmp_mem out
  end.

(** Filters by two between buffers. *)
Definition upsample_into (inp : list Z) (len : nat) (b : state_block) (out : list Z)
    : res (list Z * state_block) :=
  w ← as_words b;
  '(o, w) ← WebRtcSpl_UpsampleBy2 inp len w;
  out ← store_at 0 o out;
  Ok (out, words w).

Definition downsample_into (inp : list Z) (len : nat) (b : state_block) (out : list Z)
    : res (list Z * state_block) :=
  w ← as_words b;
  '(o, w) ← WebRtcSpl_DownsampleBy2 inp len w;
  out ← store_at 0 o out;
  Ok (out, words w).

Section push.
Context (garbage : nat -> Z).

Definition malloc (n : nat) : list Z := map garbage (seq 0 n).

(** The loops over the blocks of the fractional resamplers, with the temporary
    memory that the calling mode allocates. *)
Definition run_16To48 (inp : list Z) (len : nat) (b : state_block) (out : list Z) :=
  s ← as_16To48 b;
  '(out, s) ← block_loop WebRtcSpl_Resample16khzTo48khz 160 (fun i => i * 3)%nat
                (rounds len 160) 0 inp s (malloc 336) out;
  Ok (out, state_16To48 s).
Definition run_48To16 (inp : list Z) (len : nat) (b : state_block) (out : list Z) :=
  s ← as_48To16 b;
  '(out, s) ← block_loop WebRtcSpl_Resample48khzTo16khz 480 (fun i => i / 3)%nat
                (rounds len 480) 0 inp s (malloc 496) out;
  Ok (out, state_48To16 s).
Definition run_8To22 (inp : list Z) (len : nat) (b : state_block) (out : list Z) :=
  s ← as_8To22 b;
  '(out, s) ← block_loop WebRtcSpl_Resample8khzTo22khz 80 (fun i => i * 11 / 4)%nat
                (rounds len 80) 0 inp s (malloc 98) out;
  Ok (out, state_8To22 s).
Definition run_16To22 (inp : list Z) (len : nat) (b : state_block) (out : list Z) :=
  s ← as_16To22 b;
  '(out, s) ← block_loop WebRtcSpl_Resample16khzTo22khz 160 (fun i => i * 11 / 8)%nat
                (rounds len 160) 0 inp s (malloc 88) out;
  Ok (out, state_16To22 s).
Definition run_22To8 (inp : list Z) (len : nat) (b : state_block) (out : list Z) :=
  s ← as_22To8 b;
  '(out, s) ← block_loop WebRtcSpl_Resample22khzTo8khz 220 (fun i => i * 4 / 11)%nat
                (rounds len 220) 0 inp s (malloc 126) out;
  Ok (out, state_22To8 s).
(** Written [(i / 220) * 160] in two modes and [(i * 8) / 11] in the third. *)
Definition run_22To16 (place : nat -> nat) (inp : list Z) (len : nat) (b : state_block)
    (out : list Z) :=
  s ← as_22To16 b;
  '(out, s) ← block_loop WebRtcSpl_Resample22khzTo16khz 220 place
                (rounds len 220) 0 inp s (malloc 104) out;
  Ok (out, state_22To16 s).
Definition place_160 (i : nat) : nat := (i / 220 * 160)%nat.
Definition place_8_11 (i : nat) : nat := (i * 8 / 11)%nat.

(** The result of a call: the return value, the output buffer, [outLen] and the
    states. *)
Definition pushed : Type := (Z * list Z * nat * states)%type.

(** A call that fails its checks. *)
Definition rejected (samplesOut : list Z) (outLen : nat) (s : states) : res pushed :=
  Ok (-1, samplesOut, outLen, s).

Section mono.
Context (samplesIn : list Z) (lengthIn : nat) (samplesOut : list Z) (maxLen outLen : nat)
  (s : states).

Definition push_1To1 : res pushed :=
  x ← load_at lengthIn 0 samplesIn;
  samplesOut ← store_at 0 x samplesOut;
  Ok (0, samplesOut, lengthIn, s).

Definition push_1To2 : res pushed :=
  if (maxLen <? lengthIn * 2)%nat then rejected samplesOut outLen s else
  '(samplesOut, s1) ← upsample_into samplesIn lengthIn (state1_ s) samplesOut;
  Ok (0, samplesOut, (lengthIn * 2)%nat, MkStates s1 (state2_ s) (state3_ s)).

Definition push_1To3 : res pushed :=
  if negb (lengthIn mod 160 =? 0)%nat then rejected samplesOut outLen s else
  if (maxLen <? lengthIn * 3)%nat then rejected samplesOut outLen s else
  '(samplesOut, s1) ← run_16To48 samplesIn lengthIn (state1_ s) samplesOut;
  Ok (0, samplesOut, (lengthIn * 3)%nat, MkStates s1 (state2_ s) (state3_ s)).

Definition push_1To4 : res pushed :=
  if (maxLen <? lengthIn * 4)%nat then rejected samplesOut outLen s else
  '(tmp, s1) ← upsample_into samplesIn lengthIn (state1_ s) (malloc (2 * lengthIn));
  '(samplesOut, s2) ← upsample_into tmp (lengthIn * 2) (state2_ s) samplesOut;
  Ok (0, samplesOut, (lengthIn * 4)%nat, MkStates s1 s2 (state3_ s)).

Definition push_1To6 : res pushed :=
  if negb (lengthIn mod 80 =? 0)%nat then rejected samplesOut outLen s else
  if (maxLen <? lengthIn * 6)%nat then rejected samplesOut outLen s else
  '(tmp, s1) ← upsample_into samplesIn lengthIn (state1_ s) (malloc (2 * lengthIn));
  let outLen := (lengthIn * 2)%nat in
  '(samplesOut, s2) ← run_16To48 tmp outLen (state2_ s) samplesOut;
  Ok (0, samplesOut, (outLen * 3)%nat, MkStates s1 s2 (state3_ s)).

(** The output buffer holds the result of the first stage. *)
Definition push_1To12 : res pushed :=
  if negb (lengthIn mod 40 =? 0)%nat then rejected samplesOut outLen s else
  if (maxLen <? lengthIn * 12)%nat then rejected samplesOut outLen s else
  '(samplesOut, s1) ← upsample_into samplesIn lengthIn (state1_ s) samplesOut;
  let outLen := (lengthIn * 2)%nat in
  '(tmp, s2) ← upsample_into samplesOut outLen (state2_ s) (malloc (4 * lengthIn));
  let outLen := (outLen * 2)%nat in
  '(samplesOut, s3) ← run_16To48 tmp outLen (state3_ s) samplesOut;
  Ok (0, samplesOut, (outLen * 3)%nat, MkStates s1 s2 s3).

Definition push_2To3 : res pushed :=
  if (maxLen <? lengthIn * 3 / 2)%nat then rejected samplesOut outLen s else
  if negb (lengthIn mod 160 =? 0)%nat then rejected samplesOut outLen s else
  '(tmp, s1) ← run_16To48 samplesIn lengthIn (state1_ s) (malloc (lengthIn * 3));
  let lengthIn := (lengthIn * 3)%nat in
  '(samplesOut, s2) ← downsample_into tmp lengthIn (state2_ s) samplesOut;
  Ok (0, samplesOut, (lengthIn / 2)%nat, MkStates s1 s2 (state3_ s)).

Definition push_2To11 : res pushed :=
  if negb (lengthIn mod 80 =? 0)%nat then rejected samplesOut outLen s else
  if (maxLen <? lengthIn * 11 / 2)%nat then rejected samplesOut outLen s else
  '(tmp, s1) ← upsample_into samplesIn lengthIn (state1_ s) (malloc (2 * lengthIn));
  let lengthIn := (lengthIn * 2)%nat in
  '(samplesOut, s2) ← run_8To22 tmp lengthIn (state2_ s) samplesOut;
  Ok (0, samplesOut, (lengthIn * 11 / 4)%nat, MkStates s1 s2 (state3_ s)).

Definition push_4To11 : res pushed :=
  if negb (lengthIn mod 80 =? 0)%nat then rejected samplesOut outLen s else
  if (maxLen <? lengthIn * 11 / 4)%nat then rejected samplesOut outLen s else
  '(samplesOut, s1) ← run_8To22 samplesIn lengthIn (state1_ s) samplesOut;
  Ok (0, samplesOut, (lengthIn * 11 / 4)%nat, MkStates s1 (state2_ s) (state3_ s)).

Definition push_8To11 : res pushed :=
  if negb (lengthIn mod 160 =? 0)%nat then rejected samplesOut outLen s else
  if (maxLen <? lengthIn * 11 / 8)%nat then rejected samplesOut outLen s else
  '(samplesOut, s1) ← run_16To22 samplesIn lengthIn (state1_ s) samplesOut;
  Ok (0, samplesOut, (lengthIn * 11 / 8)%nat, MkStates s1 (state2_ s) (state3_ s)).

Definition push_11To16 : res pushed :=
  if negb (lengthIn mod 110 =? 0)%nat then rejected samplesOut outLen s else
  if (maxLen <? lengthIn * 16 / 11)%nat then rejected samplesOut outLen s else
  '(tmp, s1) ← upsample_into samplesIn lengthIn (state1_ s) (malloc (lengthIn * 2));
  '(samplesOut, s2) ← run_22To16 place_160 tmp (lengthIn * 2) (state2_ s) samplesOut;
  Ok (0, samplesOut, (lengthIn * 16 / 11)%nat, MkStates s1 s2 (state3_ s)).

(** The output buffer holds the result of the first stage. *)
Definition push_11To32 : res pushed :=
  if negb (lengthIn mod 110 =? 0)%nat then rejected samplesOut outLen s else
  if (maxLen <? lengthIn * 32 / 11)%nat then rejected samplesOut outLen s else
  '(samplesOut, s1) ← upsample_into samplesIn lengthIn (state1_ s) samplesOut;
  '(tmp, s2) ← run_22To16 place_160 samplesOut (lengthIn * 2) (state2_ s) (malloc (lengthIn * 2));
  '(samplesOut, s3) ← upsample_into tmp (lengthIn * 16 / 11) (state3_ s) samplesOut;
  Ok (0, samplesOut, (lengthIn * 32 / 11)%nat, MkStates s1 s2 s3).

Definition push_2To1 : res pushed :=
  if (maxLen <? lengthIn / 2)%nat then rejected samplesOut outLen s else
  '(samplesOut, s1) ← downsample_into samplesIn lengthIn (state1_ s) samplesOut;
  Ok (0, samplesOut, (lengthIn / 2)%nat, MkStates s1 (state2_ s) (state3_ s)).

Definition push_3To1 : res pushed :=
  if negb (lengthIn mod 480 =? 0)%nat then rejected samplesOut outLen s else
  if (maxLen <? lengthIn / 3)%nat then rejected samplesOut outLen s else
  '(samplesOut, s1) ← run_48To16 samplesIn lengthIn (state1_ s) samplesOut;
  Ok (0, samplesOut, (lengthIn / 3)%nat, MkStates s1 (state2_ s) (state3_ s)).

Definition push_4To1 : res pushed :=
  if (maxLen <? lengthIn / 4)%nat then rejected samplesOut outLen s else
  '(tmp, s1) ← downsample_into samplesIn lengthIn (state1_ s) (malloc (lengthIn / 2));
  '(samplesOut, s2) ← downsample_into tmp (lengthIn / 2) (state2_ s) samplesOut;
  Ok (0, samplesOut, (lengthIn / 4)%nat, MkStates s1 s2 (state3_ s)).

Definition push_6To1 : res pushed :=
  if negb (lengthIn mod 480 =? 0)%nat then rejected samplesOut outLen s else
  if (maxLen <? lengthIn / 6)%nat then rejected samplesOut outLen s else
  '(tmp, s1) ← run_48To16 samplesIn lengthIn (state1_ s) (malloc (lengthIn / 3));
  let outLen := (lengthIn / 3)%nat in
  '(samplesOut, s2) ← downsample_into tmp outLen (state2_ s) samplesOut;
  Ok (0, samplesOut, (outLen / 2)%nat, MkStates s1 s2 (state3_ s)).

Definition push_12To1 : res pushed :=
  if negb (lengthIn mod 480 =? 0)%nat then rejected samplesOut outLen s else
  if (maxLen <? lengthIn / 12)%nat then rejected samplesOut outLen s else
  '(tmp, s1) ← run_48To16 samplesIn lengthIn (state1_ s) (malloc (lengthIn / 3));
  let outLen := (lengthIn / 3)%nat in
  '(tmp_2, s2) ← downsample_into tmp outLen (state2_ s) (malloc (lengthIn / 6));
  let outLen := (outLen / 2)%nat in
  '(samplesOut, s3) ← downsample_into tmp_2 outLen (state3_ s) samplesOut;
  Ok (0, samplesOut, (outLen / 2)%nat, MkStates s1 s2 s3).

(** The length is checked after the first stage, which has changed its state. *)
Definition push_3To2 : res pushed :=
  if (maxLen <? lengthIn * 2 / 3)%nat then rejected samplesOut outLen s else
  '(tmp, s1) ← upsample_into samplesIn lengthIn (state1_ s) (malloc (lengthIn * 2));
  let lengthIn := (lengthIn * 2)%nat in
  if negb (lengthIn mod 480 =? 0)%nat
  then rejected samplesOut outLen (MkStates s1 (state2_ s) (state3_ s)) else
  '(samplesOut, s2) ← run_48To16 tmp lengthIn (state2_ s) samplesOut;
  Ok (0, samplesOut, (lengthIn / 3)%nat, MkStates s1 s2 (state3_ s)).

Definition push_11To2 : res pushed :=
  if negb (lengthIn mod 220 =? 0)%nat then rejected samplesOut outLen s else
  if (maxLen <? lengthIn * 2 / 11)%nat then rejected samplesOut outLen s else
  '(tmp, s1) ← run_22To8 samplesIn lengthIn (state1_ s) (malloc (lengthIn * 4 / 11));
  let lengthIn := (lengthIn * 4 / 11)%nat in
  '(samplesOut, s2) ← downsample_into tmp lengthIn (state2_ s) samplesOut;
  Ok (0, samplesOut, (lengthIn / 2)%nat, MkStates s1 s2 (state3_ s)).

Definition push_11To4 : res pushed :=
  if negb (lengthIn mod 220 =? 0)%nat then rejected samplesOut outLen s else
  if (maxLen <? lengthIn * 4 / 11)%nat then rejected samplesOut outLen s else
  '(samplesOut, s1) ← run_22To8 samplesIn lengthIn (state1_ s) samplesOut;
  Ok (0, samplesOut, (lengthIn * 4 / 11)%nat, MkStates s1 (state2_ s) (state3_ s)).

Definition push_11To8 : res pushed :=
  if negb (lengthIn mod 220 =? 0)%nat then rejected samplesOut outLen s else
  if (maxLen <? lengthIn * 8 / 11)%nat then rejected samplesOut outLen s else
  '(samplesOut, s1) ← run_22To16 place_8_11 samplesIn lengthIn (state1_ s) samplesOut;
  Ok (0, samplesOut, (lengthIn * 8 / 11)%nat, MkStates s1 (state2_ s) (state3_ s)).

Definition push_mode (mode : ResamplerMode) : res pushed :=
  match mode with
  | kResamplerMode1To1 => push_1To1 | kResamplerMode1To2 => push_1To2
  | kResamplerMode1To3 => push_1To3 | kResamplerMode1To4 => push_1To4
  | kResamplerMode1To6 => push_1To6 | kResamplerMode1To12 => push_1To12
  | kResamplerMode2To3 => push_2To3 | kResamplerMode2To11 => push_2To11
  | kResamplerMode4To11 => push_4To11 | kResamplerMode8To11 => push_8To11
  | kResamplerMode11To16 => push_11To16 | kResamplerMode11To32 => push_11To32
  | kResamplerMode2To1 => push_2To1 | kResamplerMode3To1 => push_3To1
  | kResamplerMode4To1 => push_4To1 | kResamplerMode6To1 => push_6To1
  | kResamplerMode12To1 => push_12To1 | kResamplerMode3To2 => push_3To2
  | kResamplerMode11To2 => push_11To2 | kResamplerMode11To4 => push_11To4
  | kResamplerMode11To8 => push_11To8
  end.
End mono.

(** [left[i >> 1] = samplesIn[i]; right[i >> 1] = samplesIn[i + 1];] for even [i]. *)
Fixpoint split_loop (n : nat) (i : Z) (samplesIn left_ right_ : list Z)
    : res (list Z * list Z) :=
  match n with
  | O => Ok (left_, right_)
  | S n' =>
      x ← rd samplesIn i; left_ ← wr left_ (Z.shiftr i 1) x;
      y ← rd samplesIn (i + 1); right_ ← wr right_ (Z.shiftr i 1) y;
      split_loop n' (i + 2) samplesIn left_ right_
  end.

(** [samplesOut[i * 2] = out_left[i]; samplesOut[i * 2 + 1] = out_right[i];]. *)
Fixpoint join_loop (n : nat) (i : Z) (out_left out_right samplesOut : list Z)
    : res (list Z) :=
  match n with
  | O => Ok samplesOut
  | S n' =>
      x ← rd out_left i; samplesOut ← wr samplesOut (i * 2) x;
      y ← rd out_right i; samplesOut ← wr samplesOut (i * 2 + 1) y;
      join_loop n' (i + 1) out_left out_right samplesOut
  end.

(** Returns the return value, the output buffer, [outLen] and the resampler. *)
Fixpoint Push (r : Resampler) (samplesIn : list Z) (lengthIn : nat) (samplesOut : list Z)
    (maxLen outLen : nat) : res (Z * list Z * nat * Resampler) :=
  if (num_channels_ r =? 2)%nat then
    '(left_, right_) ← split_loop (rounds lengthIn 2) 0 samplesIn
                         (malloc (lengthIn / 2)) (malloc (lengthIn / 2));
    let lengthIn := (lengthIn / 2)%nat in
    '(res_l, out_left, len_l, slave_l) ←
      match slave_left_ r with
      | Some slave => Push slave left_ lengthIn (malloc (maxLen / 2)) (maxLen / 2) 0
      | None => Fault NullPointer
      end;
    '(res_r, out_right, len_r, slave_r) ←
      match slave_right_ r with
      | Some slave => Push slave right_ lengthIn (malloc (maxLen / 2)) (maxLen / 2) 0
      | None => Fault NullPointer
      end;
    let r := MkResampler (own_states r) (my_in_frequency_khz_ r) (my_out_frequency_khz_ r)
               (my_mode_ r) (num_channels_ r) (Some slave_l) (Some slave_r) in
    if negb (Z.lor (Z.lor 0 res_l) res_r =? 0) || negb (len_l =? len_r)%nat
    then Ok (-1, samplesOut, outLen, r)
    else
      samplesOut ← join_loop len_l 0 out_left out_right samplesOut;
      Ok (0, samplesOut, (2 * len_l)%nat, r)
  else
    '(code, samplesOut, outLen, s) ←
      push_mode samplesIn lengthIn samplesOut maxLen outLen (own_states r) (my_mode_ r);
    Ok (code, samplesOut, outLen,
        MkResampler s (my_in_frequency_khz_ r) (my_out_frequency_khz_ r) (my_mode_ r)
          (num_channels_ r) (slave_left_ r) (slave_right_ r)).
End push.

(** * Lemmas *)

(** ** The ratio of the rates *)

(** A mode turns [rate_in] samples into [rate_out]. *)
Definition rate_in (m : ResamplerMode) : nat :=
  match m with
  | kResamplerMode1To1 | kResamplerMode1To2 | kResamplerMode1To3 | kResamplerMode1To4
  | kResamplerMode1To6 | kResamplerMode1To12 => 1
  | kResamplerMode2To3 | kResamplerMode2To11 | kResamplerMode2To1 => 2
  | kResamplerMode4To11 | kResamplerMode4To1 => 4
  | kResamplerMode8To11 => 8
  | kResamplerMode11To16 | kResamplerMode11To32 | kResamplerMode11To2
  | kResamplerMode11To4 | kResamplerMode11To8 => 11
  | kResamplerMode3To1 | kResamplerMode3To2 => 3
  | kResamplerMode6To1 => 6
  | kResamplerMode12To1 => 12
  end.

Definition rate_out (m : ResamplerMode) : nat :=
  match m with
  | kResamplerMode1To1 | kResamplerMode2To1 | kResamplerMode3To1 | kResamplerMode4To1
  | kResamplerMode6To1 | kResamplerMode12To1 => 1
  | kResamplerMode1To2 | kResamplerMode3To2 | kResamplerMode11To2 => 2
  | kResamplerMode1To3 | kResamplerMode2To3 => 3
  | kResamplerMode1To4 | kResamplerMode11To4 => 4
  | kResamplerMode1To6 => 6
  | kResamplerMode1To12 => 12
  | kResamplerMode2To11 | kResamplerMode4To11 | kResamplerMode8To11 => 11
  | kResamplerMode11To16 => 16
  | kResamplerMode11To32 => 32
  | kResamplerMode11To8 => 8
  end.

Definition ratio (m : ResamplerMode) : Z * Z := (Z.of_nat (rate_in m), Z.of_nat (rate_out m)).

Lemma wp_euclid fuel b c :
  0 < b <= INT32_MAX -> 0 <= c < Z.of_nat fuel -> c <= INT32_MAX ->
  wp (euclid fuel b c) (fun g => g = Z.gcd b c).
Proof.
  revert b c. induction fuel as [|fuel IH]; intros b c Hb Hc HM; [lia|]. cbn [euclid].
  destruct (Z.eqb_spec c 0) as [->|Hc0].
  { apply wp_ret. by rewrite Z.gcd_0_r, Z.abs_eq by lia. }
  pose proof (Z.rem_bound_pos b c ltac:(lia) ltac:(lia)) as Hr.
  apply wp_bind, wp_rem32; [lia|lia|]. eapply wp_mono; [apply IH; lia|].
  intros g ->. rewrite Z.rem_mod_nonneg by lia.
  rewrite (Z.gcd_comm c), Z.gcd_mod by lia. apply Z.gcd_comm.
Qed.

(** Coprime numbers in the ratio of coprime numbers. *)
Lemma coprime_ratio a b p q :
  0 < a -> 0 < b -> 0 < p -> 0 < q -> Z.gcd a b = 1 -> Z.gcd p q = 1 ->
  a * q = b * p <-> a = p /\ b = q.
Proof.
  intros Ha Hb Hp Hq Gab Gpq. split; [|by intros [-> ->]; lia].
  intros E.
  assert (D1 : (a | p)).
  { apply (Z.gauss a b p); [exists q; lia|done]. }
  assert (D2 : (p | a)).
  { apply (Z.gauss p q a); [exists b; lia|done]. }
  assert (a = p) as -> by (apply Z.divide_antisym_nonneg; lia || done).
  split; [done|]. nia.
Qed.

Definition mode_of (ri ro : Z) : option ResamplerMode :=
  if ri =? ro then Some kResamplerMode1To1
  else if ri =? 1 then
    if ro =? 2 then Some kResamplerMode1To2
    else if ro =? 3 then Some kResamplerMode1To3
    else if ro =? 4 then Some kResamplerMode1To4
    else if ro =? 6 then Some kResamplerMode1To6
    else if ro =? 12 then Some kResamplerMode1To12
    else None
  else if ro =? 1 then
    if ri =? 2 then Some kResamplerMode2To1
    else if ri =? 3 then Some kResamplerMode3To1
    else if ri =? 4 then Some kResamplerMode4To1
    else if ri =? 6 then Some kResamplerMode6To1
    else if ri =? 12 then Some kResamplerMode12To1
    else None
  else if (ri =? 2) && (ro =? 3) then Some kResamplerMode2To3
  else if (ri =? 2) && (ro =? 11) then Some kResamplerMode2To11
  else if (ri =? 4) && (ro =? 11) then Some kResamplerMode4To11
  else if (ri =? 8) && (ro =? 11) then Some kResamplerMode8To11
  else if (ri =? 3) && (ro =? 2) then Some kResamplerMode3To2
  else if (ri =? 11) && (ro =? 2) then Some kResamplerMode11To2
  else if (ri =? 11) && (ro =? 4) then Some kResamplerMode11To4
  else if (ri =? 11) && (ro =? 16) then Some kResamplerMode11To16
  else if (ri =? 11) && (ro =? 32) then Some kResamplerMode11To32
  else if (ri =? 11) && (ro =? 8) then Some kResamplerMode11To8
  else None.

Lemma mode_of_ratio ri ro m :
  0 < ri -> 0 < ro -> Z.gcd ri ro = 1 ->
  mode_of ri ro = Some m <-> ri = (ratio m).1 /\ ro = (ratio m).2.
Proof.
  intros Hi Ho G. split.
  - unfold mode_of. intros E.
    repeat (match type of E with context [?a =? ?b] => destruct (Z.eqb_spec a b) end;
            cbn [andb] in E; try discriminate E; try lia; simplify_eq/=; try done).
    rewrite Z.gcd_diag, Z.abs_eq in G by lia. by subst.
  - intros [-> ->]. by destruct m.
Qed.

Lemma ratio_coprime m : 0 < (ratio m).1 /\ 0 < (ratio m).2 /\ Z.gcd (ratio m).1 (ratio m).2 = 1.
Proof. by destruct m. Qed.

Lemma compute_mode in_hz out_hz :
  0 < in_hz <= INT32_MAX -> 0 < out_hz <= INT32_MAX ->
  exists om, ComputeResamplerMode in_hz out_hz = Ok om /\
    forall m, om = Some m <-> in_hz * (ratio m).2 = out_hz * (ratio m).1.
Proof.
  intros Hi Ho. unfold ComputeResamplerMode.
  set (g := Z.gcd in_hz out_hz).
  assert (Hg : 0 < g).
  { pose proof (Z.gcd_nonneg in_hz out_hz). unfold g.
    enough (Z.gcd in_hz out_hz <> 0) by lia. rewrite Z.gcd_eq_0. lia. }
  destruct (Z.gcd_divide_l in_hz out_hz) as [ri Ei].
  destruct (Z.gcd_divide_r in_hz out_hz) as [ro Eo]. fold g in Ei, Eo.
  pose proof (Z.rem_bound_pos in_hz out_hz ltac:(lia) ltac:(lia)) as Hr.
  assert (E1 : rem32 in_hz out_hz = Ok (Z.rem in_hz out_hz)).
  { apply wp_pure, wp_rem32; [lia|lia|done]. }
  rewrite E1, bind_ok.
  assert (E2 : euclid (S (Z.abs_nat (Z.rem in_hz out_hz))) out_hz (Z.rem in_hz out_hz) = Ok g).
  { apply wp_pure. eapply wp_mono; [apply wp_euclid; lia|]. intros g' ->.
    rewrite Z.rem_mod_nonneg by lia. rewrite Z.gcd_comm, Z.gcd_mod by lia. apply Z.gcd_comm. }
  rewrite E2, bind_ok.
  assert (Hq : forall x r, x = r * g -> 0 < x <= INT32_MAX -> div32 x g = Ok r /\ 0 < r).
  { intros x r -> Hx. split; [|nia]. apply wp_pure, wp_div32; [lia|unfold i32|];
      rewrite Z.quot_mul by lia; [nia|done]. }
  destruct (Hq _ _ Ei Hi) as [-> Hri]. destruct (Hq _ _ Eo Ho) as [-> Hro]. rewrite !bind_ok.
  eexists. split; [reflexivity|]. intros m. fold (mode_of ri ro).
  assert (G : Z.gcd ri ro = 1).
  { assert (E : g = Z.gcd ri ro * g).
    { unfold g at 1. rewrite Ei, Eo, Z.gcd_mul_mono_r_nonneg by lia. done. }
    nia. }
  rewrite mode_of_ratio by done. destruct (ratio_coprime m) as (Hp & Hq' & Hpq).
  rewrite <- coprime_ratio by done. rewrite Ei, Eo. split; nia.
Qed.

(** ** Shapes of the states *)

Definition is_words (b : state_block) : Prop :=
  match b with words w => length w = 8%nat | _ => False end.
Definition is_16To48 (b : state_block) : Prop :=
  match b with state_16To48 s => shape_16To48 s | _ => False end.
Definition is_48To16 (b : state_block) : Prop :=
  match b with state_48To16 s => shape_48To16 s | _ => False end.
Definition is_8To22 (b : state_block) : Prop :=
  match b with state_8To22 s => shape_8To22 s | _ => False end.
Definition is_16To22 (b : state_block) : Prop :=
  match b with state_16To22 s => shape_16To22 s | _ => False end.
Definition is_22To8 (b : state_block) : Prop :=
  match b with state_22To8 s => shape_22To8 s | _ => False end.
Definition is_22To16 (b : state_block) : Prop :=
  match b with state_22To16 s => shape_22To16 s | _ => False end.

(** The states that the code of a mode dereferences are there. *)
Definition states_ok (m : ResamplerMode) (s : states) : Prop :=
  match m with
  | kResamplerMode1To1 => True
  | kResamplerMode1To2 | kResamplerMode2To1 => is_words (state1_ s)
  | kResamplerMode1To3 => is_16To48 (state1_ s)
  | kResamplerMode1To4 | kResamplerMode4To1 => is_words (state1_ s) /\ is_words (state2_ s)
  | kResamplerMode1To6 => is_words (state1_ s) /\ is_16To48 (state2_ s)
  | kResamplerMode1To12 => is_words (state1_ s) /\ is_words (state2_ s) /\ is_16To48 (state3_ s)
  | kResamplerMode2To3 => is_16To48 (state1_ s) /\ is_words (state2_ s)
  | kResamplerMode2To11 => is_words (state1_ s) /\ is_8To22 (state2_ s)
  | kResamplerMode4To11 => is_8To22 (state1_ s)
  | kResamplerMode8To11 => is_16To22 (state1_ s)
  | kResamplerMode11To16 => is_words (state1_ s) /\ is_22To16 (state2_ s)
  | kResamplerMode11To32 => is_words (state1_ s) /\ is_22To16 (state2_ s) /\ is_words (state3_ s)
  | kResamplerMode3To1 => is_48To16 (state1_ s)
  | kResamplerMode6To1 => is_48To16 (state1_ s) /\ is_words (state2_ s)
  | kResamplerMode12To1 => is_48To16 (state1_ s) /\ is_words (state2_ s) /\ is_words (state3_ s)
  | kResamplerMode3To2 => is_words (state1_ s) /\ is_48To16 (state2_ s)
  | kResamplerMode11To2 => is_22To8 (state1_ s) /\ is_words (state2_ s)
  | kResamplerMode11To4 => is_22To8 (state1_ s)
  | kResamplerMode11To8 => is_22To16 (state1_ s)
  end.

Lemma create_states_ok m : states_ok m (create_states m).
Proof. destruct m; cbn; repeat split. Qed.

(** The first [n] samples of a buffer are written, the rest is as before. *)
Definition wrote (n : nat) (out out' : list Z) : Prop :=
  exists xs, samples16 xs /\ length xs = n /\ out' = xs ++ drop n out /\ (n <= length out)%nat.

Lemma wrote_length n out out' : wrote n out out' -> length out' = length out.
Proof. intros (xs & _ & L & -> & H). rewrite length_app, length_drop. lia. Qed.

Lemma wrote_again n m out out1 out2 :
  wrote n out out1 -> (n <= m)%nat -> wrote m out1 out2 -> wrote m out out2.
Proof.
  intros H Hn (ys & S2 & L2 & -> & H2). pose proof (wrote_length _ _ _ H) as E.
  destruct H as (xs & S1 & L1 & -> & H1).
  exists ys. split_and!; [done|done| |lia]. f_equal.
  rewrite drop_app_ge by lia. rewrite drop_drop. f_equal. lia.
Qed.

Lemma wrote_eq n m out out' : n = m -> wrote n out out' -> wrote m out out'.
Proof. by intros ->. Qed.

Lemma store_wrote xs out :
  samples16 xs -> (length xs <= length out)%nat ->
  upto (store_at 0 xs out) (wrote (length xs) out).
Proof.
  intros Hx Hl. unfold store_at. rewrite (proj2 (Nat.leb_le _ _)) by lia.
  apply upto_ret. by exists xs.
Qed.

Lemma upto_upsample_into inp len b out :
  is_words b -> (len <= length inp)%nat -> (2 * len <= length out)%nat ->
  upto (upsample_into inp len b out) (fun '(out', b') => wrote (2 * len) out out' /\ is_words b').
Proof.
  intros Hb Hl Ho. destruct b; try done. unfold upsample_into. cbn [as_words]. do 3 upto_step.
  eapply upto_mono; [by apply upto_UpsampleBy2|]. intros [o w'] (S1 & L1 & W). upto_step.
  eapply upto_mono; [apply store_wrote; [done|lia]|]. intros out' Hw. rewrite L1 in Hw.
  by upto_step.
Qed.

Lemma upto_downsample_into inp len b out :
  is_words b -> (len <= length inp)%nat -> (len / 2 <= length out)%nat ->
  upto (downsample_into inp len b out) (fun '(out', b') => wrote (len / 2) out out' /\ is_words b').
Proof.
  intros Hb Hl Ho. destruct b; try done. unfold downsample_into. cbn [as_words]. do 3 upto_step.
  pose proof (Nat.div_mod_eq len 2) as Hd.
  eapply upto_mono; [apply upto_DownsampleBy2; [lia|done]|]. intros [o w'] (S1 & L1 & W). upto_step.
  eapply upto_mono; [apply store_wrote; [done|lia]|]. intros out' Hw. rewrite L1 in Hw.
  by upto_step.
Qed.

Lemma upto_block_loop {St} r blk nout nmem (shape : St -> Prop) place n k inp st mem out :
  BlockRoutine r blk nout nmem shape -> (forall j, place (j * blk)%nat = (j * nout)%nat) ->
  ((k + n) * blk <= length inp)%nat -> ((k + n) * nout <= length out)%nat ->
  (nmem <= length mem)%nat -> shape st ->
  upto (block_loop r blk place n (k * blk) inp st mem out) (fun '(out', st') =>
    shape st' /\ exists xs, samples16 xs /\ length xs = (n * nout)%nat /\
      out' = take (k * nout) out ++ xs ++ drop ((k + n) * nout) out).
Proof.
  intros Hr Hp. revert k st mem out. induction n as [|n IH]; intros k st mem out Hi Ho Hm Hs.
  { cbn. split; [done|]. exists []. rewrite Nat.add_0_r.
    split_and!; [by apply Forall_nil|done|by rewrite app_nil_l, take_drop]. }
  cbn [block_loop]. upto_step. eapply upto_mono; [apply Hr; [rewrite length_drop; nia|done|lia]|].
  intros [[o st1] mem1] (S1 & L1 & Sh1 & M1). upto_step. rewrite Hp.
  unfold store_at. rewrite (proj2 (Nat.leb_le _ _)) by nia. upto_step.
  set (out1 := take (k * nout) out ++ o ++ drop (k * nout + length o) out).
  assert (Lt : length (take (k * nout) out) = (k * nout)%nat) by (rewrite length_take; nia).
  assert (Lo : length out1 = length out).
  { unfold out1. rewrite !length_app, Lt, length_drop. nia. }
  replace (k * blk + blk)%nat with (S k * blk)%nat by lia.
  eapply upto_mono; [apply IH; [nia|rewrite Lo; nia|lia|done]|].
  intros [out2 st2] (Sh2 & xs & S2 & L2 & ->). split; [done|].
  exists (o ++ xs). split; [by apply Forall_app|]. split; [rewrite length_app; lia|].
  assert (E1 : take (S k * nout) out1 = take (k * nout) out ++ o).
  { unfold out1. rewrite app_assoc. apply take_app_length'. rewrite length_app. lia. }
  assert (E2 : drop ((S k + n) * nout) out1 = drop ((k + S n) * nout) out).
  { unfold out1. rewrite app_assoc, drop_app_ge by (rewrite length_app; nia).
    rewrite length_app, drop_drop. f_equal. nia. }
  rewrite E1, E2. by rewrite <- !app_assoc.
Qed.

(** The loop of a mode over a whole number of blocks. *)
Lemma rounds_mul n blk : (0 < blk)%nat -> rounds (n * blk) blk = n.
Proof.
  intros H. unfold rounds. replace (n * blk + blk - 1)%nat with (n * blk + (blk - 1))%nat by lia.
  rewrite Nat.div_add_l by lia. rewrite (Nat.div_small (blk - 1)) by lia. lia.
Qed.

Lemma upto_run {St} r blk nout nmem (shape : St -> Prop) place n inp st mem out :
  BlockRoutine r blk nout nmem shape -> (forall j, place (j * blk)%nat = (j * nout)%nat) ->
  (0 < blk)%nat -> (n * blk <= length inp)%nat -> (n * nout <= length out)%nat ->
  (nmem <= length mem)%nat -> shape st ->
  upto (block_loop r blk place (rounds (n * blk) blk) 0 inp st mem out) (fun '(out', st') =>
    shape st' /\ wrote (n * nout) out out').
Proof.
  intros Hr Hp Hb Hi Ho Hm Hs. rewrite rounds_mul by done.
  eapply upto_mono; [apply (upto_block_loop r blk nout nmem shape place n 0); auto|].
  intros [out' st'] (Sh & xs & Sx & Lx & ->). split; [done|]. by exists xs.
Qed.

Section runs.
Context (garbage : nat -> Z).

Lemma malloc_length n : length (malloc garbage n) = n.
Proof. unfold malloc. by rewrite length_map, length_seq. Qed.

Lemma upto_run_16To48 n len inp b out :
  len = (n * 160)%nat -> is_16To48 b -> (n * 160 <= length inp)%nat -> (n * 480 <= length out)%nat ->
  upto (run_16To48 garbage inp len b out) (fun '(out', b') =>
    wrote (n * 480) out out' /\ is_16To48 b').
Proof.
  intros -> Hb Hi Ho. destruct b; try done. unfold run_16To48. cbn [as_16To48]. do 3 upto_step.
  eapply upto_mono.
  { apply (upto_run _ 160 480 336 shape_16To48); rewrite ?malloc_length; try done; try lia.
    apply _. }
  intros [out' s'] [H1 H2]. by upto_step.
Qed.

Lemma upto_run_48To16 n len inp b out :
  len = (n * 480)%nat -> is_48To16 b -> (n * 480 <= length inp)%nat -> (n * 160 <= length out)%nat ->
  upto (run_48To16 garbage inp len b out) (fun '(out', b') =>
    wrote (n * 160) out out' /\ is_48To16 b').
Proof.
  intros -> Hb Hi Ho. destruct b; try done. unfold run_48To16. cbn [as_48To16]. do 3 upto_step.
  eapply upto_mono.
  { apply (upto_run _ 480 160 496 shape_48To16); rewrite ?malloc_length; try done; try lia.
    apply _. }
  intros [out' s'] [H1 H2]. by upto_step.
Qed.

Lemma upto_run_8To22 n len inp b out :
  len = (n * 80)%nat -> is_8To22 b -> (n * 80 <= length inp)%nat -> (n * 220 <= length out)%nat ->
  upto (run_8To22 garbage inp len b out) (fun '(out', b') =>
    wrote (n * 220) out out' /\ is_8To22 b').
Proof.
  intros -> Hb Hi Ho. destruct b; try done. unfold run_8To22. cbn [as_8To22]. do 3 upto_step.
  eapply upto_mono.
  { apply (upto_run _ 80 220 98 shape_8To22); rewrite ?malloc_length; try done; try lia.
    apply _. }
  intros [out' s'] [H1 H2]. by upto_step.
Qed.

Lemma upto_run_16To22 n len inp b out :
  len = (n * 160)%nat -> is_16To22 b -> (n * 160 <= length inp)%nat -> (n * 220 <= length out)%nat ->
  upto (run_16To22 garbage inp len b out) (fun '(out', b') =>
    wrote (n * 220) out out' /\ is_16To22 b').
Proof.
  intros -> Hb Hi Ho. destruct b; try done. unfold run_16To22. cbn [as_16To22]. do 3 upto_step.
  eapply upto_mono.
  { apply (upto_run _ 160 220 88 shape_16To22); rewrite ?malloc_length; try done; try lia.
    apply _. }
  intros [out' s'] [H1 H2]. by upto_step.
Qed.

Lemma upto_run_22To8 n len inp b out :
  len = (n * 220)%nat -> is_22To8 b -> (n * 220 <= length inp)%nat -> (n * 80 <= length out)%nat ->
  upto (run_22To8 garbage inp len b out) (fun '(out', b') =>
    wrote (n * 80) out out' /\ is_22To8 b').
Proof.
  intros -> Hb Hi Ho. destruct b; try done. unfold run_22To8. cbn [as_22To8]. do 3 upto_step.
  eapply upto_mono.
  { apply (upto_run _ 220 80 126 shape_22To8); rewrite ?malloc_length; try done; try lia.
    apply _. }
  intros [out' s'] [H1 H2]. by upto_step.
Qed.

Lemma place_160_mul j : place_160 (j * 220) = (j * 160)%nat.
Proof. unfold place_160. by rewrite Nat.div_mul. Qed.
Lemma place_8_11_mul j : place_8_11 (j * 220) = (j * 160)%nat.
Proof.
  unfold place_8_11. replace (j * 220 * 8)%nat with (j * 160 * 11)%nat by lia. by rewrite Nat.div_mul.
Qed.

Lemma upto_run_22To16 place n len inp b out :
  len = (n * 220)%nat -> (forall j, place (j * 220)%nat = (j * 160)%nat) ->
  is_22To16 b -> (n * 220 <= length inp)%nat -> (n * 160 <= length out)%nat ->
  upto (run_22To16 garbage place inp len b out) (fun '(out', b') =>
    wrote (n * 160) out out' /\ is_22To16 b').
Proof.
  intros -> Hp Hb Hi Ho. destruct b; try done. unfold run_22To16. cbn [as_22To16]. do 3 upto_step.
  eapply upto_mono.
  { apply (upto_run _ 220 160 104 shape_22To16); rewrite ?malloc_length; try done; try lia.
    apply _. }
  intros [out' s'] [H1 H2]. by upto_step.
Qed.

Definition upto_run_160 n len inp b out H :=
  upto_run_22To16 place_160 n len inp b out H place_160_mul.
Definition upto_run_8_11 n len inp b out H :=
  upto_run_22To16 place_8_11 n len inp b out H place_8_11_mul.
End runs.

(** ** One mono call *)

(** Linear arithmetic with division of lengths by constants. *)
Ltac lens := zify; Z.to_euclidean_division_equations; lia.

(** The lengths that a mode accepts are multiples of its block. *)
Definition block_of (m : ResamplerMode) : nat :=
  match m with
  | kResamplerMode1To3 | kResamplerMode2To3 | kResamplerMode8To11 => 160
  | kResamplerMode1To6 | kResamplerMode2To11 | kResamplerMode4To11 => 80
  | kResamplerMode1To12 => 40
  | kResamplerMode11To16 | kResamplerMode11To32 => 110
  | kResamplerMode3To1 | kResamplerMode6To1 | kResamplerMode12To1 => 480
  | kResamplerMode3To2 => 240
  | kResamplerMode11To2 | kResamplerMode11To4 | kResamplerMode11To8 => 220
  | _ => 1
  end.

Definition out_length (m : ResamplerMode) (len : nat) : nat :=
  (len * rate_out m / rate_in m)%nat.

(** Whole blocks whose output fits; the mode 1:1 does not look at the size of the
    output. *)
Definition accepts (m : ResamplerMode) (len maxLen : nat) : bool :=
  (len mod block_of m =? 0)%nat &&
  (bool_decide (m = kResamplerMode1To1) || (out_length m len <=? maxLen)%nat).

Definition outcome (m : ResamplerMode) (lengthIn : nat) (samplesOut : list Z)
    (maxLen outLen : nat) : pushed -> Prop := fun '(code, samplesOut', outLen', s') =>
  states_ok m s' /\
  if accepts m lengthIn maxLen
  then code = 0 /\ outLen' = out_length m lengthIn /\ wrote outLen' samplesOut samplesOut'
  else code = -1 /\ outLen' = outLen /\ samplesOut' = samplesOut.

Section push_mono.
Context (garbage : nat -> Z) (samplesIn : list Z) (lengthIn : nat) (samplesOut : list Z)
  (maxLen outLen : nat) (s : states).
Context (Hin : (lengthIn <= length samplesIn)%nat) (Hout : (maxLen <= length samplesOut)%nat).

Lemma upto_rejected m s' :
  states_ok m s' -> accepts m lengthIn maxLen = false ->
  upto (rejected samplesOut outLen s') (outcome m lengthIn samplesOut maxLen outLen).
Proof. intros Hs Ha. apply upto_ret. split; [done|]. by rewrite Ha. Qed.

Lemma upto_accepted m s' n out' :
  states_ok m s' -> accepts m lengthIn maxLen = true -> n = out_length m lengthIn ->
  wrote n samplesOut out' ->
  upto (Ok (0, out', n, s')) (outcome m lengthIn samplesOut maxLen outLen).
Proof. intros Hs Ha -> Hw. apply upto_ret. split; [done|]. by rewrite Ha. Qed.

(** The checks of a mode. *)
Lemma check_block {A} m (reject accept : res A) Q blk :
  blk = block_of m ->
  (accepts m lengthIn maxLen = false -> upto reject Q) ->
  (forall n, lengthIn = (n * blk)%nat -> upto accept Q) -> (0 < blk)%nat ->
  upto (if negb (lengthIn mod blk =? 0)%nat then reject else accept) Q.
Proof.
  intros -> Hr Ha Hb. destruct (Nat.eqb_spec (lengthIn mod block_of m) 0) as [E|E]; cbn [negb].
  - apply (Ha (lengthIn / block_of m)%nat). pose proof (Nat.div_mod_eq lengthIn (block_of m)). lia.
  - apply Hr. unfold accepts. by rewrite (proj2 (Nat.eqb_neq _ _) E).
Qed.

Lemma check_space {A} m (reject accept : res A) Q n :
  n = out_length m lengthIn -> m <> kResamplerMode1To1 ->
  (accepts m lengthIn maxLen = false -> upto reject Q) ->
  ((n <= maxLen)%nat -> upto accept Q) ->
  upto (if (maxLen <? n)%nat then reject else accept) Q.
Proof.
  intros -> Hm Hr Ha. destruct (Nat.ltb_spec maxLen (out_length m lengthIn)) as [E|E]; [|auto].
  apply Hr. unfold accepts. rewrite bool_decide_eq_false_2 by done.
  rewrite (proj2 (Nat.leb_gt _ _) E). by rewrite andb_false_r.
Qed.

Lemma accepted m :
  m <> kResamplerMode1To1 -> (lengthIn mod block_of m = 0)%nat ->
  (out_length m lengthIn <= maxLen)%nat -> accepts m lengthIn maxLen = true.
Proof.
  intros Hm E Hl. unfold accepts. rewrite E, (proj2 (Nat.leb_le _ _) Hl). apply orb_true_r.
Qed.

Ltac checks m :=
  repeat first
    [ apply (check_block m); [reflexivity|by apply upto_rejected| |cbn [block_of]; lia];
      let n := fresh "n" in let E := fresh "E" in intros n E
    | apply (check_space m); [unfold out_length; cbn [rate_in rate_out]; lia|done|by apply upto_rejected|];
      let H := fresh "Hspace" in intros H ].

Ltac stage lem :=
  upto_step; (eapply upto_mono; [apply lem; rewrite ?malloc_length; first [eassumption|lia]|]);
  let x := fresh "buf" in let b := fresh "b" in let W := fresh "W" in let B := fresh "B" in
  intros [x b] [W B]; pose proof (wrote_length _ _ _ W); rewrite ?malloc_length in *; cbv zeta.

Ltac finish m :=
  apply (upto_accepted m); [cbn; auto|apply (accepted m); unfold out_length; cbn [rate_in rate_out block_of]; done || lia
    |unfold out_length; cbn [rate_in rate_out]; lia|].

Ltac wrote_last :=
  first [ (eapply wrote_eq; [|eassumption]; lia)
        | (eapply wrote_again; [eassumption| |eapply wrote_eq; [|eassumption]; lia]; lia) ].

Lemma upto_push_1To2 :
  states_ok kResamplerMode1To2 s ->
  upto (push_1To2 samplesIn lengthIn samplesOut maxLen outLen s)
       (outcome kResamplerMode1To2 lengthIn samplesOut maxLen outLen).
Proof.
  intros Hs. pose proof Hs as Hs'. cbn in Hs'. destruct_and? Hs'. unfold push_1To2. checks kResamplerMode1To2.
  stage upto_upsample_into.
  finish kResamplerMode1To2. wrote_last.
Qed.

Lemma upto_push_1To3 :
  states_ok kResamplerMode1To3 s ->
  upto (push_1To3 garbage samplesIn lengthIn samplesOut maxLen outLen s)
       (outcome kResamplerMode1To3 lengthIn samplesOut maxLen outLen).
Proof.
  intros Hs. pose proof Hs as Hs'. cbn in Hs'. destruct_and? Hs'. unfold push_1To3. checks kResamplerMode1To3.
  stage (upto_run_16To48 garbage n).
  finish kResamplerMode1To3. wrote_last.
Qed.

Lemma upto_push_1To4 :
  states_ok kResamplerMode1To4 s ->
  upto (push_1To4 garbage samplesIn lengthIn samplesOut maxLen outLen s)
       (outcome kResamplerMode1To4 lengthIn samplesOut maxLen outLen).
Proof.
  intros Hs. pose proof Hs as Hs'. cbn in Hs'. destruct_and? Hs'. unfold push_1To4. checks kResamplerMode1To4.
  stage upto_upsample_into. stage upto_upsample_into.
  finish kResamplerMode1To4. wrote_last.
Qed.

Lemma upto_push_1To6 :
  states_ok kResamplerMode1To6 s ->
  upto (push_1To6 garbage samplesIn lengthIn samplesOut maxLen outLen s)
       (outcome kResamplerMode1To6 lengthIn samplesOut maxLen outLen).
Proof.
  intros Hs. pose proof Hs as Hs'. cbn in Hs'. destruct_and? Hs'. unfold push_1To6. checks kResamplerMode1To6.
  stage upto_upsample_into. stage (upto_run_16To48 garbage n).
  finish kResamplerMode1To6. wrote_last.
Qed.

Lemma upto_push_1To12 :
  states_ok kResamplerMode1To12 s ->
  upto (push_1To12 garbage samplesIn lengthIn samplesOut maxLen outLen s)
       (outcome kResamplerMode1To12 lengthIn samplesOut maxLen outLen).
Proof.
  intros Hs. pose proof Hs as Hs'. cbn in Hs'. destruct_and? Hs'. unfold push_1To12. checks kResamplerMode1To12.
  stage upto_upsample_into. stage upto_upsample_into. stage (upto_run_16To48 garbage n).
  finish kResamplerMode1To12. wrote_last.
Qed.

Lemma upto_push_2To3 :
  states_ok kResamplerMode2To3 s ->
  upto (push_2To3 garbage samplesIn lengthIn samplesOut maxLen outLen s)
       (outcome kResamplerMode2To3 lengthIn samplesOut maxLen outLen).
Proof.
  intros Hs. pose proof Hs as Hs'. cbn in Hs'. destruct_and? Hs'. unfold push_2To3. checks kResamplerMode2To3.
  stage (upto_run_16To48 garbage n). stage upto_downsample_into.
  finish kResamplerMode2To3. wrote_last.
Qed.

Lemma upto_push_2To11 :
  states_ok kResamplerMode2To11 s ->
  upto (push_2To11 garbage samplesIn lengthIn samplesOut maxLen outLen s)
       (outcome kResamplerMode2To11 lengthIn samplesOut maxLen outLen).
Proof.
  intros Hs. pose proof Hs as Hs'. cbn in Hs'. destruct_and? Hs'. unfold push_2To11. checks kResamplerMode2To11.
  stage upto_upsample_into. stage (upto_run_8To22 garbage (2 * n)).
  finish kResamplerMode2To11. wrote_last.
Qed.

Lemma upto_push_4To11 :
  states_ok kResamplerMode4To11 s ->
  upto (push_4To11 garbage samplesIn lengthIn samplesOut maxLen outLen s)
       (outcome kResamplerMode4To11 lengthIn samplesOut maxLen outLen).
Proof.
  intros Hs. pose proof Hs as Hs'. cbn in Hs'. destruct_and? Hs'. unfold push_4To11. checks kResamplerMode4To11.
  stage (upto_run_8To22 garbage n).
  finish kResamplerMode4To11. wrote_last.
Qed.

Lemma upto_push_8To11 :
  states_ok kResamplerMode8To11 s ->
  upto (push_8To11 garbage samplesIn lengthIn samplesOut maxLen outLen s)
       (outcome kResamplerMode8To11 lengthIn samplesOut maxLen outLen).
Proof.
  intros Hs. pose proof Hs as Hs'. cbn in Hs'. destruct_and? Hs'. unfold push_8To11. checks kResamplerMode8To11.
  stage (upto_run_16To22 garbage n).
  finish kResamplerMode8To11. wrote_last.
Qed.

Lemma upto_push_11To16 :
  states_ok kResamplerMode11To16 s ->
  upto (push_11To16 garbage samplesIn lengthIn samplesOut maxLen outLen s)
       (outcome kResamplerMode11To16 lengthIn samplesOut maxLen outLen).
Proof.
  intros Hs. pose proof Hs as Hs'. cbn in Hs'. destruct_and? Hs'. unfold push_11To16. checks kResamplerMode11To16.
  stage upto_upsample_into. stage (upto_run_160 garbage n).
  finish kResamplerMode11To16. wrote_last.
Qed.

Lemma upto_push_11To32 :
  states_ok kResamplerMode11To32 s ->
  upto (push_11To32 garbage samplesIn lengthIn samplesOut maxLen outLen s)
       (outcome kResamplerMode11To32 lengthIn samplesOut maxLen outLen).
Proof.
  intros Hs. pose proof Hs as Hs'. cbn in Hs'. destruct_and? Hs'. unfold push_11To32. checks kResamplerMode11To32.
  stage upto_upsample_into. stage (upto_run_160 garbage n). stage upto_upsample_into.
  finish kResamplerMode11To32. wrote_last.
Qed.

Lemma upto_push_2To1 :
  states_ok kResamplerMode2To1 s ->
  upto (push_2To1 samplesIn lengthIn samplesOut maxLen outLen s)
       (outcome kResamplerMode2To1 lengthIn samplesOut maxLen outLen).
Proof.
  intros Hs. pose proof Hs as Hs'. cbn in Hs'. destruct_and? Hs'. unfold push_2To1. checks kResamplerMode2To1.
  stage upto_downsample_into.
  finish kResamplerMode2To1. wrote_last.
Qed.

Lemma upto_push_3To1 :
  states_ok kResamplerMode3To1 s ->
  upto (push_3To1 garbage samplesIn lengthIn samplesOut maxLen outLen s)
       (outcome kResamplerMode3To1 lengthIn samplesOut maxLen outLen).
Proof.
  intros Hs. pose proof Hs as Hs'. cbn in Hs'. destruct_and? Hs'. unfold push_3To1. checks kResamplerMode3To1.
  stage (upto_run_48To16 garbage n).
  finish kResamplerMode3To1. wrote_last.
Qed.

Lemma upto_push_4To1 :
  states_ok kResamplerMode4To1 s ->
  upto (push_4To1 garbage samplesIn lengthIn samplesOut maxLen outLen s)
       (outcome kResamplerMode4To1 lengthIn samplesOut maxLen outLen).
Proof.
  intros Hs. pose proof Hs as Hs'. cbn in Hs'. destruct_and? Hs'. unfold push_4To1. checks kResamplerMode4To1.
  stage upto_downsample_into. stage upto_downsample_into.
  finish kResamplerMode4To1. wrote_last.
Qed.

Lemma upto_push_6To1 :
  states_ok kResamplerMode6To1 s ->
  upto (push_6To1 garbage samplesIn lengthIn samplesOut maxLen outLen s)
       (outcome kResamplerMode6To1 lengthIn samplesOut maxLen outLen).
Proof.
  intros Hs. pose proof Hs as Hs'. cbn in Hs'. destruct_and? Hs'. unfold push_6To1. checks kResamplerMode6To1.
  stage (upto_run_48To16 garbage n). stage upto_downsample_into.
  finish kResamplerMode6To1. wrote_last.
Qed.

Lemma upto_push_12To1 :
  states_ok kResamplerMode12To1 s ->
  upto (push_12To1 garbage samplesIn lengthIn samplesOut maxLen outLen s)
       (outcome kResamplerMode12To1 lengthIn samplesOut maxLen outLen).
Proof.
  intros Hs. pose proof Hs as Hs'. cbn in Hs'. destruct_and? Hs'. unfold push_12To1. checks kResamplerMode12To1.
  stage (upto_run_48To16 garbage n). stage upto_downsample_into. stage upto_downsample_into.
  finish kResamplerMode12To1. wrote_last.
Qed.

Lemma upto_push_11To2 :
  states_ok kResamplerMode11To2 s ->
  upto (push_11To2 garbage samplesIn lengthIn samplesOut maxLen outLen s)
       (outcome kResamplerMode11To2 lengthIn samplesOut maxLen outLen).
Proof.
  intros Hs. pose proof Hs as Hs'. cbn in Hs'. destruct_and? Hs'. unfold push_11To2. checks kResamplerMode11To2.
  stage (upto_run_22To8 garbage n). stage upto_downsample_into.
  finish kResamplerMode11To2. wrote_last.
Qed.

Lemma upto_push_11To4 :
  states_ok kResamplerMode11To4 s ->
  upto (push_11To4 garbage samplesIn lengthIn samplesOut maxLen outLen s)
       (outcome kResamplerMode11To4 lengthIn samplesOut maxLen outLen).
Proof.
  intros Hs. pose proof Hs as Hs'. cbn in Hs'. destruct_and? Hs'. unfold push_11To4. checks kResamplerMode11To4.
  stage (upto_run_22To8 garbage n).
  finish kResamplerMode11To4. wrote_last.
Qed.

Lemma upto_push_11To8 :
  states_ok kResamplerMode11To8 s ->
  upto (push_11To8 garbage samplesIn lengthIn samplesOut maxLen outLen s)
       (outcome kResamplerMode11To8 lengthIn samplesOut maxLen outLen).
Proof.
  intros Hs. pose proof Hs as Hs'. cbn in Hs'. destruct_and? Hs'. unfold push_11To8. checks kResamplerMode11To8.
  stage (upto_run_8_11 garbage n).
  finish kResamplerMode11To8. wrote_last.
Qed.

Lemma upto_push_3To2 :
  states_ok kResamplerMode3To2 s ->
  upto (push_3To2 garbage samplesIn lengthIn samplesOut maxLen outLen s)
       (outcome kResamplerMode3To2 lengthIn samplesOut maxLen outLen).
Proof.
  intros Hs. pose proof Hs as [Hs1 Hs2]. unfold push_3To2. checks kResamplerMode3To2.
  stage upto_upsample_into.
  destruct (Nat.eqb_spec (lengthIn * 2 mod 480) 0) as [E|E]; cbn [negb].
  - stage (upto_run_48To16 garbage (lengthIn / 240)). finish kResamplerMode3To2. wrote_last.
  - apply (upto_rejected kResamplerMode3To2); [by split|]. unfold accepts.
    rewrite (proj2 (Nat.eqb_neq _ _)); [done|]. cbn [block_of]. lia.
Qed.

Lemma upto_push_1To1 :
  samples16 samplesIn -> (lengthIn <= length samplesOut)%nat ->
  upto (push_1To1 samplesIn lengthIn samplesOut s)
       (outcome kResamplerMode1To1 lengthIn samplesOut maxLen outLen).
Proof.
  intros H16 Hl. unfold push_1To1. upto_step. unfold load_at.
  rewrite (proj2 (Nat.leb_le _ _)) by lia. do 2 upto_step.
  assert (L : length (take lengthIn (drop 0 samplesIn)) = lengthIn)
    by (rewrite length_take, length_drop; lia).
  eapply upto_mono; [apply store_wrote; [by apply Forall_take, Forall_drop|lia]|].
  intros out' Hw. rewrite L in Hw. apply (upto_accepted kResamplerMode1To1); [done| | |done].
  - unfold accepts. cbn [block_of]. by rewrite (proj2 (Nat.eqb_eq _ _)) by lia.
  - unfold out_length. cbn [rate_in rate_out]. lia.
Qed.

Lemma upto_push_mode m :
  states_ok m s -> samples16 samplesIn ->
  (m = kResamplerMode1To1 -> (lengthIn <= length samplesOut)%nat) ->
  upto (push_mode garbage samplesIn lengthIn samplesOut maxLen outLen s m)
       (outcome m lengthIn samplesOut maxLen outLen).
Proof.
  intros Hs H16 H11. destruct m; cbn [push_mode];
    first [ by apply upto_push_1To1; auto | by apply upto_push_1To2 | by apply upto_push_1To3
          | by apply upto_push_1To4 | by apply upto_push_1To6 | by apply upto_push_1To12
          | by apply upto_push_2To3 | by apply upto_push_2To11 | by apply upto_push_4To11
          | by apply upto_push_8To11 | by apply upto_push_11To16 | by apply upto_push_11To32
          | by apply upto_push_2To1 | by apply upto_push_3To1 | by apply upto_push_4To1
          | by apply upto_push_6To1 | by apply upto_push_12To1 | by apply upto_push_3To2
          | by apply upto_push_11To2 | by apply upto_push_11To4 | by apply upto_push_11To8 ].
Qed.
End push_mono.

(** ** Stereo *)

Lemma zip2_cons_inv n (l : list Z) :
  (2 * n <= length l)%nat -> exists L R, length L = n /\ length R = n /\
    l = zip2 L R ++ drop (2 * n) l.
Proof.
  revert l. induction n as [|n IH]; intros l Hl; [by exists [], []|].
  destruct l as [|a [|b l]]; cbn in Hl; try lia.
  destruct (IH l ltac:(lia)) as (L & R & HL & HR & E). exists (a :: L), (b :: R).
  split; [cbn; lia|]. split; [cbn; lia|]. cbn [zip2 app].
  replace (2 * S n)%nat with (S (S (2 * n))) by lia. cbn [drop]. by rewrite <- E.
Qed.

Lemma zip2_lookup L R k :
  length L = length R ->
  zip2 L R !! (2 * k)%nat = L !! k /\ zip2 L R !! (2 * k + 1)%nat = R !! k.
Proof.
  revert R k. induction L as [|a L IH]; intros [|b R] k H; try done.
  destruct k as [|k]; [done|]. replace (2 * S k)%nat with (S (S (2 * k))) by lia.
  cbn [zip2 lookup]. apply (IH R k). cbn in H. lia.
Qed.

Lemma zip2_app A B C D :
  length A = length C -> zip2 (A ++ B) (C ++ D) = zip2 A C ++ zip2 B D.
Proof.
  revert C. induction A as [|a A IH]; intros [|c C] H; try done. cbn. rewrite IH; [done|].
  cbn in H. lia.
Qed.

Lemma zip2_samples A C : samples16 (zip2 A C) -> length A = length C -> samples16 A /\ samples16 C.
Proof.
  revert C. induction A as [|a A IH]; intros [|c C] H E; try done.
  cbn [zip2] in H. inversion H as [|? ? Ha H']; subst. inversion H' as [|? ? Hc H'']; subst.
  destruct (IH C H'' ltac:(cbn in E; lia)) as [? ?]. split; by constructor.
Qed.

(** The element at position [k] of a segment takes its place. *)
Lemma write_next (l xs : list Z) k v :
  length xs = k -> (k < length l)%nat ->
  wr (xs ++ drop k l) (Z.of_nat k) v = Ok ((xs ++ [v]) ++ drop (S k) l).
Proof.
  intros Hx Hk. rewrite wr_insert by (rewrite length_app, length_drop; lia).
  rewrite <- app_assoc. subst k. rewrite <- (Nat.add_0_r (length xs)) at 1.
  rewrite insert_app_r.
  destruct (lookup_lt_is_Some_2 l _ Hk) as [y Ey]. by rewrite (drop_S _ _ _ Ey).
Qed.

Lemma split_loop_spec n k L R rest l r :
  length L = length R -> (k + n = length L)%nat -> length l = length L -> length r = length L ->
  split_loop n (Z.of_nat (2 * k)) (zip2 L R ++ rest) (take k L ++ drop k l) (take k R ++ drop k r)
  = Ok (L, R).
Proof.
  intros HLR. revert k. induction n as [|n IH]; intros k Hk Hl Hr.
  { cbn. rewrite !take_ge, !drop_ge, !app_nil_r by lia. done. }
  destruct (lookup_lt_is_Some_2 L k ltac:(lia)) as [x Ex].
  destruct (lookup_lt_is_Some_2 R k ltac:(lia)) as [y Ey].
  destruct (zip2_lookup L R k HLR) as [E1 E2]. cbn [split_loop].
  rewrite (rd_nat _ _ x) by (by apply lookup_app_l_Some; rewrite E1). rewrite bind_ok.
  replace (Z.of_nat (2 * k) + 1) with (Z.of_nat (2 * k + 1)) by lia.
  rewrite (rd_nat _ _ y) by (by apply lookup_app_l_Some; rewrite E2).
  replace (Z.shiftr (Z.of_nat (2 * k)) 1) with (Z.of_nat k)
    by (rewrite Z.shiftr_div_pow2 by lia; change (2 ^ 1) with 2; lia).
  rewrite (write_next l (take k L)), bind_ok, bind_ok by (rewrite ?length_take; lia).
  rewrite (write_next r (take k R)), bind_ok by (rewrite ?length_take; lia).
  rewrite <- (take_S_r _ _ _ Ex), <- (take_S_r _ _ _ Ey).
  replace (Z.of_nat (2 * k) + 2) with (Z.of_nat (2 * S k)) by lia. apply IH; lia.
Qed.

Lemma join_loop_spec n k X Y out :
  (k + n <= length X)%nat -> (k + n <= length Y)%nat -> (2 * (k + n) <= length out)%nat ->
  join_loop n (Z.of_nat k) X Y (zip2 (take k X) (take k Y) ++ drop (2 * k) out) =
  Ok (zip2 (take (k + n) X) (take (k + n) Y) ++ drop (2 * (k + n)) out).
Proof.
  revert k. induction n as [|n IH]; intros k HX HY Ho.
  { cbn [join_loop]. by rewrite Nat.add_0_r. }
  destruct (lookup_lt_is_Some_2 X k ltac:(lia)) as [x Ex].
  destruct (lookup_lt_is_Some_2 Y k ltac:(lia)) as [y Ey]. cbn [join_loop].
  assert (Lz : length (zip2 (take k X) (take k Y)) = (2 * k)%nat)
    by (rewrite zip2_length; rewrite !length_take; lia).
  rewrite (rd_nat _ _ _ Ex), bind_ok.
  replace (Z.of_nat k * 2) with (Z.of_nat (2 * k)) by lia.
  rewrite write_next, bind_ok by (done || lia).
  rewrite (rd_nat _ _ _ Ey), bind_ok.
  replace (Z.of_nat (2 * k) + 1) with (Z.of_nat (S (2 * k))) by lia.
  rewrite write_next, bind_ok by (rewrite ?length_app; cbn; lia).
  rewrite <- (app_assoc (zip2 _ _) [x] [y]). cbn [app].
  replace (zip2 (take k X) (take k Y) ++ [x; y]) with (zip2 (take (S k) X) (take (S k) Y)).
  2:{ rewrite (take_S_r _ _ _ Ex), (take_S_r _ _ _ Ey), zip2_app by (rewrite !length_take; lia).
      done. }
  replace (S (S (2 * k))) with (2 * S k)%nat by lia.
  replace (Z.of_nat k + 1) with (Z.of_nat (S k)) by lia.
  rewrite IH by lia. by replace (k + S n)%nat with (S k + n)%nat by lia.
Qed.

(** ** Well-formed resamplers *)

Definition mono_ok (m : ResamplerMode) (r : Resampler) : Prop :=
  my_mode_ r = m /\ num_channels_ r = 1%nat /\ states_ok m (own_states r).

(** A resampler for [c] channels in mode [m]. *)
Definition resampler_ok (m : ResamplerMode) (c : nat) (r : Resampler) : Prop :=
  (c = 1%nat /\ mono_ok m r) \/
  (c = 2%nat /\ my_mode_ r = m /\ num_channels_ r = 2%nat /\
   exists sl sr, slave_left_ r = Some sl /\ slave_right_ r = Some sr /\ mono_ok m sl /\ mono_ok m sr).

Lemma reset_mono new_mono' r in_hz out_hz m :
  ComputeResamplerMode in_hz out_hz = Ok (Some m) ->
  0 < in_hz <= INT32_MAX -> 0 < out_hz <= INT32_MAX ->
  exists r', reset_with new_mono' r in_hz out_hz 1 = Ok (0, r') /\ mono_ok m r' /\
    my_in_frequency_khz_ r' = in_hz / 1000 /\ my_out_frequency_khz_ r' = out_hz / 1000.
Proof.
  intros E Hi Ho. unfold reset_with. cbn [Nat.eqb orb negb]. rewrite E, bind_ok.
  assert (Hd : forall x, 0 < x <= INT32_MAX -> div32 x 1000 = Ok (x / 1000)).
  { intros x Hx. apply wp_pure, wp_div32; [lia|unfold i32; lia|].
    by rewrite Z.quot_div_nonneg by lia. }
  rewrite !Hd by done. rewrite !bind_ok. eexists. split; [reflexivity|].
  split; [|done]. split; [done|]. split; [done|]. apply create_states_ok.
Qed.

Section push_outcome.
Context (garbage : nat -> Z) (m : ResamplerMode).

Lemma push_mono_eq r x len out maxLen outLen :
  num_channels_ r = 1%nat ->
  Push garbage r x len out maxLen outLen =
  ('(code, out, outLen, s) ←
     push_mode garbage x len out maxLen outLen (own_states r) (my_mode_ r);
   Ok (code, out, outLen,
       MkResampler s (my_in_frequency_khz_ r) (my_out_frequency_khz_ r) (my_mode_ r)
         (num_channels_ r) (slave_left_ r) (slave_right_ r))).
Proof. destruct r. cbn. by intros ->. Qed.

Lemma upto_push_mono r x len out maxLen outLen :
  mono_ok m r -> (len <= length x)%nat -> (maxLen <= length out)%nat -> samples16 x ->
  (m = kResamplerMode1To1 -> (len <= maxLen)%nat) ->
  upto (Push garbage r x len out maxLen outLen) (fun '(code, out', outLen', r') =>
    mono_ok m r' /\
    if accepts m len maxLen
    then code = 0 /\ outLen' = out_length m len /\ wrote outLen' out out'
    else code = -1 /\ outLen' = outLen /\ out' = out).
Proof.
  intros (Hm & Hn & Hs) Hl Ho H16 H11. rewrite push_mono_eq by done. upto_step.
  rewrite Hm. eapply upto_mono; [apply upto_push_mode; auto; intros E; specialize (H11 E); lia|].
  intros [[[code out'] outLen'] s'] [Hs' Hout]. upto_step. by split.
Qed.

Lemma wrote_split n out out' : wrote n out out' -> samples16 (take n out') /\ length (take n out') = n.
Proof.
  intros (xs & Hx & L & -> & H). rewrite take_app_length' by done. done.
Qed.

(** A stereo call on interleaved channels. *)
Lemma upto_push_stereo r L R rest len out maxLen outLen :
  resampler_ok m 2 r -> length L = len -> length R = len -> samples16 L -> samples16 R ->
  (maxLen <= length out)%nat -> (m = kResamplerMode1To1 -> (len <= maxLen / 2)%nat) ->
  upto (Push garbage r (zip2 L R ++ rest) (len * 2) out maxLen outLen)
    (fun '(code, out', outLen', r') =>
      resampler_ok m 2 r' /\
      if accepts m len (maxLen / 2)
      then code = 0 /\ outLen' = (2 * out_length m len)%nat /\ wrote outLen' out out'
      else code = -1 /\ outLen' = outLen /\ out' = out).
Proof.
  intros [[? _]|(_ & Hm & Hn & sl & sr & El & Er & Ml & Mr)] HL HR SL SR Ho H11; [done|].
  destruct r as [st fi fo mode ch osl osr]. cbn in Hm, Hn, El, Er. subst. cbn [Push num_channels_ Nat.eqb].
  rewrite rounds_mul, Nat.div_mul by lia. cbn [slave_left_ slave_right_ own_states
    my_in_frequency_khz_ my_out_frequency_khz_ my_mode_ num_channels_].
  pose proof (split_loop_spec (length L) 0 L R rest (malloc garbage (length L))
    (malloc garbage (length L)) (eq_sym HR) ltac:(lia) (malloc_length _ _) (malloc_length _ _)) as E.
  rewrite !take_0, !app_nil_l, !drop_0 in E. change (Z.of_nat (2 * 0)) with 0 in E.
  rewrite E, bind_ok. cbv zeta. upto_step.
  eapply upto_mono; [apply upto_push_mono; rewrite ?malloc_length; auto; lia|].
  intros [[[c1 o1] n1] r1] [M1 H1]. upto_step.
  eapply upto_mono; [apply upto_push_mono; rewrite ?malloc_length; auto; lia|].
  intros [[[c2 o2] n2] r2] [M2 H2].
  destruct (accepts m (length L) (maxLen / 2)) eqn:Ea.
  - destruct H1 as (-> & -> & W1), H2 as (-> & -> & W2). rewrite Nat.eqb_refl. cbn [Z.lor Z.eqb negb orb].
    pose proof (wrote_length _ _ _ W1) as L1. pose proof (wrote_length _ _ _ W2) as L2.
    destruct (wrote_split _ _ _ W1) as [S1 K1]. destruct (wrote_split _ _ _ W2) as [S2 K2].
    rewrite malloc_length in L1, L2.
    assert (Hn : (out_length m (length L) <= maxLen / 2)%nat).
    { destruct W1 as (? & _ & _ & _ & H). by rewrite malloc_length in H. }
    pose proof (join_loop_spec (out_length m (length L)) 0 o1 o2 out ltac:(lia) ltac:(lia) ltac:(lia)) as J.
    rewrite !take_0, drop_0 in J. cbn [zip2 app Nat.add] in J. change (Z.of_nat 0) with 0 in J.
    rewrite J, bind_ok. apply upto_ret. split; [right; split; [done|]; repeat split; by exists r1, r2|].
    split; [done|]. split; [done|].
    exists (zip2 (take (out_length m (length L)) o1) (take (out_length m (length L)) o2)).
    split_and!; [by apply zip2_Forall|rewrite zip2_length; lia|done|lia].
  - destruct H1 as (-> & -> & ->), H2 as (-> & -> & ->). cbn [Z.lor Z.eqb negb orb].
    apply upto_ret. split; [right; split; [done|]; repeat split; by exists r1, r2|]. done.
Qed.
End push_outcome.

(** * Theorems *)

(** On positive rates [Reset] returns 0 exactly when there are one or two channels
    and one of the 21 modes has the ratio of the rates; it then leaves a well-formed
    resampler of that mode (two mono ones for stereo) that remembers the rates in
    kHz.  Otherwise it returns -1 and changes nothing.  In particular Euclid's
    algorithm ends. *)
Lemma Reset_outcome r in_hz out_hz c :
  0 < in_hz <= INT32_MAX -> 0 < out_hz <= INT32_MAX ->
  (exists m r', (c = 1%nat \/ c = 2%nat) /\ in_hz * (ratio m).2 = out_hz * (ratio m).1 /\
     Reset r in_hz out_hz c = Ok (0, r') /\ resampler_ok m c r' /\
     my_in_frequency_khz_ r' = in_hz / 1000 /\ my_out_frequency_khz_ r' = out_hz / 1000) \/
  ((c <> 1%nat /\ c <> 2%nat \/ forall m, in_hz * (ratio m).2 <> out_hz * (ratio m).1) /\
   Reset r in_hz out_hz c = Ok (-1, r)).
Proof.
  intros Hi Ho. destruct (compute_mode in_hz out_hz Hi Ho) as (om & E & Hom).
  destruct (decide (c = 1%nat \/ c = 2%nat)) as [Hc|Hc].
  2:{ right. split; [left; lia|]. unfold Reset, reset_with.
      by rewrite (proj2 (Nat.eqb_neq c 1)), (proj2 (Nat.eqb_neq c 2)) by lia. }
  destruct om as [m|].
  2:{ right. split; [right; intros m Hm; by apply Hom in Hm|]. unfold Reset, reset_with.
      destruct Hc as [-> | ->]; cbn [Nat.eqb orb negb]; by rewrite E. }
  left. exists m. pose proof (proj1 (Hom m) eq_refl) as Hm.
  destruct Hc as [-> | ->].
  - destruct (reset_mono (new_mono in_hz out_hz) r in_hz out_hz m E Hi Ho) as (r' & E' & Hr & ? & ?).
    exists r'. split_and!; try done; [by left|by left].
  - destruct (reset_mono (Fault NullPointer) Resampler_default in_hz out_hz m E Hi Ho)
      as (s & Es & Hs & Hki & Hko).
    eexists. split; [by right|]. split; [done|].
    unfold Reset, reset_with. cbn [Nat.eqb orb negb]. rewrite E, bind_ok.
    assert (Hd : forall x, 0 < x <= INT32_MAX -> div32 x 1000 = Ok (x / 1000)).
    { intros x Hx. apply wp_pure, wp_div32; [lia|unfold i32; lia|].
      by rewrite Z.quot_div_nonneg by lia. }
    rewrite !Hd, !bind_ok by done. unfold new_mono. rewrite Es, !bind_ok.
    split; [reflexivity|]. split; [|done].
    right. split; [done|]. split; [done|]. split; [done|]. by exists s, s.
Qed.

(** C39: [Push] on a well-formed resampler with one or two channels, on 16-bit samples, the
    same number for each channel, and an output buffer of at least [maxLen] samples, in the
    mode 1:1 one that the input fits into, never reads or writes outside
    its buffers, whatever the temporary memory holds: it stops only where a filter
    overflows.  If the samples per channel are whole blocks of the mode and the
    resampled channels fit, it returns 0 and sets [outLen] to the resampled length,
    writes that many 16-bit samples and leaves the rest of the buffer alone;
    otherwise it returns -1 and changes neither the buffer nor [outLen].  The
    resampler stays well-formed.  [resampler_unchecked] shows what happens otherwise. *)
Theorem Push_outcome garbage m c r samplesIn len samplesOut maxLen outLen :
  resampler_ok m c r -> samples16 samplesIn -> (c * len <= length samplesIn)%nat ->
  (maxLen <= length samplesOut)%nat -> (m = kResamplerMode1To1 -> (c * len <= maxLen)%nat) ->
  upto (Push garbage r samplesIn (c * len) samplesOut maxLen outLen)
    (fun '(code, samplesOut', outLen', r') =>
      resampler_ok m c r' /\
      if accepts m len (maxLen / c)
      then code = 0 /\ outLen' = (c * out_length m len)%nat /\ wrote outLen' samplesOut samplesOut'
      else code = -1 /\ outLen' = outLen /\ samplesOut' = samplesOut).
Proof.
  intros Hr H16 Hl Ho H11. destruct Hr as [[-> Hr]|Hr2].
  - rewrite Nat.div_1_r, !Nat.mul_1_l in *.
    eapply upto_mono; [by apply upto_push_mono|].
    intros [[[code out'] outLen'] r'] [Hr' H]. split; [by left|].
    by destruct (accepts m len maxLen).
  - assert (c = 2%nat) as -> by (by destruct Hr2).
    destruct (zip2_cons_inv len samplesIn Hl) as (L & R & HL & HR & E).
    rewrite E in H16. apply Forall_app in H16 as [H16 _].
    destruct (zip2_samples L R H16 ltac:(lia)) as [SL SR].
    rewrite E, (Nat.mul_comm 2 len). apply upto_push_stereo; try done; [by right|].
    intros Hm. specialize (H11 Hm). lia.
Qed.

Lemma Push_outcome_witness :
  upto (Push (fun _ => 12345) (MkResampler (create_states kResamplerMode2To3) 32 48
                                kResamplerMode2To3 1 None None)
          (replicate 160 1000) (1 * 160) (replicate 250 7) 240 99)
    (fun '(code, samplesOut', outLen', r') =>
      resampler_ok kResamplerMode2To3 1 r' /\
      if accepts kResamplerMode2To3 160 (240 / 1)
      then code = 0 /\ outLen' = (1 * out_length kResamplerMode2To3 160)%nat /\
           wrote outLen' (replicate 250 7) samplesOut'
      else code = -1 /\ outLen' = 99%nat /\ samplesOut' = replicate 250 7).
Proof.
  apply (Push_outcome (fun _ => 12345) kResamplerMode2To3 1); [|by apply Forall_replicate| | |done];
    [|cbn; lia|cbn; lia].
  left. split; [done|]. split; [done|]. split; [done|]. apply create_states_ok.
Defined.

(** Four ways in which the class does not do what its header says (all methods return
    0 on success and -1 on failure; all states are reset if any parameter has
    changed). *)
Lemma resampler_unchecked garbage :
  Resampler_new 8000 0 1 = Fault DivByZero /\
  (exists r, Resampler_new 8000 16000 1 = Ok r /\
     Reset r 8000 16500 1 = Ok (-1, r) /\ ResetIfNeeded r 8000 16500 1 = Ok (0, r)) /\
  (exists r, Resampler_new 8000 8000 1 = Ok r /\
     Push garbage r [1; 2; 3] 3 [0; 0] 2 0 = Fault OutOfBounds) /\
  (exists r, Resampler_new 8000 16000 2 = Ok r /\
     Push garbage r [1; 2; 3] 3 (replicate 10 0) 10 0 = Fault OutOfBounds).
Proof.
  split; [done|]. split; [|split]; eexists; (split; [vm_compute; reflexivity|]).
  - split; vm_compute; reflexivity.
  - reflexivity.
  - reflexivity.
Qed.
