(* ===== verification/Vad.v ===== *)
(** * Voice activity detector

    [AgcVad], [WebRtcAgc_InitVad] and [WebRtcAgc_ProcessVad] of
    [digital_agc/digital_agc.c]: ten subframes of 1 ms are downsampled to
    4 kHz and high-pass filtered, their energy is turned into a level in dB,
    and short- and long-term statistics of the level give a log likelihood
    ratio of voice activity. *)
From S2P Require Import Prelude CInt Spl.

Definition kAvgDecayTime : Z := 250.

Record AgcVad := {
  downState : list Z;
  HPstate : Z;
  counter : Z;
  logRatio : Z;
  meanLongTerm : Z;
  varianceLongTerm : Z;
  stdLongTerm : Z;
  meanShortTerm : Z;
  varianceShortTerm : Z;
  stdShortTerm : Z
}.

(** Every field is assigned: nothing of the previous contents is kept. *)
Definition WebRtcAgc_InitVad : AgcVad := {|
  downState := replicate 8 0;
  HPstate := 0;
  counter := 3;
  logRatio := 0;
  meanLongTerm := Z.shiftl 15 10;
  varianceLongTerm := Z.shiftl 500 8;
  stdLongTerm := 0;
  meanShortTerm := Z.shiftl 15 10;
  varianceShortTerm := Z.shiftl 500 8;
  stdShortTerm := 0
|}.

(** High-pass filter and energy of one 4 kHz sample. *)
Definition vad_hp_sample (hp_nrg : Z * Z) (b : Z) : res (Z * Z) :=
  let '(HPstate, nrg) := hp_nrg in
  out ← add32 b HPstate;
  tmp32 ← mul32 600 out;
  h ← sub32 (Z.shiftr tmp32 10) b;
  let HPstate := to_i16 h in
  q ← div32 out 64;
  p ← mul32 out q;
  let nrg := addu nrg p in
  r ← rem32 out 64;
  p ← mul32 out r;
  p ← div32 p 64;
  let nrg := addu nrg p in
  Ok (HPstate, nrg).

(** The mean of each pair of samples: 16 kHz to 8 kHz. *)
Fixpoint vad_average_pairs (n : nat) (inp : list Z) : res (list Z) :=
  match n with
  | O => Ok []
  | S n' =>
      a ← rd inp 0;
      b ← rd inp 1;
      tmp32 ← add32 a b;
      rest ← vad_average_pairs n' (drop 2 inp);
      Ok (to_i16 (Z.shiftr tmp32 1) :: rest)
  end.

(** One subframe; [vad_loop] is the input pointer, the filter state, the
    high-pass state and the energy. *)
Record vad_loop := VadLoop {
  vl_in : list Z; vl_down : list Z; vl_hp : Z; vl_nrg : Z
}.

Definition vad_subframe (nrSamples : Z) (subfr : Z) (l : vad_loop)
    : res vad_loop :=
  '(buf2, down, inp) ←
    (if nrSamples =? 160 then
       buf1 ← vad_average_pairs 8 (vl_in l);
       '(buf2, down) ← WebRtcSpl_DownsampleBy2 buf1 8 (vl_down l);
       Ok (buf2, down, drop 16 (vl_in l))
     else
       '(buf2, down) ← WebRtcSpl_DownsampleBy2 (vl_in l) 8 (vl_down l);
       Ok (buf2, down, drop 8 (vl_in l)));
  '(hp, nrg) ← each vad_hp_sample (vl_hp l, vl_nrg l) (take 4 buf2);
  Ok (VadLoop inp down hp nrg).

(** Leading zeros of the energy by bisection. *)
Definition vad_leading_zeros (nrg : Z) : res Z :=
  let zeros := if Z.land 4294901760 nrg =? 0 then 16 else 0 in
  s ← shlu nrg zeros;
  let zeros := if Z.land 4278190080 s =? 0 then zeros + 8 else zeros in
  s ← shlu nrg zeros;
  let zeros := if Z.land 4026531840 s =? 0 then zeros + 4 else zeros in
  s ← shlu nrg zeros;
  let zeros := if Z.land 3221225472 s =? 0 then zeros + 2 else zeros in
  s ← shlu nrg zeros;
  let zeros := if Z.land 2147483648 s =? 0 then zeros + 1 else zeros in
  Ok zeros.

(** Short-term mean, variance and standard deviation. *)
Definition vad_update_short (mean var dB : Z) : res (Z * Z * Z) :=
  t ← mul32 mean 15;
  tmp32 ← add32 t dB;
  let mean := to_i16 (Z.shiftr tmp32 4) in
  t ← mul32 dB dB;
  let tmp32 := Z.shiftr t 12 in
  t ← mul32 var 15;
  tmp32 ← add32 tmp32 t;
  var ← div32 tmp32 16;
  tmp32 ← mul32 mean mean;
  t ← shl32 var 12;
  tmp32 ← sub32 t tmp32;
  r ← WebRtcSpl_Sqrt tmp32;
  Ok (mean, var, to_i16 r).

(** Long-term mean, variance and standard deviation. *)
Definition vad_update_long (mean var counter dB : Z) : res (Z * Z * Z) :=
  t ← mul32 mean counter;
  tmp32 ← add32 t dB;
  n ← WebRtcSpl_AddSatW16 counter 1;
  mean ← WebRtcSpl_DivW32W16ResW16 tmp32 n;
  t ← mul32 dB dB;
  let tmp32 := Z.shiftr t 12 in
  t ← mul32 var counter;
  tmp32 ← add32 tmp32 t;
  n ← WebRtcSpl_AddSatW16 counter 1;
  var ← WebRtcSpl_DivW32W16 tmp32 n;
  tmp32 ← mul32 mean mean;
  t ← shl32 var 12;
  tmp32 ← sub32 t tmp32;
  r ← WebRtcSpl_Sqrt tmp32;
  Ok (mean, var, to_i16 r).

(** The voice activity measure, limited to [-2048, 2048] (Q10). *)
Definition vad_log_ratio (logRatio mean std dB : Z) : res Z :=
  let tmp16 := Z.shiftl 3 12 in
  d ← sub32 dB mean;
  tmp32 ← mul32 tmp16 (to_i16 d);
  tmp32 ← WebRtcSpl_DivW32W16 tmp32 std;
  let tmpU16 := Z.shiftl 13 12 in
  tmp32b ← WEBRTC_SPL_MUL_16_U16 logRatio tmpU16;
  tmp32 ← add32 tmp32 (Z.shiftr tmp32b 10);
  let logRatio := to_i16 (Z.shiftr tmp32 6) in
  let logRatio := if 2048 <? logRatio then 2048 else logRatio in
  let logRatio := if logRatio <? -2048 then -2048 else logRatio in
  Ok logRatio.

(** The level of the frame: filters, energy, dB. *)
Definition vad_level (state : AgcVad) (inp : list Z) (nrSamples : Z)
    : res (vad_loop * Z) :=
  l ← for_ 10 0 (vad_subframe nrSamples)
        (VadLoop inp (downState state) (HPstate state) 0);
  zeros ← vad_leading_zeros (vl_nrg l);
  t ← sub32 15 zeros;
  t ← mul32 t 2048;
  Ok (l, to_i16 t).

(** The statistics, updated with the level of the frame. *)
Definition vad_update (state : AgcVad) (down : list Z) (hp dB : Z)
    : res AgcVad :=
  let cnt := if counter state <? kAvgDecayTime
             then to_i16 (counter state + 1) else counter state in
  '(mS, vS, sS) ←
    vad_update_short (meanShortTerm state) (varianceShortTerm state) dB;
  '(mL, vL, sL) ←
    vad_update_long (meanLongTerm state) (varianceLongTerm state) cnt dB;
  lr ← vad_log_ratio (logRatio state) mL sL dB;
  Ok {| downState := down; HPstate := hp; counter := cnt; logRatio := lr;
        meanLongTerm := mL; varianceLongTerm := vL; stdLongTerm := sL;
        meanShortTerm := mS; varianceShortTerm := vS; stdShortTerm := sS |}.

(** Returns the new state and the log ratio. *)
Definition WebRtcAgc_ProcessVad (state : AgcVad) (inp : list Z)
    (nrSamples : Z) : res (AgcVad * Z) :=
  '(l, dB) ← vad_level state inp nrSamples;
  state ← vad_update state (vl_down l) (vl_hp l) dB;
  Ok (state, logRatio state).

(** * Lemmas *)

#[local] Arguments vad_hp_sample : simpl never.

(** ** Energy *)

(** The two-part accumulation adds exactly [floor (out * out / 64)]. *)
Lemma energy_split out :
  out * Z.quot out 64 + Z.quot (out * Z.rem out 64) 64 = (out * out) / 64.
Proof.
  pose proof (Z.quot_rem' out 64) as E.
  set (q := Z.quot out 64) in *. set (r := Z.rem out 64) in *.
  assert (Hs : 0 <= out * r).
  { pose proof (Z.rem_sign_mul out 64 ltac:(lia)). fold r in H. lia. }
  rewrite Z.quot_div_nonneg by lia.
  replace (out * out) with (out * r + out * q * 64) 
    by (transitivity (out * (64 * q + r)); [ring|by rewrite <- E]).
  rewrite Z.div_add by lia. lia.
Qed.

Lemma energy_parts s :
  -65536 <= s <= 65536 ->
  0 <= s * Z.quot s 64 <= 67108864 /\ 0 <= s * Z.rem s 64 <= 4194304.
Proof.
  intros Hs.
  assert (Hq : -1024 <= Z.quot s 64 <= 1024 /\ -63 <= Z.rem s 64 <= 63 /\
               (0 <= s -> 0 <= Z.quot s 64 /\ 0 <= Z.rem s 64) /\
               (s <= 0 -> Z.quot s 64 <= 0 /\ Z.rem s 64 <= 0)) by cint.
  destruct (Z.le_ge_cases 0 s); nia.
Qed.

(** The high-pass filter and energy without casts and wrap-around. *)
Definition hp_spec (b HPstate : Z) : Z :=
  (600 * (b + HPstate)) / 1024 - b.
Definition energy_spec (b HPstate : Z) : Z :=
  ((b + HPstate) * (b + HPstate)) / 64.

Lemma energy_bounds b h :
  i16 b -> i16 h -> 0 <= energy_spec b h <= 67108864.
Proof.
  unfold i16, energy_spec. intros Hb Hh.
  assert (Hs : -65536 <= b + h <= 65534) by lia.
  generalize dependent (b + h). intros s Hs.
  assert (0 <= s * s <= 65536 * 65536) by nia.
  split; [apply Z.div_pos|apply Z.div_le_upper_bound]; lia.
Qed.

Lemma vad_hp_sample_exact b h nrg :
  i16 b -> i16 h -> 0 <= nrg -> nrg + energy_spec b h <= UINT32_MAX ->
  i16 (hp_spec b h) /\
  vad_hp_sample (h, nrg) b = Ok (hp_spec b h, nrg + energy_spec b h).
Proof.
  intros Hb Hh Hn Hsum.
  assert (Hhp : i16 (hp_spec b h)) by (unfold hp_spec; cint).
  split; [done|]. apply wp_pure. unfold vad_hp_sample.
  pose proof (energy_split (b + h)) as HE.
  unfold energy_spec in *.
  do 2 wp_step. do 2 wp_step. do 2 wp_step. do 2 wp_step.
  destruct (energy_parts (b + h)) as [Hq0 Hr0]; [unfold i16 in *; lia|].
  wp_step. apply wp_mul32; [unfold i32; lia|].
  do 2 wp_step.
  wp_step. apply wp_mul32; [unfold i32; lia|].
  remember ((b + h) * Z.rem (b + h) 64) as pr eqn:Epr.
  remember ((b + h) * Z.quot (b + h) 64) as pq eqn:Epq.
  do 2 wp_step. wp_step.
  assert (E1 : to_i16 (Z.shiftr (600 * (b + h)) 10 - b) = hp_spec b h).
  { rewrite Z.shiftr_div_pow2 by lia. apply to_i16_id. exact Hhp. }
  rewrite E1. f_equal. rewrite <- HE in Hsum |- *.
  assert (0 <= Z.quot pr 64) by (apply Z.quot_pos; lia).
  unfold addu, to_u32. rewrite (Z.mod_small (nrg + pq)), Z.mod_small; lia.
Qed.

(** Exact energy of a list of 4 kHz samples. *)
Fixpoint hp_run (h : Z) (bs : list Z) : Z * Z :=
  match bs with
  | [] => (h, 0)
  | b :: bs' => let '(h', e) := hp_run (hp_spec b h) bs' in
                (h', energy_spec b h + e)
  end.

Lemma hp_run_bounds bs h :
  samples16 bs -> i16 h ->
  0 <= (hp_run h bs).2 <= 67108864 * zlen bs.
Proof.
  intros Hbs. revert h. induction Hbs as [|b bs Hb Hbs IH]; intros h Hh; simpl.
  { unfold zlen. simpl. lia. }
  pose proof (energy_bounds b h Hb Hh).
  assert (Hh' : i16 (hp_spec b h)) by (unfold hp_spec; cint).
  specialize (IH _ Hh'). destruct (hp_run (hp_spec b h) bs) as [h' e].
  simpl in *. unfold zlen in *. simpl length. lia.
Qed.

Lemma vad_hp_exact bs h nrg :
  samples16 bs -> i16 h -> 0 <= nrg ->
  nrg + (hp_run h bs).2 <= UINT32_MAX ->
  i16 (hp_run h bs).1 /\
  each vad_hp_sample (h, nrg) bs =
    Ok ((hp_run h bs).1, nrg + (hp_run h bs).2).
Proof.
  intros Hbs. revert h nrg.
  induction Hbs as [|b bs Hb Hbs IH]; intros h nrg Hh Hn Hsum; simpl in *.
  { by rewrite Z.add_0_r. }
  pose proof (energy_bounds b h Hb Hh).
  assert (Hh' : i16 (hp_spec b h)) by (unfold hp_spec; cint).
  pose proof (hp_run_bounds bs _ Hbs Hh') as Hb2.
  specialize (IH (hp_spec b h) (nrg + energy_spec b h) Hh' ltac:(lia)).
  destruct (hp_run (hp_spec b h) bs) as [h' e]. simpl in *.
  destruct (vad_hp_sample_exact b h nrg) as [_ ->]; [done..|lia|].
  simpl. destruct IH as [? ->]; [lia|]. split; [done|]. by rewrite Z.add_assoc.
Qed.

(** ** Leading zeros *)

Lemma high_mask k n :
  0 <= k <= 32 -> 0 <= n < 2 ^ 32 ->
  (Z.land (2 ^ 32 - 2 ^ k) n =? 0) = (n <? 2 ^ k).
Proof.
  intros Hk Hn.
  assert (Hp : 0 < 2 ^ k) by (apply Z.pow_pos_nonneg; lia).
  assert (Hpp : 2 ^ 32 = 2 ^ (32 - k) * 2 ^ k)
    by (rewrite <- Z.pow_add_r by lia; f_equal; lia).
  assert (E : Z.land (2 ^ 32 - 2 ^ k) n = n / 2 ^ k * 2 ^ k).
  { replace (2 ^ 32 - 2 ^ k) with (Z.shiftl (Z.ones (32 - k)) k).
    2:{ rewrite Z.shiftl_mul_pow2, Z.ones_equiv by lia. nia. }
    rewrite <- Z.shiftr_div_pow2, <- Z.shiftl_mul_pow2 by lia.
    apply Z.bits_inj'. intros i Hi. rewrite Z.land_spec.
    destruct (Z.ltb_spec i k).
    - by rewrite !Z.shiftl_spec_low by lia.
    - rewrite !Z.shiftl_spec, Z.shiftr_spec by lia.
      replace (i - k + k) with i by lia.
      destruct (Z.ltb_spec i 32).
      + by rewrite Z.ones_spec_low by lia.
      + rewrite Z.ones_spec_high by lia. symmetry.
        rewrite <- (Z.mod_small n (2 ^ 32)) by lia.
        by rewrite Z.mod_pow2_bits_high by lia. }
  rewrite E. destruct (Z.ltb_spec n (2 ^ k)).
  - by rewrite Z.div_small by lia.
  - apply Z.eqb_neq. intros H0.
    assert (1 <= n / 2 ^ k) by (apply Z.div_le_lower_bound; lia). nia.
Qed.

Lemma leading_zeros_step n z s k :
  0 <= s -> 0 <= z -> z + s <= 31 -> k = 32 - s ->
  0 < n -> n * 2 ^ z < 2 ^ 32 -> 2 ^ (32 - 2 * s) <= n * 2 ^ z ->
  0 <= 32 - 2 * s ->
  let z' := if Z.land (2 ^ 32 - 2 ^ k) (n * 2 ^ z) =? 0 then z + s else z in
  n * 2 ^ z' < 2 ^ 32 /\ 2 ^ (32 - s) <= n * 2 ^ z' /\ z <= z' <= z + s.
Proof.
  intros Hs Hz Hzs -> Hn Hhi Hlo H2s. cbv zeta.
  rewrite high_mask by (first [lia|split; [nia|lia]]).
  assert (Es : 2 ^ 32 = 2 ^ (32 - s) * 2 ^ s)
    by (rewrite <- Z.pow_add_r by lia; f_equal; lia).
  assert (Es' : 2 ^ (32 - s) = 2 ^ (32 - 2 * s) * 2 ^ s)
    by (rewrite <- Z.pow_add_r by lia; f_equal; lia).
  assert (0 < 2 ^ s) by (apply Z.pow_pos_nonneg; lia).
  destruct (Z.ltb_spec (n * 2 ^ z) (2 ^ (32 - s))); [|lia].
  rewrite Z.pow_add_r by lia. rewrite Z.mul_assoc. nia.
Qed.

Lemma shlu_small n z :
  0 <= z <= 31 -> 0 <= n -> n * 2 ^ z < 2 ^ 32 -> shlu n z = Ok (n * 2 ^ z).
Proof.
  intros Hz Hn Hlt. apply wp_pure, wp_shlu; [done|].
  rewrite Z.shiftl_mul_pow2 by lia. apply to_u32_id.
  assert (0 < 2 ^ z) by (apply Z.pow_pos_nonneg; lia). unfold u32. nia.
Qed.

Lemma clz_unique n z :
  0 < n -> 0 <= z -> 2 ^ 31 <= n * 2 ^ z < 2 ^ 32 ->
  WebRtcSpl_NormU32 n = z.
Proof.
  intros Hn Hz Hnz.
  assert (0 < 2 ^ z) by (apply Z.pow_pos_nonneg; lia).
  assert (Hz31 : z <= 31).
  { destruct (Z.le_gt_cases z 31); [done|].
    assert (2 ^ 32 <= 2 ^ z) by (apply Z.pow_le_mono_r; lia). nia. }
  unfold WebRtcSpl_NormU32, WebRtcSpl_CountLeadingZeros32.
  destruct (Z.eqb_spec n 0); [lia|].
  assert (E : 2 ^ 31 = 2 ^ (31 - z) * 2 ^ z)
    by (rewrite <- Z.pow_add_r by lia; f_equal; lia).
  assert (E' : 2 ^ 32 = 2 ^ Z.succ (31 - z) * 2 ^ z)
    by (rewrite <- Z.pow_add_r by lia; f_equal; lia).
  rewrite (Z.log2_unique n (31 - z)); [lia..|nia].
Qed.

(** The bisection finds the number of leading zeros (and 31 for silence). *)
Lemma vad_leading_zeros_spec n :
  0 <= n <= UINT32_MAX ->
  vad_leading_zeros n =
  Ok (if n =? 0 then 31 else WebRtcSpl_NormU32 n).
Proof.
  intros Hn. destruct (Z.eqb_spec n 0) as [->|Hn0]; [reflexivity|].
  unfold vad_leading_zeros.
  pose proof (leading_zeros_step n 0 16 16) as H1.
  change (2 ^ 32 - 2 ^ 16) with 4294901760 in H1. rewrite Z.mul_1_r in H1.
  cbv zeta in H1. set (z1 := if Z.land 4294901760 n =? 0 then 0 + 16 else 0) in H1.
  change (if Z.land 4294901760 n =? 0 then 16 else 0) with z1.
  destruct H1 as (Hhi & Hlo & Hz1); [lia..|]. cbv zeta.
  rewrite shlu_small by lia. cbn [mbind res_bind].
  pose proof (leading_zeros_step n z1 8 24) as H2. cbv zeta in H2.
  change (2 ^ 32 - 2 ^ 24) with 4278190080 in H2.
  set (z2 := if Z.land 4278190080 (n * 2 ^ z1) =? 0 then z1 + 8 else z1) in *.
  destruct H2 as (Hhi2 & Hlo2 & Hz2); [lia..|].
  rewrite shlu_small by lia. cbn [mbind res_bind].
  pose proof (leading_zeros_step n z2 4 28) as H3. cbv zeta in H3.
  change (2 ^ 32 - 2 ^ 28) with 4026531840 in H3.
  set (z3 := if Z.land 4026531840 (n * 2 ^ z2) =? 0 then z2 + 4 else z2) in *.
  destruct H3 as (Hhi3 & Hlo3 & Hz3); [lia..|].
  rewrite shlu_small by lia. cbn [mbind res_bind].
  pose proof (leading_zeros_step n z3 2 30) as H4. cbv zeta in H4.
  change (2 ^ 32 - 2 ^ 30) with 3221225472 in H4.
  set (z4 := if Z.land 3221225472 (n * 2 ^ z3) =? 0 then z3 + 2 else z3) in *.
  destruct H4 as (Hhi4 & Hlo4 & Hz4); [lia..|].
  rewrite shlu_small by lia. cbn [mbind res_bind].
  pose proof (leading_zeros_step n z4 1 31) as H5. cbv zeta in H5.
  change (2 ^ 32 - 2 ^ 31) with 2147483648 in H5.
  set (z5 := if Z.land 2147483648 (n * 2 ^ z4) =? 0 then z4 + 1 else z4) in *.
  destruct H5 as (Hhi5 & Hlo5 & Hz5); [lia..|].
  f_equal. symmetry. apply clz_unique; lia.
Qed.

(** ** Subframes *)

Lemma wp_average_pairs n inp :
  samples16 inp -> (2 * n <= length inp)%nat ->
  wp (vad_average_pairs n inp) (fun b => samples16 b /\ length b = n).
Proof.
  revert inp. induction n as [|n IH]; intros inp Hin Hlen; simpl.
  { split; [by apply Forall_nil|done]. }
  wp_step. apply (wp_rd_Forall i16); [done|unfold zlen; lia|]; intros a Ha.
  wp_step. apply (wp_rd_Forall i16); [done|unfold zlen; lia|]; intros b Hb.
  do 2 wp_step. wp_step. eapply wp_mono.
  { apply IH; [by apply Forall_drop|rewrite length_drop; lia]. }
  intros rest [Hr Hl]. apply wp_ret.
  split; [apply Forall_cons; [cint|done]|simpl; lia].
Qed.

(** Loop invariant of the ten subframes: [j] subframes done, [w] samples per
    subframe. *)
Definition subframe_inv (w : nat) (j : Z) (l : vad_loop) : Prop :=
  samples16 (vl_in l) /\ Z.of_nat w * (10 - j) <= zlen (vl_in l) /\
  filt_ok (vl_down l) /\ i16 (vl_hp l) /\
  0 <= vl_nrg l <= 268435456 * j.

Lemma wp_vad_subframe w nrSamples j l :
  (w = 16%nat /\ nrSamples = 160 \/ w = 8%nat /\ nrSamples <> 160) ->
  0 <= j < 10 -> subframe_inv w j l ->
  wp (vad_subframe nrSamples j l) (subframe_inv w (j + 1)).
Proof.
  intros Hw Hj (Hin & Hlen & Hfs & Hhp & Hn). unfold vad_subframe, zlen in *.
  wp_step. apply (wp_mono _ (fun '(buf2, down, inp) =>
    samples16 buf2 /\ length buf2 = 4%nat /\ filt_ok down /\
    inp = drop w (vl_in l))).
  { destruct Hw as [[-> ->]|[-> Hne]].
    - change (160 =? 160) with true. cbv iota.
      wp_step. eapply wp_mono; [apply wp_average_pairs; [done|lia]|].
      intros b1 [Hb1 Hl1]. wp_step. eapply wp_mono.
      { apply wp_DownsampleBy2; [done|simpl; lia|done]. }
      intros [b2 d2] (? & ? & ?). done.
    - destruct (Z.eqb_spec nrSamples 160); [done|].
      wp_step. eapply wp_mono.
      { apply wp_DownsampleBy2; [done|simpl; lia|done]. }
      intros [b2 d2] (? & ? & ?). done. }
  intros [[buf2 down] inp] (Hb & Hbl & Hd & ->).
  rewrite take_ge by lia.
  pose proof (hp_run_bounds buf2 (vl_hp l) Hb Hhp) as He.
  unfold zlen in He. rewrite Hbl in He.
  destruct (vad_hp_exact buf2 (vl_hp l) (vl_nrg l)) as [Hh' ->]; [done..|lia|lia|].
  simpl. unfold subframe_inv, zlen. simpl.
  split; [by apply Forall_drop|].
  split; [rewrite length_drop; lia|].
  split; [done|]. split; [done|]. lia.
Qed.

(** The level of a frame of [10 * w] samples: never undefined, and a multiple of
    2048 between -32768 and 30720. *)
Definition level_ok (dB : Z) : Prop := exists d, -16 <= d <= 15 /\ dB = 2048 * d.

Definition frame_ok (inp : list Z) (nrSamples : Z) : Prop :=
  samples16 inp /\
  (nrSamples = 160 /\ (160 <= length inp)%nat \/
   nrSamples = 80 /\ (80 <= length inp)%nat).

Lemma wp_vad_level st inp nrSamples :
  filt_ok (downState st) -> i16 (HPstate st) -> frame_ok inp nrSamples ->
  wp (vad_level st inp nrSamples)
     (fun '(l, dB) => filt_ok (vl_down l) /\ i16 (vl_hp l) /\ level_ok dB).
Proof.
  intros Hfs Hhp [Hin Hlen]. unfold vad_level.
  assert (exists w, (w = 16%nat /\ nrSamples = 160 \/
                     w = 8%nat /\ nrSamples <> 160) /\
                    (10 * w <= length inp)%nat) as (w & Hw & Hl).
  { destruct Hlen as [[-> ?]|[-> ?]]; [exists 16%nat|exists 8%nat]; lia. }
  wp_step. apply (wp_for (subframe_inv w)).
  { unfold subframe_inv, zlen. simpl. repeat split; (done || lia || apply Hhp). }
  { intros j l Hj HI. apply wp_vad_subframe; [done|lia|done]. }
  intros l (_ & _ & Hd & Hh & Hn). simpl in Hn.
  rewrite vad_leading_zeros_spec by lia. cbn [mbind res_bind].
  assert (Hz : 0 <= (if vl_nrg l =? 0 then 31 else WebRtcSpl_NormU32 (vl_nrg l)) <= 31).
  { destruct (Z.eqb_spec (vl_nrg l) 0); [lia|]. apply normU32_pos. lia. }
  revert Hz. generalize (if vl_nrg l =? 0 then 31 else WebRtcSpl_NormU32 (vl_nrg l)).
  intros z Hz. wp_run. repeat split; [done|apply Hh|apply Hh|].
  exists (15 - z). split; [lia|]. rewrite to_i16_id; cint.
Qed.

(** ** Moments of the level

    [moments_ok n mean var]: the running mean and (scaled) second moment of
    levels between -32768 and 30720.  Besides their ranges, the pair stays below
    the chord and above the tangent (at -32768) of the parabola
    [4096 var = level^2], up to the rounding that [n] old samples can
    accumulate. *)
Definition moments_ok (n mean var : Z) : Prop :=
  -32768 <= mean <= 30720 /\ 0 <= var <= 262144 /\
  4096 * var + 2048 * mean <= 1006632960 + 2048 * n /\
  - (69632 * n) <= 4096 * var + 65536 * mean + 1073741824.

Lemma moments_variance n mean var :
  0 <= n <= 250 -> moments_ok n mean var ->
  -1073741824 < 4096 * var - mean * mean < 1073741824.
Proof. intros Hn (H1 & H2 & H3 & H4). nia. Qed.

Lemma level_square dB :
  level_ok dB ->
  exists e, Z.shiftr (dB * dB) 12 = e /\ 4096 * e = dB * dB /\
    0 <= e <= 262144 /\ -32768 <= dB <= 30720 /\
    4096 * e + 2048 * dB <= 1006632960 /\
    0 <= 4096 * e + 65536 * dB + 1073741824.
Proof.
  intros (d & Hd & ->). exists (1024 * (d * d)).
  rewrite Z.shiftr_div_pow2 by lia. change (2 ^ 12) with 4096.
  replace (2048 * d * (2048 * d)) with (1024 * (d * d) * 4096) by ring.
  rewrite Z.div_mul by lia.
  assert (0 <= d * d <= 256) by nia.
  assert (d * d + d <= 240) by nia.
  assert (0 <= d * d + 32 * d + 256) by nia.
  repeat split; lia.
Qed.

(** The weighted average [(c * old + new) / (c + 1)], truncated. *)
Lemma average_trunc c x y m :
  0 < c -> m = Z.quot (x * c + y) (c + 1) ->
  (c + 1) * m <= x * c + y + c /\ x * c + y - c <= (c + 1) * m /\
  (0 <= x * c + y -> 0 <= m /\ (c + 1) * m <= x * c + y) /\
  (x * c + y <= 0 -> m <= 0 /\ x * c + y <= (c + 1) * m).
Proof.
  intros Hc ->.
  pose proof (Z.quot_rem' (x * c + y) (c + 1)) as E.
  remember (Z.quot (x * c + y) (c + 1)) as m eqn:Em.
  remember (Z.rem (x * c + y) (c + 1)) as r eqn:Er.
  assert (- (c + 1) < r < c + 1).
  { subst r. pose proof (Z.rem_bound_abs (x * c + y) (c + 1)). lia. }
  repeat split; try lia.
  - subst m. apply Z.quot_pos; lia.
  - assert (0 <= r) by (subst r; apply Z.rem_nonneg; lia). lia.
  - assert (r <= 0) by (subst r; apply Z.rem_nonpos; lia). nia.
  - assert (r <= 0) by (subst r; apply Z.rem_nonpos; lia). lia.
Qed.

Lemma moments_average c mean var dB e m v :
  4 <= c <= 250 -> moments_ok 250 mean var ->
  4096 * e = dB * dB -> 0 <= e <= 262144 -> -32768 <= dB <= 30720 ->
  4096 * e + 2048 * dB <= 1006632960 ->
  0 <= 4096 * e + 65536 * dB + 1073741824 ->
  m = Z.quot (mean * c + dB) (c + 1) -> v = Z.quot (var * c + e) (c + 1) ->
  moments_ok 250 m v.
Proof.
  intros Hc (H1 & H2 & H3 & H4) He He' Hd Hch Htg Hm Hv.
  destruct (average_trunc c mean dB m ltac:(lia) Hm) as (Hm1 & Hm2 & Hm3 & Hm4).
  destruct (average_trunc c var e v ltac:(lia) Hv) as (_ & Hv2 & Hv3 & _).
  destruct Hv3 as [Hv0 Hv3]; [nia|]. clear Hm Hv He.
  assert (Hc1 : c * (4096 * var + 2048 * mean) <= c * (1006632960 + 2048 * 250))
    by (apply Z.mul_le_mono_nonneg_l; lia).
  assert (Hc2 : c * - (69632 * 250) <= c * (4096 * var + 65536 * mean + 1073741824))
    by (apply Z.mul_le_mono_nonneg_l; lia).
  assert (Hc3 : c * mean <= c * 30720) by (apply Z.mul_le_mono_nonneg_l; lia).
  assert (Hc4 : c * -32768 <= c * mean) by (apply Z.mul_le_mono_nonneg_l; lia).
  assert (Hc5 : c * var <= c * 262144) by (apply Z.mul_le_mono_nonneg_l; lia).
  assert (Cancel : forall a b, (c + 1) * a <= (c + 1) * b -> a <= b)
    by (intros a b; apply Z.mul_le_mono_pos_l; lia).
  assert (Hlo : -32768 <= m) by (apply Cancel; lia).
  assert (Hhi : m <= 30720) by (apply Cancel; lia).
  unfold moments_ok. repeat split; try lia; apply Cancel; lia.
Qed.

Lemma moments_short mean var dB e m v :
  moments_ok 15 mean var ->
  0 <= e <= 262144 -> -32768 <= dB <= 30720 ->
  4096 * e + 2048 * dB <= 1006632960 ->
  0 <= 4096 * e + 65536 * dB + 1073741824 ->
  m = (mean * 15 + dB) / 16 -> v = Z.quot (e + var * 15) 16 ->
  moments_ok 15 m v.
Proof.
  unfold moments_ok. intros (H1 & H2 & H3 & H4) He Hd Hch Htg -> ->.
  Z.to_euclidean_division_equations. lia.
Qed.

Lemma wp_update_short mean var dB :
  moments_ok 15 mean var -> level_ok dB ->
  wp (vad_update_short mean var dB)
     (fun '(m, v, s) => moments_ok 15 m v /\ 0 <= s <= 32767).
Proof.
  intros HM HL. destruct (level_square dB HL) as (e & Ee & Ee2 & He & Hd & Hch & Htg).
  pose proof HM as (H1 & H2 & _). unfold vad_update_short.
  do 2 wp_step. do 2 wp_step.
  wp_step. apply wp_mul32; [unfold i32; lia|]. rewrite Ee.
  do 2 wp_step. do 2 wp_step. do 2 wp_step.
  rewrite Z.shiftr_div_pow2 by lia. change (2 ^ 4) with 16.
  rewrite (to_i16_id ((mean * 15 + dB) / 16)) by cint.
  pose proof (moments_short mean var dB e _ _ HM He Hd Hch Htg eq_refl eq_refl) as HM'.
  remember ((mean * 15 + dB) / 16) as m eqn:Em.
  remember (Z.quot (e + var * 15) 16) as v eqn:Ev. clear Em Ev.
  pose proof (moments_variance 15 m v ltac:(lia) HM') as Hvar.
  pose proof HM' as (Hm & Hv & _).
  wp_step. apply wp_mul32; [unfold i32; nia|].
  do 2 wp_step.
  rewrite Z.shiftl_mul_pow2 by lia. change (2 ^ 12) with 4096.
  wp_step. apply wp_sub32; [unfold i32; lia|].
  wp_step. eapply wp_mono; [apply wp_Sqrt; unfold i32; lia|].
  intros r (Hr & Hr2 & _). apply wp_ret. split; [done|].
  rewrite to_i16_id; unfold i16; lia.
Qed.

Lemma wp_AddSat_succ c (Q : Z -> Prop) :
  0 <= c <= 250 -> Q (c + 1) -> wp (WebRtcSpl_AddSatW16 c 1) Q.
Proof.
  intros Hc HQ. unfold WebRtcSpl_AddSatW16. do 2 wp_step. apply wp_ret.
  rewrite sat_clamp. by replace (Z.max _ _) with (c + 1) by lia.
Qed.

Lemma wp_update_long mean var c dB :
  moments_ok 250 mean var -> 4 <= c <= 250 -> level_ok dB ->
  wp (vad_update_long mean var c dB)
     (fun '(m, v, s) => moments_ok 250 m v /\ 0 <= s <= 32767).
Proof.
  intros HM Hc HL. destruct (level_square dB HL) as (e & Ee & Ee2 & He & Hd & Hch & Htg).
  pose proof HM as (H1 & H2 & _). unfold vad_update_long.
  assert (Hmc : -8192000 <= mean * c <= 7680000) by nia.
  assert (Hvc : 0 <= var * c <= 65536000) by nia.
  wp_step. apply wp_mul32; [unfold i32; lia|].
  wp_step. apply wp_add32; [unfold i32; lia|].
  wp_step. apply wp_AddSat_succ; [lia|].
  wp_step. apply wp_DivW32W16ResW16; [unfold i32; lia|lia|].
  wp_step. apply wp_mul32; [unfold i32; lia|]. rewrite Ee.
  wp_step. apply wp_mul32; [unfold i32; lia|].
  wp_step. apply wp_add32; [unfold i32; lia|].
  wp_step. apply wp_AddSat_succ; [lia|].
  wp_step. apply wp_DivW32W16; [unfold i32; lia|lia|].
  rewrite (Z.add_comm e).
  pose proof (moments_average c mean var dB e _ _ Hc HM Ee2 He Hd Hch Htg
                eq_refl eq_refl) as HM'.
  remember (Z.quot (mean * c + dB) (c + 1)) as m eqn:Em.
  remember (Z.quot (var * c + e) (c + 1)) as v eqn:Ev. clear Em Ev.
  pose proof (moments_variance 250 m v ltac:(lia) HM') as Hvar.
  pose proof HM' as (Hm & Hv & _).
  rewrite (to_i16_id m) by (unfold i16; lia).
  wp_step. apply wp_mul32; [unfold i32; nia|].
  wp_step. apply wp_shl32; [lia|cint|].
  rewrite Z.shiftl_mul_pow2 by lia. change (2 ^ 12) with 4096.
  wp_step. apply wp_sub32; [unfold i32; lia|].
  wp_step. eapply wp_mono; [apply wp_Sqrt; unfold i32; lia|].
  intros r (Hr & Hr2 & _). apply wp_ret. split; [done|].
  rewrite to_i16_id; unfold i16; lia.
Qed.

(** ** Log ratio *)

Lemma limit_2048 x :
  -2048 <= (let y := if 2048 <? x then 2048 else x in
            if y <? -2048 then -2048 else y) <= 2048.
Proof. cbv zeta. repeat case_if; lia. Qed.

Lemma log_ratio_step lr : (lr * 53248) / 1024 = 52 * lr.
Proof.
  replace (lr * 53248) with (52 * lr * 1024) by ring. by apply Z.div_mul.
Qed.

(** The common prefix of both cases: everything up to the addition. *)
Lemma vad_log_ratio_eq lr mean std dB :
  -2048 <= lr <= 2048 -> i16 mean -> i16 dB -> 0 <= std <= 32767 ->
  exists q, (std = 0 -> q = INT32_MAX) /\
    (0 < std -> -402653184 <= q <= 402653184) /\
    vad_log_ratio lr mean std dB =
      (t ← add32 q (52 * lr);
       let y := to_i16 (Z.shiftr t 6) in
       let y := if 2048 <? y then 2048 else y in
       let y := if y <? -2048 then -2048 else y in
       Ok y).
Proof.
  intros Hlr Hm Hd Hs. unfold vad_log_ratio.
  change (Z.shiftl 3 12) with 12288. change (Z.shiftl 13 12) with 53248.
  unfold sub32. rewrite chk32_ok by (unfold i16, i32 in *; lia).
  cbn [mbind res_bind].
  pose proof (to_i16_range (dB - mean)) as Hdr. unfold i16 in Hdr.
  revert Hdr. generalize (to_i16 (dB - mean)). intros d Hdr.
  unfold mul32 at 1. rewrite chk32_ok by (unfold i32; lia). cbn [mbind res_bind].
  assert (exists q, WebRtcSpl_DivW32W16 (12288 * d) std = Ok q /\
    (std = 0 -> q = INT32_MAX) /\ (0 < std -> -402653184 <= q <= 402653184))
    as (q & -> & Hq0 & Hq1).
  { unfold WebRtcSpl_DivW32W16. destruct (Z.eqb_spec std 0); simpl.
    - exists INT32_MAX. repeat split; lia.
    - pose proof (quot_pos_bounds (12288 * d) std ltac:(lia)).
      exists (Z.quot (12288 * d) std). unfold div32.
      destruct (Z.eqb_spec std 0); [lia|].
      rewrite chk32_ok by (unfold i32; lia). repeat split; lia. }
  exists q. split; [done|]. split; [done|].
  cbn [mbind res_bind]. unfold WEBRTC_SPL_MUL_16_U16.
  rewrite (to_i16_id lr), (to_u16_id 53248) by (unfold i16, u16; lia).
  unfold mul32. rewrite chk32_ok by (unfold i32; lia). cbn [mbind res_bind].
  rewrite Z.shiftr_div_pow2 by lia. change (2 ^ 10) with 1024.
  by rewrite log_ratio_step.
Qed.

(** ** The detector *)

Definition vad_ok (st : AgcVad) : Prop :=
  filt_ok (downState st) /\ i16 (HPstate st) /\ 3 <= counter st <= 250 /\
  -2048 <= logRatio st <= 2048 /\
  moments_ok 250 (meanLongTerm st) (varianceLongTerm st) /\
  moments_ok 15 (meanShortTerm st) (varianceShortTerm st) /\
  0 <= stdLongTerm st <= 32767 /\ 0 <= stdShortTerm st <= 32767.

Lemma vad_ok_init : vad_ok WebRtcAgc_InitVad.
Proof.
  split; [apply filt_ok_zero|].
  vm_compute. intuition discriminate.
Qed.

(** The new counter and the long-term deviation of an update. *)
Definition vad_count (st : AgcVad) : Z :=
  if counter st <? kAvgDecayTime then to_i16 (counter st + 1) else counter st.
Definition vad_next_std (st : AgcVad) (dB : Z) : res Z :=
  '(_, _, s) ← vad_update_long (meanLongTerm st) (varianceLongTerm st)
                 (vad_count st) dB;
  Ok s.

Lemma vad_count_ok st : 3 <= counter st <= 250 -> 4 <= vad_count st <= 250.
Proof.
  unfold vad_count, kAvgDecayTime. intros Hc. case_if; [|lia].
  rewrite to_i16_id; unfold i16; lia.
Qed.

Lemma vad_update_outcome st down hp dB :
  vad_ok st -> filt_ok down -> i16 hp -> level_ok dB ->
  wp (vad_update st down hp dB) vad_ok \/
  vad_update st down hp dB = Fault SignedOverflow /\
  0 < logRatio st /\ vad_next_std st dB = Ok 0.
Proof.
  intros (_ & _ & Hc & Hlr & HL & HS & _ & _) Hdown Hhp HdB.
  unfold vad_update, vad_next_std. fold (vad_count st).
  pose proof (vad_count_ok st Hc) as Hc'.
  destruct (proj1 (wp_ok _ _) (wp_update_short _ _ _ HS HdB))
    as ([[mS vS] sS] & -> & HS' & HsS).
  destruct (proj1 (wp_ok _ _) (wp_update_long _ _ _ _ HL Hc' HdB))
    as ([[mL vL] sL] & -> & HL' & HsL).
  cbn [mbind res_bind].
  assert (HmL : i16 mL) by (destruct HL'; unfold i16; lia).
  assert (HdB' : i16 dB) by (destruct HdB as (d & ? & ->); unfold i16; lia).
  destruct (vad_log_ratio_eq (logRatio st) mL sL dB Hlr HmL HdB' HsL)
    as (q & Hq0 & Hq1 & ->).
  destruct (decide (sL = 0 /\ 0 < logRatio st)) as [[Hz Hp]|Hn].
  - right. rewrite (Hq0 Hz), Hz. split; [|done].
    unfold add32. rewrite chk32_fault; [done|]. unfold i32. lia.
  - left. unfold add32. rewrite chk32_ok.
    2:{ unfold i32. destruct (decide (sL = 0)) as [Hz|Hz].
        - rewrite (Hq0 Hz). assert (logRatio st <= 0) by lia. lia.
        - specialize (Hq1 ltac:(lia)). lia. }
    cbn [mbind res_bind wp]. unfold vad_ok. cbn.
    pose proof (limit_2048 (to_i16 (Z.shiftr (q + 52 * logRatio st) 6))) as Hlim.
    cbv zeta in Hlim. split_and!; (done || lia).
Qed.

(** ** The detector looks at the first [nrSamples] samples only *)

Lemma downsample_loop_app n x y st :
  (2 * n <= length x)%nat ->
  downsample_loop n (x ++ y) st = downsample_loop n x st.
Proof.
  revert x st. induction n as [|n IH]; intros x st Hl; [done|].
  destruct x as [|a [|b x]]; cbn in Hl; try lia. cbn [app downsample_loop].
  change (rd (a :: b :: x ++ y) 0) with (Ok a).
  change (rd (a :: b :: x ++ y) 1) with (Ok b).
  change (rd (a :: b :: x) 0) with (Ok a). change (rd (a :: b :: x) 1) with (Ok b).
  change (drop 2 (a :: b :: x ++ y)) with (x ++ y). change (drop 2 (a :: b :: x)) with x.
  cbn [mbind res_bind]. destruct (downsample_sample a b st) as [[st' o]|]; [|done].
  cbn [mbind res_bind]. by rewrite IH by lia.
Qed.

Definition vl_rest (y : list Z) (l : vad_loop) : vad_loop :=
  VadLoop (vl_in l ++ y) (vl_down l) (vl_hp l) (vl_nrg l).

Lemma vad_subframe_app i l y :
  (8 <= length (vl_in l))%nat ->
  vad_subframe 80 i (vl_rest y l) = vl_rest y <$> vad_subframe 80 i l /\
  wp (vl_in <$> vad_subframe 80 i l) (fun x => x = drop 8 (vl_in l)) \/
  exists f, vad_subframe 80 i (vl_rest y l) = Fault f /\ vad_subframe 80 i l = Fault f.
Proof.
  intros Hl. unfold vad_subframe. change (80 =? 160) with false. cbv iota.
  unfold WebRtcSpl_DownsampleBy2. change (8 / 2)%nat with 4%nat. cbn [vl_rest vl_in vl_down vl_hp vl_nrg].
  destruct (load_allpass8 (vl_down l)) as [st|f]; cbn [mbind res_bind];
    [|right; by exists f].
  rewrite downsample_loop_app by lia.
  destruct (downsample_loop 4 (vl_in l) st) as [[st' os]|f]; cbn [mbind res_bind];
    [|right; by exists f].
  destruct (each vad_hp_sample (vl_hp l, vl_nrg l) (take 4 os)) as [[hp nrg]|f];
    cbn [mbind res_bind]; [|right; by exists f].
  left. split; [|done]. cbn. unfold vl_rest. cbn.
  by rewrite drop_app_le by lia.
Qed.

Lemma vad_subframes_app k i l y :
  (8 * k <= length (vl_in l))%nat ->
  for_ k i (vad_subframe 80) (vl_rest y l) =
  vl_rest y <$> for_ k i (vad_subframe 80) l.
Proof.
  revert i l. induction k as [|k IH]; intros i l Hl; [done|]. cbn [for_].
  destruct (vad_subframe_app i l y ltac:(lia)) as [[E Hw]|(f & E & E')];
    rewrite E; [|by rewrite E'].
  destruct (vad_subframe 80 i l) as [l'|]; [|done]. cbn in Hw |- *.
  apply IH. rewrite Hw, length_drop. lia.
Qed.

Lemma ProcessVad_app st x y :
  length x = 80%nat ->
  WebRtcAgc_ProcessVad st (x ++ y) 80 = WebRtcAgc_ProcessVad st x 80.
Proof.
  intros Hx. unfold WebRtcAgc_ProcessVad, vad_level.
  change (VadLoop (x ++ y) (downState st) (HPstate st) 0)
    with (vl_rest y (VadLoop x (downState st) (HPstate st) 0)).
  rewrite vad_subframes_app by (cbn; lia).
  destruct (for_ 10 0 (vad_subframe 80) _) as [l|]; [|done].
  cbn [fmap res_fmap mbind res_bind vl_nrg vl_down vl_hp vl_rest].
  destruct (vad_leading_zeros (vl_nrg l)) as [z|]; [|done]. cbn [mbind res_bind].
  destruct (sub32 15 z) as [t|]; [|done]. cbn [mbind res_bind].
  by destruct (mul32 t 2048).
Qed.

(** ** Outcome *)

Lemma vad_outcome st inp n :
  vad_ok st -> frame_ok inp n ->
  (exists st', WebRtcAgc_ProcessVad st inp n = Ok (st', logRatio st') /\
               vad_ok st') \/
  (WebRtcAgc_ProcessVad st inp n = Fault SignedOverflow /\ 0 < logRatio st /\
   exists l dB, vad_level st inp n = Ok (l, dB) /\ vad_next_std st dB = Ok 0).
Proof.
  intros Hst Hin. pose proof Hst as (Hfs & Hhp & _).
  destruct (proj1 (wp_ok _ _) (wp_vad_level st inp n Hfs Hhp Hin))
    as ([l dB] & E & Hfs' & Hhp' & HdB).
  unfold WebRtcAgc_ProcessVad. rewrite E. cbn [mbind res_bind].
  destruct (vad_update_outcome st (vl_down l) (vl_hp l) dB Hst Hfs' Hhp' HdB)
    as [(st' & -> & Hst')%wp_ok|(-> & Hp & Hs)].
  - left. by exists st'.
  - right. repeat split; [done|]. by exists l, dB.
Qed.

(** C15: on any frame, from any state that satisfies the invariant, the detector
    either finishes in a state that satisfies the invariant (ranges of every
    field, filter stability, returned log ratio within +-2048), or it runs into
    the one undefined behaviour it has: the long-term deviation is exactly zero
    while the old log ratio is positive. *)
Theorem ProcessVad_outcome st inp n :
  vad_ok st -> frame_ok inp n ->
  (exists st', WebRtcAgc_ProcessVad st inp n = Ok (st', logRatio st') /\
               vad_ok st') \/
  (WebRtcAgc_ProcessVad st inp n = Fault SignedOverflow /\ 0 < logRatio st /\
   exists l dB, vad_level st inp n = Ok (l, dB) /\ vad_next_std st dB = Ok 0).
Proof. apply vad_outcome. Qed.

Lemma wp_ProcessVad st inp n :
  vad_ok st -> frame_ok inp n -> is_ok (WebRtcAgc_ProcessVad st inp n) = true ->
  wp (WebRtcAgc_ProcessVad st inp n)
     (fun '(st', r) => vad_ok st' /\ r = logRatio st').
Proof.
  intros Hst Hin Hok.
  pose proof Hst as (Hfs & Hhp & _).
  destruct (proj1 (wp_ok _ _) (wp_vad_level st inp n Hfs Hhp Hin))
    as ([l dB] & E & Hfs' & Hhp' & HdB).
  unfold WebRtcAgc_ProcessVad in *. rewrite E in *. cbn [mbind res_bind] in *.
  destruct (vad_update_outcome st (vl_down l) (vl_hp l) dB Hst Hfs' Hhp' HdB)
    as [(st' & Eu & Hst')%wp_ok|(Eu & _)]; rewrite Eu in *; done.
Qed.

(** A frame of silence, used by the witnesses. *)
Definition silence (n : nat) : list Z := replicate n 0.

Lemma silence_frame : frame_ok (silence 80) 80.
Proof.
  split; [apply Forall_replicate; unfold i16; lia|right; split; [done|]].
  unfold silence. rewrite length_replicate. lia.
Qed.

Lemma ProcessVad_outcome_witness :
  (exists st',
     WebRtcAgc_ProcessVad WebRtcAgc_InitVad (silence 80) 80 =
       Ok (st', logRatio st') /\ vad_ok st') \/
  (WebRtcAgc_ProcessVad WebRtcAgc_InitVad (silence 80) 80 =
     Fault SignedOverflow /\ 0 < logRatio WebRtcAgc_InitVad /\
   exists l dB, vad_level WebRtcAgc_InitVad (silence 80) 80 = Ok (l, dB) /\
                vad_next_std WebRtcAgc_InitVad dB = Ok 0).
Proof.
  apply (ProcessVad_outcome WebRtcAgc_InitVad (silence 80) 80);
    [apply vad_ok_init|apply silence_frame].
Defined.

(** The statistics driven by a sequence of frame levels. *)
Definition vad_levels (st : AgcVad) (levels : list Z) : res AgcVad :=
  each (fun st dB => vad_update st (downState st) (HPstate st) dB) st levels.

(** A square wave of 1 kHz, one frame at 8 kHz. *)
Definition square (a : Z) : list Z :=
  mjoin (replicate 10 (replicate 4 a ++ replicate 4 (-a))).

Lemma square_frame a :
  i16 a /\ i16 (-a) -> samples16 (square a) /\ length (square a) = 80%nat.
Proof.
  intros [H1 H2]. split; [|done]. unfold square, samples16. apply Forall_join.
  apply Forall_replicate, Forall_app. by split; apply Forall_replicate.
Qed.

(** Consecutive calls of the detector. *)
Definition vad_frames (st : AgcVad) (frames : list (list Z)) : res AgcVad :=
  each (fun st x => '(st, _) ← WebRtcAgc_ProcessVad st x 80; Ok st) st frames.

(** Once the filters have settled on a periodic signal, only the statistics
    change. *)
Lemma vad_frames_steady x k st l dB :
  vad_level st x 80 = Ok (l, dB) ->
  vl_down l = downState st -> vl_hp l = HPstate st ->
  vad_frames st (replicate k x) = vad_levels st (replicate k dB).
Proof.
  revert st. induction k as [|k IH]; intros st E Hd Hh; [done|].
  unfold vad_frames, vad_levels. cbn [replicate each].
  assert (P : WebRtcAgc_ProcessVad st x 80 =
    (st' ← vad_update st (downState st) (HPstate st) dB; Ok (st', logRatio st'))).
  { unfold WebRtcAgc_ProcessVad. rewrite E. cbn [mbind res_bind].
    by rewrite Hd, Hh. }
  rewrite P.
  destruct (vad_update st (downState st) (HPstate st) dB) as [st'|f] eqn:U;
    cbn [mbind res_bind]; [|done].
  assert (Hs : downState st' = downState st /\ HPstate st' = HPstate st).
  { revert U. unfold vad_update. intros U.
    repeat (apply bind_inv in U as ([[? ?] ?] & _ & U)).
    apply bind_inv in U as (? & _ & [= <-]). done. }
  destruct Hs as [Hs1 Hs2].
  apply IH; [|congruence|congruence].
  unfold vad_level in *. by rewrite Hs1, Hs2.
Qed.

Lemma vad_frames_app st l1 l2 :
  vad_frames st (l1 ++ l2) = (st ← vad_frames st l1; vad_frames st l2).
Proof. apply each_app. Qed.

(** The detector after four frames of the square wave: the filters repeat. *)
Definition settled : AgcVad := Eval vm_compute in
  match vad_frames WebRtcAgc_InitVad (replicate 4 (square 380)) with
  | Ok st => st
  | Fault _ => WebRtcAgc_InitVad
  end.

Lemma settled_frames :
  vad_frames WebRtcAgc_InitVad (replicate 4 (square 380)) = Ok settled.
Proof. vm_compute. reflexivity. Qed.

Lemma settled_steady k :
  vad_frames settled (replicate k (square 380)) = vad_levels settled (replicate k 0).
Proof.
  eapply vad_frames_steady; [vm_compute; reflexivity|reflexivity|reflexivity].
Qed.

Definition converged : AgcVad := Eval vm_compute in
  match vad_levels settled (replicate 1296 0) with
  | Ok st => st
  | Fault _ => settled
  end.

Lemma converged_levels : vad_levels settled (replicate 1296 0) = Ok converged.
Proof. vm_compute. reflexivity. Qed.

Lemma converged_overflow :
  vad_frames converged (square 250 :: replicate 9 (square 380)) =
  Fault SignedOverflow.
Proof. vm_compute. reflexivity. Qed.

Lemma vad_overflow_frames :
  vad_frames WebRtcAgc_InitVad
    (replicate 4 (square 380) ++ replicate 1296 (square 380) ++
     square 250 :: replicate 9 (square 380)) = Fault SignedOverflow.
Proof.
  rewrite vad_frames_app, settled_frames, bind_ok, vad_frames_app, settled_steady,
    converged_levels, bind_ok. apply converged_overflow.
Qed.

(** The undefined behaviour is reached by a signal: 13 seconds of a square
    wave at 8 kHz, one frame of it at a lower amplitude, and the same wave again
    make the detector overflow, from the initial state on. *)
Lemma vad_overflow_reachable :
  exists frames,
    Forall (fun x => samples16 x /\ length x = 80%nat) frames /\
    vad_frames WebRtcAgc_InitVad frames = Fault SignedOverflow.
Proof.
  exists (replicate 4 (square 380) ++ replicate 1296 (square 380) ++
     square 250 :: replicate 9 (square 380)). split.
  - apply Forall_app_2; [by apply Forall_replicate, square_frame|].
    apply Forall_app_2; [by apply Forall_replicate, square_frame|].
    constructor; [by apply square_frame|].
    by apply Forall_replicate, square_frame.
  - apply vad_overflow_frames.
Qed.

(** The energy of a block is accumulated in 32 bits without wrap-around: it
    is the exact sum of the squared high-pass outputs, each divided by 64, for
    any block of up to 63 samples (a frame has 40), and the 16-bit high-pass
    state never loses bits to its cast. *)
Lemma vad_energy_exact bs h :
  samples16 bs -> i16 h -> zlen bs <= 63 ->
  each vad_hp_sample (h, 0) bs = Ok (hp_run h bs).
Proof.
  intros Hbs Hh Hl. pose proof (hp_run_bounds bs h Hbs Hh).
  destruct (vad_hp_exact bs h 0) as [_ ->]; [done..|lia|lia|].
  by destruct (hp_run h bs).
Qed.

(** The bisection on the energy computes the normalising shift: the shifted
    energy has its top bit set. *)
Lemma vad_leading_zeros_correct n :
  0 < n <= UINT32_MAX ->
  exists z, vad_leading_zeros n = Ok z /\ 0 <= z <= 31 /\
            2 ^ 31 <= n * 2 ^ z < 2 ^ 32.
Proof.
  intros Hn. exists (WebRtcSpl_NormU32 n).
  rewrite vad_leading_zeros_spec by lia.
  destruct (Z.eqb_spec n 0); [lia|]. split; [done|]. by apply normU32_pos.
Qed.

Lemma vad_leading_zeros_correct_witness :
  exists z, vad_leading_zeros 40000 = Ok z /\ 0 <= z <= 31 /\
            2 ^ 31 <= 40000 * 2 ^ z < 2 ^ 32.
Proof. apply (vad_leading_zeros_correct 40000). lia. Defined.
