(* ===== verification/GainTable.v ===== *)
(** * Compressor gain table

    [WebRtcAgc_CalculateGainTable] of [digital_agc/digital_agc.c]: the 32-entry
    table of gains (Q16) indexed by the number of leading zeros of the signal
    level. *)
From S2P Require Import Prelude CInt Spl.

Definition kGenFuncTableSize : Z := 128.

(** log2 (1 + e^x) in Q8. *)
Definition kGenFuncTable : list Z :=
  [256;   485;   786;   1126;  1484;  1849;  2217;  2586;  2955;  3324;  3693;
   4063;  4432;  4801;  5171;  5540;  5909;  6279;  6648;  7017;  7387;  7756;
   8125;  8495;  8864;  9233;  9603;  9972;  10341; 10711; 11080; 11449; 11819;
   12188; 12557; 12927; 13296; 13665; 14035; 14404; 14773; 15143; 15512; 15881;
   16251; 16620; 16989; 17359; 17728; 18097; 18466; 18836; 19205; 19574; 19944;
   20313; 20682; 21052; 21421; 21790; 22160; 22529; 22898; 23268; 23637; 24006;
   24376; 24745; 25114; 25484; 25853; 26222; 26592; 26961; 27330; 27700; 28069;
   28438; 28808; 29177; 29546; 29916; 30285; 30654; 31024; 31393; 31762; 32132;
   32501; 32870; 33240; 33609; 33978; 34348; 34717; 35086; 35456; 35825; 36194;
   36564; 36933; 37302; 37672; 38041; 38410; 38780; 39149; 39518; 39888; 40257;
   40626; 40996; 41365; 41734; 42104; 42473; 42842; 43212; 43581; 43950; 44320;
   44689; 45058; 45428; 45797; 46166; 46536; 46905].

Definition kLog10 : Z := 54426.
Definition kLog10_2 : Z := 49321.
Definition kLogE_1 : Z := 23637.
Definition kCompRatio : Z := 3.
Definition kSoftLimiterLeft : Z := 1.
Definition constLinApprox : Z := 22817.

(** Maximum digital gain. *)
Definition gt_max_gain (digCompGaindB targetLevelDbfs analogTarget : Z)
    : res Z :=
  d ← sub32 digCompGaindB analogTarget;
  tmp32no1 ← mul32 d (kCompRatio - 1);
  d ← sub32 analogTarget targetLevelDbfs;
  let tmp16no1 := to_i16 d in
  t ← add32 tmp32no1 (Z.shiftr kCompRatio 1);
  q ← WebRtcSpl_DivW32W16ResW16 t kCompRatio;
  s ← add32 tmp16no1 q;
  let tmp16no1 := to_i16 s in
  Ok (to_i16 (WEBRTC_SPL_MAX tmp16no1 d)).

(** Zero gain level (computed, but read by nothing). *)
Definition gt_zero_gain_lvl (digCompGaindB maxGain analogTarget
    limiterEnable : Z) : res Z :=
  tmp32no1 ← mul32 maxGain kCompRatio;
  t ← add32 tmp32no1 (Z.shiftr (kCompRatio - 1) 1);
  q ← WebRtcSpl_DivW32W16ResW16 t (kCompRatio - 1);
  let zeroGainLvl := to_i16 (digCompGaindB - q) in
  if (digCompGaindB <=? analogTarget) && negb (limiterEnable =? 0) then
    Ok (to_i16 (zeroGainLvl +
                (analogTarget - digCompGaindB + kSoftLimiterLeft)))
  else Ok zeroGainLvl.

(** Difference between the maximum gain and the gain at 0 dBov. *)
Definition gt_diff_gain (digCompGaindB : Z) : res Z :=
  tmp32no1 ← mul32 digCompGaindB (kCompRatio - 1);
  t ← add32 tmp32no1 (Z.shiftr kCompRatio 1);
  WebRtcSpl_DivW32W16ResW16 t kCompRatio.

(** Limiter index and level; the limiter offset is 0. *)
Definition gt_limiter_idx (analogTarget : Z) : res Z :=
  let limiterOffset := 0 in
  let limiterLvlX := to_i16 (analogTarget - limiterOffset) in
  t ← mul32 limiterLvlX 8192;
  q ← WebRtcSpl_DivW32W16ResW16 t (Z.quot kLog10_2 2);
  Ok (to_i16 (2 + q)).

Definition gt_limiter_lvl (targetLevelDbfs : Z) : res Z :=
  let limiterOffset := 0 in
  t ← add32 limiterOffset (Z.shiftr kCompRatio 1);
  tmp16no1 ← WebRtcSpl_DivW32W16ResW16 t kCompRatio;
  add32 targetLevelDbfs tmp16no1.

(** Scaled input level of entry [i]: [diffGain - inLevel] in Q14. *)
Definition gt_in_level (i diffGain : Z) : res Z :=
  t ← sub32 i 1;
  t ← mul32 (kCompRatio - 1) t;
  let tmp16 := to_i16 t in
  t ← WEBRTC_SPL_MUL_16_U16 tmp16 kLog10_2;
  tmp32 ← add32 t 1;
  inLevel ← WebRtcSpl_DivW32W16 tmp32 kCompRatio;
  t ← mul32 diffGain 16384;
  sub32 t inLevel.

(** log2 (1 + 2^(log2 e * inLevel)) in Q14, by table and interpolation. *)
Definition gt_log_approx (inLevel : Z) : res Z :=
  a ← WEBRTC_SPL_ABS_W32 inLevel;
  let absInLevel := to_u32 a in
  let intPart := to_u16 (Z.shiftr absInLevel 14) in
  let fracPart := to_u16 (Z.land absInLevel 16383) in
  t1 ← rd kGenFuncTable (intPart + 1);
  t0 ← rd kGenFuncTable intPart;
  let tmpU16 := to_u16 (t1 - t0) in
  p ← mul32 tmpU16 fracPart;
  sh ← shlu t0 14;
  let tmpU32no1 := addu (to_u32 p) sh in
  let logApprox := Z.shiftr tmpU32no1 8 in
  if inLevel <? 0 then
    let zeros := WebRtcSpl_NormU32 absInLevel in
    '(tmpU32no1, tmpU32no2, zerosScale) ←
      (if zeros <? 15 then
         tmpU32no2 ← shru absInLevel (15 - zeros);
         let tmpU32no2 := WEBRTC_SPL_UMUL_32_16 tmpU32no2 kLogE_1 in
         if zeros <? 9 then
           let zerosScale := 9 - zeros in
           tmpU32no1 ← shru tmpU32no1 zerosScale;
           Ok (tmpU32no1, tmpU32no2, zerosScale)
         else
           tmpU32no2 ← shru tmpU32no2 (zeros - 9);
           Ok (tmpU32no1, tmpU32no2, 0)
       else
         let tmpU32no2 := WEBRTC_SPL_UMUL_32_16 absInLevel kLogE_1 in
         Ok (tmpU32no1, Z.shiftr tmpU32no2 6, 0));
    if tmpU32no2 <? tmpU32no1
    then shru (subu tmpU32no1 tmpU32no2) (8 - zerosScale)
    else Ok 0
  else Ok logApprox.

(** The gain in log2 units (Q14): [numFIX / den], rounded. *)
Definition gt_ratio (maxGain diffGain constMaxGain logApprox den : Z)
    : res Z :=
  t ← mul32 maxGain constMaxGain;
  numFIX ← mul32 t 64;
  t ← mul32 (to_i32 logApprox) diffGain;
  numFIX ← sub32 numFIX t;
  big ← (if Z.shiftr den 8 <? numFIX then Ok true
         else n ← neg32 numFIX; Ok (Z.shiftr den 8 <? n));
  let zeros := if (big : bool) then WebRtcSpl_NormW32 numFIX
               else WebRtcSpl_NormW32 den + 8 in
  p ← shl32 1 zeros;
  numFIX ← mul32 numFIX p;
  tmp32no1 ← WEBRTC_SPL_SHIFT_W32 den (zeros - 9);
  y32 ← div32 numFIX tmp32no1;
  if 0 <=? y32 then (t ← add32 y32 1; Ok (Z.shiftr t 1))
  else (n ← neg32 y32; t ← add32 n 1; neg32 (Z.shiftr t 1)).

(** The limiter replaces the gain of the loudest entries. *)
Definition gt_limit (i y32 limiterEnable limiterIdx limiterLvl : Z) : res Z :=
  if negb (limiterEnable =? 0) && (i <? limiterIdx) then
    tmp32 ← WEBRTC_SPL_MUL_16_U16 (i - 1) kLog10_2;
    t ← mul32 limiterLvl 16384;
    tmp32 ← sub32 tmp32 t;
    t ← add32 tmp32 10;
    WebRtcSpl_DivW32W16 t 20
  else Ok y32.

(** The exponent of the gain, in Q14 with 16 added. *)
Definition gt_exponent (y32 : Z) : res Z :=
  tmp32 ←
    (if 39000 <? y32 then
       t ← mul32 (Z.shiftr y32 1) kLog10;
       t ← add32 t 4096;
       Ok (Z.shiftr t 13)
     else
       t ← mul32 y32 kLog10;
       t ← add32 t 8192;
       Ok (Z.shiftr t 14));
  add32 tmp32 262144.

(** 2^x by a piecewise linear approximation of the fractional part. *)
Definition gt_power (tmp32 : Z) : res Z :=
  if 0 <? tmp32 then
    let intPart := to_u16 (to_i16 (Z.shiftr tmp32 14)) in
    let fracPart := to_u16 (Z.land tmp32 16383) in
    tmp32no2 ←
      (if negb (Z.shiftr fracPart 13 =? 0) then
         let tmp16 := to_i16 (32768 - constLinApprox) in
         tmp32no2 ← sub32 16384 fracPart;
         tmp32no2 ← mul32 tmp32no2 tmp16;
         sub32 16384 (Z.shiftr tmp32no2 13)
       else
         let tmp16 := to_i16 (constLinApprox - 16384) in
         p ← mul32 fracPart tmp16;
         Ok (Z.shiftr p 13));
    let fracPart := to_u16 tmp32no2 in
    p ← shl32 1 intPart;
    s ← WEBRTC_SPL_SHIFT_W32 fracPart (intPart - 14);
    add32 p s
  else Ok 0.

(** One entry of the table. *)
Definition gt_entry (maxGain diffGain constMaxGain den
    limiterEnable limiterIdx limiterLvl i : Z) : res Z :=
  inLevel ← gt_in_level i diffGain;
  logApprox ← gt_log_approx inLevel;
  y32 ← gt_ratio maxGain diffGain constMaxGain logApprox den;
  y32 ← gt_limit i y32 limiterEnable limiterIdx limiterLvl;
  tmp32 ← gt_exponent y32;
  gt_power tmp32.

Fixpoint gt_loop (n : nat) (i : Z) (entry : Z -> res Z) : res (list Z) :=
  match n with
  | O => Ok []
  | S n' => g ← entry i; gs ← gt_loop n' (i + 1) entry; Ok (g :: gs)
  end.

(** Returns the result code and the table (unchanged on error). *)
Definition WebRtcAgc_CalculateGainTable (gainTable : list Z)
    (digCompGaindB targetLevelDbfs limiterEnable analogTarget : Z)
    : res (Z * list Z) :=
  maxGain ← gt_max_gain digCompGaindB targetLevelDbfs analogTarget;
  _ ← gt_zero_gain_lvl digCompGaindB maxGain analogTarget limiterEnable;
  diffGain ← gt_diff_gain digCompGaindB;
  if (diffGain <? 0) || (kGenFuncTableSize <=? diffGain)
  then Ok (-1, gainTable) else
  limiterIdx ← gt_limiter_idx analogTarget;
  limiterLvl ← gt_limiter_lvl targetLevelDbfs;
  constMaxGain ← rd kGenFuncTable diffGain;
  den ← WEBRTC_SPL_MUL_16_U16 20 constMaxGain;
  table ← gt_loop 32 0
    (gt_entry maxGain diffGain constMaxGain den
       limiterEnable limiterIdx limiterLvl);
  Ok (0, table).

(** * Lemmas *)

(** ** The generator table *)

Definition table_check (P : Z -> Z -> Z -> bool) (n : nat) : bool :=
  forallb (fun k =>
    match kGenFuncTable !! k, kGenFuncTable !! S k with
    | Some a, Some b => P (Z.of_nat k) a b
    | _, _ => false
    end) (seq 0 n).

Lemma table_check_spec P n k :
  table_check P n = true -> 0 <= k < Z.of_nat n ->
  exists a b, rd kGenFuncTable k = Ok a /\ rd kGenFuncTable (k + 1) = Ok b /\
              P k a b = true.
Proof.
  unfold table_check. rewrite forallb_forall. intros H Hk.
  specialize (H (Z.to_nat k)). rewrite in_seq in H. specialize (H ltac:(lia)).
  unfold rd. rewrite !(proj2 (Z.ltb_ge _ 0)) by lia.
  replace (Z.to_nat (k + 1)) with (S (Z.to_nat k)) by lia.
  destruct (kGenFuncTable !! Z.to_nat k) as [a|]; [|done].
  destruct (kGenFuncTable !! S (Z.to_nat k)) as [b|]; [|done].
  exists a, b. rewrite Z2Nat.id in H by lia. done.
Qed.

(** Consecutive entries. *)
Lemma table_step k :
  0 <= k <= 126 ->
  exists a b, rd kGenFuncTable k = Ok a /\ rd kGenFuncTable (k + 1) = Ok b /\
              256 <= a <= b /\ b <= 46905.
Proof.
  intros Hk.
  destruct (table_check_spec
    (fun _ a b => (256 <=? a) && (a <=? b) && (b <=? 46905)) 127 k)
    as (a & b & Ha & Hb & H); [reflexivity|lia|].
  exists a, b. rewrite !andb_true_iff, !Z.leb_le in H. split_and!; (done || lia).
Qed.

(** Three entries further: the log approximation never exceeds
    [(d + 4) / d] times the entry of [d]. *)
Lemma table_growth d :
  0 <= d <= 124 ->
  exists a b, rd kGenFuncTable d = Ok a /\ rd kGenFuncTable (d + 3) = Ok b /\
              256 <= a <= 46905 /\ 1126 <= b <= 46905 /\ d * b <= (d + 4) * a.
Proof.
  intros Hd.
  assert (C : forallb (fun k =>
    match kGenFuncTable !! k, kGenFuncTable !! (3 + k)%nat with
    | Some a, Some b =>
        (256 <=? a) && (a <=? 46905) && (1126 <=? b) && (b <=? 46905) &&
        (Z.of_nat k * b <=? (Z.of_nat k + 4) * a)
    | _, _ => false
    end) (seq 0 125) = true) by (vm_compute; reflexivity).
  rewrite forallb_forall in C. specialize (C (Z.to_nat d)).
  rewrite in_seq in C. specialize (C ltac:(lia)).
  unfold rd. rewrite !(proj2 (Z.ltb_ge _ 0)) by lia.
  replace (Z.to_nat (d + 3)) with (3 + Z.to_nat d)%nat by lia.
  destruct (kGenFuncTable !! Z.to_nat d) as [a|]; [|done].
  destruct (kGenFuncTable !! (3 + Z.to_nat d)%nat) as [b|]; [|done].
  exists a, b. rewrite Z2Nat.id in C by lia.
  rewrite !andb_true_iff, !Z.leb_le in C. split_and!; (done || lia).
Qed.

(** The table is non-decreasing over any distance. *)
Lemma table_mono j k a b :
  0 <= j <= k -> k <= 127 ->
  rd kGenFuncTable j = Ok a -> rd kGenFuncTable k = Ok b -> a <= b.
Proof.
  intros [Hj Hjk] Hk Ha.
  revert b Hk. pattern k.
  apply (Zlt_lower_bound_ind _ j); [|done].
  intros x IH Hx b Hx' Hb. destruct (Z.eq_dec x j) as [->|Hne].
  { rewrite Ha in Hb. injection Hb. lia. }
  destruct (table_step (x - 1)) as (c & d & Hc & Hd & Hcd & _); [lia|].
  replace (x - 1 + 1) with x in Hd by lia.
  rewrite Hb in Hd. injection Hd as ->.
  specialize (IH (x - 1) ltac:(lia) c ltac:(lia) Hc). lia.
Qed.

(** ** Input level and log approximation *)

Lemma wp_in_level i d :
  0 <= i <= 31 -> 0 <= d <= 124 ->
  wp (gt_in_level i d) (fun x => -986420 <= x <= 16384 * d + 32881).
Proof.
  intros Hi Hd. unfold gt_in_level, kCompRatio, WEBRTC_SPL_MUL_16_U16, kLog10_2.
  do 2 wp_step. do 2 wp_step.
  rewrite (to_i16_id ((3 - 1) * (i - 1))) by cint.
  rewrite (to_i16_id ((3 - 1) * (i - 1))) by cint.
  rewrite (to_u16_id 49321) by cint.
  do 2 wp_step. do 2 wp_step.
  wp_step. apply wp_DivW32W16; [cint|lia|].
  wp_run. cint.
Qed.

(** Interpolation between two entries stays below the second one. *)
Lemma interpolate_bound a b f :
  256 <= a <= b -> b <= 46905 -> 0 <= f <= 16383 ->
  0 <= (b - a) * f + a * 16384 <= b * 16384.
Proof. intros. nia. Qed.

(** The second multiplication approximates [x * log2 e] from below by at most
    [23637 / 8 + 1]. *)
Lemma umul_kLogE x :
  0 <= x <= 131071 -> WEBRTC_SPL_UMUL_32_16 x kLogE_1 = x * 23637.
Proof.
  intros Hx. unfold WEBRTC_SPL_UMUL_32_16, kLogE_1, mulu.
  rewrite (to_u32_id x), (to_u16_id 23637) by (unfold u32, u16; lia).
  apply to_u32_id. unfold u32. lia.
Qed.

Lemma wp_log_approx_scaled x no1 :
  0 < x <= 986420 ->
  wp (let zeros := WebRtcSpl_NormU32 x in
      if zeros <? 15 then
        t ← shru x (15 - zeros);
        let t := WEBRTC_SPL_UMUL_32_16 t kLogE_1 in
        if zeros <? 9 then
          let zerosScale := 9 - zeros in
          u ← shru no1 zerosScale;
          Ok (u, t, zerosScale)
        else
          t ← shru t (zeros - 9);
          Ok (no1, t, 0)
      else
        let t := WEBRTC_SPL_UMUL_32_16 x kLogE_1 in
        Ok (no1, Z.shiftr t 6, 0))
     (fun '(a, b, s) => a = no1 /\ s = 0 /\ 0 <= b /\
                        x * 23637 <= 64 * b + 190000).
Proof.
  intros Hx.
  destruct (normU32_pos x ltac:(lia)) as [Hz Hzx]. cbv zeta.
  remember (WebRtcSpl_NormU32 x) as z eqn:Ez. clear Ez.
  assert (Hz12 : 12 <= z).
  { destruct (Z.le_gt_cases 12 z); [done|].
    assert (2 ^ z <= 2 ^ 11) by (apply Z.pow_le_mono_r; lia). nia. }
  destruct (Z.ltb_spec z 15).
  - wp_step. apply wp_shru; [lia|].
    destruct (Z.ltb_spec z 9); [lia|].
    assert (z = 12 \/ z = 13 \/ z = 14) as [Ez|[Ez|Ez]] by lia; subst z;
      cbn in Hzx; cbn [Z.sub Z.add Z.opp Z.pos_sub Pos.pred_double];
      rewrite umul_kLogE by cint;
      (wp_step; apply wp_shru; [lia|]; apply wp_ret; cbv beta;
       split_and!; [done|done|cint|cint]).
  - assert (x < 131072).
    { assert (2 ^ 15 <= 2 ^ z) by (apply Z.pow_le_mono_r; lia). nia. }
    rewrite umul_kLogE by lia. apply wp_ret. clear Hzx.
    split_and!; [done|done|cint|cint].
Qed.

Lemma wp_log_approx_negative x no1 :
  0 < x <= 986420 -> 0 <= no1 <= UINT32_MAX ->
  64 * no1 <= 268435456 + x * 23637 ->
  wp ('(no1, no2, zerosScale) ←
        (let zeros := WebRtcSpl_NormU32 x in
         if zeros <? 15 then
           t ← shru x (15 - zeros);
           let t := WEBRTC_SPL_UMUL_32_16 t kLogE_1 in
           if zeros <? 9 then
             let zerosScale := 9 - zeros in
             u ← shru no1 zerosScale;
             Ok (u, t, zerosScale)
           else
             t ← shru t (zeros - 9);
             Ok (no1, t, 0)
         else
           let t := WEBRTC_SPL_UMUL_32_16 x kLogE_1 in
           Ok (no1, Z.shiftr t 6, 0));
      if no2 <? no1 then shru (subu no1 no2) (8 - zerosScale) else Ok 0)
     (fun r => 0 <= r <= 16400).
Proof.
  intros Hx Hn Hn1. wp_step.
  eapply wp_mono; [by apply wp_log_approx_scaled|].
  intros [[a b] s] (-> & -> & Hb & Hxb).
  destruct (Z.ltb_spec b no1).
  - apply wp_shru; [lia|]. change (8 - 0) with 8. cbv beta. cint.
  - apply wp_ret. cbv beta. lia.
Qed.

(** The chord bound of the table entries used for negative levels. *)
Lemma table_chord k a b :
  0 <= k <= 126 -> rd kGenFuncTable k = Ok a -> rd kGenFuncTable (k + 1) = Ok b ->
  a * 16384 <= k * 6051072 + 4194304 /\
  b * 16384 <= (k + 1) * 6051072 + 4194304.
Proof.
  intros Hk Ha Hb.
  destruct (table_check_spec (fun k a b =>
      (a * 16384 <=? k * 6051072 + 4194304) &&
      (b * 16384 <=? (k + 1) * 6051072 + 4194304)) 127 k)
    as (a' & b' & Ha' & Hb' & H); [vm_compute; reflexivity|lia|].
  rewrite Ha in Ha'. rewrite Hb in Hb'. injection Ha' as <-.
  injection Hb' as <-. rewrite andb_true_iff, !Z.leb_le in H. done.
Qed.

Lemma wp_log_approx d x :
  0 <= d <= 124 -> -986420 <= x <= 16384 * d + 32881 ->
  forall b3, rd kGenFuncTable (d + 3) = Ok b3 -> 1126 <= b3 <= 46905 ->
  wp (gt_log_approx x) (fun r => 0 <= r <= 64 * b3).
Proof.
  intros Hd Hx b3 Hb3 Hb3'. unfold gt_log_approx.
  wp_step. apply (wp_mono _ (fun a => a = Z.abs x)).
  { unfold WEBRTC_SPL_ABS_W32. case_if; wp_run; lia. }
  intros ax ->.
  assert (Hax : 0 <= Z.abs x <= 2064497) by lia.
  rewrite (to_u32_id (Z.abs x)) by (unfold u32; lia).
  assert (Hip : to_u16 (Z.shiftr (Z.abs x) 14) = Z.abs x / 16384).
  { rewrite Z.shiftr_div_pow2 by lia. apply to_u16_id. cint. }
  assert (Hfp : to_u16 (Z.land (Z.abs x) 16383) = Z.abs x mod 16384).
  { rewrite land_3fff. apply to_u16_id. cint. }
  rewrite Hip, Hfp.
  assert (Hi126 : 0 <= Z.abs x / 16384 <= 126) by cint.
  assert (Hdi : 0 <= x -> Z.abs x / 16384 + 1 <= d + 3) by cint.
  assert (Hf : 0 <= Z.abs x mod 16384 <= 16383) by cint.
  assert (Hdec : Z.abs x = 16384 * (Z.abs x / 16384) + Z.abs x mod 16384) by cint.
  remember (Z.abs x / 16384) as ip eqn:Eip.
  remember (Z.abs x mod 16384) as fp eqn:Efp. clear Eip Efp Hip Hfp.
  destruct (table_step ip Hi126) as (a & b & Ea & Eb & Hab & Hb).
  destruct (table_chord ip a b Hi126 Ea Eb) as [Hca Hcb].
  rewrite Ea, Eb. cbn [mbind res_bind].
  assert (Hbd : 0 <= x -> b <= b3)
    by (intros; eapply (table_mono (ip + 1) (d + 3)); [| |done|done]; lia).
  rewrite (to_u16_id (b - a)) by (unfold u16; lia).
  pose proof (interpolate_bound a b fp Hab Hb Hf) as Hint.
  wp_step. apply wp_mul32; [unfold i32; nia|].
  wp_step. apply wp_shlu; [lia|].
  rewrite Z.shiftl_mul_pow2 by lia. change (2 ^ 14) with 16384.
  assert (Eno1 : addu (to_u32 ((b - a) * fp)) (to_u32 (a * 16384)) =
                 (b - a) * fp + a * 16384).
  { rewrite addu_wrap_l, (to_u32_id (a * 16384)) by (unfold u32; lia).
    apply to_u32_id. unfold u32. lia. }
  rewrite Eno1.
  assert (Hlin : 64 * ((b - a) * fp + a * 16384) <=
                 268435456 + Z.abs x * 23637) by (rewrite Hdec; nia).
  remember ((b - a) * fp + a * 16384) as no1 eqn:En. clear En Eno1.
  destruct (Z.ltb_spec x 0).
  - eapply wp_mono; [apply (wp_log_approx_negative (Z.abs x) no1); lia|].
    intros r Hr. simpl in Hr. lia.
  - specialize (Hbd ltac:(lia)). apply wp_ret. cbv beta.
    clear Hdec Hlin Hca Hcb. cint.
Qed.

(** ** Ratio *)

Lemma normW32_abs a :
  2 <= Z.abs a <= INT32_MAX ->
  0 <= WebRtcSpl_NormW32 a <= 30 /\
  2 ^ 30 <= Z.abs a * 2 ^ WebRtcSpl_NormW32 a <= 2 ^ 31 /\
  i32 (a * 2 ^ WebRtcSpl_NormW32 a).
Proof.
  intros Ha. destruct (Z.lt_trichotomy a 0) as [Hneg|[Hz|Hpos]]; [|lia|].
  - assert (E : WebRtcSpl_NormW32 a = WebRtcSpl_NormW32 (- a - 1)).
    { unfold WebRtcSpl_NormW32.
      destruct (Z.eqb_spec a 0), (Z.eqb_spec (- a - 1) 0); [lia..|].
      destruct (Z.ltb_spec a 0), (Z.ltb_spec (- a - 1) 0); [lia| |lia..].
      done. }
    rewrite E. destruct (normW32_pos (- a - 1) ltac:(lia)) as [Hz Hn].
    revert Hz Hn. generalize (WebRtcSpl_NormW32 (- a - 1)). intros z Hz Hn.
    assert (0 < 2 ^ z) by (apply Z.pow_pos_nonneg; lia).
    assert (2 ^ z <= 2 ^ 30) by (apply Z.pow_le_mono_r; lia).
    replace (Z.abs a) with (- a) by lia.
    (* the shifted value is a multiple of the shift, and so is 2^31 *)
    assert (E31 : 2 ^ 31 = 2 ^ (31 - z) * 2 ^ z)
      by (rewrite <- Z.pow_add_r by lia; f_equal; lia).
    assert (- a - 1 < 2 ^ (31 - z)) by nia.
    assert (- a * 2 ^ z <= 2 ^ 31) by (rewrite E31; nia).
    unfold i32. change (2 ^ 31) with 2147483648 in *. lia.
  - destruct (normW32_pos a ltac:(lia)) as [Hz Hn].
    revert Hz Hn. generalize (WebRtcSpl_NormW32 a). intros z Hz Hn.
    rewrite Z.abs_eq by lia. unfold i32.
    change (2 ^ 31) with 2147483648 in *. lia.
Qed.

(** With a gain of at most [M] dB, [numFIX] is between [-39] and [M] times
    [64 * constMaxGain]. *)
Definition ratio_range (M C N : Z) : Prop :=
  - 2496 * C <= N <= 64 * (M * C).
Definition quotient_range (M y : Z) : Prop := -63920 <= y <= 1639 * M.

(** The quotient with an exact denominator. *)
Lemma quotient_exact M C N :
  0 <= M <= 90 -> 256 <= C <= 46905 -> ratio_range M C N ->
  quotient_range M (Z.quot (N * 512) (20 * C)).
Proof.
  unfold ratio_range, quotient_range. intros HM HC HN.
  destruct (Z.le_ge_cases 0 N).
  - rewrite Z.quot_div_nonneg by lia.
    split; [assert (0 <= N * 512 / (20 * C)) by (apply Z.div_pos; lia); lia|].
    apply Z.div_le_upper_bound; lia.
  - replace (N * 512) with (- (- N * 512)) by lia.
    rewrite Z.quot_opp_l by lia. rewrite Z.quot_div_nonneg by lia.
    assert (0 <= - N * 512 / (20 * C)) by (apply Z.div_pos; lia).
    assert (- N * 512 / (20 * C) <= 63920)
      by (apply Z.div_le_upper_bound; lia).
    lia.
Qed.

(** The quotient with a denominator rounded down by a shift of [9 - z]. *)
Lemma quotient_shifted M C N z :
  0 <= M <= 90 -> 256 <= C <= 46905 -> ratio_range M C N -> 0 <= z < 9 ->
  2 ^ 30 <= Z.abs N * 2 ^ z ->
  let D := 20 * C / 2 ^ (9 - z) in
  1 <= D /\ quotient_range M (Z.quot (N * 2 ^ z) D).
Proof.
  intros HM HC HN Hz Hbig D. unfold ratio_range, quotient_range in *.
  assert (Ew : 2 ^ z * 2 ^ (9 - z) = 512)
    by (rewrite <- Z.pow_add_r by lia; replace (z + (9 - z)) with 9 by lia; done).
  assert (Hw : 0 < 2 ^ (9 - z)) by (apply Z.pow_pos_nonneg; lia).
  assert (Hp : 0 < 2 ^ z) by (apply Z.pow_pos_nonneg; lia).
  set (w := 2 ^ (9 - z)) in *. set (p := 2 ^ z) in *.
  assert (HD : 20 * C - w < w * D <= 20 * C).
  { unfold D. pose proof (Z.div_mod (20 * C) w ltac:(lia)).
    pose proof (Z.mod_pos_bound (20 * C) w Hw). lia. }
  assert (HMC : 0 <= M * C <= 90 * C) by nia.
  assert (Hden : 7000 * w <= 20 * C).
  { assert (2 ^ 30 * w <= Z.abs N * 512) by nia.
    change (2 ^ 30) with 1073741824 in *. lia. }
  clearbody D w p.
  assert (HD1 : 1 <= D) by nia.
  split; [done|].
  assert (Key : forall B, 0 <= B -> Z.abs N * 512 <= B * (20 * C - w) ->
                Z.abs (N * p) <= B * D).
  { intros B HB HNB. rewrite Z.abs_mul, (Z.abs_eq p) by lia.
    apply (Z.mul_le_mono_pos_r _ _ w); [done|].
    replace (Z.abs N * p * w) with (Z.abs N * 512) by (rewrite <- Ew; ring).
    transitivity (B * (20 * C - w)); [done|].
    replace (B * D * w) with (B * (w * D)) by ring.
    apply Z.mul_le_mono_nonneg_l; lia. }
  destruct (Z.le_ge_cases 0 N).
  - specialize (Key (1639 * M) ltac:(lia) ltac:(nia)).
    rewrite Z.quot_div_nonneg by nia.
    assert (0 <= N * p / D) by (apply Z.div_pos; nia).
    assert (N * p / D <= 1639 * M) by (apply Z.div_le_upper_bound; lia). lia.
  - specialize (Key 63920 ltac:(lia) ltac:(lia)).
    replace (N * p) with (- (- N * p)) by lia.
    rewrite Z.quot_opp_l by lia. rewrite Z.quot_div_nonneg by nia.
    assert (0 <= - N * p / D) by (apply Z.div_pos; nia).
    assert (- N * p / D <= 63920) by (apply Z.div_le_upper_bound; lia). lia.
Qed.

(** Normalise, divide: the part of [gt_ratio] after [numFIX] is known. *)
Lemma wp_ratio_divide M C N z :
  0 <= M <= 90 -> 256 <= C <= 46905 -> ratio_range M C N -> 0 <= z <= 30 ->
  i32 (N * 2 ^ z) -> (z < 9 -> 2 ^ 30 <= Z.abs N * 2 ^ z) ->
  (9 <= z -> 20 * C * 2 ^ (z - 9) <= INT32_MAX) ->
  wp (p ← shl32 1 z;
      numFIX ← mul32 N p;
      tmp32no1 ← WEBRTC_SPL_SHIFT_W32 (20 * C) (z - 9);
      div32 numFIX tmp32no1) (quotient_range M).
Proof.
  intros HM HC HN Hz HNz Hlt9 Hge9.
  assert (Hp : 0 < 2 ^ z) by (apply Z.pow_pos_nonneg; lia).
  assert (Hp2 : 2 ^ z <= 2 ^ 30) by (apply Z.pow_le_mono_r; lia).
  assert (Hp3 : 2 ^ 30 = 1073741824) by done.
  wp_step. apply wp_shl32; [lia| |]; rewrite Z.shiftl_1_l; [unfold i32; lia|].
  wp_step. apply wp_mul32; [done|]. unfold WEBRTC_SPL_SHIFT_W32.
  destruct (Z.leb_spec 0 (z - 9)).
  - assert (Hq : 0 < 2 ^ (z - 9)) by (apply Z.pow_pos_nonneg; lia).
    assert (Hq2 : 2 ^ (z - 9) <= 2 ^ 21) by (apply Z.pow_le_mono_r; lia).
    assert (Hq3 : 2 ^ 21 = 2097152) by done.
    specialize (Hge9 ltac:(lia)).
    wp_step. wp_step. apply wp_shl32; [lia| |]; rewrite Z.shiftl_1_l;
      [unfold i32; lia|].
    apply wp_mul32; [unfold i32; nia|].
    assert (E : Z.quot (N * 2 ^ z) (20 * C * 2 ^ (z - 9)) =
                Z.quot (N * 512) (20 * C)).
    { replace (2 ^ z) with (512 * 2 ^ (z - 9)).
      2:{ change 512 with (2 ^ 9). rewrite <- Z.pow_add_r by lia. f_equal. lia. }
      rewrite Z.mul_assoc. apply Z.quot_mul_cancel_r; lia. }
    pose proof (quotient_exact M C N HM HC HN) as HQ.
    apply wp_div32; [nia|rewrite E|by rewrite E].
    unfold quotient_range, i32 in *. lia.
  - destruct (quotient_shifted M C N z) as [HD HQ]; [done..|lia|apply Hlt9; lia|].
    wp_step. apply wp_shr32; [lia|].
    rewrite Z.shiftr_div_pow2 by lia.
    replace (- (z - 9)) with (9 - z) by lia.
    apply wp_div32; [lia| |done]. unfold quotient_range, i32 in *. lia.
Qed.

(** The shift that normalises the numerator (or the denominator, for a tiny
    numerator) overflows neither. *)
Lemma ratio_shift_ok M C N (big : bool) :
  0 <= M <= 90 -> 256 <= C <= 46905 -> ratio_range M C N ->
  (if big then Z.shiftr (20 * C) 8 < Z.abs N
   else Z.abs N <= Z.shiftr (20 * C) 8) ->
  let z := if big then WebRtcSpl_NormW32 N else WebRtcSpl_NormW32 (20 * C) + 8 in
  0 <= z <= 30 /\ i32 (N * 2 ^ z) /\
  (z < 9 -> 2 ^ 30 <= Z.abs N * 2 ^ z) /\
  (9 <= z -> 20 * C * 2 ^ (z - 9) <= INT32_MAX).
Proof.
  intros HM HC HN Hbig z. unfold ratio_range in HN.
  assert (HMC : 0 <= M * C <= 90 * C) by nia.
  assert (H9 : 9 <= z -> 2 ^ z = 512 * 2 ^ (z - 9)).
  { intros. change 512 with (2 ^ 9). rewrite <- Z.pow_add_r by lia. f_equal. lia. }
  destruct big; subst z.
  - assert (20 * C < 256 * Z.abs N) by cint.
    destruct (normW32_abs N) as (Hz & Hn & Hi); [cint|].
    revert H9 Hz Hn Hi. generalize (WebRtcSpl_NormW32 N).
    intros z H9 Hz Hn Hi. split_and!; try lia; try done.
    intros Hz9. specialize (H9 Hz9). rewrite H9 in Hn.
    assert (0 < 2 ^ (z - 9)) by (apply Z.pow_pos_nonneg; lia).
    change (2 ^ 31) with 2147483648 in *. nia.
  - destruct (normW32_pos (20 * C) ltac:(lia)) as [Hz Hn].
    revert H9 Hz Hn. generalize (WebRtcSpl_NormW32 (20 * C)).
    intros z H9 Hz Hn.
    assert (Hz18 : z <= 18).
    { destruct (Z.le_gt_cases z 18); [done|].
      assert (2 ^ 19 <= 2 ^ z) by (apply Z.pow_le_mono_r; lia).
      change (2 ^ 19) with 524288 in *. change (2 ^ 31) with 2147483648 in *. nia. }
    assert (Hz1 : 1 <= z).
    { destruct (Z.eq_dec z 0) as [->|]; [|lia]. cbn in Hn. lia. }
    assert (0 < 2 ^ z) by (apply Z.pow_pos_nonneg; lia).
    assert (E8 : 2 ^ (z + 8) = 2 ^ z * 256) by (rewrite Z.pow_add_r by lia; done).
    assert (Hsm : 256 * Z.abs N <= 20 * C) by cint.
    assert (E1 : 2 ^ z = 2 * 2 ^ (z + 8 - 9))
      by (rewrite <- Z.pow_succ_r by lia; f_equal; lia).
    assert (HA : Z.abs N * 256 * 2 ^ z <= 20 * C * 2 ^ z)
      by (apply Z.mul_le_mono_nonneg_r; lia).
    split_and!; try lia.
    rewrite E8. unfold i32. change (2 ^ 31) with 2147483648 in *. nia.
Qed.

Definition rounded_range (M y : Z) : Prop := -31961 <= y <= 820 * M + 2.

Lemma wp_ratio M mg d C log b3 :
  0 <= M <= 90 -> 0 <= d <= 124 -> -200 <= mg <= M -> -35 <= mg - d ->
  256 <= C <= 46905 -> 0 <= log <= 64 * b3 -> b3 <= 46905 ->
  d * b3 <= (d + 4) * C ->
  wp (gt_ratio mg d C log (20 * C)) (rounded_range M).
Proof.
  intros HM Hd Hmg Hmd HC Hlog Hb3 Hgr. unfold gt_ratio.
  assert (Hld : 0 <= log * d <= 64 * ((d + 4) * C)) by nia.
  assert (HdC : 0 <= (d + 4) * C <= 6003840) by nia.
  assert (HmC : mg * C <= M * C <= 90 * C) by nia.
  assert (HmC2 : (d + 4) * C - 39 * C <= mg * C) by nia.
  wp_step. apply wp_mul32; [unfold i32; nia|].
  wp_step. apply wp_mul32; [unfold i32; nia|].
  rewrite (to_i32_id log) by (unfold i32; lia).
  wp_step. apply wp_mul32; [unfold i32; lia|].
  wp_step. apply wp_sub32; [unfold i32; nia|].
  assert (HN : ratio_range M C (mg * C * 64 - log * d))
    by (unfold ratio_range; lia).
  remember (mg * C * 64 - log * d) as N eqn:EN.
  clear EN Hld HdC HmC HmC2 Hgr Hlog Hb3 Hmd Hmg Hd.
  assert (HMC : 0 <= M * C <= 90 * C) by nia.
  wp_step. apply (wp_mono _ (fun b : bool =>
     if b then Z.shiftr (20 * C) 8 < Z.abs N else Z.abs N <= Z.shiftr (20 * C) 8)).
  { destruct (Z.ltb_spec (Z.shiftr (20 * C) 8) N); [apply wp_ret; lia|].
    wp_step. apply wp_neg32; [unfold i32, ratio_range in *; lia|]. apply wp_ret.
    destruct (Z.ltb_spec (Z.shiftr (20 * C) 8) (- N)); cint. }
  intros big Hbig.
  destruct (ratio_shift_ok M C N big HM HC HN Hbig) as (Hz1 & Hz2 & Hz3 & Hz4).
  set (z := if big then WebRtcSpl_NormW32 N else WebRtcSpl_NormW32 (20 * C) + 8)
    in *. clearbody z.
  pose proof (wp_ratio_divide M C N z HM HC HN Hz1 Hz2 Hz3 Hz4) as HW.
  apply wp_ok in HW as (y & Ey & Hy).
  destruct (shl32 1 z) as [p|] eqn:E1; [|done]. cbn [mbind res_bind] in *.
  destruct (mul32 N p) as [n|] eqn:E2; [|done]. cbn [mbind res_bind] in *.
  destruct (WEBRTC_SPL_SHIFT_W32 (20 * C) (z - 9)) as [t|] eqn:E3; [|done].
  cbn [mbind res_bind] in *. rewrite Ey. cbn [mbind res_bind].
  clear - Hy HM. unfold quotient_range, rounded_range in *.
  destruct (Z.leb_spec 0 y); wp_run; cint.
Qed.

(** ** Limiter, exponent, power *)

Lemma wp_limiter_idx a :
  0 <= a <= 200 ->
  wp (gt_limiter_idx a) (fun k => k = 2 + a * 8192 / 24660).
Proof.
  intros Ha. unfold gt_limiter_idx, kLog10_2. change (Z.quot 49321 2) with 24660.
  rewrite Z.sub_0_r, (to_i16_id a) by (unfold i16; lia).
  wp_step. apply wp_mul32; [unfold i32; lia|].
  wp_step. apply wp_DivW32W16ResW16; [unfold i32; lia|lia|].
  apply wp_ret. rewrite Z.quot_div_nonneg by lia.
  rewrite !to_i16_id; try done; cint.
Qed.

Lemma wp_limit M i y en a t :
  0 <= M <= 90 -> 0 <= i <= 31 -> rounded_range M y -> 0 <= a <= 200 -> 0 <= t <= 31 ->
  a - t <= M ->
  wp (gt_limit i y en (2 + a * 8192 / 24660) t) (rounded_range M).
Proof.
  intros HM Hi Hy Ha Ht Hat. unfold gt_limit.
  destruct (negb (en =? 0)); [|done]. cbn [andb].
  destruct (Z.ltb_spec i (2 + a * 8192 / 24660)); [|done].
  unfold WEBRTC_SPL_MUL_16_U16, kLog10_2.
  rewrite (to_i16_id (i - 1)), (to_u16_id 49321) by cint.
  wp_step. apply wp_mul32; [cint|].
  wp_step. apply wp_mul32; [cint|].
  wp_step. apply wp_sub32; [cint|].
  wp_step. apply wp_add32; [cint|].
  apply wp_DivW32W16; [cint|lia|]. unfold rounded_range.
  assert (Hk : (i - 1) * 24660 <= a * 8192) by cint.
  assert (-49321 - 31 * 16384 <= (i - 1) * 49321 - t * 16384 <= 16384 * M + 30) by lia.
  clear H Hk. cint.
Qed.

(** Octaves of gain that cover [M] dB (three for the 18 dB that the 32-bit
    gain application needs). *)
Definition octaves (M : Z) : Z := if M <=? 18 then 3 else 15.

Lemma wp_exponent M y :
  0 <= M <= 90 -> rounded_range M y ->
  wp (gt_exponent y) (fun x => i32 x /\ x <= 262143 + 16384 * octaves M).
Proof.
  unfold rounded_range. intros HM Hy. unfold gt_exponent, kLog10.
  wp_step. apply (wp_mono _ (fun x => -200000 <= x <= 16384 * octaves M - 1)).
  { unfold octaves. destruct (Z.leb_spec M 18);
      destruct (Z.ltb_spec 39000 y); wp_run; cint. }
  intros x Hx. assert (3 <= octaves M <= 15) by (unfold octaves; case_if; lia).
  wp_step. cint.
Qed.

(** A gain of at most [M] dB, in Q16. *)
Definition gain_ok (M g : Z) : Prop := 0 <= g < 2 ^ (16 + octaves M).

Lemma wp_power M x :
  i32 x -> x <= 262143 + 16384 * octaves M -> wp (gt_power x) (gain_ok M).
Proof.
  intros Hx Hle. unfold gt_power, gain_ok.
  assert (HoM : octaves M = 3 \/ octaves M = 15) by (unfold octaves; case_if; lia).
  assert (Hpos : 0 < 2 ^ (16 + octaves M)) by (apply Z.pow_pos_nonneg; lia).
  destruct (Z.ltb_spec 0 x); [|apply wp_ret; lia].
  assert (Hip : to_u16 (to_i16 (Z.shiftr x 14)) = x / 16384).
  { rewrite Z.shiftr_div_pow2 by lia. change (2 ^ 14) with 16384.
    rewrite to_i16_id, to_u16_id; cint. }
  assert (Hfp : to_u16 (Z.land x 16383) = x mod 16384).
  { rewrite land_3fff. apply to_u16_id. cint. }
  rewrite Hip, Hfp.
  assert (Hi30 : 0 <= x / 16384 <= 15 + octaves M) by cint.
  assert (Hf : 0 <= x mod 16384 <= 16383) by cint.
  remember (x / 16384) as ip eqn:Eip. remember (x mod 16384) as fp eqn:Efp.
  clear Eip Efp Hip Hfp Hx Hle H.
  wp_step. apply (wp_mono _ (fun f => 0 <= f <= 16383)).
  { unfold constLinApprox. change (to_i16 (32768 - 22817)) with 9951.
    change (to_i16 (22817 - 16384)) with 6433.
    destruct (Z.eqb_spec (Z.shiftr fp 13) 0); cbn [negb]; wp_run; cint. }
  intros f Hfr. rewrite (to_u16_id f) by (unfold u16; lia).
  assert (Hp : 1 <= 2 ^ ip) by (apply Z.lt_pred_le, Z.pow_pos_nonneg; lia).
  assert (Hp2 : 2 ^ ip <= 2 ^ 30) by (apply Z.pow_le_mono_r; lia).
  assert (Hp3 : 2 ^ ip * 2 <= 2 ^ (16 + octaves M)).
  { rewrite Z.mul_comm, <- Z.pow_succ_r by lia. apply Z.pow_le_mono_r; lia. }
  change (2 ^ 30) with 1073741824 in Hp2. assert (ip <= 30) by lia. clear HoM Hpos.
  wp_step. apply wp_shl32; [lia| |]; rewrite Z.shiftl_1_l; [unfold i32; lia|].
  wp_step. apply (wp_mono _ (fun s => 0 <= s < 2 ^ ip)).
  { unfold WEBRTC_SPL_SHIFT_W32. destruct (Z.leb_spec 0 (ip - 14)).
    - assert (Hq : 1 <= 2 ^ (ip - 14)) by (apply Z.lt_pred_le, Z.pow_pos_nonneg; lia).
      assert (Hq2 : 2 ^ (ip - 14) <= 2 ^ 16) by (apply Z.pow_le_mono_r; lia).
      assert (Hq3 : 2 ^ ip = 16384 * 2 ^ (ip - 14)).
      { change 16384 with (2 ^ 14). rewrite <- Z.pow_add_r by lia. f_equal. lia. }
      change (2 ^ 16) with 65536 in Hq2.
      wp_step. apply wp_shl32; [lia| |]; rewrite Z.shiftl_1_l; [unfold i32; lia|].
      apply wp_mul32; [unfold i32; nia|]. nia.
    - apply wp_shr32; [lia|]. rewrite Z.shiftr_div_pow2 by lia.
      assert (0 < 2 ^ (- (ip - 14))) by (apply Z.pow_pos_nonneg; lia).
      assert (Hq3 : 2 ^ (- (ip - 14)) * 2 ^ ip = 16384).
      { change 16384 with (2 ^ 14). rewrite <- Z.pow_add_r by lia. f_equal. lia. }
      split; [apply Z.div_pos; lia|].
      apply Z.div_lt_upper_bound; nia. }
  intros s Hs. apply wp_add32; [unfold i32; lia|]. lia.
Qed.

(** ** The table *)

Definition max_gain_spec (dig target analog : Z) : Z :=
  Z.max (analog - target + Z.quot (2 * (dig - analog) + 1) 3)
        (analog - target).
Definition diff_gain_spec (dig : Z) : Z := Z.quot (2 * dig + 1) 3.

(** The parameters for which the table is computed without undefined behaviour:
    a compression gain inside the generator table, a target level in the
    documented range, at most [M <= 90] dB of gain, and a gain at full scale that
    does not fall below -35 dB. *)
Definition gain_params_ok (M dig target analog : Z) : Prop :=
  0 <= dig <= 186 /\ 0 <= target <= 31 /\ 0 <= analog <= 200 /\
  0 <= M <= 90 /\ max_gain_spec dig target analog <= M /\
  -35 <= max_gain_spec dig target analog - diff_gain_spec dig.

Lemma wp_max_gain M dig target analog :
  gain_params_ok M dig target analog ->
  wp (gt_max_gain dig target analog)
     (fun m => m = max_gain_spec dig target analog).
Proof.
  intros (H1 & H2 & H3 & HM & H4 & H5).
  unfold gt_max_gain, kCompRatio, max_gain_spec, WEBRTC_SPL_MAX in *.
  change (Z.shiftr 3 1) with 1.
  wp_step. apply wp_sub32; [unfold i32; lia|].
  wp_step. apply wp_mul32; [unfold i32; lia|].
  wp_step. apply wp_sub32; [unfold i32; lia|].
  wp_step. apply wp_add32; [unfold i32; lia|].
  wp_step. apply wp_DivW32W16ResW16; [unfold i32; lia|lia|].
  replace ((dig - analog) * (3 - 1) + 1) with (2 * (dig - analog) + 1) by lia.
  rewrite (to_i16_id (Z.quot _ _)) by cint.
  rewrite (to_i16_id (analog - target)) by cint.
  wp_step. apply wp_add32; [cint|].
  rewrite (to_i16_id (analog - target + _)) by cint.
  apply wp_ret. destruct (Z.ltb_spec (analog - target)
    (analog - target + Z.quot (2 * (dig - analog) + 1) 3));
    rewrite to_i16_id; cint.
Qed.

Lemma wp_zero_gain_lvl dig m analog en :
  0 <= dig <= 186 -> -200 <= m <= 90 -> 0 <= analog <= 200 ->
  wp (gt_zero_gain_lvl dig m analog en) (fun _ => True).
Proof.
  intros H1 H2 H3. unfold gt_zero_gain_lvl, kCompRatio.
  change (Z.shiftr (3 - 1) 1) with 1.
  wp_step. apply wp_mul32; [unfold i32; lia|].
  wp_step. apply wp_add32; [unfold i32; lia|].
  wp_step. apply wp_DivW32W16ResW16; [unfold i32; lia|lia|].
  by destruct (_ && _).
Qed.

Lemma wp_diff_gain dig :
  0 <= dig <= 186 -> wp (gt_diff_gain dig) (fun d => d = diff_gain_spec dig).
Proof.
  intros H. unfold gt_diff_gain, kCompRatio, diff_gain_spec.
  change (Z.shiftr 3 1) with 1.
  wp_step. apply wp_mul32; [unfold i32; lia|].
  wp_step. apply wp_add32; [unfold i32; lia|].
  apply wp_DivW32W16ResW16; [unfold i32; lia|lia|].
  replace (dig * (3 - 1) + 1) with (2 * dig + 1) by lia.
  apply to_i16_id. cint.
Qed.

Lemma wp_gt_loop n i entry (P : Z -> Prop) :
  (forall j, i <= j < i + Z.of_nat n -> wp (entry j) P) ->
  wp (gt_loop n i entry) (fun gs => Forall P gs /\ length gs = n).
Proof.
  revert i. induction n as [|n IH]; intros i He; simpl.
  { split; [by apply Forall_nil|done]. }
  wp_step. eapply wp_mono; [apply He; lia|]. intros g Hg.
  wp_step. eapply wp_mono; [apply IH; intros j Hj; apply He; lia|].
  intros gs [Hgs Hl]. apply wp_ret.
  split; [by apply Forall_cons|simpl; lia].
Qed.

Definition gain_table_ok (M : Z) (t : list Z) : Prop :=
  Forall (gain_ok M) t /\ length t = 32%nat.

Lemma wp_CalculateGainTable M old dig target en analog :
  gain_params_ok M dig target analog ->
  wp (WebRtcAgc_CalculateGainTable old dig target en analog)
     (fun '(ret, t) => ret = 0 /\ gain_table_ok M t).
Proof.
  intros HP. pose proof HP as (H1 & H2 & H3 & HM & H4 & H5).
  unfold WebRtcAgc_CalculateGainTable.
  wp_step. eapply wp_mono; [by eapply wp_max_gain|]. intros m ->.
  assert (Hm : -35 <= max_gain_spec dig target analog) by
    (unfold diff_gain_spec in H5; Z.to_euclidean_division_equations; lia).
  assert (Hat : analog - target <= max_gain_spec dig target analog)
    by (unfold max_gain_spec; lia).
  wp_step. eapply wp_mono; [apply wp_zero_gain_lvl; lia|]. intros _ _.
  wp_step. eapply wp_mono; [by apply wp_diff_gain|]. intros d ->.
  assert (Hd : 0 <= diff_gain_spec dig <= 124) by (unfold diff_gain_spec; cint).
  remember (diff_gain_spec dig) as d eqn:Ed.
  remember (max_gain_spec dig target analog) as m eqn:Em. clear Ed Em HP.
  unfold kGenFuncTableSize.
  destruct (Z.ltb_spec d 0); [lia|]. destruct (Z.leb_spec 128 d); [lia|].
  cbn [orb].
  wp_step. eapply wp_mono; [by apply wp_limiter_idx|]. intros k ->.
  wp_step. apply (wp_mono _ (fun x => x = target)).
  { unfold gt_limiter_lvl, kCompRatio. simpl. unfold add32.
    rewrite chk32_ok by (unfold i32; cint). simpl. cint. }
  intros lvl ->.
  destruct (table_growth d Hd) as (C & b3 & EC & Eb3 & HC & Hb3 & Hgr).
  rewrite EC. cbn [mbind res_bind].
  wp_step. apply (wp_mono _ (fun x => x = 20 * C)).
  { unfold WEBRTC_SPL_MUL_16_U16. change (to_i16 20) with 20.
    rewrite to_u16_id by (unfold u16; lia). wp_run. done. }
  intros den ->.
  wp_step. eapply wp_mono.
  { apply (wp_gt_loop 32 0 _ (gain_ok M)). intros i Hi. unfold gt_entry.
    wp_step. eapply wp_mono; [apply (wp_in_level i d); lia|]. intros x Hx.
    wp_step. eapply wp_mono; [by apply (wp_log_approx d x Hd Hx b3)|].
    intros log Hlog.
    wp_step. eapply wp_mono; [apply (wp_ratio M m d C log b3); (done || lia)|].
    intros y Hy.
    wp_step. eapply wp_mono; [apply (wp_limit M i y en analog target); (done || lia)|].
    intros y' Hy'.
    wp_step. eapply wp_mono; [by apply (wp_exponent M)|]. intros e [He1 He2].
    by apply wp_power. }
  intros t Ht. by apply wp_ret.
Qed.

(** The guard on the index of the generator table, for parameters of 16 bits: outside -1..191
    the table stays as it is; inside there is no other error code. *)
Lemma CalculateGainTable_guard old dig target en analog :
  i16 dig -> i16 target -> i16 analog ->
  if (dig <? -1) || (191 <? dig)
  then WebRtcAgc_CalculateGainTable old dig target en analog = Ok (-1, old)
  else forall ret tab,
    WebRtcAgc_CalculateGainTable old dig target en analog = Ok (ret, tab) -> ret = 0.
Proof.
  unfold i16. intros H1 H2 H3. unfold WebRtcAgc_CalculateGainTable.
  assert (Em : exists m, i16 m /\ gt_max_gain dig target analog = Ok m).
  { destruct (proj1 (wp_ok (gt_max_gain dig target analog) i16)) as (m & E & Hm); [|by exists m].
    unfold gt_max_gain, kCompRatio. change (Z.shiftr 3 1) with 1.
    wp_step. apply wp_sub32; [unfold i32; lia|]. wp_step. apply wp_mul32; [unfold i32; lia|].
    wp_step. apply wp_sub32; [unfold i32; lia|]. wp_step. apply wp_add32; [unfold i32; lia|].
    wp_step. apply wp_DivW32W16ResW16; [unfold i32; lia|lia|].
    wp_step. apply wp_add32; [|wp_step; apply to_i16_range].
    pose proof (to_i16_range (analog - target)).
    pose proof (to_i16_range (Z.quot ((dig - analog) * (3 - 1) + 1) 3)). unfold i16, i32 in *. lia. }
  destruct Em as (m & Hm & ->). rewrite bind_ok. unfold i16 in Hm.
  assert (Ez : exists z, gt_zero_gain_lvl dig m analog en = Ok z).
  { destruct (proj1 (wp_ok (gt_zero_gain_lvl dig m analog en) (fun _ => True))) as (z & E & _); [|by exists z].
    unfold gt_zero_gain_lvl, kCompRatio. change (Z.shiftr (3 - 1) 1) with 1.
    wp_step. apply wp_mul32; [unfold i32; lia|]. wp_step. apply wp_add32; [unfold i32; lia|].
    wp_step. apply wp_DivW32W16ResW16; [unfold i32; lia|lia|]. by destruct (_ && _). }
  destruct Ez as [z ->]. rewrite bind_ok.
  assert (Ed : gt_diff_gain dig = Ok (diff_gain_spec dig)).
  { apply wp_pure. unfold gt_diff_gain, kCompRatio, diff_gain_spec. change (Z.shiftr 3 1) with 1.
    wp_step. apply wp_mul32; [unfold i32; lia|]. wp_step. apply wp_add32; [unfold i32; lia|].
    apply wp_DivW32W16ResW16; [unfold i32; lia|lia|].
    replace (dig * (3 - 1) + 1) with (2 * dig + 1) by lia.
    apply to_i16_id. unfold i16. Z.to_euclidean_division_equations. lia. }
  rewrite Ed, bind_ok. unfold kGenFuncTableSize, diff_gain_spec.
  assert (Eg : (Z.quot (2 * dig + 1) 3 <? 0) || (128 <=? Z.quot (2 * dig + 1) 3) = (dig <? -1) || (191 <? dig)).
  { apply eq_iff_eq_true. rewrite !orb_true_iff, !Z.ltb_lt, Z.leb_le.
    Z.to_euclidean_division_equations. lia. }
  rewrite Eg. destruct ((dig <? -1) || (191 <? dig)); [done|].
  intros ret tab E. do 5 (apply bind_inv in E as (? & _ & E)). by injection E as <- _.
Qed.

(** Analog target of the adaptive modes, and the fixed digital mode. *)
Lemma gain_params_adaptive c t :
  0 <= c <= 90 -> 0 <= t <= 31 ->
  gain_params_ok (Z.max 7 c) c t (4 + Z.quot (5 * c + 5) 11).
Proof.
  intros Hc Ht. unfold gain_params_ok, max_gain_spec, diff_gain_spec.
  Z.to_euclidean_division_equations. lia.
Qed.

Lemma gain_params_fixed c t :
  0 <= c <= 90 -> 0 <= t <= 31 ->
  gain_params_ok (Z.max 7 c) (c + t) t (c + t).
Proof.
  intros Hc Ht. unfold gain_params_ok, max_gain_spec, diff_gain_spec.
  Z.to_euclidean_division_equations. lia.
Qed.

(** C16: for every configuration the control layer accepts (compression gain
    0..90 dB, target level 0..31), in the adaptive and in the fixed digital
    interpretation of the parameters, with or without limiter, the gain table is
    computed without undefined behaviour, has 32 entries and every entry is a
    non-negative 32-bit value; up to a compression gain of 18 dB every entry is
    below 8.0 in Q16, the bound the 32-bit gain application relies on. *)
Theorem gain_table_total old c t en :
  0 <= c <= 90 -> 0 <= t <= 31 ->
  let bound := if c <=? 18 then 2 ^ 19 else 2 ^ 31 in
  (exists tab, WebRtcAgc_CalculateGainTable old c t en
                 (4 + Z.quot (5 * c + 5) 11) = Ok (0, tab) /\
               length tab = 32%nat /\ Forall (fun g => 0 <= g < bound) tab) /\
  (exists tab, WebRtcAgc_CalculateGainTable old (c + t) t en (c + t) =
                 Ok (0, tab) /\
               length tab = 32%nat /\ Forall (fun g => 0 <= g < bound) tab).
Proof.
  intros Hc Ht bound.
  assert (Hb : 2 ^ (16 + octaves (Z.max 7 c)) = bound).
  { unfold octaves, bound. destruct (Z.leb_spec c 18), (Z.leb_spec (Z.max 7 c) 18);
      done || lia. }
  assert (Ht' : forall tab, gain_table_ok (Z.max 7 c) tab ->
    length tab = 32%nat /\ Forall (fun g => 0 <= g < bound) tab).
  { unfold gain_table_ok, gain_ok. rewrite Hb. tauto. }
  destruct (proj1 (wp_ok _ _) (wp_CalculateGainTable _ old c t en _
              (gain_params_adaptive c t Hc Ht))) as ([r1 t1] & E1 & -> & H1).
  destruct (proj1 (wp_ok _ _) (wp_CalculateGainTable _ old (c + t) t en _
              (gain_params_fixed c t Hc Ht))) as ([r2 t2] & E2 & -> & H2).
  split; eauto.
Qed.

Lemma gain_table_total_witness :
  (exists tab, WebRtcAgc_CalculateGainTable [] 9 3 1
                 (4 + Z.quot (5 * 9 + 5) 11) = Ok (0, tab) /\
               length tab = 32%nat /\ Forall (fun g => 0 <= g < 2 ^ 19) tab) /\
  (exists tab, WebRtcAgc_CalculateGainTable [] (9 + 3) 3 1 (9 + 3) =
                 Ok (0, tab) /\
               length tab = 32%nat /\ Forall (fun g => 0 <= g < 2 ^ 19) tab).
Proof. apply (gain_table_total [] 9 3 1); lia. Defined.

(** The guard on the table index is not strong enough: compression gains of
    187 to 191 dB pass it, and the interpolation of entry 0 then reads the
    128-entry generator table past its end (index [diffGain + 3]); 192 dB is the
    first value that is rejected, with the table left unchanged. *)
Lemma gain_table_guard_too_weak old en :
  Forall (fun dig =>
      WebRtcAgc_CalculateGainTable old dig 3 en (4 + Z.quot (5 * dig + 5) 11) =
      Fault OutOfBounds) [187; 188; 189; 190; 191] /\
  WebRtcAgc_CalculateGainTable old 192 3 en (4 + Z.quot (5 * 192 + 5) 11) =
  Ok (-1, old).
Proof. split; [repeat constructor|]; vm_compute; reflexivity. Qed.
