(* ===== verification/Digital.v ===== *)
(** * Digital AGC

    [DigitalAgc], [WebRtcAgc_InitDigital], [WebRtcAgc_AddFarendToDigital] and
    [WebRtcAgc_ProcessDigital] of [digital_agc/digital_agc.c]: two envelope
    followers per millisecond select a gain from the table, a gate lowers it in
    the absence of speech, a limiter keeps it below overload, and the gain is
    interpolated over the samples of every band. *)
From S2P Require Import Prelude CInt Spl Vad GainTable.

(** ** Modes (gain_control.h) *)

Definition kAgcModeUnchanged : Z := 0.
Definition kAgcModeAdaptiveAnalog : Z := 1.
Definition kAgcModeAdaptiveDigital : Z := 2.
Definition kAgcModeFixedDigital : Z := 3.

(** ** State *)

Record DigitalAgc := {
  capacitorSlow : Z;
  capacitorFast : Z;
  gain : Z;
  gainTable : list Z;
  gatePrevious : Z;
  d_agcMode : Z;
  vadNearend : AgcVad;
  vadFarend : AgcVad
}.

(** [WebRtcAgc_InitDigital] leaves the gain table alone. *)
Definition WebRtcAgc_InitDigital (stt : DigitalAgc) (agcMode : Z)
    : Z * DigitalAgc :=
  (0,
   {| capacitorSlow :=
        if agcMode =? kAgcModeFixedDigital then 0 else 134217728;
      capacitorFast := 0;
      gain := 65536;
      gainTable := gainTable stt;
      gatePrevious := 0;
      d_agcMode := agcMode;
      vadNearend := WebRtcAgc_InitVad;
      vadFarend := WebRtcAgc_InitVad |}).

(** [stt] is [None] for a null pointer. *)
Definition WebRtcAgc_AddFarendToDigital (stt : option DigitalAgc)
    (in_far : list Z) (nrSamples : Z) : res (Z * option DigitalAgc) :=
  match stt with
  | None => Ok (-1, None)
  | Some s =>
      '(v, _) ← WebRtcAgc_ProcessVad (vadFarend s) in_far nrSamples;
      Ok (0, Some
        {| capacitorSlow := capacitorSlow s; capacitorFast := capacitorFast s;
           gain := gain s; gainTable := gainTable s;
           gatePrevious := gatePrevious s; d_agcMode := d_agcMode s;
           vadNearend := vadNearend s; vadFarend := v |})
  end.

(** ** Macros (digital_agc.h) *)

Definition AGC_MUL32 (A B : Z) : res Z :=
  hi ← mul32 (Z.shiftr B 13) A;
  lo ← mul32 (Z.land 8191 B) A;
  add32 hi (Z.shiftr lo 13).

Definition AGC_SCALEDIFF32 (A B C : Z) : res Z :=
  hi ← mul32 (Z.shiftr B 16) A;
  s ← add32 C hi;
  lo ← mul32 (Z.land 65535 B) A;
  add32 s (Z.shiftr lo 16).

(** ** Frame size: samples per ms and its logarithm *)

Definition frame_size (FS : Z) : option (nat * Z) :=
  if FS =? 8000 then Some (8%nat, 3)
  else if (FS =? 16000) || (FS =? 32000) || (FS =? 48000) then Some (16%nat, 4)
  else None.

(** ** Decay factor *)

(** Accounts for the far end, then maps the log ratio to a decay. *)
Definition decay_from_vad (logratio : Z) (far : AgcVad) : res Z :=
  logratio ←
    (if 10 <? counter far then
       tmp32 ← mul32 3 logratio;
       t ← sub32 tmp32 (logRatio far);
       Ok (to_i16 (Z.shiftr t 2))
     else Ok logratio);
  if 1024 <? logratio then Ok (-65)
  else if logratio <? 0 then Ok 0
  else
    t ← sub32 0 logratio;
    tmp32 ← mul32 t 65;
    Ok (to_i16 (Z.shiftr tmp32 10)).

(** Long silence and low-level signals stop the decay in adaptive modes. *)
Definition decay_adjust (agcMode stdLong lowlevelSignal decay : Z) : res Z :=
  if negb (agcMode =? kAgcModeFixedDigital) then
    decay ←
      (if stdLong <? 4000 then Ok 0
       else if stdLong <? 8096 then
         t ← sub32 stdLong 4000;
         tmp32 ← mul32 t decay;
         Ok (to_i16 (Z.shiftr tmp32 12))
       else Ok decay);
    Ok (if negb (lowlevelSignal =? 0) then 0 else decay)
  else Ok decay.

(** ** Envelope: the largest squared sample of each subframe *)

Definition max_nrg_step (max_nrg x : Z) : res Z :=
  nrg ← mul32 x x;
  Ok (if max_nrg <? nrg then nrg else max_nrg).

Fixpoint envelope (k : nat) (L : nat) (x : list Z) : res (list Z) :=
  match k with
  | O => Ok []
  | S k' =>
      sub ← take_exact L x;
      m ← each max_nrg_step 0 sub;
      rest ← envelope k' L (drop L x);
      Ok (m :: rest)
  end.

(** ** Gain of one subframe *)

Record follower := Follower {
  f_fast : Z; f_slow : Z; f_zeros : Z; f_frac : Z
}.

(** Both envelope followers. *)
Definition follow (decay env : Z) (fast slow : Z) : res (Z * Z) :=
  fast ← AGC_SCALEDIFF32 (-1000) fast fast;
  let fast := if fast <? env then env else fast in
  slow ←
    (if slow <? env then
       d ← sub32 env slow;
       AGC_SCALEDIFF32 500 d slow
     else AGC_SCALEDIFF32 decay slow slow);
  Ok (fast, slow).

(** Position of a level in the gain table: leading zeros and a Q12 fraction
    (the remaining bits below the top one). *)
Definition level_position (level : Z) : res (Z * Z) :=
  let zeros := WebRtcSpl_NormU32 (to_u32 level) in
  let zeros := if level =? 0 then 31 else zeros in
  s ← shlu (to_u32 level) zeros;
  Ok (zeros, to_i32 (Z.land s 2147483647)).

Definition subframe_gain (table : list Z) (decay env : Z) (f : follower)
    : res (follower * Z) :=
  '(fast, slow) ← follow decay env (f_fast f) (f_slow f);
  let cur_level := if slow <? fast then fast else slow in
  '(zeros, tmp32) ← level_position cur_level;
  let frac := to_i16 (Z.shiftr tmp32 19) in
  a ← rd table (zeros - 1);
  b ← rd table zeros;
  d ← sub32 a b;
  tmp32 ← mul32 d frac;
  g ← add32 b (Z.shiftr tmp32 12);
  Ok (Follower fast slow zeros frac, g).

Fixpoint gains_loop (table : list Z) (decay : Z) (env : list Z) (f : follower)
    : res (follower * list Z) :=
  match env with
  | [] => Ok (f, [])
  | e :: env' =>
      '(f, g) ← subframe_gain table decay e f;
      '(f, gs) ← gains_loop table decay env' f;
      Ok (f, g :: gs)
  end.

(** ** Gate *)

(** Returns the new [gatePrevious] and the gate. *)
Definition gate_value (f : follower) (stdShort gatePrev : Z)
    : res (Z * Z) :=
  t ← shl32 (f_zeros f) 9;
  t ← sub32 t (Z.shiftr (f_frac f) 3);
  let zeros := to_i16 t in
  '(zeros_fast, tmp32) ← level_position (f_fast f);
  t ← shl32 zeros_fast 9;
  let zeros_fast := to_i16 t in
  t ← sub32 zeros_fast (to_i16 (Z.shiftr tmp32 22));
  let zeros_fast := to_i16 t in
  t ← add32 1000 zeros_fast;
  t ← sub32 t zeros;
  t ← sub32 t stdShort;
  let gate := to_i16 t in
  if gate <? 0 then Ok (0, gate)
  else
    tmp32 ← mul32 gatePrev 7;
    t ← add32 gate tmp32;
    let gate := to_i16 (Z.shiftr t 3) in
    Ok (gate, gate).

Definition gate_gain (table0 gain_adj g : Z) : res Z :=
  d ← sub32 g table0;
  tmp32 ←
    (if 8388608 <? d then
       mul32 (Z.shiftr d 8) (178 + gain_adj)
     else
       t ← mul32 d (178 + gain_adj);
       Ok (Z.shiftr t 8));
  add32 table0 tmp32.

Fixpoint map_res {A B} (f : A -> res B) (l : list A) : res (list B) :=
  match l with
  | [] => Ok []
  | x :: l' => y ← f x; ys ← map_res f l'; Ok (y :: ys)
  end.

Definition gate_gains (table : list Z) (gate : Z) (gs : list Z)
    : res (list Z) :=
  if 0 <? gate then
    gain_adj ← (if gate <? 2500
                then t ← sub32 2500 gate; Ok (Z.shiftr t 5) else Ok 0);
    table0 ← rd table 0;
    map_res (gate_gain table0 (to_i16 gain_adj)) gs
  else Ok gs.

(** ** Limiter *)

Definition limit_square (g zeros : Z) : res Z :=
  s ← shr32 g zeros;
  gain32 ← add32 s 1;
  mul32 gain32 gain32.

Definition limit_reduce (g : Z) : res Z :=
  if 8388607 <? g then (q ← div32 g 256; mul32 q 253)
  else (p ← mul32 g 253; div32 p 256).

(** The [while] loop; every iteration multiplies the gain by 253/256.  The fuel
    covers the 1134 iterations that take the largest gain of the invariant to
    zero, where the loop always stops. *)
Definition limit_fuel : nat := 2048.

Fixpoint limit_loop (fuel : nat) (e zeros bound g gain32 : Z) : res Z :=
  match fuel with
  | O => Fault OutOfFuel
  | S fuel' =>
      m ← AGC_MUL32 (Z.shiftr e 12 + 1) gain32;
      if bound <? m then
        g ← limit_reduce g;
        gain32 ← limit_square g zeros;
        limit_loop fuel' e zeros bound g gain32
      else Ok g
  end.

Definition limit_gain (e g : Z) : res Z :=
  let zeros := if 47453132 <? g then 16 - WebRtcSpl_NormW32 g else 10 in
  gain32 ← limit_square g zeros;
  bound ← WEBRTC_SPL_SHIFT_W32 32767 (2 * (1 - zeros + 10));
  limit_loop limit_fuel e zeros bound g gain32.

Fixpoint limit_gains (env gs : list Z) : res (list Z) :=
  match gs, env with
  | [], _ => Ok []
  | g :: gs', e :: env' =>
      g ← limit_gain e g; rest ← limit_gains env' gs'; Ok (g :: rest)
  | _ :: _, [] => Fault OutOfBounds
  end.

(** Reductions one millisecond early: [gains[k] = min (gains[k], gains[k+1])]
    for k = 1 .. 9, in increasing order. *)
Fixpoint early_reduction (gs : list Z) : list Z :=
  match gs with
  | g :: ((g' :: _) as rest) =>
      (if g' <? g then g' else g) :: early_reduction rest
  | _ => gs
  end.

(** ** Application of the gain *)

Definition apply_first (gain32 x : Z) : res Z :=
  t ← add32 gain32 127;
  tmp32 ← mul32 x (Z.shiftr t 7);
  let out_tmp := Z.shiftr tmp32 16 in
  if 4095 <? out_tmp then Ok 32767
  else if out_tmp <? -4096 then Ok (-32768)
  else
    tmp32 ← mul32 x (Z.shiftr gain32 4);
    Ok (to_i16 (Z.shiftr tmp32 16)).

Definition apply_rest (gain32 x : Z) : res Z :=
  tmp64 ← mul64 x (Z.shiftr gain32 4);
  let tmp64 := Z.shiftr tmp64 16 in
  if 32767 <? tmp64 then Ok 32767
  else if tmp64 <? -32768 then Ok (-32768)
  else Ok (to_i16 tmp64).

(** The samples of one subframe of one band; [gain32] advances by [delta] after
    every sample. *)
Fixpoint apply_samples (f : Z -> Z -> res Z) (delta gain32 : Z) (xs : list Z)
    : res (list Z) :=
  match xs with
  | [] => Ok []
  | x :: xs' =>
      y ← f gain32 x;
      gain32 ← add32 gain32 delta;
      ys ← apply_samples f delta gain32 xs';
      Ok (y :: ys)
  end.

Definition apply_subframe (f : Z -> Z -> res Z) (L : nat) (L2 : Z)
    (g0 g1 : Z) (x : list Z) : res (list Z) :=
  d ← sub32 g1 g0;
  p ← shl32 1 (4 - L2);
  delta ← mul32 d p;
  gain32 ← mul32 g0 16;
  sub ← take_exact L x;
  apply_samples f delta gain32 sub.

Fixpoint apply_subframes (f : Z -> Z -> res Z) (L : nat) (L2 : Z)
    (gs : list Z) (x : list Z) : res (list Z) :=
  match gs with
  | g0 :: ((g1 :: _) as rest) =>
      ys ← apply_subframe f L L2 g0 g1 x;
      tail ← apply_subframes f L L2 rest (drop L x);
      Ok (ys ++ tail)
  | _ => Ok x
  end.

(** One band: the first subframe with the 32-bit product, the others with the
    64-bit product. *)
Definition apply_band (L : nat) (L2 : Z) (gs : list Z) (x : list Z)
    : res (list Z) :=
  match gs with
  | g0 :: ((g1 :: _) as rest) =>
      ys ← apply_subframe apply_first L L2 g0 g1 x;
      tail ← apply_subframes apply_rest L L2 rest (drop L x);
      Ok (ys ++ tail)
  | _ => Fault OutOfBounds
  end.

(** ** The whole frame

    [in_near] and [out] hold the samples of every band; [num_bands] is the
    length of [in_near].  The bands are copied to [out] first (a band that is
    already in place is left alone, which gives the same contents), and every
    later access goes through [out]. *)
Definition memcpy (n : nat) (src dst : list Z) : res (list Z) :=
  s ← take_exact n src;
  _ ← take_exact n dst;
  Ok (s ++ drop n dst).

Fixpoint copy_bands (n : nat) (in_near out : list (list Z))
    : res (list (list Z)) :=
  match in_near, out with
  | [], _ => Ok out
  | x :: in_near', y :: out' =>
      b ← memcpy n x y; rest ← copy_bands n in_near' out'; Ok (b :: rest)
  | _ :: _, [] => Fault OutOfBounds
  end.

(** [out] restricted to the bands in use. *)
Definition process_frame (stt : DigitalAgc) (out : list (list Z))
    (L : nat) (L2 : Z) (lowlevelSignal : Z)
    : res (DigitalAgc * list (list Z)) :=
  out0 ← rd out 0;
  '(vad, logratio) ←
    WebRtcAgc_ProcessVad (vadNearend stt) out0 (Z.of_nat L * 10);
  decay ← decay_from_vad logratio (vadFarend stt);
  decay ← decay_adjust (d_agcMode stt) (stdLongTerm vad) lowlevelSignal decay;
  env ← envelope 10 L out0;
  '(f, gs) ← gains_loop (gainTable stt) decay env
               (Follower (capacitorFast stt) (capacitorSlow stt) 0 0);
  '(gatePrev, gate) ← gate_value f (stdShortTerm vad) (gatePrevious stt);
  gs ← gate_gains (gainTable stt) gate gs;
  gs ← limit_gains env gs;
  let gs := early_reduction gs in
  g10 ← rd gs 9;
  out ← map_res (apply_band L L2 (gain stt :: gs)) out;
  Ok ({| capacitorSlow := f_slow f; capacitorFast := f_fast f;
         gain := g10; gainTable := gainTable stt; gatePrevious := gatePrev;
         d_agcMode := d_agcMode stt; vadNearend := vad;
         vadFarend := vadFarend stt |}, out).

Definition WebRtcAgc_ProcessDigital (stt : DigitalAgc)
    (in_near out : list (list Z)) (FS lowlevelSignal : Z)
    : res (Z * DigitalAgc * list (list Z)) :=
  match frame_size FS with
  | None => Ok (-1, stt, out)
  | Some (L, L2) =>
      let num_bands := length in_near in
      bands ← copy_bands (10 * L) in_near (take num_bands out);
      '(stt, bands) ← process_frame stt bands L L2 lowlevelSignal;
      Ok (0, stt, bands ++ drop num_bands out)
  end.

(** ** The fixed-point macros compute the scaled product exactly *)

Lemma split_product A B p :
  0 < p -> B / p * A + B mod p * A / p = A * B / p.
Proof.
  intros Hp. rewrite (Z.div_mod B p) at 3 by lia.
  replace (A * (p * (B / p) + B mod p)) with (B mod p * A + B / p * A * p) by lia.
  rewrite Z.div_add by lia. lia.
Qed.

Lemma land_ffff_l x : Z.land 65535 x = x mod 65536.
Proof. rewrite Z.land_comm. apply land_ffff. Qed.
Lemma land_1fff_l x : Z.land 8191 x = x mod 8192.
Proof. rewrite Z.land_comm. apply land_1fff. Qed.
#[local] Hint Rewrite land_ffff_l land_1fff_l : cbits.

Lemma wp_AGC_SCALEDIFF32 A B C :
  -1000 <= A <= 500 -> 0 <= B <= 1073741824 -> 0 <= C <= 1073741824 ->
  wp (AGC_SCALEDIFF32 A B C) (fun r => r = C + A * B / 65536).
Proof.
  intros HA HB HC. unfold AGC_SCALEDIFF32.
  rewrite <- (split_product A B 65536) by lia.
  rewrite land_ffff_l, Z.shiftr_div_pow2 by lia. eval_pow2.
  assert (Hq : 0 <= B / 65536 <= 16384) by (Z.to_euclidean_division_equations; lia).
  pose proof (Z.mod_pos_bound B 65536 ltac:(lia)) as Hm.
  remember (B / 65536) as q. remember (B mod 65536) as m. clear Heqq Heqm.
  assert (-16384000 <= q * A <= 8192000) by nia.
  assert (-65536000 <= m * A <= 32768000) by nia.
  wp_run; cint.
Qed.

Lemma wp_AGC_MUL32 A B :
  0 < A <= 262145 -> 0 <= B <= 263169 ->
  wp (AGC_MUL32 A B) (fun r => r = A * B / 8192).
Proof.
  intros HA HB. unfold AGC_MUL32.
  rewrite <- (split_product A B 8192) by lia.
  rewrite land_1fff_l, Z.shiftr_div_pow2 by lia. eval_pow2.
  assert (Hq : 0 <= B / 8192 <= 32) by (Z.to_euclidean_division_equations; lia).
  pose proof (Z.mod_pos_bound B 8192 ltac:(lia)) as Hm.
  remember (B / 8192) as q. remember (B mod 8192) as m. clear Heqq Heqm.
  assert (0 <= q * A <= 8388640) by nia.
  assert (0 <= m * A <= 2147229695) by nia.
  wp_run; cint.
Qed.

(** ** Envelope followers *)

Definition level_range (x : Z) : Prop := 0 <= x <= 1073741824.
Definition decay_range (d : Z) : Prop := -65 <= d <= 0.

(** What both followers compute: the fast one decays by 1000/65536 per
    millisecond unless the envelope is larger, the slow one moves by a fraction
    of the distance upwards or decays. *)
Definition fast_spec (env fast : Z) : Z :=
  Z.max env (fast + -1000 * fast / 65536).
Definition slow_spec (decay env slow : Z) : Z :=
  if slow <? env then slow + 500 * (env - slow) / 65536
  else slow + decay * slow / 65536.

Lemma wp_follow decay env fast slow :
  decay_range decay -> level_range env -> level_range fast ->
  level_range slow ->
  wp (follow decay env fast slow)
     (fun r => r = (fast_spec env fast, slow_spec decay env slow)).
Proof.
  unfold decay_range, level_range. intros Hd He Hf Hs.
  unfold follow, fast_spec, slow_spec.
  wp_step. eapply wp_mono; [apply wp_AGC_SCALEDIFF32; lia|]. intros f ->.
  assert (Hmax : forall a b : Z, (if a <? b then b else a) = Z.max b a).
  { intros a b. destruct (Z.ltb_spec a b); lia. }
  rewrite Hmax. destruct (Z.ltb_spec slow env).
  - wp_step. wp_step. wp_step.
    eapply wp_mono; [apply wp_AGC_SCALEDIFF32; lia|]. by intros s ->.
  - wp_step. eapply wp_mono; [apply wp_AGC_SCALEDIFF32; lia|]. by intros s ->.
Qed.

Lemma fast_spec_range env fast :
  level_range env -> level_range fast -> level_range (fast_spec env fast).
Proof.
  unfold level_range, fast_spec. intros.
  Z.to_euclidean_division_equations. lia.
Qed.

Lemma slow_spec_range decay env slow :
  decay_range decay -> level_range env -> level_range slow ->
  level_range (slow_spec decay env slow).
Proof.
  unfold level_range, decay_range, slow_spec. intros.
  destruct (Z.ltb_spec slow env).
  - Z.to_euclidean_division_equations. lia.
  - assert (-65 * slow <= decay * slow <= 0) by nia.
    Z.to_euclidean_division_equations. lia.
Qed.

(** ** Level to gain *)

Definition gain_range (g : Z) : Prop := 0 <= g <= 524288.
Definition table_range (t : list Z) : Prop :=
  Forall gain_range t /\ length t = 32%nat.

(** [zeros] normalises the level; the remainder is the part below the top
    bit. *)
Lemma wp_level_position level :
  level_range level ->
  wp (level_position level)
     (fun '(zeros, r) => 1 <= zeros <= 31 /\ 0 <= r <= INT32_MAX /\
        (0 < level -> level * 2 ^ zeros = 2147483648 + r) /\
        (level = 0 -> zeros = 31 /\ r = 0)).
Proof.
  unfold level_range, level_position. intros Hl.
  rewrite to_u32_id by (unfold u32; lia).
  destruct (Z.eqb_spec level 0) as [->|Hz].
  - wp_run. vm_compute. intuition discriminate.
  - destruct (normU32_pos level ltac:(lia)) as [Hb Hn].
    remember (WebRtcSpl_NormU32 level) as z eqn:Ez. clear Ez.
    assert (1 <= z).
    { destruct (Z.eq_dec z 0) as [->|]; [cbn in Hn; lia|lia]. }
    wp_step. apply wp_shlu; [lia|]. wp_step.
    rewrite Z.shiftl_mul_pow2 by lia. eval_pow2.
    remember (level * 2 ^ z) as w eqn:Ew. clear Ew.
    rewrite to_u32_id by (unfold u32; lia). rewrite land_7fffffff.
    assert (w mod 2147483648 = w - 2147483648)
      by (Z.to_euclidean_division_equations; lia).
    rewrite to_i32_id by (unfold i32; lia).
    split_and!; lia.
Qed.

(** Interpolation stays between its end points. *)
Lemma interp_between a b p w :
  0 < p -> 0 <= w <= p -> Z.min a b <= b + (a - b) * w / p <= Z.max a b.
Proof.
  intros Hp Hw. destruct (Z.le_gt_cases b a).
  - pose proof (Z.div_pos ((a - b) * w) p ltac:(nia) Hp).
    pose proof (Z.div_le_upper_bound ((a - b) * w) p (a - b) Hp ltac:(nia)). lia.
  - pose proof (Z.div_le_upper_bound ((a - b) * w) p 0 Hp ltac:(nia)).
    pose proof (Z.div_le_lower_bound ((a - b) * w) p (a - b) Hp ltac:(nia)). lia.
Qed.

Definition follower_ok (f : follower) : Prop :=
  level_range (f_fast f) /\ level_range (f_slow f) /\
  0 <= f_zeros f <= 31 /\ 0 <= f_frac f <= 4095.

Lemma wp_subframe_gain table decay env f :
  table_range table -> decay_range decay -> level_range env -> follower_ok f ->
  wp (subframe_gain table decay env f)
     (fun '(f', g) => follower_ok f' /\ gain_range g).
Proof.
  intros [Ht Hlen] Hd He (Hf & Hs & _ & _). unfold subframe_gain.
  wp_step. eapply wp_mono; [by apply wp_follow|]. intros p ->.
  pose proof (fast_spec_range env _ He Hf) as Hf'.
  pose proof (slow_spec_range decay env _ Hd He Hs) as Hs'.
  wp_step. eapply wp_mono.
  { apply wp_level_position. by destruct (_ <? _). }
  intros [zeros r] (Hz & Hr & _). unfold gain_range in *.
  assert (Hfrac : 0 <= Z.shiftr r 19 <= 4095) by cint.
  remember (Z.shiftr r 19) as fr eqn:Efr. clear Efr.
  rewrite to_i16_id by (unfold i16; lia).
  wp_step. eapply wp_rd_Forall; [done|unfold zlen; lia|]. intros a Ha.
  wp_step. eapply wp_rd_Forall; [done|unfold zlen; lia|]. intros b Hb.
  cbv beta in Ha, Hb.
  pose proof (interp_between a b 4096 fr ltac:(lia) ltac:(lia)) as Hi.
  assert (-2147483648 <= (a - b) * fr <= 2147483647) by nia.
  wp_step. wp_step. wp_step. wp_step. wp_step.
  rewrite Z.shiftr_div_pow2 by lia. eval_pow2.
  apply wp_add32; [unfold i32; lia|].
  wp_step. split; [|lia]. split_and!; cbn; unfold level_range in *; lia.
Qed.

Lemma wp_gains_loop table decay env f :
  table_range table -> decay_range decay -> Forall level_range env ->
  follower_ok f ->
  wp (gains_loop table decay env f)
     (fun '(f', gs) => follower_ok f' /\ Forall gain_range gs /\
                       length gs = length env).
Proof.
  intros Ht Hd He. revert f. induction He as [|e env He Hes IH]; intros f Hf.
  { simpl. auto. }
  cbn [gains_loop]. wp_step.
  eapply wp_mono; [by apply wp_subframe_gain|]. intros [f1 g] [Hf1 Hg].
  wp_step. eapply wp_mono; [by apply IH|]. intros [f2 gs] (Hf2 & Hgs & Hlen).
  wp_step. cbn [length]. auto.
Qed.

(** ** Decay *)

Lemma wp_decay_from_vad logratio far :
  -2048 <= logratio <= 2048 -> vad_ok far ->
  wp (decay_from_vad logratio far) decay_range.
Proof.
  intros Hl (_ & _ & _ & Hr & _). unfold decay_from_vad, decay_range.
  wp_step. apply (wp_mono _ (fun l => -4096 <= l <= 4096)).
  { case_if; wp_run; cint. }
  intros l Hl'. case_if; [wp_step; lia|]. case_if; [wp_step; lia|].
  wp_run. rewrite to_i16_id; cint.
Qed.

Lemma wp_decay_adjust mode stdLong low decay :
  0 <= stdLong <= 32767 -> decay_range decay ->
  wp (decay_adjust mode stdLong low decay) decay_range.
Proof.
  unfold decay_range. intros Hs Hd. unfold decay_adjust.
  destruct (negb _); [|by wp_step].
  wp_step. apply (wp_mono _ (fun d => -65 <= d <= 0)).
  - case_if; [wp_step; lia|]. case_if; [|by wp_step].
    assert (-266240 <= (stdLong - 4000) * decay <= 0) by nia.
    wp_run. rewrite to_i16_id; cint.
  - intros d Hd'. wp_step. destruct (negb _); lia.
Qed.

(** ** Envelope *)

Lemma wp_max_nrg m x :
  level_range m -> i16 x ->
  wp (max_nrg_step m x) (fun m' => level_range m' /\ m <= m' /\ x * x <= m').
Proof.
  unfold level_range, i16, max_nrg_step. intros Hm Hx.
  assert (0 <= x * x <= 1073741824) by nia.
  wp_run. destruct (Z.ltb_spec m (x * x)); lia.
Qed.

Lemma wp_max_nrg_each m xs :
  level_range m -> samples16 xs ->
  wp (each max_nrg_step m xs)
     (fun m' => level_range m' /\ m <= m' /\ Forall (fun x => x * x <= m') xs).
Proof.
  intros Hm Hxs. revert m Hm. induction Hxs as [|x xs Hx Hxs IH]; intros m Hm.
  { simpl. split_and!; [apply Hm..|lia|constructor]. }
  cbn [each]. wp_step. eapply wp_mono; [by apply wp_max_nrg|].
  intros m1 (Hm1 & Hle & Hxx). eapply wp_mono; [by apply IH|].
  intros m2 (Hm2 & Hle2 & Hall).
  split_and!; [apply Hm2..|lia|constructor; [lia|done]].
Qed.

(** [bounds_subframes L env x]: each element of [env] bounds the squares of its
    subframe of [L] samples of [x]. *)
Fixpoint bounds_subframes (L : nat) (env x : list Z) : Prop :=
  match env with
  | [] => True
  | e :: env' =>
      level_range e /\ Forall (fun v => v * v <= e) (take L x) /\
      bounds_subframes L env' (drop L x)
  end.

Lemma bounds_subframes_level L env x :
  bounds_subframes L env x -> Forall level_range env.
Proof.
  revert x. induction env as [|e env IH]; intros x; [constructor|].
  intros (He & _ & Hr). constructor; eauto.
Qed.

Lemma wp_envelope k L x :
  samples16 x -> (k * L <= length x)%nat ->
  wp (envelope k L x)
     (fun env => bounds_subframes L env x /\ length env = k).
Proof.
  revert x. induction k as [|k IH]; intros x Hx Hlen; [simpl; auto|].
  cbn [envelope]. wp_step. apply wp_take_exact; [lia|].
  wp_step. eapply wp_mono.
  { apply wp_max_nrg_each; [unfold level_range; lia|by apply Forall_take]. }
  intros m (Hm & _ & Hall). wp_step. eapply wp_mono.
  { apply IH; [by apply Forall_drop|rewrite length_drop; lia]. }
  intros env [Henv Hl]. wp_step. cbn. rewrite Hl. auto.
Qed.

(** ** Gate *)

Lemma wp_gate_value f stdShort gatePrev :
  follower_ok f -> 0 <= stdShort <= 32767 -> 0 <= gatePrev <= 32767 ->
  wp (gate_value f stdShort gatePrev)
     (fun '(prev, gate) => 0 <= prev <= 32767 /\ i16 gate).
Proof.
  intros (Hf & _ & Hz & Hfr) Hs Hp. unfold gate_value.
  remember (f_zeros f) as z. remember (f_frac f) as fr.
  remember (f_fast f) as fast. clear Heqz Heqfr Heqfast.
  wp_step. apply wp_shl32; [lia|cint|]. wp_step. apply wp_sub32; [cint|].
  assert (Hzs : -511 <= Z.shiftl z 9 - Z.shiftr fr 3 <= 15872) by cint.
  remember (Z.shiftl z 9 - Z.shiftr fr 3) as zs eqn:Ezs. clear Ezs.
  rewrite (to_i16_id zs) by (unfold i16; lia).
  wp_step. eapply wp_mono; [by apply wp_level_position|].
  intros [zf r] (Hzf & Hr & _).
  assert (Hr' : 0 <= Z.shiftr r 22 <= 511) by cint.
  remember (Z.shiftr r 22) as r' eqn:Er. clear Er Hr r Hf fast.
  rewrite (to_i16_id r') by (unfold i16; lia).
  wp_step. apply wp_shl32; [lia|cint|].
  assert (Hzf' : 512 <= Z.shiftl zf 9 <= 15872) by cint.
  remember (Z.shiftl zf 9) as zf' eqn:Ezf. clear Ezf Hzf zf.
  rewrite (to_i16_id zf') by (unfold i16; lia).
  wp_step. wp_step. rewrite (to_i16_id (zf' - r')) by (unfold i16; lia).
  do 6 wp_step.
  pose proof (to_i16_range (1000 + (zf' - r') - zs - stdShort)) as Hg.
  remember (to_i16 _) as gate eqn:Eg. clear Eg. unfold i16 in Hg.
  case_if; [wp_step; unfold i16; lia|].
  wp_run. rewrite to_i16_id by cint. cint.
Qed.

Lemma wp_map_res {A B} (P : A -> Prop) (R : B -> Prop) f (l : list A) :
  Forall P l -> (forall x, P x -> wp (f x) R) ->
  wp (map_res f l) (fun l' => Forall R l' /\ length l' = length l).
Proof.
  intros Hl Hf. induction Hl as [|x l Hx Hl IH]; [simpl; auto|].
  cbn [map_res]. wp_step. eapply wp_mono; [by apply Hf|]. intros y Hy.
  wp_step. eapply wp_mono; [done|]. intros ys [Hys Hlen]. wp_step.
  cbn. auto.
Qed.

Lemma wp_gate_gain t0 adj g :
  gain_range t0 -> gain_range g -> 0 <= adj <= 78 ->
  wp (gate_gain t0 adj g)
     (fun g' => Z.min g t0 <= g' <= Z.max g t0).
Proof.
  unfold gain_range. intros Ht Hg Ha. unfold gate_gain.
  wp_step. wp_step. rewrite (proj2 (Z.ltb_ge _ _)) by lia.
  pose proof (interp_between g t0 256 (178 + adj) ltac:(lia) ltac:(lia)).
  assert (-134217728 <= (g - t0) * (178 + adj) <= 134217728) by nia.
  do 5 wp_step. rewrite Z.shiftr_div_pow2 by lia. eval_pow2. done.
Qed.

Lemma wp_gate_gains table gate gs :
  table_range table -> i16 gate -> Forall gain_range gs ->
  wp (gate_gains table gate gs)
     (fun gs' => Forall gain_range gs' /\ length gs' = length gs).
Proof.
  intros [Ht Hlen] Hg Hgs. unfold gate_gains. case_if; [|by wp_step].
  wp_step. apply (wp_mono _ (fun a => 0 <= a <= 78)).
  { case_if; wp_run; cint. }
  intros a Ha. rewrite to_i16_id by (unfold i16; lia).
  wp_step. eapply wp_rd_Forall; [done|unfold zlen; lia|]. intros t0 Ht0.
  eapply wp_map_res; [done|]. intros g Hgr.
  eapply wp_mono; [by apply wp_gate_gain|]. unfold gain_range in *. lia.
Qed.

(** ** Limiter *)

(** The gain [g] is safe for the envelope [e]: the largest sample of the
    subframe, scaled by [g / 65536], stays within 16 bits. *)
Definition no_overload (e g : Z) : Prop := e * (g * g) < 2 ^ 62.

Lemma no_overload_sample e g x :
  no_overload e g -> x * x <= e -> 0 <= g -> - 2 ^ 31 < x * g < 2 ^ 31.
Proof.
  unfold no_overload. eval_pow2. intros Hn Hx Hg.
  assert ((x * g) * (x * g) < 4611686018427387904) by nia.
  remember (x * g) as y. clear Heqy. nia.
Qed.

Lemma limit_loop_exit e g :
  level_range e -> gain_range g ->
  (Z.shiftr e 12 + 1) * ((g / 1024 + 1) * (g / 1024 + 1)) / 8192 <= 131068 ->
  no_overload e g.
Proof.
  unfold level_range, gain_range, no_overload. intros He Hg Hb.
  rewrite Z.shiftr_div_pow2 in Hb by lia. eval_pow2.
  assert (HA : e < 4096 * (e / 4096 + 1)) by (Z.to_euclidean_division_equations; lia).
  assert (HB : g < 1024 * (g / 1024 + 1)) by (Z.to_euclidean_division_equations; lia).
  remember (e / 4096 + 1) as A eqn:EA. remember (g / 1024 + 1) as B eqn:EB.
  clear EA EB.
  assert (HAB : A * (B * B) < 131069 * 8192)
    by (Z.to_euclidean_division_equations; lia). clear Hb.
  assert (Hgg : g * g <= 1048576 * (B * B)) by nia.
  assert (e * (g * g) <= 4096 * A * (1048576 * (B * B))) by nia.
  nia.
Qed.

Lemma wp_limit_square g :
  gain_range g ->
  wp (limit_square g 10) (fun r => r = (g / 1024 + 1) * (g / 1024 + 1) /\
                                   1 <= r <= 263169).
Proof.
  unfold gain_range, limit_square. intros Hg.
  wp_step. apply wp_shr32; [lia|]. rewrite Z.shiftr_div_pow2 by lia. eval_pow2.
  assert (0 <= g / 1024 <= 512) by (Z.to_euclidean_division_equations; lia).
  remember (g / 1024) as q. clear Heqq.
  wp_step. wp_step. apply wp_mul32; [unfold i32; nia|]. nia.
Qed.

Lemma wp_limit_reduce g :
  gain_range g ->
  wp (limit_reduce g) (fun g' => g' = g * 253 / 256).
Proof.
  unfold gain_range, limit_reduce. intros Hg.
  rewrite (proj2 (Z.ltb_ge _ _)) by lia.
  wp_step. wp_step. apply wp_div32; rewrite ?Z.quot_div_nonneg by lia; cint.
Qed.

(** [reduce n g]: the gain after [n] iterations, which is monotone in [g]; the
    largest gain of the range is zero well before the fuel runs out. *)
Fixpoint reduce (n : nat) (g : Z) : Z :=
  match n with O => g | S n' => reduce n' (g * 253 / 256) end.

Lemma reduce_mono n g g' : 0 <= g <= g' -> 0 <= reduce n g <= reduce n g'.
Proof.
  revert g g'. induction n as [|n IH]; intros g g' Hg; [done|]. cbn. apply IH.
  split; [apply Z.div_pos; lia|apply Z.div_le_mono; lia].
Qed.

Lemma reduce_range g : gain_range g -> reduce 1200 g = 0.
Proof.
  intros Hg. pose proof (reduce_mono 1200 g 524288 Hg) as H.
  replace (reduce 1200 524288) with 0 in H by (vm_compute; reflexivity). lia.
Qed.

(** Termination and result of the loop. *)
Lemma wp_limit_loop n fuel e g :
  level_range e -> gain_range g -> reduce n g = 0 -> (n < fuel)%nat ->
  wp (limit_loop fuel e 10 131068 g ((g / 1024 + 1) * (g / 1024 + 1)))
     (fun g' => 0 <= g' <= g /\ no_overload e g').
Proof.
  intros He. revert n g. induction fuel as [|fuel IH]; intros n g Hg Hn Hf; [lia|].
  cbn [limit_loop].
  assert (HA : 0 < Z.shiftr e 12 + 1 <= 262145) by (unfold level_range in He; cint).
  assert (HB : 0 <= g / 1024 <= 512)
    by (unfold gain_range in Hg; Z.to_euclidean_division_equations; lia).
  wp_step. eapply wp_mono; [apply wp_AGC_MUL32; nia|]. intros m ->.
  case_if; [|wp_step; split; [unfold gain_range in Hg; lia|];
             by apply limit_loop_exit].
  wp_step. eapply wp_mono; [by apply wp_limit_reduce|]. intros g' ->.
  assert (0 < g).
  { destruct (Z.eq_dec g 0) as [->|]; [|unfold gain_range in Hg; lia].
    change (0 / 1024 + 1) with 1 in *. clear Hn Hf IH.
    Z.to_euclidean_division_equations; lia. }
  destruct n as [|n]; [cbn in Hn; lia|]. cbn [reduce] in Hn.
  assert (Hlt : 0 <= g * 253 / 256 < g)
    by (clear Hn; Z.to_euclidean_division_equations; lia).
  remember (g * 253 / 256) as g' eqn:Eg'. clear Eg'.
  assert (Hg' : gain_range g') by (unfold gain_range in *; lia).
  wp_step. eapply wp_mono; [by apply wp_limit_square|]. intros s [-> _].
  eapply wp_mono; [apply (IH n); [done..|lia]|]. intros r [Hr Hno].
  split; [lia|done].
Qed.

Lemma wp_limit_gain e g :
  level_range e -> gain_range g ->
  wp (limit_gain e g) (fun g' => 0 <= g' <= g /\ no_overload e g').
Proof.
  intros He Hg. unfold limit_gain.
  rewrite (proj2 (Z.ltb_ge 47453132 g)) by (unfold gain_range in Hg; lia).
  wp_step. eapply wp_mono; [by apply wp_limit_square|]. intros s [-> _].
  wp_step. eapply wp_eq; [reflexivity|].
  apply (wp_limit_loop 1200); [done|done|by apply reduce_range|].
  unfold limit_fuel. lia.
Qed.

(** [safe env gs]: element-wise, the gains do not overload their subframes. *)
Definition safe (env gs : list Z) : Prop :=
  Forall2 (fun e g => gain_range g /\ no_overload e g) env gs.

Lemma wp_limit_gains env gs :
  Forall level_range env -> Forall gain_range gs -> length env = length gs ->
  wp (limit_gains env gs) (fun gs' => safe env gs').
Proof.
  intros He Hg. revert env He. induction Hg as [|g gs Hg Hgs IH];
    intros env He Hlen; destruct He as [|e env He Hes]; try done.
  { simpl. constructor. }
  cbn [limit_gains]. wp_step. eapply wp_mono; [by apply wp_limit_gain|].
  intros g' [Hr Hn]. wp_step. eapply wp_mono; [apply IH; auto with lia|].
  intros gs' Hs. wp_step. constructor; [|done]. unfold gain_range in *.
  split; [lia|done].
Qed.

Lemma no_overload_le e g g' :
  0 <= e -> 0 <= g' <= g -> no_overload e g -> no_overload e g'.
Proof.
  unfold no_overload. intros He Hg Hn.
  assert (g' * g' <= g * g) by nia. nia.
Qed.

(** After the early reduction every gain is still safe for its own subframe, and
    is safe for the next one too: both ends of the ramp over a subframe are
    safe. *)
Fixpoint ramp_safe (env gs : list Z) : Prop :=
  match env, gs with
  | [], [] => True
  | e :: env', g :: gs' =>
      gain_range g /\ no_overload e g /\
      match env' with e' :: _ => no_overload e' g | [] => True end /\
      ramp_safe env' gs'
  | _, _ => False
  end.

Lemma early_reduction_safe env gs :
  Forall level_range env -> safe env gs -> ramp_safe env (early_reduction gs).
Proof.
  intros He Hs. induction Hs as [|e g env gs [Hg Hn] Hs IH]; [done|].
  inversion He as [|? ? He1 He2]; subst. specialize (IH He2).
  destruct Hs as [|e' g' env gs [Hg' Hn'] Hs]; [by cbn|].
  inversion He2 as [|? ? He1' He2']; subst.
  assert (0 <= e /\ 0 <= e') by (unfold level_range in *; lia).
  change (early_reduction (g :: g' :: gs))
    with ((if g' <? g then g' else g) :: early_reduction (g' :: gs)).
  cbn [ramp_safe]. unfold gain_range in *.
  destruct (Z.ltb_spec g' g); split_and!; try lia; try done;
    [apply (no_overload_le e g)|apply (no_overload_le e' g')]; done || lia.
Qed.

(** ** Application of the gain *)

Definition gain32_range (g : Z) : Prop := 0 <= g <= 8388608.

Lemma wp_apply_first g x :
  gain32_range g -> i16 x -> wp (apply_first g x) i16.
Proof.
  unfold gain32_range. intros Hg Hx. unfold apply_first.
  wp_step. wp_step.
  assert (Hh : 0 <= Z.shiftr (g + 127) 7 <= 65536 /\
               Z.shiftr g 4 <= 8 * Z.shiftr (g + 127) 7 /\
               0 <= Z.shiftr g 4) by cint.
  remember (Z.shiftr (g + 127) 7) as h. remember (Z.shiftr g 4) as q.
  clear Heqh Heqq. unfold i16 in Hx.
  wp_step. apply wp_mul32; [unfold i32; nia|].
  rewrite Z.shiftr_div_pow2 by lia. eval_pow2.
  case_if; [wp_step; unfold i16; lia|]. case_if; [wp_step; unfold i16; lia|].
  assert (-268435456 <= x * h <= 268435455)
    by (Z.to_euclidean_division_equations; lia).
  wp_step. apply wp_mul32; [unfold i32; nia|]. wp_step. auto with agc.
Qed.

(** The 64-bit product and clamp compute the saturated scaled sample. *)
Definition clamp16 (x : Z) : Z := Z.max (-32768) (Z.min 32767 x).

Lemma wp_apply_rest g x :
  gain32_range g -> i16 x ->
  wp (apply_rest g x) (fun y => y = clamp16 (x * (g / 16) / 65536) /\ i16 y).
Proof.
  unfold gain32_range, i16. intros Hg Hx. unfold apply_rest, clamp16.
  rewrite Z.shiftr_div_pow2 by lia. eval_pow2.
  assert (0 <= g / 16 <= 524288) by (Z.to_euclidean_division_equations; lia).
  remember (g / 16) as q. clear Heqq.
  wp_step. apply wp_mul64; [unfold i64; nia|].
  rewrite Z.shiftr_div_pow2 by lia. eval_pow2.
  case_if; [wp_step; lia|]. case_if; [wp_step; lia|].
  wp_step. rewrite to_i16_id by (unfold i16; lia). lia.
Qed.

(** A ramp stays between its ends. *)
Lemma ramp_between g0 g1 s j :
  0 <= j * s <= 16 ->
  16 * Z.min g0 g1 <= 16 * g0 + j * ((g1 - g0) * s) <= 16 * Z.max g0 g1.
Proof.
  intros Hj. replace (j * ((g1 - g0) * s)) with ((g1 - g0) * (j * s)) by lia.
  remember (j * s) as t. clear Heqt. destruct (Z.le_gt_cases g0 g1); nia.
Qed.

Lemma apply_subframes_cons f L L2 g0 g1 gs x :
  apply_subframes f L L2 (g0 :: g1 :: gs) x =
  (ys ← apply_subframe f L L2 g0 g1 x;
   tail ← apply_subframes f L L2 (g1 :: gs) (drop L x);
   Ok (ys ++ tail)).
Proof. done. Qed.

(** The samples after a processed prefix. *)
Lemma drop_past {A} (ys tail x : list A) (L k : nat) :
  length ys = L -> drop ((S k - 1) * L) tail = drop ((S k - 1) * L) (drop L x) ->
  drop ((S (S k) - 1) * L) (ys ++ tail) = drop ((S (S k) - 1) * L) x.
Proof.
  intros <- E. rewrite drop_drop in E.
  replace ((S (S k) - 1) * length ys)%nat
    with (length ys + (S k - 1) * length ys)%nat by lia.
  by rewrite drop_app_add.
Qed.

Section apply.
Context (f : Z -> Z -> res Z) (R : Z -> Prop).

(** The gains of a ramp of [n] steps from [16 * g0] towards [16 * g1] stay
    between its ends. *)
Lemma wp_apply_samples (P : Z -> Prop) g0 g1 s (xs : list Z) k :
  gain_range g0 -> gain_range g1 -> 0 <= k ->
  s * (k + zlen xs) <= 16 -> 0 < s ->
  Forall P xs ->
  (forall g x, 16 * Z.min g0 g1 <= g <= 16 * Z.max g0 g1 -> P x ->
               wp (f g x) R) ->
  wp (apply_samples f ((g1 - g0) * s) (16 * g0 + k * ((g1 - g0) * s)) xs)
     (fun ys => Forall R ys /\ length ys = length xs).
Proof using Type.
  unfold gain_range. intros H0 H1 Hk Hs Hs0 Hxs Hf. revert k Hk Hs.
  induction Hxs as [|x xs Hx Hxs IH]; intros k Hk Hs; [by simpl|].
  assert (Hz : zlen (x :: xs) = zlen xs + 1) by (unfold zlen; cbn [length]; lia).
  pose proof (zlen_nonneg xs). rewrite Hz in Hs.
  assert (Hsk : 0 <= k * s /\ (k + 1) * s <= 16) by nia.
  pose proof (ramp_between g0 g1 s k ltac:(nia)).
  pose proof (ramp_between g0 g1 s (k + 1) ltac:(nia)).
  cbn [apply_samples].
  wp_step. eapply wp_mono; [by apply Hf|]. intros y Hy.
  wp_step. apply wp_add32; [unfold i32; lia|].
  replace (16 * g0 + k * ((g1 - g0) * s) + (g1 - g0) * s)
    with (16 * g0 + (k + 1) * ((g1 - g0) * s)) by lia.
  wp_step. eapply wp_mono; [apply IH; nia|].
  intros ys [Hys Hl]. wp_step. cbn. auto.
Qed.

(** Subframe sizes of the two sampling rates. *)
Definition size_ok (L : nat) (L2 : Z) : Prop :=
  L = 8%nat /\ L2 = 3 \/ L = 16%nat /\ L2 = 4.

Lemma wp_apply_subframe (P : Z -> Prop) L L2 g0 g1 (x : list Z) :
  size_ok L L2 -> gain_range g0 -> gain_range g1 ->
  (L <= length x)%nat -> Forall P (take L x) ->
  (forall g v, 16 * Z.min g0 g1 <= g <= 16 * Z.max g0 g1 -> P v ->
               wp (f g v) R) ->
  wp (apply_subframe f L L2 g0 g1 x) (fun ys => Forall R ys /\ length ys = L).
Proof using Type.
  intros HL H0 H1 Hlen HP Hf. unfold apply_subframe.
  assert (exists s, Z.shiftl 1 (4 - L2) = s /\ 1 <= s <= 2 /\
                    s * Z.of_nat L = 16 /\ 0 <= 4 - L2 <= 1) as (s & Es & Hs & HsL & HL2).
  { destruct HL as [[-> ->]|[-> ->]]; [exists 2|exists 1]; by vm_compute. }
  unfold gain_range in H0, H1.
  wp_step. wp_step. wp_step. apply wp_shl32; [lia|rewrite Es; unfold i32; lia|].
  rewrite Es. wp_step. apply wp_mul32; [unfold i32; nia|].
  wp_step. wp_step. wp_step. apply wp_take_exact; [done|].
  replace (g0 * 16) with (16 * g0 + 0 * ((g1 - g0) * s)) by lia.
  assert (Hlt : length (take L x) = L) by (rewrite length_take; lia).
  eapply wp_mono.
  { eapply (wp_apply_samples P); try done; [|lia].
    unfold zlen. rewrite Hlt. lia. }
  intros ys [Hys Hl]. by rewrite Hl, Hlt.
Qed.

Lemma wp_apply_subframes (P : Z -> Prop) L L2 gs (x : list Z) :
  size_ok L L2 -> Forall gain_range gs ->
  ((length gs - 1) * L <= length x)%nat -> Forall P x -> Forall R (drop ((length gs - 1) * L) x) ->
  (forall g v, gain32_range g -> P v -> wp (f g v) R) ->
  wp (apply_subframes f L L2 gs x)
     (fun ys => Forall R ys /\ length ys = length x /\
        drop ((length gs - 1) * L) ys = drop ((length gs - 1) * L) x).
Proof using Type.
  intros HL Hgs. revert x. induction Hgs as [|g0 gs H0 Hgs IH];
    intros x Hlen HP HR Hf; [by simpl|].
  destruct Hgs as [|g1 gs H1 Hgs]; [by simpl|].
  rewrite apply_subframes_cons. cbn [length] in *.
  wp_step. eapply wp_mono.
  { eapply (wp_apply_subframe P); try done; [lia|by apply Forall_take|].
    intros g v Hg. apply Hf. unfold gain_range, gain32_range in *. lia. }
  intros ys [Hys Hl]. wp_step. eapply wp_mono.
  { apply IH; [rewrite length_drop; lia|by apply Forall_drop| |done].
    rewrite drop_drop.
    replace (L + (S (length gs) - 1) * L)%nat
      with ((S (S (length gs)) - 1) * L)%nat by lia. exact HR. }
  intros tail (Ht & Hlt & Hd). wp_step. rewrite length_app, Hl, Hlt, length_drop.
  split; [by apply Forall_app|]. split; [lia|].
  by apply drop_past.
Qed.
End apply.

(** ** The frame *)

Definition band_ok (n : nat) (b : list Z) : Prop :=
  samples16 b /\ (n <= length b)%nat.

Lemma wp_apply_band L L2 g0 gs x :
  size_ok L L2 -> gain_range g0 -> Forall gain_range gs -> length gs = 10%nat ->
  band_ok (10 * L) x ->
  wp (apply_band L L2 (g0 :: gs) x)
     (fun ys => samples16 ys /\ length ys = length x /\
        drop (10 * L) ys = drop (10 * L) x).
Proof.
  intros HL H0 Hgs Hlen [Hx Hlx]. destruct Hgs as [|g1 gs H1 Hgs]; [done|].
  unfold apply_band. wp_step. eapply wp_mono.
  { apply (wp_apply_subframe apply_first i16 i16); try done;
      [lia|by apply Forall_take|].
    intros g v Hg Hv. apply wp_apply_first; [|done].
    unfold gain_range, gain32_range in *. lia. }
  intros ys [Hys Hly]. wp_step. eapply wp_mono.
  { apply (wp_apply_subframes apply_rest i16 i16); try done.
    - by constructor.
    - rewrite length_drop, Hlen. lia.
    - by apply Forall_drop.
    - by do 2 apply Forall_drop.
    - intros g v Hg Hv. eapply wp_mono; [by apply wp_apply_rest|]. by intros y [_ ?]. }
  intros t (Ht & Hlt & Hd). wp_step. rewrite length_app, Hly, Hlt, length_drop.
  split; [by apply Forall_app|]. split; [lia|].
  cbn [length] in Hd, Hlen. pose proof (drop_past ys t x L _ Hly Hd) as E.
  by rewrite Hlen in E.
Qed.

Lemma ramp_safe_range env gs :
  ramp_safe env gs -> Forall gain_range gs /\ length gs = length env.
Proof.
  revert gs. induction env as [|e env IH]; intros [|g gs]; try done.
  intros (Hg & _ & _ & Hr). destruct (IH _ Hr). cbn. auto.
Qed.

(** The state invariant of the digital AGC. *)
Definition digital_ok (s : DigitalAgc) : Prop :=
  level_range (capacitorSlow s) /\ level_range (capacitorFast s) /\
  gain_range (gain s) /\ table_range (gainTable s) /\
  0 <= gatePrevious s <= 32767 /\
  vad_ok (vadNearend s) /\ vad_ok (vadFarend s).

Lemma size_ok_frame x L L2 :
  size_ok L L2 -> band_ok (10 * L) x -> frame_ok x (Z.of_nat L * 10).
Proof.
  intros HL [Hx Hl]. split; [done|].
  destruct HL as [[-> ->]|[-> ->]]; [right|left]; split; lia.
Qed.

(** The result of [map_res] has the lengths of its input, element by element. *)
Lemma wp_map_res_keep {B} (P R : list Z -> Prop) (g : list Z -> B) f l :
  Forall P l ->
  (forall x, P x -> wp (f x) (fun y => R y /\ length y = length x /\ g y = g x)) ->
  wp (map_res f l) (fun l' => Forall R l' /\ map length l' = map length l /\
                              map g l' = map g l).
Proof.
  intros Hl Hf. induction Hl as [|x l Hx Hl IH]; [simpl; auto|].
  cbn [map_res]. wp_step. eapply wp_mono; [by apply Hf|]. intros y (Hy & Hly & Hg).
  wp_step. eapply wp_mono; [done|]. intros ys (Hys & Hlen & Hgs). wp_step.
  cbn. rewrite Hly, Hlen, Hg, Hgs. auto.
Qed.

Lemma wp_map_res_length (P R : list Z -> Prop) f l :
  Forall P l ->
  (forall x, P x -> wp (f x) (fun y => R y /\ length y = length x)) ->
  wp (map_res f l) (fun l' => Forall R l' /\ map length l' = map length l).
Proof.
  intros Hl Hf. eapply wp_mono.
  { apply (wp_map_res_keep P R (fun _ => tt)); [done|]. intros x Hx.
    eapply wp_mono; [by apply Hf|]. by intros y [? ?]. }
  by intros l' (? & ? & _).
Qed.

Lemma wp_process_frame s out L L2 low x :
  digital_ok s -> size_ok L L2 -> Forall (band_ok (10 * L)) out ->
  head out = Some x ->
  is_ok (WebRtcAgc_ProcessVad (vadNearend s) x (Z.of_nat L * 10)) = true ->
  wp (process_frame s out L L2 low)
     (fun '(s', out') => digital_ok s' /\ gainTable s' = gainTable s /\
        vadFarend s' = vadFarend s /\ d_agcMode s' = d_agcMode s /\
        Forall samples16 out' /\ map length out' = map length out /\
        map (drop (10 * L)) out' = map (drop (10 * L)) out).
Proof.
  intros (Hslow & Hfast & Hgain & Htab & Hgate & Hnear & Hfar) HL Hout Hhd Hvad.
  destruct out as [|x' out]; [done|]. injection Hhd as ->.
  inversion Hout as [|? ? Hx Hrest]; subst. unfold process_frame.
  wp_step. eapply wp_eq; [reflexivity|].
  wp_step. eapply wp_mono; [apply wp_ProcessVad; [done| |done];
                            by eapply size_ok_frame|].
  intros [vad r] [Hv ->]. pose proof Hv as (_ & _ & _ & Hr & _ & _ & HsL & HsS).
  wp_step. eapply wp_mono; [by apply wp_decay_from_vad|]. intros d1 Hd1.
  wp_step. eapply wp_mono; [by apply wp_decay_adjust|]. intros d Hd.
  wp_step. eapply wp_mono; [apply wp_envelope; apply Hx|].
  intros env [Henv Hle]. pose proof (bounds_subframes_level _ _ _ Henv) as Hlev.
  wp_step. eapply wp_mono.
  { apply wp_gains_loop; [done..|]. split_and!; cbn; done || lia. }
  intros [f gs] (Hf & Hgs & Hlg).
  wp_step. eapply wp_mono; [by apply wp_gate_value|].
  intros [prev gate] [Hprev Hg].
  wp_step. eapply wp_mono; [by apply wp_gate_gains|]. intros gs2 [Hgs2 Hl2].
  wp_step. eapply wp_mono; [apply wp_limit_gains; [done..|congruence]|].
  intros gs3 Hsafe.
  destruct (ramp_safe_range _ _ (early_reduction_safe _ _ Hlev Hsafe)) as [Hg4 Hl4].
  remember (early_reduction gs3) as gs4 eqn:E4. clear E4 Hsafe.
  rewrite Hle in Hl4.
  wp_step. eapply wp_rd_Forall; [done|unfold zlen; lia|]. intros g10 Hg10.
  wp_step. eapply wp_mono.
  { eapply wp_map_res_keep; [apply Hout|]. intros b Hb.
    by apply wp_apply_band. }
  intros out' (Ho1 & Ho2 & Ho3). wp_step. destruct Hf as (? & ? & _).
  split_and!; cbn; try done; lia.
Qed.

(** ** Copying the bands *)

Lemma wp_memcpy n src dst :
  band_ok n src -> band_ok n dst ->
  wp (memcpy n src dst)
     (fun b => b = take n src ++ drop n dst /\ band_ok n b /\
               length b = length dst).
Proof.
  intros [Hs Hls] [Hd Hld]. unfold memcpy.
  wp_step. apply wp_take_exact; [done|]. wp_step. apply wp_take_exact; [done|].
  wp_step. unfold band_ok. rewrite length_app, length_take, length_drop.
  split_and!; [done| |lia..].
  apply Forall_app. split; [by apply Forall_take|by apply Forall_drop].
Qed.

Lemma wp_copy_bands n in_near out :
  Forall (band_ok n) in_near -> Forall (band_ok n) out ->
  length in_near = length out ->
  wp (copy_bands n in_near out)
     (fun bs => bs = zip_with (fun x y => take n x ++ drop n y) in_near out /\
                Forall (band_ok n) bs /\ map length bs = map length out /\
                map (drop n) bs = map (drop n) out).
Proof.
  intros Hi. revert out. induction Hi as [|x xs Hx Hxs IH];
    intros [|y ys] Ho Hl; try done.
  inversion Ho; subst. cbn [copy_bands].
  wp_step. eapply wp_mono; [by apply wp_memcpy|]. intros b (-> & Hb & Hlb).
  wp_step. eapply wp_mono; [apply IH; auto with lia|].
  intros bs (-> & Hbs & Hlbs & Hdbs). wp_step. cbn [map zip_with].
  rewrite Hlb, Hlbs, Hdbs, drop_app_length'; [auto|].
  rewrite length_take. destruct Hx. lia.
Qed.

(** Buffers of a call: at least one band, each of at least [n] 16-bit samples,
    and as many output as input bands. *)
Definition bands_ok (n : nat) (in_near out : list (list Z)) : Prop :=
  Forall (band_ok n) in_near /\ Forall (band_ok n) out /\
  (0 < length in_near <= length out)%nat.

(** The samples the VAD sees: the first band, in place in the output. *)
Definition first_band (n : nat) (in_near out : list (list Z)) : list Z :=
  take n (default [] (head in_near)) ++ drop n (default [] (head out)).

Lemma frame_size_ok FS L L2 : frame_size FS = Some (L, L2) -> size_ok L L2.
Proof.
  unfold frame_size, size_ok. repeat case_if; intros [= <- <-]; auto.
Qed.

Lemma wp_ProcessDigital s in_near out FS L L2 low :
  frame_size FS = Some (L, L2) -> digital_ok s ->
  bands_ok (10 * L) in_near out ->
  is_ok (WebRtcAgc_ProcessVad (vadNearend s) (first_band (10 * L) in_near out)
           (Z.of_nat L * 10)) = true ->
  wp (WebRtcAgc_ProcessDigital s in_near out FS low)
     (fun '(ret, s', out') => ret = 0 /\ digital_ok s' /\
        gainTable s' = gainTable s /\ vadFarend s' = vadFarend s /\
        d_agcMode s' = d_agcMode s /\
        Forall samples16 out' /\ map length out' = map length out /\
        map (drop (10 * L)) out' = map (drop (10 * L)) out).
Proof.
  intros HFS Hs (Hin & Hout & Hlen) Hvad. unfold WebRtcAgc_ProcessDigital.
  rewrite HFS. pose proof (frame_size_ok _ _ _ HFS) as HL.
  wp_step. eapply wp_mono.
  { apply wp_copy_bands; [done|by apply Forall_take|rewrite length_take; lia]. }
  intros bs (Ebs & Hbs & Hlbs & Hdbs). wp_step. eapply wp_mono.
  { eapply wp_process_frame; try done. subst bs.
    unfold first_band. destruct in_near, out; try (cbn in Hlen; lia). done. }
  intros [s' bs'] (? & ? & ? & ? & ? & Hl & Hd). wp_step. split_and!; try done.
  - apply Forall_app. split; [done|]. apply Forall_drop.
    eapply Forall_impl; [|exact Hout]. by intros ? [? _].
  - by rewrite map_app, Hl, Hlbs, <- map_app, take_drop.
  - by rewrite map_app, Hd, Hdbs, <- map_app, take_drop.
Qed.

(** ** The limiter makes the clamp of the later subframes unnecessary *)

(** The scaled sample, without the clamp. *)
Definition apply_exact (gain32 x : Z) : res Z :=
  Ok (x * (gain32 / 16) / 65536).

Lemma apply_rest_exact e g0 g1 g x :
  gain_range g0 -> gain_range g1 -> no_overload e g0 -> no_overload e g1 ->
  16 * Z.min g0 g1 <= g <= 16 * Z.max g0 g1 -> i16 x -> x * x <= e ->
  apply_rest g x = apply_exact g x.
Proof.
  intros H0 H1 Hn0 Hn1 Hg Hx He.
  assert (Hr : gain32_range g) by (unfold gain_range, gain32_range in *; lia).
  apply wp_pure. eapply wp_mono; [by apply wp_apply_rest|]. intros y [-> _].
  unfold clamp16, gain_range in *.
  assert (Hq : 0 <= g / 16 <= Z.max g0 g1)
    by (clear - Hg H0 H1; Z.to_euclidean_division_equations; lia).
  assert (Hn : no_overload e (g / 16)).
  { apply (no_overload_le e (Z.max g0 g1)); [nia|done|].
    destruct (Z.max_spec g0 g1) as [[_ ->]|[_ ->]]; done. }
  pose proof (no_overload_sample e (g / 16) x Hn He ltac:(lia)) as Hb.
  eval_pow2. clear - Hb. Z.to_euclidean_division_equations. lia.
Qed.

Lemma apply_samples_ext (f f' : Z -> Z -> res Z) (P : Z -> Prop) g0 g1 s xs k :
  0 <= k -> s * (k + zlen xs) <= 16 -> 0 < s -> Forall P xs ->
  (forall g x, 16 * Z.min g0 g1 <= g <= 16 * Z.max g0 g1 -> P x ->
               f g x = f' g x) ->
  apply_samples f ((g1 - g0) * s) (16 * g0 + k * ((g1 - g0) * s)) xs =
  apply_samples f' ((g1 - g0) * s) (16 * g0 + k * ((g1 - g0) * s)) xs.
Proof.
  intros Hk Hs Hs0 Hxs Hf. revert k Hk Hs.
  induction Hxs as [|x xs Hx Hxs IH]; intros k Hk Hs; [done|].
  assert (Hz : zlen (x :: xs) = zlen xs + 1) by (unfold zlen; cbn [length]; lia).
  pose proof (zlen_nonneg xs). rewrite Hz in Hs. cbn [apply_samples].
  rewrite (Hf _ x (ramp_between g0 g1 s k ltac:(nia)) Hx).
  destruct (f' _ x) as [y|]; [|done]. cbn [mbind res_bind].
  destruct (add32 _ _) as [g|] eqn:Eg; [|done]. cbn [mbind res_bind].
  assert (g = 16 * g0 + (k + 1) * ((g1 - g0) * s)) as ->.
  { unfold add32, chk32 in Eg. destruct (_ && _); [|done].
    injection Eg as <-. lia. }
  rewrite IH by nia. done.
Qed.

Lemma apply_subframe_ext f f' (P : Z -> Prop) L L2 g0 g1 x :
  size_ok L L2 -> Forall P (take L x) ->
  (forall g v, 16 * Z.min g0 g1 <= g <= 16 * Z.max g0 g1 -> P v ->
               f g v = f' g v) ->
  apply_subframe f L L2 g0 g1 x = apply_subframe f' L L2 g0 g1 x.
Proof.
  intros HL HP Hf. unfold apply_subframe.
  assert (exists s, shl32 1 (4 - L2) = Ok s /\ 1 <= s /\ s * Z.of_nat L = 16)
    as (s & -> & Hs & HsL).
  { destruct HL as [[-> ->]|[-> ->]]; [exists 2|exists 1]; by vm_compute. }
  unfold sub32, mul32, chk32. cbn [mbind res_bind].
  do 3 (destruct (_ && _); cbn [mbind res_bind]; [|done]).
  unfold take_exact. destruct (Nat.leb_spec L (length x)); [|done].
  cbn [mbind res_bind].
  replace (g0 * 16) with (16 * g0 + 0 * ((g1 - g0) * s)) by lia.
  eapply apply_samples_ext; [done| |lia|exact HP|exact Hf].
  unfold zlen. rewrite length_take, Nat.min_l by done. lia.
Qed.

Lemma apply_subframes_exact L L2 env gs x :
  size_ok L L2 -> ramp_safe env gs -> samples16 x ->
  bounds_subframes L (tail env) x ->
  apply_subframes apply_rest L L2 gs x = apply_subframes apply_exact L L2 gs x.
Proof.
  intros HL. revert gs x. induction env as [|e env IH]; intros gs x;
    destruct gs as [|g0 gs]; try done.
  intros (H0 & _ & Hn0 & Hr) Hx Hb. destruct gs as [|g1 gs]; [done|].
  destruct env as [|e1 env]; [done|]. cbn [tail] in Hb.
  destruct Hb as (_ & Hall & Hb). pose proof Hr as (H1 & Hn1 & _).
  rewrite !apply_subframes_cons.
  rewrite (apply_subframe_ext apply_rest apply_exact
             (fun v => i16 v /\ v * v <= e1) L L2 g0 g1 x); [|done| |].
  - destruct (apply_subframe _ _ _ _ _ _); [|done]. cbn [mbind res_bind].
    rewrite IH; [done..|by apply Forall_drop|done].
  - apply Forall_and; [by apply Forall_take|done].
  - intros g v Hg [Hv Hvv]. by apply (apply_rest_exact e1 g0 g1).
Qed.

Lemma rd_head {A} (x : A) l : rd (x :: l) 0 = Ok x.
Proof. done. Qed.

Lemma ProcessDigital_vad_fault s in_near out FS L L2 low f :
  frame_size FS = Some (L, L2) -> bands_ok (10 * L) in_near out ->
  WebRtcAgc_ProcessVad (vadNearend s) (first_band (10 * L) in_near out)
    (Z.of_nat L * 10) = Fault f ->
  WebRtcAgc_ProcessDigital s in_near out FS low = Fault f.
Proof.
  intros HFS (Hin & Hout & Hlen) Hvad. unfold WebRtcAgc_ProcessDigital.
  rewrite HFS. cbv zeta.
  destruct (proj1 (wp_ok _ _) (wp_copy_bands (10 * L) in_near
    (take (length in_near) out) Hin ltac:(by apply Forall_take)
    ltac:(rewrite length_take; lia))) as (bs & -> & -> & _ & _).
  destruct in_near as [|x in_near], out as [|y out]; try (cbn in Hlen; lia).
  change (first_band (10 * L) (x :: in_near) (y :: out))
    with (take (10 * L) x ++ drop (10 * L) y) in Hvad.
  cbn [length take zip_with mbind res_bind]. unfold process_frame.
  rewrite rd_head. cbn [mbind res_bind]. by rewrite Hvad.
Qed.

(** The near-end VAD of the new state is the one after this frame. *)
Lemma ProcessDigital_vad s in_near out FS L L2 low ret s' out' :
  frame_size FS = Some (L, L2) -> bands_ok (10 * L) in_near out ->
  WebRtcAgc_ProcessDigital s in_near out FS low = Ok (ret, s', out') ->
  exists r, WebRtcAgc_ProcessVad (vadNearend s) (first_band (10 * L) in_near out)
              (Z.of_nat L * 10) = Ok (vadNearend s', r).
Proof.
  intros HFS Hb E.
  destruct (WebRtcAgc_ProcessVad (vadNearend s) (first_band (10 * L) in_near out)
              (Z.of_nat L * 10)) as [[v r]|f] eqn:Hvad.
  2: { by rewrite (ProcessDigital_vad_fault _ _ _ _ _ _ low _ HFS Hb Hvad) in E. }
  exists r. do 2 f_equal. destruct Hb as (Hin & Hout & Hlen).
  unfold WebRtcAgc_ProcessDigital in E. rewrite HFS in E. cbv zeta in E.
  destruct (proj1 (wp_ok _ _) (wp_copy_bands (10 * L) in_near
    (take (length in_near) out) Hin ltac:(by apply Forall_take)
    ltac:(rewrite length_take; lia))) as (bs & Ec & -> & _ & _).
  rewrite Ec in E. clear Ec.
  destruct in_near as [|x in_near], out as [|y out]; try (cbn in Hlen; lia).
  change (first_band (10 * L) (x :: in_near) (y :: out))
    with (take (10 * L) x ++ drop (10 * L) y) in Hvad.
  cbn [length take zip_with mbind res_bind] in E.
  apply bind_inv in E as ([s1 bs] & Ef & [= <- <- <-]).
  unfold process_frame in Ef. rewrite rd_head in Ef. cbn [mbind res_bind] in Ef.
  rewrite Hvad in Ef. cbn [mbind res_bind] in Ef.
  apply bind_inv in Ef as (? & _ & Ef). apply bind_inv in Ef as (? & _ & Ef).
  apply bind_inv in Ef as (? & _ & Ef). apply bind_inv in Ef as ([? ?] & _ & Ef).
  apply bind_inv in Ef as ([? ?] & _ & Ef). apply bind_inv in Ef as (? & _ & Ef).
  apply bind_inv in Ef as (? & _ & Ef). apply bind_inv in Ef as (? & _ & Ef).
  by apply bind_inv in Ef as (? & _ & [= <- _]).
Qed.

(** ** Theorems *)

(** C12: for every supported sampling rate, every state satisfying the invariant
    and every set of bands of 16-bit samples, [WebRtcAgc_ProcessDigital] returns
    0 without undefined behaviour (every table access in range, every limiter
    loop terminating), re-establishes the invariant, leaves the gain table, the
    mode and the far-end VAD alone and produces 16-bit samples in buffers of the
    same shape, without touching a sample after the frame; the only exception is a frame on which the near-end VAD itself
    faults, and then the fault is the VAD's. *)
Theorem ProcessDigital_outcome s in_near out FS L L2 low :
  frame_size FS = Some (L, L2) -> digital_ok s ->
  bands_ok (10 * L) in_near out ->
  (exists s' out',
     WebRtcAgc_ProcessDigital s in_near out FS low = Ok (0, s', out') /\
     digital_ok s' /\ gainTable s' = gainTable s /\
     vadFarend s' = vadFarend s /\ d_agcMode s' = d_agcMode s /\
     Forall samples16 out' /\ map length out' = map length out /\
     map (drop (10 * L)) out' = map (drop (10 * L)) out) \/
  (exists f,
     WebRtcAgc_ProcessDigital s in_near out FS low = Fault f /\
     WebRtcAgc_ProcessVad (vadNearend s) (first_band (10 * L) in_near out)
       (Z.of_nat L * 10) = Fault f).
Proof.
  intros HFS Hs Hb.
  destruct (WebRtcAgc_ProcessVad (vadNearend s) (first_band (10 * L) in_near out)
              (Z.of_nat L * 10)) as [r|f] eqn:E.
  - left. assert (Hok : is_ok (WebRtcAgc_ProcessVad (vadNearend s)
      (first_band (10 * L) in_near out) (Z.of_nat L * 10)) = true) by by rewrite E.
    pose proof (wp_ProcessDigital _ _ _ _ _ _ low HFS Hs Hb Hok) as Hw.
    apply wp_ok in Hw as ([[ret s'] out'] & -> & -> & H). eauto.
  - right. exists f. split; [|done].
    by eapply ProcessDigital_vad_fault.
Qed.

(** An unsupported sampling rate is rejected with -1, and neither the state
    nor the output is touched. *)
Lemma ProcessDigital_bad_rate s in_near out FS low :
  ~ In FS [8000; 16000; 32000; 48000] ->
  WebRtcAgc_ProcessDigital s in_near out FS low = Ok (-1, s, out).
Proof.
  intros HFS. unfold WebRtcAgc_ProcessDigital, frame_size.
  repeat match goal with |- context [FS =? ?k] =>
    destruct (Z.eqb_spec FS k) as [->|]; [exfalso; apply HFS; cbn; tauto|]
  end. done.
Qed.

(** C10: the limiter keeps every subframe after the first below overload: with
    the envelope of a frame, the limited gains and the early reduction, both ends
    of each ramp are small enough for the loudest sample of the subframe, so the
    clamp of the 64-bit path never changes a sample of the band the envelope was
    measured on. *)
Theorem limiter_prevents_clipping L L2 x env gs gs' :
  size_ok L L2 -> band_ok (10 * L) x ->
  envelope 10 L x = Ok env -> Forall gain_range gs -> length gs = 10%nat ->
  limit_gains env gs = Ok gs' ->
  apply_subframes apply_rest L L2 (early_reduction gs') (drop L x) =
  apply_subframes apply_exact L L2 (early_reduction gs') (drop L x).
Proof.
  intros HL [Hx Hlx] Ee Hgs Hlg El.
  pose proof (wp_envelope 10 L x Hx Hlx) as He. rewrite Ee in He.
  destruct He as [Hb Hle]. pose proof (bounds_subframes_level _ _ _ Hb) as Hlev.
  pose proof (wp_limit_gains env gs Hlev Hgs ltac:(congruence)) as Hs.
  rewrite El in Hs.
  apply (apply_subframes_exact L L2 env);
    [done|by apply early_reduction_safe|by apply Forall_drop|].
  destruct env as [|e env]; [done|]. apply Hb.
Qed.

(** C18: the limiter loop terminates for every envelope and every gain up to
    18 dB, never raises the gain, and the loudest sample of the subframe scaled
    by its result fits in 16 bits. *)
Theorem limit_gain_spec e g :
  level_range e -> gain_range g ->
  exists g', limit_gain e g = Ok g' /\ 0 <= g' <= g /\
    (forall x, x * x <= e -> -32768 <= x * g' / 65536 <= 32767).
Proof.
  intros He Hg.
  destruct (proj1 (wp_ok _ _) (wp_limit_gain e g He Hg)) as (g' & -> & Hr & Hn).
  exists g'. split_and!; [done|lia|lia|..]. all: intros x Hx;
    pose proof (no_overload_sample e g' x Hn Hx ltac:(lia)) as Hb; cbn in Hb;
    clear - Hb; Z.to_euclidean_division_equations; lia.
Qed.

(** ** Sessions *)

Lemma gain_table_range M t : M <= 18 -> gain_table_ok M t -> table_range t.
Proof.
  unfold gain_table_ok, table_range, gain_ok, gain_range, octaves.
  intros HM [Ht Hl]. rewrite (proj2 (Z.leb_le _ _)) in Ht by done.
  split; [|done]. eapply Forall_impl; [|exact Ht]. cbv beta. cbn. lia.
Qed.

Lemma InitDigital_ok s mode :
  table_range (gainTable s) -> digital_ok (snd (WebRtcAgc_InitDigital s mode)).
Proof.
  intros Ht. cbn. unfold digital_ok, level_range, gain_range; cbn.
  pose proof vad_ok_init. destruct (mode =? _); split_and!; try done.
Qed.

Lemma wp_AddFarendToDigital s x n :
  digital_ok s -> frame_ok x n ->
  is_ok (WebRtcAgc_ProcessVad (vadFarend s) x n) = true ->
  wp (WebRtcAgc_AddFarendToDigital (Some s) x n)
     (fun '(r, s') => r = 0 /\ exists s1, s' = Some s1 /\ digital_ok s1 /\
        gainTable s1 = gainTable s /\ vadNearend s1 = vadNearend s).
Proof.
  intros (H1 & H2 & H3 & H4 & H5 & H6 & H7) Hx Hok. cbn.
  wp_step. eapply wp_mono; [by apply wp_ProcessVad|]. intros [v r] [Hv _].
  wp_step. split; [done|]. eexists; split; [done|]. by split_and!.
Qed.

(** The operations a session performs after initialisation: near-end frames,
    far-end frames, and a new gain table for another configuration of at most
    18 dB (adaptive or fixed interpretation of the parameters). *)
Inductive digital_step : DigitalAgc -> DigitalAgc -> Prop :=
| step_near s in_near out FS L L2 low s' out' :
    frame_size FS = Some (L, L2) -> bands_ok (10 * L) in_near out ->
    WebRtcAgc_ProcessDigital s in_near out FS low = Ok (0, s', out') ->
    digital_step s s'
| step_far s x n s' :
    frame_ok x n ->
    WebRtcAgc_AddFarendToDigital (Some s) x n = Ok (0, Some s') ->
    digital_step s s'
| step_config s dig t a en tab M :
    M <= 18 -> gain_params_ok M dig t a ->
    WebRtcAgc_CalculateGainTable (gainTable s) dig t en a = Ok (0, tab) ->
    digital_step s
      {| capacitorSlow := capacitorSlow s; capacitorFast := capacitorFast s;
         gain := gain s; gainTable := tab; gatePrevious := gatePrevious s;
         d_agcMode := d_agcMode s; vadNearend := vadNearend s;
         vadFarend := vadFarend s |}.

Lemma digital_step_ok s s' : digital_step s s' -> digital_ok s -> digital_ok s'.
Proof.
  intros Hstep Hs. destruct Hstep as [s in_near out FS L L2 low s' out' HFS Hb E
    |s x n s' Hx E|s dig t a en tab M HM HP E].
  - destruct (WebRtcAgc_ProcessVad (vadNearend s)
      (first_band (10 * L) in_near out) (Z.of_nat L * 10)) as [r|f] eqn:EV.
    + pose proof (wp_ProcessDigital s in_near out FS L L2 low HFS Hs Hb
        ltac:(by rewrite EV)) as Hw. rewrite E in Hw. apply Hw.
    + by rewrite (ProcessDigital_vad_fault _ _ _ _ _ _ low _ HFS Hb EV) in E.
  - destruct (WebRtcAgc_ProcessVad (vadFarend s) x n) as [r|f] eqn:EV.
    + pose proof (wp_AddFarendToDigital s x n Hs Hx ltac:(by rewrite EV)) as Hw.
      rewrite E in Hw. by destruct Hw as (_ & s1 & [= ->] & Hok & _).
    + unfold WebRtcAgc_AddFarendToDigital in E. by rewrite EV in E.
  - pose proof (wp_CalculateGainTable M (gainTable s) dig t en a HP) as Hw.
    rewrite E in Hw. destruct Hw as [_ Ht].
    destruct Hs as (H1 & H2 & H3 & _ & H5 & H6 & H7).
    split_and!; cbn; try apply H1; try apply H2; try apply H3; try apply H5;
      try done; by apply (gain_table_range M).
Qed.

(** States of a session that starts with a table for at most 18 dB. *)
Inductive digital_reachable : DigitalAgc -> Prop :=
| reach_init s mode M old dig t en a :
    M <= 18 -> gain_params_ok M dig t a ->
    WebRtcAgc_CalculateGainTable old dig t en a = Ok (0, gainTable s) ->
    digital_reachable (snd (WebRtcAgc_InitDigital s mode))
| reach_step s s' :
    digital_reachable s -> digital_step s s' -> digital_reachable s'.

(** Every state a session can reach (initialisation with a gain table for at
    most 18 dB, then any interleaving of near-end frames, far-end frames and
    reconfigurations) satisfies the invariant of the digital AGC: both envelope
    followers in [0, 2^30], all gains in [0, 2^19], a full table, the gate
    history a non-negative 16-bit value, both VAD states valid. *)
Lemma digital_reachable_invariant s : digital_reachable s -> digital_ok s.
Proof.
  induction 1 as [s mode M old dig t en a HM HP E|s s' _ IH Hstep].
  - apply InitDigital_ok. apply (gain_table_range M); [done|].
    pose proof (wp_CalculateGainTable M old dig t en a HP) as Hw.
    rewrite E in Hw. apply Hw.
  - by eapply digital_step_ok.
Qed.

(** ** Witnesses *)

(** A state with a unity table. *)
Definition unity : DigitalAgc :=
  snd (WebRtcAgc_InitDigital
    {| capacitorSlow := 0; capacitorFast := 0; gain := 0;
       gainTable := replicate 32 65536; gatePrevious := 0; d_agcMode := 0;
       vadNearend := WebRtcAgc_InitVad; vadFarend := WebRtcAgc_InitVad |}
    kAgcModeAdaptiveDigital).

Lemma unity_ok : digital_ok unity.
Proof.
  apply InitDigital_ok. cbn [gainTable]. split; [|done].
  apply Forall_replicate. unfold gain_range. lia.
Qed.

Lemma silence_bands : bands_ok (10 * 8) [silence 80] [silence 80].
Proof.
  assert (Hb : band_ok (10 * 8) (silence 80)).
  { split; [apply Forall_replicate; unfold i16; lia|]. by vm_compute. }
  split_and!; [by apply Forall_singleton..|vm_compute; lia|vm_compute; lia].
Qed.

Lemma ProcessDigital_outcome_witness :
  (exists s' out',
     WebRtcAgc_ProcessDigital unity [silence 80] [silence 80] 8000 0 =
       Ok (0, s', out') /\
     digital_ok s' /\ gainTable s' = gainTable unity /\
     vadFarend s' = vadFarend unity /\ d_agcMode s' = d_agcMode unity /\
     Forall samples16 out' /\ map length out' = map length [silence 80] /\
     map (drop (10 * 8)) out' = map (drop (10 * 8)) [silence 80]) \/
  (exists f,
     WebRtcAgc_ProcessDigital unity [silence 80] [silence 80] 8000 0 = Fault f /\
     WebRtcAgc_ProcessVad (vadNearend unity)
       (first_band (10 * 8) [silence 80] [silence 80]) (Z.of_nat 8 * 10) = Fault f).
Proof.
  apply (ProcessDigital_outcome unity [silence 80] [silence 80] 8000 8 3 0);
    [reflexivity|exact unity_ok|exact silence_bands].
Defined.

Lemma ProcessDigital_bad_rate_witness :
  WebRtcAgc_ProcessDigital unity [silence 80] [silence 80] 44100 0 =
  Ok (-1, unity, [silence 80]).
Proof. apply ProcessDigital_bad_rate. cbn. lia. Defined.

(** A frame of samples of constant level [v], as loud as the type allows. *)
Definition loud (v : Z) (n : nat) : list Z := replicate n v.

Lemma limiter_prevents_clipping_witness :
  let env := replicate 10 (32767 * 32767) in
  let gs' := replicate 10 65040 in
  apply_subframes apply_rest 8 3 (early_reduction gs') (drop 8 (loud 32767 80)) =
  apply_subframes apply_exact 8 3 (early_reduction gs') (drop 8 (loud 32767 80)).
Proof.
  apply (limiter_prevents_clipping 8 3 (loud 32767 80)
           (replicate 10 (32767 * 32767)) (replicate 10 524288)).
  - by left.
  - split; [apply Forall_replicate; unfold i16; lia|by vm_compute].
  - vm_compute. reflexivity.
  - apply Forall_replicate. unfold gain_range. lia.
  - reflexivity.
  - vm_compute. reflexivity.
Defined.

Lemma limit_gain_spec_witness :
  exists g', limit_gain 1073741824 524288 = Ok g' /\ 0 <= g' <= 524288 /\
    (forall x, x * x <= 1073741824 -> -32768 <= x * g' / 65536 <= 32767).
Proof.
  apply limit_gain_spec; [unfold level_range; lia|unfold gain_range; lia].
Defined.

(** The default configuration: 9 dB of compression gain, target level 3, limiter
    on. *)
Definition table9 : list Z :=
  match WebRtcAgc_CalculateGainTable [] 9 3 1 8 with
  | Ok (_, t) => t
  | Fault _ => []
  end.

Definition default9 : DigitalAgc :=
  {| capacitorSlow := 0; capacitorFast := 0; gain := 0; gainTable := table9;
     gatePrevious := 0; d_agcMode := 0;
     vadNearend := WebRtcAgc_InitVad; vadFarend := WebRtcAgc_InitVad |}.

Lemma digital_reachable_invariant_witness :
  digital_ok (snd (WebRtcAgc_InitDigital default9 kAgcModeAdaptiveDigital)).
Proof.
  apply digital_reachable_invariant.
  apply (reach_init default9 kAgcModeAdaptiveDigital 18 [] 9 3 1 8); [lia| |].
  - vm_compute. intuition discriminate.
  - vm_compute. reflexivity.
Defined.

(** ** Limits of the fixed-point gain path *)

(** Fixed digital mode with compression gain [c] and target level 3. *)
Definition fixed_digital (c : Z) : DigitalAgc :=
  snd (WebRtcAgc_InitDigital
    {| capacitorSlow := 0; capacitorFast := 0; gain := 0;
       gainTable := match WebRtcAgc_CalculateGainTable [] (c + 3) 3 1 (c + 3) with
                    | Ok (_, t) => t
                    | Fault _ => []
                    end;
       gatePrevious := 0; d_agcMode := 0;
       vadNearend := WebRtcAgc_InitVad; vadFarend := WebRtcAgc_InitVad |}
    kAgcModeFixedDigital).

(** The bound of 18 dB is sharp for the first subframe: with 19 dB of
    compression gain, a frame of silence followed by a frame of full-scale
    negative samples overflows the 32-bit product [out * ((gain32 + 127) >> 7)],
    although neither VAD call faults. *)
Lemma first_subframe_overflow :
  exists s out,
    WebRtcAgc_ProcessDigital (fixed_digital 19) [silence 80] [silence 80] 8000 0 =
      Ok (0, s, out) /\
    is_ok (WebRtcAgc_ProcessVad (vadNearend s) (loud (-32768) 80) 80) = true /\
    WebRtcAgc_ProcessDigital s [loud (-32768) 80] [silence 80] 8000 0 =
      Fault SignedOverflow.
Proof.
  destruct (WebRtcAgc_ProcessDigital (fixed_digital 19) [silence 80] [silence 80]
              8000 0) as [[[r s] out]|f] eqn:E; vm_compute in E; [|done].
  injection E as <- <- <-. eexists _, _. split; [reflexivity|].
  vm_compute. split; reflexivity.
Qed.

(** Above 31 dB the interpolation between two table entries overflows: with
    32 dB of compression gain a frame of constant amplitude 1023 makes
    [(gainTable[zeros - 1] - gainTable[zeros]) * frac] exceed 32 bits. *)
Lemma interpolation_overflow :
  is_ok (WebRtcAgc_ProcessVad (vadNearend (fixed_digital 32))
           (loud 1023 80) 80) = true /\
  WebRtcAgc_ProcessDigital (fixed_digital 32) [loud 1023 80] [silence 80] 8000 0 =
    Fault SignedOverflow /\
  subframe_gain (gainTable (fixed_digital 32)) 0 (1023 * 1023) (Follower 0 0 0 0) =
    Fault SignedOverflow.
Proof. vm_compute. split_and!; reflexivity. Qed.

(** The digital part is safe only up to the documented use: with 19 dB of
    compression gain a silent frame followed by a full-scale frame overflows the
    32-bit product of the first subframe, and with 32 dB a frame of constant
    amplitude 1023 overflows the interpolation between two table entries, while
    [WebRtcAgc_set_config] accepts up to 90 dB. *)
Lemma compression_gain_overflows :
  (exists s out,
    WebRtcAgc_ProcessDigital (fixed_digital 19) [silence 80] [silence 80] 8000 0 =
      Ok (0, s, out) /\
    WebRtcAgc_ProcessDigital s [loud (-32768) 80] [silence 80] 8000 0 =
      Fault SignedOverflow) /\
  WebRtcAgc_ProcessDigital (fixed_digital 32) [loud 1023 80] [silence 80] 8000 0 =
    Fault SignedOverflow.
Proof.
  split; [|exact (proj1 (proj2 interpolation_overflow))].
  destruct first_subframe_overflow as (s & out & E1 & _ & E2).
  exists s, out. exact (conj E1 E2).
Qed.

(** The threshold 47453132 of the limiter is too high: for the 973 gains
    from 47452160 to 47453132 the shift by 10 is kept and the square
    [gain32 * gain32] is 46341^2, which does not fit in 32 bits. *)
Lemma limiter_threshold_overflow e g :
  47452160 <= g <= 47453132 -> limit_gain e g = Fault SignedOverflow.
Proof.
  intros Hg. unfold limit_gain. rewrite (proj2 (Z.ltb_ge 47453132 g)) by lia.
  assert (E : Z.shiftr g 10 = 46340) by cint.
  unfold limit_square. change (shr32 g 10) with (Ok (Z.shiftr g 10)).
  rewrite E. reflexivity.
Qed.
