(* ===== verification/Instance.v ===== *)
(** * State of the AGC instance

    [LegacyAgc] of [digital_agc/analog_agc.h] with the functions of
    [digital_agc/analog_agc.c] that create and configure an instance:
    [WebRtcAgc_Create], [WebRtcAgc_Init], [WebRtcAgc_UpdateAgcThresholds],
    [WebRtcAgc_set_config] and [WebRtcAgc_get_config].  The build defines neither
    [MIC_LEVEL_FEEDBACK] nor [WEBRTC_AGC_DEBUG_DUMP]. *)
From S2P Require Import Prelude CInt Spl Vad GainTable Digital.

(** ** Constants (gain_control.h, analog_agc.h, analog_agc.c) *)

Definition AGC_UNSPECIFIED_ERROR : Z := 18000.
Definition AGC_UNINITIALIZED_ERROR : Z := 18002.
Definition AGC_NULL_POINTER_ERROR : Z := 18003.
Definition AGC_BAD_PARAMETER_ERROR : Z := 18004.

Definition kAgcFalse : Z := 0.
Definition kAgcTrue : Z := 1.

Definition RXX_BUFFER_LEN : Z := 10.
Definition kMsecSpeechInner : Z := 520.
Definition kMsecSpeechOuter : Z := 340.
Definition kNormalVadThreshold : Z := 400.
Definition kAlphaShortTerm : Z := 6.
Definition kAlphaLongTerm : Z := 10.

Definition kMuteGuardTimeMs : Z := 8000.
Definition kInitCheck : Z := 42.
Definition AGC_DEFAULT_TARGET_LEVEL : Z := 3.
Definition AGC_DEFAULT_COMP_GAIN : Z := 9.
Definition ANALOG_TARGET_LEVEL : Z := 11.
Definition ANALOG_TARGET_LEVEL_2 : Z := 5.
Definition OFFSET_ENV_TO_RMS : Z := 9.
Definition DIGITAL_REF_AT_0_COMP_GAIN : Z := 4.
Definition DIFF_REF_TO_ANALOG : Z := 5.

Definition kTargetLevelTable : list Z :=
  [134209536; 106606424; 84680493; 67264106; 53429779; 42440782; 33711911;
   26778323;  21270778;  16895980; 13420954; 10660642; 8468049;  6726411;
   5342978;   4244078;   3371191;  2677832;  2127078;  1689598;  1342095;
   1066064;   846805;    672641;   534298;   424408;   337119;   267783;
   212708;    168960;    134210;   106606;   84680;    67264;    53430;
   42441;     33712;     26778;    21271;    16896;    13421;    10661;
   8468;      6726;      5343;     4244;     3371;     2678;     2127;
   1690;      1342;      1066;     847;      673;      534;      424;
   337;       268;       213;      169;      134;      107;      85;
   67].

(** ** State *)

Record WebRtcAgcConfig := {
  c_targetLevelDbfs : Z;
  c_compressionGaindB : Z;
  c_limiterEnable : Z
}.

Record LegacyAgc := MkAgc {
  fs : Z;
  compressionGaindB : Z;
  targetLevelDbfs : Z;
  agcMode : Z;
  limiterEnable : Z;
  defaultConfig : WebRtcAgcConfig;
  usedConfig : WebRtcAgcConfig;
  initFlag : Z;
  lastError : Z;
  analogTargetLevel : Z;
  startUpperLimit : Z;
  startLowerLimit : Z;
  upperPrimaryLimit : Z;
  lowerPrimaryLimit : Z;
  upperSecondaryLimit : Z;
  lowerSecondaryLimit : Z;
  targetIdx : Z;
  analogTarget : Z;
  filterState : list Z;
  upperLimit : Z;
  lowerLimit : Z;
  Rxx160w32 : Z;
  Rxx16_LPw32 : Z;
  Rxx160_LPw32 : Z;
  Rxx16_LPw32Max : Z;
  Rxx16_vectorw32 : list Z;
  Rxx16w32_array0 : list Z;
  Rxx16w32_array1 : list Z;
  env0 : list Z;
  env1 : list Z;
  Rxx16pos : Z;
  envSum : Z;
  vadThreshold : Z;
  inActive : Z;
  msTooLow : Z;
  msTooHigh : Z;
  changeToSlowMode : Z;
  firstCall : Z;
  msZero : Z;
  msecSpeechOuterChange : Z;
  msecSpeechInnerChange : Z;
  activeSpeech : Z;
  muteGuardMs : Z;
  inQueue : Z;
  micRef : Z;
  gainTableIdx : Z;
  micGainIdx : Z;
  micVol : Z;
  maxLevel : Z;
  maxAnalog : Z;
  maxInit : Z;
  minLevel : Z;
  minOutput : Z;
  zeroCtrlMax : Z;
  lastInMicLevel : Z;
  scale : Z;
  vadMic : AgcVad;
  digitalAgc : DigitalAgc;
  lowLevelSignal : Z
}.

Definition agc_eta (s : LegacyAgc) : LegacyAgc :=
  MkAgc (fs s) (compressionGaindB s) (targetLevelDbfs s) (agcMode s)
    (limiterEnable s) (defaultConfig s) (usedConfig s) (initFlag s)
    (lastError s) (analogTargetLevel s) (startUpperLimit s)
    (startLowerLimit s) (upperPrimaryLimit s) (lowerPrimaryLimit s)
    (upperSecondaryLimit s) (lowerSecondaryLimit s) (targetIdx s)
    (analogTarget s) (filterState s) (upperLimit s) (lowerLimit s)
    (Rxx160w32 s) (Rxx16_LPw32 s) (Rxx160_LPw32 s) (Rxx16_LPw32Max s)
    (Rxx16_vectorw32 s) (Rxx16w32_array0 s) (Rxx16w32_array1 s) (env0 s)
    (env1 s) (Rxx16pos s) (envSum s) (vadThreshold s) (inActive s)
    (msTooLow s) (msTooHigh s) (changeToSlowMode s) (firstCall s)
    (msZero s) (msecSpeechOuterChange s) (msecSpeechInnerChange s)
    (activeSpeech s) (muteGuardMs s) (inQueue s) (micRef s)
    (gainTableIdx s) (micGainIdx s) (micVol s) (maxLevel s)
    (maxAnalog s) (maxInit s) (minLevel s) (minOutput s) (zeroCtrlMax s)
    (lastInMicLevel s) (scale s) (vadMic s) (digitalAgc s)
    (lowLevelSignal s).

(** Field updates: [set_f v s] is [s->f = v]. *)
Definition set_fs : Z -> LegacyAgc -> LegacyAgc :=
  ltac:(field_setter agc_eta fs).
Definition set_compressionGaindB : Z -> LegacyAgc -> LegacyAgc :=
  ltac:(field_setter agc_eta compressionGaindB).
Definition set_targetLevelDbfs : Z -> LegacyAgc -> LegacyAgc :=
  ltac:(field_setter agc_eta targetLevelDbfs).
Definition set_agcMode : Z -> LegacyAgc -> LegacyAgc :=
  ltac:(field_setter agc_eta agcMode).
Definition set_limiterEnable : Z -> LegacyAgc -> LegacyAgc :=
  ltac:(field_setter agc_eta limiterEnable).
Definition set_defaultConfig : WebRtcAgcConfig -> LegacyAgc -> LegacyAgc :=
  ltac:(field_setter agc_eta defaultConfig).
Definition set_usedConfig : WebRtcAgcConfig -> LegacyAgc -> LegacyAgc :=
  ltac:(field_setter agc_eta usedConfig).
Definition set_initFlag : Z -> LegacyAgc -> LegacyAgc :=
  ltac:(field_setter agc_eta initFlag).
Definition set_lastError : Z -> LegacyAgc -> LegacyAgc :=
  ltac:(field_setter agc_eta lastError).
Definition set_analogTargetLevel : Z -> LegacyAgc -> LegacyAgc :=
  ltac:(field_setter agc_eta analogTargetLevel).
Definition set_startUpperLimit : Z -> LegacyAgc -> LegacyAgc :=
  ltac:(field_setter agc_eta startUpperLimit).
Definition set_startLowerLimit : Z -> LegacyAgc -> LegacyAgc :=
  ltac:(field_setter agc_eta startLowerLimit).
Definition set_upperPrimaryLimit : Z -> LegacyAgc -> LegacyAgc :=
  ltac:(field_setter agc_eta upperPrimaryLimit).
Definition set_lowerPrimaryLimit : Z -> LegacyAgc -> LegacyAgc :=
  ltac:(field_setter agc_eta lowerPrimaryLimit).
Definition set_upperSecondaryLimit : Z -> LegacyAgc -> LegacyAgc :=
  ltac:(field_setter agc_eta upperSecondaryLimit).
Definition set_lowerSecondaryLimit : Z -> LegacyAgc -> LegacyAgc :=
  ltac:(field_setter agc_eta lowerSecondaryLimit).
Definition set_targetIdx : Z -> LegacyAgc -> LegacyAgc :=
  ltac:(field_setter agc_eta targetIdx).
Definition set_analogTarget : Z -> LegacyAgc -> LegacyAgc :=
  ltac:(field_setter agc_eta analogTarget).
Definition set_filterState : list Z -> LegacyAgc -> LegacyAgc :=
  ltac:(field_setter agc_eta filterState).
Definition set_upperLimit : Z -> LegacyAgc -> LegacyAgc :=
  ltac:(field_setter agc_eta upperLimit).
Definition set_lowerLimit : Z -> LegacyAgc -> LegacyAgc :=
  ltac:(field_setter agc_eta lowerLimit).
Definition set_Rxx160w32 : Z -> LegacyAgc -> LegacyAgc :=
  ltac:(field_setter agc_eta Rxx160w32).
Definition set_Rxx16_LPw32 : Z -> LegacyAgc -> LegacyAgc :=
  ltac:(field_setter agc_eta Rxx16_LPw32).
Definition set_Rxx160_LPw32 : Z -> LegacyAgc -> LegacyAgc :=
  ltac:(field_setter agc_eta Rxx160_LPw32).
Definition set_Rxx16_LPw32Max : Z -> LegacyAgc -> LegacyAgc :=
  ltac:(field_setter agc_eta Rxx16_LPw32Max).
Definition set_Rxx16_vectorw32 : list Z -> LegacyAgc -> LegacyAgc :=
  ltac:(field_setter agc_eta Rxx16_vectorw32).
Definition set_Rxx16w32_array0 : list Z -> LegacyAgc -> LegacyAgc :=
  ltac:(field_setter agc_eta Rxx16w32_array0).
Definition set_Rxx16w32_array1 : list Z -> LegacyAgc -> LegacyAgc :=
  ltac:(field_setter agc_eta Rxx16w32_array1).
Definition set_env0 : list Z -> LegacyAgc -> LegacyAgc :=
  ltac:(field_setter agc_eta env0).
Definition set_env1 : list Z -> LegacyAgc -> LegacyAgc :=
  ltac:(field_setter agc_eta env1).
Definition set_Rxx16pos : Z -> LegacyAgc -> LegacyAgc :=
  ltac:(field_setter agc_eta Rxx16pos).
Definition set_envSum : Z -> LegacyAgc -> LegacyAgc :=
  ltac:(field_setter agc_eta envSum).
Definition set_vadThreshold : Z -> LegacyAgc -> LegacyAgc :=
  ltac:(field_setter agc_eta vadThreshold).
Definition set_inActive : Z -> LegacyAgc -> LegacyAgc :=
  ltac:(field_setter agc_eta inActive).
Definition set_msTooLow : Z -> LegacyAgc -> LegacyAgc :=
  ltac:(field_setter agc_eta msTooLow).
Definition set_msTooHigh : Z -> LegacyAgc -> LegacyAgc :=
  ltac:(field_setter agc_eta msTooHigh).
Definition set_changeToSlowMode : Z -> LegacyAgc -> LegacyAgc :=
  ltac:(field_setter agc_eta changeToSlowMode).
Definition set_firstCall : Z -> LegacyAgc -> LegacyAgc :=
  ltac:(field_setter agc_eta firstCall).
Definition set_msZero : Z -> LegacyAgc -> LegacyAgc :=
  ltac:(field_setter agc_eta msZero).
Definition set_msecSpeechOuterChange : Z -> LegacyAgc -> LegacyAgc :=
  ltac:(field_setter agc_eta msecSpeechOuterChange).
Definition set_msecSpeechInnerChange : Z -> LegacyAgc -> LegacyAgc :=
  ltac:(field_setter agc_eta msecSpeechInnerChange).
Definition set_activeSpeech : Z -> LegacyAgc -> LegacyAgc :=
  ltac:(field_setter agc_eta activeSpeech).
Definition set_muteGuardMs : Z -> LegacyAgc -> LegacyAgc :=
  ltac:(field_setter agc_eta muteGuardMs).
Definition set_inQueue : Z -> LegacyAgc -> LegacyAgc :=
  ltac:(field_setter agc_eta inQueue).
Definition set_micRef : Z -> LegacyAgc -> LegacyAgc :=
  ltac:(field_setter agc_eta micRef).
Definition set_gainTableIdx : Z -> LegacyAgc -> LegacyAgc :=
  ltac:(field_setter agc_eta gainTableIdx).
Definition set_micGainIdx : Z -> LegacyAgc -> LegacyAgc :=
  ltac:(field_setter agc_eta micGainIdx).
Definition set_micVol : Z -> LegacyAgc -> LegacyAgc :=
  ltac:(field_setter agc_eta micVol).
Definition set_maxLevel : Z -> LegacyAgc -> LegacyAgc :=
  ltac:(field_setter agc_eta maxLevel).
Definition set_maxAnalog : Z -> LegacyAgc -> LegacyAgc :=
  ltac:(field_setter agc_eta maxAnalog).
Definition set_maxInit : Z -> LegacyAgc -> LegacyAgc :=
  ltac:(field_setter agc_eta maxInit).
Definition set_minLevel : Z -> LegacyAgc -> LegacyAgc :=
  ltac:(field_setter agc_eta minLevel).
Definition set_minOutput : Z -> LegacyAgc -> LegacyAgc :=
  ltac:(field_setter agc_eta minOutput).
Definition set_zeroCtrlMax : Z -> LegacyAgc -> LegacyAgc :=
  ltac:(field_setter agc_eta zeroCtrlMax).
Definition set_lastInMicLevel : Z -> LegacyAgc -> LegacyAgc :=
  ltac:(field_setter agc_eta lastInMicLevel).
Definition set_scale : Z -> LegacyAgc -> LegacyAgc :=
  ltac:(field_setter agc_eta scale).
Definition set_vadMic : AgcVad -> LegacyAgc -> LegacyAgc :=
  ltac:(field_setter agc_eta vadMic).
Definition set_digitalAgc : DigitalAgc -> LegacyAgc -> LegacyAgc :=
  ltac:(field_setter agc_eta digitalAgc).
Definition set_lowLevelSignal : Z -> LegacyAgc -> LegacyAgc :=
  ltac:(field_setter agc_eta lowLevelSignal).

(** ** Thresholds *)

Definition WebRtcAgc_UpdateAgcThresholds (stt : LegacyAgc) : res LegacyAgc :=
  t ← mul32 DIFF_REF_TO_ANALOG (compressionGaindB stt);
  t ← add32 t ANALOG_TARGET_LEVEL_2;
  let tmp16 := to_i16 t in
  tmp16 ← WebRtcSpl_DivW32W16ResW16 tmp16 ANALOG_TARGET_LEVEL;
  t ← add32 DIGITAL_REF_AT_0_COMP_GAIN tmp16;
  let target := to_i16 t in
  let target := if target <? DIGITAL_REF_AT_0_COMP_GAIN
                then DIGITAL_REF_AT_0_COMP_GAIN else target in
  let target := if agcMode stt =? kAgcModeFixedDigital
                then compressionGaindB stt else target in
  let stt := stt |> set_analogTarget target in
  let stt := stt |> set_targetIdx (ANALOG_TARGET_LEVEL + OFFSET_ENV_TO_RMS) in
  let level k := (v ← rd kTargetLevelTable k; mul32 RXX_BUFFER_LEN v) in
  l0 ← level (targetIdx stt);
  u1 ← level (targetIdx stt - 1);
  l1 ← level (targetIdx stt + 1);
  u2 ← level (targetIdx stt - 2);
  l2 ← level (targetIdx stt + 2);
  u5 ← level (targetIdx stt - 5);
  l5 ← level (targetIdx stt + 5);
  Ok (stt |> set_analogTargetLevel l0
          |> set_startUpperLimit u1 |> set_startLowerLimit l1
          |> set_upperPrimaryLimit u2 |> set_lowerPrimaryLimit l2
          |> set_upperSecondaryLimit u5 |> set_lowerSecondaryLimit l5
          |> set_upperLimit u1 |> set_lowerLimit l1).

(** ** Configuration *)

Definition set_gainTable (t : list Z) (d : DigitalAgc) : DigitalAgc :=
  {| capacitorSlow := capacitorSlow d; capacitorFast := capacitorFast d;
     gain := gain d; gainTable := t; gatePrevious := gatePrevious d;
     d_agcMode := d_agcMode d; vadNearend := vadNearend d;
     vadFarend := vadFarend d |}.

(** The part of [WebRtcAgc_set_config] after the validation. *)
Definition apply_config (stt : LegacyAgc) (agcConfig : WebRtcAgcConfig)
    : res (Z * LegacyAgc) :=
  let stt := stt |> set_targetLevelDbfs (c_targetLevelDbfs agcConfig) in
  let stt :=
    if agcMode stt =? kAgcModeFixedDigital
    then stt |> set_compressionGaindB
                  (to_i16 (compressionGaindB stt + c_targetLevelDbfs agcConfig))
    else stt in
  stt ← WebRtcAgc_UpdateAgcThresholds stt;
  '(ret, table) ← WebRtcAgc_CalculateGainTable (gainTable (digitalAgc stt))
                    (compressionGaindB stt) (targetLevelDbfs stt)
                    (limiterEnable stt) (analogTarget stt);
  let stt := stt |> set_digitalAgc (set_gainTable table (digitalAgc stt)) in
  if ret =? -1 then Ok (-1, stt)
  else Ok (0, stt |> set_usedConfig agcConfig).

Definition WebRtcAgc_set_config (agcInst : option LegacyAgc)
    (agcConfig : WebRtcAgcConfig) : res (Z * option LegacyAgc) :=
  match agcInst with
  | None => Ok (-1, None)
  | Some stt =>
      if negb (initFlag stt =? kInitCheck)
      then Ok (-1, Some (stt |> set_lastError AGC_UNINITIALIZED_ERROR)) else
      if negb (c_limiterEnable agcConfig =? kAgcFalse) &&
         negb (c_limiterEnable agcConfig =? kAgcTrue)
      then Ok (-1, Some (stt |> set_lastError AGC_BAD_PARAMETER_ERROR)) else
      let stt := stt |> set_limiterEnable (c_limiterEnable agcConfig)
                     |> set_compressionGaindB (c_compressionGaindB agcConfig) in
      if (c_targetLevelDbfs agcConfig <? 0) || (31 <? c_targetLevelDbfs agcConfig)
      then Ok (-1, Some (stt |> set_lastError AGC_BAD_PARAMETER_ERROR)) else
      '(ret, stt) ← apply_config stt agcConfig;
      Ok (ret, Some stt)
  end.

(** Returns the code, the instance and the contents of [*config] ([None] for a
    null pointer). *)
Definition WebRtcAgc_get_config (agcInst : option LegacyAgc)
    (config : option WebRtcAgcConfig)
    : Z * option LegacyAgc * option WebRtcAgcConfig :=
  match agcInst with
  | None => (-1, None, config)
  | Some stt =>
      match config with
      | None => (-1, Some (stt |> set_lastError AGC_NULL_POINTER_ERROR), None)
      | Some _ =>
          if negb (initFlag stt =? kInitCheck)
          then (-1, Some (stt |> set_lastError AGC_UNINITIALIZED_ERROR), config)
          else (0, Some stt, Some (usedConfig stt))
      end
  end.

(** ** Creation and initialisation *)

(** [mem] is the block [malloc] returns ([None] for a null pointer), with
    arbitrary contents; the code does not check it. *)
Definition WebRtcAgc_Create (mem : option LegacyAgc) : res LegacyAgc :=
  match mem with
  | None => Fault NullPointer
  | Some stt => Ok (stt |> set_initFlag 0 |> set_lastError 0)
  end.

(** The level range: [minLevel], [maxLevel] and everything derived from them;
    returns the two levels as adjusted for the mode.  The scale computed from the
    norm of [maxLevel] is always reset to 0 ([shl32] by it never moves a bit). *)
Definition init_levels (lo hi : Z) (stt : LegacyAgc) : res (Z * Z * LegacyAgc) :=
  let stt := stt |> set_scale (to_i16 (WebRtcSpl_NormU32 (to_u32 hi) - 23)) in
  let stt := if scale stt <? 0 then stt |> set_scale 0 else stt in
  let stt := stt |> set_scale 0 in
  hi ← shl32 hi (scale stt);
  lo ← shl32 lo (scale stt);
  let digital := agcMode stt =? kAgcModeAdaptiveDigital in
  let lo := if digital then 0 else lo in
  let hi := if digital then 255 else hi in
  d ← sub32 hi lo;
  max_add ← div32 d 4;
  top ← add32 hi max_add;
  let stt := stt |> set_minLevel lo |> set_maxAnalog hi
                 |> set_maxLevel top |> set_maxInit top
                 |> set_zeroCtrlMax hi |> set_lastInMicLevel 0
                 |> set_micVol (if digital then 127 else hi) in
  let stt := stt |> set_micRef (micVol stt) |> set_micGainIdx 127 in
  d ← sub32 (maxLevel stt) (minLevel stt);
  p ← mul32 d 10;
  m ← add32 (minLevel stt) (Z.shiftr p 8);
  Ok (lo, hi, stt |> set_minOutput m).

(** Counters, energies, buffers and the default configuration. *)
Definition init_counters (stt : LegacyAgc) : LegacyAgc :=
  stt |> set_msTooLow 0 |> set_msTooHigh 0 |> set_changeToSlowMode 0
      |> set_firstCall 0 |> set_msZero 0 |> set_muteGuardMs 0
      |> set_gainTableIdx 0
      |> set_msecSpeechInnerChange kMsecSpeechInner
      |> set_msecSpeechOuterChange kMsecSpeechOuter
      |> set_activeSpeech 0 |> set_Rxx16_LPw32Max 0
      |> set_vadThreshold kNormalVadThreshold |> set_inActive 0.

Definition init_buffers (stt : LegacyAgc) : res LegacyAgc :=
  zeros ← WebRtcSpl_MemSetW32 (filterState stt) 0 8;
  Ok (stt |> set_Rxx16_vectorw32 (replicate 10 1000)
      |> set_Rxx160w32 (125 * RXX_BUFFER_LEN)
      |> set_Rxx16pos 0 |> set_Rxx16_LPw32 16284
      |> set_Rxx16w32_array0 (replicate 5 0)
      |> set_env0 (replicate 10 0) |> set_env1 (replicate 10 0)
      |> set_inQueue 0
      |> set_filterState zeros
      |> set_initFlag kInitCheck
      |> set_defaultConfig
           {| c_limiterEnable := kAgcTrue;
              c_targetLevelDbfs := AGC_DEFAULT_TARGET_LEVEL;
              c_compressionGaindB := AGC_DEFAULT_COMP_GAIN |}).

(** The level check comes last: the instance is initialised even when it
    fails. *)
Definition WebRtcAgc_Init (stt : LegacyAgc) (lo hi mode rate : Z)
    : res (Z * LegacyAgc) :=
  let '(ret, d) := WebRtcAgc_InitDigital (digitalAgc stt) mode in
  let stt := stt |> set_digitalAgc d in
  if negb (ret =? 0) then Ok (-1, stt |> set_lastError AGC_UNINITIALIZED_ERROR) else
  let stt := stt |> set_envSum 0 in
  if (mode <? kAgcModeUnchanged) || (kAgcModeFixedDigital <? mode)
  then Ok (-1, stt) else
  let stt := stt |> set_agcMode mode |> set_fs rate
                 |> set_vadMic WebRtcAgc_InitVad in
  '(lo, hi, stt) ← init_levels lo hi stt;
  stt ← init_buffers (init_counters stt);
  '(ret, o) ← WebRtcAgc_set_config (Some stt) (defaultConfig stt);
  let stt := default stt o in
  if ret =? -1 then Ok (-1, stt |> set_lastError AGC_UNSPECIFIED_ERROR) else
  let stt := stt |> set_Rxx160_LPw32 (analogTargetLevel stt)
                 |> set_lowLevelSignal 0 in
  if (hi <=? lo) || negb (Z.land (to_u32 hi) 4227858432 =? 0)
  then Ok (-1, stt) else Ok (0, stt).

(** A zero-filled instance, as [calloc] would return it. *)
Definition blank : LegacyAgc :=
  let cfg := {| c_targetLevelDbfs := 0; c_compressionGaindB := 0;
                c_limiterEnable := 0 |} in
  let dig := {| capacitorSlow := 0; capacitorFast := 0; gain := 0;
                gainTable := replicate 32 0; gatePrevious := 0; d_agcMode := 0;
                vadNearend := WebRtcAgc_InitVad; vadFarend := WebRtcAgc_InitVad |} in
  MkAgc 0 0 0 0 0 cfg cfg 0 0 0 0 0 0 0 0 0 0 0 (replicate 8 0) 0 0 0 0 0 0
    (replicate 10 0) (replicate 5 0) (replicate 5 0) (replicate 10 0)
    (replicate 10 0) 0 0 0 0 0 0 0 0 0 0 0 0 0 0 0 0 0 0 0 0 0 0 0 0 0 0
    WebRtcAgc_InitVad dig 0.

(** * Lemmas *)

(** ** Thresholds *)

(** The state after [WebRtcAgc_UpdateAgcThresholds]: the limits do not depend on
    the configuration, only the analog target does. *)
Definition with_thresholds (target : Z) (s : LegacyAgc) : LegacyAgc :=
  s |> set_analogTarget target |> set_targetIdx 20
    |> set_analogTargetLevel 13420950
    |> set_startUpperLimit 16895980 |> set_startLowerLimit 10660640
    |> set_upperPrimaryLimit 21270780 |> set_lowerPrimaryLimit 8468050
    |> set_upperSecondaryLimit 42440780 |> set_lowerSecondaryLimit 4244080
    |> set_upperLimit 16895980 |> set_lowerLimit 10660640.

(** The analog target for a compression gain of 16 bits, whose product is cut to 16 bits,
    and for the gains that are used. *)
Definition target_any (mode c : Z) : Z :=
  if mode =? kAgcModeFixedDigital then c else Z.max 4 (4 + Z.quot (to_i16 (5 * c + 5)) 11).

Definition target_spec (mode c : Z) : Z :=
  if mode =? kAgcModeFixedDigital then c else 4 + Z.quot (5 * c + 5) 11.

Lemma target_any_spec mode c : 0 <= c <= 6000 -> target_any mode c = target_spec mode c.
Proof.
  intros Hc. unfold target_any, target_spec. rewrite to_i16_id by (unfold i16; lia).
  destruct (_ =? _); [done|]. Z.to_euclidean_division_equations. lia.
Qed.

Lemma UpdateAgcThresholds_any s :
  i16 (compressionGaindB s) ->
  WebRtcAgc_UpdateAgcThresholds s =
  Ok (with_thresholds (target_any (agcMode s) (compressionGaindB s)) s).
Proof.
  unfold i16. intros Hc. unfold WebRtcAgc_UpdateAgcThresholds, DIFF_REF_TO_ANALOG,
    ANALOG_TARGET_LEVEL_2, ANALOG_TARGET_LEVEL, DIGITAL_REF_AT_0_COMP_GAIN.
  unfold mul32. rewrite chk32_ok by (unfold i32; lia). cbn [mbind res_bind].
  unfold add32. rewrite chk32_ok by (unfold i32; lia). cbn [mbind res_bind].
  pose proof (to_i16_range (5 * compressionGaindB s + 5)) as Ht. unfold i16 in Ht.
  set (q := Z.quot (to_i16 (5 * compressionGaindB s + 5)) 11).
  assert (Hq : -3000 <= q <= 3000) by (unfold q; Z.to_euclidean_division_equations; lia).
  assert (Eq : WebRtcSpl_DivW32W16ResW16 (to_i16 (5 * compressionGaindB s + 5)) 11 = Ok q).
  { apply wp_pure, wp_DivW32W16ResW16; [unfold i32; lia|lia|].
    apply to_i16_id. unfold i16. fold q. lia. }
  rewrite Eq. cbn [mbind res_bind]. rewrite chk32_ok by (unfold i32; lia).
  cbn [mbind res_bind]. rewrite to_i16_id by (unfold i16; lia).
  assert (Em : (if 4 + q <? 4 then 4 else 4 + q) = Z.max 4 (4 + q)) by (case_if; lia).
  rewrite Em. unfold with_thresholds, target_any. by fold q.
Qed.

Lemma UpdateAgcThresholds_eq s :
  0 <= compressionGaindB s <= 6000 ->
  WebRtcAgc_UpdateAgcThresholds s =
  Ok (with_thresholds (target_spec (agcMode s) (compressionGaindB s)) s).
Proof.
  intros Hc. rewrite UpdateAgcThresholds_any by (unfold i16; lia). by rewrite target_any_spec.
Qed.

(** ** Configuration *)

Definition config_ok (cfg : WebRtcAgcConfig) : Prop :=
  (c_limiterEnable cfg = kAgcFalse \/ c_limiterEnable cfg = kAgcTrue) /\
  0 <= c_targetLevelDbfs cfg <= 31 /\ 0 <= c_compressionGaindB cfg <= 90.

(** The effective compression gain of a configuration. *)
Definition effective_gain (mode : Z) (cfg : WebRtcAgcConfig) : Z :=
  if mode =? kAgcModeFixedDigital
  then c_compressionGaindB cfg + c_targetLevelDbfs cfg
  else c_compressionGaindB cfg.

Lemma gain_params_mode mode cfg :
  config_ok cfg ->
  gain_params_ok (Z.max 7 (c_compressionGaindB cfg)) (effective_gain mode cfg)
    (c_targetLevelDbfs cfg) (target_spec mode (effective_gain mode cfg)).
Proof.
  intros (_ & Ht & Hc). unfold effective_gain, target_spec.
  destruct (mode =? kAgcModeFixedDigital).
  - by apply gain_params_fixed.
  - by apply gain_params_adaptive.
Qed.

(** The gain that is stored: in the fixed digital mode the sum is cut to 16 bits. *)
Definition stored_gain (mode : Z) (cfg : WebRtcAgcConfig) : Z :=
  if mode =? kAgcModeFixedDigital
  then to_i16 (c_compressionGaindB cfg + c_targetLevelDbfs cfg)
  else c_compressionGaindB cfg.

Lemma stored_gain_range mode cfg : i16 (c_compressionGaindB cfg) -> i16 (stored_gain mode cfg).
Proof. intros H. unfold stored_gain. destruct (_ =? _); [apply to_i16_range|done]. Qed.

Lemma stored_gain_effective mode cfg :
  0 <= c_targetLevelDbfs cfg <= 31 -> 0 <= c_compressionGaindB cfg <= 90 ->
  stored_gain mode cfg = effective_gain mode cfg /\ 0 <= effective_gain mode cfg <= 121.
Proof.
  intros Ht Hc. unfold stored_gain, effective_gain. rewrite to_i16_id by (unfold i16; lia).
  destruct (_ =? _); lia.
Qed.

(** The state with the settings of a configuration and the thresholds that follow from
    them. *)
Definition with_settings (cfg : WebRtcAgcConfig) (s : LegacyAgc) : LegacyAgc :=
  let g := stored_gain (agcMode s) cfg in
  with_thresholds (target_any (agcMode s) g)
    (s |> set_limiterEnable (c_limiterEnable cfg)
       |> set_targetLevelDbfs (c_targetLevelDbfs cfg)
       |> set_compressionGaindB g).

(** The state after an accepted configuration. *)
Definition with_config (cfg : WebRtcAgcConfig) (table : list Z) (s : LegacyAgc)
    : LegacyAgc :=
  let g := effective_gain (agcMode s) cfg in
  with_thresholds (target_spec (agcMode s) g)
    (s |> set_limiterEnable (c_limiterEnable cfg)
       |> set_targetLevelDbfs (c_targetLevelDbfs cfg)
       |> set_compressionGaindB g)
  |> set_digitalAgc (set_gainTable table (digitalAgc s))
  |> set_usedConfig cfg.

(** [apply_config] on a state that differs from [s] in the two fields already
    assigned, without the details of the table. *)
Lemma apply_config_any cfg s :
  i16 (c_compressionGaindB cfg) ->
  apply_config (set_compressionGaindB (c_compressionGaindB cfg)
                  (set_limiterEnable (c_limiterEnable cfg) s)) cfg =
  (let g := stored_gain (agcMode s) cfg in
   '(ret, table) ← WebRtcAgc_CalculateGainTable (gainTable (digitalAgc s)) g
                     (c_targetLevelDbfs cfg) (c_limiterEnable cfg) (target_any (agcMode s) g);
   let s' := set_digitalAgc (set_gainTable table (digitalAgc s)) (with_settings cfg s) in
   if ret =? -1 then Ok (-1, s') else Ok (0, set_usedConfig cfg s')).
Proof.
  intros Hc. unfold apply_config. cbv zeta.
  pose proof (stored_gain_range (agcMode s) cfg Hc) as Hg.
  set (g := stored_gain (agcMode s) cfg) in *.
  match goal with |- context [WebRtcAgc_UpdateAgcThresholds ?t] =>
    assert (Es : t = set_compressionGaindB g
      (set_targetLevelDbfs (c_targetLevelDbfs cfg)
        (set_limiterEnable (c_limiterEnable cfg) s))) end.
  { unfold g, stored_gain.
    match goal with |- (if ?b then _ else _) = _ =>
      change b with (agcMode s =? kAgcModeFixedDigital) end.
    destruct (agcMode s =? kAgcModeFixedDigital); reflexivity. }
  rewrite Es. clear Es.
  rewrite UpdateAgcThresholds_any by exact Hg. rewrite bind_ok.
  unfold with_settings. fold g. cbv zeta.
  set (Y := set_compressionGaindB g _).
  assert (Q1 : agcMode Y = agcMode s) by reflexivity.
  assert (Q2 : compressionGaindB Y = g) by reflexivity.
  rewrite Q1, Q2. set (X := with_thresholds _ _).
  assert (P1 : digitalAgc X = digitalAgc s) by reflexivity.
  assert (P2 : compressionGaindB X = g) by reflexivity.
  assert (P3 : targetLevelDbfs X = c_targetLevelDbfs cfg) by reflexivity.
  assert (P4 : limiterEnable X = c_limiterEnable cfg) by reflexivity.
  assert (P5 : analogTarget X = target_any (agcMode s) g) by reflexivity.
  rewrite P1, P2, P3, P4, P5.
  destruct (WebRtcAgc_CalculateGainTable _ _ _ _ _) as [[ret table]|f]; [|done].
  rewrite bind_ok. by destruct (ret =? -1).
Qed.

Lemma target_any_range mode c : i16 c -> i16 (target_any mode c).
Proof.
  intros Hc. unfold target_any. destruct (_ =? _); [done|]. pose proof (to_i16_range (5 * c + 5)).
  unfold i16 in *. Z.to_euclidean_division_equations. lia.
Qed.

Lemma set_digitalAgc_id s : set_digitalAgc (digitalAgc s) s = s.
Proof. by destruct s. Qed.

Lemma same_table cfg s :
  set_digitalAgc (set_gainTable (gainTable (digitalAgc s)) (digitalAgc s)) (with_settings cfg s) =
  with_settings cfg s.
Proof.
  assert (E : forall d, set_gainTable (gainTable d) d = d) by (by intros []). rewrite E.
  assert (P : digitalAgc (with_settings cfg s) = digitalAgc s) by reflexivity.
  rewrite <- P. apply set_digitalAgc_id.
Qed.

Lemma apply_config_eq s0 cfg s :
  s0 = set_compressionGaindB (c_compressionGaindB cfg)
         (set_limiterEnable (c_limiterEnable cfg) s) ->
  0 <= c_targetLevelDbfs cfg <= 31 -> 0 <= c_compressionGaindB cfg <= 90 ->
  apply_config s0 cfg =
  (let g := effective_gain (agcMode s) cfg in
   '(ret, table) ← WebRtcAgc_CalculateGainTable (gainTable (digitalAgc s)) g
                     (c_targetLevelDbfs cfg) (c_limiterEnable cfg)
                     (target_spec (agcMode s) g);
   if ret =? -1 then
     Ok (-1, set_digitalAgc (set_gainTable table (digitalAgc s)) (with_settings cfg s))
   else Ok (0, with_config cfg table s)).
Proof.
  intros -> Ht Hc. rewrite apply_config_any by (unfold i16; lia).
  unfold with_settings, with_config. destruct (stored_gain_effective (agcMode s) cfg Ht Hc) as [-> Hg].
  cbv zeta. by rewrite target_any_spec by lia.
Qed.

Lemma set_config_ok s cfg :
  initFlag s = kInitCheck -> config_ok cfg ->
  exists table,
    WebRtcAgc_set_config (Some s) cfg = Ok (0, Some (with_config cfg table s)) /\
    gain_table_ok (Z.max 7 (c_compressionGaindB cfg)) table.
Proof.
  intros Hi Hcfg. pose proof Hcfg as (Hl & Ht & Hc).
  unfold WebRtcAgc_set_config. rewrite Hi, Z.eqb_refl. cbn [negb].
  assert (El : negb (c_limiterEnable cfg =? kAgcFalse) &&
               negb (c_limiterEnable cfg =? kAgcTrue) = false)
    by (destruct Hl as [-> | ->]; done).
  rewrite El, !(proj2 (Z.ltb_ge _ _)) by lia. cbn [orb].
  pose proof (gain_params_mode (agcMode s) cfg Hcfg) as Hp.
  assert (Hg : 0 <= effective_gain (agcMode s) cfg <= 121)
    by (clear - Ht Hc; unfold effective_gain;
        destruct (agcMode s =? kAgcModeFixedDigital); lia).
  pose proof (wp_CalculateGainTable _ (gainTable (digitalAgc s)) _ _
                (c_limiterEnable cfg) _ Hp) as Hw.
  apply wp_ok in Hw as ([ret table] & E & -> & Htab).
  exists table. split; [|done].
  rewrite (apply_config_eq _ _ s) by (try reflexivity; by destruct Ht, Hc).
  cbv zeta. rewrite E, !bind_ok. reflexivity.
Qed.

(** * Theorems *)

(** C20: an accepted configuration (limiter flag 0 or 1, target level 0..31,
    compression gain 0..90 dB) on an initialised instance returns 0 without
    undefined behaviour, in every mode; it installs a complete gain table whose
    entries stay below 8.0 in Q16 up to 18 dB, and [WebRtcAgc_get_config] then
    returns exactly the configuration that was set. *)
Theorem set_config_get_config s cfg c0 :
  initFlag s = kInitCheck -> config_ok cfg ->
  exists s' table,
    WebRtcAgc_set_config (Some s) cfg = Ok (0, Some s') /\
    WebRtcAgc_get_config (Some s') (Some c0) = (0, Some s', Some cfg) /\
    gainTable (digitalAgc s') = table /\
    (if c_compressionGaindB cfg <=? 18 then table_range table
     else length table = 32%nat /\ Forall (fun g => 0 <= g < 2 ^ 31) table).
Proof.
  intros Hi Hcfg. destruct (set_config_ok s cfg Hi Hcfg) as (table & E & Ht).
  exists (with_config cfg table s), table. split_and!; [done| |done|].
  - unfold WebRtcAgc_get_config.
    assert (Hi' : initFlag (with_config cfg table s) = kInitCheck) by exact Hi.
    rewrite Hi'. reflexivity.
  - destruct (Z.leb_spec (c_compressionGaindB cfg) 18).
    + apply (gain_table_range (Z.max 7 (c_compressionGaindB cfg))); [lia|done].
    + destruct Ht as [Ht Hl]. split; [done|].
      eapply Forall_impl; [|exact Ht]. unfold gain_ok, octaves.
      rewrite (proj2 (Z.leb_gt _ _)) by lia. done.
Qed.

Definition default_config : WebRtcAgcConfig :=
  {| c_targetLevelDbfs := 3; c_compressionGaindB := 9; c_limiterEnable := 1 |}.

Lemma default_config_ok : config_ok default_config.
Proof. split; [by right|]. cbn. lia. Qed.

Lemma set_config_get_config_witness :
  let s := set_initFlag kInitCheck blank in
  exists s' table,
    WebRtcAgc_set_config (Some s) default_config = Ok (0, Some s') /\
    WebRtcAgc_get_config (Some s') (Some default_config) =
      (0, Some s', Some default_config) /\
    gainTable (digitalAgc s') = table /\ table_range table.
Proof.
  apply (set_config_get_config (set_initFlag kInitCheck blank) default_config
           default_config); [reflexivity|exact default_config_ok].
Defined.

(** C38: every rejection of [WebRtcAgc_set_config], and that there is no other.  A null
    instance returns -1; an uninitialised instance and a bad limiter flag return -1
    and change nothing but [lastError]; a bad target level also returns -1 with
    [lastError] set, but the limiter flag and the compression gain have already been
    overwritten.  A gain, with the target level added to it in the fixed digital mode, below
    -1 or above 191 dB is refused with -1 by the guard of the gain table, after all settings and
    thresholds were overwritten; the table, the configuration that [get_config] reports
    and [lastError] stay as they were.  With any other configuration the code, if the
    function returns, is 0. *)
Theorem set_config_rejects s cfg :
  WebRtcAgc_set_config None cfg = Ok (-1, None) /\
  (initFlag s <> kInitCheck ->
   WebRtcAgc_set_config (Some s) cfg =
     Ok (-1, Some (set_lastError AGC_UNINITIALIZED_ERROR s))) /\
  (initFlag s = kInitCheck ->
   (c_limiterEnable cfg <> kAgcFalse /\ c_limiterEnable cfg <> kAgcTrue ->
    WebRtcAgc_set_config (Some s) cfg =
      Ok (-1, Some (set_lastError AGC_BAD_PARAMETER_ERROR s))) /\
   (c_limiterEnable cfg = kAgcFalse \/ c_limiterEnable cfg = kAgcTrue ->
    (~ 0 <= c_targetLevelDbfs cfg <= 31 ->
     WebRtcAgc_set_config (Some s) cfg =
       Ok (-1, Some (set_lastError AGC_BAD_PARAMETER_ERROR
                      (set_compressionGaindB (c_compressionGaindB cfg)
                         (set_limiterEnable (c_limiterEnable cfg) s))))) /\
    (0 <= c_targetLevelDbfs cfg <= 31 -> i16 (c_compressionGaindB cfg) ->
     if (stored_gain (agcMode s) cfg <? -1) || (191 <? stored_gain (agcMode s) cfg)
     then WebRtcAgc_set_config (Some s) cfg = Ok (-1, Some (with_settings cfg s))
     else forall ret o, WebRtcAgc_set_config (Some s) cfg = Ok (ret, o) -> ret = 0))).
Proof.
  unfold WebRtcAgc_set_config. split; [done|]. split.
  { intros Hi. by rewrite (proj2 (Z.eqb_neq _ _) Hi). }
  intros ->. rewrite Z.eqb_refl. cbn [negb]. split.
  { intros [H0 H1]. by rewrite (proj2 (Z.eqb_neq _ _) H0), (proj2 (Z.eqb_neq _ _) H1). }
  intros Hl.
  assert (El : negb (c_limiterEnable cfg =? kAgcFalse) &&
               negb (c_limiterEnable cfg =? kAgcTrue) = false)
    by (destruct Hl as [-> | ->]; done).
  rewrite El. split; intros Ht.
  - destruct (Z.ltb_spec (c_targetLevelDbfs cfg) 0); [done|].
    destruct (Z.ltb_spec 31 (c_targetLevelDbfs cfg)); [done|lia].
  - intros Hc. rewrite (proj2 (Z.ltb_ge (c_targetLevelDbfs cfg) 0)),
      (proj2 (Z.ltb_ge 31 (c_targetLevelDbfs cfg))) by lia. cbn [orb].
    rewrite apply_config_any by done.
    pose proof (stored_gain_range (agcMode s) cfg Hc) as Hg. cbv zeta.
    pose proof (CalculateGainTable_guard (gainTable (digitalAgc s)) (stored_gain (agcMode s) cfg)
      (c_targetLevelDbfs cfg) (c_limiterEnable cfg) (target_any (agcMode s) (stored_gain (agcMode s) cfg))
      Hg ltac:(unfold i16; lia) (target_any_range _ _ Hg)) as G.
    destruct (_ || _).
    + rewrite G, !bind_ok. by rewrite same_table.
    + intros ret o (p & E1 & E2)%bind_inv. apply bind_inv in E1 as ([r table] & E1 & E3).
      rewrite (G r table E1) in E3. injection E3 as <-. by injection E2 as <- _.
Qed.

Lemma set_config_rejects_witness :
  let s := set_initFlag kInitCheck blank in
  let bad := {| c_targetLevelDbfs := 32; c_compressionGaindB := 9;
                c_limiterEnable := 1 |} in
  let loud := {| c_targetLevelDbfs := 3; c_compressionGaindB := 192;
                 c_limiterEnable := 1 |} in
  WebRtcAgc_set_config (Some s) bad =
    Ok (-1, Some (set_lastError AGC_BAD_PARAMETER_ERROR
                   (set_compressionGaindB 9 (set_limiterEnable 1 s)))) /\
  WebRtcAgc_set_config (Some s) loud = Ok (-1, Some (with_settings loud s)).
Proof.
  split.
  - apply (proj2 (proj2 (set_config_rejects (set_initFlag kInitCheck blank)
      {| c_targetLevelDbfs := 32; c_compressionGaindB := 9;
         c_limiterEnable := 1 |}))); [reflexivity|by right|cbn; lia].
  - apply (proj2 (proj2 (set_config_rejects (set_initFlag kInitCheck blank)
      {| c_targetLevelDbfs := 3; c_compressionGaindB := 192;
         c_limiterEnable := 1 |}))); [reflexivity|by right|cbn; lia|cbn; unfold i16; lia].
Defined.

(** The thresholds of the level controller do not depend on the
    configuration: the index into the target-level table is always 20, so the
    limits are strictly ordered around a target of -20 dBov (the comments of
    [analog_agc.h] describe limits around -22 dBfs); only the analog target of
    the digital part follows the compression gain. *)
Lemma thresholds_constant s :
  0 <= compressionGaindB s <= 6000 ->
  exists s', WebRtcAgc_UpdateAgcThresholds s = Ok s' /\ targetIdx s' = 20 /\
    0 < lowerSecondaryLimit s' < lowerPrimaryLimit s' /\
    lowerPrimaryLimit s' < startLowerLimit s' < analogTargetLevel s' /\
    analogTargetLevel s' < startUpperLimit s' < upperPrimaryLimit s' /\
    upperPrimaryLimit s' < upperSecondaryLimit s' /\
    analogTargetLevel s' = 10 * 1342095 /\
    analogTarget s' = target_spec (agcMode s) (compressionGaindB s).
Proof.
  intros Hc. eexists. split; [by apply UpdateAgcThresholds_eq|].
  split_and!; reflexivity.
Qed.

Lemma thresholds_constant_witness :
  exists s', WebRtcAgc_UpdateAgcThresholds blank = Ok s' /\ targetIdx s' = 20 /\
    0 < lowerSecondaryLimit s' < lowerPrimaryLimit s' /\
    lowerPrimaryLimit s' < startLowerLimit s' < analogTargetLevel s' /\
    analogTargetLevel s' < startUpperLimit s' < upperPrimaryLimit s' /\
    upperPrimaryLimit s' < upperSecondaryLimit s' /\
    analogTargetLevel s' = 10 * 1342095 /\
    analogTarget s' = target_spec (agcMode blank) (compressionGaindB blank).
Proof. apply (thresholds_constant blank). cbn. lia. Defined.
