(* ===== verification/Mic.v ===== *)
(** * Microphone input

    [WebRtcAgc_AddMic], [WebRtcAgc_VirtualMic], [WebRtcAgc_GetAddFarendError] and
    [WebRtcAgc_AddFarend] of [digital_agc/analog_agc.c].  The bands [in_mic] and
    [in_near] are modified in place: the functions return the new samples. *)
From S2P Require Import Prelude CInt Spl Vad GainTable Digital Instance.

(** ** Tables *)

Definition GAIN_TBL_LEN : Z := 32.

Definition kGainTableAnalog : list Z :=
  [4096; 4251; 4412; 4579;  4752;  4932;  5118;  5312;  5513;  5722; 5938;
   6163; 6396; 6638; 6889;  7150;  7420;  7701;  7992;  8295;  8609; 8934;
   9273; 9623; 9987; 10365; 10758; 11165; 11587; 12025; 12480; 12953].

Definition kGainTableVirtualMic : list Z :=
  [1052;  1081;  1110;  1141;  1172;  1204;  1237;  1271;  1305;  1341;  1378;
   1416;  1454;  1494;  1535;  1577;  1620;  1664;  1710;  1757;  1805;  1854;
   1905;  1957;  2010;  2065;  2122;  2180;  2239;  2301;  2364;  2428;  2495;
   2563;  2633;  2705;  2779;  2855;  2933;  3013;  3096;  3180;  3267;  3357;
   3449;  3543;  3640;  3739;  3842;  3947;  4055;  4166;  4280;  4397;  4517;
   4640;  4767;  4898;  5032;  5169;  5311;  5456;  5605;  5758;  5916;  6078;
   6244;  6415;  6590;  6770;  6956;  7146;  7341;  7542;  7748;  7960;  8178;
   8402;  8631;  8867;  9110;  9359;  9615;  9878;  10148; 10426; 10711; 11004;
   11305; 11614; 11932; 12258; 12593; 12938; 13292; 13655; 14029; 14412; 14807;
   15212; 15628; 16055; 16494; 16945; 17409; 17885; 18374; 18877; 19393; 19923;
   20468; 21028; 21603; 22194; 22801; 23425; 24065; 24724; 25400; 26095; 26808;
   27541; 28295; 29069; 29864; 30681; 31520; 32382].

Definition kSuppressionTableVirtualMic : list Z :=
  [1024; 1006; 988; 970; 952; 935; 918; 902; 886; 870; 854; 839; 824; 809; 794;
   780;  766;  752; 739; 726; 713; 700; 687; 675; 663; 651; 639; 628; 616; 605;
   594;  584;  573; 563; 553; 543; 533; 524; 514; 505; 496; 487; 478; 470; 461;
   453;  445;  437; 429; 421; 414; 406; 399; 392; 385; 378; 371; 364; 358; 351;
   345;  339;  333; 327; 321; 315; 309; 304; 298; 293; 288; 283; 278; 273; 268;
   263;  258;  254; 249; 244; 240; 236; 232; 227; 223; 219; 215; 211; 208; 204;
   200;  197;  193; 190; 186; 183; 180; 176; 173; 170; 167; 164; 161; 158; 155;
   153;  150;  147; 145; 142; 139; 137; 134; 132; 130; 127; 125; 123; 121; 118;
   116;  114;  112; 110; 108; 106; 104; 102].

(** ** AddMic *)

(** One sample times a Q12 gain, clamped. *)
Definition mic_sample (gain x : Z) : res Z :=
  p ← mul32 x gain;
  let sample := Z.shiftr p 12 in
  if 32767 <? sample then Ok 32767
  else if sample <? -32768 then Ok (-32768)
  else Ok (to_i16 sample).

(** The first [samples] samples of a band. *)
Definition over_samples (f : Z -> res Z) (samples : nat) (band : list Z)
    : res (list Z) :=
  xs ← take_exact samples band;
  ys ← map_res f xs;
  Ok (ys ++ drop samples band).

(** The table index moves one step towards the target. *)
Definition target_gain_idx (stt : LegacyAgc) : res Z :=
  d ← sub32 (micVol stt) (maxAnalog stt);
  tmp32 ← mul32 (GAIN_TBL_LEN - 1) (to_i16 d);
  d ← sub32 (maxLevel stt) (maxAnalog stt);
  q ← div32 tmp32 (to_i16 d);
  Ok (to_u16 q).

Definition step_gain_idx (idx target : Z) : Z :=
  if idx <? target then to_u16 (idx + 1)
  else if target <? idx then to_u16 (idx - 1)
  else idx.

(** Digital gain for a volume above the analog maximum; [None] is the early
    return with -1. *)
Definition slow_gain (stt : LegacyAgc) (in_mic : list (list Z)) (samples : nat)
    : res (option (LegacyAgc * list (list Z))) :=
  if maxAnalog stt <? micVol stt then
    if negb (maxAnalog stt <? maxLevel stt) then Ok None else
    targetGainIdx ← target_gain_idx stt;
    if negb (targetGainIdx <? GAIN_TBL_LEN) then Ok None else
    let stt := stt |> set_gainTableIdx
                        (step_gain_idx (gainTableIdx stt) targetGainIdx) in
    gain ← rd kGainTableAnalog (gainTableIdx stt);
    in_mic ← map_res (over_samples (mic_sample gain) samples) in_mic;
    Ok (Some (stt, in_mic))
  else Ok (Some (stt |> set_gainTableIdx 0, in_mic)).

(** Energies of five blocks of 16 samples: the low band is downsampled at 16 kHz
    and used as it is at the other rates. *)
Fixpoint mic_energies (n : nat) (i : nat) (rate : Z) (x filter : list Z)
    : res (list Z * list Z) :=
  match n with
  | O => Ok ([], filter)
  | S n' =>
      '(tmp_speech, filter) ←
        (if rate =? 16000
         then WebRtcSpl_DownsampleBy2 (drop (i * 32) x) 32 filter
         else t ← take_exact 16 (drop (i * 16) x); Ok (t, filter));
      e ← WebRtcSpl_DotProductWithScale tmp_speech tmp_speech 16 4;
      '(es, filter) ← mic_energies n' (S i) rate x filter;
      Ok (e :: es, filter)
  end.

(** Envelope and energies go to row 1 of their arrays when a frame is already
    queued, to row 0 otherwise. *)
Definition mic_measure (stt : LegacyAgc) (x : list Z) (L samples : nat)
    : res LegacyAgc :=
  env ← envelope 10 L x;
  '(es, filter) ← mic_energies 5 0 (fs stt) x (filterState stt);
  let stt := (if 0 <? inQueue stt
              then stt |> set_env1 env |> set_Rxx16w32_array1 es
              else stt |> set_env0 env |> set_Rxx16w32_array0 es)
             |> set_filterState filter
             |> set_inQueue (if inQueue stt =? 0 then 1 else 2) in
  '(vad, _) ← WebRtcAgc_ProcessVad (vadMic stt) x (Z.of_nat samples);
  Ok (stt |> set_vadMic vad).

Definition WebRtcAgc_AddMic (stt : LegacyAgc) (in_mic : list (list Z))
    (samples : nat) : res (Z * LegacyAgc * list (list Z)) :=
  let L := if fs stt =? 8000 then 8%nat else 16%nat in
  if negb (samples =? 10 * L)%nat then Ok (-1, stt, in_mic) else
  r ← slow_gain stt in_mic samples;
  match r with
  | None => Ok (-1, stt, in_mic)
  | Some (stt, in_mic) =>
      x ← rd in_mic 0;
      stt ← mic_measure stt x L samples;
      Ok (0, stt, in_mic)
  end.

(** The frame that [WebRtcAgc_AddMic] measures: the first band, amplified. *)
Definition mic_frame (stt : LegacyAgc) (in_mic : list (list Z)) (samples : nat) : list Z :=
  match slow_gain stt in_mic samples with
  | Ok (Some (_, x :: _)) => x
  | _ => []
  end.

(** ** Far end *)

Definition WebRtcAgc_GetAddFarendError (agcInst : option LegacyAgc)
    (samples : nat) : Z :=
  match agcInst with
  | None => -1
  | Some stt =>
      if fs stt =? 8000 then
        if negb (samples =? 80)%nat then -1 else 0
      else if (fs stt =? 16000) || (fs stt =? 32000) || (fs stt =? 48000) then
        if negb (samples =? 160)%nat then -1 else 0
      else -1
  end.

Definition WebRtcAgc_AddFarend (agcInst : option LegacyAgc) (in_far : list Z)
    (samples : nat) : res (Z * option LegacyAgc) :=
  let err := WebRtcAgc_GetAddFarendError agcInst samples in
  if negb (err =? 0) then Ok (err, agcInst) else
  match agcInst with
  | None => Fault NullPointer
  | Some stt =>
      '(ret, d) ← WebRtcAgc_AddFarendToDigital (Some (digitalAgc stt)) in_far
                    (Z.of_nat samples);
      Ok (ret, Some (stt |> set_digitalAgc (default (digitalAgc stt) d)))
  end.

(** ** VirtualMic *)

(** Energy (only until it reaches the limit) and zero crossings of the frame. *)
Fixpoint frame_activity (prev : Z) (xs : list Z) (limit nrg crossings : Z)
    : res (Z * Z) :=
  match xs with
  | [] => Ok (nrg, crossings)
  | x :: xs' =>
      nrg ← (if nrg <? limit then p ← mul32 x x; Ok (addu nrg (to_u32 p))
             else Ok nrg);
      let crossings :=
        to_i16 (crossings + (if Z.lxor x prev <? 0 then 1 else 0)) in
      frame_activity x xs' limit nrg crossings
  end.

Definition low_level_signal (rate : Z) (x : list Z) (samples : nat) : res Z :=
  limit ← (if negb (rate =? 8000) then shlu 5500 1 else Ok 5500);
  x0 ← rd x 0;
  p ← mul32 x0 x0;
  xs ← take_exact (samples - 1) (drop 1 x);
  '(frameNrg, numZeroCrossing) ← frame_activity x0 xs limit (to_u32 p) 0;
  Ok (if (frameNrg <? 500) || (numZeroCrossing <=? 5) then 1
      else if numZeroCrossing <=? 15 then 1
      else if frameNrg <=? limit then 1
      else if 20 <=? numZeroCrossing then 1
      else 0).

(** The gain of an index before the loop and inside it. *)
Definition vm_start_gain (gainIdx : Z) : res Z :=
  if 127 <? gainIdx then rd kGainTableVirtualMic (gainIdx - 128)
  else rd kSuppressionTableVirtualMic (127 - gainIdx).

Definition vm_loop_gain (gainIdx : Z) : res Z :=
  if 127 <=? gainIdx then rd kGainTableVirtualMic (gainIdx - 127)
  else rd kSuppressionTableVirtualMic (127 - gainIdx).

(** One sample of the first band: saturation moves the index one step down. *)
Definition vm_low_sample (gainIdx gain x : Z) : res (Z * Z * Z) :=
  p ← mul32 x gain;
  let tmpFlt := Z.shiftr p 10 in
  '(tmpFlt, gainIdx, gain) ←
    (if 32767 <? tmpFlt then
       i ← sub32 gainIdx 1; g ← vm_loop_gain i; Ok (32767, i, g)
     else Ok (tmpFlt, gainIdx, gain));
  '(tmpFlt, gainIdx, gain) ←
    (if tmpFlt <? -32768 then
       i ← sub32 gainIdx 1; g ← vm_loop_gain i; Ok (-32768, i, g)
     else Ok (tmpFlt, gainIdx, gain));
  Ok (gainIdx, gain, to_i16 tmpFlt).

(** The samples of the higher bands. *)
Definition vm_high_sample (gain x : Z) : res Z :=
  p ← mul32 x gain;
  let tmpFlt := Z.shiftr p 10 in
  let tmpFlt := if 32767 <? tmpFlt then 32767 else tmpFlt in
  let tmpFlt := if tmpFlt <? -32768 then -32768 else tmpFlt in
  Ok (to_i16 tmpFlt).

(** The loop over the samples; [highs] are the higher bands from the current
    sample on.  Returns the index, the low band and the higher bands. *)
Fixpoint vm_loop (gainIdx gain : Z) (low : list Z) (highs : list (list Z))
    : res (Z * list Z * list (list Z)) :=
  match low with
  | [] => Ok (gainIdx, [], map (fun _ => []) highs)
  | x :: low' =>
      '(gainIdx, gain, y) ← vm_low_sample gainIdx gain x;
      hs ← map_res (fun b => v ← rd b 0; vm_high_sample gain v) highs;
      '(gainIdx, ys, bs) ← vm_loop gainIdx gain low' (map (drop 1) highs);
      Ok (gainIdx, y :: ys, zip_with cons hs bs)
  end.

(** The physical level changed: restart from the mid point. *)
Definition vm_restart (stt : LegacyAgc) (micLevelTmp : Z) : LegacyAgc * Z :=
  let gainIdx := if maxAnalog stt <? micVol stt then maxAnalog stt
                 else micVol stt in
  if negb (micLevelTmp =? micRef stt)
  then (stt |> set_micRef micLevelTmp |> set_micVol 127 |> set_micGainIdx 127, 127)
  else (stt, gainIdx).

(** Everything up to the call of [WebRtcAgc_AddMic]: the instance, the bands and
    [*micLevelOut]. *)
Definition vm_apply (stt : LegacyAgc) (in_near : list (list Z)) (samples : nat)
    (micLevelIn : Z) : res (LegacyAgc * list (list Z) * Z) :=
  x ← rd in_near 0;
  low ← low_level_signal (fs stt) x samples;
  let stt := stt |> set_lowLevelSignal low in
  micLevelTmp ← shl32 micLevelIn (scale stt);
  let '(stt, gainIdx) := vm_restart stt micLevelTmp in
  gain ← vm_start_gain gainIdx;
  xs ← take_exact samples x;
  '(gainIdx, ys, bs) ← vm_loop gainIdx gain xs (drop 1 in_near);
  let in_near :=
    (ys ++ drop samples x) ::
    zip_with (fun b old => b ++ drop samples old) bs (drop 1 in_near) in
  let stt := stt |> set_micGainIdx gainIdx in
  micLevelOut ← shr32 (micGainIdx stt) (scale stt);
  Ok (stt, in_near, micLevelOut).

(** Returns the code, the instance, the bands and [*micLevelOut]. *)
Definition WebRtcAgc_VirtualMic (stt : LegacyAgc) (in_near : list (list Z))
    (samples : nat) (micLevelIn : Z)
    : res (Z * LegacyAgc * list (list Z) * Z) :=
  '(stt, in_near, micLevelOut) ← vm_apply stt in_near samples micLevelIn;
  '(ret, stt, in_near) ← WebRtcAgc_AddMic stt in_near samples;
  Ok (if negb (ret =? 0) then -1 else 0, stt, in_near, micLevelOut).

(** The frame that is measured after the virtual gain. *)
Definition vm_frame (stt : LegacyAgc) (in_near : list (list Z)) (samples : nat)
    (micLevelIn : Z) : list Z :=
  match vm_apply stt in_near samples micLevelIn with
  | Ok (stt, in_near, _) => mic_frame stt in_near samples
  | Fault _ => []
  end.

(** * Lemmas *)

(** ** Energy of a block *)

Lemma dot_self_range v n :
  samples16 v -> 0 <= dot_spec v v n 4 <= 67108864 * Z.of_nat n.
Proof.
  intros Hv. revert n. induction Hv as [|x v Hx Hv IH]; intros [|n]; cbn; try lia.
  specialize (IH n). unfold i16 in Hx.
  assert (0 <= x * x <= 1073741824) by nia.
  assert (0 <= Z.shiftr (x * x) 4 <= 67108864) by cint. lia.
Qed.

Lemma wp_block_energy v :
  samples16 v -> (16 <= length v)%nat ->
  wp (WebRtcSpl_DotProductWithScale v v 16 4) level_range.
Proof.
  intros Hv Hl. unfold WebRtcSpl_DotProductWithScale.
  rewrite dot_unrolled_eq_tail, dot_tail_spec; try done.
  wp_step. wp_step. pose proof (dot_self_range v 16 Hv).
  unfold WEBRTC_SPL_WORD32_MAX, WEBRTC_SPL_WORD32_MIN. wp_step.
  rewrite !(proj2 (Z.ltb_ge _ _)) by lia.
  rewrite to_i32_id by (unfold i32; lia). unfold level_range. lia.
Qed.

Lemma wp_mic_energies n i rate x filter :
  samples16 x -> filt_ok filter ->
  ((if (rate =? 16000)%Z then 32 else 16) * (i + n) <= length x)%nat ->
  wp (mic_energies n i rate x filter)
     (fun '(es, f') => Forall level_range es /\ length es = n /\ filt_ok f').
Proof.
  intros Hx. revert i filter. induction n as [|n IH]; intros i filter Hf Hl.
  { cbn. by split_and!; [constructor|..]. }
  cbn [mic_energies]. wp_step.
  apply (wp_mono _ (fun '(t, f') =>
    samples16 t /\ (16 <= length t)%nat /\ filt_ok f')).
  { destruct (rate =? 16000).
    - eapply wp_mono.
      { apply wp_DownsampleBy2; [by apply Forall_drop| |done].
        rewrite length_drop. change (2 * (32 / 2))%nat with 32%nat. lia. }
      intros [out f'] (H1 & H2 & H3). split_and!; [done| |done]. by rewrite H3.
    - wp_step. apply wp_take_exact; [rewrite length_drop; lia|]. wp_step.
      split_and!; [|rewrite length_take, length_drop; lia|done].
      by apply Forall_take, Forall_drop. }
  intros [t f'] (H1 & H2 & H3).
  wp_step. eapply wp_mono; [by apply wp_block_energy|]. intros e He.
  wp_step. eapply wp_mono; [apply IH; [done|lia]|].
  intros [es f2] (G1 & G2 & G3). wp_step. cbn. split_and!; auto.
Qed.

(** ** Slowly varying digital gain *)

Lemma wp_mic_sample g x : 0 <= g <= 12953 -> i16 x -> wp (mic_sample g x) i16.
Proof.
  intros Hg Hx. unfold mic_sample, i16 in *.
  wp_step. apply wp_mul32; [unfold i32; nia|].
  case_if; [wp_step; lia|]. case_if; [wp_step; lia|]. wp_step.
  apply to_i16_range.
Qed.

Lemma wp_over_samples f n b :
  band_ok n b -> (forall x, i16 x -> wp (f x) i16) ->
  wp (over_samples f n b)
     (fun b' => samples16 b' /\ length b' = length b).
Proof.
  intros [Hb Hl] Hf. unfold over_samples.
  wp_step. apply wp_take_exact; [done|].
  wp_step. eapply wp_mono; [apply (wp_map_res i16 i16); [by apply Forall_take|done]|].
  intros ys [H1 H2]. wp_step. rewrite length_app, H2, length_take, length_drop.
  split; [|lia]. apply Forall_app. split; [done|by apply Forall_drop].
Qed.

(** With the volume between the analog and the total maximum the target index is
    a valid index of the gain table. *)
Lemma wp_target_gain_idx s :
  maxAnalog s < micVol s <= maxLevel s -> 0 <= maxAnalog s ->
  maxLevel s <= 131071 -> maxLevel s - maxAnalog s <= 32767 ->
  wp (target_gain_idx s) (fun t => 0 <= t <= 31).
Proof.
  intros Hv H0 H1 H2. unfold target_gain_idx, GAIN_TBL_LEN.
  wp_step. wp_step. rewrite (to_i16_id (micVol s - _)) by (unfold i16; lia).
  wp_step. apply wp_mul32; [unfold i32; lia|]. wp_step. wp_step. wp_step.
  rewrite (to_i16_id (maxLevel s - _)) by (unfold i16; lia).
  assert (Hq : 0 <= Z.quot ((32 - 1) * (micVol s - maxAnalog s))
                     (maxLevel s - maxAnalog s) <= 31).
  { rewrite Z.quot_div_nonneg by lia. split; [apply Z.div_pos; lia|].
    apply Z.div_le_upper_bound; lia. }
  apply wp_div32; [lia|unfold i32; lia|]. wp_step.
  rewrite to_u16_id by (unfold u16; lia). exact Hq.
Qed.

Lemma step_gain_idx_range i t :
  0 <= i <= 31 -> 0 <= t <= 31 -> 0 <= step_gain_idx i t <= 31.
Proof.
  intros Hi Ht. unfold step_gain_idx.
  case_if; [rewrite to_u16_id by (unfold u16; lia); lia|].
  case_if; [rewrite to_u16_id by (unfold u16; lia); lia|lia].
Qed.

Lemma gain_table_analog_range : Forall (fun g => 0 <= g <= 12953) kGainTableAnalog.
Proof. repeat constructor; lia. Qed.

(** ** Virtual microphone *)

(** Index and gain agree: a gain above one is only in use at index 127 or
    higher, so an index is never decremented below 126. *)
Definition vm_ok (idx gain : Z) : Prop :=
  0 <= idx <= 255 /\ 0 <= gain <= 32382 /\ (1024 < gain -> 127 <= idx).

Lemma virtual_tables_range :
  Forall (fun g => 1024 < g <= 32382) kGainTableVirtualMic /\
  Forall (fun g => 0 <= g <= 1024) kSuppressionTableVirtualMic.
Proof. split; repeat constructor; lia. Qed.

Lemma wp_vm_start_gain idx :
  0 <= idx <= 255 -> wp (vm_start_gain idx) (vm_ok idx).
Proof.
  intros Hi. destruct virtual_tables_range as [H1 H2]. unfold vm_start_gain, vm_ok.
  case_if; [eapply wp_rd_Forall; [exact H1| |]|eapply wp_rd_Forall; [exact H2| |]];
    try (unfold zlen; cbn [length kGainTableVirtualMic kSuppressionTableVirtualMic];
         lia); cbv beta; lia.
Qed.

Lemma wp_vm_loop_gain idx :
  0 <= idx <= 254 -> wp (vm_loop_gain idx) (vm_ok idx).
Proof.
  intros Hi. destruct virtual_tables_range as [H1 H2]. unfold vm_loop_gain, vm_ok.
  case_if; [eapply wp_rd_Forall; [exact H1| |]|eapply wp_rd_Forall; [exact H2| |]];
    try (unfold zlen; cbn [length kGainTableVirtualMic kSuppressionTableVirtualMic];
         lia); cbv beta; lia.
Qed.

Lemma wp_vm_low_sample idx gain x :
  vm_ok idx gain -> i16 x ->
  wp (vm_low_sample idx gain x)
     (fun '(idx', gain', y) => vm_ok idx' gain' /\ i16 y /\ idx' <= idx).
Proof.
  intros (Hi & Hg & Hc) Hx. unfold i16 in Hx. unfold vm_low_sample.
  wp_step. apply wp_mul32; [unfold i32; nia|].
  assert (Hsat : 32767 < Z.shiftr (x * gain) 10 \/ Z.shiftr (x * gain) 10 < -32768 ->
                 127 <= idx).
  { intros H. apply Hc. destruct (Z.le_gt_cases gain 1024); [|lia].
    assert (-32768 * 1024 <= x * gain <= 32767 * 1024) by nia.
    remember (x * gain) as p. clear - H H1. cint. }
  remember (Z.shiftr (x * gain) 10) as t eqn:Et. clear Et.
  wp_step. destruct (Z.ltb_spec 32767 t).
  - wp_step. wp_step. wp_step. eapply wp_mono; [apply wp_vm_loop_gain; lia|].
    intros g Hgo. wp_step. wp_step. change (32767 <? -32768) with false. cbv iota.
    wp_step. wp_step. split; [exact Hgo|]. split; [apply to_i16_range|lia].
  - wp_step. wp_step. destruct (Z.ltb_spec t (-32768)).
    + wp_step. wp_step. wp_step. eapply wp_mono; [apply wp_vm_loop_gain; lia|].
      intros g Hgo. wp_step. wp_step.
      split; [exact Hgo|]. split; [apply to_i16_range|lia].
    + wp_step. wp_step. split; [unfold vm_ok; tauto|].
      split; [apply to_i16_range|lia].
Qed.

Lemma wp_vm_high_sample gain x :
  0 <= gain <= 32382 -> i16 x -> wp (vm_high_sample gain x) i16.
Proof.
  intros Hg Hx. unfold i16 in Hx. unfold vm_high_sample.
  wp_step. apply wp_mul32; [unfold i32; nia|]. wp_step. apply to_i16_range.
Qed.

Lemma zip_cons_ok n hs bs :
  Forall i16 hs -> Forall (fun b => samples16 b /\ length b = n) bs ->
  Forall (fun b => samples16 b /\ length b = S n) (zip_with cons hs bs).
Proof.
  intros Hhs. revert bs. induction Hhs as [|h hs Hh Hhs IH]; intros bs Hbs;
    [constructor|].
  destruct Hbs as [|b bs [Hb Hl] Hbs]; [constructor|]. cbn [zip_with].
  constructor; [|by apply IH]. split; [by constructor|cbn; lia].
Qed.

Lemma wp_vm_loop low highs idx gain :
  vm_ok idx gain -> samples16 low -> Forall (band_ok (length low)) highs ->
  wp (vm_loop idx gain low highs)
     (fun '(idx', ys, bs) => 0 <= idx' <= idx /\ samples16 ys /\
        length ys = length low /\ length bs = length highs /\
        Forall (fun b => samples16 b /\ length b = length low) bs).
Proof.
  intros Hvm Hlow. revert highs idx gain Hvm.
  induction Hlow as [|x low Hx Hlow IH]; intros highs idx gain Hvm Hh.
  { cbn [vm_loop]. wp_step. destruct Hvm as (Hi & _). split; [lia|].
    split; [constructor|]. split; [done|]. split; [by rewrite length_map|].
    apply Forall_map, Forall_true. intros ?. split; [constructor|done]. }
  cbn [vm_loop]. wp_step. eapply wp_mono; [by apply wp_vm_low_sample|].
  intros [[idx1 gain1] y] (Hvm1 & Hy & Hle). wp_step. eapply wp_mono.
  { apply (wp_map_res (band_ok (length (x :: low))) i16); [exact Hh|].
    intros b [Hb Hbl]. destruct b as [|v b]; [cbn in Hbl; lia|].
    wp_step. eapply wp_eq; [reflexivity|]. inversion Hb; subst.
    apply wp_vm_high_sample; [apply Hvm1|done]. }
  intros hs [Hhs Hhl]. wp_step. eapply wp_mono.
  { apply (IH (map (drop 1) highs)); [done|]. apply Forall_map.
    eapply Forall_impl; [|exact Hh]. intros b [Hb Hbl]. cbn [length] in Hbl.
    split; [by apply Forall_drop|rewrite length_drop; lia]. }
  intros [[idx2 ys] bs] (H1 & H2 & H3 & H4 & H5). rewrite length_map in H4. wp_step.
  split_and!; try lia; [by constructor|cbn; lia| |].
  - rewrite length_zip_with. lia.
  - by apply zip_cons_ok.
Qed.

Lemma wp_frame_activity prev xs limit nrg k :
  samples16 xs -> i16 prev -> 0 <= limit <= 11000 -> 0 <= nrg <= 1073752824 ->
  0 <= k -> k + zlen xs <= 32767 ->
  wp (frame_activity prev xs limit nrg k) (fun _ => True).
Proof.
  intros Hxs. revert prev nrg k. induction Hxs as [|x xs Hx Hxs IH];
    intros prev nrg k Hp Hl Hn Hk Hz; [done|].
  assert (Ez : zlen (x :: xs) = zlen xs + 1) by (unfold zlen; cbn [length]; lia).
  pose proof (zlen_nonneg xs). cbn [frame_activity]. wp_step.
  apply (wp_mono _ (fun n => 0 <= n <= 1073752824)).
  { case_if; [|by wp_step]. unfold i16 in Hx.
    assert (0 <= x * x <= 1073741824) by nia.
    wp_step. apply wp_mul32; [unfold i32; lia|]. wp_step. unfold addu.
    rewrite (to_u32_id (x * x)) by (unfold u32; lia).
    rewrite to_u32_id by (unfold u32; lia). lia. }
  intros n Hn'. destruct (Z.ltb_spec (Z.lxor x prev) 0);
    rewrite to_i16_id by (unfold i16; lia); apply IH; done || lia.
Qed.

Lemma wp_low_level_signal rate x n :
  band_ok n x -> (1 <= n <= 160)%nat ->
  wp (low_level_signal rate x n) (fun r => r = 0 \/ r = 1).
Proof.
  intros [Hx Hl] Hn. unfold low_level_signal.
  wp_step. apply (wp_mono _ (fun l => 0 <= l <= 11000)).
  { case_if; vm_compute; split; discriminate. }
  intros limit Hlim. destruct x as [|x0 x]; [cbn in Hl; lia|].
  inversion Hx as [|? ? H0 Hx']; subst. cbn [length] in Hl.
  wp_step. eapply wp_eq; [reflexivity|]. unfold i16 in H0.
  assert (0 <= x0 * x0 <= 1073741824) by nia.
  wp_step. apply wp_mul32; [unfold i32; lia|].
  wp_step. apply wp_take_exact; [rewrite length_drop; cbn [length]; lia|].
  wp_step. eapply wp_mono.
  { apply wp_frame_activity; [by apply Forall_take, (Forall_drop _ 1)| |lia| |lia|].
    - unfold i16. lia.
    - rewrite to_u32_id by (unfold u32; lia). lia.
    - unfold zlen. rewrite length_take, length_drop. cbn [length]. lia. }
  intros [nrg zc] _. wp_step. repeat case_if; auto.
Qed.

(** * Theorems *)

(** The virtual microphone never reads outside its gain tables: from any
    start index 0..255, whatever the samples, the loop over a frame ends with an
    index between 0 and the start index, with 16-bit samples in every band; an
    index that saturation could still lower is at least 127. *)
Lemma virtual_mic_index_safe idx low highs :
  0 <= idx <= 255 -> samples16 low -> Forall (band_ok (length low)) highs ->
  exists gain idx' ys bs,
    vm_start_gain idx = Ok gain /\ vm_loop idx gain low highs = Ok (idx', ys, bs) /\
    0 <= idx' <= idx /\ samples16 ys /\ length ys = length low /\
    Forall (fun b => samples16 b /\ length b = length low) bs.
Proof.
  intros Hi Hl Hh.
  destruct (proj1 (wp_ok _ _) (wp_vm_start_gain idx Hi)) as (gain & Eg & Hvm).
  destruct (proj1 (wp_ok _ _) (wp_vm_loop low highs idx gain Hvm Hl Hh))
    as ([[idx' ys] bs] & E & H1 & H2 & H3 & _ & H5).
  exists gain, idx', ys, bs. split_and!; done || lia.
Qed.

(** The two look-ups of the virtual microphone gain disagree by one entry: the
    start gain of an index above 127 is table entry [idx - 128], the gain after a
    decrement is entry [idx - 127], so the first step down after a saturated
    sample leaves the gain unchanged. *)
Lemma virtual_mic_first_step_keeps_gain idx :
  128 <= idx <= 255 -> vm_loop_gain (idx - 1) = vm_start_gain idx.
Proof.
  intros Hi. unfold vm_loop_gain, vm_start_gain.
  rewrite (proj2 (Z.leb_le 127 (idx - 1))) by lia.
  rewrite (proj2 (Z.ltb_lt 127 idx)) by lia.
  by replace (idx - 1 - 127) with (idx - 128) by lia.
Qed.

Lemma mic_energies_prefix n i rate x y filter :
  rate <> 16000 -> take (16 * (i + n)) x = take (16 * (i + n)) y ->
  mic_energies n i rate x filter = mic_energies n i rate y filter.
Proof.
  intros Hr. revert i filter. induction n as [|n IH]; intros i filter E; [done|].
  cbn [mic_energies]. rewrite (proj2 (Z.eqb_neq _ _) Hr). cbv iota.
  assert (Et : take_exact 16 (drop (i * 16) x) = take_exact 16 (drop (i * 16) y)).
  { assert (Ex : forall l : list Z, take_exact 16 (drop (i * 16) l) =
        take_exact 16 (drop (i * 16) (take (16 * (i + S n)) l))).
    { intros l. unfold take_exact. rewrite !length_drop, length_take.
      rewrite skipn_firstn_comm, firstn_firstn.
      replace (16 `min` (16 * (i + S n) - i * 16))%nat with 16%nat by lia.
      destruct (Nat.leb_spec 16 (length l - i * 16)),
        (Nat.leb_spec 16 ((16 * (i + S n)) `min` length l - i * 16)); done || lia. }
    by rewrite (Ex x), (Ex y), E. }
  rewrite Et. destruct (take_exact 16 (drop (i * 16) y)) as [t|]; cbn [mbind res_bind]; [|done].
  destruct (WebRtcSpl_DotProductWithScale t t 16 4); cbn [mbind res_bind]; [|done].
  rewrite (IH (S i) filter); [done|]. by replace (S i + n)%nat with (i + S n)%nat by lia.
Qed.

(** At 32 and 48 kHz the microphone energies ignore the second half of the
    frame: the low band has 160 samples, but only the first 80 are used (the
    downsampling that covers all of them is done at 16 kHz only). *)
Lemma mic_energy_half_frame rate x y filter :
  rate <> 16000 -> take 80 x = take 80 y ->
  mic_energies 5 0 rate x filter = mic_energies 5 0 rate y filter.
Proof. intros Hr E. by apply mic_energies_prefix. Qed.
