(* ===== verification/Analog.v ===== *)
(** * Analog level control

    [WebRtcAgc_SaturationCtrl], [WebRtcAgc_ZeroCtrl],
    [WebRtcAgc_SpeakerInactiveCtrl], [WebRtcAgc_ExpCurve],
    [WebRtcAgc_ProcessAnalog] and [WebRtcAgc_Process] of
    [digital_agc/analog_agc.c]: from the energies of the microphone signal and
    the VAD decision the controller derives the next recording level. *)
From S2P Require Import Prelude CInt Spl Vad GainTable Digital Instance Mic.

(** ** Tables *)

Definition kSlope1 : list Z := [21793; 12517; 7189; 4129; 2372; 1362; 472; 78].
Definition kOffset1 : list Z :=
  [25395; 23911; 22206; 20737; 19612; 18805; 17951; 17367].
Definition kSlope2 : list Z := [2063; 1731; 1452; 1218; 1021; 857; 597; 337].
Definition kOffset2 : list Z :=
  [18432; 18379; 18290; 18177; 18052; 17920; 17670; 17286].

(** ** Controls *)

(** Adds the loud envelope values ([> 875] in Q-20) to the 16-bit sum. *)
Definition env_sum_step (sum e : Z) : Z :=
  let tmpW16 := to_i16 (Z.shiftr e 20) in
  if 875 <? tmpW16 then to_i16 (sum + tmpW16) else sum.

(** Returns the new [saturated] flag too. *)
Definition WebRtcAgc_SaturationCtrl (stt : LegacyAgc) (saturated : Z)
    (env : list Z) : res (LegacyAgc * Z) :=
  es ← take_exact 10 env;
  let sum := foldl env_sum_step (envSum stt) es in
  let '(sum, saturated) := if 25000 <? sum then (0, 1) else (sum, saturated) in
  p ← mul32 sum 32440;
  Ok (stt |> set_envSum (to_i16 (Z.shiftr p 15)), saturated).

Definition zero_ctrl_raise (stt : LegacyAgc) (inMicLevel : Z)
    : res (LegacyAgc * Z) :=
  s ← add32 (maxAnalog stt) (minLevel stt);
  s ← add32 s 1;
  midVal ← div32 s 2;
  '(stt, inMicLevel) ←
    (if inMicLevel <? midVal then
       p ← mul32 1126 inMicLevel;
       let inMicLevel := WEBRTC_SPL_MIN (Z.shiftr p 10) (zeroCtrlMax stt) in
       Ok (stt |> set_micVol inMicLevel, inMicLevel)
     else Ok (stt, inMicLevel));
  Ok (stt |> set_activeSpeech 0 |> set_Rxx16_LPw32Max 0
          |> set_muteGuardMs kMuteGuardTimeMs, inMicLevel).

Definition WebRtcAgc_ZeroCtrl (stt : LegacyAgc) (inMicLevel : Z)
    (env : list Z) : res (LegacyAgc * Z) :=
  es ← take_exact 10 env;
  tmp ← each add64 0 es;
  let stt := stt |> set_msZero (if tmp <? 500 then to_i16 (msZero stt + 10)
                                else 0) in
  let stt := if 0 <? muteGuardMs stt
             then stt |> set_muteGuardMs (to_i16 (muteGuardMs stt - 10))
             else stt in
  if 500 <? msZero stt then zero_ctrl_raise (stt |> set_msZero 0) inMicLevel
  else Ok (stt, inMicLevel).

Definition WebRtcAgc_SpeakerInactiveCtrl (stt : LegacyAgc) : res LegacyAgc :=
  let std := stdLongTerm (vadMic stt) in
  if std <? 2500 then Ok (stt |> set_vadThreshold 1500)
  else
    vadThresh ←
      (if std <? 4500 then
         d ← sub32 4500 std;
         q ← div32 d 2;
         Ok (to_i16 (kNormalVadThreshold + q))
       else Ok kNormalVadThreshold);
    p ← mul32 31 (vadThreshold stt);
    tmp32 ← add32 vadThresh p;
    Ok (stt |> set_vadThreshold (to_i16 (Z.shiftr tmp32 5))).

Definition WebRtcAgc_ExpCurve (volume : Z) : Z :=
  if 5243 <? volume then
    if 7864 <? volume then (if 12124 <? volume then 7 else 6)
    else (if 6554 <? volume then 5 else 4)
  else
    if 2621 <? volume then (if 3932 <? volume then 3 else 2)
    else (if 1311 <? volume then 1 else 0).

(** ** ProcessAnalog

    [inMic] is [inMicLevelTmp]. *)

(** Ten percent of the range above the minimum. *)
Definition ten_percent (stt : LegacyAgc) : res Z :=
  d ← sub32 (maxLevel stt) (minLevel stt);
  p ← mul32 d 51;
  add32 (minLevel stt) (Z.shiftr p 9).

Definition pa_first_call (stt : LegacyAgc) (inMic : Z) : res (LegacyAgc * Z) :=
  if firstCall stt =? 0 then
    tmpVol ← ten_percent stt;
    let inMic := if (inMic <? tmpVol) && (agcMode stt =? kAgcModeAdaptiveAnalog)
                 then tmpVol else inMic in
    Ok (stt |> set_firstCall 1 |> set_micVol inMic, inMic)
  else Ok (stt, inMic).

(** Reconciles the level read from the device with the level requested last. *)
Definition pa_manual (stt : LegacyAgc) (inMicLevel inMic : Z)
    : res (LegacyAgc * Z) :=
  let inMic := if (inMic =? maxAnalog stt) && (maxAnalog stt <? micVol stt)
               then micVol stt else inMic in
  '(stt, inMic) ←
    (if negb (inMic =? micVol stt) && (inMic <? minOutput stt) then
       v ← ten_percent stt;
       Ok (stt |> set_micVol v, v)
     else Ok (stt, inMic));
  let '(stt, inMic) :=
    if negb (inMic =? micVol stt) then
      if inMicLevel =? lastInMicLevel stt then (stt, micVol stt)
      else (stt |> set_micVol inMic, inMic)
    else (stt, inMic) in
  let stt := if maxLevel stt <? inMic then stt |> set_maxLevel inMic else stt in
  Ok (stt |> set_lastInMicLevel inMicLevel, inMic).

(** [minLevel + (weight * (level - minLevel) >> sh)], in [uint32_t]. *)
Definition scale_level (weight sh : Z) (stt : LegacyAgc) (inMic : Z) : res Z :=
  tmp32 ← sub32 inMic (minLevel stt);
  let tmpU32 := WEBRTC_SPL_UMUL weight tmp32 in
  Ok (to_i32 (addu (Z.shiftr tmpU32 sh) (to_u32 (minLevel stt)))).

(** A lower level, at least [step] below the last one. *)
Definition lower_level (weight step : Z) (stt : LegacyAgc)
    (inMic lastMicVol : Z) : res (LegacyAgc * Z) :=
  v ← scale_level weight 15 stt inMic;
  t ← sub32 lastMicVol step;
  let v := if t <? v then t else v in
  Ok (stt |> set_micVol v, v).

(** The signal is saturated; returns [*saturationWarning] too. *)
Definition pa_saturated (stt : LegacyAgc) (inMic lastMicVol warning : Z)
    : res (LegacyAgc * Z * Z) :=
  q ← div32 (Rxx160_LPw32 stt) 8;
  r ← mul32 q 7;
  let stt := stt |> set_Rxx160_LPw32 r |> set_zeroCtrlMax (micVol stt) in
  '(stt, inMic) ← lower_level 29591 2 stt inMic lastMicVol;
  let warning := if micVol stt <? minOutput stt then 1 else warning in
  Ok (stt |> set_msTooHigh (-100) |> set_activeSpeech 0 |> set_Rxx16_LPw32Max 0
          |> set_msecSpeechInnerChange kMsecSpeechInner
          |> set_msecSpeechOuterChange kMsecSpeechOuter
          |> set_changeToSlowMode 0 |> set_muteGuardMs 0
          |> set_upperLimit (startUpperLimit stt)
          |> set_lowerLimit (startLowerLimit stt), inMic, warning).

(** Energies: the frame energy over the circular buffer and the low-passed
    subframe energy. *)
Definition pa_energy (i : Z) (stt : LegacyAgc) : res LegacyAgc :=
  Rxx16w32 ← rd (Rxx16w32_array0 stt) i;
  old ← rd (Rxx16_vectorw32 stt) (Rxx16pos stt);
  d ← sub32 Rxx16w32 old;
  r ← add32 (Rxx160w32 stt) (Z.shiftr d 3);
  v ← wr (Rxx16_vectorw32 stt) (Rxx16pos stt) Rxx16w32;
  let pos := to_i16 (Rxx16pos stt + 1) in
  let pos := if pos =? RXX_BUFFER_LEN then 0 else pos in
  d ← sub32 Rxx16w32 (Rxx16_LPw32 stt);
  t ← shr32 d kAlphaShortTerm;
  lp ← add32 (Rxx16_LPw32 stt) t;
  Ok (stt |> set_Rxx160w32 r |> set_Rxx16_vectorw32 v |> set_Rxx16pos pos
          |> set_Rxx16_LPw32 lp).

(** Speech: the first 250 ms look for the largest subframe energy; the long-term
    energy follows. *)
Definition pa_speech_level (stt : LegacyAgc) : res LegacyAgc :=
  stt ←
    (if activeSpeech stt <? 250 then
       let stt := stt |> set_activeSpeech (to_i16 (activeSpeech stt + 2)) in
       Ok (if Rxx16_LPw32Max stt <? Rxx16_LPw32 stt
           then stt |> set_Rxx16_LPw32Max (Rxx16_LPw32 stt) else stt)
     else if activeSpeech stt =? 250 then
       let stt := stt |> set_activeSpeech (to_i16 (activeSpeech stt + 2)) in
       p ← mul32 (Z.shiftr (Rxx16_LPw32Max stt) 3) RXX_BUFFER_LEN;
       Ok (stt |> set_Rxx160_LPw32 p)
     else Ok stt);
  d ← sub32 (Rxx160w32 stt) (Rxx160_LPw32 stt);
  t ← shr32 d kAlphaLongTerm;
  lp ← add32 (Rxx160_LPw32 stt) t;
  Ok (stt |> set_Rxx160_LPw32 lp).

(** [maxLevel] moves towards the volume, but not below the analog maximum. *)
Definition reduce_max_level (stt : LegacyAgc) : res LegacyAgc :=
  p ← mul32 15 (maxLevel stt);
  s ← add32 p (micVol stt);
  q ← div32 s 16;
  Ok (stt |> set_maxLevel (WEBRTC_SPL_MAX q (maxAnalog stt))
          |> set_zeroCtrlMax (micVol stt)).

(** Above the secondary upper limit. *)
Definition pa_far_too_high (stt : LegacyAgc) (inMic lastMicVol : Z)
    : res (LegacyAgc * Z) :=
  let stt := stt |> set_msTooHigh (to_i16 (msTooHigh stt + 2))
                 |> set_msTooLow 0 |> set_changeToSlowMode 0 in
  if msecSpeechOuterChange stt <? msTooHigh stt then
    let stt := stt |> set_msTooHigh 0 in
    lp ← mul32 (Z.shiftr (Rxx160_LPw32 stt) 6) 53;
    stt ← reduce_max_level (stt |> set_Rxx160_LPw32 lp);
    '(stt, inMic) ← lower_level 31130 1 stt inMic lastMicVol;
    Ok (stt |> set_activeSpeech 0 |> set_Rxx16_LPw32Max 0, inMic)
  else Ok (stt, inMic).

(** Above the upper limit. *)
Definition pa_too_high (stt : LegacyAgc) (inMic lastMicVol : Z)
    : res (LegacyAgc * Z) :=
  let stt := stt |> set_msTooHigh (to_i16 (msTooHigh stt + 2))
                 |> set_msTooLow 0 |> set_changeToSlowMode 0 in
  if msecSpeechInnerChange stt <? msTooHigh stt then
    let stt := stt |> set_msTooHigh 0 in
    q ← div32 (Rxx160_LPw32 stt) 64;
    lp ← mul32 q 53;
    stt ← reduce_max_level (stt |> set_Rxx160_LPw32 lp);
    lower_level 31621 1 stt inMic lastMicVol
  else Ok (stt, inMic).

(** The volume in Q14 of the initial range, as [int16_t]. *)
Definition vol_norm (stt : LegacyAgc) (inMic : Z) : res Z :=
  d ← sub32 inMic (minLevel stt);
  tmp32 ← shl32 d 14;
  if negb (maxInit stt =? minLevel stt) then
    d ← sub32 (maxInit stt) (minLevel stt);
    q ← div32 tmp32 d;
    Ok (to_i16 q)
  else Ok 16384.

(** The weight of the increase: a piecewise linear curve. *)
Definition raise_weight (offset slope : list Z) (volNormFIX : Z) : res Z :=
  let index := WebRtcAgc_ExpCurve volNormFIX in
  o ← rd offset index;
  k ← rd slope index;
  p ← mul32 k volNormFIX;
  w ← sub32 o (to_i16 (Z.shiftr p 13));
  Ok (to_i16 w).

(** Below a lower limit: with the curve and the step of the limit. *)
Definition pa_raise (offset slope : list Z) (step : Z) (stt : LegacyAgc)
    (inMic lastMicVol : Z) : res (LegacyAgc * Z) :=
  let stt := stt |> set_msTooLow 0 in
  volNormFIX ← vol_norm stt inMic;
  weightFIX ← raise_weight offset slope volNormFIX;
  q ← div32 (Rxx160_LPw32 stt) 64;
  lp ← mul32 q 67;
  let stt := stt |> set_Rxx160_LPw32 lp in
  v ← scale_level weightFIX 14 stt inMic;
  t ← add32 lastMicVol step;
  let v := if v <? t then t else v in
  Ok (stt |> set_micVol v, v).

Definition pa_far_too_low (stt : LegacyAgc) (inMic lastMicVol : Z)
    : res (LegacyAgc * Z) :=
  let stt := stt |> set_msTooHigh 0 |> set_changeToSlowMode 0
                 |> set_msTooLow (to_i16 (msTooLow stt + 2)) in
  if msecSpeechOuterChange stt <? msTooLow stt
  then pa_raise kOffset1 kSlope1 2 stt inMic lastMicVol
  else Ok (stt, inMic).

Definition pa_too_low (stt : LegacyAgc) (inMic lastMicVol : Z)
    : res (LegacyAgc * Z) :=
  let stt := stt |> set_msTooHigh 0 |> set_changeToSlowMode 0
                 |> set_msTooLow (to_i16 (msTooLow stt + 2)) in
  if msecSpeechInnerChange stt <? msTooLow stt
  then pa_raise kOffset2 kSlope2 1 stt inMic lastMicVol
  else Ok (stt, inMic).

(** Inside the desired range. *)
Definition pa_in_range (stt : LegacyAgc) (inMic : Z) : LegacyAgc :=
  let stt :=
    if 4000 <? changeToSlowMode stt then
      stt |> set_msecSpeechInnerChange 1000 |> set_msecSpeechOuterChange 500
          |> set_upperLimit (upperPrimaryLimit stt)
          |> set_lowerLimit (lowerPrimaryLimit stt)
    else stt |> set_changeToSlowMode (to_i16 (changeToSlowMode stt + 2)) in
  stt |> set_msTooLow 0 |> set_msTooHigh 0 |> set_micVol inMic.

Definition pa_adapt (lastMicVol : Z) (stt : LegacyAgc) (inMic : Z)
    : res (LegacyAgc * Z) :=
  if upperSecondaryLimit stt <? Rxx160_LPw32 stt
  then pa_far_too_high stt inMic lastMicVol
  else if upperLimit stt <? Rxx160_LPw32 stt
  then pa_too_high stt inMic lastMicVol
  else if Rxx160_LPw32 stt <? lowerSecondaryLimit stt
  then pa_far_too_low stt inMic lastMicVol
  else if Rxx160_LPw32 stt <? lowerLimit stt
  then pa_too_low stt inMic lastMicVol
  else Ok (pa_in_range stt inMic, inMic).

(** One of the five blocks of 16 samples. *)
Definition pa_block (vadLogRatio lastMicVol i : Z) (s : LegacyAgc * Z)
    : res (LegacyAgc * Z) :=
  let '(stt, inMic) := s in
  stt ← pa_energy i stt;
  if vadThreshold stt <? vadLogRatio then
    stt ← pa_speech_level stt;
    pa_adapt lastMicVol stt inMic
  else Ok (stt, inMic).

(** No increase in the presence of echo or after a mute event; then the volume
    is limited to the allowed range. *)
Definition pa_limit (stt : LegacyAgc) (lastMicVol echo : Z) : LegacyAgc :=
  let stt :=
    if (echo =? 1) || ((0 <? muteGuardMs stt) &&
                       (muteGuardMs stt <? kMuteGuardTimeMs))
    then (if lastMicVol <? micVol stt then stt |> set_micVol lastMicVol else stt)
    else stt in
  if maxLevel stt <? micVol stt then stt |> set_micVol (maxLevel stt)
  else if micVol stt <? minOutput stt then stt |> set_micVol (minOutput stt)
  else stt.

(** The part after the level has been reconciled. *)
Definition pa_control (stt : LegacyAgc) (inMic vadLogRatio echo warning : Z)
    : res (LegacyAgc * Z) :=
  let lastMicVol := micVol stt in
  '(stt, saturated) ← WebRtcAgc_SaturationCtrl stt 0 (env0 stt);
  '(stt, inMic, warning) ←
    (if saturated =? 1 then pa_saturated stt inMic lastMicVol warning
     else Ok (stt, inMic, warning));
  '(stt, inMic) ← WebRtcAgc_ZeroCtrl stt inMic (env0 stt);
  stt ← WebRtcAgc_SpeakerInactiveCtrl stt;
  '(stt, _) ← for_ 5 0 (pa_block vadLogRatio lastMicVol) (stt, inMic);
  Ok (pa_limit stt lastMicVol echo, warning).

(** Returns the code, the instance, [*outMicLevel] and [*saturationWarning]. *)
Definition WebRtcAgc_ProcessAnalog (stt : LegacyAgc)
    (inMicLevel outMicLevel vadLogRatio echo warning : Z)
    : res (Z * LegacyAgc * Z * Z) :=
  inMic ← shl32 inMicLevel (scale stt);
  if maxAnalog stt <? inMic then Ok (-1, stt, outMicLevel, warning)
  else if inMic <? minLevel stt then Ok (-1, stt, outMicLevel, warning)
  else
    '(stt, inMic) ← pa_first_call stt inMic;
    '(stt, inMic) ← pa_manual stt inMicLevel inMic;
    '(stt, warning) ← pa_control stt inMic vadLogRatio echo warning;
    out ← shr32 (WEBRTC_SPL_MIN (micVol stt) (maxAnalog stt)) (scale stt);
    Ok (0, stt, out, warning).

(** ** Process *)

(** The second half of a queued pair of frames moves to the front. *)
Definition advance_queue (stt : LegacyAgc) : LegacyAgc :=
  let stt := if 1 <? inQueue stt
             then stt |> set_env0 (env1 stt)
                      |> set_Rxx16w32_array0 (Rxx16w32_array1 stt)
             else stt in
  if 0 <? inQueue stt then stt |> set_inQueue (to_i16 (inQueue stt - 1)) else stt.

Definition analog_runs (stt : LegacyAgc) : bool :=
  (agcMode stt <? kAgcModeFixedDigital) &&
  ((lowLevelSignal stt =? 0) || negb (agcMode stt =? kAgcModeAdaptiveDigital)).

(** The number of samples the rate asks for. *)
Definition frame_length_ok (rate : Z) (samples : nat) : bool :=
  if rate =? 8000 then (samples =? 80)%nat
  else if (rate =? 16000) || (rate =? 32000) || (rate =? 48000)
  then (samples =? 160)%nat
  else false.

(** Everything a call of [WebRtcAgc_Process] leaves behind. *)
Record process_result := PResult {
  p_ret : Z; p_agc : option LegacyAgc; p_out : list (list Z);
  p_level : Z; p_warning : Z
}.

Definition WebRtcAgc_Process (agcInst : option LegacyAgc)
    (in_near : list (list Z)) (samples : nat) (out : list (list Z))
    (inMicLevel outMicLevel echo saturationWarning : Z) : res process_result :=
  match agcInst with
  | None => Ok (PResult (-1) None out outMicLevel saturationWarning)
  | Some stt =>
      if negb (frame_length_ok (fs stt) samples)
      then Ok (PResult (-1) (Some stt) out outMicLevel saturationWarning) else
      '(ret, d, out) ← WebRtcAgc_ProcessDigital (digitalAgc stt) in_near out
                         (fs stt) (lowLevelSignal stt);
      let stt := stt |> set_digitalAgc d in
      if ret =? -1 then Ok (PResult (-1) (Some stt) out inMicLevel 0) else
      '(ret, stt, level, warning) ←
        (if analog_runs stt then
           WebRtcAgc_ProcessAnalog stt inMicLevel inMicLevel
             (logRatio (vadMic stt)) echo 0
         else Ok (0, stt, inMicLevel, 0));
      if ret =? -1 then Ok (PResult (-1) (Some stt) out level warning)
      else Ok (PResult 0 (Some (advance_queue stt)) out level warning)
  end.

(** * Lemmas *)

(** ** Sums over the circular buffer *)

Lemma zsum_range l :
  Forall level_range l -> 0 <= zsum l <= 1073741824 * zlen l.
Proof.
  intros H. pose proof (zsum_bounds 0 1073741824 level_range l (fun _ Hx => Hx) H). lia.
Qed.

(** ** The invariant of the level controller *)

(** The thresholds are constants of the code. *)
Record limits_ok (s : LegacyAgc) : Prop := {
  lim_us : upperSecondaryLimit s = 42440780;
  lim_ls : lowerSecondaryLimit s = 4244080;
  lim_su : startUpperLimit s = 16895980;
  lim_sl : startLowerLimit s = 10660640;
  lim_up : upperPrimaryLimit s = 21270780;
  lim_lp : lowerPrimaryLimit s = 8468050;
  lim_u : 16895980 <= upperLimit s <= 21270780;
  lim_l : 8468050 <= lowerLimit s <= 10660640
}.

(** The fields the controller only reads or does not touch. *)
Definition untouched (s : LegacyAgc) :=
  ((minLevel s, maxAnalog s, maxInit s, minOutput s, scale s, agcMode s, fs s,
    firstCall s, lastInMicLevel s),
   (vadMic s, digitalAgc s, lowLevelSignal s, inQueue s, filterState s,
    gainTableIdx s, micRef s, micGainIdx s),
   (env0 s, env1 s, Rxx16w32_array0 s, Rxx16w32_array1 s),
   (compressionGaindB s, targetLevelDbfs s, limiterEnable s, usedConfig s,
    initFlag s, analogTargetLevel s, analogTarget s, targetIdx s)).

(** What identifies the use of an instance: only [WebRtcAgc_Init] and
    [WebRtcAgc_set_config] change it. *)
Definition usage (s : LegacyAgc) : Z * Z * WebRtcAgcConfig :=
  (fs s, agcMode s, usedConfig s).

(** The same with the level range of the device. *)
Definition setup (s : LegacyAgc) : Z * Z * WebRtcAgcConfig * (Z * Z) :=
  (usage s, (minLevel s, maxAnalog s)).

(** Level range of the device. *)
Record levels_ok (s : LegacyAgc) : Prop := {
  lev_min : 0 <= minLevel s;
  lev_out : minLevel s + 2 <= minOutput s <= maxAnalog s;
  lev_top : maxAnalog s <= maxInit s <= 131071;
  lev_range : maxInit s - minLevel s <= 2 * (maxAnalog s - minLevel s);
  lev_four : 256 * (minOutput s - minLevel s) <= 10 * (maxInit s - minLevel s);
  lev_scale : scale s = 0
}.

(** [n] is the number of blocks processed so far.  The frame energy is the sum of
    the buffer divided by 8 up to the rounding errors accumulated over those
    blocks; the long-term energy may be negative, but not by much, because every
    block pulls it towards the frame energy. *)
Record ctl (n : Z) (s : LegacyAgc) : Prop := {
  c_levels : levels_ok s;
  c_limits : limits_ok s;
  c_max : maxAnalog s <= maxLevel s <= maxInit s;
  c_zero : minLevel s <= zeroCtrlMax s <= maxInit s;
  c_outer : 340 <= msecSpeechOuterChange s <= 500;
  c_inner : 520 <= msecSpeechInnerChange s <= 1000;
  c_low : 0 <= msTooLow s <= 1000;
  c_high : -100 <= msTooHigh s <= 1000;
  c_slow : 0 <= changeToSlowMode s <= 4002;
  c_active : 0 <= activeSpeech s <= 252;
  c_mute : -10 <= muteGuardMs s <= 8000;
  c_mszero : 0 <= msZero s <= 500;
  c_envsum : i16 (envSum s);
  c_thr : 0 <= vadThreshold s <= 1500;
  c_vec : Forall level_range (Rxx16_vectorw32 s);
  c_veclen : length (Rxx16_vectorw32 s) = 10%nat;
  c_arr : Forall level_range (Rxx16w32_array0 s);
  c_arrlen : length (Rxx16w32_array0 s) = 5%nat;
  c_env : Forall level_range (env0 s);
  c_envlen : length (env0 s) = 10%nat;
  c_std : 0 <= stdLongTerm (vadMic s) <= 32767;
  c_pos : 0 <= Rxx16pos s <= 9;
  c_lp16 : level_range (Rxx16_LPw32 s);
  c_lpmax : level_range (Rxx16_LPw32Max s);
  c_160 : 0 <= zsum (Rxx16_vectorw32 s) - 8 * Rxx160w32 s <= 7 * n;
  c_lp : 37500 * msTooLow s - 268435456 <= Rxx160_LPw32 s <= 1342177280
}.

(** Blocks for which the frame energy provably stays above [-2^27]: about three
    days of frames. *)
Definition block_bound : Z := 134217728.

Lemma ctl_160_range n s :
  ctl n s -> 0 <= n <= block_bound -> -117440512 <= Rxx160w32 s <= 1342177280.
Proof.
  intros H Hn. pose proof (zsum_range _ (c_vec _ _ H)) as Hs.
  unfold zlen in Hs. rewrite (c_veclen _ _ H) in Hs.
  pose proof (c_160 _ _ H). unfold block_bound in Hn. lia.
Qed.

(** Destructs the invariant into its parts. *)
Ltac open_ctl H :=
  let L := fresh "Hl" in
  pose proof (c_levels _ _ H) as L; destruct L as [? ? ? ? ? ?];
  let L := fresh "Hl" in
  pose proof (c_limits _ _ H) as L; destruct L as [? ? ? ? ? ? ? ?];
  destruct H as [_ _ ? ? ? ? ? ? ? ? ? ? ? ? ? ? ? ? ? ? ? ? ? ? ? ?].

Ltac close_levels := constructor; cbn; first [assumption|lia].
Ltac close_ctl :=
  constructor; cbn;
  first [assumption | close_levels
        | unfold level_range, i16 in *; lia | reflexivity | idtac].

(** ** Energies *)

Lemma wp_pa_energy n i s :
  ctl n s -> 0 <= n < block_bound -> 0 <= i < 5 ->
  wp (pa_energy i s)
     (fun s' => ctl (n + 1) s' /\ untouched s' = untouched s /\
                micVol s' = micVol s /\ msTooHigh s' = msTooHigh s /\
                msTooLow s' = msTooLow s).
Proof.
  intros H Hn Hi. pose proof (ctl_160_range _ _ H ltac:(lia)) as H160.
  unfold pa_energy.
  wp_step. eapply wp_rd_Forall; [apply (c_arr _ _ H)| |].
  { unfold zlen. rewrite (c_arrlen _ _ H). lia. }
  intros x Hx. wp_step. apply wp_rd.
  { unfold zlen. rewrite (c_veclen _ _ H). pose proof (c_pos _ _ H). lia. }
  intros old Hold. pose proof (Forall_lookup_1 _ _ _ _ (c_vec _ _ H) Hold) as Ho.
  pose proof (c_lp16 _ _ H) as Hlp. unfold level_range in *.
  wp_step. wp_step. wp_step.
  assert (-134217728 <= Z.shiftr (x - old) 3 <= 134217728 /\
          x - old - 7 <= 8 * Z.shiftr (x - old) 3 <= x - old) by cint.
  apply wp_add32; [unfold i32; lia|].
  wp_step. apply wp_wr.
  { unfold zlen. rewrite (c_veclen _ _ H). pose proof (c_pos _ _ H). lia. }
  wp_step. wp_step. unfold kAlphaShortTerm. wp_step. apply wp_shr32; [lia|].
  assert (- Rxx16_LPw32 s <= Z.shiftr (x - Rxx16_LPw32 s) 6 <= x - Rxx16_LPw32 s
          \/ 0 <= Z.shiftr (x - Rxx16_LPw32 s) 6 <= x - Rxx16_LPw32 s
          \/ x - Rxx16_LPw32 s <= Z.shiftr (x - Rxx16_LPw32 s) 6 <= 0)
    by (clear - Hx Hlp; cint).
  wp_step. apply wp_add32; [unfold i32; lia|]. wp_step.
  assert (Hpos : 0 <= (if to_i16 (Rxx16pos s + 1) =? RXX_BUFFER_LEN then 0
                       else to_i16 (Rxx16pos s + 1)) <= 9).
  { pose proof (c_pos _ _ H). unfold RXX_BUFFER_LEN.
    rewrite to_i16_id by (unfold i16; lia). case_if; lia. }
  split_and!; try reflexivity. open_ctl H. close_ctl.
  - apply Forall_insert; [done|]. unfold level_range. lia.
  - by rewrite length_insert.
  - rewrite (zsum_insert _ _ old) by done. lia.
Qed.

Lemma wp_pa_speech_level n s :
  ctl n s -> 0 <= n <= block_bound ->
  wp (pa_speech_level s)
     (fun s' => ctl n s' /\ untouched s' = untouched s /\
                micVol s' = micVol s /\ msTooHigh s' = msTooHigh s /\
                msTooLow s' = msTooLow s /\
                37500 * (msTooLow s + 2) - 268435456 <= Rxx160_LPw32 s').
Proof.
  intros H Hn. unfold pa_speech_level. wp_step.
  eapply (wp_mono _ (fun s' => ctl n s' /\ untouched s' = untouched s /\
                micVol s' = micVol s /\ msTooHigh s' = msTooHigh s /\
                msTooLow s' = msTooLow s)).
  - pose proof (c_active _ _ H) as Ha. pose proof (c_lpmax _ _ H) as Hm.
    destruct (Z.ltb_spec (activeSpeech s) 250).
    + wp_step. rewrite to_i16_id by (unfold i16; lia).
      destruct (_ <? _); split_and!; try reflexivity; open_ctl H; close_ctl.
    + destruct (Z.eqb_spec (activeSpeech s) 250); [|by wp_step].
      unfold RXX_BUFFER_LEN, level_range in *. wp_step.
      assert (0 <= Z.shiftr (Rxx16_LPw32Max s) 3 <= 134217728) by (clear - Hm; cint).
      apply wp_mul32; [unfold i32; cbn; lia|]. wp_step.
      rewrite to_i16_id by (unfold i16; lia).
      split_and!; try reflexivity; open_ctl H; close_ctl.
  - intros s1 (H1 & Hu & Hv & Hh & Hlow).
    pose proof (ctl_160_range _ _ H1 Hn) as H160. pose proof (c_lp _ _ H1) as Hlp.
    pose proof (c_low _ _ H1) as Hl.
    wp_step. wp_step. wp_step. unfold kAlphaLongTerm. apply wp_shr32; [lia|].
    assert (Hd : Rxx160w32 s1 - Rxx160_LPw32 s1 - 1023
                   <= 1024 * Z.shiftr (Rxx160w32 s1 - Rxx160_LPw32 s1) 10
                   <= Rxx160w32 s1 - Rxx160_LPw32 s1) by (clear; cint).
    remember (Z.shiftr (Rxx160w32 s1 - Rxx160_LPw32 s1) 10) as d eqn:Ed. clear Ed.
    wp_step. apply wp_add32; [unfold i32; lia|]. wp_step.
    rewrite <- Hu, <- Hv, <- Hh, <- Hlow.
    split_and!; try reflexivity; [|cbn; lia]. open_ctl H1. close_ctl.
Qed.

(** ** Level changes *)

Lemma wp_scale_level w sh s x :
  levels_ok s -> minLevel s <= x <= 2 * maxInit s -> 0 <= w <= 31621 ->
  w * (x - minLevel s) < 4294967296 -> sh = 14 \/ sh = 15 ->
  wp (scale_level w sh s x)
     (fun v => v = minLevel s + w * (x - minLevel s) / 2 ^ sh).
Proof.
  intros [H0 H1 H2 HR HF H3] Hx Hw Hlt Hsh. unfold scale_level.
  wp_step. wp_step. wp_step. unfold WEBRTC_SPL_UMUL, mulu.
  rewrite (to_u32_id w) by (unfold u32; lia).
  rewrite (to_u32_id (x - minLevel s)) by (unfold u32; lia).
  assert (0 <= w * (x - minLevel s)) by nia.
  rewrite (to_u32_id (w * _)) by (unfold u32; lia).
  rewrite (to_u32_id (minLevel s)) by (unfold u32; lia).
  rewrite Z.shiftr_div_pow2 by lia. unfold addu.
  assert (Hq : 0 <= w * (x - minLevel s) / 2 ^ sh <= 262144).
  { destruct Hsh as [Esh|Esh]; subst sh; eval_pow2;
      Z.to_euclidean_division_equations; lia. }
  rewrite to_u32_id by (unfold u32; lia). rewrite to_i32_id by (unfold i32; lia).
  lia.
Qed.

Lemma wp_lower_level n w step s x last :
  ctl n s -> minLevel s <= x <= maxInit s -> 0 <= w <= 31621 ->
  1 <= step <= 2 -> minLevel s + step <= last <= maxInit s ->
  wp (lower_level w step s x last)
     (fun '(s', v) => s' = set_micVol v s /\ minLevel s <= v <= last - step).
Proof.
  intros H Hx Hw Hs Hl. unfold lower_level. pose proof (c_levels _ _ H) as HL.
  pose proof HL as [H0 H1 H2 HR HF H3].
  wp_step. eapply wp_mono.
  { apply wp_scale_level; [done|lia|done|nia|by right]. }
  intros v ->. wp_step. apply wp_sub32; [unfold i32; lia|]. wp_step.
  split; [done|].
  assert (0 <= w * (x - minLevel s) / 2 ^ 15) by (apply Z.div_pos; [nia|done]).
  case_if; lia.
Qed.

Lemma wp_reduce_max_level n s :
  ctl n s -> minLevel s <= micVol s <= maxInit s ->
  wp (reduce_max_level s)
     (fun s' => ctl n s' /\ untouched s' = untouched s /\ micVol s' = micVol s /\
                msTooHigh s' = msTooHigh s /\ msTooLow s' = msTooLow s).
Proof.
  intros H Hv. unfold reduce_max_level. pose proof (c_levels _ _ H) as [H0 H1 H2 HR HF H3].
  pose proof (c_max _ _ H) as Hm.
  wp_step. wp_step. wp_step. wp_step. wp_step. wp_step. wp_step.
  assert (maxAnalog s <= WEBRTC_SPL_MAX
            (Z.quot (15 * maxLevel s + micVol s) 16) (maxAnalog s) <= maxInit s).
  { unfold WEBRTC_SPL_MAX. case_if; Z.to_euclidean_division_equations; lia. }
  split_and!; try reflexivity. open_ctl H. close_ctl.
Qed.

(** The volume state inside the loop, before block [i]: either the level is
    still within the initial range (and a level so low that it could not be
    lowered has not had the time to be), or it has been raised in this frame and
    neither counter can reach its threshold again before the frame ends. *)
Definition vol_ok (last i : Z) (s : LegacyAgc) (x : Z) : Prop :=
  minLevel s <= x /\ minLevel s <= micVol s /\
  (x <= maxInit s /\ micVol s <= maxInit s /\
   (minOutput s <= last \/ msTooHigh s <= 2 * i) \/
   x <= 2 * maxInit s /\ micVol s <= 2 * maxInit s /\
   msTooLow s <= 2 * i /\ msTooHigh s <= 2 * i).

Definition last_ok (last : Z) (s : LegacyAgc) : Prop :=
  minLevel s <= last <= maxInit s.

Lemma untouched_levels s s' :
  untouched s' = untouched s ->
  minLevel s' = minLevel s /\ maxAnalog s' = maxAnalog s /\
  maxInit s' = maxInit s /\ minOutput s' = minOutput s.
Proof.
  unfold untouched. intros E.
  assert (E1 : (minLevel s', maxAnalog s', maxInit s', minOutput s') =
               (minLevel s, maxAnalog s, maxInit s, minOutput s)).
  { by apply (f_equal (fun t => fst (fst (fst (fst (fst (fst (fst (fst t))))))))) in E. }
  by injection E1.
Qed.

(** What a step of the loop keeps: the invariant, the untouched fields and the
    volume state of the next block. *)
Definition step_post (n last i : Z) (s : LegacyAgc) (r : LegacyAgc * Z) : Prop :=
  let '(s', x') := r in
  ctl n s' /\ untouched s' = untouched s /\ vol_ok last (i + 1) s' x'.

(** Both lowering branches end with the same two updates: the maximum and the
    volume go down. *)
Lemma wp_pa_drop n last i s w x :
  ctl n s -> msTooHigh s = 0 -> minLevel s <= x <= maxInit s ->
  minLevel s <= micVol s <= maxInit s -> minOutput s <= last <= maxInit s ->
  0 <= w <= 31621 -> 0 <= i ->
  wp (s2 ← reduce_max_level s; lower_level w 1 s2 x last) (step_post n last i s).
Proof.
  intros H Hh Hx Hv Hl Hw Hi. pose proof (c_levels _ _ H) as [H0 H1 H2 HR HF H3].
  wp_step. eapply wp_mono; [by apply (wp_reduce_max_level n)|].
  intros s2 (Hc2 & Hu2 & Hm2 & Hh2 & Hl2).
  destruct (untouched_levels _ _ Hu2) as (E1 & E2 & E3 & E4).
  eapply wp_mono; [apply (wp_lower_level n); [done|lia|done|lia|lia]|].
  intros [s3 v] (-> & Hv3). split_and!.
  - open_ctl Hc2. close_ctl.
  - exact Hu2.
  - unfold vol_ok. cbn. lia.
Qed.

(** The start of both lowering branches. *)
Definition count_high (s : LegacyAgc) : LegacyAgc :=
  set_changeToSlowMode 0 (set_msTooLow 0 (set_msTooHigh (to_i16 (msTooHigh s + 2)) s)).

Section high.
Context (n last i x : Z) (s : LegacyAgc).
Context (H : ctl n s) (Hvol : vol_ok last i s x) (Hlast : last_ok last s)
  (Hi : 0 <= i < 5) (HLP : 8468050 <= Rxx160_LPw32 s).

Lemma count_high_stays :
  msTooHigh s + 2 <= 1000 -> step_post n last i s (count_high s, x).
Proof.
  intros Ht. destruct Hvol as (Hx & Hv & Hd). pose proof (c_high _ _ H).
  unfold count_high. rewrite to_i16_id by (unfold i16; lia).
  split_and!; [open_ctl H; close_ctl|reflexivity|]. unfold vol_ok; cbn. lia.
Qed.

Lemma count_high_drops lp w :
  340 < msTooHigh s + 2 -> 0 <= w <= 31621 -> 0 <= lp <= 1342177280 ->
  wp (s2 ← reduce_max_level
             (set_Rxx160_LPw32 lp (set_msTooHigh 0 (count_high s)));
      lower_level w 1 s2 x last) (step_post n last i s).
Proof.
  intros Ht Hw Hlp. destruct Hvol as (Hx & Hv & Hd). unfold last_ok in Hlast.
  apply (wp_pa_drop n last i (set_Rxx160_LPw32 lp (set_msTooHigh 0 (count_high s))));
    try (cbn; lia).
  unfold count_high. open_ctl H. close_ctl.
Qed.

Lemma wp_pa_far_too_high :
  wp (pa_far_too_high s x last) (step_post n last i s).
Proof.
  pose proof (c_high _ _ H). pose proof (c_outer _ _ H).
  pose proof (c_lp _ _ H) as Hlp. unfold pa_far_too_high. fold (count_high s).
  change (msecSpeechOuterChange (count_high s)) with (msecSpeechOuterChange s).
  change (msTooHigh (count_high s)) with (to_i16 (msTooHigh s + 2)).
  rewrite to_i16_id by (unfold i16; lia).
  case_if; [|wp_step; apply count_high_stays; lia].
  change (Rxx160_LPw32 (set_msTooHigh 0 (count_high s))) with (Rxx160_LPw32 s).
  assert (Hq : 0 <= Z.shiftr (Rxx160_LPw32 s) 6 * 53 <= 1342177280)
    by (clear - HLP Hlp; cint).
  wp_step. apply wp_mul32; [unfold i32; lia|].
  pose proof (count_high_drops _ 31130 ltac:(lia) ltac:(lia) Hq) as Hdrop.
  destruct (reduce_max_level _) as [s2|]; [|done]. cbn [mbind res_bind] in *.
  wp_step. eapply wp_mono; [exact Hdrop|]. intros [s3 v] (Hc & Hu & Hvo).
  wp_step. split_and!; [|exact Hu|exact Hvo]. open_ctl Hc. close_ctl.
Qed.

Lemma wp_pa_too_high : wp (pa_too_high s x last) (step_post n last i s).
Proof.
  pose proof (c_high _ _ H). pose proof (c_inner _ _ H).
  pose proof (c_lp _ _ H) as Hlp. unfold pa_too_high. fold (count_high s).
  change (msecSpeechInnerChange (count_high s)) with (msecSpeechInnerChange s).
  change (msTooHigh (count_high s)) with (to_i16 (msTooHigh s + 2)).
  rewrite to_i16_id by (unfold i16; lia).
  case_if; [|wp_step; apply count_high_stays; lia].
  change (Rxx160_LPw32 (set_msTooHigh 0 (count_high s))) with (Rxx160_LPw32 s).
  assert (Hq : 0 <= Z.quot (Rxx160_LPw32 s) 64 * 53 <= 1342177280 /\
               0 <= Z.quot (Rxx160_LPw32 s) 64 <= 1342177280)
    by (clear - HLP Hlp; cint).
  wp_step. apply wp_div32; [done|unfold i32; lia|].
  wp_step. apply wp_mul32; [unfold i32; lia|]. apply count_high_drops; lia.
Qed.
End high.

(** ** Raising the level *)

(** Both curves weigh by more than one (16384 in Q14) everywhere on [0, 1]. *)
Lemma wp_raise_weight offset slope v :
  offset = kOffset1 /\ slope = kSlope1 \/ offset = kOffset2 /\ slope = kSlope2 ->
  0 <= v <= 16384 ->
  wp (raise_weight offset slope v) (fun w => 16384 < w <= 25395).
Proof.
  intros Ht Hv. unfold raise_weight, WebRtcAgc_ExpCurve.
  destruct Ht as [[-> ->]|[-> ->]];
    repeat case_if; wp_step; (eapply wp_eq; [reflexivity|]); wp_step;
    (eapply wp_eq; [reflexivity|]); wp_step;
    (apply wp_mul32; [unfold i32; lia|]); wp_step;
    rewrite to_i16_id by cint; (apply wp_sub32; [cint|]); wp_step;
    rewrite to_i16_id by cint; cint.
Qed.

Lemma wp_vol_norm n s x :
  ctl n s -> minLevel s <= x <= maxInit s ->
  wp (vol_norm s x) (fun v => 0 <= v <= 16384).
Proof.
  intros H Hx. pose proof (c_levels _ _ H) as [H0 H1 H2 HR HF H3]. unfold vol_norm.
  wp_step. wp_step. wp_step. apply wp_shl32; [lia|cint|].
  rewrite Z.shiftl_mul_pow2 by lia. eval_pow2.
  rewrite (proj2 (Z.eqb_neq _ _)) by lia. cbn [negb].
  wp_step. wp_step.
  assert (Hq : 0 <= Z.quot ((x - minLevel s) * 16384) (maxInit s - minLevel s)
                 <= 16384).
  { rewrite Z.quot_div_nonneg by lia. split; [apply Z.div_pos; lia|].
    apply Z.div_le_upper_bound; lia. }
  wp_step. apply wp_div32; [lia|unfold i32; lia|]. wp_step.
  rewrite to_i16_id by (unfold i16; lia). lia.
Qed.

Lemma wp_pa_raise n last i offset slope step s x :
  ctl n (set_msTooLow 0 s) ->
  offset = kOffset1 /\ slope = kSlope1 \/ offset = kOffset2 /\ slope = kSlope2 ->
  1 <= step <= 2 -> minLevel s <= x <= maxInit s -> last_ok last s ->
  341 <= msTooLow s -> msTooHigh s = 0 -> 0 <= i ->
  37500 * msTooLow s - 268435456 <= Rxx160_LPw32 s <= 10660640 ->
  wp (pa_raise offset slope step s x last) (step_post n last i s).
Proof.
  intros Hc Ht Hs Hx Hl Hm Hh Hi HLP. unfold last_ok in Hl. unfold pa_raise.
  pose proof (c_levels _ _ Hc) as HL. pose proof HL as [H0 H1 H2 HR HF H3].
  cbn in H0, H1, H2, HR, HF, H3.
  wp_step. eapply wp_mono; [apply (wp_vol_norm n); [done|exact Hx]|].
  intros v Hv. wp_step. eapply wp_mono; [by apply wp_raise_weight|]. cbv beta. intros w Hw.
  change (Rxx160_LPw32 (set_msTooLow 0 s)) with (Rxx160_LPw32 s).
  assert (Hq : -268435456 <= Z.quot (Rxx160_LPw32 s) 64 * 67 <= 1342177280 /\
               -268435456 <= Z.quot (Rxx160_LPw32 s) 64 <= 1342177280)
    by (clear - HLP Hm; cint).
  wp_step. apply wp_div32; [done|unfold i32; lia|].
  wp_step. apply wp_mul32; [unfold i32; lia|].
  remember (Z.quot (Rxx160_LPw32 s) 64 * 67) as lp eqn:Elp. clear Elp.
  assert (Hwx : w * (x - minLevel s) <= 25395 * 131071)
    by (apply Z.mul_le_mono_nonneg; lia).
  wp_step. eapply wp_mono.
  { apply wp_scale_level; [close_levels|cbn; lia|lia|cbn; lia|by left]. }
  cbn. intros u ->. wp_step. apply wp_add32; [unfold i32; lia|]. wp_step.
  assert (Hu : 0 <= w * (x - minLevel s) / 16384 <= 2 * (x - minLevel s)).
  { split; [apply Z.div_pos; nia|apply Z.div_le_upper_bound; nia]. }
  split_and!; [|reflexivity|].
  - clear HL. open_ctl Hc. close_ctl.
  - unfold vol_ok; cbn. case_if; eval_pow2; lia.
Qed.

Section low.
Context (n last i x : Z) (s : LegacyAgc).
Context (H : ctl n s) (Hvol : vol_ok last i s x) (Hlast : last_ok last s)
  (Hi : 0 <= i < 5) (HLP : Rxx160_LPw32 s <= 10660640)
  (Hstrong : 37500 * (msTooLow s + 2) - 268435456 <= Rxx160_LPw32 s).

Definition count_low : LegacyAgc :=
  set_msTooLow (to_i16 (msTooLow s + 2))
    (set_changeToSlowMode 0 (set_msTooHigh 0 s)).

Lemma count_low_stays :
  msTooLow s + 2 <= 1000 -> step_post n last i s (count_low, x).
Proof.
  intros Ht. destruct Hvol as (Hx & Hv & Hd). pose proof (c_low _ _ H).
  unfold count_low. rewrite to_i16_id by (unfold i16; lia).
  split_and!; [open_ctl H; close_ctl|reflexivity|]. unfold vol_ok; cbn. lia.
Qed.

Lemma count_low_raises offset slope step :
  offset = kOffset1 /\ slope = kSlope1 \/ offset = kOffset2 /\ slope = kSlope2 ->
  1 <= step <= 2 -> 340 < msTooLow s + 2 ->
  wp (pa_raise offset slope step count_low x last) (step_post n last i s).
Proof.
  intros Ht Hs Hm. destruct Hvol as (Hx & Hv & Hd). pose proof (c_low _ _ H).
  apply (wp_pa_raise n last i offset slope step count_low x);
    unfold count_low; try rewrite to_i16_id by (unfold i16; lia); try done;
    try (cbn; lia).
  open_ctl H. close_ctl.
Qed.
End low.

(** ** One block *)

Lemma wp_pa_adapt n last i s x :
  ctl n s -> vol_ok last i s x -> last_ok last s -> 0 <= i < 5 ->
  37500 * (msTooLow s + 2) - 268435456 <= Rxx160_LPw32 s ->
  wp (pa_adapt last s x) (step_post n last i s).
Proof.
  intros H Hvol Hl Hi HLP. pose proof (c_limits _ _ H) as [].
  pose proof (c_low _ _ H). pose proof (c_outer _ _ H). pose proof (c_inner _ _ H).
  unfold pa_adapt. case_if; [apply wp_pa_far_too_high; done || lia|].
  case_if; [apply wp_pa_too_high; done || lia|].
  case_if; [|case_if].
  - unfold pa_far_too_low. fold (count_low s).
    change (msecSpeechOuterChange (count_low s)) with (msecSpeechOuterChange s).
    change (msTooLow (count_low s)) with (to_i16 (msTooLow s + 2)).
    rewrite to_i16_id by (unfold i16; lia).
    case_if; [|wp_step; apply count_low_stays; done || lia].
    apply count_low_raises; try done; try lia. by left.
  - unfold pa_too_low. fold (count_low s).
    change (msecSpeechInnerChange (count_low s)) with (msecSpeechInnerChange s).
    change (msTooLow (count_low s)) with (to_i16 (msTooLow s + 2)).
    rewrite to_i16_id by (unfold i16; lia).
    case_if; [|wp_step; apply count_low_stays; done || lia].
    apply count_low_raises; try done; try lia. by right.
  - wp_step. pose proof (c_slow _ _ H). destruct Hvol as (Hx & Hv & Hd).
    unfold pa_in_range. destruct (Z.ltb_spec 4000 (changeToSlowMode s)).
    + split_and!; [open_ctl H; close_ctl|reflexivity|unfold vol_ok; cbn; lia].
    + rewrite to_i16_id by (unfold i16; lia).
      split_and!; [open_ctl H; close_ctl|reflexivity|unfold vol_ok; cbn; lia].
Qed.

Lemma wp_pa_block n last r i s x :
  ctl n s -> vol_ok last i s x -> last_ok last s -> 0 <= i < 5 ->
  0 <= n < block_bound ->
  wp (pa_block r last i (s, x)) (step_post (n + 1) last i s).
Proof.
  intros H (Hx & Hv & Hd) Hl Hi Hn. unfold pa_block.
  wp_step. eapply wp_mono; [by apply wp_pa_energy|].
  intros s1 (H1 & Hu1 & Hm1 & Hh1 & Hl1).
  destruct (untouched_levels _ _ Hu1) as (E1 & E2 & E3 & E4).
  assert (Hvol1 : forall j, i <= j -> vol_ok last j s1 x)
    by (intros j Hj; unfold vol_ok; lia).
  case_if; [|wp_step; split_and!; [done|done|apply Hvol1; lia]].
  wp_step. eapply wp_mono; [apply wp_pa_speech_level; [done|lia]|].
  intros s2 (H2 & Hu2 & Hm2 & Hh2 & Hl2 & HLP).
  destruct (untouched_levels _ _ Hu2) as (F1 & F2 & F3 & F4).
  eapply wp_mono.
  { apply (wp_pa_adapt (n + 1) last i); [done| |unfold last_ok in *; lia|done|lia].
    pose proof (Hvol1 i ltac:(lia)) as (G1 & G2 & G3). unfold vol_ok. lia. }
  intros [s3 x3] (G1 & G2 & G3). split_and!; [done|congruence|done].
Qed.

Lemma wp_pa_loop n last r s x :
  ctl n s -> vol_ok last 0 s x -> last_ok last s ->
  0 <= n <= block_bound - 5 ->
  wp (for_ 5 0 (pa_block r last) (s, x))
     (fun '(s', x') => ctl (n + 5) s' /\ untouched s' = untouched s /\
                       minLevel s <= micVol s').
Proof.
  intros H Hvol Hl Hn.
  apply (wp_for (fun j '(s', x') =>
    ctl (n + j) s' /\ untouched s' = untouched s /\ vol_ok last j s' x')).
  - rewrite Z.add_0_r. by split_and!.
  - intros j [s' x'] Hj (H1 & H2 & H3).
    destruct (untouched_levels _ _ H2) as (E1 & E2 & E3 & E4).
    eapply wp_mono.
    { apply (wp_pa_block (n + j)); [done|done|unfold last_ok in *; lia|lia|lia]. }
    intros [s2 x2] (G1 & G2 & G3).
    replace (n + (j + 1)) with (n + j + 1) by lia.
    split_and!; [done|congruence|done].
  - intros [s' x'] (H1 & H2 & H3). split_and!; [done|done|].
    destruct (untouched_levels _ _ H2) as (E1 & _). rewrite <- E1. apply H3.
Qed.

(** ** Saturation, silence, inactivity *)

(** The 16-bit sum, and its exact bound as long as it does not wrap. *)
Lemma env_sum_range l e :
  Forall level_range l -> i16 e ->
  i16 (foldl env_sum_step e l) /\
  (0 <= e -> e + 1024 * zlen l <= 25000 ->
   foldl env_sum_step e l <= e + 1024 * zlen l).
Proof.
  revert e. induction l as [|x l IH]; intros e Hl He.
  { split; [done|]. unfold zlen; cbn. lia. }
  inversion Hl as [|? ? Hx Hl']; subst. cbn [foldl].
  assert (Hz : zlen (x :: l) = zlen l + 1) by (unfold zlen; cbn [length]; lia).
  pose proof (zlen_nonneg l). unfold level_range in Hx.
  assert (Hsh : 0 <= Z.shiftr x 20 <= 1024) by cint.
  assert (Es : env_sum_step e x = if 875 <? Z.shiftr x 20
               then to_i16 (e + Z.shiftr x 20) else e).
  { unfold env_sum_step. by rewrite to_i16_id by (unfold i16; lia). }
  rewrite Es. case_if; [|destruct (IH e Hl' He); split; [done|lia]].
  destruct (IH (to_i16 (e + Z.shiftr x 20)) Hl' (to_i16_range _)) as [I1 I2].
  split; [done|]. intros He0 Hb.
  rewrite to_i16_id in * by (unfold i16; lia). lia.
Qed.

Lemma wp_SaturationCtrl n s :
  ctl n s ->
  wp (WebRtcAgc_SaturationCtrl s 0 (env0 s))
     (fun '(s', sat) => ctl n s' /\ untouched s' = untouched s /\
        micVol s' = micVol s /\ msTooHigh s' = msTooHigh s /\
        (envSum s = 0 -> sat = 0)).
Proof.
  intros H. unfold WebRtcAgc_SaturationCtrl.
  wp_step. apply wp_take_exact; [rewrite (c_envlen _ _ H); lia|].
  destruct (env_sum_range (take 10 (env0 s)) (envSum s)
              ltac:(apply Forall_take; apply (c_env _ _ H)) (c_envsum _ _ H))
    as [Hr Hb].
  assert (Hz : zlen (take 10 (env0 s)) = 10).
  { unfold zlen. rewrite length_take, (c_envlen _ _ H). lia. }
  rewrite Hz in Hb. clear Hz.
  remember (foldl env_sum_step (envSum s) (take 10 (env0 s))) as sum eqn:Es.
  clear Es. unfold i16 in Hr.
  destruct (Z.ltb_spec 25000 sum); (wp_step; apply wp_mul32; [unfold i32; lia|]);
    wp_step; (split_and!; [|reflexivity|reflexivity|reflexivity|lia]);
    open_ctl H; close_ctl; auto with agc.
Qed.

Lemma wp_pa_saturated n last s x w :
  ctl n s -> minLevel s <= x <= maxInit s -> minOutput s <= last <= maxInit s ->
  minLevel s <= micVol s <= maxInit s ->
  wp (pa_saturated s x last w)
     (fun '(s', x', _) => ctl n s' /\ untouched s' = untouched s /\
        minLevel s <= x' <= last - 2 /\ micVol s' = x' /\ msTooHigh s' = -100).
Proof.
  intros H Hx Hl Hv. unfold pa_saturated. pose proof (c_lp _ _ H) as Hlp.
  pose proof (c_low _ _ H) as Hlow. pose proof (c_levels _ _ H) as [H0 H1 H2 HR HF H3].
  assert (Hq : 37500 * msTooLow s - 268435456 <= Z.quot (Rxx160_LPw32 s) 8 * 7
                 <= 1342177280 /\
               -268435456 <= Z.quot (Rxx160_LPw32 s) 8 <= 1342177280)
    by (clear - Hlp Hlow; cint).
  wp_step. apply wp_div32; [done|unfold i32; lia|].
  wp_step. apply wp_mul32; [unfold i32; lia|].
  remember (Z.quot (Rxx160_LPw32 s) 8 * 7) as lp eqn:Elp. clear Elp.
  wp_step. eapply wp_mono.
  { apply (wp_lower_level n); [|exact Hx|lia|lia|cbn; lia].
    open_ctl H. close_ctl. }
  intros [s' v] (-> & Hv'). wp_step. cbn in Hv'.
  split_and!; [|reflexivity|lia|lia|reflexivity|reflexivity].
  unfold kMsecSpeechInner, kMsecSpeechOuter. open_ctl H. close_ctl.
Qed.

Lemma wp_each_add64 l a :
  Forall level_range l -> 0 <= a <= 2 ^ 40 - 2 ^ 30 * zlen l ->
  wp (each add64 a l) (fun _ => True).
Proof.
  intros Hl. revert a. induction Hl as [|x l Hx Hl IH]; intros a Ha; [done|].
  assert (Hz : zlen (x :: l) = zlen l + 1) by (unfold zlen; cbn [length]; lia).
  rewrite Hz in Ha. unfold level_range in Hx. pose proof (zlen_nonneg l).
  eval_pow2. cbn [each]. wp_step. apply wp_add64; [unfold i64; lia|].
  apply IH. eval_pow2. lia.
Qed.

(** What follows the saturation check keeps the volume in range. *)
Definition pre_loop (n last : Z) (s : LegacyAgc) (r : LegacyAgc * Z) : Prop :=
  let '(s', x') := r in
  ctl n s' /\ untouched s' = untouched s /\ minLevel s <= x' <= maxInit s /\
  minLevel s <= micVol s' <= maxInit s /\ msTooHigh s' = msTooHigh s.

Lemma wp_zero_ctrl_raise n last s x :
  ctl n s -> minLevel s <= x <= maxInit s -> minLevel s <= micVol s <= maxInit s ->
  wp (zero_ctrl_raise s x) (pre_loop n last s).
Proof.
  intros H Hx Hv. unfold zero_ctrl_raise.
  pose proof (c_levels _ _ H) as [H0 H1 H2 HR HF H3]. pose proof (c_zero _ _ H) as Hz.
  do 6 wp_step. wp_step. apply (wp_mono _ (fun '(s', x') =>
    exists v, s' = set_micVol v s /\ minLevel s <= v <= maxInit s /\
              minLevel s <= x' <= maxInit s)).
  - case_if.
    + assert (Hs : x <= Z.shiftr (1126 * x) 10) by (clear - Hx H0; cint).
      wp_step. apply wp_mul32; [unfold i32; lia|]. wp_step. eexists.
      split; [reflexivity|]. unfold WEBRTC_SPL_MIN. case_if; lia.
    + wp_step. exists (micVol s). split; [by destruct s|lia].
  - intros [s' x'] (v & -> & Hv' & Hx'). wp_step.
    split_and!; [|reflexivity|lia|lia|cbn; lia|cbn; lia|reflexivity].
    unfold kMuteGuardTimeMs. open_ctl H. close_ctl.
Qed.

Lemma wp_ZeroCtrl n last s x :
  ctl n s -> minLevel s <= x <= maxInit s -> minLevel s <= micVol s <= maxInit s ->
  wp (WebRtcAgc_ZeroCtrl s x (env0 s)) (pre_loop n last s).
Proof.
  intros H Hx Hv. unfold WebRtcAgc_ZeroCtrl.
  wp_step. apply wp_take_exact; [rewrite (c_envlen _ _ H); lia|].
  wp_step. eapply wp_mono.
  { apply wp_each_add64; [apply Forall_take; apply (c_env _ _ H)|].
    unfold zlen. rewrite length_take, (c_envlen _ _ H). cbn. lia. }
  intros tmp _. pose proof (c_mszero _ _ H) as Hz. pose proof (c_mute _ _ H) as Hm.
  remember (if tmp <? 500 then to_i16 (msZero s + 10) else 0) as z eqn:Ez.
  assert (Hz' : 0 <= z <= 510).
  { subst z. case_if; [rewrite to_i16_id by (unfold i16; lia)|]; lia. }
  clear Ez. change (muteGuardMs (set_msZero z s)) with (muteGuardMs s).
  remember (if 0 <? muteGuardMs s
            then set_muteGuardMs (to_i16 (muteGuardMs s - 10)) (set_msZero z s)
            else set_msZero z s) as s1 eqn:E1.
  assert (exists m, -10 <= m <= 8000 /\ s1 = set_muteGuardMs m (set_msZero z s))
    as (m & Hm' & ->).
  { subst s1. case_if; eexists; (split; [|by destruct s]); [|lia].
    rewrite to_i16_id by (unfold i16; lia). lia. }
  clear E1. change (msZero (set_muteGuardMs m (set_msZero z s))) with z. case_if.
  - eapply wp_mono; [apply (wp_zero_ctrl_raise n last); [|done|done]|].
    { open_ctl H. close_ctl. }
    intros [s2 x2] (G1 & G2 & G3 & G4 & G5).
    exact (conj G1 (conj G2 (conj G3 (conj G4 G5)))).
  - wp_step. split_and!; [|reflexivity|lia|lia|cbn; lia|cbn; lia|reflexivity].
    open_ctl H. close_ctl.
Qed.

Lemma wp_SpeakerInactiveCtrl n s :
  ctl n s ->
  wp (WebRtcAgc_SpeakerInactiveCtrl s)
     (fun s' => ctl n s' /\ untouched s' = untouched s /\ micVol s' = micVol s /\
                msTooHigh s' = msTooHigh s).
Proof.
  intros H. unfold WebRtcAgc_SpeakerInactiveCtrl, kNormalVadThreshold.
  pose proof (c_std _ _ H) as Hs. pose proof (c_thr _ _ H) as Ht.
  remember (stdLongTerm (vadMic s)) as std eqn:Estd.
  case_if.
  - wp_step. split_and!; try reflexivity. subst. open_ctl H. close_ctl.
  - wp_step. apply (wp_mono _ (fun v => 400 <= v <= 1500)).
    { case_if; [|wp_step; lia]. wp_run. rewrite to_i16_id by cint. cint. }
    intros v Hv. wp_step. wp_step. wp_step. wp_step. wp_step.
    assert (0 <= to_i16 (Z.shiftr (v + 31 * vadThreshold s) 5) <= 1500).
    { rewrite to_i16_id by (clear - Hv Ht; cint). clear - Hv Ht. cint. }
    split_and!; try reflexivity. subst. open_ctl H. close_ctl.
Qed.

(** ** The whole controller *)

Lemma pa_limit_value s last echo :
  minOutput s <= maxLevel s ->
  exists v, pa_limit s last echo = set_micVol v s /\
    minOutput s <= v <= maxLevel s /\
    (echo = 1 -> v <= Z.max last (minOutput s)).
Proof.
  intros Hm.
  assert (Hs : s = set_micVol (micVol s) s) by (by destruct s).
  assert (Hs1 : exists u, (echo = 1 -> u <= last) /\
     pa_limit s last echo =
       (if maxLevel s <? u then set_micVol (maxLevel s) s
        else if u <? minOutput s then set_micVol (minOutput s) s
        else set_micVol u s)).
  { unfold pa_limit. destruct (_ || _) eqn:Eg.
    - destruct (Z.ltb_spec last (micVol s)).
      + exists last. split; [lia|reflexivity].
      + exists (micVol s). split; [lia|by rewrite <- Hs].
    - exists (micVol s). split; [by intros ->|by rewrite <- Hs]. }
  destruct Hs1 as (u & Hu & ->).
  repeat case_if; eexists; (split; [reflexivity|lia]).
Qed.

(** [pa_control]: total, keeps the invariant, ends with a volume in range, and
    does not raise it in the presence of echo. *)
Lemma wp_pa_control n s x r echo w :
  ctl n s -> 0 <= n <= block_bound - 5 ->
  minLevel s <= x <= maxInit s -> minLevel s <= micVol s <= maxInit s ->
  (minOutput s <= micVol s \/ envSum s = 0 /\ msTooHigh s <= 0) ->
  wp (pa_control s x r echo w)
     (fun '(s', _) => ctl (n + 5) s' /\ untouched s' = untouched s /\
        minOutput s <= micVol s' <= maxLevel s' /\
        (echo = 1 -> micVol s' <= Z.max (micVol s) (minOutput s))).
Proof.
  intros H Hn Hx Hv Hmo. unfold pa_control.
  pose proof (c_levels _ _ H) as [H0 H1 H2 HR HF H3].
  wp_step. eapply wp_mono; [by apply wp_SaturationCtrl|].
  intros [s1 sat] (G1 & U1 & V1 & T1 & S1).
  destruct (untouched_levels _ _ U1) as (E1 & E2 & E3 & E4).
  wp_step. apply (wp_mono _ (fun '(s2, x2, _) =>
    ctl n s2 /\ untouched s2 = untouched s1 /\ minLevel s <= x2 <= maxInit s /\
    minLevel s <= micVol s2 <= maxInit s /\
    (minOutput s <= micVol s \/ msTooHigh s2 <= 0))).
  { destruct (Z.eqb_spec sat 1) as [->|].
    - eapply wp_mono; [apply (wp_pa_saturated n (micVol s)); [done|lia|lia|lia]|].
      intros [[s2 x2] w2] (A1 & A2 & A3 & A4 & A5). split_and!; done || lia.
    - wp_step. split_and!; try done; lia. }
  intros [[s2 x2] w2] (G2 & U2 & X2 & V2 & T2).
  destruct (untouched_levels _ _ U2) as (F1 & F2 & F3 & F4).
  wp_step. eapply wp_mono; [apply (wp_ZeroCtrl n (micVol s)); [done|lia|lia]|].
  intros [s3 x3] (G3 & U3 & X3 & V3 & T3).
  wp_step. eapply wp_mono; [by apply wp_SpeakerInactiveCtrl|].
  intros s4 (G4 & U4 & V4 & T4).
  assert (U : untouched s4 = untouched s) by congruence.
  destruct (untouched_levels _ _ U) as (D1 & D2 & D3 & D4).
  wp_step. eapply wp_mono.
  { apply (wp_pa_loop n (micVol s)); [done| | |done].
    - unfold vol_ok. lia.
    - unfold last_ok. lia. }
  intros [s5 x5] (G5 & U5 & V5). wp_step.
  assert (U' : untouched s5 = untouched s) by congruence.
  destruct (untouched_levels _ _ U') as (C1 & C2 & C3 & C4).
  pose proof (c_max _ _ G5).
  destruct (pa_limit_value s5 (micVol s) echo ltac:(lia)) as (v & -> & L1 & L2).
  split_and!; [|exact U'|cbn; lia|cbn; lia|cbn; lia].
  open_ctl G5. close_ctl.
Qed.

(** ** The instance *)

Record agc_ok (n : Z) (s : LegacyAgc) : Prop := {
  a_ctl : ctl n s;
  a_vol : minLevel s <= micVol s <= maxLevel s;
  a_first : firstCall s = 0 -> envSum s = 0 /\ msTooHigh s <= 0;
  a_next : firstCall s <> 0 -> minOutput s <= micVol s;
  a_add : maxInit s - maxAnalog s <= 32767;
  a_vad : vad_ok (vadMic s);
  a_digital : digital_ok (digitalAgc s);
  a_queue : 0 <= inQueue s <= 2;
  a_env1 : Forall level_range (env1 s) /\ length (env1 s) = 10%nat;
  a_arr1 : inQueue s = 2 -> Forall level_range (Rxx16w32_array1 s) /\
                            length (Rxx16w32_array1 s) = 5%nat;
  a_filter : filt_ok (filterState s);
  a_idx : 0 <= gainTableIdx s <= 31;
  a_init : initFlag s = kInitCheck;
  a_range : agcMode s = kAgcModeAdaptiveDigital ->
            minLevel s = 0 /\ maxAnalog s = 255 /\ minOutput s <= 127
}.

Lemma wp_ten_percent n s :
  ctl n s ->
  wp (ten_percent s) (fun v => minOutput s <= v <= maxAnalog s).
Proof.
  intros H. pose proof (c_levels _ _ H) as [H0 H1 H2 HR HF H3].
  pose proof (c_max _ _ H) as Hm. unfold ten_percent.
  wp_step. wp_step. wp_step. wp_step.
  assert (Hq : minOutput s - minLevel s <=
               Z.shiftr ((maxLevel s - minLevel s) * 51) 9 <= maxAnalog s - minLevel s)
    by (clear H; cint).
  apply wp_add32; [unfold i32; lia|]. lia.
Qed.

Lemma wp_pa_first_call n s x :
  ctl n s -> minLevel s <= x <= maxAnalog s ->
  wp (pa_first_call s x)
     (fun '(s', x') => minLevel s <= x' <= maxAnalog s /\
        ((firstCall s <> 0 /\ s' = s) \/
         (firstCall s = 0 /\ s' = set_micVol x' (set_firstCall 1 s)))).
Proof.
  intros H Hx. pose proof (c_levels _ _ H) as [H0 H1 H2 HR HF H3].
  unfold pa_first_call.
  destruct (Z.eqb_spec (firstCall s) 0); [|wp_step; split; [done|by left]].
  wp_step. eapply wp_mono; [by apply (wp_ten_percent n)|]. cbv beta. intros v Hv. wp_step.
  split; [destruct (_ && _); lia|]. right. split; [done|reflexivity].
Qed.

Lemma wp_pa_manual n s lvl x :
  ctl n s -> minLevel s <= x <= maxAnalog s -> minLevel s <= micVol s <= maxLevel s ->
  wp (pa_manual s lvl x)
     (fun '(s', x') => s' = set_lastInMicLevel lvl (set_micVol x' s) /\
        minLevel s <= x' <= maxLevel s /\
        (minOutput s <= micVol s -> minOutput s <= x')).
Proof.
  intros H Hx Hv. pose proof (c_levels _ _ H) as [H0 H1 H2 HR HF H3].
  pose proof (c_max _ _ H) as Hm. unfold pa_manual.
  assert (Hx1 : exists x1, (if (x =? maxAnalog s) && (maxAnalog s <? micVol s)
             then micVol s else x) = x1 /\ minLevel s <= x1 <= maxLevel s).
  { eexists. split; [reflexivity|]. destruct (_ && _); lia. }
  destruct Hx1 as (x1 & -> & Hx1). wp_step.
  apply (wp_mono _ (fun '(s', x2) => exists u, s' = set_micVol u s /\
     minLevel s <= u <= maxLevel s /\ minLevel s <= x2 <= maxLevel s /\
     (minOutput s <= micVol s -> minOutput s <= u) /\
     (x2 <> u -> minOutput s <= x2))).
  { destruct (negb (x1 =? micVol s) && (x1 <? minOutput s)) eqn:E.
    - wp_step. eapply wp_mono; [by apply (wp_ten_percent n)|]. cbv beta. intros v Hv'. wp_step.
      exists v. split; [reflexivity|lia].
    - wp_step. exists (micVol s). split; [by destruct s|].
      destruct (Z.eqb_spec x1 (micVol s)), (Z.ltb_spec x1 (minOutput s)); try done; lia. }
  intros [s2 x2] (u & -> & Hu & Hx2 & Hmo & Hne). cbn [negb].
  change (micVol (set_micVol u s)) with u.
  change (lastInMicLevel (set_micVol u s)) with (lastInMicLevel s).
  destruct (Z.eqb_spec x2 u) as [->|Hd]; cbn [negb].
  - change (maxLevel (set_micVol u s)) with (maxLevel s).
    rewrite (proj2 (Z.ltb_ge _ _)) by lia. wp_step. split; [reflexivity|lia].
  - case_if.
    + change (maxLevel (set_micVol u s)) with (maxLevel s).
      rewrite (proj2 (Z.ltb_ge _ _)) by lia. wp_step. split; [reflexivity|lia].
    + change (maxLevel (set_micVol x2 (set_micVol u s))) with (maxLevel s).
      rewrite (proj2 (Z.ltb_ge _ _)) by lia. wp_step. split; [reflexivity|lia].
Qed.

Lemma ctl_set_volume n s v l f :
  ctl n s -> ctl n (set_lastInMicLevel l (set_micVol v (set_firstCall f s))).
Proof. intros H. open_ctl H. close_ctl. Qed.

(** The fields kept by the controller carry their part of the invariant over. *)
Lemma agc_ok_step n n' s s' f l v :
  agc_ok n s ->
  untouched s' = untouched (set_lastInMicLevel l (set_micVol v (set_firstCall f s))) ->
  ctl n' s' -> minOutput s' <= micVol s' <= maxLevel s' -> f <> 0 ->
  agc_ok n' s'.
Proof.
  intros [H1 H2 H3 H4 H5 H6 H7 H8 H9 H10 H11 H12 H13 H14] E Hc Hv Hf.
  pose proof (c_levels _ _ Hc) as [L0 L1 L2 LR LF L3].
  unfold untouched in E. cbn in E. injection E. intros.
  repeat match goal with
    | Hx : ?g s' = ?g s, Hy : context [?g s] |- _ =>
        lazymatch Hy with Hx => fail | _ => rewrite <- Hx in Hy end
    end.
  constructor; first [done|lia].
Qed.

Lemma wp_ProcessAnalog n s lvl out r echo w :
  agc_ok n s -> 0 <= n <= block_bound - 5 ->
  minLevel s <= lvl <= maxAnalog s ->
  wp (WebRtcAgc_ProcessAnalog s lvl out r echo w)
     (fun '(ret, s', out', _) => ret = 0 /\ agc_ok (n + 5) s' /\
        inQueue s' = inQueue s /\ out' = Z.min (micVol s') (maxAnalog s') /\
        maxAnalog s' = maxAnalog s /\ minLevel s' = minLevel s /\
        minOutput s' = minOutput s /\ setup s' = setup s /\
        digitalAgc s' = digitalAgc s /\ minOutput s <= micVol s' <= maxLevel s').
Proof.
  intros H Hn Hlvl. pose proof (a_ctl _ _ H) as Hc. pose proof (a_vol _ _ H) as Hv.
  pose proof (c_levels _ _ Hc) as [H0 H1 H2 HR HF H3]. pose proof (c_max _ _ Hc) as Hm.
  unfold WebRtcAgc_ProcessAnalog. rewrite H3.
  wp_step. apply wp_shl32; [lia|rewrite Z.shiftl_0_r; unfold i32; lia|].
  rewrite Z.shiftl_0_r. rewrite !(proj2 (Z.ltb_ge _ _)) by lia.
  wp_step. eapply wp_mono; [by apply (wp_pa_first_call n)|].
  intros [s1 x1] (Hx1 & Hcase).
  assert (Hs1 : exists f u, s1 = set_micVol u (set_firstCall f s) /\ f <> 0 /\
     minLevel s <= u <= maxLevel s /\
     (minOutput s <= u \/ envSum s = 0 /\ msTooHigh s <= 0)).
  { destruct Hcase as [[Hf ->]|[Hf ->]].
    - exists (firstCall s), (micVol s). split; [by destruct s|].
      pose proof (a_next _ _ H Hf). lia.
    - exists 1, x1. pose proof (a_first _ _ H Hf). split; [reflexivity|lia]. }
  destruct Hs1 as (f & u & -> & Hf & Hu & Hmo). clear Hcase.
  pose proof (ctl_set_volume n s u (lastInMicLevel s) f Hc) as Hc1.
  wp_step. eapply wp_mono.
  { apply (wp_pa_manual n); [|exact Hx1|exact Hu].
    open_ctl Hc. close_ctl. }
  intros [s2 x2] (-> & Hx2 & Hmo2). cbn in Hx2, Hmo2.
  wp_step. eapply wp_mono.
  { apply (wp_pa_control n).
    - apply (ctl_set_volume n s x2 lvl f Hc).
    - done.
    - cbn; lia.
    - cbn; lia.
    - cbn; lia. }
  intros [s3 w3] (G1 & G2 & G3 & _).
  change (minOutput _) with (minOutput s) in G3 at 1.
  assert (E3 : untouched s3 =
     untouched (set_lastInMicLevel lvl (set_micVol x2 (set_firstCall f s)))) by exact G2.
  destruct (untouched_levels _ _ E3) as (E1 & E2 & E4 & E5). cbn in E1, E2, E4, E5.
  pose proof (agc_ok_step n (n + 5) s s3 f lvl x2 H E3 G1 ltac:(lia) Hf) as Hok.
  pose proof (lev_scale _ (c_levels _ _ G1)) as Hsc. rewrite Hsc.
  assert (E6 : inQueue s3 = inQueue s /\ setup s3 = setup s /\
     digitalAgc s3 = digitalAgc s)
    by (unfold untouched in E3; unfold setup, usage; cbn in E3; injection E3; intros;
        split_and!; congruence).
  wp_step. apply wp_shr32; [lia|]. rewrite Z.shiftr_0_r. wp_step.
  split_and!; try done; try lia; try apply E6.
  unfold WEBRTC_SPL_MIN. case_if; lia.
Qed.

(** ** Process *)

Lemma ctl_mono n n' s : ctl n s -> n <= n' -> ctl n' s.
Proof. intros H Hn. pose proof (c_160 _ _ H). open_ctl H. close_ctl. Qed.

Lemma agc_ok_mono n n' s : agc_ok n s -> n <= n' -> agc_ok n' s.
Proof.
  intros [] Hn. constructor; try done. by apply (ctl_mono n).
Qed.

Lemma agc_ok_digital n s d :
  agc_ok n s -> digital_ok d -> agc_ok n (set_digitalAgc d s).
Proof.
  intros [Hc] Hd. constructor; try done. clear - Hc. open_ctl Hc. close_ctl.
Qed.

Lemma agc_ok_advance n s : agc_ok n s -> agc_ok n (advance_queue s).
Proof.
  intros H. pose proof (a_queue _ _ H) as Hq. unfold advance_queue.
  destruct (Z.ltb_spec 1 (inQueue s)) as [H1|H1].
  - assert (E : inQueue s = 2) by lia. cbn [inQueue].
    change (inQueue (set_Rxx16w32_array0 _ _)) with (inQueue s). rewrite E.
    change (to_i16 (2 - 1)) with 1. change (0 <? 2) with true. cbv iota.
    destruct (a_arr1 _ _ H E) as [A1 A2]. destruct (a_env1 _ _ H) as [B1 B2].
    destruct H as [Hc]. constructor; try done; cbn; try lia.
    clear - Hc A1 A2 B1 B2. open_ctl Hc. close_ctl.
  - destruct (Z.ltb_spec 0 (inQueue s)); [|done].
    assert (E : inQueue s = 1) by lia. rewrite E. change (to_i16 (1 - 1)) with 0.
    destruct H as [Hc]. constructor; try done; cbn; try lia.
    clear - Hc. open_ctl Hc. close_ctl.
Qed.

Lemma ProcessAnalog_rejects s lvl out r echo w :
  scale s = 0 -> i32 lvl -> ~ minLevel s <= lvl <= maxAnalog s ->
  WebRtcAgc_ProcessAnalog s lvl out r echo w = Ok (-1, s, out, w).
Proof.
  intros Hs Hl Hr. unfold WebRtcAgc_ProcessAnalog. rewrite Hs.
  unfold shl32. rewrite Z.shiftl_0_r. cbn [Z.leb Z.compare andb].
  rewrite chk32_ok by done. cbn [mbind res_bind].
  destruct (Z.ltb_spec (maxAnalog s) lvl); [done|].
  destruct (Z.ltb_spec lvl (minLevel s)); [done|lia].
Qed.

(** The frame a call processes, from its arguments. *)
Definition frame_args_ok (s : LegacyAgc) (L : nat) (L2 : Z) (samples : nat)
    (in_near out : list (list Z)) : Prop :=
  frame_size (fs s) = Some (L, L2) /\ samples = (10 * L)%nat /\
  bands_ok (10 * L) in_near out.

Lemma frame_args_length s L L2 samples in_near out :
  frame_args_ok s L L2 samples in_near out ->
  frame_length_ok (fs s) samples = true.
Proof.
  intros (Hf & -> & _). unfold frame_size, frame_length_ok in *.
  destruct (fs s =? 8000); [by injection Hf as <- <-|].
  destruct (_ || _ || _); [by injection Hf as <- <-|done].
Qed.

(** The number of samples of a frame. *)
Definition frame_len (rate : Z) : nat := if rate =? 8000 then 80 else 160.

Lemma frame_size_len rate L L2 :
  frame_size rate = Some (L, L2) -> (10 * L)%nat = frame_len rate.
Proof.
  unfold frame_size, frame_len. repeat case_if; try done; by intros [= <- _].
Qed.

(** What [WebRtcAgc_Process] promises for a frame the near-end VAD accepts. *)
Definition process_post (n : Z) (s : LegacyAgc) (lvl : Z) (out : list (list Z))
    (p : process_result) : Prop :=
  (Forall samples16 (p_out p) /\ map length (p_out p) = map length out /\
   map (drop (frame_len (fs s))) (p_out p) = map (drop (frame_len (fs s))) out) /\
  exists s', p_agc p = Some s' /\ agc_ok (n + 5) s' /\ setup s' = setup s /\
  if analog_runs s then
    if (minLevel s <=? lvl) && (lvl <=? maxAnalog s)
    then p_ret p = 0 /\ minOutput s <= p_level p <= maxAnalog s /\
         p_level p = Z.min (micVol s') (maxAnalog s) /\
         inQueue s' = Z.max 0 (inQueue s - 1)
    else p_ret p = -1 /\ p_level p = lvl /\ inQueue s' = inQueue s
  else p_ret p = 0 /\ p_level p = lvl /\ inQueue s' = Z.max 0 (inQueue s - 1).

Lemma advance_queue_count s :
  0 <= inQueue s <= 2 ->
  inQueue (advance_queue s) = Z.max 0 (inQueue s - 1) /\
  micVol (advance_queue s) = micVol s /\ setup (advance_queue s) = setup s.
Proof.
  intros Hq. unfold advance_queue.
  assert (E : inQueue s = 0 \/ inQueue s = 1 \/ inQueue s = 2) by lia.
  destruct E as [E|[E|E]]; rewrite E; cbn; rewrite ?E; by split_and!.
Qed.

Lemma wp_Process n s in_near samples out lvl lvl0 echo w0 L L2 :
  agc_ok n s -> 0 <= n <= block_bound - 5 -> i32 lvl ->
  frame_args_ok s L L2 samples in_near out ->
  is_ok (WebRtcAgc_ProcessVad (vadNearend (digitalAgc s))
           (first_band (10 * L) in_near out) (Z.of_nat L * 10)) = true ->
  wp (WebRtcAgc_Process (Some s) in_near samples out lvl lvl0 echo w0)
     (process_post n s lvl out).
Proof.
  intros H Hn Hlvl Hargs Hvad. unfold WebRtcAgc_Process.
  rewrite (frame_args_length _ _ _ _ _ _ Hargs). cbn [negb].
  destruct Hargs as (Hf & -> & Hb).
  wp_step. eapply wp_mono; [by apply (wp_ProcessDigital _ _ _ _ _ _ _ Hf (a_digital _ _ H))|].
  intros [[ret d] out'] (-> & Hd & _ & _ & _ & Hout).
  rewrite (frame_size_len _ _ _ Hf) in Hout.
  change (0 =? -1) with false. cbv iota.
  pose proof (agc_ok_digital n s d H Hd) as H1.
  change (analog_runs (set_digitalAgc d s)) with (analog_runs s).
  pose proof (a_queue _ _ H) as Hq. unfold process_post.
  destruct (analog_runs s).
  - destruct (andb (minLevel s <=? lvl) (lvl <=? maxAnalog s)) eqn:Er.
    + wp_step. eapply wp_mono.
      { apply (wp_ProcessAnalog n); [done|done|cbn; lia]. }
      intros [[[ret s'] lv] w'] (-> & Hok & Eq & -> & E1 & E2 & E3 & E4 & _ & Hv).
      change (0 =? -1) with false. cbv iota. wp_step. cbn in Eq, E1, E2, E3, Hv.
      destruct (advance_queue_count s' ltac:(lia)) as (Q1 & Q2 & Q3). cbn.
      pose proof (lev_out _ (c_levels _ _ (a_ctl _ _ H))).
      split; [exact Hout|]. eexists; split; [done|].
      split; [by apply agc_ok_advance|]. rewrite Q1, Q2, Q3.
      split; [exact E4|lia].
    + rewrite ProcessAnalog_rejects; [|apply (lev_scale _ (c_levels _ _ (a_ctl _ _ H)))
        |done|cbn; lia].
      wp_step. wp_step. change (-1 =? -1) with true. cbv iota. wp_step. cbn.
      split; [exact Hout|]. eexists; split; [done|].
      split; [apply (agc_ok_mono n); [done|lia]|]. by split.
  - wp_step. wp_step. change (0 =? -1) with false. cbv iota. wp_step. cbn.
    destruct (advance_queue_count (set_digitalAgc d s) Hq) as (Q1 & _ & Q3).
    split; [exact Hout|]. eexists; split; [done|].
    split; [apply agc_ok_advance, (agc_ok_mono n); [done|lia]|].
    rewrite Q1, Q3. by split_and!.
Qed.

Lemma advance_queue_digital s : digitalAgc (advance_queue s) = digitalAgc s.
Proof. unfold advance_queue. by repeat case_if. Qed.

(** The near-end VAD of the new state is the one after this frame. *)
Lemma Process_vad n s in_near samples out lvl lvl0 echo w0 L L2 p s' :
  agc_ok n s -> 0 <= n <= block_bound - 5 -> i32 lvl ->
  frame_args_ok s L L2 samples in_near out ->
  WebRtcAgc_Process (Some s) in_near samples out lvl lvl0 echo w0 = Ok p ->
  p_agc p = Some s' ->
  exists r, WebRtcAgc_ProcessVad (vadNearend (digitalAgc s))
              (first_band (10 * L) in_near out) (Z.of_nat L * 10) =
            Ok (vadNearend (digitalAgc s'), r).
Proof.
  intros H Hn Hlvl Hargs E Es. unfold WebRtcAgc_Process in E.
  rewrite (frame_args_length _ _ _ _ _ _ Hargs) in E. cbn [negb] in E.
  destruct Hargs as (Hf & -> & Hb).
  apply bind_inv in E as ([[ret d] out'] & Ed & E).
  destruct (ProcessDigital_vad _ _ _ _ _ _ _ _ _ _ Hf Hb Ed) as (r & ->).
  exists r. do 2 f_equal.
  assert (Hd : digitalAgc s' = d); [|by rewrite Hd].
  pose proof (wp_ProcessDigital _ _ _ _ _ _ (lowLevelSignal s) Hf (a_digital _ _ H) Hb) as Hw.
  rewrite Ed in Hw. destruct (ProcessDigital_vad _ _ _ _ _ _ _ _ _ _ Hf Hb Ed) as (r' & Er).
  rewrite Er in Hw. destruct (Hw eq_refl) as (-> & Hok & _). clear Hw.
  change (0 =? -1) with false in E. cbv iota zeta in E.
  pose proof (agc_ok_digital n s d H Hok) as H1.
  change (analog_runs (set_digitalAgc d s)) with (analog_runs s) in E.
  apply bind_inv in E as ([[[ret s2] lv] w'] & Ea & E).
  assert (Hs2 : digitalAgc s2 = d).
  { destruct (analog_runs s); [|by injection Ea as <- <- <- <-].
    destruct (andb (minLevel s <=? lvl) (lvl <=? maxAnalog s)) eqn:Er2.
    - pose proof (wp_ProcessAnalog n (set_digitalAgc d s) lvl lvl
        (logRatio (vadMic (set_digitalAgc d s))) echo 0 H1 Hn ltac:(cbn; lia)) as Hw.
      rewrite Ea in Hw. by destruct Hw as (_ & _ & _ & _ & _ & _ & _ & _ & -> & _).
    - rewrite ProcessAnalog_rejects in Ea; [by injection Ea as <- <- <- <-
        |apply (lev_scale _ (c_levels _ _ (a_ctl _ _ H)))|done|cbn; lia]. }
  destruct (ret =? -1); injection E as <-; injection Es as <-; [done|].
  by rewrite advance_queue_digital.
Qed.

(** * Theorems *)

(** The weights of both volume-raising curves exceed one (16384 in Q14) and
    stay below 1.55 on the whole normalised volume range, so a raised level is
    never below the level it started from. *)
Lemma raise_curves_above_one v :
  0 <= v <= 16384 ->
  exists w1 w2, raise_weight kOffset1 kSlope1 v = Ok w1 /\
                raise_weight kOffset2 kSlope2 v = Ok w2 /\
                16384 < w1 <= 25395 /\ 16384 < w2 <= 25395.
Proof.
  intros Hv.
  destruct (proj1 (wp_ok _ _) (wp_raise_weight kOffset1 kSlope1 v
              ltac:(by left) Hv)) as (w1 & E1 & H1).
  destruct (proj1 (wp_ok _ _) (wp_raise_weight kOffset2 kSlope2 v
              ltac:(by right) Hv)) as (w2 & E2 & H2).
  by exists w1, w2.
Qed.

(** The 16-bit [envSum] wraps: after three loud frames that stay just below
    the threshold of 25000, a frame of full-scale subframes makes the sum
    34963, which wraps to a negative number; the saturation of the loudest
    possible frame is not reported and the sum is left far below zero. *)
Lemma saturation_missed s :
  envSum s = 0 ->
  let full := replicate 10 1073741824 in
  let loud := replicate 5 1006632960 ++ replicate 5 0 in
  exists s1 s2 s3 s4,
    WebRtcAgc_SaturationCtrl s 0 full = Ok (s1, 0) /\
    WebRtcAgc_SaturationCtrl s1 0 full = Ok (s2, 0) /\
    WebRtcAgc_SaturationCtrl s2 0 loud = Ok (s3, 0) /\
    envSum s3 = 24723 /\
    WebRtcAgc_SaturationCtrl s3 0 full = Ok (s4, 0) /\ envSum s4 = -30267.
Proof.
  intros E full loud.
  exists (set_envSum 10137 s), (set_envSum 20173 s), (set_envSum 24723 s),
    (set_envSum (-30267) s).
  split; [unfold WebRtcAgc_SaturationCtrl; rewrite E; reflexivity|].
  split_and!; reflexivity.
Qed.

(** ** Drift of the frame energy *)

Lemma pa_energy_exact i s e old :
  Rxx16w32_array0 s !! Z.to_nat i = Some e -> 0 <= i < 5 ->
  Rxx16_vectorw32 s !! Z.to_nat (Rxx16pos s) = Some old -> 0 <= Rxx16pos s <= 9 ->
  level_range e -> level_range old -> level_range (Rxx16_LPw32 s) ->
  -1073741824 <= Rxx160w32 s <= 1073741824 ->
  wp (pa_energy i s) (fun s' =>
    Rxx160w32 s' = Rxx160w32 s + (e - old) / 8 /\
    Rxx16_vectorw32 s' = <[Z.to_nat (Rxx16pos s) := e]> (Rxx16_vectorw32 s) /\
    Rxx16pos s' = (Rxx16pos s + 1) mod 10 /\
    level_range (Rxx16_LPw32 s') /\ Rxx16w32_array0 s' = Rxx16w32_array0 s).
Proof.
  intros He Hi Hold Hpos Hle Hlo Hlp HR. unfold pa_energy.
  pose proof (lookup_lt_Some _ _ _ He). pose proof (lookup_lt_Some _ _ _ Hold).
  wp_step. apply wp_rd; [unfold zlen; lia|]. intros e' He'.
  rewrite He in He'. injection He' as <-.
  wp_step. apply wp_rd; [unfold zlen; lia|]. intros o' Ho'.
  rewrite Hold in Ho'. injection Ho' as <-. unfold level_range in *.
  wp_step. wp_step. rewrite Z.shiftr_div_pow2 by lia. eval_pow2.
  assert (-134217728 <= (e - old) / 8 <= 134217728)
    by (Z.to_euclidean_division_equations; lia).
  wp_step. apply wp_add32; [unfold i32; lia|].
  wp_step. apply wp_wr; [unfold zlen; lia|].
  wp_step. wp_step. unfold kAlphaShortTerm. wp_step. apply wp_shr32; [lia|].
  rewrite Z.shiftr_div_pow2 by lia. eval_pow2.
  assert (0 <= Rxx16_LPw32 s + (e - Rxx16_LPw32 s) / 64 <= 1073741824)
    by (clear - Hle Hlp; Z.to_euclidean_division_equations; lia).
  wp_step. apply wp_add32; [unfold i32; lia|]. wp_step. cbn.
  split_and!; try done; try lia. unfold RXX_BUFFER_LEN.
  rewrite to_i16_id by (unfold i16; lia).
  destruct (Z.eqb_spec (Rxx16pos s + 1) 10) as [Ep|Ep];
    clear - Hpos Ep; Z.to_euclidean_division_equations; lia.
Qed.

(** One frame replaces half of the buffer: blocks [k] to [k + 4]. *)
Lemma wp_one_frame e old r (k : Z) s :
  let d := (e - old) / 8 in
  level_range e -> level_range old -> -1073741824 <= r <= 1073741824 ->
  -1073741824 <= r + 10 * d <= 1073741824 -> k = 0 \/ k = 5 ->
  Rxx16_vectorw32 s = replicate (Z.to_nat k) e ++ replicate (10 - Z.to_nat k) old ->
  Rxx16pos s = k -> level_range (Rxx16_LPw32 s) -> Rxx160w32 s = r + k * d ->
  wp (for_ 5 0 pa_energy (set_Rxx16w32_array0 (replicate 5 e) s)) (fun s' =>
    Rxx16_vectorw32 s' =
      replicate (Z.to_nat k + 5) e ++ replicate (5 - Z.to_nat k) old /\
    Rxx16pos s' = (k + 5) mod 10 /\ level_range (Rxx16_LPw32 s') /\
    Rxx160w32 s' = r + (k + 5) * d).
Proof.
  intros d He Ho Hr1 Hr2 Hk Hv Hp Hl Hr.
  apply (wp_for (fun j s' =>
    Rxx16w32_array0 s' = replicate 5 e /\
    Rxx16_vectorw32 s' = replicate (Z.to_nat (k + j)) e ++
                         replicate (10 - Z.to_nat (k + j)) old /\
    Rxx16pos s' = (k + j) mod 10 /\ level_range (Rxx16_LPw32 s') /\
    Rxx160w32 s' = r + (k + j) * d)).
  - cbn. rewrite !Z.add_0_r. split_and!; try done.
    destruct Hk as [->| ->]; done.
  - intros j t Hj (A1 & A2 & A3 & A4 & A5).
    assert (Hkj : 0 <= k + j <= 9) by lia.
    rewrite Z.mod_small in A3 by lia.
    eapply wp_mono.
    { apply (pa_energy_exact j t e old); rewrite ?A1, ?A2, ?A3; try done; try lia.
      - rewrite lookup_replicate_2; [done|lia].
      - rewrite lookup_app_r; rewrite length_replicate; [|lia].
        apply lookup_replicate_2. lia.
      - rewrite A5. nia. }
    intros t' (B1 & B2 & B3 & B4 & B5). rewrite B1, B2, B3, B5, A1, A2, A3, A5.
    split_and!; try done; try (f_equal; lia); [|lia].
    rewrite insert_app_r_alt; rewrite length_replicate; [|lia].
    replace (Z.to_nat (k + j) - Z.to_nat (k + j))%nat with 0%nat by lia.
    replace (10 - Z.to_nat (k + j))%nat
      with (S (10 - Z.to_nat (k + (j + 1)))) by lia.
    replace (Z.to_nat (k + (j + 1))) with (Z.to_nat (k + j) + 1)%nat by lia.
    rewrite replicate_add, <- app_assoc. done.
  - intros t (A1 & A2 & A3 & A4 & A5). change (0 + Z.of_nat 5) with 5 in *.
    rewrite A2, A3, A5. split_and!; try done.
    destruct Hk as [->| ->]; done.
Qed.

(** Two frames whose ten blocks have energy [e]. *)
Definition two_frames (e : Z) (s : LegacyAgc) : res LegacyAgc :=
  let frame s := for_ 5 0 pa_energy (set_Rxx16w32_array0 (replicate 5 e) s) in
  s ← frame s; frame s.

Definition steady (e r : Z) (s : LegacyAgc) : Prop :=
  Rxx16_vectorw32 s = replicate 10 e /\ Rxx16pos s = 0 /\
  level_range (Rxx16_LPw32 s) /\ Rxx160w32 s = r.

(** Replacing the whole buffer adds ten times the rounded difference. *)
Lemma wp_two_frames e old r s :
  level_range e -> level_range old -> steady old r s ->
  -1073741824 <= r <= 1073741824 ->
  -1073741824 <= r + 10 * ((e - old) / 8) <= 1073741824 ->
  wp (two_frames e s) (steady e (r + 10 * ((e - old) / 8))).
Proof.
  intros He Ho (Hv & Hp & Hl & Hr) Hr1 Hr2. unfold two_frames.
  set (d := (e - old) / 8) in *.
  wp_step. eapply wp_mono; [apply (wp_one_frame e old r 0); try done; lia|].
  intros s1 (A1 & A2 & A3 & A4).
  eapply wp_mono; [apply (wp_one_frame e old r 5); try done; lia|].
  intros s2 (B1 & B2 & B3 & B4). split_and!; try done.
Qed.

(** [k] times: the energy of every block goes up by one and down again. *)
Fixpoint energy_cycles (k : nat) (e : Z) (s : LegacyAgc) : res LegacyAgc :=
  match k with
  | O => Ok s
  | S k' => s ← two_frames (e + 1) s; s ← two_frames e s; energy_cycles k' e s
  end.

(** The running frame energy drifts: each cycle in which the block energies
    rise by one and fall back to where they were lowers [Rxx160w32] by ten,
    although the buffer it is meant to sum up is the same again; nothing ever
    corrects the loss. *)
Lemma frame_energy_drifts k e r s :
  0 <= e < 1073741824 -> steady e r s -> r <= 1073741824 ->
  10 * Z.of_nat k - 1073741824 <= r ->
  exists s', energy_cycles k e s = Ok s' /\ steady e (r - 10 * Z.of_nat k) s'.
Proof.
  intros He Hs Hr Hk. apply wp_ok. revert r s Hs Hr Hk.
  induction k as [|k IH]; intros r s Hs Hr Hk.
  { cbn. by rewrite Z.sub_0_r. }
  assert (E1 : (e + 1 - e) / 8 = 0) by (replace (e + 1 - e) with 1 by lia; done).
  assert (E2 : (e - (e + 1)) / 8 = -1)
    by (replace (e - (e + 1)) with (-1) by lia; done).
  cbn [energy_cycles]. wp_step. eapply wp_mono.
  { apply (wp_two_frames (e + 1) e r); try done; unfold level_range; lia. }
  rewrite E1. intros s1 H1. wp_step. eapply wp_mono.
  { apply (wp_two_frames e (e + 1)); [..|exact H1| |];
      try (unfold level_range; lia); lia. }
  rewrite E2. intros s2 H2. eapply wp_mono.
  { apply (IH (r - 10)); [|lia|lia].
    by replace (r - 10) with (r + 10 * 0 + 10 * -1) by lia. }
  cbv beta. intros s3 H3.
  by replace (r - 10 * Z.of_nat (S k)) with (r - 10 - 10 * Z.of_nat k) by lia.
Qed.

