(* ===== verification/Session.v ===== *)
(** * Sessions of the AGC

    Every operation of the instance establishes or preserves the invariant
    [agc_ok]: [WebRtcAgc_Init], [WebRtcAgc_set_config], [WebRtcAgc_AddFarend],
    [WebRtcAgc_AddMic], [WebRtcAgc_VirtualMic] and [WebRtcAgc_Process]; a session
    is any sequence of them. *)
From S2P Require Import Prelude CInt Spl Vad GainTable Digital Instance Mic Analog.

(** ** Initialisation *)

(** Level ranges for which the fixed-point arithmetic of the controller is
    exact; the range is fixed in the adaptive digital mode. *)
Definition level_args_ok (mode lo hi : Z) : Prop :=
  i32 lo /\ i32 hi /\
  (mode = kAgcModeAdaptiveDigital \/ 0 <= lo /\ lo + 42 <= hi <= 104857).

Definition with_levels (lo hi top mo vol : Z) (s : LegacyAgc) : LegacyAgc :=
  s |> set_scale 0 |> set_minLevel lo |> set_maxAnalog hi
    |> set_maxLevel top |> set_maxInit top |> set_zeroCtrlMax hi
    |> set_lastInMicLevel 0 |> set_micVol vol |> set_micRef vol
    |> set_micGainIdx 127 |> set_minOutput mo.

(** The derived levels: a quarter of the range on top, four percent at the
    bottom. *)
Definition derived_levels (lo hi top mo vol : Z) : Prop :=
  0 <= lo /\ lo + 42 <= hi <= 104857 /\ lo <= vol <= hi /\
  hi <= top <= 131071 /\ 4 * (top - hi) <= hi - lo /\
  lo + 2 <= mo <= hi /\ 256 * (mo - lo) <= 10 * (top - lo).

(** Whatever scale is computed first, it ends up 0. *)
Lemma scale_reset v s :
  set_scale 0 (if scale (set_scale v s) <? 0 then set_scale 0 (set_scale v s)
               else set_scale v s) = set_scale 0 s.
Proof. by destruct s; destruct (_ <? 0). Qed.

Lemma wp_init_levels lo hi s :
  level_args_ok (agcMode s) lo hi ->
  wp (init_levels lo hi s)
     (fun '(lo', hi', s') =>
        (agcMode s <> kAgcModeAdaptiveDigital -> lo' = lo /\ hi' = hi) /\
        (agcMode s = kAgcModeAdaptiveDigital -> lo' = 0 /\ hi' = 255) /\
        exists top mo vol, derived_levels lo' hi' top mo vol /\
          s' = with_levels lo' hi' top mo vol s).
Proof.
  intros (Hlo & Hhi & Hr). unfold init_levels, shl32.
  cbv zeta. rewrite scale_reset.
  change (scale (set_scale 0 s)) with 0.
  change (agcMode (set_scale 0 s)) with (agcMode s).
  rewrite !Z.shiftl_0_r. cbn [Z.leb Z.compare andb].
  rewrite !chk32_ok by done. rewrite !bind_ok.
  set (digital := agcMode s =? kAgcModeAdaptiveDigital).
  set (lo' := if digital then 0 else lo). set (hi' := if digital then 255 else hi).
  assert (Hr' : 0 <= lo' /\ lo' + 42 <= hi' <= 104857).
  { unfold lo', hi', digital. destruct (Z.eqb_spec (agcMode s) kAgcModeAdaptiveDigital);
      lia. }
  assert (Hsame : agcMode s <> kAgcModeAdaptiveDigital -> lo' = lo /\ hi' = hi).
  { intros Hne. unfold lo', hi', digital. by rewrite (proj2 (Z.eqb_neq _ _) Hne). }
  assert (Hfix : agcMode s = kAgcModeAdaptiveDigital -> lo' = 0 /\ hi' = 255).
  { intros He. unfold lo', hi', digital. by rewrite (proj2 (Z.eqb_eq _ _) He). }
  assert (Hvol : lo' <= (if digital then 127 else hi') <= hi').
  { destruct digital; [unfold lo', hi'; lia|lia]. }
  clearbody lo' hi'.
  wp_step. wp_step. wp_step. apply wp_div32; [done|cint|].
  rewrite Z.quot_div_nonneg by lia.
  assert (0 <= (hi' - lo') / 4 <= 26214 /\
          4 * ((hi' - lo') / 4) <= hi' - lo' < 4 * ((hi' - lo') / 4) + 4)
    by (Z.to_euclidean_division_equations; lia).
  remember ((hi' - lo') / 4) as add eqn:Eadd.
  wp_step. wp_step. cbn [minLevel maxLevel].
  wp_step. apply wp_sub32; [cbn; unfold i32; lia|]. cbn.
  wp_step. apply wp_mul32; [unfold i32; lia|].
  rewrite Z.shiftr_div_pow2 by lia. eval_pow2.
  wp_step. apply wp_add32; [unfold i32; Z.to_euclidean_division_equations; lia|].
  wp_step. split; [done|]. split; [done|].
  exists (hi' + add), (lo' + (hi' + add - lo') * 10 / 256),
    (if digital then 127 else hi'). split; [|reflexivity].
  unfold derived_levels. clear Hsame Hfix Eadd Hlo Hhi.
  Z.to_euclidean_division_equations. lia.
Qed.

Lemma MemSetW32_zero l : length l = 8%nat ->
  WebRtcSpl_MemSetW32 l 0 8 = Ok (replicate 8 0).
Proof.
  intros H. do 8 (destruct l as [|? l]; [done|]). destruct l; [|done]. reflexivity.
Qed.

(** The state [WebRtcAgc_Init] passes to [WebRtcAgc_set_config]. *)
Definition before_config (mode rate lo hi top mo vol : Z) (stt : LegacyAgc)
    : LegacyAgc :=
  with_levels lo hi top mo vol
    (stt |> set_digitalAgc (snd (WebRtcAgc_InitDigital (digitalAgc stt) mode))
         |> set_envSum 0 |> set_agcMode mode |> set_fs rate
         |> set_vadMic WebRtcAgc_InitVad).

Definition with_buffers (s : LegacyAgc) : LegacyAgc :=
  s |> set_Rxx16_vectorw32 (replicate 10 1000) |> set_Rxx160w32 1250
    |> set_Rxx16pos 0 |> set_Rxx16_LPw32 16284
    |> set_Rxx16w32_array0 (replicate 5 0)
    |> set_env0 (replicate 10 0) |> set_env1 (replicate 10 0)
    |> set_inQueue 0 |> set_filterState (replicate 8 0)
    |> set_initFlag kInitCheck |> set_defaultConfig default_config.

Lemma init_buffers_eq s :
  length (filterState s) = 8%nat -> init_buffers s = Ok (with_buffers s).
Proof.
  intros H. unfold init_buffers. by rewrite MemSetW32_zero, bind_ok.
Qed.

(** The state at the end of [WebRtcAgc_Init]. *)
Definition init_state (mode rate lo hi top mo vol : Z) (table : list Z)
    (stt : LegacyAgc) : LegacyAgc :=
  set_lowLevelSignal 0 (set_Rxx160_LPw32 13420950
    (with_config default_config table
      (with_buffers (init_counters
        (before_config mode rate lo hi top mo vol stt))))).

Section init_state.
Context (mode rate lo hi top mo vol : Z) (table : list Z) (stt : LegacyAgc).
Context (Hlev : derived_levels lo hi top mo vol) (Ht : table_range table).
Context (Hmode : mode = kAgcModeAdaptiveDigital -> lo = 0 /\ hi = 255).
Let s := init_state mode rate lo hi top mo vol table stt.

Lemma init_levels_ok : levels_ok s.
Proof.
  destruct Hlev as (H0 & H1 & H2 & H3 & H4 & H5 & H6).
  constructor; cbn; lia.
Qed.

Lemma init_limits_ok : limits_ok s.
Proof. constructor; cbn; lia. Qed.

Lemma init_ctl_ok : ctl 0 s.
Proof.
  pose proof init_levels_ok as HL. pose proof init_limits_ok as HM.
  destruct Hlev as (H0 & H1 & H2 & H3 & H4 & H5 & H6).
  constructor; cbn; try exact HL; try exact HM;
    try (unfold level_range, i16, kMsecSpeechOuter, kMsecSpeechInner,
           kNormalVadThreshold; lia);
    try reflexivity; repeat constructor; unfold level_range; lia.
Qed.

Lemma init_state_ok : agc_ok 0 s.
Proof.
  pose proof init_ctl_ok as HC.
  destruct Hlev as (H0 & H1 & H2 & H3 & H4 & H5 & H6).
  constructor; cbn; try lia; try reflexivity.
  - exact HC.
  - apply vad_ok_init.
  - apply (InitDigital_ok (set_gainTable table (digitalAgc stt)) mode Ht).
  - split; [repeat constructor; unfold level_range; lia|reflexivity].
  - apply filt_ok_zero.
Qed.
End init_state.

(** A level below 2^26 has none of the bits the check rejects. *)
Lemma land_high_zero x : 0 <= x < 67108864 -> Z.land x 4227858432 = 0.
Proof.
  intros Hx. assert (E : Z.land x (2 ^ 26 - 1) = x)
    by (rewrite land_mask by done; apply Z.mod_small; done).
  by rewrite <- E, <- Z.land_assoc, Z.land_0_r.
Qed.

Lemma wp_Init stt lo hi mode rate :
  length (filterState stt) = 8%nat -> 0 <= mode <= 3 -> level_args_ok mode lo hi ->
  wp (WebRtcAgc_Init stt lo hi mode rate)
     (fun '(ret, s) => ret = 0 /\ agc_ok 0 s /\ fs s = rate /\ agcMode s = mode /\
        usedConfig s = default_config /\
        (mode <> kAgcModeAdaptiveDigital -> minLevel s = lo /\ maxAnalog s = hi) /\
        vadNearend (digitalAgc s) = WebRtcAgc_InitVad).
Proof.
  intros Hf Hmode Hargs. unfold WebRtcAgc_Init.
  change (WebRtcAgc_InitDigital (digitalAgc stt) mode)
    with (0, snd (WebRtcAgc_InitDigital (digitalAgc stt) mode)).
  cbv beta iota zeta. change (negb (0 =? 0)) with false. cbv iota.
  rewrite !(proj2 (Z.ltb_ge _ _)) by (unfold kAgcModeUnchanged, kAgcModeFixedDigital; lia).
  cbn [orb]. cbv zeta.
  wp_step. eapply wp_mono; [apply wp_init_levels; exact Hargs|].
  intros [[lo' hi'] s1] (Hsame & Hfix & top & mo & vol & Hlev & ->).
  fold (before_config mode rate lo' hi' top mo vol stt).
  rewrite init_buffers_eq, bind_ok by exact Hf.
  set (s3 := with_buffers _).
  assert (I1 : initFlag s3 = kInitCheck) by reflexivity.
  assert (I6 : defaultConfig s3 = default_config) by reflexivity. rewrite I6.
  destruct (set_config_ok s3 default_config I1 default_config_ok) as (table & E & Ht).
  rewrite E, bind_ok. change (0 =? -1) with false. cbv iota.
  pose proof Hlev as (H0 & H1 & _).
  rewrite (proj2 (Z.leb_gt hi' lo')) by lia. cbn [orb].
  assert (Eb : Z.land (to_u32 hi') 4227858432 = 0).
  { rewrite to_u32_id by (unfold u32; lia). apply land_high_zero. lia. }
  rewrite Eb. change (negb (0 =? 0)) with false. cbv iota. wp_step.
  split; [done|]. split.
  - apply (init_state_ok mode rate lo' hi' top mo vol table stt); [done| |done].
    by apply (gain_table_range 9).
  - split_and!; try reflexivity; intros Hne; destruct (Hsame Hne); done.
Qed.

(** ** Outcomes up to a VAD fault

    [outcome F m Q]: [m] produces a value satisfying [Q], or it faults as [F] says;
    [vad_fault v x n]: as the VAD does in state [v] on the frame [x]. *)

Definition vad_fault (v : AgcVad) (x : list Z) (n : Z) (f : fault) : Prop :=
  frame_ok x n /\ WebRtcAgc_ProcessVad v x n = Fault f.

Definition outcome {A} (F : fault -> Prop) (m : res A) (Q : A -> Prop) : Prop :=
  match m with Ok a => Q a | Fault f => F f end.

Lemma outcome_bind {A B} F (m : res A) (k : A -> res B) Q :
  outcome F m (fun a => outcome F (k a) Q) -> outcome F (m ≫= k) Q.
Proof. by destruct m. Qed.

Lemma outcome_seq {A B} F (m : res A) (k : A -> res B) Q :
  wp m (fun a => outcome F (k a) Q) -> outcome F (m ≫= k) Q.
Proof. by destruct m. Qed.

Lemma outcome_mono {A} F (m : res A) (P Q : A -> Prop) :
  outcome F m P -> (forall a, P a -> Q a) -> outcome F m Q.
Proof. destruct m; simpl; auto. Qed.

Lemma vad_fault_overflow v x n f :
  vad_ok v -> vad_fault v x n f ->
  f = SignedOverflow /\ WebRtcAgc_ProcessVad v x n = Fault SignedOverflow.
Proof.
  intros Hv [Hx E].
  destruct (vad_outcome v x n Hv Hx) as [(st & E2 & _)|[E2 _]]; split; congruence.
Qed.

Lemma outcome_ProcessVad v x n :
  vad_ok v -> frame_ok x n ->
  outcome (vad_fault v x n) (WebRtcAgc_ProcessVad v x n)
    (fun '(v', r) => vad_ok v' /\ WebRtcAgc_ProcessVad v x n = Ok (v', r)).
Proof.
  intros Hv Hx. pose proof (wp_ProcessVad v x n Hv Hx) as Hw.
  destruct (WebRtcAgc_ProcessVad v x n) as [[v' r]|f] eqn:E; cbn in *.
  - by destruct Hw.
  - by split.
Qed.

(** ** Configuration *)

Lemma limits_with_config cfg table s : limits_ok (with_config cfg table s).
Proof. constructor; cbn; lia. Qed.

Lemma wp_set_config n s cfg :
  agc_ok n s -> config_ok cfg -> c_compressionGaindB cfg <= 18 ->
  wp (WebRtcAgc_set_config (Some s) cfg)
     (fun '(ret, o) => ret = 0 /\ exists s', o = Some s' /\ agc_ok n s' /\
        fs s' = fs s /\ agcMode s' = agcMode s /\ usedConfig s' = cfg /\
        vadNearend (digitalAgc s') = vadNearend (digitalAgc s) /\
        minLevel s' = minLevel s /\ maxAnalog s' = maxAnalog s).
Proof.
  intros H Hcfg H18.
  destruct (set_config_ok s cfg (a_init _ _ H) Hcfg) as (table & E & Ht).
  apply (gain_table_range (Z.max 7 (c_compressionGaindB cfg))) in Ht; [|lia].
  rewrite E. apply wp_ret. split; [done|]. eexists. split; [done|].
  split; [|by split_and!].
  pose proof (limits_with_config cfg table s) as HM.
  destruct H as [Hc ? ? ? ? ? Hd]. constructor; try done.
  - clear - Hc HM. destruct Hc. constructor; try done. by destruct c_levels.
  - destruct Hd as (? & ? & ? & _ & ? & ? & ?).
    unfold digital_ok. cbn. tauto.
Qed.

(** ** Far end *)

Lemma outcome_AddFarend n s x samples :
  agc_ok n s -> samples16 x -> (samples <= length x)%nat ->
  outcome (vad_fault (vadFarend (digitalAgc s)) x (Z.of_nat samples))
     (WebRtcAgc_AddFarend (Some s) x samples)
     (fun '(ret, o) => exists s', o = Some s' /\ agc_ok n s' /\ setup s' = setup s).
Proof.
  intros H Hx Hl. unfold WebRtcAgc_AddFarend.
  destruct (Z.eqb_spec (WebRtcAgc_GetAddFarendError (Some s) samples) 0) as [E|E];
    cbn [negb]; [|by exists s].
  assert (Hf : frame_ok x (Z.of_nat samples)).
  { split; [done|]. unfold WebRtcAgc_GetAddFarendError in E.
    destruct (fs s =? 8000).
    - destruct (Nat.eqb_spec samples 80) as [->|]; [right|done]. lia.
    - destruct (_ || _); [|done].
      destruct (Nat.eqb_spec samples 160) as [->|]; [left|done]. lia. }
  pose proof (a_digital _ _ H) as (D1 & D2 & D3 & D4 & D5 & D6 & D7).
  unfold WebRtcAgc_AddFarendToDigital. do 2 apply outcome_bind.
  eapply outcome_mono; [by apply outcome_ProcessVad|]. intros [v r] [Hv _]. cbn.
  eexists. split; [done|]. split; [|done]. apply agc_ok_digital; [done|].
  unfold digital_ok. cbn. tauto.
Qed.

(** ** Microphone *)

(** Buffers of a call that modifies the bands in place. *)
Definition mic_args_ok (s : LegacyAgc) (bands : list (list Z)) (samples : nat) : Prop :=
  samples = (if (fs s =? 8000)%Z then 80 else 160)%nat /\
  Forall (band_ok samples) bands /\ (0 < length bands)%nat.

Lemma wp_slow_gain n s bands samples :
  agc_ok n s -> Forall (band_ok samples) bands ->
  wp (slow_gain s bands samples)
     (fun r => exists idx bands', r = Some (set_gainTableIdx idx s, bands') /\
        0 <= idx <= 31 /\ Forall (band_ok samples) bands' /\
        map length bands' = map length bands).
Proof.
  intros H Hb. pose proof (a_ctl _ _ H) as Hc. pose proof (a_vol _ _ H) as Hv.
  pose proof (c_levels _ _ Hc) as [H0 H1 H2 HR HF H3]. pose proof (c_max _ _ Hc) as Hm.
  pose proof (a_idx _ _ H) as Hi. pose proof (a_add _ _ H) as Ha.
  unfold slow_gain. destruct (Z.ltb_spec (maxAnalog s) (micVol s)).
  2:{ wp_step. exists 0, bands. split_and!; done || lia. }
  rewrite (proj2 (Z.ltb_lt _ _)) by lia. cbn [negb].
  wp_step. eapply wp_mono; [apply wp_target_gain_idx; lia|]. cbv beta. intros t Ht.
  rewrite (proj2 (Z.ltb_lt t GAIN_TBL_LEN)) by (unfold GAIN_TBL_LEN; lia). cbn [negb].
  pose proof (step_gain_idx_range _ t Hi Ht) as Hs.
  wp_step. eapply wp_rd_Forall; [apply gain_table_analog_range| |].
  { cbn [gainTableIdx]. change (gainTableIdx (set_gainTableIdx ?v s)) with v.
    unfold zlen. cbn [length kGainTableAnalog]. lia. }
  cbv beta. intros g Hg. wp_step. eapply wp_mono.
  { eapply (wp_map_res_length (band_ok samples) (band_ok samples)); [exact Hb|].
    intros b Hbo. eapply wp_mono; [apply wp_over_samples; [done|]|].
    - intros x Hx. by apply wp_mic_sample.
    - intros b' [G1 G2]. split; [|done]. destruct Hbo. split; [done|lia]. }
  intros bs [G1 G2]. wp_step. eexists _, bs.
  split; [reflexivity|]. split; [exact Hs|]. by split.
Qed.

Lemma agc_ok_measure n s env es filter v idx :
  agc_ok n s -> Forall level_range env -> length env = 10%nat ->
  Forall level_range es -> length es = 5%nat -> filt_ok filter -> vad_ok v ->
  0 <= idx <= 31 ->
  let s1 := set_gainTableIdx idx s in
  agc_ok n (set_vadMic v (set_inQueue (if inQueue s1 =? 0 then 1 else 2)
    (set_filterState filter
      (if 0 <? inQueue s1 then set_Rxx16w32_array1 es (set_env1 env s1)
       else set_Rxx16w32_array0 es (set_env0 env s1))))).
Proof.
  intros H He Hel Hs Hsl Hf Hv Hi s1. pose proof (a_queue _ _ H) as Hq.
  change (inQueue s1) with (inQueue s). subst s1.
  assert (Hstd : 0 <= stdLongTerm v <= 32767) by apply Hv.
  destruct (Z.ltb_spec 0 (inQueue s)).
  - rewrite (proj2 (Z.eqb_neq _ _)) by lia. destruct H as [Hc].
    constructor; cbn; try done; try lia. clear - Hc Hstd. open_ctl Hc. close_ctl.
  - rewrite (proj2 (Z.eqb_eq _ _)) by lia. destruct H as [Hc].
    constructor; cbn; try done; try lia.
    clear - Hc Hstd He Hel Hs Hsl. open_ctl Hc. close_ctl.
Qed.

Lemma outcome_AddMic n s bands samples :
  agc_ok n s -> mic_args_ok s bands samples ->
  let x := mic_frame s bands samples in
  outcome (vad_fault (vadMic s) x (Z.of_nat samples)) (WebRtcAgc_AddMic s bands samples)
     (fun '(ret, s', bands') => ret = 0 /\ agc_ok n s' /\ setup s' = setup s /\
        inQueue s' = (if inQueue s =? 0 then 1 else 2) /\
        micVol s' = micVol s /\
        (exists r, WebRtcAgc_ProcessVad (vadMic s) x (Z.of_nat samples) = Ok (vadMic s', r)) /\
        Forall (band_ok samples) bands' /\ map length bands' = map length bands).
Proof.
  intros H (Hn & Hb & Hl) x. unfold WebRtcAgc_AddMic.
  set (L := if (fs s =? 8000)%Z then 8%nat else 16%nat).
  assert (HL : samples = (10 * L)%nat) by (unfold L; destruct (fs s =? 8000); lia).
  rewrite (proj2 (Nat.eqb_eq _ _) HL). cbn [negb].
  destruct (proj1 (wp_ok _ _) (wp_slow_gain n s bands samples H Hb))
    as (r & Eg & idx & bs & -> & Hidx & Hbs & Hlen).
  destruct bs as [|x0 bs]; [|assert (E0 : x = x0) by (unfold x, mic_frame; by rewrite Eg);
    clearbody x; subst x0; rewrite Eg, bind_ok].
  { apply (f_equal length) in Hlen. rewrite !length_map in Hlen. cbn in Hlen. lia. }
  inversion Hbs as [|? ? [Hx Hxl] Hbs']; subst.
  apply outcome_seq. eapply wp_eq; [reflexivity|].
  apply outcome_bind. unfold mic_measure.
  apply outcome_seq. eapply wp_mono; [apply wp_envelope; [exact Hx|lia]|].
  intros env [Henv Hle]. apply bounds_subframes_level in Henv.
  apply outcome_seq. eapply wp_mono.
  { apply (wp_mic_energies 5 0 (fs s) x (filterState s)); [exact Hx|apply (a_filter _ _ H)|].
    unfold L in Hxl. destruct (Z.eqb_spec (fs s) 8000) as [E|],
      (Z.eqb_spec (fs s) 16000); lia. }
  intros [es filter] (He1 & He2 & He3). apply outcome_bind.
  match goal with |- outcome _ (WebRtcAgc_ProcessVad (vadMic ?t) _ _) _ =>
    assert (Ev : vadMic t = vadMic s)
      by (cbn [inQueue]; destruct (0 <? inQueue (set_gainTableIdx idx s)); reflexivity);
    rewrite Ev; clear Ev end.
  eapply outcome_mono.
  { apply (outcome_ProcessVad (vadMic s)); [apply (a_vad _ _ H)|].
    split; [exact Hx|]. unfold L in *. destruct (fs s =? 8000); [right|left]; lia. }
  intros [v r] [Hv Ev]. cbn [outcome]. split; [done|].
  split; [by apply agc_ok_measure|].
  split_and!; [| | |by exists r|done|done].
  all: change (inQueue (set_gainTableIdx idx s)) with (inQueue s);
    destruct (0 <? inQueue s); reflexivity.
Qed.

(** ** Virtual microphone

    It is used in the adaptive digital mode, whose level range is fixed. *)
Definition digital_levels (s : LegacyAgc) : Prop :=
  minLevel s = 0 /\ maxAnalog s = 255 /\ minOutput s <= 127.

Definition vm_state (low r m v : Z) (s : LegacyAgc) : LegacyAgc :=
  set_micGainIdx m (set_micVol v (set_micRef r (set_lowLevelSignal low s))).

Lemma set_micGainIdx_twice i j s :
  set_micGainIdx i (set_micGainIdx j s) = set_micGainIdx i s.
Proof. by destruct s. Qed.

Lemma agc_ok_vm_state n s low r m v :
  agc_ok n s -> v = micVol s \/ v = 127 -> digital_levels s ->
  agc_ok n (vm_state low r m v s).
Proof.
  intros H Hv (D1 & D2 & D3). pose proof (c_max _ _ (a_ctl _ _ H)).
  destruct H as [Hc Ha Hf Hn]. constructor; cbn; try done; try lia.
  clear - Hc. open_ctl Hc. close_ctl.
Qed.

Lemma vm_restart_spec n s low lvl :
  agc_ok n s -> digital_levels s ->
  exists r m v g,
    vm_restart (set_lowLevelSignal low s) lvl = (vm_state low r m v s, g) /\
    (v = micVol s \/ v = 127) /\ 0 <= g <= 255.
Proof.
  intros H (D1 & D2 & D3). pose proof (a_vol _ _ H) as Hv.
  unfold vm_restart, vm_state.
  change (micRef (set_lowLevelSignal low s)) with (micRef s).
  change (micVol (set_lowLevelSignal low s)) with (micVol s).
  change (maxAnalog (set_lowLevelSignal low s)) with (maxAnalog s).
  destruct (Z.eqb_spec lvl (micRef s)); cbn [negb].
  - eexists (micRef s), (micGainIdx s), (micVol s), _.
    split; [by destruct s|]. split; [by left|]. case_if; lia.
  - exists lvl, 127, 127, 127. split; [reflexivity|]. split; [by right|lia].
Qed.

Lemma vm_bands_ok samples ys x bs highs :
  samples16 ys -> length ys = samples -> band_ok samples x ->
  Forall (fun b => samples16 b /\ length b = samples) bs ->
  Forall (band_ok samples) highs -> length bs = length highs ->
  let out := (ys ++ drop samples x) ::
             zip_with (fun b old => b ++ drop samples old) bs highs in
  Forall (band_ok samples) out /\ map length out = map length (x :: highs).
Proof.
  intros Hys Hly [Hx Hlx] Hbs Hh Hl out.
  assert (Hrest : Forall (band_ok samples)
      (zip_with (fun b old => b ++ drop samples old) bs highs) /\
    map length (zip_with (fun b old => b ++ drop samples old) bs highs) =
    map length highs).
  { clear out. revert highs Hh Hl. induction Hbs as [|b bs [Hb Hlb] Hbs IH];
      intros [|o highs] Hh Hl; try done. inversion Hh as [|? ? [Ho Hlo] Hh']; subst.
    destruct (IH highs Hh' ltac:(cbn in Hl; lia)) as [I1 I2]. cbn [zip_with map].
    rewrite I2, length_app, length_drop. split; [|f_equal; lia].
    constructor; [|done]. split; [|rewrite length_app; lia].
    apply Forall_app. split; [done|by apply Forall_drop]. }
  destruct Hrest as [R1 R2]. unfold out. cbn [map].
  rewrite R2, length_app, length_drop. split; [|f_equal; lia].
  constructor; [|done]. split; [|rewrite length_app; lia].
  apply Forall_app. split; [done|by apply Forall_drop].
Qed.

Lemma wp_vm_apply n s bands samples lvl :
  agc_ok n s -> digital_levels s -> mic_args_ok s bands samples -> i32 lvl ->
  wp (vm_apply s bands samples lvl)
     (fun '(s', bands', out) => agc_ok n s' /\ setup s' = setup s /\ vadMic s' = vadMic s /\
        0 <= out <= 255 /\
        Forall (band_ok samples) bands' /\ map length bands' = map length bands).
Proof.
  intros H HD Hargs Hlvl. pose proof Hargs as (Hn & Hb & Hl).
  unfold vm_apply. destruct bands as [|x highs]; [cbn in Hl; lia|].
  inversion Hb as [|? ? Hx Hhighs]; subst x0 l.
  apply wp_bind. eapply wp_eq; [reflexivity|].
  apply wp_bind. eapply wp_mono.
  { apply (wp_low_level_signal (fs s) x samples Hx). subst samples.
    destruct (fs s =? 8000); lia. }
  intros low _.
  pose proof (lev_scale _ (c_levels _ _ (a_ctl _ _ H))) as Hsc.
  assert (E0 : scale (set_lowLevelSignal low s) = 0) by exact Hsc.
  rewrite E0. clear E0.
  apply wp_bind. apply wp_shl32; [lia|by rewrite Z.shiftl_0_r|].
  rewrite Z.shiftl_0_r.
  destruct (vm_restart_spec n s low lvl H HD) as (r & m & v & g & -> & Hv & Hg).
  apply wp_bind. eapply wp_mono; [by apply wp_vm_start_gain|]. intros gain Hvm.
  apply wp_bind. apply wp_take_exact; [apply Hx|].
  assert (Hlt : length (take samples x) = samples)
    by (rewrite length_take; destruct Hx; lia).
  apply wp_bind. eapply wp_mono.
  { apply (wp_vm_loop (take samples x) highs g gain); [done|apply Forall_take; apply Hx|].
    by rewrite Hlt. }
  intros [[idx ys] bs] (G1 & G2 & G3 & G4 & G5). rewrite Hlt in G3, G5.
  destruct (vm_bands_ok samples ys x bs highs G2 G3 Hx G5 Hhighs G4) as [B1 B2].
  change (drop 1 (x :: highs)) with highs in *.
  set (out := (ys ++ drop samples x) :: _) in *. clearbody out.
  replace (set_micGainIdx idx (vm_state low r m v s)) with (vm_state low r idx v s)
    by (unfold vm_state; by rewrite set_micGainIdx_twice).
  assert (E1 : scale (vm_state low r idx v s) = 0) by exact Hsc.
  assert (E2 : micGainIdx (vm_state low r idx v s) = idx) by reflexivity.
  rewrite E1, E2. clear E1 E2.
  apply wp_bind. apply wp_shr32; [lia|]. rewrite Z.shiftr_0_r.
  split; [by apply agc_ok_vm_state|]. split_and!; try done; lia.
Qed.

Lemma outcome_VirtualMic n s bands samples lvl :
  agc_ok n s -> digital_levels s -> mic_args_ok s bands samples -> i32 lvl ->
  let x := vm_frame s bands samples lvl in
  outcome (vad_fault (vadMic s) x (Z.of_nat samples)) (WebRtcAgc_VirtualMic s bands samples lvl)
     (fun '(ret, s', bands', out) => ret = 0 /\ agc_ok n s' /\ setup s' = setup s /\
        0 <= out <= 255 /\
        (exists r, WebRtcAgc_ProcessVad (vadMic s) x (Z.of_nat samples) = Ok (vadMic s', r)) /\
        Forall (band_ok samples) bands' /\ map length bands' = map length bands).
Proof.
  intros H HD Hargs Hlvl x. unfold WebRtcAgc_VirtualMic.
  destruct (proj1 (wp_ok _ _) (wp_vm_apply n s bands samples lvl H HD Hargs Hlvl))
    as ([[s1 b1] out] & Ea & H1 & Hset & Hv & Hout & B1 & B2).
  assert (Ex : x = mic_frame s1 b1 samples) by (unfold x, vm_frame; by rewrite Ea).
  clearbody x. rewrite Ea, bind_ok. destruct Hargs as (Hn & _ & Hl).
  apply outcome_bind. rewrite Ex, <- Hv. eapply outcome_mono.
  { apply (outcome_AddMic n s1); [done|]. split; [|split; [done|]].
    - apply (f_equal (fun p => fst (fst (fst p)))) in Hset. cbn in Hset. by rewrite Hset.
    - apply (f_equal length) in B2. rewrite !length_map in B2. lia. }
  intros [[ret s'] bands'] (-> & A1 & A2 & _ & _ & A5 & A6 & A7).
  rewrite B2 in A7. rewrite Hset in A2. cbn. split_and!; done || lia.
Qed.

(** ** Process *)

Lemma outcome_Process n s in_near samples out lvl lvl0 echo w0 L L2 :
  agc_ok n s -> 0 <= n <= block_bound - 5 -> i32 lvl ->
  frame_args_ok s L L2 samples in_near out ->
  match WebRtcAgc_Process (Some s) in_near samples out lvl lvl0 echo w0 with
  | Ok p => process_post n s lvl out p
  | Fault f => WebRtcAgc_ProcessVad (vadNearend (digitalAgc s))
                 (first_band (10 * L) in_near out) (Z.of_nat L * 10) = Fault f
  end.
Proof.
  intros H Hn Hl Hargs. pose proof Hargs as (Hf & _ & Hb).
  destruct (WebRtcAgc_ProcessVad (vadNearend (digitalAgc s))
              (first_band (10 * L) in_near out) (Z.of_nat L * 10)) as [r|f] eqn:E.
  - pose proof (wp_Process n s in_near samples out lvl lvl0 echo w0 L L2 H Hn Hl
      Hargs ltac:(by rewrite E)) as Hw.
    by destruct (WebRtcAgc_Process _ _ _ _ _ _ _ _).
  - unfold WebRtcAgc_Process. rewrite (frame_args_length _ _ _ _ _ _ Hargs).
    cbn [negb].
    by rewrite (ProcessDigital_vad_fault _ _ _ _ _ _ (lowLevelSignal s) _ Hf Hb E).
Qed.

(** * Theorems *)

(** ** A concrete instance *)

Definition agc0 : LegacyAgc :=
  match WebRtcAgc_Init blank 0 255 kAgcModeAdaptiveAnalog 8000 with
  | Ok (_, s) => s
  | Fault _ => blank
  end.

Lemma agc0_ok : agc_ok 0 agc0 /\ fs agc0 = 8000.
Proof.
  pose proof (wp_Init blank 0 255 kAgcModeAdaptiveAnalog 8000 eq_refl
    ltac:(unfold kAgcModeAdaptiveAnalog; lia)
    ltac:(unfold level_args_ok, i32; lia)) as Hw.
  unfold agc0. destruct (WebRtcAgc_Init _ _ _ _ _) as [[r s]|]; [|done].
  destruct Hw as (_ & H & Hf & _). done.
Qed.

(** C17: initialisation with one of the four modes, any sampling rate and a level range that
    begins at 0 or above, has at least 42 steps and ends at 104857 or below returns 0 and
    establishes the invariant of the instance, whatever the memory held before; the
    default configuration is installed.  In the adaptive digital mode, which sets a
    range of its own, any two levels do.  [Init_range_check_weak] shows why the range is
    restricted. *)
Theorem Init_establishes stt lo hi mode rate :
  length (filterState stt) = 8%nat -> 0 <= mode <= 3 -> level_args_ok mode lo hi ->
  exists s, WebRtcAgc_Init stt lo hi mode rate = Ok (0, s) /\ agc_ok 0 s /\
    usedConfig s = default_config /\ fs s = rate /\ agcMode s = mode.
Proof.
  intros Hf Hm Hl.
  destruct (proj1 (wp_ok _ _) (wp_Init stt lo hi mode rate Hf Hm Hl))
    as ([ret s] & E & -> & H1 & H2 & H3 & H4 & _).
  by exists s.
Qed.

Lemma Init_establishes_witness :
  exists s, WebRtcAgc_Init blank 0 255 1 16000 = Ok (0, s) /\ agc_ok 0 s /\
    usedConfig s = default_config /\ fs s = 16000 /\ agcMode s = 1.
Proof.
  apply Init_establishes; [reflexivity|lia|unfold level_args_ok, i32; lia].
Defined.

(** An invalid mode is rejected with -1 before anything but the digital part
    and [envSum] is touched. *)
Lemma Init_bad_mode stt lo hi mode rate :
  ~ 0 <= mode <= 3 ->
  WebRtcAgc_Init stt lo hi mode rate =
  Ok (-1, set_envSum 0 (set_digitalAgc
            (snd (WebRtcAgc_InitDigital (digitalAgc stt) mode)) stt)).
Proof.
  intros Hm. unfold WebRtcAgc_Init, kAgcModeUnchanged, kAgcModeFixedDigital.
  destruct (Z.ltb_spec mode 0); [done|]. destruct (Z.ltb_spec 3 mode); [done|lia].
Qed.

(** The range check of [WebRtcAgc_Init] is too weak: it accepts a negative
    minimum (the comment asks for positive values), and a range of 2^26 - 1 for
    which the very first call of [WebRtcAgc_ProcessAnalog] overflows in
    [(maxLevel - minLevel) * 51]. *)
Lemma Init_range_check_weak :
  (exists s, WebRtcAgc_Init blank (-100) 255 1 8000 = Ok (0, s) /\
             minLevel s = -100) /\
  (exists s, WebRtcAgc_Init blank 0 67108863 1 8000 = Ok (0, s) /\
     WebRtcAgc_ProcessAnalog s 1000 0 0 0 0 = Fault SignedOverflow).
Proof.
  split.
  - destruct (WebRtcAgc_Init blank (-100) 255 1 8000) as [[r s]|] eqn:E;
      vm_compute in E; [|done]. injection E as <- <-.
    eexists. split; [reflexivity|]. reflexivity.
  - destruct (WebRtcAgc_Init blank 0 67108863 1 8000) as [[r s]|] eqn:E;
      vm_compute in E; [|done]. injection E as <- <-.
    eexists. split; [reflexivity|]. vm_compute. reflexivity.
Qed.

(** C11: [WebRtcAgc_ProcessAnalog] is total on every instance satisfying the
    invariant: a level outside the device range is rejected with -1 and nothing
    changes; otherwise it returns 0 without undefined behaviour, the invariant
    holds again (volume, maximum, counters, energies and buffer positions in
    range), and the reported level is the new volume limited to the analog
    maximum, never below the minimum output level. *)
Theorem ProcessAnalog_spec n s lvl out r echo w :
  agc_ok n s -> 0 <= n <= block_bound - 5 -> i32 lvl ->
  if (minLevel s <=? lvl) && (lvl <=? maxAnalog s) then
    exists s' out' w',
      WebRtcAgc_ProcessAnalog s lvl out r echo w = Ok (0, s', out', w') /\
      agc_ok (n + 5) s' /\ minOutput s <= micVol s' <= maxLevel s' /\
      out' = Z.min (micVol s') (maxAnalog s) /\ minOutput s <= out' <= maxAnalog s
  else WebRtcAgc_ProcessAnalog s lvl out r echo w = Ok (-1, s, out, w).
Proof.
  intros H Hn Hl. pose proof (c_levels _ _ (a_ctl _ _ H)) as [H0 H1 H2 HR HF H3].
  destruct (andb (minLevel s <=? lvl) (lvl <=? maxAnalog s)) eqn:E.
  - destruct (proj1 (wp_ok _ _) (wp_ProcessAnalog n s lvl out r echo w H Hn
      ltac:(lia))) as ([[[ret s'] out'] w'] & Eq & -> & A1 & _ & -> & A2 & _ & _ & _ & _ & A3).
    exists s', (Z.min (micVol s') (maxAnalog s')), w'. rewrite A2 in *.
    split_and!; done || lia.
  - apply ProcessAnalog_rejects; [done|done|lia].
Qed.

Lemma ProcessAnalog_spec_witness :
  exists s' out' w',
    WebRtcAgc_ProcessAnalog agc0 100 0 0 0 0 = Ok (0, s', out', w') /\
    agc_ok (0 + 5) s' /\ minOutput agc0 <= micVol s' <= maxLevel s' /\
    out' = Z.min (micVol s') (maxAnalog agc0) /\
    minOutput agc0 <= out' <= maxAnalog agc0.
Proof.
  apply (ProcessAnalog_spec 0 agc0 100 0 0 0 0); [exact (proj1 agc0_ok)| |].
  - unfold block_bound. lia.
  - unfold i32. lia.
Defined.

(** C19: in the presence of echo the controller never raises the volume above the
    reconciled one (except up to the minimum output level). *)
Theorem echo_never_raises n s x r w :
  ctl n s -> 0 <= n <= block_bound - 5 ->
  minLevel s <= x <= maxInit s -> minOutput s <= micVol s <= maxInit s ->
  exists s' w', pa_control s x r 1 w = Ok (s', w') /\
                micVol s' <= Z.max (micVol s) (minOutput s).
Proof.
  intros H Hn Hx Hv. pose proof (lev_out _ (c_levels _ _ H)).
  destruct (proj1 (wp_ok _ _) (wp_pa_control n s x r 1 w H Hn Hx ltac:(lia)
    ltac:(by left; lia))) as ([s' w'] & E & _ & _ & _ & Hm).
  exists s', w'. split; [done|]. by apply Hm.
Qed.

Lemma echo_never_raises_witness :
  exists s' w', pa_control agc0 100 2000 1 0 = Ok (s', w') /\
                micVol s' <= Z.max (micVol agc0) (minOutput agc0).
Proof.
  apply (echo_never_raises 0 agc0); [apply (a_ctl _ _ (proj1 agc0_ok))| | |].
  - unfold block_bound. lia.
  - vm_compute. split; discriminate.
  - vm_compute. split; discriminate.
Defined.

(** C8: [WebRtcAgc_Process] on an instance satisfying the invariant, for every
    supported frame: the only possible fault is that of the near-end VAD on this
    very frame; otherwise the output is 16-bit samples of the same shape, the
    invariant holds again, and the result is
    - without analog control: 0, the level echoed back, the queue advanced;
    - with a level inside the device range: 0, a new level between the minimum
      output level and the analog maximum, the queue advanced;
    - with a level outside the range: -1, the level echoed back, and the queue
      not advanced. *)
Theorem Process_outcome n s in_near samples out lvl lvl0 echo w0 L L2 :
  agc_ok n s -> 0 <= n <= block_bound - 5 -> i32 lvl ->
  frame_args_ok s L L2 samples in_near out ->
  match WebRtcAgc_Process (Some s) in_near samples out lvl lvl0 echo w0 with
  | Ok p => process_post n s lvl out p
  | Fault f => WebRtcAgc_ProcessVad (vadNearend (digitalAgc s))
                 (first_band (10 * L) in_near out) (Z.of_nat L * 10) = Fault f
  end.
Proof. exact (outcome_Process n s in_near samples out lvl lvl0 echo w0 L L2). Qed.

Lemma Process_outcome_witness :
  match WebRtcAgc_Process (Some agc0) [silence 80] 80 [silence 80] 100 0 0 0 with
  | Ok p => process_post 0 agc0 100 [silence 80] p
  | Fault f => WebRtcAgc_ProcessVad (vadNearend (digitalAgc agc0))
                 (first_band (10 * 8) [silence 80] [silence 80]) 80 = Fault f
  end.
Proof.
  apply (Process_outcome 0 agc0 [silence 80] 80 [silence 80] 100 0 0 0 8 3);
    [exact (proj1 agc0_ok)|unfold block_bound; lia|unfold i32; lia|].
  split; [by rewrite (proj2 agc0_ok)|]. split; [reflexivity|exact silence_bands].
Defined.

(** [WebRtcAgc_Process] refuses a null instance, and a number of samples that
    does not belong to the sampling rate, with -1 and without touching anything. *)
Lemma Process_rejects s in_near samples out lvl lvl0 echo w0 :
  WebRtcAgc_Process None in_near samples out lvl lvl0 echo w0 =
    Ok (PResult (-1) None out lvl0 w0) /\
  (~ (fs s = 8000 /\ samples = 80%nat) ->
   ~ ((fs s = 16000 \/ fs s = 32000 \/ fs s = 48000) /\ samples = 160%nat) ->
   WebRtcAgc_Process (Some s) in_near samples out lvl lvl0 echo w0 =
     Ok (PResult (-1) (Some s) out lvl0 w0)).
Proof.
  split; [done|]. intros H8 H16. unfold WebRtcAgc_Process.
  assert (E : frame_length_ok (fs s) samples = false).
  { unfold frame_length_ok.
    destruct (Z.eqb_spec (fs s) 8000), (Z.eqb_spec (fs s) 16000),
      (Z.eqb_spec (fs s) 32000), (Z.eqb_spec (fs s) 48000),
      (Nat.eqb_spec samples 80), (Nat.eqb_spec samples 160);
      cbn; try done; tauto || lia. }
  by rewrite E.
Qed.

Lemma Process_rejects_witness :
  WebRtcAgc_Process (Some agc0) [silence 80] 160 [silence 80] 7 9 0 1 =
  Ok (PResult (-1) (Some agc0) [silence 80] 9 1).
Proof.
  apply (proj2 (Process_rejects agc0 [silence 80] 160 [silence 80] 7 9 0 1));
    rewrite (proj2 agc0_ok); lia.
Defined.

(** C13: [WebRtcAgc_AddMic] on an instance satisfying the invariant never takes
    its error returns for a well-formed frame (in particular the index into the
    analog gain table is always valid and there is no division by zero).  It stops
    in a signed overflow exactly when the microphone VAD does on the amplified first
    band of this frame; otherwise it returns 0, keeps the invariant and the volume, takes
    over the state of that VAD, produces 16-bit samples of the same shape and advances
    the queue count from 0 to 1 or to 2. *)
Theorem AddMic_outcome n s bands samples :
  agc_ok n s -> mic_args_ok s bands samples ->
  let vad := WebRtcAgc_ProcessVad (vadMic s) (mic_frame s bands samples) (Z.of_nat samples) in
  match WebRtcAgc_AddMic s bands samples with
  | Ok (ret, s', bands') => ret = 0 /\ agc_ok n s' /\
      inQueue s' = (if inQueue s =? 0 then 1 else 2) /\ micVol s' = micVol s /\
      (exists r, vad = Ok (vadMic s', r)) /\
      Forall (band_ok samples) bands' /\ map length bands' = map length bands
  | Fault f => f = SignedOverflow /\ vad = Fault SignedOverflow
  end.
Proof.
  intros H Ha vad. pose proof (outcome_AddMic n s bands samples H Ha) as Ho.
  destruct (WebRtcAgc_AddMic s bands samples) as [[[ret s'] b']|f]; cbn in Ho; [tauto|].
  by apply (vad_fault_overflow _ _ _ _ (a_vad _ _ H)) in Ho as [-> Hf].
Qed.

Lemma agc0_mic_args : mic_args_ok agc0 [silence 80] 80.
Proof.
  split; [by rewrite (proj2 agc0_ok)|]. split; [|cbn; lia].
  apply Forall_singleton. split; [|by vm_compute].
  apply Forall_replicate. unfold i16. lia.
Qed.

Lemma AddMic_outcome_witness :
  let vad := WebRtcAgc_ProcessVad (vadMic agc0) (mic_frame agc0 [silence 80] 80) 80 in
  match WebRtcAgc_AddMic agc0 [silence 80] 80 with
  | Ok (ret, s', bands') => ret = 0 /\ agc_ok 0 s' /\
      inQueue s' = (if inQueue agc0 =? 0 then 1 else 2) /\
      micVol s' = micVol agc0 /\
      (exists r, vad = Ok (vadMic s', r)) /\
      Forall (band_ok 80) bands' /\ map length bands' = map length [silence 80]
  | Fault f => f = SignedOverflow /\ vad = Fault SignedOverflow
  end.
Proof.
  apply (AddMic_outcome 0 agc0); [exact (proj1 agc0_ok)|exact agc0_mic_args].
Defined.

(** C14: in the adaptive digital mode [WebRtcAgc_VirtualMic], for every input level and
    every frame, never reads outside its tables.  It stops in a signed overflow exactly
    when the microphone VAD does on the first band of this frame with the virtual gain
    applied; otherwise it returns 0, keeps the invariant, reports a level in
    0..255, takes over the state of that VAD and produces 16-bit samples of the same
    shape. *)
Theorem VirtualMic_outcome n s bands samples lvl :
  agc_ok n s -> agcMode s = kAgcModeAdaptiveDigital ->
  mic_args_ok s bands samples -> i32 lvl ->
  let vad := WebRtcAgc_ProcessVad (vadMic s) (vm_frame s bands samples lvl) (Z.of_nat samples) in
  match WebRtcAgc_VirtualMic s bands samples lvl with
  | Ok (ret, s', bands', out) => ret = 0 /\ agc_ok n s' /\ 0 <= out <= 255 /\
      (exists r, vad = Ok (vadMic s', r)) /\
      Forall (band_ok samples) bands' /\ map length bands' = map length bands
  | Fault f => f = SignedOverflow /\ vad = Fault SignedOverflow
  end.
Proof.
  intros H Hm Ha Hl vad.
  pose proof (outcome_VirtualMic n s bands samples lvl H (a_range _ _ H Hm) Ha Hl)
    as Ho.
  destruct (WebRtcAgc_VirtualMic s bands samples lvl) as [[[[ret s'] b'] o]|f];
    cbn in Ho; [tauto|].
  by apply (vad_fault_overflow _ _ _ _ (a_vad _ _ H)) in Ho as [-> Hf].
Qed.

Definition agc2 : LegacyAgc :=
  match WebRtcAgc_Init blank 0 0 kAgcModeAdaptiveDigital 8000 with
  | Ok (_, s) => s
  | Fault _ => blank
  end.

Lemma agc2_ok :
  agc_ok 0 agc2 /\ fs agc2 = 8000 /\ agcMode agc2 = kAgcModeAdaptiveDigital.
Proof.
  pose proof (wp_Init blank 0 0 kAgcModeAdaptiveDigital 8000 eq_refl
    ltac:(unfold kAgcModeAdaptiveDigital; lia)
    ltac:(unfold level_args_ok, i32; lia)) as Hw.
  unfold agc2. destruct (WebRtcAgc_Init _ _ _ _ _) as [[r s]|]; [|done].
  destruct Hw as (_ & H & Hf & Hm & _). done.
Qed.

Lemma VirtualMic_outcome_witness :
  let vad := WebRtcAgc_ProcessVad (vadMic agc2) (vm_frame agc2 [silence 80] 80 100) 80 in
  match WebRtcAgc_VirtualMic agc2 [silence 80] 80 100 with
  | Ok (ret, s', bands', out) => ret = 0 /\ agc_ok 0 s' /\ 0 <= out <= 255 /\
      (exists r, vad = Ok (vadMic s', r)) /\
      Forall (band_ok 80) bands' /\ map length bands' = map length [silence 80]
  | Fault f => f = SignedOverflow /\ vad = Fault SignedOverflow
  end.
Proof.
  apply (VirtualMic_outcome 0 agc2); [apply agc2_ok|apply agc2_ok| |unfold i32; lia].
  split; [by rewrite (proj1 (proj2 agc2_ok))|exact (proj2 agc0_mic_args)].
Defined.

(** ** Sessions *)

(** One call of the interface that returns, with the number of energy blocks
    processed so far. *)
Inductive agc_step : Z * LegacyAgc -> Z * LegacyAgc -> Prop :=
| step_set_config n s cfg s' :
    config_ok cfg -> c_compressionGaindB cfg <= 18 ->
    WebRtcAgc_set_config (Some s) cfg = Ok (0, Some s') ->
    agc_step (n, s) (n, s')
| step_add_farend n s x samples ret s' :
    samples16 x -> (samples <= length x)%nat ->
    WebRtcAgc_AddFarend (Some s) x samples = Ok (ret, Some s') ->
    agc_step (n, s) (n, s')
| step_add_mic n s bands samples ret s' bands' :
    mic_args_ok s bands samples ->
    WebRtcAgc_AddMic s bands samples = Ok (ret, s', bands') ->
    agc_step (n, s) (n, s')
| step_virtual_mic n s bands samples lvl ret s' bands' out :
    agcMode s = kAgcModeAdaptiveDigital -> mic_args_ok s bands samples -> i32 lvl ->
    WebRtcAgc_VirtualMic s bands samples lvl = Ok (ret, s', bands', out) ->
    agc_step (n, s) (n, s')
| step_process n s in_near samples out lvl lvl0 echo w0 L L2 p s' :
    n <= block_bound - 5 -> i32 lvl -> frame_args_ok s L L2 samples in_near out ->
    WebRtcAgc_Process (Some s) in_near samples out lvl lvl0 echo w0 = Ok p ->
    p_agc p = Some s' ->
    agc_step (n, s) (n + 5, s').

Inductive agc_reachable : Z * LegacyAgc -> Prop :=
| reach_agc_init mem stt lo hi mode rate ret s :
    length (filterState mem) = 8%nat -> WebRtcAgc_Create (Some mem) = Ok stt ->
    0 <= mode <= 3 -> level_args_ok mode lo hi ->
    WebRtcAgc_Init stt lo hi mode rate = Ok (ret, s) ->
    agc_reachable (0, s)
| reach_agc_step c c' : agc_reachable c -> agc_step c c' -> agc_reachable c'.

Lemma agc_step_ok n s n' s' :
  agc_step (n, s) (n', s') -> agc_ok n s -> 0 <= n -> agc_ok n' s' /\ 0 <= n'.
Proof.
  intros Hstep H Hn.
  inversion Hstep as
    [? ? cfg ? Hc Hg E|? ? x samples ret ? Hx Hl E|? ? bands samples ret ? bands' Ha E
    |? ? bands samples lvl ret ? bands' out Hm Ha Hl E
    |? ? in_near samples out lvl lvl0 echo w0 L L2 p ? Hb Hl Ha E Ep]; subst.
  - pose proof (wp_set_config n' s cfg H Hc Hg) as Hw.
    rewrite E in Hw. by destruct Hw as (_ & s1 & [= ->] & Hok & _).
  - pose proof (outcome_AddFarend n' s x samples H Hx Hl) as Hw.
    rewrite E in Hw. by destruct Hw as (s1 & [= ->] & Hok & _).
  - pose proof (outcome_AddMic n' s bands samples H Ha) as Hw.
    rewrite E in Hw. by destruct Hw as (_ & Hok & _).
  - pose proof (outcome_VirtualMic n' s bands samples lvl H (a_range _ _ H Hm) Ha Hl)
      as Hw.
    rewrite E in Hw. by destruct Hw as (_ & Hok & _).
  - pose proof (outcome_Process n s in_near samples out lvl lvl0 echo w0 L L2 H
      ltac:(lia) Hl Ha) as Hw.
    rewrite E in Hw. destruct Hw as (_ & s1 & E1 & Hok & _).
    assert (s1 = s') as -> by congruence. split; [done|lia].
Qed.

(** C9: every state a session can reach satisfies the invariant of the instance:
    creation, initialisation with one of the four modes and a level range within
    0..104857 of at least 42 steps (any levels in the adaptive digital mode, which sets
    its own range), then any interleaving of configuration (legal values, at most
    18 dB), far-end frames, microphone frames, virtual microphone frames (in the adaptive
    digital mode) and processing of 16-bit samples, for up to 2^27 energy blocks, about three
    days of audio. *)
Theorem session_invariant n s : agc_reachable (n, s) -> agc_ok n s.
Proof.
  intros Hr. assert (Hall : agc_ok n s /\ 0 <= n); [|apply Hall].
  remember (n, s) as c eqn:Ec. revert n s Ec.
  induction Hr as [mem stt lo hi mode rate ret s0 Hf Hc Hm Hl E|[n0 s0] c' Hr IH Hstep];
    intros n s Ec.
  - injection Ec as <- <-. injection Hc as <-.
    pose proof (wp_Init (set_lastError 0 (set_initFlag 0 mem)) lo hi mode rate
      Hf Hm Hl) as Hw.
    rewrite E in Hw. destruct Hw as (_ & Hok & _). split; [done|lia].
  - subst c'. destruct (IH n0 s0 eq_refl) as [H0 Hn0].
    by apply (agc_step_ok n0 s0).
Qed.

Lemma session_invariant_witness : agc_ok 0 agc0.
Proof.
  apply session_invariant.
  apply (reach_agc_init blank (set_lastError 0 (set_initFlag 0 blank)) 0 255
           kAgcModeAdaptiveAnalog 8000 0 agc0).
  - reflexivity.
  - reflexivity.
  - unfold kAgcModeAdaptiveAnalog. lia.
  - unfold level_args_ok, i32. lia.
  - vm_compute. reflexivity.
Defined.


(** A successful [AddMic] puts the envelope of the first (amplified) band in the
    row the queue count selects and leaves the other row alone. *)
Lemma AddMic_row s bands samples s' bands' :
  WebRtcAgc_AddMic s bands samples = Ok (0, s', bands') ->
  exists x, rd bands' 0 = Ok x /\
    envelope 10 (if fs s =? 8000 then 8%nat else 16%nat) x =
      Ok (if 0 <? inQueue s then env1 s' else env0 s') /\
    (if 0 <? inQueue s then env0 s' = env0 s else env1 s' = env1 s) /\
    inQueue s' = (if inQueue s =? 0 then 1 else 2) /\ fs s' = fs s.
Proof.
  unfold WebRtcAgc_AddMic. set (L := if fs s =? 8000 then 8%nat else 16%nat).
  destruct (samples =? 10 * L)%nat; cbn [negb]; [|done].
  intros (r & Hr & E)%bind_inv.
  assert (Hs : forall s1 b1, r = Some (s1, b1) -> exists i, s1 = set_gainTableIdx i s).
  { intros s1 b1 ->. revert Hr. unfold slow_gain. destruct (maxAnalog s <? micVol s).
    - destruct (maxAnalog s <? maxLevel s); cbn [negb]; [|done].
      intros (t & _ & Ht)%bind_inv. destruct (t <? GAIN_TBL_LEN); cbn [negb] in Ht; [|done].
      apply bind_inv in Ht as (g & _ & Ht). apply bind_inv in Ht as (b & _ & Ht).
      injection Ht as <- _. by eexists.
    - intros [= <- _]. by eexists. }
  destruct r as [[s1 b1]|]; [|done].
  destruct (Hs s1 b1 eq_refl) as [i ->]. clear Hs Hr.
  apply bind_inv in E as (x & Hx & E). apply bind_inv in E as (s2 & Hm & E).
  injection E as -> ->. exists x. split; [done|].
  unfold mic_measure in Hm. apply bind_inv in Hm as (env & He & Hm).
  apply bind_inv in Hm as ([es filter] & _ & Hm).
  apply bind_inv in Hm as ([v w] & _ & Hm). injection Hm as <-.
  change (inQueue (set_gainTableIdx i s)) with (inQueue s).
  rewrite He. destruct (0 <? inQueue s); by split_and!.
Qed.

(** The two-frame queue between [AddMic] and [Process] is first in, first
    out: after two microphone frames on an empty queue, row 0 of the envelope
    belongs to the first frame and row 1 to the second, and the queue step of
    [Process] makes the second frame the current one, then empties the queue. *)
Lemma queue_fifo s b1 b2 samples s1 o1 s2 o2 :
  inQueue s = 0 ->
  WebRtcAgc_AddMic s b1 samples = Ok (0, s1, o1) ->
  WebRtcAgc_AddMic s1 b2 samples = Ok (0, s2, o2) ->
  exists x1 x2, rd o1 0 = Ok x1 /\ rd o2 0 = Ok x2 /\
  let L := if fs s =? 8000 then 8%nat else 16%nat in
  envelope 10 L x1 = Ok (env0 s2) /\ envelope 10 L x2 = Ok (env1 s2) /\
  inQueue s2 = 2 /\
  envelope 10 L x2 = Ok (env0 (advance_queue s2)) /\
  inQueue (advance_queue s2) = 1 /\
  inQueue (advance_queue (advance_queue s2)) = 0.
Proof.
  intros Hq E1 E2. apply AddMic_row in E1 as (x1 & Hx1 & He1 & _ & Hq1 & Hf1).
  apply AddMic_row in E2 as (x2 & Hx2 & He2 & Hr2 & Hq2 & _).
  rewrite Hq in He1, Hq1. cbn [Z.ltb Z.compare Z.eqb] in He1, Hq1.
  rewrite Hq1, Hf1 in *. cbn [Z.ltb Z.compare Z.eqb] in He2, Hr2, Hq2.
  exists x1, x2. cbv zeta. rewrite Hr2, He1, He2, Hq2.
  assert (Ha : inQueue (advance_queue s2) = 1 /\ env0 (advance_queue s2) = env1 s2).
  { unfold advance_queue. rewrite Hq2. cbn. by rewrite Hq2. }
  destruct Ha as [Ha ->]. split_and!; try done.
  unfold advance_queue at 1. rewrite Ha. cbn. by rewrite Ha.
Qed.

(** Two frames of constant samples, 100 then 200, on the fresh instance. *)
Definition queued (k : nat) : LegacyAgc :=
  match WebRtcAgc_AddMic agc0 [replicate 80 100] 80 with
  | Ok (_, s1, _) =>
      if (k =? 1)%nat then s1 else
      match WebRtcAgc_AddMic s1 [replicate 80 200] 80 with
      | Ok (_, s2, _) => s2
      | Fault _ => blank
      end
  | Fault _ => blank
  end.

