(* ===== verification/Contract.v ===== *)
(** * Contract of the AGC instance

    What the C++ wrappers rely on, as classes over the invariant of the instance:
    [AgcContract] for mono frames of 80 samples at 8 kHz (the product interface)
    and [AgcChannel] for one channel of any number of bands at any supported rate
    (the multi-channel wrapper).  The theorems of the wrappers are proved against
    the classes; [agc_contract] and [agc_channel] discharge them for [agc_ok]. *)
From S2P Require Import Prelude CInt Spl Vad GainTable Digital Instance Mic Analog.
From S2P Require Import Session.

(** A frame of the wrapper: the rest of a buffer, at least 80 samples of it. *)
Definition audio_ok (audio : list Z) : Prop := band_ok 80 audio.

(** The two modes in which frames are processed, with the levels they accept. *)
Definition level_accepted (mode lvl : Z) : Prop :=
  mode = kAgcModeFixedDigital \/
  mode = kAgcModeAdaptiveDigital /\ 0 <= lvl <= 255.

Class AgcContract (inv : Z -> LegacyAgc -> Prop) : Prop := {
  contract_mono n n' s : inv n s -> n <= n' -> inv n' s;

  contract_init mem lo hi mode rate :
    length (filterState mem) = 8%nat -> 0 <= mode <= 3 -> level_args_ok mode lo hi ->
    wp (WebRtcAgc_Init mem lo hi mode rate)
       (fun '(ret, s) => ret = 0 /\ inv 0 s /\ fs s = rate /\ agcMode s = mode /\
          vadNearend (digitalAgc s) = WebRtcAgc_InitVad);

  contract_set_config n s cfg :
    inv n s -> config_ok cfg -> c_compressionGaindB cfg <= 18 ->
    wp (WebRtcAgc_set_config (Some s) cfg)
       (fun '(ret, o) => ret = 0 /\ exists s', o = Some s' /\ inv n s' /\
          usage s' = (fs s, agcMode s, cfg) /\
          vadNearend (digitalAgc s') = vadNearend (digitalAgc s));

  contract_virtual_mic n s audio :
    inv n s -> fs s = 8000 -> agcMode s = kAgcModeAdaptiveDigital -> audio_ok audio ->
    match WebRtcAgc_VirtualMic s [audio] 80 0 with
    | Ok (ret, s', bands, level) =>
        ret = 0 /\ inv n s' /\ usage s' = usage s /\ 0 <= level <= 255 /\
        exists audio', bands = [audio'] /\ samples16 audio' /\
                       length audio' = length audio
    | Fault f => f = SignedOverflow
    end;

  contract_process n s audio lvl :
    inv n s -> 0 <= n <= block_bound - 5 -> fs s = 8000 ->
    i32 lvl -> level_accepted (agcMode s) lvl -> audio_ok audio ->
    match WebRtcAgc_Process (Some s) [audio] 80 [audio] lvl 0 0 0 with
    | Ok p =>
        p_ret p = 0 /\ level_accepted (agcMode s) (p_level p) /\ i32 (p_level p) /\
        (exists s', p_agc p = Some s' /\ inv (n + 5) s' /\ usage s' = usage s /\
           exists r, WebRtcAgc_ProcessVad (vadNearend (digitalAgc s)) audio 80 =
                     Ok (vadNearend (digitalAgc s'), r)) /\
        exists audio', p_out p = [audio'] /\ samples16 audio' /\
                       length audio' = length audio /\ drop 80 audio' = drop 80 audio
    | Fault f =>
        f = SignedOverflow /\
        WebRtcAgc_ProcessVad (vadNearend (digitalAgc s)) audio 80 = Fault f
    end
}.

(** ** The instance keeps its contract *)

Lemma singleton_shape (bands : list (list Z)) (audio : list Z) :
  map length bands = map length [audio] ->
  exists b, bands = [b] /\ length b = length audio.
Proof.
  destruct bands as [|b [|? ?]]; cbn; try done. intros [= H]. by exists b.
Qed.

(** The levels that come back from an accepted call are accepted again. *)
Lemma process_level n s lvl out p :
  agc_ok n s -> level_accepted (agcMode s) lvl -> i32 lvl ->
  process_post n s lvl out p ->
  p_ret p = 0 /\ level_accepted (agcMode s) (p_level p) /\ i32 (p_level p).
Proof.
  intros H Hacc Hl (_ & s' & _ & _ & _ & Hrest).
  pose proof (lev_min _ (c_levels _ _ (a_ctl _ _ H))).
  pose proof (lev_out _ (c_levels _ _ (a_ctl _ _ H))).
  destruct Hacc as [Hm|[Hm Hr]].
  - assert (E : analog_runs s = false) by (unfold analog_runs; by rewrite Hm).
    rewrite E in Hrest. destruct Hrest as (-> & -> & _). by split_and!; [|left|].
  - destruct (a_range _ _ H Hm) as (E1 & E2 & _). rewrite E1, E2 in *.
    destruct (analog_runs s); [|destruct Hrest as (-> & -> & _); by split_and!; [|right|]].
    rewrite (proj2 (Z.leb_le 0 lvl)), (proj2 (Z.leb_le lvl 255)) in Hrest by lia.
    destruct Hrest as (-> & Hlev & _). split_and!; [done|right|unfold i32]; lia.
Qed.

#[export] Instance agc_contract : AgcContract agc_ok.
Proof.
  constructor.
  - intros n n' s H Hn. by apply (agc_ok_mono n).
  - intros mem lo hi mode rate Hf Hm Hl.
    pose proof (wp_Init mem lo hi mode rate Hf Hm Hl) as Hw.
    destruct (WebRtcAgc_Init mem lo hi mode rate) as [[ret s]|] eqn:E; [|done].
    by destruct Hw as (? & ? & ? & ? & _ & _ & ?).
  - intros n s cfg H Hc Hg. pose proof (wp_set_config n s cfg H Hc Hg) as Hw.
    destruct (WebRtcAgc_set_config (Some s) cfg) as [[ret o]|] eqn:E; [|done].
    destruct Hw as (-> & s' & -> & Hok & E1 & E2 & E3 & E4 & _). split; [done|].
    exists s'. split_and!; try done. unfold usage. congruence.
  - intros n s audio H Hfs Hm Ha.
    pose proof (outcome_VirtualMic n s [audio] 80 0 H (a_range _ _ H Hm)) as Ho.
    unfold mic_args_ok in Ho. rewrite Hfs in Ho.
    specialize (Ho ltac:(split_and!; [done|by apply Forall_singleton|cbn; lia])
                   ltac:(unfold i32; lia)).
    destruct (WebRtcAgc_VirtualMic s [audio] 80 0) as [[[[ret s'] bands] lv]|f].
    + destruct Ho as (-> & ? & Hset & ? & _ & Hb & Hl). apply (f_equal fst) in Hset.
      destruct (singleton_shape _ _ Hl) as (b & -> & Hlb).
      split_and!; try done; try lia. exists b. split_and!; try done.
      inversion Hb as [|? ? [? _]]; by subst.
    + by apply vad_fault_overflow in Ho as [-> _]; [|apply (a_vad _ _ H)].
  - intros n s audio lvl H Hn Hfs Hl Hacc Ha.
    assert (Hargs : frame_args_ok s 8 3 80 [audio] [audio]).
    { split; [by rewrite Hfs|]. split; [done|].
      split; [by apply Forall_singleton|]. split; [by apply Forall_singleton|cbn; lia]. }
    assert (Hfirst : first_band (10 * 8) [audio] [audio] = audio)
      by apply (take_drop 80 audio).
    pose proof (outcome_Process n s _ _ _ lvl 0 0 0 8 3 H Hn Hl Hargs) as Ho.
    pose proof (Process_vad n s [audio] 80 [audio] lvl 0 0 0 8 3) as Hv.
    rewrite Hfirst in Ho, Hv.
    destruct (WebRtcAgc_Process (Some s) [audio] 80 [audio] lvl 0 0 0) as [p|f] eqn:E.
    + destruct (process_level _ _ _ _ _ H Hacc Hl Ho) as (R1 & R2 & R3).
      destruct Ho as ((H16 & Hlen & Hd) & s' & Es & Hok & Hset & Hrest).
      apply (f_equal fst) in Hset.
      rewrite Hfs in Hd. change (frame_len 8000) with 80%nat in Hd.
      destruct (Hv p s' H Hn Hl Hargs eq_refl Es) as (r & Er).
      destruct (singleton_shape _ _ Hlen) as (b & Eb & Hlb).
      rewrite Eb in H16, Hd |- *. injection Hd as Hd. apply Forall_inv in H16.
      split; [done|]. split; [done|]. split; [done|]. split.
      * exists s'. split; [done|]. split; [done|]. split; [done|]. by exists r.
      * exists b. split; [done|]. split; [exact H16|]. split; [exact Hlb|exact Hd].
    + pose proof (size_ok_frame audio 8 3 ltac:(by left) Ha) as Hd.
      split; [|done]. eapply (vad_fault_overflow (vadNearend (digitalAgc s)) audio 80).
      * apply (a_digital _ _ H).
      * by split.
Qed.

(** ** Contract of a channel

    What the multi-channel wrapper relies on: frames of one or more bands at any
    supported rate, in every mode. *)

Definition rate_ok (rate : Z) : Prop :=
  rate = 8000 \/ rate = 16000 \/ rate = 32000 \/ rate = 48000.

Definition band_shape (m : nat) (xss : list (list Z)) : Prop :=
  (0 < length xss)%nat /\ Forall (fun x => samples16 x /\ length x = m) xss.

Class AgcChannel (inv : Z -> LegacyAgc -> Prop) : Prop := {
  channel_mono n n' s : inv n s -> n <= n' -> inv n' s;
  channel_memory n s : inv n s -> length (filterState s) = 8%nat;
  channel_digital_range n s :
    inv n s -> agcMode s = kAgcModeAdaptiveDigital -> minLevel s = 0 /\ maxAnalog s = 255;

  channel_init mem lo hi mode rate :
    length (filterState mem) = 8%nat -> 0 <= mode <= 3 -> level_args_ok mode lo hi ->
    wp (WebRtcAgc_Init mem lo hi mode rate)
       (fun '(ret, s) => ret = 0 /\ inv 0 s /\ fs s = rate /\ agcMode s = mode /\
          (mode <> kAgcModeAdaptiveDigital -> minLevel s = lo /\ maxAnalog s = hi));

  channel_set_config n s cfg :
    inv n s -> config_ok cfg -> c_compressionGaindB cfg <= 18 ->
    wp (WebRtcAgc_set_config (Some s) cfg)
       (fun '(ret, o) => ret = 0 /\ exists s', o = Some s' /\ inv n s' /\
          setup s' = ((fs s, agcMode s, cfg), (minLevel s, maxAnalog s)));

  channel_add_farend n s x :
    inv n s -> samples16 x ->
    match WebRtcAgc_AddFarend (Some s) x (length x) with
    | Ok (_, o) => exists s', o = Some s' /\ inv n s' /\ setup s' = setup s
    | Fault f => f = SignedOverflow
    end;

  channel_add_mic n s xss :
    inv n s -> band_shape (frame_len (fs s)) xss ->
    match WebRtcAgc_AddMic s xss (frame_len (fs s)) with
    | Ok (ret, s', yss) => ret = 0 /\ inv n s' /\ setup s' = setup s /\
        band_shape (frame_len (fs s)) yss /\ length yss = length xss
    | Fault f => f = SignedOverflow
    end;

  channel_virtual_mic n s xss lvl :
    inv n s -> agcMode s = kAgcModeAdaptiveDigital -> i32 lvl ->
    band_shape (frame_len (fs s)) xss ->
    match WebRtcAgc_VirtualMic s xss (frame_len (fs s)) lvl with
    | Ok (ret, s', yss, out) => ret = 0 /\ inv n s' /\ setup s' = setup s /\
        0 <= out <= 255 /\ band_shape (frame_len (fs s)) yss /\ length yss = length xss
    | Fault f => f = SignedOverflow
    end;

  channel_process n s xss lvl echo :
    inv n s -> 0 <= n <= block_bound - 5 -> rate_ok (fs s) -> i32 lvl ->
    band_shape (frame_len (fs s)) xss ->
    match WebRtcAgc_Process (Some s) xss (frame_len (fs s)) xss lvl 0 echo 0 with
    | Ok p =>
        (exists s', p_agc p = Some s' /\ inv (n + 5) s' /\ setup s' = setup s) /\
        band_shape (frame_len (fs s)) (p_out p) /\ length (p_out p) = length xss /\
        (p_ret p = 0 \/ p_ret p = -1) /\ i32 (p_level p) /\
        (minLevel s <= lvl <= maxAnalog s ->
           p_ret p = 0 /\ minLevel s <= p_level p <= maxAnalog s) /\
        (agcMode s = kAgcModeFixedDigital -> p_ret p = 0)
    | Fault f => f = SignedOverflow
    end
}.

Lemma shape_bands m xss : band_shape m xss -> Forall (band_ok m) xss.
Proof.
  intros [_ H]. revert H. apply Forall_impl. intros x [Hx Hl]. split; [done|lia].
Qed.

Lemma bands_shape m xss yss :
  band_shape m xss -> Forall samples16 yss -> map length yss = map length xss ->
  band_shape m yss /\ length yss = length xss.
Proof.
  intros [Hp Hx] Hy E. pose proof (f_equal length E) as El. rewrite !length_map in El.
  split; [|done]. split; [lia|]. apply Forall_lookup_2. intros i y Hi.
  split; [by apply (Forall_lookup_1 _ _ _ _ Hy Hi)|].
  destruct (lookup_lt_is_Some_2 xss i) as [x Ex].
  { apply lookup_lt_Some in Hi. lia. }
  apply (f_equal (.!! i)) in E.
  change (map length yss) with (length <$> yss) in E.
  change (map length xss) with (length <$> xss) in E.
  rewrite !list_lookup_fmap, Hi, Ex in E. injection E as ->.
  by apply (Forall_lookup_1 _ _ _ _ Hx Ex).
Qed.

Lemma band_ok_samples m xss : Forall (band_ok m) xss -> Forall samples16 xss.
Proof. apply Forall_impl. by intros x [? _]. Qed.

Lemma rate_frame_size rate :
  rate_ok rate -> exists L L2, frame_size rate = Some (L, L2) /\ frame_len rate = (10 * L)%nat.
Proof. intros [->|[->|[->| ->]]]; by eexists _, _. Qed.

(** The levels and codes of [WebRtcAgc_Process]. *)
Lemma process_level_range n s lvl out p :
  agc_ok n s -> i32 lvl -> process_post n s lvl out p ->
  (p_ret p = 0 \/ p_ret p = -1) /\ i32 (p_level p) /\
  (minLevel s <= lvl <= maxAnalog s ->
     p_ret p = 0 /\ minLevel s <= p_level p <= maxAnalog s) /\
  (agcMode s = kAgcModeFixedDigital -> p_ret p = 0).
Proof.
  intros H Hl (_ & s' & _ & _ & _ & Hrest).
  pose proof (c_levels _ _ (a_ctl _ _ H)) as [L1 L2 L3 _ _ _].
  destruct (analog_runs s) eqn:Ea.
  - assert (Hne : agcMode s <> kAgcModeFixedDigital).
    { intros E. unfold analog_runs in Ea. by rewrite E in Ea. }
    destruct ((minLevel s <=? lvl) && (lvl <=? maxAnalog s)) eqn:Er.
    + destruct Hrest as (-> & Hlev & _). unfold i32. lia.
    + destruct Hrest as (-> & -> & _). split; [lia|]. split; [done|]. lia.
  - destruct Hrest as (-> & -> & _). split; [lia|]. split; [done|]. lia.
Qed.

#[export] Instance agc_channel : AgcChannel agc_ok.
Proof.
  constructor.
  - intros n n' s H Hn. by apply (agc_ok_mono n).
  - intros n s H. pose proof (a_filter _ _ H) as Hf. unfold filt_ok in Hf.
    by destruct (filterState s) as [|? [|? [|? [|? [|? [|? [|? [|? [|? ?]]]]]]]]].
  - intros n s H Hm. by destruct (a_range _ _ H Hm) as (? & ? & _).
  - intros mem lo hi mode rate Hf Hm Hl.
    pose proof (wp_Init mem lo hi mode rate Hf Hm Hl) as Hw.
    destruct (WebRtcAgc_Init mem lo hi mode rate) as [[ret s]|] eqn:E; [|done].
    by destruct Hw as (? & ? & ? & ? & _ & ? & _).
  - intros n s cfg H Hc Hg. pose proof (wp_set_config n s cfg H Hc Hg) as Hw.
    destruct (WebRtcAgc_set_config (Some s) cfg) as [[ret o]|] eqn:E; [|done].
    destruct Hw as (-> & s' & -> & Hok & E1 & E2 & E3 & _ & E5 & E6). split; [done|].
    exists s'. split_and!; try done. unfold setup, usage. congruence.
  - intros n s x H Hx. pose proof (outcome_AddFarend n s x (length x) H Hx (le_n _)) as Ho.
    destruct (WebRtcAgc_AddFarend (Some s) x (length x)) as [[ret o]|f]; [exact Ho|].
    eapply vad_fault_overflow; [apply (a_digital _ _ H)|exact Ho].
  - intros n s xss H Hx.
    pose proof (outcome_AddMic n s xss (frame_len (fs s)) H) as Ho.
    specialize (Ho ltac:(split; [done|split; [by apply shape_bands|apply Hx]])).
    destruct (WebRtcAgc_AddMic s xss (frame_len (fs s))) as [[[ret s'] yss]|f].
    + destruct Ho as (-> & Hok & Hset & _ & _ & _ & Hb & Hl). split; [done|]. split; [done|].
      split; [done|]. apply bands_shape; [done|by eapply band_ok_samples|done].
    + eapply vad_fault_overflow; [apply (a_vad _ _ H)|exact Ho].
  - intros n s xss lvl H Hm Hl Hx.
    pose proof (outcome_VirtualMic n s xss (frame_len (fs s)) lvl H (a_range _ _ H Hm)) as Ho.
    specialize (Ho ltac:(split; [done|split; [by apply shape_bands|apply Hx]]) Hl).
    destruct (WebRtcAgc_VirtualMic s xss (frame_len (fs s)) lvl) as [[[[ret s'] yss] out]|f].
    + destruct Ho as (-> & Hok & Hset & Hlev & _ & Hb & Hlen). split; [done|]. split; [done|].
      split; [done|]. split; [done|].
      apply bands_shape; [done|by eapply band_ok_samples|done].
    + eapply vad_fault_overflow; [apply (a_vad _ _ H)|exact Ho].
  - intros n s xss lvl echo H Hn Hr Hl Hx.
    destruct (rate_frame_size _ Hr) as (L & L2 & Ef & El). rewrite El in Hx |- *.
    assert (Hargs : frame_args_ok s L L2 (10 * L) xss xss).
    { split; [done|]. split; [done|]. pose proof (shape_bands _ _ Hx).
      split; [done|]. split; [done|]. destruct Hx. lia. }
    pose proof (outcome_Process n s xss (10 * L) xss lvl 0 echo 0 L L2 H Hn Hl Hargs) as Ho.
    destruct (WebRtcAgc_Process (Some s) xss (10 * L) xss lvl 0 echo 0) as [p|f].
    + pose proof (process_level_range n s lvl xss p H Hl Ho) as Hlev.
      destruct Ho as ((H16 & Hlen & _) & s' & Es & Hok & Hset & _).
      split; [by exists s'|]. destruct (bands_shape _ _ _ Hx H16 Hlen) as [Hy Hly].
      split; [done|]. by split.
    + destruct xss as [|x xss]; [by destruct Hx as [Hx _]; cbn in Hx; lia|].
      destruct Hx as [_ Hx]. apply Forall_inv in Hx as [Hx Hlx].
      eapply (vad_fault_overflow (vadNearend (digitalAgc s))); [apply (a_digital _ _ H)|].
      split; [|exact Ho]. cbn [first_band head default option_map].
      unfold first_band. cbn. rewrite take_drop. apply (size_ok_frame x L L2).
      * destruct Hr as [E|[E|[E|E]]]; rewrite E in Ef; injection Ef as <- <-;
          [by left|by right..].
      * split; [done|lia].
Qed.
