(* ===== verification/GainControl.v ===== *)
(** * Gain control wrapper

    [GainControlImpl] of [gain_control_impl.{h,cc}]: the C++ class that owns an
    AGC instance through a [GainController] on the heap, keeps the settings and
    forwards frames of 80 samples.  The heap is explicit, because the class
    leaves its pointer indeterminate until it is first enabled and never deletes
    a controller that it replaces. *)
From S2P Require Import Prelude CInt Spl Vad GainTable Digital Instance Mic Analog.
From S2P Require Import Session.

(** ** Constants of [include/audio_processing.h] *)

Definition kNoError : Z := 0.
Definition kUnspecifiedError : Z := -1.
Definition kUnsupportedFunctionError : Z := -4.
Definition kNullPointerError : Z := -5.
Definition kBadParameterError : Z := -6.
Definition kNotEnabledError : Z := -12.

(** [GainControl::Mode]: an enumeration of three values; a fourth is
    representable. *)
Definition kAdaptiveAnalog : Z := 0.
Definition kAdaptiveDigital : Z := 1.
Definition kFixedDigital : Z := 2.

Definition MapSetting (mode : Z) : Z :=
  if mode =? kAdaptiveAnalog then kAgcModeAdaptiveAnalog
  else if mode =? kAdaptiveDigital then kAgcModeAdaptiveDigital
  else if mode =? kFixedDigital then kAgcModeFixedDigital
  else -1.

(** ** Controllers *)

(** [GainControlImpl::GainController]: the AGC handle and the level of the last
    frame ([None] before it is first set). *)
Record GainController := MkController {
  state_ : option LegacyAgc;
  capture_level_ : option Z
}.

(** The constructor; [mem] is what [malloc] returns inside
    [WebRtcAgc_Create]. *)
Definition GainController_new (mem : option LegacyAgc) : res GainController :=
  s ← WebRtcAgc_Create mem;
  Ok {| state_ := Some s; capture_level_ := None |}.

(** The error of [WebRtcAgc_Init] is not reported. *)
Definition GainController_Initialize (c : GainController)
    (minimum_capture_level maximum_capture_level mode sample_rate_hz
     capture_level : Z) : res GainController :=
  match state_ c with
  | None => Ok c
  | Some s =>
      '(_, s) ← WebRtcAgc_Init s minimum_capture_level maximum_capture_level
                  (MapSetting mode) sample_rate_hz;
      Ok {| state_ := Some s; capture_level_ := Some capture_level |}
  end.

(** ** The heap

    An address is an index; a freed cell is [None]; [new] takes a fresh
    address. *)
Abbreviation heap := (list (option GainController)).

Definition load (h : heap) (p : option nat) : res (nat * GainController) :=
  match p with
  | None => Fault Uninitialized
  | Some a => match h !! a with
              | Some (Some c) => Ok (a, c)
              | _ => Fault UseAfterFree
              end
  end.

Definition store (h : heap) (a : nat) (c : GainController) : heap :=
  <[a := Some c]> h.

(** [delete p]. *)
Definition free (h : heap) (p : option nat) : res heap :=
  '(a, _) ← load h p; Ok (<[a := None]> h).

Definition live (h : heap) : nat := length (omap id h).

(** ** The class *)

(** The last three members are not initialised by the constructor. *)
Record GainControlImpl := MkControl {
  enabled_ : bool;
  mode_ : Z;
  minimum_capture_level_ : Z;
  maximum_capture_level_ : Z;
  limiter_enabled_ : bool;
  target_level_dbfs_ : Z;
  compression_gain_db_ : Z;
  analog_capture_level_ : Z;
  was_analog_level_set_ : bool;
  stream_is_saturated_ : bool;
  gain_controller_ : option nat;
  num_proc_channels_ : option Z;
  sample_rate_hz_ : option Z
}.

Definition GainControlImpl_new : GainControlImpl :=
  MkControl false kFixedDigital 0 255 true 2 9 0 false false None None None.

(** The destructor; comparing an indeterminate pointer is undefined, too. *)
Definition GainControlImpl_delete (h : heap) (g : GainControlImpl) : res heap :=
  free h (gain_controller_ g).

(** Assignments to the members. *)
Definition set_enabled (b : bool) (g : GainControlImpl) : GainControlImpl :=
  MkControl b (mode_ g) (minimum_capture_level_ g) (maximum_capture_level_ g)
    (limiter_enabled_ g) (target_level_dbfs_ g) (compression_gain_db_ g)
    (analog_capture_level_ g) (was_analog_level_set_ g)
    (stream_is_saturated_ g) (gain_controller_ g) (num_proc_channels_ g)
    (sample_rate_hz_ g).
Definition set_mode_ (m : Z) (g : GainControlImpl) : GainControlImpl :=
  MkControl (enabled_ g) m (minimum_capture_level_ g)
    (maximum_capture_level_ g) (limiter_enabled_ g) (target_level_dbfs_ g)
    (compression_gain_db_ g) (analog_capture_level_ g)
    (was_analog_level_set_ g) (stream_is_saturated_ g) (gain_controller_ g)
    (num_proc_channels_ g) (sample_rate_hz_ g).
Definition set_limits (lo hi : Z) (g : GainControlImpl) : GainControlImpl :=
  MkControl (enabled_ g) (mode_ g) lo hi (limiter_enabled_ g)
    (target_level_dbfs_ g) (compression_gain_db_ g) (analog_capture_level_ g)
    (was_analog_level_set_ g) (stream_is_saturated_ g) (gain_controller_ g)
    (num_proc_channels_ g) (sample_rate_hz_ g).
Definition set_limiter (b : bool) (g : GainControlImpl) : GainControlImpl :=
  MkControl (enabled_ g) (mode_ g) (minimum_capture_level_ g)
    (maximum_capture_level_ g) b (target_level_dbfs_ g)
    (compression_gain_db_ g) (analog_capture_level_ g)
    (was_analog_level_set_ g) (stream_is_saturated_ g) (gain_controller_ g)
    (num_proc_channels_ g) (sample_rate_hz_ g).
Definition set_target (t : Z) (g : GainControlImpl) : GainControlImpl :=
  MkControl (enabled_ g) (mode_ g) (minimum_capture_level_ g)
    (maximum_capture_level_ g) (limiter_enabled_ g) t (compression_gain_db_ g)
    (analog_capture_level_ g) (was_analog_level_set_ g)
    (stream_is_saturated_ g) (gain_controller_ g) (num_proc_channels_ g)
    (sample_rate_hz_ g).
Definition set_gain (c : Z) (g : GainControlImpl) : GainControlImpl :=
  MkControl (enabled_ g) (mode_ g) (minimum_capture_level_ g)
    (maximum_capture_level_ g) (limiter_enabled_ g) (target_level_dbfs_ g) c
    (analog_capture_level_ g) (was_analog_level_set_ g)
    (stream_is_saturated_ g) (gain_controller_ g) (num_proc_channels_ g)
    (sample_rate_hz_ g).
Definition set_analog (l : Z) (g : GainControlImpl) : GainControlImpl :=
  MkControl (enabled_ g) (mode_ g) (minimum_capture_level_ g)
    (maximum_capture_level_ g) (limiter_enabled_ g) (target_level_dbfs_ g)
    (compression_gain_db_ g) l (was_analog_level_set_ g)
    (stream_is_saturated_ g) (gain_controller_ g) (num_proc_channels_ g)
    (sample_rate_hz_ g).
Definition set_was_set (b : bool) (g : GainControlImpl) : GainControlImpl :=
  MkControl (enabled_ g) (mode_ g) (minimum_capture_level_ g)
    (maximum_capture_level_ g) (limiter_enabled_ g) (target_level_dbfs_ g)
    (compression_gain_db_ g) (analog_capture_level_ g) b
    (stream_is_saturated_ g) (gain_controller_ g) (num_proc_channels_ g)
    (sample_rate_hz_ g).
Definition set_saturated (b : bool) (g : GainControlImpl) : GainControlImpl :=
  MkControl (enabled_ g) (mode_ g) (minimum_capture_level_ g)
    (maximum_capture_level_ g) (limiter_enabled_ g) (target_level_dbfs_ g)
    (compression_gain_db_ g) (analog_capture_level_ g)
    (was_analog_level_set_ g) b (gain_controller_ g) (num_proc_channels_ g)
    (sample_rate_hz_ g).
Definition set_controller (p : option nat) (g : GainControlImpl) : GainControlImpl :=
  MkControl (enabled_ g) (mode_ g) (minimum_capture_level_ g)
    (maximum_capture_level_ g) (limiter_enabled_ g) (target_level_dbfs_ g)
    (compression_gain_db_ g) (analog_capture_level_ g)
    (was_analog_level_set_ g) (stream_is_saturated_ g) p
    (num_proc_channels_ g) (sample_rate_hz_ g).
Definition set_format (n r : option Z) (g : GainControlImpl) : GainControlImpl :=
  MkControl (enabled_ g) (mode_ g) (minimum_capture_level_ g)
    (maximum_capture_level_ g) (limiter_enabled_ g) (target_level_dbfs_ g)
    (compression_gain_db_ g) (analog_capture_level_ g)
    (was_analog_level_set_ g) (stream_is_saturated_ g) (gain_controller_ g) n
    r.

Definition get {A} (o : option A) : res A :=
  match o with Some a => Ok a | None => Fault Uninitialized end.

(** ** Configuration *)

Definition config_of (g : GainControlImpl) : WebRtcAgcConfig :=
  {| c_targetLevelDbfs := to_i16 (target_level_dbfs_ g);
     c_compressionGaindB := to_i16 (compression_gain_db_ g);
     c_limiterEnable := if limiter_enabled_ g then 1 else 0 |}.

Definition Configure (h : heap) (g : GainControlImpl) : res (Z * heap) :=
  '(a, c) ← load h (gain_controller_ g);
  '(handle_error, s) ← WebRtcAgc_set_config (state_ c) (config_of g);
  let error := if negb (handle_error =? kNoError) then handle_error else kNoError in
  Ok (error, store h a {| state_ := s; capture_level_ := capture_level_ c |}).

(** The pointer is overwritten; a controller it pointed to is not deleted. *)
Definition Initialize (mem : option LegacyAgc) (h : heap) (g : GainControlImpl)
    (num_proc_channels sample_rate_hz : Z) : res (heap * GainControlImpl) :=
  let g := set_format (Some num_proc_channels) (Some sample_rate_hz) g in
  if negb (enabled_ g) then Ok (h, g) else
  c ← GainController_new mem;
  let g := set_controller (Some (length h)) g in
  c ← GainController_Initialize c (minimum_capture_level_ g)
        (maximum_capture_level_ g) (mode_ g) sample_rate_hz (analog_capture_level_ g);
  '(_, h) ← Configure (h ++ [Some c]) g;
  Ok (h, g).

Definition Reinitialize (mem : option LegacyAgc) (h : heap) (g : GainControlImpl)
    : res (heap * GainControlImpl) :=
  n ← get (num_proc_channels_ g);
  r ← get (sample_rate_hz_ g);
  Initialize mem h g n r.

Definition Enable (mem : option LegacyAgc) (h : heap) (g : GainControlImpl)
    (enable : bool) : res (Z * heap * GainControlImpl) :=
  if enable && negb (enabled_ g) then
    '(h, g) ← Reinitialize mem h (set_enabled enable g); Ok (kNoError, h, g)
  else Ok (kNoError, h, set_enabled enable g).

Definition set_mode (mem : option LegacyAgc) (h : heap) (g : GainControlImpl)
    (mode : Z) : res (Z * heap * GainControlImpl) :=
  if MapSetting mode =? -1 then Ok (kBadParameterError, h, g) else
  '(h, g) ← Reinitialize mem h (set_mode_ mode g); Ok (kNoError, h, g).

Definition set_analog_level_limits (mem : option LegacyAgc) (h : heap)
    (g : GainControlImpl) (minimum maximum : Z) : res (Z * heap * GainControlImpl) :=
  if minimum <? 0 then Ok (kBadParameterError, h, g) else
  if maximum <? 0 then Ok (kBadParameterError, h, g) else
  if maximum <? minimum then Ok (kBadParameterError, h, g) else
  '(h, g) ← Reinitialize mem h (set_limits minimum maximum g); Ok (kNoError, h, g).

Definition set_stream_analog_level (h : heap) (g : GainControlImpl) (level : Z)
    : res (Z * heap * GainControlImpl) :=
  let g := set_was_set true g in
  if (level <? minimum_capture_level_ g) || (maximum_capture_level_ g <? level)
  then Ok (kBadParameterError, h, g)
  else Ok (kNoError, h, set_analog level g).

Definition set_target_level_dbfs (h : heap) (g : GainControlImpl) (level : Z)
    : res (Z * heap * GainControlImpl) :=
  if (31 <? level) || (level <? 0) then Ok (kBadParameterError, h, g) else
  let g := set_target level g in
  '(e, h) ← Configure h g; Ok (e, h, g).

Definition set_compression_gain_db (h : heap) (g : GainControlImpl) (gain : Z)
    : res (Z * heap * GainControlImpl) :=
  if (gain <? 0) || (90 <? gain) then Ok (kBadParameterError, h, g) else
  let g := set_gain gain g in
  '(e, h) ← Configure h g; Ok (e, h, g).

Definition enable_limiter (h : heap) (g : GainControlImpl) (enable : bool)
    : res (Z * heap * GainControlImpl) :=
  let g := set_limiter enable g in
  '(e, h) ← Configure h g; Ok (e, h, g).

(** ** Audio

    [audio] is the buffer from the pointer argument on. *)

Definition AnalyzeCaptureAudio (h : heap) (g : GainControlImpl) (audio : list Z)
    : res (Z * heap * list Z) :=
  if negb (enabled_ g) then Ok (kNoError, h, audio) else
  if mode_ g =? kAdaptiveDigital then
    '(a, c) ← load h (gain_controller_ g);
    s ← match state_ c with Some s => Ok s | None => Fault NullPointer end;
    '(err, s, bands, level_out) ← WebRtcAgc_VirtualMic s [audio] 80 0;
    audio ← rd bands 0;
    let h := store h a {| state_ := Some s; capture_level_ := Some level_out |} in
    Ok (if negb (err =? kNoError) then kUnspecifiedError else kNoError, h, audio)
  else if mode_ g =? kAdaptiveAnalog then Ok (kNotEnabledError, h, audio)
  else Ok (kNoError, h, audio).

(** Input and output are the same buffer. *)
Definition ProcessCaptureAudio (h : heap) (g : GainControlImpl) (audio : list Z)
    : res (Z * heap * GainControlImpl * list Z) :=
  if negb (enabled_ g) then Ok (kNoError, h, g, audio) else
  if mode_ g =? kAdaptiveAnalog then Ok (kUnsupportedFunctionError, h, g, audio) else
  let g := set_saturated false g in
  '(a, c) ← load h (gain_controller_ g);
  level ← get (capture_level_ c);
  p ← WebRtcAgc_Process (state_ c) [audio] 80 [audio] level 0 0 0;
  audio ← rd (p_out p) 0;
  if negb (p_ret p =? kNoError) then
    Ok (kUnspecifiedError,
        store h a {| state_ := p_agc p; capture_level_ := Some level |}, g, audio)
  else
    let h := store h a {| state_ := p_agc p; capture_level_ := Some (p_level p) |} in
    let g := if p_warning p =? 1 then set_saturated true g else g in
    Ok (kNoError, h, g, audio).
