(* ===== verification/AudioProcessing.v ===== *)
(** * Audio processing wrapper

    [AudioProcessingImpl] of [audio_processing_impl.{h,cc}], the object an
    application creates: it owns a [GainControlImpl] and splits blocks of 160
    samples (20 ms at 8 kHz) into the two frames of the AGC.  An abstract
    machine on the settings specifies the control interface; the class refines
    it, faults included. *)
From S2P Require Import Prelude CInt Spl Vad GainTable Digital Instance Mic Analog.
From S2P Require Import Session Contract GainControl.

(** ** The class *)

(** [AudioProcessing::Create]: the constructors and [Initialize(1, 8000)], which
    allocates no controller because the gain control is not enabled. *)
Definition Create (mem : option LegacyAgc) : res (heap * GainControlImpl) :=
  Initialize mem [] GainControlImpl_new 1 8000.

(** [AudioProcessing::Destory]. *)
Definition Destory (h : heap) (g : GainControlImpl) : res heap :=
  GainControlImpl_delete h g.

(** One pass of the loop of [ProcessStream] on the frame at offset [80 * i]. *)
Definition process_chunk (h : heap) (g : GainControlImpl) (data : list Z) (i : nat)
    : res (Z * heap * GainControlImpl * list Z) :=
  let off := (i * 80)%nat in
  '(error, h, audio) ← AnalyzeCaptureAudio h g (drop off data);
  let data := take off data ++ audio in
  if negb (error =? kNoError) then Ok (error, h, g, data) else
  '(error, h, g, audio) ← ProcessCaptureAudio h g (drop off data);
  Ok (error, h, g, take off data ++ audio).

Definition ProcessStream (h : heap) (g : GainControlImpl) (data : option (list Z))
    (num_frames : Z) : res (Z * heap * GainControlImpl * option (list Z)) :=
  match data with
  | None => Ok (kNullPointerError, h, g, None)
  | Some data =>
      if negb (num_frames =? 160) then Ok (kBadParameterError, h, g, Some data) else
      '(error, h, g, data) ← process_chunk h g data 0;
      if negb (error =? kNoError) then Ok (error, h, g, Some data) else
      '(error, h, g, data) ← process_chunk h g data 1;
      Ok (error, h, g, Some data)
  end.

(** ** The control interface as an abstract machine *)

Inductive call : Set :=
| CallEnable (enable : bool)
| CallMode (mode : Z)
| CallLimits (minimum maximum : Z)
| CallLevel (level : Z)
| CallTarget (level : Z)
| CallGain (gain : Z)
| CallLimiter (enable : bool).

Definition run_call (mem : option LegacyAgc) (h : heap) (g : GainControlImpl)
    (c : call) : res (Z * heap * GainControlImpl) :=
  match c with
  | CallEnable b => Enable mem h g b
  | CallMode m => set_mode mem h g m
  | CallLimits lo hi => set_analog_level_limits mem h g lo hi
  | CallLevel l => set_stream_analog_level h g l
  | CallTarget t => set_target_level_dbfs h g t
  | CallGain c => set_compression_gain_db h g c
  | CallLimiter b => enable_limiter h g b
  end.

(** What the getters report, and whether a controller has ever been created. *)
Record settings := Settings {
  st_enabled : bool;
  st_mode : Z;
  st_minimum : Z;
  st_maximum : Z;
  st_limiter : bool;
  st_target : Z;
  st_gain : Z;
  st_level : Z;
  st_controller : bool
}.

Definition settings_of (g : GainControlImpl) : settings :=
  Settings (enabled_ g) (mode_ g) (minimum_capture_level_ g)
    (maximum_capture_level_ g) (limiter_enabled_ g) (target_level_dbfs_ g)
    (compression_gain_db_ g) (analog_capture_level_ g)
    (bool_decide (is_Some (gain_controller_ g))).

(** The specification of a call: the code and the new settings, or [None] where
    the call needs a controller and there is none. *)
Definition spec_call (c : call) (st : settings) : option (Z * settings) :=
  let '(Settings e m lo hi li t ga l p) := st in
  match c with
  | CallEnable b => Some (kNoError, Settings b m lo hi li t ga l (p || b && negb e))
  | CallMode m' =>
      if (0 <=? m') && (m' <=? 2)
      then Some (kNoError, Settings e m' lo hi li t ga l (p || e))
      else Some (kBadParameterError, st)
  | CallLimits lo' hi' =>
      if (0 <=? lo') && (0 <=? hi') && (lo' <=? hi')
      then Some (kNoError, Settings e m lo' hi' li t ga l (p || e))
      else Some (kBadParameterError, st)
  | CallLevel l' =>
      if (lo <=? l') && (l' <=? hi)
      then Some (kNoError, Settings e m lo hi li t ga l' p)
      else Some (kBadParameterError, st)
  | CallTarget t' =>
      if (0 <=? t') && (t' <=? 31)
      then if p then Some (kNoError, Settings e m lo hi li t' ga l p) else None
      else Some (kBadParameterError, st)
  | CallGain ga' =>
      if (0 <=? ga') && (ga' <=? 90)
      then if p then Some (kNoError, Settings e m lo hi li t ga' l p) else None
      else Some (kBadParameterError, st)
  | CallLimiter b =>
      if p then Some (kNoError, Settings e m lo hi b t ga l p) else None
  end.

(** The calls the refinement covers: compression gains the digital AGC can apply
    without overflow, level ranges the analog control can work with, 32-bit
    levels; arguments the setters reject are always covered. *)
Definition legal_call (c : call) : Prop :=
  match c with
  | CallGain ga => ga <= 18 \/ 90 < ga
  | CallLimits lo hi => lo < 0 \/ hi < 0 \/ hi < lo \/ lo + 42 <= hi <= 104857
  | CallLevel l => i32 l
  | _ => True
  end.

(** Memory that [malloc] may return for an instance. *)
Definition memory_ok (mem : LegacyAgc) : Prop := length (filterState mem) = 8%nat.

(** ** Invariant *)

Record settings_ok (g : GainControlImpl) : Prop := {
  so_mode : 0 <= mode_ g <= 2;
  so_limits : 0 <= minimum_capture_level_ g /\
              minimum_capture_level_ g + 42 <= maximum_capture_level_ g <= 104857;
  so_target : 0 <= target_level_dbfs_ g <= 31;
  so_gain : 0 <= compression_gain_db_ g <= 18;
  so_level : i32 (analog_capture_level_ g);
  so_channels : num_proc_channels_ g = Some 1;
  so_rate : sample_rate_hz_ g = Some 8000
}.

(** The controller at address [a]: an instance that satisfies its invariant and,
    while the gain control is enabled, is in the mode and has the configuration
    of the settings. *)
Definition controller_ok (inv : Z -> LegacyAgc -> Prop) (n : Z) (h : heap)
    (g : GainControlImpl) (a : nat) : Prop :=
  exists s lvl, h !! a = Some (Some (MkController (Some s) (Some lvl))) /\
    inv n s /\ fs s = 8000 /\ i32 lvl /\
    (enabled_ g = true -> agcMode s = MapSetting (mode_ g) /\ usedConfig s = config_of g).

Definition world_ok (inv : Z -> LegacyAgc -> Prop) (n : Z) (h : heap)
    (g : GainControlImpl) : Prop :=
  settings_ok g /\
  match gain_controller_ g with
  | Some a => controller_ok inv n h g a
  | None => enabled_ g = false
  end.

(** * Lemmas *)

(** Settings that differ in the members an operation assigns. *)
Ltac settings_tac := match goal with H : settings_ok _ |- settings_ok _ =>
  destruct H; constructor; cbn; done || lia end.

Section wrapper.
Context (inv : Z -> LegacyAgc -> Prop) `{!AgcContract inv}.

Lemma config_of_ok g : settings_ok g -> config_ok (config_of g) /\
  c_compressionGaindB (config_of g) <= 18.
Proof.
  intros H. pose proof (so_target _ H). pose proof (so_gain _ H).
  unfold config_ok, config_of. cbn. rewrite !to_i16_id by (unfold i16; lia).
  destruct (limiter_enabled_ g); unfold kAgcFalse, kAgcTrue; lia.
Qed.

Lemma MapSetting_valid m : 0 <= m <= 2 -> 1 <= MapSetting m <= 3.
Proof.
  intros Hm. assert (E : m = 0 \/ m = 1 \/ m = 2) by lia.
  destruct E as [->|[->| ->]]; by vm_compute.
Qed.

Lemma MapSetting_invalid m : ~ 0 <= m <= 2 -> MapSetting m = -1.
Proof.
  intros Hm. unfold MapSetting, kAdaptiveAnalog, kAdaptiveDigital, kFixedDigital.
  by rewrite !(proj2 (Z.eqb_neq _ _)) by lia.
Qed.

Lemma store_last h (c c' : GainController) :
  store (h ++ [Some c]) (length h) c' = h ++ [Some c'].
Proof.
  unfold store. rewrite insert_app_r_alt by done. by rewrite Nat.sub_diag.
Qed.

Lemma Configure_spec n h g a s lvl :
  settings_ok g -> gain_controller_ g = Some a ->
  h !! a = Some (Some (MkController (Some s) lvl)) -> inv n s ->
  exists s', Configure h g = Ok (kNoError, store h a (MkController (Some s') lvl)) /\
    inv n s' /\ usage s' = (fs s, agcMode s, config_of g) /\
    vadNearend (digitalAgc s') = vadNearend (digitalAgc s).
Proof.
  intros Hg Ha Hh Hs. destruct (config_of_ok g Hg) as [Hc H18].
  destruct (proj1 (wp_ok _ _) (contract_set_config n s _ Hs Hc H18))
    as ([ret o] & E & -> & s' & -> & ?).
  exists s'. split; [|done]. unfold Configure, load. rewrite Ha, Hh.
  cbn [mbind res_bind state_ capture_level_]. by rewrite E.
Qed.

(** A controller created with the settings of [g]. *)
Lemma Initialize_spec n mem h g :
  settings_ok g -> enabled_ g = true -> memory_ok mem -> 0 <= n ->
  exists s g', Initialize (Some mem) h g 1 8000 =
      Ok (h ++ [Some (MkController (Some s) (Some (analog_capture_level_ g)))], g') /\
    g' = set_controller (Some (length h)) g /\
    inv 0 s /\ usage s = (8000, MapSetting (mode_ g), config_of g) /\
    vadNearend (digitalAgc s) = WebRtcAgc_InitVad.
Proof.
  intros Hg He Hm Hn. unfold Initialize.
  assert (Eg : set_format (Some 1) (Some 8000) g = g).
  { pose proof (so_channels _ Hg). pose proof (so_rate _ Hg). destruct g; cbn in *. by subst. }
  rewrite Eg, He. cbn [negb]. unfold GainController_new, WebRtcAgc_Create.
  cbn [mbind res_bind]. unfold GainController_Initialize. cbn [state_].
  pose proof (MapSetting_valid _ (so_mode _ Hg)) as Hms.
  pose proof (so_limits _ Hg) as Hlim.
  assert (Hl : level_args_ok (MapSetting (mode_ g)) (minimum_capture_level_ g)
                 (maximum_capture_level_ g)) by (unfold level_args_ok, i32; lia).
  set (stt := set_lastError 0 _).
  destruct (proj1 (wp_ok _ _) (contract_init stt (minimum_capture_level_ g)
    (maximum_capture_level_ g) (MapSetting (mode_ g)) 8000 Hm ltac:(lia) Hl))
    as ([ret s] & E & -> & Hs & Hfs & Hmode & Hv).
  set (g' := set_controller (Some (length h)) g).
  change (MapSetting (mode_ g')) with (MapSetting (mode_ g)).
  change (minimum_capture_level_ g') with (minimum_capture_level_ g).
  change (maximum_capture_level_ g') with (maximum_capture_level_ g).
  change (analog_capture_level_ g') with (analog_capture_level_ g).
  rewrite E. cbn [mbind res_bind].
  assert (Hg' : settings_ok g') by (destruct Hg; constructor; done).
  destruct (Configure_spec 0 (h ++ [Some (MkController (Some s)
              (Some (analog_capture_level_ g)))]) g'
              (length h) s (Some (analog_capture_level_ g)) Hg' eq_refl)
    as (s' & Ec & Hs' & Hset & Hv').
  { rewrite lookup_app_r, Nat.sub_diag by done. done. }
  { done. }
  rewrite Ec. cbn [mbind res_bind]. rewrite store_last.
  exists s', g'. split_and!; try done; [|congruence].
  by rewrite Hset, Hfs, Hmode.
Qed.

(** Reinitialising after a change of the settings. *)
Lemma Reinitialize_spec n mem h g :
  settings_ok g -> memory_ok mem -> 0 <= n ->
  (enabled_ g = false -> world_ok inv n h g) ->
  exists h' g', Reinitialize (Some mem) h g = Ok (h', g') /\ world_ok inv n h' g' /\
    settings_of g' = Settings (enabled_ g) (mode_ g) (minimum_capture_level_ g)
      (maximum_capture_level_ g) (limiter_enabled_ g) (target_level_dbfs_ g)
      (compression_gain_db_ g) (analog_capture_level_ g)
      (bool_decide (is_Some (gain_controller_ g)) || enabled_ g) /\
    live h' = (live h + if enabled_ g then 1 else 0)%nat.
Proof.
  intros Hg Hm Hn Hoff. unfold Reinitialize.
  rewrite (so_channels _ Hg), (so_rate _ Hg). cbn [get mbind res_bind].
  destruct (enabled_ g) eqn:He.
  - destruct (Initialize_spec n mem h g Hg He Hm Hn) as (s & g' & E & -> & Hs & Hset & _).
    rewrite E. eexists _, _. split; [done|]. split; [|split].
    + split; [by destruct Hg; constructor|]. cbn.
      exists s, (analog_capture_level_ g). rewrite lookup_app_r, Nat.sub_diag by done.
      injection Hset as E1 E2 E3. pose proof (so_level _ Hg).
      split; [done|]. split; [by apply (contract_mono 0)|]. by split_and!.
    + unfold settings_of; cbn. by rewrite He, orb_true_r.
    + unfold live. rewrite omap_app, length_app. done.
  - exists h, g. unfold Initialize.
    assert (Eg : set_format (Some 1) (Some 8000) g = g).
    { pose proof (so_channels _ Hg). pose proof (so_rate _ Hg). destruct g; cbn in *. by subst. }
    rewrite Eg, He. cbn [negb]. split; [done|]. split; [by apply Hoff|].
    split; [|lia]. unfold settings_of. by rewrite He, orb_false_r.
Qed.

Lemma live_store h a c c' :
  h !! a = Some (Some c) -> live (store h a c') = live h.
Proof.
  unfold live, store. revert a. induction h as [|x h IH]; intros [|a] Hx; try done.
  - injection Hx as ->. done.
  - specialize (IH a Hx). destruct x; [exact (f_equal S IH)|exact IH].
Qed.

(** A new configuration for the controller at hand. *)
Lemma reconfigure n h g g2 :
  world_ok inv n h g -> settings_ok g2 ->
  gain_controller_ g2 = gain_controller_ g -> enabled_ g2 = enabled_ g ->
  mode_ g2 = mode_ g ->
  match gain_controller_ g with
  | Some a => exists h', Configure h g2 = Ok (kNoError, h') /\
                world_ok inv n h' g2 /\ live h' = live h
  | None => Configure h g2 = Fault Uninitialized
  end.
Proof.
  intros [Hg Hc] Hg2 Ep Ee Em.
  destruct (gain_controller_ g) as [a|] eqn:Ea; [|unfold Configure; by rewrite Ep].
  destruct Hc as (s & lvl & Hh & Hs & Hfs & Hl & Hsync).
  destruct (Configure_spec n h g2 a s (Some lvl) Hg2 Ep Hh Hs)
    as (s' & E & Hs' & Hset & _).
  eexists. split; [exact E|]. split; [|by eapply live_store].
  split; [done|]. rewrite Ep. injection Hset as E1 E2 E3.
  exists s', lvl. unfold store. rewrite list_lookup_insert_eq by (by eapply lookup_lt_Some).
  split_and!; try done; [congruence|]. rewrite Ee, Em. intros He.
  destruct (Hsync He) as [? _]. split; congruence.
Qed.

(** The settings may change while the gain control is off. *)
Lemma world_off n h g g2 :
  world_ok inv n h g -> settings_ok g2 ->
  gain_controller_ g2 = gain_controller_ g -> enabled_ g2 = false ->
  world_ok inv n h g2.
Proof.
  intros [Hg Hc] Hg2 Ep Ee. split; [done|]. rewrite Ep.
  destruct (gain_controller_ g) as [a|]; [|done].
  destruct Hc as (s & lvl & Hh & Hs & Hfs & Hl & _).
  exists s, lvl. split_and!; try done. by rewrite Ee.
Qed.

(** Settings that do not concern the controller. *)
Lemma world_same n h g g2 :
  world_ok inv n h g -> settings_ok g2 ->
  gain_controller_ g2 = gain_controller_ g -> enabled_ g2 = enabled_ g ->
  mode_ g2 = mode_ g -> config_of g2 = config_of g ->
  world_ok inv n h g2.
Proof.
  intros [Hg Hc] Hg2 Ep Ee Em Ec. split; [done|]. rewrite Ep, Ee.
  destruct (gain_controller_ g) as [a|]; [|done].
  destruct Hc as (s & lvl & Hh & Hs & Hfs & Hl & Hsync).
  exists s, lvl. rewrite Ee, Em, Ec. by split_and!.
Qed.

(** The three calls that configure the controller at hand. *)
Lemma refines_configure n h g g2 :
  world_ok inv n h g -> settings_ok g2 ->
  gain_controller_ g2 = gain_controller_ g -> enabled_ g2 = enabled_ g ->
  mode_ g2 = mode_ g ->
  if bool_decide (is_Some (gain_controller_ g)) then
    exists h', ('(e, h') ← Configure h g2; Ok (e, h', g2)) = Ok (kNoError, h', g2) /\
      world_ok inv n h' g2 /\ live h' = live h
  else ('(e, h') ← Configure h g2; Ok (e, h', g2)) = Fault Uninitialized.
Proof.
  intros Hw Hg2 Ep Ee Em. pose proof (reconfigure n h g g2 Hw Hg2 Ep Ee Em) as Hr.
  destruct (gain_controller_ g) as [a|]; cbn.
  - destruct Hr as (h' & -> & ?). by exists h'.
  - by rewrite Hr.
Qed.

Lemma refines_enable n mem h g b :
  world_ok inv n h g -> 0 <= n -> memory_ok mem ->
  exists h' g', Enable (Some mem) h g b = Ok (kNoError, h', g') /\
    settings_of g' = Settings b (mode_ g) (minimum_capture_level_ g)
      (maximum_capture_level_ g) (limiter_enabled_ g) (target_level_dbfs_ g)
      (compression_gain_db_ g) (analog_capture_level_ g)
      (bool_decide (is_Some (gain_controller_ g)) || b && negb (enabled_ g)) /\
    world_ok inv n h' g'.
Proof.
  intros Hw Hn Hm. pose proof Hw as [Hg Hc].
  unfold Enable. destruct (b && negb (enabled_ g)) eqn:E.
  + destruct (Reinitialize_spec n mem h (set_enabled b g)) as (h' & g' & E1 & W & E2 & _);
      [settings_tac|done|done|intros He; cbn in He; by subst b|].
    rewrite E1. exists h', g'. split_and!; [done| |done]. rewrite E2. cbn.
    by apply andb_prop in E as [-> _].
  + exists h, (set_enabled b g). split; [done|].
    split; [unfold settings_of; cbn; by rewrite orb_false_r|].
    destruct b; [|by apply (world_off n h g); [done|settings_tac|..]].
    apply (world_same n h g); [done|settings_tac|done|cbn|done|done].
    by destruct (enabled_ g).
Qed.

(** Every call of the interface does what the abstract machine says. *)
Lemma refines_call n mem h g c :
  world_ok inv n h g -> 0 <= n -> memory_ok mem -> legal_call c ->
  match spec_call c (settings_of g) with
  | Some (code, st) =>
      exists h' g', run_call (Some mem) h g c = Ok (code, h', g') /\
        settings_of g' = st /\ world_ok inv n h' g'
  | None => run_call (Some mem) h g c = Fault Uninitialized
  end.
Proof.
  intros Hw Hn Hm Hleg. pose proof Hw as [Hg Hc].
  destruct c as [b|m|lo hi|l|t|ga|b]; cbn [run_call spec_call settings_of].
  - by apply refines_enable.
  - unfold set_mode. destruct (andb _ _) eqn:E.
    + rewrite (proj2 (Z.eqb_neq _ _)) by (pose proof (MapSetting_valid m); lia).
      destruct (Reinitialize_spec n mem h (set_mode_ m g)) as (h' & g' & E1 & W & E2 & _);
        [settings_tac|done|done| |rewrite E1; by exists h', g'].
      intros He. apply (world_off n h g); [done|settings_tac|done|done].
    + rewrite MapSetting_invalid by lia. by exists h, g.
  - unfold set_analog_level_limits. destruct (andb _ _) eqn:E.
    + rewrite !(proj2 (Z.ltb_ge _ _)) by lia. cbn in Hleg.
      destruct (Reinitialize_spec n mem h (set_limits lo hi g)) as (h' & g' & E1 & W & E2 & _);
        [settings_tac|done|done| |rewrite E1; by exists h', g'].
      intros He. apply (world_off n h g); [done|settings_tac|done|done].
    + exists h, g. split; [|done].
      destruct (Z.ltb_spec lo 0), (Z.ltb_spec hi 0), (Z.ltb_spec hi lo); done || lia.
  - unfold set_stream_analog_level. cbn. destruct (andb _ _) eqn:E.
    + replace (_ || _) with false by lia. eexists _, _. split; [done|]. split; [done|].
      apply (world_same n h g); [done|settings_tac|done..].
    + replace (_ || _) with true by lia. eexists _, _. split; [done|]. split; [done|].
      apply (world_same n h g); [done|settings_tac|done..].
  - unfold set_target_level_dbfs. destruct (andb _ _) eqn:E.
    + rewrite !(proj2 (Z.ltb_ge _ _)) by lia. cbn [orb].
      pose proof (refines_configure n h g (set_target t g) Hw ltac:(settings_tac)
        eq_refl eq_refl eq_refl) as Hr.
      destruct (bool_decide _) eqn:Ep; [|done].
      destruct Hr as (h' & Er & W & _). exists h', (set_target t g).
      split_and!; [done| |done]. unfold settings_of. cbn. by rewrite Ep.
    + replace ((31 <? t) || (t <? 0)) with true by lia. by exists h, g.
  - unfold set_compression_gain_db. destruct (andb _ _) eqn:E.
    + rewrite !(proj2 (Z.ltb_ge _ _)) by lia. cbn [orb]. cbn in Hleg.
      pose proof (refines_configure n h g (set_gain ga g) Hw ltac:(settings_tac)
        eq_refl eq_refl eq_refl) as Hr.
      destruct (bool_decide _) eqn:Ep; [|done].
      destruct Hr as (h' & Er & W & _). exists h', (set_gain ga g).
      split_and!; [done| |done]. unfold settings_of. cbn. by rewrite Ep.
    + replace ((ga <? 0) || (90 <? ga)) with true by lia. by exists h, g.
  - pose proof (refines_configure n h g (set_limiter b g) Hw ltac:(settings_tac)
      eq_refl eq_refl eq_refl) as Hr. unfold enable_limiter.
    destruct (bool_decide _) eqn:Ep; [|done].
    destruct Hr as (h' & Er & W & _). exists h', (set_limiter b g).
    split_and!; [done| |done]. unfold settings_of. cbn. by rewrite Ep.
Qed.


(** ** Frames *)

(** The gain control is enabled and its controller holds the instance [s], in
    the configuration of the settings, and the level [lvl]. *)
Record ready (n : Z) (h : heap) (g : GainControlImpl) (s : LegacyAgc) (lvl : Z)
    : Prop := {
  rd_settings : settings_ok g;
  rd_enabled : enabled_ g = true;
  rd_cell : load h (gain_controller_ g) =
            Ok (default 0%nat (gain_controller_ g), MkController (Some s) (Some lvl));
  rd_inv : inv n s;
  rd_usage : usage s = (8000, MapSetting (mode_ g), config_of g);
  rd_level : i32 lvl
}.

Lemma load_lookup h p a c :
  load h p = Ok (a, c) <-> p = Some a /\ h !! a = Some (Some c).
Proof.
  unfold load. destruct p as [b|]; [|split; [done|by intros [? _]]]. split.
  - destruct (h !! b) as [[c'|]|] eqn:E; try done. by intros [= <- <-].
  - by intros [[= ->] ->].
Qed.

Lemma world_ready n h g :
  world_ok inv n h g -> enabled_ g = true -> exists s lvl, ready n h g s lvl.
Proof.
  intros [Hg Hc] He. destruct (gain_controller_ g) as [a|] eqn:Ea; [|congruence].
  destruct Hc as (s & lvl & Hh & Hs & Hfs & Hl & Hsync). destruct (Hsync He).
  exists s, lvl. constructor; try done.
  - rewrite Ea. by apply load_lookup.
  - unfold usage. congruence.
Qed.

Lemma ready_world n h g s lvl : ready n h g s lvl -> world_ok inv n h g.
Proof.
  intros [Hg He Hc Hi Hs Hl]. split; [done|].
  apply load_lookup in Hc as [Ha Hh]. rewrite Ha in Hh |- *. cbn in Hh.
  injection Hs as E1 E2 E3. exists s, lvl. by split_and!.
Qed.

(** The controller after a call on its instance. *)
Lemma ready_store n n' h g s lvl b s' lvl' :
  ready n h g s lvl -> inv n' s' -> usage s' = usage s -> i32 lvl' ->
  ready n' (store h (default 0%nat (gain_controller_ g))
              (MkController (Some s') (Some lvl'))) (set_saturated b g) s' lvl'.
Proof.
  intros [Hg He Hc Hi Hs Hl] Hi' Hs' Hl'. constructor; try done.
  - by destruct Hg; constructor.
  - apply load_lookup in Hc as [Ha Hh]. rewrite Ha in Hh |- *. cbn in *.
    rewrite Ha. apply load_lookup. split; [done|]. unfold store.
    apply list_lookup_insert_eq. by eapply lookup_lt_Some.
  - by rewrite Hs'.
Qed.

Lemma set_saturated_same g : set_saturated (stream_is_saturated_ g) g = g.
Proof. by destruct g. Qed.

(** The level of the last frame is one the mode accepts. *)
Definition frame_ready (n : Z) (h : heap) (g : GainControlImpl) (s : LegacyAgc)
    (lvl : Z) : Prop := ready n h g s lvl /\ level_accepted (agcMode s) lvl.

Lemma Analyze_spec n h g s lvl audio :
  ready n h g s lvl -> mode_ g <> kAdaptiveAnalog -> audio_ok audio ->
  match AnalyzeCaptureAudio h g audio with
  | Ok (err, h', audio') =>
      err = kNoError /\ samples16 audio' /\ length audio' = length audio /\
      if mode_ g =? kFixedDigital
      then h' = h /\ audio' = audio /\ frame_ready n h g s lvl
      else exists s' lvl', frame_ready n h' g s' lvl'
  | Fault f => f = SignedOverflow /\ mode_ g = kAdaptiveDigital
  end.
Proof.
  intros Hr Hm Ha. pose proof (rd_usage _ _ _ _ _ Hr) as Hs.
  injection Hs as E1 E2 E3. pose proof (so_mode _ (rd_settings _ _ _ _ _ Hr)).
  unfold AnalyzeCaptureAudio. rewrite (rd_enabled _ _ _ _ _ Hr). cbn [negb].
  unfold kAdaptiveAnalog, kAdaptiveDigital, kFixedDigital in *.
  destruct (Z.eqb_spec (mode_ g) 1) as [Ed|Ed].
  - rewrite Ed in E2 |- *. change (1 =? 2) with false. cbv iota.
    rewrite (rd_cell _ _ _ _ _ Hr). cbn [mbind res_bind state_].
    pose proof (contract_virtual_mic n s audio (rd_inv _ _ _ _ _ Hr) E1 E2 Ha) as Hv.
    destruct (WebRtcAgc_VirtualMic s [audio] 80 0) as [[[[err s'] bs] lv]|f]; [|done].
    destruct Hv as (-> & Hi & Hset & Hl & x & -> & Hx & Hlx).
    cbn [mbind res_bind]. rewrite rd_head. cbn [mbind res_bind].
    split; [done|]. split; [done|]. split; [done|]. exists s', lv. split.
    + pose proof (ready_store n n h g s lvl (stream_is_saturated_ g) s' lv Hr Hi Hset
        ltac:(unfold i32; lia)) as R. by rewrite set_saturated_same in R.
    + injection Hset as _ -> _. right. rewrite E2. by split.
  - assert (Em : mode_ g = 2) by lia. rewrite Em in E2 |- *.
    change (2 =? 0) with false. change (2 =? 2) with true. cbv iota.
    split; [done|]. destruct Ha as [Ha _]. split; [done|]. split; [done|].
    split; [done|]. split; [done|]. split; [done|]. left. by rewrite E2.
Qed.

Lemma ProcessCapture_spec n h g s lvl audio :
  frame_ready n h g s lvl -> mode_ g <> kAdaptiveAnalog -> audio_ok audio ->
  0 <= n <= block_bound - 5 ->
  match ProcessCaptureAudio h g audio with
  | Ok (err, h', g', audio') =>
      err = kNoError /\ samples16 audio' /\ length audio' = length audio /\
      drop 80 audio' = drop 80 audio /\ settings_of g' = settings_of g /\
      exists s' lvl' r, ready (n + 5) h' g' s' lvl' /\
        WebRtcAgc_ProcessVad (vadNearend (digitalAgc s)) audio 80 =
        Ok (vadNearend (digitalAgc s'), r)
  | Fault f =>
      f = SignedOverflow /\
      WebRtcAgc_ProcessVad (vadNearend (digitalAgc s)) audio 80 = Fault f
  end.
Proof.
  intros [Hr Hacc] Hm Ha Hn. pose proof (rd_usage _ _ _ _ _ Hr) as Hs.
  injection Hs as E1 E2 E3. unfold ProcessCaptureAudio.
  rewrite (rd_enabled _ _ _ _ _ Hr), (proj2 (Z.eqb_neq _ _) Hm). cbn [negb].
  change (gain_controller_ (set_saturated false g)) with (gain_controller_ g).
  rewrite (rd_cell _ _ _ _ _ Hr). cbn [mbind res_bind state_ capture_level_ get].
  pose proof (contract_process n s audio lvl (rd_inv _ _ _ _ _ Hr) Hn E1
    (rd_level _ _ _ _ _ Hr) Hacc Ha) as Hp.
  destruct (WebRtcAgc_Process (Some s) [audio] 80 [audio] lvl 0 0 0) as [p|f]; [|done].
  destruct Hp as (Er & _ & Hl & (s' & Es & Hi & Hset & r & Ev) & x & Eo & Hx & Hlx & Hd).
  cbn [mbind res_bind]. rewrite Eo, rd_head, Er, Es. cbn [mbind res_bind Z.eqb negb].
  change (negb (0 =? kNoError)) with false. cbv iota.
  split; [done|]. split; [done|]. split; [done|]. split; [done|].
  assert (Esat : exists b, (if p_warning p =? 1
      then set_saturated true (set_saturated false g) else set_saturated false g) =
      set_saturated b g) by (destruct (p_warning p =? 1); by eexists).
  destruct Esat as (b & ->). split; [done|].
  exists s', (p_level p), r. split; [|done]. by apply (ready_store n (n + 5) h g s lvl).
Qed.


(** The two frames of a block. *)
Definition chunk (i : nat) (data : list Z) : list Z := take 80 (drop (i * 80) data).

Lemma ProcessVad_chunk v i data :
  (i < 2)%nat -> length data = 160%nat ->
  WebRtcAgc_ProcessVad v (drop (i * 80) data) 80 = WebRtcAgc_ProcessVad v (chunk i data) 80.
Proof.
  intros Hi Hl. rewrite <- (take_drop 80 (drop (i * 80) data)) at 1.
  apply ProcessVad_app. unfold chunk. rewrite length_take, length_drop. lia.
Qed.

(** A processed suffix put back behind the samples in front of it. *)
Lemma put_back off (data audio : list Z) :
  samples16 data -> length data = 160%nat -> samples16 audio ->
  length audio = length (drop off data) -> (off <= 80)%nat ->
  samples16 (take off data ++ audio) /\ length (take off data ++ audio) = 160%nat /\
  drop off (take off data ++ audio) = audio /\
  drop (off + 80) (take off data ++ audio) = drop 80 audio.
Proof.
  intros Hd Hl Ha Hla Ho. rewrite length_drop in Hla.
  assert (Ht : length (take off data) = off) by (rewrite length_take; lia).
  split; [apply Forall_app; split; [by apply Forall_take|done]|].
  split; [rewrite length_app; lia|].
  split; [by rewrite drop_app_length'|]. by rewrite drop_app_add'.
Qed.

Lemma chunk_spec n h g s lvl data i :
  ready n h g s lvl -> mode_ g <> kAdaptiveAnalog -> 0 <= n <= block_bound - 5 ->
  samples16 data -> length data = 160%nat -> (i < 2)%nat ->
  match process_chunk h g data i with
  | Ok (err, h', g', data') =>
      err = kNoError /\ samples16 data' /\ length data' = 160%nat /\
      settings_of g' = settings_of g /\
      exists s' lvl', ready (n + 5) h' g' s' lvl' /\
        (mode_ g = kFixedDigital ->
         drop (i * 80 + 80) data' = drop (i * 80 + 80) data /\
         exists r, WebRtcAgc_ProcessVad (vadNearend (digitalAgc s)) (chunk i data) 80 =
                   Ok (vadNearend (digitalAgc s'), r))
  | Fault f =>
      f = SignedOverflow /\
      (mode_ g = kFixedDigital ->
       WebRtcAgc_ProcessVad (vadNearend (digitalAgc s)) (chunk i data) 80 = Fault f)
  end.
Proof.
  intros Hr Hm Hn Hd Hl Hi. unfold process_chunk. cbv zeta.
  set (off := (i * 80)%nat). assert (Ho : (off <= 80)%nat) by lia.
  assert (Ha : audio_ok (drop off data)).
  { split; [by apply Forall_drop|]. rewrite length_drop. lia. }
  pose proof (Analyze_spec n h g s lvl _ Hr Hm Ha) as H1.
  destruct (AnalyzeCaptureAudio h g (drop off data)) as [[[err h1] a1]|f].
  2: { destruct H1 as [-> Hmd]. cbn. split; [done|]. rewrite Hmd. done. }
  destruct H1 as (-> & Ha1 & Hla1 & Hcase). cbn [mbind res_bind].
  change (negb (kNoError =? kNoError)) with false. cbv iota.
  destruct (put_back off data a1 Hd Hl Ha1 Hla1 Ho) as (P1 & P2 & P3 & _).
  set (data1 := take off data ++ a1) in *.
  assert (Hstep : exists s1 lvl1, frame_ready n h1 g s1 lvl1 /\
            (mode_ g = kFixedDigital -> s1 = s /\ data1 = data)).
  { destruct (Z.eqb_spec (mode_ g) kFixedDigital) as [E|E].
    - destruct Hcase as (-> & Ea & Hf). exists s, lvl. split; [done|]. intros _.
      split; [done|]. unfold data1. by rewrite Ea, take_drop.
    - destruct Hcase as (s1 & lvl1 & Hf). by exists s1, lvl1. }
  destruct Hstep as (s1 & lvl1 & Hf & Hfix).
  assert (Ha2 : audio_ok (drop off data1)).
  { rewrite P3. split; [done|]. rewrite Hla1, length_drop. lia. }
  pose proof (ProcessCapture_spec n h1 g s1 lvl1 _ Hf Hm Ha2 Hn) as H2.
  destruct (ProcessCaptureAudio h1 g (drop off data1)) as [[[[err h2] g2] a2]|f].
  2: { destruct H2 as [-> Hv]. cbn [mbind res_bind]. split; [done|]. intros E.
       destruct (Hfix E) as [-> Ed]. rewrite Ed in Hv.
       by rewrite <- (ProcessVad_chunk _ i data Hi Hl). }
  destruct H2 as (-> & Ha3 & Hla3 & Hd3 & Hset & s2 & lvl2 & r & Hr2 & Hv).
  cbn [mbind res_bind].
  destruct (put_back off data1 a2 P1 P2 Ha3 Hla3 Ho) as (Q1 & Q2 & Q3 & Q4).
  split; [done|]. split; [done|]. split; [done|]. split; [done|].
  exists s2, lvl2. split; [done|]. intros E. destruct (Hfix E) as [-> Ed]. split.
  - by rewrite Q4, Hd3, drop_drop, Ed.
  - exists r. rewrite Ed in Hv. by rewrite <- (ProcessVad_chunk _ i data Hi Hl).
Qed.

(** What a call does in the modes that process audio; in the fixed digital mode
    the near-end VAD sees exactly the samples of the block. *)
Lemma stream_spec n h g s lvl data :
  ready n h g s lvl -> mode_ g <> kAdaptiveAnalog -> 0 <= n <= block_bound - 10 ->
  samples16 data -> length data = 160%nat ->
  match ProcessStream h g (Some data) 160 with
  | Ok (err, h', g', o) =>
      err = kNoError /\ settings_of g' = settings_of g /\
      (exists data', o = Some data' /\ samples16 data' /\ length data' = 160%nat) /\
      exists s' lvl', ready (n + 10) h' g' s' lvl' /\
        (mode_ g = kFixedDigital ->
         vad_frames (vadNearend (digitalAgc s)) [chunk 0 data; chunk 1 data] =
         Ok (vadNearend (digitalAgc s')))
  | Fault f =>
      f = SignedOverflow /\
      (mode_ g = kFixedDigital ->
       vad_frames (vadNearend (digitalAgc s)) [chunk 0 data; chunk 1 data] = Fault f)
  end.
Proof.
  intros Hr Hm Hn Hd Hl. unfold ProcessStream. change (negb (160 =? 160)) with false.
  cbv iota. unfold vad_frames. cbn [each].
  pose proof (chunk_spec n h g s lvl data 0 Hr Hm ltac:(lia) Hd Hl ltac:(lia)) as H1.
  destruct (process_chunk h g data 0) as [[[[err h1] g1] d1]|f].
  2: { destruct H1 as [-> Hv]. cbn [mbind res_bind]. split; [done|]. intros E.
       by rewrite (Hv E). }
  destruct H1 as (-> & Hd1 & Hl1 & Hset1 & s1 & lvl1 & Hr1 & Hfix1).
  cbn [mbind res_bind]. change (negb (kNoError =? kNoError)) with false. cbv iota.
  assert (Em : mode_ g1 = mode_ g) by (apply (f_equal st_mode) in Hset1; exact Hset1).
  pose proof (chunk_spec (n + 5) h1 g1 s1 lvl1 d1 1 Hr1 ltac:(by rewrite Em) ltac:(lia)
    Hd1 Hl1 ltac:(lia)) as H2. rewrite Em in H2.
  assert (Hc : mode_ g = kFixedDigital -> chunk 1 d1 = chunk 1 data).
  { intros E. destruct (Hfix1 E) as [Ed _]. unfold chunk.
    change (1 * 80)%nat with (0 * 80 + 80)%nat. by rewrite Ed. }
  destruct (process_chunk h1 g1 d1 1) as [[[[err h2] g2] d2]|f]; cbn [mbind res_bind].
  - destruct H2 as (-> & Hd2 & Hl2 & Hset2 & s2 & lvl2 & Hr2 & Hfix2).
    split; [done|]. split; [congruence|]. split; [by exists d2|].
    exists s2, lvl2. replace (n + 10) with (n + 5 + 5) by lia. split; [done|].
    intros E. destruct (Hfix1 E) as [_ [r1 ->]]. destruct (Hfix2 E) as [_ [r2 E2]].
    cbn [mbind res_bind]. rewrite <- (Hc E), E2. done.
  - destruct H2 as [-> Hv]. split; [done|]. intros E.
    destruct (Hfix1 E) as [_ [r1 ->]]. cbn [mbind res_bind].
    by rewrite <- (Hc E), (Hv E).
Qed.


(** ** Streams *)

(** A stream of blocks, as the application feeds them, and the blocks it gets
    back. *)
Fixpoint run_blocks (h : heap) (g : GainControlImpl) (blocks : list (list Z))
    : res (heap * GainControlImpl * list (list Z)) :=
  match blocks with
  | [] => Ok (h, g, [])
  | b :: bs =>
      '(_, h, g, o) ← ProcessStream h g (Some b) 160;
      '(h, g, outs) ← run_blocks h g bs;
      Ok (h, g, default [] o :: outs)
  end.

Definition frames_of (blocks : list (list Z)) : list (list Z) :=
  mjoin (map (fun b => [chunk 0 b; chunk 1 b]) blocks).

Definition block_ok (b : list Z) : Prop := samples16 b /\ length b = 160%nat.

(** In the fixed digital mode a stream is processed to its end unless the
    near-end VAD overflows on its frames. *)
Lemma run_blocks_spec n h g s lvl blocks :
  ready n h g s lvl -> mode_ g = kFixedDigital -> 0 <= n ->
  n + 10 * zlen blocks <= block_bound -> Forall block_ok blocks ->
  match vad_frames (vadNearend (digitalAgc s)) (frames_of blocks) with
  | Ok v => exists h' g' outs n' s' lvl', run_blocks h g blocks = Ok (h', g', outs) /\
              Forall block_ok outs /\ length outs = length blocks /\
              ready n' h' g' s' lvl'
  | Fault f => f = SignedOverflow /\ run_blocks h g blocks = Fault f
  end.
Proof.
  revert n h g s lvl. induction blocks as [|b blocks IH];
    intros n h g s lvl Hr Hm Hn Hlen Hb; [by exists h, g, [], n, s, lvl|].
  inversion Hb as [|? ? [Hb1 Hb2] Hbs]; subst.
  unfold zlen in Hlen. cbn [length] in Hlen.
  pose proof (stream_spec n h g s lvl b Hr ltac:(by rewrite Hm) ltac:(lia) Hb1 Hb2) as Hs.
  change (frames_of (b :: blocks)) with ([chunk 0 b; chunk 1 b] ++ frames_of blocks).
  rewrite vad_frames_app. cbn [run_blocks].
  destruct (ProcessStream h g (Some b) 160) as [[[[err h1] g1] o]|f].
  2: { destruct Hs as [-> Hv]. by rewrite (Hv Hm). }
  destruct Hs as (_ & Hset & (d & -> & Hd) & s1 & lvl1 & Hr1 & Hv).
  rewrite (Hv Hm), !bind_ok. apply (f_equal st_mode) in Hset. cbn in Hset.
  specialize (IH (n + 10) h1 g1 s1 lvl1 Hr1 ltac:(congruence) ltac:(lia)
    ltac:(unfold zlen; lia) Hbs).
  destruct (vad_frames _ (frames_of blocks)) as [v|f].
  - destruct IH as (h' & g' & outs & n' & s' & lvl' & E & Ho & Hlo & Hr').
    rewrite E. exists h', g', (d :: outs), n', s', lvl'. split; [done|].
    split; [by constructor|]. split; [cbn; lia|done].
  - destruct IH as [-> IH]. by rewrite IH.
Qed.
End wrapper.

(** * Theorems *)

Lemma Create_ok mem :
  exists h g, Create mem = Ok (h, g) /\ world_ok agc_ok 0 h g /\
    h = [] /\ settings_of g = Settings false kFixedDigital 0 255 true 2 9 0 false.
Proof.
  exists [], (set_format (Some 1) (Some 8000) GainControlImpl_new).
  split; [done|]. split; [|done]. split; [|done].
  constructor; cbn; unfold kFixedDigital, i32; done || lia.
Qed.

(** C2: the control interface of the gain control refines the abstract machine on
    its settings, for legal calls ([legal_call]): compression gains up to 18 dB or beyond
    90, which are rejected, and level ranges of at least 42 steps up to 104857 or those
    that are rejected; all other arguments are free.  On every state satisfying the
    invariant a legal call returns the code and leaves the settings that the machine
    prescribes, keeps the invariant (in particular the instance is in the mode and has the
    configuration of the settings while the gain control is enabled), and it
    reads the indeterminate controller pointer exactly where the machine is
    undefined. *)
Theorem control_refines_spec n mem h g c :
  world_ok agc_ok n h g -> 0 <= n -> memory_ok mem -> legal_call c ->
  match spec_call c (settings_of g) with
  | Some (code, st) =>
      exists h' g', run_call (Some mem) h g c = Ok (code, h', g') /\
        settings_of g' = st /\ world_ok agc_ok n h' g'
  | None => run_call (Some mem) h g c = Fault Uninitialized
  end.
Proof. apply refines_call, _. Qed.

Lemma enabled_world :
  exists h g, Enable (Some blank) [] (set_format (Some 1) (Some 8000)
      GainControlImpl_new) true = Ok (kNoError, h, g) /\ world_ok agc_ok 0 h g /\
    settings_of g = Settings true kFixedDigital 0 255 true 2 9 0 true.
Proof.
  destruct (Create_ok None) as (h & g & E & Hw & -> & Hs). injection E as <-.
  destruct (refines_enable agc_ok 0 blank [] _ true Hw ltac:(lia) eq_refl)
    as (h' & g' & E & Hs' & Hw').
  exists h', g'. split; [exact E|]. split; [exact Hw'|exact Hs'].
Qed.

Lemma control_refines_spec_witness :
  exists h g h' g', world_ok agc_ok 0 h g /\
    run_call (Some blank) h g (CallGain 12) = Ok (kNoError, h', g') /\
    settings_of g' = Settings true kFixedDigital 0 255 true 2 12 0 true /\
    world_ok agc_ok 0 h' g'.
Proof.
  destruct enabled_world as (h & g & _ & Hw & Hs).
  pose proof (control_refines_spec 0 blank h g (CallGain 12) Hw ltac:(lia) eq_refl
    ltac:(cbn; lia)) as H.
  rewrite Hs in H. cbn in H. destruct H as (h' & g' & H).
  exists h, g, h', g'. exact (conj Hw H).
Defined.

(** What [ProcessStream] owes its caller. *)
Definition stream_post (n : Z) (h : heap) (g : GainControlImpl) (data : list Z)
    (r : Z * heap * GainControlImpl * option (list Z)) : Prop :=
  let '(err, h', g', o) := r in
  world_ok agc_ok (n + 10) h' g' /\ settings_of g' = settings_of g /\
  exists data', o = Some data' /\ samples16 data' /\ length data' = 160%nat /\
  if negb (enabled_ g) then err = kNoError /\ h' = h /\ data' = data
  else if mode_ g =? kAdaptiveAnalog
  then err = kNotEnabledError /\ h' = h /\ data' = data
  else err = kNoError.

Lemma world_mono n n' h g :
  world_ok agc_ok n h g -> n <= n' -> world_ok agc_ok n' h g.
Proof.
  intros [Hg Hc] Hn. split; [done|]. destruct (gain_controller_ g) as [a|]; [|done].
  destruct Hc as (s & lvl & ? & Hs & ?). exists s, lvl.
  split; [done|]. split; [by apply (agc_ok_mono n)|done].
Qed.

Lemma chunk_off h g data i :
  enabled_ g = false -> process_chunk h g data i = Ok (kNoError, h, g, data).
Proof.
  intros He. unfold process_chunk, AnalyzeCaptureAudio, ProcessCaptureAudio.
  rewrite He. cbn [negb mbind res_bind]. change (kNoError =? kNoError) with true.
  cbn [negb mbind res_bind]. by rewrite take_drop, take_drop.
Qed.

Lemma stream_off h g data :
  enabled_ g = false ->
  ProcessStream h g (Some data) 160 = Ok (kNoError, h, g, Some data).
Proof.
  intros He. unfold ProcessStream. change (negb (160 =? 160)) with false. cbv iota.
  rewrite (chunk_off h g data 0 He), bind_ok. change (negb (kNoError =? kNoError)) with false.
  cbv iota. by rewrite (chunk_off h g data 1 He).
Qed.

Lemma stream_analog h g data :
  enabled_ g = true -> mode_ g = kAdaptiveAnalog ->
  ProcessStream h g (Some data) 160 = Ok (kNotEnabledError, h, g, Some data).
Proof.
  intros He Hm. unfold ProcessStream, process_chunk, AnalyzeCaptureAudio.
  change (negb (160 =? 160)) with false. by rewrite He, Hm.
Qed.

(** C1: [ProcessStream] on a block of 160 samples: it passes the block through
    while the gain control is disabled, refuses it in the adaptive analog mode,
    and otherwise returns [kNoError] and 160 samples of 16 bits; settings and
    invariant are kept.  The only possible fault is the overflow of a signed integer (the
    lemmas of [Session] find it in a voice activity detector), while the gain
    control is enabled in another mode. *)
Theorem ProcessStream_outcome n h g data :
  world_ok agc_ok n h g -> 0 <= n <= block_bound - 10 -> block_ok data ->
  match ProcessStream h g (Some data) 160 with
  | Ok r => stream_post n h g data r
  | Fault f => f = SignedOverflow /\ enabled_ g = true /\ mode_ g <> kAdaptiveAnalog
  end.
Proof.
  intros Hw Hn [Hd Hl]. pose proof (world_mono n (n + 10) h g Hw ltac:(lia)) as Hw'.
  destruct (enabled_ g) eqn:He.
  2: { rewrite stream_off by done. split; [done|]. split; [done|].
       exists data. rewrite He. by split_and!. }
  destruct (Z.eqb_spec (mode_ g) kAdaptiveAnalog) as [Em|Em].
  { rewrite (stream_analog h g data He Em). split; [done|]. split; [done|].
    exists data. rewrite He, Em. by split_and!. }
  destruct (world_ready agc_ok n h g Hw He) as (s & lvl & Hr).
  pose proof (stream_spec agc_ok n h g s lvl data Hr Em Hn Hd Hl) as Hs.
  destruct (ProcessStream h g (Some data) 160) as [[[[err h1] g1] o]|f].
  - destruct Hs as (-> & Hset & (d & -> & Hd1 & Hl1) & s1 & lvl1 & Hr1 & _).
    split; [by eapply ready_world|]. split; [done|]. exists d.
    rewrite He, (proj2 (Z.eqb_neq _ _) Em). by split_and!.
  - destruct Hs as [-> _]. by split_and!.
Qed.

Lemma silence_block : block_ok (silence 160).
Proof. split; [apply Forall_replicate; unfold i16; lia|done]. Qed.

Lemma ProcessStream_outcome_witness :
  exists h g, world_ok agc_ok 0 h g /\ enabled_ g = true /\
    match ProcessStream h g (Some (silence 160)) 160 with
    | Ok r => stream_post 0 h g (silence 160) r
    | Fault f => f = SignedOverflow /\ enabled_ g = true /\ mode_ g <> kAdaptiveAnalog
    end.
Proof.
  destruct enabled_world as (h & g & _ & Hw & Hs). exists h, g.
  apply (f_equal st_enabled) in Hs.
  exact (conj Hw (conj Hs (ProcessStream_outcome 0 h g (silence 160) Hw
    ltac:(unfold block_bound; lia) silence_block))).
Defined.

(** A null pointer and any other number of samples are refused before anything
    is touched. *)
Lemma ProcessStream_rejects h g data n :
  ProcessStream h g None n = Ok (kNullPointerError, h, g, None) /\
  (n <> 160 -> ProcessStream h g (Some data) n = Ok (kBadParameterError, h, g, Some data)).
Proof.
  split; [done|]. intros Hn. unfold ProcessStream.
  by rewrite (proj2 (Z.eqb_neq _ _) Hn).
Qed.

(** ** Sessions of the wrapper *)

Inductive apm_step : Z * heap * GainControlImpl -> Z * heap * GainControlImpl -> Prop :=
| apm_call n h g mem c code h' g' :
    memory_ok mem -> legal_call c -> run_call (Some mem) h g c = Ok (code, h', g') ->
    apm_step (n, h, g) (n, h', g')
| apm_stream n h g data frames err h' g' o :
    n <= block_bound - 10 -> block_ok data ->
    ProcessStream h g (Some data) frames = Ok (err, h', g', o) ->
    apm_step (n, h, g) (n + 10, h', g').

Inductive apm_reachable : Z * heap * GainControlImpl -> Prop :=
| apm_create mem h g : Create mem = Ok (h, g) -> apm_reachable (0, h, g)
| apm_next w w' : apm_reachable w -> apm_step w w' -> apm_reachable w'.

Lemma apm_step_ok n h g n' h' g' :
  apm_step (n, h, g) (n', h', g') -> world_ok agc_ok n h g -> 0 <= n ->
  world_ok agc_ok n' h' g' /\ 0 <= n'.
Proof.
  intros Hstep Hw Hn.
  inversion Hstep as [? ? ? mem c code ? ? Hm Hc E|
    ? ? ? data frames err ? ? o Hb Hd E]; subst.
  - split; [|done]. pose proof (refines_call agc_ok n' mem h g c Hw Hn Hm Hc) as Hr.
    destruct (spec_call c (settings_of g)) as [[code' st]|]; [|congruence].
    destruct Hr as (h1 & g1 & E1 & _ & Hw1). rewrite E in E1. by injection E1 as _ <- <-.
  - split; [|lia]. destruct (Z.eq_dec frames 160) as [->|Hne].
    + destruct (enabled_ g) eqn:He.
      2: { destruct Hd as [Hd Hl]. rewrite stream_off in E by done.
           injection E as _ <- <- _. apply (world_mono n); [done|lia]. }
      destruct (Z.eqb_spec (mode_ g) kAdaptiveAnalog) as [Em|Em].
      { rewrite (stream_analog h g data He Em) in E. injection E as _ <- <- _.
        apply (world_mono n); [done|lia]. }
      destruct (world_ready agc_ok n h g Hw He) as (s & lvl & Hr).
      destruct Hd as [Hd Hl].
      pose proof (stream_spec agc_ok n h g s lvl data Hr Em ltac:(lia) Hd Hl) as Hs.
      rewrite E in Hs. destruct Hs as (_ & _ & _ & s1 & lvl1 & Hr1 & _).
      by eapply ready_world.
    + rewrite (proj2 (ProcessStream_rejects h g data frames) Hne) in E.
      injection E as _ <- <- _. apply (world_mono n); [done|lia].
Qed.

(** C3: every state of the wrapper that is reachable from [Create] by legal calls
    of the control interface and blocks of samples, in any order, satisfies the
    invariant: the settings are in range, the controller pointer is valid
    whenever the gain control is enabled, and the instance behind it satisfies
    its own invariant in the configuration of the settings. *)
Theorem apm_invariant n h g : apm_reachable (n, h, g) -> world_ok agc_ok n h g.
Proof.
  intros H. enough (world_ok agc_ok n h g /\ 0 <= n) by tauto.
  remember (n, h, g) as w eqn:Ew. revert n h g Ew.
  induction H as [mem h0 g0 E|[[n0 h0] g0] w' H IH Hstep]; intros n h g Ew.
  - injection Ew as <- <- <-. destruct (Create_ok mem) as (h1 & g1 & E1 & Hw & _).
    rewrite E in E1. injection E1 as <- <-. done.
  - subst w'. destruct (IH n0 h0 g0 eq_refl) as [Hw Hn]. by eapply apm_step_ok.
Qed.

Lemma apm_invariant_witness :
  exists h g, apm_reachable (0, h, g) /\ enabled_ g = true /\ world_ok agc_ok 0 h g.
Proof.
  destruct enabled_world as (h & g & E & _ & Hs).
  assert (Hr : apm_reachable (0, h, g)).
  { eapply apm_next; [by apply (apm_create None)|].
    eapply (apm_call 0 _ _ blank (CallEnable true)); [done|done|exact E]. }
  exists h, g. apply (f_equal st_enabled) in Hs.
  exact (conj Hr (conj Hs (apm_invariant 0 h g Hr))).
Defined.

(** ** Defects *)

Lemma live_free (h : heap) a c :
  h !! a = Some (Some c) -> live h = S (live (<[a := None]> h)).
Proof.
  unfold live. revert a. induction h as [|x h IH]; intros [|a] Hx; try done.
  - injection Hx as ->. done.
  - specialize (IH a Hx). destruct x; [exact (f_equal S IH)|exact IH].
Qed.

(** Every change of the mode while the gain control is enabled leaks a
    controller: after the change and the destruction of the object as many
    controllers are allocated as before the change, when there was at least
    one. *)
Lemma controllers_leak n mem h g m :
  world_ok agc_ok n h g -> 0 <= n -> enabled_ g = true -> memory_ok mem ->
  0 <= m <= 2 ->
  exists h' g' h'', set_mode (Some mem) h g m = Ok (kNoError, h', g') /\
    Destory h' g' = Ok h'' /\ live h'' = live h /\ (0 < live h)%nat.
Proof.
  intros Hw Hn He Hm Hmode. pose proof Hw as [Hg _]. unfold set_mode.
  rewrite (proj2 (Z.eqb_neq _ _)) by (pose proof (MapSetting_valid m); lia).
  assert (Hs : settings_ok (set_mode_ m g)) by settings_tac.
  destruct (Reinitialize_spec agc_ok n mem h (set_mode_ m g) Hs Hm Hn)
    as (h' & g' & E & W & Est & Hlive); [cbn; congruence|].
  assert (He' : enabled_ g' = true) by (apply (f_equal st_enabled) in Est; exact (eq_trans Est He)).
  destruct (world_ready agc_ok n h' g' W He') as (s & lvl & Hr).
  pose proof (rd_cell _ _ _ _ _ _ Hr) as Hc. apply load_lookup in Hc as [Ha Hh].
  destruct (world_ready agc_ok n h g Hw He) as (s0 & lvl0 & Hr0).
  pose proof (rd_cell _ _ _ _ _ _ Hr0) as Hc0. apply load_lookup in Hc0 as [_ Hh0].
  rewrite E. eexists h', g', _. split; [done|]. split.
  { unfold Destory, GainControlImpl_delete, free.
    by rewrite (rd_cell _ _ _ _ _ _ Hr). }
  pose proof (live_free _ _ _ Hh). pose proof (live_free _ _ _ Hh0).
  cbn [enabled_ set_mode_] in Hlive. rewrite He in Hlive. lia.
Qed.

(** An object that has never been enabled must not be configured or
    destroyed: its controller pointer is indeterminate. *)
Lemma never_enabled_undefined mem h g :
  Create mem = Ok (h, g) ->
  Destory h g = Fault Uninitialized /\
  (forall b, enable_limiter h g b = Fault Uninitialized) /\
  (forall t, 0 <= t <= 31 -> set_target_level_dbfs h g t = Fault Uninitialized) /\
  (forall c, 0 <= c <= 90 -> set_compression_gain_db h g c = Fault Uninitialized).
Proof.
  intros [= <- <-]. split; [done|]. split; [done|].
  split; intros x Hx; unfold set_target_level_dbfs, set_compression_gain_db;
    by rewrite !(proj2 (Z.ltb_ge _ _)) by lia.
Qed.

Lemma frames_of_app l1 l2 : frames_of (l1 ++ l2) = frames_of l1 ++ frames_of l2.
Proof. unfold frames_of. by rewrite map_app, join_app. Qed.

Lemma frames_of_replicate k x :
  length x = 80%nat -> frames_of (replicate k (x ++ x)) = replicate (2 * k) x.
Proof.
  intros Hx.
  assert (E : chunk 0 (x ++ x) = x /\ chunk 1 (x ++ x) = x).
  { unfold chunk. split; [by rewrite drop_0, take_app_length'|].
    rewrite drop_app_length' by lia. by apply take_ge; lia. }
  destruct E as [E0 E1]. induction k as [|k IH]; [done|].
  replace (2 * S k)%nat with (2 + 2 * k)%nat by lia. cbn [replicate].
  change (frames_of ((x ++ x) :: replicate k (x ++ x)))
    with ([chunk 0 (x ++ x); chunk 1 (x ++ x)] ++ frames_of (replicate k (x ++ x))).
  by rewrite E0, E1, IH.
Qed.

(** The signal of the overflow of the detector, in blocks. *)
Definition overflow_blocks : list (list Z) :=
  replicate 650 (square 380 ++ square 380) ++
  (square 250 ++ square 380) :: replicate 4 (square 380 ++ square 380).

Lemma overflow_blocks_frames :
  frames_of overflow_blocks =
  replicate 4 (square 380) ++ replicate 1296 (square 380) ++
  square 250 :: replicate 9 (square 380).
Proof.
  unfold overflow_blocks. rewrite frames_of_app, frames_of_replicate by done.
  rewrite app_assoc, <- replicate_add. f_equal.
Qed.

Lemma overflow_blocks_ok : Forall block_ok overflow_blocks.
Proof.
  assert (H : forall a b, i16 a /\ i16 (-a) -> i16 b /\ i16 (-b) ->
    block_ok (square a ++ square b)).
  { intros a b Ha Hb. destruct (square_frame a Ha), (square_frame b Hb).
    split; [by apply Forall_app|done]. }
  apply Forall_app_2; [by apply Forall_replicate, H|].
  constructor; [by apply H|]. by apply Forall_replicate, H.
Qed.


(** A new object after [Enable(true)]. *)
Lemma fresh_ready mem :
  memory_ok mem ->
  exists h g s lvl,
    Enable (Some mem) [] (set_format (Some 1) (Some 8000) GainControlImpl_new) true =
      Ok (kNoError, h, g) /\
    ready agc_ok 0 h g s lvl /\ mode_ g = kFixedDigital /\
    vadNearend (digitalAgc s) = WebRtcAgc_InitVad.
Proof.
  intros Hm. set (g0 := set_enabled true (set_format (Some 1) (Some 8000)
    GainControlImpl_new)).
  assert (Hg : settings_ok g0)
    by (constructor; cbn; unfold kFixedDigital, i32; done || lia).
  destruct (Initialize_spec agc_ok 0 mem [] g0 Hg eq_refl Hm ltac:(lia))
    as (s & g' & E & -> & Hs & Hset & Hv).
  eexists _, _, s, 0. split.
  { unfold Enable, Reinitialize. cbn [andb negb enabled_ set_format GainControlImpl_new].
    fold g0. change (num_proc_channels_ g0) with (Some 1).
    change (sample_rate_hz_ g0) with (Some 8000). cbn [get mbind res_bind].
    rewrite E. done. }
  split; [|exact (conj eq_refl Hv)].
  constructor; [destruct Hg; by constructor|reflexivity|reflexivity|exact Hs|exact Hset|].
  unfold i32. lia.
Qed.

(** C40: the overflow reaches the application: with the settings of a new object,
    13 seconds of a legal signal make [ProcessStream] run into a signed
    overflow. *)
Theorem stream_overflow mem :
  memory_ok mem ->
  exists h g h' g', Create None = Ok (h, g) /\
    Enable (Some mem) h g true = Ok (kNoError, h', g') /\
    Forall block_ok overflow_blocks /\
    run_blocks h' g' overflow_blocks = Fault SignedOverflow.
Proof.
  intros Hm. destruct (fresh_ready mem Hm) as (h' & g' & s & lvl & E & Hr & Hmode & Hv).
  eexists _, _, h', g'. split; [done|]. split; [exact E|].
  split; [exact overflow_blocks_ok|].
  pose proof (run_blocks_spec agc_ok 0 h' g' s lvl overflow_blocks Hr Hmode ltac:(lia)
    ltac:(vm_compute; discriminate) overflow_blocks_ok) as H.
  rewrite Hv, overflow_blocks_frames, vad_overflow_frames in H. apply H.
Qed.

Lemma stream_overflow_witness :
  exists h g h' g', Create None = Ok (h, g) /\
    Enable (Some blank) h g true = Ok (kNoError, h', g') /\
    Forall block_ok overflow_blocks /\
    run_blocks h' g' overflow_blocks = Fault SignedOverflow.
Proof. apply (stream_overflow blank). reflexivity. Defined.
