(* ===== verification/Wav.v ===== *)
(** * WAV files

    [common_audio/wav_header.{h,cc}] and the reader and the writer of
    [common_audio/wav_file.cc].  A file is the list of its bytes; integers are
    stored in little-endian order, as the structures of the code are on the
    targets of the build. *)
From S2P Require Import Prelude CInt.

(** ** Bytes *)

Fixpoint le (n : nat) (x : Z) : list Z :=
  match n with
  | O => []
  | S n' => x mod 256 :: le n' (x / 256)
  end.

Fixpoint le_dec (bs : list Z) : Z :=
  match bs with
  | [] => 0
  | b :: bs' => b + 256 * le_dec bs'
  end.

(** A field of [n] bytes at the front. *)
Definition get_le (n : nat) (bs : list Z) : Z * list Z :=
  (le_dec (take n bs), drop n bs).

Definition UINT64 : Z := 2 ^ 64.
Definition to_u64 (x : Z) : Z := x mod UINT64.

(** ** Structures *)

Definition kWavHeaderSize : Z := 44.
Definition kChunkHeaderSize : Z := 8.
Definition kFmtSubchunkSize : Z := 16.

Definition kWavFormatPcm : Z := 1.
Definition kWavFormatALaw : Z := 6.
Definition kWavFormatMuLaw : Z := 7.

Record FmtSubchunk := {
  fmt_ID : Z; fmt_Size : Z;
  AudioFormat : Z; NumChannels : Z; SampleRate : Z; ByteRate_ : Z;
  BlockAlign_ : Z; BitsPerSample : Z
}.

Record ChunkHeader := { chunk_ID : Z; chunk_Size : Z }.

Record WavHeader := {
  riff : ChunkHeader; riff_Format : Z;
  fmt : FmtSubchunk;
  data : ChunkHeader
}.

(** The memory of a [WavHeader] ([memcpy] from it), in the two parts the reader
    asks for. *)
Definition front_bytes (h : WavHeader) : list Z :=
  le 4 (chunk_ID (riff h)) ++ le 4 (chunk_Size (riff h)) ++ le 4 (riff_Format h) ++
  le 4 (fmt_ID (fmt h)) ++ le 4 (fmt_Size (fmt h)) ++
  le 2 (AudioFormat (fmt h)) ++ le 2 (NumChannels (fmt h)) ++
  le 4 (SampleRate (fmt h)) ++ le 4 (ByteRate_ (fmt h)) ++
  le 2 (BlockAlign_ (fmt h)) ++ le 2 (BitsPerSample (fmt h)).

Definition chunk_bytes (c : ChunkHeader) : list Z :=
  le 4 (chunk_ID c) ++ le 4 (chunk_Size c).

Definition header_bytes (h : WavHeader) : list Z :=
  front_bytes h ++ chunk_bytes (data h).

Definition chunk_of_bytes (bs : list Z) : ChunkHeader :=
  let '(id, bs) := get_le 4 bs in
  let '(size, _) := get_le 4 bs in
  {| chunk_ID := id; chunk_Size := size |}.

(** The part of the header in front of the data chunk, read into memory. *)
Definition header_of_bytes (bs : list Z) (d : ChunkHeader) : WavHeader :=
  let '(id, bs) := get_le 4 bs in
  let '(size, bs) := get_le 4 bs in
  let '(format, bs) := get_le 4 bs in
  let '(fid, bs) := get_le 4 bs in
  let '(fsize, bs) := get_le 4 bs in
  let '(audio, bs) := get_le 2 bs in
  let '(channels, bs) := get_le 2 bs in
  let '(rate, bs) := get_le 4 bs in
  let '(byte_rate, bs) := get_le 4 bs in
  let '(align, bs) := get_le 2 bs in
  let '(bits, _) := get_le 2 bs in
  {| riff := {| chunk_ID := id; chunk_Size := size |}; riff_Format := format;
     fmt := {| fmt_ID := fid; fmt_Size := fsize; AudioFormat := audio;
               NumChannels := channels; SampleRate := rate; ByteRate_ := byte_rate;
               BlockAlign_ := align; BitsPerSample := bits |};
     data := d |}.

(** ** wav_header.cc *)

Definition CheckWavParameters (num_channels sample_rate format bytes_per_sample
    num_samples : Z) : bool :=
  if (num_channels =? 0) || (sample_rate <=? 0) || (bytes_per_sample =? 0)
  then false else
  if UINT32_MAX <? to_u64 sample_rate then false else
  if 65535 <? num_channels then false else
  if 65535 <? to_u64 (bytes_per_sample * 8) then false else
  if UINT32_MAX <? to_u64 (sample_rate * num_channels * bytes_per_sample)
  then false else
  if negb (if format =? kWavFormatPcm
           then (bytes_per_sample =? 1) || (bytes_per_sample =? 2)
           else if (format =? kWavFormatALaw) || (format =? kWavFormatMuLaw)
           then bytes_per_sample =? 1
           else false)
  then false else
  let header_size := kWavHeaderSize - kChunkHeaderSize in
  let max_samples := (UINT32_MAX - header_size) / bytes_per_sample in
  if max_samples <? num_samples then false else
  if negb (num_samples mod num_channels =? 0) then false else true.

Definition WriteFourCC (a b c d : Z) : Z :=
  Z.lor (Z.lor (Z.lor a (to_u32 (Z.shiftl b 8))) (to_u32 (Z.shiftl c 16)))
        (to_u32 (Z.shiftl d 24)).

Definition ReadFourCC (x : Z) : list Z := le 4 x.

Definition RiffChunkSize (bytes_in_payload : Z) : Z :=
  to_u32 (to_u64 (bytes_in_payload + kWavHeaderSize - kChunkHeaderSize)).

Definition ByteRate (num_channels sample_rate bytes_per_sample : Z) : Z :=
  to_u32 (to_u64 (num_channels * sample_rate * bytes_per_sample)).

Definition BlockAlign (num_channels bytes_per_sample : Z) : Z :=
  to_u16 (to_u64 (num_channels * bytes_per_sample)).

(** The characters of the four-character codes. *)
Definition RIFF : list Z := [82; 73; 70; 70].
Definition WAVE : list Z := [87; 65; 86; 69].
Definition FMT_ : list Z := [102; 109; 116; 32].
Definition DATA : list Z := [100; 97; 116; 97].

Definition make_header (num_channels sample_rate format bytes_per_sample num_samples : Z)
    : WavHeader :=
  let bytes_in_payload := to_u64 (bytes_per_sample * num_samples) in
  {| riff := {| chunk_ID := WriteFourCC 82 73 70 70;
                chunk_Size := RiffChunkSize bytes_in_payload |};
     riff_Format := WriteFourCC 87 65 86 69;
     fmt := {| fmt_ID := WriteFourCC 102 109 116 32;
               fmt_Size := kFmtSubchunkSize;
               AudioFormat := to_u16 format;
               NumChannels := to_u16 num_channels;
               SampleRate := to_u32 sample_rate;
               ByteRate_ := ByteRate num_channels sample_rate bytes_per_sample;
               BlockAlign_ := BlockAlign num_channels bytes_per_sample;
               BitsPerSample := to_u16 (to_u64 (8 * bytes_per_sample)) |};
     data := {| chunk_ID := WriteFourCC 100 97 116 97;
                chunk_Size := to_u32 bytes_in_payload |} |}.

(** [None] is the buffer left as it was. *)
Definition WriteWavHeader (num_channels sample_rate format bytes_per_sample
    num_samples : Z) : option (list Z) :=
  if negb (CheckWavParameters num_channels sample_rate format bytes_per_sample
             num_samples)
  then None
  else Some (header_bytes
               (make_header num_channels sample_rate format bytes_per_sample num_samples)).

(** The output parameters of [ReadWavHeader]; the last one is assigned after a
    check. *)
Record wav_info := WavInfo {
  i_channels : Z; i_rate : Z; i_format : Z; i_bytes : Z; i_samples : option Z
}.

(** [ReadableWavFile::Read] on the rest of a file. *)
Definition Read (num_bytes : nat) (file : list Z) : list Z * list Z :=
  (take num_bytes file, drop num_bytes file).

(** Parsing and checking after the reads. *)
Definition parse_header (header : WavHeader) : bool * wav_info :=
  let format := AudioFormat (fmt header) in
  let num_channels := NumChannels (fmt header) in
  let sample_rate := to_i32 (SampleRate (fmt header)) in
  let bytes_per_sample := BitsPerSample (fmt header) / 8 in
  let bytes_in_payload := chunk_Size (data header) in
  let info := WavInfo num_channels sample_rate format bytes_per_sample in
  if bytes_per_sample =? 0 then (false, info None) else
  let num_samples := bytes_in_payload / bytes_per_sample in
  let info := info (Some num_samples) in
  if negb (bool_decide (ReadFourCC (chunk_ID (riff header)) = RIFF)) then (false, info) else
  if negb (bool_decide (ReadFourCC (riff_Format header) = WAVE)) then (false, info) else
  if negb (bool_decide (ReadFourCC (fmt_ID (fmt header)) = FMT_)) then (false, info) else
  if negb (bool_decide (ReadFourCC (chunk_ID (data header)) = DATA)) then (false, info) else
  if chunk_Size (riff header) <? RiffChunkSize bytes_in_payload then (false, info) else
  if negb (ByteRate_ (fmt header) =? ByteRate num_channels sample_rate bytes_per_sample)
  then (false, info) else
  if negb (BlockAlign_ (fmt header) =? BlockAlign num_channels bytes_per_sample)
  then (false, info) else
  (CheckWavParameters num_channels sample_rate format bytes_per_sample num_samples, info).

(** The optional extension field, which must be zero: whether reading goes on,
    and the rest of the file. *)
Definition read_extension (fmt_size : Z) (file : list Z) : bool * list Z :=
  if fmt_size =? kFmtSubchunkSize then (true, file) else
  if negb (kFmtSubchunkSize + 2 =? fmt_size) then (false, file) else
  let '(ext, file) := Read 2 file in
  if negb (length ext =? 2)%nat then (false, file) else
  (to_i16 (le_dec ext) =? 0, file).

(** Returns the outcome, the parameters ([None] before they are assigned) and the
    rest of the file. *)
Definition ReadWavHeader (file : list Z) : bool * option wav_info * list Z :=
  let '(front, file) := Read 36 file in
  if negb (length front =? 36)%nat then (false, None, file) else
  let '(fmt_size, _) := get_le 4 (drop 16 front) in
  let '(go, file) := read_extension fmt_size file in
  if negb go then (false, None, file) else
  let '(back, file) := Read 8 file in
  if negb (length back =? 8)%nat then (false, None, file) else
  let '(ok, info) := parse_header (header_of_bytes front (chunk_of_bytes back)) in
  (ok, Some info, file).

(** ** wav_file.cc: the writer *)

Definition kWavFormat : Z := kWavFormatPcm.
Definition kBytesPerSample : Z := 2.

(** The samples as [fwrite] stores them and [fread] loads them. *)
Definition sample_bytes (samples : list Z) : list Z :=
  mjoin (map (fun x => le 2 (to_u16 x)) samples).

Fixpoint load_samples (n : nat) (bs : list Z) : list Z :=
  match n with
  | O => []
  | S n' => to_i16 (le_dec (take 2 bs)) :: load_samples n' (drop 2 bs)
  end.

(** [w_file] is the contents of the file; the position is at its end. *)
Record WavWriter := MkWriter {
  w_sample_rate : Z; w_num_channels : Z; w_num_samples : Z; w_file : list Z
}.

(** The constructor, for a file that could be opened; parameters that do not
    pass the check are a write through an uninitialised pointer. *)
Definition WavWriter_new (sample_rate num_channels : Z) : res WavWriter :=
  if negb (CheckWavParameters num_channels sample_rate kWavFormat kBytesPerSample 0)
  then Fault Uninitialized
  else Ok (MkWriter sample_rate num_channels 0 (replicate 44 0)).

Definition WriteSamples (w : WavWriter) (samples : list Z) : res WavWriter :=
  let written := zlen samples in
  let num_samples := to_u64 (w_num_samples w + written) in
  if num_samples <? written then Fault Uninitialized
  else Ok (MkWriter (w_sample_rate w) (w_num_channels w) num_samples
             (w_file w ++ sample_bytes samples)).

(** [WavWriter::Close]: the header is written over the blank one; a header that
    [WriteWavHeader] does not fill in is uninitialised memory. *)
Definition WavWriter_Close (w : WavWriter) : res (list Z) :=
  match WriteWavHeader (w_num_channels w) (w_sample_rate w) kWavFormat kBytesPerSample
          (w_num_samples w) with
  | None => Fault Uninitialized
  | Some header => Ok (header ++ drop 44 (w_file w))
  end.

(** ** wav_file.cc: the reader *)

(** The members are uninitialised where [ReadWavHeader] has not assigned them:
    its result is ignored. *)
Record WavReader := MkReader {
  r_sample_rate : option Z; r_num_channels : option Z; r_num_samples : option Z;
  r_remaining : option Z; r_file : list Z
}.

Definition WavReader_new (file : list Z) : WavReader :=
  let '(_, info, file) := ReadWavHeader file in
  let samples := info ≫= i_samples in
  MkReader (i_rate <$> info) (i_channels <$> info) samples samples file.

(** Returns the number of samples read and the samples. *)
Definition ReadSamples (r : WavReader) (num_samples : Z)
    : res (Z * list Z * WavReader) :=
  match r_remaining r with
  | None => Fault Uninitialized
  | Some remaining =>
      let num_samples := Z.min num_samples remaining in
      let n := Nat.min (Z.to_nat num_samples) (length (r_file r) / 2) in
      let remaining := to_u64 (remaining - Z.of_nat n) in
      Ok (Z.of_nat n, load_samples n (r_file r),
          MkReader (r_sample_rate r) (r_num_channels r) (r_num_samples r)
            (Some remaining) (drop (2 * n) (r_file r)))
  end.

(** * Lemmas *)

Lemma length_le n x : length (le n x) = n.
Proof. revert x. induction n as [|n IH]; intros x; cbn; [done|by rewrite IH]. Qed.

Lemma le_dec_le n x : le_dec (le n x) = x mod 256 ^ Z.of_nat n.
Proof.
  revert x. induction n as [|n IH]; intros x; [by rewrite Z.mod_1_r|].
  cbn [le le_dec]. rewrite IH, Nat2Z.inj_succ, Z.pow_succ_r by lia.
  rewrite Z.rem_mul_r by lia. lia.
Qed.

Lemma get_le_app n x rest :
  0 <= x < 256 ^ Z.of_nat n -> get_le n (le n x ++ rest) = (x, rest).
Proof.
  intros Hx. unfold get_le.
  rewrite take_app_length', drop_app_length' by (by rewrite length_le).
  by rewrite le_dec_le, Z.mod_small.
Qed.

(** The last field of a structure. *)
Lemma get_le_last n x : 0 <= x < 256 ^ Z.of_nat n -> get_le n (le n x) = (x, []).
Proof. intros Hx. rewrite <- (app_nil_r (le n x)). by apply get_le_app. Qed.

(** Every field fits its width. *)
Record header_ok (h : WavHeader) : Prop := {
  ok_riff : u32 (chunk_ID (riff h)) /\ u32 (chunk_Size (riff h)) /\ u32 (riff_Format h);
  ok_fmt : u32 (fmt_ID (fmt h)) /\ u32 (fmt_Size (fmt h)) /\
           u16 (AudioFormat (fmt h)) /\ u16 (NumChannels (fmt h)) /\
           u32 (SampleRate (fmt h)) /\ u32 (ByteRate_ (fmt h)) /\
           u16 (BlockAlign_ (fmt h)) /\ u16 (BitsPerSample (fmt h));
  ok_data : u32 (chunk_ID (data h)) /\ u32 (chunk_Size (data h))
}.

Lemma front_of_bytes h : header_ok h -> header_of_bytes (front_bytes h) (data h) = h.
Proof.
  intros [H1 H2 _]. unfold u32, u16 in *. unfold header_of_bytes, front_bytes.
  rewrite !get_le_app, get_le_last by (cbn; lia). by destruct h as [[] ? [] ?].
Qed.

Lemma chunk_of_chunk_bytes c :
  u32 (chunk_ID c) -> u32 (chunk_Size c) -> chunk_of_bytes (chunk_bytes c) = c.
Proof.
  unfold u32. intros H1 H2. unfold chunk_of_bytes, chunk_bytes.
  rewrite get_le_app, get_le_last by (cbn; lia). by destruct c.
Qed.

Lemma length_front h : length (front_bytes h) = 36%nat.
Proof. unfold front_bytes. by rewrite !length_app, !length_le. Qed.

Lemma length_chunk c : length (chunk_bytes c) = 8%nat.
Proof. unfold chunk_bytes. by rewrite !length_app, !length_le. Qed.

Lemma front_size h :
  u32 (fmt_Size (fmt h)) ->
  exists rest, get_le 4 (drop 16 (front_bytes h)) = (fmt_Size (fmt h), rest).
Proof.
  intros H. unfold u32 in H. eexists. unfold front_bytes.
  rewrite !(app_assoc (le 4 _) (le 4 _) _), app_assoc, drop_app_length'
    by (by rewrite !length_app, !length_le).
  apply get_le_app. cbn. lia.
Qed.

(** A header without extension is read back as it was written. *)
Lemma read_header_bytes h rest :
  header_ok h -> fmt_Size (fmt h) = kFmtSubchunkSize ->
  ReadWavHeader (header_bytes h ++ rest) =
    (let '(ok, info) := parse_header h in (ok, Some info, rest)).
Proof.
  intros Hh Hs. unfold ReadWavHeader, Read, header_bytes.
  pose proof (length_front h) as L1. pose proof (length_chunk (data h)) as L2.
  rewrite <- app_assoc, take_app_length', drop_app_length' by done.
  rewrite L1. cbn [Nat.eqb negb]. 
  destruct (front_size h ltac:(apply (ok_fmt _ Hh))) as (R & ->). rewrite Hs.
  unfold read_extension. rewrite Z.eqb_refl. cbn [negb].
  rewrite take_app_length', drop_app_length' by done. rewrite L2. cbn [Nat.eqb negb].
  rewrite chunk_of_chunk_bytes by apply (ok_data _ Hh). by rewrite front_of_bytes.
Qed.

(** What the check guarantees. *)
Lemma CheckWavParameters_true n r f b s :
  0 <= n -> i32 r -> 0 <= b -> 0 <= s ->
  CheckWavParameters n r f b s = true <->
  1 <= n <= 65535 /\ 0 < r /\ r * n * b <= UINT32_MAX /\
  (f = kWavFormatPcm /\ 1 <= b <= 2 \/
   (f = kWavFormatALaw \/ f = kWavFormatMuLaw) /\ b = 1) /\
  b * s <= UINT32_MAX - 36 /\ s mod n = 0.
Proof.
  intros Hn Hr Hb Hs. unfold i32 in Hr. unfold CheckWavParameters, to_u64, UINT64.
  unfold kWavHeaderSize, kChunkHeaderSize, kWavFormatPcm, kWavFormatALaw, kWavFormatMuLaw.
  destruct (Z.eqb_spec n 0); [cbn; lia|]. destruct (Z.leb_spec r 0); [cbn; lia|].
  destruct (Z.eqb_spec b 0); [cbn; lia|]. cbn [orb].
  rewrite (Z.mod_small r) by lia. rewrite (proj2 (Z.ltb_ge _ _)) by lia.
  destruct (Z.ltb_spec 65535 n); [lia|].
  destruct (Z_le_gt_dec b 2) as [Hb2|Hb2].
  2: { rewrite (proj2 (Z.eqb_neq b 1)), (proj2 (Z.eqb_neq b 2)) by lia. cbn [orb].
       split; [|lia]. repeat case_match; done. }
  rewrite (Z.mod_small (b * 8)) by lia. rewrite (proj2 (Z.ltb_ge 65535 _)) by lia.
  assert (Hp : 0 <= r * n <= 2147483647 * 65535) by nia.
  assert (Hp2 : 0 <= r * n * b < 2 ^ 64) by nia.
  rewrite (Z.mod_small (r * n * b)) by done.
  destruct (Z.ltb_spec 4294967295 (r * n * b)); [lia|].
  assert (Hmax : (4294967295 - (44 - 8)) / b < s <-> 4294967295 - 36 < b * s).
  { assert (E : b = 1 \/ b = 2) by lia. destruct E as [-> | ->];
      Z.to_euclidean_division_equations; lia. }
  destruct (Z.ltb_spec ((4294967295 - (44 - 8)) / b) s), (Z.eqb_spec (s mod n) 0);
    destruct (Z.eqb_spec f 1), (Z.eqb_spec f 6), (Z.eqb_spec f 7), (Z.eqb_spec b 1),
      (Z.eqb_spec b 2); cbn; lia.
Qed.

Lemma to_u64_id x : 0 <= x < UINT64 -> to_u64 x = x.
Proof. apply Z.mod_small. Qed.

Lemma make_header_ok n r f b s : header_ok (make_header n r f b s).
Proof.
  constructor; cbn; split_and!; apply to_u32_range || apply to_u16_range ||
    (vm_compute; by split).
Qed.

(** The parser accepts what the writer makes of valid parameters. *)
Lemma parse_make_header n r f b s :
  0 <= n -> i32 r -> 0 <= b -> 0 <= s -> CheckWavParameters n r f b s = true ->
  parse_header (make_header n r f b s) = (true, WavInfo n r f b (Some s)).
Proof.
  intros Hn Hr Hb Hs Hc. pose proof Hc as Hv.
  apply (CheckWavParameters_true n r f b s Hn Hr Hb Hs) in Hv
    as (H1 & H2 & H3 & H4 & H5 & H6).
  unfold kWavFormatPcm, kWavFormatALaw, kWavFormatMuLaw in H4. unfold i32 in Hr.
  assert (Hf : f = 1 \/ f = 6 \/ f = 7) by lia.
  unfold parse_header, make_header.
  cbn [fmt AudioFormat NumChannels SampleRate BitsPerSample data chunk_Size
       chunk_ID riff riff_Format fmt_ID ByteRate_ BlockAlign_].
  rewrite (to_u64_id (b * s)) by (unfold UINT64; lia).
  rewrite (to_u32_id (b * s)) by (unfold u32; lia).
  rewrite (to_u64_id (8 * b)) by (unfold UINT64; lia).
  rewrite (to_u16_id (8 * b)), (to_u16_id n), (to_u16_id f) by (unfold u16; lia).
  rewrite (to_u32_id r) by (unfold u32; lia). rewrite (to_i32_id r) by (unfold i32; lia).
  replace (8 * b / 8) with b by (rewrite Z.mul_comm, Z.div_mul; lia).
  replace (b * s / b) with s by (rewrite Z.mul_comm, Z.div_mul; lia).
  rewrite (proj2 (Z.eqb_neq b 0)) by lia.
  change (bool_decide (ReadFourCC (WriteFourCC 82 73 70 70) = RIFF)) with true.
  change (bool_decide (ReadFourCC (WriteFourCC 87 65 86 69) = WAVE)) with true.
  change (bool_decide (ReadFourCC (WriteFourCC 102 109 116 32) = FMT_)) with true.
  change (bool_decide (ReadFourCC (WriteFourCC 100 97 116 97) = DATA)) with true.
  cbn [negb]. by rewrite Z.ltb_irrefl, !Z.eqb_refl, Hc.
Qed.

(** ** Samples *)

Lemma length_sample_bytes xs : length (sample_bytes xs) = (2 * length xs)%nat.
Proof.
  induction xs as [|x xs IH]; [done|].
  change (sample_bytes (x :: xs)) with (le 2 (to_u16 x) ++ sample_bytes xs).
  rewrite length_app, length_le, IH. cbn [length]. lia.
Qed.

Lemma sample_bytes_app xs ys : sample_bytes (xs ++ ys) = sample_bytes xs ++ sample_bytes ys.
Proof. unfold sample_bytes. by rewrite map_app, join_app. Qed.

Lemma load_sample_bytes xs rest :
  Forall i16 xs -> load_samples (length xs) (sample_bytes xs ++ rest) = xs.
Proof.
  induction 1 as [|x xs Hx Hxs IH]; [done|]. cbn [length load_samples].
  change (sample_bytes (x :: xs)) with (le 2 (to_u16 x) ++ sample_bytes xs).
  rewrite <- app_assoc, take_app_length', drop_app_length' by (by rewrite length_le).
  rewrite IH, le_dec_le. f_equal. change (256 ^ Z.of_nat 2) with 65536.
  unfold to_u16, to_i16, i16 in *. Z.to_euclidean_division_equations. lia.
Qed.

Lemma WriteSamples_ok w xs :
  0 <= w_num_samples w -> w_num_samples w + zlen xs < UINT64 ->
  WriteSamples w xs =
  Ok (MkWriter (w_sample_rate w) (w_num_channels w) (w_num_samples w + zlen xs)
        (w_file w ++ sample_bytes xs)).
Proof.
  intros Hw Hl. pose proof (zlen_nonneg xs). unfold WriteSamples.
  rewrite to_u64_id by lia. by rewrite (proj2 (Z.ltb_ge _ _)) by lia.
Qed.

(** The writer after any sequence of writes. *)
Lemma write_all w pieces :
  0 <= w_num_samples w -> w_num_samples w + zlen (mjoin pieces) < UINT64 ->
  each WriteSamples w pieces =
  Ok (MkWriter (w_sample_rate w) (w_num_channels w)
        (w_num_samples w + zlen (mjoin pieces)) (w_file w ++ sample_bytes (mjoin pieces))).
Proof.
  revert w. induction pieces as [|p ps IH]; intros w Hw Hl; cbn [each].
  - cbn. rewrite app_nil_r, Z.add_0_r. by destruct w.
  - change (mjoin (p :: ps)) with (p ++ mjoin ps) in *. unfold zlen in *. rewrite length_app in *.
    rewrite WriteSamples_ok, bind_ok, IH by (cbn; unfold zlen; lia).
    cbn. unfold zlen. by rewrite sample_bytes_app, app_assoc, Nat2Z.inj_add, Z.add_assoc.
Qed.

(** The bytes of a header whose parameters pass the check. *)
Lemma write_read_header n r f b s rest :
  0 <= n -> i32 r -> 0 <= b -> 0 <= s -> CheckWavParameters n r f b s = true ->
  exists hdr, WriteWavHeader n r f b s = Some hdr /\ length hdr = 44%nat /\
    ReadWavHeader (hdr ++ rest) = (true, Some (WavInfo n r f b (Some s)), rest).
Proof.
  intros Hn Hr Hb Hs Hc. unfold WriteWavHeader. rewrite Hc. eexists. split; [done|].
  split; [unfold header_bytes; by rewrite length_app, length_front, length_chunk|].
  rewrite read_header_bytes by (apply make_header_ok || done).
  by rewrite parse_make_header.
Qed.

(** A reader on a file that starts with a valid header. *)
Lemma reader_new n r f b s rest hdr :
  0 <= n -> i32 r -> 0 <= b -> 0 <= s -> CheckWavParameters n r f b s = true ->
  WriteWavHeader n r f b s = Some hdr ->
  WavReader_new (hdr ++ rest) = MkReader (Some r) (Some n) (Some s) (Some s) rest.
Proof.
  intros Hn Hr Hb Hs Hc E.
  destruct (write_read_header n r f b s rest Hn Hr Hb Hs Hc) as (h & E' & _ & Er).
  rewrite E in E'. injection E' as <-. unfold WavReader_new. by rewrite Er.
Qed.

(** Reading [k] samples from the front of the rest. *)
Lemma ReadSamples_ok rate ch total m k xs ys tail :
  Forall i16 xs -> length xs = k ->
  (Z.min (Z.of_nat m) (zlen xs + zlen ys) = Z.of_nat k) ->
  zlen xs + zlen ys < UINT64 ->
  ReadSamples (MkReader rate ch total (Some (zlen xs + zlen ys))
                 (sample_bytes (xs ++ ys) ++ tail)) (Z.of_nat m) =
  Ok (Z.of_nat k, xs, MkReader rate ch total (Some (zlen ys)) (sample_bytes ys ++ tail)).
Proof.
  intros Hxs <- Hmin Hmax. unfold ReadSamples. cbn [r_remaining r_file r_sample_rate
    r_num_channels r_num_samples]. rewrite Hmin, Nat2Z.id.
  assert (En : Nat.min (length xs)
     (length (sample_bytes (xs ++ ys) ++ tail) / 2) = length xs).
  { rewrite length_app, length_sample_bytes, length_app.
    apply Nat.min_l, Nat.div_le_lower_bound; lia. }
  rewrite En, sample_bytes_app, <- app_assoc, load_sample_bytes by done.
  rewrite drop_app_length' by (by rewrite length_sample_bytes).
  pose proof (zlen_nonneg ys). rewrite to_u64_id by (unfold zlen in *; lia).
  unfold zlen. by replace (Z.of_nat (length xs) + Z.of_nat (length ys) -
    Z.of_nat (length xs)) with (Z.of_nat (length ys)) by lia.
Qed.

(** * Theorems *)

(** For parameters that pass the check, reading the header that was written
    succeeds, gives the parameters back and consumes exactly the 44 bytes of the
    header. *)
Lemma wav_header_roundtrip n r f b s rest :
  0 <= n -> i32 r -> 0 <= b -> 0 <= s -> CheckWavParameters n r f b s = true ->
  exists hdr, WriteWavHeader n r f b s = Some hdr /\ length hdr = 44%nat /\
    ReadWavHeader (hdr ++ rest) = (true, Some (WavInfo n r f b (Some s)), rest).
Proof. apply write_read_header. Qed.

(** C21: a file written in any number of pieces and closed is read back sample by
    sample, if [CheckWavParameters] accepts the channels, the rate and the total number of
    samples, which has to be one of whole frames: the reader finds the number of samples, rate and channels in the
    header and returns the samples that were written. *)
Theorem wav_file_roundtrip rate ch pieces :
  i32 rate -> 0 <= ch -> Forall i16 (mjoin pieces) ->
  CheckWavParameters ch rate kWavFormat kBytesPerSample (zlen (mjoin pieces)) = true ->
  exists w w' file r,
    WavWriter_new rate ch = Ok w /\ each WriteSamples w pieces = Ok w' /\
    WavWriter_Close w' = Ok file /\
    r_sample_rate (WavReader_new file) = Some rate /\
    r_num_channels (WavReader_new file) = Some ch /\
    ReadSamples (WavReader_new file) (zlen (mjoin pieces)) =
      Ok (zlen (mjoin pieces), mjoin pieces, r) /\ r_remaining r = Some 0.
Proof.
  intros Hr Hch Hx Hc. set (xs := mjoin pieces) in *. pose proof (zlen_nonneg xs) as Hz.
  pose proof Hc as Hv. apply CheckWavParameters_true in Hv; [|done|done|done|done].
  assert (Hb : zlen xs < UINT64) by (unfold kBytesPerSample, UINT64 in *; lia).
  assert (H0 : CheckWavParameters ch rate kWavFormat kBytesPerSample 0 = true).
  { apply CheckWavParameters_true; [done|done|done|done|].
    rewrite Z.mod_0_l by lia. unfold kBytesPerSample in *. lia. }
  destruct (write_read_header ch rate kWavFormat kBytesPerSample (zlen xs)
    (sample_bytes xs) Hch Hr ltac:(done) Hz Hc) as (hdr & Eh & Hl & _).
  eexists _, _, (hdr ++ sample_bytes xs), _.
  split; [unfold WavWriter_new; by rewrite H0|].
  split; [apply write_all; cbn; fold xs; lia|]. cbn [w_sample_rate w_num_channels
    w_num_samples w_file]. fold xs.
  split; [unfold WavWriter_Close; cbn [w_sample_rate w_num_channels w_num_samples w_file];
          by rewrite Z.add_0_l, Eh, drop_app_length'|].
  rewrite (reader_new ch rate kWavFormat kBytesPerSample (zlen xs) _ hdr) by done.
  split; [done|]. split; [done|].
  pose proof (ReadSamples_ok (Some rate) (Some ch) (Some (zlen xs)) (length xs)
    (length xs) xs [] [] Hx eq_refl) as E.
  rewrite !app_nil_r, Z.add_0_r in E. split; [apply E; unfold zlen in *; lia|done].
Qed.

Lemma wav_file_roundtrip_witness :
  exists w w' file r,
    WavWriter_new 8000 1 = Ok w /\ each WriteSamples w [[1; -1]; [32767]] = Ok w' /\
    WavWriter_Close w' = Ok file /\
    r_sample_rate (WavReader_new file) = Some 8000 /\
    r_num_channels (WavReader_new file) = Some 1 /\
    ReadSamples (WavReader_new file) 3 = Ok (3, [1; -1; 32767], r) /\
    r_remaining r = Some 0.
Proof.
  apply (wav_file_roundtrip 8000 1 [[1; -1]; [32767]]); [unfold i32; lia|lia| |reflexivity].
  repeat constructor; unfold i16; lia.
Defined.

(** ** Defects *)

(** A number of samples that is not a multiple of the channels leaves the header
    that [Close] writes uninitialised. *)
Example close_partial_frame :
  (w ← WavWriter_new 8000 2; w ← WriteSamples w [1; 2; 3]; WavWriter_Close w) =
  Fault Uninitialized.
Proof. reflexivity. Qed.

(** The result of [ReadWavHeader] is ignored: on a file without a complete
    header the reader works with uninitialised members. *)
Example reader_without_header :
  ReadSamples (WavReader_new RIFF) 160 = Fault Uninitialized.
Proof. reflexivity. Qed.
