(* ===== verification/Tool.v ===== *)
(** * The command-line tool

    [main] of [spec/agc_spec.cc] on files that can be opened: it reads a WAV file in
    blocks of 160 samples, processes every block with the settings of a new
    object and writes the result to a mono file of 8 kHz. *)
From S2P Require Import Prelude CInt Spl Vad GainTable Digital Instance Mic Analog.
From S2P Require Import Session Contract GainControl AudioProcessing Wav.

(** The state of the loop: the object, the reader and the writer. *)
Record tool := MkTool {
  t_heap : heap; t_control : GainControlImpl; t_reader : WavReader; t_writer : WavWriter
}.

(** The [while] loop; returns the code with which it is left. *)
Fixpoint tool_loop (fuel : nat) (t : tool) : res (Z * tool) :=
  match fuel with
  | O => Fault OutOfFuel
  | S fuel' =>
      '(n, samples, r) ← ReadSamples (t_reader t) 160;
      if negb (160 =? n)
      then Ok (0, MkTool (t_heap t) (t_control t) r (t_writer t)) else
      '(error, h, g, samples) ← ProcessStream (t_heap t) (t_control t) (Some samples) 160;
      if negb (error =? kNoError) then Ok (-1, MkTool h g r (t_writer t)) else
      w ← WriteSamples (t_writer t) (default [] samples);
      tool_loop fuel' (MkTool h g r w)
  end.

(** The fuel covers every file: a block needs 320 bytes. *)
Definition tool_fuel (input : list Z) : nat := S (length input / 320).

(** Returns the exit code and the output file; after a processing error the
    writer is not closed and the header stays blank. *)
Definition tool_main (mem : option LegacyAgc) (input : list Z) : res (Z * list Z) :=
  '(h, g) ← Create None;
  '(_, h, g) ← Enable mem h g true;
  w ← WavWriter_new 8000 1;
  let r := WavReader_new input in
  '(code, t) ← tool_loop (tool_fuel input) (MkTool h g r w);
  if negb (code =? 0) then Ok (code, w_file (t_writer t)) else
  output ← WavWriter_Close (t_writer t);
  _ ← Destory (t_heap t) (t_control t);
  Ok (0, output).

(** * Lemmas *)

(** The complete blocks of a signal. *)
Fixpoint blocks_of (k : nat) (xs : list Z) : list (list Z) :=
  match k with
  | O => []
  | S k' => take 160 xs :: blocks_of k' (drop 160 xs)
  end.

Lemma blocks_of_ok k xs :
  Forall i16 xs -> (160 * k <= length xs)%nat -> Forall block_ok (blocks_of k xs).
Proof.
  revert xs. induction k as [|k IH]; intros xs Hx Hl; cbn [blocks_of]; constructor.
  - split; [by apply Forall_take|]. rewrite length_take. lia.
  - apply IH; [by apply Forall_drop|]. rewrite length_drop. lia.
Qed.

(** Reading one block of at least 160 samples, or the end of the file. *)
Lemma read_block rate ch total xs tail :
  Forall i16 xs -> (160 <= length xs)%nat -> zlen xs < UINT64 ->
  ReadSamples (MkReader rate ch total (Some (zlen xs)) (sample_bytes xs ++ tail)) 160 =
  Ok (160, take 160 xs, MkReader rate ch total (Some (zlen (drop 160 xs)))
        (sample_bytes (drop 160 xs) ++ tail)).
Proof.
  intros Hx Hl Hm.
  assert (E : zlen xs = zlen (take 160 xs) + zlen (drop 160 xs)).
  { unfold zlen. rewrite length_take, length_drop. lia. }
  assert (Ht : length (take 160 xs) = 160%nat) by (rewrite length_take; lia).
  pose proof (ReadSamples_ok rate ch total 160 160 (take 160 xs) (drop 160 xs) tail
    ltac:(by apply Forall_take) Ht) as H.
  rewrite take_drop, <- E in H. apply H; [unfold zlen in *; lia|done].
Qed.

Lemma read_end rate ch total xs tail :
  Forall i16 xs -> (length xs < 160)%nat ->
  exists r, ReadSamples (MkReader rate ch total (Some (zlen xs))
              (sample_bytes xs ++ tail)) 160 = Ok (zlen xs, xs, r).
Proof.
  intros Hx Hl. eexists.
  pose proof (ReadSamples_ok rate ch total 160 (length xs) xs [] tail Hx eq_refl) as H.
  change (zlen (@nil Z)) with 0 in H. rewrite app_nil_r, Z.add_0_r in H.
  apply H; unfold zlen, UINT64 in *; lia.
Qed.

(** The end of the loop. *)
Lemma tool_loop_end fuel h g rate ch total xs tail w :
  Forall i16 xs -> (length xs < 160)%nat ->
  exists r, tool_loop (S fuel) (MkTool h g (MkReader rate ch total (Some (zlen xs))
              (sample_bytes xs ++ tail)) w) = Ok (0, MkTool h g r w).
Proof.
  intros Hx Hl. cbn [tool_loop t_reader t_heap t_control t_writer].
  destruct (read_end rate ch total xs tail Hx Hl) as (r & ->). rewrite bind_ok.
  rewrite (proj2 (Z.eqb_neq _ _)) by (unfold zlen; lia). by exists r.
Qed.

(** One pass over a block that [ProcessStream] accepts. *)
Lemma tool_loop_block fuel h g h' g' rate ch total xs tail w d :
  Forall i16 xs -> (160 <= length xs)%nat -> zlen xs < UINT64 ->
  0 <= w_num_samples w -> w_num_samples w + zlen d < UINT64 ->
  ProcessStream h g (Some (take 160 xs)) 160 = Ok (kNoError, h', g', Some d) ->
  tool_loop (S fuel) (MkTool h g (MkReader rate ch total (Some (zlen xs))
    (sample_bytes xs ++ tail)) w) =
  tool_loop fuel (MkTool h' g' (MkReader rate ch total (Some (zlen (drop 160 xs)))
    (sample_bytes (drop 160 xs) ++ tail))
    (MkWriter (w_sample_rate w) (w_num_channels w) (w_num_samples w + zlen d)
       (w_file w ++ sample_bytes d))).
Proof.
  intros Hx Hl Hlen Hw Hmax E. cbn [tool_loop t_reader t_heap t_control t_writer].
  rewrite read_block, bind_ok by done. change (negb (160 =? 160)) with false. cbv iota.
  rewrite E, bind_ok. change (negb (kNoError =? kNoError)) with false. cbv iota.
  change (default [] (Some d)) with d. by rewrite WriteSamples_ok, bind_ok.
Qed.

Lemma tool_loop_fault fuel h g rate ch total xs tail w f :
  Forall i16 xs -> (160 <= length xs)%nat -> zlen xs < UINT64 ->
  ProcessStream h g (Some (take 160 xs)) 160 = Fault f ->
  tool_loop (S fuel) (MkTool h g (MkReader rate ch total (Some (zlen xs))
    (sample_bytes xs ++ tail)) w) = Fault f.
Proof.
  intros Hx Hl Hlen E. cbn [tool_loop t_reader t_heap t_control t_writer].
  rewrite read_block, bind_ok by done. change (negb (160 =? 160)) with false. cbv iota.
  by rewrite E.
Qed.

Lemma drop_block (xs : list Z) k :
  (length xs / 160 = S k)%nat ->
  (160 <= length xs)%nat /\ (length (drop 160 xs) / 160 = k)%nat /\
  zlen (drop 160 xs) = zlen xs - 160.
Proof.
  intros Hk. assert (Hl : (160 <= length xs)%nat).
  { destruct (Nat.lt_ge_cases (length xs) 160) as [H|H]; [|done].
    rewrite Nat.div_small in Hk; lia. }
  unfold zlen. rewrite length_drop. split; [done|]. split; [|lia].
  replace (length xs) with (length xs - 160 + 1 * 160)%nat in Hk by lia.
  rewrite Nat.div_add in Hk by lia. lia.
Qed.

(** The loop on a file with [k] complete blocks is the object on these blocks:
    it ends, unless the object faults, and the writer has received what the
    object returned. *)
Lemma tool_loop_spec k fuel n h g s lvl rate ch total xs tail w :
  ready agc_ok n h g s lvl -> mode_ g = kFixedDigital -> 0 <= n ->
  n + 10 * Z.of_nat k <= block_bound ->
  Forall i16 xs -> (length xs / 160 = k)%nat -> (k < fuel)%nat ->
  0 <= w_num_samples w -> w_num_samples w + zlen xs < UINT64 -> zlen xs < UINT64 ->
  let t := MkTool h g (MkReader rate ch total (Some (zlen xs)) (sample_bytes xs ++ tail)) w in
  match run_blocks h g (blocks_of k xs) with
  | Ok (h', g', outs) => exists r,
      tool_loop fuel t = Ok (0, MkTool h' g' r (MkWriter (w_sample_rate w)
        (w_num_channels w) (w_num_samples w + zlen (mjoin outs))
        (w_file w ++ sample_bytes (mjoin outs))))
  | Fault f => tool_loop fuel t = Fault f
  end.
Proof.
  revert fuel n h g s lvl xs w. induction k as [|k IH];
    intros fuel n h g s lvl xs w Hr Hm Hn Hb Hx Hk Hfuel Hw Hmax Hlen;
    (destruct fuel as [|fuel]; [lia|]); cbn [blocks_of run_blocks]; cbv zeta.
  - assert (Hl : (length xs < 160)%nat) by (apply Nat.div_small_iff in Hk; lia).
    destruct (tool_loop_end fuel h g rate ch total xs tail w Hx Hl) as (r & E).
    exists r. rewrite E. cbn. rewrite app_nil_r, Z.add_0_r. by destruct w.
  - destruct (drop_block xs k Hk) as (Hl & Hk' & Hzx).
    assert (Hb1 : samples16 (take 160 xs)) by (by apply Forall_take).
    assert (Hb2 : length (take 160 xs) = 160%nat) by (rewrite length_take; lia).
    pose proof (stream_spec agc_ok n h g s lvl (take 160 xs) Hr ltac:(by rewrite Hm)
      ltac:(lia) Hb1 Hb2) as Hs.
    destruct (ProcessStream h g (Some (take 160 xs)) 160) as [[[[err h1] g1] o]|f] eqn:Ep.
    2: { by apply tool_loop_fault. }
    destruct Hs as (-> & Hset & (d & -> & Hd & Hld) & s1 & lvl1 & Hr1 & Hv).
    rewrite bind_ok. assert (Hzd : zlen d = 160) by (unfold zlen; by rewrite Hld).
    assert (Hzl : 160 <= zlen xs) by (unfold zlen; lia).
    rewrite (tool_loop_block fuel h g h1 g1 rate ch total xs tail w d) by (done || lia).
    apply (f_equal st_mode) in Hset. cbn in Hset.
    specialize (IH fuel (n + 10) h1 g1 s1 lvl1 (drop 160 xs)
      (MkWriter (w_sample_rate w) (w_num_channels w) (w_num_samples w + zlen d)
         (w_file w ++ sample_bytes d)) Hr1 ltac:(congruence) ltac:(lia) ltac:(lia)
      ltac:(by apply Forall_drop) Hk' ltac:(lia) ltac:(cbn; lia) ltac:(cbn; lia) ltac:(lia)).
    cbv zeta in IH. destruct (run_blocks h1 g1 _) as [[[h2 g2] outs]|f]; [|exact IH].
    destruct IH as (r & ->). exists r. cbn [w_sample_rate w_num_channels w_num_samples w_file].
    change (mjoin (default [] (Some d) :: outs)) with (d ++ mjoin outs). unfold zlen.
    by rewrite sample_bytes_app, app_assoc, length_app, Nat2Z.inj_add, Z.add_assoc.
Qed.

(** * Theorems *)

(** The fuel covers every complete block of a file. *)
Lemma tool_fuel_enough hdr xs tail :
  length hdr = 44%nat ->
  (length xs / 160 < tool_fuel (hdr ++ sample_bytes xs ++ tail))%nat.
Proof.
  intros Hh. unfold tool_fuel. rewrite !length_app, length_sample_bytes, Hh.
  apply Nat.lt_succ_r. rewrite <- (Nat.Div0.div_mul_cancel_l (length xs) 160 2) by lia.
  apply Nat.Div0.div_le_mono. lia.
Qed.

Definition complete_blocks (xs : list Z) : list (list Z) :=
  blocks_of (length xs / 160) xs.

(** The object of the tool. *)
Definition tool_object (mem : option LegacyAgc) : res (heap * GainControlImpl) :=
  '(h, g) ← Create None;
  '(_, h, g) ← Enable mem h g true;
  Ok (h, g).

(** What the object returns for the samples of a file. *)
Definition tool_output (mem : option LegacyAgc) (xs : list Z) : res (list Z) :=
  '(h, g) ← tool_object mem;
  '(_, _, outs) ← run_blocks h g (complete_blocks xs);
  Ok (mjoin (outs : list (list Z))).

Lemma blocks_of_length k xs : length (blocks_of k xs) = k.
Proof. revert xs. induction k as [|k IH]; intros xs; cbn; [done|by rewrite IH]. Qed.

Lemma mjoin_blocks (outs : list (list Z)) :
  Forall block_ok outs ->
  Forall i16 (mjoin outs) /\ zlen (mjoin outs) = 160 * Z.of_nat (length outs).
Proof.
  induction 1 as [|b outs [Hb Hl] Ho IH]; [done|]. destruct IH as [IH1 IH2].
  change (mjoin (b :: outs)) with (b ++ mjoin outs). split; [by apply Forall_app|].
  unfold zlen in *. rewrite length_app, Hl. cbn [length]. lia.
Qed.

(** The object on the complete blocks of a signal. *)
Lemma object_run mem xs :
  memory_ok mem -> Forall i16 xs -> zlen xs <= 16 * block_bound ->
  exists h g s lvl,
    Enable (Some mem) [] (set_format (Some 1) (Some 8000) GainControlImpl_new) true =
      Ok (kNoError, h, g) /\
    ready agc_ok 0 h g s lvl /\ mode_ g = kFixedDigital /\
    0 + 10 * Z.of_nat (length xs / 160) <= block_bound /\
    match vad_frames WebRtcAgc_InitVad (frames_of (complete_blocks xs)) with
    | Ok _ => exists h' g' outs n' s' lvl',
        run_blocks h g (complete_blocks xs) = Ok (h', g', outs) /\
        Forall i16 (mjoin outs) /\ zlen (mjoin outs) = 160 * (zlen xs / 160) /\
        ready agc_ok n' h' g' s' lvl'
    | Fault f => f = SignedOverflow /\ run_blocks h g (complete_blocks xs) = Fault f
    end.
Proof.
  intros Hm Hx Hmax. pose proof (zlen_nonneg xs) as Hz.
  destruct (fresh_ready mem Hm) as (h & g & s & lvl & Ee & Hr & Hmode & Hvad).
  assert (Hk : Z.of_nat (length xs / 160) = zlen xs / 160) by apply (Nat2Z.inj_div _ 160).
  assert (Hbl : Forall block_ok (complete_blocks xs)).
  { apply blocks_of_ok; [done|]. pose proof (Nat.Div0.mul_div_le (length xs) 160). lia. }
  assert (Hlen : length (complete_blocks xs) = (length xs / 160)%nat)
    by apply blocks_of_length.
  assert (Hbound : 0 + 10 * Z.of_nat (length xs / 160) <= block_bound).
  { rewrite Hk. clear - Hmax Hz. Z.to_euclidean_division_equations. lia. }
  exists h, g, s, lvl. split; [done|]. split; [done|]. split; [done|]. split; [done|].
  pose proof (run_blocks_spec agc_ok 0 h g s lvl _ Hr Hmode ltac:(lia)
    ltac:(unfold zlen; by rewrite Hlen) Hbl) as Hs. rewrite Hvad in Hs.
  destruct (vad_frames _ _) as [v|f]; [|done].
  destruct Hs as (h' & g' & outs & n' & s' & lvl' & E & Ho & Hl & Hr').
  destruct (mjoin_blocks outs Ho) as [H1 H2]. exists h', g', outs, n', s', lvl'.
  split; [done|]. split; [done|]. split; [by rewrite H2, Hl, Hlen, Hk|done].
Qed.

Lemma tool_output_spec mem xs :
  memory_ok mem -> Forall i16 xs -> zlen xs <= 16 * block_bound ->
  match vad_frames WebRtcAgc_InitVad (frames_of (complete_blocks xs)) with
  | Ok _ => exists ys, tool_output (Some mem) xs = Ok ys /\ Forall i16 ys /\
              zlen ys = 160 * (zlen xs / 160)
  | Fault f => f = SignedOverflow /\ tool_output (Some mem) xs = Fault f
  end.
Proof.
  intros Hm Hx Hmax.
  destruct (object_run mem xs Hm Hx Hmax) as (h & g & s & lvl & Ee & _ & _ & _ & Hs).
  unfold tool_output, tool_object. change (Create None) with
    (Ok ([] : heap, set_format (Some 1) (Some 8000) GainControlImpl_new)).
  rewrite bind_ok, Ee, !bind_ok. destruct (vad_frames _ _) as [v|f].
  - destruct Hs as (h' & g' & outs & n' & s' & lvl' & -> & Ho & Hl & _).
    by exists (mjoin outs).
  - by destruct Hs as [-> ->].
Qed.

(** The WAV file of a signal. *)
Definition mono_file (ys : list Z) : list Z :=
  default [] (WriteWavHeader 1 8000 kWavFormat kBytesPerSample (zlen ys)) ++
  sample_bytes ys.

(** The number of samples written is valid whenever the one read is. *)
Lemma output_valid (xs : list Z) n r (ys : list Z) :
  CheckWavParameters n r kWavFormat kBytesPerSample (zlen xs) = true ->
  0 <= n -> i32 r -> zlen ys = 160 * (zlen xs / 160) ->
  CheckWavParameters 1 8000 kWavFormat kBytesPerSample (zlen ys) = true.
Proof.
  intros Hc Hn Hr Hl. pose proof (zlen_nonneg xs) as Hz. pose proof (zlen_nonneg ys).
  apply CheckWavParameters_true in Hc; [|done..].
  apply CheckWavParameters_true; [lia|unfold i32; lia|done|lia|].
  rewrite Z.mod_1_r. unfold kWavFormat, kWavFormatPcm, kBytesPerSample in *.
  pose proof (Z.mul_div_le (zlen xs) 160). lia.
Qed.

Lemma mono_file_reader ys :
  CheckWavParameters 1 8000 kWavFormat kBytesPerSample (zlen ys) = true ->
  WavReader_new (mono_file ys) =
    MkReader (Some 8000) (Some 1) (Some (zlen ys)) (Some (zlen ys)) (sample_bytes ys).
Proof.
  intros Hc. pose proof (zlen_nonneg ys) as Hz. unfold mono_file.
  destruct (write_read_header 1 8000 kWavFormat kBytesPerSample (zlen ys) (sample_bytes ys)
    ltac:(lia) ltac:(unfold i32; lia) ltac:(done) Hz Hc) as (out & Eo & _ & _).
  rewrite Eo. by apply (reader_new 1 8000 kWavFormat kBytesPerSample (zlen ys) _ out);
    [lia|unfold i32; lia|done|..].
Qed.

(** Closing the writer of the tool. *)
Lemma close_mono ys :
  CheckWavParameters 1 8000 kWavFormat kBytesPerSample (zlen ys) = true ->
  WavWriter_Close (MkWriter 8000 1 (0 + zlen ys) (replicate 44 0 ++ sample_bytes ys)) =
  Ok (mono_file ys).
Proof.
  intros Hc. unfold WavWriter_Close, mono_file.
  cbn [w_num_channels w_sample_rate w_num_samples w_file]. rewrite Z.add_0_l.
  unfold WriteWavHeader. rewrite Hc. cbn [negb default].
  by rewrite drop_app_length'.
Qed.

Lemma tool_main_run mem n r hdr xs tail :
  memory_ok mem -> 0 <= n -> i32 r -> Forall i16 xs ->
  CheckWavParameters n r kWavFormat kBytesPerSample (zlen xs) = true ->
  WriteWavHeader n r kWavFormat kBytesPerSample (zlen xs) = Some hdr ->
  zlen xs <= 16 * block_bound ->
  tool_main (Some mem) (hdr ++ sample_bytes xs ++ tail) =
  match tool_output (Some mem) xs with
  | Ok ys => Ok (0, mono_file ys)
  | Fault f => Fault f
  end.
Proof.
  intros Hm Hn Hr Hx Hc Eh Hmax. pose proof (zlen_nonneg xs) as Hz.
  destruct (write_read_header n r kWavFormat kBytesPerSample (zlen xs)
    (sample_bytes xs ++ tail) Hn Hr ltac:(done) Hz Hc) as (hdr' & Eh' & Hl & _).
  assert (hdr' = hdr) as -> by congruence.
  destruct (object_run mem xs Hm Hx Hmax)
    as (h & g & s & lvl & Ee & Hready & Hmode & Hbound & Hs).
  pose proof Hc as Hv. apply CheckWavParameters_true in Hv; [|done..].
  unfold kBytesPerSample in Hv.
  pose proof (tool_loop_spec (length xs / 160) (tool_fuel (hdr ++ sample_bytes xs ++ tail))
    0 h g s lvl (Some r) (Some n) (Some (zlen xs)) xs tail
    (MkWriter 8000 1 0 (replicate 44 0)) Hready Hmode ltac:(lia) Hbound Hx eq_refl
    ltac:(by apply tool_fuel_enough) ltac:(done) ltac:(cbn; unfold UINT64; lia)
    ltac:(unfold UINT64; lia)) as Hloop. cbv zeta in Hloop.
  unfold tool_output, tool_object, tool_main. change (Create None) with
    (Ok ([] : heap, set_format (Some 1) (Some 8000) GainControlImpl_new)).
  rewrite !bind_ok, Ee, !bind_ok. change (WavWriter_new 8000 1)
    with (Ok (MkWriter 8000 1 0 (replicate 44 0))). rewrite bind_ok.
  rewrite (reader_new n r kWavFormat kBytesPerSample (zlen xs) _ hdr) by done.
  fold (complete_blocks xs) in Hloop. destruct (vad_frames _ _) as [v|f].
  - destruct Hs as (h' & g' & outs & n' & s' & lvl' & E & Ho & Hlo & Hr').
    rewrite E in Hloop |- *. destruct Hloop as (rd & ->). rewrite !bind_ok.
    change (negb (0 =? 0)) with false. cbv iota. cbn [t_writer t_heap t_control].
    rewrite close_mono, bind_ok by (by apply (output_valid xs n r)).
    unfold Destory, GainControlImpl_delete, free.
    by rewrite (rd_cell _ _ _ _ _ _ Hr').
  - destruct Hs as [_ E]. rewrite E in Hloop |- *. by rewrite Hloop.
Qed.

(** C4: on every WAV file of 16-bit samples behind the header of 44 bytes that [WriteWavHeader]
    writes for them, with anything after the samples, and of no more than three days, the tool
    terminates; it is the composition of decoding, processing the complete
    blocks and encoding: the output file is the mono file of 8 kHz with what the
    object returns, read back by the reader, and the tool faults exactly when
    the object does. *)
Theorem tool_main_outcome mem n r hdr xs tail :
  memory_ok mem -> 0 <= n -> i32 r -> Forall i16 xs ->
  CheckWavParameters n r kWavFormat kBytesPerSample (zlen xs) = true ->
  WriteWavHeader n r kWavFormat kBytesPerSample (zlen xs) = Some hdr ->
  zlen xs <= 16 * block_bound ->
  match tool_output (Some mem) xs with
  | Ok ys =>
      tool_main (Some mem) (hdr ++ sample_bytes xs ++ tail) = Ok (0, mono_file ys) /\
      Forall i16 ys /\ zlen ys = 160 * (zlen xs / 160) /\
      WavReader_new (mono_file ys) =
        MkReader (Some 8000) (Some 1) (Some (zlen ys)) (Some (zlen ys)) (sample_bytes ys)
  | Fault f =>
      f = SignedOverflow /\
      tool_main (Some mem) (hdr ++ sample_bytes xs ++ tail) = Fault f
  end.
Proof.
  intros Hm Hn Hr Hx Hc Eh Hmax. pose proof (zlen_nonneg xs) as Hz.
  pose proof (tool_output_spec mem xs Hm Hx Hmax) as Hout.
  pose proof (tool_main_run mem n r hdr xs tail Hm Hn Hr Hx Hc Eh Hmax) as Hrun.
  destruct (vad_frames _ _) as [v|f].
  - destruct Hout as (ys & E & Hys & Hl). rewrite E in Hrun |- *.
    split; [exact Hrun|]. split; [done|]. split; [done|].
    apply mono_file_reader. by apply (output_valid xs n r).
  - destruct Hout as [-> E]. rewrite E in Hrun |- *. by split.
Qed.

Lemma silence_header :
  exists hdr, WriteWavHeader 1 8000 kWavFormat kBytesPerSample (zlen (silence 400)) =
              Some hdr.
Proof. eexists. vm_compute. reflexivity. Qed.

Lemma silence_vad :
  is_ok (vad_frames WebRtcAgc_InitVad (frames_of (complete_blocks (silence 400)))) = true.
Proof. vm_compute. reflexivity. Qed.

Lemma tool_main_outcome_witness :
  exists hdr ys,
    WriteWavHeader 1 8000 kWavFormat kBytesPerSample (zlen (silence 400)) = Some hdr /\
    tool_output (Some blank) (silence 400) = Ok ys /\
    tool_main (Some blank) (hdr ++ sample_bytes (silence 400) ++ [0; 0]) =
      Ok (0, mono_file ys) /\
    Forall i16 ys /\ zlen ys = 160 * (zlen (silence 400) / 160) /\
    WavReader_new (mono_file ys) =
      MkReader (Some 8000) (Some 1) (Some (zlen ys)) (Some (zlen ys)) (sample_bytes ys).
Proof.
  destruct silence_header as (hdr & Eh).
  assert (Hx : Forall i16 (silence 400)) by (apply Forall_replicate; unfold i16; lia).
  assert (Hc : CheckWavParameters 1 8000 kWavFormat kBytesPerSample (zlen (silence 400)) = true)
    by (vm_compute; reflexivity).
  assert (Hb : zlen (silence 400) <= 16 * block_bound) by (vm_compute; discriminate).
  pose proof (tool_main_outcome blank 1 8000 hdr (silence 400) [0; 0]
    eq_refl ltac:(lia) ltac:(unfold i32; lia) Hx Hc Eh Hb) as H.
  pose proof (tool_output_spec blank (silence 400) eq_refl Hx Hb) as Ho.
  pose proof silence_vad as Hv.
  destruct (vad_frames WebRtcAgc_InitVad (frames_of (complete_blocks (silence 400))));
    [|discriminate Hv].
  destruct Ho as (ys & E & _). rewrite E in H. exists hdr, ys.
  exact (conj Eh (conj E H)).
Defined.
