(* ===== verification/AudioUtil.v ===== *)
(** * Sample formats and channel layouts

    [common_audio/audio_util.h] and [audio_util.cc]: the conversion between
    16-bit samples and single-precision samples in the 16-bit range, and the
    routines that move samples between interleaved and separate channels.

    A pointer into a buffer is an offset into the list that holds the buffer. *)
From S2P Require Import Prelude CInt.

(** ** Single precision

    A finite [float] is [f_man * 2 ^ f_exp].  Every operation is exact followed by
    one rounding to 24 bits, to nearest with ties to even.  The exponent is not
    limited: samples are far from the overflow and underflow thresholds. *)

Record float := Flt { f_man : Z; f_exp : Z }.

(** [m / 2 ^ d], rounded. *)
Definition round_even (m d : Z) : Z :=
  let q := m / 2 ^ d in
  let r := m mod 2 ^ d in
  let half := 2 ^ (d - 1) in
  if r <? half then q else if half <? r then q + 1 else if Z.even q then q else q + 1.

Definition fl (m e : Z) : float :=
  let d := Z.log2 (Z.abs m) - 23 in
  if d <=? 0 then Flt m e else Flt (round_even m d) (e + d).

(** The mantissa at exponent [e], for [e] at most the exponent. *)
Definition man_at (e : Z) (v : float) : Z := f_man v * 2 ^ (f_exp v - e).

Definition fadd (a b : float) : float :=
  let e := Z.min (f_exp a) (f_exp b) in fl (man_at e a + man_at e b) e.

Definition fle (a b : float) : bool :=
  let e := Z.min (f_exp a) (f_exp b) in man_at e a <=? man_at e b.

Definition fmul (a b : float) : float := fl (f_man a * f_man b) (f_exp a + f_exp b).
Definition fzero : float := Flt 0 0.

Definition float_of_int (x : Z) : float := fl x 0.
Definition fhalf : float := Flt 1 (-1).
Definition fneg (v : float) : float := Flt (- f_man v) (f_exp v).

(** Conversion to an integer type truncates. *)
Definition ftrunc (v : float) : Z :=
  if 0 <=? f_exp v then f_man v * 2 ^ f_exp v else Z.quot (f_man v) (2 ^ (- f_exp v)).

(** [static_cast<int16_t>], undefined for a value that does not fit. *)
Definition short_of_float (v : float) : res Z :=
  let x := ftrunc v in
  if (INT16_MIN <=? x) && (x <=? INT16_MAX) then Ok x else Fault ConversionRange.

Definition kMaxRound : float := fadd (float_of_int INT16_MAX) (fneg fhalf).
Definition kMinRound : float := fadd (float_of_int INT16_MIN) fhalf.

Definition FloatS16ToS16 (v : float) : res Z :=
  if negb (fle v (Flt 0 0)) then
    if fle kMaxRound v then Ok INT16_MAX else short_of_float (fadd v fhalf)
  else if fle v kMinRound then Ok INT16_MIN else short_of_float (fadd v (fneg fhalf)).

(** ** Channel layouts

    The routines that write to several channels get the memory of the target and
    the pointers to its channels. *)

(** [for (size_t i = 0; i < n; ++i)] over a state. *)
Definition loop {S} (n : nat) (body : nat -> S -> res S) (s : S) : res S :=
  each (fun s i => body i s) s (seq 0 n).

(** [p[i]] for a pointer [p] into the memory. *)
Definition deref {A} (mem : list A) (p i : nat) : res A := rd mem (Z.of_nat (p + i)).

Definition Deinterleave {A} (interleaved : list A)
    (samples_per_channel num_channels : nat) (deinterleaved : list nat) (mem : list A)
    : res (list A) :=
  loop num_channels (fun i mem =>
    channel ← rd deinterleaved (Z.of_nat i);
    loop samples_per_channel (fun j mem =>
      x ← rd interleaved (Z.of_nat (i + j * num_channels));
      wr mem (Z.of_nat (channel + j)) x) mem) mem.

(** Returns the array [interleaved]. *)
Definition Interleave {A} (mem : list A) (deinterleaved : list nat)
    (samples_per_channel num_channels : nat) (interleaved : list A) : res (list A) :=
  loop num_channels (fun i interleaved =>
    channel ← rd deinterleaved (Z.of_nat i);
    loop samples_per_channel (fun j interleaved =>
      x ← deref mem channel j;
      wr interleaved (Z.of_nat (i + j * num_channels)) x) interleaved) interleaved.

Definition UpmixMonoToInterleaved {A} (mem : list A) (mono : nat)
    (num_frames num_channels : nat) (interleaved : list A) : res (list A) :=
  '(out, _) ← loop num_frames (fun i st =>
    loop num_channels (fun _ '(out, interleaved_idx) =>
      x ← deref mem mono i;
      out ← wr out (Z.of_nat interleaved_idx) x;
      Ok (out, S interleaved_idx)) st) (interleaved, 0%nat);
  Ok out.

(** The samples written to [out]; [value] is an [int32_t]. *)
Definition downmix_sample (first : res Z) (others : nat -> res Z) (num_channels : nat)
    : res Z :=
  value ← first;
  value ← each (fun value j => x ← others j; add32 value x) value
            (seq 1 (num_channels - 1));
  q ← div32 value (Z.of_nat num_channels);
  Ok (to_i16 q).

Definition DownmixToMono (mem : list Z) (input_channels : list nat)
    (num_frames num_channels : nat) : res (list Z) :=
  mapM (fun i =>
    let sample j := p ← rd input_channels (Z.of_nat j); deref mem p i in
    downmix_sample (sample 0%nat) sample num_channels) (seq 0 num_frames).

Definition DownmixInterleavedToMono (interleaved : list Z)
    (num_frames num_channels : nat) : res (list Z) :=
  if (num_channels =? 0)%nat || (num_frames =? 0)%nat then Fault AssertionFailed else
  mapM (fun i =>
    let sample j := rd interleaved (Z.of_nat (i * num_channels + j)) in
    downmix_sample (sample 0%nat) sample num_channels) (seq 0 num_frames).

(** * Lemmas *)

(** ** Conversions *)

Lemma round_even_range m d lo hi :
  0 < d -> lo * 2 ^ d <= m <= hi * 2 ^ d -> lo <= round_even m d <= hi.
Proof.
  intros Hd Hm. assert (Hp : 0 < 2 ^ d) by (apply Z.pow_pos_nonneg; lia).
  assert (E2 : 2 ^ d = 2 * 2 ^ (d - 1)) by (rewrite <- Z.pow_succ_r by lia; f_equal; lia).
  assert (Hh : 0 < 2 ^ (d - 1)) by (apply Z.pow_pos_nonneg; lia).
  pose proof (Z.div_mod m (2 ^ d) ltac:(lia)) as E.
  pose proof (Z.mod_pos_bound m (2 ^ d) Hp) as Hr.
  assert (Hq : lo <= m / 2 ^ d <= hi).
  { split; [apply Z.div_le_lower_bound; lia|]. apply Z.div_le_upper_bound; lia. }
  unfold round_even. cbv zeta.
  assert (Hlt : m mod 2 ^ d <> 0 -> m / 2 ^ d < hi).
  { intros Hne. apply Z.div_lt_upper_bound; [lia|].
    destruct (Z.eq_dec m (hi * 2 ^ d)) as [->|]; [|lia].
    by rewrite Z.mod_mul in Hne by lia. }
  repeat case_if; try lia.
Qed.

(** Small integers are exact. *)
Lemma fl_exact m e : Z.abs m < 2 ^ 24 -> fl m e = Flt m e.
Proof.
  intros Hm. unfold fl. cbv zeta. destruct (Z.leb_spec (Z.log2 (Z.abs m) - 23) 0); [done|].
  destruct (Z.eq_dec m 0) as [->|Hne]; [done|].
  pose proof (Z.log2_lt_pow2 (Z.abs m) 24 ltac:(lia)). lia.
Qed.

(** Converting a sample to [float] and back is exact. *)
Lemma FloatS16ToS16_int x : i16 x -> FloatS16ToS16 (float_of_int x) = Ok x.
Proof.
  intros Hx. unfold i16 in Hx. unfold float_of_int. rewrite fl_exact by (cbn; lia).
  unfold FloatS16ToS16.
  change kMaxRound with (Flt 65533 (-1)). change kMinRound with (Flt (-65535) (-1)).
  unfold fle, man_at. cbn [f_man f_exp]. change (Z.min 0 (-1)) with (-1).
  change (Z.min (-1) 0) with (-1). change (Z.min 0 0) with 0.
  rewrite Z.mul_0_l. change (2 ^ (-1 - -1)) with 1. change (2 ^ (0 - -1)) with 2.
  change (2 ^ (0 - 0)) with 1. rewrite !Z.mul_1_r.
  assert (Hs : forall k, Z.abs k <= 1 -> (0 < x -> k = 1) -> (x <= 0 -> k = -1) ->
      short_of_float (fadd (Flt x 0) (Flt k (-1))) = Ok x).
  { intros k Hk H1 H2. unfold fadd, man_at. cbn [f_man f_exp].
    change (Z.min 0 (-1)) with (-1). change (2 ^ (-1 - -1)) with 1.
    change (2 ^ (0 - -1)) with 2. rewrite fl_exact by (cbn; lia).
    unfold short_of_float, ftrunc. cbn [f_man f_exp]. change (0 <=? -1) with false.
    change (2 ^ (- -1)) with 2. cbv iota zeta.
    assert (E : Z.quot (x * 2 + k * 1) 2 = x) by (Z.to_euclidean_division_equations; lia).
    rewrite E. by rewrite (proj2 (Z.leb_le _ _)), (proj2 (Z.leb_le _ _)) by lia. }
  destruct (Z.leb_spec x 0); cbn [negb].
  - destruct (Z.leb_spec (x * 2) (-65535)); [f_equal; lia|].
    apply Hs; cbn; lia.
  - destruct (Z.leb_spec 65533 (x * 2)); [f_equal; lia|]. apply Hs; cbn; lia.
Qed.

(** Rounding to single precision does not leave a range of 16-bit integers. *)
Lemma fl_trunc_range m e lo hi :
  e < 0 -> INT16_MIN <= lo <= 0 -> 0 <= hi <= INT16_MAX ->
  lo * 2 ^ (- e) <= m <= hi * 2 ^ (- e) -> lo <= ftrunc (fl m e) <= hi.
Proof.
  intros He Hlo Hhi Hm. assert (Hp : 0 < 2 ^ (- e)) by (apply Z.pow_pos_nonneg; lia).
  assert (Hq : forall r k, 0 <= k -> lo * 2 ^ k <= r <= hi * 2 ^ k ->
             lo <= Z.quot r (2 ^ k) <= hi).
  { intros r k Hk Hr. assert (0 < 2 ^ k) by (apply Z.pow_pos_nonneg; lia).
    split; [apply Z.quot_le_lower_bound|apply Z.quot_le_upper_bound]; try lia. }
  unfold fl. cbv zeta. set (d := Z.log2 (Z.abs m) - 23).
  destruct (Z.leb_spec d 0).
  - unfold ftrunc. cbn [f_man f_exp]. rewrite (proj2 (Z.leb_gt _ _)) by lia.
    apply Hq; lia.
  - assert (Hd : d <= - e - 8).
    { assert (H1 : Z.log2 (Z.abs m) <= Z.log2 (2 ^ 15 * 2 ^ (- e))).
      { apply Z.log2_le_mono. change (2 ^ 15) with 32768. nia. }
      rewrite <- Z.pow_add_r, Z.log2_pow2 in H1 by lia. unfold d. lia. }
    unfold ftrunc. cbn [f_man f_exp]. rewrite (proj2 (Z.leb_gt _ _)) by lia.
    apply Hq; [lia|].
    assert (E : 2 ^ (- e) = 2 ^ (- (e + d)) * 2 ^ d)
      by (rewrite <- Z.pow_add_r by lia; f_equal; lia).
    rewrite E in Hm. apply round_even_range; [lia|]. lia.
Qed.

(** The conversion is defined for every [float] and saturates. *)
Lemma FloatS16ToS16_total v : exists x, FloatS16ToS16 v = Ok x /\ i16 x.
Proof.
  unfold FloatS16ToS16, i16. set (e := Z.min (f_exp v) (-1)).
  set (P := 2 ^ (-1 - e)). assert (HP : 0 < P) by (apply Z.pow_pos_nonneg; lia).
  assert (E2 : 2 ^ (- e) = 2 * P)
    by (unfold P; rewrite <- Z.pow_succ_r by lia; f_equal; lia).
  assert (Hfit : forall k, 32768 * (2 * P) + (man_at e v + k * P) >= 0 ->
     man_at e v + k * P <= 32767 * (2 * P) ->
     exists x, short_of_float (fadd v (Flt k (-1))) = Ok x /\ INT16_MIN <= x <= INT16_MAX).
  { intros k H1 H2. exists (ftrunc (fadd v (Flt k (-1)))).
    assert (Hr : INT16_MIN <= ftrunc (fadd v (Flt k (-1))) <= INT16_MAX).
    { apply (fl_trunc_range _ e); [lia|lia|lia|]. rewrite E2.
      unfold man_at at 2 4. cbn [f_man f_exp]. fold P e. lia. }
    split; [|done]. unfold short_of_float. by rewrite !(proj2 (Z.leb_le _ _)) by lia. }
  assert (Emax : fle kMaxRound v = (65533 * P <=? man_at e v)).
  { unfold fle. cbn [f_exp kMaxRound]. by rewrite Z.min_comm. }
  assert (Emin : fle v kMinRound = (man_at e v <=? -65535 * P)) by done.
  rewrite Emax, Emin.
  destruct (fle v (Flt 0 0)) eqn:E0; cbn [negb]; case_if; eauto with lia.
  - apply (Hfit (-1)); [lia|].
    unfold fle in E0. apply Z.leb_le in E0. unfold man_at in E0 at 2. cbn in E0.
    unfold man_at in *. nia.
  - apply (Hfit 1); [|lia].
    unfold fle in E0. apply Z.leb_gt in E0. unfold man_at in E0 at 1. cbn in E0.
    unfold man_at in *. nia.
Qed.

(** ** Scattered writes

    [wrote f mem mem']: [mem'] is [mem] with the partial function [f] from
    addresses to values written to it. *)

Definition wrote {A} (f : nat -> option A) (mem mem' : list A) : Prop :=
  length mem' = length mem /\
  forall a, (a < length mem)%nat ->
    mem' !! a = match f a with Some v => Some v | None => mem !! a end.

Lemma wrote_refl {A} (mem : list A) : wrote (fun _ => None) mem mem.
Proof. by split. Qed.

Lemma wrote_one {A} (mem : list A) a v :
  wrote (fun b => if decide (b = a) then Some v else None) mem (<[a := v]> mem).
Proof.
  split; [apply length_insert|]. intros b Hb. destruct (decide (b = a)) as [->|Hne].
  - by apply list_lookup_insert_eq.
  - by apply list_lookup_insert_ne.
Qed.

Lemma wrote_trans {A} f g (m1 m2 m3 : list A) :
  wrote f m1 m2 -> wrote g m2 m3 ->
  wrote (fun a => match g a with Some v => Some v | None => f a end) m1 m3.
Proof.
  intros [L1 H1] [L2 H2]. split; [congruence|]. intros a Ha.
  rewrite H2 by congruence. destruct (g a); [done|]. by apply H1.
Qed.

Lemma wrote_ext {A} f g (m1 m2 : list A) :
  wrote f m1 m2 -> (forall a, f a = g a) -> wrote g m1 m2.
Proof. intros [L H] E. split; [done|]. intros a Ha. by rewrite H, E. Qed.

(** A loop whose round [i] writes the function [f i], the functions having
    disjoint domains. *)
Lemma wp_loop_wrote {A} n (f : nat -> nat -> option A) body (mem : list A) :
  (forall i m, (i < n)%nat -> length m = length mem -> wp (body i m) (wrote (f i) m)) ->
  wp (loop n body mem) (fun mem' => length mem' = length mem /\
    forall a, (a < length mem)%nat ->
      (forall i v, (i < n)%nat -> f i a = Some v ->
         (forall j, (i < j < n)%nat -> f j a = None) -> mem' !! a = Some v) /\
      ((forall i, (i < n)%nat -> f i a = None) -> mem' !! a = mem !! a)).
Proof.
  intros Hbody. unfold loop. revert Hbody. induction n as [|n IH]; intros Hbody.
  { cbn. split; [done|]. intros a Ha. split; [|done]. intros; lia. }
  rewrite seq_S, each_app. apply wp_bind. eapply wp_mono.
  { apply IH. intros i m Hi. apply Hbody. lia. }
  intros m1 [L1 H1]. cbn [each]. apply wp_bind.
  eapply wp_mono; [apply (Hbody n m1); [lia|done]|].
  intros m2 [L2 H2]. cbn. split; [congruence|]. intros a Ha.
  rewrite H2 by lia. destruct (H1 a Ha) as [H3 H4]. split.
  - intros i v Hi Hf Hlast. destruct (decide (i = n)) as [->|Hne]; [by rewrite Hf|].
    rewrite (Hlast n) by lia. apply (H3 i); [lia|done|]. intros j Hj. apply Hlast. lia.
  - intros Hnone. rewrite (Hnone n) by lia. apply H4. intros i Hi. apply Hnone. lia.
Qed.

Lemma wp_loop_inv {S} (I : S -> Prop) n body (s : S) :
  I s -> (forall i t, (i < n)%nat -> I t -> wp (body i t) I) -> wp (loop n body s) I.
Proof.
  intros Hs Hbody. unfold loop. apply (wp_each I (fun i => (i < n)%nat)).
  - done.
  - apply Forall_forall. intros i Hi. apply in_seq in Hi. lia.
  - intros t i Ht Hi. by apply Hbody.
Qed.

(** An invariant with the index. *)
Lemma wp_loop_index {S} (I : nat -> S -> Prop) n body (s : S) :
  I 0%nat s -> (forall i t, (i < n)%nat -> I i t -> wp (body i t) (I (Datatypes.S i))) ->
  wp (loop n body s) (I n).
Proof.
  intros Hs Hbody. unfold loop.
  enough (H : forall k i t, (i + k = n)%nat -> I i t ->
            wp (each (fun t i => body i t) t (seq i k)) (I n)) by by apply (H n 0%nat).
  induction k as [|k IH]; intros i t Hi Ht.
  - replace n with i by lia. by apply wp_ret.
  - cbn [seq each]. apply wp_bind. eapply wp_mono; [apply Hbody; [lia|done]|].
    intros t' Ht'. apply IH; [lia|done].
Qed.

(** [n] values written from [p] on. *)
Definition at_range {A} (p : nat) (vs : list A) (a : nat) : option A :=
  if decide (p <= a)%nat then vs !! (a - p)%nat else None.

Lemma wp_loop_range {A} n (vs : list A) p body (mem : list A) :
  length vs = n -> (p + n <= length mem)%nat ->
  (forall i m v, vs !! i = Some v -> length m = length mem ->
     body i m = wr m (Z.of_nat (p + i)) v) ->
  wp (loop n body mem) (wrote (at_range p vs) mem).
Proof.
  intros Hn Hp Hbody. eapply wp_mono.
  { apply (wp_loop_wrote n (fun i b => if decide (b = p + i)%nat then vs !! i else None)).
    intros i m Hi Hm. destruct (lookup_lt_is_Some_2 vs i) as [v Hv]; [lia|].
    rewrite (Hbody i m v Hv Hm). apply wp_wr; [unfold zlen; lia|].
    rewrite Nat2Z.id. eapply wrote_ext; [apply wrote_one|]. intros a. by rewrite Hv. }
  intros m' [L H]. split; [done|]. intros a Ha. destruct (H a Ha) as [H1 H2].
  unfold at_range. destruct (decide (p <= a)%nat) as [Hpa|Hpa].
  - destruct (vs !! (a - p)%nat) as [v|] eqn:Ev.
    + apply (H1 (a - p)%nat); [apply lookup_lt_Some in Ev; lia| |].
      * rewrite decide_True by lia. done.
      * intros j Hj. rewrite decide_False by lia. done.
    + apply H2. intros i Hi. destruct (decide (a = p + i)%nat) as [->|]; [|done].
      by replace (p + i - p)%nat with i in Ev by lia.
  - apply H2. intros i Hi. rewrite decide_False by lia. done.
Qed.

(** ** Views *)

(** The [n] elements from pointer [p] on. *)
Definition view {A} (n p : nat) (mem : list A) : list A := take n (drop p mem).

Lemma lookup_view {A} n p (mem : list A) i :
  view n p mem !! i = if decide (i < n)%nat then mem !! (p + i)%nat else None.
Proof.
  unfold view. destruct (decide (i < n)%nat).
  - by rewrite lookup_take_lt, lookup_drop.
  - by rewrite lookup_take_ge by lia.
Qed.

Lemma length_view {A} n p (mem : list A) :
  (p + n <= length mem)%nat -> length (view n p mem) = n.
Proof. intros H. unfold view. rewrite length_take, length_drop. lia. Qed.

Lemma Forall_view {A} (P : A -> Prop) n p mem : Forall P mem -> Forall P (view n p mem).
Proof. intros H. by apply Forall_take, Forall_drop. Qed.

(** A memory whose cells from [p] on hold [vs]. *)
Lemma view_eq {A} p (vs mem : list A) :
  (forall i v, vs !! i = Some v -> mem !! (p + i)%nat = Some v) ->
  view (length vs) p mem = vs.
Proof.
  intros H. apply list_eq. intros i. rewrite lookup_view.
  destruct (decide (i < length vs)%nat) as [Hi|Hi].
  - destruct (lookup_lt_is_Some_2 vs i Hi) as [v Hv]. by rewrite Hv, (H i v Hv).
  - by rewrite lookup_ge_None_2 by lia.
Qed.

Lemma wrote_view {A} p (vs mem mem' : list A) :
  (p + length vs <= length mem)%nat -> wrote (at_range p vs) mem mem' ->
  view (length vs) p mem' = vs.
Proof.
  intros Hp [L H]. apply view_eq. intros i v Hv. pose proof (lookup_lt_Some _ _ _ Hv).
  rewrite H by lia. unfold at_range. rewrite decide_True by lia.
  by replace (p + i - p)%nat with i by lia; rewrite Hv.
Qed.

(** Views of the same memory that do not overlap what was written. *)
Lemma wrote_view_other {A} p q n (vs mem mem' : list A) :
  wrote (at_range p vs) mem mem' -> (q + n <= length mem)%nat ->
  (q + n <= p \/ p + length vs <= q)%nat -> view n q mem' = view n q mem.
Proof.
  intros [L H] Hq Hd. apply list_eq. intros i. rewrite !lookup_view.
  destruct (decide (i < n)%nat); [|done]. rewrite H by lia. unfold at_range.
  destruct (decide (p <= q + i)%nat); [|done].
  by rewrite lookup_ge_None_2 by lia.
Qed.

(** The elements 0, [step], 2 [step], ... of a list. *)
Fixpoint lane {A} (n step : nat) (xs : list A) : list A :=
  match n, xs with
  | S n', x :: _ => x :: lane n' step (drop step xs)
  | _, _ => []
  end.

Lemma lookup_lane {A} n step (xs : list A) j :
  lane n step xs !! j = if decide (j < n)%nat then xs !! (j * step)%nat else None.
Proof.
  revert xs j. induction n as [|n IH]; intros xs j; [done|]. destruct xs as [|x xs].
  - cbn [lane]. by destruct (decide _).
  - cbn [lane]. destruct j as [|j]; [done|]. rewrite lookup_cons, IH, lookup_drop.
    destruct (decide (j < n)%nat), (decide (S j < S n)%nat); done || lia.
Qed.

Lemma length_lane {A} n step (xs : list A) :
  (forall j, (j < n)%nat -> (j * step < length xs)%nat) -> length (lane n step xs) = n.
Proof.
  revert xs. induction n as [|n IH]; intros xs Hx; [done|].
  destruct xs as [|x xs]; [specialize (Hx 0%nat); cbn in Hx; lia|].
  cbn [lane]. rewrite length_cons, IH; [done|]. intros j Hj. rewrite length_drop.
  specialize (Hx (S j)). lia.
Qed.

(** Pointers to non-overlapping regions of [n] elements of a memory. *)
Record pointers_ok {A} (n k : nat) (ptrs : list nat) (mem : list A) : Prop := {
  ptr_count : (k <= length ptrs)%nat;
  ptr_range i p : (i < k)%nat -> ptrs !! i = Some p -> (p + n <= length mem)%nat;
  ptr_apart i j p q : (i < k)%nat -> (j < k)%nat -> i <> j ->
    ptrs !! i = Some p -> ptrs !! j = Some q -> (p + n <= q \/ q + n <= p)%nat
}.

Lemma ptr_get {A} n k ptrs (mem : list A) i :
  pointers_ok n k ptrs mem -> (i < k)%nat -> exists p, ptrs !! i = Some p.
Proof. intros H Hi. apply lookup_lt_is_Some_2. pose proof (ptr_count _ _ _ _ H). lia. Qed.

Lemma rd_Some {A} (l : list A) i v : l !! i = Some v -> rd l (Z.of_nat i) = Ok v.
Proof.
  intros E. unfold rd. rewrite (proj2 (Z.ltb_ge _ _)) by lia. by rewrite Nat2Z.id, E.
Qed.

(** A loop whose round [i] fills the region of pointer [i] with [vs i]. *)
Lemma wp_loop_regions {A} n k ptrs (vs : nat -> list A) body (mem : list A) :
  pointers_ok n k ptrs mem -> (forall i, (i < k)%nat -> length (vs i) = n) ->
  (forall i p m, (i < k)%nat -> ptrs !! i = Some p -> length m = length mem ->
     wp (body i m) (wrote (at_range p (vs i)) m)) ->
  wp (loop k body mem) (fun mem' => length mem' = length mem /\
    (forall i p, (i < k)%nat -> ptrs !! i = Some p -> view n p mem' = vs i) /\
    (forall q l, (q + l <= length mem)%nat ->
       (forall i p, (i < k)%nat -> ptrs !! i = Some p -> (q + l <= p \/ p + n <= q)%nat) ->
       view l q mem' = view l q mem)).
Proof.
  intros Hp Hlen Hbody.
  set (f := fun i a => match ptrs !! i with Some p => at_range p (vs i) a | None => None end).
  eapply wp_mono.
  { apply (wp_loop_wrote k f). intros i m Hi Hm. destruct (ptr_get _ _ _ _ i Hp Hi) as [p Ep].
    eapply wp_mono; [by apply (Hbody i p)|]. intros m' Hw. eapply wrote_ext; [exact Hw|].
    intros a. unfold f. by rewrite Ep. }
  intros mem' [L H]. split; [done|]. split.
  - intros i p Hi Ep. rewrite <- (Hlen i Hi). apply view_eq. intros j v Hv.
    pose proof (lookup_lt_Some _ _ _ Hv) as Hj. rewrite Hlen in Hj by done.
    pose proof (ptr_range _ _ _ _ Hp i p Hi Ep).
    apply (proj1 (H (p + j)%nat ltac:(lia)) i); [done| |].
    + unfold f. rewrite Ep. unfold at_range. rewrite decide_True by lia.
      by replace (p + j - p)%nat with j by lia.
    + intros i' Hi'. unfold f. destruct (ptrs !! i') as [q|] eqn:Eq; [|done].
      unfold at_range. destruct (decide (q <= p + j)%nat); [|done].
      pose proof (ptr_apart _ _ _ _ Hp i i' p q Hi ltac:(lia) ltac:(lia) Ep Eq).
      apply lookup_ge_None_2. rewrite Hlen by lia. lia.
  - intros q l Hq Hd. apply list_eq. intros j. rewrite !lookup_view.
    destruct (decide (j < l)%nat); [|done].
    apply (proj2 (H (q + j)%nat ltac:(lia))). intros i Hi. unfold f.
    destruct (ptrs !! i) as [p|] eqn:Ep; [|done]. unfold at_range.
    destruct (decide (p <= q + j)%nat); [|done]. specialize (Hd i p Hi Ep).
    apply lookup_ge_None_2. rewrite Hlen by done. lia.
Qed.

(** ** The routines *)

Lemma wp_Deinterleave {A} (xs : list A) n k ptrs (mem : list A) :
  pointers_ok n k ptrs mem -> (n * k <= length xs)%nat ->
  wp (Deinterleave xs n k ptrs mem) (fun mem' => length mem' = length mem /\
    (forall i p, (i < k)%nat -> ptrs !! i = Some p ->
       view n p mem' = lane n k (drop i xs)) /\
    (forall q l, (q + l <= length mem)%nat ->
       (forall i p, (i < k)%nat -> ptrs !! i = Some p -> (q + l <= p \/ p + n <= q)%nat) ->
       view l q mem' = view l q mem)).
Proof.
  intros Hp Hx.
  assert (Hlane : forall i, (i < k)%nat -> length (lane n k (drop i xs)) = n).
  { intros i Hi. apply length_lane. intros j Hj. rewrite length_drop. nia. }
  apply (wp_loop_regions n k ptrs (fun i => lane n k (drop i xs)) _ mem Hp Hlane).
  intros i p m Hi Ep Hm. rewrite (rd_Some _ _ _ Ep), bind_ok.
  pose proof (ptr_range _ _ _ _ Hp i p Hi Ep).
  apply wp_loop_range; [by apply Hlane|lia|]. intros j m' v Hv _.
  rewrite lookup_lane in Hv. destruct (decide (j < n)%nat); [|done].
  rewrite lookup_drop in Hv. by rewrite (rd_Some _ _ _ Hv), bind_ok.
Qed.

Lemma wp_Interleave {A} (mem : list A) ptrs n k (out : list A) :
  pointers_ok n k ptrs mem -> (n * k <= length out)%nat ->
  wp (Interleave mem ptrs n k out) (fun out' => length out' = length out /\
    (forall i p j, (i < k)%nat -> ptrs !! i = Some p -> (j < n)%nat ->
       out' !! (i + j * k)%nat = mem !! (p + j)%nat) /\
    drop (n * k) out' = drop (n * k) out).
Proof.
  intros Hp Ho.
  set (g := fun (i j b : nat) => if decide (b = i + j * k)%nat
         then match ptrs !! i with Some p => mem !! (p + j)%nat | None => None end else None).
  set (f := fun i b => if decide (b mod k = i /\ b / k < n)%nat then g i (b / k)%nat b else None).
  assert (Hdm : forall i j, (i < k)%nat ->
            ((i + j * k) mod k = i /\ (i + j * k) / k = j)%nat).
  { intros i j Hi. rewrite Nat.Div0.mod_add, Nat.div_add by lia.
    rewrite Nat.mod_small, Nat.div_small by lia. lia. }
  eapply wp_mono.
  { apply (wp_loop_wrote k f). intros i m Hi Hm.
    destruct (ptr_get _ _ _ _ i Hp Hi) as [p Ep].
    rewrite (rd_Some _ _ _ Ep), bind_ok. pose proof (ptr_range _ _ _ _ Hp i p Hi Ep).
    eapply wp_mono.
    { apply (wp_loop_wrote n (g i)). intros j m' Hj Hm'.
      destruct (lookup_lt_is_Some_2 mem (p + j)) as [v Hv]; [lia|].
      unfold deref. rewrite (rd_Some _ _ _ Hv), bind_ok.
      apply wp_wr; [unfold zlen; nia|]. rewrite Nat2Z.id.
      eapply wrote_ext; [apply wrote_one|]. intros a. unfold g. by rewrite Ep, Hv. }
    intros m' [L H']. split; [done|]. intros a Ha. destruct (H' a Ha) as [H1 H2].
    unfold f. destruct (decide (a mod k = i /\ a / k < n)%nat) as [[E1 E2]|Hno].
    - assert (Ea : a = (i + (a / k) * k)%nat) by (rewrite (Nat.div_mod_eq a k) at 1; lia).
      destruct (g i (a / k)%nat a) as [v|] eqn:Eg.
      + apply (H1 (a / k)%nat); [done|done|]. intros j Hj. unfold g.
        rewrite decide_False; [done|]. nia.
      + unfold g in Eg. rewrite decide_True, Ep in Eg by done.
        apply lookup_ge_None in Eg. lia.
    - apply H2. intros j Hj. unfold g. rewrite decide_False; [done|]. intros ->.
      apply Hno. destruct (Hdm i j Hi) as [-> ->]. done. }
  intros out' [L H]. split; [done|]. split.
  - intros i p j Hi Ep Hj. pose proof (ptr_range _ _ _ _ Hp i p Hi Ep).
    destruct (lookup_lt_is_Some_2 mem (p + j)) as [v Hv]; [lia|]. rewrite Hv.
    destruct (Hdm i j Hi) as [E1 E2].
    apply (proj1 (H (i + j * k)%nat ltac:(nia)) i); [done| |].
    + unfold f. rewrite E1, E2, decide_True by done. unfold g.
      by rewrite decide_True, Ep, Hv by done.
    + intros i' Hi'. unfold f. rewrite E1, decide_False by lia. done.
  - apply list_eq. intros a. rewrite !lookup_drop.
    destruct (decide (n * k + a < length out)%nat) as [Ha|Ha].
    + apply (proj2 (H _ Ha)). intros i Hi. unfold f. rewrite decide_False; [done|].
      intros [_ Hlt].
      pose proof (Nat.div_le_lower_bound (n * k + a) k n ltac:(lia) ltac:(lia)). lia.
    + rewrite !lookup_ge_None_2 by lia. done.
Qed.

(** Separating the channels and interleaving them again. *)
Lemma interleave_deinterleaved {A} (xs mem out : list A) n k ptrs :
  pointers_ok n k ptrs mem ->
  (forall i p, (i < k)%nat -> ptrs !! i = Some p -> view n p mem = lane n k (drop i xs)) ->
  (n * k <= length xs)%nat -> (n * k <= length out)%nat ->
  exists out', Interleave mem ptrs n k out = Ok out' /\
    take (n * k) out' = take (n * k) xs /\ drop (n * k) out' = drop (n * k) out.
Proof.
  intros Hp Hv Hx Ho.
  destruct (proj1 (wp_ok _ _) (wp_Interleave mem ptrs n k out Hp ltac:(lia)))
    as (out' & E & L & H & Hd).
  exists out'. split; [done|]. split; [|done].
  apply list_eq. intros a. destruct (decide (a < n * k)%nat) as [Ha|Ha].
  2:{ by rewrite !lookup_take_ge by lia. }
  rewrite !lookup_take_lt by done.
  assert (Hk : (0 < k)%nat) by lia.
  pose proof (Nat.mod_upper_bound a k ltac:(lia)) as Hm.
  pose proof (Nat.Div0.div_lt_upper_bound a k n ltac:(lia)) as Hq.
  destruct (ptr_get _ _ _ _ _ Hp Hm) as [p Ep]. specialize (Hv _ _ Hm Ep).
  apply (f_equal (.!! (a / k)%nat)) in Hv.
  rewrite lookup_view, lookup_lane, !decide_True, lookup_drop in Hv by lia.
  assert (Ea : (a mod k + a / k * k = a)%nat) by (rewrite (Nat.div_mod_eq a k) at 3; lia).
  rewrite Ea in Hv. rewrite <- Hv, <- (H _ p _ Hm Ep Hq). by rewrite Ea.
Qed.

(** ** Downmixing *)

(** The average of up to 65536 channels, truncated. *)
Lemma wp_downmix_sample first others k (xs : list Z) :
  first = rd xs 0 -> (forall j, (0 < j < k)%nat -> others j = rd xs (Z.of_nat j)) ->
  length xs = k -> (0 < k)%nat -> Z.of_nat k <= 65536 -> Forall i16 xs ->
  wp (downmix_sample first others k)
     (fun v => v = Z.quot (zsum xs) (Z.of_nat k) /\ i16 v).
Proof.
  intros E1 E2 Hl Hk0 Hk Hx. unfold downmix_sample. rewrite E1.
  destruct xs as [|x xs]; [cbn in Hl; lia|]. change (rd (x :: xs) 0) with (Ok x).
  assert (Hl1 : S (length xs) = k) by exact Hl.
  rewrite bind_ok. apply wp_bind.
  assert (Hsum : forall m, (m <= length xs)%nat ->
    wp (each (fun value j => y ← others j; add32 value y) x (seq 1 m))
       (fun v => v = zsum (x :: take m xs))).
  { induction m as [|m IH]; intros Hm.
    { rewrite take_0. cbn. lia. }
    rewrite seq_S, each_app. apply wp_bind. eapply wp_mono; [apply IH; lia|].
    intros v ->. cbn [each]. apply wp_bind.
    rewrite E2 by lia. destruct (lookup_lt_is_Some_2 xs m) as [y Hy]; [lia|].
    rewrite (rd_Some (x :: xs) (1 + m) y) by done. rewrite bind_ok.
    assert (Es : zsum (x :: take (S m) xs) = zsum (x :: take m xs) + y).
    { rewrite (take_S_r _ _ _ Hy), app_comm_cons, zsum_app. cbn. lia. }
    pose proof (zsum_bounds _ _ i16 (x :: take (S m) xs) (fun _ H => H)
      ltac:(constructor; [by inversion Hx|by apply Forall_take; inversion Hx])) as Hb.
    unfold zlen in Hb. rewrite length_cons, length_take in Hb.
    apply wp_add32; [unfold i32; lia|]. apply wp_ret. lia. }
  eapply wp_mono; [apply (Hsum (k - 1)%nat); lia|].
  intros v ->. rewrite take_ge by lia.
  pose proof (zsum_bounds _ _ i16 (x :: xs) (fun _ H => H) Hx) as Hb. unfold zlen in Hb. rewrite Hl in Hb.
  assert (Hq : i16 (Z.quot (zsum (x :: xs)) (Z.of_nat k))).
  { unfold i16. split; [apply Z.quot_le_lower_bound|apply Z.quot_le_upper_bound]; lia. }
  apply wp_bind, wp_div32; [lia|unfold i32, i16 in *; lia|].
  apply wp_ret. rewrite to_i16_id by done. done.
Qed.

Lemma wp_mapM {A B} (R : A -> B -> Prop) (f : A -> res B) l :
  Forall (fun x => wp (f x) (R x)) l -> wp (mapM f l) (Forall2 R l).
Proof.
  induction 1 as [|x l Hx _ IH]; cbn; [constructor|].
  apply wp_bind. eapply wp_mono; [exact Hx|]. intros y Hy.
  apply wp_bind. eapply wp_mono; [exact IH|]. intros ys Hys. by constructor.
Qed.

Lemma wp_map_seq {B} (R : nat -> B -> Prop) f n :
  (forall i, (i < n)%nat -> wp (f i) (R i)) ->
  wp (mapM f (seq 0 n))
     (fun ys => length ys = n /\ forall i y, ys !! i = Some y -> R i y).
Proof.
  intros H. eapply wp_mono.
  { apply (wp_mapM R). apply Forall_forall. intros i Hi. apply H.
    apply in_seq in Hi. lia. }
  intros ys Hys. pose proof (Forall2_length Hys) as L. rewrite length_seq in L.
  split; [done|]. intros i y Hy. pose proof (lookup_lt_Some _ _ _ Hy) as Hi.
  destruct (lookup_lt_is_Some_2 (seq 0 n) i) as [x Hx]; [rewrite length_seq; lia|].
  pose proof (Forall2_lookup_lr _ _ _ _ _ _ Hys Hx Hy) as HR.
  rewrite lookup_seq_lt in Hx by lia. by injection Hx as <-.
Qed.

(** The average of the [k] samples [i k], ..., [i k + k - 1]. *)
Lemma wp_DownmixInterleavedToMono xs n k :
  (0 < n)%nat -> (0 < k)%nat -> Z.of_nat k <= 65536 -> (n * k <= length xs)%nat ->
  Forall i16 xs ->
  wp (DownmixInterleavedToMono xs n k) (fun ys => length ys = n /\
    forall i y, ys !! i = Some y ->
      y = Z.quot (zsum (view k (i * k) xs)) (Z.of_nat k) /\ i16 y).
Proof.
  intros Hn Hk Hk' Hl Hx. unfold DownmixInterleavedToMono.
  rewrite !(proj2 (Nat.eqb_neq _ _)) by lia. cbn [orb].
  apply wp_map_seq. intros i Hi.
  assert (Hrd : forall j, (j < k)%nat ->
     rd xs (Z.of_nat (i * k + j)) = rd (view k (i * k) xs) (Z.of_nat j)).
  { intros j Hj. destruct (lookup_lt_is_Some_2 xs (i * k + j)) as [v Hv]; [nia|].
    rewrite (rd_Some _ _ _ Hv), (rd_Some _ j v); [done|].
    by rewrite lookup_view, decide_True. }
  apply wp_downmix_sample; [by apply (Hrd 0%nat)| | |done|done|by apply Forall_view].
  - intros j Hj. apply Hrd. lia.
  - apply length_view. nia.
Qed.

(** The average of the samples [i] of [k] channels. *)
Lemma wp_DownmixToMono mem ptrs n k :
  pointers_ok n k ptrs mem -> (0 < k)%nat -> Z.of_nat k <= 65536 -> Forall i16 mem ->
  wp (DownmixToMono mem ptrs n k) (fun ys => length ys = n /\
    forall i y, ys !! i = Some y ->
      y = Z.quot (zsum (omap (fun p => mem !! (p + i)%nat) (take k ptrs))) (Z.of_nat k) /\
      i16 y).
Proof.
  intros Hp Hk Hk' Hm. apply wp_map_seq. intros i Hi.
  assert (Hall : Forall (fun p => is_Some (mem !! (p + i)%nat)) (take k ptrs)).
  { apply Forall_lookup_2. intros j p Hj. pose proof (lookup_lt_Some _ _ _ Hj) as Hlt.
    rewrite length_take in Hlt. rewrite lookup_take_lt in Hj by lia.
    apply lookup_lt_is_Some_2. pose proof (ptr_range _ _ _ _ Hp j p ltac:(lia) Hj). lia. }
  assert (Hget : forall l : list nat, Forall (fun p => is_Some (mem !! (p + i)%nat)) l ->
     length (omap (fun p => mem !! (p + i)%nat) l) = length l /\
     forall j p, l !! j = Some p ->
       omap (fun p => mem !! (p + i)%nat) l !! j = mem !! (p + i)%nat).
  { induction 1 as [|p l [v Hv] _ [IH1 IH2]]; [done|]. cbn. rewrite Hv. cbn.
    split; [by rewrite IH1|]. intros [|j] q; cbn; [|by apply IH2]. by intros [= <-]. }
  destruct (Hget _ Hall) as [G1 G2]. rewrite length_take in G1.
  pose proof (ptr_count _ _ _ _ Hp) as Hc.
  assert (Hrd : forall j, (j < k)%nat ->
    (p ← rd ptrs (Z.of_nat j); deref mem p i) =
    rd (omap (fun p => mem !! (p + i)%nat) (take k ptrs)) (Z.of_nat j)).
  { intros j Hj. destruct (ptr_get _ _ _ _ j Hp Hj) as [p Ep].
    destruct (lookup_lt_is_Some_2 mem (p + i)) as [v Hv].
    { pose proof (ptr_range _ _ _ _ Hp j p Hj Ep). lia. }
    rewrite (rd_Some _ _ _ Ep), bind_ok. unfold deref. rewrite (rd_Some _ _ _ Hv).
    symmetry. apply rd_Some. rewrite (G2 j p); [done|]. by rewrite lookup_take_lt. }
  apply wp_downmix_sample; [by apply (Hrd 0%nat)| |lia|done|done|].
  - intros j Hj. apply Hrd. lia.
  - apply Forall_lookup_2. intros j v Hv%list_elem_of_lookup_2.
    apply list_elem_of_omap in Hv as (p & _ & Hv).
    by eapply Forall_lookup_1.
Qed.

(** Every channel of the result is the given one. *)
Lemma wp_UpmixMonoToInterleaved {A} (mem : list A) p n k (out : list A) :
  (p + n <= length mem)%nat -> (n * k <= length out)%nat ->
  wp (UpmixMonoToInterleaved mem p n k out) (fun out' => length out' = length out /\
    forall a, (a < length out)%nat ->
      out' !! a = if decide (a < n * k)%nat then mem !! (p + a / k)%nat else out !! a).
Proof.
  intros Hp Ho. unfold UpmixMonoToInterleaved. apply wp_bind.
  set (I := fun (idx : nat) '(o, c) => c = idx /\ length o = length out /\
    forall a, (a < length out)%nat ->
      o !! a = if decide (a < idx)%nat then mem !! (p + a / k)%nat else out !! a).
  assert (Hin : forall i m st, (i < n)%nat -> (m <= k)%nat -> I (i * k)%nat st ->
    wp (loop m (fun _ '(out, idx) => x ← deref mem p i;
          out ← wr out (Z.of_nat idx) x; Ok (out, S idx)) st) (I (i * k + m)%nat)).
  { intros i m st Hi Hm Hst. unfold loop. induction m as [|m IH].
    { cbn. by rewrite Nat.add_0_r. }
    rewrite seq_S, each_app. apply wp_bind. eapply wp_mono; [apply IH; lia|].
    intros [o c] (-> & Hlo & Ha). cbn [each]. apply wp_bind.
    destruct (lookup_lt_is_Some_2 mem (p + i)) as [v Hv]; [lia|].
    unfold deref. rewrite (rd_Some _ _ _ Hv), bind_ok.
    apply wp_bind, wp_wr; [unfold zlen; nia|]. apply wp_ret. apply wp_ret.
    rewrite Nat2Z.id. split; [lia|]. split; [by rewrite length_insert|].
    intros a Ha'. destruct (decide (a = i * k + m)%nat) as [->|Hne].
    - rewrite list_lookup_insert_eq, decide_True by lia.
      by rewrite (Nat.add_comm (i * k)), Nat.div_add, Nat.div_small by lia.
    - rewrite list_lookup_insert_ne, Ha by done.
      destruct (decide _), (decide _); done || lia. }
  assert (Hout : forall m, (m <= n)%nat ->
    wp (loop m (fun i st => loop k (fun _ '(out, idx) => x ← deref mem p i;
          out ← wr out (Z.of_nat idx) x; Ok (out, S idx)) st) (out, 0%nat)) (I (m * k)%nat)).
  { intros m Hm. induction m as [|m IH].
    { cbn. split; [done|]. split; [done|]. intros a _. by rewrite decide_False by lia. }
    unfold loop at 1. rewrite seq_S, each_app. apply wp_bind.
    eapply wp_mono; [apply IH; lia|]. intros st Hst. cbn [each]. apply wp_bind.
    eapply wp_mono; [apply (Hin m k st); [lia|done|exact Hst]|].
    intros st' Hst'. apply wp_ret. by rewrite Nat.add_comm in Hst'. }
  eapply wp_mono; [apply (Hout n); lia|]. intros [o c] (_ & H). by apply wp_ret.
Qed.
