(* ===== verification/ChannelBuffer.v ===== *)
(** * Channel buffers

    [common_audio/channel_buffer.h] and [channel_buffer.cc]: one contiguous array
    with two tables of pointers into it, by band and by channel
    ([ChannelBuffer]), and a pair of such buffers for integer and floating-point
    samples that are kept in sync ([IFChannelBuffer]). *)
From S2P Require Import Prelude CInt AudioUtil.

Record ChannelBuffer (A : Type) := MkChannels {
  cb_data : list A;
  cb_channels : list nat;
  cb_bands : list nat;
  cb_num_frames : nat;
  cb_num_frames_per_band : nat;
  cb_num_allocated_channels : nat;
  cb_num_channels : nat;
  cb_num_bands : nat
}.
Arguments MkChannels {A}.
Arguments cb_data {A}.
Arguments cb_channels {A}.
Arguments cb_bands {A}.
Arguments cb_num_frames {A}.
Arguments cb_num_frames_per_band {A}.
Arguments cb_num_allocated_channels {A}.
Arguments cb_num_channels {A}.
Arguments cb_num_bands {A}.

(** The pointer tables of the constructor. *)
Definition pointer_tables (num_frames num_channels num_bands : nat)
    : res (list nat * list nat) :=
  let per_band := (num_frames / num_bands)%nat in
  let blank := replicate (num_channels * num_bands) 0%nat in
  loop num_channels (fun i st =>
    loop num_bands (fun j '(channels, bands) =>
      channels ← wr channels (Z.of_nat (j * num_channels + i))
                   (i * num_frames + j * per_band)%nat;
      p ← rd channels (Z.of_nat (j * num_channels + i));
      bands ← wr bands (Z.of_nat (i * num_bands + j)) p;
      Ok (channels, bands)) st) (blank, blank).

Definition ChannelBuffer_new {A} (zero : A) (num_frames num_channels num_bands : nat)
    : res (ChannelBuffer A) :=
  if (num_bands =? 0)%nat then Fault DivByZero else
  '(channels, bands) ← pointer_tables num_frames num_channels num_bands;
  Ok (MkChannels (replicate (num_frames * num_channels) zero) channels bands num_frames
        (num_frames / num_bands) num_channels num_channels num_bands).

(** [channels(band)] and [bands(channel)]: pointers into the tables. *)
Definition channels {A} (b : ChannelBuffer A) (band : nat) : res (list nat) :=
  if (band <? cb_num_bands b)%nat
  then Ok (drop (band * cb_num_allocated_channels b) (cb_channels b))
  else Fault AssertionFailed.

Definition bands {A} (b : ChannelBuffer A) (channel : nat) : res (list nat) :=
  if (channel <? cb_num_channels b)%nat
  then Ok (drop (channel * cb_num_bands b) (cb_bands b))
  else Fault AssertionFailed.

Definition set_num_channels {A} (b : ChannelBuffer A) (num_channels : nat)
    : res (ChannelBuffer A) :=
  if (num_channels <=? cb_num_allocated_channels b)%nat
  then Ok (MkChannels (cb_data b) (cb_channels b) (cb_bands b) (cb_num_frames b)
             (cb_num_frames_per_band b) (cb_num_allocated_channels b) num_channels
             (cb_num_bands b))
  else Fault AssertionFailed.

(** The buffer after writes through its pointers. *)
Definition with_data {A} (b : ChannelBuffer A) (data : list A) : ChannelBuffer A :=
  MkChannels data (cb_channels b) (cb_bands b) (cb_num_frames b)
    (cb_num_frames_per_band b) (cb_num_allocated_channels b) (cb_num_channels b)
    (cb_num_bands b).

(** Reading [n] elements through a pointer, and writing some. *)
Definition fetch {A} (n p : nat) (mem : list A) : res (list A) :=
  if (p + n <=? length mem)%nat then Ok (view n p mem) else Fault OutOfBounds.

Definition put {A} (p : nat) (xs mem : list A) : res (list A) :=
  loop (length xs) (fun j mem =>
    x ← rd xs (Z.of_nat j); wr mem (Z.of_nat (p + j)) x) mem.

(** Pointers to frame [start_frame] of every visible channel, into the caller's
    array. *)
Definition Slice {A} (b : ChannelBuffer A) (slice : list nat) (start_frame : nat)
    : res (list nat) :=
  if negb (start_frame <? cb_num_frames b)%nat then Fault AssertionFailed else
  loop (cb_num_channels b) (fun i slice =>
    p ← rd (cb_channels b) (Z.of_nat i);
    wr slice (Z.of_nat i) (p + start_frame)%nat) slice.

Definition cb_total {A} (b : ChannelBuffer A) : nat :=
  (cb_num_frames b * cb_num_allocated_channels b)%nat.

Definition SetDataForTesting {A} (b : ChannelBuffer A) (data : list A) (size : nat)
    : res (ChannelBuffer A) :=
  if negb (size =? cb_total b)%nat then Fault AssertionFailed else
  xs ← fetch size 0 data;
  d ← put 0 xs (cb_data b);
  Ok (with_data b d).

(** ** Integer and floating-point samples *)

Record IFChannelBuffer := MkIF {
  ivalid_ : bool; ibuf_ : ChannelBuffer Z; fvalid_ : bool; fbuf_ : ChannelBuffer float
}.

Definition IFChannelBuffer_new (num_frames num_channels num_bands : nat)
    : res IFChannelBuffer :=
  i ← ChannelBuffer_new 0 num_frames num_channels num_bands;
  f ← ChannelBuffer_new (Flt 0 0) num_frames num_channels num_bands;
  Ok (MkIF true i true f).

Definition RefreshF (b : IFChannelBuffer) : res IFChannelBuffer :=
  if fvalid_ b then Ok b else
  if negb (ivalid_ b) then Fault AssertionFailed else
  let i := ibuf_ b in
  f ← set_num_channels (fbuf_ b) (cb_num_channels i);
  int_channels ← channels i 0;
  float_channels ← channels f 0;
  data ← loop (cb_num_channels i) (fun c data =>
    p ← rd int_channels (Z.of_nat c);
    q ← rd float_channels (Z.of_nat c);
    loop (cb_num_frames i) (fun j data =>
      x ← deref (cb_data i) p j;
      wr data (Z.of_nat (q + j)) (float_of_int x)) data) (cb_data f);
  Ok (MkIF (ivalid_ b) i true (with_data f data)).

Definition RefreshI (b : IFChannelBuffer) : res IFChannelBuffer :=
  if ivalid_ b then Ok b else
  if negb (fvalid_ b) then Fault AssertionFailed else
  let f := fbuf_ b in
  int_channels ← channels (ibuf_ b) 0;
  i ← set_num_channels (ibuf_ b) (cb_num_channels f);
  float_channels ← channels f 0;
  data ← loop (cb_num_channels f) (fun c data =>
    p ← rd float_channels (Z.of_nat c);
    q ← rd int_channels (Z.of_nat c);
    loop (cb_num_frames i) (fun j data =>
      v ← deref (cb_data f) p j;
      x ← FloatS16ToS16 v;
      wr data (Z.of_nat (q + j)) x) data) (cb_data i);
  Ok (MkIF true (with_data i data) (fvalid_ b) f).

(** The accessors return the buffer in the fields [ibuf_] and [fbuf_]. *)
Definition ibuf (b : IFChannelBuffer) : res IFChannelBuffer :=
  b ← RefreshI b; Ok (MkIF (ivalid_ b) (ibuf_ b) false (fbuf_ b)).
Definition fbuf (b : IFChannelBuffer) : res IFChannelBuffer :=
  b ← RefreshF b; Ok (MkIF false (ibuf_ b) (fvalid_ b) (fbuf_ b)).
Definition ibuf_const (b : IFChannelBuffer) : res IFChannelBuffer := RefreshI b.
Definition fbuf_const (b : IFChannelBuffer) : res IFChannelBuffer := RefreshF b.

Definition if_num_channels (b : IFChannelBuffer) : nat :=
  if ivalid_ b then cb_num_channels (ibuf_ b) else cb_num_channels (fbuf_ b).

Definition if_set_num_channels (b : IFChannelBuffer) (num_channels : nat)
    : res IFChannelBuffer :=
  i ← set_num_channels (ibuf_ b) num_channels;
  f ← set_num_channels (fbuf_ b) num_channels;
  Ok (MkIF (ivalid_ b) i (fvalid_ b) f).

(** * Lemmas *)

Record cb_ok {A} (b : ChannelBuffer A) : Prop := {
  cb_size : length (cb_data b) = (cb_num_frames b * cb_num_allocated_channels b)%nat;
  cb_split : (cb_num_frames_per_band b * cb_num_bands b <= cb_num_frames b)%nat;
  cb_visible : (cb_num_channels b <= cb_num_allocated_channels b)%nat;
  cb_by_channel i j :
    (i < cb_num_allocated_channels b)%nat -> (j < cb_num_bands b)%nat ->
    cb_channels b !! (j * cb_num_allocated_channels b + i)%nat =
      Some (i * cb_num_frames b + j * cb_num_frames_per_band b)%nat;
  cb_by_band i j :
    (i < cb_num_allocated_channels b)%nat -> (j < cb_num_bands b)%nat ->
    cb_bands b !! (i * cb_num_bands b + j)%nat =
      Some (i * cb_num_frames b + j * cb_num_frames_per_band b)%nat
}.

(** A table filled row by row. *)
Definition filled (rows cols : nat) (at_ : nat -> nat -> nat)
    (val : nat -> nat -> nat) (k m : nat) (t : list nat) : Prop :=
  length t = (rows * cols)%nat /\
  forall i j, (i < rows)%nat -> (j < cols)%nat -> (i < k \/ i = k /\ j < m)%nat ->
    t !! at_ i j = Some (val i j).

Lemma filled_step rows cols at_ val k m t :
  (forall i j i' j', (i < rows)%nat -> (j < cols)%nat -> (i' < rows)%nat ->
     (j' < cols)%nat -> at_ i j = at_ i' j' -> i = i' /\ j = j') ->
  (forall i j, (i < rows)%nat -> (j < cols)%nat -> (at_ i j < rows * cols)%nat) ->
  filled rows cols at_ val k m t -> (k < rows)%nat -> (m < cols)%nat ->
  filled rows cols at_ val k (S m) (<[at_ k m := val k m]> t).
Proof.
  intros Hinj Hr [L H] Hk Hm. split; [by rewrite length_insert|].
  intros i j Hi Hj Hbefore. destruct (decide (i = k /\ j = m)) as [[-> ->]|Hne].
  - apply list_lookup_insert_eq. rewrite L. by apply Hr.
  - rewrite list_lookup_insert_ne; [apply H; [done|done|]; lia|].
    intros E. apply Hne. destruct (Hinj k m i j Hk Hm Hi Hj E). by subst.
Qed.

Lemma wp_pointer_tables nf nc nb :
  (0 < nb)%nat ->
  wp (pointer_tables nf nc nb) (fun '(ch, ba) =>
    (forall i j, (i < nc)%nat -> (j < nb)%nat ->
       ch !! (j * nc + i)%nat = Some (i * nf + j * (nf / nb))%nat) /\
    (forall i j, (i < nc)%nat -> (j < nb)%nat ->
       ba !! (i * nb + j)%nat = Some (i * nf + j * (nf / nb))%nat)).
Proof.
  intros Hb. unfold pointer_tables. cbv zeta.
  set (val := fun i j => (i * nf + j * (nf / nb))%nat).
  set (at1 := fun i j => (j * nc + i)%nat). set (at2 := fun i j => (i * nb + j)%nat).
  set (I := fun k m '(ch, ba) =>
         filled nc nb at1 val k m ch /\ filled nc nb at2 val k m ba).
  assert (J1 : forall i j i' j', (i < nc)%nat -> (j < nb)%nat -> (i' < nc)%nat ->
     (j' < nb)%nat -> at1 i j = at1 i' j' -> i = i' /\ j = j').
  { unfold at1. intros. assert (j = j') by nia. subst. split; lia. }
  assert (J2 : forall i j i' j', (i < nc)%nat -> (j < nb)%nat -> (i' < nc)%nat ->
     (j' < nb)%nat -> at2 i j = at2 i' j' -> i = i' /\ j = j').
  { unfold at2. intros. assert (i = i') by nia. subst. split; lia. }
  assert (R1 : forall i j, (i < nc)%nat -> (j < nb)%nat -> (at1 i j < nc * nb)%nat)
    by (unfold at1; nia).
  assert (R2 : forall i j, (i < nc)%nat -> (j < nb)%nat -> (at2 i j < nc * nb)%nat)
    by (unfold at2; nia).
  assert (Hin : forall i m st, (i < nc)%nat -> (m <= nb)%nat -> I i 0%nat st ->
    wp (loop m (fun j '(ch, ba) =>
          ch ← wr ch (Z.of_nat (at1 i j)) (val i j); p ← rd ch (Z.of_nat (at1 i j));
          ba ← wr ba (Z.of_nat (at2 i j)) p; Ok (ch, ba)) st) (I i m)).
  { intros i m st Hi Hm Hst. unfold loop. induction m as [|m IH]; [done|].
    rewrite seq_S, each_app. apply wp_bind. eapply wp_mono; [apply IH; lia|].
    intros [ch ba] [F1 F2]. cbn [each Nat.add]. apply wp_bind.
    pose proof (R1 i m Hi Hm). pose proof (R2 i m Hi Hm).
    apply wp_bind, wp_wr; [unfold zlen; rewrite (proj1 F1); lia|]. rewrite Nat2Z.id.
    rewrite (rd_Some _ _ (val i m)), bind_ok
      by (apply list_lookup_insert_eq; rewrite (proj1 F1); lia).
    apply wp_bind, wp_wr; [unfold zlen; rewrite (proj1 F2); lia|]. rewrite Nat2Z.id.
    do 2 apply wp_ret. split; by apply filled_step. }
  assert (Hout : forall k, (k <= nc)%nat ->
    wp (loop k (fun i st => loop nb (fun j '(ch, ba) =>
          ch ← wr ch (Z.of_nat (at1 i j)) (val i j); p ← rd ch (Z.of_nat (at1 i j));
          ba ← wr ba (Z.of_nat (at2 i j)) p; Ok (ch, ba)) st)
          (replicate (nc * nb) 0%nat, replicate (nc * nb) 0%nat)) (I k 0%nat)).
  { induction k as [|k IH]; intros Hk.
    { split; (split; [apply length_replicate|]); intros; lia. }
    unfold loop at 1. rewrite seq_S, each_app. apply wp_bind.
    eapply wp_mono; [apply IH; lia|]. intros st Hst. cbn [each Nat.add]. apply wp_bind.
    eapply wp_mono; [apply (Hin k nb st); [lia|done|exact Hst]|].
    intros [ch ba] [[L1 F1] [L2 F2]]. apply wp_ret.
    split; (split; [done|]); intros i j Hi Hj Hbefore; [apply F1|apply F2]; lia. }
  eapply wp_mono; [apply (Hout nc); lia|]. intros [ch ba] [[_ F1] [_ F2]].
  split; intros i j Hi Hj; [apply F1|apply F2]; lia.
Qed.

Lemma wp_ChannelBuffer_new {A} (zero : A) nf nc nb :
  (0 < nb)%nat ->
  wp (ChannelBuffer_new zero nf nc nb) (fun b => cb_ok b /\
    cb_data b = replicate (nf * nc) zero /\ cb_num_frames b = nf /\
    cb_num_frames_per_band b = (nf / nb)%nat /\ cb_num_allocated_channels b = nc /\
    cb_num_channels b = nc /\ cb_num_bands b = nb).
Proof.
  intros Hb. unfold ChannelBuffer_new. rewrite (proj2 (Nat.eqb_neq _ _)) by lia.
  apply wp_bind. eapply wp_mono; [by apply wp_pointer_tables|].
  intros [ch ba] [H1 H2]. apply wp_ret. split; [|done]. constructor; cbn; try done.
  - apply length_replicate.
  - rewrite Nat.mul_comm. apply Nat.Div0.mul_div_le.
Qed.

(** The start of the samples of a band of a channel. *)
Definition cb_start {A} (b : ChannelBuffer A) (i j : nat) : nat :=
  (i * cb_num_frames b + j * cb_num_frames_per_band b)%nat.

Lemma cb_start_range {A} (b : ChannelBuffer A) i j :
  cb_ok b -> (i < cb_num_allocated_channels b)%nat -> (j < cb_num_bands b)%nat ->
  (cb_start b i j + cb_num_frames_per_band b <= length (cb_data b))%nat.
Proof.
  intros H Hi Hj. rewrite (cb_size _ H). pose proof (cb_split _ H).
  unfold cb_start. nia.
Qed.

Lemma cb_start_apart {A} (b : ChannelBuffer A) i j i' j' :
  cb_ok b -> (j < cb_num_bands b)%nat -> (j' < cb_num_bands b)%nat ->
  (i <> i' \/ j <> j') ->
  (cb_start b i j + cb_num_frames_per_band b <= cb_start b i' j' \/
   cb_start b i' j' + cb_num_frames_per_band b <= cb_start b i j)%nat.
Proof.
  intros H Hj Hj' Hne. pose proof (cb_split _ H). unfold cb_start.
  destruct (Nat.lt_trichotomy i i') as [Hlt|[->|Hlt]]; [left; nia| |right; nia].
  destruct (Nat.lt_trichotomy j j') as [Hlt|[->|Hlt]]; [left; nia|lia|right; nia].
Qed.

Lemma channels_ok {A} (b : ChannelBuffer A) j :
  (j < cb_num_bands b)%nat ->
  channels b j = Ok (drop (j * cb_num_allocated_channels b) (cb_channels b)).
Proof. intros Hj. unfold channels. by rewrite (proj2 (Nat.ltb_lt _ _)). Qed.

Lemma bands_ok_ptr {A} (b : ChannelBuffer A) i :
  (i < cb_num_channels b)%nat -> bands b i = Ok (drop (i * cb_num_bands b) (cb_bands b)).
Proof. intros Hi. unfold bands. by rewrite (proj2 (Nat.ltb_lt _ _)). Qed.

Lemma channel_pointer {A} (b : ChannelBuffer A) i j :
  cb_ok b -> (i < cb_num_allocated_channels b)%nat -> (j < cb_num_bands b)%nat ->
  drop (j * cb_num_allocated_channels b) (cb_channels b) !! i = Some (cb_start b i j).
Proof. intros H Hi Hj. rewrite lookup_drop. by apply cb_by_channel. Qed.

Lemma band_pointer {A} (b : ChannelBuffer A) i j :
  cb_ok b -> (i < cb_num_allocated_channels b)%nat -> (j < cb_num_bands b)%nat ->
  drop (i * cb_num_bands b) (cb_bands b) !! j = Some (cb_start b i j).
Proof. intros H Hi Hj. rewrite lookup_drop. by apply cb_by_band. Qed.

Lemma table_count (f : nat -> nat) (l : list nat) k :
  (forall i, (i < k)%nat -> l !! i = Some (f i)) -> (k <= length l)%nat.
Proof.
  intros H. destruct k as [|k]; [lia|]. specialize (H k ltac:(lia)).
  apply lookup_lt_Some in H. lia.
Qed.

(** The channels of a band; the first band of every channel is followed by the
    others, so that its pointers also reach all frames. *)
Lemma channels_pointers {A} (b : ChannelBuffer A) j k :
  cb_ok b -> (j < cb_num_bands b)%nat -> (k <= cb_num_allocated_channels b)%nat ->
  pointers_ok (cb_num_frames_per_band b) k
    (drop (j * cb_num_allocated_channels b) (cb_channels b)) (cb_data b).
Proof.
  intros H Hj Hk. pose proof (fun i Hi => channel_pointer b i j H Hi Hj) as P.
  constructor.
  - apply (table_count (fun i => cb_start b i j)). intros i Hi. apply P. lia.
  - intros i p Hi Ep. rewrite P in Ep by lia. injection Ep as <-.
    by apply cb_start_range; [|lia|].
  - intros i i' p q Hi Hi' Hne Ep Eq. rewrite P in Ep, Eq by lia.
    injection Ep as <-. injection Eq as <-. by apply cb_start_apart; [| | |left].
Qed.

Lemma frames_pointers {A} (b : ChannelBuffer A) k :
  cb_ok b -> (0 < cb_num_bands b)%nat -> (k <= cb_num_allocated_channels b)%nat ->
  pointers_ok (cb_num_frames b) k
    (drop (0 * cb_num_allocated_channels b) (cb_channels b)) (cb_data b).
Proof.
  intros H Hb Hk. pose proof (fun i Hi => channel_pointer b i 0 H Hi Hb) as P.
  constructor.
  - apply (table_count (fun i => cb_start b i 0)). intros i Hi. apply P. lia.
  - intros i p Hi Ep. rewrite P in Ep by lia. injection Ep as <-.
    rewrite (cb_size _ H). unfold cb_start. nia.
  - intros i i' p q Hi Hi' Hne Ep Eq. rewrite P in Ep, Eq by lia.
    injection Ep as <-. injection Eq as <-. unfold cb_start.
    destruct (Nat.lt_trichotomy i i') as [Hlt|[->|Hlt]]; [left; nia|lia|right; nia].
Qed.

Lemma wp_put {A} p (xs mem : list A) :
  (p + length xs <= length mem)%nat -> wp (put p xs mem) (wrote (at_range p xs) mem).
Proof.
  intros Hp. apply wp_loop_range; [done|done|]. intros j m v Hv _.
  by rewrite (rd_Some _ _ _ Hv), bind_ok.
Qed.

Lemma fetch_ok {A} n p (mem : list A) :
  (p + n <= length mem)%nat -> fetch n p mem = Ok (view n p mem).
Proof. intros H. unfold fetch. by rewrite (proj2 (Nat.leb_le _ _)). Qed.

Lemma cb_ok_data {A} (b : ChannelBuffer A) d :
  cb_ok b -> length d = length (cb_data b) -> cb_ok (with_data b d).
Proof. intros [] Hd. constructor; cbn; congruence || done. Qed.

(** A slice designates the frames from [start] on of each channel. *)
Lemma Slice_spec {A} (b : ChannelBuffer A) slice start :
  cb_ok b -> (0 < cb_num_bands b)%nat -> (start < cb_num_frames b)%nat ->
  (cb_num_channels b <= length slice)%nat ->
  wp (Slice b slice start) (fun slice' => length slice' = length slice /\
    forall i, (i < cb_num_channels b)%nat ->
      slice' !! i = Some (i * cb_num_frames b + start)%nat).
Proof.
  intros H Hb Hs Hl. unfold Slice. rewrite (proj2 (Nat.ltb_lt _ _)) by done. cbn [negb].
  pose proof (cb_visible _ H) as Hvis.
  apply (wp_loop_index (fun i s => length s = length slice /\
      forall j, (j < i)%nat -> s !! j = Some (j * cb_num_frames b + start)%nat)).
  { split; [done|lia]. }
  intros i s Hi [Ls Hj]. pose proof (cb_by_channel _ H i 0 ltac:(lia) Hb) as Ep.
  rewrite Nat.mul_0_l, Nat.add_0_l, Nat.mul_0_l, Nat.add_0_r in Ep.
  rewrite (rd_Some _ _ _ Ep), bind_ok. apply wp_wr; [unfold zlen; lia|]. rewrite Nat2Z.id.
  split; [by rewrite length_insert|]. intros j Hj'. destruct (decide (j = i)) as [->|Hne].
  - by rewrite list_lookup_insert_eq by lia.
  - rewrite list_lookup_insert_ne by done. apply Hj. lia.
Qed.

(** The array given to [SetDataForTesting] becomes the array of the buffer. *)
Lemma SetDataForTesting_spec {A} (b : ChannelBuffer A) data :
  cb_ok b -> length data = cb_total b ->
  SetDataForTesting b data (cb_total b) = Ok (with_data b data).
Proof.
  intros H L. unfold SetDataForTesting. rewrite Nat.eqb_refl. cbn [negb].
  rewrite fetch_ok, bind_ok by lia. unfold view. rewrite drop_0, take_ge by lia.
  assert (Ld : length (cb_data b) = length data) by (rewrite L; apply (cb_size _ H)).
  destruct (proj1 (wp_ok _ _) (wp_put 0 data (cb_data b) ltac:(lia))) as (d & -> & Hw).
  rewrite bind_ok. do 2 f_equal.
  transitivity (view (length data) 0 d).
  - unfold view. destruct Hw as [Lw _]. by rewrite drop_0, take_ge by lia.
  - apply (wrote_view _ _ (cb_data b)); [lia|done].
Qed.

Lemma cb_ok_visible {A} (b : ChannelBuffer A) k :
  cb_ok b -> (k <= cb_num_allocated_channels b)%nat ->
  exists b', set_num_channels b k = Ok b' /\ cb_ok b' /\ cb_data b' = cb_data b /\
    cb_num_frames b' = cb_num_frames b /\ cb_num_bands b' = cb_num_bands b /\
    cb_num_frames_per_band b' = cb_num_frames_per_band b /\
    cb_num_allocated_channels b' = cb_num_allocated_channels b /\
    cb_channels b' = cb_channels b /\ cb_bands b' = cb_bands b /\ cb_num_channels b' = k.
Proof.
  intros [] Hk. unfold set_num_channels. rewrite (proj2 (Nat.leb_le _ _)) by done.
  eexists. split; [done|]. split; [by constructor|done].
Qed.

(** ** Integer and floating-point samples *)

(** Both buffers have the same shape, and one of them is up to date. *)
Record if_ok (b : IFChannelBuffer) : Prop := {
  if_int : cb_ok (ibuf_ b);
  if_float : cb_ok (fbuf_ b);
  if_valid : ivalid_ b || fvalid_ b = true;
  if_bands : (0 < cb_num_bands (ibuf_ b))%nat;
  if_same : cb_num_frames (fbuf_ b) = cb_num_frames (ibuf_ b) /\
    cb_num_bands (fbuf_ b) = cb_num_bands (ibuf_ b) /\
    cb_num_frames_per_band (fbuf_ b) = cb_num_frames_per_band (ibuf_ b) /\
    cb_num_allocated_channels (fbuf_ b) = cb_num_allocated_channels (ibuf_ b);
  if_samples : Forall i16 (cb_data (ibuf_ b))
}.

(** Samples of a visible channel. *)
Definition channel {A} (b : ChannelBuffer A) (i : nat) : list A :=
  view (cb_num_frames b) (i * cb_num_frames b) (cb_data b).

Lemma wp_RefreshF b :
  if_ok b -> fvalid_ b = false ->
  wp (RefreshF b) (fun b' => if_ok b' /\ ibuf_ b' = ibuf_ b /\ ivalid_ b' = true /\
    fvalid_ b' = true /\ cb_num_channels (fbuf_ b') = cb_num_channels (ibuf_ b) /\
    forall i, (i < cb_num_channels (ibuf_ b))%nat ->
      channel (fbuf_ b') i = map float_of_int (channel (ibuf_ b) i)).
Proof.
  intros H Hf. unfold RefreshF. rewrite Hf.
  pose proof (if_valid _ H) as Hv. rewrite Hf, orb_false_r in Hv. rewrite Hv. cbn [negb].
  destruct (if_same _ H) as (S1 & S2 & S3 & S4).
  pose proof (cb_visible _ (if_int _ H)) as Hvis. pose proof (if_bands _ H) as Hb.
  destruct (cb_ok_visible (fbuf_ b) (cb_num_channels (ibuf_ b)) (if_float _ H) ltac:(lia))
    as (f & Ef & Hfok & Fd & F1 & F2 & F3 & F4 & F5 & F6 & F7).
  cbv zeta. rewrite Ef, bind_ok. rewrite !channels_ok by lia. rewrite !bind_ok.
  apply wp_bind. set (k := cb_num_channels (ibuf_ b)) in *.
  pose proof (frames_pointers (ibuf_ b) k (if_int _ H) Hb ltac:(lia)) as Pi.
  pose proof (frames_pointers f k Hfok ltac:(lia) ltac:(lia)) as Pf.
  eapply wp_mono.
  { apply (wp_loop_regions (cb_num_frames f) k _
      (fun i => map float_of_int (channel (ibuf_ b) i)) _ _ Pf).
    - intros i Hi. rewrite length_map. unfold channel. rewrite length_view; [lia|].
      rewrite (cb_size _ (if_int _ H)). nia.
    - intros i q m Hi Eq Hm.
      pose proof (channel_pointer (ibuf_ b) i 0 (if_int _ H) ltac:(lia) Hb) as Ep.
      pose proof (channel_pointer f i 0 Hfok ltac:(lia) ltac:(lia)) as Eq'.
      rewrite (rd_Some _ _ _ Ep), bind_ok, (rd_Some _ _ _ Eq), bind_ok.
      pose proof (ptr_range _ _ _ _ Pf i q Hi Eq).
      assert (Hlen : length (channel (ibuf_ b) i) = cb_num_frames (ibuf_ b)).
      { apply length_view. rewrite (cb_size _ (if_int _ H)). nia. }
      apply wp_loop_range; [by rewrite length_map|lia|].
      intros j m' v Hv' _. rewrite list_lookup_fmap in Hv'.
      destruct (channel (ibuf_ b) i !! j) as [x|] eqn:Ex; [|done]. injection Hv' as <-.
      unfold channel in Ex. rewrite lookup_view in Ex.
      destruct (decide (j < cb_num_frames (ibuf_ b))%nat); [|done].
      unfold deref. rewrite (rd_Some _ _ x), bind_ok; [done|].
      unfold cb_start. by rewrite Nat.mul_0_l, Nat.add_0_r. }
  intros d (L & Hd & _). apply wp_ret. cbn [ibuf_ fbuf_ ivalid_ fvalid_].
  split; [|split; [done|split; [done|split; [done|split; [done|]]]]].
  - constructor; cbn [ibuf_ fbuf_ ivalid_ fvalid_]; try apply H.
    + by apply cb_ok_data.
    + apply orb_true_r.
    + cbn. rewrite F1, F2, F3, F4. done.
  - intros i Hi. rewrite <- (Hd i (cb_start f i 0) Hi).
    + unfold channel, cb_start. cbn. by rewrite Nat.add_0_r.
    + by apply channel_pointer; [|lia|lia].
Qed.

(** The sample a float is converted to. *)
Definition s16 (v : float) : Z :=
  match FloatS16ToS16 v with Ok x => x | Fault _ => 0 end.

Lemma s16_spec v : FloatS16ToS16 v = Ok (s16 v) /\ i16 (s16 v).
Proof. unfold s16. by destruct (FloatS16ToS16_total v) as (x & -> & Hx). Qed.

Lemma s16_int x : i16 x -> s16 (float_of_int x) = x.
Proof. intros Hx. unfold s16. by rewrite FloatS16ToS16_int. Qed.

Lemma wp_RefreshI b :
  if_ok b -> ivalid_ b = false ->
  wp (RefreshI b) (fun b' => if_ok b' /\ fbuf_ b' = fbuf_ b /\ ivalid_ b' = true /\
    fvalid_ b' = true /\ cb_num_channels (ibuf_ b') = cb_num_channels (fbuf_ b) /\
    forall i, (i < cb_num_channels (fbuf_ b))%nat ->
      channel (ibuf_ b') i = map s16 (channel (fbuf_ b) i)).
Proof.
  intros H Hi. unfold RefreshI. rewrite Hi.
  pose proof (if_valid _ H) as Hv. rewrite Hi in Hv. cbn [orb] in Hv. rewrite Hv.
  cbn [negb]. destruct (if_same _ H) as (S1 & S2 & S3 & S4).
  pose proof (cb_visible _ (if_float _ H)) as Hvis. pose proof (if_bands _ H) as Hb.
  destruct (cb_ok_visible (ibuf_ b) (cb_num_channels (fbuf_ b)) (if_int _ H) ltac:(lia))
    as (f & Ef & Hfok & Fd & F1 & F2 & F3 & F4 & F5 & F6 & F7).
  cbv zeta. rewrite (channels_ok (ibuf_ b)), bind_ok, Ef, bind_ok, channels_ok, bind_ok by lia.
  apply wp_bind. set (k := cb_num_channels (fbuf_ b)) in *.
  pose proof (frames_pointers (fbuf_ b) k (if_float _ H) ltac:(lia) ltac:(lia)) as Pf.
  pose proof (frames_pointers f k Hfok ltac:(lia) ltac:(lia)) as Pi.
  rewrite F4, F5 in Pi.
  assert (Hlen : forall i, (i < k)%nat ->
     length (channel (fbuf_ b) i) = cb_num_frames (fbuf_ b)).
  { intros i Hi'. apply length_view. rewrite (cb_size _ (if_float _ H)). nia. }
  assert (Hsrc : forall i j, (i < k)%nat -> (j < cb_num_frames f)%nat ->
     exists v, deref (cb_data (fbuf_ b)) (cb_start (fbuf_ b) i 0) j = Ok v /\
       channel (fbuf_ b) i !! j = Some v).
  { intros i j Hi' Hj. destruct (lookup_lt_is_Some_2 (channel (fbuf_ b) i) j) as [v Ev].
    { rewrite Hlen by done. lia. }
    exists v. split; [|done]. unfold channel in Ev. rewrite lookup_view in Ev.
    destruct (decide _); [|done]. apply rd_Some. unfold cb_start.
    by rewrite Nat.mul_0_l, Nat.add_0_r. }
  assert (Hq : forall i, (i < k)%nat ->
     drop (0 * cb_num_allocated_channels (ibuf_ b)) (cb_channels (ibuf_ b)) !! i =
     Some (cb_start f i 0)).
  { intros i Hi'. pose proof (channel_pointer f i 0 Hfok ltac:(lia) ltac:(lia)) as Eq.
    by rewrite F4, F5 in Eq. }
  eapply wp_mono; [apply wp_and|].
  { apply (wp_loop_regions (cb_num_frames f) k _
      (fun i => map s16 (channel (fbuf_ b) i)) _ _ Pi).
    - intros i Hi'. rewrite length_map, Hlen by done. lia.
    - intros i q m Hi' Eq Hm.
      pose proof (channel_pointer (fbuf_ b) i 0 (if_float _ H) ltac:(lia) ltac:(lia)) as Ep.
      rewrite (rd_Some _ _ _ Ep), bind_ok, (rd_Some _ _ _ Eq), bind_ok.
      pose proof (ptr_range _ _ _ _ Pi i q Hi' Eq).
      apply wp_loop_range; [rewrite length_map, Hlen by done; lia|lia|].
      intros j m' v Hv' _. pose proof (lookup_lt_Some _ _ _ Hv') as Hj.
      rewrite length_map, Hlen in Hj by done.
      destruct (Hsrc i j Hi' ltac:(lia)) as (w & Ew & Ew').
      rewrite Ew, bind_ok, (proj1 (s16_spec w)), bind_ok.
      rewrite list_lookup_fmap, Ew' in Hv'. by injection Hv' as <-. }
  { apply (wp_loop_inv (fun m => Forall i16 m /\ length m = length (cb_data f))).
    { split; [|done]. rewrite Fd. apply H. }
    intros i m Hi' [Hm Hlm].
    pose proof (channel_pointer (fbuf_ b) i 0 (if_float _ H) ltac:(lia) ltac:(lia)) as Ep.
    rewrite (rd_Some _ _ _ Ep), bind_ok, (rd_Some _ _ _ (Hq i Hi')), bind_ok.
    pose proof (ptr_range _ _ _ _ Pi i _ Hi' (Hq i Hi')).
    apply (wp_loop_inv (fun m => Forall i16 m /\ length m = length (cb_data f))); [done|].
    intros j m' Hj [Hm' Hlm']. destruct (Hsrc i j Hi' Hj) as (w & Ew & _).
    rewrite Ew, bind_ok, (proj1 (s16_spec w)), bind_ok.
    apply wp_wr; [unfold zlen; lia|]. split; [|by rewrite length_insert].
    apply Forall_insert; [done|]. apply s16_spec. }
  intros d [(L & Hd & _) [Hd16 _]]. apply wp_ret. cbn [ibuf_ fbuf_ ivalid_ fvalid_].
  split; [|split; [done|split; [done|split; [done|split; [done|]]]]].
  - constructor; cbn [ibuf_ fbuf_ ivalid_ fvalid_]; try apply H.
    + by apply cb_ok_data.
    + done.
    + cbn. lia.
    + cbn. rewrite F1, F2, F3, F4. done.
    + done.
  - intros i Hi'. rewrite <- (Hd i _ Hi' (Hq i Hi')).
    unfold channel, cb_start. cbn. by rewrite Nat.add_0_r.
Qed.

(** Where both buffers are marked valid they agree on the visible channels. *)
Definition in_sync (b : IFChannelBuffer) : Prop :=
  ivalid_ b = true -> fvalid_ b = true ->
  cb_num_channels (fbuf_ b) = cb_num_channels (ibuf_ b) /\
  forall i, (i < cb_num_channels (ibuf_ b))%nat ->
    channel (ibuf_ b) i = map s16 (channel (fbuf_ b) i).

(** Read access to the floats of a buffer with valid integers. *)
Lemma wp_fbuf_const b :
  if_ok b -> in_sync b -> ivalid_ b = true ->
  wp (fbuf_const b) (fun b' => if_ok b' /\ in_sync b' /\ ibuf_ b' = ibuf_ b /\
    ivalid_ b' = true /\ fvalid_ b' = true).
Proof.
  intros H Hs Hi. unfold fbuf_const. destruct (fvalid_ b) eqn:Ef.
  { unfold RefreshF. rewrite Ef. apply wp_ret. done. }
  eapply wp_mono; [by apply wp_RefreshF|].
  intros b' (H' & E1 & E2 & E3 & E4 & E5). split; [done|]. split; [|done].
  intros _ _. rewrite E1. split; [done|]. intros i Hi'. rewrite E5 by done.
  rewrite map_map. rewrite <- (map_id (channel (ibuf_ b) i)) at 1.
  apply map_ext_in. intros x Hx. rewrite s16_int; [done|].
  pose proof (Forall_view _ (cb_num_frames (ibuf_ b)) (i * cb_num_frames (ibuf_ b)) _
    (if_samples _ H)) as HF. rewrite Forall_forall in HF. by apply HF.
Qed.

(** * Theorems *)

(** The two pointer tables of a channel buffer are views of one array: entry
    [i] of the channels of band [j] and entry [j] of the bands of channel [i] are
    the same pointer; samples written through it are read back through it, and
    the samples of every other band and channel keep their values. *)
Lemma channel_views {A} (zero : A) nf nc nb i j xs :
  (i < nc)%nat -> (j < nb)%nat -> length xs = (nf / nb)%nat ->
  exists b chs bas p data,
    ChannelBuffer_new zero nf nc nb = Ok b /\
    channels b j = Ok chs /\ bands b i = Ok bas /\
    chs !! i = Some p /\ bas !! j = Some p /\
    put p xs (cb_data b) = Ok data /\ length data = length (cb_data b) /\
    forall i' j' chs' q, (i' < nc)%nat -> (j' < nb)%nat ->
      channels b j' = Ok chs' -> chs' !! i' = Some q ->
      view (nf / nb) q data =
        if decide (i' = i /\ j' = j) then xs else replicate (nf / nb) zero.
Proof.
  intros Hi Hj Hx.
  destruct (proj1 (wp_ok _ _) (wp_ChannelBuffer_new zero nf nc nb ltac:(lia)))
    as (b & E & H & Ed & E1 & E2 & E3 & E4 & E5).
  assert (Hs : forall i j, (i < nc)%nat -> (j < nb)%nat ->
    (cb_start b i j + nf / nb <= length (cb_data b))%nat).
  { intros i0 j0 Hi0 Hj0. rewrite <- E2. apply cb_start_range; [done|lia|lia]. }
  pose proof (Hs i j Hi Hj) as Hr. rewrite <- Hx in Hr.
  destruct (proj1 (wp_ok _ _) (wp_put (cb_start b i j) xs (cb_data b) Hr))
    as (data & Eput & Hw).
  eexists b, _, _, (cb_start b i j), data. split; [done|].
  split; [apply channels_ok; lia|]. split; [apply bands_ok_ptr; lia|].
  split; [apply channel_pointer; [done|lia|lia]|].
  split; [apply band_pointer; [done|lia|lia]|].
  split; [done|]. split; [apply Hw|]. intros i' j' chs' q Hi' Hj' Ec Eq.
  rewrite channels_ok in Ec by lia. injection Ec as <-.
  rewrite (channel_pointer b i' j') in Eq by (done || lia). injection Eq as <-.
  destruct (decide (i' = i /\ j' = j)) as [[-> ->]|Hne].
  - rewrite <- Hx. by apply (wrote_view _ _ (cb_data b)).
  - rewrite (wrote_view_other (cb_start b i j) _ _ xs (cb_data b)); [|done|by apply Hs|].
    + rewrite Ed. unfold view. rewrite drop_replicate, take_replicate.
      f_equal. pose proof (Hs i' j' Hi' Hj') as Hr'. rewrite Ed, length_replicate in Hr'. lia.
    + rewrite Hx, <- E2. apply cb_start_apart; [done|lia|lia|]. lia.
Qed.

(** The integer and the floating-point side of a buffer are kept in sync:
    after write access to the floats that changes nothing, the integers are
    recomputed to what they were, in every visible channel. *)
Lemma if_sync_roundtrip b :
  if_ok b -> in_sync b -> ivalid_ b = true ->
  exists b1 b2, fbuf b = Ok b1 /\ ivalid_ b1 = false /\ ibuf b1 = Ok b2 /\ if_ok b2 /\
    if_num_channels b2 = if_num_channels b /\
    forall i, (i < if_num_channels b)%nat -> channel (ibuf_ b2) i = channel (ibuf_ b) i.
Proof.
  intros H Hs Hi.
  destruct (proj1 (wp_ok _ _) (wp_fbuf_const b H Hs Hi)) as (b' & E & H' & Hs' & E1 & E2 & E3).
  unfold fbuf. unfold fbuf_const in E. rewrite E, bind_ok.
  destruct (Hs' E2 E3) as [Hn Hc]. rewrite E1 in Hn, Hc.
  set (b1 := MkIF false (ibuf_ b') (fvalid_ b') (fbuf_ b')).
  assert (H1 : if_ok b1).
  { by destruct H'; constructor. }
  destruct (proj1 (wp_ok _ _) (wp_RefreshI b1 H1 eq_refl))
    as (b2 & E4 & H2 & F1 & F2 & F3 & F4 & F5).
  exists b1, (MkIF (ivalid_ b2) (ibuf_ b2) false (fbuf_ b2)). split; [done|]. split; [done|].
  unfold ibuf. rewrite E4, bind_ok. split; [done|]. unfold if_num_channels.
  cbn [ivalid_ ibuf_ fbuf_ fvalid_]. rewrite F2, Hi. cbn [fbuf_ b1] in F4, F5.
  split; [|split].
  - by destruct H2; constructor.
  - congruence.
  - intros i Hi'. rewrite F5, Hc; congruence.
Qed.

(** Writing an array into another, as a splice. *)
Lemma put_splice {A} (q : nat) (xs mem : list A) :
  (q + length xs <= length mem)%nat ->
  put q xs mem = Ok (take q mem ++ xs ++ drop (q + length xs) mem).
Proof.
  intros Hq. destruct (proj1 (wp_ok _ _) (wp_put q xs mem Hq)) as (m & -> & L & H). f_equal.
  apply list_eq. intros a. destruct (decide (a < length mem)%nat) as [Ha|Ha].
  - rewrite H by done. unfold at_range. destruct (decide (q <= a)%nat) as [Hle|Hlt].
    + rewrite lookup_app_r; rewrite length_take, Nat.min_l by lia; [|lia].
      destruct (xs !! (a - q)%nat) as [v|] eqn:Ev.
      * by rewrite lookup_app_l by (by eapply lookup_lt_Some).
      * apply lookup_ge_None in Ev. rewrite lookup_app_r, lookup_drop by lia. f_equal. lia.
    + rewrite lookup_app_l, lookup_take_lt by (rewrite ?length_take; lia). done.
  - rewrite !lookup_ge_None_2; [done| |lia].
    rewrite !length_app, length_drop, length_take. lia.
Qed.
