(* ===== verification/Base64.v ===== *)
(** * Base64

    [base/base64.{h,cc}]: encoding of arrays of bytes, and decoding under the options for
    characters that do not belong to the text, for padding and for the end.
    Characters are numbers between 0 and 255.  The three instances of the decoder
    differ in the container of the result. *)
From Stdlib Require Import String Ascii.
From S2P Require Import Prelude CInt AudioUtil ChannelBuffer.

(** ** Characters *)

Definition char (c : ascii) : Z := Z.of_N (N_of_ascii c).

Definition kPad : Z := char "="%char.
(** Padding, whitespace, illegal. *)
Definition pd : Z := 253.
Definition sp : Z := 254.
Definition il : Z := 255.

Definition Base64Table : list Z :=
  map char (list_ascii_of_string
    "ABCDEFGHIJKLMNOPQRSTUVWXYZabcdefghijklmnopqrstuvwxyz0123456789+/").

Definition DecodeTable : list Z :=
  [
   il; il; il; il; il; il; il; il; il; sp;
   sp; sp; sp; sp; il; il; il; il; il; il;
   il; il; il; il; il; il; il; il; il; il;
   il; il; sp; il; il; il; il; il; il; il;
   il; il; il; 62; il; il; il; 63; 52; 53;
   54; 55; 56; 57; 58; 59; 60; 61; il; il;
   il; pd; il; il; il; 0; 1; 2; 3; 4;
   5; 6; 7; 8; 9; 10; 11; 12; 13; 14;
   15; 16; 17; 18; 19; 20; 21; 22; 23; 24;
   25; il; il; il; il; il; il; 26; 27; 28;
   29; 30; 31; 32; 33; 34; 35; 36; 37; 38;
   39; 40; 41; 42; 43; 44; 45; 46; 47; 48;
   49; 50; 51; il; il; il; il; il; il; il;
   il; il; il; il; il; il; il; il; il; il;
   il; il; il; il; il; il; il; il; il; il;
   il; il; il; il; il; il; il; il; il; il;
   il; il; il; il; il; il; il; il; il; il;
   il; il; il; il; il; il; il; il; il; il;
   il; il; il; il; il; il; il; il; il; il;
   il; il; il; il; il; il; il; il; il; il;
   il; il; il; il; il; il; il; il; il; il;
   il; il; il; il; il; il; il; il; il; il;
   il; il; il; il; il; il; il; il; il; il;
   il; il; il; il; il; il; il; il; il; il;
   il; il; il; il; il; il; il; il; il; il;
   il; il; il; il; il; il].

Definition IsBase64Char (ch : Z) : bool :=
  ((char "A" <=? ch) && (ch <=? char "Z")) || ((char "a" <=? ch) && (ch <=? char "z")) ||
  ((char "0" <=? ch) && (ch <=? char "9")) || (ch =? char "+") || (ch =? char "/").

(** [strchr], which also finds the zero at the end of the table. *)
Fixpoint strchr (s : list Z) (ch : Z) : option nat :=
  match s with
  | [] => if ch =? 0 then Some 0%nat else None
  | c :: s => if c =? ch then Some 0%nat else option_map S (strchr s ch)
  end.

Definition GetNextBase64Char (ch : Z) : res (option Z) :=
  match strchr Base64Table ch with
  | None => Ok None
  | Some p => c ← rd (Base64Table ++ [0]) (Z.of_nat (S p));
              if negb (c =? 0) then Ok (Some c)
              else c ← rd Base64Table 0; Ok (Some c)
  end.

Definition IsBase64Encoded (str : list Z) : bool := forallb IsBase64Char str.

(** ** Encoding *)

(** [result[dest_ix++] = c]. *)
Definition append_char (result : list Z) (dest_ix : nat) (c : Z) : res (list Z * nat) :=
  r ← wr result (Z.of_nat dest_ix) c; Ok (r, S dest_ix).

Definition append_code (result : list Z) (dest_ix : nat) (c : Z) : res (list Z * nat) :=
  ch ← rd Base64Table c; append_char result dest_ix ch.

(** The body of the loop, on [i], [dest_ix] and [result]. *)
Definition encode_step (byte_data : list Z) (len : nat) (i dest_ix : nat) (result : list Z)
    : res (nat * nat * list Z) :=
  b ← rd byte_data (Z.of_nat i);
  '(result, dest_ix) ← append_code result dest_ix (Z.land (Z.shiftr b 2) 63);
  let c := Z.land (Z.shiftl b 4) 63 in
  let i := S i in
  c ← (if (i <? len)%nat
       then b ← rd byte_data (Z.of_nat i); Ok (Z.lor c (Z.land (Z.shiftr b 4) 15))
       else Ok c);
  '(result, dest_ix) ← append_code result dest_ix c;
  '(result, dest_ix, i) ←
    (if (i <? len)%nat then
       b ← rd byte_data (Z.of_nat i);
       let c := Z.land (Z.shiftl b 2) 63 in
       let i := S i in
       c ← (if (i <? len)%nat
            then b ← rd byte_data (Z.of_nat i); Ok (Z.lor c (Z.land (Z.shiftr b 6) 3))
            else Ok c);
       '(result, dest_ix) ← append_code result dest_ix c;
       Ok (result, dest_ix, i)
     else '(result, dest_ix) ← append_char result dest_ix kPad; Ok (result, dest_ix, i));
  if (i <? len)%nat then
    b ← rd byte_data (Z.of_nat i);
    '(result, dest_ix) ← append_code result dest_ix (Z.land b 63);
    Ok (S i, dest_ix, result)
  else '(result, dest_ix) ← append_char result dest_ix kPad; Ok (i, dest_ix, result).

(** A round of the loop takes at least one byte, so that [len] rounds are enough. *)
Fixpoint encode_loop (fuel : nat) (byte_data : list Z) (len : nat) (i dest_ix : nat)
    (result : list Z) : res (list Z) :=
  if (i <? len)%nat then
    match fuel with
    | O => Fault OutOfFuel
    | S fuel => '(i, dest_ix, result) ← encode_step byte_data len i dest_ix result;
                encode_loop fuel byte_data len i dest_ix result
    end
  else Ok result.

Definition EncodeFromArray (data : list Z) (len : nat) : res (list Z) :=
  encode_loop len data len 0 0 (replicate ((len + 2) / 3 * 4) 0).

(** ** Decoding *)

Definition DO_PARSE_STRICT : Z := 1.
Definition DO_PARSE_WHITE : Z := 2.
Definition DO_PARSE_ANY : Z := 3.
Definition DO_PARSE_MASK : Z := 3.
Definition DO_PAD_YES : Z := 4.
Definition DO_PAD_ANY : Z := 8.
Definition DO_PAD_NO : Z := 12.
Definition DO_PAD_MASK : Z := 12.
Definition DO_TERM_BUFFER : Z := 16.
Definition DO_TERM_CHAR : Z := 32.
Definition DO_TERM_ANY : Z := 48.
Definition DO_TERM_MASK : Z := 48.
Definition DO_STRICT : Z := Z.lor (Z.lor DO_PARSE_STRICT DO_PAD_YES) DO_TERM_BUFFER.
Definition DO_LAX : Z := Z.lor (Z.lor DO_PARSE_ANY DO_PAD_ANY) DO_TERM_CHAR.

(** The variables of [GetNextQuantum]. *)
Record quantum := MkQuantum {
  q_dpos : nat; qbuf : list Z; byte_len : nat; pad_len : nat; pad_start : nat
}.

(** The body of the loop: [None] is [break]. *)
Definition quantum_step (parse_flags : Z) (illegal_pads : bool) (data : list Z) (q : quantum)
    : res (list Z * option quantum) :=
  ch ← rd data (Z.of_nat (q_dpos q));
  v ← rd DecodeTable ch;
  buf ← wr (qbuf q) (Z.of_nat (byte_len q)) v;
  let any := parse_flags =? DO_PARSE_ANY in
  let ignore := if any then Some (MkQuantum (q_dpos q) buf (byte_len q) (pad_len q) (pad_start q))
                else None in
  Ok (buf,
    if (il =? v) || (illegal_pads && (pd =? v)) then ignore
    else if sp =? v then
      if parse_flags =? DO_PARSE_STRICT then None
      else Some (MkQuantum (q_dpos q) buf (byte_len q) (pad_len q) (pad_start q))
    else if pd =? v then
      if (byte_len q <? 2)%nat then ignore
      else if (4 <=? byte_len q + pad_len q)%nat then ignore
      else Some (MkQuantum (q_dpos q) buf (byte_len q) (S (pad_len q))
                   (if (S (pad_len q) =? 1)%nat then q_dpos q else pad_start q))
    else if (0 <? pad_len q)%nat then
      if any then Some (MkQuantum (q_dpos q) buf (S (byte_len q)) 0 (pad_start q)) else None
    else Some (MkQuantum (q_dpos q) buf (S (byte_len q)) (pad_len q) (pad_start q))).

(** A round takes one character, so that the characters left are enough. *)
Fixpoint quantum_loop (fuel : nat) (parse_flags : Z) (illegal_pads : bool) (data : list Z)
    (len : nat) (q : quantum) : res quantum :=
  if (byte_len q <? 4)%nat && (q_dpos q <? len)%nat then
    match fuel with
    | O => Fault OutOfFuel
    | S fuel =>
        '(buf, next) ← quantum_step parse_flags illegal_pads data q;
        match next with
        | None => Ok (MkQuantum (q_dpos q) buf (byte_len q) (pad_len q) (pad_start q))
        | Some q => quantum_loop fuel parse_flags illegal_pads data len
                      (MkQuantum (S (q_dpos q)) (qbuf q) (byte_len q) (pad_len q) (pad_start q))
        end
    end
  else Ok q.

(** Returns the length, the position, the values and whether there is enough padding. *)
Definition GetNextQuantum (parse_flags : Z) (illegal_pads : bool) (data : list Z) (len : nat)
    (dpos : nat) (buf : list Z) : res (nat * nat * list Z * bool) :=
  q ← quantum_loop (len - dpos) parse_flags illegal_pads data len (MkQuantum dpos buf 0 0 0);
  let buf := take (byte_len q) (qbuf q) ++ replicate (4 - byte_len q) 0 in
  if (4 =? byte_len q + pad_len q)%nat then Ok (byte_len q, q_dpos q, buf, true)
  else Ok (byte_len q, if negb (pad_len q =? 0)%nat then pad_start q else q_dpos q, buf, false).

(** The bytes that a quantum gives, and the value of [c] after them. *)
Definition quantum_bytes (qlen : nat) (q0 q1 q2 q3 : Z) : list Z * Z :=
  let c := to_u8 (Z.lor (Z.shiftl q0 2) (Z.land (Z.shiftr q1 4) 3)) in
  if (2 <=? qlen)%nat then
    let c1 := to_u8 (Z.lor (Z.land (Z.shiftl q1 4) 240) (Z.land (Z.shiftr q2 2) 15)) in
    if (3 <=? qlen)%nat then
      let c2 := to_u8 (Z.lor (Z.land (Z.shiftl q2 6) 192) q3) in
      if (4 <=? qlen)%nat then ([c; c1; c2], 0) else ([c; c1], c2)
    else ([c], c1)
  else ([], c).

(** A quantum of four values goes forward, so that [len] rounds are enough. *)
Fixpoint decode_loop (fuel : nat) (parse_flags pad_flags term_flags : Z) (data : list Z)
    (len dpos : nat) (success : bool) (buf result : list Z) : res (bool * nat * list Z) :=
  if (dpos <? len)%nat then
    match fuel with
    | O => Fault OutOfFuel
    | S fuel =>
        '(qlen, dpos, buf, padded) ←
          GetNextQuantum parse_flags (DO_PAD_NO =? pad_flags) data len dpos buf;
        q0 ← rd buf 0; q1 ← rd buf 1; q2 ← rd buf 2; q3 ← rd buf 3;
        let '(bytes, c) := quantum_bytes qlen q0 q1 q2 q3 in
        let result := result ++ bytes in
        if (qlen <? 4)%nat then
          let success := if negb (DO_TERM_ANY =? term_flags) && negb (0 =? c) then false
                         else success in
          let success := if (DO_PAD_YES =? pad_flags) && negb padded then false else success in
          Ok (success, dpos, result)
        else decode_loop fuel parse_flags pad_flags term_flags data len dpos success buf result
    end
  else Ok (success, dpos, result).

(** Returns the success, the bytes and the number of characters used.  The memory of
    [qbuf] is indeterminate at first. *)
Definition DecodeFromArray (garbage : list Z) (data : list Z) (len : nat) (flags : Z)
    : res (bool * list Z * nat) :=
  if negb (flags <=? Z.lor (Z.lor DO_PARSE_MASK DO_PAD_MASK) DO_TERM_MASK)
  then Fault AssertionFailed else
  let parse_flags := Z.land flags DO_PARSE_MASK in
  let pad_flags := Z.land flags DO_PAD_MASK in
  let term_flags := Z.land flags DO_TERM_MASK in
  if (0 =? parse_flags) || (0 =? pad_flags) || (0 =? term_flags)
  then Fault AssertionFailed else
  '(success, dpos, result) ←
    decode_loop len parse_flags pad_flags term_flags data len 0 true garbage [];
  let success := if (DO_TERM_BUFFER =? term_flags) && negb (dpos =? len)%nat then false
                 else success in
  Ok (success, result, dpos).

(** [Encode] and [Decode] of strings. *)
Definition Encode (data : list Z) : res (list Z) := EncodeFromArray data (length data).
Definition Decode (garbage data : list Z) (flags : Z) : res (list Z) :=
  '(_, result, _) ← DecodeFromArray garbage data (length data) flags; Ok result.

(** * Lemmas *)

(** ** Bits *)

Lemma u8_bits a n : u8 a -> 8 <= n -> Z.testbit a n = false.
Proof.
  intros Ha Hn. destruct (Z.eq_dec a 0) as [->|]; [apply Z.bits_0|].
  apply Z.bits_above_log2; [unfold u8 in Ha; lia|].
  apply Z.lt_le_trans with 8; [|done]. apply Z.log2_lt_pow2; unfold u8 in Ha; lia.
Qed.

Lemma to_u8_land x : to_u8 x = Z.land x 255.
Proof. symmetry. exact (land_mask x 8 ltac:(lia)). Qed.

(** Two bytes are equal when their eight bits are. *)
Lemma bits_8 x y :
  (forall n, 8 <= n -> Z.testbit x n = Z.testbit y n) ->
  Forall (fun n => Z.testbit x n = Z.testbit y n) [0; 1; 2; 3; 4; 5; 6; 7] -> x = y.
Proof.
  intros Hh Hl. apply Z.bits_inj'. intros n Hn. destruct (Z.lt_ge_cases n 8); [|by apply Hh].
  pose proof (proj1 (Forall_forall _ _) Hl) as H8.
  apply H8. cbn. lia.
Qed.

Ltac read_bits :=
  repeat match goal with
  | |- context [Z.testbit (Z.land ?x ?y) ?k] => rewrite (Z.land_spec x y k)
  | |- context [Z.testbit (Z.lor ?x ?y) ?k] => rewrite (Z.lor_spec x y k)
  | |- context [Z.testbit (Z.shiftr ?x ?j) ?k] => rewrite (Z.shiftr_spec x j k) by lia
  | |- context [Z.testbit (Z.shiftl ?x ?j) ?k] => rewrite (Z.shiftl_spec x j k) by lia
  | |- context [Z.testbit ?x ?k] => rewrite (Z.testbit_neg_r x k) by lia
  end.

(** An equation between bytes that are masked on the left. *)
Ltac byte_bits :=
  apply bits_8;
  [ let n := fresh "n" in intros n ?; read_bits;
    rewrite ?(u8_bits _ n), ?andb_false_r by (assumption || lia || (unfold u8; lia)); done
  | repeat (apply List.Forall_cons; [read_bits; cbn;
      rewrite ?andb_true_r, ?andb_false_r, ?orb_false_r, ?orb_false_l; reflexivity|]);
    apply List.Forall_nil ].

(** The four values of three bytes. *)
Definition first6 (a : Z) : Z := Z.land (Z.shiftr a 2) 63.
Definition second6 (a b : Z) : Z := Z.lor (Z.land (Z.shiftl a 4) 63) (Z.land (Z.shiftr b 4) 15).
Definition third6 (b c : Z) : Z := Z.lor (Z.land (Z.shiftl b 2) 63) (Z.land (Z.shiftr c 6) 3).
Definition fourth6 (c : Z) : Z := Z.land c 63.

Lemma six_bits v : Z.land v 63 = v -> 0 <= v < 64.
Proof. intros <-. change 63 with (2 ^ 6 - 1). rewrite land_mask by lia. apply Z.mod_pos_bound. lia. Qed.

Lemma quantum_first a b :
  u8 a -> to_u8 (Z.lor (Z.shiftl (first6 a) 2) (Z.land (Z.shiftr (second6 a b) 4) 3)) = a.
Proof. intros Ha. unfold first6, second6. rewrite to_u8_land. byte_bits. Qed.

Lemma quantum_second a b c :
  u8 b -> to_u8 (Z.lor (Z.land (Z.shiftl (second6 a b) 4) 240)
                       (Z.land (Z.shiftr (third6 b c) 2) 15)) = b.
Proof. intros Hb. unfold second6, third6. rewrite to_u8_land. byte_bits. Qed.

Lemma quantum_third b c :
  u8 c -> to_u8 (Z.lor (Z.land (Z.shiftl (third6 b c) 6) 192) (fourth6 c)) = c.
Proof. intros Hc. unfold third6, fourth6. rewrite to_u8_land. byte_bits. Qed.

(** Nothing is left over after the last byte. *)
Lemma quantum_rest_1 a :
  to_u8 (Z.lor (Z.land (Z.shiftl (second6 a 0) 4) 240) (Z.land (Z.shiftr 0 2) 15)) = 0.
Proof. unfold second6. rewrite to_u8_land. byte_bits. Qed.

Lemma quantum_rest_2 b :
  to_u8 (Z.lor (Z.land (Z.shiftl (third6 b 0) 6) 192) 0) = 0.
Proof. unfold third6. rewrite to_u8_land. byte_bits. Qed.

Lemma six_ranges a b c :
  u8 a -> u8 b -> u8 c ->
  0 <= first6 a < 64 /\ 0 <= second6 a b < 64 /\ 0 <= third6 b c < 64 /\ 0 <= fourth6 c < 64.
Proof.
  intros Ha Hb Hc. unfold first6, second6, third6, fourth6.
  split_and!; apply six_bits; byte_bits.
Qed.

(** ** Encoding *)

(** The character of a value. *)
Definition code (v : Z) : Z := nth (Z.to_nat v) Base64Table 0.

(** The text of a list of bytes, three at a time. *)
Fixpoint text (l : list Z) : list Z :=
  match l with
  | [] => []
  | [a] => [code (first6 a); code (second6 a 0); kPad; kPad]
  | [a; b] => [code (first6 a); code (second6 a b); code (third6 b 0); kPad]
  | a :: b :: c :: l =>
      [code (first6 a); code (second6 a b); code (third6 b c); code (fourth6 c)] ++ text l
  end.

Lemma rd_code v : 0 <= v < 64 -> rd Base64Table v = Ok (code v).
Proof.
  intros Hv. rewrite <- (Z2Nat.id v) at 1 by lia. apply rd_Some. unfold code.
  rewrite nth_lookup. assert (H : (Z.to_nat v < length Base64Table)%nat) by (cbn; lia).
  by destruct (lookup_lt_is_Some_2 _ _ H) as [x ->].
Qed.

(** Writing behind [pre]. *)
Lemma append_char_ok pre n m c :
  n = length pre -> append_char (pre ++ replicate (S m) 0) n c =
  Ok ((pre ++ [c]) ++ replicate m 0, length (pre ++ [c])).
Proof.
  intros ->. unfold append_char.
  assert (E : wr (pre ++ replicate (S m) 0) (Z.of_nat (length pre)) c =
              Ok ((pre ++ [c]) ++ replicate m 0)).
  { apply wp_pure, wp_wr; [unfold zlen; rewrite length_app; cbn; lia|].
    rewrite Nat2Z.id. cbn. rewrite insert_app_r_alt, Nat.sub_diag by lia. by rewrite <- app_assoc. }
  rewrite E, bind_ok, length_app. cbn. do 2 f_equal. lia.
Qed.

Lemma append_code_ok pre n m v :
  n = length pre -> 0 <= v < 64 -> append_code (pre ++ replicate (S m) 0) n v =
  Ok ((pre ++ [code v]) ++ replicate m 0, length (pre ++ [code v])).
Proof. intros Hn Hv. unfold append_code. rewrite rd_code, bind_ok by done. by apply append_char_ok. Qed.

Lemma rd_behind (l rest : list Z) n k v :
  n = (length l + k)%nat -> rest !! k = Some v -> rd (l ++ rest) (Z.of_nat n) = Ok v.
Proof.
  intros -> E. apply rd_Some. rewrite lookup_app_r by lia. by replace (_ - _)%nat with k by lia.
Qed.

(** One round, at the bytes [rest] behind those encoded so far. *)
Lemma encode_step_ok l rest pre m :
  rest <> [] -> Forall u8 rest ->
  encode_step (l ++ rest) (length (l ++ rest)) (length l) (length pre) (pre ++ replicate (4 + m) 0) =
  Ok ((length l + min 3 (length rest))%nat, length (pre ++ text (take 3 rest)),
      (pre ++ text (take 3 rest)) ++ replicate m 0).
Proof.
  intros Hne H. destruct rest as [|a rest]; [done|]. pose proof (Forall_inv H) as Ha.
  apply Forall_inv_tail in H. unfold encode_step. rewrite length_app. cbn [length].
  change (4 + m)%nat with (S (S (S (S m)))).
  rewrite (rd_behind l _ (length l) 0 a), bind_ok by (reflexivity || lia).
  assert (H0 : u8 0) by (unfold u8; lia).
  destruct rest as [|b rest].
  - destruct (six_ranges a 0 0 Ha H0 H0) as (R1 & R2 & _).
    fold (first6 a). rewrite append_code_ok, bind_ok by done. cbv zeta.
    rewrite !(proj2 (Nat.ltb_ge _ _)) by (cbn [length]; lia). rewrite bind_ok.
    replace (Z.land (Z.shiftl a 4) 63) with (second6 a 0)
      by (unfold second6; rewrite Z.shiftr_0_l, Z.land_0_l; apply Z.lor_0_r).
    rewrite append_code_ok, bind_ok by done. rewrite append_char_ok, bind_ok, bind_ok by done.
    rewrite !(proj2 (Nat.ltb_ge _ _)) by (cbn [length]; lia).
    rewrite append_char_ok, bind_ok by done. cbn [take text length min].
    rewrite <- !app_assoc. cbn [app]. do 3 f_equal. lia.
  - pose proof (Forall_inv H) as Hb. apply Forall_inv_tail in H.
    fold (first6 a). destruct (six_ranges a b 0 Ha Hb H0) as (R1 & R2 & R3 & _).
    rewrite append_code_ok, bind_ok by done. cbv zeta.
    rewrite (proj2 (Nat.ltb_lt (S (length l)) _)) by (cbn [length]; lia).
    rewrite (rd_behind l _ (S (length l)) 1 b), bind_ok, bind_ok by (reflexivity || lia).
    fold (second6 a b). rewrite append_code_ok, bind_ok, bind_ok by done.
    destruct rest as [|c rest].
    + rewrite !(proj2 (Nat.ltb_ge (S (S (length l))) _)) by (cbn [length]; lia). rewrite bind_ok.
      replace (Z.land (Z.shiftl b 2) 63) with (third6 b 0)
        by (unfold third6; rewrite Z.shiftr_0_l, Z.land_0_l; apply Z.lor_0_r).
      rewrite append_code_ok, bind_ok, bind_ok by done.
      rewrite !(proj2 (Nat.ltb_ge (S (S (length l))) _)) by (cbn [length]; lia).
      rewrite append_char_ok, bind_ok by done. cbn [take text length min].
      rewrite <- !app_assoc. cbn [app]. do 3 f_equal. lia.
    + pose proof (Forall_inv H) as Hc. destruct (six_ranges a b c Ha Hb Hc) as (_ & _ & R4 & R5).
      rewrite !(proj2 (Nat.ltb_lt (S (S (length l))) _)) by (cbn [length]; lia).
      rewrite (rd_behind l _ (S (S (length l))) 2 c), bind_ok, bind_ok by (reflexivity || lia).
      fold (third6 b c). rewrite append_code_ok, bind_ok, bind_ok by done.
      rewrite !(proj2 (Nat.ltb_lt (S (S (length l))) _)) by (cbn [length]; lia).
      rewrite (rd_behind l _ (S (S (length l))) 2 c), bind_ok by (reflexivity || lia). fold (fourth6 c).
      rewrite append_code_ok, bind_ok by done. cbn [take text length min].
      rewrite <- !app_assoc, take_0. cbn [app text]. do 3 f_equal. lia.
Qed.

(** The characters of [n] bytes. *)
Definition chars (n : nat) : nat := ((n + 2) / 3 * 4)%nat.

Lemma chars_step n : (0 < n)%nat -> chars n = (4 + chars (n - 3))%nat.
Proof.
  intros Hn. unfold chars. destruct (Nat.le_gt_cases n 3) as [Hle|Hgt].
  - assert (n = 1 \/ n = 2 \/ n = 3)%nat as [->|[->| ->]] by lia; reflexivity.
  - replace (n + 2)%nat with ((n - 3 + 2) + 1 * 3)%nat by lia. rewrite Nat.div_add by lia. lia.
Qed.

Lemma text_step l : text l = text (take 3 l) ++ text (drop 3 l).
Proof. destruct l as [|a [|b [|c l]]]; cbn [text take drop app]; by rewrite ?take_0. Qed.

Lemma encode_loop_ok fuel l rest pre :
  (length rest <= fuel)%nat -> Forall u8 rest ->
  encode_loop fuel (l ++ rest) (length (l ++ rest)) (length l) (length pre)
    (pre ++ replicate (chars (length rest)) 0) = Ok (pre ++ text rest).
Proof.
  revert l rest pre. induction fuel as [|fuel IH]; intros l rest pre Hf H; cbn [encode_loop].
  - destruct rest; [|cbn in Hf; lia].
    rewrite (proj2 (Nat.ltb_ge _ _)) by (rewrite length_app; cbn; lia). done.
  - destruct (decide (rest = [])) as [->|Hne].
    + rewrite (proj2 (Nat.ltb_ge _ _)) by (rewrite length_app; cbn; lia). done.
    + assert (Hl : (0 < length rest)%nat) by (destruct rest; [done|cbn; lia]).
      rewrite (proj2 (Nat.ltb_lt _ _)) by (rewrite length_app; lia).
      rewrite chars_step, encode_step_ok, bind_ok by done.
      rewrite <- (take_drop 3 rest) at 1 2. rewrite (app_assoc l).
      replace (length l + min 3 (length rest))%nat with (length (l ++ take 3 rest))
        by (rewrite length_app, length_take; lia).
      replace (length rest - 3)%nat with (length (drop 3 rest)) by apply length_drop.
      rewrite IH; [|rewrite length_drop; lia|by apply Forall_drop].
      by rewrite <- app_assoc, <- text_step.
Qed.

Lemma EncodeFromArray_text data :
  Forall u8 data -> EncodeFromArray data (length data) = Ok (text data).
Proof. intros H. exact (encode_loop_ok (length data) [] data [] (le_n _) H). Qed.

Lemma length_text l : length (text l) = chars (length l).
Proof.
  induction l as [l IH] using (well_founded_induction (Wf_nat.well_founded_ltof _ length)).
  destruct l as [|a [|b [|c l]]]; try reflexivity. cbn [text].
  rewrite length_app, (IH l) by (unfold Wf_nat.ltof; cbn [length]; lia).
  rewrite (chars_step (length (a :: b :: c :: l))) by (cbn [length]; lia).
  cbn [length]. f_equal. f_equal. lia.
Qed.

(** ** Decoding *)

Lemma decode_code v : 0 <= v < 64 -> rd DecodeTable (code v) = Ok v.
Proof. intros Hv. enumerate v 64%nat. Qed.

Section quantum.
Variables (pf : Z) (ip : bool) (data : list Z).

Lemma loop_end fuel q :
  (byte_len q = 4 \/ q_dpos q = length data)%nat ->
  quantum_loop fuel pf ip data (length data) q = Ok q.
Proof.
  intros H.
  assert (E : (byte_len q <? 4)%nat && (q_dpos q <? length data)%nat = false).
  { destruct H as [-> | ->]; [done|]. rewrite Nat.ltb_irrefl. apply andb_false_r. }
  by destruct fuel; cbn [quantum_loop]; rewrite E.
Qed.

(** A character of the alphabet. *)
Lemma loop_code fuel p buf n s v :
  0 <= v < 64 -> data !! p = Some (code v) -> (n < 4)%nat -> length buf = 4%nat ->
  quantum_loop (S fuel) pf ip data (length data) (MkQuantum p buf n 0 s) =
  quantum_loop fuel pf ip data (length data) (MkQuantum (S p) (<[n := v]> buf) (S n) 0 s).
Proof.
  intros Hv E Hn Hb. pose proof (lookup_lt_Some _ _ _ E) as Hp. cbn [quantum_loop byte_len q_dpos].
  rewrite !(proj2 (Nat.ltb_lt _ _)) by done. cbn [andb]. unfold quantum_step.
  cbn [q_dpos qbuf byte_len pad_len pad_start].
  rewrite (rd_Some _ _ _ E), bind_ok, decode_code, bind_ok by done.
  assert (W : wr buf (Z.of_nat n) v = Ok (<[n := v]> buf)).
  { apply wp_pure, wp_wr; [unfold zlen; lia|by rewrite Nat2Z.id]. }
  rewrite W, bind_ok. cbv zeta.
  rewrite (proj2 (Z.eqb_neq il v)), (proj2 (Z.eqb_neq pd v)), (proj2 (Z.eqb_neq sp v))
    by (unfold il, pd, sp; lia).
  rewrite andb_false_r. cbn [orb]. by rewrite bind_ok.
Qed.

(** Padding that is due. *)
Lemma loop_pad fuel p buf n k s :
  ip = false -> data !! p = Some kPad -> (2 <= n < 4)%nat -> (n + k < 4)%nat -> length buf = 4%nat ->
  quantum_loop (S fuel) pf ip data (length data) (MkQuantum p buf n k s) =
  quantum_loop fuel pf ip data (length data)
    (MkQuantum (S p) (<[n := pd]> buf) n (S k) (if (k =? 0)%nat then p else s)).
Proof.
  intros -> E Hn Hk Hb. pose proof (lookup_lt_Some _ _ _ E) as Hp. cbn [quantum_loop byte_len q_dpos].
  rewrite !(proj2 (Nat.ltb_lt _ _)) by lia. cbn [andb]. unfold quantum_step.
  cbn [q_dpos qbuf byte_len pad_len pad_start].
  rewrite (rd_Some _ _ _ E), bind_ok. change (rd DecodeTable kPad) with (Ok pd). rewrite bind_ok.
  assert (W : wr buf (Z.of_nat n) pd = Ok (<[n := pd]> buf)).
  { apply wp_pure, wp_wr; [unfold zlen; lia|by rewrite Nat2Z.id]. }
  rewrite W, bind_ok. cbv zeta. change (il =? pd) with false. change (sp =? pd) with false.
  change (pd =? pd) with true. cbn [andb orb].
  rewrite (proj2 (Nat.ltb_ge _ _)), (proj2 (Nat.leb_gt _ _)) by lia. by rewrite bind_ok.
Qed.

End quantum.

Lemma at_pos {A} (pre l : list A) p k v :
  p = (length pre + k)%nat -> l !! k = Some v -> (pre ++ l) !! p = Some v.
Proof. intros -> E. rewrite lookup_app_r by lia. by replace (_ - _)%nat with k by lia. Qed.

Lemma four_cells (buf : list Z) : length buf = 4%nat -> exists a b c d, buf = [a; b; c; d].
Proof.
  intros H. destruct buf as [|a [|b [|c [|d [|e buf]]]]]; try discriminate. by exists a, b, c, d.
Qed.

(** Four characters of the alphabet, and the two ends of a padded text. *)
Section quanta.
Variables (pf : Z) (ip : bool) (pre : list Z) (buf : list Z).
Hypothesis Hbuf : length buf = 4%nat.

Lemma quantum_4 v0 v1 v2 v3 post :
  0 <= v0 < 64 /\ 0 <= v1 < 64 /\ 0 <= v2 < 64 /\ 0 <= v3 < 64 ->
  let data := pre ++ [code v0; code v1; code v2; code v3] ++ post in
  GetNextQuantum pf ip data (length data) (length pre) buf =
  Ok (4%nat, (length pre + 4)%nat, [v0; v1; v2; v3], true).
Proof.
  intros (H0 & H1 & H2 & H3) data. unfold GetNextQuantum.
  replace (length data - length pre)%nat with (S (S (S (S (length post)))))
    by (unfold data; rewrite !length_app; cbn [length]; lia).
  destruct (four_cells buf Hbuf) as (a & b & c & d & ->).
  rewrite (loop_code pf ip data _ (length pre) _ _ _ v0), (loop_code pf ip data _ _ _ _ _ v1),
    (loop_code pf ip data _ _ _ _ _ v2), (loop_code pf ip data _ _ _ _ _ v3);
    try (done || lia || (cbn [length]; lia)).
  - rewrite loop_end, bind_ok by (by left). cbn. do 4 f_equal. lia.
  - by apply (at_pos _ _ _ 3); [lia|].
  - by apply (at_pos _ _ _ 2); [lia|].
  - by apply (at_pos _ _ _ 1); [lia|].
  - by apply (at_pos _ _ _ 0); [lia|].
Qed.

Hypothesis Hip : ip = false.

Lemma quantum_3 v0 v1 v2 :
  0 <= v0 < 64 /\ 0 <= v1 < 64 /\ 0 <= v2 < 64 ->
  let data := pre ++ [code v0; code v1; code v2; kPad] in
  GetNextQuantum pf ip data (length data) (length pre) buf =
  Ok (3%nat, (length pre + 4)%nat, [v0; v1; v2; 0], true).
Proof.
  intros (H0 & H1 & H2) data. unfold GetNextQuantum.
  assert (L : length data = (length pre + 4)%nat) by (unfold data; by rewrite length_app).
  replace (length data - length pre)%nat with 4%nat by lia.
  destruct (four_cells buf Hbuf) as (a & b & c & d & ->).
  rewrite (loop_code pf ip data _ (length pre) _ _ _ v0), (loop_code pf ip data _ _ _ _ _ v1),
    (loop_code pf ip data _ _ _ _ _ v2), (loop_pad pf ip data);
    try (done || lia || (cbn [length]; lia)).
  - rewrite loop_end, bind_ok by (right; cbn [q_dpos]; lia). cbn. do 4 f_equal. lia.
  - by apply (at_pos _ _ _ 3); [lia|].
  - by apply (at_pos _ _ _ 2); [lia|].
  - by apply (at_pos _ _ _ 1); [lia|].
  - by apply (at_pos _ _ _ 0); [lia|].
Qed.

Lemma quantum_2 v0 v1 :
  0 <= v0 < 64 /\ 0 <= v1 < 64 ->
  let data := pre ++ [code v0; code v1; kPad; kPad] in
  GetNextQuantum pf ip data (length data) (length pre) buf =
  Ok (2%nat, (length pre + 4)%nat, [v0; v1; 0; 0], true).
Proof.
  intros (H0 & H1) data. unfold GetNextQuantum.
  assert (L : length data = (length pre + 4)%nat) by (unfold data; by rewrite length_app).
  replace (length data - length pre)%nat with 4%nat by lia.
  destruct (four_cells buf Hbuf) as (a & b & c & d & ->).
  rewrite (loop_code pf ip data _ (length pre) _ _ _ v0), (loop_code pf ip data _ _ _ _ _ v1),
    (loop_pad pf ip data), (loop_pad pf ip data); try (done || lia || (cbn [length]; lia)).
  - rewrite loop_end, bind_ok by (right; cbn [q_dpos]; lia). cbn. do 4 f_equal. lia.
  - by apply (at_pos _ _ _ 3); [lia|].
  - by apply (at_pos _ _ _ 2); [lia|].
  - by apply (at_pos _ _ _ 1); [lia|].
  - by apply (at_pos _ _ _ 0); [lia|].
Qed.

End quanta.

(** A round of the decoder, given its quantum. *)
Lemma decode_round fuel pf padf termf data dpos buf result n p q0 q1 q2 q3 :
  (dpos < length data)%nat ->
  GetNextQuantum pf (DO_PAD_NO =? padf) data (length data) dpos buf = Ok (n, p, [q0; q1; q2; q3], true) ->
  decode_loop (S fuel) pf padf termf data (length data) dpos true buf result =
  let '(bytes, c) := quantum_bytes n q0 q1 q2 q3 in
  if (n <? 4)%nat
  then Ok (if negb (DO_TERM_ANY =? termf) && negb (0 =? c) then false else true, p, result ++ bytes)
  else decode_loop fuel pf padf termf data (length data) p true [q0; q1; q2; q3] (result ++ bytes).
Proof.
  intros Hd E. cbn [decode_loop]. rewrite (proj2 (Nat.ltb_lt _ _)), E, bind_ok by done.
  change (rd [q0; q1; q2; q3] 0) with (Ok q0). change (rd [q0; q1; q2; q3] 1) with (Ok q1).
  change (rd [q0; q1; q2; q3] 2) with (Ok q2). change (rd [q0; q1; q2; q3] 3) with (Ok q3).
  rewrite !bind_ok. destruct (quantum_bytes n q0 q1 q2 q3) as [bytes c]. cbv zeta.
  destruct (n <? 4)%nat; [|done]. cbn [negb]. by rewrite andb_false_r.
Qed.

(** Padding is allowed, or not needed. *)
Definition padding_ok (padf : Z) (n : nat) : Prop :=
  (DO_PAD_NO =? padf) = false \/ (n mod 3 = 0)%nat.

Lemma decode_loop_ok fuel pf padf termf pre rest buf result :
  (length rest <= fuel)%nat -> Forall u8 rest -> padding_ok padf (length rest) ->
  length buf = 4%nat ->
  decode_loop fuel pf padf termf (pre ++ text rest) (length (pre ++ text rest)) (length pre)
    true buf result = Ok (true, length (pre ++ text rest), result ++ rest).
Proof.
  revert pre rest buf result. induction fuel as [|fuel IH]; intros pre rest buf result Hf H Hp Hb.
  { destruct rest; [|cbn in Hf; lia]. cbn [decode_loop text]. rewrite !app_nil_r.
    by rewrite Nat.ltb_irrefl. }
  assert (H0 : u8 0) by (unfold u8; lia).
  destruct rest as [|a [|b [|c rest]]].
  - cbn [decode_loop text]. rewrite !app_nil_r. by rewrite Nat.ltb_irrefl.
  - pose proof (Forall_inv H) as Ha. destruct Hp as [Hp|Hp]; [|done].
    destruct (six_ranges a 0 0 Ha H0 H0) as (R1 & R2 & _). cbn [text].
    erewrite decode_round; [|rewrite length_app; cbn; lia|by apply quantum_2].
    unfold quantum_bytes. cbn [Nat.leb Nat.ltb].
    rewrite quantum_first, quantum_rest_1, andb_false_r by done. by rewrite length_app.
  - pose proof (Forall_inv H) as Ha. pose proof (Forall_inv (Forall_inv_tail H)) as Hb'.
    destruct Hp as [Hp|Hp]; [|done].
    destruct (six_ranges a b 0 Ha Hb' H0) as (R1 & R2 & R3 & _). cbn [text].
    erewrite decode_round; [|rewrite length_app; cbn; lia|by apply quantum_3].
    unfold quantum_bytes. cbn [Nat.leb Nat.ltb].
    rewrite quantum_first, quantum_second, quantum_rest_2, andb_false_r by done. by rewrite length_app.
  - pose proof (Forall_inv H) as Ha. pose proof (Forall_inv (Forall_inv_tail H)) as Hb'.
    pose proof (Forall_inv (Forall_inv_tail (Forall_inv_tail H))) as Hc.
    do 3 apply Forall_inv_tail in H.
    pose proof (six_ranges a b c Ha Hb' Hc) as R. cbn [text].
    erewrite decode_round; [|rewrite length_app; cbn; lia|by apply quantum_4].
    unfold quantum_bytes. cbn [Nat.leb Nat.ltb].
    rewrite quantum_first, quantum_second, quantum_third by done.
    set (qs := [code (first6 a); _; _; _]). rewrite (app_assoc pre qs).
    replace (length pre + 4)%nat with (length (pre ++ qs)) by (by rewrite length_app).
    rewrite IH; [rewrite <- !app_assoc; done|cbn in Hf; lia|done| |done].
    destruct Hp as [Hp|Hp]; [by left|right]. cbn [length] in Hp.
    replace (S (S (S (length rest)))) with (length rest + 1 * 3)%nat in Hp by lia.
    by rewrite Nat.Div0.mod_add in Hp.
Qed.

Lemma chars_enough n : (n <= chars n)%nat.
Proof.
  unfold chars. pose proof (Nat.div_mod_eq (n + 2) 3). pose proof (Nat.mod_upper_bound (n + 2) 3). lia.
Qed.

(** The flags that may be passed to the decoder. *)
Definition flags_ok (flags : Z) : bool :=
  (flags <=? 63) && negb (0 =? Z.land flags DO_PARSE_MASK) &&
  negb (0 =? Z.land flags DO_PAD_MASK) && negb (0 =? Z.land flags DO_TERM_MASK).

(** An encoded text is decoded. *)
Lemma decode_text garbage data flags :
  Forall u8 data -> length garbage = 4%nat -> flags_ok flags = true ->
  (Z.land flags DO_PAD_MASK = DO_PAD_NO -> (length data mod 3 = 0)%nat) ->
  DecodeFromArray garbage (text data) (length (text data)) flags = Ok (true, data, length (text data)).
Proof.
  intros H Hg Hf Hp. unfold flags_ok in Hf.
  apply andb_true_iff in Hf as [Hf F4]. apply andb_true_iff in Hf as [Hf F3].
  apply andb_true_iff in Hf as [F1 F2]. apply negb_true_iff in F2, F3, F4.
  unfold DecodeFromArray. change (Z.lor (Z.lor DO_PARSE_MASK DO_PAD_MASK) DO_TERM_MASK) with 63.
  rewrite F1. cbn [negb]. cbv zeta. rewrite F2, F3, F4. cbn [orb].
  rewrite (decode_loop_ok (length (text data)) _ _ _ [] data garbage []), bind_ok; try done.
  - rewrite Nat.eqb_refl, andb_false_r. done.
  - rewrite length_text. apply chars_enough.
  - unfold padding_ok. destruct (Z.eqb_spec DO_PAD_NO (Z.land flags DO_PAD_MASK)) as [E|]; [right|by left].
    by apply Hp.
Qed.

(** What has been encoded is decoded again, under all flags: the text of a list of
    bytes has four characters for every three bytes or part of them, and the decoder
    succeeds, returns the bytes and uses the whole text, however strict it has to be
    and whatever its buffer held; only when padding is forbidden must the text not
    need any. *)
Lemma base64_roundtrip garbage data flags :
  Forall u8 data -> length garbage = 4%nat -> flags_ok flags = true ->
  (Z.land flags DO_PAD_MASK = DO_PAD_NO -> (length data mod 3 = 0)%nat) ->
  exists s, EncodeFromArray data (length data) = Ok s /\
    length s = ((length data + 2) / 3 * 4)%nat /\
    DecodeFromArray garbage s (length s) flags = Ok (true, data, length s).
Proof.
  intros H Hg Hf Hp. exists (text data). split; [by apply EncodeFromArray_text|].
  split; [apply length_text|by apply decode_text].
Qed.

(** Every character of an encoded text is one of the alphabet or padding. *)
Lemma code_is_char v : 0 <= v < 64 -> IsBase64Char (code v) = true.
Proof. intros Hv. enumerate v 64%nat. Qed.

(** The next character of the table, cyclically, for the characters of the table. *)
Lemma next_char_cycle v :
  0 <= v < 64 -> GetNextBase64Char (code v) = Ok (Some (code ((v + 1) mod 64))).
Proof. intros Hv. enumerate v 64%nat. Qed.

(** The zero character is found at the end of the table, and the next one lies beyond it. *)
Example next_of_zero : GetNextBase64Char 0 = Fault OutOfBounds.
Proof. reflexivity. Qed.

(** Padding that is due but missing, and a character that does not belong to the text,
    under strict and lax flags. *)
Example missing_padding :
  DecodeFromArray [0; 0; 0; 0] (map char (list_ascii_of_string "TWE")) 3 DO_STRICT
    = Ok (false, [77; 97], 3%nat) /\
  DecodeFromArray [0; 0; 0; 0] (map char (list_ascii_of_string "TW*E")) 4 DO_LAX
    = Ok (true, [77; 97], 4%nat) /\
  DecodeFromArray [0; 0; 0; 0] (map char (list_ascii_of_string "TW*E")) 4 DO_STRICT
    = Ok (false, [77], 2%nat).
Proof. split_and!; vm_compute; reflexivity. Qed.
