(* ===== verification/Base64White.v ===== *)
(** * White space in base64 text

    Unless the decoder of [base/base64.cc] is to be strict it gives the same bytes when white space is
    put between the characters of a text. *)
From Stdlib Require Import String Ascii.
From S2P Require Import Prelude CInt AudioUtil ChannelBuffer Base64.

(** White space, and the text without it. *)
Definition white_char (c : Z) : bool := match rd DecodeTable c with Ok v => sp =? v | Fault _ => false end.
Definition without_white (l : list Z) : list Z := List.filter (fun c => negb (white_char c)) l.

Section stripped.
Variables (pf : Z) (ip : bool) (data : list Z).
Hypothesis Hpf : (pf =? DO_PARSE_STRICT) = false.
Hypothesis Hdata : Forall u8 data.

(** How many other characters come before a position. *)
Definition nw (p : nat) : nat := length (without_white (take p data)).

Lemma nw_next p c : data !! p = Some c -> nw (S p) = if white_char c then nw p else S (nw p).
Proof.
  intros E. unfold nw, without_white. rewrite (take_S_r _ _ _ E), List.filter_app, length_app. cbn [List.filter].
  destruct (white_char c); cbn; lia.
Qed.

Lemma nw_end : nw (length data) = length (without_white data).
Proof. unfold nw. by rewrite firstn_all. Qed.

Lemma nw_lookup p c : data !! p = Some c -> white_char c = false -> without_white data !! nw p = Some c.
Proof.
  intros E Hc. unfold nw.
  assert (Es : without_white data = without_white (take p data) ++ c :: without_white (drop (S p) data)).
  { rewrite <- (take_drop_middle data p c E) at 1. unfold without_white. rewrite List.filter_app. cbn [List.filter]. by rewrite Hc. }
  rewrite Es. by apply list_lookup_middle.
Qed.

Lemma nw_le p : (p <= length data)%nat -> (nw p <= length (without_white data))%nat.
Proof.
  intros _. unfold nw. assert (Es : without_white data = without_white (take p data) ++ without_white (drop p data)).
  { unfold without_white. by rewrite <- List.filter_app, take_drop. }
  rewrite Es, length_app. lia.
Qed.

Lemma decoded c : u8 c -> exists v, rd DecodeTable c = Ok v.
Proof.
  intros Hc. assert (W : wp (rd DecodeTable c) (fun _ => True)).
  { apply wp_rd; [|done]. change (zlen DecodeTable) with 256. unfold u8 in Hc. lia. }
  apply wp_ok in W as (v & E & _). by exists v.
Qed.

(** Two states of the loop at the same character. *)
Record same (q q' : quantum) : Prop := {
  sm_dpos : q_dpos q' = nw (q_dpos q);
  sm_len : byte_len q' = byte_len q;
  sm_pad : pad_len q' = pad_len q;
  sm_start : pad_start q' = nw (pad_start q);
  sm_buf : length (qbuf q) = 4%nat /\ length (qbuf q') = 4%nat /\
           take (byte_len q) (qbuf q') = take (byte_len q) (qbuf q) }.

(** A state that the loop can be in. *)
Definition inside (n : nat) (q : quantum) : Prop :=
  (q_dpos q <= n)%nat /\ (byte_len q + pad_len q <= 4)%nat.

Lemma take_insert_eq (b b' : list Z) n v :
  length b = 4%nat -> length b' = 4%nat -> (n < 4)%nat -> take n b' = take n b ->
  take (S n) (<[n := v]> b') = take (S n) (<[n := v]> b) /\ take n (<[n := v]> b') = take n (<[n := v]> b).
Proof.
  intros L L' Hn E. assert (T : forall x : list Z, length x = 4%nat -> take (S n) (<[n := v]> x) = take n x ++ [v]).
  { intros x Hx. assert (En : (<[n := v]> x) !! n = Some v) by (apply list_lookup_insert_eq; lia).
    rewrite (take_S_r _ _ _ En). by rewrite take_insert, decide_False by lia. }
  split; [by rewrite !T, E by done|]. by rewrite !take_insert, !decide_False by lia.
Qed.

(** The outcomes [o] and [o'] of a round that starts with [n] values and padding [k]. *)
Definition stepped (p n k s s' : nat) (b b' : list Z) (o o' : option quantum) : Prop :=
  match o, o' with
  | None, None => same (MkQuantum p b n k s) (MkQuantum (nw p) b' n k s')
  | Some q, Some q' => same q q' /\ q_dpos q = p /\ (byte_len q + pad_len q <= 4)%nat /\ (n <= byte_len q <= S n)%nat
  | _, _ => False
  end.

(** One round on both texts, at a character that is not white. *)
Lemma step_same p c buf buf' n k s s' :
  data !! p = Some c -> white_char c = false -> (n < 4)%nat -> (n + k <= 4)%nat ->
  same (MkQuantum p buf n k s) (MkQuantum (nw p) buf' n k s') ->
  exists b b' o o', quantum_step pf ip data (MkQuantum p buf n k s) = Ok (b, o) /\
    quantum_step pf ip (without_white data) (MkQuantum (nw p) buf' n k s') = Ok (b', o') /\
    stepped p n k s s' b b' o o'.
Proof.
  intros E Hc Hn Hk [_ _ _ Hs (L & L' & Eb)]. cbn [q_dpos qbuf byte_len pad_len pad_start] in *.
  destruct (decoded c) as [v Ev]; [exact (Forall_lookup_1 _ _ _ _ Hdata E)|].
  destruct (take_insert_eq buf buf' n v L L' Hn Eb) as [T1 T2].
  unfold quantum_step. cbn [q_dpos qbuf byte_len pad_len pad_start].
  rewrite (rd_Some _ _ _ E), (rd_Some _ _ _ (nw_lookup p c E Hc)), !bind_ok, Ev, !bind_ok.
  rewrite !wr_ok, !bind_ok by lia. cbv zeta.
  assert (Hw : (sp =? v) = false) by (unfold white_char in Hc; by rewrite Ev in Hc). rewrite Hw.
  eexists _, _, _, _. split; [reflexivity|]. split; [reflexivity|].
  set (b := <[n := v]> buf) in *. set (b' := <[n := v]> buf') in *.
  assert (S0 : forall m j r r', r' = nw r -> take m b' = take m b ->
    same (MkQuantum p b m j r) (MkQuantum (nw p) b' m j r')).
  { intros m j r r' -> Ht. constructor; cbn; try done. unfold b, b'. by rewrite !length_insert. }
  assert (Go : forall m j r r', (n <= m <= S n)%nat -> (m + j <= 4)%nat -> r' = nw r -> take m b' = take m b ->
    stepped p n k s s' b b' (Some (MkQuantum p b m j r)) (Some (MkQuantum (nw p) b' m j r'))).
  { intros m j r r' Hm Hj Hr Ht. split; [by apply S0|done]. }
  assert (Stop : stepped p n k s s' b b' None None) by by apply S0.
  destruct ((il =? v) || (ip && (pd =? v))).
  { destruct (pf =? DO_PARSE_ANY); [apply Go; (done || lia)|exact Stop]. }
  destruct (pd =? v).
  { destruct (Nat.ltb_spec n 2); [destruct (pf =? DO_PARSE_ANY); [apply Go; (done || lia)|exact Stop]|].
    destruct (Nat.leb_spec 4 (n + k)); [destruct (pf =? DO_PARSE_ANY); [apply Go; (done || lia)|exact Stop]|].
    destruct (S k =? 1)%nat; apply Go; (done || lia). }
  destruct (Nat.ltb_spec 0 k); [destruct (pf =? DO_PARSE_ANY); [apply Go; (done || lia)|exact Stop]|].
  apply Go; (done || lia).
Qed.

(** A round at white space. *)
Lemma step_white p c buf n k s :
  data !! p = Some c -> white_char c = true -> (n < 4)%nat -> length buf = 4%nat ->
  quantum_step pf ip data (MkQuantum p buf n k s) = Ok (<[n := sp]> buf, Some (MkQuantum p (<[n := sp]> buf) n k s)).
Proof.
  intros E Hc Hn L. unfold quantum_step. cbn [q_dpos qbuf byte_len pad_len pad_start].
  assert (Ev : rd DecodeTable c = Ok sp).
  { unfold white_char in Hc. destruct (rd DecodeTable c) as [v|]; [|done]. by apply Z.eqb_eq in Hc as <-. }
  rewrite (rd_Some _ _ _ E), !bind_ok, Ev, !bind_ok, wr_ok, bind_ok by lia. cbv zeta.
  rewrite Hpf, andb_false_r. done.
Qed.

(** What the two loops have in common when they end. *)
Definition ended (q q' r r' : quantum) : Prop :=
  same r r' /\ (q_dpos r <= length data)%nat /\ (byte_len r + pad_len r <= 4)%nat /\
  (q_dpos q + byte_len r <= q_dpos r + byte_len q)%nat /\
  (q_dpos q' + byte_len r <= q_dpos r' + byte_len q)%nat.

Lemma ended_at fuel fuel' q q' :
  same q q' -> (q_dpos q <= length data)%nat -> (byte_len q + pad_len q <= 4)%nat ->
  (byte_len q = 4 \/ q_dpos q = length data)%nat ->
  exists r r', quantum_loop fuel pf ip data (length data) q = Ok r /\
    quantum_loop fuel' pf ip (without_white data) (length (without_white data)) q' = Ok r' /\ ended q q' r r'.
Proof.
  intros H Hp Hk He. exists q, q'. pose proof H as [Ep En Ek Es _].
  split; [by apply loop_end|]. split; [|by split_and!; try (rewrite ?En; lia)].
  apply loop_end. rewrite En, Ep. destruct He as [He|He]; [by left|right]. rewrite He. apply nw_end.
Qed.

Lemma loop_same fuel : forall fuel' q q',
  same q q' -> (q_dpos q <= length data)%nat -> (byte_len q + pad_len q <= 4)%nat ->
  (length data - q_dpos q <= fuel)%nat -> (length (without_white data) - q_dpos q' <= fuel')%nat ->
  exists r r', quantum_loop fuel pf ip data (length data) q = Ok r /\
    quantum_loop fuel' pf ip (without_white data) (length (without_white data)) q' = Ok r' /\ ended q q' r r'.
Proof.
  induction fuel as [|fuel IH]; intros fuel' [p buf n k s] [p' buf' n' k' s'] H Hp Hk Hf Hf';
    pose proof H as [Ep En Ek Es (L & L' & Eb)]; cbn [q_dpos qbuf byte_len pad_len pad_start] in *; subst n' k' p' s'.
  { apply ended_at; [done..|]. right. cbn. lia. }
  destruct (decide (n = 4 \/ p = length data)%nat) as [He|He]; [by apply ended_at|].
  destruct (lookup_lt_is_Some_2 data p ltac:(lia)) as [c E]. assert (Hn : (n < 4)%nat) by lia.
  pose proof (nw_next p c E) as En. cbn [quantum_loop byte_len q_dpos].
  rewrite !(proj2 (Nat.ltb_lt _ _)) by lia. cbn [andb]. destruct (white_char c) eqn:Hc.
  - rewrite (step_white p c buf n k s E Hc Hn L), bind_ok. cbn [q_dpos qbuf byte_len pad_len pad_start].
    destruct (IH fuel' (MkQuantum (S p) (<[n := sp]> buf) n k s) (MkQuantum (nw p) buf' n k (nw s)))
      as (r & r' & E1 & E2 & Hr & Hr1 & Hr2 & Hr3 & Hr4); cbn [q_dpos byte_len pad_len]; try lia.
    { constructor; cbn; try done. rewrite length_insert. by rewrite take_insert, decide_False by lia. }
    exists r, r'. split; [done|]. split; [done|]. cbn [q_dpos byte_len] in *. split_and!; (done || (cbn [q_dpos byte_len]; lia)).
  - pose proof (nw_lookup p c E Hc) as E'. pose proof (lookup_lt_Some _ _ _ E') as Hp'.
    destruct fuel' as [|fuel']; [lia|]. cbn [quantum_loop byte_len q_dpos].
    rewrite !(proj2 (Nat.ltb_lt _ _)) by lia. cbn [andb].
    destruct (step_same p c buf buf' n k s (nw s) E Hc Hn Hk H) as (b & b' & o & o' & -> & -> & Ho).
    rewrite !bind_ok. destruct o as [q|], o' as [q'|]; try done; cbn [stepped] in Ho.
    + destruct Ho as ([Dp Dn Dk Ds (Dl & Dl' & Db)] & Eq & Hq & Hnq). rewrite Eq in Dp.
      destruct (IH fuel' (MkQuantum (S (q_dpos q)) (qbuf q) (byte_len q) (pad_len q) (pad_start q))
                  (MkQuantum (S (q_dpos q')) (qbuf q') (byte_len q') (pad_len q') (pad_start q')))
        as (r & r' & E1 & E2 & Hr & Hr1 & Hr2 & Hr3 & Hr4); cbn [q_dpos byte_len pad_len] in *; try lia.
      { constructor; cbn [q_dpos qbuf byte_len pad_len pad_start]; [by rewrite Dp, Eq, En|done..]. }
      exists r, r'. split; [done|]. split; [done|]. split_and!; (done || (cbn [q_dpos byte_len]; lia)).
    + cbn [q_dpos byte_len pad_len pad_start]. eexists _, _. split; [done|]. split; [done|]. by split_and!.
Qed.

(** A quantum of both texts has the same values. *)
Lemma next_same dpos buf buf' : (dpos <= length data)%nat -> length buf = 4%nat -> length buf' = 4%nat ->
  exists n d d' vs padded,
    GetNextQuantum pf ip data (length data) dpos buf = Ok (n, d, vs, padded) /\
    GetNextQuantum pf ip (without_white data) (length (without_white data)) (nw dpos) buf' = Ok (n, d', vs, padded) /\
    length vs = 4%nat /\ (n <= 4)%nat /\
    (n = 4%nat -> d' = nw d /\ (d <= length data)%nat /\ (dpos + 4 <= d)%nat /\ (nw dpos + 4 <= d')%nat).
Proof.
  intros Hd L L'. unfold GetNextQuantum.
  assert (S0 : same (MkQuantum dpos buf 0 0 0) (MkQuantum (nw dpos) buf' 0 0 0)) by by constructor.
  destruct (loop_same (length data - dpos) (length (without_white data) - nw dpos) _ _ S0)
    as (r & r' & -> & -> & [Sp Sn Sk Ss (Sl & Sl' & Sb)] & R1 & R2 & R3 & R4); cbn [q_dpos byte_len pad_len] in *; try lia.
  rewrite !bind_ok, Sn, Sk, Sb. cbv zeta. set (vs := take _ _ ++ _).
  assert (Lv : length vs = 4%nat) by (unfold vs; rewrite length_app, length_take, length_replicate; lia).
  destruct (Nat.eqb_spec 4 (byte_len r + pad_len r)) as [E|E].
  - exists (byte_len r), (q_dpos r), (q_dpos r'), vs, true. split_and!; (done || lia).
  - eexists (byte_len r), _, _, vs, false. split_and!; (done || lia).
Qed.

End stripped.

(** The memory of the values is read. *)
Lemma read_values {A} v0 v1 v2 v3 (k : Z -> Z -> Z -> Z -> res A) :
  (q0 ← rd [v0; v1; v2; v3] 0; q1 ← rd [v0; v1; v2; v3] 1; q2 ← rd [v0; v1; v2; v3] 2; q3 ← rd [v0; v1; v2; v3] 3;
   k q0 q1 q2 q3) = k v0 v1 v2 v3.
Proof. done. Qed.

(** At the end of the stripped text there are no values. *)
Lemma next_at_end pf ip s buf n d vs padded :
  GetNextQuantum pf ip s (length s) (length s) buf = Ok (n, d, vs, padded) -> n = 0%nat /\ vs = [0; 0; 0; 0].
Proof.
  unfold GetNextQuantum. rewrite loop_end by (by right). rewrite bind_ok. cbn. intros [= <- _ <- _]. done.
Qed.

Section decoded.
Variables (pf padf termf : Z) (data : list Z).
Hypothesis Hpf : (pf =? DO_PARSE_STRICT) = false.
Hypothesis Hdata : Forall u8 data.

(** Both decoders give the same bytes. *)
Definition decoders_agree (fuel fuel' dpos : nat) (success success' : bool) (buf buf' result : list Z) : Prop :=
  exists s d s' d' out,
    decode_loop fuel pf padf termf data (length data) dpos success buf result = Ok (s, d, out) /\
    decode_loop fuel' pf padf termf (without_white data) (length (without_white data)) (nw data dpos) success' buf' result = Ok (s', d', out).

Lemma agree_at_end fuel fuel' success success' buf buf' result :
  decoders_agree fuel fuel' (length data) success success' buf buf' result.
Proof.
  unfold decoders_agree. rewrite nw_end. destruct fuel, fuel'; cbn [decode_loop];
    rewrite !Nat.ltb_irrefl; by eexists _, _, _, _, _.
Qed.

Lemma decode_same fuel : forall fuel' dpos success success' buf buf' result,
  (dpos <= length data)%nat -> length buf = 4%nat -> length buf' = 4%nat ->
  (length data - dpos <= fuel)%nat -> (length (without_white data) - nw data dpos <= fuel')%nat ->
  decoders_agree fuel fuel' dpos success success' buf buf' result.
Proof.
  induction fuel as [|fuel IH]; intros fuel' dpos success success' buf buf' result Hd L L' Hf Hf'.
  { assert (dpos = length data) as -> by lia. apply agree_at_end. }
  destruct (Nat.eq_dec dpos (length data)) as [->|Hne]; [apply agree_at_end|].
  unfold decoders_agree. cbn [decode_loop]. rewrite (proj2 (Nat.ltb_lt dpos _)) by lia.
  destruct (next_same pf (DO_PAD_NO =? padf) data Hpf Hdata dpos buf buf' Hd L L')
    as (n & d & d' & vs & padded & -> & E' & Lv & Hn4 & Hn).
  rewrite bind_ok. destruct (four_cells vs Lv) as (v0 & v1 & v2 & v3 & ->). rewrite read_values.
  pose proof (nw_le data dpos Hd) as Hnw.
  destruct (Nat.eq_dec (nw data dpos) (length (without_white data))) as [Ee|Hne'].
  - rewrite Ee in E'. apply next_at_end in E' as [-> [= -> -> -> ->]].
    change (quantum_bytes 0 0 0 0 0) with (@nil Z, 0). cbv beta iota zeta. rewrite app_nil_r. cbn [Nat.ltb Nat.leb].
    rewrite Ee. destruct fuel'; cbn [decode_loop]; rewrite Nat.ltb_irrefl; by eexists _, _, _, _, _.
  - destruct fuel' as [|fuel']; [lia|]. cbn [decode_loop]. rewrite (proj2 (Nat.ltb_lt (nw data dpos) _)), E', bind_ok by lia.
    rewrite read_values. destruct (quantum_bytes n v0 v1 v2 v3) as [bytes c]. cbv zeta.
    destruct (Nat.ltb_spec n 4) as [H4|H4]; [by eexists _, _, _, _, _|].
    destruct (Hn ltac:(lia)) as (-> & Hd1 & Hd2 & Hd3). apply IH; [done|done|done|lia|lia].
Qed.

End decoded.

(** White space does not matter. *)
Lemma Decode_white garbage garbage' data flags :
  Forall u8 data -> length garbage = 4%nat -> length garbage' = 4%nat -> flags_ok flags = true ->
  Z.land flags DO_PARSE_MASK <> DO_PARSE_STRICT ->
  exists out, Decode garbage data flags = Ok out /\ Decode garbage' (without_white data) flags = Ok out.
Proof.
  intros H L L' Hf Hp. unfold Decode, DecodeFromArray. unfold flags_ok in Hf.
  apply andb_true_iff in Hf as [Hf F4]. apply andb_true_iff in Hf as [Hf F3].
  apply andb_true_iff in Hf as [F1 F2]. apply negb_true_iff in F2, F3, F4.
  change (Z.lor (Z.lor DO_PARSE_MASK DO_PAD_MASK) DO_TERM_MASK) with 63.
  rewrite F1. cbn [negb]. cbv zeta. rewrite F2, F3, F4. cbn [orb]. apply Z.eqb_neq in Hp.
  destruct (decode_same _ (Z.land flags DO_PAD_MASK) (Z.land flags DO_TERM_MASK) data Hp H (length data) (length (without_white data))
    0 true true garbage garbage' [] ltac:(lia) L L' ltac:(lia)) as (s & d & s' & d' & out & E1 & E2).
  { unfold nw. cbn. lia. }
  change (nw data 0) with 0%nat in E2. exists out. by rewrite E1, E2.
Qed.

(** An encoded text has no white space. *)
Lemma code_white v : 0 <= v < 64 -> white_char (code v) = false.
Proof. intros Hv. enumerate v 64%nat. Qed.

(** What holds of the characters of the alphabet and of padding holds of a whole text. *)
Lemma text_chars (P : Z -> Prop) l : (forall v, 0 <= v < 64 -> P (code v)) -> P kPad ->
  Forall u8 l -> Forall P (text l).
Proof.
  intros Hc Hp. assert (H0 : u8 0) by (unfold u8; lia).
  induction l as [l IH] using (well_founded_induction (Wf_nat.well_founded_ltof _ length)).
  intros H. destruct l as [|a [|b [|c l]]]; cbn [text].
  - apply List.Forall_nil.
  - destruct (six_ranges a 0 0 (Forall_inv H) H0 H0) as (R1 & R2 & _).
    repeat (apply List.Forall_cons; [auto|]). apply List.Forall_nil.
  - destruct (six_ranges a b 0 (Forall_inv H) (Forall_inv (Forall_inv_tail H)) H0) as (R1 & R2 & R3 & _).
    repeat (apply List.Forall_cons; [auto|]). apply List.Forall_nil.
  - pose proof (Forall_inv H) as Ha. pose proof (Forall_inv (Forall_inv_tail H)) as Hb.
    pose proof (Forall_inv (Forall_inv_tail (Forall_inv_tail H))) as Hd. do 3 apply Forall_inv_tail in H.
    destruct (six_ranges a b c Ha Hb Hd) as (R1 & R2 & R3 & R4). apply Forall_app. split.
    + repeat (apply List.Forall_cons; [auto|]). apply List.Forall_nil.
    + apply IH; [unfold Wf_nat.ltof; cbn; lia|done].
Qed.

Lemma text_white l : Forall u8 l -> Forall (fun c => white_char c = false) (text l).
Proof. intros H. by apply text_chars; [apply code_white| |]. Qed.

Lemma strip_keeps l : Forall (fun c => white_char c = false) l -> without_white l = l.
Proof. induction 1 as [|c l Hc Hl IH]; [done|]. unfold without_white in *. cbn. rewrite Hc. cbn. by rewrite IH. Qed.
