(* ===== verification/StringEncode.v ===== *)
(** * Encoding and splitting of strings

    [base/stringencode.{h,cc}]: hexadecimal text, escaped URLs, UTF-8, and the routines that
    split strings at a delimiter and join them.  Characters are numbers between 0 and
    255; a [std::string] is a list of them, a C buffer is a list and the length the
    caller claims.  The conversions of integers to text are in [StringBuilder]; those of
    floating-point numbers and pointers, which are calls of [snprintf], are not modelled. *)
From Stdlib Require Import String Ascii.
From S2P Require Import Prelude CInt AudioUtil ChannelBuffer Base64.

Definition text_of (s : string) : list Z := map char (list_ascii_of_string s).

(** ** Hexadecimal text *)

Definition HEX : list Z := text_of "0123456789abcdef".

Definition hex_encode_char (val : Z) : res Z :=
  if negb (val <? 16) then Fault AssertionFailed else
  if val <? 16 then rd HEX val else Ok (char "!").

Definition hex_decode_char (ch : Z) : option Z :=
  if (char "0" <=? ch) && (ch <=? char "9") then Some (ch - char "0")
  else if (char "A" <=? ch) && (ch <=? char "Z") then Some (ch - char "A" + 10)
  else if (char "a" <=? ch) && (ch <=? char "z") then Some (ch - char "a" + 10)
  else None.

(** A round takes a byte of the source: [srclen] rounds are enough. *)
Fixpoint hex_encode_loop (fuel : nat) (bsource : list Z) (srclen : nat) (delimiter : Z)
    (srcpos bufpos : nat) (buffer : list Z) : res (nat * list Z) :=
  if (srcpos <? srclen)%nat then
    match fuel with
    | O => Fault OutOfFuel
    | S fuel =>
      ch ← rd bsource (Z.of_nat srcpos);
      let srcpos := S srcpos in
      d ← hex_encode_char (Z.land (Z.shiftr ch 4) 15);
      buffer ← wr buffer (Z.of_nat bufpos) d;
      d ← hex_encode_char (Z.land ch 15);
      buffer ← wr buffer (Z.of_nat (bufpos + 1)) d;
      let bufpos := (bufpos + 2)%nat in
      if negb (delimiter =? 0) && (srcpos <? srclen)%nat then
        buffer ← wr buffer (Z.of_nat bufpos) delimiter;
        hex_encode_loop fuel bsource srclen delimiter srcpos (S bufpos) buffer
      else hex_encode_loop fuel bsource srclen delimiter srcpos bufpos buffer
    end
  else Ok (bufpos, buffer).

(** The length of the text and the buffer; [None] is the null pointer. *)
Definition hex_encode_with_delimiter (buffer : option (list Z)) (buflen : nat)
    (csource : list Z) (srclen : nat) (delimiter : Z) : res (nat * list Z) :=
  match buffer with
  | None => Fault AssertionFailed
  | Some buffer =>
    if (buflen =? 0)%nat then Ok (0%nat, buffer) else
    let needed := if negb (delimiter =? 0) then (srclen * 3)%nat else (srclen * 2 + 1)%nat in
    if (buflen <? needed)%nat then Ok (0%nat, buffer) else
    '(bufpos, buffer) ← hex_encode_loop srclen csource srclen delimiter 0 0 buffer;
    buffer ← wr buffer (Z.of_nat bufpos) 0;
    Ok (bufpos, buffer)
  end.

Definition hex_encode (buffer : option (list Z)) (buflen : nat) (csource : list Z)
    (srclen : nat) : res (nat * list Z) :=
  hex_encode_with_delimiter buffer buflen csource srclen 0.

(** On strings; [garbage] is what the array on the stack held. *)
Definition hex_encode_with_delimiter_str (garbage : list Z) (source : list Z) (delimiter : Z)
    : res (list Z) :=
  let srclen := length source in
  let kBufferSize := (srclen * 3)%nat in
  '(length, buffer) ← hex_encode_with_delimiter (Some (take kBufferSize garbage)) kBufferSize
                        source srclen delimiter;
  if negb ((srclen =? 0)%nat || (0 <? length)%nat) then Fault AssertionFailed
  else take_exact length buffer.

Definition hex_encode_str (garbage : list Z) (source : list Z) : res (list Z) :=
  hex_encode_with_delimiter_str garbage source 0.

(** A round takes two characters or more. *)
Fixpoint hex_decode_loop (fuel : nat) (source : list Z) (srclen : nat) (delimiter : Z)
    (srcpos bufpos : nat) (bbuffer : list Z) : res (nat * list Z) :=
  if (srcpos <? srclen)%nat then
    match fuel with
    | O => Fault OutOfFuel
    | S fuel =>
      if (srclen - srcpos <? 2)%nat then Ok (0%nat, bbuffer) else
      c1 ← rd source (Z.of_nat srcpos);
      match hex_decode_char c1 with
      | None => Ok (0%nat, bbuffer)
      | Some h1 =>
        c2 ← rd source (Z.of_nat (srcpos + 1));
        match hex_decode_char c2 with
        | None => Ok (0%nat, bbuffer)
        | Some h2 =>
          bbuffer ← wr bbuffer (Z.of_nat bufpos) (to_u8 (Z.lor (Z.shiftl h1 4) h2));
          let bufpos := S bufpos in
          let srcpos := (srcpos + 2)%nat in
          if negb (delimiter =? 0) && (1 <? srclen - srcpos)%nat then
            c ← rd source (Z.of_nat srcpos);
            if negb (c =? delimiter) then Ok (0%nat, bbuffer)
            else hex_decode_loop fuel source srclen delimiter (S srcpos) bufpos bbuffer
          else hex_decode_loop fuel source srclen delimiter srcpos bufpos bbuffer
        end
      end
    end
  else Ok (bufpos, bbuffer).

Definition hex_decode_with_delimiter (cbuffer : option (list Z)) (buflen : nat)
    (source : list Z) (srclen : nat) (delimiter : Z) : res (nat * list Z) :=
  match cbuffer with
  | None => Fault AssertionFailed
  | Some bbuffer =>
    if (buflen =? 0)%nat then Ok (0%nat, bbuffer) else
    let needed := if negb (delimiter =? 0) then ((srclen + 1) / 3)%nat else (srclen / 2)%nat in
    if (buflen <? needed)%nat then Ok (0%nat, bbuffer) else
    hex_decode_loop srclen source srclen delimiter 0 0 bbuffer
  end.

Definition hex_decode (cbuffer : option (list Z)) (buflen : nat) (source : list Z)
    (srclen : nat) : res (nat * list Z) :=
  hex_decode_with_delimiter cbuffer buflen source srclen 0.

Definition hex_decode_with_delimiter_str (buffer : option (list Z)) (buflen : nat)
    (source : list Z) (delimiter : Z) : res (nat * list Z) :=
  hex_decode_with_delimiter buffer buflen source (length source) delimiter.
Definition hex_decode_str (buffer : option (list Z)) (buflen : nat) (source : list Z)
    : res (nat * list Z) :=
  hex_decode_with_delimiter_str buffer buflen source 0.

(** ** Escaped URLs *)

(** The condition of the second branch, which assigns [h1] and [h2]. *)
Definition escape_at (source : list Z) (srclen srcpos : nat) (ch : Z) : res (option (Z * Z)) :=
  if (ch =? char "%") && (srcpos + 1 <? srclen)%nat then
    c1 ← rd source (Z.of_nat srcpos);
    match hex_decode_char c1 with
    | None => Ok None
    | Some h1 => c2 ← rd source (Z.of_nat (srcpos + 1));
                 Ok (option_map (pair h1) (hex_decode_char c2))
    end
  else Ok None.

Fixpoint url_loop (fuel : nat) (buflen : nat) (source : list Z) (srclen : nat)
    (srcpos bufpos : nat) (buffer : list Z) : res (nat * list Z) :=
  if (srcpos <? srclen)%nat && (bufpos + 1 <? buflen)%nat then
    match fuel with
    | O => Fault OutOfFuel
    | S fuel =>
      ch ← rd source (Z.of_nat srcpos);
      let srcpos := S srcpos in
      if ch =? char "+" then
        buffer ← wr buffer (Z.of_nat bufpos) (char " ");
        url_loop fuel buflen source srclen srcpos (S bufpos) buffer
      else
        h ← escape_at source srclen srcpos ch;
        match h with
        | Some (h1, h2) =>
          buffer ← wr buffer (Z.of_nat bufpos) (to_u8 (Z.lor (Z.shiftl h1 4) h2));
          url_loop fuel buflen source srclen (srcpos + 2) (S bufpos) buffer
        | None =>
          buffer ← wr buffer (Z.of_nat bufpos) ch;
          url_loop fuel buflen source srclen srcpos (S bufpos) buffer
        end
    end
  else Ok (bufpos, buffer).

Definition url_decode (buffer : option (list Z)) (buflen : nat) (source : list Z)
    (srclen : nat) : res (nat * list Z) :=
  match buffer with
  | None => Ok (S srclen, [])
  | Some buffer =>
    if (buflen <=? 0)%nat then Ok (0%nat, buffer) else
    '(bufpos, buffer) ← url_loop srclen buflen source srclen 0 0 buffer;
    buffer ← wr buffer (Z.of_nat bufpos) 0;
    Ok (bufpos, buffer)
  end.

(** ** Transformations of strings *)

Definition Transform : Type := option (list Z) -> nat -> list Z -> nat -> res (nat * list Z).

(** [garbage] is what the array on the stack held. *)
Definition transform (garbage : list Z) (maxlen : nat) (source : list Z) (t : Transform)
    : res (nat * list Z) :=
  '(length, buffer) ← t (Some (take (maxlen + 1) garbage)) (maxlen + 1)%nat source (length source);
  value ← take_exact length buffer;
  Ok (length, value).

Definition s_transform (garbage : list Z) (source : list Z) (t : Transform) : res (list Z) :=
  '(maxlen, _) ← t None 0%nat source (length source);
  '(len, buffer) ← t (Some (take maxlen garbage)) maxlen source (length source);
  take_exact len buffer.

Definition s_url_decode (garbage source : list Z) : res (list Z) :=
  s_transform garbage source url_decode.

(** ** UTF-8 *)

(** The number of bytes and the value, which is stored only on success. *)
Definition utf8_decode (s : list Z) (srclen : nat) : res (nat * option Z) :=
  s0 ← rd s 0;
  if Z.land s0 0x80 =? 0x00 then Ok (1%nat, Some s0) else
  bad ← (if (srclen <? 2)%nat then Ok true
         else s1 ← rd s 1; Ok (negb (Z.land s1 0xC0 =? 0x80)));
  if bad : bool then Ok (0%nat, None) else
  s1 ← rd s 1;
  let value16 := Z.land s1 0x3F in
  if Z.land s0 0xE0 =? 0xC0
  then Ok (2%nat, Some (Z.lor (Z.shiftl (Z.land s0 0x1F) 6) value16)) else
  bad ← (if (srclen <? 3)%nat then Ok true
         else s2 ← rd s 2; Ok (negb (Z.land s2 0xC0 =? 0x80)));
  if bad : bool then Ok (0%nat, None) else
  s2 ← rd s 2;
  let value16 := Z.lor (Z.shiftl value16 6) (Z.land s2 0x3F) in
  if Z.land s0 0xF0 =? 0xE0
  then Ok (3%nat, Some (Z.lor (Z.shiftl (Z.land s0 0x0F) 12) value16)) else
  bad ← (if (srclen <? 4)%nat then Ok true
         else s3 ← rd s 3; Ok (negb (Z.land s3 0xC0 =? 0x80)));
  if bad : bool then Ok (0%nat, None) else
  s3 ← rd s 3;
  let value16 := Z.lor (Z.shiftl value16 6) (Z.land s3 0x3F) in
  if Z.land s0 0xF8 =? 0xF0
  then Ok (4%nat, Some (Z.lor (Z.shiftl (Z.land s0 0x07) 18) value16)) else
  Ok (0%nat, None).

Definition utf8_encode (buffer : list Z) (buflen : nat) (value : Z) : res (nat * list Z) :=
  if (value <=? 0x7F) && (1 <=? buflen)%nat then
    buffer ← wr buffer 0 (to_u8 value);
    Ok (1%nat, buffer)
  else if (value <=? 0x7FF) && (2 <=? buflen)%nat then
    buffer ← wr buffer 0 (Z.lor 0xC0 (to_u8 (Z.shiftr value 6)));
    buffer ← wr buffer 1 (Z.lor 0x80 (to_u8 (Z.land value 0x3F)));
    Ok (2%nat, buffer)
  else if (value <=? 0xFFFF) && (3 <=? buflen)%nat then
    buffer ← wr buffer 0 (Z.lor 0xE0 (to_u8 (Z.shiftr value 12)));
    buffer ← wr buffer 1 (Z.lor 0x80 (to_u8 (Z.land (Z.shiftr value 6) 0x3F)));
    buffer ← wr buffer 2 (Z.lor 0x80 (to_u8 (Z.land value 0x3F)));
    Ok (3%nat, buffer)
  else if (value <=? 0x1FFFFF) && (4 <=? buflen)%nat then
    buffer ← wr buffer 0 (Z.lor 0xF0 (to_u8 (Z.shiftr value 18)));
    buffer ← wr buffer 1 (Z.lor 0x80 (to_u8 (Z.land (Z.shiftr value 12) 0x3F)));
    buffer ← wr buffer 2 (Z.lor 0x80 (to_u8 (Z.land (Z.shiftr value 6) 0x3F)));
    buffer ← wr buffer 3 (Z.lor 0x80 (to_u8 (Z.land value 0x3F)));
    Ok (4%nat, buffer)
  else Ok (0%nat, buffer).

(** ** Reading and writing by position *)

Lemma rd_at (pre post : list Z) x n : n = length pre -> rd (pre ++ x :: post) (Z.of_nat n) = Ok x.
Proof. intros ->. apply rd_Some. by rewrite list_lookup_middle. Qed.

(** Two elements behind a position. *)
Lemma rd_next (pre post : list Z) x y n :
  n = length pre -> rd (pre ++ x :: y :: post) (Z.of_nat (n + 1)) = Ok y.
Proof.
  intros ->. rewrite cons_middle, app_assoc. apply rd_at. rewrite length_app. done.
Qed.

Lemma wr_at (pre post : list Z) x v n :
  n = length pre -> wr (pre ++ x :: post) (Z.of_nat n) v = Ok ((pre ++ [v]) ++ post).
Proof.
  intros ->. apply wp_pure, wp_wr; [unfold zlen; rewrite length_app; cbn; lia|].
  rewrite Nat2Z.id, insert_app_r_alt, Nat.sub_diag, <- app_assoc by lia. done.
Qed.

(** Writing at the front of what is left. *)
Lemma wr_front (pre mem : list Z) v n :
  n = length pre -> (0 < length mem)%nat ->
  wr (pre ++ mem) (Z.of_nat n) v = Ok ((pre ++ [v]) ++ drop 1 mem).
Proof. intros Hn Hm. destruct mem as [|x mem]; [cbn in Hm; lia|]. by apply wr_at. Qed.

(** ** Hexadecimal round trip *)

Definition hex_digit (v : Z) : Z := nth (Z.to_nat v) HEX 0.

Lemma digits_ok v :
  0 <= v < 16 -> hex_encode_char v = Ok (hex_digit v) /\ hex_decode_char (hex_digit v) = Some v.
Proof. intros Hv. enumerate v 16%nat. Qed.

(** The two digits of a byte. *)
Definition high (ch : Z) : Z := Z.land (Z.shiftr ch 4) 15.
Definition low (ch : Z) : Z := Z.land ch 15.

Lemma digit_bounds ch : 0 <= high ch < 16 /\ 0 <= low ch < 16.
Proof.
  unfold high, low. change 15 with (Z.ones 4). rewrite !Z.land_ones by lia.
  split; apply Z.mod_pos_bound; lia.
Qed.

Lemma lor_add a b n : 0 <= n -> 0 <= b < 2 ^ n -> Z.lor (Z.shiftl a n) b = a * 2 ^ n + b.
Proof.
  intros Hn Hb. rewrite Z.shiftl_mul_pow2 by done.
  destruct (Z.eq_dec b 0) as [->|]; [rewrite Z.lor_0_r; lia|].
  enough (E : Z.land (a * 2 ^ n) b = 0) by (pose proof (Z.add_lor_land (a * 2 ^ n) b); lia).
  apply Z.bits_inj'. intros k Hk. rewrite Z.land_spec, Z.bits_0.
  destruct (Z.lt_ge_cases k n) as [Hlt|Hge].
  - rewrite Z.mul_pow2_bits_low by done. done.
  - rewrite (Z.bits_above_log2 b k), andb_false_r; [done|lia|].
    apply Z.lt_le_trans with n; [|done]. apply Z.log2_lt_pow2; lia.
Qed.

Lemma byte_again ch : u8 ch -> to_u8 (Z.lor (Z.shiftl (high ch) 4) (low ch)) = ch.
Proof.
  unfold u8. intros Hc. pose proof (digit_bounds ch) as [_ Hl].
  rewrite lor_add by lia. unfold high, low, to_u8. change 15 with (Z.ones 4).
  rewrite !Z.land_ones, Z.shiftr_div_pow2 by lia. change (2 ^ 4) with 16.
  Z.to_euclidean_division_equations; lia.
Qed.

(** The text of a list of bytes: two digits each, and the delimiter between them
    unless it is 0. *)
Fixpoint hex_text (delimiter : Z) (l : list Z) : list Z :=
  match l with
  | [] => []
  | x :: l =>
    hex_digit (high x) :: hex_digit (low x) ::
    (if negb (delimiter =? 0) && (0 <? length l)%nat then [delimiter] else []) ++ hex_text delimiter l
  end.

Definition separators (delimiter : Z) (n : nat) : nat := if delimiter =? 0 then 0 else (n - 1)%nat.

Lemma length_hex_text delimiter l :
  length (hex_text delimiter l) = (2 * length l + separators delimiter (length l))%nat.
Proof.
  unfold separators. induction l as [|x l IH]; cbn [hex_text length]; [by destruct (delimiter =? 0)|].
  rewrite length_app, IH. destruct (Z.eqb_spec delimiter 0) as [->|]; cbn [negb andb length]; [lia|].
  destruct l; cbn [length Nat.ltb Nat.leb]; lia.
Qed.

Lemma encode_loop_text delimiter rest : forall fuel pre done mem,
  (length rest <= fuel)%nat -> (length (hex_text delimiter rest) <= length mem)%nat ->
  hex_encode_loop fuel (pre ++ rest) (length (pre ++ rest)) delimiter (length pre) (length done)
    (done ++ mem) =
  Ok (length (done ++ hex_text delimiter rest),
      (done ++ hex_text delimiter rest) ++ drop (length (hex_text delimiter rest)) mem).
Proof.
  induction rest as [|x rest IH]; intros fuel pre done mem Hf Hm.
  { rewrite !app_nil_r. destruct fuel; cbn [hex_encode_loop hex_text length]; by rewrite Nat.ltb_irrefl. }
  destruct fuel as [|fuel]; [cbn in Hf; lia|]. cbn [hex_encode_loop].
  rewrite (proj2 (Nat.ltb_lt _ _)) by (rewrite length_app; cbn; lia).
  rewrite rd_at, bind_ok by done. cbv zeta. destruct (digit_bounds x) as [Hh Hl].
  fold (high x) (low x). rewrite (proj1 (digits_ok _ Hh)), bind_ok.
  assert (Hm2 : (2 <= length mem)%nat) by (cbn [hex_text length] in Hm; lia).
  rewrite wr_front, bind_ok by (try done; lia). rewrite (proj1 (digits_ok _ Hl)), bind_ok.
  rewrite wr_front, bind_ok by (rewrite ?length_app, ?length_drop; cbn; lia).
  rewrite <- !app_assoc. cbn [app]. rewrite drop_drop. change (1 + 1)%nat with 2%nat.
  assert (Ec : (S (length pre) <? length (pre ++ x :: rest))%nat = (0 <? length rest)%nat).
  { rewrite length_app. cbn [length].
    destruct (Nat.ltb_spec 0 (length rest)) as [?|?]; [apply Nat.ltb_lt|apply Nat.ltb_ge]; lia. }
  rewrite Ec. cbn [hex_text] in Hm |- *. cbn [length] in Hm, Hf. rewrite length_app in Hm.
  replace (pre ++ x :: rest) with ((pre ++ [x]) ++ rest) by by rewrite <- app_assoc.
  replace (S (length pre)) with (length (pre ++ [x])) by (rewrite length_app; cbn; lia).
  set (two := [hex_digit (high x); hex_digit (low x)]).
  replace (length done + 2)%nat with (length (done ++ two)) by (rewrite length_app; done).
  change (hex_digit (high x) :: hex_digit (low x) :: drop 2 mem) with (two ++ drop 2 mem).
  rewrite app_assoc.
  destruct (negb (delimiter =? 0) && _) eqn:Ed; cbn [length app] in Hm |- *.
  - rewrite wr_front, bind_ok by (try done; rewrite length_drop; lia).
    rewrite drop_drop. change (2 + 1)%nat with 3%nat.
    replace (S (length (done ++ two))) with (length ((done ++ two) ++ [delimiter]))
      by (rewrite (length_app (done ++ two)); cbn; lia).
    rewrite IH by (try rewrite length_drop; lia). rewrite <- !app_assoc, drop_drop. done.
  - rewrite IH by (try rewrite length_drop; lia). rewrite <- !app_assoc, drop_drop. done.
Qed.

Lemma decode_loop_text delimiter rest : forall fuel pre done mem,
  Forall u8 rest -> (length rest <= fuel)%nat -> (length rest <= length mem)%nat ->
  hex_decode_loop fuel (pre ++ hex_text delimiter rest) (length (pre ++ hex_text delimiter rest))
    delimiter (length pre) (length done) (done ++ mem) =
  Ok (length (done ++ rest), (done ++ rest) ++ drop (length rest) mem).
Proof.
  induction rest as [|x rest IH]; intros fuel pre done mem Hr Hf Hm.
  { cbn [hex_text length drop]. rewrite !app_nil_r.
    destruct fuel; cbn [hex_decode_loop]; by rewrite Nat.ltb_irrefl. }
  pose proof (List.Forall_inv Hr) as Hx. pose proof (List.Forall_inv_tail Hr) as Hr'.
  destruct fuel as [|fuel]; [cbn in Hf; lia|]. cbn [hex_decode_loop].
  destruct (digit_bounds x) as [Hh Hl]. cbn [length] in Hf, Hm.
  cbn [hex_text]. set (sep := if _ && _ then _ else _).
  set (d1 := hex_digit (high x)). set (d2 := hex_digit (low x)).
  set (src := pre ++ d1 :: d2 :: sep ++ hex_text delimiter rest).
  assert (Es : length src = (length pre + 2 + length sep + length (hex_text delimiter rest))%nat)
    by (unfold src; rewrite length_app; cbn [length]; rewrite length_app; lia).
  rewrite (proj2 (Nat.ltb_lt _ _)) by lia. rewrite (proj2 (Nat.ltb_ge _ _)) by lia.
  assert (R1 : rd src (Z.of_nat (length pre)) = Ok d1) by by apply rd_at.
  assert (R2 : rd src (Z.of_nat (length pre + 1)) = Ok d2) by by apply rd_next.
  rewrite R1, bind_ok. unfold d1 at 1. rewrite (proj2 (digits_ok _ Hh)), R2, bind_ok.
  unfold d2 at 1. rewrite (proj2 (digits_ok _ Hl)). clear R1 R2.
  rewrite wr_front, bind_ok by (try done; lia). rewrite byte_again by done.
  replace (S (length done)) with (length (done ++ [x])) by (rewrite length_app; cbn; lia).
  assert (Ec : negb (delimiter =? 0) && (1 <? length src - (length pre + 2))%nat =
               negb (delimiter =? 0) && (0 <? length rest)%nat).
  { rewrite Es. unfold sep. destruct (Z.eqb_spec delimiter 0) as [|Hd]; [done|]. cbn [negb andb].
    rewrite length_hex_text. unfold separators. rewrite (proj2 (Z.eqb_neq _ _)) by done.
    destruct (Nat.ltb_spec 0 (length rest)) as [?|?]; cbn [length];
      [apply Nat.ltb_lt|apply Nat.ltb_ge]; lia. }
  cbv zeta. rewrite Ec. unfold sep in src. destruct (negb (delimiter =? 0) && _) eqn:Ed.
  - assert (E1 : src = (pre ++ [d1; d2]) ++ delimiter :: hex_text delimiter rest)
      by (unfold src; by rewrite <- app_assoc).
    assert (R : rd src (Z.of_nat (length pre + 2)) = Ok delimiter)
      by (rewrite E1; apply rd_at; rewrite length_app; done).
    rewrite R, bind_ok, Z.eqb_refl. cbn [negb].
    assert (E2 : src = (pre ++ [d1; d2; delimiter]) ++ hex_text delimiter rest)
      by (unfold src; by rewrite <- app_assoc).
    rewrite E2. replace (S (length pre + 2)) with (length (pre ++ [d1; d2; delimiter]))
      by (rewrite length_app; cbn; lia).
    rewrite IH by (try done; rewrite ?length_drop; lia). rewrite <- !app_assoc, drop_drop. done.
  - assert (E2 : src = (pre ++ [d1; d2]) ++ hex_text delimiter rest)
      by (unfold src; by rewrite <- app_assoc).
    rewrite E2. replace (length pre + 2)%nat with (length (pre ++ [d1; d2]))
      by (rewrite length_app; cbn; lia).
    rewrite IH by (try done; rewrite ?length_drop; lia). rewrite <- !app_assoc, drop_drop. done.
Qed.

Lemma hex_encode_text delimiter data mem :
  (0 < length mem)%nat -> (length (hex_text delimiter data) + 1 <= length mem)%nat ->
  (delimiter = 0 \/ (length data * 3 <= length mem)%nat) ->
  hex_encode_with_delimiter (Some mem) (length mem) data (length data) delimiter =
  Ok (length (hex_text delimiter data),
      (hex_text delimiter data ++ [0]) ++ drop (length (hex_text delimiter data) + 1) mem).
Proof.
  intros H0 Hm Hd. unfold hex_encode_with_delimiter. rewrite (proj2 (Nat.eqb_neq _ _)) by lia.
  pose proof (length_hex_text delimiter data) as El. unfold separators in El. cbv zeta.
  rewrite (proj2 (Nat.ltb_ge _ _)) by
    (destruct (Z.eqb_spec delimiter 0); cbn [negb]; [lia|destruct Hd; [done|lia]]).
  pose proof (encode_loop_text delimiter data (length data) [] [] mem) as E. cbn [app length] in E.
  rewrite E, bind_ok by lia. rewrite wr_front, bind_ok by (rewrite ?length_drop; try done; lia).
  by rewrite drop_drop.
Qed.

(** Too short a buffer is left alone. *)
Lemma hex_buffer_short delimiter data mem n :
  (n < (if (delimiter =? 0)%Z then length data * 2 + 1 else length data * 3))%nat ->
  hex_encode_with_delimiter (Some mem) n data (length data) delimiter = Ok (0%nat, mem).
Proof.
  intros Hn. unfold hex_encode_with_delimiter. destruct (Nat.eqb_spec n 0); [done|]. cbv zeta.
  destruct (delimiter =? 0); cbn [negb]; by rewrite (proj2 (Nat.ltb_lt _ _)).
Qed.

(** Text and bytes: a string of bytes becomes two digits each, with the delimiter in
    between unless it is 0, and the text is decoded to the bytes again, whatever the
    delimiter is. *)
Lemma hex_roundtrip delimiter data garbage mem :
  Forall u8 data -> (length data * 3 <= length garbage)%nat -> (length data <= length mem)%nat ->
  hex_encode_with_delimiter_str garbage data delimiter = Ok (hex_text delimiter data) /\
  hex_decode_with_delimiter_str (Some mem) (length mem) (hex_text delimiter data) delimiter =
    Ok (length data, data ++ drop (length data) mem).
Proof.
  intros Hu Hg Hm. pose proof (length_hex_text delimiter data) as El. unfold separators in El. split.
  - unfold hex_encode_with_delimiter_str. cbv zeta.
    destruct (decide (data = [])) as [->|Hd]; [done|].
    assert (Hl : (0 < length data)%nat) by (destruct data; [done|cbn; lia]).
    assert (Eg : (length data * 3)%nat = length (take (length data * 3) garbage))
      by (rewrite length_take; lia).
    rewrite Eg at 2. rewrite hex_encode_text, bind_ok; rewrite <- ?Eg;
      [|lia|destruct (delimiter =? 0); lia|by right].
    rewrite (proj2 (Nat.eqb_neq _ _)), (proj2 (Nat.ltb_lt _ _)) by lia. cbn [negb orb].
    unfold take_exact. rewrite (proj2 (Nat.leb_le _ _)) by (rewrite !length_app; lia).
    by rewrite <- app_assoc, take_app_length.
  - unfold hex_decode_with_delimiter_str, hex_decode_with_delimiter.
    destruct (Nat.eqb_spec (length mem) 0) as [E0|E0].
    { assert (E : data = []) by (apply length_zero_iff_nil; lia). rewrite E. by rewrite drop_0. }
    cbv zeta. rewrite (proj2 (Nat.ltb_ge _ _)).
    + pose proof (decode_loop_text delimiter data (length (hex_text delimiter data)) [] [] mem) as E.
      cbn [app length] in E. apply E; [done|lia|done].
    + rewrite El. destruct (delimiter =? 0); cbn [negb].
      * rewrite Nat.add_0_r, Nat.mul_comm, Nat.div_mul by done. done.
      * destruct data as [|x data]; [cbn; lia|]. cbn [length] in *.
        replace (2 * S (length data) + (S (length data) - 1) + 1)%nat with (S (length data) * 3)%nat by lia.
        by rewrite Nat.div_mul.
Qed.

(** Letters behind f count as digits: "g0" is decoded as 0x100, of which 0 is left. *)
Example not_a_digit :
  hex_decode_str (Some [7]) 1 (text_of "g0") = Ok (1%nat, [0]) /\
  hex_decode_str (Some [7]) 1 (text_of "G1") = Ok (1%nat, [1]).
Proof. split; reflexivity. Qed.

(** The cases of an odd number of digits and of a wrong delimiter. *)
Example not_hex :
  hex_decode_str (Some [7; 7]) 2 (text_of "abc") = Ok (0%nat, [171; 7]) /\
  hex_decode_with_delimiter_str (Some [7; 7]) 2 (text_of "ab-cd") (char ":") = Ok (0%nat, [171; 7]).
Proof. split; reflexivity. Qed.

(** ** Escaped URLs *)

(** The characters an escaped text stands for. *)
Fixpoint url_text (s : list Z) : list Z :=
  match s with
  | [] => []
  | c :: s =>
    if c =? char "+" then char " " :: url_text s
    else if c =? char "%" then
      match s with
      | a :: b :: s' =>
        match hex_decode_char a, hex_decode_char b with
        | Some h1, Some h2 => to_u8 (Z.lor (Z.shiftl h1 4) h2) :: url_text s'
        | _, _ => c :: url_text s
        end
      | _ => c :: url_text s
      end
    else c :: url_text s
  end.

(** What [escape_at] finds behind a position. *)
Lemma escape_at_front pre c s :
  escape_at (pre ++ c :: s) (length (pre ++ c :: s)) (S (length pre)) c =
  Ok (if c =? char "%" then
        match s with
        | a :: b :: _ => match hex_decode_char a, hex_decode_char b with
                         | Some h1, Some h2 => Some (h1, h2) | _, _ => None end
        | _ => None
        end
      else None).
Proof.
  unfold escape_at. destruct (c =? char "%"); cbn [andb]; [|done].
  rewrite length_app. destruct s as [|a [|b s]]; cbn [length].
  1, 2: rewrite (proj2 (Nat.ltb_ge _ _)) by lia; done.
  rewrite (proj2 (Nat.ltb_lt _ _)) by lia.
  assert (E : pre ++ c :: a :: b :: s = (pre ++ [c]) ++ a :: b :: s) by by rewrite <- app_assoc.
  assert (El : S (length pre) = length (pre ++ [c])) by (rewrite length_app; cbn; lia).
  rewrite E, (rd_at _ _ _ _ El), bind_ok. destruct (hex_decode_char a); [|done].
  rewrite (rd_next _ _ _ _ _ El), bind_ok. by destruct (hex_decode_char b).
Qed.

Lemma url_text_step c s :
  url_text (c :: s) =
  if c =? char "+" then char " " :: url_text s else
  match (if c =? char "%" then
           match s with
           | a :: b :: _ => match hex_decode_char a, hex_decode_char b with
                            | Some h1, Some h2 => Some (h1, h2) | _, _ => None end
           | _ => None
           end
         else None) with
  | Some (h1, h2) => to_u8 (Z.lor (Z.shiftl h1 4) h2) :: url_text (drop 2 s)
  | None => c :: url_text s
  end.
Proof.
  cbn [url_text]. destruct (c =? char "+"); [done|]. destruct (c =? char "%"); [|done].
  destruct s as [|a [|b s]]; [done|done|].
  destruct (hex_decode_char a), (hex_decode_char b); done.
Qed.

Lemma url_loop_text buflen fuel : forall s pre out0 mem,
  (length s <= fuel)%nat -> length (out0 ++ mem) = buflen -> (0 < length mem)%nat ->
  let out := take (length mem - 1) (url_text s) in
  url_loop fuel buflen (pre ++ s) (length (pre ++ s)) (length pre) (length out0) (out0 ++ mem) =
  Ok (length (out0 ++ out), (out0 ++ out) ++ drop (length out) mem).
Proof.
  induction fuel as [|fuel IH]; intros s pre out0 mem Hf Hb Hm; cbv zeta; rewrite length_app in Hb.
  1, 2: destruct s as [|c s];
    [cbn [url_loop url_text]; rewrite take_nil, !app_nil_r, Nat.ltb_irrefl; done|].
  1: cbn in Hf; lia.
  cbn [url_loop]. rewrite (proj2 (Nat.ltb_lt (length pre) _)) by (rewrite length_app; cbn; lia).
  cbn [andb]. destruct (Nat.ltb_spec (length out0 + 1) buflen) as [Hlt|Hge].
  2:{ replace (length mem - 1)%nat with 0%nat by lia. by rewrite take_0, !app_nil_r. }
  rewrite rd_at, bind_ok by done. cbv zeta. rewrite escape_at_front, bind_ok.
  rewrite url_text_step. set (h := if c =? char "%" then _ else None).
  assert (Ep : pre ++ c :: s = (pre ++ [c]) ++ s) by by rewrite <- app_assoc.
  assert (El : S (length pre) = length (pre ++ [c])) by (rewrite length_app; cbn; lia).
  assert (Next : forall v k, (k <= length s)%nat -> 
    (buffer ← wr (out0 ++ mem) (Z.of_nat (length out0)) v;
     url_loop fuel buflen (pre ++ c :: s) (length (pre ++ c :: s)) (S (length pre) + k)
       (S (length out0)) buffer) =
    Ok (length (out0 ++ take (length mem - 1) (v :: url_text (drop k s))),
        (out0 ++ take (length mem - 1) (v :: url_text (drop k s))) ++
          drop (length (take (length mem - 1) (v :: url_text (drop k s)))) mem)).
  { intros v k Hk. rewrite wr_front, bind_ok by done.
    assert (E2 : pre ++ c :: s = (pre ++ c :: take k s) ++ drop k s)
      by by rewrite <- app_assoc; cbn; rewrite take_drop.
    rewrite E2. replace (S (length pre) + k)%nat with (length (pre ++ c :: take k s))
      by (rewrite length_app; cbn; rewrite length_take; lia).
    replace (S (length out0)) with (length (out0 ++ [v])) by (rewrite length_app; cbn; lia).
    rewrite IH; [|rewrite length_drop; cbn in Hf; lia
                 |rewrite !length_app, length_drop; cbn; lia|rewrite length_drop; lia].
    rewrite length_drop. replace (length mem - 1)%nat with (S (length mem - 1 - 1)) by lia.
    cbn [take length Nat.sub]. rewrite Nat.sub_0_r, <- !app_assoc, drop_drop. cbn [app Nat.add]. done. }
  destruct (c =? char "+"); [rewrite <- (Nat.add_0_r (S (length pre))); by apply (Next _ 0%nat); lia|].
  destruct h as [[h1 h2]|] eqn:Eh.
  - rewrite <- Nat.add_1_r. rewrite (Nat.add_1_r (length pre)). apply Next.
    unfold h in Eh. destruct (c =? char "%"); [|done]. destruct s as [|a [|b s]]; cbn; try done; lia.
  - rewrite <- (Nat.add_0_r (S (length pre))). apply (Next _ 0%nat). lia.
Qed.

(** [url_decode] stores as much of the text as fits before the zero that ends it. *)
Lemma url_decode_text mem source :
  (0 < length mem)%nat ->
  let out := take (length mem - 1) (url_text source) in
  url_decode (Some mem) (length mem) source (length source) =
  Ok (length out, out ++ 0 :: drop (S (length out)) mem).
Proof.
  intros Hm out. unfold url_decode. rewrite (proj2 (Nat.leb_gt _ _)) by done.
  pose proof (url_loop_text (length mem) (length source) source [] [] mem) as E. cbn [app length] in E.
  rewrite E, bind_ok by done. fold out.
  assert (Ho : (length out <= length mem - 1)%nat) by (unfold out; rewrite length_take; lia).
  rewrite wr_front, bind_ok by (try done; rewrite length_drop; lia).
  by rewrite drop_drop, <- app_assoc, Nat.add_1_r.
Qed.

Lemma length_url_text s : (length (url_text s) <= length s)%nat.
Proof.
  assert (H : forall n s, (length s <= n)%nat -> (length (url_text s) <= length s)%nat).
  { induction n as [|n IH]; intros [|c l] Hn; cbn [length] in Hn; try (cbn; lia).
    rewrite url_text_step. cbn [length]. pose proof (IH l). pose proof (IH (drop 2 l)) as H2.
    rewrite length_drop in H2. destruct (c =? _); [cbn; lia|].
    destruct (if c =? _ then _ else _) as [[h1 h2]|]; cbn [length]; lia. }
  by apply (H (length s)).
Qed.

(** On strings nothing is cut off. *)
Lemma s_url_decode_text garbage source :
  (S (length source) <= length garbage)%nat -> s_url_decode garbage source = Ok (url_text source).
Proof.
  intros Hg. unfold s_url_decode, s_transform.
  change (url_decode None 0 source (length source)) with (Ok (S (length source), []) : res (nat * list Z)).
  rewrite bind_ok.
  assert (El : length (take (S (length source)) garbage) = S (length source)) by (rewrite length_take; lia).
  rewrite <- El at 2. rewrite url_decode_text, bind_ok by lia.
  rewrite El. cbn [Nat.sub]. rewrite Nat.sub_0_r, take_ge by apply length_url_text.
  unfold take_exact. rewrite (proj2 (Nat.leb_le _ _)) by (rewrite length_app; lia).
  by rewrite take_app_length.
Qed.

(** The ways to escape a text: a byte may stand for itself unless it is a plus or a
    percent sign, a space may be a plus, and every byte may be given by its digits. *)
Inductive escapes : list Z -> list Z -> Prop :=
| escapes_nil : escapes [] []
| escapes_char c s t : c <> char "+" -> c <> char "%" -> escapes s t -> escapes (c :: s) (c :: t)
| escapes_space s t : escapes s t -> escapes (char " " :: s) (char "+" :: t)
| escapes_digits c d1 d2 s t :
    u8 c -> hex_decode_char d1 = Some (high c) -> hex_decode_char d2 = Some (low c) ->
    escapes s t -> escapes (c :: s) (char "%" :: d1 :: d2 :: t).

Lemma url_text_escapes s t : escapes s t -> url_text t = s.
Proof.
  induction 1 as [|c s t H1 H2 _ IH|s t _ IH|c d1 d2 s t Hc H1 H2 _ IH]; [done| | |];
    rewrite url_text_step.
  - rewrite (proj2 (Z.eqb_neq _ _)), (proj2 (Z.eqb_neq _ _)) by done. by rewrite IH.
  - by rewrite Z.eqb_refl, IH.
  - change (char "%" =? char "+") with false. rewrite Z.eqb_refl, H1, H2, byte_again by done.
    by rewrite skipn_cons, skipn_cons, drop_0, IH.
Qed.

(** However a text has been escaped, it is found again. *)
Lemma s_url_decode_escapes garbage s t :
  escapes s t -> (S (length t) <= length garbage)%nat -> s_url_decode garbage t = Ok s.
Proof. intros E Hg. rewrite s_url_decode_text by done. by rewrite (url_text_escapes s t). Qed.

(** ** UTF-8 *)

(** The number of bytes of a code point. *)
Definition utf8_length (v : Z) : nat :=
  if v <=? 0x7F then 1 else if v <=? 0x7FF then 2 else if v <=? 0xFFFF then 3 else 4.

(** The bytes. *)
Definition utf8_bytes (v : Z) : list Z :=
  let six k := 0x80 + v / 2 ^ k mod 64 in
  if v <=? 0x7F then [v]
  else if v <=? 0x7FF then [0xC0 + v / 2 ^ 6; six 0]
  else if v <=? 0xFFFF then [0xE0 + v / 2 ^ 12; six 6; six 0]
  else [0xF0 + v / 2 ^ 18; six 12; six 6; six 0].

(** Setting the bits of a mark above those of a value. *)
Lemma marked m k x : 0 <= k -> 0 <= x < 2 ^ k -> Z.lor (m * 2 ^ k) x = m * 2 ^ k + x.
Proof.
  intros Hk Hx. pose proof (lor_add m x k Hk Hx) as E. by rewrite Z.shiftl_mul_pow2 in E.
Qed.

Lemma trailer v k : 0 <= v -> 0 <= k ->
  Z.lor 0x80 (to_u8 (Z.land (Z.shiftr v k) 0x3F)) = 0x80 + v / 2 ^ k mod 64.
Proof.
  intros Hv Hk. change 0x3F with (Z.ones 6). rewrite Z.land_ones, Z.shiftr_div_pow2 by lia.
  change (2 ^ 6) with 64. pose proof (Z.mod_pos_bound (v / 2 ^ k) 64 ltac:(lia)) as B.
  unfold to_u8. rewrite (Z.mod_small _ 256) by lia. apply (marked 1 7); lia.
Qed.

(** What the decoder checks in a byte, and what it takes from it. *)
Lemma trailer_decode x :
  0 <= x < 64 -> Z.land (0x80 + x) 0xC0 = 0x80 /\ Z.land (0x80 + x) 0x3F = x.
Proof. intros Hx. enumerate x 64%nat. Qed.

Lemma lead_1 v : 0 <= v < 128 -> Z.land v 0x80 = 0.
Proof. intros Hv. enumerate v 128%nat. Qed.

Lemma lead_2 x : 0 <= x < 32 ->
  (Z.land (0xC0 + x) 0x80 =? 0) = false /\ Z.land (0xC0 + x) 0xE0 = 0xC0 /\
  Z.land (0xC0 + x) 0x1F = x.
Proof. intros Hx. enumerate x 32%nat. Qed.

Lemma lead_3 x : 0 <= x < 16 ->
  (Z.land (0xE0 + x) 0x80 =? 0) = false /\ (Z.land (0xE0 + x) 0xE0 =? 0xC0) = false /\
  Z.land (0xE0 + x) 0xF0 = 0xE0 /\ Z.land (0xE0 + x) 0x0F = x.
Proof. intros Hx. enumerate x 16%nat. Qed.

Lemma lead_4 x : 0 <= x < 8 ->
  (Z.land (0xF0 + x) 0x80 =? 0) = false /\ (Z.land (0xF0 + x) 0xE0 =? 0xC0) = false /\
  (Z.land (0xF0 + x) 0xF0 =? 0xE0) = false /\ Z.land (0xF0 + x) 0xF8 = 0xF0 /\
  Z.land (0xF0 + x) 0x07 = x.
Proof. intros Hx. enumerate x 8%nat. Qed.

Lemma lead_byte m k v : 0 <= v -> 0 <= k -> 0 <= m * 2 ^ k -> m * 2 ^ k + v <= 255 -> v < 2 ^ k ->
  Z.lor (m * 2 ^ k) (to_u8 v) = m * 2 ^ k + v.
Proof. intros Hv Hk Hm Hs Hb. unfold to_u8. rewrite Z.mod_small by lia. by apply marked. Qed.

(** The first elements of an array. *)
Lemma wr_0 (a v : Z) l : wr (a :: l) 0 v = Ok (v :: l).
Proof. exact (wr_at [] l a v 0 eq_refl). Qed.
Lemma wr_1 (a b v : Z) l : wr (a :: b :: l) 1 v = Ok (a :: v :: l).
Proof. exact (wr_at [a] l b v 1 eq_refl). Qed.
Lemma wr_2 (a b c v : Z) l : wr (a :: b :: c :: l) 2 v = Ok (a :: b :: v :: l).
Proof. exact (wr_at [a; b] l c v 2 eq_refl). Qed.
Lemma wr_3 (a b c d v : Z) l : wr (a :: b :: c :: d :: l) 3 v = Ok (a :: b :: c :: v :: l).
Proof. exact (wr_at [a; b; c] l d v 3 eq_refl). Qed.

(** [utf8_encode] stores the bytes, or nothing when there is no room or no code point. *)
Lemma utf8_encode_bytes v buffer :
  0 <= v <= 0x1FFFFF -> (utf8_length v <= length buffer)%nat ->
  utf8_encode buffer (length buffer) v =
  Ok (utf8_length v, utf8_bytes v ++ drop (utf8_length v) buffer).
Proof.
  intros Hv. unfold utf8_encode, utf8_length, utf8_bytes.
  assert (T : forall k, 0 <= k -> Z.lor 0x80 (to_u8 (Z.land (Z.shiftr v k) 0x3F)) = 0x80 + v / 2 ^ k mod 64)
    by (intros; apply trailer; lia).
  pose proof (T 0 ltac:(lia)) as T0. rewrite Z.shiftr_0_r in T0.
  pose proof (T 6 ltac:(lia)) as T6. pose proof (T 12 ltac:(lia)) as T12. clear T.
  destruct (Z.leb_spec v 0x7F); [|destruct (Z.leb_spec v 0x7FF); [|destruct (Z.leb_spec v 0xFFFF)]];
    intros Hb; rewrite ?(proj2 (Nat.leb_le _ _)) by lia; cbn [andb].
  - destruct buffer as [|b0 mem]; [cbn in Hb; lia|].
    rewrite wr_0, bind_ok. unfold to_u8. by rewrite Z.mod_small by lia.
  - destruct buffer as [|b0 [|b1 mem]]; [cbn in Hb; lia..|].
    rewrite wr_0, bind_ok, wr_1, bind_ok, T0, Z.shiftr_div_pow2 by lia.
    rewrite (lead_byte 6 5) by (Z.to_euclidean_division_equations; lia). done.
  - destruct buffer as [|b0 [|b1 [|b2 mem]]]; [cbn in Hb; lia..|].
    rewrite wr_0, bind_ok, wr_1, bind_ok, wr_2, bind_ok, T0, T6, Z.shiftr_div_pow2 by lia.
    rewrite (lead_byte 14 4) by (Z.to_euclidean_division_equations; lia). done.
  - rewrite (proj2 (Z.leb_le v 0x1FFFFF)) by lia. cbn [andb].
    destruct buffer as [|b0 [|b1 [|b2 [|b3 mem]]]]; [cbn in Hb; lia..|].
    rewrite wr_0, bind_ok, wr_1, bind_ok, wr_2, bind_ok, wr_3, bind_ok, T0, T6, T12, Z.shiftr_div_pow2 by lia.
    rewrite (lead_byte 30 3) by (Z.to_euclidean_division_equations; lia). done.
Qed.

Lemma utf8_encode_refuses v buffer n :
  0 <= v -> (v > 0x1FFFFF \/ (n < utf8_length v)%nat) -> utf8_encode buffer n v = Ok (0%nat, buffer).
Proof.
  intros Hv Hn. unfold utf8_encode. unfold utf8_length in Hn.
  repeat match goal with |- context [(v <=? ?c) && (?k <=? n)%nat] =>
    let E := fresh in
    assert (E : (v <=? c) && (k <=? n)%nat = false);
    [apply andb_false_iff; destruct (Z.leb_spec v c); [right; apply Nat.leb_gt|by left];
     repeat match type of Hn with context [v <=? ?d] => destruct (Z.leb_spec v d) end; lia
    |rewrite E; clear E]
  end. done.
Qed.

(** Six bits are appended to a number. *)
Lemma six_more a b : 0 <= b < 64 -> Z.lor (Z.shiftl a 6) b = a * 64 + b.
Proof. intros Hb. by apply (lor_add a b 6). Qed.

(** A byte that continues a character, at any position of a text that is long enough. *)
Lemma continues (s : list Z) n k x :
  rd s (Z.of_nat k) = Ok x -> (k < n)%nat ->
  (if (n <? S k)%nat then Ok true else s1 ← rd s (Z.of_nat k); Ok (negb (Z.land s1 0xC0 =? 0x80))) =
  Ok (negb (Z.land x 0xC0 =? 0x80)).
Proof. intros E Hn. rewrite (proj2 (Nat.ltb_ge _ _)) by lia. by rewrite E. Qed.

Lemma utf8_decode_bytes v rest :
  0 <= v <= 0x1FFFFF ->
  utf8_decode (utf8_bytes v ++ rest) (length (utf8_bytes v ++ rest)) = Ok (utf8_length v, Some v).
Proof.
  intros Hv. unfold utf8_bytes, utf8_length.
  assert (T : forall k, 0 <= v / 2 ^ k mod 64 < 64) by (intros; apply Z.mod_pos_bound; lia).
  destruct (Z.leb_spec v 0x7F); [|destruct (Z.leb_spec v 0x7FF); [|destruct (Z.leb_spec v 0xFFFF)]];
    cbn [app]; unfold utf8_decode.
  - change (rd (v :: rest) 0) with (Ok v). by rewrite bind_ok, lead_1 by lia.
  - destruct (lead_2 (v / 2 ^ 6)) as (L1 & L2 & L3); [Z.to_euclidean_division_equations; lia|].
    destruct (trailer_decode _ (T 0)) as [Y1 Y2]. set (l := _ :: _ :: rest).
    assert (R0 : rd l 0 = Ok (0xC0 + v / 2 ^ 6)) by done.
    assert (R1 : rd l 1 = Ok (0x80 + v / 2 ^ 0 mod 64)) by done.
    rewrite R0, bind_ok, L1. rewrite (continues l _ 1 _ R1) by (cbn; lia).
    rewrite bind_ok, Y1, Z.eqb_refl. cbn [negb]. rewrite R1, bind_ok, L2, Z.eqb_refl, L3, Y2.
    cbv zeta. rewrite six_more by apply T. do 3 f_equal. Z.to_euclidean_division_equations; lia.
  - destruct (lead_3 (v / 2 ^ 12)) as (L1 & L2 & L3 & L4); [Z.to_euclidean_division_equations; lia|].
    destruct (trailer_decode _ (T 0)) as [Y1 Y2], (trailer_decode _ (T 6)) as [X1 X2].
    set (l := _ :: _ :: _ :: rest).
    assert (R0 : rd l 0 = Ok (0xE0 + v / 2 ^ 12)) by done.
    assert (R1 : rd l 1 = Ok (0x80 + v / 2 ^ 6 mod 64)) by done.
    assert (R2 : rd l 2 = Ok (0x80 + v / 2 ^ 0 mod 64)) by done.
    rewrite R0, bind_ok, L1. rewrite (continues l _ 1 _ R1) by (cbn; lia).
    rewrite bind_ok, X1, Z.eqb_refl. cbn [negb]. rewrite R1, bind_ok, L2.
    rewrite (continues l _ 2 _ R2) by (cbn; lia).
    rewrite bind_ok, Y1, Z.eqb_refl. cbn [negb]. rewrite R2, bind_ok, L3, Z.eqb_refl, L4, X2, Y2.
    cbv zeta. rewrite six_more by apply T.
    rewrite (lor_add _ _ 12) by (pose proof (T 0); pose proof (T 6); lia).
    do 3 f_equal. Z.to_euclidean_division_equations; lia.
  - destruct (lead_4 (v / 2 ^ 18)) as (L1 & L2 & L3 & L4 & L5); [Z.to_euclidean_division_equations; lia|].
    destruct (trailer_decode _ (T 0)) as [Y1 Y2], (trailer_decode _ (T 6)) as [X1 X2],
      (trailer_decode _ (T 12)) as [W1 W2]. set (l := _ :: _ :: _ :: _ :: rest).
    assert (R0 : rd l 0 = Ok (0xF0 + v / 2 ^ 18)) by done.
    assert (R1 : rd l 1 = Ok (0x80 + v / 2 ^ 12 mod 64)) by done.
    assert (R2 : rd l 2 = Ok (0x80 + v / 2 ^ 6 mod 64)) by done.
    assert (R3 : rd l 3 = Ok (0x80 + v / 2 ^ 0 mod 64)) by done.
    rewrite R0, bind_ok, L1. rewrite (continues l _ 1 _ R1) by (cbn; lia).
    rewrite bind_ok, W1, Z.eqb_refl. cbn [negb]. rewrite R1, bind_ok, L2.
    rewrite (continues l _ 2 _ R2) by (cbn; lia).
    rewrite bind_ok, X1, Z.eqb_refl. cbn [negb]. rewrite R2, bind_ok, L3.
    rewrite (continues l _ 3 _ R3) by (cbn; lia).
    rewrite bind_ok, Y1, Z.eqb_refl. cbn [negb]. rewrite R3, bind_ok, L4, Z.eqb_refl, L5, W2, X2, Y2.
    cbv zeta. rewrite (six_more (v / 2 ^ 12 mod 64)) by apply T. rewrite six_more by apply T.
    rewrite (lor_add _ _ 18) by (pose proof (T 0); pose proof (T 6); pose proof (T 12); lia).
    do 3 f_equal. Z.to_euclidean_division_equations; lia.
Qed.

(** Code points: every number of up to 21 bits is stored in the least number of bytes,
    whatever the buffer held, and read again from them, whatever follows; a larger
    number, or one that does not fit, is refused with the buffer unchanged. *)
Lemma utf8_roundtrip v buffer rest :
  0 <= v ->
  (v <= 0x1FFFFF -> (utf8_length v <= length buffer)%nat ->
   utf8_encode buffer (length buffer) v =
     Ok (utf8_length v, utf8_bytes v ++ drop (utf8_length v) buffer) /\
   utf8_decode (utf8_bytes v ++ rest) (length (utf8_bytes v ++ rest)) = Ok (utf8_length v, Some v)) /\
  ((v > 0x1FFFFF \/ (length buffer < utf8_length v)%nat) ->
   utf8_encode buffer (length buffer) v = Ok (0%nat, buffer)).
Proof.
  intros Hv. split.
  - intros Hm Hb. split; [by apply utf8_encode_bytes|by apply utf8_decode_bytes].
  - intros Hn. by apply utf8_encode_refuses.
Qed.

(** The decoder accepts more than what the encoder makes: a zero in two bytes; it rejects
    a trailer at the front and a character that is cut off; and it reads the first byte
    of a text that is said to be empty. *)
Example utf8_cases :
  utf8_decode [0xC0; 0x80] 2 = Ok (2%nat, Some 0) /\
  utf8_decode [0x80; 0x80] 2 = Ok (0%nat, None) /\
  utf8_decode [0xE2; 0x82] 2 = Ok (0%nat, None) /\
  utf8_decode [0xE2; 0x82; 0xAC] 3 = Ok (3%nat, Some 0x20AC) /\
  utf8_decode [] 0 = Fault OutOfBounds.
Proof. split_and!; reflexivity. Qed.
