(* ===== verification/StringFields.v ===== *)
(** * Splitting and joining strings

    The routines of [base/stringencode.{h,cc}] that take strings apart at a delimiter and
    put them together.  A [std::string] is a list of characters; [substr] of a position
    beyond the end, which throws, is a fault. *)
From Stdlib Require Import String Ascii.
From S2P Require Import Prelude CInt AudioUtil ChannelBuffer Base64 StringEncode.

(** ** Operations of strings *)

(** [source.substr(pos, n)] and [source.substr(pos)]. *)
Definition substr (source : list Z) (pos n : nat) : res (list Z) :=
  if (length source <? pos)%nat then Fault OutOfBounds else Ok (take n (drop pos source)).
Definition substr_from (source : list Z) (pos : nat) : res (list Z) :=
  if (length source <? pos)%nat then Fault OutOfBounds else Ok (drop pos source).

(** [source.find(ch, pos)]; [None] is [npos]. *)
Definition find (source : list Z) (ch : Z) (pos : nat) : option nat :=
  option_map (fun '(i, _) => (pos + i)%nat) (list_find (fun c => c = ch) (drop pos source)).

(** [source[pos]], which is 0 at the end. *)
Definition char_at (source : list Z) (pos : nat) : res Z :=
  if (pos =? length source)%nat then Ok 0 else rd source (Z.of_nat pos).

(** ** The routines *)

Definition tokenize (source : list Z) (delimiter : Z) : res (list (list Z)) :=
  '(last, fields) ← loop (length source) (fun i '(last, fields) =>
    c ← rd source (Z.of_nat i);
    if c =? delimiter then
      fields ← (if negb (i =? last)%nat then f ← substr source last (i - last); Ok (fields ++ [f])
                else Ok fields);
      Ok ((i + 1)%nat, fields)
    else Ok (last, fields)) (0%nat, []);
  if negb (last =? length source)%nat then
    f ← substr source last (length source - last);
    Ok (fields ++ [f])
  else Ok fields.

Definition tokenize_with_empty_tokens (source : list Z) (delimiter : Z) : res (list (list Z)) :=
  '(last, fields) ← loop (length source) (fun i '(last, fields) =>
    c ← rd source (Z.of_nat i);
    if c =? delimiter then
      f ← substr source last (i - last);
      Ok ((i + 1)%nat, fields ++ [f])
    else Ok (last, fields)) (0%nat, []);
  f ← substr source last (length source - last);
  Ok (fields ++ [f]).

(** [None] is the null pointer. *)
Definition tokenize_append (source : list Z) (delimiter : Z) (fields : option (list (list Z)))
    : res (nat * option (list (list Z))) :=
  match fields with
  | None => Ok (0%nat, None)
  | Some fields =>
    new_fields ← tokenize source delimiter;
    Ok (length (fields ++ new_fields), Some (fields ++ new_fields))
  end.

(** The loop over marked fields takes at least one character per round. *)
Fixpoint tokenize_loop (fuel : nat) (delimiter start_mark end_mark : Z) (remain_source : list Z)
    (fields : option (list (list Z))) : res (list Z * option (list (list Z))) :=
  match remain_source with
  | [] => Ok (remain_source, fields)
  | _ =>
    match fuel with
    | O => Fault OutOfFuel
    | S fuel =>
      match find remain_source start_mark 0 with
      | None => Ok (remain_source, fields)
      | Some start_pos =>
        pre_mark ← (if (0 <? start_pos)%nat then substr remain_source 0 (start_pos - 1) else Ok []);
        let start_pos := S start_pos in
        match find remain_source end_mark start_pos with
        | None => Ok (remain_source, fields)
        | Some end_pos =>
          '(_, fields) ← tokenize_append pre_mark delimiter fields;
          f ← substr remain_source start_pos (end_pos - start_pos);
          let fields := option_map (fun fields => fields ++ [f]) fields in
          remain_source ← substr_from remain_source (end_pos + 1);
          tokenize_loop fuel delimiter start_mark end_mark remain_source fields
        end
      end
    end
  end.

Definition tokenize_marked (source : list Z) (delimiter start_mark end_mark : Z)
    (fields : option (list (list Z))) : res (nat * option (list (list Z))) :=
  match fields with
  | None => Ok (0%nat, None)
  | Some _ =>
    '(remain_source, fields) ←
      tokenize_loop (length source) delimiter start_mark end_mark source (Some []);
    tokenize_append remain_source delimiter fields
  end.

(** The loop ends at the latest at the zero behind the string, unless that is what it
    looks for. *)
Fixpoint skip_delimiters (fuel : nat) (source : list Z) (delimiter : Z) (right_pos : nat) : res nat :=
  c ← char_at source right_pos;
  if c =? delimiter then
    match fuel with
    | O => Fault OutOfFuel
    | S fuel => skip_delimiters fuel source delimiter (right_pos + 1)
    end
  else Ok right_pos.

(** The token and the rest, when there is a delimiter. *)
Definition tokenize_first (source : list Z) (delimiter : Z) : res (option (list Z * list Z)) :=
  match find source delimiter 0 with
  | None => Ok None
  | Some left_pos =>
    right_pos ← skip_delimiters (S (length source)) source delimiter (left_pos + 1);
    token ← substr source 0 left_pos;
    rest ← substr_from source right_pos;
    Ok (Some (token, rest))
  end.

Definition join (source : list (list Z)) (delimiter : Z) : res (list Z) :=
  if (length source =? 0)%nat then Ok [] else
  loop (length source) (fun i joined_string =>
    let joined_string := if negb (i =? 0)%nat then joined_string ++ [delimiter] else joined_string in
    s ← rd source (Z.of_nat i);
    Ok (joined_string ++ s)) [].

Definition split (source : list Z) (delimiter : Z) : res (list (list Z)) :=
  '(last, fields) ← loop (length source) (fun i '(last, fields) =>
    c ← rd source (Z.of_nat i);
    if c =? delimiter then
      f ← substr source last (i - last);
      Ok ((i + 1)%nat, fields ++ [f])
    else Ok (last, fields)) (0%nat, []);
  f ← substr source last (length source - last);
  Ok (fields ++ [f]).

Definition ToString_bool (b : bool) : list Z := if b then text_of "true" else text_of "false".

(** [None]: the string is neither, and the variable keeps its value. *)
Definition FromString_bool (s : list Z) : option bool :=
  if decide (s = text_of "false") then Some false
  else if decide (s = text_of "true") then Some true else None.

(** ** Reference definitions *)

(** The fields between the delimiters, empty ones included. *)
Fixpoint fields_of (d : Z) (s : list Z) : list (list Z) :=
  match s with
  | [] => [[]]
  | c :: s =>
    if c =? d then [] :: fields_of d s
    else match fields_of d s with
         | f :: fs => (c :: f) :: fs
         | [] => [[c]]
         end
  end.

(** The characters of the fields with delimiters in between. *)
Fixpoint joined (d : Z) (fs : list (list Z)) : list Z :=
  match fs with
  | [] => []
  | [f] => f
  | f :: fs => f ++ d :: joined d fs
  end.

Definition filled (fs : list (list Z)) : list (list Z) := filter (fun f => f <> []) fs.

(** ** Splitting *)

Definition prepend (cur : list Z) (fs : list (list Z)) : list (list Z) :=
  match fs with [] => [cur] | f :: fs => (cur ++ f) :: fs end.

Lemma fields_of_step d c s :
  fields_of d (c :: s) = if c =? d then [] :: fields_of d s else prepend [c] (fields_of d s).
Proof. done. Qed.

Lemma fields_of_not_nil d s : fields_of d s <> [].
Proof. destruct s as [|c s]; [done|]. rewrite fields_of_step. destruct (c =? d); [done|]. by destruct (fields_of d s). Qed.

Lemma prepend_app d cur c s :
  prepend (cur ++ [c]) (fields_of d s) = prepend cur (prepend [c] (fields_of d s)).
Proof. destruct (fields_of d s) as [|f fs]; cbn; [done|]. by rewrite <- app_assoc. Qed.

Lemma prepend_nil d s : prepend [] (fields_of d s) = fields_of d s.
Proof. pose proof (fields_of_not_nil d s). by destruct (fields_of d s). Qed.

Lemma take_between (pre cur rest : list Z) :
  take (length (pre ++ cur) - length pre) (drop (length pre) (pre ++ cur ++ rest)) = cur.
Proof.
  rewrite drop_app_length, length_app. replace (_ + _ - _)%nat with (length cur) by lia.
  apply take_app_length.
Qed.

(** The two loops differ in what becomes of a field. *)
Section split.
Variables (source : list Z) (d : Z) (emit : list Z -> list (list Z)).
Variables (body : nat -> nat * list (list Z) -> res (nat * list (list Z)))
  (finish : nat * list (list Z) -> res (list (list Z))).
Hypothesis body_other : forall i c last fields,
  source !! i = Some c -> c <> d -> body i (last, fields) = Ok (last, fields).
Hypothesis body_delimiter : forall i last fields,
  source !! i = Some d -> (last <= i)%nat ->
  body i (last, fields) = Ok ((i + 1)%nat, fields ++ emit (take (i - last) (drop last source))).
Hypothesis finish_ok : forall last fields,
  (last <= length source)%nat -> finish (last, fields) = Ok (fields ++ emit (drop last source)).

Lemma split_each rest : forall pre cur fields,
  source = pre ++ cur ++ rest ->
  each (fun s i => body i s) (length pre, fields) (seq (length (pre ++ cur)) (length rest)) ≫= finish =
  Ok (fields ++ concat (map emit (prepend cur (fields_of d rest)))).
Proof.
  induction rest as [|c rest IH]; intros pre cur fields Es; cbn [length seq each].
  { rewrite bind_ok, finish_ok by (rewrite Es, length_app; lia).
    rewrite Es, drop_app_length, app_nil_r. cbn. by rewrite !app_nil_r. }
  assert (El : source !! length (pre ++ cur) = Some c)
    by (rewrite Es, app_assoc; apply list_lookup_middle; done).
  assert (Next : S (length (pre ++ cur)) = length (pre ++ cur ++ [c]))
    by (rewrite !length_app; cbn; lia).
  rewrite Next, fields_of_step. destruct (Z.eqb_spec c d) as [->|Hc].
  - rewrite (body_delimiter _ _ _ El), bind_ok by (rewrite length_app; lia).
    rewrite Es at 1. rewrite take_between, Nat.add_1_r, Next.
    specialize (IH (pre ++ cur ++ [d]) [] (fields ++ emit cur)).
    rewrite (app_nil_r (pre ++ cur ++ [d])) in IH. rewrite IH by by rewrite Es, <- !app_assoc.
    rewrite prepend_nil. cbn [prepend map concat]. by rewrite app_nil_r, <- app_assoc.
  - rewrite (body_other _ _ _ _ El Hc), bind_ok.
    rewrite (IH pre (cur ++ [c]) fields) by by rewrite Es, <- !app_assoc.
    by rewrite prepend_app.
Qed.

Lemma split_loop_fields :
  loop (length source) body (0%nat, []) ≫= finish = Ok (concat (map emit (fields_of d source))).
Proof.
  pose proof (split_each source [] [] [] eq_refl) as E. rewrite prepend_nil in E. exact E.
Qed.
End split.

Lemma substr_ok source pos n : (pos <= length source)%nat -> substr source pos n = Ok (take n (drop pos source)).
Proof. intros H. unfold substr. by rewrite (proj2 (Nat.ltb_ge _ _)). Qed.

Lemma substr_from_ok source pos : (pos <= length source)%nat -> substr_from source pos = Ok (drop pos source).
Proof. intros H. unfold substr_from. by rewrite (proj2 (Nat.ltb_ge _ _)). Qed.

Lemma lookup_below {A} (l : list A) i x : l !! i = Some x -> (i < length l)%nat.
Proof. apply lookup_lt_Some. Qed.

Lemma split_fields source d : split source d = Ok (fields_of d source).
Proof.
  unfold split. rewrite (split_loop_fields source d (fun f => [f])).
  - f_equal. induction (fields_of d source) as [|f fs IH]; [done|]. cbn in *. by rewrite IH.
  - intros i c last fields E Hc. rewrite (rd_Some _ _ _ E), bind_ok. by rewrite (proj2 (Z.eqb_neq _ _)).
  - intros i last fields E Hl. pose proof (lookup_below _ _ _ E).
    rewrite (rd_Some _ _ _ E), bind_ok, Z.eqb_refl, substr_ok by lia. done.
  - intros last fields Hl. rewrite substr_ok, bind_ok by done.
    by rewrite take_ge by (rewrite length_drop; lia).
Qed.

(** The two functions of the source have the same text. *)
Lemma tokenize_with_empty_tokens_fields source d :
  tokenize_with_empty_tokens source d = Ok (fields_of d source).
Proof. apply split_fields. Qed.

Lemma filled_concat fs : concat (map (fun f => filled [f]) fs) = filled fs.
Proof.
  induction fs as [|f fs IH]; [done|]. cbn [map concat]. rewrite IH. unfold filled.
  by rewrite <- list.filter_app.
Qed.

Lemma filled_one f : filled [f] = if (length f =? 0)%nat then [] else [f].
Proof. by destruct f. Qed.

Lemma tokenize_fields source d : tokenize source d = Ok (filled (fields_of d source)).
Proof.
  unfold tokenize. rewrite (split_loop_fields source d (fun f => filled [f])).
  - by rewrite filled_concat.
  - intros i c last fields E Hc. rewrite (rd_Some _ _ _ E), bind_ok. by rewrite (proj2 (Z.eqb_neq _ _)).
  - intros i last fields E Hl. pose proof (lookup_below _ _ _ E).
    rewrite (rd_Some _ _ _ E), bind_ok, Z.eqb_refl, filled_one, length_take, length_drop.
    destruct (Nat.eqb_spec i last) as [->|Hi]; cbn [negb].
    + rewrite Nat.sub_diag. cbn. by rewrite app_nil_r.
    + rewrite substr_ok, bind_ok by lia. by rewrite (proj2 (Nat.eqb_neq _ _)) by lia.
  - intros last fields Hl. rewrite filled_one, length_drop.
    destruct (Nat.eqb_spec last (length source)) as [->|Hn]; cbn [negb].
    + rewrite Nat.sub_diag. cbn. by rewrite app_nil_r.
    + rewrite substr_ok, bind_ok by lia. rewrite (proj2 (Nat.eqb_neq _ _)) by lia.
      by rewrite take_ge by (rewrite length_drop; lia).
Qed.

(** ** Joining *)

Lemma joined_snoc d fs f : fs <> [] -> joined d (fs ++ [f]) = joined d fs ++ d :: f.
Proof.
  induction fs as [|g fs IH]; [done|]. intros _. destruct fs as [|h fs]; [done|].
  change ((g :: h :: fs) ++ [f]) with (g :: (h :: fs) ++ [f]).
  cbn [joined]. change (joined d ((h :: fs) ++ [f])) with (joined d ((h :: fs) ++ [f])) in IH.
  rewrite <- app_assoc. cbn [app] in *. by rewrite IH.
Qed.

Lemma join_joined fs d : join fs d = Ok (joined d fs).
Proof.
  unfold join. destruct (Nat.eqb_spec (length fs) 0) as [E|E].
  { apply length_zero_iff_nil in E. by rewrite E. }
  clear E. apply wp_pure.
  apply (wp_mono _ (fun s => s = joined d (take (length fs) fs)));
    [|intros s ->; by rewrite firstn_all].
  apply (wp_loop_index (fun i s => s = joined d (take i fs))); [done|].
  intros i s Hi ->. destruct (lookup_lt_is_Some_2 fs i Hi) as [f Hf].
  rewrite (rd_Some _ _ _ Hf), bind_ok. cbn [wp]. rewrite (take_S_r _ _ _ Hf).
  destruct i as [|i]; cbn [Nat.eqb negb]; [done|].
  rewrite joined_snoc, <- app_assoc; [done|]. destruct fs; [done|]. done.
Qed.

Lemma joined_fields d s : joined d (fields_of d s) = s.
Proof.
  induction s as [|c s IH]; [done|]. rewrite fields_of_step.
  pose proof (fields_of_not_nil d s) as Hn. destruct (Z.eqb_spec c d) as [->|Hc].
  - cbn [joined]. destruct (fields_of d s) eqn:E; [done|]. cbn [app]. by rewrite IH.
  - destruct (fields_of d s) as [|f fs]; [done|]. cbn [prepend app]. destruct fs; cbn in *; by rewrite IH.
Qed.

Lemma fields_of_app d f s : ~ In d f -> fields_of d (f ++ s) = prepend f (fields_of d s).
Proof.
  induction f as [|c f IH]; intros Hf; cbn [app]; [by rewrite prepend_nil|].
  rewrite fields_of_step, IH by (intros H; apply Hf; by right).
  rewrite (proj2 (Z.eqb_neq _ _)) by (intros ->; apply Hf; by left).
  pose proof (fields_of_not_nil d s). by destruct (fields_of d s).
Qed.

Lemma fields_joined d fs :
  fs <> [] -> Forall (fun f => ~ In d f) fs -> fields_of d (joined d fs) = fs.
Proof.
  induction fs as [|f fs IH]; intros Hn Hd; [done|].
  pose proof (List.Forall_inv Hd) as Hf. pose proof (List.Forall_inv_tail Hd) as Hfs.
  destruct fs as [|g fs].
  - cbn [joined]. rewrite <- (app_nil_r f) at 1. rewrite fields_of_app by done. cbn. by rewrite app_nil_r.
  - change (joined d (f :: g :: fs)) with (f ++ d :: joined d (g :: fs)).
    rewrite fields_of_app, fields_of_step, Z.eqb_refl, IH by done. cbn [prepend].
    by rewrite app_nil_r.
Qed.

(** Splitting and joining are inverse: joining the fields of any string gives the string,
    and splitting what was joined from any fields, at least one and without the
    delimiter in them, gives the fields; [tokenize] returns the same fields without the
    empty ones, and [tokenize_append] puts them behind those it was given. *)
Lemma split_join source fields d :
  (fs ← split source d; join fs d) = Ok source /\
  (fields <> [] -> Forall (fun f => ~ In d f) fields -> (s ← join fields d; split s d) = Ok fields) /\
  (fs ← split source d; Ok (filled fs)) = tokenize source d /\
  (fs ← tokenize source d; Ok (length (fields ++ fs), Some (fields ++ fs))) =
    tokenize_append source d (Some fields).
Proof.
  rewrite split_fields, bind_ok, join_joined, joined_fields. split; [done|]. split.
  - intros Hn Hd. rewrite join_joined, bind_ok, split_fields. by rewrite fields_joined.
  - split; [by rewrite bind_ok, tokenize_fields|done].
Qed.

(** ** The first token *)

(** The string without the delimiters at its front. *)
Fixpoint strip (d : Z) (s : list Z) : list Z :=
  match s with
  | [] => []
  | c :: s' => if c =? d then strip d s' else s
  end.

Lemma skip_strip d rest : forall fuel pre,
  d <> 0 -> (length rest < fuel)%nat ->
  exists k, skip_delimiters fuel (pre ++ rest) d (length pre) = Ok k /\
    (k <= length (pre ++ rest))%nat /\ drop k (pre ++ rest) = strip d rest.
Proof.
  induction rest as [|c rest IH]; intros fuel pre Hd Hf; destruct fuel as [|fuel]; try (cbn in Hf; lia);
    cbn [skip_delimiters]; unfold char_at.
  - rewrite app_nil_r, Nat.eqb_refl, bind_ok. rewrite (proj2 (Z.eqb_neq _ _)) by done.
    exists (length pre). by rewrite drop_all.
  - rewrite (proj2 (Nat.eqb_neq _ _)) by (rewrite length_app; cbn; lia).
    rewrite rd_at, bind_ok by done. cbn [strip]. destruct (c =? d).
    + destruct (IH fuel (pre ++ [c]) Hd) as (k & E1 & E2 & E3); [cbn in Hf; lia|].
      rewrite <- app_assoc, length_app in E1. rewrite <- app_assoc in E2, E3. by exists k.
    + exists (length pre). rewrite drop_app_length, length_app. split; [done|]. split; [lia|done].
Qed.

Lemma find_first pre d rest : ~ In d pre -> find (pre ++ d :: rest) d 0 = Some (length pre).
Proof.
  intros Hp. unfold find. rewrite drop_0. induction pre as [|c pre IH]; cbn [app list_find].
  - by rewrite decide_True.
  - rewrite decide_False by (intros ->; apply Hp; by left).
    assert (Hp' : ~ In d pre) by (intros H; apply Hp; by right). specialize (IH Hp').
    destruct (list_find _ _) as [[i x]|]; cbn in *; [|done]. by injection IH as ->.
Qed.

Lemma find_none s d : ~ In d s -> find s d 0 = None.
Proof.
  intros Hp. unfold find. rewrite drop_0.
  destruct (list_find _ s) as [[i x]|] eqn:E; [|done]. exfalso.
  apply list_find_Some in E as (E & -> & _). apply Hp. apply list_elem_of_In.
  by eapply list_elem_of_lookup_2.
Qed.

(** The token ends at the first delimiter; the rest begins behind the delimiters that
    follow each other there. *)
Lemma tokenize_first_spec token rest d :
  d <> 0 -> ~ In d token ->
  tokenize_first (token ++ d :: rest) d = Ok (Some (token, strip d rest)) /\
  tokenize_first token d = Ok None.
Proof.
  intros Hd Ht. unfold tokenize_first. rewrite (find_none token d) by done. split; [|done].
  rewrite find_first by done.
  destruct (skip_strip d rest (S (length (token ++ d :: rest))) (token ++ [d]) Hd)
    as (k & E1 & E2 & E3); [rewrite length_app; cbn; lia|].
  rewrite (length_app token [d]) in E1. rewrite <- app_assoc in E1, E2, E3. cbn [app] in E1, E2, E3.
  change (length [d]) with 1%nat in E1.
  rewrite E1, bind_ok, substr_ok, bind_ok by (rewrite length_app; lia).
  rewrite substr_from_ok, bind_ok, E3 by done. by rewrite drop_0, take_app_length.
Qed.

(** The zero character is a delimiter that also ends the string: the search for further
    ones leaves it. *)
Example zero_delimiter : tokenize_first [97; 0] 0 = Fault OutOfBounds.
Proof. reflexivity. Qed.

(** ** Marked fields *)

Lemma tokenize_loop_nil fuel d sm em fields : tokenize_loop fuel d sm em [] fields = Ok ([], fields).
Proof. by destruct fuel. Qed.

(** A marked field is returned as it stands between the marks; of the text before it the
    last character is dropped, whatever it is. *)
Lemma tokenize_marked_field pre quoted post d sm em :
  ~ In sm pre -> ~ In em quoted -> ~ In sm post ->
  tokenize_marked (pre ++ sm :: quoted ++ em :: post) d sm em (Some []) =
  let fields := filled (fields_of d (take (length pre - 1) pre)) ++ [quoted] ++ filled (fields_of d post) in
  Ok (length fields, Some fields).
Proof.
  intros Hp Hq Hs. unfold tokenize_marked. set (src := pre ++ sm :: quoted ++ em :: post).
  assert (El : length src = (length pre + S (length quoted + S (length post)))%nat)
    by (unfold src; rewrite length_app; cbn; by rewrite length_app).
  assert (E : tokenize_loop (length src) d sm em src (Some []) =
              Ok (post, Some (filled (fields_of d (take (length pre - 1) pre)) ++ [quoted]))).
  { rewrite El, Nat.add_succ_r. cbn [tokenize_loop].
    assert (Hm : forall a b : res (list Z * option (list (list Z))),
              match src with [] => a | _ :: _ => b end = b) by (unfold src; by destruct pre).
    rewrite Hm.
    assert (Ef : find src sm 0 = Some (length pre)) by by apply find_first.
    rewrite Ef.
    assert (Epre : (if (0 <? length pre)%nat then substr src 0 (length pre - 1) else Ok []) =
                   Ok (take (length pre - 1) pre)).
    { destruct (Nat.ltb_spec 0 (length pre)) as [H|H].
      - rewrite substr_ok by lia. unfold src. rewrite drop_0, take_app_le by lia. done.
      - by rewrite (nil_length_inv pre) by lia. }
    rewrite Epre, bind_ok.
    assert (Ee : find src em (S (length pre)) = Some (S (length pre) + length quoted)%nat).
    { assert (Ed : drop (S (length pre)) src = quoted ++ em :: post).
      { unfold src. rewrite <- Nat.add_1_r, <- drop_drop, drop_app_length. done. }
      unfold find. rewrite Ed. pose proof (find_first quoted em post Hq) as F. unfold find in F.
      rewrite drop_0 in F. destruct (list_find _ (quoted ++ _)) as [[i x]|]; cbn in *; [|done].
      by injection F as ->. }
    rewrite Ee. cbn [tokenize_append]. rewrite tokenize_fields, !bind_ok. cbn [app].
    rewrite substr_ok, bind_ok by lia.
    assert (Ed : drop (S (length pre)) src = quoted ++ em :: post).
    { unfold src. rewrite <- Nat.add_1_r, <- drop_drop, drop_app_length. done. }
    rewrite Ed. replace (_ - _)%nat with (length quoted) by lia. rewrite take_app_length.
    rewrite substr_from_ok, bind_ok by lia.
    replace (S (length pre) + length quoted + 1)%nat with (S (length pre) + (length quoted + 1))%nat by lia.
    rewrite <- drop_drop, Ed, <- drop_drop, drop_app_length, skipn_cons, drop_0. cbn [option_map].
    destruct post as [|p post]; [apply tokenize_loop_nil|].
    rewrite !Nat.add_succ_r. cbn [tokenize_loop]. by rewrite find_none. }
  rewrite E, bind_ok. unfold tokenize_append. rewrite tokenize_fields, bind_ok, <- app_assoc. done.
Qed.

(** With a space before the mark nothing is lost; without one a letter is. *)
Example marks :
  tokenize_marked (text_of "file 'a b' c") (char " ") (char "'") (char "'") (Some []) =
    Ok (3%nat, Some [text_of "file"; text_of "a b"; text_of "c"]) /\
  tokenize_marked (text_of "file'a b'c") (char " ") (char "'") (char "'") (Some []) =
    Ok (3%nat, Some [text_of "fil"; text_of "a b"; text_of "c"]).
Proof. split; vm_compute; reflexivity. Qed.
