(* ===== verification/StringUtils.v ===== *)
(** * String utilities

    [base/stringutils.{h,cc}]: wildcard patterns, replacement, prefixes and suffixes, trimming,
    padding and the C string routines that always terminate what they write.  A pointer
    is the list of the characters from it on; a C string ends at its first zero, and
    reading beyond the list is a fault.  The functions for wide characters, which only
    Windows has, and formatted output are not modelled. *)
From Stdlib Require Import String Ascii.
From S2P Require Import Prelude CInt AudioUtil ChannelBuffer Base64 StringEncode StringFields.

(** ** Functions of the C library *)

(** In the "C" locale.  A [char] is signed: the characters from 128 on are negative
    arguments, for which the function is not defined, but for 255, which is [EOF]. *)
Definition toupper (c : Z) : res Z :=
  if (128 <=? c) && (c <? 255) then Fault OutOfBounds
  else if (char "a" <=? c) && (c <=? char "z") then Ok (c - 32) else Ok c.

Fixpoint strlen (s : list Z) : res nat :=
  match s with
  | [] => Fault OutOfBounds
  | c :: s => if c =? 0 then Ok 0%nat else n ← strlen s; Ok (S n)
  end.

(** Whether [strncmp] returns 0. *)
Fixpoint strncmp_eq (n : nat) (s1 s2 : list Z) : res bool :=
  match n with
  | O => Ok true
  | S n =>
    a ← rd s1 0; b ← rd s2 0;
    if negb (a =? b) then Ok false
    else if a =? 0 then Ok true
    else strncmp_eq n (drop 1 s1) (drop 1 s2)
  end.

(** ** The routines *)

Fixpoint memory_check_from (n : nat) (char_memory : list Z) (char_c : Z) (i : nat) : res bool :=
  match n with
  | O => Ok true
  | S n => x ← rd char_memory (Z.of_nat i);
           if negb (x =? char_c) then Ok false else memory_check_from n char_memory char_c (S i)
  end.
Definition memory_check (memory : list Z) (c : Z) (count : nat) : res bool :=
  memory_check_from count memory (to_u8 c) 0.

Fixpoint string_match (target pattern : list Z) {struct pattern} : res bool :=
  match pattern with
  | [] => Fault OutOfBounds
  | p :: pattern1 =>
    if p =? 0 then t ← rd target 0; Ok (t =? 0)
    else if p =? char "*" then
      match pattern1 with
      | [] => Fault OutOfBounds
      | q :: pattern2 =>
        if q =? 0 then Ok true else
        (fix scan (target : list Z) : res bool :=
           match target with
           | [] => Fault OutOfBounds
           | t :: target1 =>
             if t =? 0 then Ok false else
             a ← toupper q; b ← toupper t;
             m ← (if a =? b then string_match target1 pattern2 else Ok false);
             if m : bool then Ok true else scan target1
           end) target
      end
    else
      t ← rd target 0;
      a ← toupper p; b ← toupper t;
      if negb (a =? b) then Ok false
      else string_match (drop 1 target) pattern1
  end.

(** [s->find(search, pos, search_len)]. *)
Fixpoint find_sub_from (search s : list Z) (pos : nat) : option nat :=
  if decide (take (length search) s = search) then Some pos
  else match s with [] => None | _ :: s => find_sub_from search s (S pos) end.
Definition find_sub (s search : list Z) (pos : nat) : option nat :=
  if (length s <? pos)%nat then None else find_sub_from search (drop pos s) pos.

(** For a search text that is not empty every round moves on by at least one character
    of the original string. *)
Fixpoint replace_loop (fuel : nat) (search replace s : list Z) (pos : nat) : res (list Z) :=
  match find_sub s search pos with
  | None => Ok s
  | Some pos =>
    match fuel with
    | O => Fault OutOfFuel
    | S fuel =>
      replace_loop fuel search replace
        (take pos s ++ replace ++ drop (pos + length search) s) (pos + length replace)
    end
  end.

Definition replace_substrs (search replace s : list Z) : res (list Z) :=
  replace_loop (length s) search replace s 0.

Definition starts_with (s1 s2 : list Z) : res bool :=
  n ← strlen s2; strncmp_eq n s1 s2.

Definition ends_with (s1 s2 : list Z) : res bool :=
  s1_length ← strlen s1;
  s2_length ← strlen s2;
  if (s1_length <? s2_length)%nat then Ok false else
  let start := drop (s1_length - s2_length) s1 in
  strncmp_eq s2_length start s2.

Definition kWhitespace : list Z := [32; 10; 13; 9].

(** [find_first_not_of] and [find_last_not_of]. *)
Definition find_first_not_of (s set : list Z) : option nat :=
  option_map fst (list_find (fun c => c ∉ set) s).
Definition find_last_not_of (s set : list Z) : option nat :=
  option_map (fun '(i, _) => (length s - 1 - i)%nat) (list_find (fun c => c ∉ set) (rev s)).

Definition string_trim (s : list Z) : res (list Z) :=
  match find_first_not_of s kWhitespace, find_last_not_of s kWhitespace with
  | Some first, Some last => substr s first (last - first + 1)
  | _, _ => Ok []
  end.

Definition LeftPad (padding : Z) (length : nat) (s : list Z) : list Z :=
  if (length <=? List.length s)%nat then s
  else replicate (length - List.length s) padding ++ s.

(** The character is read before the position is compared. *)
Fixpoint strlenn_from (n : nat) (buffer : list Z) (bufpos : nat) : res nat :=
  c ← rd buffer (Z.of_nat bufpos);
  if negb (c =? 0) then match n with O => Ok bufpos | S n => strlenn_from n buffer (S bufpos) end
  else Ok bufpos.
Definition strlenn (buffer : list Z) (buflen : nat) : res nat := strlenn_from buflen buffer 0.

(** [None] is [SIZE_UNKNOWN]. *)
Definition strcpyn (buffer : list Z) (buflen : nat) (source : list Z) (srclen : option nat)
    : res (nat * list Z) :=
  if (buflen <=? 0)%nat then Ok (0%nat, buffer) else
  srclen ← match srclen with
           | None => strlenn source (buflen - 1)
           | Some srclen => Ok (if (buflen <=? srclen)%nat then buflen - 1 else srclen)%nat
           end;
  xs ← take_exact srclen source;
  buffer ← put 0 xs buffer;
  buffer ← wr buffer (Z.of_nat srclen) 0;
  Ok (srclen, buffer).

Definition strcatn (buffer : list Z) (buflen : nat) (source : list Z) (srclen : option nat)
    : res (nat * list Z) :=
  if (buflen <=? 0)%nat then Ok (0%nat, buffer) else
  bufpos ← strlenn buffer (buflen - 1);
  '(n, rest) ← strcpyn (drop bufpos buffer) (buflen - bufpos) source srclen;
  Ok ((bufpos + n)%nat, take bufpos buffer ++ rest).

(** The first character of [str] that is one of [chs], and the first [ch] among [slen]. *)
Fixpoint strchr_in (chs : list Z) (c : Z) : res bool :=
  match chs with
  | [] => Fault OutOfBounds
  | x :: chs => if x =? 0 then Ok false else if c =? x then Ok true else strchr_in chs c
  end.
Fixpoint strchr_set (str chs : list Z) (i : nat) : res (option nat) :=
  match str with
  | [] => Fault OutOfBounds
  | c :: str => if c =? 0 then Ok None
                else b ← strchr_in chs c; if b : bool then Ok (Some i) else strchr_set str chs (S i)
  end.
Fixpoint strchrn_from (n : nat) (str : list Z) (ch : Z) (i : nat) : res (option nat) :=
  match n with
  | O => Ok None
  | S n => c ← rd str (Z.of_nat i);
           if c =? 0 then Ok None else if c =? ch then Ok (Some i) else strchrn_from n str ch (S i)
  end.
Definition strchrn (str : list Z) (slen : nat) (ch : Z) : res (option nat) := strchrn_from slen str ch 0.

Definition tolowercase (c : Z) : res Z :=
  if (128 <=? c) && (c <? 255) then Fault OutOfBounds
  else if (char "A" <=? c) && (c <=? char "Z") then Ok (c + 32) else Ok c.

(** ** Wildcard patterns *)

(** The letter of a character, for comparison. *)
Definition upper (c : Z) : Z := if (char "a" <=? c) && (c <=? char "z") then c - 32 else c.

(** What a pattern stands for: an asterisk for any characters, also none, and every other
    character for itself in upper or lower case. *)
Inductive matches : list Z -> list Z -> Prop :=
| matches_end : matches [] []
| matches_char p t ps ts : p <> char "*" -> upper p = upper t -> matches ps ts -> matches (p :: ps) (t :: ts)
| matches_star ps skipped ts : matches ps ts -> matches (char "*" :: ps) (skipped ++ ts).

(** A C string of 7-bit characters. *)
Definition ascii_text (s : list Z) : Prop := Forall (fun c => 1 <= c < 128) s.

Lemma ascii_cons c s : ascii_text (c :: s) -> 1 <= c < 128 /\ ascii_text s.
Proof. intros H. split; [exact (List.Forall_inv H)|exact (List.Forall_inv_tail H)]. Qed.

Fixpoint adjacent_stars (p : list Z) : bool :=
  match p with
  | a :: ((b :: _) as p') => ((a =? char "*") && (b =? char "*")) || adjacent_stars p'
  | _ => false
  end.

Lemma toupper_ascii c : 0 <= c < 128 -> toupper c = Ok (upper c).
Proof.
  intros Hc. unfold toupper, upper. rewrite (proj2 (Z.leb_gt 128 c)) by lia. cbn [andb].
  by destruct (_ && _).
Qed.

Lemma upper_zero c : 1 <= c < 128 -> (upper c =? upper 0) = false.
Proof.
  intros Hc. apply Z.eqb_neq. change (upper 0) with 0. unfold upper.
  change (char "a") with 97. destruct (Z.leb_spec 97 c), (_ <=? _); cbn [andb]; lia.
Qed.

Lemma matches_nil_l ts : matches [] ts <-> ts = [].
Proof. split; [by inversion 1|intros ->; constructor]. Qed.

Lemma matches_char_iff p ps ts : p <> char "*" ->
  matches (p :: ps) ts <-> exists t ts', ts = t :: ts' /\ upper p = upper t /\ matches ps ts'.
Proof.
  intros Hp. split.
  - inversion 1; subst; [eauto|done].
  - intros (t & ts' & -> & E & H). by constructor.
Qed.

Lemma matches_star_iff ps ts :
  matches (char "*" :: ps) ts <-> exists skipped ts', ts = skipped ++ ts' /\ matches ps ts'.
Proof.
  split; [inversion 1; subst; [done|eauto]|intros (sk & ts' & -> & H); by constructor].
Qed.

(** A star followed by another character: the rest has to match from some place on. *)
Lemma matches_star_char q ps t ts : q <> char "*" ->
  matches (char "*" :: q :: ps) (t :: ts) <->
  (upper q = upper t /\ matches ps ts) \/ matches (char "*" :: q :: ps) ts.
Proof.
  intros Hq. rewrite !matches_star_iff. split.
  - intros ([|c sk] & ts' & E & H); cbn in E.
    + left. subst ts'. apply matches_char_iff in H as (t' & ts' & [= <- <-] & E & H); [done|done].
    + right. injection E as -> ->. eauto.
  - intros [[E H]|(sk & ts' & -> & H)].
    + exists [], (t :: ts). split; [done|]. by constructor.
    + by exists (t :: sk), ts'.
Qed.

(** A result that decides a property. *)
Definition decides (r : res bool) (P : Prop) : Prop := exists b, r = Ok b /\ (b = true <-> P).

Lemma decides_iff r P Q : decides r P -> (P <-> Q) -> decides r Q.
Proof. intros (b & -> & H) E. exists b. split; [done|]. by rewrite H. Qed.

Lemma decides_true (P : Prop) : P -> decides (Ok true) P.
Proof. intros H. by exists true. Qed.
Lemma decides_false (P : Prop) : ~ P -> decides (Ok false) P.
Proof. intros H. by exists false. Qed.

(** An asterisk and the next character, when the rest of the pattern is decided. *)
Lemma star_decides q pattern m1 m2 :
  (forall target, ascii_text target ->
     decides (string_match (target ++ 0 :: m1) (pattern ++ 0 :: m2)) (matches pattern target)) ->
  1 <= q < 128 -> q <> char "*" -> forall target, ascii_text target ->
  decides (string_match (target ++ 0 :: m1) (char "*" :: q :: pattern ++ 0 :: m2))
    (matches (char "*" :: q :: pattern) target).
Proof.
  intros IH Hq0 Hq target Ht. cbn [string_match]. change (char "*" =? 0) with false. cbv iota.
  rewrite Z.eqb_refl, (proj2 (Z.eqb_neq q 0)), (toupper_ascii q) by lia.
  induction target as [|t target IHt]; cbn [app].
  - rewrite Z.eqb_refl. apply decides_false. rewrite matches_star_iff.
    intros ([|c sk] & ts' & E & H); [|done]. cbn in E. subst ts'. by inversion H.
  - destruct (ascii_cons _ _ Ht) as [Ht0 Ht1].
    rewrite (proj2 (Z.eqb_neq t 0)), bind_ok, (toupper_ascii t), bind_ok by lia.
    eapply decides_iff; [|symmetry; by apply matches_star_char].
    destruct (IHt Ht1) as (bs & Es & Hs). destruct (Z.eqb_spec (upper q) (upper t)) as [E|E].
    + destruct (IH target Ht1) as (b & -> & Hb). rewrite bind_ok. destruct b.
      * apply decides_true. left. split; [done|]. by apply Hb.
      * rewrite Es. exists bs. split; [done|]. rewrite Hs. split; [tauto|].
        intros [[_ H]|H]; [|done]. apply Hb in H. done.
    + rewrite bind_ok, Es. exists bs. split; [done|]. rewrite Hs. tauto.
Qed.

Lemma adjacent_tail c p : adjacent_stars (c :: p) = false -> adjacent_stars p = false.
Proof. destruct p; [done|]. cbn [adjacent_stars]. intros H. by apply orb_false_iff in H as [_ H]. Qed.

(** C33: [string_match] decides what the header promises: it returns whether the pattern,
    with every asterisk replaced by some characters, is the target up to upper and
    lower case, for 7-bit strings and patterns in which no two asterisks are adjacent,
    whatever lies behind the strings in memory; it reads nothing there. *)
Theorem string_match_spec target pattern m1 m2 :
  ascii_text target -> ascii_text pattern -> adjacent_stars pattern = false ->
  decides (string_match (target ++ 0 :: m1) (pattern ++ 0 :: m2)) (matches pattern target).
Proof.
  enough (H : forall n pattern target, (length pattern <= n)%nat -> ascii_text target ->
            ascii_text pattern -> adjacent_stars pattern = false ->
            decides (string_match (target ++ 0 :: m1) (pattern ++ 0 :: m2)) (matches pattern target))
    by (intros; by apply (H (length pattern))).
  clear target pattern. induction n as [|n IH]; intros pattern target Hn Ht Hp Ha.
  all: destruct pattern as [|p pattern].
  1, 3: cbn [app string_match]; rewrite Z.eqb_refl; destruct target as [|t target];
    [apply decides_true; apply matches_end
    |change (rd ((t :: target) ++ 0 :: m1) 0) with (Ok t); rewrite bind_ok;
     pose proof (proj1 (ascii_cons _ _ Ht)); rewrite (proj2 (Z.eqb_neq _ _)) by lia;
     apply decides_false; by inversion 1].
  { cbn in Hn; lia. }
  destruct (ascii_cons _ _ Hp) as [Hp0 Hp1]. cbn in Hn. pose proof (adjacent_tail _ _ Ha) as Ha'.
  destruct (Z.eq_dec p (char "*")) as [->|Hpc].
  - destruct pattern as [|q pattern].
    { cbn. apply decides_true. rewrite <- (app_nil_r target). repeat constructor. }
    destruct (ascii_cons _ _ Hp1) as [Hq0 Hp2]. cbn [adjacent_stars] in Ha.
    apply orb_false_iff in Ha as [Hq _]. rewrite Z.eqb_refl in Hq. apply Z.eqb_neq in Hq.
    apply star_decides; [|done|done|done]. intros target' Ht'. cbn in Hn.
    apply IH; [lia|done|done|]. by apply adjacent_tail in Ha'.
  - cbn [app string_match]. rewrite (proj2 (Z.eqb_neq p 0)), (proj2 (Z.eqb_neq p _)) by (try done; lia).
    destruct target as [|t target]; cbn [app].
    + change (rd (0 :: m1) 0) with (Ok 0). rewrite bind_ok, !toupper_ascii, !bind_ok, upper_zero by lia.
      apply decides_false. rewrite matches_char_iff by done. by intros (? & ? & ? & _).
    + change (rd (t :: target ++ 0 :: m1) 0) with (Ok t). destruct (ascii_cons _ _ Ht) as [Ht0 Ht1].
      rewrite bind_ok, !toupper_ascii, !bind_ok by lia. rewrite skipn_cons, drop_0.
      destruct (Z.eqb_spec (upper p) (upper t)) as [E|E]; cbn [negb].
      * eapply decides_iff; [apply IH; [lia|done|done|done]|]. rewrite matches_char_iff by done.
        split; [eauto|]. by intros (? & ? & [= <- <-] & _ & H).
      * apply decides_false. rewrite matches_char_iff by done. by intros (? & ? & [= <- <-] & ? & _).
Qed.

(** The example of the header. *)
Lemma string_match_spec_witness :
  decides (string_match (text_of "www.TEST.GOOGLE.COM" ++ [0]) (text_of "www.*.com" ++ [0]))
    (matches (text_of "www.*.com") (text_of "www.TEST.GOOGLE.COM")).
Proof.
  apply (string_match_spec (text_of "www.TEST.GOOGLE.COM") (text_of "www.*.com") [] []).
  - unfold ascii_text; cbn. repeat (apply List.Forall_cons; [unfold char; cbn; lia|]). apply List.Forall_nil.
  - unfold ascii_text; cbn. repeat (apply List.Forall_cons; [unfold char; cbn; lia|]). apply List.Forall_nil.
  - reflexivity.
Defined.

(** The second of two adjacent asterisks is compared as a character: the pattern that
    stands for every text does not match a letter. *)
Example adjacent_stars_fail :
  string_match (text_of "a" ++ [0]) (text_of "**" ++ [0]) = Ok false /\
  matches (text_of "**") (text_of "a").
Proof.
  split; [reflexivity|]. apply (matches_star _ (text_of "a") []), (matches_star [] [] []), matches_end.
Qed.

(** A character beyond 7 bits is a negative argument for [toupper]. *)
Example not_ascii : string_match [228; 0] [228; 0] = Fault OutOfBounds.
Proof. reflexivity. Qed.

(** ** Prefixes and suffixes *)

(** A C string: no zero before its end. *)
Definition c_string (s : list Z) : Prop := Forall (fun c => c <> 0) s.

Lemma c_string_cons c s : c_string (c :: s) -> c <> 0 /\ c_string s.
Proof. intros H. split; [exact (List.Forall_inv H)|exact (List.Forall_inv_tail H)]. Qed.

Lemma strlen_length s m : c_string s -> strlen (s ++ 0 :: m) = Ok (length s).
Proof.
  induction s as [|c s IH]; intros H; cbn [app strlen length]; [done|].
  apply c_string_cons in H as [Hc H]. rewrite (proj2 (Z.eqb_neq c 0)) by done. by rewrite IH.
Qed.

(** [strncmp] over the length of the second string. *)
Lemma strncmp_prefix s2 : forall s1 m1 m2,
  c_string s1 -> c_string s2 ->
  decides (strncmp_eq (length s2) (s1 ++ 0 :: m1) (s2 ++ 0 :: m2)) (s2 `prefix_of` s1).
Proof.
  induction s2 as [|c s2 IH]; intros s1 m1 m2 H1 H2; cbn [length strncmp_eq].
  { apply decides_true, prefix_nil. }
  apply c_string_cons in H2 as [Hc H2]. destruct s1 as [|d s1]; cbn [app].
  - change (rd (0 :: m1) 0) with (Ok 0). change (rd (c :: s2 ++ 0 :: m2) 0) with (Ok c).
    rewrite !bind_ok, (proj2 (Z.eqb_neq 0 c)) by done. apply decides_false. by apply prefix_nil_not.
  - apply c_string_cons in H1 as [Hd H1].
    change (rd (d :: s1 ++ 0 :: m1) 0) with (Ok d). change (rd (c :: s2 ++ 0 :: m2) 0) with (Ok c).
    rewrite !bind_ok. destruct (Z.eqb_spec d c) as [->|E]; cbn [negb].
    + rewrite (proj2 (Z.eqb_neq c 0)) by done. eapply decides_iff; [by apply IH|].
      split; [by apply prefix_cons|by apply prefix_cons_inv_2].
    + apply decides_false. intros H. apply prefix_cons_inv_1 in H. done.
Qed.

Lemma starts_with_prefix s1 s2 m1 m2 :
  c_string s1 -> c_string s2 ->
  decides (starts_with (s1 ++ 0 :: m1) (s2 ++ 0 :: m2)) (s2 `prefix_of` s1).
Proof.
  intros H1 H2. unfold starts_with. rewrite strlen_length, bind_ok by done. by apply strncmp_prefix.
Qed.

Lemma ends_with_suffix s1 s2 m1 m2 :
  c_string s1 -> c_string s2 ->
  decides (ends_with (s1 ++ 0 :: m1) (s2 ++ 0 :: m2)) (s2 `suffix_of` s1).
Proof.
  intros H1 H2. unfold ends_with. rewrite !strlen_length, !bind_ok by done.
  destruct (Nat.ltb_spec (length s1) (length s2)) as [Hl|Hl].
  { apply decides_false. intros H. apply suffix_length in H. lia. }
  cbv zeta. rewrite drop_app_le by lia.
  assert (H3 : c_string (drop (length s1 - length s2) s1)).
  { unfold c_string in *. rewrite <- (take_drop (length s1 - length s2) s1) in H1.
    by apply Forall_app in H1 as [_ H1]. }
  eapply decides_iff; [by apply strncmp_prefix|]. split.
  - intros [k E]. exists (take (length s1 - length s2) s1).
    assert (Ek : k = []).
    { apply (f_equal length) in E. rewrite length_drop, length_app in E. apply nil_length_inv. lia. }
    rewrite Ek, app_nil_r in E. pose proof (take_drop (length s1 - length s2) s1) as T.
    rewrite E in T. done.
  - intros [k ->]. rewrite length_app. replace (_ + _ - _)%nat with (length k) by lia.
    rewrite drop_app_length. done.
Qed.

(** ** Replacement *)

(** All occurrences from left to right, none within another or within a replacement. *)
Fixpoint replaced (n : nat) (search replace s : list Z) : list Z :=
  match n with
  | O => s
  | S n =>
    if decide (take (length search) s = search)
    then replace ++ replaced n search replace (drop (length search) s)
    else match s with [] => [] | c :: s => c :: replaced n search replace s end
  end.

Lemma find_sub_from_shift search s pos :
  find_sub_from search s (S pos) = option_map S (find_sub_from search s pos).
Proof.
  revert pos. induction s as [|c s IH]; intros pos; cbn [find_sub_from];
    destruct (decide _); try done.
Qed.

(** The first occurrence. *)
Lemma find_sub_from_spec search s :
  search <> [] ->
  match find_sub_from search s 0 with
  | None => forall n r, (length s < n)%nat -> replaced n search r s = s
  | Some k => (k + length search <= length s)%nat /\
      forall n r, (length s < n)%nat ->
        replaced n search r s = take k s ++ r ++ replaced (n - k - 1) search r (drop (k + length search) s)
  end.
Proof.
  intros Hs. assert (Hl : (0 < length search)%nat) by (destruct search; [done|cbn; lia]).
  induction s as [|c s IH]; cbn [find_sub_from].
  - rewrite decide_False by (rewrite take_nil; naive_solver). intros [|n] r Hn; [done|].
    cbn [replaced]. by rewrite decide_False by (rewrite take_nil; naive_solver).
  - destruct (decide (take (length search) (c :: s) = search)) as [E|E].
    + split; [apply (f_equal length) in E; rewrite length_take in E; cbn in *; lia|].
      intros [|n] r Hn; [lia|]. cbn [replaced]. rewrite decide_True by done. cbn [take app Nat.add].
      by rewrite Nat.sub_0_r, Nat.sub_succ, Nat.sub_0_r.
    + rewrite find_sub_from_shift. destruct (find_sub_from search s 0) as [k|]; cbn [option_map].
      * destruct IH as [Hk IH]. split; [cbn; lia|]. intros [|n] r Hn; [lia|]. cbn [replaced].
        rewrite decide_False by done. cbn [length] in Hn. rewrite IH by lia. done.
      * intros [|n] r Hn; [done|]. cbn [replaced]. rewrite decide_False by done. cbn [length] in Hn.
        by rewrite IH by lia.
Qed.

Lemma find_sub_behind pre s search :
  find_sub (pre ++ s) search (length pre) = option_map (Nat.add (length pre)) (find_sub_from search s 0).
Proof.
  unfold find_sub. rewrite (proj2 (Nat.ltb_ge _ _)) by (rewrite length_app; lia).
  rewrite drop_app_length. induction (length pre) as [|n IH].
  - by destruct (find_sub_from search s 0).
  - rewrite find_sub_from_shift, IH. by destruct (find_sub_from search s 0).
Qed.

(** Enough fuel, more than the rounds of the reference. *)
Lemma replaced_enough search r : search <> [] -> forall n m s,
  (length s < n)%nat -> (length s < m)%nat -> replaced n search r s = replaced m search r s.
Proof.
  intros Hs. assert (Hl : (0 < length search)%nat) by (destruct search; [done|cbn; lia]).
  induction n as [|n IH]; intros m s Hn Hm; [lia|]. destruct m as [|m]; [lia|]. cbn [replaced].
  destruct (decide _) as [E|E].
  - f_equal. apply (f_equal length) in E. rewrite length_take in E. apply IH; rewrite length_drop; lia.
  - destruct s as [|c s]; [done|]. cbn in Hn, Hm. f_equal. apply IH; lia.
Qed.

(** [replace_substrs] of a text that is not empty terminates with the occurrences
    replaced. *)
Lemma replace_substrs_replaced search r s :
  search <> [] -> replace_substrs search r s = Ok (replaced (S (length s)) search r s).
Proof.
  intros Hs. assert (Hl : (0 < length search)%nat) by (destruct search; [done|cbn; lia]).
  unfold replace_substrs.
  enough (H : forall fuel pre s, (length s <= fuel)%nat ->
            replace_loop fuel search r (pre ++ s) (length pre) =
            Ok (pre ++ replaced (S (length s)) search r s)) by by apply (H _ []).
  clear s. induction fuel as [|fuel IH]; intros pre s Hf; cbn [replace_loop];
    rewrite find_sub_behind; pose proof (find_sub_from_spec search s Hs) as F;
    destruct (find_sub_from search s 0) as [k|]; cbn [option_map];
    try (by rewrite F by lia); destruct F as [Hk F]; [lia|].
  rewrite (F (S (length s)) r) by lia.
  replace (length pre + k + length search)%nat with (length pre + (k + length search))%nat by lia.
  rewrite drop_app_add, take_app_add. rewrite !app_assoc.
  replace (length pre + k + length r)%nat with (length ((pre ++ take k s) ++ r))
    by (rewrite !length_app, length_take; lia).
  rewrite IH by (rewrite length_drop; lia). rewrite <- !app_assoc. do 4 f_equal.
  apply replaced_enough; [done|lia|]. rewrite length_drop. lia.
Qed.

(** An empty text is found everywhere, and the loop does not end. *)
Lemma replace_nothing fuel r : forall s pos,
  (pos <= length s)%nat -> replace_loop fuel [] r s pos = Fault OutOfFuel.
Proof.
  assert (H : forall s pos, (pos <= length s)%nat -> find_sub s [] pos = Some pos).
  { intros s pos Hp. unfold find_sub. rewrite (proj2 (Nat.ltb_ge _ _)) by done.
    by destruct (drop pos s). }
  induction fuel as [|fuel IH]; intros s pos Hp; cbn [replace_loop]; rewrite H by done; [done|].
  apply IH. rewrite !length_app, length_take. lia.
Qed.

(** ** Trimming *)

Definition white (s : list Z) : Prop := Forall (fun c => c ∈ kWhitespace) s.

Lemma white_or_split s :
  white s \/ exists ws c t, s = ws ++ c :: t /\ white ws /\ c ∉ kWhitespace.
Proof.
  induction s as [|c s IH]; [left; apply List.Forall_nil|].
  destruct (decide (c ∈ kWhitespace)) as [Hc|Hc].
  - destruct IH as [H|(ws & c' & t & -> & H & Hc')]; [left; by apply List.Forall_cons|].
    right. exists (c :: ws), c', t. split; [done|]. split; [by apply List.Forall_cons|done].
  - right. exists [], c, s. split; [done|]. split; [apply List.Forall_nil|done].
Qed.

Lemma list_find_split ws c t :
  white ws -> c ∉ kWhitespace -> list_find (fun c => c ∉ kWhitespace) (ws ++ c :: t) = Some (length ws, c).
Proof.
  intros H Hc. induction ws as [|w ws IH]; cbn [app list_find].
  - by rewrite decide_True.
  - pose proof (List.Forall_inv H) as Hw. pose proof (List.Forall_inv_tail H) as Ht.
    rewrite decide_False by (intros H'; by apply H'). by rewrite IH.
Qed.

Lemma list_find_white s : white s -> list_find (fun c => c ∉ kWhitespace) s = None.
Proof.
  intros H. induction s as [|w s IH]; cbn [list_find]; [done|].
  pose proof (List.Forall_inv H) as Hw. pose proof (List.Forall_inv_tail H) as Ht.
  rewrite decide_False by (intros H'; by apply H'). by rewrite IH.
Qed.

(** Other characters at both ends. *)
Definition firm (s : list Z) : Prop :=
  (exists c t, s = c :: t /\ c ∉ kWhitespace) /\ (exists t c, s = t ++ [c] /\ c ∉ kWhitespace).

Lemma white_rev s : white s -> white (rev s).
Proof. apply Forall_rev. Qed.

Lemma trim_shape s :
  white s \/ exists front m back, s = front ++ m ++ back /\ white front /\ white back /\ firm m.
Proof.
  destruct (white_or_split s) as [H|(front & c & t & -> & Hf & Hc)]; [by left|right].
  destruct (white_or_split (rev (c :: t))) as [H|(rb & d & u & Er & Hb & Hd)].
  { exfalso. apply Hc. apply (proj1 (List.Forall_forall _ _) H). rewrite <- in_rev. by left. }
  assert (Es : c :: t = (rev u ++ [d]) ++ rev rb)
    by (by rewrite <- (rev_involutive (c :: t)), Er, rev_app_distr).
  exists front, (rev u ++ [d]), (rev rb). split; [by rewrite <- Es|]. split; [done|].
  split; [by apply white_rev|]. split; [|eauto].
  destruct (rev u ++ [d]) as [|c' m] eqn:Em; [by destruct (rev u)|].
  injection Es as <- _. eauto.
Qed.

(** [string_trim] takes the white space off both ends: nothing is left of a white text,
    and what is left of another one begins and ends with other characters. *)
Lemma string_trim_spec s :
  (white s -> string_trim s = Ok []) /\
  (~ white s -> exists front m back,
     s = front ++ m ++ back /\ white front /\ white back /\ firm m /\ string_trim s = Ok m).
Proof.
  unfold string_trim, find_first_not_of, find_last_not_of. split.
  - intros H. by rewrite list_find_white.
  - intros Hs. destruct (trim_shape s) as [H|(front & m & back & -> & Hf & Hb & Hm)]; [done|].
    exists front, m, back. do 4 (split; [done|]). destruct Hm as [(c & t & Ec & Hc) (u & d & Ed & Hd)].
    rewrite Ec at 1. cbn [app]. rewrite (list_find_split front c) by done.
    assert (Er : rev (front ++ m ++ back) = rev back ++ d :: rev u ++ rev front)
      by (rewrite !rev_app_distr, Ed, rev_app_distr; cbn; by rewrite <- app_assoc).
    rewrite Er, (list_find_split (rev back) d) by (try done; by apply white_rev).
    cbn [option_map fst]. rewrite !length_app, length_rev.
    assert (Hl : (0 < length m)%nat) by (rewrite Ec; cbn; lia).
    rewrite substr_ok, drop_app_length by (rewrite !length_app; lia).
    replace (_ - _ + 1)%nat with (length m) by lia. by rewrite take_app_length.
Qed.

(** ** Copying with a limit *)

Lemma strlenn_from_length s : forall pre n m,
  c_string s -> strlenn_from n (pre ++ s ++ 0 :: m) (length pre) = Ok (length pre + min n (length s))%nat.
Proof.
  induction s as [|c s IH]; intros pre n m Hs.
  - assert (R : rd (pre ++ 0 :: m) (Z.of_nat (length pre)) = Ok 0) by by apply rd_at.
    destruct n; cbn [strlenn_from app length]; rewrite R, bind_ok; cbn; f_equal; lia.
  - apply c_string_cons in Hs as [Hc Hs].
    assert (R : rd (pre ++ (c :: s) ++ 0 :: m) (Z.of_nat (length pre)) = Ok c) by by apply rd_at.
    destruct n as [|n]; cbn [strlenn_from]; rewrite R, bind_ok, (proj2 (Z.eqb_neq c 0)) by done;
      cbn [negb]; [f_equal; cbn; lia|].
    specialize (IH (pre ++ [c]) n m Hs). rewrite <- app_assoc, length_app in IH. cbn [app length] in *.
    rewrite Nat.add_1_r in IH. rewrite IH. f_equal. lia.
Qed.

Lemma strlenn_length s n m : c_string s -> strlenn (s ++ 0 :: m) n = Ok (min n (length s)).
Proof. intros Hs. apply (strlenn_from_length s []), Hs. Qed.

(** [strcpyn] copies as much of the string as fits and ends it with a zero. *)
Lemma strcpyn_spec buffer source m :
  c_string source -> (0 < length buffer)%nat ->
  let out := take (length buffer - 1) source in
  strcpyn buffer (length buffer) (source ++ 0 :: m) None =
  Ok (length out, out ++ 0 :: drop (S (length out)) buffer).
Proof.
  intros Hs Hb out. unfold strcpyn. rewrite (proj2 (Nat.leb_gt _ _)) by done.
  rewrite strlenn_length, bind_ok by done.
  assert (Eo : min (length buffer - 1) (length source) = length out) by (unfold out; by rewrite length_take).
  assert (Ho : (length out <= length buffer - 1)%nat) by (rewrite <- Eo; lia).
  rewrite Eo. unfold take_exact.
  rewrite (proj2 (Nat.leb_le _ _)), bind_ok by (rewrite length_app, <- Eo; lia).
  assert (Et : take (length out) (source ++ 0 :: m) = out).
  { rewrite take_app_le by (rewrite <- Eo; lia). unfold out. by rewrite length_take, <- take_take, firstn_all. }
  rewrite Et, put_splice, bind_ok, take_0 by (cbn; lia). cbn [app Nat.add].
  rewrite wr_front, bind_ok by (try done; rewrite length_drop; lia).
  by rewrite drop_drop, <- app_assoc, Nat.add_1_r.
Qed.

(** The character behind the part that is looked at is read as well. *)
Example reads_one_more : strlenn [97; 98] 2 = Fault OutOfBounds.
Proof. reflexivity. Qed.
