(* ===== verification/StringBuilder.v ===== *)
(** * String builders

    [base/strings/string_builder.{h,cc}]: text built in a buffer of fixed size, and in a string;
    and the conversions of integers to text of [base/stringencode.cc].  What the formats for
    integers print is the decimal text of the number; other formats are not modelled. *)
From Stdlib Require Import String Ascii.
From S2P Require Import Prelude CInt AudioUtil ChannelBuffer Base64 StringEncode StringUtils.

(** ** Decimal text *)

(** Twenty digits are enough for 64 bits. *)
Fixpoint digits (fuel : nat) (n : Z) : list Z :=
  match fuel with
  | O => []
  | S fuel => (if n <? 10 then [] else digits fuel (n / 10)) ++ [char "0" + n mod 10]
  end.

(** What [%d], [%u], [%ld], ... print. *)
Definition decimal (n : Z) : list Z :=
  if n <? 0 then char "-" :: digits 20 (- n) else digits 20 n.

(** [snprintf] into a buffer of [n] characters: the length of the whole text and the
    buffer. *)
Definition snprintf (buffer : list Z) (n : nat) (text : list Z) : res (nat * list Z) :=
  if (n =? 0)%nat then Ok (length text, buffer) else
  buffer ← put 0 (take (n - 1) text) buffer;
  buffer ← wr buffer (Z.of_nat (min (n - 1) (length text))) 0;
  Ok (length text, buffer).

(** [ToString] of the integer types; [garbage] is what the array held. *)
Definition ToString_int (garbage : list Z) (n : Z) : res (list Z) :=
  let buf := take 32 garbage in
  '(len, buf) ← snprintf buf 32 (decimal n);
  if negb (len <=? 32)%nat then Fault AssertionFailed else take_exact len buf.

(** ** The builder on a buffer *)

Record SimpleStringBuilder := MkBuilder { ssb_buffer : list Z; ssb_size : nat }.

Definition ssb_IsConsistent (b : SimpleStringBuilder) : bool :=
  (ssb_size b <=? length (ssb_buffer b) - 1)%nat &&
  match ssb_buffer b !! ssb_size b with Some c => c =? 0 | None => false end.

Definition checked_builder (b : SimpleStringBuilder) : res SimpleStringBuilder :=
  if ssb_IsConsistent b then Ok b else Fault AssertionFailed.

Definition SimpleStringBuilder_new (buffer : list Z) : res SimpleStringBuilder :=
  buffer ← wr buffer 0 0;
  checked_builder (MkBuilder buffer 0).

(** The characters from [size_] on are replaced by [rest]. *)
Definition with_rest (b : SimpleStringBuilder) (rest : list Z) (added : nat) : SimpleStringBuilder :=
  MkBuilder (take (ssb_size b) (ssb_buffer b) ++ rest) (ssb_size b + added).

(** [length] is [None] for [SIZE_UNKNOWN]. *)
Definition Append (b : SimpleStringBuilder) (str : list Z) (len : option nat) : res SimpleStringBuilder :=
  '(chars_added, rest) ← strcpyn (drop (ssb_size b) (ssb_buffer b))
                           (length (ssb_buffer b) - ssb_size b) str len;
  let b := with_rest b rest chars_added in
  expected ← match len with None => strlen str | Some n => Ok n end;
  if negb (chars_added =? expected)%nat then Fault AssertionFailed else checked_builder b.

(** A format that prints [text]. *)
Definition AppendFormat (b : SimpleStringBuilder) (text : list Z) : res SimpleStringBuilder :=
  let n := (length (ssb_buffer b) - ssb_size b)%nat in
  '(len, rest) ← snprintf (drop (ssb_size b) (ssb_buffer b)) n text;
  let chars_added := min len (length (ssb_buffer b) - 1 - ssb_size b) in
  let b := with_rest b rest chars_added in
  if negb (len =? chars_added)%nat then Fault AssertionFailed else checked_builder b.

(** [operator<<] of a C string literal, of a character, of a string and of an integer. *)
Definition append_cstr (b : SimpleStringBuilder) (str : list Z) : res SimpleStringBuilder := Append b str None.
Definition append_literal (b : SimpleStringBuilder) (s : string) : res SimpleStringBuilder :=
  append_cstr b (text_of s ++ [0]).
Definition append_ch (b : SimpleStringBuilder) (ch : Z) : res SimpleStringBuilder := Append b [ch] (Some 1%nat).
Definition append_string (b : SimpleStringBuilder) (str : list Z) : res SimpleStringBuilder :=
  Append b str (Some (length str)).
Definition append_int (b : SimpleStringBuilder) (n : Z) : res SimpleStringBuilder := AppendFormat b (decimal n).

(** [str()] up to the zero, and [size()]. *)
Definition ssb_str (b : SimpleStringBuilder) : list Z := take (ssb_size b) (ssb_buffer b).

(** ** The builder on a string *)

Definition StringBuilder : Type := list Z.
Definition StringBuilder_new (s : list Z) : StringBuilder := s.
Definition sb_append (b : StringBuilder) (str : list Z) : StringBuilder := b ++ str.
Definition sb_append_int (garbage : list Z) (b : StringBuilder) (n : Z) : res StringBuilder :=
  s ← ToString_int garbage n; Ok (b ++ s).
(** [AppendFormat] of a format that prints [text]: the string is made longer and printed into,
    the zero going behind its end. *)
Definition sb_AppendFormat (b : StringBuilder) (text : list Z) : StringBuilder :=
  if (0 <? length text)%nat then b ++ text else b.
Definition sb_Clear (b : StringBuilder) : StringBuilder := [].
Definition sb_Release (b : StringBuilder) : list Z * StringBuilder := (b, []).

(** ** Numbers and their text *)

Lemma digits_length fuel : forall n k,
  (1 <= k)%nat -> 0 <= n < 10 ^ Z.of_nat k -> (length (digits fuel n) <= k)%nat.
Proof.
  induction fuel as [|fuel IH]; intros n k Hk Hn; cbn [digits]; [cbn; lia|].
  rewrite length_app. cbn [length]. destruct (Z.ltb_spec n 10) as [|H]; [cbn; lia|].
  destruct k as [|[|k]]; [lia|cbn in Hn; lia|].
  assert (Hd : 0 <= n / 10 < 10 ^ Z.of_nat (S k)).
  { rewrite Nat2Z.inj_succ, Z.pow_succ_r in Hn by lia.
    split; [apply Z.div_pos; lia|apply Z.div_lt_upper_bound; lia]. }
  specialize (IH (n / 10) (S k) ltac:(lia) Hd). lia.
Qed.

(** Reading digits. *)
Definition digits_value (l : list Z) : Z := foldl (fun v c => v * 10 + (c - char "0")) 0 l.

Lemma digits_value_snoc l c : digits_value (l ++ [c]) = digits_value l * 10 + (c - char "0").
Proof. unfold digits_value. by rewrite foldl_app. Qed.

Lemma digits_read fuel : forall n, 0 <= n < 10 ^ Z.of_nat fuel -> digits_value (digits fuel n) = n.
Proof.
  induction fuel as [|fuel IH]; intros n Hn; cbn [digits].
  - change (10 ^ Z.of_nat 0) with 1 in Hn. cbn. lia.
  - rewrite digits_value_snoc. rewrite Nat2Z.inj_succ, Z.pow_succ_r in Hn by lia.
    pose proof (Z.div_mod n 10 ltac:(lia)) as E. destruct (Z.ltb_spec n 10) as [H|H].
    + rewrite (Z.mod_small n 10) by lia. change (digits_value []) with 0. lia.
    + rewrite IH by (split; [apply Z.div_pos; lia|apply Z.div_lt_upper_bound; lia]). lia.
Qed.

Lemma digits_chars fuel : forall n, 0 <= n -> Forall (fun c => char "0" <= c <= char "9") (digits fuel n).
Proof.
  induction fuel as [|fuel IH]; intros n Hn; cbn [digits]; [apply List.Forall_nil|].
  apply Forall_app. split.
  - destruct (n <? 10); [apply List.Forall_nil|]. apply IH, Z.div_pos; lia.
  - apply List.Forall_cons; [|apply List.Forall_nil].
    pose proof (Z.mod_pos_bound n 10 ltac:(lia)). change (char "0") with 48. change (char "9") with 57. lia.
Qed.

(** Reading a number with its sign. *)
Definition decimal_value (l : list Z) : Z :=
  match l with
  | c :: l' => if c =? char "-" then - digits_value l' else digits_value l
  | [] => 0
  end.

(** The text of a number stands for it. *)
Lemma decimal_read n : - 10 ^ 20 < n < 10 ^ 20 -> decimal_value (decimal n) = n.
Proof.
  intros Hn. unfold decimal. destruct (Z.ltb_spec n 0) as [H|H].
  - cbn [decimal_value]. rewrite Z.eqb_refl, digits_read by (cbn; lia). lia.
  - unfold decimal_value. destruct (digits 20 n) as [|c l] eqn:E.
    { pose proof (digits_read 20 n ltac:(cbn; lia)) as R. rewrite E in R. cbn in R. lia. }
    pose proof (digits_chars 20 n H) as Hc. rewrite E in Hc. apply List.Forall_inv in Hc.
    rewrite (proj2 (Z.eqb_neq c _)) by (change (char "0") with 48 in Hc; change (char "-") with 45; lia).
    rewrite <- E. apply digits_read. cbn. lia.
Qed.

Lemma decimal_length_u n k : (1 <= k)%nat -> 0 <= n < 10 ^ Z.of_nat k -> (length (decimal n) <= k)%nat.
Proof.
  intros Hk Hn. unfold decimal. rewrite (proj2 (Z.ltb_ge _ _)) by lia. by apply digits_length.
Qed.

Lemma decimal_length n : - 10 ^ 20 < n < 10 ^ 20 -> (length (decimal n) <= 21)%nat.
Proof.
  intros Hn. unfold decimal. destruct (Z.ltb_spec n 0); cbn [length].
  - pose proof (digits_length 20 (- n) 20 ltac:(lia) ltac:(cbn; lia)). lia.
  - pose proof (digits_length 20 n 20 ltac:(lia) ltac:(cbn; lia)). lia.
Qed.

Lemma decimal_no_zero n : c_string (decimal n).
Proof.
  assert (H : forall k, 0 <= k -> c_string (digits 20 k)).
  { intros k Hk. apply (List.Forall_impl _ (P := fun c => char "0" <= c <= char "9")); [|by apply digits_chars].
    intros c Hc. change (char "0") with 48 in Hc. lia. }
  unfold decimal. destruct (Z.ltb_spec n 0); [|by apply H].
  apply List.Forall_cons; [by vm_compute|apply H; lia].
Qed.

(** ** Building *)

Lemma snprintf_fits buffer text :
  (length text < length buffer)%nat ->
  snprintf buffer (length buffer) text = Ok (length text, text ++ 0 :: drop (S (length text)) buffer).
Proof.
  intros H. unfold snprintf. rewrite (proj2 (Nat.eqb_neq _ _)) by lia.
  rewrite take_ge, put_splice, bind_ok, take_0 by lia. cbn [app Nat.add].
  rewrite Nat.min_r by lia. rewrite wr_front, bind_ok by (try done; rewrite length_drop; lia).
  by rewrite drop_drop, <- app_assoc, Nat.add_1_r.
Qed.

(** Every number of 64 bits is converted, and its text stands for it. *)
Lemma ToString_int_spec garbage n :
  (32 <= length garbage)%nat -> - 2 ^ 63 <= n < 2 ^ 64 ->
  ToString_int garbage n = Ok (decimal n) /\ decimal_value (decimal n) = n.
Proof.
  intros Hg Hn. split; [|apply decimal_read; lia].
  pose proof (decimal_length n ltac:(lia)) as Hl. unfold ToString_int.
  assert (E : length (take 32 garbage) = 32%nat) by (rewrite length_take; lia).
  pose proof (snprintf_fits (take 32 garbage) (decimal n)) as S. rewrite E in S.
  rewrite S, bind_ok by lia. rewrite (proj2 (Nat.leb_le _ _)) by lia. cbn [negb].
  unfold take_exact. rewrite (proj2 (Nat.leb_le _ _)) by (rewrite length_app; lia).
  by rewrite take_app_length.
Qed.

(** A builder that holds a text, in a buffer of [n] characters. *)
Definition built (n : nat) (text : list Z) (b : SimpleStringBuilder) : Prop :=
  ssb_size b = length text /\ length (ssb_buffer b) = n /\ exists rest, ssb_buffer b = text ++ 0 :: rest.

Lemma built_consistent n text b : built n text b -> checked_builder b = Ok b.
Proof.
  intros (Es & En & rest & Eb). unfold checked_builder, ssb_IsConsistent.
  rewrite Es, Eb, list_lookup_middle by done. rewrite length_app. cbn [length].
  by rewrite (proj2 (Nat.leb_le _ _)) by lia.
Qed.

Lemma built_str n text b : built n text b -> ssb_str b = text.
Proof. intros (Es & _ & rest & Eb). unfold ssb_str. by rewrite Es, Eb, take_app_length. Qed.

Lemma built_new buffer : (0 < length buffer)%nat ->
  exists b, SimpleStringBuilder_new buffer = Ok b /\ built (length buffer) [] b.
Proof.
  intros H. destruct buffer as [|c buffer]; [cbn in H; lia|]. unfold SimpleStringBuilder_new.
  rewrite wr_0, bind_ok. set (b := MkBuilder (0 :: buffer) 0).
  assert (B : built (length (c :: buffer)) [] b) by (split; [done|]; split; [done|by exists buffer]).
  exists b. split; [by apply (built_consistent _ _ _ B)|done].
Qed.

Lemma built_more n text b more rest :
  built n text b -> length rest = (n - length text - length more - 1)%nat ->
  (length text + length more < n)%nat ->
  built n (text ++ more) (with_rest b (more ++ 0 :: rest) (length more)).
Proof.
  intros (Es & En & r & Eb) Hr Hn. unfold with_rest. rewrite Es, Eb, take_app_length.
  split; [by rewrite length_app|]. cbn [ssb_buffer]. split.
  - rewrite !length_app. cbn. lia.
  - exists rest. by rewrite <- app_assoc.
Qed.

Lemma AppendFormat_built n text b more :
  built n text b -> (length text + length more < n)%nat ->
  wp (AppendFormat b more) (built n (text ++ more)).
Proof.
  intros B Hn. pose proof B as (Es & En & r & Eb). unfold AppendFormat. rewrite Es, En.
  assert (El : length (drop (length text) (ssb_buffer b)) = (n - length text)%nat) by (rewrite length_drop; lia).
  rewrite <- El, snprintf_fits, bind_ok by lia. cbv zeta. rewrite Nat.min_l by lia.
  rewrite Nat.eqb_refl. cbn [negb].
  assert (B' : built n (text ++ more) (with_rest b (more ++ 0 :: drop (S (length more)) (drop (length text) (ssb_buffer b))) (length more)))
    by (apply built_more; [done|rewrite length_drop; lia|done]).
  by rewrite (built_consistent _ _ _ B').
Qed.

Lemma strcpyn_length buffer source n : (n <= length source)%nat -> (n < length buffer)%nat ->
  strcpyn buffer (length buffer) source (Some n) = Ok (n, take n source ++ 0 :: drop (S n) buffer).
Proof.
  intros Hs Hb. unfold strcpyn. rewrite (proj2 (Nat.leb_gt _ _)), bind_ok, (proj2 (Nat.leb_gt _ _)) by lia.
  unfold take_exact. rewrite (proj2 (Nat.leb_le _ _)), bind_ok by lia.
  assert (El : length (take n source) = n) by (rewrite length_take; lia).
  rewrite put_splice, bind_ok, take_0, El by lia. cbn [app Nat.add].
  rewrite wr_front, bind_ok by (rewrite ?length_drop; lia).
  by rewrite drop_drop, <- app_assoc, Nat.add_1_r.
Qed.

Lemma Append_built n text b str len more :
  built n text b -> (length text + length more < n)%nat ->
  strcpyn (drop (length text) (ssb_buffer b)) (n - length text) str len =
    Ok (length more, more ++ 0 :: drop (S (length more)) (drop (length text) (ssb_buffer b))) ->
  match len with None => strlen str | Some k => Ok k end = Ok (length more) ->
  wp (Append b str len) (built n (text ++ more)).
Proof.
  intros B Hn E1 E2. pose proof B as (Es & En & r & Eb). unfold Append. rewrite Es, En, E1, bind_ok.
  cbv zeta. rewrite E2, bind_ok, Nat.eqb_refl. cbn [negb].
  set (rest := drop _ _).
  assert (B' : built n (text ++ more) (with_rest b (more ++ 0 :: rest) (length more)))
    by (apply built_more; [done|unfold rest; rewrite !length_drop; lia|done]).
  by rewrite (built_consistent _ _ _ B').
Qed.

Lemma append_cstr_built n text b str m :
  built n text b -> c_string str -> (length text + length str < n)%nat ->
  wp (append_cstr b (str ++ 0 :: m)) (built n (text ++ str)).
Proof.
  intros B Hs Hn. apply Append_built; [done|done| |by apply strlen_length].
  pose proof B as (Es & En & r & Eb).
  assert (El : length (drop (length text) (ssb_buffer b)) = (n - length text)%nat) by (rewrite length_drop; lia).
  rewrite <- El, strcpyn_spec by (try done; lia). by rewrite take_ge by lia.
Qed.

Lemma append_string_built n text b str :
  built n text b -> (length text + length str < n)%nat -> wp (append_string b str) (built n (text ++ str)).
Proof.
  intros B Hn. apply Append_built; [done|done| |done]. pose proof B as (Es & En & r & Eb).
  assert (El : length (drop (length text) (ssb_buffer b)) = (n - length text)%nat) by (rewrite length_drop; lia).
  rewrite <- El, strcpyn_length by lia. by rewrite firstn_all.
Qed.

Lemma append_ch_built n text b c :
  built n text b -> (length text + 1 < n)%nat -> wp (append_ch b c) (built n (text ++ [c])).
Proof. apply (append_string_built n text b [c]). Qed.

Lemma append_int_built n text b k :
  built n text b -> (length text + length (decimal k) < n)%nat -> wp (append_int b k) (built n (text ++ decimal k)).
Proof. apply AppendFormat_built. Qed.

(** A literal has no zero. *)
Ltac literal := vm_compute; repeat (apply List.Forall_cons; [done|]); apply List.Forall_nil.

(** Text that does not fit is cut off, which debug builds report. *)
Example does_not_fit :
  (b ← SimpleStringBuilder_new [7; 7; 7; 7]; append_int b 123) = Ok (MkBuilder [49; 50; 51; 0] 3) /\
  (b ← SimpleStringBuilder_new [7; 7; 7; 7]; append_int b 1234) = Fault AssertionFailed.
Proof. split; vm_compute; reflexivity. Qed.
