(* ===== verification/StringToNumber.v ===== *)
(** * Numbers in strings

    [base/string_to_number.{h,cc}]: integers parsed from a whole string, in a given base.  [strtoll] and
    [strtoull] are those of the C library, on the string up to its first zero.  Floating-point
    numbers are not modelled. *)
From Stdlib Require Import String Ascii.
From S2P Require Import Prelude CInt SafeNumerics AudioUtil ChannelBuffer Base64 StringEncode StringUtils StringBuilder.

(** ** The C library *)

Definition is_digit (c : Z) : bool := (char "0" <=? c) && (c <=? char "9").
(** A [char] is signed: the characters from 128 on are negative arguments, for which the
    function is not defined, but for 255, which is [EOF]. *)
Definition isdigit (c : Z) : res bool :=
  if (128 <=? c) && (c <? 255) then Fault OutOfBounds else Ok (is_digit c).
Definition isspace (c : Z) : bool := (c =? 32) || ((9 <=? c) && (c <=? 13)).

(** The value of a character as a digit of a base. *)
Definition digit_in (base c : Z) : option Z :=
  let d := if is_digit c then c - char "0"
           else if (char "a" <=? c) && (c <=? char "z") then c - char "a" + 10
           else if (char "A" <=? c) && (c <=? char "Z") then c - char "A" + 10 else base in
  if d <? base then Some d else None.

(** The digits from the front, and what follows them. *)
Fixpoint scan (base : Z) (s : list Z) (value : Z) : Z * list Z :=
  match s with
  | [] => (value, [])
  | c :: s' => match digit_in base c with Some d => scan base s' (value * base + d) | None => (value, s) end
  end.

Fixpoint skip_spaces (s : list Z) : list Z :=
  match s with c :: s' => if isspace c then skip_spaces s' else s | [] => [] end.

(** The prefix of hexadecimal numbers, which a digit has to follow. *)
Definition hex_prefix (s : list Z) : option (list Z) :=
  match s with
  | z :: x :: c :: s => if (z =? char "0") && ((x =? char "x") || (x =? char "X")) &&
                           match digit_in 16 c with Some _ => true | None => false end
                        then Some (c :: s) else None
  | _ => None
  end.

(** The base in use and the digits. *)
Definition base_of (base : Z) (s : list Z) : Z * list Z :=
  if (base =? 0) || (base =? 16) then
    match hex_prefix s with
    | Some s => (16, s)
    | None => if base =? 16 then (16, s)
              else match s with c :: _ => if c =? char "0" then (8, s) else (10, s) | [] => (10, s) end
    end
  else (base, s).

(** The sign, the magnitude and where the number ends; [None] when there is no number, or no
    such base. *)
Definition strto (s : list Z) (base : Z) : option (bool * Z * list Z) :=
  if negb ((base =? 0) || ((2 <=? base) && (base <=? 36))) then None else
  let s := skip_spaces s in
  let '(negative, s) := match s with
                        | c :: s' => if c =? char "-" then (true, s')
                                     else if c =? char "+" then (false, s') else (false, s)
                        | [] => (false, s)
                        end in
  let '(base, s) := base_of base s in
  match s with
  | c :: _ => match digit_in base c with
              | Some _ => let '(magnitude, s) := scan base s 0 in Some (negative, magnitude, s)
              | None => None
              end
  | [] => None
  end.

(** The value, where it ends and whether [errno] stays 0; without a number it ends where it began. *)
Definition strtoll (s : list Z) (base : Z) : Z * list Z * bool :=
  match strto s base with
  | None => (0, s, true)
  | Some (negative, magnitude, rest) =>
      let v := if negative : bool then - magnitude else magnitude in
      if v <? INT64_MIN then (INT64_MIN, rest, false)
      else if INT64_MAX <? v then (INT64_MAX, rest, false) else (v, rest, true)
  end.
Definition strtoull (s : list Z) (base : Z) : Z * list Z * bool :=
  match strto s base with
  | None => (0, s, true)
  | Some (negative, magnitude, rest) =>
      if 2 ^ 64 - 1 <? magnitude then (2 ^ 64 - 1, rest, false)
      else ((if negative : bool then - magnitude else magnitude) mod 2 ^ 64, rest, true)
  end.

(** ** Parsing *)

Definition at_end (rest : list Z) : bool := match rest with [] => true | _ => false end.
Definition starts_number (str : list Z) : res bool :=
  match str with c :: _ => d ← isdigit c; Ok (d || (c =? char "-")) | [] => Ok false end.

Definition ParseSigned (str : list Z) (base : Z) : res (option Z) :=
  number ← starts_number str;
  if number : bool then
    let '(value, rest, no_error) := strtoll str base in
    Ok (if at_end rest && no_error then Some value else None)
  else Ok None.

Definition ParseUnsigned (str : list Z) (base : Z) : res (option Z) :=
  number ← starts_number str;
  if number : bool then
    let is_negative := match str with c :: _ => c =? char "-" | [] => false end in
    let '(value, rest, no_error) := strtoull str base in
    Ok (if at_end rest && no_error && ((value =? 0) || negb is_negative) then Some value else None)
  else Ok None.

Definition StringToNumber (T : int_type) (str : list Z) (base : Z) : res (option Z) :=
  if is_signed T then
    value ← ParseSigned str base;
    match value with
    | Some v => Ok (if (lowest T <=? v) && (v <=? highest T) then Some v else None)
    | None => Ok None
    end
  else
    value ← ParseUnsigned str base;
    match value with
    | Some v => Ok (if v <=? highest T then Some v else None)
    | None => Ok None
    end.

(** [c_str()] of a string, as the parsers see it. *)
Fixpoint until_zero (s : list Z) : list Z :=
  match s with c :: s' => if c =? 0 then [] else c :: until_zero s' | [] => [] end.
Definition StringToNumber_str (T : int_type) (str : list Z) (base : Z) : res (option Z) :=
  StringToNumber T (until_zero str) base.

(** ** Decimal numbers *)

Definition decimal_digits (l : list Z) : Prop := l <> [] /\ Forall (fun c => is_digit c = true) l.

(** A string stands for a number. *)
Inductive stands_for : list Z -> Z -> Prop :=
| stands_plain l : decimal_digits l -> stands_for l (digits_value l)
| stands_negative l : decimal_digits l -> stands_for (char "-" :: l) (- digits_value l).

Lemma digit_in_10 c : digit_in 10 c = if is_digit c then Some (c - char "0") else None.
Proof.
  unfold digit_in, is_digit. change (char "0") with 48. change (char "9") with 57. change (char "a") with 97.
  change (char "z") with 122. change (char "A") with 65. change (char "Z") with 90.
  destruct (Z.leb_spec 48 c), (Z.leb_spec c 57), (Z.leb_spec 97 c), (Z.leb_spec c 122), (Z.leb_spec 65 c), (Z.leb_spec c 90);
    cbn [andb]; try lia; try done; destruct (Z.ltb_spec (c - 48) 10); try done; try lia;
    destruct (Z.ltb_spec (c - 97 + 10) 10); try done; try lia; destruct (Z.ltb_spec (c - 65 + 10) 10); done || lia.
Qed.

Lemma scan_digits s : forall v, Forall (fun c => is_digit c = true) s ->
  scan 10 s v = (foldl (fun v c => v * 10 + (c - char "0")) v s, []).
Proof.
  induction s as [|c s IH]; intros v H; cbn [scan foldl]; [done|]. apply Forall_cons_1 in H as [Hc Hs].
  rewrite digit_in_10, Hc. by apply IH.
Qed.

Lemma scan_all s : forall v, snd (scan 10 s v) = [] -> Forall (fun c => is_digit c = true) s.
Proof.
  induction s as [|c s IH]; intros v H; [apply List.Forall_nil|]. cbn [scan] in H. rewrite digit_in_10 in H.
  destruct (is_digit c) eqn:Hc; [|done]. apply List.Forall_cons; [done|by apply IH in H].
Qed.

Lemma digit_range c : is_digit c = true -> 48 <= c <= 57.
Proof. unfold is_digit. change (char "0") with 48. change (char "9") with 57. lia. Qed.

Lemma digits_value_nonneg l : Forall (fun c => is_digit c = true) l -> 0 <= digits_value l.
Proof.
  intros H. unfold digits_value. assert (G : forall v, 0 <= v -> 0 <= foldl (fun v c => v * 10 + (c - char "0")) v l).
  { induction H as [|c l Hc Hl IH]; intros v Hv; cbn [foldl]; [done|]. apply IH.
    apply digit_range in Hc. change (char "0") with 48. lia. }
  by apply G.
Qed.

(** [strto] for base ten, after the sign. *)
Definition unsigned_10 (negative : bool) (s : list Z) : option (bool * Z * list Z) :=
  match s with
  | c :: _ => match digit_in 10 c with
              | Some _ => let '(magnitude, s) := scan 10 s 0 in Some (negative, magnitude, s)
              | None => None
              end
  | [] => None
  end.

Lemma strto_10 c s : isspace c = false ->
  strto (c :: s) 10 = if c =? char "-" then unsigned_10 true s
                      else if c =? char "+" then unsigned_10 false s else unsigned_10 false (c :: s).
Proof.
  intros Hc. unfold strto. change (negb _) with false. cbv iota. cbn [skip_spaces]. rewrite Hc. cbv iota zeta.
  destruct (c =? char "-"); [done|]. by destruct (c =? char "+").
Qed.

Lemma unsigned_digits n l : decimal_digits l -> unsigned_10 n l = Some (n, digits_value l, []).
Proof.
  intros [Hne Hl]. destruct l as [|c l]; [done|]. unfold unsigned_10.
  by rewrite digit_in_10, (Forall_inv Hl), scan_digits.
Qed.

Lemma unsigned_only n s negative m : unsigned_10 n s = Some (negative, m, []) ->
  n = negative /\ decimal_digits s /\ m = digits_value s.
Proof.
  unfold unsigned_10. destruct s as [|c t]; [done|]. intros H. rewrite digit_in_10 in H. destruct (is_digit c); [|done].
  destruct (scan 10 (c :: t) 0) as [v r] eqn:Es. injection H as -> -> ->.
  pose proof (scan_all (c :: t) 0) as Ha. rewrite Es in Ha. specialize (Ha eq_refl).
  rewrite scan_digits in Es by done. injection Es as <-. by split_and!.
Qed.

(** The library reads decimal numbers, *)
Lemma strto_digits l : decimal_digits l ->
  strto l 10 = Some (false, digits_value l, []) /\ strto (char "-" :: l) 10 = Some (true, digits_value l, []).
Proof.
  intros Hd. split; [|rewrite strto_10 by done; by apply unsigned_digits].
  pose proof Hd as [Hne Hl]. destruct l as [|c l]; [done|]. pose proof (digit_range c (Forall_inv Hl)) as Hr.
  rewrite strto_10 by (unfold isspace; lia). change (char "-") with 45. change (char "+") with 43.
  rewrite (proj2 (Z.eqb_neq c 45)), (proj2 (Z.eqb_neq c 43)) by lia. by apply unsigned_digits.
Qed.

(** and only those. *)
Lemma strto_only s negative magnitude : starts_number s = Ok true -> strto s 10 = Some (negative, magnitude, []) ->
  exists l, decimal_digits l /\ magnitude = digits_value l /\ s = if negative : bool then char "-" :: l else l.
Proof.
  intros Hs E. destruct s as [|c s]; [done|]. cbn [starts_number] in Hs.
  assert (Hc : is_digit c = true \/ c = char "-").
  { unfold isdigit in Hs. destruct (_ && _); [done|]. rewrite bind_ok in Hs. injection Hs as Hs.
    apply orb_true_iff in Hs as [Hs|Hs]; [by left|right; by apply Z.eqb_eq]. }
  rewrite strto_10 in E.
  2: { destruct Hc as [Hc | ->]; [apply digit_range in Hc; unfold isspace; lia|done]. }
  destruct (Z.eqb_spec c (char "-")) as [->|Hn].
  - apply unsigned_only in E as (<- & Hd & ->). by exists s.
  - destruct Hc as [Hc|]; [|done]. pose proof (digit_range c Hc).
    rewrite (proj2 (Z.eqb_neq c (char "+"))) in E by (change (char "+") with 43; lia).
    apply unsigned_only in E as (<- & Hd & ->). by exists (c :: s).
Qed.

Lemma isdigit_digit c : is_digit c = true -> isdigit c = Ok true.
Proof.
  intros H. pose proof (digit_range c H). unfold isdigit. by rewrite (proj2 (Z.leb_gt 128 c)), H by lia.
Qed.

Lemma stands_starts s v : stands_for s v -> starts_number s = Ok true.
Proof.
  intros [l [Hne Hl]|l _]; [|done]. destruct l as [|c l]; [done|]. cbn. by rewrite (isdigit_digit c (Forall_inv Hl)).
Qed.

(** The parsers stop only where the first character is not one of ASCII. *)
Lemma starts_fault s f : starts_number s = Fault f -> exists c s', s = c :: s' /\ 128 <= c < 255.
Proof.
  destruct s as [|c s]; [done|]. cbn. unfold isdigit. destruct (_ && _) eqn:E; [|done]. intros _. exists c, s. split; [done|lia].
Qed.

Lemma ParseSigned_spec s v : ParseSigned s 10 = Ok (Some v) <-> stands_for s v /\ i64 v.
Proof.
  unfold ParseSigned. split.
  - destruct (starts_number s) as [[]|] eqn:Hs; [|done..]. rewrite bind_ok.
    unfold strtoll. destruct (strto s 10) as [[[neg m] rest]|] eqn:E.
    2: { destruct s; [done|]. done. }
    cbv zeta. destruct (Z.ltb_spec (if neg then - m else m) INT64_MIN); [by rewrite andb_false_r|].
    destruct (Z.ltb_spec INT64_MAX (if neg then - m else m)); [by rewrite andb_false_r|].
    destruct rest; [|done]. cbn [at_end andb]. intros [= <-].
    destruct (strto_only s neg m Hs E) as (l & Hd & -> & ->). split; [|unfold i64; lia].
    destruct neg; [by apply stands_negative|by apply stands_plain].
  - intros [H Hv]. rewrite (stands_starts s v H), bind_ok. unfold strtoll, i64 in *.
    destruct H as [l Hd|l Hd]; destruct (strto_digits l Hd) as [E1 E2]; rewrite ?E1, ?E2; cbv zeta iota;
      by rewrite !(proj2 (Z.ltb_ge _ _)) by lia.
Qed.

Lemma ParseUnsigned_spec s v : ParseUnsigned s 10 = Ok (Some v) <-> stands_for s v /\ 0 <= v < 2 ^ 64.
Proof.
  unfold ParseUnsigned. split.
  - destruct (starts_number s) as [[]|] eqn:Hs; [|done..]. rewrite bind_ok.
    unfold strtoull. destruct (strto s 10) as [[[neg m] rest]|] eqn:E.
    2: { destruct s; [done|]. done. }
    destruct (Z.ltb_spec (2 ^ 64 - 1) m); [by rewrite andb_false_r|].
    destruct rest; [|done]. cbn [at_end andb].
    destruct (strto_only s neg m Hs E) as (l & Hd & -> & ->). pose proof (digits_value_nonneg l (proj2 Hd)) as Hn.
    destruct neg.
    + change (char "-" =? char "-") with true. cbn [negb]. rewrite orb_false_r.
      destruct (Z.eqb_spec ((- digits_value l) mod 2 ^ 64) 0) as [E0|]; [|done]. intros [= <-].
      assert (digits_value l = 0) as E1.
      { apply Z.mod_divide in E0 as [k Ek]; [|done]. revert Ek Hn H.
        change (2 ^ 64) with 18446744073709551616. lia. }
      rewrite E0. split; [|lia]. replace 0 with (- digits_value l) by lia. by apply stands_negative.
    + rewrite Z.mod_small by lia. destruct (_ || _); [|done]. intros [= <-]. split; [by apply stands_plain|lia].
  - intros [H Hv]. rewrite (stands_starts s v H), bind_ok. unfold strtoull.
    destruct H as [l Hd|l Hd]; destruct (strto_digits l Hd) as [E1 E2]; rewrite ?E1, ?E2; cbv zeta iota;
      pose proof (digits_value_nonneg l (proj2 Hd)) as Hn; rewrite (proj2 (Z.ltb_ge _ _)) by lia.
    + rewrite Z.mod_small by lia. cbn [at_end andb]. destruct Hd as [Hne Hl]. destruct l as [|c l]; [done|].
      pose proof (digit_range c (Forall_inv Hl)). rewrite (proj2 (Z.eqb_neq c (char "-"))) by (change (char "-") with 45; lia).
      by rewrite orb_true_r.
    + assert (digits_value l = 0) as -> by lia. done.
Qed.

Lemma Parse_fault s f : ParseSigned s 10 = Fault f \/ ParseUnsigned s 10 = Fault f ->
  exists c s', s = c :: s' /\ 128 <= c < 255.
Proof.
  unfold ParseSigned, ParseUnsigned.
  destruct (starts_number s) as [[]|g] eqn:E; [| |intros _; by eapply starts_fault]; rewrite bind_ok;
    destruct (strtoll s 10) as [[? ?] ?], (strtoull s 10) as [[? ?] ?]; by intros [|].
Qed.

Lemma type_ends T : In T int_types ->
  if is_signed T then INT64_MIN <= lowest T /\ highest T <= INT64_MAX else lowest T = 0 /\ highest T < 2 ^ 64.
Proof. intros H. all_types; vm_compute; split; done. Qed.

(** C36: in base ten a C string is accepted as a number of a type if and only if it consists of
    digits, after a minus sign if there is one, and the number it stands for is one of the type:
    nothing may come before or behind it, and nothing wraps around or is cut off.  The call is
    undefined only for strings that begin with a character from 128 to 254, which [isdigit]
    gets as a negative number; all others are accepted or refused. *)
Theorem StringToNumber_spec T s : In T int_types ->
  (forall v, StringToNumber T s 10 = Ok (Some v) <-> stands_for s v /\ in_type T v) /\
  (forall f, StringToNumber T s 10 = Fault f -> exists c s', s = c :: s' /\ 128 <= c < 255).
Proof.
  intros HT. pose proof (type_ends T HT) as He. unfold StringToNumber, in_type. split.
  - intros v. destruct (is_signed T).
    + split.
      * destruct (ParseSigned s 10) as [[w|]|] eqn:E; [|done..]. apply ParseSigned_spec in E as [E _]. rewrite bind_ok.
        destruct (Z.leb_spec (lowest T) w), (Z.leb_spec w (highest T)); try done. by intros [= <-].
      * intros [H Hv]. rewrite (proj2 (ParseSigned_spec s v)) by (split; [done|unfold i64; lia]).
        rewrite bind_ok. by rewrite !(proj2 (Z.leb_le _ _)) by lia.
    + split.
      * destruct (ParseUnsigned s 10) as [[w|]|] eqn:E; [|done..]. apply ParseUnsigned_spec in E as [E Hw].
        rewrite bind_ok. destruct (Z.leb_spec w (highest T)); try done. intros [= <-]. split; [done|lia].
      * intros [H Hv]. rewrite (proj2 (ParseUnsigned_spec s v)) by (split; [done|lia]).
        rewrite bind_ok. by rewrite (proj2 (Z.leb_le _ _)) by lia.
  - intros f. destruct (is_signed T).
    + destruct (ParseSigned s 10) as [[w|]|g] eqn:E; [done..|]. intros _. apply (Parse_fault s g). by left.
    + destruct (ParseUnsigned s 10) as [[w|]|g] eqn:E; [done..|]. intros _. apply (Parse_fault s g). by right.
Qed.

Lemma StringToNumber_spec_witness :
  In uint8 int_types /\
  (forall v, StringToNumber uint8 (text_of "-0") 10 = Ok (Some v) <-> stands_for (text_of "-0") v /\ in_type uint8 v) /\
  (forall f, StringToNumber uint8 (text_of "-0") 10 = Fault f ->
     exists c s', text_of "-0" = c :: s' /\ 128 <= c < 255).
Proof. split; [cbn; tauto|]. apply (StringToNumber_spec uint8 (text_of "-0")). cbn. tauto. Defined.

(** The text of a number stands for it. *)
Lemma decimal_stands n : - 10 ^ 20 < n < 10 ^ 20 -> stands_for (decimal n) n.
Proof.
  assert (D : forall k, 0 <= k < 10 ^ 20 -> decimal_digits (digits 20 k)).
  { intros k Hk. split; [intros E; apply (f_equal length) in E; cbn [digits] in E; rewrite length_app in E; cbn in E; lia|].
    eapply List.Forall_impl; [|apply digits_chars; lia]. cbn beta. intros c Hc. unfold is_digit. lia. }
  intros Hn. unfold decimal. destruct (Z.ltb_spec n 0).
  - pose proof (digits_read 20 (- n) ltac:(cbn; lia)) as R. replace n with (- digits_value (digits 20 (- n))) at 2 by lia.
    apply stands_negative, D. lia.
  - rewrite <- (digits_read 20 n) at 2 by (cbn; lia). apply stands_plain, D. lia.
Qed.

(** Hexadecimal and octal prefixes, as the header promises, and what it does not: a zero inside of a
    [std::string] ends the number, and with base 16 a prefix may stand in front of it. *)
Example other_bases :
  StringToNumber int32 (text_of "0x1F") 0 = Ok (Some 31) /\ StringToNumber int32 (text_of "-017") 0 = Ok (Some (-15)) /\
  StringToNumber int32 (text_of "08") 0 = Ok None /\ StringToNumber int8 (text_of "zz") 36 = Ok None /\
  StringToNumber int32 (text_of "ff") 16 = Ok None /\ StringToNumber int32 (text_of "0xff") 16 = Ok (Some 255) /\
  StringToNumber int32 (text_of " 1") 10 = Ok None /\ StringToNumber int32 (text_of "1 ") 10 = Ok None /\
  StringToNumber_str int32 (text_of "12" ++ 0 :: text_of "x") 10 = Ok (Some 12).
Proof. repeat split; vm_compute; reflexivity. Qed.

(** The text of a pound sign in Latin-1 is not looked at: the argument of [isdigit] is negative. *)
Example negative_char : StringToNumber int32 [163; char "5"] 10 = Fault OutOfBounds.
Proof. reflexivity. Qed.
