(* ===== verification/SslIdentity.v ===== *)
(** * Certificates and keys as text

    [base/sslidentity.{h,cc}]: the parameters of keys, the PEM form of binary data (base64 in lines
    between a header and a trailer), and the times of certificates.  Keys and certificates
    themselves belong to OpenSSL. *)
From Stdlib Require Import String Ascii.
From S2P Require Import Prelude CInt Clock AudioUtil ChannelBuffer Base64 Base64White StringEncode StringFields StringUtils StringBuilder.

(** ** Parameters of keys *)

Inductive KeyType := KT_RSA | KT_ECDSA | KT_LAST.
Inductive ECCurve := EC_NIST_P256 | EC_LAST.
Record RSAParams := MkRSA { mod_size : Z; pub_exp : Z }.

(** The union is that of the type. *)
Inductive KeyParams := RsaKey (rsa : RSAParams) | EcdsaKey (curve : ECCurve).

Definition kRsaDefaultModSize : Z := 1024.
Definition kRsaDefaultExponent : Z := 65537.
Definition kRsaMinModSize : Z := 1024.
Definition kRsaMaxModSize : Z := 8192.

Definition KeyParams_new (key_type : KeyType) : res KeyParams :=
  match key_type with
  | KT_ECDSA => Ok (EcdsaKey EC_NIST_P256)
  | KT_RSA => Ok (RsaKey (MkRSA kRsaDefaultModSize kRsaDefaultExponent))
  | KT_LAST => Fault AssertionFailed
  end.
Definition KeyParams_RSA (mod_size pub_exp : Z) : KeyParams := RsaKey (MkRSA (to_u32 mod_size) (to_u32 pub_exp)).
Definition KeyParams_ECDSA (curve : ECCurve) : KeyParams := EcdsaKey curve.

Definition KeyParams_IsValid (k : KeyParams) : bool :=
  match k with
  | RsaKey rsa => (to_u32 kRsaMinModSize <=? mod_size rsa) && (mod_size rsa <=? to_u32 kRsaMaxModSize) &&
                  (mod_size rsa <? pub_exp rsa)
  | EcdsaKey curve => match curve with EC_NIST_P256 => true | EC_LAST => false end
  end.
Definition rsa_params (k : KeyParams) : res RSAParams :=
  match k with RsaKey rsa => Ok rsa | EcdsaKey _ => Fault AssertionFailed end.
Definition ec_curve (k : KeyParams) : res ECCurve :=
  match k with EcdsaKey curve => Ok curve | RsaKey _ => Fault AssertionFailed end.

(** ** PEM *)

Definition kPemTypeCertificate : list Z := text_of "CERTIFICATE".
Definition kPemTypeRsaPrivateKey : list Z := text_of "RSA PRIVATE KEY".
Definition kPemTypeEcPrivateKey : list Z := text_of "EC PRIVATE KEY".

(** The length of the body wraps around when the trailer comes first; [substr] then gives all
    there is.  [garbage] is what the buffer of the decoder holds. *)
Definition PemToDer (garbage pem_type pem_string : list Z) : res (option (list Z)) :=
  match find_sub pem_string (text_of "-----BEGIN " ++ pem_type ++ text_of "-----") 0 with
  | None => Ok None
  | Some header =>
    match find pem_string 10 header with
    | None => Ok None
    | Some body =>
      match find_sub pem_string (text_of "-----END " ++ pem_type ++ text_of "-----") 0 with
      | None => Ok None
      | Some trailer =>
        inner ← substr pem_string (body + 1)
                  (if (trailer <? body + 1)%nat then length pem_string else trailer - (body + 1))%nat;
        der ← Decode garbage inner (Z.lor (Z.lor DO_PARSE_WHITE DO_PAD_ANY) DO_TERM_BUFFER);
        Ok (Some der)
      end
    end
  end.

Definition kChunkSize : nat := 64.

Definition DerToPem (pem_type data : list Z) : res (list Z) :=
  let result := StringBuilder_new [] in
  let result := sb_append (sb_append (sb_append result (text_of "-----BEGIN ")) pem_type) (text_of "-----" ++ [10]) in
  b64_encoded ← EncodeFromArray data (length data);
  let chunks := ((length b64_encoded + (kChunkSize - 1)) / kChunkSize)%nat in
  result ← loop chunks (fun i result =>
    chunk ← substr b64_encoded (i * kChunkSize) kChunkSize;
    Ok (sb_append (sb_append result chunk) [10])) result;
  let result := sb_append (sb_append (sb_append result (text_of "-----END ")) pem_type) (text_of "-----" ++ [10]) in
  Ok (fst (sb_Release result)).

(** ** Times of certificates *)

(** [s] is the memory at the pointer; the number, and the memory and [bytes_left] after it. *)
Fixpoint ASN1ReadInt (n : nat) (s : list Z) (x : Z) : res (Z * list Z) :=
  match n with
  | O => Ok (x, s)
  | S n => c ← rd s 0;
           x10 ← mul32 10 x; y ← add32 x10 c; y ← sub32 y (char "0");
           ASN1ReadInt n (drop 1 s) y
  end.

(** [strspn] of the digits, which reads up to the first other character. *)
Fixpoint span_digits (s : list Z) : res nat :=
  match s with
  | [] => Fault OutOfBounds
  | c :: s => if (char "0" <=? c) && (c <=? char "9") then n ← span_digits s; Ok (S n) else Ok 0%nat
  end.

(** The length is a [size_t]: the bytes left wrap around. *)
Definition left_after (bytes_left : Z) (n : nat) : Z := (bytes_left - Z.of_nat n) mod 2 ^ 64.

Definition ASN1TimeToSec (s : list Z) (len : nat) (long_format : bool) : res Z :=
  if (len =? 0)%nat then Ok (-1) else
  last ← rd s (Z.of_nat (len - 1));
  if negb (last =? char "Z") then Ok (-1) else
  n ← span_digits s;
  if negb (n + 1 =? len)%nat then Ok (-1) else
  let bytes_left := Z.of_nat len in
  if bytes_left <? (if long_format then 11 else 9) then Ok (-1) else
  '(year, s) ← ASN1ReadInt (if long_format then 4 else 2) s 0;
  let bytes_left := left_after bytes_left (if long_format then 4 else 2) in
  year ← (if long_format then sub32 year 1900 else if year <? 50 then add32 year 100 else Ok year);
  '(mon, s) ← ASN1ReadInt 2 s 0; mon ← sub32 mon 1;
  '(mday, s) ← ASN1ReadInt 2 s 0;
  '(hour, s) ← ASN1ReadInt 2 s 0;
  '(min, s) ← ASN1ReadInt 2 s 0;
  '(sec, s) ← ASN1ReadInt 2 s 0;
  let bytes_left := left_after bytes_left 10 in
  if negb (bytes_left =? 1) then Ok (-1) else
  TmToSeconds (MkTm year mon mday hour min sec).

(** ** PEM text *)

(** The lines of a text, [n] of them. *)
Definition lines (n : nat) (l : list Z) : list Z :=
  concat (map (fun i => take kChunkSize (drop (i * kChunkSize) l) ++ [10]) (seq 0 n)).
Definition line_count (l : list Z) : nat := (length l + (kChunkSize - 1)) / kChunkSize.

Definition pem_text (pem_type body : list Z) : list Z :=
  (text_of "-----BEGIN " ++ pem_type ++ text_of "-----") ++ 10 :: body ++
  (text_of "-----END " ++ pem_type ++ text_of "-----") ++ [10].

Lemma lines_next n l : lines (S n) l = lines n l ++ take kChunkSize (drop (n * kChunkSize) l) ++ [10].
Proof. unfold lines. rewrite seq_S, map_app, concat_app. cbn [map concat]. by rewrite app_nil_r. Qed.

Lemma line_count_enough l : (length l <= line_count l * kChunkSize)%nat /\
  forall i, (i < line_count l)%nat -> (i * kChunkSize <= length l)%nat.
Proof.
  unfold line_count. pose proof (Nat.div_mod_eq (length l + (kChunkSize - 1)) kChunkSize) as D.
  pose proof (Nat.mod_upper_bound (length l + (kChunkSize - 1)) kChunkSize ltac:(done)) as M.
  set (q := ((length l + _) / _)%nat) in *. unfold kChunkSize in *. split; [lia|]. intros i Hi. lia.
Qed.

(** The text in lines, with what it stands for. *)
Lemma strip_lines n l : Forall (fun c => white_char c = false) l -> without_white (lines n l) = take (n * kChunkSize) l.
Proof.
  intros Hl. induction n as [|n IH]; [done|]. rewrite lines_next. unfold without_white in *.
  rewrite !List.filter_app, IH. fold (without_white (take kChunkSize (drop (n * kChunkSize) l))).
  rewrite strip_keeps by (by apply Forall_take, Forall_drop). change (List.filter _ [10]) with (@nil Z).
  rewrite app_nil_r, take_take_drop. f_equal. lia.
Qed.

Lemma lines_chars (P : Z -> Prop) n l : P 10 -> Forall P l -> Forall P (lines n l).
Proof.
  intros H10 Hl. induction n as [|n IH]; [apply List.Forall_nil|]. rewrite lines_next.
  apply Forall_app. split; [done|]. apply Forall_app. split; [by apply Forall_take, Forall_drop|].
  by apply List.Forall_cons.
Qed.

Lemma DerToPem_text pem_type data : Forall u8 data ->
  DerToPem pem_type data = Ok (pem_text pem_type (lines (line_count (text data)) (text data))).
Proof.
  intros H. unfold DerToPem. rewrite EncodeFromArray_text, bind_ok by done. cbv zeta. fold (line_count (text data)).
  destruct (line_count_enough (text data)) as [_ Hi]. apply wp_pure, wp_bind.
  unfold StringBuilder_new, sb_append. set (first := (([] ++ _) ++ _) ++ _).
  eapply wp_mono; [apply (wp_loop_index (fun i r => r = first ++ lines i (text data)))|].
  - by rewrite app_nil_r.
  - intros i r Hlt ->. unfold substr. rewrite (proj2 (Nat.ltb_ge _ _)), bind_ok by (by apply Hi).
    apply wp_ret. by rewrite lines_next, !app_assoc.
  - intros r ->. apply wp_ret. unfold first, pem_text, sb_Release. cbn [fst]. rewrite <- !app_assoc. done.
Qed.

(** ** Looking for the header and the trailer *)

Lemma find_here s rest pos : find_sub_from s (s ++ rest) pos = Some pos.
Proof.
  assert (E : take (length s) (s ++ rest) = s) by apply take_app_length.
  destruct (s ++ rest) as [|c r]; cbn [find_sub_from]; by rewrite decide_True.
Qed.

(** No occurrence begins with a character that is not the first one. *)
Lemma find_skip s l pos a : Forall (fun c => c <> 45) a ->
  find_sub_from (45 :: s) (a ++ l) pos = find_sub_from (45 :: s) l (pos + length a).
Proof.
  intros H. revert pos. induction H as [|c a Hc Ha IH]; intros pos; cbn [app length]; [by rewrite Nat.add_0_r|].
  cbn [find_sub_from]. rewrite decide_False by (cbn [length take]; congruence).
  rewrite IH. f_equal. lia.
Qed.

Definition dashes : list Z := [45; 45; 45; 45; 45].

(** Nor in a row of dashes that goes on otherwise. *)
Lemma find_skip_dashes s l pos c : c <> 69 -> c <> 45 ->
  find_sub_from (dashes ++ 69 :: s) (dashes ++ c :: l) pos = find_sub_from (dashes ++ 69 :: s) l (pos + 6).
Proof.
  intros H1 H2. unfold dashes. cbn [app]. do 6 (cbn [find_sub_from];
    rewrite decide_False by (cbn [length take]; congruence)).
  f_equal. lia.
Qed.

(** The type of a text has no line and no dash in it. *)
Definition pem_type_ok (t : list Z) : Prop := Forall (fun c => c <> 45 /\ c <> 10 /\ u8 c) t.

Lemma find_trailer t body : pem_type_ok t -> Forall (fun c => c <> 45) body ->
  find_sub (pem_text t body) (text_of "-----END " ++ t ++ text_of "-----") 0 =
  Some (length (text_of "-----BEGIN " ++ t ++ text_of "-----") + 1 + length body)%nat.
Proof.
  intros Ht Hb. unfold find_sub, pem_text. cbn [Nat.ltb Nat.leb]. rewrite drop_0.
  change (text_of "-----BEGIN ") with (dashes ++ 66 :: [69; 71; 73; 78; 32]).
  change (text_of "-----END ") with (dashes ++ 69 :: [78; 68; 32]). change (text_of "-----") with dashes.
  set (s := [78; 68; 32] ++ t ++ dashes).
  change ((dashes ++ 69 :: [78; 68; 32]) ++ t ++ dashes) with (dashes ++ 69 :: s).
  assert (Et : Forall (fun c => c <> 45) ([69; 71; 73; 78; 32] ++ t)).
  { apply Forall_app. split; [repeat (apply List.Forall_cons; [done|]); apply List.Forall_nil|].
    by eapply List.Forall_impl; [|exact Ht]; intros c [? _]. }
  replace (((dashes ++ 66 :: [69; 71; 73; 78; 32]) ++ t ++ dashes) ++ 10 :: body ++ (dashes ++ 69 :: s) ++ [10])
    with (dashes ++ 66 :: ([69; 71; 73; 78; 32] ++ t) ++ dashes ++ 10 :: body ++ (dashes ++ 69 :: s) ++ [10])
    by (unfold dashes; cbn [app]; rewrite <- ?app_assoc; reflexivity).
  rewrite find_skip_dashes by done. change (dashes ++ 69 :: s) with (45 :: [45; 45; 45; 45; 69] ++ s) at 1.
  rewrite find_skip by done. change (45 :: [45; 45; 45; 45; 69] ++ s) with (dashes ++ 69 :: s).
  rewrite find_skip_dashes by done. change (dashes ++ 69 :: s) with (45 :: [45; 45; 45; 45; 69] ++ s) at 1.
  rewrite find_skip by done. change (45 :: [45; 45; 45; 45; 69] ++ s) with (dashes ++ 69 :: s).
  rewrite find_here. f_equal. rewrite !length_app. cbn. lia.
Qed.

(** The body between them is cut out. *)
Lemma PemToDer_body garbage t body : pem_type_ok t -> Forall (fun c => c <> 45) body ->
  PemToDer garbage t (pem_text t body) =
  (der ← Decode garbage body (Z.lor (Z.lor DO_PARSE_WHITE DO_PAD_ANY) DO_TERM_BUFFER); Ok (Some der)).
Proof.
  intros Ht Hb. unfold PemToDer. rewrite find_trailer by done. unfold pem_text.
  set (head := text_of "-----BEGIN " ++ t ++ text_of "-----"). set (rest := body ++ _).
  assert (Hh : ~ In 10 head).
  { unfold head. rewrite !in_app_iff. intros [H|[H|H]];
      [vm_compute in H; by repeat (destruct H as [H|H]; [discriminate|])| |
       vm_compute in H; by repeat (destruct H as [H|H]; [discriminate|])].
    apply (proj1 (List.Forall_forall _ _) Ht) in H as (_ & H & _). done. }
  unfold find_sub. rewrite (proj2 (Nat.ltb_ge (length _) 0)) by lia. rewrite drop_0, find_here.
  cbv beta iota. rewrite find_first by done. cbv beta iota. rewrite !(proj2 (Nat.ltb_ge _ _)) by lia.
  replace (length head + 1 + length body - (length head + 1))%nat with (length body) by lia.
  unfold substr. rewrite (proj2 (Nat.ltb_ge _ _)) by (rewrite length_app; cbn; lia).
  assert (Ed : drop (length head + 1) (head ++ 10 :: rest) = rest).
  { change (10 :: rest) with ([10] ++ rest). rewrite app_assoc, drop_app_length'; [done|]. by rewrite length_app. }
  rewrite Ed. unfold rest. by rewrite take_app_length, bind_ok.
Qed.

(** C31: what has been put into PEM form is found in it again: for every type without dashes and line
    ends and for every array of bytes the text has a header, lines of at most 64 characters and a
    trailer, and the bytes that are decoded from it are those of the array, whatever the buffer
    of the decoder held. *)
Theorem pem_roundtrip garbage pem_type data :
  pem_type_ok pem_type -> Forall u8 data -> length garbage = 4%nat ->
  exists ls, DerToPem pem_type data = Ok (pem_text pem_type (concat (map (fun l => l ++ [10]) ls))) /\
    Forall (fun l => (length l <= 64)%nat) ls /\
    PemToDer garbage pem_type (pem_text pem_type (concat (map (fun l => l ++ [10]) ls))) = Ok (Some data).
Proof.
  intros Ht Hd Hg.
  exists (map (fun i => take kChunkSize (drop (i * kChunkSize) (text data))) (seq 0 (line_count (text data)))).
  rewrite map_map. fold (lines (line_count (text data)) (text data)). split; [by apply DerToPem_text|]. split.
  { apply List.Forall_forall. intros l Hl. apply in_map_iff in Hl as (i & <- & _). rewrite length_take.
    unfold kChunkSize. lia. }
  assert (Hdash : Forall (fun c => c <> 45) (text data)).
  { apply text_chars; [|done|done]. intros v Hv. enumerate v 64%nat. }
  assert (Hu : Forall u8 (text data)).
  { apply text_chars; [|by vm_compute|done]. intros v Hv. enumerate v 64%nat. }
  rewrite PemToDer_body by (done || by apply lines_chars).
  set (body := lines _ _). set (flags := Z.lor _ _).
  destruct (Decode_white garbage garbage body flags) as (out & -> & E); try done.
  { apply lines_chars; [by vm_compute|done]. }
  rewrite bind_ok. unfold body in E. rewrite strip_lines, take_ge in E by (apply line_count_enough || by apply text_white).
  unfold Decode in E. rewrite decode_text in E by done. by injection E as <-.
Qed.

(** A certificate of three bytes. *)
Lemma pem_roundtrip_witness :
  exists ls, DerToPem kPemTypeCertificate [1; 2; 255] =
      Ok (pem_text kPemTypeCertificate (concat (map (fun l => l ++ [10]) ls))) /\
    Forall (fun l => (length l <= 64)%nat) ls /\
    PemToDer [9; 9; 9; 9] kPemTypeCertificate (pem_text kPemTypeCertificate (concat (map (fun l => l ++ [10]) ls)))
      = Ok (Some [1; 2; 255]).
Proof.
  apply (pem_roundtrip [9; 9; 9; 9] kPemTypeCertificate [1; 2; 255]).
  - unfold pem_type_ok. vm_compute. repeat (apply List.Forall_cons; [repeat split; discriminate|]). apply List.Forall_nil.
  - repeat (apply List.Forall_cons; [unfold u8; lia|]). apply List.Forall_nil.
  - reflexivity.
Defined.

(** ** Times *)

Definition digit (c : Z) : Prop := char "0" <= c <= char "9".

Lemma digits_bound l : forall x k, Forall digit l -> 0 <= x -> x < 10 ^ k -> 0 <= k ->
  x <= foldl (fun v c => v * 10 + (c - char "0")) x l < 10 ^ (k + Z.of_nat (length l)).
Proof.
  induction l as [|c l IH]; intros x k Hl Hx Hk Hk0; cbn [foldl length]; [rewrite Z.add_0_r; lia|].
  apply Forall_cons_1 in Hl as [Hc Hl]. unfold digit in Hc. change (char "0") with 48 in *. change (char "9") with 57 in *.
  destruct (IH (x * 10 + (c - 48)) (k + 1) Hl) as [H1 H2]; [lia| |lia|].
  - rewrite Z.pow_add_r by lia. lia.
  - split; [lia|]. by replace (k + Z.of_nat (S (length l))) with (k + 1 + Z.of_nat (length l)) by lia.
Qed.

Lemma ReadInt_digits l rest : forall x k, Forall digit l -> 0 <= x -> x < 10 ^ k -> 0 <= k ->
  k + Z.of_nat (length l) <= 8 ->
  ASN1ReadInt (length l) (l ++ rest) x = Ok (foldl (fun v c => v * 10 + (c - char "0")) x l, rest).
Proof.
  induction l as [|c l IH]; intros x k Hl Hx Hk Hk0 Hb; cbn [length ASN1ReadInt app foldl]; [done|].
  apply Forall_cons_1 in Hl as [Hc Hl]. pose proof Hc as Hc'. unfold digit in Hc'.
  change (char "0") with 48 in *. change (char "9") with 57 in *. cbn [length] in Hb.
  assert (Hp : 10 ^ k <= 10 ^ 7) by (apply Z.pow_le_mono_r; lia). change (10 ^ 7) with 10000000 in Hp.
  change (rd (c :: l ++ rest) 0) with (Ok c). rewrite bind_ok. unfold mul32, add32, sub32.
  rewrite (wp_pure _ _ (wp_chk32 (10 * x) _ ltac:(unfold i32; lia) eq_refl)), bind_ok.
  rewrite (wp_pure _ _ (wp_chk32 (10 * x + c) _ ltac:(unfold i32; lia) eq_refl)), bind_ok.
  rewrite (wp_pure _ _ (wp_chk32 (10 * x + c - 48) _ ltac:(unfold i32; lia) eq_refl)), bind_ok.
  cbn [drop]. replace (10 * x + c - 48) with (x * 10 + (c - 48)) by lia.
  apply (IH _ (k + 1)); [done|lia| |lia|lia]. rewrite Z.pow_add_r by lia. lia.
Qed.

(** A number of at most four digits. *)
Lemma ReadInt_number l rest : Forall digit l -> (length l <= 4)%nat ->
  ASN1ReadInt (length l) (l ++ rest) 0 = Ok (digits_value l, rest) /\ 0 <= digits_value l < 10 ^ Z.of_nat (length l).
Proof.
  intros Hl H4. split; [apply (ReadInt_digits l rest 0 0); (done || lia)|].
  destruct (digits_bound l 0 0 Hl) as [H1 H2]; (done || lia || (unfold digits_value; split; [lia|exact H2])).
Qed.

Lemma span_all l c rest : Forall digit l -> ~ digit c -> span_digits (l ++ c :: rest) = Ok (length l).
Proof.
  intros Hl Hc. induction Hl as [|d l Hd Hl IH]; cbn [app span_digits length].
  - unfold digit in Hc. destruct (Z.leb_spec (char "0") c), (Z.leb_spec c (char "9")); try done. lia.
  - unfold digit in Hd. rewrite !(proj2 (Z.leb_le _ _)) by lia. cbn [andb]. by rewrite IH.
Qed.

Definition number_of (n : nat) (l : list Z) : Prop := Forall digit l /\ length l = n.

Lemma read_field n l rest : number_of n l -> (n <= 4)%nat ->
  ASN1ReadInt n (l ++ rest) 0 = Ok (digits_value l, rest) /\ 0 <= digits_value l < 10 ^ 4.
Proof.
  intros [Hl <-] H4. destruct (ReadInt_number l rest Hl H4) as [E H]. split; [done|].
  assert (10 ^ Z.of_nat (length l) <= 10 ^ 4) by (apply Z.pow_le_mono_r; lia). lia.
Qed.

(** The times of certificates are those of the calendar: the year in four digits, or in two that
    stand for 1950 to 2049. *)
Lemma ASN1TimeToSec_spec (long_format : bool) y m d h mi s more :
  number_of (if long_format then 4 else 2) y ->
  number_of 2 m -> number_of 2 d -> number_of 2 h -> number_of 2 mi -> number_of 2 s ->
  ASN1TimeToSec ((y ++ m ++ d ++ h ++ mi ++ s) ++ char "Z" :: more) (if long_format then 15 else 13) long_format =
  TmToSeconds (MkTm (if long_format then digits_value y - 1900
                     else if digits_value y <? 50 then digits_value y + 100 else digits_value y)
                 (digits_value m - 1) (digits_value d) (digits_value h) (digits_value mi) (digits_value s)).
Proof.
  intros Hy Hm Hd Hh Hi Hs. set (l := y ++ m ++ d ++ h ++ mi ++ s).
  assert (Hl : number_of (if long_format then 14 else 12) l).
  { split; [repeat (apply Forall_app; split); (apply Hy || apply Hm || apply Hd || apply Hh || apply Hi || apply Hs)|].
    unfold l. rewrite !length_app, (proj2 Hy), (proj2 Hm), (proj2 Hd), (proj2 Hh), (proj2 Hi), (proj2 Hs).
    by destruct long_format. }
  assert (Ez : rd (l ++ char "Z" :: more) (Z.of_nat ((if long_format then 15 else 13) - 1)) = Ok (char "Z")).
  { apply rd_Some. rewrite lookup_app_r by (rewrite (proj2 Hl); by destruct long_format).
    rewrite (proj2 Hl). by destruct long_format. }
  assert (Es : span_digits (l ++ char "Z" :: more) = Ok (if long_format then 14 else 12)%nat).
  { rewrite span_all; [by rewrite (proj2 Hl)|apply Hl|intros [_ H9]; revert H9; by apply Z.lt_nge]. }
  unfold ASN1TimeToSec. rewrite Ez, Es. unfold l. rewrite <- !app_assoc.
  destruct (read_field _ y (m ++ d ++ h ++ mi ++ s ++ char "Z" :: more) Hy ltac:(by destruct long_format; lia)) as [Ey By].
  destruct (read_field _ m (d ++ h ++ mi ++ s ++ char "Z" :: more) Hm ltac:(lia)) as [Em Bm].
  destruct (read_field _ d (h ++ mi ++ s ++ char "Z" :: more) Hd ltac:(lia)) as [Ed Bd].
  destruct (read_field _ h (mi ++ s ++ char "Z" :: more) Hh ltac:(lia)) as [Eh Bh].
  destruct (read_field _ mi (s ++ char "Z" :: more) Hi ltac:(lia)) as [Ei Bi].
  destruct (read_field _ s (char "Z" :: more) Hs ltac:(lia)) as [Esec Bs].
  change (10 ^ 4) with 10000 in *. unfold sub32, add32.
  assert (C : forall x, -10000 <= x <= 20000 -> chk32 x = Ok x).
  { intros x Hx. apply wp_pure, wp_chk32; [unfold i32; lia|done]. }
  destruct long_format; cbn -[TmToSeconds digits_value ASN1ReadInt char Z.sub Z.add chk32]; rewrite Ey; cbn -[TmToSeconds digits_value ASN1ReadInt char Z.sub Z.add chk32].
  - rewrite C, bind_ok, Em, bind_ok, C, bind_ok, Ed, bind_ok, Eh, bind_ok, Ei, bind_ok, Esec, bind_ok by lia. done.
  - assert (E : (if digits_value y <? 50 then chk32 (digits_value y + 100) else Ok (digits_value y)) =
                Ok (if digits_value y <? 50 then digits_value y + 100 else digits_value y)).
    { destruct (digits_value y <? 50); [apply C; lia|done]. }
    rewrite E, bind_ok, Em, bind_ok, C, bind_ok, Ed, bind_ok, Eh, bind_ok, Ei, bind_ok, Esec, bind_ok by lia. done.
Qed.

(** The guards on the length are too weak: of a time without minutes or seconds, which the
    comments allow for, the code reads more characters than there are. *)
Example short_times :
  ASN1TimeToSec (text_of "2020010112Z") 11 true = Fault OutOfBounds /\
  ASN1TimeToSec (text_of "20200101Z") 9 false = Fault OutOfBounds /\
  ASN1TimeToSec (text_of "20200101120000Z") 15 true = Ok 1577880000 /\
  ASN1TimeToSec (text_of "500101000000Z") 13 false = Ok (-1) /\
  ASN1TimeToSec (text_of "490101000000Z") 13 false = Ok 2493072000.
Proof. repeat split; vm_compute; reflexivity. Qed.
