(* ===== verification/BitrateAllocation.v ===== *)
(** * Video bitrate allocations

    [api/video/video_bitrate_allocation.{h,cc}]: the bitrates of the spatial and temporal layers of a
    video stream, their sums, and their text. *)
From Stdlib Require Import String Ascii.
From S2P Require Import Prelude CInt AudioUtil ChannelBuffer SafeNumerics Base64 StringEncode StringUtils StringBuilder.

Definition kMaxSpatialLayers : nat := 5.
Definition kMaxTemporalStreams : nat := 4.
Definition kMaxBitrateBps : Z := UINT32_MAX.

Record VideoBitrateAllocation := MkAllocation { sum_ : Z; bitrates_ : list (list (option Z)) }.

Definition VideoBitrateAllocation_new : VideoBitrateAllocation :=
  MkAllocation 0 (replicate kMaxSpatialLayers (replicate kMaxTemporalStreams None)).

(** [RTC_CHECK_LT] of an index. *)
Definition check_index {A} (i limit : nat) (k : res A) : res A :=
  if (i <? limit)%nat then k else Fault AssertionFailed.

(** [bitrates_[spatial_index][temporal_index]]. *)
Definition layer_bitrate (a : VideoBitrateAllocation) (si ti : nat) : res (option Z) :=
  row ← rd (bitrates_ a) (Z.of_nat si); rd row (Z.of_nat ti).

Definition SetBitrate (a : VideoBitrateAllocation) (spatial_index temporal_index : nat)
    (bitrate_bps : Z) : res (bool * VideoBitrateAllocation) :=
  check_index spatial_index kMaxSpatialLayers $
  check_index temporal_index kMaxTemporalStreams $
  old ← layer_bitrate a spatial_index temporal_index;
  new_bitrate_sum_bps ←
    match old with
    | Some b => if negb (b <=? sum_ a) then Fault AssertionFailed else chk64 (sum_ a - b)
    | None => Ok (sum_ a)
    end;
  new_bitrate_sum_bps ← add64 new_bitrate_sum_bps bitrate_bps;
  if kMaxBitrateBps <? new_bitrate_sum_bps then Ok (false, a) else
  row ← rd (bitrates_ a) (Z.of_nat spatial_index);
  row ← wr row (Z.of_nat temporal_index) (Some bitrate_bps);
  rows ← wr (bitrates_ a) (Z.of_nat spatial_index) row;
  sum ← dchecked_cast uint32 int64 new_bitrate_sum_bps;
  Ok (true, MkAllocation sum rows).

Definition HasBitrate (a : VideoBitrateAllocation) (spatial_index temporal_index : nat) : res bool :=
  check_index spatial_index kMaxSpatialLayers $
  check_index temporal_index kMaxTemporalStreams $
  b ← layer_bitrate a spatial_index temporal_index;
  Ok (match b with Some _ => true | None => false end).

Definition GetBitrate (a : VideoBitrateAllocation) (spatial_index temporal_index : nat) : res Z :=
  check_index spatial_index kMaxSpatialLayers $
  check_index temporal_index kMaxTemporalStreams $
  b ← layer_bitrate a spatial_index temporal_index;
  Ok (default 0 b).

Fixpoint used_loop (n : nat) (a : VideoBitrateAllocation) (si i : nat) : res bool :=
  match n with
  | O => Ok false
  | S n => b ← layer_bitrate a si i;
           match b with Some _ => Ok true | None => used_loop n a si (S i) end
  end.
Definition IsSpatialLayerUsed (a : VideoBitrateAllocation) (spatial_index : nat) : res bool :=
  check_index spatial_index kMaxSpatialLayers $
  used_loop kMaxTemporalStreams a spatial_index 0.

Definition GetTemporalLayerSum (a : VideoBitrateAllocation) (spatial_index temporal_index : nat) : res Z :=
  check_index spatial_index kMaxSpatialLayers $
  check_index temporal_index kMaxTemporalStreams $
  loop (S temporal_index) (fun i sum =>
    b ← layer_bitrate a spatial_index i; Ok (addu sum (default 0 b))) 0.

Definition GetSpatialLayerSum (a : VideoBitrateAllocation) (spatial_index : nat) : res Z :=
  check_index spatial_index kMaxSpatialLayers $
  GetTemporalLayerSum a spatial_index (kMaxTemporalStreams - 1).

(** The loop from the highest layer down: the number of rates. *)
Fixpoint highest_loop (i : nat) (a : VideoBitrateAllocation) (si : nat) : res nat :=
  match i with
  | O => Ok 0%nat
  | S j => b ← layer_bitrate a si j;
           match b with Some _ => Ok (S j) | None => highest_loop j a si end
  end.
Definition GetTemporalLayerAllocation (a : VideoBitrateAllocation) (spatial_index : nat) : res (list Z) :=
  check_index spatial_index kMaxSpatialLayers $
  n ← highest_loop kMaxTemporalStreams a spatial_index;
  loop n (fun i rates => b ← layer_bitrate a spatial_index i; wr rates (Z.of_nat i) (default 0 b))
    (replicate n 0).

(** The allocation of a layer that is used, with its rates in layer 0. *)
Definition simulcast_layer (a : VideoBitrateAllocation) (si : nat) : res (option VideoBitrateAllocation) :=
  used ← IsSpatialLayerUsed a si;
  if used : bool then
    l ← loop kMaxTemporalStreams (fun tl layer =>
      has ← HasBitrate a si tl;
      if has : bool then
        b ← GetBitrate a si tl; '(_, layer) ← SetBitrate layer 0 tl b; Ok layer
      else Ok layer) VideoBitrateAllocation_new;
    Ok (Some l)
  else Ok None.
Definition GetSimulcastAllocations (a : VideoBitrateAllocation)
    : res (list (option VideoBitrateAllocation)) :=
  loop kMaxSpatialLayers (fun si bitrates =>
    l ← simulcast_layer a si; Ok (bitrates ++ [l])) [].

Definition get_sum_bps (a : VideoBitrateAllocation) : Z := sum_ a.
Definition get_sum_kbps (a : VideoBitrateAllocation) : Z := sum_ a / 1000.

(** [operator==] compares the bitrates only. *)
Definition allocation_eqb (a b : VideoBitrateAllocation) : bool :=
  forallb (fun si => forallb (fun ti =>
    bool_decide (bitrates_ a !! si ≫= (.!! ti) = bitrates_ b !! si ≫= (.!! ti)))
      (seq 0 kMaxTemporalStreams)) (seq 0 kMaxSpatialLayers).

(** ** Text *)

Fixpoint temporal_loop (n : nat) (a : VideoBitrateAllocation) (si ti : nat) (layer_sum : Z)
    (ssb : SimpleStringBuilder) (temporal_cumulator : Z) : res SimpleStringBuilder :=
  match n with
  | O => Ok ssb
  | S n =>
    if negb (temporal_cumulator <=? layer_sum) then Fault AssertionFailed
    else if temporal_cumulator =? layer_sum then Ok ssb
    else
      ssb ← (if (0 <? ti)%nat then append_literal ssb ", " else Ok ssb);
      b ← layer_bitrate a si ti;
      let bitrate := default 0 b in
      ssb ← append_int ssb bitrate;
      temporal_loop n a si (S ti) layer_sum ssb (addu temporal_cumulator bitrate)
  end.

Fixpoint spatial_loop (n : nat) (a : VideoBitrateAllocation) (si : nat) (ssb : SimpleStringBuilder)
    (spatial_cumulator : Z) : res (SimpleStringBuilder * Z) :=
  match n with
  | O => Ok (ssb, spatial_cumulator)
  | S n =>
    if negb (spatial_cumulator <=? sum_ a) then Fault AssertionFailed
    else if spatial_cumulator =? sum_ a then Ok (ssb, spatial_cumulator)
    else
      layer_sum ← GetSpatialLayerSum a si;
      ssb ← (if layer_sum =? sum_ a then append_literal ssb " ["
             else ssb ← (if (0 <? si)%nat then append_literal ssb "," else Ok ssb);
                  ssb ← append_ch ssb 10;
                  append_literal ssb "  [");
      ssb ← temporal_loop kMaxTemporalStreams a si 0 layer_sum ssb 0;
      ssb ← append_literal ssb "]";
      spatial_loop n a (S si) ssb (addu spatial_cumulator layer_sum)
  end.

(** [garbage] is what the buffer held. *)
Definition ToString (garbage : list Z) (a : VideoBitrateAllocation) : res (list Z) :=
  if sum_ a =? 0 then Ok (text_of "VideoBitrateAllocation [ [] ]") else
  ssb ← SimpleStringBuilder_new (take 512 garbage);
  ssb ← append_literal ssb "VideoBitrateAllocation [";
  '(ssb, spatial_cumulator) ← spatial_loop kMaxSpatialLayers a 0 ssb 0;
  if negb (spatial_cumulator =? sum_ a) then Fault AssertionFailed else
  ssb ← append_literal ssb " ]";
  Ok (ssb_str ssb).

Example two_layers :
  ('(_, a) ← SetBitrate VideoBitrateAllocation_new 0 0 100;
   '(_, a) ← SetBitrate a 0 1 50;
   '(_, a) ← SetBitrate a 2 0 7;
   ToString (replicate 512 1) a) =
  Ok (text_of "VideoBitrateAllocation [" ++ [10] ++ text_of "  [100, 50]," ++ [10] ++
      text_of "  []," ++ [10] ++ text_of "  [7] ]").
Proof. vm_compute. reflexivity. Qed.

(** ** The invariant *)

Definition row_sum (row : list (option Z)) : Z := zsum (default 0 <$> row).
Definition total (rows : list (list (option Z))) : Z := zsum (row_sum <$> rows).
Definition bitrate_ok (b : option Z) : Prop := u32 (default 0 b).

Record alloc_ok (a : VideoBitrateAllocation) : Prop := {
  a_rows : length (bitrates_ a) = kMaxSpatialLayers;
  a_layers : Forall (fun row => length row = kMaxTemporalStreams /\ Forall bitrate_ok row) (bitrates_ a);
  a_sum : sum_ a = total (bitrates_ a);
  a_max : sum_ a <= kMaxBitrateBps }.

Lemma allocation_new_ok : alloc_ok VideoBitrateAllocation_new.
Proof.
  split; [done| |done|done]. apply Forall_replicate. split; [done|]. by apply Forall_replicate.
Qed.

(** The parts of a sum of numbers that are not negative. *)
Lemma zsum_nonneg l : Forall (fun x => 0 <= x) l -> 0 <= zsum l.
Proof. induction 1; cbn; lia. Qed.

Lemma zsum_part l i x : Forall (fun x => 0 <= x) l -> l !! i = Some x -> 0 <= x <= zsum l.
Proof.
  intros H E. rewrite <- (take_drop_middle l i x E), zsum_app. rewrite <- (take_drop_middle l i x E) in H.
  apply Forall_app in H as [H1 H2]. apply Forall_cons_1 in H2 as [H2 H3].
  pose proof (zsum_nonneg _ H1). pose proof (zsum_nonneg _ H3). cbn. lia.
Qed.

Lemma rates_nonneg row : Forall bitrate_ok row -> Forall (fun x => 0 <= x) (default 0 <$> row).
Proof. intros H. apply Forall_fmap. eapply List.Forall_impl; [|exact H]. by intros b [Hb _]. Qed.

Lemma rows_nonneg a : alloc_ok a -> Forall (fun x => 0 <= x) (row_sum <$> bitrates_ a).
Proof.
  intros H. apply Forall_fmap. eapply List.Forall_impl; [|exact (a_layers _ H)].
  intros row [_ Hr]. by apply zsum_nonneg, rates_nonneg.
Qed.

Lemma row_get a si : alloc_ok a -> (si < kMaxSpatialLayers)%nat ->
  exists row, bitrates_ a !! si = Some row /\ length row = kMaxTemporalStreams /\ Forall bitrate_ok row /\
    0 <= row_sum row <= sum_ a.
Proof.
  intros H Hs. destruct (lookup_lt_is_Some_2 (bitrates_ a) si) as [row E]; [rewrite (a_rows _ H); done|].
  destruct (Forall_lookup_1 _ _ _ _ (a_layers _ H) E) as [Hl Hr].
  exists row. split; [done|]. split; [done|]. split; [done|]. rewrite (a_sum _ H).
  apply (zsum_part _ si); [by apply rows_nonneg|]. by rewrite list_lookup_fmap, E.
Qed.

Lemma rate_get a si ti row : bitrates_ a !! si = Some row -> length row = kMaxTemporalStreams ->
  (ti < kMaxTemporalStreams)%nat -> exists b, row !! ti = Some b /\ layer_bitrate a si ti = Ok b.
Proof.
  intros E Hl Ht. destruct (lookup_lt_is_Some_2 row ti) as [b Eb]; [lia|]. exists b. split; [done|].
  unfold layer_bitrate. by rewrite (rd_Some _ _ _ E), bind_ok, (rd_Some _ _ _ Eb).
Qed.

Lemma check_index_ok {A} i limit (k : res A) : (i < limit)%nat -> check_index i limit k = k.
Proof. intros H. unfold check_index. by rewrite (proj2 (Nat.ltb_lt _ _) H). Qed.

(** The sums of the first rates of a layer. *)
Lemma part_sum row i b : Forall bitrate_ok row -> row !! i = Some b ->
  0 <= zsum (default 0 <$> take i row) <= zsum (default 0 <$> take (S i) row) /\
  zsum (default 0 <$> take (S i) row) <= row_sum row /\
  zsum (default 0 <$> take (S i) row) = zsum (default 0 <$> take i row) + default 0 b.
Proof.
  intros Hr E. assert (Hb : 0 <= default 0 b) by apply (Forall_lookup_1 _ _ _ _ Hr E).
  assert (En : zsum (default 0 <$> take (S i) row) = zsum (default 0 <$> take i row) + default 0 b).
  { rewrite (take_S_r _ _ _ E), fmap_app, zsum_app. cbn [fmap list_fmap zsum]. lia. }
  split; [|split; [|done]].
  - split; [|lia]. apply zsum_nonneg, rates_nonneg. by apply Forall_take.
  - unfold row_sum. rewrite <- (take_drop (S i) row) at 2. rewrite fmap_app, zsum_app.
    pose proof (zsum_nonneg _ (rates_nonneg _ (Forall_drop _ (S i) _ Hr))). lia.
Qed.

(** ** The operations *)

(** The bitrates with one of them set. *)
Definition set_rate (rows : list (list (option Z))) (si ti : nat) (b : Z) : list (list (option Z)) :=
  match rows !! si with Some row => <[si := <[ti := Some b]> row]> rows | None => rows end.

Lemma total_set rows si ti row old b : rows !! si = Some row -> row !! ti = Some old ->
  total (set_rate rows si ti b) = total rows - default 0 old + b.
Proof.
  intros E1 E2. unfold total, set_rate. rewrite E1.
  rewrite list_fmap_insert, (zsum_insert _ _ (row_sum row)) by (by rewrite list_lookup_fmap, E1).
  unfold row_sum at 3. rewrite list_fmap_insert, (zsum_insert _ _ (default 0 old)) by (by rewrite list_lookup_fmap, E2).
  fold (row_sum row). cbn. lia.
Qed.

(** A bitrate is set if the sum of all bitrates stays within 32 bits; otherwise nothing
    changes. *)
Lemma SetBitrate_spec a si ti b :
  alloc_ok a -> (si < kMaxSpatialLayers)%nat -> (ti < kMaxTemporalStreams)%nat -> u32 b ->
  let rows := set_rate (bitrates_ a) si ti b in
  SetBitrate a si ti b =
    Ok (if total rows <=? kMaxBitrateBps then (true, MkAllocation (total rows) rows) else (false, a)) /\
  (total rows <= kMaxBitrateBps -> alloc_ok (MkAllocation (total rows) rows)).
Proof.
  intros H Hs Ht Hb rows. destruct (row_get a si H Hs) as (row & E & Hl & Hr & Hsum).
  destruct (rate_get a si ti row E Hl Ht) as (old & Eo & El).
  pose proof (total_set _ _ _ _ _ b E Eo) as Et. fold rows in Et.
  assert (Ho : 0 <= default 0 old <= row_sum row).
  { apply (zsum_part _ ti); [by apply rates_nonneg|]. by rewrite list_lookup_fmap, Eo. }
  pose proof (a_max _ H) as Hm. rewrite <- (a_sum _ H) in Et.
  assert (Hok : total rows <= kMaxBitrateBps -> alloc_ok (MkAllocation (total rows) rows)).
  { intros Hle. unfold rows, set_rate. rewrite E. split; cbn [bitrates_ sum_]; [| |done|].
    - rewrite length_insert. apply (a_rows _ H).
    - apply Forall_insert; [apply (a_layers _ H)|]. rewrite length_insert. split; [done|]. by apply Forall_insert.
    - revert Hle. unfold rows, set_rate. by rewrite E. }
  split; [|done]. unfold SetBitrate. rewrite !check_index_ok by done. rewrite El, bind_ok.
  unfold kMaxBitrateBps, u32 in *.
  assert (Eold : match old with
                 | Some b => if negb (b <=? sum_ a) then Fault AssertionFailed else chk64 (sum_ a - b)
                 | None => Ok (sum_ a)
                 end = Ok (sum_ a - default 0 old)).
  { destruct old as [o|]; cbn in *; [|by rewrite Z.sub_0_r]. rewrite (proj2 (Z.leb_le _ _)) by lia. cbn.
    apply wp_pure, wp_chk64; [unfold i64; lia|done]. }
  rewrite Eold, bind_ok.
  assert (Eadd : add64 (sum_ a - default 0 old) b = Ok (total rows)).
  { apply wp_pure, wp_chk64; [unfold i64; lia|lia]. }
  rewrite Eadd, bind_ok. destruct (Z.ltb_spec UINT32_MAX (total rows)) as [Hbig|Hle].
  { by rewrite (proj2 (Z.leb_gt _ _)) by lia. }
  rewrite (proj2 (Z.leb_le _ _)) by lia.
  rewrite (rd_Some _ _ _ E), bind_ok, wr_ok, bind_ok, wr_ok, bind_ok
    by (try (rewrite (a_rows _ H)); try (rewrite Hl); done).
  assert (Ec : dchecked_cast uint32 int64 (total rows) = Ok (total rows)).
  { unfold dchecked_cast. rewrite checked_cast_spec;
      [|by cbn; tauto..|change (- 2 ^ 63 <= total rows <= 2 ^ 63 - 1); lia].
    change (highest uint32) with UINT32_MAX. change (lowest uint32) with 0.
    by rewrite (proj2 (Z.leb_le _ _)), (proj2 (Z.leb_le _ _)) by lia. }
  rewrite Ec, bind_ok. unfold rows, set_rate. by rewrite E.
Qed.

(** The sums of a layer do not wrap around. *)
Lemma GetTemporalLayerSum_spec a si ti row :
  alloc_ok a -> bitrates_ a !! si = Some row -> (ti < kMaxTemporalStreams)%nat ->
  GetTemporalLayerSum a si ti = Ok (zsum (default 0 <$> take (S ti) row)).
Proof.
  intros H E Ht. assert (Hs : (si < kMaxSpatialLayers)%nat).
  { rewrite <- (a_rows _ H). by apply lookup_lt_Some in E. }
  destruct (row_get a si H Hs) as (row' & E' & Hl & Hr & Hsum). rewrite E in E'. injection E' as <-.
  unfold GetTemporalLayerSum. rewrite !check_index_ok by done. apply wp_pure.
  apply (wp_loop_index (fun i s => s = zsum (default 0 <$> take i row))); [done|].
  intros i s Hi ->. destruct (rate_get a si i row E Hl) as (b & Eb & El); [lia|]. rewrite El, bind_ok.
  destruct (part_sum row i b Hr Eb) as (Hp & Hp' & Ep). rewrite Ep. apply wp_ret.
  unfold addu, to_u32. apply Z.mod_small. pose proof (a_max _ H). unfold kMaxBitrateBps in *. lia.
Qed.

Lemma GetSpatialLayerSum_spec a si row :
  alloc_ok a -> bitrates_ a !! si = Some row -> GetSpatialLayerSum a si = Ok (row_sum row).
Proof.
  intros H E. assert (Hs : (si < kMaxSpatialLayers)%nat).
  { rewrite <- (a_rows _ H). by apply lookup_lt_Some in E. }
  destruct (row_get a si H Hs) as (row' & E' & Hl & Hr & Hsum). rewrite E in E'. injection E' as <-.
  unfold GetSpatialLayerSum. rewrite check_index_ok by done.
  rewrite (GetTemporalLayerSum_spec a si _ row H E) by (unfold kMaxTemporalStreams; lia). unfold row_sum.
  by rewrite take_ge by (rewrite Hl; unfold kMaxTemporalStreams; lia).
Qed.

Definition used_row (row : list (option Z)) : bool := existsb (fun b => bool_decide (is_Some b)) row.

Lemma four_rates (row : list (option Z)) : length row = kMaxTemporalStreams ->
  exists b0 b1 b2 b3, row = [b0; b1; b2; b3].
Proof. destruct row as [|b0 [|b1 [|b2 [|b3 [|]]]]]; try done. intros _. by exists b0, b1, b2, b3. Qed.

Lemma IsSpatialLayerUsed_spec a si row :
  alloc_ok a -> (si < kMaxSpatialLayers)%nat -> bitrates_ a !! si = Some row ->
  IsSpatialLayerUsed a si = Ok (used_row row).
Proof.
  intros H Hs E. destruct (row_get a si H Hs) as (row' & E' & Hl & _). rewrite E in E'. injection E' as <-.
  unfold IsSpatialLayerUsed. rewrite check_index_ok by done.
  assert (R : forall ti b, row !! ti = Some b -> layer_bitrate a si ti = Ok b).
  { intros ti b Eb. destruct (rate_get a si ti row E Hl) as (b' & Eb' & El).
    - apply lookup_lt_Some in Eb. lia.
    - by rewrite Eb in Eb'; injection Eb' as <-. }
  destruct (four_rates row Hl) as (b0 & b1 & b2 & b3 & ->). unfold kMaxTemporalStreams. cbn [used_loop].
  rewrite (R 0%nat b0), (R 1%nat b1), (R 2%nat b2), (R 3%nat b3) by done.
  by destruct b0, b1, b2, b3.
Qed.

(** The allocation with the rates of one layer in layer 0. *)
Definition single (row : list (option Z)) : VideoBitrateAllocation :=
  MkAllocation (row_sum row) (row :: replicate 4 (replicate kMaxTemporalStreams None)).

Lemma single_total row : total (row :: replicate 4 (replicate kMaxTemporalStreams None)) = row_sum row.
Proof. unfold total. cbn. lia. Qed.

Lemma single_ok row : length row = kMaxTemporalStreams -> Forall bitrate_ok row ->
  row_sum row <= kMaxBitrateBps -> alloc_ok (single row).
Proof.
  intros Hl Hr Hm. split; [done| | |done].
  - apply Forall_cons_2; [done|]. apply Forall_replicate. split; [done|]. by apply Forall_replicate.
  - symmetry. apply single_total.
Qed.

(** The rates of the first [i] layers. *)
Definition first_rates (i : nat) (row : list (option Z)) : list (option Z) :=
  take i row ++ replicate (kMaxTemporalStreams - i) None.

Lemma first_rates_next i row b : length row = kMaxTemporalStreams -> row !! i = Some b ->
  first_rates (S i) row = <[i := b]> (first_rates i row) /\
  (b = None -> first_rates (S i) row = first_rates i row).
Proof.
  intros Hl Eb. destruct (four_rates row Hl) as (b0 & b1 & b2 & b3 & ->).
  destruct i as [|[|[|[|i]]]]; [injection Eb as <- ..|done]; by split; [|intros ->].
Qed.

Lemma first_rates_ok i row : length row = kMaxTemporalStreams -> Forall bitrate_ok row -> (i <= kMaxTemporalStreams)%nat ->
  length (first_rates i row) = kMaxTemporalStreams /\ Forall bitrate_ok (first_rates i row) /\
  row_sum (first_rates i row) <= row_sum row.
Proof.
  intros Hl Hr Hi. assert (Hn : Forall bitrate_ok (replicate (kMaxTemporalStreams - i) None)) by by apply Forall_replicate.
  split; [unfold first_rates; rewrite length_app, length_take, length_replicate; lia|].
  split; [apply Forall_app; split; [by apply Forall_take|done]|].
  unfold row_sum. rewrite <- (take_drop i row) at 2. unfold first_rates. rewrite !fmap_app, !zsum_app.
  assert (E : zsum (default 0 <$> replicate (kMaxTemporalStreams - i) None) = 0).
  { generalize (kMaxTemporalStreams - i)%nat. by induction n. }
  pose proof (zsum_nonneg _ (rates_nonneg _ (Forall_drop _ i _ Hr))). lia.
Qed.

Lemma simulcast_layer_spec a si row :
  alloc_ok a -> (si < kMaxSpatialLayers)%nat -> bitrates_ a !! si = Some row ->
  simulcast_layer a si = Ok (if used_row row then Some (single row) else None).
Proof.
  intros H Hs E. unfold simulcast_layer. rewrite (IsSpatialLayerUsed_spec a si row H Hs E), bind_ok.
  destruct (used_row row); [|done].
  destruct (row_get a si H Hs) as (row' & E' & Hl & Hr & Hsum). rewrite E in E'. injection E' as <-.
  apply wp_pure, wp_bind. eapply wp_mono.
  - apply (wp_loop_index (fun i l => l = single (first_rates i row))); [done|].
    intros i l Hi ->. destruct (rate_get a si i row E Hl Hi) as (b & Eb & El).
    destruct (first_rates_next i row b Hl Eb) as [En En'].
    unfold HasBitrate, GetBitrate. rewrite !check_index_ok by done. rewrite El, !bind_ok.
    destruct b as [v|]; cbn [default from_option]; [|by rewrite En'].
    destruct (first_rates_ok i row Hl Hr ltac:(lia)) as (L1 & R1 & S1).
    destruct (first_rates_ok (S i) row Hl Hr Hi) as (L2 & R2 & S2).
    pose proof (a_max _ H) as Hm.
    destruct (SetBitrate_spec (single (first_rates i row)) 0 i v) as [Es _]; [|unfold kMaxSpatialLayers; lia|done| |].
    + apply single_ok; [done|done|lia].
    + exact (Forall_lookup_1 _ _ _ _ Hr Eb).
    + assert (Er : set_rate (bitrates_ (single (first_rates i row))) 0 i v = bitrates_ (single (first_rates (S i) row))).
      { unfold set_rate, single. cbn [bitrates_ lookup list_lookup]. by rewrite En. }
      rewrite Er in Es. cbn [single bitrates_] in Es. rewrite single_total in Es.
      rewrite (proj2 (Z.leb_le _ _)) in Es by lia. unfold id. by rewrite Es.
  - intros l ->. apply wp_ret. do 2 f_equal. unfold first_rates.
    rewrite Nat.sub_diag. cbn [replicate]. by rewrite app_nil_r, take_ge by lia.
Qed.

(** One allocation per layer: those of the layers that are used. *)
Lemma GetSimulcastAllocations_spec a :
  alloc_ok a ->
  GetSimulcastAllocations a =
    Ok ((fun row => if used_row row then Some (single row) else None) <$> bitrates_ a) /\
  (forall row, In row (bitrates_ a) -> alloc_ok (single row)) /\
  get_sum_bps a = zsum ((fun row => get_sum_bps (single row)) <$> bitrates_ a).
Proof.
  intros H. split; [|split].
  - set (f := fun row => if used_row row then Some (single row) else None).
    apply wp_pure. unfold GetSimulcastAllocations. eapply wp_mono; [apply (wp_loop_index (fun i s => s = f <$> take i (bitrates_ a))); [done|]|].
    + intros i s Hi ->. destruct (row_get a i H Hi) as (row & E & _).
      rewrite (simulcast_layer_spec a i row H Hi E), bind_ok. apply wp_ret.
      by rewrite (take_S_r _ _ _ E), fmap_app.
    + intros s ->. by rewrite take_ge by (rewrite (a_rows _ H); done).
  - intros row Hrow. apply list_elem_of_In in Hrow. apply list_elem_of_lookup in Hrow as [si E].
    assert (Hs : (si < kMaxSpatialLayers)%nat).
    { rewrite <- (a_rows _ H). by apply lookup_lt_Some in E. }
    destruct (row_get a si H Hs) as (row' & E' & Hl & Hr & Hsum). rewrite E in E'. injection E' as <-.
    pose proof (a_max _ H). apply single_ok; [done|done|lia].
  - apply (a_sum _ H).
Qed.

(** ** The text *)

(** A builder with at most [k] characters in a buffer of 512. *)
Definition holds_upto (k : nat) (b : SimpleStringBuilder) : Prop :=
  exists text, (length text <= k)%nat /\ built 512 text b.

Lemma holds_more k j text more (m : res SimpleStringBuilder) :
  (length text <= k)%nat -> (length more <= j)%nat -> wp m (built 512 (text ++ more)) -> wp m (holds_upto (k + j)).
Proof.
  intros Hk Hj Hm. eapply wp_mono; [exact Hm|]. intros b B. exists (text ++ more).
  split; [rewrite length_app; lia|done].
Qed.

Lemma append_literal_holds k b (s : string) :
  holds_upto k b -> c_string (text_of s) -> (k + length (text_of s) < 512)%nat ->
  wp (append_literal b s) (holds_upto (k + length (text_of s))).
Proof.
  intros (text & Hk & B) Hs Hl. apply (holds_more _ _ text (text_of s)); [done|done|].
  apply append_cstr_built; [done|done|lia].
Qed.

Lemma append_ch_holds k b c : holds_upto k b -> (k + 1 < 512)%nat -> wp (append_ch b c) (holds_upto (k + 1)).
Proof.
  intros (text & Hk & B) Hl. apply (holds_more _ _ text [c]); [done|done|].
  apply append_ch_built; [done|lia].
Qed.

Lemma append_rate_holds k b n : holds_upto k b -> u32 n -> (k + 10 < 512)%nat ->
  wp (append_int b n) (holds_upto (k + 10)).
Proof.
  intros (text & Hk & B) Hn Hl. assert (Hd : (length (decimal n) <= 10)%nat).
  { apply decimal_length_u; [lia|]. unfold u32 in Hn. change (10 ^ Z.of_nat 10) with 10000000000. lia. }
  apply (holds_more _ _ text (decimal n)); [done|done|]. apply append_int_built; [done|lia].
Qed.

Lemma holds_le k j b : holds_upto k b -> (k <= j)%nat -> holds_upto j b.
Proof. intros (text & Hk & B) Hj. exists text. split; [lia|done]. Qed.

(** The rates of a layer, at most twelve characters for each. *)
Lemma temporal_loop_ok a si row n : forall ti k b,
  alloc_ok a -> bitrates_ a !! si = Some row -> (ti + n = kMaxTemporalStreams)%nat ->
  holds_upto k b -> (k + 12 * n < 512)%nat ->
  wp (temporal_loop n a si ti (row_sum row) b (zsum (default 0 <$> take ti row))) (holds_upto (k + 12 * n)).
Proof.
  induction n as [|n IH]; intros ti k b H E Hn Hk Hl; cbn [temporal_loop].
  { apply wp_ret. by rewrite Nat.add_0_r. }
  assert (Hs : (si < kMaxSpatialLayers)%nat).
  { rewrite <- (a_rows _ H). by apply lookup_lt_Some in E. }
  destruct (row_get a si H Hs) as (row' & E' & Hlen & Hr & Hsum). rewrite E in E'. injection E' as <-.
  destruct (rate_get a si ti row E Hlen) as (o & Eo & El); [lia|].
  destruct (part_sum row ti o Hr Eo) as (Hp & Hp1 & Hp').
  rewrite (proj2 (Z.leb_le _ _)) by lia. cbn [negb]. destruct (Z.eqb_spec (zsum (default 0 <$> take ti row)) (row_sum row)).
  { apply wp_ret. eapply holds_le; [done|lia]. }
  apply wp_bind. apply (wp_mono _ (holds_upto (k + 2))).
  { destruct (0 <? ti)%nat; [apply (append_literal_holds k b ", "); [done|literal|cbn; lia]|].
    apply wp_ret. eapply holds_le; [done|lia]. }
  intros b' Hb'. rewrite El, bind_ok. cbv zeta. apply wp_bind.
  eapply wp_mono; [apply append_rate_holds; [exact Hb'| |lia]|].
  { exact (Forall_lookup_1 _ _ _ _ Hr Eo). }
  intros b'' Hb''. pose proof (a_max _ H). unfold kMaxBitrateBps in *.
  assert (Ea : addu (zsum (default 0 <$> take ti row)) (default 0 o) = zsum (default 0 <$> take (S ti) row)).
  { rewrite Hp'. unfold addu, to_u32. apply Z.mod_small. lia. }
  rewrite Ea. replace (k + 12 * S n)%nat with (k + 2 + 10 + 12 * n)%nat by lia.
  apply IH; [done|done|lia|done|lia].
Qed.

Lemma part_total a si row : alloc_ok a -> bitrates_ a !! si = Some row ->
  0 <= total (take si (bitrates_ a)) <= total (take (S si) (bitrates_ a)) /\
  total (take (S si) (bitrates_ a)) <= sum_ a /\
  total (take (S si) (bitrates_ a)) = total (take si (bitrates_ a)) + row_sum row.
Proof.
  intros H E. pose proof (rows_nonneg a H) as Hn. rewrite (a_sum _ H). unfold total.
  rewrite <- (take_drop si (bitrates_ a)), fmap_app in Hn. apply Forall_app in Hn as [H1 H2].
  rewrite (drop_S _ _ _ E) in H2. apply Forall_cons_1 in H2 as [H2 H3].
  pose proof (zsum_nonneg _ H1). pose proof (zsum_nonneg _ H3) as H4.
  change (0 <= zsum (row_sum <$> drop (S si) (bitrates_ a))) in H4.
  assert (En : zsum (row_sum <$> take (S si) (bitrates_ a)) = zsum (row_sum <$> take si (bitrates_ a)) + row_sum row).
  { rewrite (take_S_r _ _ _ E), fmap_app, zsum_app. cbn [fmap list_fmap zsum]. lia. }
  split; [lia|]. split; [|done]. rewrite <- (take_drop (S si) (bitrates_ a)) at 2.
  rewrite fmap_app, zsum_app. lia.
Qed.

Lemma spatial_loop_ok a n : forall si k b,
  alloc_ok a -> (si + n = kMaxSpatialLayers)%nat -> holds_upto k b -> (k + 54 * n < 512)%nat ->
  wp (spatial_loop n a si b (total (take si (bitrates_ a))))
     (fun '(b, cumulator) => holds_upto (k + 54 * n) b /\ cumulator = sum_ a).
Proof.
  induction n as [|n IH]; intros si k b H Hn Hk Hl; cbn [spatial_loop].
  { apply wp_ret. rewrite Nat.add_0_r. split; [done|].
    rewrite take_ge by (rewrite (a_rows _ H); lia). symmetry. apply (a_sum _ H). }
  destruct (row_get a si H) as (row & E & Hlen & Hr & Hsum); [lia|].
  destruct (part_total a si row H E) as (Hp & Hp1 & Hp').
  rewrite (proj2 (Z.leb_le _ _)) by lia. cbn [negb].
  destruct (Z.eqb_spec (total (take si (bitrates_ a))) (sum_ a)).
  { apply wp_ret. split; [eapply holds_le; [done|lia]|done]. }
  rewrite (GetSpatialLayerSum_spec a si row H E), bind_ok.
  apply wp_bind. apply (wp_mono _ (holds_upto (k + 1 + 1 + 3))).
  { destruct (row_sum row =? sum_ a).
    - eapply wp_mono; [apply (append_literal_holds k b " ["); [done|literal|cbn; lia]|].
      intros b' Hb'. eapply holds_le; [done|cbn; lia].
    - apply wp_bind. apply (wp_mono _ (holds_upto (k + 1))).
      { destruct (0 <? si)%nat; [apply (append_literal_holds k b ","); [done|literal|cbn; lia]|].
        apply wp_ret. eapply holds_le; [done|lia]. }
      intros b' Hb'. apply wp_bind. eapply wp_mono; [apply append_ch_holds; [done|lia]|].
      intros b'' Hb''. apply (append_literal_holds _ b'' "  ["); [done|literal|cbn; lia]. }
  intros b' Hb'. apply wp_bind.
  eapply wp_mono; [apply (temporal_loop_ok a si row 4 0 _ b' H E eq_refl Hb'); lia|].
  intros b1 Hb1. apply wp_bind.
  eapply wp_mono; [eapply (append_literal_holds _ b1 "]"); [exact Hb1|literal|cbn; lia]|].
  intros b2 Hb2. cbn [text_of length map list_ascii_of_string] in Hb2.
  assert (Ea : addu (total (take si (bitrates_ a))) (row_sum row) = total (take (S si) (bitrates_ a))).
  { rewrite Hp'. unfold addu, to_u32. apply Z.mod_small. pose proof (a_max _ H). unfold kMaxBitrateBps in *. lia. }
  rewrite Ea. eapply wp_mono; [eapply (IH (S si) _ b2 H); [lia|exact Hb2|cbn; lia]|].
  intros [b3 c] [Hb3 ->]. split; [|done]. eapply holds_le; [exact Hb3|cbn; lia].
Qed.

(** The text always fits into its buffer. *)
Lemma ToString_fits garbage a :
  alloc_ok a -> (512 <= length garbage)%nat ->
  wp (ToString garbage a) (fun text => (length text <= 296)%nat).
Proof.
  intros H Hg. unfold ToString. destruct (sum_ a =? 0); [by apply wp_ret, Nat.leb_le|].
  destruct (built_new (take 512 garbage)) as (b & Eb & B); [rewrite length_take; lia|].
  replace (length (take 512 garbage)) with 512%nat in B by (rewrite length_take; lia).
  rewrite Eb, bind_ok. apply wp_bind.
  eapply wp_mono; [apply (append_literal_holds 0 b "VideoBitrateAllocation ["); [by exists []|literal|cbn; lia]|].
  intros b1 Hb1. apply wp_bind. eapply wp_mono; [apply (spatial_loop_ok a 5 0 _ b1 H eq_refl Hb1); cbn; lia|].
  intros [b2 c] [Hb2 ->]. rewrite Z.eqb_refl. cbn [negb]. apply wp_bind.
  eapply wp_mono; [eapply (append_literal_holds _ b2 " ]"); [exact Hb2|literal|cbn; lia]|].
  intros b3 (text & Hl & B3). apply wp_ret. rewrite (built_str _ _ _ B3). cbn in Hl. lia.
Qed.

(** The rates of a layer, cropped to the highest one that is set. *)
Lemma GetTemporalLayerAllocation_spec a si row :
  alloc_ok a -> bitrates_ a !! si = Some row ->
  exists n, GetTemporalLayerAllocation a si = Ok (default 0 <$> take n row) /\
    (forall i, (n <= i)%nat -> (i < kMaxTemporalStreams)%nat -> row !! i = Some None) /\
    (n = O \/ exists b, row !! (n - 1)%nat = Some (Some b)).
Proof.
  intros H E. assert (Hs : (si < kMaxSpatialLayers)%nat).
  { rewrite <- (a_rows _ H). by apply lookup_lt_Some in E. }
  destruct (row_get a si H Hs) as (row' & E' & Hl & _). rewrite E in E'. injection E' as <-.
  assert (R : forall ti b, row !! ti = Some b -> layer_bitrate a si ti = Ok b).
  { intros ti b Eb. destruct (rate_get a si ti row E Hl) as (b' & Eb' & El).
    - apply lookup_lt_Some in Eb. lia.
    - by rewrite Eb in Eb'; injection Eb' as <-. }
  unfold GetTemporalLayerAllocation. rewrite check_index_ok by done.
  destruct (four_rates row Hl) as (b0 & b1 & b2 & b3 & ->). unfold kMaxTemporalStreams. cbn [highest_loop].
  rewrite (R 0%nat b0), (R 1%nat b1), (R 2%nat b2), (R 3%nat b3) by done. cbn [mbind res_bind].
  destruct b3 as [r3|]; [exists 4%nat|destruct b2 as [r2|]; [exists 3%nat|destruct b1 as [r1|]; [exists 2%nat|
    destruct b0 as [r0|]; [exists 1%nat|exists 0%nat]]]].
  all: rewrite bind_ok; unfold loop; cbn [seq each].
  all: rewrite ?(R 0%nat _ eq_refl), ?(R 1%nat _ eq_refl), ?(R 2%nat _ eq_refl), ?(R 3%nat _ eq_refl).
  all: split; [done|split; [|by eauto]].
  all: intros [|[|[|[|i]]]]; intros; (done || lia).
Qed.

(** Equality is that of the bitrates. *)
Lemma allocation_eqb_spec a b : alloc_ok a -> alloc_ok b -> allocation_eqb a b = true <-> a = b.
Proof.
  intros Ha Hb. split; [|intros ->].
  - intros H. assert (E : bitrates_ a = bitrates_ b).
    { apply list_eq. intros si. destruct (decide (si < kMaxSpatialLayers)%nat) as [Hs|Hs].
      2: { by rewrite !lookup_ge_None_2 by (rewrite ?(a_rows _ Ha), ?(a_rows _ Hb); lia). }
      destruct (row_get a si Ha Hs) as (ra & Ea & La & _). destruct (row_get b si Hb Hs) as (rb & Eb & Lb & _).
      rewrite Ea, Eb. f_equal. apply list_eq. intros ti.
      destruct (decide (ti < kMaxTemporalStreams)%nat) as [Ht|Ht].
      2: { by rewrite !lookup_ge_None_2 by (rewrite ?La, ?Lb; lia). }
      unfold allocation_eqb in H. rewrite forallb_forall in H. specialize (H si ltac:(apply in_seq; lia)).
      rewrite forallb_forall in H. specialize (H ti ltac:(apply in_seq; lia)).
      apply bool_decide_eq_true_1 in H. by rewrite Ea, Eb in H. }
    destruct a as [sa ra], b as [sb rb]. pose proof (a_sum _ Ha). pose proof (a_sum _ Hb). cbn in *. by subst.
  - unfold allocation_eqb. apply forallb_forall. intros si _. apply forallb_forall. intros ti _.
    by apply bool_decide_eq_true_2.
Qed.

(** A layer that holds the whole sum follows the layer before it without a comma. *)
Example comma_left_out :
  ('(_, a) ← SetBitrate VideoBitrateAllocation_new 1 0 7; ToString (replicate 512 1) a) =
  Ok (text_of "VideoBitrateAllocation [" ++ [10] ++ text_of "  [] [7] ]").
Proof. vm_compute. reflexivity. Qed.
