(* ===== verification/TimeDelta.v ===== *)
(** * Durations

    [api/units/time_delta.{h,cc}]: durations in microseconds, with the largest and the smallest
    64-bit number for the infinite ones.  [RTC_DCHECK_GT] and the like compare numbers of
    any two integer types by value.  The operations on floating-point numbers are not modelled. *)
From Stdlib Require Import String Ascii.
From S2P Require Import Prelude CInt AudioUtil ChannelBuffer SafeNumerics Base64 StringEncode StringUtils StringBuilder.

Definition kPlusInfinityVal : Z := INT64_MAX.
Definition kMinusInfinityVal : Z := INT64_MIN.

Record TimeDelta := MkDelta { microseconds_ : Z }.

Definition Zero : TimeDelta := MkDelta 0.
Definition PlusInfinity : TimeDelta := MkDelta kPlusInfinityVal.
Definition MinusInfinity : TimeDelta := MkDelta kMinusInfinityVal.

(** Two checks that [v] lies between the limits. *)
Definition between {A} (lo v hi : Z) (k : res A) : res A :=
  if negb (lo <? v) then Fault AssertionFailed else
  if negb (v <? hi) then Fault AssertionFailed else k.

(** The constants [Seconds<v>()], [Millis<v>()] and [Micros<v>()]; a static assertion that fails
    is [AssertionFailed]. *)
Definition Seconds (v : Z) : res TimeDelta :=
  between (Z.quot kMinusInfinityVal 1000000) v (Z.quot kPlusInfinityVal 1000000) $
  p ← mul64 v 1000000; Ok (MkDelta p).
Definition Millis (v : Z) : res TimeDelta :=
  between (Z.quot kMinusInfinityVal 1000) v (Z.quot kPlusInfinityVal 1000) $
  p ← mul64 v 1000; Ok (MkDelta p).
Definition Micros (v : Z) : res TimeDelta :=
  between kMinusInfinityVal v kPlusInfinityVal $ Ok (MkDelta v).

(** [seconds], [ms] and [us] of a number of type [T]. *)
Definition of_seconds (T : int_type) (v : Z) : res TimeDelta :=
  between (Z.quot kMinusInfinityVal 1000000) v (Z.quot kPlusInfinityVal 1000000) $
  x ← dchecked_cast int64 T v; p ← mul64 x 1000000; Ok (MkDelta p).
Definition of_ms (T : int_type) (v : Z) : res TimeDelta :=
  between (Z.quot kMinusInfinityVal 1000) v (Z.quot kPlusInfinityVal 1000) $
  x ← dchecked_cast int64 T v; p ← mul64 x 1000; Ok (MkDelta p).
Definition of_us (T : int_type) (v : Z) : res TimeDelta :=
  between kMinusInfinityVal v kPlusInfinityVal $
  x ← dchecked_cast int64 T v; Ok (MkDelta x).

Definition IsZero (d : TimeDelta) : bool := microseconds_ d =? 0.
Definition IsPlusInfinity (d : TimeDelta) : bool := microseconds_ d =? kPlusInfinityVal.
Definition IsMinusInfinity (d : TimeDelta) : bool := microseconds_ d =? kMinusInfinityVal.
Definition IsInfinite (d : TimeDelta) : bool :=
  (microseconds_ d =? kPlusInfinityVal) || (microseconds_ d =? kMinusInfinityVal).
Definition IsFinite (d : TimeDelta) : bool := negb (IsInfinite d).

Definition UnsafeSeconds (d : TimeDelta) : res Z :=
  s ← add64 (microseconds_ d) (if 0 <=? microseconds_ d then 500000 else -500000);
  Ok (Z.quot s 1000000).
Definition UnsafeMillis (d : TimeDelta) : res Z :=
  s ← add64 (microseconds_ d) (if 0 <=? microseconds_ d then 500 else -500);
  Ok (Z.quot s 1000).

Definition seconds (T : int_type) (d : TimeDelta) : res Z :=
  if negb (IsFinite d) then Fault AssertionFailed else
  s ← UnsafeSeconds d; dchecked_cast T int64 s.
Definition ms (T : int_type) (d : TimeDelta) : res Z :=
  if negb (IsFinite d) then Fault AssertionFailed else
  s ← UnsafeMillis d; dchecked_cast T int64 s.
Definition us (T : int_type) (d : TimeDelta) : res Z :=
  if negb (IsFinite d) then Fault AssertionFailed else
  dchecked_cast T int64 (microseconds_ d).
Definition ns (T : int_type) (d : TimeDelta) : res Z :=
  v ← us int64 d;
  if negb (Z.quot (lowest T) 1000 <=? v) then Fault AssertionFailed else
  v ← us int64 d;
  if negb (v <=? Z.quot (highest T) 1000) then Fault AssertionFailed else
  v ← us int64 d; p ← mul64 v 1000; dchecked_cast T int64 p.

Definition seconds_or (d : TimeDelta) (fallback_value : Z) : res Z :=
  if IsFinite d then UnsafeSeconds d else Ok fallback_value.
Definition ms_or (d : TimeDelta) (fallback_value : Z) : res Z :=
  if IsFinite d then UnsafeMillis d else Ok fallback_value.
Definition us_or (d : TimeDelta) (fallback_value : Z) : Z :=
  if IsFinite d then microseconds_ d else fallback_value.

Definition Abs (d : TimeDelta) : res TimeDelta :=
  v ← us int64 d; a ← chk64 (Z.abs v); of_us int64 a.

Definition delta_add (d other : TimeDelta) : res TimeDelta :=
  if IsPlusInfinity d || IsPlusInfinity other then
    if IsMinusInfinity d then Fault AssertionFailed
    else if IsMinusInfinity other then Fault AssertionFailed else Ok PlusInfinity
  else if IsMinusInfinity d || IsMinusInfinity other then
    if IsPlusInfinity d then Fault AssertionFailed
    else if IsPlusInfinity other then Fault AssertionFailed else Ok MinusInfinity
  else
    a ← us int64 d; b ← us int64 other; s ← add64 a b; of_us int64 s.

Definition delta_sub (d other : TimeDelta) : res TimeDelta :=
  if IsPlusInfinity d || IsMinusInfinity other then
    if IsMinusInfinity d then Fault AssertionFailed
    else if IsPlusInfinity other then Fault AssertionFailed else Ok PlusInfinity
  else if IsMinusInfinity d || IsPlusInfinity other then
    if IsPlusInfinity d then Fault AssertionFailed
    else if IsMinusInfinity other then Fault AssertionFailed else Ok MinusInfinity
  else
    a ← us int64 d; b ← us int64 other; s ← chk64 (a - b); of_us int64 s.

(** [operator*] and [operator/] with an integer. *)
Definition delta_mul (d : TimeDelta) (scalar : Z) : res TimeDelta :=
  v ← us int64 d; p ← mul64 v scalar; of_us int64 p.
Definition delta_div (d : TimeDelta) (scalar : Z) : res TimeDelta :=
  v ← us int64 d;
  if scalar =? 0 then Fault DivByZero else q ← chk64 (Z.quot v scalar); of_us int64 q.

Definition delta_eqb (d other : TimeDelta) : bool := microseconds_ d =? microseconds_ other.
Definition delta_leb (d other : TimeDelta) : bool := microseconds_ d <=? microseconds_ other.
Definition delta_ltb (d other : TimeDelta) : bool := microseconds_ d <? microseconds_ other.

(** [ToString]; [garbage] is what the buffer held. *)
Definition delta_ToString (garbage : list Z) (value : TimeDelta) : res (list Z) :=
  sb ← SimpleStringBuilder_new (take 64 garbage);
  sb ← (if IsPlusInfinity value then append_literal sb "+inf ms"
        else if IsMinusInfinity value then append_literal sb "-inf ms"
        else
          v ← us int64 value;
          if (v =? 0) || negb (Z.rem v 1000 =? 0) then
            sb ← append_int sb v; append_literal sb " us"
          else
            v ← ms int64 value;
            if negb (Z.rem v 1000 =? 0) then
              sb ← append_int sb v; append_literal sb " ms"
            else
              v ← seconds int64 value; sb ← append_int sb v; append_literal sb " s");
  Ok (ssb_str sb).

(** ** What durations stand for *)

(** Numbers of microseconds with two infinities. *)
Inductive duration := NegInf | Fin (n : Z) | PosInf.

Definition duration_of (d : TimeDelta) : duration :=
  if IsPlusInfinity d then PosInf else if IsMinusInfinity d then NegInf else Fin (microseconds_ d).

Definition duration_add (x y : duration) : option duration :=
  match x, y with
  | PosInf, NegInf | NegInf, PosInf => None
  | PosInf, _ | _, PosInf => Some PosInf
  | NegInf, _ | _, NegInf => Some NegInf
  | Fin a, Fin b => Some (Fin (a + b))
  end.
Definition duration_opp (x : duration) : duration :=
  match x with PosInf => NegInf | NegInf => PosInf | Fin a => Fin (- a) end.

Definition duration_le (x y : duration) : Prop :=
  match x, y with
  | NegInf, _ | _, PosInf => True
  | Fin a, Fin b => a <= b
  | _, _ => False
  end.

Definition delta_ok (d : TimeDelta) : Prop := i64 (microseconds_ d).
Definition finite (d : TimeDelta) : Prop := kMinusInfinityVal < microseconds_ d < kPlusInfinityVal.

(** [stored x]: the result of an operation whose exact value is [x]. *)
Definition stored (x : option duration) : res TimeDelta :=
  match x with
  | None => Fault AssertionFailed
  | Some PosInf => Ok PlusInfinity
  | Some NegInf => Ok MinusInfinity
  | Some (Fin n) =>
      if (INT64_MIN <=? n) && (n <=? INT64_MAX)
      then if (kMinusInfinityVal <? n) && (n <? kPlusInfinityVal) then Ok (MkDelta n) else Fault AssertionFailed
      else Fault SignedOverflow
  end.

(** ** Construction and conversion *)

Lemma between_ok {A} lo v hi (k : res A) : lo < v < hi -> between lo v hi k = k.
Proof. intros H. unfold between. by rewrite !(proj2 (Z.ltb_lt _ _)) by lia. Qed.

Lemma between_bad {A} lo v hi (k : res A) : ~ (lo < v < hi) -> between lo v hi k = Fault AssertionFailed.
Proof. intros H. unfold between. destruct (Z.ltb_spec lo v), (Z.ltb_spec v hi); try done. lia. Qed.

Lemma cast_int64 T v : In T int_types -> in_type T v -> i64 v -> dchecked_cast int64 T v = Ok v.
Proof.
  intros HT Hv H. unfold dchecked_cast. rewrite checked_cast_spec by (done || (cbn; tauto)).
  change (lowest int64) with INT64_MIN. change (highest int64) with INT64_MAX. unfold i64 in H.
  by rewrite !(proj2 (Z.leb_le _ _)) by lia.
Qed.

Lemma int64_types : In int64 int_types.
Proof. cbn. tauto. Qed.

Lemma int64_range v : i64 v -> in_type int64 v.
Proof. intros H. exact H. Qed.

Lemma finite_IsFinite d : finite d -> IsFinite d = true.
Proof.
  unfold finite, IsFinite, IsInfinite. intros H. by rewrite !(proj2 (Z.eqb_neq _ _)) by lia.
Qed.

Lemma us_finite d : finite d -> us int64 d = Ok (microseconds_ d).
Proof.
  intros H. unfold us. rewrite finite_IsFinite by done. cbn [negb].
  unfold finite, kPlusInfinityVal, kMinusInfinityVal in H.
  apply cast_int64; [apply int64_types|apply int64_range|]; unfold i64; lia.
Qed.

Lemma of_us_stored v : i64 v -> of_us int64 v = stored (Some (Fin v)).
Proof.
  intros H. unfold stored. rewrite (proj2 (andb_true_iff _ _)) by (unfold i64 in H; lia).
  unfold of_us. destruct (decide (kMinusInfinityVal < v < kPlusInfinityVal)) as [Hv|Hv].
  - rewrite between_ok, (proj2 (andb_true_iff _ _)) by lia.
    by rewrite cast_int64 by (done || apply int64_types).
  - rewrite between_bad by done. by rewrite (proj2 (andb_false_iff _ _)) by lia.
Qed.

(** What comes of an exact result. *)
Lemma chk64_stored v : (s ← chk64 v; of_us int64 s) = stored (Some (Fin v)).
Proof.
  unfold chk64. destruct ((INT64_MIN <=? v) && (v <=? INT64_MAX)) eqn:E.
  - rewrite bind_ok. apply of_us_stored. apply andb_prop in E. unfold i64. lia.
  - unfold stored. by rewrite E.
Qed.

(** The constructors check their range and are exact. *)
Lemma constructors T v : In T int_types -> in_type T v ->
  of_us T v = (if decide (kMinusInfinityVal < v < kPlusInfinityVal) then Ok (MkDelta v) else Fault AssertionFailed) /\
  of_ms T v = (if decide (-9223372036854775 < v < 9223372036854775) then Ok (MkDelta (v * 1000))
               else Fault AssertionFailed) /\
  of_seconds T v = (if decide (-9223372036854 < v < 9223372036854) then Ok (MkDelta (v * 1000000))
                    else Fault AssertionFailed).
Proof.
  intros HT Hv. unfold of_us, of_ms, of_seconds.
  change (Z.quot kMinusInfinityVal 1000) with (-9223372036854775).
  change (Z.quot kPlusInfinityVal 1000) with 9223372036854775.
  change (Z.quot kMinusInfinityVal 1000000) with (-9223372036854).
  change (Z.quot kPlusInfinityVal 1000000) with 9223372036854.
  unfold kMinusInfinityVal, kPlusInfinityVal.
  split; [|split]; (case_decide as H; [rewrite between_ok by done|by apply between_bad]).
  all: rewrite cast_int64, bind_ok by (done || unfold i64; lia); try done.
  all: apply wp_pure, wp_bind, wp_chk64; [unfold i64; lia|done].
Qed.

(** [UnsafeMillis] and [UnsafeSeconds] round to the nearest number, away from zero half-way. *)
Lemma round_quot a n : 0 < n -> let s := a + (if 0 <=? a then n else - n) in
  - n <= a - 2 * n * Z.quot s (2 * n) <= n /\ Z.quot s (2 * n) = Z.sgn a * ((Z.abs a + n) / (2 * n)).
Proof.
  intros Hn s. unfold s. destruct (Z.leb_spec 0 a) as [H|H].
  - rewrite Z.quot_div_nonneg, Z.abs_eq by lia.
    pose proof (Z.div_mod (a + n) (2 * n) ltac:(lia)). pose proof (Z.mod_pos_bound (a + n) (2 * n) ltac:(lia)).
    split; [lia|]. destruct (Z.eq_dec a 0) as [->|]; [|rewrite Z.sgn_pos by lia; lia].
    cbn [Z.sgn]. rewrite Z.div_small by lia. lia.
  - replace (a + - n) with (- (- a + n)) by lia. rewrite Z.quot_opp_l, Z.quot_div_nonneg by lia.
    rewrite Z.abs_neq, Z.sgn_neg by lia.
    pose proof (Z.div_mod (- a + n) (2 * n) ltac:(lia)). pose proof (Z.mod_pos_bound (- a + n) (2 * n) ltac:(lia)).
    split; lia.
Qed.

Definition rounded (k v : Z) : Z := Z.sgn v * ((Z.abs v + k / 2) / k).

(** The conversion overflows within half a unit of the end of the range. *)
Lemma half_rounds n v :
  0 < n < 2 ^ 62 -> kMinusInfinityVal < v < kPlusInfinityVal ->
  (s ← add64 v (if 0 <=? v then n else - n); Ok (Z.quot s (2 * n))) =
  if decide (INT64_MIN + n <= v <= INT64_MAX - n) then Ok (rounded (2 * n) v) else Fault SignedOverflow.
Proof.
  unfold kMinusInfinityVal, kPlusInfinityVal. intros Hn Hv. unfold add64, chk64, rounded.
  replace (2 * n / 2) with n by (rewrite Z.mul_comm, Z.div_mul; lia).
  rewrite <- (proj2 (round_quot v n (proj1 Hn))).
  case_decide; destruct (Z.leb_spec 0 v).
  1,2: by rewrite (proj2 (andb_true_iff _ _)) by lia.
  all: by rewrite (proj2 (andb_false_iff _ _)) by lia.
Qed.

Lemma UnsafeMillis_spec d : finite d ->
  UnsafeMillis d = if decide (INT64_MIN + 500 <= microseconds_ d <= INT64_MAX - 500)
                   then Ok (rounded 1000 (microseconds_ d)) else Fault SignedOverflow.
Proof. intros H. by apply (half_rounds 500). Qed.

Lemma UnsafeSeconds_spec d : finite d ->
  UnsafeSeconds d = if decide (INT64_MIN + 500000 <= microseconds_ d <= INT64_MAX - 500000)
                    then Ok (rounded 1000000 (microseconds_ d)) else Fault SignedOverflow.
Proof. intros H. by apply (half_rounds 500000). Qed.

(** A rounded number is the nearest one. *)
Lemma rounded_near k v : 0 < k -> 2 * Z.abs (v - (2 * k) * rounded (2 * k) v) <= 2 * k.
Proof.
  intros Hk. unfold rounded. replace (2 * k / 2) with k by (rewrite Z.mul_comm, Z.div_mul; lia).
  destruct (round_quot v k Hk) as [H1 H2]. rewrite <- H2. lia.
Qed.

Lemma rounded_exact k v : 0 < k -> rounded (2 * k) ((2 * k) * v) = v.
Proof.
  intros Hk. pose proof (rounded_near k (2 * k * v) Hk) as H. 
  set (r := rounded (2 * k) (2 * k * v)) in *. nia.
Qed.

(** ** Arithmetic is that of numbers with infinities *)

Lemma duration_cases d : delta_ok d ->
  (d = PlusInfinity /\ duration_of d = PosInf) \/ (d = MinusInfinity /\ duration_of d = NegInf) \/
  (finite d /\ IsPlusInfinity d = false /\ IsMinusInfinity d = false /\ duration_of d = Fin (microseconds_ d)).
Proof.
  destruct d as [v]. intros H. unfold delta_ok, i64 in H. cbn [microseconds_] in H.
  unfold finite, duration_of, IsPlusInfinity, IsMinusInfinity, PlusInfinity, MinusInfinity. cbn [microseconds_].
  destruct (Z.eqb_spec v kPlusInfinityVal) as [->|H1]; [by left|].
  destruct (Z.eqb_spec v kMinusInfinityVal) as [->|H2]; [by right; left|].
  right; right. split; [|done]. unfold kPlusInfinityVal, kMinusInfinityVal in *. lia.
Qed.

Lemma delta_add_spec d other : delta_ok d -> delta_ok other ->
  delta_add d other = stored (duration_add (duration_of d) (duration_of other)).
Proof.
  intros Hd Ho.
  destruct (duration_cases d Hd) as [[-> ->]|[[-> ->]|(Fd & P1 & M1 & ->)]];
  destruct (duration_cases other Ho) as [[-> ->]|[[-> ->]|(Fo & P2 & M2 & ->)]]; try done.
  1-4: unfold delta_add; rewrite ?P1, ?M1, ?P2, ?M2; done.
  unfold delta_add. rewrite P1, P2, M1, M2. cbn [orb]. rewrite !us_finite, !bind_ok by done. apply chk64_stored.
Qed.

Lemma delta_sub_spec d other : delta_ok d -> delta_ok other ->
  delta_sub d other = stored (duration_add (duration_of d) (duration_opp (duration_of other))).
Proof.
  intros Hd Ho.
  destruct (duration_cases d Hd) as [[-> ->]|[[-> ->]|(Fd & P1 & M1 & ->)]];
  destruct (duration_cases other Ho) as [[-> ->]|[[-> ->]|(Fo & P2 & M2 & ->)]]; try done.
  1-4: unfold delta_sub; rewrite ?P1, ?M1, ?P2, ?M2; done.
  unfold delta_sub. rewrite P1, P2, M1, M2. cbn [orb]. rewrite !us_finite, !bind_ok by done. apply chk64_stored.
Qed.

Lemma delta_mul_spec d scalar : finite d ->
  delta_mul d scalar = stored (Some (Fin (microseconds_ d * scalar))).
Proof. intros H. unfold delta_mul. rewrite us_finite, bind_ok by done. apply chk64_stored. Qed.

Lemma delta_div_spec d scalar : finite d -> scalar <> 0 ->
  delta_div d scalar = stored (Some (Fin (Z.quot (microseconds_ d) scalar))).
Proof.
  intros H Hs. unfold delta_div. rewrite us_finite, bind_ok, (proj2 (Z.eqb_neq _ _)) by done. apply chk64_stored.
Qed.

Lemma Abs_spec d : finite d -> Abs d = stored (Some (Fin (Z.abs (microseconds_ d)))).
Proof. intros H. unfold Abs. rewrite us_finite, bind_ok by done. apply chk64_stored. Qed.

Lemma delta_leb_spec d other : delta_ok d -> delta_ok other ->
  delta_leb d other = true <-> duration_le (duration_of d) (duration_of other).
Proof.
  intros Hd Ho. pose proof Hd as Hd'. pose proof Ho as Ho'. unfold delta_ok, i64 in Hd', Ho'.
  unfold delta_leb. rewrite Z.leb_le.
  destruct (duration_cases d Hd) as [[-> ->]|[[-> ->]|(Fd & _ & _ & ->)]];
  destruct (duration_cases other Ho) as [[-> ->]|[[-> ->]|(Fo & _ & _ & ->)]].
  all: unfold finite, PlusInfinity, MinusInfinity, kPlusInfinityVal, kMinusInfinityVal in *.
  all: cbn [microseconds_ duration_le] in *; lia.
Qed.

Lemma IsFinite_spec d : delta_ok d -> IsFinite d = true <-> finite d.
Proof.
  intros H. split; [|apply finite_IsFinite].
  destruct (duration_cases d H) as [[-> _]|[[-> _]|[Hf _]]]; done.
Qed.

(** ** The getters *)

Lemma cast_in T v : In T int_types -> i64 v ->
  dchecked_cast T int64 v = if (lowest T <=? v) && (v <=? highest T) then Ok v else Fault AssertionFailed.
Proof. intros HT Hv. apply checked_cast_spec; [done|apply int64_types|by apply int64_range]. Qed.

(** A conversion that is exact, of any finite duration. *)
Lemma ms_exact d n : finite d -> microseconds_ d = 1000 * n -> ms int64 d = Ok n.
Proof.
  intros Hf E. pose proof Hf as Hr. unfold finite, kMinusInfinityVal, kPlusInfinityVal in Hr.
  unfold ms. rewrite finite_IsFinite, UnsafeMillis_spec by done. cbn [negb].
  rewrite decide_True, bind_ok by lia. rewrite E, (rounded_exact 500) by lia.
  apply cast_int64; [apply int64_types|apply int64_range|]; unfold i64; lia.
Qed.

Lemma seconds_exact d n : finite d -> microseconds_ d = 1000000 * n -> seconds int64 d = Ok n.
Proof.
  intros Hf E. pose proof Hf as Hr. unfold finite, kMinusInfinityVal, kPlusInfinityVal in Hr.
  unfold seconds. rewrite finite_IsFinite, UnsafeSeconds_spec by done. cbn [negb].
  rewrite decide_True, bind_ok by lia. rewrite E, (rounded_exact 500000) by lia.
  apply cast_int64; [apply int64_types|apply int64_range|]; unfold i64; lia.
Qed.

(** What was built from milliseconds or seconds is read back. *)
Lemma of_ms_ms v d : i64 v -> of_ms int64 v = Ok d -> finite d /\ ms int64 d = Ok v.
Proof.
  intros Hv E. destruct (constructors int64 v int64_types (int64_range v Hv)) as (_ & Em & _).
  rewrite Em in E. case_decide as H; [|done]. injection E as <-.
  assert (Hf : finite (MkDelta (v * 1000))).
  { unfold finite, kMinusInfinityVal, kPlusInfinityVal. cbn [microseconds_]. lia. }
  split; [done|]. apply ms_exact; [done|]. cbn. lia.
Qed.

Lemma of_seconds_seconds v d : i64 v -> of_seconds int64 v = Ok d -> finite d /\ seconds int64 d = Ok v.
Proof.
  intros Hv E. destruct (constructors int64 v int64_types (int64_range v Hv)) as (_ & _ & Es).
  rewrite Es in E. case_decide as H; [|done]. injection E as <-.
  assert (Hf : finite (MkDelta (v * 1000000))).
  { unfold finite, kMinusInfinityVal, kPlusInfinityVal. cbn [microseconds_]. lia. }
  split; [done|]. apply seconds_exact; [done|]. cbn. lia.
Qed.

(** ** The text *)

Lemma append_unit b v (unit : string) :
  built 64 [] b -> i64 v -> c_string (text_of unit) -> (length (text_of unit) <= 3)%nat ->
  wp (b ← append_int b v; append_literal b unit) (built 64 (decimal v ++ text_of unit)).
Proof.
  intros B Hv Hc Hl. unfold i64 in Hv. pose proof (decimal_length v ltac:(lia)).
  apply wp_bind. eapply wp_mono; [apply (append_int_built 64 [] b v B); cbn [length]; lia|].
  intros b' B'. apply append_cstr_built; [done|done|cbn [app]; lia].
Qed.

(** The text is the exact number of the longest unit that divides the duration. *)
Definition exact_text (v : Z) (text : list Z) : Prop :=
  if (v =? 0) || negb (v mod 1000 =? 0) then text = decimal v ++ text_of " us"
  else if negb (v mod 1000000 =? 0) then text = decimal (v / 1000) ++ text_of " ms"
  else text = decimal (v / 1000000) ++ text_of " s".

Lemma rem_mod0 v k : 0 < k -> (Z.rem v k =? 0) = (v mod k =? 0).
Proof.
  intros Hk. apply Bool.eq_iff_eq_true. rewrite !Z.eqb_eq.
  rewrite Z.rem_divide, Z.mod_divide by lia. done.
Qed.

Lemma delta_ToString_exact garbage d :
  delta_ok d -> (64 <= length garbage)%nat ->
  wp (delta_ToString garbage d) (fun text =>
    match duration_of d with
    | PosInf => text = text_of "+inf ms"
    | NegInf => text = text_of "-inf ms"
    | Fin v => exact_text v text
    end).
Proof.
  intros H Hg. unfold delta_ToString.
  destruct (built_new (take 64 garbage)) as (b & Eb & B); [rewrite length_take; lia|].
  replace (length (take 64 garbage)) with 64%nat in B by (rewrite length_take; lia).
  rewrite Eb, bind_ok. apply wp_bind.
  destruct (duration_cases d H) as [[-> ->]|[[-> ->]|(Hf & P & M & ->)]].
  - eapply wp_mono; [apply (append_cstr_built 64 [] b _ [] B); [literal|cbn; lia]|].
    intros b' B'. apply wp_ret, (built_str _ _ _ B').
  - eapply wp_mono; [apply (append_cstr_built 64 [] b _ [] B); [literal|cbn; lia]|].
    intros b' B'. apply wp_ret, (built_str _ _ _ B').
  - rewrite P, M, us_finite, bind_ok by done. rewrite rem_mod0 by lia. unfold exact_text.
    set (v := microseconds_ d) in *. assert (Hv : i64 v) by exact H.
    destruct ((v =? 0) || negb (v mod 1000 =? 0)) eqn:E1.
    { eapply wp_mono; [apply (append_unit b v " us" B Hv); [literal|cbn; lia]|].
      intros b' B'. apply wp_ret, (built_str _ _ _ B'). }
    apply orb_false_iff in E1 as [E0 E1]. apply negb_false_iff, Z.eqb_eq in E1.
    pose proof (Z.div_mod v 1000 ltac:(lia)) as D. rewrite E1, Z.add_0_r in D.
    rewrite (ms_exact d (v / 1000) Hf D), bind_ok. rewrite rem_mod0 by lia.
    replace ((v / 1000) mod 1000 =? 0) with (v mod 1000000 =? 0).
    2: { apply Bool.eq_iff_eq_true. rewrite !Z.eqb_eq.
         change 1000000 with (1000 * 1000). rewrite Z.rem_mul_r, E1 by lia. lia. }
    destruct (v mod 1000000 =? 0) eqn:E2; cbn [negb].
    + apply Z.eqb_eq in E2. pose proof (Z.div_mod v 1000000 ltac:(lia)) as D2. rewrite E2, Z.add_0_r in D2.
      rewrite (seconds_exact d (v / 1000000) Hf D2), bind_ok.
      eapply wp_mono; [apply (append_unit b (v / 1000000) " s" B); [|literal|cbn; lia]|].
      { unfold i64 in *. lia. }
      intros b' B'. apply wp_ret, (built_str _ _ _ B').
    + eapply wp_mono; [apply (append_unit b (v / 1000) " ms" B); [|literal|cbn; lia]|].
      { unfold i64 in *. lia. }
      intros b' B'. apply wp_ret, (built_str _ _ _ B').
Qed.

(** ** Where the operations stop short *)

(** The whole number of seconds of the longest durations cannot be had, nor the absolute value
    of an infinite one or of the least finite one. *)
Example last_seconds :
  (d ← of_us int64 (INT64_MAX - 499999); seconds_or d 0) = Fault SignedOverflow /\
  (d ← of_us int64 (INT64_MAX - 499); ms int64 d) = Fault SignedOverflow /\
  Abs MinusInfinity = Fault AssertionFailed /\ Abs (MkDelta (INT64_MIN + 1)) = Fault AssertionFailed /\
  delta_mul PlusInfinity 2 = Fault AssertionFailed.
Proof. repeat split; vm_compute; reflexivity. Qed.

(** A sum of finite durations may be an overflow, and it is not infinite. *)
Example sum_overflows :
  delta_add (MkDelta (INT64_MAX - 1)) (MkDelta 2) = Fault SignedOverflow /\
  delta_add (MkDelta (INT64_MAX - 1)) (MkDelta 1) = Fault AssertionFailed.
Proof. split; vm_compute; reflexivity. Qed.
