(* ===== verification/Queues.v ===== *)
(** * The swapping queue

    [base/swap_queue.h], a bounded queue between two threads that exchanges items
    instead of copying them.  Every method holds the lock of the queue from its
    beginning to its end, so that each is one step of an interleaving. *)
From S2P Require Import Prelude CInt AudioUtil.

(** ** SwapQueue *)

(** The functor that verifies items. *)
Class Verifier (T : Type) := queue_item_verifier_ : T -> bool.

Record SwapQueue (T : Type) := MkSwapQueue {
  next_write_index_ : nat; next_read_index_ : nat; num_elements_ : nat; queue_ : list T
}.
Arguments MkSwapQueue {T}.
Arguments next_write_index_ {T}.
Arguments next_read_index_ {T}.
Arguments num_elements_ {T}.
Arguments queue_ {T}.

Section swap_queue.
Context {T : Type} `{Verifier T}.

Definition VerifyQueueSlots (q : SwapQueue T) : res bool :=
  if forallb queue_item_verifier_ (queue_ q) then Ok true else Fault AssertionFailed.

(** From [size] copies of a prototype, or of a default-constructed item. *)
Definition SwapQueue_new (size : nat) (prototype : T) : res (SwapQueue T) :=
  let q := MkSwapQueue 0 0 0 (replicate size prototype) in
  _ ← VerifyQueueSlots q;
  Ok q.

Definition Clear (q : SwapQueue T) : SwapQueue T := MkSwapQueue 0 0 0 (queue_ q).

Definition size (q : SwapQueue T) : nat := length (queue_ q).

Definition next_index (q : SwapQueue T) (i : nat) : nat :=
  if (S i =? size q)%nat then 0 else S i.

(** Returns the item left in [*input]. *)
Definition Insert (q : SwapQueue T) (input : T) : res (bool * T * SwapQueue T) :=
  if negb (queue_item_verifier_ input) then Fault AssertionFailed else
  if (num_elements_ q =? size q)%nat then Ok (false, input, q) else
  empty ← rd (queue_ q) (Z.of_nat (next_write_index_ q));
  slots ← wr (queue_ q) (Z.of_nat (next_write_index_ q)) input;
  let q := MkSwapQueue (next_index q (next_write_index_ q)) (next_read_index_ q)
             (S (num_elements_ q)) slots in
  if negb (next_write_index_ q <? size q)%nat || negb (num_elements_ q <=? size q)%nat
  then Fault AssertionFailed else Ok (true, empty, q).

(** Returns the item left in [*output]. *)
Definition Remove (q : SwapQueue T) (output : T) : res (bool * T * SwapQueue T) :=
  if negb (queue_item_verifier_ output) then Fault AssertionFailed else
  if (num_elements_ q =? 0)%nat then Ok (false, output, q) else
  full ← rd (queue_ q) (Z.of_nat (next_read_index_ q));
  slots ← wr (queue_ q) (Z.of_nat (next_read_index_ q)) output;
  let q := MkSwapQueue (next_write_index_ q) (next_index q (next_read_index_ q))
             (num_elements_ q - 1) slots in
  if negb (next_read_index_ q <? size q)%nat || negb (num_elements_ q <=? size q)%nat
  then Fault AssertionFailed else Ok (true, full, q).

(** ** The queue as a machine *)

Inductive call := CallInsert (input : T) | CallRemove (output : T) | CallClear.

(** What a call returns: whether it succeeded and, for a removal, the item. *)
Definition run_call (q : SwapQueue T) (c : call) : res (bool * option T * SwapQueue T) :=
  match c with
  | CallInsert x => '(ok, _, q) ← Insert q x; Ok (ok, None, q)
  | CallRemove y => '(ok, x, q) ← Remove q y; Ok (ok, Some x, q)
  | CallClear => Ok (true, None, Clear q)
  end.

Fixpoint run_calls (q : SwapQueue T) (cs : list call)
    : res (list (bool * option T) * SwapQueue T) :=
  match cs with
  | [] => Ok ([], q)
  | c :: cs' =>
      '(ok, x, q) ← run_call q c;
      '(outs, q) ← run_calls q cs';
      Ok ((ok, x) :: outs, q)
  end.

(** What the queue promises: a list of at most [n] items, first in, first out. *)
Definition spec_call (n : nat) (l : list T) (c : call) : bool * option T * list T :=
  match c with
  | CallInsert x => if (length l =? n)%nat then (false, None, l) else (true, None, l ++ [x])
  | CallRemove y => match l with [] => (false, Some y, []) | x :: l' => (true, Some x, l') end
  | CallClear => (true, None, [])
  end.

Fixpoint spec_calls (n : nat) (l : list T) (cs : list call)
    : list (bool * option T) * list T :=
  match cs with
  | [] => ([], l)
  | c :: cs' =>
      let '(ok, x, l) := spec_call n l c in
      let '(outs, l) := spec_calls n l cs' in
      ((ok, x) :: outs, l)
  end.

(** The items of the queue, from the front. *)
Definition at_index (q : SwapQueue T) (j : nat) : nat := (next_read_index_ q + j) mod size q.

(** The comment at the indices, the verification of the slots, and the contents. *)
Record represents (n : nat) (q : SwapQueue T) (l : list T) : Prop := {
  sq_size : size q = n;
  sq_slots : Forall (fun x => queue_item_verifier_ x = true) (queue_ q);
  sq_read : (next_read_index_ q < n)%nat \/ n = 0%nat /\ next_read_index_ q = 0%nat;
  sq_count : num_elements_ q = length l;
  sq_full : (length l <= n)%nat;
  sq_write : n <> 0%nat -> next_write_index_ q = at_index q (length l);
  sq_items j x : l !! j = Some x -> queue_ q !! at_index q j = Some x
}.

Definition call_ok (c : call) : Prop :=
  match c with
  | CallInsert x => queue_item_verifier_ x = true
  | CallRemove y => queue_item_verifier_ y = true
  | CallClear => True
  end.

(** * Lemmas *)

Lemma represents_new n x :
  queue_item_verifier_ x = true ->
  exists q, SwapQueue_new n x = Ok q /\ represents n q [].
Proof.
  intros Hx. unfold SwapQueue_new, VerifyQueueSlots. cbn [queue_].
  assert (F : Forall (fun x => queue_item_verifier_ x = true) (replicate n x))
    by by apply Forall_replicate.
  rewrite (proj2 (forallb_forall _ _)), bind_ok.
  2:{ intros y Hy. rewrite Forall_forall in F. by apply F. }
  eexists. split; [done|]. constructor; cbn; try done; try lia.
  - apply length_replicate.
  - unfold at_index, size. cbn. rewrite length_replicate. intros Hn. by rewrite Nat.Div0.mod_0_l.
Qed.

(** Advancing an index is adding one modulo the size. *)
Lemma next_index_mod q i :
  (i < size q)%nat -> next_index q i = ((i + 1) mod size q)%nat.
Proof.
  intros Hi. unfold next_index. destruct (Nat.eqb_spec (S i) (size q)) as [E|E].
  - rewrite Nat.add_1_r, E. by rewrite Nat.Div0.mod_same.
  - rewrite Nat.mod_small by lia. lia.
Qed.

Lemma mod_shift a b n : n <> 0%nat -> ((a mod n + b) mod n = (a + b) mod n)%nat.
Proof. intros Hn. by rewrite Nat.Div0.add_mod_idemp_l. Qed.

(** Different positions of the queue are different slots. *)
Lemma at_index_inj q j k :
  (j < size q)%nat -> (k < size q)%nat -> at_index q j = at_index q k -> j = k.
Proof.
  unfold at_index. set (n := size q). set (r := next_read_index_ q). intros Hj Hk E.
  pose proof (Nat.div_mod_eq (r + j) n). pose proof (Nat.div_mod_eq (r + k) n).
  rewrite E in *. set (m := ((r + k) mod n)%nat) in *.
  set (u := ((r + j) / n)%nat) in *. set (v := ((r + k) / n)%nat) in *.
  destruct (Nat.lt_trichotomy u v) as [Hlt|[Heq|Hlt]]; [exfalso; nia|rewrite Heq in *; lia|exfalso; nia].
Qed.

(** An exchange of one element. *)
Lemma exchange {A} (l : list A) i x y :
  l !! i = Some y -> y :: <[i := x]> l ≡ₚ x :: l.
Proof.
  intros E. pose proof (lookup_lt_Some _ _ _ E) as Hi.
  rewrite <- (take_drop_middle l i y E) at 2. rewrite insert_take_drop by done.
  rewrite <- !Permutation_middle. apply Permutation_swap.
Qed.

(** A slot of the queue is read and replaced. *)
Lemma slot_exchange (q : SwapQueue T) n l i x :
  represents n q l -> (i < n)%nat -> queue_item_verifier_ x = true ->
  exists y, rd (queue_ q) (Z.of_nat i) = Ok y /\ queue_ q !! i = Some y /\
    wr (queue_ q) (Z.of_nat i) x = Ok (<[i := x]> (queue_ q)) /\
    queue_item_verifier_ y = true /\
    Forall (fun x => queue_item_verifier_ x = true) (<[i := x]> (queue_ q)).
Proof.
  intros R Hi Hx. pose proof (sq_size _ _ _ R) as Hs. unfold size in Hs.
  destruct (lookup_lt_is_Some_2 (queue_ q) i ltac:(lia)) as [y Ey].
  exists y. split; [by apply rd_Some|]. split; [done|]. split.
  { apply wp_pure, wp_wr; [unfold zlen; lia|by rewrite Nat2Z.id]. }
  split; [exact (Forall_lookup_1 _ _ _ _ (sq_slots _ _ _ R) Ey)|].
  apply Forall_insert; [apply R|done].
Qed.

Lemma Insert_full q n l x :
  represents n q l -> queue_item_verifier_ x = true -> length l = n ->
  Insert q x = Ok (false, x, q).
Proof.
  intros R Hx Hl. unfold Insert. rewrite Hx. cbn [negb].
  by rewrite (sq_count _ _ _ R), (sq_size _ _ _ R), (proj2 (Nat.eqb_eq _ _)).
Qed.

Lemma Insert_spec q n l x :
  represents n q l -> queue_item_verifier_ x = true -> length l <> n ->
  exists y q', Insert q x = Ok (true, y, q') /\ represents n q' (l ++ [x]) /\
    queue_item_verifier_ y = true /\ y :: queue_ q' ≡ₚ x :: queue_ q.
Proof.
  intros R Hx Hl. unfold Insert. rewrite Hx. cbn [negb].
  pose proof (sq_size _ _ _ R) as Hs. pose proof (sq_full _ _ _ R) as Hf.
  assert (Hn : n <> 0%nat) by lia.
  destruct (sq_read _ _ _ R) as [Hr|[? _]]; [|done].
  rewrite (sq_count _ _ _ R), Hs, (proj2 (Nat.eqb_neq _ _)) by done.
  set (w := next_write_index_ q) in *. pose proof (sq_write _ _ _ R Hn) as Ew. fold w in Ew.
  assert (Hw : (w < n)%nat) by (rewrite Ew; unfold at_index; rewrite Hs; by apply Nat.mod_upper_bound).
  destruct (slot_exchange q n l w x R Hw Hx) as (y & -> & Ey & -> & Hy & HF).
  rewrite !bind_ok. set (q' := MkSwapQueue _ _ _ _).
  assert (Hs' : size q' = n) by (unfold size; cbn; by rewrite length_insert).
  assert (Enext : next_index q w = at_index q' (length (l ++ [x]))).
  { rewrite next_index_mod by lia. unfold at_index. rewrite Hs', Hs, Ew, length_app.
    unfold at_index. rewrite Hs, mod_shift by done. cbn. f_equal. lia. }
  assert (Hnext : (next_write_index_ q' < n)%nat).
  { change (next_write_index_ q') with (next_index q w). rewrite Enext. unfold at_index.
    rewrite Hs'. by apply Nat.mod_upper_bound. }
  rewrite Hs', (proj2 (Nat.ltb_lt _ _)), (proj2 (Nat.leb_le _ _)) by (done || (cbn; lia)).
  cbn [negb orb]. exists y, q'. split; [done|]. split; [|split; [done|by apply exchange]].
  constructor; try done.
  - by left.
  - cbn. rewrite length_app. cbn. lia.
  - rewrite length_app. cbn. lia.
  - intros j z Ej. change (queue_ q') with (<[w := x]> (queue_ q)).
    assert (Ea : at_index q' j = at_index q j) by (unfold at_index; by rewrite Hs', Hs).
    rewrite Ea. apply lookup_app_Some in Ej as [Ej|[Hj Ej]].
    + pose proof (lookup_lt_Some _ _ _ Ej) as Hj. rewrite list_lookup_insert_ne.
      * by apply (sq_items _ _ _ R).
      * rewrite Ew. intros E. apply at_index_inj in E; lia.
    + apply list_lookup_singleton_Some in Ej as [Ej <-].
      replace j with (length l) by lia. rewrite <- Ew, list_lookup_insert_eq; [done|].
      unfold size in Hs. lia.
Qed.

Lemma Remove_empty q n y :
  represents n q [] -> queue_item_verifier_ y = true -> Remove q y = Ok (false, y, q).
Proof.
  intros R Hy. unfold Remove. rewrite Hy. cbn [negb]. by rewrite (sq_count _ _ _ R).
Qed.

Lemma Remove_spec q n x l y :
  represents n q (x :: l) -> queue_item_verifier_ y = true ->
  exists q', Remove q y = Ok (true, x, q') /\ represents n q' l /\
    queue_item_verifier_ x = true /\ x :: queue_ q' ≡ₚ y :: queue_ q.
Proof.
  intros R Hy. unfold Remove. rewrite Hy. cbn [negb].
  pose proof (sq_size _ _ _ R) as Hs. pose proof (sq_full _ _ _ R) as Hf. cbn [length] in Hf.
  assert (Hn : n <> 0%nat) by lia.
  destruct (sq_read _ _ _ R) as [Hr|[? _]]; [|done].
  rewrite (sq_count _ _ _ R). cbn [length Nat.eqb].
  set (r := next_read_index_ q) in *.
  destruct (slot_exchange q n _ r y R Hr Hy) as (z & -> & Ez & -> & Hz & HF).
  assert (Ea0 : at_index q 0 = r).
  { unfold at_index. rewrite Hs, Nat.add_0_r. by apply Nat.mod_small. }
  pose proof (sq_items _ _ _ R 0%nat x eq_refl) as Ex. rewrite Ea0, Ez in Ex.
  injection Ex as ->. rewrite !bind_ok. set (q' := MkSwapQueue _ _ _ _).
  assert (Hs' : size q' = n) by (unfold size; cbn; by rewrite length_insert).
  assert (Er : next_read_index_ q' = at_index q 1).
  { change (next_read_index_ q') with (next_index q r). rewrite next_index_mod by lia. done. }
  assert (Ea : forall j, at_index q' j = at_index q (S j)).
  { intros j. unfold at_index at 1. rewrite Er, Hs'. unfold at_index. rewrite Hs, mod_shift by done.
    f_equal. lia. }
  assert (Hr' : (next_read_index_ q' < n)%nat).
  { rewrite Er. unfold at_index. rewrite Hs. by apply Nat.mod_upper_bound. }
  rewrite Hs', (proj2 (Nat.ltb_lt _ _)), (proj2 (Nat.leb_le _ _)) by (done || (cbn; lia)).
  cbn [negb orb]. exists q'. split; [done|]. split; [|split; [done|by apply exchange]].
  constructor; try done.
  - by left.
  - cbn. lia.
  - lia.
  - intros _. rewrite Ea. by apply (sq_write _ _ _ R).
  - intros j w Ej. rewrite Ea. change (queue_ q') with (<[r := y]> (queue_ q)).
    pose proof (lookup_lt_Some _ _ _ Ej). rewrite list_lookup_insert_ne.
    + by apply (sq_items _ _ _ R (S j)).
    + rewrite <- Ea0. intros E. apply at_index_inj in E; lia.
Qed.

Lemma Clear_spec q n l : represents n q l -> represents n (Clear q) [].
Proof.
  intros R. destruct R as [Hs Hv Hr Hc Hf Hw Hi]. constructor; cbn; try done; try lia.
  intros Hn. unfold at_index. cbn. unfold size, Clear in *. cbn. rewrite Nat.Div0.mod_0_l. done.
Qed.

(** One call of the queue is one call of the specification. *)
Lemma run_call_spec n q l c :
  represents n q l -> call_ok c ->
  let '(ok, x, l') := spec_call n l c in
  exists q', run_call q c = Ok (ok, x, q') /\ represents n q' l'.
Proof.
  intros R Hc. destruct c as [x|y|]; cbn [spec_call run_call call_ok] in *.
  - destruct (Nat.eqb_spec (length l) n) as [E|E].
    + exists q. by rewrite (Insert_full q n l x), bind_ok.
    + destruct (Insert_spec q n l x R Hc E) as (y & q' & -> & R' & _). exists q'. by rewrite bind_ok.
  - destruct l as [|x l].
    + exists q. by rewrite (Remove_empty q n y), bind_ok.
    + destruct (Remove_spec q n x l y R Hc) as (q' & -> & R' & _). exists q'. by rewrite bind_ok.
  - exists (Clear q). split; [done|]. by apply (Clear_spec q n l).
Qed.

Lemma run_calls_spec n cs : forall q l,
  represents n q l -> Forall call_ok cs ->
  exists q', run_calls q cs = Ok (fst (spec_calls n l cs), q') /\
    represents n q' (snd (spec_calls n l cs)).
Proof.
  induction cs as [|c cs IH]; intros q l R Hc; [by exists q|].
  apply Forall_cons_1 in Hc as [Hc Hcs]. cbn [run_calls spec_calls].
  pose proof (run_call_spec n q l c R Hc) as H1.
  destruct (spec_call n l c) as [[ok x] l']. destruct H1 as (q' & -> & R').
  rewrite bind_ok. destruct (IH q' l' R' Hcs) as (q'' & -> & R'').
  rewrite bind_ok. destruct (spec_calls n l' cs) as [outs l'']. by exists q''.
Qed.

End swap_queue.

(** * Theorems *)

(** Whatever calls producer and consumer make in whatever order they get the
    lock, with items that pass the verification, a new queue answers as a bounded
    first-in, first-out list does (an insertion fails exactly when it is full, a
    removal when it is empty), no check fails and no slot is accessed out of
    bounds; after every call the items in the slots pass the verification and the
    indices satisfy the equation of the comment on them. *)
Lemma swap_queue_fifo {T} `{Verifier T} n (prototype : T) cs :
  queue_item_verifier_ prototype = true -> Forall call_ok cs ->
  exists q q', SwapQueue_new n prototype = Ok q /\
    run_calls q cs = Ok (fst (spec_calls n [] cs), q') /\
    represents n q' (snd (spec_calls n [] cs)).
Proof.
  intros Hp Hc. destruct (represents_new n prototype Hp) as (q & E & R).
  destruct (run_calls_spec n cs q [] R Hc) as (q' & E' & R'). by exists q, q'.
Qed.

(** Items of two samples; a full queue of two refuses the third item. *)
Definition two_samples : Verifier (list Z) := fun x => (length x =? 2)%nat.
