(* ===== verification/CowBuffer.v ===== *)
(** * Buffers that share their memory until they are written

    [base/buffer.h] for byte buffers that are not zeroed when they are freed
    ([Buffer]), [base/scoped_ref_ptr.h], [refcountedobject.h] and [refcounter.h], and
    [base/copyonwritebuffer.{h,cc}].  A byte that has never been written is [None].
    The overloads for arrays and strings are those for pointers with other arguments;
    those with a function that fills the buffer are not modelled.  Sizes are natural
    numbers, which memory keeps far below 2^64.  The theorem says
    that sharing cannot be observed: the buffers act as if each had its own memory. *)
From S2P Require Import Prelude CInt AudioUtil ChannelBuffer.

(** ** Buffer *)

Definition cell : Type := option Z.

(** [data_] is the array of [capacity_] elements, or empty for the null pointer. *)
Record Buffer := MkBuf { size_ : nat; capacity_ : nat; data_ : list cell }.

Definition Buffer_IsConsistent (b : Buffer) : bool :=
  (negb (length (data_ b) =? 0)%nat || (capacity_ b =? 0)%nat) && (size_ b <=? capacity_ b)%nat.

Definition Buffer_new (size capacity : nat) : Buffer :=
  MkBuf size (max size capacity) (replicate (max size capacity) None).

Definition Buffer_copy (data : list cell) (size capacity : nat) : res Buffer :=
  let b := Buffer_new size capacity in
  xs ← fetch size 0 data;
  d ← put 0 xs (data_ b);
  Ok (MkBuf (size_ b) (capacity_ b) d).

Definition EnsureCapacityWithHeadroom (b : Buffer) (capacity : nat) (extra_headroom : bool)
    : res Buffer :=
  if negb (Buffer_IsConsistent b) then Fault AssertionFailed else
  if (capacity <=? capacity_ b)%nat then Ok b else
  let new_capacity := if extra_headroom then max capacity (capacity_ b + capacity_ b / 2)
                      else capacity in
  xs ← fetch (size_ b) 0 (data_ b);
  new_data ← put 0 xs (replicate new_capacity None);
  Ok (MkBuf (size_ b) new_capacity new_data).

Definition Buffer_AppendData (b : Buffer) (data : list cell) (size : nat) : res Buffer :=
  if negb (Buffer_IsConsistent b) then Fault AssertionFailed else
  let new_size := (size_ b + size)%nat in
  b ← EnsureCapacityWithHeadroom b new_size true;
  xs ← fetch size 0 data;
  d ← put (size_ b) xs (data_ b);
  let b := MkBuf new_size (capacity_ b) d in
  if negb (Buffer_IsConsistent b) then Fault AssertionFailed else Ok b.

Definition Buffer_SetData (b : Buffer) (data : list cell) (size : nat) : res Buffer :=
  if negb (Buffer_IsConsistent b) then Fault AssertionFailed else
  Buffer_AppendData (MkBuf 0 (capacity_ b) (data_ b)) data size.

Definition Buffer_SetSize (b : Buffer) (size : nat) : res Buffer :=
  b ← EnsureCapacityWithHeadroom b size true;
  Ok (MkBuf size (capacity_ b) (data_ b)).

Definition Buffer_EnsureCapacity (b : Buffer) (capacity : nat) : res Buffer :=
  EnsureCapacityWithHeadroom b capacity false.

Definition Buffer_Clear (b : Buffer) : res Buffer :=
  let b := MkBuf 0 (capacity_ b) (data_ b) in
  if negb (Buffer_IsConsistent b) then Fault AssertionFailed else Ok b.

Definition Buffer_get (b : Buffer) (index : nat) : res cell :=
  if negb (index <? size_ b)%nat then Fault AssertionFailed
  else rd (data_ b) (Z.of_nat index).

Definition Buffer_set (b : Buffer) (index : nat) (v : cell) : res Buffer :=
  if negb (index <? size_ b)%nat then Fault AssertionFailed else
  d ← wr (data_ b) (Z.of_nat index) v;
  Ok (MkBuf (size_ b) (capacity_ b) d).

(** [operator==]: [memcmp] of bytes that have been written. *)
Definition written (xs : list cell) : res (list Z) :=
  mapM (fun x => match x with Some v => Ok v | None => Fault Uninitialized end) xs.

Definition Buffer_eq (a b : Buffer) : res bool :=
  if negb (size_ a =? size_ b)%nat then Ok false else
  xs ← written (take (size_ a) (data_ a));
  ys ← written (take (size_ a) (data_ b));
  Ok (bool_decide (xs = ys)).

(** ** Reference counts *)

(** The objects on the heap, freed ones being [None], and the variables that hold
    pointers to them. *)
Record store := MkStore { heap : list (option (nat * Buffer)); vars : list (option nat) }.

Definition get_object (h : list (option (nat * Buffer))) (a : nat) : res (nat * Buffer) :=
  o ← rd h (Z.of_nat a);
  match o with Some o => Ok o | None => Fault UseAfterFree end.

Definition AddRef (p : option nat) (h : list (option (nat * Buffer)))
    : res (list (option (nat * Buffer))) :=
  match p with
  | None => Ok h
  | Some a => '(rc, b) ← get_object h a; wr h (Z.of_nat a) (Some (S rc, b))
  end.

Definition Release (p : option nat) (h : list (option (nat * Buffer)))
    : res (list (option (nat * Buffer))) :=
  match p with
  | None => Ok h
  | Some a => '(rc, b) ← get_object h a;
              wr h (Z.of_nat a) (if (rc - 1 =? 0)%nat then None else Some (rc - 1, b)%nat)
  end.

Definition HasOneRef (s : store) (a : nat) : res bool :=
  '(rc, _) ← get_object (heap s) a; Ok (rc =? 1)%nat.

(** [scoped_refptr::operator=(T* p)] of variable [i]. *)
Definition assign_ptr (i : nat) (p : option nat) (s : store) : res store :=
  old ← rd (vars s) (Z.of_nat i);
  h ← AddRef p (heap s);
  h ← Release old h;
  v ← wr (vars s) (Z.of_nat i) p;
  Ok (MkStore h v).

(** [buffer_ = new RefCountedObject<Buffer>(...)]. *)
Definition assign_new (i : nat) (b : Buffer) (s : store) : res store :=
  assign_ptr i (Some (length (heap s))) (MkStore (heap s ++ [Some (0%nat, b)]) (vars s)).

(** A change of the object a pointer designates. *)
Definition update_object (a : nat) (f : Buffer -> res Buffer) (s : store) : res store :=
  '(rc, b) ← get_object (heap s) a;
  b ← f b;
  h ← wr (heap s) (Z.of_nat a) (Some (rc, b));
  Ok (MkStore h (vars s)).

(** ** CopyOnWriteBuffer

    Variable [i] is the member [buffer_] of a buffer. *)

Definition IsConsistent (i : nat) (s : store) : res unit :=
  p ← rd (vars s) (Z.of_nat i);
  match p with
  | None => Ok tt
  | Some a => '(_, b) ← get_object (heap s) a;
              if (0 <? capacity_ b)%nat then Ok tt else Fault AssertionFailed
  end.

(** Runs [f] between the two checks of a method. *)
Definition checked (i : nat) (f : store -> res store) (s : store) : res store :=
  _ ← IsConsistent i s;
  s ← f s;
  _ ← IsConsistent i s;
  Ok s.

Definition CloneDataIfReferenced (i a : nat) (new_capacity : nat) (s : store) : res store :=
  one ← HasOneRef s a;
  if (one : bool) then Ok s else
  '(_, b) ← get_object (heap s) a;
  b' ← Buffer_copy (data_ b) (size_ b) new_capacity;
  s ← assign_new i b' s;
  _ ← IsConsistent i s;
  Ok s.

(** The pointer of variable [i]. *)
Definition pointer (i : nat) (s : store) : res (option nat) := rd (vars s) (Z.of_nat i).

(** Runs [f] on the object of variable [i]. *)
Definition on_buffer (i : nat) (f : Buffer -> res Buffer) (s : store) : res store :=
  p ← pointer i s;
  match p with Some a => update_object a f s | None => Fault NullPointer end.

Definition SetData (i : nat) (data : list cell) (size : nat) : store -> res store :=
  checked i (fun s =>
    p ← pointer i s;
    match p with
    | None => if (0 <? size)%nat then b ← Buffer_copy data size size; assign_new i b s
              else assign_ptr i None s
    | Some a =>
        one ← HasOneRef s a;
        if (one : bool) then on_buffer i (fun b => Buffer_SetData b data size) s
        else '(_, b) ← get_object (heap s) a;
             b' ← Buffer_copy data size (capacity_ b);
             assign_new i b' s
    end).

Definition AppendData (i : nat) (data : list cell) (size : nat) : store -> res store :=
  checked i (fun s =>
    p ← pointer i s;
    match p with
    | None => b ← Buffer_copy data size size; assign_new i b s
    | Some a =>
        '(_, b) ← get_object (heap s) a;
        s ← CloneDataIfReferenced i a (max (capacity_ b) (size_ b + size)) s;
        on_buffer i (fun b => Buffer_AppendData b data size) s
    end).

Definition SetSize (i : nat) (size : nat) : store -> res store :=
  checked i (fun s =>
    p ← pointer i s;
    match p with
    | None => if (0 <? size)%nat then assign_new i (Buffer_new size size) s else Ok s
    | Some a =>
        one ← HasOneRef s a;
        s ← (if (one : bool) then Ok s
             else '(_, b) ← get_object (heap s) a;
                  b' ← Buffer_copy (data_ b) (min (size_ b) size) (max (capacity_ b) size);
                  assign_new i b' s);
        on_buffer i (fun b => Buffer_SetSize b size) s
    end).

Definition EnsureCapacity (i : nat) (capacity : nat) : store -> res store :=
  checked i (fun s =>
    p ← pointer i s;
    match p with
    | None => if (0 <? capacity)%nat then assign_new i (Buffer_new 0 capacity) s else Ok s
    | Some a =>
        '(_, b) ← get_object (heap s) a;
        if (capacity <=? capacity_ b)%nat then Ok s else
        s ← CloneDataIfReferenced i a (max (capacity_ b) capacity) s;
        on_buffer i (fun b => Buffer_EnsureCapacity b capacity) s
    end).

Definition Clear (i : nat) (s : store) : res store :=
  p ← pointer i s;
  match p with
  | None => Ok s
  | Some a =>
      one ← HasOneRef s a;
      s ← (if (one : bool) then on_buffer i Buffer_Clear s
           else '(_, b) ← get_object (heap s) a;
                assign_new i (Buffer_new 0 (capacity_ b)) s);
      _ ← IsConsistent i s;
      Ok s
  end.

Definition cow_size (i : nat) (s : store) : res nat :=
  _ ← IsConsistent i s;
  p ← pointer i s;
  match p with
  | None => Ok 0%nat
  | Some a => '(_, b) ← get_object (heap s) a; Ok (size_ b)
  end.

(** The writable [data()] copies shared memory. *)
Definition writable_data (i : nat) (s : store) : res store :=
  _ ← IsConsistent i s;
  p ← pointer i s;
  match p with
  | None => Ok s
  | Some a => '(_, b) ← get_object (heap s) a; CloneDataIfReferenced i a (capacity_ b) s
  end.

(** [operator[](index) = v]. *)
Definition write_index (i : nat) (index : nat) (v : Z) (s : store) : res store :=
  size ← cow_size i s;
  if negb (index <? size)%nat then Fault AssertionFailed else
  s ← writable_data i s;
  on_buffer i (fun b => d ← wr (data_ b) (Z.of_nat index) (Some v);
                        Ok (MkBuf (size_ b) (capacity_ b) d)) s.

(** [operator=(const CopyOnWriteBuffer&)] and [SetData(const CopyOnWriteBuffer&)]. *)
Definition copy_assign (i j : nat) (s : store) : res store :=
  _ ← IsConsistent i s;
  _ ← IsConsistent j s;
  if (i =? j)%nat then Ok s else p ← pointer j s; assign_ptr i p s.

(** [operator=(CopyOnWriteBuffer&&)]: through a temporary that takes the pointer. *)
Definition move_assign (i j : nat) (s : store) : res store :=
  _ ← IsConsistent i s;
  _ ← IsConsistent j s;
  tmp ← pointer j s;
  v ← wr (vars s) (Z.of_nat j) None;
  old ← rd v (Z.of_nat i);
  v ← wr v (Z.of_nat i) tmp;
  h ← Release old (heap s);
  Ok (MkStore h v).

Definition cow_swap (i j : nat) (s : store) : res store :=
  p ← pointer i s;
  q ← pointer j s;
  v ← wr (vars s) (Z.of_nat i) q;
  v ← wr v (Z.of_nat j) p;
  Ok (MkStore (heap s) v).

(** [AppendData(const CopyOnWriteBuffer&)].  The bytes are read after the buffer has
    been enlarged: where the two are one buffer that nobody shares, from memory that
    has been freed. *)
Definition append_buffer (i j : nat) (s : store) : res store :=
  _ ← IsConsistent j s;
  q ← pointer j s;
  match q with
  | None => AppendData i [] 0 s
  | Some a =>
      '(rc, b) ← get_object (heap s) a;
      if ((i =? j) && (rc =? 1) && (capacity_ b <? size_ b + size_ b))%nat
      then Fault UseAfterFree else AppendData i (data_ b) (size_ b) s
  end.

(** The end of a buffer's life, and its construction: [~CopyOnWriteBuffer()] and
    [CopyOnWriteBuffer(data, size, capacity)]. *)
Definition cow_destroy (i : nat) (s : store) : res store :=
  old ← pointer i s;
  h ← Release old (heap s);
  v ← wr (vars s) (Z.of_nat i) None;
  Ok (MkStore h v).

Definition construct_sized (i size capacity : nat) (s : store) : res store :=
  s ← (if (0 <? size)%nat || (0 <? capacity)%nat
       then assign_new i (Buffer_new size capacity) s else Ok s);
  _ ← IsConsistent i s;
  Ok s.

Definition construct (i : nat) (data : list cell) (size capacity : nat) (s : store) : res store :=
  s ← construct_sized i size capacity s;
  p ← pointer i s;
  match p with
  | None => Ok s
  | Some a => update_object a (fun b => xs ← fetch size 0 data; d ← put 0 xs (data_ b);
                                        Ok (MkBuf (size_ b) (capacity_ b) d)) s
  end.

(** A buffer goes out of scope and another takes its place. *)
Definition replace_buffer (i : nat) (data : list cell) (capacity : nat) (s : store) : res store :=
  s ← cow_destroy i s;
  construct i data (length data) capacity s.

(** [operator==]. *)
Definition cow_eq (i j : nat) (s : store) : res bool :=
  _ ← IsConsistent i s;
  _ ← IsConsistent j s;
  p ← pointer i s;
  q ← pointer j s;
  if bool_decide (p = q) then Ok true else
  match p, q with
  | Some a, Some c => '(_, x) ← get_object (heap s) a;
                      '(_, y) ← get_object (heap s) c;
                      Buffer_eq x y
  | _, _ => Ok false
  end.

(** What can be read of a buffer: [size()], [capacity()] and the bytes of [cdata()]. *)
Definition cow_view (i : nat) (s : store) : res (nat * nat * list cell) :=
  _ ← IsConsistent i s;
  p ← pointer i s;
  match p with
  | None => Ok (0%nat, 0%nat, [])
  | Some a => '(_, b) ← get_object (heap s) a; Ok (size_ b, capacity_ b, data_ b)
  end.

(** ** The buffers as a machine *)

Inductive op :=
| OpReplace (i : nat) (data : list cell) (capacity : nat)
| OpSetData (i : nat) (data : list cell)
| OpAppendData (i : nat) (data : list cell)
| OpSetSize (i size : nat)
| OpEnsureCapacity (i capacity : nat)
| OpClear (i : nat)
| OpWrite (i index : nat) (v : Z)
| OpCopy (i j : nat)
| OpMove (i j : nat)
| OpSwap (i j : nat)
| OpAppendBuffer (i j : nat).

Definition run_op (o : op) : store -> res store :=
  match o with
  | OpReplace i d n => replace_buffer i d n
  | OpSetData i d => SetData i d (length d)
  | OpAppendData i d => AppendData i d (length d)
  | OpSetSize i n => SetSize i n
  | OpEnsureCapacity i n => EnsureCapacity i n
  | OpClear i => Clear i
  | OpWrite i k v => write_index i k v
  | OpCopy i j => copy_assign i j
  | OpMove i j => move_assign i j
  | OpSwap i j => cow_swap i j
  | OpAppendBuffer i j => append_buffer i j
  end.

(** The contents of the buffers, without sharing: what a method promises of the
    buffer it is called on, all others being as before.  New elements are
    arbitrary. *)
Inductive spec_op : op -> list (list cell) -> list (list cell) -> Prop :=
| spec_replace i d n c : spec_op (OpReplace i d n) c (<[i := d]> c)
| spec_set i d c : spec_op (OpSetData i d) c (<[i := d]> c)
| spec_append i d c x : c !! i = Some x -> spec_op (OpAppendData i d) c (<[i := x ++ d]> c)
| spec_shrink i n c x : c !! i = Some x -> (n <= length x)%nat ->
    spec_op (OpSetSize i n) c (<[i := take n x]> c)
| spec_grow i n c x new : c !! i = Some x -> n = (length x + length new)%nat ->
    spec_op (OpSetSize i n) c (<[i := x ++ new]> c)
| spec_capacity i n c : spec_op (OpEnsureCapacity i n) c c
| spec_clear i c : spec_op (OpClear i) c (<[i := []]> c)
| spec_write i k v c x : c !! i = Some x -> (k < length x)%nat ->
    spec_op (OpWrite i k v) c (<[i := <[k := Some v]> x]> c)
| spec_copy i j c x : c !! j = Some x -> spec_op (OpCopy i j) c (<[i := x]> c)
| spec_move i j c x : c !! j = Some x ->
    spec_op (OpMove i j) c (<[i := x]> (<[j := []]> c))
| spec_swap i j c x y : c !! i = Some x -> c !! j = Some y ->
    spec_op (OpSwap i j) c (<[j := x]> (<[i := y]> c))
| spec_append_buffer i j c x y : c !! i = Some x -> c !! j = Some y ->
    spec_op (OpAppendBuffer i j) c (<[i := x ++ y]> c).

(** * Lemmas *)

(** ** Buffers *)

Record buffer_ok (b : Buffer) : Prop := {
  buf_length : length (data_ b) = capacity_ b;
  buf_fits : (size_ b <= capacity_ b)%nat
}.

Definition bytes (b : Buffer) : list cell := take (size_ b) (data_ b).

Lemma buffer_consistent b : buffer_ok b -> Buffer_IsConsistent b = true.
Proof.
  intros [L F]. unfold Buffer_IsConsistent. rewrite L, (proj2 (Nat.leb_le _ _)) by done.
  by destruct (capacity_ b =? 0)%nat.
Qed.

Lemma length_bytes b : buffer_ok b -> length (bytes b) = size_ b.
Proof. intros [L F]. unfold bytes. rewrite length_take. lia. Qed.

Lemma Buffer_new_ok size capacity : buffer_ok (Buffer_new size capacity).
Proof. constructor; cbn; [apply length_replicate|lia]. Qed.

Lemma fetch_prefix n (xs : list cell) : (n <= length xs)%nat -> fetch n 0 xs = Ok (take n xs).
Proof. intros Hn. rewrite fetch_ok by lia. unfold view. by rewrite drop_0. Qed.

Lemma Buffer_copy_spec data size capacity :
  (size <= length data)%nat ->
  exists b, Buffer_copy data size capacity = Ok b /\ buffer_ok b /\
    bytes b = take size data /\ capacity_ b = max size capacity /\ size_ b = size.
Proof.
  intros Hs. unfold Buffer_copy. cbv zeta. rewrite fetch_prefix, bind_ok by done.
  assert (Lt : length (take size data) = size) by (rewrite length_take; lia).
  cbn [data_ Buffer_new]. rewrite (put_splice (A := cell)), bind_ok by (rewrite Lt, length_replicate; lia).
  eexists. split; [done|]. split; [|split; [|done]].
  - constructor; cbn [data_ capacity_ size_ Buffer_new]; [|lia].
    rewrite !length_app, Lt, length_drop, length_replicate, length_take. lia.
  - unfold bytes. cbn [data_ size_ Buffer_new]. rewrite take_0, app_nil_l. by apply take_app_length'.
Qed.

Lemma EnsureCapacity_spec b n extra :
  buffer_ok b ->
  exists b', EnsureCapacityWithHeadroom b n extra = Ok b' /\ buffer_ok b' /\
    bytes b' = bytes b /\ size_ b' = size_ b /\
    (n <= capacity_ b')%nat /\ (capacity_ b <= capacity_ b')%nat.
Proof.
  intros Hb. unfold EnsureCapacityWithHeadroom. rewrite buffer_consistent by done. cbn [negb].
  destruct (Nat.leb_spec n (capacity_ b)) as [Hle|Hgt]; [exists b; by split_and!|].
  pose proof (length_bytes b Hb) as Lb. destruct Hb as [L F].
  rewrite fetch_prefix, bind_ok by lia. fold (bytes b). set (m := if extra then _ else n).
  assert (Hm : (n <= m)%nat) by (unfold m; destruct extra; lia).
  rewrite (put_splice (A := cell)), bind_ok by (rewrite length_replicate; lia).
  eexists. split; [done|]. split; [|split; [|split; [done|cbn; lia]]].
  - constructor; cbn [data_ capacity_ size_]; [|lia].
    rewrite !length_app, length_drop, length_replicate, length_take. lia.
  - unfold bytes at 1. cbn [data_ size_]. rewrite take_0, app_nil_l. by apply take_app_length'.
Qed.

Lemma Buffer_AppendData_spec b data size :
  buffer_ok b -> (size <= length data)%nat ->
  exists b', Buffer_AppendData b data size = Ok b' /\ buffer_ok b' /\
    bytes b' = bytes b ++ take size data /\ (capacity_ b <= capacity_ b')%nat.
Proof.
  intros Hb Hs. unfold Buffer_AppendData. rewrite buffer_consistent by done. cbn [negb]. cbv zeta.
  destruct (EnsureCapacity_spec b (size_ b + size) true Hb)
    as (b1 & -> & H1 & E1 & S1 & C1 & C1').
  rewrite bind_ok, fetch_prefix, bind_ok by done. pose proof (length_bytes b Hb) as Lb.
  assert (Lt : length (take size data) = size) by (rewrite length_take; lia).
  destruct H1 as [L F]. rewrite (put_splice (A := cell)), bind_ok by (rewrite Lt; lia).
  set (b2 := MkBuf _ _ _). assert (H2 : buffer_ok b2).
  { constructor; cbn; [|done]. rewrite !length_app, Lt, length_drop, length_take. lia. }
  rewrite buffer_consistent by done. cbn [negb]. exists b2. split; [done|]. split; [done|].
  split; [|done]. rewrite <- E1. unfold bytes, b2. cbn.
  rewrite S1, app_assoc, take_app_length'; [done|]. rewrite length_app, Lt, length_take. lia.
Qed.

Lemma Buffer_SetData_spec b data size :
  buffer_ok b -> (size <= length data)%nat ->
  exists b', Buffer_SetData b data size = Ok b' /\ buffer_ok b' /\
    bytes b' = take size data /\ (capacity_ b <= capacity_ b')%nat.
Proof.
  intros Hb Hs. unfold Buffer_SetData. rewrite buffer_consistent by done. cbn [negb].
  assert (H0 : buffer_ok (MkBuf 0 (capacity_ b) (data_ b)))
    by (destruct Hb; constructor; cbn; lia).
  destruct (Buffer_AppendData_spec _ data size H0 Hs) as (b' & -> & H' & E & C).
  exists b'. by split_and!.
Qed.

(** The contents are truncated, or kept and continued with arbitrary elements. *)
Lemma Buffer_SetSize_spec b n :
  buffer_ok b ->
  exists b', Buffer_SetSize b n = Ok b' /\ buffer_ok b' /\ size_ b' = n /\
    take (size_ b) (bytes b') = take n (bytes b) /\ (capacity_ b <= capacity_ b')%nat.
Proof.
  intros Hb. unfold Buffer_SetSize.
  destruct (EnsureCapacity_spec b n true Hb) as (b1 & -> & H1 & E1 & S1 & C1 & C1').
  rewrite bind_ok. eexists. split; [done|]. split; [|split; [done|split; [|done]]].
  - destruct H1. by constructor.
  - rewrite <- E1. unfold bytes. cbn. rewrite !take_take, S1. f_equal. lia.
Qed.

(** ** References *)

(** How many variables hold a pointer. *)
Definition refs (a : nat) (v : list (option nat)) : nat :=
  length (filter (fun p => p = Some a) v).
Definition is_ref (a : nat) (p : option nat) : nat := if decide (p = Some a) then 1%nat else 0%nat.

Lemma is_ref_same a : is_ref a (Some a) = 1%nat.
Proof. unfold is_ref. by rewrite decide_True. Qed.

Lemma is_ref_other a p : p <> Some a -> is_ref a p = 0%nat.
Proof. intros H. unfold is_ref. by rewrite decide_False. Qed.

Lemma refs_cons a p v : refs a (p :: v) = (is_ref a p + refs a v)%nat.
Proof. unfold refs, is_ref. rewrite filter_cons. by destruct (decide (p = Some a)). Qed.

(** Overwriting a variable. *)
Lemma refs_insert a v i old p :
  v !! i = Some old -> (refs a (<[i := p]> v) + is_ref a old = refs a v + is_ref a p)%nat.
Proof.
  revert i. induction v as [|q v IH]; intros [|i] E; try done.
  - injection E as ->. change (<[0%nat := p]> (old :: v)) with (p :: v). rewrite !refs_cons. lia.
  - change (<[S i := p]> (q :: v)) with (q :: <[i := p]> v). rewrite !refs_cons.
    specialize (IH i E). lia.
Qed.

Lemma refs_pos a v i : v !! i = Some (Some a) -> (0 < refs a v)%nat.
Proof.
  intros E. pose proof (refs_insert a v i (Some a) None E) as H.
  rewrite is_ref_same, is_ref_other in H by done. lia.
Qed.

Lemma refs_0 a v : (forall i, v !! i <> Some (Some a)) -> refs a v = 0%nat.
Proof.
  induction v as [|p v IH]; intros H; [done|]. rewrite refs_cons, IH.
  - rewrite is_ref_other; [done|]. intros ->. by apply (H 0%nat).
  - intros i. apply (H (S i)).
Qed.

(** Counters that are right, up to [d] a reference for which there is no variable yet:
    every pointer designates an object, whose buffer is well formed. *)
Record counted (d : option nat) (s : store) : Prop := {
  ct_live i a : vars s !! i = Some (Some a) -> exists o, heap s !! a = Some (Some o);
  ct_count a rc b : heap s !! a = Some (Some (rc, b)) ->
    rc = (refs a (vars s) + is_ref a d)%nat;
  ct_buffer a rc b : heap s !! a = Some (Some (rc, b)) -> buffer_ok b /\ (0 < capacity_ b)%nat
}.

(** In addition no object is unreferenced: nothing leaks. *)
Definition store_ok (s : store) : Prop :=
  counted None s /\ forall a rc b, heap s !! a = Some (Some (rc, b)) -> (0 < rc)%nat.

(** The buffer a pointer designates. *)
Definition object (h : list (option (nat * Buffer))) (a : nat) : option Buffer :=
  match h !! a with Some (Some (_, b)) => Some b | _ => None end.

Lemma get_object_ok h a rc b :
  h !! a = Some (Some (rc, b)) -> get_object h a = Ok (rc, b).
Proof. intros E. unfold get_object. by rewrite (rd_Some _ _ _ E), bind_ok. Qed.

(** What happens to the objects while pointers are assigned: counters change, and
    unreferenced objects go. *)
Definition kept (h h' : list (option (nat * Buffer))) : Prop :=
  length h' = length h /\ forall a rc b, h' !! a = Some (Some (rc, b)) -> object h a = Some b.

Lemma object_Some h a b : object h a = Some b <-> exists rc, h !! a = Some (Some (rc, b)).
Proof.
  unfold object. split.
  - destruct (h !! a) as [[[rc b']|]|] eqn:E; try done. intros [= ->]. by exists rc.
  - by intros [rc ->].
Qed.

(** A counter goes up. *)
Lemma AddRef_spec p s :
  counted None s -> (forall a, p = Some a -> exists b, object (heap s) a = Some b) ->
  exists h, AddRef p (heap s) = Ok h /\ counted p (MkStore h (vars s)) /\
    length h = length (heap s) /\ forall a, object h a = object (heap s) a.
Proof.
  intros C Hp. destruct p as [a|]; cbn [AddRef].
  2:{ exists (heap s). split; [done|]. split; [by destruct s|done]. }
  destruct (Hp a eq_refl) as [b Hb]. apply object_Some in Hb as [rc E].
  rewrite (get_object_ok _ _ _ _ E), bind_ok.
  pose proof (lookup_lt_Some _ _ _ E) as Ha. rewrite wr_ok by done.
  eexists. split; [done|].
  assert (Hl : forall c, <[a := Some (S rc, b)]> (heap s) !! c =
     if decide (c = a) then Some (Some (S rc, b)) else heap s !! c).
  { intros c. destruct (decide (c = a)) as [->|Hne]; [by apply list_lookup_insert_eq|].
    by apply list_lookup_insert_ne. }
  split; [|split; [by rewrite length_insert|]].
  - constructor; cbn [heap vars].
    + intros i c Ei. rewrite Hl. destruct (decide (c = a)); [by eexists|]. by apply (ct_live _ _ C i).
    + intros c rc' b'. rewrite Hl. destruct (decide (c = a)) as [->|Hne].
      * intros [= <- <-]. rewrite (ct_count _ _ C _ _ _ E), is_ref_same, is_ref_other by done. lia.
      * intros E'. rewrite (ct_count _ _ C _ _ _ E'), !is_ref_other by (done || congruence). done.
    + intros c rc' b'. rewrite Hl. destruct (decide (c = a)) as [->|Hne].
      * intros [= <- <-]. by apply (ct_buffer _ _ C _ _ _ E).
      * apply (ct_buffer _ _ C).
  - intros c. unfold object. rewrite Hl. destruct (decide (c = a)) as [->|]; [|done]. by rewrite E.
Qed.

Lemma counted_bound d s i a :
  counted d s -> vars s !! i = Some (Some a) -> (a < length (heap s))%nat.
Proof. intros C E. destruct (ct_live _ _ C i a E) as [o Eo]. by eapply lookup_lt_Some. Qed.

(** A counter goes down when its variable is overwritten with the pointer that has
    already been counted. *)
Lemma Release_spec p i old s :
  counted p s -> vars s !! i = Some old ->
  (forall a, p = Some a -> exists b, object (heap s) a = Some b) ->
  (forall a rc b, heap s !! a = Some (Some (rc, b)) -> (0 < rc)%nat) ->
  exists h, Release old (heap s) = Ok h /\ store_ok (MkStore h (<[i := p]> (vars s))) /\
    length h = length (heap s) /\
    forall a b, object h a = Some b -> object (heap s) a = Some b.
Proof.
  intros C Ei Hp Hpos.
  assert (Hrefs : forall a, (refs a (<[i := p]> (vars s)) + is_ref a old =
                             refs a (vars s) + is_ref a p)%nat)
    by (intros a; by apply refs_insert).
  assert (Hptr : forall j a, <[i := p]> (vars s) !! j = Some (Some a) ->
            p = Some a \/ vars s !! j = Some (Some a)).
  { intros j a Ej. destruct (decide (j = i)) as [->|Hne].
    - rewrite list_lookup_insert_eq in Ej by (by eapply lookup_lt_Some).
      injection Ej as ->. by left.
    - rewrite list_lookup_insert_ne in Ej by done. by right. }
  assert (Hlive : forall j a, <[i := p]> (vars s) !! j = Some (Some a) ->
            exists o, heap s !! a = Some (Some o)).
  { intros j a Ej. destruct (Hptr j a Ej) as [->|Ev].
    - destruct (Hp a eq_refl) as [b Hb]. apply object_Some in Hb as [rc E]. by exists (rc, b).
    - by apply (ct_live _ _ C j). }
  destruct old as [a|]; cbn [Release].
  2:{ exists (heap s). split; [done|]. split; [split; [constructor|]|by split]; cbn [heap vars].
      - exact Hlive.
      - intros c rc b E. rewrite (ct_count _ _ C _ _ _ E). specialize (Hrefs c).
        rewrite (is_ref_other c None) in * by done. lia.
      - apply (ct_buffer _ _ C).
      - exact Hpos. }
  destruct (ct_live _ _ C i a Ei) as [[rc b] E].
  rewrite (get_object_ok _ _ _ _ E), bind_ok.
  pose proof (lookup_lt_Some _ _ _ E) as Ha. rewrite wr_ok by done.
  pose proof (ct_count _ _ C _ _ _ E) as Erc. pose proof (Hpos _ _ _ E) as Hrc.
  set (o := if (rc - 1 =? 0)%nat then None else Some (rc - 1, b)%nat).
  eexists. split; [done|].
  assert (Hl : forall c, <[a := o]> (heap s) !! c = if decide (c = a) then Some o else heap s !! c).
  { intros c. destruct (decide (c = a)) as [->|Hne]; [by apply list_lookup_insert_eq|].
    by apply list_lookup_insert_ne. }
  assert (Ho : forall rc' b', o = Some (rc', b') -> rc' = (rc - 1)%nat /\ b' = b /\ (0 < rc')%nat).
  { unfold o. intros rc' b'. destruct (Nat.eqb_spec (rc - 1) 0); [done|].
    intros [= <- <-]. split_and!; (done || lia). }
  split; [split; [constructor|]|split; [by rewrite length_insert|]]; cbn [heap vars].
  - intros j c Ej. rewrite Hl. destruct (decide (c = a)) as [->|]; [|by apply (Hlive j)].
    unfold o. destruct (Nat.eqb_spec (rc - 1) 0) as [E0|]; [|by eexists]. exfalso.
    specialize (Hrefs a). rewrite is_ref_same in Hrefs. pose proof (refs_pos a _ j Ej).
    pose proof (Hpos _ _ _ E). lia.
  - intros c rc' b'. rewrite Hl. specialize (Hrefs c). destruct (decide (c = a)) as [->|Hne].
    + intros [= Eo]. destruct (Ho _ _ Eo) as (-> & _ & _).
      rewrite is_ref_same in Hrefs. rewrite (is_ref_other a None) by done. lia.
    + intros E'. rewrite (ct_count _ _ C _ _ _ E').
      rewrite (is_ref_other c (Some a)) in Hrefs by congruence.
      rewrite (is_ref_other c None) by done. lia.
  - intros c rc' b'. rewrite Hl. destruct (decide (c = a)) as [->|Hne]; [|by apply (ct_buffer _ _ C)].
    intros [= Eo]. destruct (Ho _ _ Eo) as (_ & -> & _). by apply (ct_buffer _ _ C _ _ _ E).
  - intros c rc' b'. rewrite Hl. destruct (decide (c = a)) as [->|Hne]; [|by apply Hpos].
    intros [= Eo]. by destruct (Ho _ _ Eo) as (_ & _ & ?).
  - intros c b'. unfold object. rewrite Hl. destruct (decide (c = a)) as [->|]; [|done].
    rewrite E. destruct o as [[rc' b'']|] eqn:Eo; [|done]. intros [= ->].
    by destruct (Ho _ _ eq_refl) as (_ & -> & _).
Qed.

(** ** The contents of the variables *)

Definition value (h : list (option (nat * Buffer))) (p : option nat) : list cell :=
  match p with
  | Some a => match object h a with Some b => bytes b | None => [] end
  | None => []
  end.

Definition contents (s : store) : list (list cell) := map (value (heap s)) (vars s).

Lemma contents_lookup s i p : vars s !! i = Some p -> contents s !! i = Some (value (heap s) p).
Proof. intros E. unfold contents. by rewrite list_lookup_fmap, E. Qed.

Lemma contents_length s : length (contents s) = length (vars s).
Proof. apply length_map. Qed.

(** Assigning pointers does not change what live pointers designate. *)
Lemma contents_assigned s h i p :
  (forall j a, <[i := p]> (vars s) !! j = Some (Some a) -> exists b, object h a = Some b) ->
  (forall a b, object h a = Some b -> object (heap s) a = Some b) ->
  contents (MkStore h (<[i := p]> (vars s))) = <[i := value (heap s) p]> (contents s).
Proof.
  intros Hlive Hobj. unfold contents. cbn [heap vars]. rewrite <- list_fmap_insert.
  apply list_eq. intros j. rewrite !list_lookup_fmap.
  destruct (<[i := p]> (vars s) !! j) as [[a|]|] eqn:E; try done. cbn. f_equal.
  destruct (Hlive j a E) as [b Hb]. by rewrite Hb, (Hobj a b Hb).
Qed.

Lemma live_objects d s j a :
  counted d s -> vars s !! j = Some (Some a) -> exists b, object (heap s) a = Some b.
Proof.
  intros C E. destruct (ct_live _ _ C j a E) as [[rc b] Eo]. exists b. apply object_Some. by exists rc.
Qed.

(** A variable gets a pointer to an object that is alive. *)
Lemma assign_ptr_spec i p s :
  counted None s -> (i < length (vars s))%nat ->
  (forall a, p = Some a -> exists b, object (heap s) a = Some b) ->
  (forall a rc b, heap s !! a = Some (Some (rc, b)) -> (0 < rc)%nat \/ p = Some a) ->
  exists s', assign_ptr i p s = Ok s' /\ store_ok s' /\ vars s' = <[i := p]> (vars s) /\
    (forall a b, object (heap s') a = Some b -> object (heap s) a = Some b) /\
    contents s' = <[i := value (heap s) p]> (contents s).
Proof.
  intros C Hi Hp Hpos. destruct (lookup_lt_is_Some_2 (vars s) i Hi) as [old Ei].
  unfold assign_ptr. rewrite (rd_Some _ _ _ Ei), bind_ok.
  destruct (AddRef_spec p s C Hp) as (h1 & -> & C1 & L1 & O1). rewrite bind_ok.
  destruct (Release_spec p i old (MkStore h1 (vars s)) C1 Ei) as (h2 & E2 & S2 & L2 & O2).
  - intros a Ea. cbn [heap]. rewrite O1. by apply Hp.
  - intros a rc b E. pose proof (ct_count _ _ C1 _ _ _ E) as Erc. cbn [heap vars] in *.
    destruct (decide (p = Some a)) as [->|Hne]; [rewrite is_ref_same in Erc; lia|].
    assert (Ho : object (heap s) a = Some b).
    { rewrite <- O1. apply object_Some. by exists rc. }
    apply object_Some in Ho as [rc' E']. pose proof (ct_count _ _ C _ _ _ E') as Erc'.
    rewrite is_ref_other in Erc by done. rewrite (is_ref_other a None) in Erc' by done.
    destruct (Hpos _ _ _ E') as [?|?]; [lia|done].
  - cbn [heap vars] in *. rewrite E2, bind_ok, wr_ok, bind_ok by done.
    assert (O : forall a b, object h2 a = Some b -> object (heap s) a = Some b).
    { intros a b E. rewrite <- O1. by apply O2. }
    eexists. split; [done|]. split; [done|]. split; [done|]. split; [done|].
    apply contents_assigned; [|done]. intros j a Ej.
    exact (live_objects _ _ j a (proj1 S2) Ej).
Qed.

Lemma store_pos s a rc b : store_ok s -> heap s !! a = Some (Some (rc, b)) -> (0 < rc)%nat.
Proof. intros [_ H]. apply H. Qed.

(** A variable gets the pointer of another. *)
Lemma assign_shared_spec i j p s :
  store_ok s -> (i < length (vars s))%nat -> vars s !! j = Some p ->
  exists s', assign_ptr i p s = Ok s' /\ store_ok s' /\ vars s' = <[i := p]> (vars s) /\
    contents s' = <[i := value (heap s) p]> (contents s).
Proof.
  intros S Hi Ej. destruct (assign_ptr_spec i p s (proj1 S) Hi) as (s' & E & S' & V & _ & C').
  - intros a ->. exact (live_objects _ _ j a (proj1 S) Ej).
  - intros a rc b E. left. by apply (store_pos s a rc b).
  - by exists s'.
Qed.

Lemma assign_null_spec i s :
  store_ok s -> (i < length (vars s))%nat ->
  exists s', assign_ptr i None s = Ok s' /\ store_ok s' /\ vars s' = <[i := None]> (vars s) /\
    contents s' = <[i := []]> (contents s).
Proof.
  intros S Hi. destruct (assign_ptr_spec i None s (proj1 S) Hi) as (s' & E & S' & V & _ & C').
  - done.
  - intros a rc b E. left. by apply (store_pos s a rc b).
  - by exists s'.
Qed.

(** A variable gets an object of its own. *)
Definition owns (i : nat) (b : Buffer) (s : store) : Prop :=
  exists a, vars s !! i = Some (Some a) /\ heap s !! a = Some (Some (1%nat, b)).

Lemma refs_insert_new i a v :
  (i < length v)%nat -> (forall j, v !! j <> Some (Some a)) -> refs a (<[i := Some a]> v) = 1%nat.
Proof.
  intros Hi Hn. destruct (lookup_lt_is_Some_2 v i Hi) as [old Ei].
  pose proof (refs_insert a v i old (Some a) Ei) as H.
  rewrite is_ref_same, (refs_0 a v Hn), (is_ref_other a old) in H; [lia|].
  intros ->. by apply (Hn i).
Qed.

Lemma assign_new_spec i b s :
  store_ok s -> (i < length (vars s))%nat -> buffer_ok b -> (0 < capacity_ b)%nat ->
  exists s', assign_new i b s = Ok s' /\ store_ok s' /\ owns i b s' /\
    length (vars s') = length (vars s) /\ contents s' = <[i := bytes b]> (contents s).
Proof.
  intros S Hi Hb Hc. unfold assign_new. set (n := length (heap s)).
  set (s1 := MkStore (heap s ++ [Some (0%nat, b)]) (vars s)).
  assert (Hn : forall j, vars s !! j <> Some (Some n)).
  { intros j Ej. pose proof (counted_bound _ _ _ _ (proj1 S) Ej). unfold n in *. lia. }
  assert (Hl : forall a o, heap s1 !! a = Some o -> heap s !! a = Some o \/ a = n /\ o = Some (0%nat, b)).
  { intros a o E. apply lookup_app_Some in E as [E|[Hle E]]; [by left|right].
    apply list_lookup_singleton_Some in E as [E <-]. unfold n. split; [lia|done]. }
  assert (Hn1 : heap s1 !! n = Some (Some (0%nat, b))).
  { cbn. rewrite lookup_app_r by (unfold n; lia). unfold n. by rewrite Nat.sub_diag. }
  assert (C1 : counted None s1).
  { destruct S as [[L C B] P]. constructor; cbn [vars s1].
    - intros j a Ej. destruct (L j a Ej) as [o Eo]. exists o. cbn. rewrite lookup_app_l; [done|].
      by eapply lookup_lt_Some.
    - intros a rc b' E. destruct (Hl _ _ E) as [E'|[-> [= -> ->]]]; [by apply (C a rc b')|].
      rewrite (refs_0 n _ Hn). done.
    - intros a rc b' E. destruct (Hl _ _ E) as [E'|[-> [= -> ->]]]; [by apply (B a rc b')|done]. }
  assert (Ho : object (heap s1) n = Some b) by (apply object_Some; by eexists).
  destruct (assign_ptr_spec i (Some n) s1 C1 Hi) as (s' & E & S' & V & O & Cs).
  - intros a [= <-]. by exists b.
  - intros a rc b' E. destruct (Hl _ _ E) as [E'|[-> _]]; [|by right].
    left. by apply (store_pos s a rc b').
  - exists s'. split; [done|]. split; [done|].
    assert (Ei : vars s' !! i = Some (Some n)) by (rewrite V; by apply list_lookup_insert_eq).
    split; [|split].
    + destruct (ct_live _ _ (proj1 S') i n Ei) as [[rc b'] E'].
      pose proof (ct_count _ _ (proj1 S') _ _ _ E') as Erc.
      rewrite V, (refs_insert_new i n), (is_ref_other n None) in Erc by done.
      assert (Eb : object (heap s') n = Some b') by (apply object_Some; by eexists).
      apply O in Eb. rewrite Ho in Eb. injection Eb as <-. exists n. split; [done|].
      rewrite E'. do 3 f_equal. lia.
    + rewrite V. apply length_insert.
    + rewrite Cs. cbn [value]. rewrite Ho. f_equal. unfold contents, s1. cbn [heap vars].
      apply map_ext_in. intros q Hq. destruct q as [a|]; [|done]. cbn [value].
      apply list_elem_of_In, list_elem_of_lookup in Hq as [j Ej].
      pose proof (counted_bound _ _ _ _ (proj1 S) Ej). unfold object.
      by rewrite lookup_app_l.
Qed.

(** An object that only one variable holds is changed. *)
Lemma refs_unique a v i j :
  refs a v = 1%nat -> v !! i = Some (Some a) -> v !! j = Some (Some a) -> i = j.
Proof.
  intros H Ei Ej. destruct (decide (i = j)) as [|Hne]; [done|]. exfalso.
  pose proof (refs_insert a v i (Some a) None Ei) as H1.
  rewrite is_ref_same, (is_ref_other a None) in H1 by done.
  assert (E : <[i := None]> v !! j = Some (Some a)) by by rewrite list_lookup_insert_ne.
  pose proof (refs_pos a _ j E). lia.
Qed.

Lemma on_buffer_spec i b b' f s :
  store_ok s -> owns i b s -> f b = Ok b' -> buffer_ok b' -> (0 < capacity_ b')%nat ->
  exists s', on_buffer i f s = Ok s' /\ store_ok s' /\ owns i b' s' /\ vars s' = vars s /\
    contents s' = <[i := bytes b']> (contents s).
Proof.
  intros S (a & Ei & Ea) Ef Hb Hc. unfold on_buffer, pointer.
  rewrite (rd_Some _ _ _ Ei), bind_ok. unfold update_object.
  rewrite (get_object_ok _ _ _ _ Ea), bind_ok, Ef, bind_ok.
  pose proof (lookup_lt_Some _ _ _ Ea) as Ha. rewrite wr_ok, bind_ok by done.
  assert (Hl : forall c, <[a := Some (1%nat, b')]> (heap s) !! c =
     if decide (c = a) then Some (Some (1%nat, b')) else heap s !! c).
  { intros c. destruct (decide (c = a)) as [->|Hne]; [by apply list_lookup_insert_eq|].
    by apply list_lookup_insert_ne. }
  pose proof (ct_count _ _ (proj1 S) _ _ _ Ea) as Erc. rewrite (is_ref_other a None) in Erc by done.
  eexists. split; [done|]. split; [split; [constructor|]|split; [|split; [done|]]]; cbn [heap vars].
  - intros j c Ej. rewrite Hl. destruct (decide (c = a)); [by eexists|].
    exact (ct_live _ _ (proj1 S) j c Ej).
  - intros c rc x. rewrite Hl. destruct (decide (c = a)) as [->|].
    + intros [= <- <-]. rewrite (is_ref_other a None) by done. lia.
    + apply (ct_count _ _ (proj1 S)).
  - intros c rc x. rewrite Hl. destruct (decide (c = a)) as [->|].
    + by intros [= <- <-].
    + apply (ct_buffer _ _ (proj1 S)).
  - intros c rc x. rewrite Hl. destruct (decide (c = a)) as [->|].
    + intros [= <- <-]. lia.
    + apply (store_pos s). done.
  - exists a. split; [done|]. cbn [heap]. rewrite Hl. by rewrite decide_True.
  - apply list_eq. intros j. unfold contents. cbn [heap vars].
    pose proof (lookup_lt_Some _ _ _ Ei) as Hi.
    destruct (decide (j = i)) as [->|Hne].
    + rewrite list_lookup_insert_eq by (by rewrite length_map).
      rewrite list_lookup_fmap, Ei. cbn. unfold object. by rewrite Hl, decide_True.
    + rewrite list_lookup_insert_ne by done. rewrite !list_lookup_fmap.
      destruct (vars s !! j) as [[c|]|] eqn:Ej; try done. cbn. unfold object. rewrite Hl.
      destruct (decide (c = a)) as [->|]; [|done].
      exfalso. apply Hne. apply (refs_unique a (vars s)); (done || lia).
Qed.

Lemma owned_ok i b s : store_ok s -> owns i b s -> buffer_ok b /\ (0 < capacity_ b)%nat.
Proof. intros S (a & _ & E). exact (ct_buffer _ _ (proj1 S) _ _ _ E). Qed.

Lemma IsConsistent_ok i s : store_ok s -> (i < length (vars s))%nat -> IsConsistent i s = Ok tt.
Proof.
  intros S Hi. unfold IsConsistent. destruct (lookup_lt_is_Some_2 (vars s) i Hi) as [p Ei].
  rewrite (rd_Some _ _ _ Ei), bind_ok. destruct p as [a|]; [|done].
  destruct (ct_live _ _ (proj1 S) i a Ei) as [[rc b] E].
  rewrite (get_object_ok _ _ _ _ E), bind_ok.
  by rewrite (proj2 (Nat.ltb_lt _ _)) by apply (ct_buffer _ _ (proj1 S) _ _ _ E).
Qed.

(** What a method leaves: the contents [x] in its own buffer. *)
Definition wrote_buffer (i : nat) (x : list cell) (s s' : store) : Prop :=
  store_ok s' /\ length (vars s') = length (vars s) /\ contents s' = <[i := x]> (contents s).

Lemma checked_spec i f s x :
  store_ok s -> (i < length (vars s))%nat ->
  (exists s', f s = Ok s' /\ wrote_buffer i x s s') ->
  exists s', checked i f s = Ok s' /\ wrote_buffer i x s s'.
Proof.
  intros S Hi (s' & E & S' & L & C). unfold checked.
  rewrite IsConsistent_ok, bind_ok, E, bind_ok, IsConsistent_ok by (done || lia).
  by exists s'.
Qed.

(** Either the buffer is the only owner of its object, or it is shared. *)
Lemma pointer_cases i a s :
  store_ok s -> vars s !! i = Some (Some a) ->
  exists rc b, heap s !! a = Some (Some (rc, b)) /\ buffer_ok b /\ (0 < capacity_ b)%nat /\
    contents s !! i = Some (bytes b) /\ HasOneRef s a = Ok (rc =? 1)%nat /\
    (rc = 1%nat -> owns i b s).
Proof.
  intros S Ei. destruct (ct_live _ _ (proj1 S) i a Ei) as [[rc b] E]. exists rc, b.
  destruct (ct_buffer _ _ (proj1 S) _ _ _ E) as [Hb Hc].
  split; [done|]. split; [done|]. split; [done|]. split; [|split].
  - rewrite (contents_lookup _ _ _ Ei). cbn. unfold object. by rewrite E.
  - unfold HasOneRef. by rewrite (get_object_ok _ _ _ _ E), bind_ok.
  - intros ->. by exists a.
Qed.

Lemma contents_same i x s : contents s !! i = Some x -> <[i := x]> (contents s) = contents s.
Proof. apply list_insert_id. Qed.

Lemma CloneDataIfReferenced_spec i a n s rc b :
  (0 < n)%nat -> store_ok s -> vars s !! i = Some (Some a) -> heap s !! a = Some (Some (rc, b)) ->
  exists s' b', CloneDataIfReferenced i a n s = Ok s' /\ store_ok s' /\ owns i b' s' /\
    bytes b' = bytes b /\ length (vars s') = length (vars s) /\ contents s' = contents s.
Proof.
  intros Hn S Ei E. destruct (pointer_cases i a s S Ei) as (rc' & b' & E' & Hb & Hc & Hx & H1 & Ho).
  rewrite E in E'. injection E' as <- <-. unfold CloneDataIfReferenced. rewrite H1, bind_ok.
  destruct (Nat.eqb_spec rc 1) as [->|Hne]; [exists s, b; split_and!; auto|].
  rewrite (get_object_ok _ _ _ _ E), bind_ok. destruct Hb as [Lb Fb].
  destruct (Buffer_copy_spec (data_ b) (size_ b) n) as (b2 & -> & Hb2 & Eb2 & Cb2 & Sb2); [lia|].
  rewrite bind_ok. fold (bytes b) in Eb2. pose proof (lookup_lt_Some _ _ _ Ei) as Hi.
  destruct (assign_new_spec i b2 s S Hi Hb2 ltac:(lia)) as (s' & -> & S' & O' & L' & C').
  rewrite bind_ok, IsConsistent_ok, bind_ok by (done || lia). exists s', b2.
  split_and!; try done. rewrite C', Eb2. by apply contents_same.
Qed.

(** A new object in place of the old one. *)
Lemma assign_new_wrote i b x s :
  store_ok s -> (i < length (vars s))%nat -> buffer_ok b -> (0 < capacity_ b)%nat ->
  bytes b = x -> exists s', assign_new i b s = Ok s' /\ wrote_buffer i x s s'.
Proof.
  intros S Hi Hb Hc <-. destruct (assign_new_spec i b s S Hi Hb Hc) as (s' & E & S' & _ & L & C).
  by exists s'.
Qed.

(** The object of the buffer, which nobody else holds, is changed. *)
Lemma on_buffer_wrote i b b' x f s :
  store_ok s -> owns i b s -> f b = Ok b' -> buffer_ok b' -> (capacity_ b <= capacity_ b')%nat ->
  bytes b' = x -> exists s', on_buffer i f s = Ok s' /\ wrote_buffer i x s s'.
Proof.
  intros S O Ef Hb Hc <-. destruct (owned_ok _ _ _ S O) as [_ Hc0].
  destruct (on_buffer_spec i b b' f s S O Ef Hb ltac:(lia)) as (s' & E & S' & _ & V & C).
  exists s'. split; [done|]. split; [done|]. split; [by rewrite V|done].
Qed.

Lemma wrote_after i x s1 s s' :
  contents s1 = contents s -> length (vars s1) = length (vars s) ->
  wrote_buffer i x s1 s' -> wrote_buffer i x s s'.
Proof. intros E L (S & L' & C). split; [done|]. split; [lia|]. by rewrite C, E. Qed.

Lemma wrote_overwritten i y x s1 s s' :
  contents s1 = <[i := y]> (contents s) -> length (vars s1) = length (vars s) ->
  wrote_buffer i x s1 s' -> wrote_buffer i x s s'.
Proof.
  intros E L (S & L' & C). split; [done|]. split; [lia|]. by rewrite C, E, list_insert_insert_eq.
Qed.

(** Copy, then change the copy. *)
Lemma clone_and_change i a n rc b f x s :
  (0 < n)%nat -> store_ok s -> vars s !! i = Some (Some a) -> heap s !! a = Some (Some (rc, b)) ->
  (forall b1, buffer_ok b1 -> bytes b1 = bytes b ->
     exists b', f b1 = Ok b' /\ buffer_ok b' /\ bytes b' = x /\ (capacity_ b1 <= capacity_ b')%nat) ->
  exists s', (s ← CloneDataIfReferenced i a n s; on_buffer i f s) = Ok s' /\ wrote_buffer i x s s'.
Proof.
  intros Hn S Ei E Hf.
  destruct (CloneDataIfReferenced_spec i a n s rc b Hn S Ei E) as (s1 & b1 & -> & S1 & O1 & E1 & L1 & C1).
  rewrite bind_ok. destruct (owned_ok _ _ _ S1 O1) as [Hb1 _].
  destruct (Hf b1 Hb1 E1) as (b' & Ef & Hb' & Eb & Hc).
  destruct (on_buffer_wrote i b1 b' x f s1 S1 O1 Ef Hb' Hc Eb) as (s' & -> & W).
  exists s'. split; [done|]. by apply (wrote_after _ _ s1).
Qed.

(** ** The methods *)

Lemma pointer_ok i p s : vars s !! i = Some p -> pointer i s = Ok p.
Proof. apply rd_Some. Qed.

Lemma SetData_spec i d s :
  store_ok s -> (i < length (vars s))%nat ->
  exists s', SetData i d (length d) s = Ok s' /\ wrote_buffer i d s s'.
Proof.
  intros S Hi. apply checked_spec; [done|done|].
  destruct (lookup_lt_is_Some_2 (vars s) i Hi) as [p Ei]. rewrite (pointer_ok _ _ _ Ei), bind_ok.
  assert (Et : take (length d) d = d) by by apply take_ge.
  destruct p as [a|].
  - destruct (pointer_cases i a s S Ei) as (rc & b & E & Hb & Hc & Hx & -> & Ho). rewrite bind_ok.
    destruct (Nat.eqb_spec rc 1) as [->|Hne].
    + destruct (Buffer_SetData_spec b d (length d) Hb ltac:(lia)) as (b' & Ef & Hb' & Eb & Cb).
      rewrite Et in Eb. by apply (on_buffer_wrote i b b'); [done|apply Ho|..].
    + rewrite (get_object_ok _ _ _ _ E), bind_ok.
      destruct (Buffer_copy_spec d (length d) (capacity_ b)) as (b' & -> & Hb' & Eb & Cb & _); [lia|].
      rewrite bind_ok. rewrite Et in Eb. apply assign_new_wrote; (done || lia).
  - destruct (Nat.ltb_spec 0 (length d)) as [Hd|Hd].
    + destruct (Buffer_copy_spec d (length d) (length d)) as (b' & -> & Hb' & Eb & Cb & _); [lia|].
      rewrite bind_ok. rewrite Et in Eb. apply assign_new_wrote; (done || lia).
    + destruct d; [|cbn in Hd; lia].
      destruct (assign_null_spec i s S Hi) as (s' & -> & S' & V & C).
      exists s'. split; [done|]. split; [done|]. split; [by rewrite V, length_insert|done].
Qed.

(** Appending nothing to a buffer without memory is excluded. *)
Lemma AppendData_spec i d n x s :
  store_ok s -> contents s !! i = Some x -> (n <= length d)%nat ->
  (vars s !! i = Some None -> n <> 0%nat) ->
  exists s', AppendData i d n s = Ok s' /\ wrote_buffer i (x ++ take n d) s s'.
Proof.
  intros S Hx Hn Hne.
  assert (Hi : (i < length (vars s))%nat)
    by (rewrite <- contents_length; by eapply lookup_lt_Some).
  apply checked_spec; [done|done|].
  destruct (lookup_lt_is_Some_2 (vars s) i Hi) as [p Ei]. rewrite (pointer_ok _ _ _ Ei), bind_ok.
  destruct p as [a|].
  - destruct (pointer_cases i a s S Ei) as (rc & b & E & Hb & Hc & Hx' & _ & _).
    rewrite Hx in Hx'. injection Hx' as ->. rewrite (get_object_ok _ _ _ _ E), bind_ok.
    apply (clone_and_change i a _ rc b); [lia|done|done|done|]. intros b1 Hb1 E1.
    destruct (Buffer_AppendData_spec b1 d n Hb1 Hn) as (b' & Ef & Hb' & Eb & Cb).
    exists b'. by rewrite Eb, E1.
  - rewrite (contents_lookup _ _ _ Ei) in Hx. injection Hx as <-. cbn [value app].
    destruct (Buffer_copy_spec d n n Hn) as (b' & -> & Hb' & Eb & Cb & _).
    rewrite bind_ok. apply assign_new_wrote; try done. specialize (Hne Ei). lia.
Qed.

(** Truncated, or continued. *)
Definition resized (n : nat) (x y : list cell) : Prop :=
  length y = n /\ take (length x) y = take n x.

Lemma Buffer_SetSize_resized b n :
  buffer_ok b -> exists b', Buffer_SetSize b n = Ok b' /\ buffer_ok b' /\
    resized n (bytes b) (bytes b') /\ (capacity_ b <= capacity_ b')%nat.
Proof.
  intros Hb. destruct (Buffer_SetSize_spec b n Hb) as (b' & E & Hb' & Sz & Et & Hc).
  exists b'. split; [done|]. split; [done|]. split; [|done]. split.
  - by rewrite length_bytes.
  - by rewrite length_bytes.
Qed.

Lemma SetSize_spec i n x s :
  store_ok s -> contents s !! i = Some x ->
  exists s' y, SetSize i n s = Ok s' /\ wrote_buffer i y s s' /\ resized n x y.
Proof.
  intros S Hx.
  assert (Hi : (i < length (vars s))%nat)
    by (rewrite <- contents_length; by eapply lookup_lt_Some).
  enough (H : exists y, resized n x y /\
    exists s', SetSize i n s = Ok s' /\ wrote_buffer i y s s')
    by (destruct H as (y & Hy & s' & E & W); by exists s', y).
  destruct (lookup_lt_is_Some_2 (vars s) i Hi) as [p Ei].
  destruct p as [a|].
  - destruct (pointer_cases i a s S Ei) as (rc & b & E & Hb & Hc & Hx' & H1 & Ho).
    rewrite Hx in Hx'. injection Hx' as ->. destruct (Nat.eqb_spec rc 1) as [->|Hne].
    + destruct (Buffer_SetSize_resized b n Hb) as (b' & Ef & Hb' & R & Cb).
      exists (bytes b'). split; [done|]. apply checked_spec; [done|done|].
      rewrite (pointer_ok _ _ _ Ei), bind_ok, H1, bind_ok, bind_ok.
      by apply (on_buffer_wrote i b b'); [done|apply Ho|..].
    + pose proof Hb as [Lb Fb].
      destruct (Buffer_copy_spec (data_ b) (min (size_ b) n) (max (capacity_ b) n))
        as (b2 & E2 & Hb2 & Eb2 & Cb2 & Sb2); [lia|].
      destruct (assign_new_spec i b2 s S Hi Hb2 ltac:(lia)) as (s1 & E1 & S1 & O1 & L1 & C1).
      destruct (Buffer_SetSize_resized b2 n Hb2) as (b' & Ef & Hb' & R & Cb).
      exists (bytes b'). split.
      * destruct R as [R1 R2]. split; [done|].
        assert (E12 : bytes b2 = take n (bytes b)).
        { rewrite Eb2. unfold bytes. rewrite take_take. f_equal. lia. }
        rewrite E12, take_take, Nat.min_id in R2. rewrite <- R2, length_take.
        rewrite <- (take_ge (bytes b') n) at 1 by lia. rewrite take_take. f_equal. lia.
      * apply checked_spec; [done|done|].
        rewrite (pointer_ok _ _ _ Ei), bind_ok, H1, bind_ok.
        rewrite (get_object_ok _ _ _ _ E), bind_ok, E2, bind_ok, E1, bind_ok.
        destruct (on_buffer_wrote i b2 b' _ (fun b => Buffer_SetSize b n) s1 S1 O1 Ef Hb' Cb eq_refl)
          as (s' & E' & S' & L' & C').
        exists s'. split; [done|]. split; [done|]. split; [lia|].
        by rewrite C', C1, list_insert_insert_eq.
  - rewrite (contents_lookup _ _ _ Ei) in Hx. injection Hx as <-. cbn [value].
    destruct (Nat.ltb_spec 0 n) as [Hn|Hn].
    + exists (bytes (Buffer_new n n)). pose proof (Buffer_new_ok n n) as Hb. split.
      * split; [by rewrite length_bytes|by rewrite take_nil].
      * apply checked_spec; [done|done|]. rewrite (pointer_ok _ _ _ Ei), bind_ok.
        rewrite (proj2 (Nat.ltb_lt _ _)) by done. apply assign_new_wrote; [done|done|done|cbn; lia|done].
    + exists []. split; [split; [cbn; lia|by rewrite !take_nil]|].
      apply checked_spec; [done|done|]. rewrite (pointer_ok _ _ _ Ei), bind_ok.
      rewrite (proj2 (Nat.ltb_ge _ _)) by done. exists s. split; [done|]. split; [done|].
      split; [done|]. symmetry. apply contents_same. by rewrite (contents_lookup _ _ _ Ei).
Qed.

Lemma SetSize_meets i n x s :
  store_ok s -> contents s !! i = Some x ->
  exists s', SetSize i n s = Ok s' /\ store_ok s' /\ length (vars s') = length (vars s) /\
    spec_op (OpSetSize i n) (contents s) (contents s').
Proof.
  intros S Hx. destruct (SetSize_spec i n x s S Hx) as (s' & y & E & (S' & L & C) & R1 & R2).
  exists s'. split; [done|]. split; [done|]. split; [done|]. rewrite C.
  destruct (decide (n <= length x)%nat) as [Hle|Hgt].
  - rewrite take_ge in R2 by lia. subst y. by apply spec_shrink.
  - rewrite (take_ge x n) in R2 by lia. rewrite <- (take_drop (length x) y), R2.
    apply spec_grow; [done|]. rewrite length_drop. lia.
Qed.

Lemma EnsureCapacity_meets i n x s :
  store_ok s -> contents s !! i = Some x ->
  exists s', EnsureCapacity i n s = Ok s' /\ wrote_buffer i x s s'.
Proof.
  intros S Hx.
  assert (Hi : (i < length (vars s))%nat)
    by (rewrite <- contents_length; by eapply lookup_lt_Some).
  apply checked_spec; [done|done|].
  destruct (lookup_lt_is_Some_2 (vars s) i Hi) as [p Ei]. rewrite (pointer_ok _ _ _ Ei), bind_ok.
  assert (Same : wrote_buffer i x s s)
    by (split; [done|]; split; [done|]; symmetry; by apply contents_same).
  destruct p as [a|].
  - destruct (pointer_cases i a s S Ei) as (rc & b & E & Hb & Hc & Hx' & _ & _).
    rewrite Hx in Hx'. injection Hx' as ->. rewrite (get_object_ok _ _ _ _ E), bind_ok.
    destruct (n <=? capacity_ b)%nat; [by exists s|].
    apply (clone_and_change i a _ rc b); [lia|done|done|done|]. intros b1 Hb1 E1.
    destruct (EnsureCapacity_spec b1 n false Hb1) as (b' & Ef & Hb' & Eb & _ & _ & Cb).
    exists b'. by rewrite Eb, E1.
  - rewrite (contents_lookup _ _ _ Ei) in Hx. injection Hx as <-. cbn [value].
    destruct (Nat.ltb_spec 0 n) as [Hn|Hn]; [|by exists s].
    apply assign_new_wrote; [done|done|apply Buffer_new_ok|cbn; lia|done].
Qed.

Lemma cow_Clear_spec i s :
  store_ok s -> (i < length (vars s))%nat ->
  exists s', Clear i s = Ok s' /\ wrote_buffer i [] s s'.
Proof.
  intros S Hi. unfold Clear. destruct (lookup_lt_is_Some_2 (vars s) i Hi) as [p Ei].
  rewrite (pointer_ok _ _ _ Ei), bind_ok. destruct p as [a|].
  2:{ exists s. split; [done|]. split; [done|]. split; [done|]. symmetry.
      apply contents_same. by rewrite (contents_lookup _ _ _ Ei). }
  destruct (pointer_cases i a s S Ei) as (rc & b & E & Hb & Hc & Hx & -> & Ho). rewrite bind_ok.
  enough (H : exists s', (if (rc =? 1)%nat then on_buffer i Buffer_Clear s
      else '(_, b) ← get_object (heap s) a; assign_new i (Buffer_new 0 (capacity_ b)) s) = Ok s' /\
      wrote_buffer i [] s s').
  { destruct H as (s' & -> & W). rewrite bind_ok. pose proof W as (S' & L & _).
    rewrite IsConsistent_ok, bind_ok by (done || lia). by exists s'. }
  destruct (Nat.eqb_spec rc 1) as [->|Hne].
  - assert (Hb0 : buffer_ok (MkBuf 0 (capacity_ b) (data_ b))) by (destruct Hb; constructor; cbn; lia).
    apply (on_buffer_wrote i b (MkBuf 0 (capacity_ b) (data_ b))); [done|by apply Ho| |done|done|done].
    unfold Buffer_Clear. cbv zeta. by rewrite buffer_consistent.
  - rewrite (get_object_ok _ _ _ _ E), bind_ok.
    apply assign_new_wrote; [done|done|apply Buffer_new_ok|cbn; lia|done].
Qed.

Lemma cow_size_spec i x s :
  store_ok s -> contents s !! i = Some x -> cow_size i s = Ok (length x).
Proof.
  intros S Hx. pose proof (lookup_lt_Some _ _ _ Hx) as Hi. rewrite contents_length in Hi.
  unfold cow_size. rewrite IsConsistent_ok, bind_ok by done.
  destruct (lookup_lt_is_Some_2 (vars s) i Hi) as [p Ei]. rewrite (pointer_ok _ _ _ Ei), bind_ok.
  destruct p as [a|].
  - destruct (pointer_cases i a s S Ei) as (rc & b & E & Hb & Hc & Hx' & _ & _).
    rewrite Hx in Hx'. injection Hx' as ->. rewrite (get_object_ok _ _ _ _ E), bind_ok.
    by rewrite length_bytes.
  - rewrite (contents_lookup _ _ _ Ei) in Hx. by injection Hx as <-.
Qed.

Lemma write_index_spec i k v x s :
  store_ok s -> contents s !! i = Some x -> (k < length x)%nat ->
  exists s', write_index i k v s = Ok s' /\ wrote_buffer i (<[k := Some v]> x) s s'.
Proof.
  intros S Hx Hk. unfold write_index. rewrite (cow_size_spec i x), bind_ok by done.
  rewrite (proj2 (Nat.ltb_lt _ _)) by done. cbn [negb]. unfold writable_data.
  pose proof (lookup_lt_Some _ _ _ Hx) as Hi. rewrite contents_length in Hi.
  rewrite IsConsistent_ok, bind_ok by done.
  destruct (lookup_lt_is_Some_2 (vars s) i Hi) as [p Ei]. rewrite (pointer_ok _ _ _ Ei), bind_ok.
  destruct p as [a|].
  2:{ rewrite (contents_lookup _ _ _ Ei) in Hx. injection Hx as <-. cbn in Hk. lia. }
  destruct (pointer_cases i a s S Ei) as (rc & b & E & Hb & Hc & Hx' & _ & _).
  rewrite Hx in Hx'. injection Hx' as ->. rewrite (get_object_ok _ _ _ _ E), bind_ok.
  rewrite length_bytes in Hk by done.
  apply (clone_and_change i a _ rc b); [lia|done|done|done|]. intros b1 Hb1 E1.
  assert (Hk1 : (k < size_ b1)%nat) by (rewrite <- (length_bytes b1), E1, length_bytes by done; done).
  pose proof Hb1 as [L1 F1]. rewrite wr_ok, bind_ok by lia.
  eexists. split; [done|]. split; [|split; [|done]].
  - constructor; cbn [data_ capacity_ size_]; [by rewrite length_insert|done].
  - rewrite <- E1. unfold bytes. cbn [data_ size_]. by apply take_insert_lt.
Qed.

(** ** Pointers that move between buffers *)

Lemma copy_assign_spec i j x s :
  store_ok s -> (i < length (vars s))%nat -> contents s !! j = Some x ->
  exists s', copy_assign i j s = Ok s' /\ wrote_buffer i x s s'.
Proof.
  intros S Hi Hx.
  assert (Hj : (j < length (vars s))%nat)
    by (rewrite <- contents_length; by eapply lookup_lt_Some).
  unfold copy_assign. rewrite !IsConsistent_ok, !bind_ok by done.
  destruct (Nat.eqb_spec i j) as [->|Hne].
  - exists s. split; [done|]. split; [done|]. split; [done|]. symmetry. by apply contents_same.
  - destruct (lookup_lt_is_Some_2 (vars s) j Hj) as [p Ej]. rewrite (pointer_ok _ _ _ Ej), bind_ok.
    destruct (assign_shared_spec i j p s S Hi Ej) as (s' & -> & S' & V & C).
    rewrite (contents_lookup _ _ _ Ej) in Hx. injection Hx as <-.
    exists s'. split; [done|]. split; [done|]. split; [by rewrite V, length_insert|done].
Qed.

(** Exchanging the pointers of two variables. *)
Definition exchanged (i j : nat) (v : list (option nat)) (p q : option nat) : list (option nat) :=
  <[j := p]> (<[i := q]> v).

Lemma refs_exchanged a i j v p q :
  v !! i = Some p -> v !! j = Some q -> refs a (exchanged i j v p q) = refs a v.
Proof.
  intros Ei Ej. unfold exchanged. pose proof (refs_insert a v i p q Ei) as H1.
  destruct (decide (i = j)) as [->|Hne].
  - rewrite Ei in Ej. injection Ej as ->. rewrite list_insert_insert_eq, list_insert_id; done.
  - assert (Ej' : <[i := q]> v !! j = Some q) by by rewrite list_lookup_insert_ne.
    pose proof (refs_insert a _ j q p Ej') as H2. lia.
Qed.

Lemma refs_pos_inv a v : (0 < refs a v)%nat -> exists j, v !! j = Some (Some a).
Proof.
  induction v as [|p v IH]; [cbn; lia|]. rewrite refs_cons. intros H.
  destruct (decide (p = Some a)) as [->|Hne]; [by exists 0%nat|].
  rewrite is_ref_other in H by done. destruct (IH H) as [j Ej]. by exists (S j).
Qed.

(** References that are moved leave the counters right. *)
Lemma counted_moved d s v :
  store_ok s -> (forall a, (refs a v + is_ref a d)%nat = refs a (vars s)) ->
  counted d (MkStore (heap s) v).
Proof.
  intros [C P] Hr. constructor; cbn [heap vars].
  - intros i a Ei. pose proof (refs_pos a v i Ei) as Hp. specialize (Hr a).
    destruct (refs_pos_inv a (vars s)) as [j Ej]; [lia|]. exact (ct_live _ _ C j a Ej).
  - intros a rc b E. rewrite Hr, (ct_count _ _ C _ _ _ E), (is_ref_other a None) by done. lia.
  - exact (ct_buffer _ _ C).
Qed.

Lemma cow_swap_spec i j x y s :
  store_ok s -> contents s !! i = Some x -> contents s !! j = Some y ->
  exists s', cow_swap i j s = Ok s' /\ store_ok s' /\ length (vars s') = length (vars s) /\
    contents s' = <[j := x]> (<[i := y]> (contents s)).
Proof.
  intros S Hx Hy. pose proof (lookup_lt_Some _ _ _ Hx) as Hi. pose proof (lookup_lt_Some _ _ _ Hy) as Hj.
  rewrite contents_length in Hi, Hj.
  destruct (lookup_lt_is_Some_2 (vars s) i Hi) as [p Ei].
  destruct (lookup_lt_is_Some_2 (vars s) j Hj) as [q Ej].
  unfold cow_swap. rewrite (pointer_ok _ _ _ Ei), (pointer_ok _ _ _ Ej), !bind_ok.
  rewrite wr_ok, bind_ok by done. rewrite wr_ok, bind_ok by (by rewrite length_insert).
  fold (exchanged i j (vars s) p q). eexists. split; [done|]. split; [split|split].
  - apply counted_moved; [done|]. intros a. rewrite refs_exchanged, is_ref_other by done. lia.
  - intros a rc b E. cbn [heap] in E. by apply (store_pos s a rc b).
  - cbn [vars]. unfold exchanged. by rewrite !length_insert.
  - rewrite (contents_lookup _ _ _ Ei) in Hx. rewrite (contents_lookup _ _ _ Ej) in Hy.
    injection Hx as <-. injection Hy as <-. unfold contents, exchanged. cbn [heap vars].
    by rewrite !list_fmap_insert.
Qed.

(** The temporary holds the reference that [j] gives up. *)
Lemma move_assign_spec i j x s :
  store_ok s -> (i < length (vars s))%nat -> contents s !! j = Some x ->
  exists s', move_assign i j s = Ok s' /\ store_ok s' /\ length (vars s') = length (vars s) /\
    contents s' = <[i := x]> (<[j := []]> (contents s)).
Proof.
  intros S Hi Hx. pose proof (lookup_lt_Some _ _ _ Hx) as Hj. rewrite contents_length in Hj.
  destruct (lookup_lt_is_Some_2 (vars s) j Hj) as [p Ej].
  unfold move_assign. rewrite !IsConsistent_ok, !bind_ok by done.
  rewrite (pointer_ok _ _ _ Ej), bind_ok, wr_ok, bind_ok by done.
  set (v := <[j := None]> (vars s)).
  assert (Lv : length v = length (vars s)) by apply length_insert.
  destruct (lookup_lt_is_Some_2 v i ltac:(lia)) as [old Ei].
  rewrite (rd_Some _ _ _ Ei), bind_ok, wr_ok, bind_ok by lia.
  assert (C : counted p (MkStore (heap s) v)).
  { apply counted_moved; [done|]. intros a. pose proof (refs_insert a (vars s) j p None Ej) as H.
    rewrite (is_ref_other a None) in H by done. fold v in H. lia. }
  destruct (Release_spec p i old _ C Ei) as (h & Eh & S' & Lh & Oh).
  - intros a ->. exact (live_objects _ _ j a (proj1 S) Ej).
  - cbn [heap]. intros a rc b. by apply (store_pos s).
  - cbn [heap vars] in *. rewrite Eh, bind_ok. eexists. split; [done|]. split; [done|].
    split; [cbn [vars]; by rewrite length_insert|].
    pose proof (contents_assigned (MkStore (heap s) v) h i p) as Cs. cbn [heap vars] in Cs.
    rewrite Cs; [|intros k a; exact (live_objects _ _ k a (proj1 S'))|done].
    rewrite (contents_lookup _ _ _ Ej) in Hx. injection Hx as <-. f_equal.
    unfold contents, v. cbn [heap vars]. by rewrite list_fmap_insert.
Qed.

Lemma cow_destroy_eq i s :
  (i < length (vars s))%nat -> cow_destroy i s = assign_ptr i None s.
Proof.
  intros Hi. destruct (lookup_lt_is_Some_2 (vars s) i Hi) as [p Ei].
  unfold cow_destroy, assign_ptr. by rewrite (pointer_ok _ _ _ Ei), (rd_Some _ _ _ Ei), !bind_ok.
Qed.

Lemma construct_spec i d n s :
  store_ok s -> vars s !! i = Some None ->
  exists s', construct i d (length d) n s = Ok s' /\ wrote_buffer i d s s'.
Proof.
  intros S Ei. pose proof (lookup_lt_Some _ _ _ Ei) as Hi.
  unfold construct, construct_sized. destruct ((0 <? length d)%nat || (0 <? n)%nat) eqn:Hn.
  2:{ apply orb_false_iff in Hn as [Hd _]. destruct d; [|done].
      rewrite bind_ok, IsConsistent_ok, bind_ok, bind_ok, (pointer_ok _ _ _ Ei), bind_ok by done.
      exists s. split; [done|]. split; [done|]. split; [done|]. symmetry. apply contents_same.
      by rewrite (contents_lookup _ _ _ Ei). }
  apply orb_true_iff in Hn. rewrite !Nat.ltb_lt in Hn. set (b := Buffer_new (length d) n).
  pose proof (Buffer_new_ok (length d) n) as Hb. fold b in Hb.
  destruct (assign_new_spec i b s S Hi Hb ltac:(cbn; lia)) as (s1 & -> & S1 & O1 & L1 & C1).
  rewrite bind_ok, IsConsistent_ok, bind_ok, bind_ok by (done || lia).
  set (f := fun b => xs ← fetch (length d) 0 d; d ← put 0 xs (data_ b); Ok (MkBuf (size_ b) (capacity_ b) d)).
  set (b' := MkBuf (length d) (max (length d) n) (d ++ drop (length d) (data_ b))).
  assert (Lb : length (data_ b) = max (length d) n) by apply length_replicate.
  assert (Ef : f b = Ok b').
  { unfold f. rewrite fetch_prefix, bind_ok, take_ge by done.
    rewrite (put_splice (A := cell)), bind_ok by lia. done. }
  assert (Hb' : buffer_ok b').
  { constructor; cbn [data_ capacity_ size_ b']; [|lia]. rewrite length_app, length_drop. lia. }
  assert (Eb : bytes b' = d) by (unfold bytes; cbn [size_ data_ b']; by rewrite take_app_length).
  destruct (on_buffer_wrote i b b' d f s1 S1 O1 Ef Hb' ltac:(cbn; lia) Eb) as (s' & E & W).
  exists s'. split; [|apply (wrote_overwritten _ (bytes b) _ s1); [done|done|exact W]].
  unfold on_buffer in E. destruct O1 as (a & Ea & _).
  by rewrite (pointer_ok _ _ _ Ea), bind_ok in E |- *.
Qed.

Lemma replace_buffer_spec i d n s :
  store_ok s -> (i < length (vars s))%nat ->
  exists s', replace_buffer i d n s = Ok s' /\ wrote_buffer i d s s'.
Proof.
  intros S Hi. unfold replace_buffer. rewrite cow_destroy_eq by done.
  destruct (assign_null_spec i s S Hi) as (s1 & -> & S1 & V & C1). rewrite bind_ok.
  destruct (construct_spec i d n s1 S1) as (s' & E & W).
  { rewrite V. by apply list_lookup_insert_eq. }
  exists s'. split; [done|]. apply (wrote_overwritten _ [] _ s1); [done| |done].
  by rewrite V, length_insert.
Qed.

(** Appending another buffer: the bytes are those of its object. *)
Lemma append_buffer_spec i j x y s :
  store_ok s -> contents s !! i = Some x -> contents s !! j = Some y -> i <> j -> x ++ y <> [] ->
  exists s', append_buffer i j s = Ok s' /\ wrote_buffer i (x ++ y) s s'.
Proof.
  intros S Hx Hy Hij Hne. pose proof (lookup_lt_Some _ _ _ Hy) as Hj. rewrite contents_length in Hj.
  unfold append_buffer. rewrite IsConsistent_ok, bind_ok by done.
  assert (Hnull : vars s !! i = Some None -> y <> []).
  { intros Ei ->. rewrite (contents_lookup _ _ _ Ei) in Hx. by injection Hx as <-. }
  destruct (lookup_lt_is_Some_2 (vars s) j Hj) as [q Ej]. rewrite (pointer_ok _ _ _ Ej), bind_ok.
  destruct q as [a|].
  - destruct (pointer_cases j a s S Ej) as (rc & b & E & Hb & Hc & Hy' & _ & _).
    rewrite Hy in Hy'. injection Hy' as ->. rewrite (get_object_ok _ _ _ _ E), bind_ok.
    rewrite (proj2 (Nat.eqb_neq i j) Hij). cbn [andb]. pose proof Hb as [Lb Fb].
    apply (AppendData_spec i (data_ b) (size_ b) x s S Hx); [lia|].
    intros Ei Hz. pose proof (length_bytes b Hb). apply (Hnull Ei). destruct (bytes b); [done|cbn in *; lia].
  - rewrite (contents_lookup _ _ _ Ej) in Hy. injection Hy as <-. cbn [value] in *.
    apply (AppendData_spec i [] 0 x s S Hx); [cbn; lia|]. intros Ei. by specialize (Hnull Ei).
Qed.

(** ** The machine *)

(** What the methods ask of the buffer they are called on: an index in range, bytes to
    append unless there are some already, and another buffer to append. *)
Definition op_ok (o : op) (c : list (list cell)) : bool :=
  match o with
  | OpReplace i _ _ | OpSetData i _ | OpSetSize i _ | OpEnsureCapacity i _ | OpClear i => (i <? length c)%nat
  | OpAppendData i d =>
      match c !! i with Some x => (0 <? length (x ++ d))%nat | None => false end
  | OpWrite i k _ => match c !! i with Some x => (k <? length x)%nat | None => false end
  | OpCopy i j | OpMove i j | OpSwap i j => (i <? length c)%nat && (j <? length c)%nat
  | OpAppendBuffer i j =>
      match c !! i, c !! j with
      | Some x, Some y => negb (i =? j)%nat && (0 <? length (x ++ y))%nat
      | _, _ => false
      end
  end.

Lemma in_range i s : (i <? length (contents s))%nat = true ->
  (i < length (vars s))%nat /\ exists x, contents s !! i = Some x.
Proof.
  intros H. apply Nat.ltb_lt in H. split; [by rewrite <- contents_length|].
  by apply lookup_lt_is_Some_2.
Qed.

Lemma not_empty {A} (x : list A) : (0 <? length x)%nat = true -> x <> [].
Proof. by destruct x. Qed.

(** What a step leaves. *)
Definition met (o : op) (s : store) : Prop :=
  exists s', run_op o s = Ok s' /\ store_ok s' /\ length (vars s') = length (vars s) /\
    spec_op o (contents s) (contents s').

Lemma met_wrote o i x s :
  (exists s', run_op o s = Ok s' /\ wrote_buffer i x s s') ->
  spec_op o (contents s) (<[i := x]> (contents s)) -> met o s.
Proof. intros (s' & E & S & L & C) H. exists s'. by rewrite C. Qed.

Lemma run_op_met o s : store_ok s -> op_ok o (contents s) = true -> met o s.
Proof.
  intros S. destruct o as [i d n|i d|i d|i n|i n|i|i k v|i j|i j|i j|i j]; cbn [op_ok]; intros H.
  - destruct (in_range i s H) as [Hi _].
    apply (met_wrote _ i d); [by apply replace_buffer_spec|constructor].
  - destruct (in_range i s H) as [Hi _]. apply (met_wrote _ i d); [by apply SetData_spec|constructor].
  - destruct (contents s !! i) as [x|] eqn:Hx; [|done]. apply not_empty in H.
    apply (met_wrote _ i (x ++ d)); [|by constructor].
    pose proof (AppendData_spec i d (length d) x s S Hx (le_n _)) as HA.
    rewrite (take_ge d (length d)) in HA by done. apply HA. intros Ei. rewrite (contents_lookup _ _ _ Ei) in Hx.
    injection Hx as <-. by destruct d.
  - destruct (in_range i s H) as [_ [x Hx]]. by apply (SetSize_meets i n x).
  - destruct (in_range i s H) as [_ [x Hx]]. apply (met_wrote _ i x).
    + by apply EnsureCapacity_meets.
    + rewrite contents_same by done. constructor.
  - destruct (in_range i s H) as [Hi _]. apply (met_wrote _ i []); [by apply cow_Clear_spec|constructor].
  - destruct (contents s !! i) as [x|] eqn:Hx; [|done]. apply Nat.ltb_lt in H.
    apply (met_wrote _ i (<[k := Some v]> x)); [by apply write_index_spec|by constructor].
  - apply andb_true_iff in H as [Hi Hj]. destruct (in_range i s Hi) as [Hi' _].
    destruct (in_range j s Hj) as [_ [x Hx]].
    apply (met_wrote _ i x); [by apply copy_assign_spec|by apply (spec_copy _ j)].
  - apply andb_true_iff in H as [Hi Hj]. destruct (in_range i s Hi) as [Hi' _].
    destruct (in_range j s Hj) as [_ [x Hx]].
    destruct (move_assign_spec i j x s S Hi' Hx) as (s' & E & S' & L & C).
    exists s'. rewrite C. split_and!; [done..|by apply spec_move].
  - apply andb_true_iff in H as [Hi Hj]. destruct (in_range i s Hi) as [_ [x Hx]].
    destruct (in_range j s Hj) as [_ [y Hy]].
    destruct (cow_swap_spec i j x y s S Hx Hy) as (s' & E & S' & L & C).
    exists s'. rewrite C. split_and!; [done..|by apply spec_swap].
  - destruct (contents s !! i) as [x|] eqn:Hx; [|done].
    destruct (contents s !! j) as [y|] eqn:Hy; [|done]. apply andb_true_iff in H as [Hn H].
    apply negb_true_iff, Nat.eqb_neq in Hn. apply not_empty in H.
    apply (met_wrote _ i (x ++ y)); [by apply append_buffer_spec|by apply (spec_append_buffer _ j)].
Qed.

Fixpoint run_ops (ops : list op) (s : store) : res store :=
  match ops with [] => Ok s | o :: ops => s ← run_op o s; run_ops ops s end.

(** [n] buffers that have just been constructed. *)
Definition initial (n : nat) : store := MkStore [] (replicate n None).

Lemma initial_ok n : store_ok (initial n) /\ contents (initial n) = replicate n [].
Proof.
  split; [split; [constructor|]|]; cbn.
  - intros i a E. apply lookup_replicate in E as [E _]. done.
  - intros a rc b E. by rewrite lookup_nil in E.
  - intros a rc b E. by rewrite lookup_nil in E.
  - intros a rc b E. by rewrite lookup_nil in E.
  - unfold contents, initial. cbn [heap vars]. induction n as [|n IH]; [done|]. cbn. by f_equal.
Qed.

(** Sequences of calls, on the contents. *)
Inductive spec_ops : list op -> list (list cell) -> list (list cell) -> Prop :=
| spec_nil c : spec_ops [] c c
| spec_cons o ops c c' c'' : spec_op o c c' -> spec_ops ops c' c'' -> spec_ops (o :: ops) c c''.

(** Whatever the new elements of the buffers are, the calls may be made. *)
Fixpoint allowed (ops : list op) (c : list (list cell)) : Prop :=
  match ops with
  | [] => True
  | o :: ops => op_ok o c = true /\ forall c', spec_op o c c' -> allowed ops c'
  end.

Lemma run_ops_met ops s :
  store_ok s -> allowed ops (contents s) ->
  exists s', run_ops ops s = Ok s' /\ store_ok s' /\ length (vars s') = length (vars s) /\
    spec_ops ops (contents s) (contents s').
Proof.
  revert s. induction ops as [|o ops IH]; intros s S; cbn [allowed run_ops].
  - intros _. exists s. split_and!; try done. constructor.
  - intros [H Hn]. destruct (run_op_met o s S H) as (s1 & -> & S1 & L1 & M1). rewrite bind_ok.
    destruct (IH s1 S1 (Hn _ M1)) as (s' & E & S' & L' & M').
    exists s'. split_and!; [done|done|lia|by econstructor].
Qed.

Lemma cow_view_spec i x s :
  store_ok s -> contents s !! i = Some x ->
  exists cap data, cow_view i s = Ok (length x, cap, data) /\ take (length x) data = x.
Proof.
  intros S Hx. pose proof (lookup_lt_Some _ _ _ Hx) as Hi. rewrite contents_length in Hi.
  unfold cow_view. rewrite IsConsistent_ok, bind_ok by done.
  destruct (lookup_lt_is_Some_2 (vars s) i Hi) as [p Ei]. rewrite (pointer_ok _ _ _ Ei), bind_ok.
  destruct p as [a|].
  - destruct (pointer_cases i a s S Ei) as (rc & b & E & Hb & Hc & Hx' & _ & _).
    rewrite Hx in Hx'. injection Hx' as ->. rewrite (get_object_ok _ _ _ _ E), bind_ok.
    exists (capacity_ b), (data_ b). by rewrite length_bytes.
  - rewrite (contents_lookup _ _ _ Ei) in Hx. injection Hx as <-. by exists 0%nat, [].
Qed.

(** C28: any sequence of allowed calls on copy-on-write buffers acts as if every buffer had
    memory of its own.  All calls on existing buffers and bytes are allowed but two:
    appending nothing to a buffer that is empty ([append_nothing]) and appending a buffer to itself
    ([append_itself]).  A call changes the contents of the buffer it is made on as
    documented, and of no other, although copies share memory.  No call reads or
    frees memory that has been freed, no consistency check fails, and at the end the
    counter of every object still alive is the number of buffers that hold it. *)
Theorem copy_on_write n ops :
  allowed ops (replicate n []) ->
  exists s c, run_ops ops (initial n) = Ok s /\ spec_ops ops (replicate n []) c /\
    length c = n /\
    (forall i x, c !! i = Some x ->
       exists cap data, cow_view i s = Ok (length x, cap, data) /\ take (length x) data = x) /\
    (forall a rc b, heap s !! a = Some (Some (rc, b)) ->
       rc = length (filter (fun p => p = Some a) (vars s)) /\ (0 < rc)%nat).
Proof.
  destruct (initial_ok n) as [S0 C0]. rewrite <- C0. intros H.
  destruct (run_ops_met ops _ S0 H) as (s & E & S & L & M).
  exists s, (contents s). split; [done|]. split; [done|]. split; [|split].
  - rewrite contents_length, L. apply length_replicate.
  - intros i x Hx. by apply cow_view_spec.
  - intros a rc b Eo. pose proof (ct_count _ _ (proj1 S) _ _ _ Eo) as Er.
    rewrite is_ref_other in Er by done. split; [unfold refs in Er; lia|by apply (store_pos s a rc b)].
Qed.

(** A buffer, a copy of it, and a change of the copy. *)
Lemma copy_on_write_witness :
  let ops := [OpSetData 0 [Some 1; Some 2]; OpCopy 1 0; OpWrite 1 0 7; OpAppendBuffer 0 1;
              OpMove 2 1; OpClear 1; OpReplace 0 [] 4] in
  allowed ops (replicate 3 []) /\
  exists s c, run_ops ops (initial 3) = Ok s /\ spec_ops ops (replicate 3 []) c /\ length c = 3%nat /\
    (forall i x, c !! i = Some x ->
       exists cap data, cow_view i s = Ok (length x, cap, data) /\ take (length x) data = x) /\
    (forall a rc b, heap s !! a = Some (Some (rc, b)) ->
       rc = length (filter (fun p => p = Some a) (vars s)) /\ (0 < rc)%nat).
Proof.
  intros ops.
  assert (A : allowed ops (replicate 3 [])).
  { repeat (split; [vm_compute; reflexivity|]; intros ? H; inversion H; subst; clear H;
            repeat match goal with E : _ !! _ = Some _ |- _ => vm_compute in E; injection E as <- end).
    exact I. }
  split; [exact A|]. exact (copy_on_write 3 ops A).
Defined.

(** Appending no bytes to a buffer without memory leaves one without capacity, and the
    check at the end of the method fails. *)
Example append_nothing : AppendData 0 [] 0 (initial 1) = Fault AssertionFailed.
Proof. reflexivity. Qed.

(** A buffer appended to itself: the bytes are read where the old memory was. *)
Example append_itself :
  (s ← SetData 0 [Some 1] 1 (initial 1); append_buffer 0 0 s) = Fault UseAfterFree.
Proof. reflexivity. Qed.

(** Two buffers of size 0 that [operator==] distinguishes. *)
Example empty_buffers_differ :
  (s ← SetData 0 [Some 1] 1 (initial 2); s ← Clear 0 s;
   v ← cow_view 0 s; w ← cow_view 1 s; e ← cow_eq 0 1 s; Ok (fst (fst v), fst (fst w), e))
  = Ok (0%nat, 0%nat, false).
Proof. reflexivity. Qed.
