(* ===== verification/ByteOrder.v ===== *)
(** * Byte order

    [base/byteorder.h]: numbers of 16, 32 and 64 bits in memory, in either order, on a host of either
    order.  Memory is a list of bytes, suitably aligned. *)
From S2P Require Import Prelude CInt AudioUtil ChannelBuffer.

(** The host. *)
Class Endianness := IsHostBigEndian : bool.

(** The [n] bytes of a number, the lowest first, and their number. *)
Fixpoint le_bytes (n : nat) (v : Z) : list Z :=
  match n with O => [] | S n => v mod 256 :: le_bytes n (v / 256) end.
Fixpoint le_value (l : list Z) : Z :=
  match l with [] => 0 | b :: l => b + 256 * le_value l end.
Definition be_bytes (n : nat) (v : Z) : list Z := rev (le_bytes n v).
Definition be_value (l : list Z) : Z := le_value (rev l).

Section Host.
Context `{Endianness}.

(** What a host keeps of a number in memory, and reads from there. *)
Definition host_bytes (n : nat) (v : Z) : list Z :=
  if IsHostBigEndian then be_bytes n v else le_bytes n v.
Definition host_value (l : list Z) : Z :=
  if IsHostBigEndian then be_value l else le_value l.

(** [htobe16], [be16toh] and the like exchange the bytes unless the host has the order. *)
Definition bswap (n : nat) (v : Z) : Z := le_value (be_bytes n v).
Definition htobe (n : nat) (v : Z) : Z := if IsHostBigEndian then v else bswap n v.
Definition htole (n : nat) (v : Z) : Z := if IsHostBigEndian then bswap n v else v.

Definition Set8 (memory : list Z) (offset : nat) (v : Z) : res (list Z) := wr memory (Z.of_nat offset) v.
Definition Get8 (memory : list Z) (offset : nat) : res Z := rd memory (Z.of_nat offset).

Definition store_number (n : nat) (memory : list Z) (v : Z) : res (list Z) := put 0 (host_bytes n v) memory.
Definition load_number (n : nat) (memory : list Z) : res Z := xs ← fetch n 0 memory; Ok (host_value xs).

Definition SetBE16 (memory : list Z) (v : Z) : res (list Z) := store_number 2 memory (htobe 2 v).
Definition SetBE32 (memory : list Z) (v : Z) : res (list Z) := store_number 4 memory (htobe 4 v).
Definition SetBE64 (memory : list Z) (v : Z) : res (list Z) := store_number 8 memory (htobe 8 v).
Definition GetBE16 (memory : list Z) : res Z := v ← load_number 2 memory; Ok (htobe 2 v).
Definition GetBE32 (memory : list Z) : res Z := v ← load_number 4 memory; Ok (htobe 4 v).
Definition GetBE64 (memory : list Z) : res Z := v ← load_number 8 memory; Ok (htobe 8 v).
Definition SetLE16 (memory : list Z) (v : Z) : res (list Z) := store_number 2 memory (htole 2 v).
Definition SetLE32 (memory : list Z) (v : Z) : res (list Z) := store_number 4 memory (htole 4 v).
Definition SetLE64 (memory : list Z) (v : Z) : res (list Z) := store_number 8 memory (htole 8 v).
Definition GetLE16 (memory : list Z) : res Z := v ← load_number 2 memory; Ok (htole 2 v).
Definition GetLE32 (memory : list Z) : res Z := v ← load_number 4 memory; Ok (htole 4 v).
Definition GetLE64 (memory : list Z) : res Z := v ← load_number 8 memory; Ok (htole 8 v).

Definition HostToNetwork16 (n : Z) : Z := htobe 2 n.
Definition HostToNetwork32 (n : Z) : Z := htobe 4 n.
Definition HostToNetwork64 (n : Z) : Z := htobe 8 n.
Definition NetworkToHost16 (n : Z) : Z := htobe 2 n.
Definition NetworkToHost32 (n : Z) : Z := htobe 4 n.
Definition NetworkToHost64 (n : Z) : Z := htobe 8 n.

End Host.

(** ** Bytes and numbers *)

Definition octet (b : Z) : Prop := 0 <= b < 256.

Lemma le_bytes_length n : forall v, length (le_bytes n v) = n.
Proof. induction n as [|n IH]; intros v; cbn [le_bytes length]; [done|by rewrite IH]. Qed.

Lemma le_bytes_bytes n : forall v, Forall octet (le_bytes n v).
Proof.
  induction n as [|n IH]; intros v; [apply List.Forall_nil|].
  apply List.Forall_cons; [unfold octet; apply Z.mod_pos_bound; lia|apply IH].
Qed.

Lemma le_read n : forall v, 0 <= v < 256 ^ Z.of_nat n -> le_value (le_bytes n v) = v.
Proof.
  induction n as [|n IH]; intros v Hv; cbn [le_bytes le_value].
  - change (256 ^ Z.of_nat 0) with 1 in Hv. lia.
  - rewrite Nat2Z.inj_succ, Z.pow_succ_r in Hv by lia.
    rewrite IH by (split; [apply Z.div_pos; lia|apply Z.div_lt_upper_bound; lia]).
    pose proof (Z.div_mod v 256). lia.
Qed.

Lemma le_written l : Forall octet l -> le_bytes (length l) (le_value l) = l.
Proof.
  induction 1 as [|b l Hb Hl IH]; [done|]. cbn [length le_bytes le_value]. unfold octet in Hb.
  rewrite (Z.mul_comm 256), Z.mod_add, Z.mod_small by lia.
  rewrite Z.div_add, Z.div_small, Z.add_0_l by lia. by rewrite IH.
Qed.

Lemma le_value_range l : Forall octet l -> 0 <= le_value l < 256 ^ Z.of_nat (length l).
Proof.
  induction 1 as [|b l Hb Hl IH]; [done|]. cbn [length le_value]. unfold octet in Hb.
  rewrite Nat2Z.inj_succ, Z.pow_succ_r by lia. lia.
Qed.

Lemma be_read n v : 0 <= v < 256 ^ Z.of_nat n -> be_value (be_bytes n v) = v.
Proof. intros Hv. unfold be_value, be_bytes. rewrite rev_involutive. by apply le_read. Qed.

Lemma be_bytes_length n v : length (be_bytes n v) = n.
Proof. unfold be_bytes. by rewrite length_rev, le_bytes_length. Qed.

Lemma be_bytes_bytes n v : Forall octet (be_bytes n v).
Proof. unfold be_bytes. apply List.Forall_rev, le_bytes_bytes. Qed.

Lemma bswap_range n v : 0 <= bswap n v < 256 ^ Z.of_nat n.
Proof.
  pose proof (le_value_range _ (be_bytes_bytes n v)) as H. by rewrite be_bytes_length in H.
Qed.

Lemma bswap_bytes n v : le_bytes n (bswap n v) = be_bytes n v.
Proof.
  pose proof (le_written _ (be_bytes_bytes n v)) as H. by rewrite be_bytes_length in H.
Qed.

Lemma bswap_involutive n v : 0 <= v < 256 ^ Z.of_nat n -> bswap n (bswap n v) = v.
Proof.
  intros Hv. unfold bswap at 1, be_bytes. rewrite bswap_bytes. unfold be_bytes. rewrite rev_involutive. by apply le_read.
Qed.

(** ** Memory has the order that the names of the functions say, on every host *)

Section Hosts.
Context `{Endianness}.

Lemma host_be n v : host_bytes n (htobe n v) = be_bytes n v.
Proof. unfold host_bytes, htobe. destruct IsHostBigEndian; [done|apply bswap_bytes]. Qed.

Lemma host_le n v : 0 <= v < 256 ^ Z.of_nat n -> host_bytes n (htole n v) = le_bytes n v.
Proof.
  intros Hv. unfold host_bytes, htole. destruct IsHostBigEndian; [|done].
  unfold be_bytes. rewrite bswap_bytes. unfold be_bytes. apply rev_involutive.
Qed.

Lemma host_be_value l : Forall octet l -> htobe (length l) (host_value l) = be_value l.
Proof.
  intros Hl. unfold host_value, htobe. destruct IsHostBigEndian; [done|].
  unfold bswap, be_bytes, be_value. by rewrite le_written.
Qed.

Lemma host_le_value l : Forall octet l -> htole (length l) (host_value l) = le_value l.
Proof.
  intros Hl. unfold host_value, htole. destruct IsHostBigEndian; [|done].
  unfold bswap, be_bytes, be_value. rewrite <- (length_rev l) at 1.
  rewrite le_written by (by apply List.Forall_rev). by rewrite rev_involutive.
Qed.

(** What [SetBE] writes. *)
Lemma set_be n memory v : (n <= length memory)%nat ->
  store_number n memory (htobe n v) = Ok (be_bytes n v ++ drop n memory).
Proof.
  intros Hn. unfold store_number. rewrite host_be, put_splice by (rewrite be_bytes_length; lia).
  by rewrite take_0, be_bytes_length.
Qed.

Lemma set_le n memory v : (n <= length memory)%nat -> 0 <= v < 256 ^ Z.of_nat n ->
  store_number n memory (htole n v) = Ok (le_bytes n v ++ drop n memory).
Proof.
  intros Hn Hv. unfold store_number. rewrite host_le, put_splice by (rewrite ?le_bytes_length; lia).
  by rewrite take_0, le_bytes_length.
Qed.

(** What [GetBE] reads. *)
Lemma get_be n bytes memory : length bytes = n -> Forall octet bytes ->
  (v ← load_number n (bytes ++ memory); Ok (htobe n v)) = Ok (be_value bytes).
Proof.
  intros <- Hb. unfold load_number. rewrite fetch_ok by (rewrite length_app; lia).
  unfold view. rewrite drop_0, take_app_length, !bind_ok. by rewrite host_be_value.
Qed.

Lemma get_le n bytes memory : length bytes = n -> Forall octet bytes ->
  (v ← load_number n (bytes ++ memory); Ok (htole n v)) = Ok (le_value bytes).
Proof.
  intros <- Hb. unfold load_number. rewrite fetch_ok by (rewrite length_app; lia).
  unfold view. rewrite drop_0, take_app_length, !bind_ok. by rewrite host_le_value.
Qed.

(** What is set is what is read, on every host, and [NetworkToHost] undoes [HostToNetwork]. *)
Lemma GetBE16_SetBE16 memory v : (2 <= length memory)%nat -> 0 <= v < 2 ^ 16 ->
  (m ← SetBE16 memory v; GetBE16 m) = Ok v.
Proof.
  intros Hm Hv. unfold SetBE16, GetBE16. rewrite set_be, bind_ok by done.
  rewrite get_be by (apply be_bytes_length || apply be_bytes_bytes). by rewrite be_read.
Qed.

Lemma GetBE32_SetBE32 memory v : (4 <= length memory)%nat -> 0 <= v < 2 ^ 32 ->
  (m ← SetBE32 memory v; GetBE32 m) = Ok v.
Proof.
  intros Hm Hv. unfold SetBE32, GetBE32. rewrite set_be, bind_ok by done.
  rewrite get_be by (apply be_bytes_length || apply be_bytes_bytes). by rewrite be_read.
Qed.

Lemma GetLE64_SetLE64 memory v : (8 <= length memory)%nat -> 0 <= v < 2 ^ 64 ->
  (m ← SetLE64 memory v; GetLE64 m) = Ok v.
Proof.
  intros Hm Hv. unfold SetLE64, GetLE64. rewrite set_le, bind_ok by done.
  rewrite get_le by (apply le_bytes_length || apply le_bytes_bytes). by rewrite le_read.
Qed.

Lemma NetworkToHost_HostToNetwork n v : 0 <= v < 256 ^ Z.of_nat n -> htobe n (htobe n v) = v.
Proof. intros Hv. unfold htobe. destruct IsHostBigEndian; [done|by apply bswap_involutive]. Qed.

End Hosts.

Example big_endian_number :
  SetBE32 (H := false) [0; 0; 0; 0; 9] 16909060 = Ok [1; 2; 3; 4; 9] /\
  SetBE32 (H := true) [0; 0; 0; 0; 9] 16909060 = Ok [1; 2; 3; 4; 9].
Proof. split; vm_compute; reflexivity. Qed.
