(* ===== verification/TcpSocket.v ===== *)
(** * Packets over a stream

    [base/asynctcpsocket.{h,cc}]: packets are sent over a stream socket with their length in front, and
    what cannot be sent at once is dropped or kept.  The stream socket is not part of the
    program: a call of its [Send] takes as many bytes from the front as it returns, a call of
    its [Recv] delivers bytes in their order, at most as many as there is room for.  Addresses,
    options, connections and the information for packet options are not modelled. *)
From S2P Require Import Prelude CInt AudioUtil ChannelBuffer CowBuffer ByteOrder.

Definition kMaxPacketSize : nat := Z.to_nat (64 * 1024).
Definition kPacketLenSize : nat := 2.
Definition kBufSize : nat := kMaxPacketSize + kPacketLenSize.
Definition kMinimumRecvSize : nat := 128.

Record AsyncTCPSocket := MkTcp {
  listen_ : bool; inbuf_ : Buffer; outbuf_ : Buffer; max_insize_ : nat; max_outsize_ : nat }.

Definition with_inbuf (t : AsyncTCPSocket) (b : Buffer) : AsyncTCPSocket :=
  MkTcp (listen_ t) b (outbuf_ t) (max_insize_ t) (max_outsize_ t).
Definition with_outbuf (t : AsyncTCPSocket) (b : Buffer) : AsyncTCPSocket :=
  MkTcp (listen_ t) (inbuf_ t) b (max_insize_ t) (max_outsize_ t).

Definition AsyncTCPSocketBase_new (listen : bool) (max_packet_size : nat) : res AsyncTCPSocket :=
  let inbuf := Buffer_new 0 0 in
  inbuf ← (if negb listen then Buffer_EnsureCapacity inbuf kMinimumRecvSize else Ok inbuf);
  Ok (MkTcp listen inbuf (Buffer_new 0 0) max_packet_size max_packet_size).
Definition AsyncTCPSocket_new (listen : bool) : res AsyncTCPSocket := AsyncTCPSocketBase_new listen kBufSize.

(** ** Sending *)

(** [socket_->Send] returns [sent]; the bytes that go into the stream, and the value returned. *)
Definition FlushOutBuffer (t : AsyncTCPSocket) (sent : Z) : res (Z * list Z * AsyncTCPSocket) :=
  if listen_ t then Fault AssertionFailed else
  let b := outbuf_ t in
  xs ← fetch (size_ b) 0 (data_ b);
  data ← written xs;
  if sent <=? 0 then Ok (sent, [], t) else
  if Z.of_nat (size_ b) <? sent then Fault AssertionFailed else
  let new_size := (size_ b - Z.to_nat sent)%nat in
  d ← (if (0 <? new_size)%nat then xs ← fetch new_size (Z.to_nat sent) (data_ b); put 0 xs (data_ b)
       else Ok (data_ b));
  b ← Buffer_SetSize (MkBuf (size_ b) (capacity_ b) d) new_size;
  Ok (sent, take (Z.to_nat sent) data, with_outbuf t b).

Definition AppendToOutBuffer (t : AsyncTCPSocket) (pv : list Z) : res AsyncTCPSocket :=
  if negb (size_ (outbuf_ t) + length pv <=? max_outsize_ t)%nat then Fault AssertionFailed else
  if listen_ t then Fault AssertionFailed else
  b ← Buffer_AppendData (outbuf_ t) (map Some pv) (length pv);
  Ok (with_outbuf t b).

Definition IsOutBufferEmpty (t : AsyncTCPSocket) : bool := (size_ (outbuf_ t) =? 0)%nat.
Definition ClearOutBuffer (t : AsyncTCPSocket) : res AsyncTCPSocket :=
  b ← Buffer_Clear (outbuf_ t); Ok (with_outbuf t b).

(** [SendRaw], with [EMSGSIZE] when there is no room. *)
Definition SendRaw (t : AsyncTCPSocket) (pv : list Z) (sent : Z) : res (Z * list Z * AsyncTCPSocket) :=
  if (max_outsize_ t <? size_ (outbuf_ t) + length pv)%nat then Ok (-1, [], t) else
  if listen_ t then Fault AssertionFailed else
  b ← Buffer_AppendData (outbuf_ t) (map Some pv) (length pv);
  FlushOutBuffer (with_outbuf t b) sent.

Section Hosts.
Context `{host : Endianness}.

(** What [Send] does: the value it returns, the bytes that go into the stream, and whether the
    packet is reported as sent. *)
Definition Send (t : AsyncTCPSocket) (pv : list Z) (sent : Z) : res (Z * list Z * bool * AsyncTCPSocket) :=
  let cb := length pv in
  if (kBufSize <? cb)%nat then Ok (-1, [], false, t) else
  if negb (IsOutBufferEmpty t) then Ok (Z.of_nat cb, [], false, t) else
  let pkt_len := HostToNetwork16 (to_u16 (Z.of_nat cb)) in
  t ← AppendToOutBuffer t (host_bytes kPacketLenSize pkt_len);
  t ← AppendToOutBuffer t pv;
  '(r, stream, t) ← FlushOutBuffer t sent;
  if r <=? 0 then t ← ClearOutBuffer t; Ok (r, stream, false, t)
  else Ok (Z.of_nat cb, stream, true, t).

(** Whether [SignalReadyToSend] is sent. *)
Definition OnWriteEvent (t : AsyncTCPSocket) (sent : Z) : res (list Z * bool * AsyncTCPSocket) :=
  '(stream, t) ← (if (0 <? size_ (outbuf_ t))%nat
                  then '(_, stream, t) ← FlushOutBuffer t sent; Ok (stream, t) else Ok ([], t));
  Ok (stream, (size_ (outbuf_ t) =? 0)%nat, t).

(** ** Receiving *)

(** The packets that are signalled, and the memory and the length that are left. *)
Fixpoint process_loop (fuel : nat) (data : list cell) (len : nat) (packets : list (list Z))
    : res (list (list Z) * list cell * nat) :=
  match fuel with
  | O => Fault OutOfFuel
  | S fuel =>
    if (len <? kPacketLenSize)%nat then Ok (packets, data, len) else
    xs ← fetch kPacketLenSize 0 data; header ← written xs;
    pkt_len ← GetBE16 header;
    let pkt_len := Z.to_nat pkt_len in
    if (len <? kPacketLenSize + pkt_len)%nat then Ok (packets, data, len) else
    xs ← fetch pkt_len kPacketLenSize data; packet ← written xs;
    let len := (len - (kPacketLenSize + pkt_len))%nat in
    data ← (if (0 <? len)%nat then xs ← fetch len (kPacketLenSize + pkt_len) data; put 0 xs data
            else Ok data);
    process_loop fuel data len (packets ++ [packet])
  end.
Definition ProcessInput (data : list cell) (len : nat) : res (list (list Z) * list cell * nat) :=
  process_loop (S len) data len [].

(** A call of [socket_->Recv]: an error, or up to [n] of the bytes that are on their way. *)
Inductive recv := RecvError | RecvUpto (n : nat).

(** Room for at least [kMinimumRecvSize] bytes, within the maximum: the buffer and [free_size]. *)
Definition make_room (t : AsyncTCPSocket) : res (Buffer * nat) :=
  let b := inbuf_ t in
  let free_size := (capacity_ b - size_ b)%nat in
  if (free_size <? kMinimumRecvSize)%nat && (capacity_ b <? max_insize_ t)%nat then
    b ← Buffer_EnsureCapacity b (min (max_insize_ t) (capacity_ b * 2));
    Ok (b, (capacity_ b - size_ b)%nat)
  else Ok (b, free_size).

(** The calls of one event; after the last of them there is nothing to read. *)
Fixpoint read_loop (calls : list recv) (t : AsyncTCPSocket) (stream : list Z) (total_recv : nat)
    : res (AsyncTCPSocket * list Z * nat) :=
  '(b, free_size) ← make_room t;
  match calls with
  | [] | RecvError :: _ => Ok (with_inbuf t b, stream, total_recv)
  | RecvUpto n :: calls =>
    let len := min n (min free_size (length stream)) in
    d ← put (size_ b) (map Some (take len stream)) (data_ b);
    b ← Buffer_SetSize (MkBuf (size_ b) (capacity_ b) d) (size_ b + len);
    let t := with_inbuf t b in
    if (len =? 0)%nat || (len <? free_size)%nat then Ok (t, drop len stream, (total_recv + len)%nat)
    else read_loop calls t (drop len stream) (total_recv + len)
  end.

(** [OnReadEvent] of a socket that does not listen: the packets, and what is left of the stream. *)
Definition OnReadEvent (t : AsyncTCPSocket) (calls : list recv) (stream : list Z)
    : res (list (list Z) * list Z * AsyncTCPSocket) :=
  '(t, stream, total_recv) ← read_loop calls t stream 0;
  if (total_recv =? 0)%nat then Ok ([], stream, t) else
  let b := inbuf_ t in
  '(packets, d, size) ← ProcessInput (data_ b) (size_ b);
  let b := MkBuf (size_ b) (capacity_ b) d in
  if (size_ b <? size)%nat then Fault AssertionFailed else
  b ← Buffer_SetSize b size;
  Ok (packets, stream, with_inbuf t b).

End Hosts.

(** ** Buffers that hold bytes *)

Definition holds (b : Buffer) (l : list Z) : Prop := buffer_ok b /\ bytes b = map Some l.

Lemma holds_size b l : holds b l -> size_ b = length l.
Proof. intros [H E]. rewrite <- (length_bytes b H), E. apply length_map. Qed.

Lemma holds_room b l : holds b l -> length (data_ b) = capacity_ b /\ (length l <= capacity_ b)%nat.
Proof. intros H. pose proof (holds_size b l H). destruct H as [[L F] _]. split; [done|lia]. Qed.

Lemma holds_data b l : holds b l -> data_ b = map Some l ++ drop (length l) (data_ b).
Proof.
  intros H. pose proof (holds_size b l H) as Hs. destruct H as [_ E]. rewrite <- E.
  unfold bytes. rewrite Hs. by rewrite take_drop.
Qed.

Lemma make_holds n d l m : d = map Some l ++ m -> length d = n -> holds (MkBuf (length l) n d) l.
Proof.
  intros -> Hn. split.
  - constructor; cbn; [done|]. rewrite length_app, length_map in Hn. lia.
  - unfold bytes. cbn. by rewrite take_app_length' by (by rewrite length_map).
Qed.

Lemma written_some l : written (map Some l) = Ok l.
Proof. unfold written. induction l as [|a l IH]; [done|]. cbn in *. by rewrite IH. Qed.

Lemma fetch_front (l : list Z) m n : n = length l -> fetch n 0 (map Some l ++ m) = Ok (map Some l).
Proof.
  intros ->. rewrite fetch_ok by (rewrite length_app, length_map; lia).
  unfold view. by rewrite drop_0, take_app_length' by (by rewrite length_map).
Qed.

(** Within the capacity a new size changes nothing else. *)
Lemma SetSize_within b n : Buffer_IsConsistent b = true -> (n <= capacity_ b)%nat ->
  Buffer_SetSize b n = Ok (MkBuf n (capacity_ b) (data_ b)).
Proof.
  intros Hc Hn. unfold Buffer_SetSize, EnsureCapacityWithHeadroom. rewrite Hc. cbn [negb].
  by rewrite (proj2 (Nat.leb_le _ _)), bind_ok by done.
Qed.

Lemma consistent_data b d : buffer_ok b -> length d = length (data_ b) ->
  Buffer_IsConsistent (MkBuf (size_ b) (capacity_ b) d) = true.
Proof. intros [L F] E. apply buffer_consistent. constructor; cbn; [lia|done]. Qed.

Lemma fetch_cells (l : list Z) (m : list cell) k p : (p + k <= length l)%nat ->
  fetch (A := cell) k p (map Some l ++ m) = Ok (map Some (take k (drop p l))).
Proof.
  intros Hk. rewrite fetch_ok by (rewrite length_app, length_map; lia). unfold view.
  rewrite drop_app_le by (rewrite length_map; lia). rewrite skipn_map, take_app_le, firstn_map; [done|].
  rewrite length_map, length_drop. lia.
Qed.

(** The rest of the buffer is moved to its front. *)
Lemma move_rest (l : list Z) (m : list cell) k : (k <= length l)%nat ->
  wp (if (0 <? length l - k)%nat
      then xs ← fetch (A := cell) (length l - k) k (map Some l ++ m); put (A := cell) 0 xs (map Some l ++ m)
      else Ok (map Some l ++ m))
    (fun data => exists m1, data = map Some (drop k l) ++ m1 /\ length data = length (map Some l ++ m)).
Proof.
  intros Hk. destruct (Nat.ltb_spec 0 (length l - k)) as [Hp|Hp].
  - rewrite fetch_cells, bind_ok by lia. rewrite (take_ge (drop k l)) by (rewrite length_drop; lia).
    rewrite (put_splice (A := cell)) by (rewrite length_app, !length_map, length_drop; lia). apply wp_ret.
    rewrite take_0. eexists. split; [done|].
    rewrite !length_app, length_drop, length_app, !length_map, length_drop. cbn [length]. lia.
  - apply wp_ret. exists (map Some l ++ m). split; [|done]. by rewrite drop_ge by lia.
Qed.

(** The front of a buffer goes away. *)
Lemma drop_front b l k : holds b l -> (0 < k <= length l)%nat ->
  wp (d ← (if (0 <? size_ b - k)%nat then xs ← fetch (size_ b - k) k (data_ b); put 0 xs (data_ b)
           else Ok (data_ b));
      Buffer_SetSize (MkBuf (size_ b) (capacity_ b) d) (size_ b - k)) (fun b' => holds b' (drop k l)).
Proof.
  intros H Hk. pose proof (holds_size b l H) as Hs. destruct (holds_room b l H) as [Ld Hr].
  pose proof (holds_data b l H) as Ed. set (m := drop (length l) (data_ b)) in *. rewrite Hs, Ed.
  apply wp_bind. eapply wp_mono; [apply (move_rest l m k); lia|]. intros d (m' & -> & Lm).
  assert (E : length (map Some (drop k l) ++ m') = length (data_ b)) by (rewrite Lm, <- Ed; done).
  rewrite <- Hs, SetSize_within by ((apply consistent_data; [apply H|exact E]) || (cbn; lia)).
  apply wp_ret. cbn [capacity_ data_]. rewrite Hs, <- (length_drop l k).
  apply (make_holds _ _ _ m'); [done|by rewrite <- Ld].
Qed.

(** ** Frames *)

Definition frame (p : list Z) : list Z := be_bytes kPacketLenSize (Z.of_nat (length p)) ++ p.
Definition frames (ps : list (list Z)) : list Z := concat (map frame ps).
#[local] Arguments frame : simpl never.
Definition packet_ok (p : list Z) : Prop := Z.of_nat (length p) < 2 ^ 16 /\ Forall octet p.

(** A stream that does not begin with a whole frame. *)
Definition incomplete (l : list Z) : Prop :=
  (length l < kPacketLenSize + Z.to_nat (be_value (take kPacketLenSize l)))%nat.

Lemma frame_length p : length (frame p) = (kPacketLenSize + length p)%nat.
Proof. unfold frame. by rewrite length_app, be_bytes_length. Qed.

Lemma frame_octets p : packet_ok p -> Forall octet (frame p).
Proof. intros [_ H]. apply Forall_app. split; [apply be_bytes_bytes|done]. Qed.

Lemma frame_header p rest : packet_ok p -> be_value (take kPacketLenSize (frame p ++ rest)) = Z.of_nat (length p).
Proof.
  intros [Hp _]. unfold frame. rewrite <- app_assoc, take_app_length' by (by rewrite be_bytes_length).
  apply be_read. change (256 ^ Z.of_nat kPacketLenSize) with (2 ^ 16). lia.
Qed.

Lemma frames_octets ps : Forall packet_ok ps -> Forall octet (frames ps).
Proof.
  induction 1 as [|p ps Hp Hps IH]; [apply List.Forall_nil|]. change (frames (p :: ps)) with (frame p ++ frames ps).
  apply Forall_app. split; [by apply frame_octets|done].
Qed.

Lemma frames_app ps qs : frames (ps ++ qs) = frames ps ++ frames qs.
Proof. unfold frames. by rewrite map_app, concat_app. Qed.

Lemma frame_not_incomplete p rest : packet_ok p -> ~ incomplete (frame p ++ rest).
Proof.
  intros Hp. unfold incomplete. rewrite frame_header by done. rewrite length_app, frame_length. lia.
Qed.

(** Frames can be told apart: packets that were found in the beginning of a stream are the first
    ones that were put into it. *)
Lemma frames_prefix ds : forall ps r rest, Forall packet_ok ds -> Forall packet_ok ps ->
  frames ds ++ r ++ rest = frames ps -> exists qs, ps = ds ++ qs /\ r ++ rest = frames qs.
Proof.
  induction ds as [|d ds IH]; intros ps r rest Hd Hp E; [by exists ps|].
  apply Forall_cons_1 in Hd as [Hd Hds]. change (frames (d :: ds)) with (frame d ++ frames ds) in E.
  rewrite <- app_assoc in E.
  destruct ps as [|p ps].
  { apply (f_equal length) in E. rewrite length_app, frame_length in E. cbn in E. lia. }
  apply Forall_cons_1 in Hp as [Hp Hps]. change (frames (p :: ps)) with (frame p ++ frames ps) in E.
  pose proof (frame_header d (frames ds ++ r ++ rest) Hd) as H1. rewrite E in H1.
  pose proof (frame_header p (frames ps) Hp) as H2. rewrite H2 in H1.
  apply app_inj_1 in E as [E1 E2]; [|rewrite !frame_length; lia].
  apply app_inj_1 in E1 as [_ ->]; [|by rewrite !be_bytes_length].
  destruct (IH ps r rest Hds Hps E2) as (qs & -> & Eq). by exists qs.
Qed.

Lemma frames_incomplete qs : Forall packet_ok qs -> incomplete (frames qs) -> qs = [].
Proof.
  intros Hq Hi. destruct qs as [|q qs]; [done|]. apply Forall_cons_1 in Hq as [Hq _].
  by apply (frame_not_incomplete q (frames qs)) in Hq.
Qed.

(** ** The sender *)

(** What the socket takes of [offered] bytes, when it would take [want]. *)
Definition socket_takes (want : Z) (offered : nat) : Z := Z.min want (Z.of_nat offered).

Record sender_ok (t : AsyncTCPSocket) (l : list Z) : Prop := {
  sn_listen : listen_ t = false;
  sn_max : max_outsize_ t = kBufSize;
  sn_out : holds (outbuf_ t) l }.

Lemma sender_with t b l l' : sender_ok t l -> holds b l' -> sender_ok (with_outbuf t b) l'.
Proof. intros [H1 H2 H3] Hb. by constructor. Qed.

Lemma Flush_ok t l want : sender_ok t l ->
  let sent := socket_takes want (length l) in
  wp (FlushOutBuffer t sent) (fun '(r, stream, t') =>
    r = sent /\ stream = take (Z.to_nat sent) l /\ sender_ok t' (drop (Z.to_nat sent) l)).
Proof.
  intros H sent. pose proof (sn_out _ _ H) as Hl. pose proof (holds_size _ _ Hl) as Hs.
  unfold FlushOutBuffer. rewrite (sn_listen _ _ H), (holds_data _ _ Hl) at 1.
  rewrite fetch_front, bind_ok, written_some, bind_ok by done.
  unfold sent, socket_takes. destruct (Z.leb_spec (Z.min want (Z.of_nat (length l))) 0) as [H0|H0].
  { replace (Z.to_nat _) with 0%nat by lia. cbn [take drop]. by apply wp_ret. }
  rewrite (proj2 (Z.ltb_ge _ _)) by lia. cbv zeta. set (k := Z.to_nat _).
  assert (Hk : (0 < k <= length l)%nat) by (unfold k; lia).
  pose proof (drop_front _ _ k Hl Hk) as D.
  destruct (if (0 <? _)%nat then _ else _) as [d|f]; [|done]. cbn [mbind res_bind] in *.
  destruct (Buffer_SetSize _ _) as [b|f]; [|done]. apply wp_ret.
  split; [done|]. split; [done|]. by apply (sender_with _ _ l).
Qed.

Lemma Append_ok t l pv : sender_ok t l -> (length l + length pv <= kBufSize)%nat ->
  wp (AppendToOutBuffer t pv) (fun t' => sender_ok t' (l ++ pv)).
Proof.
  intros H Hn. pose proof (sn_out _ _ H) as Hl. pose proof (holds_size _ _ Hl) as Hs.
  unfold AppendToOutBuffer. rewrite (sn_listen _ _ H), (sn_max _ _ H), Hs, (proj2 (Nat.leb_le _ _)) by done.
  cbn [negb]. destruct (Buffer_AppendData_spec (outbuf_ t) (map Some pv) (length pv)) as (b & -> & Hb & E & _).
  { apply Hl. } { by rewrite length_map. }
  rewrite bind_ok. apply wp_ret. apply (sender_with _ _ l); [done|]. split; [done|].
  rewrite E, (proj2 Hl), take_ge by (by rewrite length_map). symmetry. apply map_app.
Qed.

Lemma Clear_ok t l : sender_ok t l -> wp (ClearOutBuffer t) (fun t' => sender_ok t' []).
Proof.
  intros H. destruct (sn_out _ _ H) as [[L F] _]. unfold ClearOutBuffer, Buffer_Clear.
  assert (Hb : holds (MkBuf 0 (capacity_ (outbuf_ t)) (data_ (outbuf_ t))) []).
  { split; [constructor; cbn; lia|done]. }
  rewrite buffer_consistent by apply Hb. cbn [negb]. rewrite bind_ok. apply wp_ret.
  by apply (sender_with _ _ l).
Qed.

Section Sending.
Context `{host : Endianness}.

(** A packet is put into the stream behind its length, or not at all: it is dropped when another
    one is under way or when the socket takes nothing.  The length has sixteen bits. *)
Definition sent_frame (pv : list Z) : list Z := be_bytes kPacketLenSize (to_u16 (Z.of_nat (length pv))) ++ pv.

Lemma Send_ok t l pv want : sender_ok t l -> (length pv <= kMaxPacketSize)%nat ->
  wp (Send t pv (socket_takes want (kPacketLenSize + length pv))) (fun '(r, stream, signalled, t') =>
    if signalled : bool then
      l = [] /\ r = Z.of_nat (length pv) /\ exists rest, sender_ok t' rest /\ stream ++ rest = sent_frame pv
    else stream = [] /\ sender_ok t' l).
Proof.
  intros H Hp. pose proof (sn_out _ _ H) as Hl. pose proof (holds_size _ _ Hl) as Hs.
  unfold Send. cbv zeta. rewrite (proj2 (Nat.ltb_ge _ _)) by (unfold kBufSize, kPacketLenSize; lia).
  unfold IsOutBufferEmpty. rewrite Hs. destruct l as [|c l]; cbn [length Nat.eqb negb]; [|by apply wp_ret].
  unfold HostToNetwork16. rewrite host_be. apply wp_bind. eapply wp_mono.
  { apply (Append_ok t [] _ H). rewrite be_bytes_length. cbn [length]. unfold kBufSize, kPacketLenSize. lia. }
  intros t1 H1. apply wp_bind. eapply wp_mono.
  { apply (Append_ok _ _ pv H1). cbn [app]. rewrite be_bytes_length. unfold kBufSize, kPacketLenSize. lia. }
  intros t2 H2. change (sender_ok t2 (sent_frame pv)) in H2.
  assert (El : (kPacketLenSize + length pv)%nat = length (sent_frame pv)).
  { unfold sent_frame. by rewrite length_app, be_bytes_length. }
  rewrite El. apply wp_bind. eapply wp_mono; [apply (Flush_ok t2 _ want H2)|]. intros [[r stream] t3] (-> & -> & H3).
  destruct (Z.leb_spec (socket_takes want (length (sent_frame pv))) 0) as [Hr|Hr].
  - apply wp_bind. eapply wp_mono; [apply (Clear_ok _ _ H3)|]. intros t4 H4. apply wp_ret.
    by replace (Z.to_nat _) with 0%nat by lia.
  - apply wp_ret. split; [done|]. split; [done|]. eexists. split; [done|]. apply take_drop.
Qed.

Lemma sent_frame_ok p : packet_ok p -> sent_frame p = frame p /\ (length p <= kMaxPacketSize)%nat.
Proof.
  intros [Hp _]. unfold sent_frame, frame, to_u16, kMaxPacketSize. rewrite Z.mod_small by lia. split; [done|lia].
Qed.

(** The largest packet that is accepted has a length of zero in front: the receiver takes its
    bytes for other frames. *)
Lemma longest_packet t pv want : sender_ok t [] -> length pv = kMaxPacketSize ->
  wp (Send t pv (socket_takes want (kPacketLenSize + length pv))) (fun '(r, stream, signalled, t') =>
    signalled = true -> exists rest, sender_ok t' rest /\ stream ++ rest = frame [] ++ pv).
Proof.
  intros H Hp. eapply wp_mono; [apply (Send_ok t [] pv want H); lia|].
  intros [[[r stream] signalled] t'] R ->. destruct R as (_ & _ & rest & H' & E). exists rest. split; [done|].
  rewrite E. unfold sent_frame, frame. rewrite Hp, app_nil_r.
  by replace (Z.of_nat kMaxPacketSize) with 65536 by (unfold kMaxPacketSize; lia).
Qed.

(** With one more byte the check of the buffer fails. *)
Lemma too_long_packet t pv sent : sender_ok t [] -> length pv = S kMaxPacketSize ->
  Send t pv sent = Fault AssertionFailed.
Proof.
  intros H Hp. pose proof (holds_size _ _ (sn_out _ _ H)) as Hs. unfold Send. cbv zeta.
  rewrite (proj2 (Nat.ltb_ge _ _)) by (rewrite Hp; unfold kBufSize, kPacketLenSize; lia).
  unfold IsOutBufferEmpty. rewrite Hs. cbn [length Nat.eqb negb].
  unfold HostToNetwork16. rewrite host_be. set (hd := be_bytes _ _).
  assert (Lh : length hd = kPacketLenSize) by apply be_bytes_length.
  pose proof (Append_ok t [] hd H) as A. rewrite Lh in A. cbn [app length] in A.
  specialize (A ltac:(unfold kBufSize, kPacketLenSize; lia)). destruct (AppendToOutBuffer t hd) as [t1|f]; [|done].
  cbn [wp] in A. rewrite bind_ok. unfold AppendToOutBuffer. rewrite (holds_size _ _ (sn_out _ _ A)), (sn_max _ _ A).
  rewrite Lh, Hp. by rewrite (proj2 (Nat.leb_gt _ _)) by (unfold kBufSize, kPacketLenSize; lia).
Qed.

Lemma OnWriteEvent_ok t l want : sender_ok t l ->
  wp (OnWriteEvent t (socket_takes want (length l))) (fun '(stream, ready, t') =>
    exists rest, sender_ok t' rest /\ stream ++ rest = l /\ (ready = true <-> rest = [])).
Proof.
  intros H. pose proof (sn_out _ _ H) as Hl. unfold OnWriteEvent. rewrite (holds_size _ _ Hl). apply wp_bind.
  apply (wp_mono _ (fun '(stream, t') => exists rest, sender_ok t' rest /\ stream ++ rest = l)).
  - destruct l as [|c l]; [by apply wp_ret; exists []|]. cbn [length Nat.ltb]. apply wp_bind.
    eapply wp_mono; [apply (Flush_ok t _ want H)|]. intros [[r stream] t'] (_ & -> & H'). apply wp_ret.
    eexists. split; [done|]. apply take_drop.
  - intros [stream t'] (rest & H' & E). apply wp_ret. exists rest. split; [done|]. split; [done|].
    rewrite (holds_size _ _ (sn_out _ _ H')), Nat.eqb_eq. destruct rest; cbn; split; done.
Qed.

End Sending.

(** ** The receiver *)

Section Receiving.
Context `{host : Endianness}.

(** A stream that begins with a whole frame. *)
Lemma take_frame l :
  let n := Z.to_nat (be_value (take kPacketLenSize l)) in
  Forall octet l -> (kPacketLenSize + n <= length l)%nat ->
  packet_ok (take n (drop kPacketLenSize l)) /\
  l = frame (take n (drop kPacketLenSize l)) ++ drop n (drop kPacketLenSize l).
Proof.
  intros n Ho Hn. set (h := take kPacketLenSize l) in *. set (body := drop kPacketLenSize l) in *.
  assert (Et : length h = kPacketLenSize) by (unfold h; rewrite length_take; lia).
  assert (Hh : Forall octet h) by by apply Forall_take.
  assert (Ld : length (take n body) = n) by (unfold body; rewrite length_take, length_drop; lia).
  pose proof (le_value_range (rev h) (List.Forall_rev Hh)) as Hr. rewrite length_rev, Et in Hr.
  change (0 <= be_value h < 2 ^ 16) in Hr. split.
  - split; [rewrite Ld; unfold n; lia|by apply Forall_take, Forall_drop].
  - rewrite <- (take_drop kPacketLenSize l) at 1. unfold frame. rewrite <- app_assoc.
    f_equal; [|symmetry; apply take_drop]. rewrite Ld. unfold n. rewrite Z2Nat.id by lia.
    pose proof (le_written (rev h) (List.Forall_rev Hh)) as W. rewrite length_rev, Et in W.
    unfold be_bytes, be_value. by rewrite W, rev_involutive.
Qed.

(** Whole frames are taken from the front of the buffer. *)
Lemma process_loop_ok fuel : forall l m packets,
  (length l < fuel)%nat -> Forall octet l ->
  wp (process_loop fuel (map Some l ++ m) (length l) packets) (fun '(packets', data, len) =>
    exists ds rest m', packets' = packets ++ ds /\ l = frames ds ++ rest /\ Forall packet_ok ds /\
      incomplete rest /\ len = length rest /\ data = map Some rest ++ m' /\
      length data = length (map Some l ++ m)).
Proof.
  induction fuel as [|fuel IH]; intros l m packets Hf Ho; [lia|]. cbn [process_loop].
  assert (Stop : incomplete l -> wp (Ok (packets, map Some l ++ m, length l)) (fun '(packets', data, len) =>
    exists ds rest m', packets' = packets ++ ds /\ l = frames ds ++ rest /\ Forall packet_ok ds /\
      incomplete rest /\ len = length rest /\ data = map Some rest ++ m' /\
      length data = length (map Some l ++ m))).
  { intros Hi. apply wp_ret. exists [], l, m. rewrite app_nil_r. by split_and!. }
  destruct (Nat.ltb_spec (length l) kPacketLenSize) as [H2|H2]; [apply Stop; unfold incomplete; lia|].
  rewrite (fetch_cells l m kPacketLenSize 0), drop_0, bind_ok, written_some, bind_ok by done.
  assert (Et : length (take kPacketLenSize l) = kPacketLenSize) by (rewrite length_take; lia).
  unfold GetBE16. pose proof (get_be kPacketLenSize _ [] Et (Forall_take _ _ _ Ho)) as Eg. rewrite app_nil_r in Eg.
  change kPacketLenSize with 2%nat in Eg at 1 2. rewrite Eg, bind_ok. cbv zeta.
  pose proof (take_frame l) as Tf. cbv zeta in Tf. set (n := Z.to_nat _) in *.
  destruct (Nat.ltb_spec (length l) (kPacketLenSize + n)) as [Hn|Hn]; [by apply Stop|].
  destruct (Tf Ho Hn) as [Hd Ef]. rewrite (fetch_cells l m n kPacketLenSize), bind_ok, written_some, bind_ok by lia.
  apply wp_bind. eapply wp_mono; [apply (move_rest l m (kPacketLenSize + n) Hn)|].
  rewrite <- drop_drop. set (d := take n _) in *. set (l' := drop n _) in *. intros data (m1 & -> & Lm).
  assert (Ll : length l' = (length l - (kPacketLenSize + n))%nat) by (unfold l'; rewrite !length_drop; lia).
  assert (Hfl : (length l' < fuel)%nat) by (clear -Ll H2 Hf; unfold kPacketLenSize in *; lia).
  rewrite <- Ll. eapply wp_mono; [apply (IH l' m1 (packets ++ [d])); [done|by apply Forall_drop, Forall_drop]|].
  intros [[packets' data'] len] (ds & rest & m' & -> & E1 & Hds & Hi & -> & -> & L).
  exists (d :: ds), rest, m'. rewrite <- app_assoc. split; [done|].
  split; [by rewrite Ef at 1; rewrite E1, app_assoc|]. split; [by apply List.Forall_cons|].
  split; [done|]. split; [done|]. split; [done|]. lia.
Qed.

Record receiving (t : AsyncTCPSocket) (l : list Z) : Prop := {
  rc_max : max_insize_ t = kBufSize;
  rc_room : (0 < capacity_ (inbuf_ t))%nat;
  rc_in : holds (inbuf_ t) l }.

Lemma receiving_with t b l l' : receiving t l -> holds b l' -> (0 < capacity_ b)%nat ->
  receiving (with_inbuf t b) l'.
Proof. intros [H1 H2 H3] Hb Hc. by constructor. Qed.

Lemma make_room_ok t l : receiving t l ->
  wp (make_room t) (fun '(b, free_size) => holds b l /\ (0 < capacity_ b)%nat /\
    free_size = (capacity_ b - length l)%nat /\ ((length l < kBufSize)%nat -> (0 < free_size)%nat)).
Proof.
  intros [Hm Hc Hl]. destruct (holds_room _ _ Hl) as [_ Hr]. unfold make_room.
  rewrite (holds_size _ _ Hl), Hm. cbv zeta.
  destruct (Nat.ltb_spec (capacity_ (inbuf_ t) - length l) kMinimumRecvSize) as [Hf|Hf]; cbn [andb];
    [destruct (Nat.ltb_spec (capacity_ (inbuf_ t)) kBufSize) as [Hs|Hs]|].
  - unfold Buffer_EnsureCapacity.
    destruct (EnsureCapacity_spec (inbuf_ t) (min kBufSize (capacity_ (inbuf_ t) * 2)) false (proj1 Hl))
      as (b & -> & Hb & E & Sz & C1 & C2).
    rewrite bind_ok. apply wp_ret. split; [split; [done|by rewrite E; apply Hl]|].
    rewrite Sz, (holds_size _ _ Hl). split; [lia|]. split; [done|lia].
  - apply wp_ret. split; [done|]. split; [done|]. split; [done|lia].
  - apply wp_ret. split; [done|]. split; [done|]. split; [done|]. unfold kMinimumRecvSize in Hf. lia.
Qed.

(** What is read is put behind what is there. *)
Lemma read_put b l xs : holds b l -> (length xs <= capacity_ b - length l)%nat ->
  wp (d ← put (size_ b) (map Some xs) (data_ b);
      Buffer_SetSize (MkBuf (size_ b) (capacity_ b) d) (size_ b + length xs))
     (fun b' => holds b' (l ++ xs) /\ capacity_ b' = capacity_ b).
Proof.
  intros H Hx. pose proof (holds_size b l H) as Hs. destruct (holds_room b l H) as [Ld Hr].
  rewrite Hs, (put_splice (A := cell)), bind_ok by (rewrite length_map; lia).
  rewrite (holds_data b l H) at 1. rewrite take_app_length' by (by rewrite length_map).
  rewrite length_map. set (m := drop (length l + length xs) (data_ b)).
  assert (E : length (map Some l ++ map Some xs ++ m) = length (data_ b)).
  { unfold m, cell in *. rewrite !length_app, !length_map, length_drop. lia. }
  rewrite <- Hs, SetSize_within by ((apply consistent_data; [apply H|exact E]) || (cbn; lia)).
  apply wp_ret. cbn [capacity_ data_]. split; [|done]. rewrite Hs, <- length_app.
  apply (make_holds _ _ _ m); [by rewrite map_app, app_assoc|by rewrite <- Ld].
Qed.

(** The calls of [Recv] move bytes from the stream to the end of the buffer, at least one if the first
    call finds some. *)
Lemma read_loop_ok calls : forall t l stream total, receiving t l ->
  wp (read_loop calls t stream total) (fun '(t', stream', total') => exists s,
    stream = s ++ stream' /\ total' = (total + length s)%nat /\ receiving t' (l ++ s) /\
    (forall n cs, calls = RecvUpto (S n) :: cs -> stream <> [] -> (length l < kBufSize)%nat -> s <> [])).
Proof.
  induction calls as [|[|n] calls IH]; intros t l stream total H; cbn [read_loop];
    (apply wp_bind; eapply wp_mono; [by apply (make_room_ok t l)|]); intros [b free_size] (Hb & Hc & Ef & Hp).
  1,2: apply wp_ret; exists []; rewrite app_nil_r, Nat.add_0_r; split; [done|]; split; [done|].
  1,2: split; [by apply (receiving_with _ _ l)|done].
  cbv zeta. set (len := min n _). set (xs := take len stream).
  assert (Lx : length xs = len) by (unfold xs; rewrite length_take; lia).
  assert (Hx : xs <> [] \/ len = 0%nat) by (destruct xs; [by right|by left]).
  assert (Hn : forall n0 cs, RecvUpto n :: calls = RecvUpto (S n0) :: cs -> stream <> [] ->
    (length l < kBufSize)%nat -> len <> 0%nat).
  { intros n0 cs E Hs Hl. injection E as -> ->. destruct stream; [done|]. specialize (Hp Hl). unfold len. cbn [length]. lia. }
  pose proof (read_put b l xs Hb) as R. rewrite Lx in R. specialize (R ltac:(lia)).
  destruct (put _ _ _) as [d|f]; [|done]. cbn [mbind res_bind] in *.
  destruct (Buffer_SetSize _ _) as [b'|f]; [|done]. destruct R as [Hb' Hc'].
  assert (H' : receiving (with_inbuf t b') (l ++ xs)) by (apply (receiving_with _ _ l); [done|done|lia]).
  destruct ((len =? 0)%nat || (len <? free_size)%nat).
  - apply wp_ret. exists xs. split; [symmetry; apply take_drop|]. rewrite Lx. split; [done|]. split; [done|].
    intros n0 cs E Hs Hl ->. apply (Hn n0 cs E Hs Hl). done.
  - eapply wp_mono; [apply (IH _ _ (drop len stream) (total + len)%nat H')|].
    intros [[t' stream'] total'] (s & Es & -> & Hr & _). exists (xs ++ s).
    split; [by rewrite <- (take_drop len stream) at 1; rewrite Es, app_assoc|].
    rewrite length_app, Lx, app_assoc. split; [lia|]. split; [done|].
    intros n0 cs E Hs Hl. specialize (Hn n0 cs E Hs Hl). by destruct Hx as [Hx|]; [destruct xs|].
Qed.

(** Between events the buffer holds the beginning of a frame, which fits with room to spare. *)
Definition receiver_ok (t : AsyncTCPSocket) (l : list Z) : Prop :=
  receiving t l /\ Forall octet l /\ incomplete l.

Lemma receiver_short t l : receiver_ok t l -> (length l < kBufSize)%nat.
Proof.
  intros (_ & Ho & Hi). unfold incomplete in Hi.
  pose proof (le_value_range (rev (take kPacketLenSize l)) (List.Forall_rev (Forall_take _ _ _ Ho))) as R.
  assert (Hl : (length (rev (take kPacketLenSize l)) <= 2)%nat).
  { rewrite length_rev, length_take. unfold kPacketLenSize. lia. }
  assert (R' : be_value (take kPacketLenSize l) < 2 ^ 16).
  { eapply Z.lt_le_trans; [apply R|]. change (2 ^ 16) with (256 ^ 2). apply Z.pow_le_mono_r; lia. }
  unfold kBufSize, kMaxPacketSize. unfold kPacketLenSize in *. lia.
Qed.

Lemma OnReadEvent_ok t l calls stream : receiver_ok t l -> Forall octet stream ->
  wp (OnReadEvent t calls stream) (fun '(packets, stream', t') => exists s rest,
    stream = s ++ stream' /\ l ++ s = frames packets ++ rest /\ Forall packet_ok packets /\
    receiver_ok t' rest /\ (forall n cs, calls = RecvUpto (S n) :: cs -> stream <> [] -> s <> [])).
Proof.
  intros H Hs. pose proof (receiver_short t l H) as Hl. destruct H as (H & Ho & Hi). unfold OnReadEvent.
  apply wp_bind. eapply wp_mono; [by apply (read_loop_ok calls t l stream 0)|].
  intros [[t1 stream1] total] (s & -> & -> & H1 & Hp). apply Forall_app in Hs as [Hs Hs1].
  destruct (Nat.eqb_spec (0 + length s) 0) as [E|E].
  { assert (s = []) as -> by by destruct s. rewrite app_nil_r in *. apply wp_ret. exists [], l.
    rewrite app_nil_r. split_and!; try done. intros n cs Ec Hne. by apply (Hp n cs Ec Hne). }
  pose proof (rc_in _ _ H1) as Hb. destruct (holds_room _ _ Hb) as [Ld Hr].
  pose proof (holds_data _ _ Hb) as Ed. set (m := drop _ _) in Ed. rewrite (holds_size _ _ Hb), Ed.
  apply wp_bind. eapply wp_mono; [apply (process_loop_ok (S (length (l ++ s))) (l ++ s) m []); [lia|]|].
  { by apply Forall_app. }
  intros [[packets d] size] (ds & rest & m' & -> & E1 & Hds & Hinc & -> & -> & L). cbn [app].
  assert (Hlen : (length rest <= length (l ++ s))%nat) by (rewrite E1, length_app; lia).
  cbn [size_]. rewrite (proj2 (Nat.ltb_ge _ _)) by done.
  assert (E2 : length (map Some rest ++ m') = length (data_ (inbuf_ t1))) by (etransitivity; [exact L|]; by rewrite <- Ed).
  rewrite <- (holds_size _ _ Hb), SetSize_within by ((apply consistent_data; [apply Hb|exact E2]) || (cbn; lia)).
  rewrite bind_ok. apply wp_ret. exists s, rest. cbn [capacity_ data_].
  assert (Hrest : Forall octet rest).
  { assert (Hall : Forall octet (l ++ s)) by by apply Forall_app. rewrite E1 in Hall. by apply Forall_app in Hall as [_ ?]. }
  split; [done|]. split; [done|]. split; [done|]. split.
  - split; [|done]. apply (receiving_with _ _ (l ++ s)); [done| |by apply (rc_room _ _ H1)].
    apply (make_holds _ _ _ m'); [done|lia].
  - intros n cs Ec Hne. by apply (Hp n cs Ec Hne).
Qed.

End Receiving.

(** ** Packets arrive as they were sent *)

(** What an application and its socket do to a sender: the packets that were reported as sent, and
    the bytes that went into the stream. *)
Inductive send_op := SendPacket (pv : list Z) (want : Z) | CanWrite (want : Z).

Fixpoint run_sends {host : Endianness} (t : AsyncTCPSocket) (ops : list send_op)
    : res (list (list Z) * list Z * AsyncTCPSocket) :=
  match ops with
  | [] => Ok ([], [], t)
  | SendPacket pv want :: ops =>
      '(_, stream, signalled, t) ← Send t pv (socket_takes want (kPacketLenSize + length pv));
      '(ps, s, t) ← run_sends t ops;
      Ok ((if signalled : bool then [pv] else []) ++ ps, stream ++ s, t)
  | CanWrite want :: ops =>
      '(stream, _, t) ← OnWriteEvent t (socket_takes want (size_ (outbuf_ t)));
      '(ps, s, t) ← run_sends t ops;
      Ok (ps, stream ++ s, t)
  end.

Fixpoint run_reads {host : Endianness} (t : AsyncTCPSocket) (stream : list Z) (events : list (list recv))
    : res (list (list Z) * list Z * AsyncTCPSocket) :=
  match events with
  | [] => Ok ([], stream, t)
  | calls :: events =>
      '(ps, stream, t) ← OnReadEvent t calls stream;
      '(qs, stream, t) ← run_reads t stream events;
      Ok (ps ++ qs, stream, t)
  end.

Definition offered (op : send_op) : Prop := match op with SendPacket pv _ => packet_ok pv | CanWrite _ => True end.
Definition finds_bytes (calls : list recv) : Prop := exists n cs, calls = RecvUpto (S n) :: cs.

Lemma run_sends_ok {host : Endianness} ops : forall t l, sender_ok t l -> Forall offered ops ->
  wp (run_sends t ops) (fun '(ps, s, t') =>
    Forall packet_ok ps /\ exists l', sender_ok t' l' /\ l ++ frames ps = s ++ l').
Proof.
  induction ops as [|[pv want|want] ops IH]; intros t l H Ho; cbn [run_sends].
  - apply wp_ret. split; [done|]. exists l. split; [done|apply app_nil_r].
  - apply Forall_cons_1 in Ho as [Hp Ho]. destruct (sent_frame_ok pv Hp) as [Ef Hl]. apply wp_bind.
    eapply wp_mono; [by apply (Send_ok t l pv want)|].
    intros [[[r stream] [|]] t1].
    + intros (-> & _ & rest & H1 & E). apply wp_bind. eapply wp_mono; [by apply (IH t1 rest)|].
      intros [[ps s] t'] (Hps & l' & H' & E'). apply wp_ret. split; [by apply List.Forall_cons|].
      exists l'. split; [done|]. change (frames ([pv] ++ ps)) with (frame pv ++ frames ps).
      by rewrite <- Ef, <- E, <- !app_assoc, E'.
    + intros [-> H1]. apply wp_bind. eapply wp_mono; [by apply (IH t1 l)|]. by intros [[ps s] t'].
  - apply Forall_cons_1 in Ho as [_ Ho]. rewrite (holds_size _ _ (sn_out _ _ H)). apply wp_bind.
    eapply wp_mono; [by apply (OnWriteEvent_ok t l want)|]. intros [[stream ready] t1] (rest & H1 & <- & _).
    apply wp_bind. eapply wp_mono; [by apply (IH t1 rest)|].
    intros [[ps s] t'] (Hps & l' & H' & E'). apply wp_ret. split; [done|]. exists l'. split; [done|].
    by rewrite <- !app_assoc, E'.
Qed.

Lemma run_reads_ok {host : Endianness} events : forall t l stream, receiver_ok t l -> Forall octet stream ->
  wp (run_reads t stream events) (fun '(ps, remaining, t') => exists s l',
    stream = s ++ remaining /\ l ++ s = frames ps ++ l' /\ Forall packet_ok ps /\ receiver_ok t' l' /\
    ((length stream <= length events)%nat -> Forall finds_bytes events -> remaining = [])).
Proof.
  induction events as [|calls events IH]; intros t l stream H Ho; cbn [run_reads].
  - apply wp_ret. exists [], l. rewrite app_nil_r. split_and!; try done. intros Hl _. by destruct stream; [|cbn in Hl; lia].
  - apply wp_bind. eapply wp_mono; [by apply (OnReadEvent_ok t l calls stream)|].
    intros [[ps stream1] t1] (s1 & l1 & -> & E1 & Hps & H1 & Hp). apply wp_bind.
    apply Forall_app in Ho as [_ Ho]. eapply wp_mono; [by apply (IH t1 l1 stream1)|].
    intros [[qs remaining] t'] (s2 & l' & -> & E2 & Hqs & H' & Hp'). apply wp_ret. exists (s1 ++ s2), l'.
    split; [by rewrite app_assoc|]. split; [by rewrite app_assoc, E1, <- app_assoc, E2, frames_app, app_assoc|].
    split; [by apply Forall_app|]. split; [done|]. intros Hl Hf.
    apply Forall_cons_1 in Hf as [(n & cs & Ec) Hf]. apply Hp'; [|done]. cbn [length] in Hl.
    destruct (decide (s1 ++ s2 ++ remaining = [])) as [E|E]; [apply app_nil in E as [_ ->]; cbn; lia|].
    specialize (Hp n cs Ec E). rewrite length_app in Hl. destruct s1; [done|]. cbn in Hl. lia.
Qed.

Lemma new_socket_ok : wp (AsyncTCPSocket_new false) (fun t => sender_ok t [] /\ receiver_ok t []).
Proof.
  unfold AsyncTCPSocket_new, AsyncTCPSocketBase_new. cbn [negb]. cbv zeta. unfold Buffer_EnsureCapacity.
  destruct (EnsureCapacity_spec (Buffer_new 0 0) kMinimumRecvSize false (Buffer_new_ok 0 0))
    as (b & -> & Hb & E & Sz & C1 & C2).
  rewrite bind_ok. apply wp_ret. unfold kMinimumRecvSize in C1.
  assert (H0 : holds (Buffer_new 0 0) []) by (split; [apply Buffer_new_ok|done]).
  split; [by constructor|]. split; [|split; [done|unfold incomplete; cbn; lia]].
  constructor; cbn; [done|lia|split; [done|by rewrite E]].
Qed.

(** C27: two sockets carry packets of up to 65535 bytes over a stream.  However much the stream
    takes at a time and in whatever pieces it delivers, on hosts of whatever byte order, no check
    fails; the packets that the receiver signals are the first ones that the sender reported as
    sent, each of them whole; they are all of them when the stream and the buffer of the
    sender have run empty; and the stream does run empty, each event in which bytes are found
    taking at least one out of it. *)
Theorem packets_arrive (host1 host2 : Endianness) ops events : Forall offered ops ->
  wp (t ← AsyncTCPSocket_new false;
      '(sent, stream, sender) ← run_sends (host := host1) t ops;
      '(received, remaining, receiver) ← run_reads (host := host2) t stream events;
      Ok (sent, stream, sender, received, remaining))
     (fun '(sent, stream, sender, received, remaining) =>
        (exists more, sent = received ++ more) /\
        (IsOutBufferEmpty sender = true -> remaining = [] -> received = sent) /\
        ((length stream <= length events)%nat -> Forall finds_bytes events -> remaining = [])).
Proof.
  intros Ho. apply wp_bind. eapply wp_mono; [apply new_socket_ok|]. intros t [Hs Hr]. apply wp_bind.
  eapply wp_mono; [by apply (run_sends_ok ops t [])|]. intros [[sent stream] sender] (Hp & l & Hl & E). cbn [app] in E.
  pose proof (frames_octets sent Hp) as Hoct. rewrite E in Hoct. apply Forall_app in Hoct as [Hoct _].
  apply wp_bind. eapply wp_mono; [by apply (run_reads_ok events t [] stream)|].
  intros [[received remaining] receiver] (s & rest & -> & E' & Hq & H' & Hend). apply wp_ret. cbn [app] in E'. subst s.
  rewrite <- !app_assoc in E. destruct (frames_prefix received sent rest (remaining ++ l) Hq Hp (eq_sym E)) as (qs & -> & Eq).
  split; [by exists qs|]. split; [|done]. intros He ->.
  unfold IsOutBufferEmpty in He. rewrite (holds_size _ _ (sn_out _ _ Hl)) in He. apply Nat.eqb_eq, nil_length_inv in He as ->.
  rewrite !app_nil_r in Eq. subst rest. apply Forall_app in Hp as [_ Hp].
  by rewrite (frames_incomplete qs Hp (proj2 (proj2 H'))), app_nil_r.
Qed.

Lemma packets_arrive_witness :
  Forall offered [SendPacket [1; 2; 3] 4; SendPacket [4] 9; CanWrite 9; SendPacket [] 2] /\
  wp (t ← AsyncTCPSocket_new false;
      '(sent, stream, sender) ← run_sends (host := false) t
        [SendPacket [1; 2; 3] 4; SendPacket [4] 9; CanWrite 9; SendPacket [] 2];
      '(received, remaining, receiver) ← run_reads (host := true) t stream [[RecvUpto 3]; [RecvUpto 100]];
      Ok (sent, stream, sender, received, remaining))
     (fun '(sent, stream, sender, received, remaining) =>
        (exists more, sent = received ++ more) /\
        (IsOutBufferEmpty sender = true -> remaining = [] -> received = sent) /\
        ((length stream <= 2)%nat -> Forall finds_bytes [[RecvUpto 3]; [RecvUpto 100]] -> remaining = [])).
Proof.
  assert (H : Forall offered [SendPacket [1; 2; 3] 4; SendPacket [4] 9; CanWrite 9; SendPacket [] 2]).
  { repeat (apply List.Forall_cons; [(split; [done|repeat constructor; done]) || done|]). apply List.Forall_nil. }
  split; [exact H|]. apply (packets_arrive false true _ [[RecvUpto 3]; [RecvUpto 100]] H).
Defined.

(** In that run the second packet is dropped. *)
Example second_dropped :
  (t ← AsyncTCPSocket_new false;
   '(sent, stream, sender) ← run_sends (host := false) t
     [SendPacket [1; 2; 3] 4; SendPacket [4] 9; CanWrite 9; SendPacket [] 2];
   '(received, remaining, receiver) ← run_reads (host := true) t stream [[RecvUpto 3]; [RecvUpto 100]];
   Ok (sent, stream, received, remaining)) =
  Ok ([[1; 2; 3]; []], [0; 3; 1; 2; 3; 0; 0], [[1; 2; 3]; []], []).
Proof. vm_compute. reflexivity. Qed.
