(* ===== verification/FifoBuffer.v ===== *)
(** * The byte stream buffer

    [FifoBuffer] of [base/stream.{h,cc}]: a ring of bytes between a writer and a reader,
    with random access before the read position and behind the written bytes.
    Every method holds the lock from its beginning to its end.  Events are posted to
    the thread that owns the buffer; the model returns them.  Sizes of memory are natural
    numbers; sums and differences of [size_t] values wrap around where the code does not
    bound them, which is in the sum with the offset of the caller.  The pointers that
    [GetReadData] and [GetWriteBuffer] return are positions in the ring. *)
From S2P Require Import Prelude CInt AudioUtil ChannelBuffer CowBuffer.

Inductive StreamState := SS_CLOSED | SS_OPENING | SS_OPEN.
Inductive StreamResult := SR_ERROR | SR_SUCCESS | SR_BLOCK | SR_EOS.
Inductive StreamEvent := SE_OPEN | SE_READ | SE_WRITE | SE_CLOSE.

Record FifoBuffer := MkFifo {
  state_ : StreamState;
  buffer_ : list cell;
  buffer_length_ : nat;
  data_length_ : nat;
  read_position_ : nat
}.

Definition is_closed (s : StreamState) : bool := match s with SS_CLOSED => true | _ => false end.

Definition FifoBuffer_new (size : nat) : FifoBuffer :=
  MkFifo SS_OPEN (replicate size None) size 0 0.

Definition GetBuffered (q : FifoBuffer) : nat := data_length_ q.
Definition GetWriteRemaining (q : FifoBuffer) : nat := (buffer_length_ q - data_length_ q)%nat.
Definition GetState (q : FifoBuffer) : StreamState := state_ q.
Definition Close (q : FifoBuffer) : FifoBuffer :=
  MkFifo SS_CLOSED (buffer_ q) (buffer_length_ q) (data_length_ q) (read_position_ q).

(** [a + b], [a - b] and [a % b] on [size_t]. *)
Definition size_plus (a b : Z) : Z := (a + b) mod 2 ^ 64.
Definition size_minus (a b : Z) : Z := (a - b) mod 2 ^ 64.
Definition size_rem (a : Z) (b : nat) : res nat :=
  if (b =? 0)%nat then Fault DivByZero else Ok (Z.to_nat (a mod Z.of_nat b)).

Definition SetCapacity (q : FifoBuffer) (size : nat) : res (bool * FifoBuffer) :=
  if (size <? data_length_ q)%nat then Ok (false, q) else
  if (size =? buffer_length_ q)%nat then Ok (true, q) else
  let copy := data_length_ q in
  let tail_copy := min copy (buffer_length_ q - read_position_ q) in
  xs ← fetch tail_copy (read_position_ q) (buffer_ q);
  b ← put 0 xs (replicate size None);
  ys ← fetch (copy - tail_copy) 0 (buffer_ q);
  b ← put tail_copy ys b;
  Ok (true, MkFifo (state_ q) b size (data_length_ q) 0).

(** Returns the result, the caller's memory and the number of bytes. *)
Definition ReadOffsetLocked (q : FifoBuffer) (memory : list cell) (bytes : nat) (offset : Z)
    : res (StreamResult * list cell * nat) :=
  if Z.of_nat (data_length_ q) <=? offset
  then Ok (if negb (is_closed (state_ q)) then SR_BLOCK else SR_EOS, memory, 0%nat) else
  let available := size_minus (Z.of_nat (data_length_ q)) offset in
  read_position ← size_rem (size_plus (Z.of_nat (read_position_ q)) offset) (buffer_length_ q);
  let copy := Z.to_nat (Z.min (Z.of_nat bytes) available) in
  let tail_copy := min copy (buffer_length_ q - read_position) in
  xs ← fetch tail_copy read_position (buffer_ q);
  m ← put 0 xs memory;
  ys ← fetch (copy - tail_copy) 0 (buffer_ q);
  m ← put tail_copy ys m;
  Ok (SR_SUCCESS, m, copy).

(** Returns the result, the buffer and the number of bytes. *)
Definition WriteOffsetLocked (q : FifoBuffer) (memory : list cell) (bytes : nat) (offset : Z)
    : res (StreamResult * FifoBuffer * nat) :=
  if is_closed (state_ q) then Ok (SR_EOS, q, 0%nat) else
  let data_length := Z.of_nat (data_length_ q) in
  let buffer_length := Z.of_nat (buffer_length_ q) in
  if buffer_length <=? size_plus data_length offset then Ok (SR_BLOCK, q, 0%nat) else
  let available := size_minus (size_minus buffer_length data_length) offset in
  write_position ← size_rem (size_plus (size_plus (Z.of_nat (read_position_ q)) data_length) offset)
                     (buffer_length_ q);
  let copy := Z.to_nat (Z.min (Z.of_nat bytes) available) in
  let tail_copy := min copy (buffer_length_ q - write_position) in
  xs ← fetch tail_copy 0 memory;
  b ← put write_position xs (buffer_ q);
  ys ← fetch (copy - tail_copy) tail_copy memory;
  b ← put 0 ys b;
  Ok (SR_SUCCESS, MkFifo (state_ q) b (buffer_length_ q) (data_length_ q) (read_position_ q), copy).

Definition ReadOffset := ReadOffsetLocked.
Definition WriteOffset := WriteOffsetLocked.

Definition with_positions (q : FifoBuffer) (data_length read_position : nat) : FifoBuffer :=
  MkFifo (state_ q) (buffer_ q) (buffer_length_ q) data_length read_position.

Definition Read (q : FifoBuffer) (memory : list cell) (bytes : nat)
    : res (StreamResult * list cell * nat * list StreamEvent * FifoBuffer) :=
  let was_writable := (data_length_ q <? buffer_length_ q)%nat in
  '(result, memory, copy) ← ReadOffsetLocked q memory bytes 0;
  match result with
  | SR_SUCCESS =>
      p ← size_rem (size_plus (Z.of_nat (read_position_ q)) (Z.of_nat copy)) (buffer_length_ q);
      Ok (result, memory, copy,
          if negb was_writable && (0 <? copy)%nat then [SE_WRITE] else [],
          with_positions q (data_length_ q - copy) p)
  | _ => Ok (result, memory, copy, [], q)
  end.

Definition Write (q : FifoBuffer) (memory : list cell) (bytes : nat)
    : res (StreamResult * nat * list StreamEvent * FifoBuffer) :=
  let was_readable := (0 <? data_length_ q)%nat in
  '(result, q, copy) ← WriteOffsetLocked q memory bytes 0;
  match result with
  | SR_SUCCESS =>
      Ok (result, copy, if negb was_readable && (0 <? copy)%nat then [SE_READ] else [],
          with_positions q (data_length_ q + copy) (read_position_ q))
  | _ => Ok (result, copy, [], q)
  end.

(** The position in the buffer that the pointer designates, and [*size]. *)
Definition GetReadData (q : FifoBuffer) : nat * nat :=
  (read_position_ q,
   if size_plus (Z.of_nat (read_position_ q)) (Z.of_nat (data_length_ q)) <=? Z.of_nat (buffer_length_ q)
   then data_length_ q
   else (buffer_length_ q - read_position_ q)%nat).

Definition ConsumeReadData (q : FifoBuffer) (size : nat) : res (list StreamEvent * FifoBuffer) :=
  if negb (size <=? data_length_ q)%nat then Fault AssertionFailed else
  let was_writable := (data_length_ q <? buffer_length_ q)%nat in
  p ← size_rem (size_plus (Z.of_nat (read_position_ q)) (Z.of_nat size)) (buffer_length_ q);
  Ok (if negb was_writable && (0 <? size)%nat then [SE_WRITE] else [],
      with_positions q (data_length_ q - size) p).

(** No position when the buffer is closed. *)
Definition GetWriteBuffer (q : FifoBuffer) : res (option (nat * nat) * FifoBuffer) :=
  if is_closed (state_ q) then Ok (None, q) else
  let q := if (data_length_ q =? 0)%nat then with_positions q 0 0 else q in
  write_position ← size_rem (size_plus (Z.of_nat (read_position_ q)) (Z.of_nat (data_length_ q))) (buffer_length_ q);
  let size := if (read_position_ q <? write_position)%nat || (data_length_ q =? 0)%nat
              then (buffer_length_ q - write_position)%nat
              else (read_position_ q - write_position)%nat in
  Ok (Some (write_position, size), q).

Definition ConsumeWriteBuffer (q : FifoBuffer) (size : nat) : res (list StreamEvent * FifoBuffer) :=
  if negb (size <=? buffer_length_ q - data_length_ q)%nat then Fault AssertionFailed else
  let was_readable := (0 <? data_length_ q)%nat in
  Ok (if negb was_readable && (0 <? size)%nat then [SE_READ] else [],
      with_positions q (data_length_ q + size) (read_position_ q)).

(** ** The buffer as a machine *)

Inductive fifo_call :=
| FRead (memory : list cell) (bytes : nat)
| FWrite (data : list cell)
| FReadOffset (memory : list cell) (bytes : nat) (offset : Z)
| FWriteOffset (data : list cell) (offset : Z)
| FReadData
| FConsumeRead (size : nat)
| FWriteBuffer (data : list cell)
| FConsumeWrite (size : nat)
| FSetCapacity (size : nat)
| FClose.

(** What a call returns: a result, the memory read into, a number of bytes and the
    events posted. *)
Record fifo_result := FR {
  fr_result : StreamResult; fr_memory : list cell; fr_bytes : nat; fr_events : list StreamEvent
}.

(** [FReadData] reads all bytes of the block that [GetReadData] designates, [FWriteBuffer]
    fills the one of [GetWriteBuffer] as far as the data go; the pointers are used at once.
    [SR_ERROR] stands for a null pointer. *)
Definition fifo_run (q : FifoBuffer) (c : fifo_call) : res (fifo_result * FifoBuffer) :=
  match c with
  | FRead m k => '(r, m, n, e, q) ← Read q m k; Ok (FR r m n e, q)
  | FWrite d => '(r, n, e, q) ← Write q d (length d); Ok (FR r [] n e, q)
  | FReadOffset m k o => '(r, m, n) ← ReadOffset q m k o; Ok (FR r m n [], q)
  | FWriteOffset d o => '(r, q, n) ← WriteOffset q d (length d) o; Ok (FR r [] n [], q)
  | FReadData => let '(p, size) := GetReadData q in
                 xs ← fetch size p (buffer_ q); Ok (FR SR_SUCCESS xs size [], q)
  | FConsumeRead k => '(e, q) ← ConsumeReadData q k; Ok (FR SR_SUCCESS [] 0 e, q)
  | FWriteBuffer d =>
      '(block, q) ← GetWriteBuffer q;
      match block with
      | None => Ok (FR SR_ERROR [] 0 [], q)
      | Some (p, size) =>
          b ← put p (take size d) (buffer_ q);
          Ok (FR SR_SUCCESS [] size [],
              MkFifo (state_ q) b (buffer_length_ q) (data_length_ q) (read_position_ q))
      end
  | FConsumeWrite k => '(e, q) ← ConsumeWriteBuffer q k; Ok (FR SR_SUCCESS [] 0 e, q)
  | FSetCapacity n => '(b, q) ← SetCapacity q n;
                      Ok (FR (if (b : bool) then SR_SUCCESS else SR_ERROR) [] 0 [], q)
  | FClose => Ok (FR SR_SUCCESS [] 0 [], Close q)
  end.

(** A tape that begins at the next byte to read; the first [n] bytes are readable.
    Reading moves bytes from the front of the tape to its end. *)
Record tape := MkTape { t_closed : bool; t_cells : list cell; t_count : nat }.

Definition overwrite (p : nat) (xs cells : list cell) : list cell :=
  take p cells ++ xs ++ drop (p + length xs) cells.

Definition advance (k : nat) (cells : list cell) : list cell := drop k cells ++ take k cells.

(** The position that an offset behind the readable bytes designates: an offset that wraps the
    sum around leads back into the readable bytes. *)
Definition offset_position (n : nat) (o : Z) : Z := (Z.of_nat n + o) mod 2 ^ 64.

(** What the calls that return no pointer do; the other two are described below. *)
Definition fifo_spec (t : tape) (c : fifo_call) : fifo_result * tape :=
  let '(MkTape closed cells n) := t in
  let cap := length cells in
  match c with
  | FReadOffset m k o =>
      (if o <? Z.of_nat n
       then let xs := take (min k (n - Z.to_nat o)) (drop (Z.to_nat o) cells) in
            FR SR_SUCCESS (overwrite 0 xs m) (length xs) []
       else FR (if closed then SR_EOS else SR_BLOCK) m 0 [], t)
  | FRead m k =>
      if (0 <? n)%nat
      then let xs := take (min k n) cells in
           (FR SR_SUCCESS (overwrite 0 xs m) (length xs)
              (if (n =? cap)%nat && (0 <? length xs)%nat then [SE_WRITE] else []),
            MkTape closed (advance (length xs) cells) (n - length xs))
      else (FR (if closed then SR_EOS else SR_BLOCK) m 0 [], t)
  | FWriteOffset d o =>
      if closed then (FR SR_EOS [] 0 [], t) else
      if Z.of_nat cap <=? offset_position n o then (FR SR_BLOCK [] 0 [], t) else
      let w := Z.to_nat (offset_position n o) in
      let xs := take (cap - w) d in
      (FR SR_SUCCESS [] (length xs) [], MkTape closed (overwrite w xs cells) n)
  | FWrite d =>
      if closed then (FR SR_EOS [] 0 [], t) else
      if (cap <=? n)%nat then (FR SR_BLOCK [] 0 [], t) else
      let xs := take (cap - n) d in
      (FR SR_SUCCESS [] (length xs) (if (n =? 0)%nat && (0 <? length xs)%nat then [SE_READ] else []),
       MkTape closed (overwrite n xs cells) (n + length xs))
  | FConsumeRead k =>
      (FR SR_SUCCESS [] 0 (if (n =? cap)%nat && (0 <? k)%nat then [SE_WRITE] else []),
       MkTape closed (advance k cells) (n - k))
  | FConsumeWrite k =>
      (FR SR_SUCCESS [] 0 (if (n =? 0)%nat && (0 <? k)%nat then [SE_READ] else []),
       MkTape closed cells (n + k))
  | FSetCapacity size =>
      if (size <? n)%nat then (FR SR_ERROR [] 0 [], t) else
      (FR SR_SUCCESS [] 0 [],
       if (size =? cap)%nat then t
       else MkTape closed (take n cells ++ replicate (size - n) None) n)
  | FClose => (FR SR_SUCCESS [] 0 [], MkTape true cells n)
  | FReadData | FWriteBuffer _ => (FR SR_ERROR [] 0 [], t)
  end.

(** What a call does to the tape.  A pointer designates a block whose size depends on where the
    ring wraps around: of the readable bytes the first ones, at least one if there is any;
    of the room behind them the first cells, again at least one.  The tape of a buffer without
    bytes may be turned before it is written. *)
Definition fifo_does (t : tape) (c : fifo_call) (r : fifo_result) (t' : tape) : Prop :=
  let '(MkTape closed cells n) := t in
  match c with
  | FReadData =>
      exists size, (size <= n)%nat /\ ((0 < n)%nat -> (0 < size)%nat) /\
        r = FR SR_SUCCESS (take size cells) size [] /\ t' = t
  | FWriteBuffer d =>
      if closed then r = FR SR_ERROR [] 0 [] /\ t' = t else
      exists size k, (size <= length cells - n)%nat /\ ((n < length cells)%nat -> (0 < size)%nat) /\
        (k <= length cells)%nat /\ (k = 0 \/ n = 0)%nat /\
        r = FR SR_SUCCESS [] size [] /\
        t' = MkTape closed (overwrite n (take size d) (advance k cells)) n
  | _ => (r, t') = fifo_spec t c
  end.

(** What is asked of the caller: memory for what is read, no more bytes consumed than
    there are, offsets of 64 bits, and sizes that an array can have. *)
Definition fifo_call_ok (t : tape) (c : fifo_call) : Prop :=
  let '(MkTape closed cells n) := t in
  match c with
  | FRead m k => (k <= length m)%nat
  | FReadOffset m k o => (k <= length m)%nat /\ 0 <= o < 2 ^ 64
  | FWriteOffset _ o => 0 <= o < 2 ^ 64
  | FConsumeRead k => (k <= n)%nat /\ cells <> []
  | FWriteBuffer _ => closed = true \/ cells <> []
  | FConsumeWrite k => (n + k <= length cells)%nat
  | FSetCapacity size => Z.of_nat size < 2 ^ 63
  | _ => True
  end.

(** * Lemmas *)

(** ** Lists by their elements *)

Lemma lookup_app_case {A} (l k : list A) i :
  (l ++ k) !! i = if decide (i < length l)%nat then l !! i else k !! (i - length l)%nat.
Proof.
  destruct (decide (i < length l)%nat); [by apply lookup_app_l|apply lookup_app_r; lia].
Qed.

Lemma lookup_take_case {A} (l : list A) n i :
  take n l !! i = if decide (i < n)%nat then l !! i else None.
Proof.
  destruct (decide (i < n)%nat); [by apply lookup_take_lt|apply lookup_take_ge; lia].
Qed.

Lemma mod_wrap a n : (a < 2 * n)%nat -> (a mod n = if decide (a < n) then a else a - n)%nat.
Proof.
  intros Ha. destruct (decide (a < n)%nat); [by apply Nat.mod_small|].
  replace a with ((a - n) + 1 * n)%nat at 1 by lia. rewrite Nat.Div0.mod_add. apply Nat.mod_small. lia.
Qed.

Lemma size_rem_ok a n : (0 < n)%nat -> size_rem (Z.of_nat a) n = Ok (a mod n)%nat.
Proof.
  intros Hn. unfold size_rem. rewrite (proj2 (Nat.eqb_neq _ _)) by lia.
  by rewrite <- Nat2Z.inj_mod, Nat2Z.id.
Qed.

Lemma size_plus_ok a b : Z.of_nat a + Z.of_nat b < 2 ^ 64 ->
  size_plus (Z.of_nat a) (Z.of_nat b) = Z.of_nat (a + b).
Proof. intros H. unfold size_plus. rewrite Z.mod_small; lia. Qed.

Lemma size_minus_ok a b : (b <= a)%nat -> Z.of_nat a < 2 ^ 64 ->
  size_minus (Z.of_nat a) (Z.of_nat b) = Z.of_nat (a - b).
Proof. intros Hb H. unfold size_minus. rewrite Z.mod_small; lia. Qed.

(** The sums and differences with an offset that wraps around. *)
Lemma offset_room cap n o w : offset_position n o = Z.of_nat w -> (w <= cap)%nat -> Z.of_nat cap < 2 ^ 63 ->
  size_minus (size_minus (Z.of_nat cap) (Z.of_nat n)) o = Z.of_nat (cap - w).
Proof.
  unfold size_minus, offset_position. intros Hw Hc H.
  rewrite Zminus_mod_idemp_l. replace (Z.of_nat cap - Z.of_nat n - o) with (Z.of_nat cap - (Z.of_nat n + o)) by lia.
  rewrite <- Zminus_mod_idemp_r, Hw, Z.mod_small; lia.
Qed.

Lemma offset_place p n o w : offset_position n o = Z.of_nat w -> Z.of_nat p + Z.of_nat w < 2 ^ 64 ->
  size_plus (size_plus (Z.of_nat p) (Z.of_nat n)) o = Z.of_nat (p + w).
Proof.
  unfold size_plus, offset_position. intros Hw H.
  rewrite Zplus_mod_idemp_l, <- Z.add_assoc, <- Zplus_mod_idemp_r, Hw, Z.mod_small; lia.
Qed.

Lemma offset_none n : Z.of_nat n < 2 ^ 64 -> offset_position n 0 = Z.of_nat n.
Proof. intros H. unfold offset_position. rewrite Z.add_0_r, Z.mod_small; lia. Qed.

Lemma put_overwrite p xs mem :
  (p + length xs <= length mem)%nat -> put p xs mem = Ok (overwrite p xs mem).
Proof. apply put_splice. Qed.

Lemma length_overwrite p xs mem :
  (p + length xs <= length mem)%nat -> length (overwrite p xs mem) = length mem.
Proof. intros H. unfold overwrite. rewrite !length_app, length_take, length_drop. lia. Qed.

Lemma length_advance k cells : length (advance k cells) = length cells.
Proof. unfold advance. rewrite length_app, length_drop, length_take. lia. Qed.

Lemma lookup_overwrite p xs mem i :
  (p + length xs <= length mem)%nat ->
  overwrite p xs mem !! i =
  if decide (p <= i < p + length xs)%nat then xs !! (i - p)%nat else mem !! i.
Proof.
  intros H. unfold overwrite. rewrite !lookup_app_case, lookup_take_case, lookup_drop, length_take.
  repeat case_decide; try lia; try done; f_equal; lia.
Qed.

Lemma lookup_advance k cells i :
  (k <= length cells)%nat ->
  advance k cells !! i =
  if decide (i < length cells)%nat
  then if decide (i + k < length cells)%nat then cells !! (i + k)%nat
       else cells !! (i + k - length cells)%nat
  else None.
Proof.
  intros H. unfold advance. rewrite lookup_app_case, lookup_take_case, lookup_drop, length_drop.
  repeat case_decide; try lia; try done; f_equal; lia.
Qed.

Ltac fits :=
  rewrite ?length_app, ?length_advance; repeat (rewrite length_overwrite by fits);
  rewrite ?length_take, ?length_drop, ?length_replicate; cbn [length]; lia.

Ltac cell_step :=
  match goal with
  | |- context [advance ?k ?c !! ?i] => rewrite (lookup_advance k c i) by fits
  | |- context [overwrite ?p ?xs ?m !! ?i] => rewrite (lookup_overwrite p xs m i) by fits
  | |- context [(?l ++ ?k) !! ?i] => rewrite (lookup_app_case l k i)
  | |- context [take ?n ?l !! ?i] => rewrite (lookup_take_case l n i)
  | |- context [drop ?n ?l !! ?i] => rewrite (lookup_drop l n i)
  end;
  repeat (rewrite length_overwrite by fits);
  rewrite ?length_advance, ?length_app, ?length_take, ?length_drop; cbn [length];
  repeat (case_decide; try (exfalso; lia)).

(** Equality of tapes by cases on the index. *)
Ltac by_cells :=
  apply list_eq; let i := fresh "i" in intros i; repeat cell_step;
  first [done | f_equal; lia | symmetry; apply lookup_ge_None_2; lia
        | apply lookup_ge_None_2; lia | rewrite !lookup_ge_None_2 by lia; done].

(** ** The ring as a tape *)

Lemma ring_write rp o (xs ys buf : list cell) :
  (rp < length buf)%nat -> (o + length xs + length ys <= length buf)%nat -> (o < length buf)%nat ->
  let p := ((rp + o) mod length buf)%nat in
  (ys = [] /\ p + length xs <= length buf \/ p + length xs = length buf)%nat ->
  advance rp (overwrite 0 ys (overwrite p xs buf)) = overwrite o (xs ++ ys) (advance rp buf).
Proof.
  intros Hr Hk Ho p. unfold p. rewrite mod_wrap by lia. intros Hp.
  assert (Hl : (length ys = 0 \/ length ys <= length buf)%nat) by lia.
  destruct Hp as [[-> Hp]|Hp]; cbn [length] in *.
  - rewrite app_nil_r. case_decide; by_cells.
  - case_decide; by_cells.
Qed.

Lemma ring_read rp o k (buf : list cell) :
  (rp < length buf)%nat -> (o + k <= length buf)%nat -> (o < length buf)%nat ->
  let p := ((rp + o) mod length buf)%nat in
  let tail := min k (length buf - p) in
  take tail (drop p buf) ++ take (k - tail) buf = take k (drop o (advance rp buf)).
Proof.
  intros Hr Hk Ho p tail. unfold tail, p. rewrite mod_wrap by lia. case_decide; by_cells.
Qed.

Lemma ring_advance rp k (buf : list cell) :
  (rp < length buf)%nat -> (k <= length buf)%nat ->
  advance ((rp + k) mod length buf) buf = advance k (advance rp buf).
Proof. intros Hr Hk. rewrite mod_wrap by lia. case_decide; by_cells. Qed.

Lemma overwrite_twice p xs ys mem :
  (p + length xs + length ys <= length mem)%nat ->
  overwrite (p + length xs) ys (overwrite p xs mem) = overwrite p (xs ++ ys) mem.
Proof. intros H. by_cells. Qed.

(** ** The methods *)

Record on_tape (q : FifoBuffer) (t : tape) : Prop := {
  ot_length : length (buffer_ q) = buffer_length_ q;
  ot_count : (data_length_ q <= buffer_length_ q)%nat;
  ot_position : (read_position_ q < buffer_length_ q)%nat \/ read_position_ q = 0%nat;
  ot_closed : t_closed t = is_closed (state_ q);
  ot_cells : t_cells t = advance (read_position_ q) (buffer_ q);
  ot_tape : t_count t = data_length_ q;
  ot_small : Z.of_nat (buffer_length_ q) < 2 ^ 63
}.

Lemma on_tape_length q t : on_tape q t -> length (t_cells t) = buffer_length_ q.
Proof. intros [L _ _ _ -> _ _]. by rewrite length_advance. Qed.

(** Two copies in a row. *)
Lemma put_two xs ys (memory : list cell) :
  (length xs + length ys <= length memory)%nat ->
  (m ← put 0 xs memory; put (length xs) ys m) = Ok (overwrite 0 (xs ++ ys) memory).
Proof.
  intros H. rewrite put_overwrite, bind_ok by lia.
  rewrite put_overwrite by (rewrite length_overwrite by lia; lia).
  f_equal. exact (overwrite_twice 0 xs ys memory ltac:(lia)).
Qed.

Lemma ReadOffset_spec q t m k o :
  on_tape q t -> (k <= length m)%nat -> 0 <= o ->
  ReadOffsetLocked q m k o =
  Ok (if o <? Z.of_nat (t_count t)
      then let xs := take (min k (t_count t - Z.to_nat o)) (drop (Z.to_nat o) (t_cells t)) in
           (SR_SUCCESS, overwrite 0 xs m, length xs)
      else (if t_closed t then SR_EOS else SR_BLOCK, m, 0%nat)).
Proof.
  intros Q Hk H0. pose proof (on_tape_length q t Q) as Lt. destruct Q as [L C P Ecl Ec En Sm].
  unfold ReadOffsetLocked. rewrite En, Ecl. destruct (Z.ltb_spec o (Z.of_nat (data_length_ q))) as [Ho|Ho].
  2:{ rewrite (proj2 (Z.leb_le _ _)) by done. by destruct (is_closed (state_ q)). }
  rewrite (proj2 (Z.leb_gt _ _)) by done. rewrite <- (Z2Nat.id o H0) in *. rewrite Nat2Z.id.
  set (o' := Z.to_nat o) in *. clearbody o'. clear o H0. rename o' into o. cbv zeta.
  rewrite size_plus_ok, size_minus_ok, size_rem_ok, bind_ok by lia.
  rewrite <- Nat2Z.inj_min, Nat2Z.id.
  rewrite <- L. set (p := ((read_position_ q + o) mod length (buffer_ q))%nat).
  set (copy := min k (data_length_ q - o)). set (tail := min copy (length (buffer_ q) - p)).
  assert (Hp : (p < length (buffer_ q))%nat) by (apply Nat.mod_upper_bound; lia).
  set (xs := view tail p (buffer_ q)). set (ys := view (copy - tail) 0 (buffer_ q)).
  assert (Lx : length xs = tail) by (unfold xs, view; rewrite length_take, length_drop; lia).
  assert (Hw : (copy - tail <= length (buffer_ q))%nat) by (unfold copy; lia).
  assert (Ly : length ys = (copy - tail)%nat)
    by (unfold ys, view; rewrite length_take, length_drop; lia).
  assert (E : xs ++ ys = take copy (drop o (advance (read_position_ q) (buffer_ q)))).
  { unfold xs, ys, view. rewrite drop_0. apply ring_read; unfold copy; lia. }
  assert (F : fetch (copy - tail) 0 (buffer_ q) = Ok ys) by (apply fetch_ok; lia).
  assert (F0 : fetch tail p (buffer_ q) = Ok xs) by (apply fetch_ok; lia). rewrite F0, bind_ok.
  pose proof (put_two xs ys m ltac:(unfold copy in *; lia)) as W.
  rewrite put_overwrite, bind_ok in W by (unfold copy in *; lia).
  rewrite put_overwrite, bind_ok, F, bind_ok by (unfold copy in *; lia).
  rewrite Lx in W. rewrite W, bind_ok, Ec, E. do 3 f_equal.
  rewrite length_take, length_drop, length_advance. unfold copy. lia.
Qed.

Lemma WriteOffset_spec q t d o w :
  on_tape q t -> offset_position (t_count t) o = w ->
  WriteOffsetLocked q d (length d) o =
  Ok (if t_closed t then (SR_EOS, q, 0%nat)
      else if Z.of_nat (length (t_cells t)) <=? w then (SR_BLOCK, q, 0%nat)
      else let w := Z.to_nat w in
           let n := min (length d) (length (t_cells t) - w) in
           let p := ((read_position_ q + w) mod length (buffer_ q))%nat in
           let tail := min n (length (buffer_ q) - p) in
           (SR_SUCCESS,
            MkFifo (state_ q) (overwrite 0 (view (n - tail) tail d) (overwrite p (take tail d) (buffer_ q)))
              (buffer_length_ q) (data_length_ q) (read_position_ q), n)).
Proof.
  intros Q Ew. pose proof (on_tape_length q t Q) as Lt. destruct Q as [L C P Ecl Ec En Sm].
  unfold WriteOffsetLocked. rewrite Ecl. destruct (is_closed (state_ q)); [done|]. cbv zeta.
  assert (Hw : 0 <= w) by (rewrite <- Ew; apply Z.mod_pos_bound; lia).
  rewrite Lt. rewrite En in Ew. change (size_plus (Z.of_nat (data_length_ q)) o) with (offset_position (data_length_ q) o).
  rewrite Ew. destruct (Z.leb_spec (Z.of_nat (buffer_length_ q)) w) as [Ho|Ho]; [done|].
  rewrite <- (Z2Nat.id w Hw) in Ew, Ho. set (w' := Z.to_nat w) in *. clearbody w'. clear w Hw. rename w' into w.
  rewrite (offset_place _ _ _ w), size_rem_ok, bind_ok, (offset_room _ _ _ w) by (done || lia).
  rewrite <- Nat2Z.inj_min, Nat2Z.id, <- L.
  set (p := ((read_position_ q + w) mod length (buffer_ q))%nat).
  set (n := min (length d) (length (buffer_ q) - w)).
  set (tail := min n (length (buffer_ q) - p)).
  assert (Hp : (p < length (buffer_ q))%nat) by (apply Nat.mod_upper_bound; lia).
  assert (F0 : fetch tail 0 d = Ok (take tail d)) by (apply fetch_prefix; lia).
  assert (F1 : fetch (n - tail) tail d = Ok (view (n - tail) tail d)) by (apply fetch_ok; lia).
  assert (L0 : length (take tail d) = tail) by (rewrite length_take; lia).
  assert (L1 : length (view (n - tail) tail d) = (n - tail)%nat)
    by (unfold view; rewrite length_take, length_drop; lia).
  rewrite F0, bind_ok, put_overwrite, bind_ok, F1, bind_ok by (rewrite L0; lia).
  rewrite put_overwrite, bind_ok; [done|]. rewrite length_overwrite by (rewrite L0; lia). lia.
Qed.

(** The bytes written, on the tape. *)
Lemma written_tape q t d w :
  on_tape q t -> (w < length (t_cells t))%nat ->
  let n := min (length d) (length (t_cells t) - w) in
  let p := ((read_position_ q + w) mod length (buffer_ q))%nat in
  let tail := min n (length (buffer_ q) - p) in
  let b := overwrite 0 (view (n - tail) tail d) (overwrite p (take tail d) (buffer_ q)) in
  length b = length (buffer_ q) /\
  advance (read_position_ q) b = overwrite w (take n d) (t_cells t).
Proof.
  intros Q Ho n p tail b. pose proof (on_tape_length q t Q) as Lt. destruct Q as [L C P Ecl Ec En Sm].
  rewrite Lt, <- L in *. assert (Hr : (read_position_ q < length (buffer_ q))%nat) by lia.
  assert (Hp : (p < length (buffer_ q))%nat) by (apply Nat.mod_upper_bound; lia).
  assert (L0 : length (take tail d) = tail) by (rewrite length_take; lia).
  assert (L1 : length (view (n - tail) tail d) = (n - tail)%nat)
    by (unfold view; rewrite length_take, length_drop; lia).
  split.
  - unfold b. rewrite !length_overwrite; [done|rewrite L0; lia|].
    rewrite length_overwrite by (rewrite L0; lia). lia.
  - unfold b, p. rewrite ring_write; [|done|rewrite L0, L1; lia|done|].
    + rewrite Ec. f_equal. unfold view. rewrite <- (take_drop tail (take n d)) at 1.
      rewrite take_take, Nat.min_l by lia. f_equal. apply list_eq. intros i.
      rewrite lookup_take_case, !lookup_drop, lookup_take_case. repeat case_decide; (done || lia).
    + fold p. rewrite L0. destruct (Nat.le_gt_cases n (length (buffer_ q) - p)) as [Hle|Hgt].
      * left. split; [|lia]. apply length_zero_iff_nil. lia.
      * right. lia.
Qed.

Lemma full_count q t :
  on_tape q t -> negb (data_length_ q <? buffer_length_ q)%nat = (t_count t =? length (t_cells t))%nat.
Proof.
  intros Q. rewrite (on_tape_length q t Q). destruct Q as [L C P Ecl Ec En Sm]. rewrite En.
  apply eq_true_iff_eq. rewrite negb_true_iff, Nat.ltb_ge, Nat.eqb_eq. lia.
Qed.

Lemma empty_count q t :
  on_tape q t -> negb (0 <? data_length_ q)%nat = (t_count t =? 0)%nat.
Proof.
  intros [L C P Ecl Ec En Sm]. rewrite En. apply eq_true_iff_eq.
  rewrite negb_true_iff, Nat.ltb_ge, Nat.eqb_eq. lia.
Qed.

(** The read position moves on. *)
Lemma on_tape_advance q t k :
  on_tape q t -> (k <= t_count t)%nat -> (0 < length (t_cells t))%nat ->
  on_tape (with_positions q (data_length_ q - k) ((read_position_ q + k) mod buffer_length_ q))
    (MkTape (t_closed t) (advance k (t_cells t)) (t_count t - k)).
Proof.
  intros Q Hk Hl. pose proof (on_tape_length q t Q) as Lt. destruct Q as [L C P Ecl Ec En Sm].
  constructor; cbn [state_ buffer_ buffer_length_ data_length_ read_position_ with_positions
                    t_closed t_cells t_count].
  - done.
  - lia.
  - left. apply Nat.mod_upper_bound. lia.
  - done.
  - rewrite Ec, <- L. symmetry. apply ring_advance; lia.
  - lia.
  - done.
Qed.

Lemma Read_spec q t m k :
  on_tape q t -> (k <= length m)%nat ->
  exists q', fifo_run q (FRead m k) = Ok (fst (fifo_spec t (FRead m k)), q') /\
             on_tape q' (snd (fifo_spec t (FRead m k))).
Proof.
  intros Q Hk. pose proof (on_tape_length q t Q) as Lt. cbn [fifo_run]. unfold Read.
  rewrite (ReadOffset_spec q t m k 0 Q Hk (Z.le_refl 0)), bind_ok.
  destruct t as [closed cells n]; cbn [t_closed t_cells t_count fifo_spec] in *.
  change (0 <? Z.of_nat n) with (Z.of_nat 0 <? Z.of_nat n).
  destruct (Nat.ltb_spec 0 n) as [Hn|Hn].
  2:{ rewrite (proj2 (Z.ltb_ge _ _)) by lia. exists q. by destruct closed. }
  rewrite (proj2 (Z.ltb_lt _ _)), Nat.sub_0_r, drop_0 by lia. set (xs := take (min k n) cells). cbv zeta.
  assert (Lb : (n <= length cells)%nat) by (rewrite Lt; destruct Q; cbn in *; lia).
  assert (Lx : (length xs <= n)%nat) by (unfold xs; rewrite length_take; lia).
  rewrite size_plus_ok, size_rem_ok, bind_ok, bind_ok by (destruct Q; lia). eexists. split.
  - cbn [fst]. pose proof (full_count _ _ Q) as Hf. cbn [t_count t_cells] in Hf. by rewrite Hf.
  - exact (on_tape_advance q _ (length xs) Q Lx ltac:(cbn; lia)).
Qed.

(** The buffer after a write, which counts [k] bytes more. *)
Lemma on_tape_written q t d w k :
  on_tape q t -> (w < length (t_cells t))%nat ->
  let n := min (length d) (length (t_cells t) - w) in
  let p := ((read_position_ q + w) mod length (buffer_ q))%nat in
  let tail := min n (length (buffer_ q) - p) in
  let b := overwrite 0 (view (n - tail) tail d) (overwrite p (take tail d) (buffer_ q)) in
  (t_count t + k <= length (t_cells t))%nat ->
  on_tape (MkFifo (state_ q) b (buffer_length_ q) (data_length_ q + k) (read_position_ q))
    (MkTape (t_closed t) (overwrite w (take n d) (t_cells t)) (t_count t + k)).
Proof.
  intros Q Ho n p tail b Hk. destruct (written_tape q t d w Q Ho) as [Lb Eb].
  fold n p tail b in Lb, Eb. pose proof (on_tape_length q t Q) as Lt.
  destruct Q as [L C P Ecl Ec En Sm].
  constructor; cbn [state_ buffer_ buffer_length_ data_length_ read_position_ t_closed t_cells t_count];
    (done || lia).
Qed.

(** The data that fit. *)
Lemma take_fits {A} (d : list A) room : take (min (length d) room) d = take room d.
Proof. destruct (Nat.le_gt_cases (length d) room); [rewrite !take_ge; (done || lia)|f_equal; lia]. Qed.

Lemma Write_spec q t d :
  on_tape q t ->
  exists q', fifo_run q (FWrite d) = Ok (fst (fifo_spec t (FWrite d)), q') /\
             on_tape q' (snd (fifo_spec t (FWrite d))).
Proof.
  intros Q. cbn [fifo_run]. unfold Write.
  assert (Hc : (t_count t <= length (t_cells t))%nat /\ Z.of_nat (length (t_cells t)) < 2 ^ 63)
    by (rewrite (on_tape_length q t Q); destruct Q; lia).
  rewrite (WriteOffset_spec q t d 0 (Z.of_nat (t_count t)) Q), bind_ok by (apply offset_none; lia).
  pose proof (empty_count _ _ Q) as He. pose proof (on_tape_written q t d (t_count t)) as Hw.
  destruct t as [closed cells n]; cbn [t_closed t_cells t_count fifo_spec] in *.
  destruct closed; [by exists q|].
  destruct (Z.leb_spec (Z.of_nat (length cells)) (Z.of_nat n)) as [Hn|Hn].
  { rewrite (proj2 (Nat.leb_le _ _)) by lia. by exists q. }
  rewrite (proj2 (Nat.leb_gt _ _)) by lia.
  cbv zeta. rewrite Nat2Z.id, bind_ok. unfold with_positions.
  cbn [state_ buffer_ buffer_length_ data_length_ read_position_].
  assert (Lx : length (take (length cells - n) d) = min (length d) (length cells - n))
    by (rewrite length_take; lia).
  rewrite Lx. eexists. split; [cbn [fst]; by rewrite He|]. cbn [snd].
  rewrite <- (take_fits d (length cells - n)).
  apply Hw; [done|lia|lia].
Qed.

Lemma WriteOffset_run q t d o :
  on_tape q t ->
  exists q', fifo_run q (FWriteOffset d o) = Ok (fst (fifo_spec t (FWriteOffset d o)), q') /\
             on_tape q' (snd (fifo_spec t (FWriteOffset d o))).
Proof.
  intros Q. cbn [fifo_run]. unfold WriteOffset. rewrite (WriteOffset_spec q t d o _ Q eq_refl), bind_ok.
  pose proof (on_tape_written q t d (Z.to_nat (offset_position (t_count t) o)) 0) as Hw.
  assert (Hc : (t_count t <= length (t_cells t))%nat)
    by (rewrite (on_tape_length q t Q); destruct Q; lia).
  destruct t as [closed cells n]; cbn [t_closed t_cells t_count fifo_spec] in *.
  destruct closed; [by exists q|]. set (w := offset_position n o) in *.
  assert (Hw0 : 0 <= w) by (apply Z.mod_pos_bound; lia).
  destruct (Z.leb_spec (Z.of_nat (length cells)) w) as [Hn|Hn]; [by exists q|]. cbv zeta in Hw |- *.
  assert (Lx : length (take (length cells - Z.to_nat w) d) = min (length d) (length cells - Z.to_nat w))
    by (rewrite length_take; lia).
  rewrite Lx. eexists. split; [done|]. cbn [snd].
  rewrite <- (take_fits d (length cells - Z.to_nat w)).
  rewrite !Nat.add_0_r in Hw. apply Hw; [done|lia|lia].
Qed.

Lemma SetCapacity_spec q t size :
  on_tape q t -> Z.of_nat size < 2 ^ 63 ->
  exists q', fifo_run q (FSetCapacity size) = Ok (fst (fifo_spec t (FSetCapacity size)), q') /\
             on_tape q' (snd (fifo_spec t (FSetCapacity size))).
Proof.
  intros Q Hsize. pose proof (on_tape_length q t Q) as Lt. cbn [fifo_run]. unfold SetCapacity.
  destruct t as [closed cells n]; cbn [fifo_spec t_cells] in *. pose proof Q as [L C P Ecl Ec En Sm].
  cbn [t_closed t_cells t_count] in *. subst n. destruct (size <? data_length_ q)%nat eqn:Hs.
  { rewrite bind_ok. by exists q. }
  apply Nat.ltb_ge in Hs. rewrite Lt. destruct (Nat.eqb_spec size (buffer_length_ q)) as [->|Hne].
  { rewrite bind_ok. by exists q. }
  cbv zeta. rewrite <- L. set (rp := read_position_ q) in *. set (buf := buffer_ q) in *.
  set (copy := data_length_ q) in *. set (tail := min copy (length buf - rp)).
  assert (Hr : (rp <= length buf)%nat) by lia.
  assert (F0 : fetch tail rp buf = Ok (view tail rp buf)) by (apply fetch_ok; lia).
  assert (F1 : fetch (copy - tail) 0 buf = Ok (view (copy - tail) 0 buf)) by (apply fetch_ok; lia).
  assert (L0 : length (view tail rp buf) = tail)
    by (unfold view; rewrite length_take, length_drop; lia).
  assert (L1 : length (view (copy - tail) 0 buf) = (copy - tail)%nat)
    by (unfold view; rewrite length_take, length_drop; lia).
  pose proof (put_two (view tail rp buf) (view (copy - tail) 0 buf) (replicate size None)) as W.
  rewrite L0, L1, length_replicate in W. specialize (W ltac:(lia)).
  rewrite put_overwrite, bind_ok in W by (rewrite L0, length_replicate; lia).
  rewrite F0, bind_ok, put_overwrite, bind_ok, F1, bind_ok, W, bind_ok
    by (rewrite L0, length_replicate; lia).
  rewrite bind_ok. eexists. split; [done|].
  assert (E : view tail rp buf ++ view (copy - tail) 0 buf = take copy cells).
  { rewrite Ec. unfold view. rewrite drop_0. destruct (Nat.eq_dec (length buf) 0) as [E0|H0].
    - apply length_zero_iff_nil in E0. unfold advance. rewrite E0. rewrite !drop_nil, !take_nil.
      cbn [app]. by rewrite take_nil.
    - pose proof (ring_read rp 0 copy buf ltac:(lia) ltac:(lia) ltac:(lia)) as R. cbv zeta in R.
      by rewrite Nat.add_0_r, Nat.mod_small, drop_0 in R by lia. }
  rewrite E. constructor; cbn [state_ buffer_ buffer_length_ data_length_ read_position_ t_closed t_cells t_count snd].
  - rewrite length_overwrite, length_replicate; [done|].
    rewrite length_take, length_replicate. lia.
  - done.
  - by right.
  - done.
  - unfold advance, overwrite. rewrite drop_0, take_0, app_nil_r, drop_replicate, length_take.
    cbn [app]. do 2 f_equal. lia.
  - done.
  - done.
Qed.

(** ** The pointers *)

(** The block to read is the beginning of the readable bytes, all of them unless they wrap
    around. *)
Lemma ReadData_run q t :
  on_tape q t ->
  exists size, fifo_run q FReadData = Ok (FR SR_SUCCESS (take size (t_cells t)) size [], q) /\
    (size <= t_count t)%nat /\ ((0 < t_count t)%nat -> (0 < size)%nat).
Proof.
  intros Q. pose proof (on_tape_length q t Q) as Lt. destruct Q as [L C P Ecl Ec En Sm].
  cbn [fifo_run]. unfold GetReadData. rewrite En, Ec. set (rp := read_position_ q) in *.
  rewrite size_plus_ok by lia. set (size := if Z.of_nat (rp + data_length_ q) <=? Z.of_nat (buffer_length_ q) then data_length_ q
               else (buffer_length_ q - rp)%nat).
  assert (Hs : (size <= data_length_ q /\ rp + size <= length (buffer_ q) /\ (0 < data_length_ q -> 0 < size))%nat).
  { unfold size. destruct (Z.leb_spec (Z.of_nat (rp + data_length_ q)) (Z.of_nat (buffer_length_ q))); lia. }
  exists size. split; [|lia]. rewrite fetch_ok, bind_ok by lia. do 3 f_equal. unfold view, advance.
  by rewrite take_app_le by (rewrite length_drop; lia).
Qed.

Lemma advance_back rp (buf : list cell) :
  (rp <= length buf)%nat -> advance (length buf - rp) (advance rp buf) = buf.
Proof. intros H. by_cells. Qed.

Lemma advance_0 (cells : list cell) : advance 0 cells = cells.
Proof. unfold advance. by rewrite drop_0, take_0, app_nil_r. Qed.

(** The block to write is behind the readable bytes, and in one piece.  An empty buffer is turned
    so that the block is the whole memory. *)
Lemma GetWriteBuffer_spec q t :
  on_tape q t -> t_closed t = false -> t_cells t <> [] ->
  exists p size q' k, GetWriteBuffer q = Ok (Some (p, size), q') /\
    on_tape q' (MkTape false (advance k (t_cells t)) (t_count t)) /\
    (k <= length (t_cells t))%nat /\ (k = 0 \/ t_count t = 0)%nat /\
    p = ((read_position_ q' + t_count t) mod buffer_length_ q')%nat /\
    (p + size <= buffer_length_ q' /\ size <= length (t_cells t) - t_count t)%nat /\
    ((t_count t < length (t_cells t))%nat -> (0 < size)%nat).
Proof.
  intros Q Hc Hl. pose proof (on_tape_length q t Q) as Lt. unfold GetWriteBuffer.
  pose proof Q as [L C P Ecl Ec En Sm]. rewrite <- Ecl, Hc. rewrite En in *.
  assert (Hb : (0 < buffer_length_ q)%nat) by (rewrite <- Lt; destruct (t_cells t); [done|cbn; lia]).
  destruct (Nat.eqb_spec (data_length_ q) 0) as [E0|Hne].
  - cbn [buffer_length_ data_length_ read_position_ with_positions]. change (Z.of_nat 0) with 0.
    change (size_plus 0 0) with (Z.of_nat 0). rewrite size_rem_ok, bind_ok, Nat.Div0.mod_0_l by lia.
    exists 0%nat, (buffer_length_ q - 0)%nat, (with_positions q 0 0), (buffer_length_ q - read_position_ q)%nat.
    rewrite E0, orb_true_r. split; [done|]. split; [|split; [lia|split; [by right|]]].
    + constructor; cbn [state_ buffer_ buffer_length_ data_length_ read_position_ with_positions t_closed t_cells t_count];
        try (done || lia); [congruence|].
      rewrite Ec, advance_0, <- L. apply advance_back. lia.
    + cbn. rewrite Nat.Div0.mod_0_l. lia.
  - rewrite size_plus_ok, size_rem_ok, bind_ok by lia. rewrite (proj2 (Nat.eqb_neq _ _) Hne), orb_false_r.
    set (p := ((read_position_ q + data_length_ q) mod buffer_length_ q)%nat).
    set (size := if (read_position_ q <? p)%nat then (buffer_length_ q - p)%nat
                 else (read_position_ q - p)%nat).
    exists p, size, q, 0%nat. split; [done|]. rewrite advance_0, <- Hc, <- En.
    destruct t as [closed cells n]; cbn [t_closed t_cells t_count] in *.
    split; [done|]. split; [lia|]. split; [by left|]. split; [by rewrite En|]. rewrite Lt. unfold size.
    assert (Hp : p = if decide (read_position_ q + n < buffer_length_ q)%nat
                     then (read_position_ q + n)%nat
                     else (read_position_ q + n - buffer_length_ q)%nat)
      by (unfold p; rewrite <- En; apply mod_wrap; lia).
    destruct (Nat.ltb_spec (read_position_ q) p); case_decide; lia.
Qed.

(** What the caller writes there. *)
Lemma block_written q t p xs :
  on_tape q t -> p = ((read_position_ q + t_count t) mod buffer_length_ q)%nat ->
  (p + length xs <= buffer_length_ q)%nat -> (length xs <= length (t_cells t) - t_count t)%nat ->
  t_cells t <> [] ->
  put p xs (buffer_ q) = Ok (overwrite p xs (buffer_ q)) /\
  on_tape (MkFifo (state_ q) (overwrite p xs (buffer_ q)) (buffer_length_ q) (data_length_ q) (read_position_ q))
    (MkTape (t_closed t) (overwrite (t_count t) xs (t_cells t)) (t_count t)).
Proof.
  intros Q Ep Hp Hx Hne. pose proof (on_tape_length q t Q) as Lt. destruct Q as [L C P Ecl Ec En Sm].
  assert (Hb : (0 < buffer_length_ q)%nat) by (rewrite <- Lt; destruct (t_cells t); [done|cbn; lia]).
  split; [apply put_overwrite; lia|].
  constructor; cbn [state_ buffer_ buffer_length_ data_length_ read_position_ t_closed t_cells t_count]; try (done || lia).
  - rewrite length_overwrite by lia. done.
  - rewrite Ec. destruct (Nat.eq_dec (t_count t) (buffer_length_ q)) as [Ef|Hf].
    + destruct xs as [|x xs]; [|cbn in *; lia]. unfold overwrite. cbn [app length].
      by rewrite !Nat.add_0_r, !take_drop.
    + pose proof (ring_write (read_position_ q) (t_count t) xs [] (buffer_ q)) as R. cbv zeta in R.
      rewrite L, <- Ep, app_nil_r in R. rewrite <- R by (cbn [length]; first [lia|left; split; [done|lia]]).
      f_equal.
Qed.

Lemma WriteBuffer_run q t d :
  on_tape q t -> t_closed t = true \/ t_cells t <> [] ->
  exists r q' t', fifo_run q (FWriteBuffer d) = Ok (r, q') /\ fifo_does t (FWriteBuffer d) r t' /\ on_tape q' t'.
Proof.
  intros Q H. cbn [fifo_run]. destruct (t_closed t) eqn:Hc.
  - unfold GetWriteBuffer. rewrite <- (ot_closed _ _ Q), Hc, bind_ok.
    do 3 eexists. split; [done|]. split; [|exact Q]. destruct t; cbn in *. by subst.
  - destruct H as [|H]; [done|].
    destruct (GetWriteBuffer_spec q t Q Hc H) as (p & size & q' & k & -> & Q' & Hk & H0 & Ep & [Hs1 Hs2] & Hs).
    rewrite bind_ok. assert (Lx : (length (take size d) <= size)%nat) by (rewrite length_take; lia).
    destruct (block_written q' _ p (take size d) Q' Ep) as [-> Q'']; cbn [t_cells t_count].
    { lia. } { rewrite length_advance. lia. }
    { intros E. apply (f_equal length) in E. rewrite length_advance in E. by destruct (t_cells t). }
    rewrite bind_ok. do 3 eexists. split; [done|]. split; [|exact Q''].
    destruct t as [closed cells n]; cbn in Hc, Hk, H0, Hs2, Hs |- *. subst closed. by exists size, k.
Qed.

(** Every call on a buffer does what it does on the tape. *)
Lemma fifo_step q t c :
  on_tape q t -> fifo_call_ok t c ->
  exists r q' t', fifo_run q c = Ok (r, q') /\ fifo_does t c r t' /\ on_tape q' t'.
Proof.
  intros Q H. assert (Known : (exists q', fifo_run q c = Ok (fst (fifo_spec t c), q') /\ on_tape q' (snd (fifo_spec t c))) ->
    match c with FReadData | FWriteBuffer _ => False | _ => True end ->
    exists r q' t', fifo_run q c = Ok (r, q') /\ fifo_does t c r t' /\ on_tape q' t').
  { intros (q' & E & Q') Hc. exists (fst (fifo_spec t c)), q', (snd (fifo_spec t c)). split; [done|].
    split; [|done]. destruct t, c; cbn [fifo_does]; done || by rewrite <- surjective_pairing. }
  destruct c as [m k|d|m k o|d o| |k|d|k|size|]; try (apply Known; [|done]); clear Known.
  - apply Read_spec; [done|]. by destruct t.
  - by apply Write_spec.
  - destruct t as [closed cells n]. destruct H as [Hk [Ho _]]. exists q. cbn [fifo_run fifo_spec]. unfold ReadOffset.
    rewrite (ReadOffset_spec q _ m k o Q Hk Ho), bind_ok. cbn [t_closed t_cells t_count].
    by destruct (o <? Z.of_nat n).
  - by apply WriteOffset_run.
  - destruct (ReadData_run q t Q) as (size & E & Hs & Hp). do 3 eexists. split; [exact E|]. split; [|exact Q].
    destruct t; cbn in *. by exists size.
  - pose proof (full_count _ _ Q) as Hf. pose proof (on_tape_advance q t k Q) as Ha.
    pose proof (on_tape_length q t Q) as Lt.
    destruct t as [closed cells n]; cbn [fifo_run fifo_spec fifo_call_ok t_closed t_cells t_count] in *.
    destruct H as [Hk Hne]. unfold ConsumeReadData. pose proof Q as [L C P Ecl Ec En Sm].
    cbn in En. subst n. rewrite (proj2 (Nat.leb_le _ _)) by done. cbn [negb].
    assert (Hl : (0 < length cells)%nat) by (destruct cells; [done|cbn; lia]).
    rewrite size_plus_ok, size_rem_ok, bind_ok, bind_ok by lia. eexists. split; [by rewrite Hf|]. by apply Ha.
  - apply WriteBuffer_run; [done|]. by destruct t.
  - pose proof (empty_count _ _ Q) as He. pose proof (on_tape_length q t Q) as Lt.
    destruct t as [closed cells n]; cbn [fifo_run fifo_spec fifo_call_ok t_closed t_cells t_count] in *.
    unfold ConsumeWriteBuffer. pose proof Q as [L C P Ecl Ec En Sm]. cbn in En. subst n.
    rewrite (proj2 (Nat.leb_le _ _)) by lia. cbn [negb]. rewrite bind_ok.
    eexists. split; [by rewrite He|]. constructor; cbn in *; (done || lia).
  - apply SetCapacity_spec; [done|]. by destruct t.
  - destruct t as [closed cells n]. exists (Close q). split; [done|].
    destruct Q as [L C P Ecl Ec En Sm]. constructor; cbn in *; done.
Qed.

Fixpoint fifo_runs (q : FifoBuffer) (cs : list fifo_call) : res (list fifo_result * FifoBuffer) :=
  match cs with
  | [] => Ok ([], q)
  | c :: cs => '(r, q) ← fifo_run q c; '(rs, q) ← fifo_runs q cs; Ok (r :: rs, q)
  end.

(** The results that a tape allows, and the tape after the calls. *)
Inductive fifo_trace : tape -> list fifo_call -> list fifo_result -> tape -> Prop :=
| fifo_trace_nil t : fifo_trace t [] [] t
| fifo_trace_cons t c r t1 cs rs t2 :
    fifo_does t c r t1 -> fifo_trace t1 cs rs t2 -> fifo_trace t (c :: cs) (r :: rs) t2.

Fixpoint fifo_calls_ok (t : tape) (cs : list fifo_call) : Prop :=
  match cs with
  | [] => True
  | c :: cs => fifo_call_ok t c /\ forall r t', fifo_does t c r t' -> fifo_calls_ok t' cs
  end.

Lemma fifo_runs_tape cs : forall q t, on_tape q t -> fifo_calls_ok t cs ->
  exists rs q' t', fifo_runs q cs = Ok (rs, q') /\ fifo_trace t cs rs t' /\ on_tape q' t'.
Proof.
  induction cs as [|c cs IH]; intros q t Q H; cbn [fifo_runs].
  { exists [], q, t. split; [done|]. split; [constructor|done]. }
  destruct H as [Hc H]. destruct (fifo_step q t c Q Hc) as (r & q1 & t1 & -> & D & Q1). rewrite bind_ok.
  destruct (IH q1 t1 Q1 (H r t1 D)) as (rs & q2 & t2 & -> & T & Q2). rewrite bind_ok.
  exists (r :: rs), q2, t2. split; [done|]. split; [by eapply fifo_trace_cons|done].
Qed.

Lemma new_on_tape capacity : Z.of_nat capacity < 2 ^ 63 ->
  on_tape (FifoBuffer_new capacity) (MkTape false (replicate capacity None) 0).
Proof.
  intros H. unfold FifoBuffer_new. constructor;
    cbn [state_ buffer_ buffer_length_ data_length_ read_position_ t_closed t_cells t_count];
    try (done || lia); [apply length_replicate|by rewrite advance_0].
Qed.

(** C30: whatever calls reader and writer make in whatever order they get the lock, with the
    memory for what they read, sizes below 2^63 and no more consumed than there is or fits,
    a new buffer returns what a tape of the same capacity allows: bytes come out in the
    order they went in, wherever the ring wraps around and however its capacity is changed
    in between, events are posted exactly when a full buffer gets room or an empty one
    bytes, and no access leaves the ring.  The blocks of [GetReadData] and [GetWriteBuffer]
    lie where the bytes are read and written next, and are not empty when there are bytes
    or room.  A write at an offset lands that far behind the readable bytes; an offset so
    large that its sum with their number wraps around leads into them. *)
Theorem fifo_buffer_tape capacity cs :
  Z.of_nat capacity < 2 ^ 63 -> fifo_calls_ok (MkTape false (replicate capacity None) 0) cs ->
  exists rs q t, fifo_runs (FifoBuffer_new capacity) cs = Ok (rs, q) /\
    fifo_trace (MkTape false (replicate capacity None) 0) cs rs t /\ on_tape q t.
Proof. intros Hc H. apply fifo_runs_tape; [by apply new_on_tape|done]. Qed.

(** Five bytes through a ring of four, which grows in between; the last two are written in
    advance. *)
Lemma fifo_buffer_tape_witness :
  let cs := [FWrite [Some 1; Some 2; Some 3]; FRead [None; None] 2; FWriteOffset [Some 4; Some 5] 0;
             FConsumeWrite 2; FSetCapacity 5; FRead [None; None; None] 3; FClose; FRead [] 0] in
  fifo_calls_ok (MkTape false (replicate 4 None) 0) cs /\
  exists rs q t, fifo_runs (FifoBuffer_new 4) cs = Ok (rs, q) /\
    fifo_trace (MkTape false (replicate 4 None) 0) cs rs t /\ on_tape q t.
Proof.
  intros cs. assert (H : fifo_calls_ok (MkTape false (replicate 4 None) 0) cs).
  { cbn; repeat (split; [lia || done|]; intros r t' E; vm_compute in E; injection E as -> ->; cbn). exact I. }
  split; [exact H|]. apply (fifo_buffer_tape 4 cs); [lia|exact H].
Defined.

(** The results of calls on a new buffer of four bytes. *)
Definition fifo_results (cs : list fifo_call) : res (list fifo_result) :=
  '(rs, _) ← fifo_runs (FifoBuffer_new 4) cs; Ok rs.

(** The blocks of the pointers, as far as the ring goes. *)
Example pointer_blocks :
  fifo_results
    [FWriteBuffer [Some 1; Some 2; Some 3]; FConsumeWrite 3; FReadData; FConsumeRead 2;
     FWriteBuffer [Some 4; Some 5; Some 6]; FConsumeWrite 1; FWriteBuffer [Some 7; Some 8; Some 9];
     FConsumeWrite 2; FReadData] =
  Ok [FR SR_SUCCESS [] 4 []; FR SR_SUCCESS [] 0 [SE_READ]; FR SR_SUCCESS [Some 1; Some 2; Some 3] 3 [];
      FR SR_SUCCESS [] 0 []; FR SR_SUCCESS [] 1 []; FR SR_SUCCESS [] 0 []; FR SR_SUCCESS [] 2 [];
      FR SR_SUCCESS [] 0 []; FR SR_SUCCESS [Some 3; Some 4] 2 []].
Proof. vm_compute. reflexivity. Qed.

(** An offset that wraps around: the write goes over the bytes that wait to be read. *)
Example offset_overwrites :
  fifo_results [FWrite [Some 1; Some 2]; FWriteOffset [Some 9] (2 ^ 64 - 2); FRead [None; None] 2] =
  Ok [FR SR_SUCCESS [] 2 [SE_READ]; FR SR_SUCCESS [] 1 []; FR SR_SUCCESS [Some 9; Some 2] 2 []].
Proof. vm_compute. reflexivity. Qed.

(** A buffer without capacity: asking for its memory divides by zero. *)
Example no_capacity : GetWriteBuffer (FifoBuffer_new 0) = Fault DivByZero.
Proof. reflexivity. Qed.
