(* ===== verification/BufferQueue.v ===== *)
(** * The queue of byte strings

    [base/bufferqueue.{h,cc}]: a bounded queue of byte strings that keeps the buffers it
    has emptied and fills them again.  Every method holds the lock of the queue from
    its beginning to its end, so that each is one step of an interleaving.  A buffer
    is in one of the two lists, so that pointers to buffers are modelled by the
    buffers. *)
From S2P Require Import Prelude CInt AudioUtil ChannelBuffer CowBuffer.

Record BufferQueue := MkBufferQueue {
  bq_capacity_ : nat;
  default_size_ : nat;
  bq_queue_ : list Buffer;
  free_list_ : list Buffer
}.

Definition BufferQueue_new (capacity default_size : nat) : BufferQueue :=
  MkBufferQueue capacity default_size [] [].

Definition bq_size (q : BufferQueue) : nat := length (bq_queue_ q).

(** The loop of [Clear]. *)
Fixpoint drain (queue free : list Buffer) : list Buffer * list Buffer :=
  match queue with
  | [] => ([], free)
  | front :: queue => drain queue (free ++ [front])
  end.

Definition bq_Clear (q : BufferQueue) : BufferQueue :=
  let '(queue, free) := drain (bq_queue_ q) (free_list_ q) in
  MkBufferQueue (bq_capacity_ q) (default_size_ q) queue free.

(** What a read returns: the memory of the caller, the number of bytes read, and
    whether [NotifyWritableForTest] was called; nothing when the queue is empty. *)
Definition ReadFront (q : BufferQueue) (memory : list cell) (bytes : nat)
    : res (option (list cell * nat * bool) * BufferQueue) :=
  match bq_queue_ q with
  | [] => Ok (None, q)
  | packet :: queue =>
      let was_writable := (length (bq_queue_ q) <? bq_capacity_ q)%nat in
      let bytes := min bytes (size_ packet) in
      xs ← fetch bytes 0 (data_ packet);
      memory ← put 0 xs memory;
      Ok (Some (memory, bytes, negb was_writable),
          MkBufferQueue (bq_capacity_ q) (default_size_ q) queue (free_list_ q ++ [packet]))
  end.

(** The last element of a vector, and the vector after [pop_back]. *)
Definition pop_back (l : list Buffer) : option (Buffer * list Buffer) :=
  match reverse l with x :: l => Some (x, reverse l) | [] => None end.

(** What a write returns: the number of bytes written, and whether
    [NotifyReadableForTest] was called; nothing when the queue is full. *)
Definition WriteBack (q : BufferQueue) (buffer : list cell) (bytes : nat)
    : res (option (nat * bool) * BufferQueue) :=
  if (length (bq_queue_ q) =? bq_capacity_ q)%nat then Ok (None, q) else
  let was_readable := negb (length (bq_queue_ q) =? 0)%nat in
  let '(packet, free) := match pop_back (free_list_ q) with
                         | Some r => r
                         | None => (Buffer_new bytes (default_size_ q), free_list_ q)
                         end in
  packet ← Buffer_SetData packet buffer bytes;
  Ok (Some (bytes, negb was_readable),
      MkBufferQueue (bq_capacity_ q) (default_size_ q) (bq_queue_ q ++ [packet]) free).

(** ** The queue as a machine *)

Inductive bq_call :=
| BqWrite (data : list cell)
| BqRead (memory : list cell) (bytes : nat)
| BqClear
| BqSize.

Inductive bq_result :=
| Wrote (r : option (nat * bool))
| Read (r : option (list cell * nat * bool))
| Cleared
| Size (n : nat).

Definition bq_run (q : BufferQueue) (c : bq_call) : res (bq_result * BufferQueue) :=
  match c with
  | BqWrite d => '(r, q) ← WriteBack q d (length d); Ok (Wrote r, q)
  | BqRead m n => '(r, q) ← ReadFront q m n; Ok (Read r, q)
  | BqClear => Ok (Cleared, bq_Clear q)
  | BqSize => Ok (Size (bq_size q), q)
  end.

Fixpoint bq_runs (q : BufferQueue) (cs : list bq_call)
    : res (list bq_result * BufferQueue) :=
  match cs with
  | [] => Ok ([], q)
  | c :: cs => '(r, q) ← bq_run q c; '(rs, q) ← bq_runs q cs; Ok (r :: rs, q)
  end.

(** A queue of at most [n] byte strings.  Readers are notified of the first one,
    writers of the first free place; a string that does not fit the memory of the
    reader is cut off, and its rest is lost. *)
Definition bq_spec (n : nat) (l : list (list cell)) (c : bq_call)
    : bq_result * list (list cell) :=
  match c with
  | BqWrite d =>
      if (length l <? n)%nat
      then (Wrote (Some (length d, bool_decide (l = []))), l ++ [d]) else (Wrote None, l)
  | BqRead m k =>
      match l with
      | [] => (Read None, l)
      | x :: rest => let y := take k x in
          (Read (Some (y ++ drop (length y) m, length y, (length l =? n)%nat)), rest)
      end
  | BqClear => (Cleared, [])
  | BqSize => (Size (length l), l)
  end.

Fixpoint bq_specs (n : nat) (l : list (list cell)) (cs : list bq_call)
    : list bq_result * list (list cell) :=
  match cs with
  | [] => ([], l)
  | c :: cs => let '(r, l) := bq_spec n l c in
               let '(rs, l) := bq_specs n l cs in (r :: rs, l)
  end.

(** * Lemmas *)

Record queued (n : nat) (q : BufferQueue) (l : list (list cell)) : Prop := {
  qd_capacity : bq_capacity_ q = n;
  qd_bound : (length l <= n)%nat;
  qd_queue : map bytes (bq_queue_ q) = l;
  qd_buffers : Forall buffer_ok (bq_queue_ q);
  qd_free : Forall buffer_ok (free_list_ q)
}.

(** The memory of a reader has room for what it asks for. *)
Definition bq_call_ok (c : bq_call) : Prop :=
  match c with BqRead m k => (k <= length m)%nat | _ => True end.

Lemma drain_eq queue free : drain queue free = ([], free ++ queue).
Proof.
  revert free. induction queue as [|x queue IH]; intros free; cbn [drain].
  - by rewrite app_nil_r.
  - by rewrite IH, <- app_assoc.
Qed.

Lemma pop_back_ok l :
  Forall buffer_ok l ->
  match pop_back l with Some (x, l') => buffer_ok x /\ Forall buffer_ok l' | None => True end.
Proof.
  intros H. unfold pop_back. apply Forall_reverse in H.
  destruct (reverse l) as [|x l'] eqn:E; [done|].
  split; [exact (Forall_inv H)|]. apply Forall_reverse. exact (Forall_inv_tail H).
Qed.

Lemma queued_length n q l : queued n q l -> length (bq_queue_ q) = length l.
Proof. intros [_ _ <- _ _]. by rewrite length_map. Qed.

Lemma WriteBack_spec n q l d :
  queued n q l ->
  exists r q' l', WriteBack q d (length d) = Ok (r, q') /\
    bq_spec n l (BqWrite d) = (Wrote r, l') /\ queued n q' l'.
Proof.
  intros Q. pose proof (queued_length _ _ _ Q) as L. pose proof Q as [C B E F G].
  unfold WriteBack. cbn [bq_spec]. rewrite L, C.
  destruct (Nat.eqb_spec (length l) n) as [Hn|Hn].
  { rewrite (proj2 (Nat.ltb_ge _ _)) by lia. by exists None, q, l. }
  rewrite (proj2 (Nat.ltb_lt _ _)) by lia.
  set (p := match pop_back (free_list_ q) with Some r => r | None => _ end).
  assert (Hp : buffer_ok (fst p) /\ Forall buffer_ok (snd p)).
  { pose proof (pop_back_ok _ G) as H. unfold p.
    destruct (pop_back (free_list_ q)) as [[x l']|]; [done|]. split; [apply Buffer_new_ok|done]. }
  destruct p as [packet free]. cbn [fst snd] in Hp. destruct Hp as [Hb Hf].
  destruct (Buffer_SetData_spec packet d (length d) Hb (le_n _)) as (b' & -> & Hb' & Eb & _).
  rewrite take_ge in Eb by done. rewrite bind_ok. do 3 eexists. split; [done|]. split.
  - f_equal. repeat f_equal. rewrite negb_involutive. by destruct l.
  - constructor; cbn [bq_capacity_ bq_queue_ free_list_].
    + done.
    + rewrite length_app. cbn. lia.
    + rewrite map_app. cbn. by rewrite E, Eb.
    + apply Forall_app. split; [done|]. by constructor.
    + done.
Qed.

Lemma ReadFront_spec n q l m k :
  queued n q l -> (k <= length m)%nat ->
  exists r q' l', ReadFront q m k = Ok (r, q') /\
    bq_spec n l (BqRead m k) = (Read r, l') /\ queued n q' l'.
Proof.
  intros Q Hk. pose proof (queued_length _ _ _ Q) as L. pose proof Q as [C B E F G].
  unfold ReadFront. destruct (bq_queue_ q) as [|p rest] eqn:Eq.
  { cbn in E. subst l. by exists None, q, []. }
  cbn in E. subst l. pose proof (Forall_inv F) as Hp. pose proof (Forall_inv_tail F) as Hr.
  cbn [bq_spec]. pose proof Hp as [Lp Sp].
  assert (Ey : take (min k (size_ p)) (data_ p) = take k (bytes p))
    by (unfold bytes; by rewrite take_take).
  assert (Ly : length (take k (bytes p)) = min k (size_ p))
    by (rewrite length_take, length_bytes by done; done).
  rewrite fetch_prefix, bind_ok, Ey by lia. rewrite put_splice, bind_ok by (rewrite Ly; lia).
  do 3 eexists. split; [done|]. split.
  - cbv zeta. rewrite C, Ly, take_0, app_nil_l, Nat.add_0_l. repeat f_equal.
    cbn [length] in *. rewrite L. apply eq_true_iff_eq.
    rewrite negb_true_iff, Nat.ltb_ge, Nat.eqb_eq. lia.
  - constructor; cbn [bq_capacity_ bq_queue_ free_list_]; [done|cbn in B; lia|done|done|].
    apply Forall_app. split; [done|]. by constructor.
Qed.

Lemma bq_Clear_spec n q l : queued n q l -> queued n (bq_Clear q) [].
Proof.
  intros [C B E F G]. unfold bq_Clear. rewrite drain_eq.
  constructor; cbn; [done|lia|done|done|]. by apply Forall_app.
Qed.

Lemma bq_run_spec n q l c :
  queued n q l -> bq_call_ok c ->
  exists q', bq_run q c = Ok (fst (bq_spec n l c), q') /\ queued n q' (snd (bq_spec n l c)).
Proof.
  intros Q Hc. destruct c as [d|m k| |]; cbn [bq_run].
  - destruct (WriteBack_spec n q l d Q) as (r & q' & l' & -> & -> & Q'). rewrite bind_ok. by exists q'.
  - destruct (ReadFront_spec n q l m k Q Hc) as (r & q' & l' & -> & -> & Q').
    rewrite bind_ok. by exists q'.
  - exists (bq_Clear q). split; [done|]. by apply (bq_Clear_spec n q l).
  - exists q. split; [|done]. unfold bq_size. by rewrite (queued_length _ _ _ Q).
Qed.

(** Whatever calls readers and writers make, in whatever order they get the lock: a new
    queue returns what a bounded list of byte strings returns, and no buffer is
    accessed out of its bounds although emptied buffers are filled again. *)
Lemma buffer_queue_fifo capacity default_size cs :
  Forall bq_call_ok cs ->
  exists q, bq_runs (BufferQueue_new capacity default_size) cs =
              Ok (fst (bq_specs capacity [] cs), q) /\
    queued capacity q (snd (bq_specs capacity [] cs)).
Proof.
  intros H. assert (Q : queued capacity (BufferQueue_new capacity default_size) [])
    by (constructor; cbn; (done || lia)).
  revert Q. generalize (BufferQueue_new capacity default_size) as q, (@nil (list cell)) as l.
  induction H as [|c cs Hc H IH]; intros q l Q; cbn [bq_runs bq_specs]; [by exists q|].
  destruct (bq_run_spec capacity q l c Q Hc) as (q1 & -> & Q1). rewrite bind_ok.
  destruct (bq_spec capacity l c) as [r l1] eqn:E. cbn [fst snd] in *.
  destruct (IH q1 l1 Q1) as (q2 & -> & Q2). rewrite bind_ok.
  destruct (bq_specs capacity l1 cs) as [rs l2]. by exists q2.
Qed.

(** Two strings in a queue of one place, the first one read in part. *)
Example one_place :
  (fst (bq_specs 1 [] [BqWrite [Some 1; Some 2]; BqWrite [Some 3]; BqSize;
                       BqRead [None; Some 0] 1; BqRead [None] 1; BqWrite [Some 4]; BqClear]))
  = [Wrote (Some (2%nat, true)); Wrote None; Size 1;
     Read (Some ([Some 1; Some 0], 1%nat, true)); Read None; Wrote (Some (1%nat, true)); Cleared].
Proof. reflexivity. Qed.
