(* ===== verification/SparseFir.v ===== *)
(** * Sparse FIR filter

    [common_audio/sparse_fir_filter.cc]: a filter whose non-zero coefficients are
    [sparsity] samples apart, on single-precision samples.  The samples of earlier
    blocks are kept in [state_]. *)
From S2P Require Import Prelude CInt AudioUtil.

Record SparseFIRFilter := MkFIR {
  sparsity_ : nat; offset_ : nat; nonzero_coeffs_ : list float; state_ : list float
}.

(** Without coefficients the size of the state wraps around, [sparsity_ * -1 + offset_]:
    the allocation of it throws, or the check of the body stops the program. *)
Definition SparseFIRFilter_new (nonzero_coeffs : list float) (sparsity offset : nat)
    : res SparseFIRFilter :=
  if (length nonzero_coeffs =? 0)%nat then Fault AssertionFailed else
  if (sparsity =? 0)%nat then Fault AssertionFailed else
  Ok (MkFIR sparsity offset nonzero_coeffs
        (replicate (sparsity * (length nonzero_coeffs - 1) + offset) fzero)).

(** [for (j = 0; i >= j * sparsity_ + offset_ && j < size; ++j)]: the taps that fall
    on the block.  Returns the coefficients that are left, and [j]. *)
Fixpoint taps_input (inp : list float) (sparsity offset i : nat) (coeffs : list float)
    (j : nat) (acc : float) : res (float * nat * list float) :=
  match coeffs with
  | [] => Ok (acc, j, [])
  | c :: coeffs' =>
      if (j * sparsity + offset <=? i)%nat then
        x ← rd inp (Z.of_nat (i - j * sparsity - offset));
        taps_input inp sparsity offset i coeffs' (S j) (fadd acc (fmul x c))
      else Ok (acc, j, coeffs)
  end.

(** [for (; j < size; ++j)]: the taps that fall on earlier blocks. *)
Fixpoint taps_state (state : list float) (sparsity i size : nat) (coeffs : list float)
    (j : nat) (acc : float) : res float :=
  match coeffs with
  | [] => Ok acc
  | c :: coeffs' =>
      x ← rd state (Z.of_nat (i + (size - j - 1) * sparsity));
      taps_state state sparsity i size coeffs' (S j) (fadd acc (fmul x c))
  end.

Definition filter_sample (f : SparseFIRFilter) (inp : list float) (i : nat) : res float :=
  '(acc, j, rest) ← taps_input inp (sparsity_ f) (offset_ f) i (nonzero_coeffs_ f) 0 fzero;
  taps_state (state_ f) (sparsity_ f) i (length (nonzero_coeffs_ f)) rest j acc.

(** The state after a block of [length] samples. *)
Definition update_state (state inp : list float) (len : nat) : res (list float) :=
  if (0 <? length state)%nat then
    if (length state <=? len)%nat then
      take_exact (length state) (drop (len - length state) inp)
    else
      x ← take_exact len inp;
      Ok (drop len state ++ x)
  else Ok state.

(** Returns [out[0]], ..., [out[length - 1]] and the filter. *)
Definition Filter (f : SparseFIRFilter) (inp : list float) (len : nat)
    : res (list float * SparseFIRFilter) :=
  out ← mapM (filter_sample f inp) (seq 0 len);
  state ← update_state (state_ f) inp len;
  Ok (out, MkFIR (sparsity_ f) (offset_ f) (nonzero_coeffs_ f) state).

(** * Lemmas *)

(** The state covers what the last tap reaches back to. *)
Record fir_ok (f : SparseFIRFilter) : Prop := {
  fir_coeffs : (0 < length (nonzero_coeffs_ f))%nat;
  fir_sparsity : (0 < sparsity_ f)%nat;
  fir_state : length (state_ f) =
    (sparsity_ f * (length (nonzero_coeffs_ f) - 1) + offset_ f)%nat
}.

(** ** Reference

    The convolution of the whole signal with the sparse coefficients, accumulated
    tap by tap: [history] is the signal, [t] the position of the newest sample. *)
Definition tap (sparsity offset : nat) (history : list float) (t j : nat) : float :=
  nth (t - j * sparsity - offset) history fzero.

Fixpoint convolve (sparsity offset : nat) (history : list float) (t : nat)
    (coeffs : list float) (j : nat) (acc : float) : float :=
  match coeffs with
  | [] => acc
  | c :: coeffs' =>
      convolve sparsity offset history t coeffs' (S j)
        (fadd acc (fmul (tap sparsity offset history t j) c))
  end.

(** The outputs for the samples [inp] that follow the samples in the state. *)
Definition fir_out (f : SparseFIRFilter) (inp : list float) : list float :=
  map (fun i => convolve (sparsity_ f) (offset_ f) (state_ f ++ inp)
                  (length (state_ f) + i) (nonzero_coeffs_ f) 0 fzero) (seq 0 (length inp)).

(** The filter afterwards keeps the last samples. *)
Definition fir_next (f : SparseFIRFilter) (inp : list float) : SparseFIRFilter :=
  MkFIR (sparsity_ f) (offset_ f) (nonzero_coeffs_ f) (drop (length inp) (state_ f ++ inp)).

Lemma fir_next_ok f inp : fir_ok f -> fir_ok (fir_next f inp).
Proof.
  intros [H1 H2 H3]. constructor; cbn; try done. rewrite length_drop, length_app. lia.
Qed.

Lemma rd_nth (l : list float) (n : nat) :
  (n < length l)%nat -> rd l (Z.of_nat n) = Ok (nth n l fzero).
Proof.
  intros H. destruct (lookup_lt_is_Some_2 l n H) as [x Ex]. unfold rd.
  rewrite (proj2 (Z.ltb_ge _ _)), Nat2Z.id, Ex by lia. by rewrite (nth_lookup_Some _ _ _ _ Ex).
Qed.

Lemma taps_state_convolve f inp i coeffs j acc :
  fir_ok f -> length (nonzero_coeffs_ f) = (j + length coeffs)%nat ->
  (coeffs <> [] -> i < j * sparsity_ f + offset_ f)%nat ->
  taps_state (state_ f) (sparsity_ f) i (length (nonzero_coeffs_ f)) coeffs j acc =
  Ok (convolve (sparsity_ f) (offset_ f) (state_ f ++ inp) (length (state_ f) + i) coeffs j acc).
Proof.
  intros [H1 H2 H3]. revert j acc. induction coeffs as [|c coeffs IH]; intros j acc Hj Hi; [done|].
  specialize (Hi ltac:(done)). cbn [length] in Hj. cbn [taps_state convolve].
  rewrite rd_nth, bind_ok by (rewrite H3, Hj; nia).
  rewrite IH by (lia || (intros _; nia)). do 3 f_equal. unfold tap.
  assert (E : (length (state_ f) + i - j * sparsity_ f - offset_ f =
          i + (length (nonzero_coeffs_ f) - j - 1) * sparsity_ f)%nat) by (rewrite H3, Hj; nia).
  rewrite E, app_nth1 by (rewrite H3, Hj; nia). done.
Qed.

Lemma taps_convolve f inp i coeffs j acc :
  fir_ok f -> (i < length inp)%nat -> length (nonzero_coeffs_ f) = (j + length coeffs)%nat ->
  ('(acc, j, rest) ← taps_input inp (sparsity_ f) (offset_ f) i coeffs j acc;
   taps_state (state_ f) (sparsity_ f) i (length (nonzero_coeffs_ f)) rest j acc) =
  Ok (convolve (sparsity_ f) (offset_ f) (state_ f ++ inp) (length (state_ f) + i) coeffs j acc).
Proof.
  intros Hf Hi. revert j acc. induction coeffs as [|c coeffs IH]; intros j acc Hj; [done|].
  cbn [taps_input]. destruct (Nat.leb_spec (j * sparsity_ f + offset_ f) i) as [Hle|Hlt].
  - rewrite rd_nth, bind_ok by lia. cbn [length] in Hj.
    rewrite (IH (S j)) by lia. cbn [convolve]. do 3 f_equal. unfold tap. rewrite app_nth2 by lia.
    apply (f_equal (fun k => fmul (nth k inp fzero) c)). lia.
  - rewrite bind_ok. by apply taps_state_convolve.
Qed.

Lemma mapM_ok {A B} (g : A -> res B) (h : A -> B) l :
  (forall x, x ∈ l -> g x = Ok (h x)) -> mapM g l = Ok (map h l).
Proof.
  induction l as [|x l IH]; intros H; [done|]. cbn [mapM map].
  rewrite H, bind_ok, IH; [done| |left].
  intros y Hy. apply H. by right.
Qed.

(** The filter on a block. *)
Lemma Filter_spec f inp :
  fir_ok f -> Filter f inp (length inp) = Ok (fir_out f inp, fir_next f inp).
Proof.
  intros Hf. unfold Filter.
  rewrite (mapM_ok _ (fun i => convolve (sparsity_ f) (offset_ f) (state_ f ++ inp)
             (length (state_ f) + i) (nonzero_coeffs_ f) 0 fzero)).
  2:{ intros i Hi. apply elem_of_seq in Hi. unfold filter_sample. by apply taps_convolve; [|lia|]. }
  rewrite bind_ok. unfold update_state, take_exact.
  assert (E : (if (0 <? length (state_ f))%nat then
      if (length (state_ f) <=? length inp)%nat
      then if (length (state_ f) <=? length (drop (length inp - length (state_ f)) inp))%nat
           then Ok (take (length (state_ f)) (drop (length inp - length (state_ f)) inp))
           else Fault OutOfBounds
      else x ← (if (length inp <=? length inp)%nat then Ok (take (length inp) inp)
                else Fault OutOfBounds);
           Ok (drop (length inp) (state_ f) ++ x)
    else Ok (state_ f)) = Ok (drop (length inp) (state_ f ++ inp))).
  { destruct (Nat.ltb_spec 0 (length (state_ f))) as [Hs|Hs].
    - destruct (Nat.leb_spec (length (state_ f)) (length inp)) as [Hl|Hl].
      + rewrite length_drop, (proj2 (Nat.leb_le _ _)) by lia.
        rewrite take_ge by (rewrite length_drop; lia). rewrite drop_app_ge by lia. done.
      + rewrite Nat.leb_refl, bind_ok, take_ge by lia. by rewrite drop_app_le by lia.
    - destruct (state_ f); [|cbn in Hs; lia]. by rewrite app_nil_l, drop_all. }
  rewrite E. done.
Qed.

(** ** Blocks of a stream *)

Lemma convolve_ext sp off h1 h2 t1 t2 coeffs j acc :
  (forall k, (k < j + length coeffs)%nat -> tap sp off h1 t1 k = tap sp off h2 t2 k) ->
  convolve sp off h1 t1 coeffs j acc = convolve sp off h2 t2 coeffs j acc.
Proof.
  revert j acc. induction coeffs as [|c coeffs IH]; intros j acc H; [done|].
  cbn [convolve]. rewrite (H j) by (cbn; lia). apply IH. intros k Hk. apply H. cbn. lia.
Qed.

Lemma nth_app_l {A} n (l l' : list A) d : (n < length l)%nat -> nth n (l ++ l') d = nth n l d.
Proof. intros H. by apply app_nth1. Qed.

Lemma seq_add_map n k : seq n k = map (fun i => n + i)%nat (seq 0 k).
Proof.
  revert n. induction k as [|k IH]; intros n; [done|]. cbn [seq map]. f_equal; [lia|].
  rewrite IH, (IH 1%nat), map_map. apply map_ext. intros i. lia.
Qed.

Lemma fir_out_app f x y :
  fir_ok f -> fir_out f (x ++ y) = fir_out f x ++ fir_out (fir_next f x) y.
Proof.
  intros [H1 H2 H3]. unfold fir_out. rewrite length_app, seq_app, map_app. f_equal.
  - apply map_ext_in. intros i Hi. apply in_seq in Hi. apply convolve_ext. intros k Hk.
    unfold tap. rewrite app_assoc. apply nth_app_l. rewrite length_app. lia.
  - rewrite Nat.add_0_l, seq_add_map, map_map.
    apply map_ext_in. intros i Hi. apply in_seq in Hi. cbn [sparsity_ offset_ state_ nonzero_coeffs_ fir_next].
    apply convolve_ext. intros k Hk. cbn in Hk. unfold tap.
    assert (Ls : length (drop (length x) (state_ f ++ x)) = length (state_ f))
      by (rewrite length_drop, length_app; lia).
    rewrite Ls.
    assert (E : drop (length x) (state_ f ++ x) ++ y = drop (length x) (state_ f ++ x ++ y)).
    { rewrite (app_assoc (state_ f) x y), (drop_app_le (state_ f ++ x)); [done|].
      rewrite length_app. lia. }
    rewrite E. unfold drop. rewrite nth_skipn. f_equal.
    assert (k * sparsity_ f + offset_ f <= length (state_ f))%nat by (rewrite H3; nia). lia.
Qed.

Lemma fir_next_app f x y : fir_next f (x ++ y) = fir_next (fir_next f x) y.
Proof.
  unfold fir_next. cbn. f_equal. rewrite length_app, app_assoc.
  rewrite <- drop_drop. f_equal. by rewrite drop_app_le by (rewrite length_app; lia).
Qed.
