(* ===== verification/ThreeBand.v ===== *)
(** * Three-band filter bank

    [three_band_filter_bank.{h,cc}]: splits a signal into three bands, each at a
    third of the rate, and merges them, with twelve sparse filters per direction
    and a cosine modulation. *)
From S2P Require Import Prelude CInt AudioUtil SparseFir.

Definition kNumBands : nat := 3.
Definition kSparsity : nat := 4.
Definition kNumCoeffs : nat := 4.

(** A literal with eight decimals: [n / 10 ^ 8] rounded to 24 bits.  The quotient
    is taken with 60 extra bits, the last one set when it is not exact. *)
Definition decimal8 (n : Z) : float :=
  let q := Z.abs n * 2 ^ 60 / 10 ^ 8 in
  let sticky := if Z.abs n * 2 ^ 60 mod 10 ^ 8 =? 0 then 0 else 1 in
  fl (Z.sgn n * (2 * q + sticky)) (-61).

Definition kLowpassCoeffs : list (list float) := map (map decimal8) [
  [ -47749;  -496888; 16547118;  425496];
  [-173287; -1585778; 14989004;  994113];
  [-304815; -2536082; 12154542; 1157993];
  [-383509; -2982767;  8543175;  983212];
  [-346946; -2587886;  4760441;  607594];
  [-154717; -1136076;  1387458;  186353];
  [ 186353;  1387458; -1136076; -154717];
  [ 607594;  4760441; -2587886; -346946];
  [ 983212;  8543175; -2982767; -383509];
  [1157993; 12154542; -2536082; -304815];
  [ 994113; 14989004; -1585778; -173287];
  [ 425496; 16547118;  -496888;  -47749]].

(** [2.f * cos(2.f * M_PI * i * (2.f * j + 1.f) / 12)] in double precision, rounded
    to single precision.  The argument is a rounded multiple of pi / 6, so the
    entries at odd multiples of pi / 2 are small but not zero. *)
Definition dct_modulation_ : list (list float) := [
  [Flt 8388608 (-22); Flt 8388608 (-22); Flt 8388608 (-22)];
  [Flt 14529495 (-23); Flt 9253170 (-76); Flt (-14529495) (-23)];
  [Flt 8388608 (-23); Flt (-8388608) (-22); Flt 8388608 (-23)];
  [Flt 9253170 (-76); Flt (-13879754) (-75); Flt 11280223 (-72)];
  [Flt (-8388608) (-23); Flt 8388608 (-22); Flt (-8388608) (-23)];
  [Flt (-14529495) (-23); Flt 11280223 (-72); Flt 14529495 (-23)];
  [Flt (-8388608) (-22); Flt (-8388608) (-22); Flt (-8388608) (-22)];
  [Flt (-14529495) (-23); Flt (-16193047) (-74); Flt 14529495 (-23)];
  [Flt (-8388608) (-23); Flt 8388608 (-22); Flt (-8388608) (-23)];
  [Flt (-13879754) (-75); Flt 10409816 (-73); Flt 16204739 (-73)];
  [Flt 8388608 (-23); Flt (-8388608) (-22); Flt 8388608 (-23)];
  [Flt 14529495 (-23); Flt (-11569385) (-71); Flt (-14529495) (-23)]].

Record ThreeBandFilterBank := MkBank {
  in_buffer_ : list float; out_buffer_ : list float;
  analysis_filters_ : list SparseFIRFilter; synthesis_filters_ : list SparseFIRFilter
}.

(** [rtc::CheckedDivExact]. *)
Definition CheckedDivExact (a b : nat) : res nat :=
  if (b =? 0)%nat then Fault DivByZero else
  if negb (a mod b =? 0)%nat then Fault AssertionFailed else Ok (a / b)%nat.

(** The filters of one direction, in the order of [push_back]. *)
Definition bank_filters : res (list SparseFIRFilter) :=
  mapM (fun k =>
    let i := (k / kNumBands)%nat in
    let j := (k mod kNumBands)%nat in
    coeffs ← rd kLowpassCoeffs (Z.of_nat (i * kNumBands + j));
    SparseFIRFilter_new coeffs kSparsity i) (seq 0 (kSparsity * kNumBands)).

Definition ThreeBandFilterBank_new (length : nat) : res ThreeBandFilterBank :=
  size ← CheckedDivExact length kNumBands;
  filters ← bank_filters;
  Ok (MkBank (replicate size fzero) (replicate size fzero) filters filters).

Definition Downsample (inp : list float) (split_length offset : nat) : res (list float) :=
  mapM (fun i => rd inp (Z.of_nat (kNumBands * i + offset))) (seq 0 split_length).

Definition Upsample (inp : list float) (split_length offset : nat) (out : list float)
    : res (list float) :=
  loop split_length (fun i out =>
    x ← rd inp (Z.of_nat i);
    y ← rd out (Z.of_nat (kNumBands * i + offset));
    wr out (Z.of_nat (kNumBands * i + offset))
      (fadd y (fmul (float_of_int (Z.of_nat kNumBands)) x))) out.

(** [for (j = 0; j < split_length; ++j) out[j] += factor * in[j]]. *)
Definition accumulate (factor : float) (inp : list float) (split_length : nat)
    (out : list float) : res (list float) :=
  loop split_length (fun j out =>
    x ← rd inp (Z.of_nat j);
    y ← rd out (Z.of_nat j);
    wr out (Z.of_nat j) (fadd y (fmul factor x))) out.

Definition DownModulate (inp : list float) (split_length offset : nat)
    (out : list (list float)) : res (list (list float)) :=
  loop kNumBands (fun i out =>
    row ← rd dct_modulation_ (Z.of_nat offset);
    factor ← rd row (Z.of_nat i);
    band ← rd out (Z.of_nat i);
    band ← accumulate factor inp split_length band;
    wr out (Z.of_nat i) band) out.

Definition UpModulate (inp : list (list float)) (split_length offset : nat)
    : res (list float) :=
  loop kNumBands (fun i out =>
    row ← rd dct_modulation_ (Z.of_nat offset);
    factor ← rd row (Z.of_nat i);
    band ← rd inp (Z.of_nat i);
    accumulate factor band split_length out) (replicate split_length fzero).

(** [filters[offset]->Filter(...)]. *)
Definition bank_filter (filters : list SparseFIRFilter) (offset : nat) (inp : list float)
    (size : nat) : res (list float * list SparseFIRFilter) :=
  f ← rd filters (Z.of_nat offset);
  '(out, f) ← Filter f inp size;
  filters ← wr filters (Z.of_nat offset) f;
  Ok (out, filters).

(** The body of the inner loop of [Analysis] and [Synthesis]. *)
Definition analysis_step (i j : nat) (st : ThreeBandFilterBank * list (list float))
    : res (ThreeBandFilterBank * list (list float)) :=
  let '(bank, out) := st in
  let size := length (in_buffer_ bank) in
  let offset := (i + j * kNumBands)%nat in
  '(filtered, filters) ← bank_filter (analysis_filters_ bank) offset (in_buffer_ bank) size;
  out ← DownModulate filtered (length filtered) offset out;
  Ok (MkBank (in_buffer_ bank) filtered filters (synthesis_filters_ bank), out).

Definition Analysis (bank : ThreeBandFilterBank) (inp : list float) (len : nat)
    : res (ThreeBandFilterBank * list (list float)) :=
  let size := length (in_buffer_ bank) in
  n ← CheckedDivExact len kNumBands;
  if negb (size =? n)%nat then Fault AssertionFailed else
  loop kNumBands (fun i '(bank, out) =>
    buffer ← Downsample inp size (kNumBands - i - 1);
    let bank := MkBank buffer (out_buffer_ bank) (analysis_filters_ bank)
                  (synthesis_filters_ bank) in
    loop kSparsity (fun j st => analysis_step i j st) (bank, out))
    (bank, replicate kNumBands (replicate size fzero)).

Definition synthesis_step (i j : nat) (inp : list (list float))
    (st : ThreeBandFilterBank * list float) : res (ThreeBandFilterBank * list float) :=
  let '(bank, out) := st in
  let size := length (in_buffer_ bank) in
  let offset := (i + j * kNumBands)%nat in
  buffer ← UpModulate inp size offset;
  '(filtered, filters) ← bank_filter (synthesis_filters_ bank) offset buffer size;
  out ← Upsample filtered (length filtered) i out;
  Ok (MkBank buffer filtered (analysis_filters_ bank) filters, out).

(** Returns the [3 * split_length] samples written to [out]. *)
Definition Synthesis (bank : ThreeBandFilterBank) (inp : list (list float))
    (split_length : nat) : res (ThreeBandFilterBank * list float) :=
  let size := length (in_buffer_ bank) in
  if negb (size =? split_length)%nat then Fault AssertionFailed else
  loop kNumBands (fun i st =>
    loop kSparsity (fun j st => synthesis_step i j inp st) st)
    (bank, replicate (kNumBands * size) fzero).

(** * Lemmas *)

(** A loop that updates each of [n] distinct positions once. *)
Lemma loop_update {A} n (p : nat -> nat) (g : nat -> A -> A) body (l : list A) :
  (forall i j, (i < n)%nat -> (j < n)%nat -> p i = p j -> i = j) ->
  (forall i, (i < n)%nat -> (p i < length l)%nat) ->
  (forall i m y, (i < n)%nat -> m !! p i = Some y -> body i m = Ok (<[p i := g i y]> m)) ->
  wp (loop n body l) (fun l' => length l' = length l /\
    forall a, (forall i, (i < n)%nat -> p i = a -> l' !! a = g i <$> l !! a) /\
      ((forall i, (i < n)%nat -> p i <> a) -> l' !! a = l !! a)).
Proof.
  intros Hinj Hlt Hbody. revert Hinj Hlt Hbody. unfold loop.
  induction n as [|n IH]; intros Hinj Hlt Hbody.
  { split; [done|]. intros a. split; [lia|done]. }
  rewrite seq_S, each_app. apply wp_bind. eapply wp_mono.
  { apply IH; intros; [apply Hinj|apply Hlt|apply Hbody]; lia || done. }
  intros l1 [L1 H1]. cbn [each]. cbv beta. cbn [plus].
  assert (Hn : l1 !! p n = l !! p n).
  { apply H1. intros i Hi E. apply Hinj in E; lia. }
  destruct (lookup_lt_is_Some_2 l (p n)) as [y Ey]; [apply Hlt; lia|].
  rewrite (Hbody n l1 y) by (lia || congruence). rewrite bind_ok.
  split; [by rewrite length_insert|].
  intros a. destruct (H1 a) as [Ha1 Ha2]. split.
  - intros i Hi Epi. destruct (decide (i = n)) as [->|Hne].
    + subst a. rewrite list_lookup_insert_eq, Ey; [done|].
      rewrite L1. apply Hlt. lia.
    + rewrite list_lookup_insert_ne; [apply Ha1; [lia|done]|].
      intros E. rewrite <- E in Epi. apply Hinj in Epi; lia.
  - intros Hnone. rewrite list_lookup_insert_ne by (apply Hnone; lia).
    apply Ha2. intros i Hi. apply Hnone. lia.
Qed.

Lemma rd_some {A} (l : list A) (n : nat) x : l !! n = Some x -> rd l (Z.of_nat n) = Ok x.
Proof.
  intros E. unfold rd. by rewrite (proj2 (Z.ltb_ge _ _)), Nat2Z.id, E by lia.
Qed.

Lemma wr_nat {A} (l : list A) (n : nat) x :
  (n < length l)%nat -> wr l (Z.of_nat n) x = Ok (<[n := x]> l).
Proof. intros H. apply wp_pure, wp_wr; [unfold zlen; lia|]. by rewrite Nat2Z.id. Qed.

(** ** The loops as functions on lists *)

Definition add_scaled (factor : float) (out inp : list float) : list float :=
  zip_with (fun y x => fadd y (fmul factor x)) out inp.

Lemma accumulate_eq factor inp out n :
  length inp = n -> length out = n ->
  accumulate factor inp n out = Ok (add_scaled factor out inp).
Proof.
  intros Hi Ho. apply wp_pure. unfold accumulate. eapply wp_mono.
  { apply (loop_update n (fun j => j) (fun j y => fadd y (fmul factor (nth j inp fzero)))).
    { done. } { lia. }
    intros i m y Hlt Ey. cbv beta. rewrite (rd_nth inp), bind_ok by lia.
    rewrite (rd_some _ _ _ Ey), bind_ok.
    apply wr_nat. by eapply lookup_lt_Some. }
  intros l [L H]. apply list_eq. intros a. unfold add_scaled. rewrite lookup_zip_with.
  destruct (decide (a < n)%nat) as [Ha|Ha].
  - rewrite (proj1 (H a) a Ha eq_refl).
    destruct (lookup_lt_is_Some_2 inp a) as [x Ex]; [lia|].
    destruct (lookup_lt_is_Some_2 out a) as [y Ey]; [lia|].
    rewrite Ex, Ey. cbn. by rewrite (nth_lookup_Some _ _ _ _ Ex).
  - rewrite (proj2 (H a)) by lia. rewrite !(lookup_ge_None_2 out) by lia. done.
Qed.

(** The entry of the cosine table. *)
Definition dct (offset i : nat) : float := nth i (nth offset dct_modulation_ []) fzero.

Lemma rd_dct {B} offset i (k : float -> res B) :
  (offset < 12)%nat -> (i < 3)%nat ->
  (row ← rd dct_modulation_ (Z.of_nat offset); factor ← rd row (Z.of_nat i); k factor) =
  k (dct offset i).
Proof.
  intros Ho Hi. do 12 (destruct offset as [|offset];
    [do 3 (destruct i as [|i]; [reflexivity|]); lia|]). lia.
Qed.

Lemma DownModulate_eq x n offset o0 o1 o2 :
  (offset < 12)%nat -> length x = n ->
  length o0 = n -> length o1 = n -> length o2 = n ->
  DownModulate x n offset [o0; o1; o2] =
  Ok [add_scaled (dct offset 0) o0 x; add_scaled (dct offset 1) o1 x;
      add_scaled (dct offset 2) o2 x].
Proof.
  intros Ho Hx H0 H1 H2. unfold DownModulate, loop. cbn [kNumBands seq each].
  rewrite rd_dct by lia. change (rd [o0; o1; o2] (Z.of_nat 0)) with (Ok o0).
  rewrite bind_ok, accumulate_eq by done. rewrite bind_ok.
  change (wr [o0; o1; o2] (Z.of_nat 0) ?b) with (Ok [b; o1; o2]). rewrite bind_ok.
  rewrite rd_dct by lia. change (rd (?b :: [o1; o2]) (Z.of_nat 1)) with (Ok o1).
  rewrite bind_ok, accumulate_eq by done. rewrite bind_ok.
  change (wr (?a :: [o1; o2]) (Z.of_nat 1) ?b) with (Ok [a; b; o2]). rewrite bind_ok.
  rewrite rd_dct by lia. change (rd (?a :: ?b :: [o2]) (Z.of_nat 2)) with (Ok o2).
  rewrite bind_ok, accumulate_eq by done. rewrite bind_ok. done.
Qed.

(** The sum of the modulated bands. *)
Definition modulated (offset n : nat) (b0 b1 b2 : list float) : list float :=
  add_scaled (dct offset 2) (add_scaled (dct offset 1)
    (add_scaled (dct offset 0) (replicate n fzero) b0) b1) b2.

Lemma add_scaled_length d out inp :
  length inp = length out -> length (add_scaled d out inp) = length out.
Proof. intros H. unfold add_scaled. rewrite length_zip_with. lia. Qed.

Lemma add_scaled_app d o1 o2 x1 x2 :
  length o1 = length x1 ->
  add_scaled d (o1 ++ o2) (x1 ++ x2) = add_scaled d o1 x1 ++ add_scaled d o2 x2.
Proof. apply zip_with_app. Qed.

Lemma modulated_length offset n b0 b1 b2 :
  length b0 = n -> length b1 = n -> length b2 = n -> length (modulated offset n b0 b1 b2) = n.
Proof.
  intros. unfold modulated. rewrite !add_scaled_length; rewrite ?length_replicate;
    rewrite ?add_scaled_length; rewrite ?length_replicate; rewrite ?add_scaled_length;
    rewrite ?length_replicate; done.
Qed.

Lemma UpModulate_eq n offset b0 b1 b2 :
  (offset < 12)%nat -> length b0 = n -> length b1 = n -> length b2 = n ->
  UpModulate [b0; b1; b2] n offset = Ok (modulated offset n b0 b1 b2).
Proof.
  intros Ho H0 H1 H2. unfold UpModulate, loop. cbn [kNumBands seq each].
  rewrite rd_dct by lia. change (rd [b0; b1; b2] (Z.of_nat 0)) with (Ok b0).
  rewrite bind_ok, accumulate_eq by (done || apply length_replicate). rewrite bind_ok.
  rewrite rd_dct by lia. change (rd [b0; b1; b2] (Z.of_nat 1)) with (Ok b1).
  rewrite bind_ok, accumulate_eq; rewrite ?add_scaled_length; rewrite ?length_replicate; try done.
  rewrite bind_ok. rewrite rd_dct by lia.
  change (rd [b0; b1; b2] (Z.of_nat 2)) with (Ok b2).
  rewrite bind_ok, accumulate_eq; rewrite ?add_scaled_length; rewrite ?add_scaled_length;
    rewrite ?length_replicate; done.
Qed.

(** Every third sample. *)
Definition down (offset n : nat) (x : list float) : list float :=
  map (fun i => nth (3 * i + offset) x fzero) (seq 0 n).

Lemma down_length offset n x : length (down offset n x) = n.
Proof. unfold down. by rewrite length_map, length_seq. Qed.

Lemma Downsample_eq x n offset :
  (offset < 3)%nat -> length x = (3 * n)%nat -> Downsample x n offset = Ok (down offset n x).
Proof.
  intros Ho Hx. apply mapM_ok. intros i Hi. apply elem_of_seq in Hi.
  apply (rd_nth x). unfold kNumBands. lia.
Qed.

Lemma down_app offset n m x y :
  (offset < 3)%nat -> length x = (3 * n)%nat ->
  down offset (n + m) (x ++ y) = down offset n x ++ down offset m y.
Proof.
  intros Ho Hx. unfold down. rewrite seq_app, map_app. f_equal.
  - apply map_ext_in. intros i Hi. apply in_seq in Hi. rewrite app_nth1 by lia. done.
  - rewrite Nat.add_0_l, seq_add_map, map_map. apply map_ext_in. intros i Hi.
    rewrite app_nth2 by lia. f_equal. lia.
Qed.

Definition add_upsampled (offset : nat) (v out : list float) : list float :=
  imap (fun k y => if (k mod 3 =? offset)%nat
                   then fadd y (fmul (Flt 3 0) (nth (k / 3) v fzero)) else y) out.

Lemma add_upsampled_length offset v out : length (add_upsampled offset v out) = length out.
Proof. apply length_imap. Qed.

Lemma Upsample_eq v n offset out :
  (offset < 3)%nat -> length v = n -> length out = (3 * n)%nat ->
  Upsample v n offset out = Ok (add_upsampled offset v out).
Proof.
  intros Ho Hv Hout. apply wp_pure. unfold Upsample. eapply wp_mono.
  { apply (loop_update n (fun i => kNumBands * i + offset)%nat
      (fun i y => fadd y (fmul (Flt 3 0) (nth i v fzero)))); unfold kNumBands.
    { lia. } { lia. }
    intros i m y Hlt Ey. cbv beta. rewrite (rd_nth v), bind_ok by lia.
    rewrite (rd_some _ _ _ Ey), bind_ok. apply wr_nat. by eapply lookup_lt_Some. }
  intros l [L H]. apply list_eq. intros a. unfold add_upsampled. rewrite list_lookup_imap.
  unfold kNumBands in H. pose proof (Nat.div_mod a 3 ltac:(lia)) as Ea.
  destruct (decide (a < 3 * n)%nat) as [Ha|Ha].
  - destruct (Nat.eqb_spec (a mod 3) offset) as [E|E].
    + rewrite (proj1 (H a) (a / 3)%nat); [done| |lia]. apply Nat.Div0.div_lt_upper_bound. lia.
    + rewrite (proj2 (H a)); [by destruct (out !! a)|]. intros i Hi Ei. apply E. rewrite <- Ei.
      rewrite Nat.add_comm, Nat.mul_comm, Nat.Div0.mod_add. by apply Nat.mod_small.
  - rewrite !(lookup_ge_None_2 _ a) by lia. done.
Qed.

Lemma add_upsampled_app offset n v1 v2 out1 out2 :
  length v1 = n -> length out1 = (3 * n)%nat ->
  add_upsampled offset (v1 ++ v2) (out1 ++ out2) =
  add_upsampled offset v1 out1 ++ add_upsampled offset v2 out2.
Proof.
  intros Hv Ho. unfold add_upsampled. rewrite imap_app. f_equal.
  - apply imap_ext. intros k y Hk. case_if; [|done]. apply lookup_lt_Some in Hk.
    rewrite app_nth1; [done|]. apply Nat.Div0.div_lt_upper_bound. lia.
  - apply imap_ext. intros k y Hk.
    assert (E : (length out1 + k = k + n * 3)%nat) by lia.
    rewrite E, Nat.Div0.mod_add, Nat.div_add by lia. case_if; [|done].
    rewrite app_nth2 by lia. by replace (k / 3 + n - length v1)%nat with (k / 3)%nat by lia.
Qed.

(** ** One block

    Every stage is a function, so a block is a fold over the stages. *)

Lemma each_foldl {S A} (I : S -> Prop) (f : S -> A -> res S) (g : S -> A -> S) s l :
  I s -> (forall t a, a ∈ l -> I t -> f t a = Ok (g t a) /\ I (g t a)) ->
  each f s l = Ok (foldl g s l) /\ I (foldl g s l).
Proof.
  revert s. induction l as [|a l IH]; intros s Hs Hf; [done|]. cbn [each foldl].
  destruct (Hf s a) as [E Ha]; [left|done|]. rewrite E, bind_ok.
  apply IH; [done|]. intros t b Hb. apply Hf. by right.
Qed.

Definition no_fir : SparseFIRFilter := MkFIR 1 0 [] [].

Record filters_ok (fs : list SparseFIRFilter) : Prop := {
  twelve : length fs = 12%nat;
  all_fir : Forall fir_ok fs
}.

Record bank_ok (n : nat) (bank : ThreeBandFilterBank) : Prop := {
  bank_size : length (in_buffer_ bank) = n;
  bank_analysis : filters_ok (analysis_filters_ bank);
  bank_synthesis : filters_ok (synthesis_filters_ bank)
}.

Definition bands_ok (n : nat) (out : list (list float)) : Prop :=
  length out = 3%nat /\ Forall (fun o => length o = n) out.

Lemma bands_ok_cases n out :
  bands_ok n out -> exists o0 o1 o2, out = [o0; o1; o2] /\
    length o0 = n /\ length o1 = n /\ length o2 = n.
Proof.
  intros [L H]. do 3 (destruct out as [|? out]; [done|]). destruct out; [|done].
  rewrite !Forall_cons_iff in H. destruct H as (H0 & H1 & H2 & _). by eauto 10.
Qed.

Lemma fir_out_length f x : length (fir_out f x) = length x.
Proof. unfold fir_out. by rewrite length_map, length_seq. Qed.

Lemma filters_ok_step fs k x :
  filters_ok fs -> (k < 12)%nat ->
  filters_ok (<[k := fir_next (nth k fs no_fir) x]> fs).
Proof.
  intros [L H] Hk. constructor; [by rewrite length_insert|].
  destruct (lookup_lt_is_Some_2 fs k) as [f Ef]; [lia|].
  apply Forall_insert; [done|]. rewrite (nth_lookup_Some _ _ _ _ Ef).
  apply fir_next_ok. exact (Forall_lookup_1 _ _ _ _ H Ef).
Qed.

Lemma bank_filter_eq fs k x n :
  filters_ok fs -> (k < 12)%nat -> length x = n ->
  bank_filter fs k x n =
  Ok (fir_out (nth k fs no_fir) x, <[k := fir_next (nth k fs no_fir) x]> fs).
Proof.
  intros [L H] Hk <-. unfold bank_filter.
  destruct (lookup_lt_is_Some_2 fs k) as [f Ef]; [lia|].
  rewrite (rd_some _ _ _ Ef), bind_ok, (nth_lookup_Some _ _ _ _ Ef).
  rewrite Filter_spec; [rewrite bind_ok|].
  - cbn beta iota. rewrite wr_nat by lia. done.
  - exact (Forall_lookup_1 _ _ _ _ H Ef).
Qed.

(** *** Analysis *)

Definition add_bands (k : nat) (out : list (list float)) (x : list float) : list (list float) :=
  imap (fun b o => add_scaled (dct k b) o x) out.

Definition analysis_pure (i : nat) (st : ThreeBandFilterBank * list (list float)) (j : nat)
    : ThreeBandFilterBank * list (list float) :=
  let '(bank, out) := st in
  let k := (i + j * 3)%nat in
  let fs := analysis_filters_ bank in
  let y := fir_out (nth k fs no_fir) (in_buffer_ bank) in
  (MkBank (in_buffer_ bank) y (<[k := fir_next (nth k fs no_fir) (in_buffer_ bank)]> fs)
     (synthesis_filters_ bank), add_bands k out y).

Lemma add_bands_ok n k out x :
  bands_ok n out -> length x = n -> bands_ok n (add_bands k out x).
Proof.
  intros H Hx. apply bands_ok_cases in H as (o0 & o1 & o2 & -> & H0 & H1 & H2).
  split; [done|]. cbn. repeat apply Forall_cons; [..|apply Forall_nil];
    rewrite add_scaled_length; congruence.
Qed.

Lemma analysis_step_eq n i j bank out :
  bank_ok n bank -> bands_ok n out -> (i < 3)%nat -> (j < 4)%nat ->
  analysis_step i j (bank, out) = Ok (analysis_pure i (bank, out) j).
Proof.
  intros [Hn Ha Hs] Ho Hi Hj. unfold analysis_step, analysis_pure, kNumBands.
  rewrite (bank_filter_eq _ _ _ (length (in_buffer_ bank))), bind_ok by (done || lia).
  cbn beta iota.
  apply bands_ok_cases in Ho as (o0 & o1 & o2 & -> & H0 & H1 & H2).
  rewrite fir_out_length, Hn.
  rewrite DownModulate_eq, bind_ok by (lia || rewrite ?fir_out_length; done). done.
Qed.

Lemma analysis_pure_ok n i j st :
  bank_ok n (fst st) /\ bands_ok n (snd st) -> (i < 3)%nat -> (j < 4)%nat ->
  bank_ok n (fst (analysis_pure i st j)) /\ bands_ok n (snd (analysis_pure i st j)).
Proof.
  destruct st as [bank out]. cbn. intros [[Hn Ha Hs] Ho] Hi Hj. split.
  - constructor; cbn; [done|apply filters_ok_step; [done|lia]|done].
  - apply add_bands_ok; [done|]. by rewrite fir_out_length.
Qed.

(** The input of the filter [k], and the block as a function: the bands and the
    filters afterwards. *)
Definition analysis_input (n : nat) (x : list float) (k : nat) : list float :=
  down (2 - k mod 3) n x.

Definition stage_order : list nat := [0; 3; 6; 9; 1; 4; 7; 10; 2; 5; 8; 11]%nat.

Definition analysis_band (fs : list SparseFIRFilter) (n : nat) (x : list float) (b : nat)
    : list float :=
  foldl (fun o k => add_scaled (dct k b) o (fir_out (nth k fs no_fir) (analysis_input n x k)))
    (replicate n fzero) stage_order.

Definition analysis_next (fs : list SparseFIRFilter) (n : nat) (x : list float)
    : list SparseFIRFilter :=
  imap (fun k f => fir_next f (analysis_input n x k)) fs.

Lemma Analysis_eq n bank x :
  bank_ok n bank -> length x = (3 * n)%nat ->
  Analysis bank x (3 * n) =
  Ok (MkBank (down 0 n x) (fir_out (nth 11 (analysis_filters_ bank) no_fir) (down 0 n x))
        (analysis_next (analysis_filters_ bank) n x) (synthesis_filters_ bank),
      map (analysis_band (analysis_filters_ bank) n x) (seq 0 3)).
Proof.
  intros Hb Hx. pose proof (bank_size _ _ Hb) as Hn. unfold Analysis, CheckedDivExact, kNumBands.
  rewrite Nat.mul_comm, Nat.Div0.mod_mul, Nat.div_mul by lia. cbn [Nat.eqb negb].
  rewrite bind_ok.
  rewrite Hn, Nat.eqb_refl. cbn [negb]. unfold loop, kSparsity.
  edestruct (each_foldl (fun st => bank_ok n (fst st) /\ bands_ok n (snd st))
    (fun st i => let '(bank, out) := st in
       buffer ← Downsample x n (3 - i - 1);
       each (fun s j => analysis_step i j s)
         (MkBank buffer (out_buffer_ bank) (analysis_filters_ bank) (synthesis_filters_ bank),
          out) (seq 0 4))
    (fun st i => foldl (analysis_pure i)
       (MkBank (down (3 - i - 1) n x) (out_buffer_ (fst st)) (analysis_filters_ (fst st))
          (synthesis_filters_ (fst st)), snd st) (seq 0 4))
    (bank, replicate 3 (replicate n fzero)) (seq 0 3)) as [E _].
  - split; [done|]. split; [done|]. cbn. repeat apply Forall_cons; [..|apply Forall_nil];
      apply length_replicate.
  - intros [bk out] i Hi [Hbk Hout]. apply elem_of_seq in Hi. cbn [fst snd] in *.
    rewrite Downsample_eq, bind_ok by lia.
    apply (each_foldl (fun st => bank_ok n (fst st) /\ bands_ok n (snd st))).
    + split; [|done]. destruct Hbk. constructor; cbn; [apply down_length|done|done].
    + intros st j Hj Hst. apply elem_of_seq in Hj. split.
      * destruct st as [bk' out']. apply (analysis_step_eq n); (lia || apply Hst).
      * apply analysis_pure_ok; [done|lia|lia].
  - rewrite E. clear E. destruct bank as [ib ob fs sf]. clear Hn.
    destruct Hb as [_ [L _] _]. cbn [analysis_filters_] in *.
    do 12 (destruct fs as [|? fs]; [done|]). destruct fs; [|done].
    lazy -[fir_out fir_next add_scaled dct down replicate fzero no_fir]. reflexivity.
Qed.

(** *** Synthesis *)

Definition synthesis_input (n : nat) (bands : list (list float)) (k : nat) : list float :=
  modulated k n (nth 0 bands []) (nth 1 bands []) (nth 2 bands []).

Lemma synthesis_input_length n bands k :
  bands_ok n bands -> length (synthesis_input n bands k) = n.
Proof.
  intros H. apply bands_ok_cases in H as (b0 & b1 & b2 & -> & H0 & H1 & H2).
  unfold synthesis_input. cbn [nth]. apply modulated_length; assumption.
Qed.

Definition synthesis_pure (n : nat) (bands : list (list float)) (i : nat)
    (st : ThreeBandFilterBank * list float) (j : nat) : ThreeBandFilterBank * list float :=
  let '(bank, out) := st in
  let k := (i + j * 3)%nat in
  let fs := synthesis_filters_ bank in
  let u := synthesis_input n bands k in
  let y := fir_out (nth k fs no_fir) u in
  (MkBank u y (analysis_filters_ bank) (<[k := fir_next (nth k fs no_fir) u]> fs),
   add_upsampled i y out).

Lemma synthesis_step_eq n i j bands bank out :
  bank_ok n bank -> bands_ok n bands -> length out = (3 * n)%nat -> (i < 3)%nat -> (j < 4)%nat ->
  synthesis_step i j bands (bank, out) = Ok (synthesis_pure n bands i (bank, out) j).
Proof.
  intros [Hn Ha Hs] Ho Hl Hi Hj.
  pose proof (synthesis_input_length n bands (i + j * 3) Ho) as Lu.
  unfold synthesis_step, synthesis_pure, kNumBands.
  rewrite Hn. pose proof Ho as Ho'.
  apply bands_ok_cases in Ho' as (b0 & b1 & b2 & -> & H0 & H1 & H2).
  rewrite UpModulate_eq, bind_ok by (done || lia).
  rewrite (bank_filter_eq _ _ _ n), bind_ok by (done || lia). cbn beta iota.
  rewrite fir_out_length. change (modulated ?k n b0 b1 b2) with (synthesis_input n [b0; b1; b2] k).
  rewrite Lu, Upsample_eq, bind_ok by (done || by rewrite fir_out_length). done.
Qed.

Lemma synthesis_pure_ok n bands i j st :
  bands_ok n bands -> bank_ok n (fst st) /\ length (snd st) = (3 * n)%nat ->
  (i < 3)%nat -> (j < 4)%nat ->
  bank_ok n (fst (synthesis_pure n bands i st j)) /\
  length (snd (synthesis_pure n bands i st j)) = (3 * n)%nat.
Proof.
  intros Hb. destruct st as [bank out]. cbn. intros [[Hn Ha Hs] Ho] Hi Hj. split.
  - constructor; cbn; [by apply synthesis_input_length|done|apply filters_ok_step; [done|lia]].
  - by rewrite add_upsampled_length.
Qed.

Definition synthesis_out (fs : list SparseFIRFilter) (n : nat) (bands : list (list float))
    : list float :=
  foldl (fun out k =>
           add_upsampled (k mod 3) (fir_out (nth k fs no_fir) (synthesis_input n bands k)) out)
    (replicate (3 * n) fzero) stage_order.

Definition synthesis_next (fs : list SparseFIRFilter) (n : nat) (bands : list (list float))
    : list SparseFIRFilter :=
  imap (fun k f => fir_next f (synthesis_input n bands k)) fs.

Lemma Synthesis_eq n bank bands :
  bank_ok n bank -> bands_ok n bands ->
  Synthesis bank bands n =
  Ok (MkBank (synthesis_input n bands 11)
        (fir_out (nth 11 (synthesis_filters_ bank) no_fir) (synthesis_input n bands 11))
        (analysis_filters_ bank) (synthesis_next (synthesis_filters_ bank) n bands),
      synthesis_out (synthesis_filters_ bank) n bands).
Proof.
  intros Hb Hd. pose proof (bank_size _ _ Hb) as Hn. unfold Synthesis, kNumBands.
  rewrite Hn, Nat.eqb_refl. cbn [negb]. unfold loop, kSparsity.
  edestruct (each_foldl (fun st => bank_ok n (fst st) /\ length (snd st) = (3 * n)%nat)
    (fun st i => each (fun s j => synthesis_step i j bands s) st (seq 0 4))
    (fun st i => foldl (synthesis_pure n bands i) st (seq 0 4))
    (bank, replicate (3 * n) fzero) (seq 0 3)) as [E _].
  - split; [done|]. apply length_replicate.
  - intros st i Hi Hst. apply elem_of_seq in Hi.
    apply (each_foldl (fun st => bank_ok n (fst st) /\ length (snd st) = (3 * n)%nat)); [done|].
    intros st' j Hj Hst'. apply elem_of_seq in Hj. split.
    + destruct st' as [bk out]. destruct Hst'. apply synthesis_step_eq; (lia || done).
    + apply synthesis_pure_ok; (lia || done).
  - rewrite E. clear E. destruct bank as [ib ob fs sf]. clear Hn.
    destruct Hb as [_ _ [L _]]. cbn [synthesis_filters_] in *.
    do 12 (destruct sf as [|? sf]; [done|]). destruct sf; [|done].
    lazy -[fir_out fir_next add_upsampled synthesis_input replicate fzero no_fir Nat.mul].
    reflexivity.
Qed.

(** ** Blocks of a stream *)

Lemma stage_order_lt k : k ∈ stage_order -> (k < 12)%nat.
Proof.
  intros H. apply list_elem_of_In in H. cbn in H.
  repeat (destruct H as [<-|H]; [lia|]). done.
Qed.

(** Folds over the stages that only append. *)
Lemma foldl_blocks {K} (f fx fy : list float -> K -> list float) l n m ox oy :
  length ox = n -> length oy = m ->
  (forall k ox oy, k ∈ l -> length ox = n -> length oy = m ->
     f (ox ++ oy) k = fx ox k ++ fy oy k /\ length (fx ox k) = n /\ length (fy oy k) = m) ->
  foldl f (ox ++ oy) l = foldl fx ox l ++ foldl fy oy l.
Proof.
  revert ox oy. induction l as [|k l IH]; intros ox oy Hx Hy Hf; [done|]. cbn [foldl].
  destruct (Hf k ox oy) as (E & Lx & Ly); [left|done|done|]. rewrite E. apply IH; [done|done|].
  intros k' ox' oy' Hk. apply Hf. by right.
Qed.

Lemma nth_next (g : nat -> SparseFIRFilter -> SparseFIRFilter) fs k :
  (k < length fs)%nat -> nth k (imap g fs) no_fir = g k (nth k fs no_fir).
Proof.
  intros H. destruct (lookup_lt_is_Some_2 fs k H) as [f Ef].
  rewrite (nth_lookup_Some _ _ _ _ Ef). apply nth_lookup_Some.
  by rewrite list_lookup_imap, Ef.
Qed.

Lemma filters_ok_nth fs k : filters_ok fs -> (k < 12)%nat -> fir_ok (nth k fs no_fir).
Proof.
  intros [L H] Hk. destruct (lookup_lt_is_Some_2 fs k) as [f Ef]; [lia|].
  rewrite (nth_lookup_Some _ _ _ _ Ef). exact (Forall_lookup_1 _ _ _ _ H Ef).
Qed.

Lemma filters_ok_next (x : nat -> list float) fs :
  filters_ok fs -> filters_ok (imap (fun k f => fir_next f (x k)) fs).
Proof.
  intros [L H]. constructor; [by rewrite length_imap|]. apply Forall_lookup. intros k f Ef.
  rewrite list_lookup_imap in Ef. destruct (fs !! k) as [f0|] eqn:E0; [|done].
  cbn in Ef. injection Ef as <-. apply fir_next_ok. by eapply Forall_lookup_1.
Qed.

Lemma imap_next_app (x y : nat -> list float) fs :
  imap (fun k f => fir_next f (x k ++ y k)) fs =
  imap (fun k f => fir_next f (y k)) (imap (fun k f => fir_next f (x k)) fs).
Proof.
  apply list_eq. intros k. rewrite !list_lookup_imap. destruct (fs !! k); [|done].
  cbn. by rewrite fir_next_app.
Qed.

Lemma replicate_blocks {A} n m (a : A) : replicate (n + m) a = replicate n a ++ replicate m a.
Proof. apply replicate_add. Qed.

Lemma analysis_input_app n m x y k :
  length x = (3 * n)%nat ->
  analysis_input (n + m) (x ++ y) k = analysis_input n x k ++ analysis_input m y k.
Proof.
  intros Hx. apply down_app; [|done].
  pose proof (Nat.mod_upper_bound k 3 ltac:(lia)). lia.
Qed.

Lemma analysis_band_app fs n m x y b :
  filters_ok fs -> length x = (3 * n)%nat ->
  analysis_band fs (n + m) (x ++ y) b =
  analysis_band fs n x b ++ analysis_band (analysis_next fs n x) m y b.
Proof.
  intros Hf Hx. unfold analysis_band. rewrite replicate_blocks.
  apply (foldl_blocks _ _ _ _ n m); [apply length_replicate|apply length_replicate|].
  intros k ox oy Hk Lx Ly. apply stage_order_lt in Hk.
  unfold analysis_next. rewrite nth_next by (rewrite (twelve _ Hf); done).
  rewrite analysis_input_app, fir_out_app by (done || by apply filters_ok_nth).
  assert (Li : forall n x, length (analysis_input n x k) = n) by (intros; apply down_length).
  rewrite add_scaled_app, !add_scaled_length; rewrite ?fir_out_length, ?Li; done.
Qed.

Lemma analysis_next_app fs n m x y :
  length x = (3 * n)%nat ->
  analysis_next fs (n + m) (x ++ y) = analysis_next (analysis_next fs n x) m y.
Proof.
  intros Hx. unfold analysis_next. rewrite <- imap_next_app. apply imap_ext.
  intros k f _. by rewrite analysis_input_app.
Qed.

Definition append_bands (out next : list (list float)) : list (list float) :=
  zip_with app out next.

Lemma synthesis_input_app n m a b k :
  bands_ok n a -> bands_ok m b ->
  synthesis_input (n + m) (append_bands a b) k =
  synthesis_input n a k ++ synthesis_input m b k.
Proof.
  intros Ha Hb. apply bands_ok_cases in Ha as (a0 & a1 & a2 & -> & A0 & A1 & A2).
  apply bands_ok_cases in Hb as (b0 & b1 & b2 & -> & B0 & B1 & B2).
  unfold synthesis_input, append_bands, modulated. cbn [zip_with nth].
  rewrite replicate_blocks.
  rewrite !add_scaled_app; rewrite ?add_scaled_length; rewrite ?add_scaled_length;
    rewrite ?length_replicate; congruence.
Qed.

Lemma synthesis_out_app fs n m a b :
  filters_ok fs -> bands_ok n a -> bands_ok m b ->
  synthesis_out fs (n + m) (append_bands a b) =
  synthesis_out fs n a ++ synthesis_out (synthesis_next fs n a) m b.
Proof.
  intros Hf Ha Hb. unfold synthesis_out. rewrite Nat.mul_add_distr_l, replicate_blocks.
  apply (foldl_blocks _ _ _ _ (3 * n) (3 * m)); [apply length_replicate|apply length_replicate|].
  intros k ox oy Hk Lx Ly. apply stage_order_lt in Hk.
  unfold synthesis_next. rewrite nth_next by (rewrite (twelve _ Hf); done).
  rewrite synthesis_input_app, fir_out_app by (done || by apply filters_ok_nth).
  rewrite (add_upsampled_app _ n), !add_upsampled_length; [done| |done].
  rewrite fir_out_length. by apply synthesis_input_length.
Qed.

Lemma synthesis_next_app fs n m a b :
  bands_ok n a -> bands_ok m b ->
  synthesis_next fs (n + m) (append_bands a b) =
  synthesis_next (synthesis_next fs n a) m b.
Proof.
  intros Ha Hb. unfold synthesis_next. rewrite <- imap_next_app. apply imap_ext.
  intros k f _. by rewrite synthesis_input_app.
Qed.

(** A stream through [Analysis] and [Synthesis], block by block: the three bands
    and the output so far. *)
Definition split_merge (n : nat)
    (st : ThreeBandFilterBank * list (list float) * list float) (x : list float)
    : res (ThreeBandFilterBank * list (list float) * list float) :=
  let '(bank, bands, out) := st in
  '(bank, b) ← Analysis bank x (3 * n);
  '(bank, y) ← Synthesis bank b n;
  Ok (bank, append_bands bands b, out ++ y).

(** A bank for blocks of another size in the same state. *)
Definition with_size (n : nat) (bank : ThreeBandFilterBank) : ThreeBandFilterBank :=
  MkBank (replicate n fzero) (replicate n fzero) (analysis_filters_ bank)
    (synthesis_filters_ bank).

Definition analysis_bands (fs : list SparseFIRFilter) (n : nat) (x : list float) :=
  map (analysis_band fs n x) (seq 0 3).

Lemma analysis_band_length fs n x b :
  length (analysis_band fs n x b) = n.
Proof.
  unfold analysis_band. assert (H : forall l o, length o = n ->
    length (foldl (fun o k => add_scaled (dct k b) o
      (fir_out (nth k fs no_fir) (analysis_input n x k))) o l) = n).
  { induction l as [|k l IH]; intros o Ho; [done|]. cbn [foldl]. apply IH.
    rewrite add_scaled_length; [done|]. rewrite fir_out_length, Ho. apply down_length. }
  apply H, length_replicate.
Qed.

Lemma analysis_bands_ok fs n x : bands_ok n (analysis_bands fs n x).
Proof.
  split; [done|]. apply Forall_forall. intros o Ho. apply in_map_iff in Ho as (b & <- & _).
  apply analysis_band_length.
Qed.

Lemma analysis_bands_app fs n m x y :
  filters_ok fs -> length x = (3 * n)%nat ->
  analysis_bands fs (n + m) (x ++ y) =
  append_bands (analysis_bands fs n x) (analysis_bands (analysis_next fs n x) m y).
Proof.
  intros Hf Hx. unfold analysis_bands, append_bands. cbn [map seq zip_with].
  by rewrite !analysis_band_app.
Qed.

Lemma split_merge_eq n bank bands out x :
  bank_ok n bank -> length x = (3 * n)%nat ->
  let b := analysis_bands (analysis_filters_ bank) n x in
  exists bank', split_merge n (bank, bands, out) x =
      Ok (bank', append_bands bands b, out ++ synthesis_out (synthesis_filters_ bank) n b) /\
    bank_ok n bank' /\
    analysis_filters_ bank' = analysis_next (analysis_filters_ bank) n x /\
    synthesis_filters_ bank' = synthesis_next (synthesis_filters_ bank) n b.
Proof.
  intros Hb Hx b. unfold split_merge. rewrite Analysis_eq, bind_ok by done.
  fold (analysis_bands (analysis_filters_ bank) n x). cbn beta iota. fold b.
  pose proof (analysis_bands_ok (analysis_filters_ bank) n x) as Hd. fold b in Hd.
  destruct Hb as [Hn Ha Hs].
  rewrite Synthesis_eq; [rewrite bind_ok| |done].
  - eexists. split; [reflexivity|]. split; [|done].
    constructor; cbn; [by apply synthesis_input_length|by apply filters_ok_next..].
  - constructor; cbn; [apply down_length|by apply filters_ok_next|done].
Qed.

Lemma no_samples fs : imap (fun k f => fir_next f []) fs = fs.
Proof.
  apply list_eq. intros k. rewrite list_lookup_imap. destruct (fs !! k) as [f|]; [|done].
  cbn. f_equal. destruct f. unfold fir_next. cbn. by rewrite app_nil_r, drop_0.
Qed.

Lemma analysis_bands_nil fs : analysis_bands fs 0 [] = [[]; []; []].
Proof.
  destruct (bands_ok_cases _ _ (analysis_bands_ok fs 0 [])) as (o0 & o1 & o2 & -> & H0 & H1 & H2).
  by destruct o0, o1, o2.
Qed.

Lemma synthesis_input_nil k : synthesis_input 0 [[]; []; []] k = [].
Proof. apply nil_length_inv, synthesis_input_length. split; [done|by repeat constructor]. Qed.

Lemma synthesis_out_length fs n b : length (synthesis_out fs n b) = (3 * n)%nat.
Proof.
  unfold synthesis_out. assert (H : forall l o, length o = (3 * n)%nat ->
    length (foldl (fun out k => add_upsampled (k mod 3)
      (fir_out (nth k fs no_fir) (synthesis_input n b k)) out) o l) = (3 * n)%nat).
  { induction l as [|k l IH]; intros o Ho; [done|]. cbn [foldl]. apply IH.
    by rewrite add_upsampled_length. }
  apply H, length_replicate.
Qed.

Lemma synthesis_out_nil fs : synthesis_out fs 0 [[]; []; []] = [].
Proof. apply nil_length_inv, synthesis_out_length. Qed.

Lemma concat_blocks_length {A} n (blocks : list (list A)) :
  Forall (fun x => length x = (3 * n)%nat) blocks ->
  length (concat blocks) = (3 * (length blocks * n))%nat.
Proof.
  intros Hx. induction Hx as [|y l Hy _ IH]; [done|]. cbn. rewrite length_app, IH, Hy. lia.
Qed.

(** The state after the blocks of a stream. *)
Lemma split_merge_blocks n bank blocks :
  bank_ok n bank -> Forall (fun x => length x = (3 * n)%nat) blocks ->
  let fs := analysis_filters_ bank in
  let gs := synthesis_filters_ bank in
  let m := (length blocks * n)%nat in
  let b := analysis_bands fs m (concat blocks) in
  exists bank', each (split_merge n) (bank, [[]; []; []], []) blocks =
      Ok (bank', b, synthesis_out gs m b) /\
    bank_ok n bank' /\ analysis_filters_ bank' = analysis_next fs m (concat blocks) /\
    synthesis_filters_ bank' = synthesis_next gs m b.
Proof.
  intros Hb. cbv zeta. induction blocks as [|x blocks IH] using rev_ind; intros Hx.
  - exists bank. cbn [length Nat.mul concat each]. rewrite analysis_bands_nil, synthesis_out_nil.
    split; [done|]. split; [done|]. split.
    + symmetry. apply no_samples.
    + unfold synthesis_next. etransitivity; [symmetry; apply no_samples|].
      apply imap_ext. intros k f _. by rewrite synthesis_input_nil.
  - apply Forall_app in Hx as [Hx Hl]. apply Forall_cons_iff in Hl as [Hl _].
    destruct (IH Hx) as (bk & E & Hbk & Ea & Es). rewrite each_app, E, bind_ok.
    cbn [each]. destruct (split_merge_eq n bk
      (analysis_bands (analysis_filters_ bank) (length blocks * n) (concat blocks))
      (synthesis_out (synthesis_filters_ bank) (length blocks * n)
         (analysis_bands (analysis_filters_ bank) (length blocks * n) (concat blocks))) x Hbk Hl)
      as (bk' & E' & Hbk' & Ea' & Es').
    rewrite E', bind_ok. exists bk'. clear IH E E'.
    pose proof (concat_blocks_length _ _ Hx) as Lc.
    rewrite concat_app, length_app, Nat.mul_add_distr_r. cbn [concat length].
    rewrite app_nil_r, Nat.mul_1_l.
    pose proof (bank_analysis _ _ Hb) as Hfa. pose proof (bank_synthesis _ _ Hb) as Hfs.
    rewrite analysis_bands_app, synthesis_out_app, analysis_next_app, synthesis_next_app
      by (done || apply analysis_bands_ok).
    rewrite <- Ea, <- Es. done.
Qed.

(** C35: the bank does not see the boundaries of blocks: what it makes of
    consecutive blocks, the three bands after [Analysis] and the signal after
    [Synthesis], is what a bank for one long block makes of the whole signal, and
    the filters are left in the same state. *)
Theorem bank_stream n bank blocks :
  bank_ok n bank -> Forall (fun x => length x = (3 * n)%nat) blocks ->
  let m := (length blocks * n)%nat in
  exists bank1 bank2 bands out,
    each (split_merge n) (bank, [[]; []; []], []) blocks = Ok (bank1, bands, out) /\
    split_merge m (with_size m bank, [[]; []; []], []) (concat blocks) =
      Ok (bank2, bands, out) /\
    with_size n bank2 = with_size n bank1 /\
    bands_ok m bands /\ length out = (3 * m)%nat.
Proof.
  intros Hb Hx m.
  destruct (split_merge_blocks n bank blocks Hb Hx) as (bank1 & E1 & _ & A1 & S1).
  assert (Hm : bank_ok m (with_size m bank)).
  { destruct Hb. constructor; cbn; [apply length_replicate|done|done]. }
  pose proof (concat_blocks_length _ _ Hx) as Lc.
  destruct (split_merge_eq m (with_size m bank) [[]; []; []] [] _ Hm Lc)
    as (bank2 & E2 & _ & A2 & S2).
  cbn in E2, A2, S2. eexists bank1, bank2, _, _. split; [exact E1|]. split; [exact E2|].
  split; [unfold with_size; by rewrite A1, A2, S1, S2|]. split; [apply analysis_bands_ok|].
  apply synthesis_out_length.
Qed.

(** ** Construction *)

Lemma bank_filters_ok : wp bank_filters filters_ok.
Proof.
  assert (E : exists fs, bank_filters = Ok fs /\ length fs = 12%nat /\
    forallb (fun f => (0 <? length (nonzero_coeffs_ f))%nat && (0 <? sparsity_ f)%nat &&
      (length (state_ f) =? sparsity_ f * (length (nonzero_coeffs_ f) - 1) + offset_ f)%nat)
      fs = true).
  { eexists. split; [vm_compute; reflexivity|]. split; [reflexivity|vm_compute; reflexivity]. }
  destruct E as (fs & -> & L & H). constructor; [done|]. apply Forall_forall.
  intros f Hf. rewrite forallb_forall in H. specialize (H f Hf).
  rewrite !andb_true_iff, !Nat.ltb_lt, Nat.eqb_eq in H. by destruct H as [[? ?] ?].
Qed.

Lemma ThreeBandFilterBank_new_spec n :
  wp (ThreeBandFilterBank_new (3 * n)) (bank_ok n).
Proof.
  unfold ThreeBandFilterBank_new, CheckedDivExact, kNumBands.
  rewrite Nat.mul_comm, Nat.Div0.mod_mul, Nat.div_mul by lia. cbn [Nat.eqb negb].
  rewrite bind_ok.
  apply wp_bind. eapply wp_mono; [apply bank_filters_ok|]. intros fs Hfs.
  constructor; cbn; [apply length_replicate|done|done].
Qed.

(** A block whose length is not three times the size of the bank stops the program. *)
Lemma bank_size_checked n bank x len :
  length (in_buffer_ bank) = n -> len <> (3 * n)%nat ->
  Analysis bank x len = Fault AssertionFailed.
Proof.
  intros Hn Hl. unfold Analysis, CheckedDivExact, kNumBands. rewrite Hn.
  pose proof (Nat.div_mod len 3 ltac:(lia)) as E.
  cbn [Nat.eqb]. destruct (Nat.eqb_spec (len mod 3) 0); [|done]. cbn [negb]. rewrite bind_ok.
  destruct (Nat.eqb_spec n (len / 3)); [lia|done].
Qed.

(** The table: entry [(i, j)] is within [2 ^ -21] of [2 * cos (pi * i * (2 * j + 1) / 6)],
    in terms of its sign and of its square, which is one of 4, 3, 1 and 0. *)
Definition cosine_square (k : Z) : Z * Z :=
  nth (Z.to_nat (k mod 12)) [(1, 4); (1, 3); (1, 1); (0, 0); (-1, 1); (-1, 3);
                             (-1, 4); (-1, 3); (-1, 1); (0, 0); (1, 1); (1, 3)] (0, 0).

Definition near_cosine (k : Z) (v : float) : bool :=
  let '(sign, square) := cosine_square k in
  let e := - f_exp v in
  ((sign =? 0) || (sign =? Z.sgn (f_man v))) &&
  (Z.abs (f_man v * f_man v - square * 2 ^ (2 * e)) <=? 2 ^ (2 * e - 21)).

Lemma dct_modulation_cosine :
  forallb (fun i => forallb (fun j =>
    near_cosine (Z.of_nat i * (2 * Z.of_nat j + 1)) (dct i j)) (seq 0 3)) (seq 0 12) = true.
Proof. vm_compute. reflexivity. Qed.

(** Two blocks of three samples through a new bank. *)
Lemma bank_stream_witness : exists bank,
  ThreeBandFilterBank_new 3 = Ok bank /\
  exists bank1 bank2 bands out,
    each (split_merge 1) (bank, [[]; []; []], [])
      [[Flt 100 0; Flt 200 0; Flt 300 0]; [Flt (-5) 0; Flt 7 0; Flt 1 3]] =
      Ok (bank1, bands, out) /\
    split_merge 2 (with_size 2 bank, [[]; []; []], [])
      [Flt 100 0; Flt 200 0; Flt 300 0; Flt (-5) 0; Flt 7 0; Flt 1 3] = Ok (bank2, bands, out) /\
    with_size 1 bank2 = with_size 1 bank1 /\ bands_ok 2 bands /\ length out = 6%nat.
Proof.
  destruct (proj1 (wp_ok _ _) (ThreeBandFilterBank_new_spec 1)) as (bank & E & Hb).
  exists bank. split; [exact E|].
  apply (bank_stream 1 bank
    [[Flt 100 0; Flt 200 0; Flt 300 0]; [Flt (-5) 0; Flt 7 0; Flt 1 3]]); [exact Hb|].
  repeat constructor.
Defined.

(** What the splitting filter relies on. *)
Lemma wp_bank_Analysis n bank x :
  bank_ok n bank -> length x = (3 * n)%nat ->
  wp (Analysis bank x (3 * n)) (fun '(bank', out) => bank_ok n bank' /\ bands_ok n out).
Proof.
  intros Hb Hx. rewrite Analysis_eq by done.
  fold (analysis_bands (analysis_filters_ bank) n x). apply wp_ret. destruct Hb as [Hn Ha Hs].
  split; [|apply analysis_bands_ok].
  constructor; cbn; [apply down_length|by apply filters_ok_next|done].
Qed.

Lemma wp_bank_Synthesis n bank bands :
  bank_ok n bank -> bands_ok n bands ->
  wp (Synthesis bank bands n) (fun '(bank', out) => bank_ok n bank' /\ length out = (3 * n)%nat).
Proof.
  intros Hb Hd. rewrite Synthesis_eq by done. apply wp_ret. destruct Hb as [Hn Ha Hs].
  split; [|apply synthesis_out_length].
  constructor; cbn; [by apply synthesis_input_length|done|by apply filters_ok_next].
Qed.
