(* ===== verification/Double.v ===== *)
(** * Double precision

    Arithmetic on finite [double]s: the numbers of [AudioUtil] with 53 bits.  As
    there, the exponent is not limited.  The second part bounds the rounding errors
    in fixed point, in units of [2 ^ -200]. *)
From S2P Require Import Prelude CInt AudioUtil.

(** [m * 2 ^ e] rounded to [p] bits, to nearest with ties to even. *)
Definition round_to (p m e : Z) : float :=
  let d := Z.log2 (Z.abs m) - (p - 1) in
  if d <=? 0 then Flt m e else Flt (round_even m d) (e + d).

Definition dadd (a b : float) : float :=
  let e := Z.min (f_exp a) (f_exp b) in round_to 53 (man_at e a + man_at e b) e.
Definition dsub (a b : float) : float := dadd a (fneg b).
Definition dmul (a b : float) : float := round_to 53 (f_man a * f_man b) (f_exp a + f_exp b).

(** The quotient to at least 60 bits, the last one set when it is not exact, and
    then rounded.  An infinite result is outside the model. *)
Definition long_quotient (a b : float) : Z * Z :=
  let s := 60 + Z.log2 (Z.abs (f_man b)) in
  let n := Z.abs (f_man a) * 2 ^ s in
  let d := Z.abs (f_man b) in
  let sticky := if n mod d =? 0 then 0 else 1 in
  (Z.sgn (f_man a) * Z.sgn (f_man b) * (2 * (n / d) + sticky), f_exp a - f_exp b - s - 1).

Definition divide (p : Z) (a b : float) : res float :=
  if f_man b =? 0 then Fault DivByZero else
  let '(m, e) := long_quotient a b in Ok (round_to p m e).

Definition ddiv : float -> float -> res float := divide 53.
Definition fdiv : float -> float -> res float := divide 24.

(** Conversions. *)
Definition double_of_Z (x : Z) : float := round_to 53 x 0.
Definition float_of_double (v : float) : float := round_to 24 (f_man v) (f_exp v).

Definition fceil (v : float) : Z :=
  if 0 <=? f_exp v then f_man v * 2 ^ f_exp v else - (- f_man v / 2 ^ (- f_exp v)).

(** [static_cast<int>], undefined for a value that does not fit. *)
Definition int_of (x : Z) : res Z :=
  if (INT32_MIN <=? x) && (x <=? INT32_MAX) then Ok x else Fault ConversionRange.

Definition flt (a b : float) : bool := negb (fle b a).
Definition fabs (v : float) : float := Flt (Z.abs (f_man v)) (f_exp v).

(** * Rounding errors *)

Definition scale : Z := 2 ^ 200.

Definition units (v : float) : Z := f_man v * 2 ^ (f_exp v + 200).

(** A double whose last bit is not below the unit. *)
Definition fine (v : float) : Prop := Z.abs (f_man v) <= 2 ^ 53 /\ -200 <= f_exp v.

(** [x'] is [x] with a relative error of at most [2 ^ -k]. *)
Definition near (k x' x : Z) : Prop := Z.abs (x' - x) * 2 ^ k <= Z.abs x.

Lemma pow2_pos k : 0 <= k -> 0 < 2 ^ k.
Proof. intros. by apply Z.pow_pos_nonneg. Qed.

Lemma round_even_near m d :
  0 < d -> 2 * Z.abs (round_even m d * 2 ^ d - m) <= 2 ^ d.
Proof.
  intros Hd. pose proof (pow2_pos d ltac:(lia)) as Hp.
  assert (E2 : 2 ^ d = 2 * 2 ^ (d - 1)) by (rewrite <- Z.pow_succ_r by lia; f_equal; lia).
  pose proof (Z.div_mod m (2 ^ d) ltac:(lia)) as E.
  pose proof (Z.mod_pos_bound m (2 ^ d) Hp) as Hr.
  unfold round_even. cbv zeta. repeat case_if; lia.
Qed.

(** The rounded mantissa has at most [p] bits, or is the next power of two. *)
Lemma round_even_bits p m :
  0 < p -> let d := Z.log2 (Z.abs m) - (p - 1) in 0 < d ->
  Z.abs (round_even m d) <= 2 ^ p /\ 2 ^ (p - 1 + d) <= Z.abs m.
Proof.
  intros Hp d Hd. assert (Hm : 0 < Z.abs m).
  { destruct (Z.eq_dec m 0) as [->|]; [|lia]. subst d. change (Z.log2 (Z.abs 0)) with 0 in Hd. lia. }
  pose proof (Z.log2_spec (Z.abs m) Hm) as [L1 L2].
  assert (El : Z.log2 (Z.abs m) = p - 1 + d) by lia. rewrite El in L1, L2. split; [|exact L1].
  pose proof (round_even_near m d Hd) as Hn.
  pose proof (pow2_pos d ltac:(lia)) as P1.
  replace (Z.succ (p - 1 + d)) with (p + d) in L2 by lia.
  rewrite Z.pow_add_r in L2 by lia. pose proof (pow2_pos p ltac:(lia)). nia.
Qed.

Lemma round_to_spec p m e :
  0 < p -> exists k, 0 <= k /\ f_exp (round_to p m e) = e + k /\
    near p (f_man (round_to p m e) * 2 ^ k) m /\
    (Z.abs (f_man (round_to p m e)) <= 2 ^ p).
Proof.
  intros Hp. unfold round_to, near. cbv zeta. set (d := Z.log2 (Z.abs m) - (p - 1)).
  destruct (Z.leb_spec d 0) as [Hd|Hd].
  - exists 0. cbn [f_man f_exp]. rewrite Z.mul_1_r, Z.sub_diag. split; [lia|]. split; [lia|].
    split; [cbn; lia|]. destruct (Z.eq_dec m 0) as [->|Hne].
    { pose proof (pow2_pos p ltac:(lia)). cbn. lia. }
    pose proof (Z.log2_spec (Z.abs m) ltac:(lia)) as [_ L].
    assert (2 ^ Z.succ (Z.log2 (Z.abs m)) <= 2 ^ p) by (apply Z.pow_le_mono_r; lia). lia.
  - exists d. cbn [f_man f_exp].
    destruct (round_even_bits p m Hp Hd) as [H1 H2]. fold d in H1, H2.
    split; [lia|]. split; [done|]. split; [|done].
    pose proof (round_even_near m d Hd) as Hn.
    assert (E : 2 ^ (p - 1 + d) * 2 = 2 ^ d * 2 ^ p).
    { rewrite <- Z.pow_add_r, Z.mul_comm, <- Z.pow_succ_r by lia. f_equal. lia. }
    pose proof (pow2_pos p ltac:(lia)). nia.
Qed.

Lemma round_to_units p m e :
  0 < p <= 53 -> -200 <= e ->
  fine (round_to p m e) /\ near p (units (round_to p m e)) (m * 2 ^ (e + 200)).
Proof.
  intros Hp He. destruct (round_to_spec p m e ltac:(lia)) as (k & Hk & Ee & Hn & Hb).
  split.
  - split; [|lia]. assert (2 ^ p <= 2 ^ 53) by (apply Z.pow_le_mono_r; lia). lia.
  - unfold units, near in *. rewrite Ee.
    replace (e + k + 200) with (k + (e + 200)) by lia. rewrite Z.pow_add_r, Z.mul_assoc by lia.
    rewrite <- Z.mul_sub_distr_r, !Z.abs_mul.
    pose proof (pow2_pos (e + 200) ltac:(lia)) as Hpos. rewrite (Z.abs_eq (2 ^ (e + 200))) by lia.
    nia.
Qed.

(** Numbers that fit are not changed. *)
Lemma round_even_exact q d : 0 < d -> round_even (q * 2 ^ d) d = q.
Proof.
  intros Hd. pose proof (pow2_pos d ltac:(lia)). pose proof (pow2_pos (d - 1) ltac:(lia)).
  unfold round_even. cbv zeta. rewrite Z.div_mul, Z.mod_mul by lia.
  by rewrite (proj2 (Z.ltb_lt _ _)).
Qed.

Lemma round_to_exact p m j e :
  0 < p -> 0 <= j -> Z.abs m <= 2 ^ p -> -200 <= e ->
  units (round_to p (m * 2 ^ j) e) = m * 2 ^ j * 2 ^ (e + 200).
Proof.
  intros Hp Hj Hm He. unfold round_to. cbv zeta.
  set (d := Z.log2 (Z.abs (m * 2 ^ j)) - (p - 1)). pose proof (pow2_pos j Hj) as Pj.
  destruct (Z.leb_spec d 0) as [Hd|Hd]; [done|].
  assert (Hne : m <> 0).
  { intros ->. unfold d in Hd. rewrite Z.mul_0_l in Hd. change (Z.log2 (Z.abs 0)) with 0 in Hd. lia. }
  assert (El : Z.log2 (Z.abs (m * 2 ^ j)) = j + Z.log2 (Z.abs m)).
  { rewrite Z.abs_mul, (Z.abs_eq (2 ^ j)) by lia. rewrite Z.log2_mul_pow2 by lia. lia. }
  assert (Hq : exists q, m * 2 ^ j = q * 2 ^ d).
  { destruct (Z.leb_spec d j) as [Hdj|Hdj].
    - exists (m * 2 ^ (j - d)). rewrite <- Z.mul_assoc, <- Z.pow_add_r by lia. do 2 f_equal. lia.
    - assert (Hlog : p <= Z.log2 (Z.abs m)) by lia.
      pose proof (Z.log2_spec (Z.abs m) ltac:(lia)) as [L _].
      assert (2 ^ p <= 2 ^ Z.log2 (Z.abs m)) by (apply Z.pow_le_mono_r; lia).
      assert (Em : Z.abs m = 2 ^ p) by lia.
      assert (Ed : d = j + 1) by (unfold d; rewrite El, Em, Z.log2_pow2 by lia; lia).
      exists (Z.sgn m * 2 ^ (p - 1)). rewrite <- Z.mul_assoc, <- Z.pow_add_r by lia.
      replace (p - 1 + d) with (p + j) by lia. rewrite Z.pow_add_r, Z.mul_assoc, <- Em by lia.
      f_equal. lia. }
  destruct Hq as [q Eq]. rewrite Eq, round_even_exact by done. unfold units. cbn [f_man f_exp].
  replace (e + d + 200) with (d + (e + 200)) by lia. rewrite Z.pow_add_r by lia. lia.
Qed.

Lemma man_at_units e v :
  -200 <= e <= f_exp v -> man_at e v * 2 ^ (e + 200) = units v.
Proof.
  intros He. unfold man_at, units. rewrite <- Z.mul_assoc, <- Z.pow_add_r by lia.
  by replace (f_exp v - e + (e + 200)) with (f_exp v + 200) by lia.
Qed.

Lemma dadd_units a b :
  fine a -> fine b -> fine (dadd a b) /\ near 53 (units (dadd a b)) (units a + units b).
Proof.
  intros [_ Ha] [_ Hb]. unfold dadd. cbv zeta. set (e := Z.min (f_exp a) (f_exp b)).
  assert (He : -200 <= e) by lia.
  destruct (round_to_units 53 (man_at e a + man_at e b) e ltac:(lia) He) as [H1 H2].
  split; [done|]. by rewrite Z.mul_add_distr_r, !man_at_units in H2 by lia.
Qed.

Lemma units_neg v : units (fneg v) = - units v.
Proof. unfold units, fneg. cbn. lia. Qed.

Lemma fine_neg v : fine v -> fine (fneg v).
Proof. intros [H1 H2]. split; cbn; lia. Qed.

Lemma dsub_units a b :
  fine a -> fine b -> fine (dsub a b) /\ near 53 (units (dsub a b)) (units a - units b).
Proof.
  intros Ha Hb. unfold dsub. destruct (dadd_units a (fneg b) Ha (fine_neg b Hb)) as [H1 H2].
  split; [done|]. by rewrite units_neg in H2.
Qed.

Lemma fle_units a b : fine a -> fine b -> fle a b = (units a <=? units b).
Proof.
  intros [_ Ha] [_ Hb]. unfold fle. cbv zeta. set (e := Z.min (f_exp a) (f_exp b)).
  rewrite <- (man_at_units e a), <- (man_at_units e b) by lia.
  pose proof (pow2_pos (e + 200) ltac:(lia)).
  apply eq_true_iff_eq. rewrite !Z.leb_le. nia.
Qed.

Lemma double_of_Z_units x :
  Z.abs x <= 2 ^ 53 -> fine (double_of_Z x) /\ units (double_of_Z x) = x * scale.
Proof.
  intros Hx. unfold double_of_Z, round_to. cbv zeta.
  destruct (Z.leb_spec (Z.log2 (Z.abs x) - (53 - 1)) 0) as [Hd|Hd]; [by split; [split; cbn|]|].
  assert (Z.abs x = 2 ^ 53) as Ex.
  { assert (Hx0 : x <> 0) by (intros ->; done).
    pose proof (Z.log2_spec (Z.abs x) ltac:(lia)) as [L _].
    assert (2 ^ 53 <= 2 ^ Z.log2 (Z.abs x)) by (apply Z.pow_le_mono_r; lia). lia. }
  rewrite Ex. change (Z.log2 (2 ^ 53) - (53 - 1)) with 1.
  assert (x = 2 ^ 53 \/ x = - 2 ^ 53) as [->| ->] by lia; by split.
Qed.

(** ** Division *)

Lemma long_quotient_near a b :
  f_man b <> 0 ->
  let '(m, e) := long_quotient a b in
  let s := 60 + Z.log2 (Z.abs (f_man b)) in
  e = f_exp a - f_exp b - s - 1 /\ near 59 (m * f_man b) (f_man a * 2 ^ (s + 1)).
Proof.
  intros Hb. unfold long_quotient. cbv zeta.
  set (s := 60 + Z.log2 (Z.abs (f_man b))). split; [done|].
  set (d := Z.abs (f_man b)). assert (Hd : 0 < d) by (unfold d; lia).
  set (n := Z.abs (f_man a) * 2 ^ s).
  pose proof (Z.log2_nonneg d) as Hl. fold d in s.
  pose proof (Z.log2_spec d Hd) as [_ L2]. rewrite Z.pow_succ_r in L2 by lia.
  assert (Es : 2 ^ s = 2 ^ 60 * 2 ^ Z.log2 d) by (unfold s; by rewrite Z.pow_add_r by lia).
  assert (Hs1 : 2 ^ (s + 1) = 2 * 2 ^ s) by (rewrite Z.add_1_r, Z.pow_succ_r by lia; done).
  pose proof (Z.div_mod n d ltac:(lia)) as En. pose proof (Z.mod_pos_bound n d Hd) as Hr.
  set (sticky := if n mod d =? 0 then 0 else 1).
  assert (Hm : Z.abs ((2 * (n / d) + sticky) * d - 2 * n) <= d).
  { unfold sticky. destruct (Z.eqb_spec (n mod d) 0); nia. }
  assert (Hbig : 2 ^ 59 * d * Z.abs (f_man a) <= n).
  { unfold n. rewrite Es. change (2 ^ 60) with (2 * 2 ^ 59). nia. }
  assert (Esign : Z.sgn (f_man a) * Z.sgn (f_man b) * (2 * (n / d) + sticky) * f_man b -
     f_man a * 2 ^ (s + 1) =
     Z.sgn (f_man a) * ((2 * (n / d) + sticky) * d - 2 * n)).
  { assert (Ea : f_man a = Z.sgn (f_man a) * Z.abs (f_man a)) by lia.
    assert (Eb : Z.sgn (f_man b) * f_man b = d) by (unfold d; lia).
    assert (En2 : f_man a * 2 ^ (s + 1) = Z.sgn (f_man a) * (2 * n)).
    { unfold n. rewrite Hs1. rewrite Ea at 1. ring. }
    rewrite En2. rewrite <- Eb. ring. }
  unfold near. rewrite Esign, Z.abs_mul, Z.abs_mul, (Z.abs_eq (2 ^ (s + 1))), Hs1
    by (rewrite Hs1; pose proof (pow2_pos s ltac:(lia)); lia).
  destruct (Z.eq_dec (f_man a) 0) as [E0|Hne]; [rewrite E0; cbn; lia|].
  replace (Z.abs (Z.sgn (f_man a))) with 1 by lia. fold n.
  assert (Z.abs (f_man a) * (2 * 2 ^ s) = 2 * n) as -> by (unfold n; ring).
  rewrite Z.mul_1_l.
  assert (H1 : 2 ^ 59 * d * 1 <= 2 ^ 59 * d * Z.abs (f_man a)) by (apply Z.mul_le_mono_nonneg_l; lia).
  pose proof (Z.mul_le_mono_nonneg_r _ _ (2 ^ 59) ltac:(lia) Hm). lia.
Qed.

Lemma near_sum u v F :
  Z.abs u * 2 ^ 53 <= Z.abs v -> Z.abs (v - F) * 2 ^ 59 <= Z.abs F ->
  Z.abs (u + (v - F)) * 2 ^ 52 <= Z.abs F.
Proof.
  replace (2 ^ 53) with 9007199254740992 by reflexivity.
  replace (2 ^ 59) with 576460752303423488 by reflexivity.
  replace (2 ^ 52) with 4503599627370496 by reflexivity. intros H1 H2.
  pose proof (Z.abs_triangle u (v - F)) as T1. pose proof (Z.abs_triangle (v - F) F) as T2.
  replace (v - F + F) with v in T2 by ring. pose proof (Z.abs_nonneg F) as T3. revert T3.
  generalize dependent (Z.abs (u + (v - F))). generalize dependent (Z.abs (v - F)).
  generalize dependent (Z.abs u). generalize dependent (Z.abs v).
  generalize (Z.abs F). intros. lia.
Qed.

(** The quotient [q] in fixed point with [K] more bits. *)
Lemma ddiv_units a b :
  fine a -> fine b -> units b <> 0 ->
  exists q K, ddiv a b = Ok q /\ 0 <= K /\ 0 <= f_exp q + K /\
    near 52 (f_man q * 2 ^ (f_exp q + K) * units b) (units a * 2 ^ K).
Proof.
  intros [_ Ha] [_ Hb] Hnz. assert (Hb0 : f_man b <> 0).
  { intros E. apply Hnz. unfold units. by rewrite E. }
  unfold ddiv, divide. rewrite (proj2 (Z.eqb_neq _ _) Hb0).
  pose proof (long_quotient_near a b Hb0) as Hq. destruct (long_quotient a b) as [m e].
  cbv zeta in Hq. set (s := 60 + Z.log2 (Z.abs (f_man b))) in *. destruct Hq as [-> Hq].
  assert (Hs : 0 <= s) by (unfold s; pose proof (Z.log2_nonneg (Z.abs (f_man b))); lia).
  set (e := f_exp a - f_exp b - s - 1).
  destruct (round_to_spec 53 m e ltac:(lia)) as (k & Hk & Ek & Hn & _).
  set (q := round_to 53 m e) in *. set (K := Z.abs e + s + 1).
  exists q, K. split; [done|]. split; [unfold K; lia|]. split; [unfold K; lia|].
  set (U := 2 ^ (f_exp a + 200 + K - s - 1)).
  assert (HU : 0 < U) by (apply pow2_pos; unfold K; lia).
  set (X := f_man q * 2 ^ k) in *. set (F := f_man a * 2 ^ (s + 1)) in *.
  assert (E1 : f_man q * 2 ^ (f_exp q + K) * units b = X * f_man b * U).
  { unfold X, U, units. rewrite <- !Z.mul_assoc. f_equal.
    rewrite !Z.mul_assoc, (Z.mul_comm _ (f_man b)), <- !Z.mul_assoc,
      (Z.mul_comm (2 ^ k) (f_man b * _)), <- !Z.mul_assoc. f_equal.
    rewrite <- !Z.pow_add_r by (unfold K; lia). f_equal. unfold e in *. lia. }
  assert (E2 : units a * 2 ^ K = F * U).
  { unfold F, U, units. rewrite <- !Z.mul_assoc. f_equal.
    rewrite <- !Z.pow_add_r by (unfold K; lia). f_equal. lia. }
  rewrite E1, E2. unfold near in *. rewrite <- Z.mul_sub_distr_r, !Z.abs_mul, (Z.abs_eq U) by lia.
  rewrite <- (Z.mul_comm (2 ^ 52)), Z.mul_assoc. apply Z.mul_le_mono_nonneg_r; [lia|].
  rewrite (Z.mul_comm (2 ^ 52)).
  assert (Hm : Z.abs ((X - m) * f_man b) * 2 ^ 53 <= Z.abs (m * f_man b)).
  { rewrite !Z.abs_mul, <- Z.mul_assoc, (Z.mul_comm (Z.abs (f_man b))), Z.mul_assoc.
    apply Z.mul_le_mono_nonneg_r; [lia|exact Hn]. }
  replace (X * f_man b - F) with ((X - m) * f_man b + (m * f_man b - F)) by ring.
  by apply near_sum.
Qed.

Lemma fceil_bounds q K :
  0 <= K -> 0 <= f_exp q + K ->
  let X := f_man q * 2 ^ (f_exp q + K) in
  (fceil q - 1) * 2 ^ K < X <= fceil q * 2 ^ K.
Proof.
  intros HK Hq. cbv zeta. unfold fceil. destruct (Z.leb_spec 0 (f_exp q)) as [He|He].
  - rewrite Z.pow_add_r, Z.mul_assoc by lia. pose proof (pow2_pos K HK). nia.
  - pose proof (pow2_pos (- f_exp q) ltac:(lia)) as Hp.
    pose proof (Z.div_mod (- f_man q) (2 ^ (- f_exp q)) ltac:(lia)) as E.
    pose proof (Z.mod_pos_bound (- f_man q) (2 ^ (- f_exp q)) Hp) as Hr.
    assert (EK : 2 ^ K = 2 ^ (- f_exp q) * 2 ^ (f_exp q + K))
      by (rewrite <- Z.pow_add_r by lia; f_equal; lia).
    rewrite EK. pose proof (pow2_pos (f_exp q + K) Hq). nia.
Qed.

Lemma ftrunc_bounds q K :
  0 <= K -> 0 <= f_exp q + K -> 0 <= f_man q ->
  let X := f_man q * 2 ^ (f_exp q + K) in
  ftrunc q * 2 ^ K <= X < (ftrunc q + 1) * 2 ^ K.
Proof.
  intros HK Hq Hm. cbv zeta. unfold ftrunc. destruct (Z.leb_spec 0 (f_exp q)) as [He|He].
  - rewrite Z.pow_add_r, Z.mul_assoc by lia. pose proof (pow2_pos K HK). nia.
  - pose proof (pow2_pos (- f_exp q) ltac:(lia)) as Hp.
    rewrite Z.quot_div_nonneg by lia.
    pose proof (Z.div_mod (f_man q) (2 ^ (- f_exp q)) ltac:(lia)) as E.
    pose proof (Z.mod_pos_bound (f_man q) (2 ^ (- f_exp q)) Hp) as Hr.
    assert (EK : 2 ^ K = 2 ^ (- f_exp q) * 2 ^ (f_exp q + K))
      by (rewrite <- Z.pow_add_r by lia; f_equal; lia).
    rewrite EK. pose proof (pow2_pos (f_exp q + K) Hq). nia.
Qed.
