(* ===== verification/Conversions.v ===== *)
(** * Sample formats

    The conversions of [common_audio/audio_util.{h,cc}] between 16-bit samples
    ([S16]), floats in the range of 16-bit samples ([FloatS16]) and floats between
    -1 and 1 ([Float]), those to and from decibels, copying, and downmixing of
    floats.  The conversion of [FloatS16] to [S16] is in [AudioUtil].

    [pow] and [log10] of the C library are parameters ([Logarithms]). *)
From S2P Require Import Prelude CInt AudioUtil ChannelBuffer Double.

(** A quotient of constants. *)
Definition quotient (a b : float) : float :=
  match fdiv a b with Ok q => q | Fault _ => fzero end.

Definition positive (v : float) : bool := negb (fle v (Flt 0 0)).

Definition kMaxInt16Inverse : float := quotient (Flt 1 0) (float_of_int INT16_MAX).
Definition kMinInt16Inverse : float := quotient (Flt 1 0) (float_of_int INT16_MIN).

Definition FloatToS16 (v : float) : res Z :=
  if positive v then
    if fle (Flt 1 0) v then Ok INT16_MAX
    else short_of_float (fadd (fmul v (float_of_int INT16_MAX)) fhalf)
  else if fle v (Flt (-1) 0) then Ok INT16_MIN
  else short_of_float (fadd (fmul (fneg v) (float_of_int INT16_MIN)) (fneg fhalf)).

Definition S16ToFloat (v : Z) : float :=
  fmul (float_of_int v) (if 0 <? v then kMaxInt16Inverse else fneg kMinInt16Inverse).

Definition FloatToFloatS16 (v : float) : float :=
  fmul v (float_of_int (if positive v then INT16_MAX else - INT16_MIN)).

Definition FloatS16ToFloat (v : float) : float :=
  fmul v (if positive v then kMaxInt16Inverse else fneg kMinInt16Inverse).

(** The functions on arrays: [size] elements of [src] are converted into [dest]. *)
Section arrays.
Context {A B : Type}.

Definition convert (f : A -> res B) (src : list A) (size : nat) (dest : list B) : res (list B) :=
  loop size (fun i dest =>
    v ← rd src (Z.of_nat i);
    x ← f v;
    wr dest (Z.of_nat i) x) dest.

End arrays.

Definition FloatToS16_array : list float -> nat -> list Z -> res (list Z) := convert FloatToS16.
Definition S16ToFloat_array : list Z -> nat -> list float -> res (list float) :=
  convert (fun v => Ok (S16ToFloat v)).
Definition FloatS16ToS16_array : list float -> nat -> list Z -> res (list Z) :=
  convert FloatS16ToS16.
Definition FloatToFloatS16_array : list float -> nat -> list float -> res (list float) :=
  convert (fun v => Ok (FloatToFloatS16 v)).
Definition FloatS16ToFloat_array : list float -> nat -> list float -> res (list float) :=
  convert (fun v => Ok (FloatS16ToFloat v)).

(** ** Decibels *)

Class Logarithms := { libm_powf : float -> float -> float; libm_log10f : float -> float }.

Section decibels.
Context `{LG : Logarithms}.

Definition DbToRatio (v : float) : float := libm_powf (Flt 10 0) (quotient v (Flt 20 0)).
Definition DbfsToFloatS16 (v : float) : float :=
  fmul (DbToRatio v) (float_of_int (- INT16_MIN)).

(** [-90.30899869919436f]. *)
Definition kMinDbfs : float := Flt (-11836981) (-17).

Definition FloatS16ToDbfs (v : float) : res float :=
  if negb (fle (Flt 0 0) v) then Fault AssertionFailed else
  if fle v (Flt 1 0) then Ok kMinDbfs
  else Ok (fadd (fmul (Flt 20 0) (libm_log10f v)) kMinDbfs).

End decibels.

(** ** Channels *)

(** [src] and [dest] are arrays of pointers into the memory. *)
Definition CopyAudioIfNeeded {A} (mem : list A) (src : list nat) (num_frames num_channels : nat)
    (dest : list nat) : res (list A) :=
  loop num_channels (fun i mem =>
    p ← rd src (Z.of_nat i);
    q ← rd dest (Z.of_nat i);
    if (p =? q)%nat then Ok mem else
    xs ← fetch num_frames p mem;
    put q xs mem) mem.

(** [DownmixToMono<float, float>]; the channels are arrays of their own. *)
Definition DownmixToMono_float (input_channels : list (list float)) (num_frames num_channels : nat)
    : res (list float) :=
  mapM (fun i =>
    let sample j := x ← rd input_channels (Z.of_nat j); rd x (Z.of_nat i) in
    value ← sample 0%nat;
    value ← each (fun value j => x ← sample j; Ok (fadd value x)) value
              (seq 1 (num_channels - 1));
    fdiv value (float_of_int (Z.of_nat num_channels))) (seq 0 num_frames).

(** * Lemmas *)

(** Comparison at any common scale. *)
Lemma fle_shift K a b :
  0 <= f_exp a + K -> 0 <= f_exp b + K ->
  fle a b = (f_man a * 2 ^ (f_exp a + K) <=? f_man b * 2 ^ (f_exp b + K)).
Proof.
  intros Ha Hb. unfold fle, man_at. cbv zeta. set (e := Z.min (f_exp a) (f_exp b)).
  assert (E : forall v, e <= f_exp v -> f_man v * 2 ^ (f_exp v + K) = f_man v * 2 ^ (f_exp v - e) * 2 ^ (e + K)).
  { intros v Hv. rewrite <- Z.mul_assoc, <- Z.pow_add_r by lia. do 2 f_equal. lia. }
  rewrite !E by lia. pose proof (pow2_pos (e + K) ltac:(lia)).
  apply eq_true_iff_eq. rewrite !Z.leb_le. nia.
Qed.

Lemma fle_trans a b c : fle a b = true -> fle b c = true -> fle a c = true.
Proof.
  set (K := Z.abs (f_exp a) + Z.abs (f_exp b) + Z.abs (f_exp c)).
  rewrite !(fle_shift K) by lia. rewrite !Z.leb_le. lia.
Qed.

Lemma fle_total a b : fle a b = false -> fle b a = true.
Proof.
  set (K := Z.abs (f_exp a) + Z.abs (f_exp b)). rewrite !(fle_shift K) by lia.
  rewrite Z.leb_gt, Z.leb_le. lia.
Qed.

(** Rounding does not pass a number of 24 bits. *)
Lemma fl_below m e b f :
  Z.abs b < 2 ^ 24 -> fle (Flt m e) (Flt b f) = true -> fle (fl m e) (Flt b f) = true.
Proof.
  intros Hb. unfold fl. cbv zeta. set (d := Z.log2 (Z.abs m) - 23).
  destruct (Z.leb_spec d 0) as [Hd|Hd]; [done|].
  set (K := Z.abs e + Z.abs f). rewrite !(fle_shift K) by (cbn; lia). cbn [f_man f_exp].
  rewrite !Z.leb_le. intros H.
  assert (Hm : 2 ^ 23 * 2 ^ d <= Z.abs m).
  { rewrite <- Z.pow_add_r by lia. replace (23 + d) with (Z.log2 (Z.abs m)) by lia.
    apply Z.log2_spec. destruct (Z.eq_dec m 0) as [->|]; [|lia].
    unfold d in Hd. change (Z.log2 (Z.abs 0)) with 0 in Hd. lia. }
  pose proof (pow2_pos d ltac:(lia)) as Pd.
  set (P := 2 ^ (e + K)) in *. assert (HP : 0 < P) by (apply pow2_pos; lia).
  assert (E1 : 2 ^ (e + d + K) = 2 ^ d * P).
  { unfold P. rewrite <- Z.pow_add_r by lia. f_equal. lia. }
  rewrite E1. destruct (Z.le_gt_cases (e + d) f) as [Hf|Hf].
  - assert (E2 : 2 ^ (f + K) = 2 ^ (f - e - d) * (2 ^ d * P)).
    { rewrite <- E1, <- Z.pow_add_r by lia. f_equal. lia. }
    rewrite E2 in *. rewrite Z.mul_assoc in H |- *. pose proof (pow2_pos (f - e - d) ltac:(lia)).
    assert (Hr : round_even m d <= b * 2 ^ (f - e - d)).
    { apply (round_even_range m d (Z.min m 0 - 1)); [lia|]. split; nia. }
    nia.
  - assert (E3 : 2 ^ d * P = 2 ^ (e + d - f) * 2 ^ (f + K)).
    { rewrite <- E1, <- Z.pow_add_r by lia. f_equal. lia. }
    assert (H2 : 2 <= 2 ^ (e + d - f)).
    { change 2 with (2 ^ 1) at 1. apply Z.pow_le_mono_r; lia. }
    pose proof (pow2_pos (f + K) ltac:(lia)) as Pf. set (F := 2 ^ (f + K)) in *.
    change (2 ^ 24) with 16777216 in Hb. change (2 ^ 23) with 8388608 in Hm.
    assert (Hbig : 16777216 * F <= Z.abs m * P) by nia.
    assert (Hneg : m < 0) by nia.
    assert (Hr : round_even m d <= -8388608).
    { apply (round_even_range m d m); [lia|]. nia. }
    nia.
Qed.

Lemma round_even_opp m d : 0 < d -> round_even (- m) d = - round_even m d.
Proof.
  intros Hd. pose proof (pow2_pos d ltac:(lia)) as Pd.
  assert (E2 : 2 ^ d = 2 * 2 ^ (d - 1)) by (rewrite <- Z.pow_succ_r by lia; f_equal; lia).
  unfold round_even. cbv zeta. set (h := 2 ^ (d - 1)) in *.
  destruct (Z.eq_dec (m mod 2 ^ d) 0) as [E0|Hne].
  - rewrite Z.div_opp_l_z, Z.mod_opp_l_z, E0 by lia. rewrite (proj2 (Z.ltb_lt 0 h)) by lia. done.
  - rewrite Z.div_opp_l_nz, Z.mod_opp_l_nz by lia.
    pose proof (Z.mod_pos_bound m (2 ^ d) Pd). set (r := m mod 2 ^ d) in *. set (q := m / 2 ^ d) in *.
    destruct (Z.ltb_spec r h), (Z.ltb_spec h r), (Z.ltb_spec (2 ^ d - r) h), (Z.ltb_spec h (2 ^ d - r));
      try lia.
    replace (- q - 1) with (- (q + 1)) by lia. rewrite Z.even_opp, Z.even_add.
    destruct (Z.even q); cbn; lia.
Qed.

Lemma fl_opp m e : fl (- m) e = fneg (fl m e).
Proof.
  unfold fl, fneg. cbv zeta. rewrite Z.abs_opp. destruct (Z.leb_spec (Z.log2 (Z.abs m) - 23) 0); [done|].
  cbn [f_man f_exp]. by rewrite round_even_opp by lia.
Qed.

Lemma fle_opp a b : fle (fneg a) (fneg b) = fle b a.
Proof.
  set (K := Z.abs (f_exp a) + Z.abs (f_exp b)). rewrite !(fle_shift K) by (cbn; lia). cbn.
  apply eq_true_iff_eq. rewrite !Z.leb_le. lia.
Qed.

Lemma fl_above m e b f :
  Z.abs b < 2 ^ 24 -> fle (Flt b f) (Flt m e) = true -> fle (Flt b f) (fl m e) = true.
Proof.
  intros Hb H. rewrite <- fle_opp, <- fl_opp. apply fl_below; [by cbn; lia|]. by rewrite <- fle_opp in H.
Qed.

(** Truncation at zero of a number between [x] and [x + 1]. *)
Lemma ftrunc_pos v x f b :
  0 <= x -> fle (Flt x 0) v = true -> fle v (Flt b f) = true -> f < 0 -> b < (x + 1) * 2 ^ (- f) ->
  ftrunc v = x.
Proof.
  intros Hx H1 H2 Hf Hb. set (K := Z.abs (f_exp v) - f).
  rewrite (fle_shift K) in H1, H2 by (cbn; lia). apply Z.leb_le in H1, H2. cbn [f_man f_exp] in *.
  assert (EK : 2 ^ (0 + K) = 2 ^ (- f) * 2 ^ (f + K)).
  { rewrite <- Z.pow_add_r by lia. f_equal. lia. }
  pose proof (pow2_pos (f + K) ltac:(lia)). pose proof (pow2_pos (- f) ltac:(lia)).
  pose proof (pow2_pos (f_exp v + K) ltac:(lia)) as Pv.
  assert (Hm : 0 <= f_man v) by nia.
  pose proof (ftrunc_bounds v K ltac:(lia) ltac:(lia) Hm) as [T1 T2].
  rewrite Z.add_0_l in EK. rewrite Z.add_0_l in H1.
  assert (H3 : f_man v * 2 ^ (f_exp v + K) < (x + 1) * 2 ^ K) by (rewrite EK; nia).
  pose proof (pow2_pos K ltac:(lia)). nia.
Qed.

Lemma ftrunc_opp v : ftrunc (fneg v) = - ftrunc v.
Proof.
  unfold ftrunc, fneg. cbn [f_man f_exp]. destruct (0 <=? f_exp v) eqn:E; [lia|].
  apply Z.quot_opp_l. apply Z.leb_gt in E. pose proof (pow2_pos (- f_exp v) ltac:(lia)). lia.
Qed.

Lemma short_of_pos v x f b :
  0 <= x <= INT16_MAX -> fle (Flt x 0) v = true -> fle v (Flt b f) = true -> f < 0 ->
  b < (x + 1) * 2 ^ (- f) -> short_of_float v = Ok x.
Proof.
  intros Hx H1 H2 Hf Hb. unfold short_of_float. rewrite (ftrunc_pos v x f b) by (done || lia). cbv zeta.
  by rewrite !(proj2 (Z.leb_le _ _)) by lia.
Qed.

Lemma fneg_opp b f : fneg (Flt (- b) f) = Flt b f.
Proof. unfold fneg. cbn. by rewrite Z.opp_involutive. Qed.

Lemma short_of_neg v x f b :
  0 <= x <= - INT16_MIN -> fle v (Flt (- x) 0) = true -> fle (Flt (- b) f) v = true -> f < 0 ->
  b < (x + 1) * 2 ^ (- f) -> short_of_float v = Ok (- x).
Proof.
  intros Hx H1 H2 Hf Hb. unfold short_of_float.
  assert (E : ftrunc (fneg v) = x).
  { apply (ftrunc_pos _ x f b); try (done || lia).
    - by rewrite <- fle_opp, fneg_opp in H1.
    - by rewrite <- fle_opp, fneg_opp in H2. }
  rewrite ftrunc_opp in E. replace (ftrunc v) with (- x) by lia. cbv zeta.
  by rewrite !(proj2 (Z.leb_le _ _)) by lia.
Qed.

(** ** Signs *)

Lemma positive_man v : positive v = (0 <? f_man v).
Proof.
  unfold positive. rewrite (fle_shift (Z.abs (f_exp v))) by (cbn; lia). cbn [f_man f_exp].
  pose proof (pow2_pos (f_exp v + Z.abs (f_exp v)) ltac:(lia)). rewrite Z.mul_0_l.
  destruct (Z.ltb_spec 0 (f_man v)); [rewrite (proj2 (Z.leb_gt _ _)) by nia|
    rewrite (proj2 (Z.leb_le _ _)) by nia]; done.
Qed.

Lemma fl_positive m e : positive (fl m e) = (0 <? m).
Proof.
  destruct (Z.ltb_spec 0 m) as [Hm|Hm].
  - assert (H : fle (Flt 1 e) (fl m e) = true).
    { apply fl_above; [done|]. rewrite (fle_shift (Z.abs e)) by (cbn; lia). cbn.
      pose proof (pow2_pos (e + Z.abs e) ltac:(lia)). apply Z.leb_le. nia. }
    set (K := Z.abs e + Z.abs (f_exp (fl m e))).
    rewrite (fle_shift K) in H by (cbn; lia). apply Z.leb_le in H. cbn [f_man f_exp] in H.
    rewrite positive_man. apply Z.ltb_lt. pose proof (pow2_pos (e + K) ltac:(lia)).
    pose proof (pow2_pos (f_exp (fl m e) + K) ltac:(lia)). nia.
  - unfold positive. rewrite fl_below; [done|done|].
    rewrite (fle_shift (Z.abs e)) by (cbn; lia). cbn.
    pose proof (pow2_pos (e + Z.abs e) ltac:(lia)). apply Z.leb_le. nia.
Qed.

(** Multiplication by a positive integer. *)
Lemma fmul_int v c : 0 < c < 2 ^ 24 -> fmul v (float_of_int c) = fl (f_man v * c) (f_exp v).
Proof.
  intros Hc. unfold fmul, float_of_int. rewrite (fl_exact c) by (rewrite Z.abs_eq; lia). cbn.
  by rewrite Z.add_0_r.
Qed.

Lemma positive_scale v c :
  0 < c < 2 ^ 24 -> positive (fmul v (float_of_int c)) = positive v.
Proof.
  intros Hc. rewrite fmul_int, fl_positive, positive_man by done.
  apply eq_true_iff_eq. rewrite !Z.ltb_lt. nia.
Qed.

(** The product compared with the factor. *)
Lemma scale_above v c b :
  0 < c < 2 ^ 24 -> fle (Flt b 0) v = true -> Z.abs (b * c) < 2 ^ 24 ->
  fle (Flt (b * c) 0) (fmul v (float_of_int c)) = true.
Proof.
  intros Hc H Hb. rewrite fmul_int by done. apply fl_above; [done|].
  rewrite (fle_shift (Z.abs (f_exp v))) in H |- * by (cbn; lia). apply Z.leb_le in H. apply Z.leb_le.
  cbn [f_man f_exp] in *. nia.
Qed.

Lemma scale_below v c b :
  0 < c < 2 ^ 24 -> fle v (Flt b 0) = true -> Z.abs (b * c) < 2 ^ 24 ->
  fle (fmul v (float_of_int c)) (Flt (b * c) 0) = true.
Proof.
  intros Hc H Hb. rewrite fmul_int by done. apply fl_below; [done|].
  rewrite (fle_shift (Z.abs (f_exp v))) in H |- * by (cbn; lia). apply Z.leb_le in H. apply Z.leb_le.
  cbn [f_man f_exp] in *. nia.
Qed.

(** Adding a half, at a scale that has halves. *)
Lemma half_above v b f : f <= -1 -> Z.abs (b + 2 ^ (-1 - f)) < 2 ^ 24 ->
  fle (Flt b f) v = true -> fle (Flt (b + 2 ^ (-1 - f)) f) (fadd v fhalf) = true.
Proof.
  intros Hf Hb H. unfold fadd. cbv zeta. set (e := Z.min (f_exp v) (f_exp fhalf)). cbn in e.
  apply fl_above; [done|]. unfold man_at. set (K := - e - f).
  rewrite (fle_shift K) in H by (cbn; lia). apply Z.leb_le in H.
  rewrite (fle_shift K) by (cbn; lia). apply Z.leb_le. cbn [f_man f_exp fhalf] in *.
  rewrite !Z.mul_add_distr_r, <- !Z.mul_assoc, <- !Z.pow_add_r by lia.
  replace (f_exp v - e + (e + K)) with (f_exp v + K) by lia.
  replace (-1 - e + (e + K)) with (-1 - f + (f + K)) by lia. lia.
Qed.

Lemma half_below v b f : f <= -1 -> Z.abs (b + 2 ^ (-1 - f)) < 2 ^ 24 ->
  fle v (Flt b f) = true -> fle (fadd v fhalf) (Flt (b + 2 ^ (-1 - f)) f) = true.
Proof.
  intros Hf Hb H. unfold fadd. cbv zeta. set (e := Z.min (f_exp v) (f_exp fhalf)). cbn in e.
  apply fl_below; [done|]. unfold man_at. set (K := - e - f).
  rewrite (fle_shift K) in H by (cbn; lia). apply Z.leb_le in H.
  rewrite (fle_shift K) by (cbn; lia). apply Z.leb_le. cbn [f_man f_exp fhalf] in *.
  rewrite !Z.mul_add_distr_r, <- !Z.mul_assoc, <- !Z.pow_add_r by lia.
  replace (f_exp v - e + (e + K)) with (f_exp v + K) by lia.
  replace (-1 - e + (e + K)) with (-1 - f + (f + K)) by lia. lia.
Qed.

Lemma fadd_opp a b : fadd (fneg a) (fneg b) = fneg (fadd a b).
Proof. unfold fadd. cbn [f_exp fneg]. cbv zeta. rewrite <- fl_opp. f_equal. unfold man_at. cbn. lia. Qed.

(** ** Samples *)

(** Both ways from a float to a sample agree. *)
Lemma two_ways v : FloatToS16 v = FloatS16ToS16 (FloatToFloatS16 v).
Proof.
  unfold FloatToS16, FloatS16ToS16, FloatToFloatS16.
  change (negb (fle ?x (Flt 0 0))) with (positive x).
  change kMaxRound with (Flt 65533 (-1)). change kMinRound with (Flt (-65535) (-1)).
  destruct (positive v) eqn:Ep.
  - rewrite positive_scale, Ep by lia. set (w := fmul v (float_of_int INT16_MAX)).
    destruct (fle (Flt 1 0) v) eqn:E1.
    + pose proof (scale_above v INT16_MAX 1 ltac:(lia) E1 ltac:(done)) as H.
      by rewrite (fle_trans _ (Flt (1 * INT16_MAX) 0)).
    + apply fle_total in E1. pose proof (scale_below v INT16_MAX 1 ltac:(lia) E1 ltac:(done)) as H.
      fold w in H. destruct (fle (Flt 65533 (-1)) w) eqn:E2; [|done].
      apply half_above in E2; [|done|done].
      assert (H2 : fle w (Flt 65534 (-1)) = true) by (by apply (fle_trans _ _ _ H)).
      apply half_below in H2; [|done|done].
      apply (short_of_pos _ INT16_MAX (-1) 65535); try done. by apply (fle_trans _ (Flt (65533 + 1) (-1))).
  - assert (Eq : fmul (fneg v) (float_of_int INT16_MIN) = fmul v (float_of_int (- INT16_MIN))).
    { unfold fmul, float_of_int. rewrite (fl_exact INT16_MIN), (fl_exact (- INT16_MIN)) by done.
      cbn. f_equal. lia. }
    rewrite Eq, positive_scale, Ep by lia. set (w := fmul v (float_of_int (- INT16_MIN))).
    destruct (fle v (Flt (-1) 0)) eqn:E1.
    + pose proof (scale_below v (- INT16_MIN) (-1) ltac:(lia) E1 ltac:(done)) as H.
      by rewrite (fle_trans _ (Flt (-1 * - INT16_MIN) 0)).
    + apply fle_total in E1.
      pose proof (scale_above v (- INT16_MIN) (-1) ltac:(lia) E1 ltac:(done)) as H.
      fold w in H. destruct (fle w (Flt (-65535) (-1))) eqn:E2; [|done].
      assert (E : fadd w (fneg fhalf) = fneg (fadd (fneg w) fhalf)).
      { rewrite <- fadd_opp. f_equal. unfold fneg. destruct w. cbn. by rewrite Z.opp_involutive. }
      rewrite E. rewrite <- fle_opp in E2, H. change (fneg (Flt (-65535) (-1))) with (Flt 65535 (-1)) in E2.
      apply half_above in E2; [|done|done].
      assert (H2 : fle (fneg w) (Flt 65536 (-1)) = true) by (by apply (fle_trans _ _ _ H)).
      apply half_below in H2; [|done|done].
      apply (short_of_neg _ 32768 (-1) 65537); try done.
      * rewrite <- fle_opp in E2. by apply (fle_trans _ _ _ E2).
      * by rewrite <- fle_opp in H2.
Qed.

Lemma FloatToS16_total v : exists x, FloatToS16 v = Ok x /\ i16 x.
Proof. rewrite two_ways. apply FloatS16ToS16_total. Qed.

(** Comparisons in quarters. *)
Lemma fle_quarters a b e f :
  -2 <= e <= 0 -> -2 <= f <= 0 ->
  fle (Flt a e) (Flt b f) = (a * 2 ^ (e + 2) <=? b * 2 ^ (f + 2)).
Proof. intros He Hf. by rewrite (fle_shift 2) by (cbn; lia). Qed.

(** A float within a quarter of a sample becomes that sample. *)
Lemma s16_near x y : i16 x ->
  fle (Flt (4 * x - 1) (-2)) y = true -> fle y (Flt (4 * x + 1) (-2)) = true ->
  positive y = (0 <? x) -> FloatS16ToS16 y = Ok x.
Proof.
  intros Hx H1 H2 Hp. unfold i16 in Hx. unfold FloatS16ToS16.
  change (negb (fle y (Flt 0 0))) with (positive y). rewrite Hp.
  change kMaxRound with (Flt 65533 (-1)). change kMinRound with (Flt (-65535) (-1)).
  destruct (Z.ltb_spec 0 x) as [Hx0|Hx0].
  - destruct (fle (Flt 65533 (-1)) y) eqn:E.
    + pose proof (fle_trans _ _ _ E H2) as H. rewrite fle_quarters in H by lia.
      apply Z.leb_le in H. change (2 ^ (-1 + 2)) with 2 in H. change (2 ^ (-2 + 2)) with 1 in H.
      f_equal. lia.
    + apply half_above in H1; [|lia|cbn; lia]. apply half_below in H2; [|lia|cbn; lia].
      change (2 ^ (-1 - -2)) with 2 in H1, H2.
      apply (short_of_pos _ x (-2) (4 * x + 1 + 2)); [lia| |done|lia|cbn; lia].
      eapply fle_trans; [|exact H1]. rewrite fle_quarters by lia. apply Z.leb_le.
      change (2 ^ (0 + 2)) with 4. change (2 ^ (-2 + 2)) with 1. lia.
  - destruct (fle y (Flt (-65535) (-1))) eqn:E.
    + pose proof (fle_trans _ _ _ H1 E) as H. rewrite fle_quarters in H by lia.
      apply Z.leb_le in H. change (2 ^ (-1 + 2)) with 2 in H. change (2 ^ (-2 + 2)) with 1 in H.
      f_equal. lia.
    + assert (Es : fadd y (fneg fhalf) = fneg (fadd (fneg y) fhalf)).
      { rewrite <- fadd_opp. f_equal. unfold fneg. destruct y. cbn. by rewrite Z.opp_involutive. }
      rewrite Es. rewrite <- fle_opp in H1, H2. unfold fneg in H1 at 2, H2 at 1. cbn in H1, H2.
      apply half_above in H2; [|lia|cbn; lia]. apply half_below in H1; [|lia|cbn; lia].
      change (2 ^ (-1 - -2)) with 2 in H1, H2. replace x with (- - x) by lia.
      apply (short_of_neg _ (- x) (-2) (- (4 * x - 1) + 2)); [lia| | |lia|cbn; lia].
      * rewrite <- fle_opp in H2. eapply fle_trans; [exact H2|]. unfold fneg. cbn [f_man f_exp].
        rewrite fle_quarters by lia. apply Z.leb_le.
        change (2 ^ (0 + 2)) with 4. change (2 ^ (-2 + 2)) with 1. lia.
      * by rewrite <- fle_opp in H1.
Qed.

(** The product of a float and an integer, in units. *)
Lemma fmul_units v k :
  Z.abs k < 2 ^ 24 -> fine v ->
  fine (fmul v (float_of_int k)) /\ near 24 (units (fmul v (float_of_int k))) (k * units v).
Proof.
  intros Hk [_ He]. unfold fmul, float_of_int. rewrite (fl_exact k) by done. cbn [f_man f_exp].
  rewrite Z.add_0_r. change fl with (round_to 24).
  destruct (round_to_units 24 (f_man v * k) (f_exp v) ltac:(lia) He) as [H1 H2].
  split; [done|]. unfold units at 2. by rewrite Z.mul_assoc, (Z.mul_comm k).
Qed.

Lemma fmul_comm a b : fmul a b = fmul b a.
Proof. unfold fmul. f_equal; lia. Qed.

(** Scaling down with an inverse of 24 bits and up again. *)
Lemma scale_back x k c :
  Z.abs x <= 32768 -> 0 < k <= 32768 -> fine c ->
  Z.abs (k * units c - scale) * 2 ^ 24 <= scale ->
  let y := fmul (fmul (float_of_int x) c) (float_of_int k) in
  fine y /\ Z.abs (units y - x * scale) * 4 <= scale.
Proof.
  intros Hx Hk Hc Hinv y. set (v := fmul (float_of_int x) c) in y.
  destruct (fmul_units c x ltac:(lia) Hc) as [Fv Nv]. rewrite fmul_comm in Fv, Nv. fold v in Fv, Nv.
  destruct (fmul_units v k ltac:(lia) Fv) as [Fy Ny]. fold y in Fy, Ny. split; [done|].
  unfold near in Nv, Ny. change (2 ^ 24) with 16777216 in *.
  set (U := units c) in *. set (V := units v) in *. set (Y := units y) in *.
  assert (H1 : Z.abs (x * (k * U) - x * scale) * 16777216 <= Z.abs x * scale).
  { rewrite <- Z.mul_sub_distr_l, Z.abs_mul, <- Z.mul_assoc. by apply Z.mul_le_mono_nonneg_l; [lia|]. }
  assert (H2 : Z.abs (k * V - x * (k * U)) * 16777216 <= k * Z.abs (x * U)).
  { replace (k * V - x * (k * U)) with (k * (V - x * U)) by ring.
    rewrite Z.abs_mul, (Z.abs_eq k), <- Z.mul_assoc by lia. by apply Z.mul_le_mono_nonneg_l; [lia|]. }
  assert (H3 : k * Z.abs (x * U) = Z.abs (x * (k * U))).
  { replace (x * (k * U)) with (k * (x * U)) by ring. by rewrite (Z.abs_mul k), (Z.abs_eq k) by lia. }
  rewrite H3 in H2. set (Q := x * (k * U)) in *. set (W := k * V) in *.
  assert (Hs : 0 < scale) by (by apply pow2_pos).
  assert (H4 : Z.abs x * scale <= 32768 * scale) by (apply Z.mul_le_mono_nonneg_r; lia).
  assert (H5 : Z.abs (x * scale) = Z.abs x * scale) by (rewrite Z.abs_mul; lia).
  generalize dependent (x * scale). generalize dependent (Z.abs x * scale). lia.
Qed.

Lemma s16_float_back x : i16 x -> FloatToS16 (S16ToFloat x) = Ok x.
Proof.
  intros Hx. rewrite two_ways. unfold i16 in Hx.
  assert (Hpos : positive (S16ToFloat x) = (0 <? x)).
  { unfold S16ToFloat, fmul, float_of_int. rewrite fl_positive, (fl_exact x) by (cbn; lia). cbn [f_man].
    assert (H1 : 0 < f_man kMaxInt16Inverse) by (vm_compute; reflexivity).
    assert (H2 : 0 < f_man (fneg kMinInt16Inverse)) by (vm_compute; reflexivity).
    destruct (Z.ltb_spec 0 x); [apply Z.ltb_lt|apply Z.ltb_ge]; nia. }
  assert (Hy : fine (FloatToFloatS16 (S16ToFloat x)) /\
               Z.abs (units (FloatToFloatS16 (S16ToFloat x)) - x * scale) * 4 <= scale).
  { unfold FloatToFloatS16. rewrite Hpos. unfold S16ToFloat. destruct (0 <? x).
    - apply scale_back; [lia|lia|split; vm_compute; discriminate|vm_compute; discriminate].
    - apply scale_back; [lia|lia|split; vm_compute; discriminate|vm_compute; discriminate]. }
  destruct Hy as [Fy Ey]. set (y := FloatToFloatS16 (S16ToFloat x)) in *.
  assert (F4 : forall a, Z.abs a <= 131073 -> fine (Flt a (-2))) by (intros a Ha; split; cbn; lia).
  assert (E4 : scale = 4 * 2 ^ 198) by reflexivity.
  apply s16_near; [done| | |].
  - rewrite fle_units by (done || apply F4; lia). apply Z.leb_le. unfold units at 1. cbn [f_man f_exp].
    change (-2 + 200) with 198. rewrite E4 in Ey. lia.
  - rewrite fle_units by (done || apply F4; lia). apply Z.leb_le. unfold units at 2. cbn [f_man f_exp].
    change (-2 + 200) with 198. rewrite E4 in Ey. lia.
  - unfold y, FloatToFloatS16. rewrite positive_scale; [exact Hpos|]. destruct (positive _); lia.
Qed.

(** * Theorems *)

(** C34: the conversions of samples are consistent.  The conversion of a float
    between -1 and 1 to 16 bits is defined for every finite float, and agrees with
    going through the 16-bit range; a 16-bit sample survives the conversion to
    either range and back, although the factor of the positive half, 1 / 32767, is
    rounded. *)
Theorem sample_conversions :
  (forall v, exists x, FloatToS16 v = Ok x /\ FloatS16ToS16 (FloatToFloatS16 v) = Ok x /\ i16 x) /\
  (forall x, i16 x -> FloatToS16 (S16ToFloat x) = Ok x /\
     FloatS16ToS16 (FloatToFloatS16 (FloatS16ToFloat (float_of_int x))) = Ok x).
Proof.
  split.
  - intros v. destruct (FloatS16ToS16_total (FloatToFloatS16 v)) as (x & E & Hx).
    exists x. by rewrite two_ways.
  - intros x Hx. split; [by apply s16_float_back|]. rewrite <- two_ways.
    assert (E : FloatS16ToFloat (float_of_int x) = S16ToFloat x).
    { unfold FloatS16ToFloat, S16ToFloat. rewrite positive_man. unfold i16 in Hx.
      assert (Em : f_man (float_of_int x) = x)
        by (unfold float_of_int; by rewrite fl_exact by (cbn; lia)).
      by rewrite Em. }
    rewrite E. by apply s16_float_back.
Qed.

Lemma sample_conversions_witness :
  FloatToS16 (S16ToFloat 12345) = Ok 12345 /\
  FloatS16ToS16 (FloatToFloatS16 (FloatS16ToFloat (float_of_int 12345))) = Ok 12345.
Proof. apply sample_conversions. unfold i16. lia. Defined.
