(* ===== verification/Sinc.v ===== *)
(** * Sinc resampler

    [common_audio/resampler/sinc_resampler.{h,cc}] with [sinc_resampler_sse.cc]:
    resampling by an arbitrary ratio with windowed sinc kernels, which pulls its
    input through a callback.

    A pointer into the input buffer is an offset; [r1_] is 0.  The functions [sin]
    and [cos] of the C library, whose accuracy the language leaves open, are
    parameters ([Libm]). *)
From S2P Require Import Prelude CInt AudioUtil ChannelBuffer SparseFir Double.

Class Libm := { libm_sin : float -> float; libm_cos : float -> float }.

Definition kKernelSize : nat := 32.
Definition kKernelOffsetCount : nat := 32.
Definition kKernelStorageSize : nat := kKernelSize * (kKernelOffsetCount + 1).

Definition one : float := Flt 1 0.
Definition m_pi : float := Flt 884279719003555 (-48).

Definition SincScaleFactor (io_ratio : float) : res float :=
  factor ← (if flt one io_ratio then ddiv one io_ratio else Ok one);
  Ok (dmul factor (Flt 8106479329266893 (-53))).

Record SincResampler := MkSinc {
  io_sample_rate_ratio_ : float; virtual_source_idx_ : float; buffer_primed_ : bool;
  request_frames_ : nat; block_size_ : nat;
  kernel_storage_ : list float; kernel_pre_sinc_storage_ : list float;
  kernel_window_storage_ : list float; input_buffer_ : list float;
  r0_ : nat; r3_ : nat; r4_ : nat
}.

Definition r1_ : nat := 0.
Definition r2_ : nat := kKernelSize / 2.

Definition sinc_eta (s : SincResampler) : SincResampler :=
  MkSinc (io_sample_rate_ratio_ s) (virtual_source_idx_ s) (buffer_primed_ s)
    (request_frames_ s) (block_size_ s) (kernel_storage_ s) (kernel_pre_sinc_storage_ s)
    (kernel_window_storage_ s) (input_buffer_ s) (r0_ s) (r3_ s) (r4_ s).

Definition put_ratio : float -> SincResampler -> SincResampler :=
  ltac:(field_setter sinc_eta io_sample_rate_ratio_).
Definition put_index : float -> SincResampler -> SincResampler :=
  ltac:(field_setter sinc_eta virtual_source_idx_).
Definition put_primed : bool -> SincResampler -> SincResampler :=
  ltac:(field_setter sinc_eta buffer_primed_).
Definition put_block_size : nat -> SincResampler -> SincResampler :=
  ltac:(field_setter sinc_eta block_size_).
Definition put_kernel : list float -> SincResampler -> SincResampler :=
  ltac:(field_setter sinc_eta kernel_storage_).
Definition put_input : list float -> SincResampler -> SincResampler :=
  ltac:(field_setter sinc_eta input_buffer_).
Definition put_regions (r0 r3 r4 : nat) (s : SincResampler) : SincResampler :=
  MkSinc (io_sample_rate_ratio_ s) (virtual_source_idx_ s) (buffer_primed_ s)
    (request_frames_ s) (block_size_ s) (kernel_storage_ s) (kernel_pre_sinc_storage_ s)
    (kernel_window_storage_ s) (input_buffer_ s) r0 r3 r4.

(** [r3_] is left of [r2_], or of the buffer, when too few frames are requested. *)
Definition UpdateRegions (s : SincResampler) (second_load : bool) : res SincResampler :=
  let r0 := if second_load then kKernelSize else (kKernelSize / 2)%nat in
  if (r0 + request_frames_ s <=? r2_ + kKernelSize)%nat then Fault AssertionFailed else
  let r3 := (r0 + request_frames_ s - kKernelSize)%nat in
  let r4 := (r0 + request_frames_ s - kKernelSize / 2)%nat in
  Ok (s |> put_regions r0 r3 r4 |> put_block_size (r4 - r2_)).

Definition Flush (s : SincResampler) : res SincResampler :=
  UpdateRegions (s |> put_index (Flt 0 0) |> put_primed false
                   |> put_input (replicate (request_frames_ s + kKernelSize) fzero)) false.

Section libm.
Context `{LM : Libm}.

(** One entry of the three tables. *)
Definition subsample_offset (offset_idx : nat) : res float :=
  fdiv (fl (Z.of_nat offset_idx) 0) (fl (Z.of_nat kKernelOffsetCount) 0).

Definition pre_sinc_entry (offset_idx i : nat) : res float :=
  offset ← subsample_offset offset_idx;
  let centred := fadd (fl (Z.of_nat i - Z.of_nat (kKernelSize / 2)) 0) (fneg offset) in
  Ok (float_of_double (dmul m_pi centred)).

Definition window_entry (offset_idx i : nat) : res float :=
  offset ← subsample_offset offset_idx;
  x ← fdiv (fadd (fl (Z.of_nat i) 0) (fneg offset)) (fl (Z.of_nat kKernelSize) 0);
  let kA0 := Flt 7566047373982433 (-54) in
  let kA1 := Flt 1 (-1) in
  let kA2 := Flt 5764607523034235 (-56) in
  let c1 := libm_cos (dmul (dmul (Flt 2 0) m_pi) x) in
  let c2 := libm_cos (dmul (dmul (Flt 4 0) m_pi) x) in
  Ok (float_of_double (dadd (dsub kA0 (dmul kA1 c1)) (dmul kA2 c2))).

Definition kernel_entry (sinc_scale_factor window pre_sinc : float) : res float :=
  v ← (if f_man pre_sinc =? 0 then Ok sinc_scale_factor
       else ddiv (libm_sin (dmul sinc_scale_factor pre_sinc)) pre_sinc);
  Ok (float_of_double (dmul window v)).

(** The entries in the order of their indices, [i + offset_idx * kKernelSize]. *)
Definition table (entry : nat -> nat -> res float) : res (list float) :=
  mapM (fun idx => entry (idx / kKernelSize)%nat (idx mod kKernelSize)%nat)
       (seq 0 kKernelStorageSize).

Fixpoint kernel_entries (sinc_scale_factor : float) (windows pre_sincs : list float)
    : res (list float) :=
  match windows, pre_sincs with
  | w :: windows', p :: pre_sincs' =>
      v ← kernel_entry sinc_scale_factor w p;
      vs ← kernel_entries sinc_scale_factor windows' pre_sincs';
      Ok (v :: vs)
  | _, _ => Ok []
  end.

Definition InitializeKernel (s : SincResampler) : res SincResampler :=
  factor ← SincScaleFactor (io_sample_rate_ratio_ s);
  pre_sincs ← table pre_sinc_entry;
  windows ← table window_entry;
  kernels ← kernel_entries factor windows pre_sincs;
  Ok (MkSinc (io_sample_rate_ratio_ s) (virtual_source_idx_ s) (buffer_primed_ s)
        (request_frames_ s) (block_size_ s) kernels pre_sincs windows (input_buffer_ s)
        (r0_ s) (r3_ s) (r4_ s)).

Definition SetRatio (s : SincResampler) (io_sample_rate_ratio : float) : res SincResampler :=
  if flt (fabs (dsub (io_sample_rate_ratio_ s) io_sample_rate_ratio)) (Flt 1 (-52))
  then Ok s else
  let s := put_ratio io_sample_rate_ratio s in
  factor ← SincScaleFactor (io_sample_rate_ratio_ s);
  kernels ← kernel_entries factor (kernel_window_storage_ s) (kernel_pre_sinc_storage_ s);
  Ok (put_kernel kernels s).

Definition SincResampler_new (io_sample_rate_ratio : float) (request_frames : nat)
    : res SincResampler :=
  let s := MkSinc io_sample_rate_ratio (Flt 0 0) false request_frames 0 [] [] [] [] 0 0 0 in
  if (request_frames =? 0)%nat then Fault AssertionFailed else
  s ← Flush s;
  if (block_size_ s <=? kKernelSize)%nat then Fault AssertionFailed else
  InitializeKernel s.

End libm.

(** ** Convolution *)

Definition dot_step (sums : float * float) (x k1 k2 : float) : float * float :=
  (fadd (fst sums) (fmul x k1), fadd (snd sums) (fmul x k2)).

Fixpoint dot_steps (xs k1 k2 : list float) (sums : float * float) : float * float :=
  match xs, k1, k2 with
  | x :: xs', a :: k1', b :: k2' => dot_steps xs' k1' k2' (dot_step sums x a b)
  | _, _, _ => sums
  end.

(** The arrays have [kKernelSize] elements. *)
Definition Convolve_C (input k1 k2 : list float) (factor : float) : float :=
  let '(sum1, sum2) := dot_steps input k1 k2 (fzero, fzero) in
  float_of_double (dadd (dmul (dsub one factor) sum1) (dmul factor sum2)).

(** Four lanes: lane [j] takes the elements [j], [j + 4], ... *)
Fixpoint every4 (j : nat) (l : list float) : list float :=
  match l with
  | [] => []
  | x :: l' => match j with O => x :: every4 3 l' | S j' => every4 j' l' end
  end.

Definition Convolve_SSE (input k1 k2 : list float) (factor : float) : float :=
  let lane j :=
    let '(s1, s2) := dot_steps (every4 j input) (every4 j k1) (every4 j k2) (fzero, fzero) in
    fadd (fmul s1 (float_of_double (dsub one factor))) (fmul s2 (float_of_double factor)) in
  fadd (fadd (lane 2%nat) (lane 0%nat)) (fadd (lane 3%nat) (lane 1%nat)).

(** The choice of [CONVOLVE_FUNC]. *)
Class Architecture := { sse2 : bool }.
Definition CONVOLVE_FUNC `{Architecture} : list float -> list float -> list float -> float -> float :=
  if sse2 then Convolve_SSE else Convolve_C.

(** ** Resampling *)

Section resample.
Context `{AR : Architecture}.

(** The body of the inner loop: one output sample. *)
Definition resample_sample (s : SincResampler) : res (float * SincResampler) :=
  if negb (flt (virtual_source_idx_ s) (double_of_Z (Z.of_nat (block_size_ s))))
  then Fault AssertionFailed else
  source_idx ← int_of (ftrunc (virtual_source_idx_ s));
  let subsample_remainder := dsub (virtual_source_idx_ s) (double_of_Z source_idx) in
  let virtual_offset_idx :=
    dmul subsample_remainder (double_of_Z (Z.of_nat kKernelOffsetCount)) in
  offset_idx ← int_of (ftrunc virtual_offset_idx);
  let k1 := offset_idx * Z.of_nat kKernelSize in
  if (offset_idx <? 0) || (Z.of_nat r1_ + source_idx <? 0) then Fault OutOfBounds else
  kernel1 ← fetch kKernelSize (Z.to_nat k1) (kernel_storage_ s);
  kernel2 ← fetch kKernelSize (Z.to_nat k1 + kKernelSize) (kernel_storage_ s);
  input ← fetch kKernelSize (r1_ + Z.to_nat source_idx) (input_buffer_ s);
  let factor := dsub virtual_offset_idx (double_of_Z offset_idx) in
  Ok (CONVOLVE_FUNC input kernel1 kernel2 factor,
      put_index (dadd (virtual_source_idx_ s) (io_sample_rate_ratio_ s)) s).

(** The inner loop: at most [i] rounds, and no more than [remaining] samples. *)
Fixpoint resample_block (i remaining : nat) (s : SincResampler) (out : list float)
    : res (nat * SincResampler * list float) :=
  match i, remaining with
  | S i', S remaining' =>
      '(x, s) ← resample_sample s;
      resample_block i' remaining' s (out ++ [x])
  | _, _ => Ok (remaining, s, out)
  end.

(** The callback writes [frames] samples; [C] is the state of its object. *)
Context {C : Type} (Run : nat -> C -> res (list float * C)).

Definition refill (s : SincResampler) (c : C) : res (SincResampler * C) :=
  '(data, c) ← Run (request_frames_ s) c;
  buffer ← put (r0_ s) data (input_buffer_ s);
  Ok (put_input buffer s, c).

(** Steps (3) to (5). *)
Definition wrap_around (s : SincResampler) (c : C) : res (SincResampler * C) :=
  let s := put_index (dsub (virtual_source_idx_ s)
             (double_of_Z (Z.of_nat (block_size_ s)))) s in
  last ← fetch kKernelSize (r3_ s) (input_buffer_ s);
  buffer ← put r1_ last (input_buffer_ s);
  let s := put_input buffer s in
  s ← (if (r0_ s =? r2_)%nat then UpdateRegions s true else Ok s);
  refill s c.

Fixpoint resample_blocks (fuel remaining : nat) (s : SincResampler) (c : C)
    (out : list float) : res (SincResampler * C * list float) :=
  match fuel with
  | O => Fault OutOfFuel
  | S fuel' =>
      if (remaining =? 0)%nat then Ok (s, c, out) else
      rounds ← ddiv (dsub (double_of_Z (Z.of_nat (block_size_ s))) (virtual_source_idx_ s))
                    (io_sample_rate_ratio_ s);
      i ← int_of (fceil rounds);
      '(remaining, s, out) ← resample_block (Z.to_nat i) remaining s out;
      if (remaining =? 0)%nat then Ok (s, c, out) else
      '(s, c) ← wrap_around s c;
      resample_blocks fuel' remaining s c out
  end.

(** The fuel is enough for rounds without output as long as the ratio is not above
    the size of a block. *)
Definition Resample (s : SincResampler) (c : C) (frames : nat)
    : res (SincResampler * C * list float) :=
  '(s, c) ← (if negb (buffer_primed_ s) && (0 <? frames)%nat
             then '(s, c) ← refill s c; Ok (put_primed true s, c)
             else Ok (s, c));
  resample_blocks (2 * frames + 2) frames s c [].

End resample.

Definition ChunkSize (s : SincResampler) : res nat :=
  q ← ddiv (double_of_Z (Z.of_nat (block_size_ s))) (io_sample_rate_ratio_ s);
  Ok (Z.to_nat (ftrunc q)).

(** * Lemmas

    ** One sample *)

(** The state between samples: [s] is primed or about to be, its regions are those of
    the first or of the later loads, [v] is the virtual index in units. *)
Record sinc_ok (B : nat) (second : bool) (s : SincResampler) : Prop := {
  so_frames : request_frames_ s = B;
  so_kernel : length (kernel_storage_ s) = kKernelStorageSize;
  so_input : length (input_buffer_ s) = (B + kKernelSize)%nat;
  so_r0 : r0_ s = if second then 32%nat else 16%nat;
  so_r3 : r3_ s = (r0_ s + B - 32)%nat;
  so_block : block_size_ s = if second then B else (B - 16)%nat;
  so_index : fine (virtual_source_idx_ s);
  so_ratio : fine (io_sample_rate_ratio_ s)
}.

Lemma ftrunc_units v :
  fine v -> 0 <= units v -> ftrunc v * scale <= units v < (ftrunc v + 1) * scale.
Proof.
  intros [H1 H2] H0. pose proof (ftrunc_bounds v 200 ltac:(lia) ltac:(lia)) as H.
  apply H. unfold units in H0. pose proof (pow2_pos (f_exp v + 200) ltac:(lia)). nia.
Qed.

(** The fractional part of a double is a double. *)
Lemma fraction_exact v :
  fine v -> 0 <= units v < 2 ^ 30 * scale ->
  fine (dsub v (double_of_Z (ftrunc v))) /\
  units (dsub v (double_of_Z (ftrunc v))) = units v - ftrunc v * scale.
Proof.
  intros Hf Hv. pose proof (ftrunc_units v Hf ltac:(lia)) as Ht.
  assert (Hscale : 0 < scale) by (apply pow2_pos; lia).
  assert (Ht0 : 0 <= ftrunc v < 2 ^ 30) by nia.
  assert (H53 : Z.abs (ftrunc v) <= 2 ^ 53).
  { assert (2 ^ 30 <= 2 ^ 53) by (apply Z.pow_le_mono_r; lia). lia. }
  assert (Ed : double_of_Z (ftrunc v) = Flt (ftrunc v) 0).
  { unfold double_of_Z, round_to. rewrite (proj2 (Z.leb_le _ _)); [done|].
    destruct (Z.eq_dec (ftrunc v) 0) as [->|]; [change (Z.log2 (Z.abs 0)) with 0; lia|].
    assert (Z.log2 (Z.abs (ftrunc v)) < 30) by (apply Z.log2_lt_pow2; lia). lia. }
  rewrite Ed. destruct Hf as [Hm He].
  set (e := Z.min (f_exp v) 0). set (m := man_at e v + man_at e (Flt (- ftrunc v) 0)).
  change (dsub v (Flt (ftrunc v) 0)) with (round_to 53 m e).
  assert (Em : m * 2 ^ (e + 200) = units v - ftrunc v * scale).
  { unfold m. rewrite Z.mul_add_distr_r, !man_at_units by (cbn; lia).
    unfold units at 2. cbn. unfold scale. lia. }
  assert (Hpos : 0 < 2 ^ (e + 200)) by (apply pow2_pos; lia).
  assert (Hm0 : 0 <= m) by nia.
  assert (Hmm : m <= 2 ^ 53).
  { assert (0 <= units v) by lia. unfold units in *.
    destruct (Z.leb_spec 0 (f_exp v)) as [Hx|Hx].
    - assert (e = 0) as He0 by lia. rewrite He0 in *.
      assert (m < 1); [|lia]. unfold scale in *. change (0 + 200) with 200 in *. nia.
    - assert (e = f_exp v) as He0 by lia. rewrite He0 in *. nia. }
  pose proof (round_to_exact 53 m 0 e ltac:(lia) ltac:(lia) ltac:(lia) ltac:(lia)) as Ex.
  rewrite Z.mul_1_r in Ex.
  split; [|by rewrite Ex, Em].
  apply (round_to_units 53 m e); lia.
Qed.

Lemma times_32 v :
  fine v -> fine (dmul v (double_of_Z 32)) /\ units (dmul v (double_of_Z 32)) = 32 * units v.
Proof.
  intros [Hm He]. change (double_of_Z 32) with (Flt 32 0). unfold dmul. cbn [f_man f_exp].
  rewrite Z.add_0_r. split.
  - apply (round_to_units 53 (f_man v * 32) (f_exp v)); lia.
  - pose proof (round_to_exact 53 (f_man v) 5 (f_exp v) ltac:(lia) ltac:(lia) Hm He) as E.
    change (2 ^ 5) with 32 in E. rewrite E. unfold units. lia.
Qed.

Lemma int_of_ok x : 0 <= x < 2 ^ 30 -> int_of x = Ok x.
Proof.
  intros Hx. unfold int_of.
  by rewrite !(proj2 (Z.leb_le _ _)) by lia.
Qed.

Lemma double_of_nat n :
  Z.of_nat n < 2 ^ 30 ->
  fine (double_of_Z (Z.of_nat n)) /\ units (double_of_Z (Z.of_nat n)) = Z.of_nat n * scale.
Proof. intros Hn. apply double_of_Z_units. lia. Qed.

Section convolve.
Context `{AR : Architecture}.

Lemma wp_resample_sample B second s :
  sinc_ok B second s -> Z.of_nat B < 2 ^ 30 ->
  0 <= units (virtual_source_idx_ s) < Z.of_nat (block_size_ s) * scale ->
  wp (resample_sample s) (fun '(_, s') =>
    s' = put_index (dadd (virtual_source_idx_ s) (io_sample_rate_ratio_ s)) s).
Proof.
  intros H HB Hv. pose proof (so_index _ _ _ H) as Hf. set (v := virtual_source_idx_ s) in *.
  assert (Hblock : (block_size_ s <= B)%nat) by (rewrite (so_block _ _ _ H); destruct second; lia).
  unfold resample_sample. fold v.
  destruct (double_of_nat (block_size_ s) ltac:(lia)) as [Fb Eb].
  unfold flt. rewrite fle_units, Eb by done. rewrite (proj2 (Z.leb_gt _ _)) by lia. cbn [negb].
  assert (Hscale : 0 < scale) by (apply pow2_pos; lia).
  pose proof (ftrunc_units v Hf ltac:(lia)) as Ht.
  assert (Ht0 : 0 <= ftrunc v < Z.of_nat (block_size_ s)) by nia.
  rewrite int_of_ok, bind_ok by lia.
  destruct (fraction_exact v Hf ltac:(nia)) as [Ff Ef].
  set (r := dsub v (double_of_Z (ftrunc v))) in *. cbv zeta.
  destruct (times_32 r Ff) as [F32 E32].
  change (Z.of_nat kKernelOffsetCount) with 32. set (o := dmul r (double_of_Z 32)) in *.
  pose proof (ftrunc_units o F32 ltac:(lia)) as Ho.
  assert (Ho0 : 0 <= ftrunc o < 32) by nia.
  rewrite int_of_ok, bind_ok by lia.
  rewrite (proj2 (Z.ltb_ge (ftrunc o) 0)), (proj2 (Z.ltb_ge _ 0)) by (cbn; lia). cbn [orb].
  change (Z.of_nat kKernelSize) with 32. change kKernelSize with 32%nat.
  pose proof (so_kernel _ _ _ H) as Lk. change kKernelStorageSize with 1056%nat in Lk.
  pose proof (so_input _ _ _ H) as Li. change kKernelSize with 32%nat in Li.
  change r1_ with 0%nat. rewrite !fetch_ok by lia. rewrite !bind_ok. by apply wp_ret.
Qed.

(** ** Errors of the index

    Indices and ratios stay below 512, where one operation is off by at most
    [2 ^ -44]. *)

Definition eps : Z := 2 ^ 156.

Lemma near_abs k x' x b : 0 < k -> near k x' x -> Z.abs x <= b * 2 ^ k -> Z.abs (x' - x) <= b.
Proof. unfold near. intros Hk H Hb. pose proof (pow2_pos k ltac:(lia)). nia. Qed.

Lemma near_sign k x' x : 0 < k -> near k x' x -> (0 <= x -> 0 <= x') /\ (x <= 0 -> x' <= 0).
Proof.
  unfold near. intros Hk H. assert (2 <= 2 ^ k).
  { change 2 with (2 ^ 1) at 1. apply Z.pow_le_mono_r; lia. }
  split; nia.
Qed.

Lemma near_pos k x' x : 1 < k -> near k x' x -> 0 < x -> 0 < x'.
Proof.
  unfold near. intros Hk H. assert (4 <= 2 ^ k).
  { change 4 with (2 ^ 2). apply Z.pow_le_mono_r; lia. }
  nia.
Qed.

Lemma eps_512 : 512 * scale = eps * 2 ^ 53.
Proof. reflexivity. Qed.

Lemma near_512 x' x : near 53 x' x -> Z.abs x <= 512 * scale -> Z.abs (x' - x) <= eps.
Proof. intros H Hx. apply (near_abs 53); [lia|done|]. by rewrite <- eps_512. Qed.

Lemma quotient_sign i P Y :
  0 < P -> (i - 1) * P < Y <= i * P -> (Y <= 0 -> i <= 0) /\ (0 < Y -> 1 <= i).
Proof.
  intros HP [H1 H2]. split; intros HY.
  - destruct (Z.le_gt_cases i 0); [done|].
    pose proof (Z.mul_nonneg_nonneg (i - 1) P ltac:(lia) ltac:(lia)). lia.
  - destruct (Z.le_gt_cases 1 i); [done|].
    pose proof (Z.mul_nonpos_nonneg i P ltac:(lia) ltac:(lia)). lia.
Qed.

Lemma rounds_range i r :
  0 < scale <= 16 * r -> (i - 1) * r <= 510 * scale -> - 510 * scale <= i * r ->
  - 10000 <= i <= 10000.
Proof.
  intros Hr H1 H2. split.
  - destruct (Z.le_gt_cases (-10000) i); [done|].
    pose proof (Z.mul_le_mono_nonneg_r i (-10001) r ltac:(lia) ltac:(lia)). lia.
  - destruct (Z.le_gt_cases i 10000); [done|].
    pose proof (Z.mul_le_mono_nonneg_r 10000 (i - 1) r ltac:(lia) ltac:(lia)). lia.
Qed.

(** The number of rounds for a distance of [X] to the end of the block. *)
Lemma rounds_spec a b ratio :
  fine a -> fine b -> fine ratio -> scale <= 16 * units ratio <= 128 * scale ->
  let X := units a - units b in
  let r := units ratio in
  Z.abs X <= 500 * scale ->
  exists i, (q ← ddiv (dsub a b) ratio; int_of (fceil q)) = Ok i /\
    (i - 1) * r < X + 4 * eps /\ X - 4 * eps <= i * r /\
    (X <= 0 -> i <= 0) /\ (0 < X -> 1 <= i).
Proof.
  intros Fa Fb Fr Hr X r HX. destruct (dsub_units a b Fa Fb) as [Fx Nx].
  fold X in Nx. set (x := dsub a b) in *. set (A := units x) in *.
  assert (Hscale : 0 < scale) by (apply pow2_pos; lia).
  pose proof (near_512 A X Nx ltac:(lia)) as HA.
  assert (Heps : 0 < eps) by (apply pow2_pos; lia).
  assert (Eeps : scale = 17592186044416 * eps) by reflexivity.
  destruct (ddiv_units x ratio Fx Fr ltac:(lia)) as (q & K & -> & HK & HqK & Nq).
  fold r A in Nq. rewrite bind_ok. set (Y := f_man q * 2 ^ (f_exp q + K)) in *.
  pose proof (fceil_bounds q K HK HqK) as Hc. cbv zeta in Hc. fold Y in Hc.
  set (i := fceil q) in *. pose proof (pow2_pos K HK) as HP. set (P := 2 ^ K) in *.
  assert (HY : Z.abs (Y * r - A * P) <= 2 * eps * P).
  { apply (near_abs 52); [lia|done|]. rewrite Z.abs_mul, (Z.abs_eq P) by lia.
    assert (Z.abs A <= 2 * eps * 2 ^ 52); [|nia].
    replace (2 ^ 52) with 4503599627370496 by reflexivity. lia. }
  assert (H1 : (i - 1) * r < X + 4 * eps).
  { assert ((i - 1) * r * P < (A + 3 * eps) * P); [|nia].
    assert ((i - 1) * r * P < Y * r) by nia. nia. }
  assert (H2 : X - 4 * eps <= i * r).
  { assert ((A - 2 * eps) * P <= i * r * P); [|nia].
    assert (Y * r <= i * r * P) by nia. nia. }
  exists i. split.
  { pose proof (rounds_range i r ltac:(lia) ltac:(lia) ltac:(lia)).
    unfold int_of. by rewrite !(proj2 (Z.leb_le _ _)) by lia. }
  split; [done|]. split; [done|].
  destruct (near_sign 53 A X ltac:(lia) Nx) as [_ S1].
  destruct (near_sign 52 (Y * r) (A * P) ltac:(lia) Nq) as [_ S2]. split.
  - intros HX0. specialize (S1 HX0). assert (A * P <= 0) by nia. specialize (S2 ltac:(done)).
    apply (quotient_sign i P Y HP Hc).
    destruct (Z.le_gt_cases Y 0); [done|].
    pose proof (Z.mul_pos_pos Y r ltac:(lia) ltac:(lia)). lia.
  - intros HX0. pose proof (near_pos 53 A X ltac:(lia) Nx HX0) as HA0.
    pose proof (near_pos 52 (Y * r) (A * P) ltac:(lia) Nq ltac:(nia)) as HY0.
    apply (quotient_sign i P Y HP Hc).
    destruct (Z.le_gt_cases Y 0) as [HY1|]; [|done].
    pose proof (Z.mul_nonpos_nonneg Y r HY1 ltac:(lia)). lia.
Qed.

(** [n] samples in a row. *)
Lemma sinc_ok_index B second s v : sinc_ok B second s -> fine v -> sinc_ok B second (put_index v s).
Proof. intros [] Hv. by constructor. Qed.

Lemma wp_resample_block B second n : forall i' rem' s out,
  i' = 0%nat \/ rem' = 0%nat ->
  sinc_ok B second s -> (B <= 480)%nat ->
  let v := units (virtual_source_idx_ s) in
  let r := units (io_sample_rate_ratio_ s) in
  scale <= 16 * r <= 128 * scale -> 0 <= v ->
  (0 < n)%nat ->
  v + (Z.of_nat n - 1) * r + (Z.of_nat n - 1) * eps < Z.of_nat (block_size_ s) * scale ->
  wp (resample_block (n + i') (n + rem') s out) (fun '(rem, s', out') =>
    rem = rem' /\ length out' = (length out + n)%nat /\
    exists v', s' = put_index v' s /\ fine v' /\
      Z.abs (units v' - (v + Z.of_nat n * r)) <= Z.of_nat n * eps /\ 0 <= units v').
Proof.
  assert (Hscale : 0 < scale) by (apply pow2_pos; lia).
  assert (Heps : 0 < eps) by (apply pow2_pos; lia).
  assert (Eeps : scale = 17592186044416 * eps) by reflexivity.
  induction n as [|n IH]; intros i' rem' s out Hend H HB v r Hr Hv Hn Hlast; [lia|].
  assert (Hblock : (block_size_ s <= B)%nat) by (rewrite (so_block _ _ _ H); destruct second; lia).
  assert (Hvb : v < Z.of_nat (block_size_ s) * scale) by nia.
  cbn [Nat.add resample_block]. apply wp_bind. eapply wp_mono.
  { apply (wp_resample_sample B second); [done|lia|done]. }
  intros [x s1] ->. set (v1 := dadd (virtual_source_idx_ s) (io_sample_rate_ratio_ s)).
  destruct (dadd_units _ _ (so_index _ _ _ H) (so_ratio _ _ _ H)) as [F1 N1]. fold v1 v r in F1, N1.
  pose proof (near_512 _ _ N1 ltac:(nia)) as E1.
  set (s1 := put_index v1 s). assert (H1 : sinc_ok B second s1) by by apply sinc_ok_index.
  destruct (decide (n = 0%nat)) as [->|Hne].
  - cbn [Nat.add]. assert (E0 : resample_block i' rem' s1 (out ++ [x]) = Ok (rem', s1, out ++ [x])).
    { destruct Hend as [->| ->]; [done|by destruct i']. }
    rewrite E0. apply wp_ret. split; [done|]. split; [rewrite length_app; cbn; lia|].
    exists v1. split; [done|]. split; [done|]. lia.
  - eapply wp_mono; [apply (IH i' rem' s1 (out ++ [x]) Hend H1 HB)|].
    + exact Hr.
    + change (virtual_source_idx_ s1) with v1. lia.
    + lia.
    + change (virtual_source_idx_ s1) with v1. change (io_sample_rate_ratio_ s1) with (io_sample_rate_ratio_ s).
      change (block_size_ s1) with (block_size_ s). fold r. nia.
    + change (virtual_source_idx_ s1) with v1. change (io_sample_rate_ratio_ s1) with (io_sample_rate_ratio_ s).
      fold r. intros [[rem s2] out2] (-> & L & v' & -> & Fv & Ev & Pv).
      split; [done|]. split; [rewrite L, length_app; cbn; lia|].
      exists v'. split; [done|]. split; [done|]. split; [|done].
      rewrite Nat2Z.inj_succ, !Z.mul_succ_l. lia.
Qed.

(** ** One call

    The callback is asked once and provides the frames. *)

Section call.
Context {C : Type} (Run : nat -> C -> res (list float * C)).

Definition provides (B : nat) (c c' : C) : Prop :=
  exists data, Run B c = Ok (data, c') /\ length data = B.

Lemma wp_refill B second s c c' :
  sinc_ok B second s -> provides B c c' ->
  wp (refill Run s c) (fun '(s', c'') => c'' = c' /\ sinc_ok B second s' /\
    virtual_source_idx_ s' = virtual_source_idx_ s /\ buffer_primed_ s' = buffer_primed_ s /\
    io_sample_rate_ratio_ s' = io_sample_rate_ratio_ s).
Proof.
  intros H (data & E & L). unfold refill. rewrite (so_frames _ _ _ H), E, bind_ok.
  apply wp_bind. eapply wp_mono.
  { apply wp_put. rewrite (so_input _ _ _ H), (so_r0 _ _ _ H), L.
    change kKernelSize with 32%nat. destruct second; lia. }
  intros m [Lm _]. apply wp_ret. split; [done|]. split; [|done].
  destruct H. constructor; try done. cbn. congruence.
Qed.

Lemma wp_wrap_around B second s c c' :
  sinc_ok B second s -> (48 < B <= 480)%nat -> provides B c c' ->
  wp (wrap_around Run s c) (fun '(s', c'') => c'' = c' /\ sinc_ok B true s' /\
    virtual_source_idx_ s' = dsub (virtual_source_idx_ s)
      (double_of_Z (Z.of_nat (block_size_ s))) /\ buffer_primed_ s' = buffer_primed_ s /\
    io_sample_rate_ratio_ s' = io_sample_rate_ratio_ s).
Proof.
  intros H HB Hc. unfold wrap_around. set (v' := dsub _ _). cbv zeta.
  assert (Hb : (block_size_ s <= B)%nat) by (rewrite (so_block _ _ _ H); destruct second; lia).
  assert (Hv : fine v').
  { apply dsub_units; [apply H|]. apply double_of_nat. lia. }
  apply (sinc_ok_index _ _ _ v') in H; [|done]. set (s1 := put_index v' s) in *.
  pose proof (so_input _ _ _ H) as Li. change kKernelSize with 32%nat in *.
  rewrite fetch_ok, bind_ok.
  2:{ rewrite Li, (so_r3 _ _ _ H), (so_r0 _ _ _ H). destruct second; lia. }
  set (x := view 32 (r3_ s1) (input_buffer_ s1)).
  assert (Lx : length x = 32%nat).
  { apply length_view. rewrite Li, (so_r3 _ _ _ H), (so_r0 _ _ _ H). destruct second; lia. }
  apply wp_bind. eapply wp_mono; [apply wp_put; change r1_ with 0%nat; lia|].
  intros m [Lm _]. set (s2 := put_input m s1).
  assert (H2 : sinc_ok B second s2).
  { destruct H. constructor; try done. cbn. change kKernelSize with 32%nat. congruence. }
  assert (H3 : exists s3, (if (r0_ s2 =? r2_)%nat then UpdateRegions s2 true else Ok s2) = Ok s3 /\
     sinc_ok B true s3 /\ virtual_source_idx_ s3 = v' /\ buffer_primed_ s3 = buffer_primed_ s /\
     io_sample_rate_ratio_ s3 = io_sample_rate_ratio_ s).
  { rewrite (so_r0 _ _ _ H2). destruct second.
    - exists s2. by split_and!.
    - change (16 =? r2_)%nat with true. cbv iota. unfold UpdateRegions.
      change kKernelSize with 32%nat. change (32 / 2)%nat with 16%nat. change r2_ with 16%nat.
      rewrite (so_frames _ _ _ H2), (proj2 (Nat.leb_gt _ _)) by lia.
      eexists. split; [done|]. split; [|done]. destruct H2. constructor; try done; cbn; lia. }
  destruct H3 as (s3 & -> & H3 & Ev & Ep & Er). rewrite bind_ok.
  eapply wp_mono; [by apply (wp_refill B true)|]. intros [s4 c4] (-> & H4 & Ev4 & Ep4 & Er4).
  split_and!; try done; congruence.
Qed.

Record ratio_ok (B D : nat) (ratio : float) : Prop := {
  ro_fine : fine ratio;
  ro_source : (48 < B <= 480)%nat;
  ro_destination : (2 <= D <= 480)%nat;
  ro_range : scale <= 16 * units ratio <= 128 * scale;
  ro_near : Z.abs (Z.of_nat D * units ratio - Z.of_nat B * scale) <= eps
}.

(** The distance from the index to the end of the block. *)
Definition distance (s : SincResampler) : Z :=
  Z.of_nat (block_size_ s) * scale - units (virtual_source_idx_ s).

Definition margin : Z := 1000 * eps.

(** The part of a call after the buffer was refilled. *)
Lemma wp_last_block B D s c fuel out m :
  ratio_ok B D (io_sample_rate_ratio_ s) -> sinc_ok B true s -> (0 < m <= D)%nat ->
  let v := units (virtual_source_idx_ s) in
  let r := units (io_sample_rate_ratio_ s) in
  0 <= v -> v + (Z.of_nat m - 1) * r + margin / 2 < Z.of_nat B * scale ->
  wp (resample_blocks Run (S fuel) m s c out) (fun '(s', c', out') =>
    c' = c /\ length out' = (length out + m)%nat /\
    exists v', s' = put_index v' s /\ fine v' /\ 0 <= units v' /\
      Z.abs (units v' - (v + Z.of_nat m * r)) <= Z.of_nat m * eps).
Proof.
  intros [Rf RB RD Rr Rn] H Hm v r Hv Hlast. cbn [resample_blocks].
  rewrite (proj2 (Nat.eqb_neq _ _)) by lia. rewrite (so_block _ _ _ H). cbv iota.
  assert (Hscale : 0 < scale) by (apply pow2_pos; lia).
  assert (Heps : 0 < eps) by (apply pow2_pos; lia).
  assert (Eeps : scale = 17592186044416 * eps) by reflexivity.
  assert (Em : margin / 2 = 500 * eps) by reflexivity. rewrite Em in Hlast.
  destruct (double_of_nat B ltac:(lia)) as [Fb Eb].
  pose proof (Z.mul_le_mono_nonneg_r (Z.of_nat B) 480 scale ltac:(lia) ltac:(lia)) as HBs.
  fold r in Rr. assert (Hmr : 0 <= (Z.of_nat m - 1) * r) by (apply Z.mul_nonneg_nonneg; lia).
  destruct (rounds_spec (double_of_Z (Z.of_nat B)) (virtual_source_idx_ s)
    (io_sample_rate_ratio_ s) Fb (so_index _ _ _ H) Rf Rr) as (i & E & _ & H2 & _).
  { fold v. rewrite Eb. lia. }
  fold v r in H2. rewrite Eb in H2.
  assert (Hi : Z.of_nat m <= i).
  { destruct (Z.le_gt_cases (Z.of_nat m) i); [done|].
    pose proof (Z.mul_le_mono_nonneg_r i (Z.of_nat m - 1) r ltac:(lia) ltac:(lia)). lia. }
  apply bind_inv in E as (q & Eq & Ei). rewrite Eq, bind_ok, Ei, bind_ok.
  replace (Z.to_nat i) with (m + (Z.to_nat i - m))%nat by lia.
  pose proof (wp_resample_block B true m (Z.to_nat i - m) 0 s out ltac:(by right) H ltac:(lia)) as W.
  rewrite Nat.add_0_r in W. apply wp_bind. eapply wp_mono.
  { apply W; [done|done|lia|]. fold v r. rewrite (so_block _ _ _ H).
    pose proof (Z.mul_le_mono_nonneg_r (Z.of_nat m - 1) 500 eps ltac:(lia) ltac:(lia)). lia. }
  fold v r. intros [[rem s'] out'] (-> & L & v' & -> & Fv & Ev & Pv).
  cbn [Nat.eqb]. apply wp_ret. split; [done|]. split; [done|]. by exists v'.
Qed.

(** The rounds before the end of the block: none, or one sample. *)
Lemma wp_first_block B D second s :
  ratio_ok B D (io_sample_rate_ratio_ s) -> sinc_ok B second s ->
  let r := units (io_sample_rate_ratio_ s) in
  let v := units (virtual_source_idx_ s) in
  0 <= v -> Z.abs (distance s) <= r - margin ->
  exists i, (q ← ddiv (dsub (double_of_Z (Z.of_nat (block_size_ s))) (virtual_source_idx_ s))
                      (io_sample_rate_ratio_ s);
             int_of (fceil q)) = Ok i /\
    wp (resample_block (Z.to_nat i) D s []) (fun '(rem, s', out) =>
      (rem + length out = D)%nat /\ (D - 1 <= rem)%nat /\
      exists v', s' = put_index v' s /\ fine v' /\
      Z.abs (units v' - (v + Z.of_nat (length out) * r)) <= eps /\
      Z.of_nat (block_size_ s) * scale <= units v' /\
      units v' + (Z.of_nat rem - 1) * r <=
        Z.of_nat (block_size_ s) * scale + Z.of_nat D * r - margin + 2 * eps).
Proof.
  intros [Rf RB RD Rr Rn] H r v Hv HX. unfold distance in HX. fold v in HX.
  assert (Hscale : 0 < scale) by (apply pow2_pos; lia).
  assert (Heps : 0 < eps) by (apply pow2_pos; lia).
  assert (Eeps : scale = 17592186044416 * eps) by reflexivity.
  assert (Em : margin = 1000 * eps) by reflexivity. rewrite Em in *.
  assert (Hb : (block_size_ s <= B)%nat) by (rewrite (so_block _ _ _ H); destruct second; lia).
  set (b := block_size_ s) in *. destruct (double_of_nat b ltac:(lia)) as [Fb Eb].
  pose proof (Z.mul_le_mono_nonneg_r (Z.of_nat b) 480 scale ltac:(lia) ltac:(lia)) as Hbs.
  fold r in Rr. destruct (rounds_spec (double_of_Z (Z.of_nat b)) (virtual_source_idx_ s)
    (io_sample_rate_ratio_ s) Fb (so_index _ _ _ H) Rf Rr) as (i & E & H1 & H2 & H3 & H4).
  { fold v. rewrite Eb. fold r in Rr. lia. }
  fold v r in H1, H2, H3, H4. rewrite Eb in H1, H2, H3, H4. exists i. split; [exact E|].
  destruct (Z.le_gt_cases (Z.of_nat b * scale - v) 0) as [HX0|HX0].
  - specialize (H3 HX0). replace (Z.to_nat i) with 0%nat by lia.
    assert (E0 : resample_block 0 D s [] = Ok (D, s, [])) by by destruct D.
    rewrite E0. apply wp_ret. cbn [length]. split; [lia|]. split; [lia|].
    exists (virtual_source_idx_ s). split; [by destruct s|]. split; [apply H|]. fold v. lia.
  - specialize (H4 HX0).
    assert (i = 1) as ->.
    { destruct (Z.le_gt_cases i 1); [lia|].
      pose proof (Z.mul_le_mono_nonneg_r 1 (i - 1) r ltac:(lia) ltac:(lia)). lia. }
    change (Z.to_nat 1) with 1%nat.
    pose proof (wp_resample_block B second 1 0 (D - 1) s [] ltac:(by left) H ltac:(lia)) as W.
    replace (1 + (D - 1))%nat with D in W by lia. change (1 + 0)%nat with 1%nat in W.
    eapply wp_mono; [apply W; [exact Rr|done|lia|]|].
    { fold v r b. lia. }
    fold v r. intros [[rem s'] out] (-> & L & v' & -> & Fv & Ev & Pv). cbn in L. rewrite L.
    split; [lia|]. split; [lia|]. exists v'. split; [done|]. split; [done|].
    rewrite Nat2Z.inj_sub by lia. change (Z.of_nat 1) with 1 in *.
    split; [lia|]. split; [lia|].
    rewrite !Z.mul_sub_distr_r. lia.
Qed.

Lemma wp_Resample_call B D second s c c' :
  ratio_ok B D (io_sample_rate_ratio_ s) -> sinc_ok B second s -> buffer_primed_ s = true ->
  0 <= units (virtual_source_idx_ s) ->
  Z.abs (distance s) <= units (io_sample_rate_ratio_ s) - margin -> provides B c c' ->
  wp (Resample Run s c D) (fun '(s', c'', out) => c'' = c' /\ length out = D /\
    sinc_ok B true s' /\ buffer_primed_ s' = true /\
    io_sample_rate_ratio_ s' = io_sample_rate_ratio_ s /\
    0 <= units (virtual_source_idx_ s') /\
    Z.abs (distance s' - distance s) <= (Z.of_nat D + 4) * eps).
Proof.
  intros HR H Hp Hv HX Hc.
  unfold Resample. rewrite Hp. cbn [negb andb]. rewrite bind_ok.
  replace (2 * D + 2)%nat with (S (S (2 * D))) by lia.
  destruct (wp_first_block B D second s HR H Hv HX) as (i & E & W).
  pose proof HR as [Rf RB RD Rr Rn].
  remember (S (2 * D)) as fuel. cbn [resample_blocks].
  rewrite (proj2 (Nat.eqb_neq _ _)) by lia.
  apply bind_inv in E as (q & Eq & Ei). rewrite Eq, bind_ok, Ei, bind_ok.
  apply wp_bind. eapply wp_mono; [exact W|]. clear W Eq Ei q i.
  intros [[rem s1] out1] (Lr & Hrem & v1 & -> & Fv1 & Ev & Hlow & Hhigh).
  rewrite (proj2 (Nat.eqb_neq _ _)) by lia. apply wp_bind.
  pose proof (sinc_ok_index _ _ _ v1 H Fv1) as H1.
  eapply wp_mono; [by apply (wp_wrap_around B second)|].
  intros [s2 c2] (-> & H2 & Ev2 & Ep2 & Er2).
  change (virtual_source_idx_ (put_index v1 s)) with v1 in Ev2.
  change (block_size_ (put_index v1 s)) with (block_size_ s) in Ev2.
  change (io_sample_rate_ratio_ (put_index v1 s)) with (io_sample_rate_ratio_ s) in Er2.
  change (buffer_primed_ (put_index v1 s)) with (buffer_primed_ s) in Ep2.
  assert (Hscale : 0 < scale) by (apply pow2_pos; lia).
  assert (Heps : 0 < eps) by (apply pow2_pos; lia).
  assert (Eeps : scale = 17592186044416 * eps) by reflexivity.
  assert (Em : margin = 1000 * eps) by reflexivity.
  rewrite Em in *. assert (Em2 : margin / 2 = 500 * eps) by reflexivity.
  assert (Hb : (block_size_ s <= B)%nat) by (rewrite (so_block _ _ _ H); destruct second; lia).
  destruct (double_of_nat (block_size_ s) ltac:(lia)) as [Fb Ebu].
  destruct (dsub_units _ _ Fv1 Fb) as [Fv2 Nv2]. rewrite <- Ev2, Ebu in Nv2.
  set (r := units (io_sample_rate_ratio_ s)) in *. set (v := units (virtual_source_idx_ s)) in *.
  set (b := Z.of_nat (block_size_ s) * scale) in *.
  set (v2 := units (virtual_source_idx_ s2)) in *.
  destruct (near_sign 53 _ _ ltac:(lia) Nv2) as [Pv2 _]. specialize (Pv2 ltac:(lia)).
  assert (HDr : Z.of_nat D * r <= 480 * scale + eps).
  { pose proof (Z.mul_le_mono_nonneg_r (Z.of_nat B) 480 scale ltac:(lia) ltac:(lia)). lia. }
  assert (Hrr : 0 <= (Z.of_nat rem - 1) * r) by (apply Z.mul_nonneg_nonneg; lia).
  pose proof (near_512 _ _ Nv2 ltac:(lia)) as Ev2'.
  rewrite Heqfuel. eapply wp_mono.
  { apply (wp_last_block B D s2 c' (2 * D) out1 rem); [by rewrite Er2|done|lia|exact Pv2|].
    rewrite Er2, Em2. fold r v2. lia. }
  rewrite Er2. fold r v2.
  intros [[s3 c3] out3] (-> & L3 & v3 & -> & Fv3 & Pv3 & Ev3).
  split; [done|]. split; [lia|]. split; [by apply sinc_ok_index|].
  split; [cbn; congruence|]. split; [done|]. split; [done|].
  unfold distance. change (virtual_source_idx_ (put_index v3 s2)) with v3.
  change (block_size_ (put_index v3 s2)) with (block_size_ s2).
  rewrite (so_block _ _ _ H2). fold b v.
  assert (E : Z.of_nat D * r = Z.of_nat rem * r + Z.of_nat (length out1) * r).
  { rewrite <- Z.mul_add_distr_r, <- Nat2Z.inj_add. by rewrite Lr. }
  pose proof (Z.mul_le_mono_nonneg_r (Z.of_nat rem) (Z.of_nat D) eps ltac:(lia) ltac:(lia)).
  lia.
Qed.

(** The first call, which fills the buffer, for [n] samples up to its end. *)
Definition slack : Z := 2 ^ 39 * eps.

Lemma wp_Resample_prime B D n s c c' :
  ratio_ok B D (io_sample_rate_ratio_ s) -> sinc_ok B false s -> buffer_primed_ s = false ->
  units (virtual_source_idx_ s) = 0 -> (0 < n <= 480)%nat ->
  Z.abs (Z.of_nat (B - 16) * scale - Z.of_nat n * units (io_sample_rate_ratio_ s))
    <= units (io_sample_rate_ratio_ s) - slack ->
  provides B c c' ->
  wp (Resample Run s c n) (fun '(s', c'', out) => c'' = c' /\ length out = n /\
    sinc_ok B false s' /\ buffer_primed_ s' = true /\
    io_sample_rate_ratio_ s' = io_sample_rate_ratio_ s /\
    0 <= units (virtual_source_idx_ s') /\
    Z.abs (distance s') <= units (io_sample_rate_ratio_ s) - slack + Z.of_nat n * eps).
Proof.
  intros [Rf RB RD Rr Rn] H Hp Hv Hn HX Hc. unfold Resample. rewrite Hp.
  cbn [negb]. rewrite (proj2 (Nat.ltb_lt 0 n)) by lia. cbn [andb].
  apply wp_bind. apply wp_bind. eapply wp_mono; [by apply (wp_refill B false)|].
  intros [s1 c1] (-> & H1 & Ev1 & _ & Er1). apply wp_ret.
  set (s2 := put_primed true s1).
  assert (H2 : sinc_ok B false s2) by (destruct H1; by constructor).
  assert (Ev2 : virtual_source_idx_ s2 = virtual_source_idx_ s) by done.
  assert (Er2 : io_sample_rate_ratio_ s2 = io_sample_rate_ratio_ s) by done.
  replace (2 * n + 2)%nat with (S (2 * n + 1)) by lia. cbn [resample_blocks].
  rewrite (proj2 (Nat.eqb_neq _ _)) by lia. rewrite (so_block _ _ _ H2). cbv iota.
  set (r := units (io_sample_rate_ratio_ s)) in *.
  assert (Hscale : 0 < scale) by (apply pow2_pos; lia).
  assert (Heps : 0 < eps) by (apply pow2_pos; lia).
  assert (Eeps : scale = 17592186044416 * eps) by reflexivity.
  assert (Esl : slack = 549755813888 * eps) by reflexivity. rewrite Esl in *.
  destruct (double_of_nat (B - 16) ltac:(lia)) as [Fb Eb].
  pose proof (Z.mul_le_mono_nonneg_r (Z.of_nat (B - 16)) 480 scale ltac:(lia) ltac:(lia)).
  destruct (rounds_spec (double_of_Z (Z.of_nat (B - 16))) (virtual_source_idx_ s2)
    (io_sample_rate_ratio_ s2) Fb (so_index _ _ _ H2)) as (i & E & _ & Hi & _).
  { by rewrite Er2. } { by rewrite Er2. } { rewrite Ev2, Hv, Eb. lia. }
  rewrite Ev2, Hv, Eb, Er2 in Hi. fold r in Hi.
  apply bind_inv in E as (q & Eq & Ei). rewrite Eq, bind_ok, Ei, bind_ok. clear Eq Ei q.
  assert (Hni : Z.of_nat n <= i).
  { destruct (Z.le_gt_cases (Z.of_nat n) i); [done|].
    pose proof (Z.mul_le_mono_nonneg_r i (Z.of_nat n - 1) r ltac:(lia) ltac:(lia)). lia. }
  replace (Z.to_nat i) with (n + (Z.to_nat i - n))%nat by lia.
  pose proof (wp_resample_block B false n (Z.to_nat i - n) 0 s2 [] ltac:(by right) H2 ltac:(lia)) as W.
  rewrite Nat.add_0_r in W. apply wp_bind. eapply wp_mono.
  { apply W; rewrite ?Er2, ?Ev2, ?Hv; [done|lia|lia|]. rewrite (so_block _ _ _ H2).
    fold r. pose proof (Z.mul_le_mono_nonneg_r (Z.of_nat n - 1) 480 eps ltac:(lia) ltac:(lia)). lia. }
  clear W. rewrite Ev2, Er2, Hv. fold r.
  intros [[rem s3] out3] (-> & L & v' & -> & Fv & Ev & Pv). cbn [Nat.eqb].
  apply wp_ret. split; [done|]. split; [done|]. split; [by apply sinc_ok_index|].
  split; [done|]. split; [done|]. split; [done|]. unfold distance.
  change (block_size_ (put_index v' s2)) with (block_size_ s2).
  change (virtual_source_idx_ (put_index v' s2)) with v'.
  rewrite (so_block _ _ _ H2). lia.
Qed.

End call.
End convolve.

(** ** Construction *)

Lemma wp_divide p a b : f_man b <> 0 -> wp (divide p a b) (fun _ => True).
Proof.
  intros H. unfold divide. rewrite (proj2 (Z.eqb_neq _ _)) by done.
  by destruct (long_quotient a b) as [m e].
Qed.

Lemma wp_mapM_length {A B} (g : A -> res B) l :
  (forall x, wp (g x) (fun _ => True)) -> wp (mapM g l) (fun r => length r = length l).
Proof.
  intros H. induction l as [|x l IH]; [done|]. cbn [mapM].
  apply wp_bind. eapply wp_mono; [apply H|]. intros y _.
  apply wp_bind. eapply wp_mono; [exact IH|]. intros r L. apply wp_ret. cbn. by rewrite L.
Qed.

Section construction.
Context `{LM : Libm}.

Lemma wp_subsample_offset i : wp (subsample_offset i) (fun _ => True).
Proof. by apply wp_divide. Qed.

Lemma wp_table entry :
  (forall o i, wp (entry o i) (fun _ => True)) ->
  wp (table entry) (fun l => length l = kKernelStorageSize).
Proof.
  intros H. unfold table. eapply wp_mono; [apply wp_mapM_length; intros x; apply H|].
  intros r ->. apply length_seq.
Qed.

Lemma wp_kernel_entries factor ws ps :
  length ws = length ps -> wp (kernel_entries factor ws ps) (fun l => length l = length ps).
Proof.
  revert ps. induction ws as [|w ws IH]; intros [|p ps] L; try done. cbn [kernel_entries].
  apply wp_bind. apply wp_mono with (fun _ => True).
  { unfold kernel_entry. apply wp_bind. apply wp_mono with (fun _ => True); [|done].
    destruct (Z.eqb_spec (f_man p) 0); [done|]. by apply wp_divide. }
  intros v _. apply wp_bind. eapply wp_mono; [apply IH; by injection L|].
  intros vs Lv. apply wp_ret. cbn. by rewrite Lv.
Qed.

(** A new resampler is at the start of its buffer and has all of its tables. *)
Lemma wp_SincResampler_new B ratio :
  (48 < B)%nat -> fine ratio -> f_man ratio <> 0 ->
  wp (SincResampler_new ratio B) (fun s => sinc_ok B false s /\ buffer_primed_ s = false /\
    virtual_source_idx_ s = Flt 0 0 /\ io_sample_rate_ratio_ s = ratio).
Proof.
  intros HB Hr Hm. unfold SincResampler_new. rewrite (proj2 (Nat.eqb_neq _ _)) by lia.
  unfold Flush, UpdateRegions. cbv beta iota zeta. cbn [request_frames_ put_input put_primed put_index].
  change kKernelSize with 32%nat. change (32 / 2)%nat with 16%nat. change r2_ with 16%nat.
  rewrite (proj2 (Nat.leb_gt _ _)), bind_ok by lia. cbn [block_size_ put_block_size].
  rewrite (proj2 (Nat.leb_gt _ _)) by lia. unfold InitializeKernel.
  apply wp_bind. apply wp_mono with (fun _ => True).
  { unfold SincScaleFactor. apply wp_bind. apply wp_mono with (fun _ => True); [|done].
    destruct (flt one _); [|done]. by apply wp_divide. }
  intros factor _. apply wp_bind. eapply wp_mono.
  { apply wp_table. intros o i. unfold pre_sinc_entry. apply wp_bind.
    by eapply wp_mono; [apply wp_subsample_offset|]. }
  intros ps Lp. apply wp_bind. eapply wp_mono.
  { apply wp_table. intros o i. unfold window_entry. apply wp_bind.
    eapply wp_mono; [apply wp_subsample_offset|]. intros offset _. apply wp_bind.
    by eapply wp_mono; [apply wp_divide|]. }
  intros ws Lw. apply wp_bind. eapply wp_mono; [apply wp_kernel_entries; congruence|].
  intros ks Lk. apply wp_ret. split; [|done]. constructor; try done; cbn; try lia.
  - cbv beta in *. rewrite Lk. exact Lp.
  - apply length_replicate.
Qed.

End construction.
