(* ===== verification/PushSinc.v ===== *)
(** * Resampling of streams

    [common_audio/resampler/push_sinc_resampler.{h,cc}] and
    [push_resampler.{h,cc}]: the class that pushes blocks into a sinc resampler,
    which asks for them through its callback, and the class that does so for every
    channel of an interleaved signal.

    [float_buffer_] and the vectors are written before they are read.  The vectors
    of the channels are regions of one memory. *)
From S2P Require Import Prelude CInt AudioUtil ChannelBuffer SparseFir Double Sinc.

(** ** One channel *)

Record PushSincResampler := MkPush {
  resampler_ : SincResampler; float_buffer_ : option (list float);
  source_ptr_ : option (list float); source_ptr_int_ : option (list Z);
  destination_frames_ : nat; first_pass_ : bool; source_available_ : nat
}.

Definition push_eta (p : PushSincResampler) : PushSincResampler :=
  MkPush (resampler_ p) (float_buffer_ p) (source_ptr_ p) (source_ptr_int_ p)
    (destination_frames_ p) (first_pass_ p) (source_available_ p).

Definition put_resampler : SincResampler -> PushSincResampler -> PushSincResampler :=
  ltac:(field_setter push_eta resampler_).
Definition put_float_buffer : option (list float) -> PushSincResampler -> PushSincResampler :=
  ltac:(field_setter push_eta float_buffer_).
Definition put_source_ptr : option (list float) -> PushSincResampler -> PushSincResampler :=
  ltac:(field_setter push_eta source_ptr_).
Definition put_source_ptr_int : option (list Z) -> PushSincResampler -> PushSincResampler :=
  ltac:(field_setter push_eta source_ptr_int_).
Definition put_first_pass : bool -> PushSincResampler -> PushSincResampler :=
  ltac:(field_setter push_eta first_pass_).
Definition put_available : nat -> PushSincResampler -> PushSincResampler :=
  ltac:(field_setter push_eta source_available_).

Section channel.
Context `{LM : Libm, AR : Architecture}.

(** [source_frames * 1.0 / destination_frames]. *)
Definition source_ratio (source_frames destination_frames : nat) : res float :=
  ddiv (dmul (double_of_Z (Z.of_nat source_frames)) one)
       (double_of_Z (Z.of_nat destination_frames)).

Definition PushSincResampler_new (source_frames destination_frames : nat)
    : res PushSincResampler :=
  ratio ← source_ratio source_frames destination_frames;
  r ← SincResampler_new ratio source_frames;
  Ok (MkPush r None None None destination_frames true 0).

Definition Run (frames : nat) (p : PushSincResampler)
    : res (list float * PushSincResampler) :=
  if negb (source_available_ p =? frames)%nat then Fault AssertionFailed else
  if first_pass_ p then Ok (replicate frames fzero, put_first_pass false p) else
  data ← match source_ptr_ p, source_ptr_int_ p with
         | Some source, _ => fetch frames 0 source
         | None, Some source =>
             mapM (fun i => x ← rd source (Z.of_nat i); Ok (float_of_int x)) (seq 0 frames)
         | None, None => Fault NullPointer
         end;
  Ok (data, put_available (source_available_ p - frames) p).

(** [resampler_->Resample(frames, destination)]: the resampler calls [Run]. *)
Definition run_resampler (p : PushSincResampler) (frames : nat) (destination : list float)
    : res (PushSincResampler * list float) :=
  '(s, p, out) ← Sinc.Resample Run (resampler_ p) p frames;
  destination ← put 0 out destination;
  Ok (put_resampler s p, destination).

(** The overload for [float]; [source] may be null. *)
Definition push_float (p : PushSincResampler) (source : option (list float))
    (source_length : nat) (destination : list float) (destination_capacity : nat)
    : res (nat * PushSincResampler * list float) :=
  if negb (source_length =? request_frames_ (resampler_ p))%nat
  then Fault AssertionFailed else
  if negb (destination_frames_ p <=? destination_capacity)%nat
  then Fault AssertionFailed else
  let p := p |> put_source_ptr source |> put_available source_length in
  '(p, destination) ← (if first_pass_ p
                       then chunk ← ChunkSize (resampler_ p); run_resampler p chunk destination
                       else Ok (p, destination));
  '(p, destination) ← run_resampler p (destination_frames_ p) destination;
  Ok (destination_frames_ p, put_source_ptr None p, destination).

(** The overload for [int16_t]. *)
Definition push_int16 (p : PushSincResampler) (source : list Z) (source_length : nat)
    (destination : list Z) (destination_capacity : nat)
    : res (nat * PushSincResampler * list Z) :=
  let buffer := match float_buffer_ p with
                | Some buffer => buffer
                | None => replicate (destination_frames_ p) fzero
                end in
  '(_, p, buffer) ← push_float (put_source_ptr_int (Some source) p) None source_length
                      buffer (destination_frames_ p);
  samples ← mapM (fun i => v ← rd buffer (Z.of_nat i); FloatS16ToS16 v)
              (seq 0 (destination_frames_ p));
  destination ← put 0 samples destination;
  Ok (destination_frames_ p, p |> put_float_buffer (Some buffer) |> put_source_ptr_int None,
      destination).

End channel.

(** ** All channels *)

(** The instances of the template, by the overload they call. *)
Class Sample (T : Type) := {
  sample_zero : T;
  push : Libm -> Architecture -> PushSincResampler -> list T -> nat -> list T -> nat ->
         res (nat * PushSincResampler * list T)
}.
#[export] Instance sample_float : Sample float :=
  {| sample_zero := fzero; push _ _ p source := push_float p (Some source) |}.
#[export] Instance sample_int16 : Sample Z :=
  {| sample_zero := 0; push _ _ p source := push_int16 p source |}.

(** Whether the checks for clang builds are compiled. *)
Class Build := { clang_checks : bool }.

Record ChannelResampler (T : Type) := MkChannel {
  resampler : PushSincResampler; source : list T; destination : list T
}.
Arguments MkChannel {T} _ _ _.
Arguments resampler {T} _.
Arguments source {T} _.
Arguments destination {T} _.

Record PushResampler (T : Type) := MkPushResampler {
  src_sample_rate_hz_ : Z; dst_sample_rate_hz_ : Z; pr_num_channels_ : nat;
  channel_resamplers_ : list (ChannelResampler T)
}.
Arguments MkPushResampler {T} _ _ _ _.
Arguments src_sample_rate_hz_ {T} _.
Arguments dst_sample_rate_hz_ {T} _.
Arguments pr_num_channels_ {T} _.
Arguments channel_resamplers_ {T} _.

Definition PushResampler_new {T} : PushResampler T := MkPushResampler 0 0 0 [].

Section channels.
Context `{LM : Libm, AR : Architecture, BD : Build} {T : Type} `{SM : Sample T}.

Definition CheckValidInitParams (src_sample_rate_hz dst_sample_rate_hz : Z)
    (num_channels : nat) : res unit :=
  if clang_checks &&
     negb ((0 <? src_sample_rate_hz) && (0 <? dst_sample_rate_hz) && (0 <? num_channels)%nat)
  then Fault AssertionFailed else Ok tt.

(** The products are of type [size_t]. *)
Definition CheckExpectedBufferSizes (src_length dst_capacity num_channels : nat)
    (src_sample_rate dst_sample_rate : Z) : res unit :=
  let size_10ms rate := (rate * Z.of_nat num_channels) mod 2 ^ 64 / 100 in
  if clang_checks &&
     negb ((Z.of_nat src_length =? size_10ms src_sample_rate) &&
           (size_10ms dst_sample_rate <=? Z.of_nat dst_capacity))
  then Fault AssertionFailed else Ok tt.

Definition InitializeIfNeeded (r : PushResampler T) (src_sample_rate_hz dst_sample_rate_hz : Z)
    (num_channels : nat) : res (Z * PushResampler T) :=
  _ ← CheckValidInitParams src_sample_rate_hz dst_sample_rate_hz num_channels;
  if (src_sample_rate_hz =? src_sample_rate_hz_ r) &&
     (dst_sample_rate_hz =? dst_sample_rate_hz_ r) &&
     (num_channels =? pr_num_channels_ r)%nat
  then Ok (0, r) else
  if (src_sample_rate_hz <=? 0) || (dst_sample_rate_hz <=? 0) || (num_channels <=? 0)%nat
  then Ok (-1, r) else
  let src_size_10ms_mono := Z.to_nat (src_sample_rate_hz / 100) in
  let dst_size_10ms_mono := Z.to_nat (dst_sample_rate_hz / 100) in
  channels ← mapM (fun _ =>
    p ← PushSincResampler_new src_size_10ms_mono dst_size_10ms_mono;
    Ok (MkChannel p (replicate src_size_10ms_mono sample_zero)
                    (replicate dst_size_10ms_mono sample_zero))) (seq 0 num_channels);
  Ok (0, MkPushResampler src_sample_rate_hz dst_sample_rate_hz num_channels channels).

(** The memory of some vectors, from address [p] on, and the pointers to them. *)
Fixpoint vector_pointers (p : nat) (vectors : list (list T)) : list nat :=
  match vectors with
  | [] => []
  | v :: vectors' => p :: vector_pointers (p + length v) vectors'
  end.

(** The loop over [channel_resamplers_]; [mem] holds the sources. *)
Fixpoint resample_channels (channels : list (ChannelResampler T)) (pointers : list nat)
    (mem : list T) (src_length_mono dst_capacity_mono dst_length_mono : nat)
    : res (nat * list (ChannelResampler T)) :=
  match channels, pointers with
  | c :: channels', p :: pointers' =>
      let src := view (length (source c)) p mem in
      '(n, q, dst) ← push LM AR (resampler c) src src_length_mono (destination c)
                       dst_capacity_mono;
      '(n, cs) ← resample_channels channels' pointers' mem src_length_mono
                   dst_capacity_mono n;
      Ok (n, MkChannel q src dst :: cs)
  | _, _ => Ok (dst_length_mono, [])
  end.

Definition set_channel_resamplers (cs : list (ChannelResampler T)) (r : PushResampler T)
    : PushResampler T :=
  MkPushResampler (src_sample_rate_hz_ r) (dst_sample_rate_hz_ r) (pr_num_channels_ r) cs.

Definition Resample (r : PushResampler T) (src : list T) (src_length : nat) (dst : list T)
    (dst_capacity : nat) : res (Z * PushResampler T * list T) :=
  _ ← CheckExpectedBufferSizes src_length dst_capacity (pr_num_channels_ r)
        (src_sample_rate_hz_ r) (dst_sample_rate_hz_ r);
  if src_sample_rate_hz_ r =? dst_sample_rate_hz_ r then
    x ← fetch src_length 0 src;
    dst ← put 0 x dst;
    Ok (to_i32 (Z.of_nat src_length), r, dst)
  else
  if (pr_num_channels_ r =? 0)%nat then Fault DivByZero else
  let src_length_mono := (src_length / pr_num_channels_ r)%nat in
  let dst_capacity_mono := (dst_capacity / pr_num_channels_ r)%nat in
  let sources := map source (channel_resamplers_ r) in
  let source_pointers := vector_pointers 0 sources in
  mem ← Deinterleave src src_length_mono (pr_num_channels_ r) source_pointers (concat sources);
  '(dst_length_mono, cs) ← resample_channels (channel_resamplers_ r) source_pointers mem
                             src_length_mono dst_capacity_mono 0;
  let destinations := map destination cs in
  dst ← Interleave (concat destinations) (vector_pointers 0 destinations) dst_length_mono
          (pr_num_channels_ r) dst;
  Ok (to_i32 (Z.of_nat (dst_length_mono * pr_num_channels_ r)), set_channel_resamplers cs r, dst).

End channels.

(** * Lemmas

    ** One channel *)

(** The first of the two calls of the first pass is for as many samples as there
    are to the end of the buffer, and leaves some room to the samples around. *)
Record good_ratio (B D : nat) (ratio : float) : Prop := {
  gr_ratio : ratio_ok B D ratio;
  gr_chunk : exists q, ddiv (double_of_Z (Z.of_nat (B - 16))) ratio = Ok q /\
    0 < ftrunc q <= Z.of_nat D /\
    Z.abs (Z.of_nat (B - 16) * scale - ftrunc q * units ratio) <= units ratio - slack
}.

(** Between calls, [n] of which were made after the first. *)
Record stream_ok (B D : nat) (n : Z) (p : PushSincResampler) : Prop := {
  st_ratio : good_ratio B D (io_sample_rate_ratio_ (resampler_ p));
  st_frames : destination_frames_ p = D;
  st_buffer : from_option (fun b => length b = D) True (float_buffer_ p);
  st_request : request_frames_ (resampler_ p) = B;
  st_phase : let s := resampler_ p in
    if first_pass_ p then
      sinc_ok B false s /\ buffer_primed_ s = false /\ units (virtual_source_idx_ s) = 0
    else
      (exists second, sinc_ok B second s) /\ buffer_primed_ s = true /\
      0 <= units (virtual_source_idx_ s) /\
      Z.abs (distance s) <= units (io_sample_rate_ratio_ s) - slack + (480 + 484 * n) * eps
}.

Lemma stream_ok_mono B D n n' p : stream_ok B D n p -> n <= n' -> stream_ok B D n' p.
Proof.
  intros [H1 H2 H3 H4 H5] Hn. constructor; try done. cbv zeta in *.
  destruct (first_pass_ p); [done|]. destruct H5 as (S1 & S2 & S3 & S4). split_and!; try done.
  assert (0 < eps) by (apply pow2_pos; lia).
  pose proof (Z.mul_le_mono_nonneg_r (480 + 484 * n) (480 + 484 * n') eps ltac:(lia) ltac:(lia)). lia.
Qed.

(** A resampler that was not called yet. *)
Lemma stream_ok_first B D n p : stream_ok B D n p -> first_pass_ p = true -> stream_ok B D 0 p.
Proof.
  intros [H1 H2 H3 H4 H5] E. constructor; try done. cbv zeta in *. by rewrite E in *.
Qed.

(** The calls for which the errors of the index add up to less than the room. *)
Definition max_calls : Z := 2 ^ 30.

Section channel_lemmas.
Context `{LM : Libm, AR : Architecture}.

Lemma Run_first B p :
  first_pass_ p = true -> source_available_ p = B -> provides Run B p (put_first_pass false p).
Proof.
  intros Hf Ha. exists (replicate B fzero). split; [|apply length_replicate].
  unfold Run. by rewrite Ha, Nat.eqb_refl, Hf.
Qed.

Lemma Run_source B p :
  first_pass_ p = false -> source_available_ p = B ->
  match source_ptr_ p, source_ptr_int_ p with
  | Some l, _ => (B <= length l)%nat
  | None, Some l => (B <= length l)%nat
  | None, None => False
  end ->
  provides Run B p (put_available 0 p).
Proof.
  intros Hf Ha Hs. unfold provides, Run. rewrite Ha, Nat.eqb_refl, Hf, Nat.sub_diag. cbn [negb].
  destruct (source_ptr_ p) as [l|]; [|destruct (source_ptr_int_ p) as [l|]; [|done]].
  - rewrite fetch_ok, bind_ok by lia. eexists. split; [done|]. apply length_view. lia.
  - assert (W : wp (mapM (fun i => x ← rd l (Z.of_nat i); Ok (float_of_int x)) (seq 0 B))
                   (fun r => length r = B)).
    { eapply wp_mono; [apply (wp_map_seq (fun _ _ => True))|].
      - intros i Hi. destruct (lookup_lt_is_Some_2 l i ltac:(lia)) as [x Hx].
        by rewrite (rd_Some _ _ _ Hx).
      - by intros r [L _]. }
    apply wp_ok in W as (r & -> & L). rewrite bind_ok. by exists r.
Qed.

Lemma wp_run_resampler (P : SincResampler -> Prop) p c n dst :
  wp (Sinc.Resample Run (resampler_ p) p n) (fun '(s, c', out) =>
    c' = c /\ length out = n /\ P s) ->
  (n <= length dst)%nat ->
  wp (run_resampler p n dst) (fun '(p', dst') =>
    length dst' = length dst /\ exists s, P s /\ p' = put_resampler s c).
Proof.
  intros W Hn. unfold run_resampler. apply wp_bind. eapply wp_mono; [exact W|].
  intros [[s c'] out] (-> & L & HP). apply wp_bind.
  eapply wp_mono; [apply wp_put; lia|]. intros dst' [Ld _]. apply wp_ret.
  split; [done|]. by exists s.
Qed.

(** The source of a call is there when the callback asks for it. *)
Definition has_source (B : nat) (p : PushSincResampler) (src : option (list float)) : Prop :=
  match src, source_ptr_int_ p with
  | Some l, _ => (B <= length l)%nat
  | None, Some l => (B <= length l)%nat
  | None, None => False
  end.

Lemma room n :
  0 <= n < max_calls -> (480 + 484 * n) * eps <= slack - margin.
Proof.
  intros Hn. unfold max_calls in Hn. assert (0 < eps) by (apply pow2_pos; lia).
  change (slack - margin) with (549755812888 * eps).
  apply Z.mul_le_mono_nonneg_r; lia.
Qed.

(** The first half of the first call. *)
Lemma wp_first_half B D p dst :
  stream_ok B D 0 p -> first_pass_ p = true -> source_available_ p = B ->
  (D <= length dst)%nat ->
  wp (chunk ← ChunkSize (resampler_ p); run_resampler p chunk dst) (fun '(p', dst') =>
    length dst' = length dst /\
    exists s, stream_ok B D 0 p' /\ p' = put_resampler s (put_first_pass false p)).
Proof.
  intros [[HR (q & Eq & Hq & Hd)] HD Hb Hreq Hph] Hf Ha Hdst.
  cbv zeta in Hph. rewrite Hf in Hph. destruct Hph as (Hs & Hp & Hi).
  unfold ChunkSize. rewrite (so_block _ _ _ Hs), Eq, !bind_ok.
  pose proof HR as [_ RB RD _ _]. set (chunk := Z.to_nat (ftrunc q)).
  assert (Ec : ftrunc q = Z.of_nat chunk) by lia. rewrite Ec in Hd.
  eapply wp_mono.
  { apply wp_run_resampler; [|lia].
    eapply (wp_Resample_prime Run B D chunk _ _ (put_first_pass false p)); try done; [lia|].
    by apply Run_first. }
  intros [p' dst'] (L & s & (Hs' & Hp' & Er & Hi' & Hd') & ->). split; [done|].
  exists s. split; [|done]. constructor; try done.
  - change (resampler_ (put_resampler s (put_first_pass false p))) with s. rewrite Er.
    split; [done|]. exists q. rewrite Ec. split_and!; [done|lia|lia|done].
  - change (request_frames_ s = B). apply Hs'.
  - cbv zeta. change (first_pass_ (put_resampler s (put_first_pass false p))) with false.
    change (resampler_ (put_resampler s (put_first_pass false p))) with s. cbv iota.
    rewrite Er. split; [by exists false|]. split; [done|]. split; [done|].
    assert (0 < eps) by (apply pow2_pos; lia).
    pose proof (Z.mul_le_mono_nonneg_r (Z.of_nat chunk) 480 eps ltac:(lia) ltac:(lia)). lia.
Qed.

(** The block itself. *)
Lemma wp_second_half B D n p dst src :
  stream_ok B D n p -> 0 <= n < max_calls -> first_pass_ p = false ->
  source_available_ p = B -> source_ptr_ p = src -> has_source B p src ->
  (D <= length dst)%nat ->
  wp (run_resampler p D dst) (fun '(p', dst') =>
    length dst' = length dst /\ exists s, stream_ok B D (n + 1) p' /\
      p' = put_resampler s (put_available 0 p)).
Proof.
  intros [HG HD Hb Hreq Hph] Hn Hf Ha Hsrc Hhas Hdst. pose proof (gr_ratio _ _ _ HG) as HR.
  cbv zeta in Hph. rewrite Hf in Hph. destruct Hph as ([second Hs] & Hp & Hi & Hd).
  pose proof (room n Hn) as Hroom.
  eapply wp_mono.
  { apply wp_run_resampler; [|lia].
    eapply (wp_Resample_call Run B D second _ _ (put_available 0 p)); try done; [lia|].
    apply Run_source; [done|done|]. unfold has_source in Hhas. by rewrite Hsrc. }
  intros [p' dst'] (L & s & (Hs' & Hp' & Er & Hi' & Hd') & ->). split; [done|].
  exists s. split; [|done]. constructor; try done.
  - change (resampler_ (put_resampler s (put_available 0 p))) with s. by rewrite Er.
  - change (request_frames_ s = B). apply Hs'.
  - cbv zeta. change (first_pass_ (put_resampler s (put_available 0 p))) with (first_pass_ p).
    change (resampler_ (put_resampler s (put_available 0 p))) with s. rewrite Hf, Er.
    split; [by exists true|]. split; [done|]. split; [done|].
    pose proof HR as [_ RB RD _ _]. assert (0 < eps) by (apply pow2_pos; lia).
    pose proof (Z.mul_le_mono_nonneg_r (Z.of_nat D + 4) 484 eps ltac:(lia) ltac:(lia)). lia.
Qed.

Lemma wp_push_float B D n p src dst cap :
  stream_ok B D n p -> 0 <= n < max_calls ->
  has_source B p src -> (D <= length dst)%nat -> (D <= cap)%nat ->
  wp (push_float p src B dst cap) (fun '(k, p', dst') => k = D /\
    length dst' = length dst /\ stream_ok B D (n + 1) p' /\ first_pass_ p' = false /\
    float_buffer_ p' = float_buffer_ p).
Proof.
  intros H Hn Hsrc Hdst Hcap. unfold push_float.
  rewrite (st_request _ _ _ _ H), (st_frames _ _ _ _ H), Nat.eqb_refl, (proj2 (Nat.leb_le _ _)) by done.
  cbn [negb]. set (p1 := p |> put_source_ptr src |> put_available B).
  assert (H1 : stream_ok B D n p1) by (destruct H; by constructor).
  apply wp_bind. eapply (wp_mono _ (fun '(p2, dst2) => length dst2 = length dst /\
    stream_ok B D n p2 /\ first_pass_ p2 = false /\ source_available_ p2 = B /\
    source_ptr_ p2 = src /\ source_ptr_int_ p2 = source_ptr_int_ p /\
    float_buffer_ p2 = float_buffer_ p)).
  - change (first_pass_ p1) with (first_pass_ p). destruct (first_pass_ p) eqn:Ef.
    + eapply wp_mono; [apply (wp_first_half B D); try done; by apply (stream_ok_first B D n)|].
      intros [p2 dst2] (L & s & H2 & ->). split_and!; try done.
      by apply (stream_ok_mono B D 0); [|lia].
    + by apply wp_ret.
  - intros [p2 dst2] (L2 & H2 & Hf2 & Ha2 & Hs2 & Hi2 & Hb2).
    rewrite (st_frames _ _ _ _ H2). apply wp_bind. eapply wp_mono.
    { apply (wp_second_half B D n p2 dst2 src); try done; [|lia].
      unfold has_source in *. by rewrite Hi2. }
    intros [p3 dst3] (L3 & s & H3 & ->). apply wp_ret. split; [apply H3|].
    split; [congruence|]. split; [destruct H3; by constructor|]. by split.
Qed.

Lemma wp_push_int16 B D n p src dst cap :
  stream_ok B D n p -> 0 <= n < max_calls ->
  (B <= length src)%nat -> (D <= length dst)%nat ->
  wp (push_int16 p src B dst cap) (fun '(k, p', dst') => k = D /\
    length dst' = length dst /\ stream_ok B D (n + 1) p' /\ first_pass_ p' = false).
Proof.
  intros H Hn Hsrc Hdst. unfold push_int16. rewrite (st_frames _ _ _ _ H).
  set (buffer := match float_buffer_ p with Some b => b | None => _ end).
  assert (Lb : length buffer = D).
  { pose proof (st_buffer _ _ _ _ H) as Hb. subst buffer.
    destruct (float_buffer_ p); [done|apply length_replicate]. }
  apply wp_bind. eapply wp_mono.
  { apply (wp_push_float B D n); try done; [|lia]. destruct H; by constructor. }
  intros [[k p'] b'] (-> & Lb' & H' & Hf' & _). rewrite (st_frames _ _ _ _ H').
  apply wp_bind. eapply wp_mono; [apply (wp_map_seq (fun _ _ => True))|].
  { intros i Hi. destruct (lookup_lt_is_Some_2 b' i ltac:(lia)) as [x Hx].
    rewrite (rd_Some _ _ _ Hx), bind_ok. by rewrite (proj1 (s16_spec x)). }
  intros samples [Ls _]. apply wp_bind. eapply wp_mono; [apply wp_put; lia|].
  intros dst' [Ld _]. apply wp_ret. split; [done|]. split; [done|]. split; [|done].
  destruct H'. constructor; try done. cbn. congruence.
Qed.

End channel_lemmas.

(** What the class for several channels needs of the overload it calls. *)
Class SampleOk (T : Type) `{SM : Sample T} := push_spec : forall LM AR B D n p src dst cap,
  stream_ok B D n p -> 0 <= n < max_calls ->
  (B <= length src)%nat -> (D <= length dst)%nat -> (D <= cap)%nat ->
  wp (push LM AR p src B dst cap) (fun '(k, p', dst') => k = D /\
    length dst' = length dst /\ stream_ok B D (n + 1) p' /\ first_pass_ p' = false).

#[export] Instance float_ok : SampleOk float.
Proof.
  intros LM AR B D n p src dst cap H Hn Hs Hd Hc. cbn [push sample_float].
  eapply wp_mono; [by apply (wp_push_float B D n)|].
  by intros [[k p'] dst'] (-> & L & H' & Hf & _).
Qed.

#[export] Instance int16_ok : SampleOk Z.
Proof. intros LM AR B D n p src dst cap H Hn Hs Hd Hc. by apply wp_push_int16. Qed.

(** ** Ratios *)

Definition good_pair (B D : nat) : bool :=
  match (ratio ← source_ratio B D; q ← ddiv (double_of_Z (Z.of_nat (B - 16))) ratio;
         Ok (ratio, ftrunc q)) with
  | Ok (ratio, n) =>
      let r := units ratio in
      (Z.abs (f_man ratio) <=? 2 ^ 53) && (-200 <=? f_exp ratio) &&
      ((48 <? B) && (B <=? 480) && (2 <=? D) && (D <=? 480))%nat &&
      (scale <=? 16 * r) && (16 * r <=? 128 * scale) &&
      (Z.abs (Z.of_nat D * r - Z.of_nat B * scale) <=? eps) &&
      (0 <? n) && (n <=? Z.of_nat D) &&
      (Z.abs (Z.of_nat (B - 16) * scale - n * r) <=? r - slack)
  | Fault _ => false
  end.

Lemma good_pair_ok B D :
  good_pair B D = true -> exists ratio, source_ratio B D = Ok ratio /\ good_ratio B D ratio.
Proof.
  unfold good_pair. destruct (source_ratio B D) as [ratio|]; [|done]. rewrite bind_ok.
  destruct (ddiv _ ratio) as [q|] eqn:Eq; [|done]. rewrite bind_ok. cbv zeta.
  rewrite !andb_true_iff, !Z.leb_le, Z.ltb_lt, !Nat.leb_le, Nat.ltb_lt. intros H.
  destruct_and! H. exists ratio. split; [done|]. split; [|by exists q].
  by constructor.
Qed.

(** The numbers of frames of 10 ms at the usual rates. *)
Definition rates : list Z := [8000; 11025; 16000; 22050; 32000; 44100; 48000].
Definition frames_of (rate : Z) : nat := Z.to_nat (rate / 100).

Lemma rates_good a b :
  a ∈ rates -> b ∈ rates -> good_pair (frames_of a) (frames_of b) = true.
Proof.
  intros Ha Hb.
  assert (E : forallb (fun a => forallb (fun b => good_pair (frames_of a) (frames_of b)) rates)
                rates = true) by (vm_compute; reflexivity).
  rewrite forallb_forall in E. apply list_elem_of_In in Ha, Hb.
  specialize (E a Ha). rewrite forallb_forall in E. by apply E.
Qed.

Lemma wp_PushSincResampler_new `{LM : Libm} B D :
  good_pair B D = true ->
  wp (PushSincResampler_new B D) (fun p => stream_ok B D 0 p /\ first_pass_ p = true).
Proof.
  intros HG. destruct (good_pair_ok B D HG) as (ratio & E & Hg).
  pose proof (gr_ratio _ _ _ Hg) as [Hf HB HD Hr _].
  unfold PushSincResampler_new. rewrite E, bind_ok. apply wp_bind. eapply wp_mono.
  { apply wp_SincResampler_new; [lia|done|]. unfold units in Hr.
    intros E0. rewrite E0 in Hr. assert (0 < scale) by (apply pow2_pos; lia). lia. }
  intros s (Hs & Hp & Hv & Er). apply wp_ret. split; [|done].
  constructor; try done; cbn.
  - by rewrite Er.
  - apply Hs.
  - split; [done|]. split; [done|]. by rewrite Hv.
Qed.

(** ** All channels *)

Section channels_lemmas.
Context `{LM : Libm, AR : Architecture, BD : Build} {T : Type} `{SM : Sample T, !SampleOk T}.

Lemma vector_pointers_lookup L p (vs : list (list T)) i :
  Forall (fun v => length v = L) vs ->
  vector_pointers p vs !! i = if decide (i < length vs)%nat then Some (p + i * L)%nat else None.
Proof.
  intros H. revert p i. induction H as [|v vs Hv _ IH]; intros p i; [by destruct i|].
  destruct i as [|i]; cbn; [by rewrite Nat.add_0_r|]. rewrite IH, Hv.
  destruct (decide (i < length vs)%nat), (decide (S i < S (length vs))%nat); try lia; try done.
  f_equal. lia.
Qed.

Lemma concat_length L (vs : list (list T)) :
  Forall (fun v => length v = L) vs -> length (concat vs) = (length vs * L)%nat.
Proof. induction 1 as [|v vs Hv _ IH]; [done|]. cbn. rewrite length_app. lia. Qed.

Lemma vector_pointers_length p (vs : list (list T)) :
  length (vector_pointers p vs) = length vs.
Proof. revert p. induction vs as [|v vs IH]; intros p; [done|]. cbn. by rewrite IH. Qed.

Lemma vector_pointers_ok L (vs : list (list T)) (mem : list T) :
  Forall (fun v => length v = L) vs -> length mem = length (concat vs) ->
  pointers_ok L (length vs) (vector_pointers 0 vs) mem.
Proof.
  intros H Hm. rewrite (concat_length L) in Hm by done. constructor.
  - by rewrite vector_pointers_length.
  - intros i p Hi. rewrite (vector_pointers_lookup L), decide_True by done.
    intros [= <-]. nia.
  - intros i j p q Hi Hj Hne. rewrite !(vector_pointers_lookup L), !decide_True by done.
    intros [= <-] [= <-]. nia.
Qed.

(** Reading a vector of the memory. *)
Lemma concat_lookup L (vs : list (list T)) i v j :
  Forall (fun v => length v = L) vs -> vs !! i = Some v -> (j < L)%nat ->
  concat vs !! (i * L + j)%nat = v !! j.
Proof.
  intros H. revert i. induction H as [|w vs Hw _ IH]; intros [|i] E Hj; try done.
  - injection E as ->. cbn. by rewrite lookup_app_l by lia.
  - cbn. rewrite lookup_app_r by lia. rewrite <- (IH i E Hj). f_equal. lia.
Qed.

Record channel_ok (B D : nat) (n : Z) (c : ChannelResampler T) : Prop := {
  ch_stream : stream_ok B D n (resampler c);
  ch_source : length (source c) = B;
  ch_destination : length (destination c) = D
}.

(** The step of one channel. *)
Definition channel_step (B D cap : nat) (xs : list T) (c c' : ChannelResampler T) : Prop :=
  push LM AR (resampler c) xs B (destination c) cap = Ok (D, resampler c', destination c').

Lemma wp_resample_channels B D n cap cs ptrs (mem : list T) k0 :
  Forall (channel_ok B D n) cs -> 0 <= n < max_calls -> (D <= cap)%nat ->
  Forall (fun p => (p + B <= length mem)%nat) ptrs ->
  (length cs <= length ptrs)%nat -> (0 < length cs)%nat ->
  wp (resample_channels cs ptrs mem B cap k0) (fun '(k, cs') => k = D /\
    Forall (channel_ok B D (n + 1)) cs' /\ length cs' = length cs /\
    forall i c p, cs !! i = Some c -> ptrs !! i = Some p ->
      exists c', cs' !! i = Some c' /\ channel_step B D cap (view B p mem) c c').
Proof.
  intros Hcs Hn Hcap. revert ptrs k0.
  induction Hcs as [|c cs Hc Hcs IH]; intros [|p ptrs] k0 Hp Hl H0; cbn in Hl, H0; try lia.
  pose proof (Forall_inv Hp) as Hp0. apply Forall_inv_tail in Hp.
  cbn [resample_channels]. rewrite (ch_source _ _ _ _ Hc).
  pose proof (length_view B p mem Hp0) as Lv.
  pose proof (push_spec LM AR B D n (resampler c) (view B p mem) (destination c) cap
    (ch_stream _ _ _ _ Hc) Hn ltac:(lia)
    ltac:(rewrite (ch_destination _ _ _ _ Hc); lia) Hcap) as W.
  apply wp_ok in W as ([[k q] d] & E & -> & Ld & Hq & Hf). rewrite E, bind_ok.
  set (c1 := MkChannel q (view B p mem) d).
  assert (H1 : channel_ok B D (n + 1) c1).
  { constructor; [done|done|]; cbn. by rewrite Ld, (ch_destination _ _ _ _ Hc). }
  apply wp_bind. eapply (wp_mono _ (fun '(k, cs') => k = D /\
    Forall (channel_ok B D (n + 1)) cs' /\ length cs' = length cs /\
    forall i c p, cs !! i = Some c -> ptrs !! i = Some p ->
      exists c', cs' !! i = Some c' /\ channel_step B D cap (view B p mem) c c')).
  - destruct cs as [|c2 cs]; [by apply wp_ret|]. apply IH; [done|lia|cbn; lia].
  - intros [k cs'] (-> & Hcs' & L & H). apply wp_ret. split; [done|].
    split; [by constructor|]. split; [cbn; lia|].
    intros [|i] c0 p0 Ec Ep; [|by apply (H i)]. injection Ec as <-. injection Ep as <-.
    exists c1. by split.
Qed.

Record push_ok (a b : Z) (k : nat) (n : Z) (r : PushResampler T) : Prop := {
  pu_src : src_sample_rate_hz_ r = a;
  pu_dst : dst_sample_rate_hz_ r = b;
  pu_channels : pr_num_channels_ r = k;
  pu_count : length (channel_resamplers_ r) = k;
  pu_each : Forall (channel_ok (frames_of a) (frames_of b) n) (channel_resamplers_ r)
}.

(** The rates of the streams. *)
Record rates_ok (a b : Z) (k : nat) : Prop := {
  ra_src : a ∈ rates; ra_dst : b ∈ rates; ra_differ : a <> b;
  ra_channels : (0 < k)%nat /\ Z.of_nat k < 2 ^ 20;
  ra_checks : clang_checks = true -> a mod 100 = 0 /\ b mod 100 = 0
}.

Lemma rates_range a : a ∈ rates -> 8000 <= a <= 48000.
Proof. intros H. repeat (apply elem_of_cons in H as [->|H]; [lia|]). by apply elem_of_nil in H. Qed.

Lemma sizes_checked a b k :
  rates_ok a b k ->
  CheckExpectedBufferSizes (k * frames_of a) (k * frames_of b) k a b = Ok tt.
Proof.
  intros [Ha Hb _ [Hk Hk2] Hc]. unfold CheckExpectedBufferSizes.
  destruct clang_checks; [|done]. destruct (Hc eq_refl) as [Ma Mb]. cbv zeta.
  assert (E : forall x, x ∈ rates -> x mod 100 = 0 ->
            (x * Z.of_nat k) mod 2 ^ 64 / 100 = Z.of_nat (k * frames_of x)).
  { intros x Hx Mx. pose proof (rates_range x Hx). change (2 ^ 20) with 1048576 in Hk2.
    rewrite Z.mod_small by nia. unfold frames_of.
    rewrite Nat2Z.inj_mul, Z2Nat.id by (apply Z.div_pos; lia).
    rewrite (Z_div_exact_full_2 x 100) at 1 by (done || lia).
    rewrite <- Z.mul_assoc, Z.mul_comm, Z.div_mul by lia. lia. }
  rewrite !E, Z.eqb_refl, Z.leb_refl by done. done.
Qed.

Lemma wp_InitializeIfNeeded a b k :
  rates_ok a b k ->
  wp (InitializeIfNeeded PushResampler_new a b k) (fun '(e, r) => e = 0 /\
    push_ok a b k 0 r /\
    forall p, PushSincResampler_new (frames_of a) (frames_of b) = Ok p ->
      Forall (fun c => resampler c = p /\ destination c = replicate (frames_of b) sample_zero)
        (channel_resamplers_ r)).
Proof.
  intros [Ha Hb _ [Hk _] _]. pose proof (rates_range a Ha). pose proof (rates_range b Hb).
  unfold InitializeIfNeeded, CheckValidInitParams.
  rewrite !(proj2 (Z.ltb_lt 0 _)), (proj2 (Nat.ltb_lt 0 k)) by lia. cbn [negb andb].
  rewrite andb_false_r, bind_ok. cbn [src_sample_rate_hz_ dst_sample_rate_hz_ PushResampler_new].
  rewrite (proj2 (Z.eqb_neq a 0)) by lia. cbn [andb].
  rewrite !(proj2 (Z.leb_gt _ 0)), (proj2 (Nat.leb_gt k 0)) by lia. cbn [orb]. cbv zeta.
  fold (frames_of a) (frames_of b).
  pose proof (wp_PushSincResampler_new _ _ (rates_good a b Ha Hb)) as W.
  apply wp_ok in W as (p & E & Hp & Hf). rewrite E.
  rewrite (mapM_ok _ (fun _ => MkChannel p (replicate (frames_of a) sample_zero)
    (replicate (frames_of b) sample_zero))) by (intros; by rewrite bind_ok).
  rewrite bind_ok. apply wp_ret. split; [done|]. split.
  - constructor; try done; cbn; [by rewrite length_map, length_seq|].
    apply Forall_map, Forall_true. intros _. constructor; try done; apply length_replicate.
  - intros p' [= <-]. by apply Forall_map, Forall_true.
Qed.

(** Channel [i] of an interleaved block. *)
Definition channel_of (k n i : nat) (xs : list T) : list T := lane n k (drop i xs).

(** A call is a step of every channel. *)
Lemma wp_Resample a b k n r xs dst :
  rates_ok a b k -> push_ok a b k n r -> 0 <= n < max_calls ->
  let B := frames_of a in
  let D := frames_of b in
  length xs = (k * B)%nat -> length dst = (k * D)%nat ->
  wp (Resample r xs (k * B) dst (k * D)) (fun '(m, r', out) => m = Z.of_nat (k * D) /\
    push_ok a b k (n + 1) r' /\ length out = (k * D)%nat /\
    forall i c, channel_resamplers_ r !! i = Some c ->
      exists c', channel_resamplers_ r' !! i = Some c' /\
        channel_step B D D (channel_of k B i xs) c c' /\ channel_of k D i out = destination c').
Proof.
  intros HR [Ea Eb Ek Hk Hcs] Hn B D Lx Ld. unfold Resample. rewrite Ea, Eb, Ek.
  pose proof (sizes_checked a b k HR) as Esz. fold B D in Esz. rewrite Esz, bind_ok. clear Esz. destruct HR as [Ha Hb Hab [Hk0 Hk1] _].
  rewrite (proj2 (Z.eqb_neq _ _)), (proj2 (Nat.eqb_neq _ _)) by (done || lia). cbv zeta.
  fold B D in Hcs |- *. rewrite !(Nat.mul_comm k), !Nat.div_mul by lia.
  set (cs := channel_resamplers_ r) in *. set (sources := map source cs).
  assert (Fs : Forall (fun v => length v = B) sources).
  { apply Forall_map. eapply Forall_impl; [|exact Hcs]. intros c Hc. apply Hc. }
  assert (Ls : length sources = k) by by unfold sources; rewrite length_map.
  pose proof (vector_pointers_ok B sources _ Fs eq_refl) as Hp. rewrite Ls in Hp.
  apply wp_bind. eapply wp_mono; [apply (wp_Deinterleave xs B k); [done|lia]|].
  intros mem (Lm & Hm & _). apply wp_bind. eapply wp_mono.
  { apply (wp_resample_channels B D n); try done.
    - apply Forall_lookup. intros i p Ep. pose proof (lookup_lt_Some _ _ _ Ep).
      rewrite (vector_pointers_lookup B) in Ep by done.
      destruct (decide _) as [Hi|]; [|done]. injection Ep as <-.
      rewrite Lm, (concat_length B) by done. nia.
    - fold cs. rewrite Hk. apply Hp.
    - lia. }
  intros [m cs'] (-> & Hcs' & L' & Hstep). set (dests := map destination cs').
  assert (Fd : Forall (fun v => length v = D) dests).
  { apply Forall_map. eapply Forall_impl; [|exact Hcs']. intros c Hc. apply Hc. }
  assert (Ldd : length dests = k) by (unfold dests; rewrite length_map; lia).
  pose proof (vector_pointers_ok D dests _ Fd eq_refl) as Hq. rewrite Ldd in Hq.
  apply wp_bind. eapply wp_mono; [apply (wp_Interleave _ _ D k); [done|lia]|].
  intros out (Lo & Ho & _). apply wp_ret.
  assert (HD : (D <= 480)%nat).
  { pose proof (rates_range b Hb). unfold D, frames_of.
    assert (b / 100 <= 480) by (apply Z.div_le_upper_bound; lia). lia. }
  split. { apply to_i32_id. unfold i32. change (2 ^ 20) with 1048576 in Hk1. nia. }
  split; [constructor; cbn; try done; lia|]. split; [lia|].
  intros i c Ec. pose proof (lookup_lt_Some _ _ _ Ec) as Hi. fold cs in Ec, Hi.
  assert (Ep : vector_pointers 0 sources !! i = Some (0 + i * B)%nat).
  { rewrite (vector_pointers_lookup B) by done. by rewrite decide_True by lia. }
  destruct (Hstep i c _ Ec Ep) as (c' & Ec' & Hs). exists c'. split; [done|].
  rewrite (Hm i _ ltac:(lia) Ep) in Hs. split; [done|].
  assert (Ed : dests !! i = Some (destination c')) by (unfold dests; by rewrite list_lookup_fmap, Ec').
  assert (Eq : vector_pointers 0 dests !! i = Some (0 + i * D)%nat).
  { rewrite (vector_pointers_lookup D) by done. by rewrite decide_True by lia. }
  pose proof (proj1 (Forall_lookup _ _) Fd i _ Ed) as Lc. cbv beta in Lc.
  apply list_eq. intros j. unfold channel_of. rewrite lookup_lane, lookup_drop.
  destruct (decide (j < D)%nat) as [Hj|Hj]; [|by rewrite lookup_ge_None_2 by lia].
  rewrite (Ho i _ j ltac:(lia) Eq Hj). cbn. by apply concat_lookup.
Qed.

End channels_lemmas.

(** ** Streams *)

Section streams.
Context `{LM : Libm, AR : Architecture, BD : Build} {T : Type} `{SM : Sample T}.

(** A call for every block, with an array of its own for the result. *)
Fixpoint resample_stream (r : PushResampler T) (n m : nat) (blocks : list (list T))
    : res (list (list T)) :=
  match blocks with
  | [] => Ok []
  | xs :: blocks' =>
      '(_, r, out) ← Resample r xs n (replicate m sample_zero) m;
      outs ← resample_stream r n m blocks';
      Ok (out :: outs)
  end.

(** The same for one channel, which keeps its array. *)
Fixpoint channel_stream (p : PushSincResampler) (B D : nat) (dst : list T)
    (blocks : list (list T)) : res (list (list T)) :=
  match blocks with
  | [] => Ok []
  | xs :: blocks' =>
      '(_, p, dst) ← push LM AR p xs B dst D;
      outs ← channel_stream p B D dst blocks';
      Ok (dst :: outs)
  end.

Lemma resample_stream_ok `{!SampleOk T} a b k blocks : forall n r,
  rates_ok a b k -> push_ok a b k n r -> 0 <= n -> n + zlen blocks <= max_calls ->
  let B := frames_of a in
  let D := frames_of b in
  Forall (fun xs => length xs = (k * B)%nat) blocks ->
  exists outs, resample_stream r (k * B) (k * D) blocks = Ok outs /\
    length outs = length blocks /\ Forall (fun out => length out = (k * D)%nat) outs /\
    forall i c, channel_resamplers_ r !! i = Some c ->
      channel_stream (resampler c) B D (destination c) (map (channel_of k B i) blocks)
        = Ok (map (channel_of k D i) outs).
Proof.
  induction blocks as [|xs blocks IH]; intros n r HR H Hn Hmax B D Hx.
  { exists []. by split_and!. }
  pose proof (Forall_inv Hx) as Hx0. apply Forall_inv_tail in Hx.
  assert (El : zlen (xs :: blocks) = 1 + zlen blocks) by (unfold zlen; cbn; lia).
  assert (0 <= zlen blocks) by (unfold zlen; lia).
  pose proof (wp_Resample a b k n r xs (replicate (k * D) sample_zero) HR H
    ltac:(lia) Hx0 ltac:(apply length_replicate)) as W. cbv zeta in W. fold B D in W.
  apply wp_ok in W as ([[m r'] out] & E & _ & H' & Lo & Hch).
  destruct (IH (n + 1) r' HR H' ltac:(lia) ltac:(lia) Hx) as (outs & Es & Ls & Fs & Hs).
  fold B D in Es, Fs, Hs.
  exists (out :: outs). cbn [resample_stream]. rewrite E, bind_ok, Es.
  split; [done|]. split; [cbn; lia|]. split; [by constructor|].
  intros i c Ec. destruct (Hch i c Ec) as (c' & Ec' & Hstep & Eo).
  cbn [channel_stream map]. rewrite Hstep, bind_ok, (Hs i c' Ec'), bind_ok. by rewrite Eo.
Qed.

End streams.

(** * Theorems *)

(** C23: resampling a stream between two different ones of the usual rates, without 11025 and
    22050 Hz in builds with the checks of clang, for fewer than 2^20 channels, with the class
    for interleaved signals and with either type of samples.  After
    [InitializeIfNeeded] every one of the first [2 ^ 30] calls of [Resample], four
    months of blocks of 10 ms, succeeds: the sinc resampler asks for each block
    exactly once although its index is a rounded [double], no access is out of
    bounds, and the call returns a block at the new rate.  The blocks of a channel
    are those that a [PushSincResampler] of its own makes of this channel. *)
Theorem push_resampler_streams `{LM : Libm, AR : Architecture, BD : Build} {T : Type}
    `{SM : Sample T, !SampleOk T} a b k blocks :
  let B := frames_of a in
  let D := frames_of b in
  rates_ok a b k -> zlen blocks <= max_calls ->
  Forall (fun xs => length xs = (k * B)%nat) blocks ->
  exists r p outs, InitializeIfNeeded PushResampler_new a b k = Ok (0, r) /\
    PushSincResampler_new B D = Ok p /\
    resample_stream r (k * B) (k * D) blocks = Ok outs /\
    length outs = length blocks /\ Forall (fun out => length out = (k * D)%nat) outs /\
    forall i, (i < k)%nat ->
      channel_stream p B D (replicate D sample_zero) (map (channel_of k B i) blocks)
        = Ok (map (channel_of k D i) outs).
Proof.
  intros B D HR Hmax Hx.
  pose proof (wp_PushSincResampler_new B D
    (rates_good a b (ra_src _ _ _ HR) (ra_dst _ _ _ HR))) as W.
  apply wp_ok in W as (p & Ep & _).
  destruct (proj1 (wp_ok _ _) (wp_InitializeIfNeeded a b k HR)) as ([e r] & Er & -> & Hr & Hc).
  destruct (resample_stream_ok a b k blocks 0 r HR Hr) as (outs & Es & Ls & Fs & Hs);
    [lia|lia|done|].
  exists r, p, outs. split_and!; try done. intros i Hi.
  destruct (lookup_lt_is_Some_2 (channel_resamplers_ r) i) as [c Ec].
  { rewrite (pu_count _ _ _ _ _ Hr). lia. }
  pose proof (proj1 (Forall_lookup _ _) (Hc p Ep) i c Ec) as [E1 E2].
  fold D in E2. rewrite <- E1, <- E2. by apply Hs.
Qed.

(** Small angles. *)
Definition small_angles : Libm := {| libm_sin x := x; libm_cos _ := one |}.
Definition with_sse : Architecture := {| sse2 := true |}.
Definition with_clang : Build := {| clang_checks := true |}.

Lemma stereo_rates : @rates_ok with_clang 48000 44100 2.
Proof.
  constructor; [repeat (constructor; try lia)|repeat (constructor; try lia)|done|lia|].
  by intros _.
Qed.

Definition three_blocks : list (list Z) := replicate 3 (replicate (2 * frames_of 48000) 7).

Lemma push_resampler_streams_witness :
  let B := frames_of 48000 in
  let D := frames_of 44100 in
  exists r p outs,
    @InitializeIfNeeded small_angles with_clang Z _ PushResampler_new 48000 44100 2 = Ok (0, r) /\
    @PushSincResampler_new small_angles B D = Ok p /\
    @resample_stream small_angles with_sse with_clang Z _ r (2 * B) (2 * D) three_blocks
      = Ok outs /\
    length outs = 3%nat /\ Forall (fun out => length out = (2 * D)%nat) outs /\
    forall i, (i < 2)%nat ->
      @channel_stream small_angles with_sse Z _ p B D (replicate D sample_zero)
        (map (channel_of 2 B i) three_blocks) = Ok (map (channel_of 2 D i) outs).
Proof.
  apply (@push_resampler_streams small_angles with_sse with_clang Z _ _ 48000 44100 2
           three_blocks).
  - apply stereo_rates.
  - vm_compute. discriminate.
  - unfold three_blocks. by repeat constructor.
Defined.
