(* ===== verification/AudioBuffer.v ===== *)
(** * Audio frames and audio buffers

    [api/audio/audio_frame.{h,cc}], [splitting_filter.{h,cc}] and
    [audio_buffer.{h,cc}]: interleaved frames, the buffer that holds a frame as
    separate channels and bands, and the filter that splits and merges bands.

    [CopyFrom] and [CopyTo], the floating-point interface of the buffer, and the
    members only they use are left out. *)
From S2P Require Import Prelude CInt Spl Numeric Qmf AudioUtil ChannelBuffer SparseFir ThreeBand Double Sinc PushSinc.

(** ** Frames *)

Definition kMaxDataSizeSamples : nat := Z.to_nat 7680.
Definition kVadUnknown : Z := 2.
Definition kUndefined : Z := 4.

Record AudioFrame := MkFrame {
  timestamp_ : Z; elapsed_time_ms_ : Z; ntp_time_ms_ : Z;
  samples_per_channel_ : nat; frame_sample_rate_hz_ : Z; frame_num_channels_ : nat;
  speech_type_ : Z; vad_activity_ : Z; profile_timestamp_ms_ : Z;
  frame_data_ : list Z; muted_ : bool
}.

(** A new frame; the content of the array is indeterminate. *)
Definition AudioFrame_new (memory : list Z) : AudioFrame :=
  MkFrame 0 (-1) (-1) 0 0 0 kUndefined kVadUnknown 0 memory true.

Definition ResetWithoutMuting (f : AudioFrame) : AudioFrame :=
  MkFrame 0 (-1) (-1) 0 0 0 kUndefined kVadUnknown 0 (frame_data_ f) (muted_ f).

Definition Mute (f : AudioFrame) : AudioFrame :=
  MkFrame (timestamp_ f) (elapsed_time_ms_ f) (ntp_time_ms_ f) (samples_per_channel_ f)
    (frame_sample_rate_hz_ f) (frame_num_channels_ f) (speech_type_ f) (vad_activity_ f)
    (profile_timestamp_ms_ f) (frame_data_ f) true.

Definition Reset (f : AudioFrame) : AudioFrame := Mute (ResetWithoutMuting f).

(** The array after a write to it. *)
Definition set_frame_data (d : list Z) (muted : bool) (f : AudioFrame) : AudioFrame :=
  MkFrame (timestamp_ f) (elapsed_time_ms_ f) (ntp_time_ms_ f) (samples_per_channel_ f)
    (frame_sample_rate_hz_ f) (frame_num_channels_ f) (speech_type_ f) (vad_activity_ f)
    (profile_timestamp_ms_ f) d muted.

Definition set_vad_activity (v : Z) (f : AudioFrame) : AudioFrame :=
  MkFrame (timestamp_ f) (elapsed_time_ms_ f) (ntp_time_ms_ f) (samples_per_channel_ f)
    (frame_sample_rate_hz_ f) (frame_num_channels_ f) (speech_type_ f) v
    (profile_timestamp_ms_ f) (frame_data_ f) (muted_ f).

Definition UpdateFrame (f : AudioFrame) (timestamp : Z) (data : option (list Z))
    (samples_per_channel : nat) (sample_rate_hz speech_type vad_activity : Z)
    (num_channels : nat) : res AudioFrame :=
  let f := MkFrame timestamp (elapsed_time_ms_ f) (ntp_time_ms_ f) samples_per_channel
             sample_rate_hz num_channels speech_type vad_activity
             (profile_timestamp_ms_ f) (frame_data_ f) (muted_ f) in
  let length := (samples_per_channel * num_channels)%nat in
  if negb (length <=? kMaxDataSizeSamples)%nat then Fault AssertionFailed else
  match data with
  | Some d =>
      xs ← fetch length 0 d;
      data_ ← put 0 xs (frame_data_ f);
      Ok (set_frame_data data_ false f)
  | None => Ok (Mute f)
  end.

Definition frame_data (f : AudioFrame) : list Z :=
  if muted_ f then replicate kMaxDataSizeSamples 0 else frame_data_ f.

(** [CopyFrom] of another frame. *)
Definition Frame_CopyFrom (f src : AudioFrame) : res AudioFrame :=
  let f := MkFrame (timestamp_ src) (elapsed_time_ms_ src) (ntp_time_ms_ src)
             (samples_per_channel_ src) (frame_sample_rate_hz_ src)
             (frame_num_channels_ src) (speech_type_ src) (vad_activity_ src)
             (profile_timestamp_ms_ f) (frame_data_ f) (muted_ src) in
  let length := (samples_per_channel_ f * frame_num_channels_ f)%nat in
  if negb (length <=? kMaxDataSizeSamples)%nat then Fault AssertionFailed else
  if muted_ src then Ok f else
  xs ← fetch length 0 (frame_data src);
  data_ ← put 0 xs (frame_data_ f);
  Ok (set_frame_data data_ false f).

(** Returns the frame whose array the pointer designates. *)
Definition mutable_data (f : AudioFrame) : AudioFrame :=
  if muted_ f then set_frame_data (replicate kMaxDataSizeSamples 0) false f else f.

(** The clock is read by the caller of these ([now], in milliseconds). *)
Definition UpdateProfileTimeStamp (now : Z) (f : AudioFrame) : AudioFrame :=
  MkFrame (timestamp_ f) (elapsed_time_ms_ f) (ntp_time_ms_ f) (samples_per_channel_ f)
    (frame_sample_rate_hz_ f) (frame_num_channels_ f) (speech_type_ f) (vad_activity_ f)
    now (frame_data_ f) (muted_ f).

Definition ElapsedProfileTimeMs (now : Z) (f : AudioFrame) : Z :=
  if profile_timestamp_ms_ f =? 0 then -1 else now - profile_timestamp_ms_ f.

(** Writing several arrays through an array of pointers. *)
Definition put_all {A} (ptrs : list nat) (xss : list (list A)) (mem : list A)
    : res (list A) :=
  loop (length xss) (fun j mem =>
    p ← rd ptrs (Z.of_nat j); xs ← rd xss (Z.of_nat j); put p xs mem) mem.

(** Reading [k] arrays of [n] elements. *)
Definition fetch_all {A} (n k : nat) (ptrs : list nat) (mem : list A)
    : res (list (list A)) :=
  mapM (fun j => p ← rd ptrs (Z.of_nat j); fetch n p mem) (seq 0 k).

(** ** Splitting filter *)

Record TwoBandsStates := MkStates {
  analysis_state1 : list Z; analysis_state2 : list Z;
  synthesis_state1 : list Z; synthesis_state2 : list Z
}.

Definition TwoBandsStates_new : TwoBandsStates :=
  MkStates (replicate 6 0) (replicate 6 0) (replicate 6 0) (replicate 6 0).

Record SplittingFilter := MkSplitting {
  sf_num_bands : nat;
  two_bands_states_ : list TwoBandsStates;
  three_band_filter_banks_ : list ThreeBandFilterBank
}.

Definition SplittingFilter_new (num_channels num_bands num_frames : nat)
    : res SplittingFilter :=
  if (num_bands =? 2)%nat
  then Ok (MkSplitting 2 (replicate num_channels TwoBandsStates_new) [])
  else if (num_bands =? 3)%nat
  then
    banks ← mapM (fun _ => ThreeBandFilterBank_new num_frames) (seq 0 num_channels);
    Ok (MkSplitting 3 [] banks)
  else Fault AssertionFailed.

(** One channel of [TwoBandsAnalysis]. *)
Definition two_bands_analysis_channel (i : nat)
    (w : list TwoBandsStates * IFChannelBuffer * IFChannelBuffer)
    : res (list TwoBandsStates * IFChannelBuffer * IFChannelBuffer) :=
  let '(states, data, bands) := w in
  data ← ibuf_const data;
  full ← channels (ibuf_ data) 0;
  p ← rd full (Z.of_nat i);
  bands ← ibuf bands;
  lows ← channels (ibuf_ bands) 0;
  highs ← channels (ibuf_ bands) 1;
  low_ptr ← rd lows (Z.of_nat i);
  high_ptr ← rd highs (Z.of_nat i);
  st ← rd states (Z.of_nat i);
  let n := cb_num_frames (ibuf_ data) in
  x ← fetch n p (cb_data (ibuf_ data));
  '(low, high, s1, s2) ←
    WebRtcSpl_AnalysisQMF x n (analysis_state1 st) (analysis_state2 st);
  d ← put low_ptr low (cb_data (ibuf_ bands));
  d ← put high_ptr high d;
  states ← wr states (Z.of_nat i)
             (MkStates s1 s2 (synthesis_state1 st) (synthesis_state2 st));
  Ok (states, data, MkIF (ivalid_ bands) (with_data (ibuf_ bands) d) (fvalid_ bands)
                      (fbuf_ bands)).

Definition TwoBandsAnalysis (sf : SplittingFilter) (data bands : IFChannelBuffer)
    : res (SplittingFilter * IFChannelBuffer * IFChannelBuffer) :=
  if negb (length (two_bands_states_ sf) =? if_num_channels data)%nat
  then Fault AssertionFailed else
  '(states, data, bands) ←
    loop (length (two_bands_states_ sf)) two_bands_analysis_channel
         (two_bands_states_ sf, data, bands);
  Ok (MkSplitting (sf_num_bands sf) states (three_band_filter_banks_ sf), data, bands).

(** One channel of [TwoBandsSynthesis]. *)
Definition two_bands_synthesis_channel (i : nat)
    (w : list TwoBandsStates * IFChannelBuffer * IFChannelBuffer)
    : res (list TwoBandsStates * IFChannelBuffer * IFChannelBuffer) :=
  let '(states, bands, data) := w in
  bands ← ibuf_const bands;
  lows ← channels (ibuf_ bands) 0;
  highs ← channels (ibuf_ bands) 1;
  low_ptr ← rd lows (Z.of_nat i);
  high_ptr ← rd highs (Z.of_nat i);
  data ← ibuf data;
  full ← channels (ibuf_ data) 0;
  p ← rd full (Z.of_nat i);
  st ← rd states (Z.of_nat i);
  let n := cb_num_frames_per_band (ibuf_ bands) in
  low ← fetch n low_ptr (cb_data (ibuf_ bands));
  high ← fetch n high_ptr (cb_data (ibuf_ bands));
  '(x, s1, s2) ←
    WebRtcSpl_SynthesisQMF low high n (synthesis_state1 st) (synthesis_state2 st);
  d ← put p x (cb_data (ibuf_ data));
  states ← wr states (Z.of_nat i)
             (MkStates (analysis_state1 st) (analysis_state2 st) s1 s2);
  Ok (states, bands, MkIF (ivalid_ data) (with_data (ibuf_ data) d) (fvalid_ data)
                       (fbuf_ data)).

Definition TwoBandsSynthesis (sf : SplittingFilter) (bands data : IFChannelBuffer)
    : res (SplittingFilter * IFChannelBuffer * IFChannelBuffer) :=
  if negb (if_num_channels data <=? length (two_bands_states_ sf))%nat
  then Fault AssertionFailed else
  '(states, bands, data) ←
    loop (if_num_channels data) two_bands_synthesis_channel
         (two_bands_states_ sf, bands, data);
  Ok (MkSplitting (sf_num_bands sf) states (three_band_filter_banks_ sf), bands, data).

(** One channel of [ThreeBandsAnalysis] and of [ThreeBandsSynthesis]. *)
Definition three_bands_analysis_channel (i : nat)
    (w : list ThreeBandFilterBank * IFChannelBuffer * IFChannelBuffer)
    : res (list ThreeBandFilterBank * IFChannelBuffer * IFChannelBuffer) :=
  let '(banks, data, bands) := w in
  data ← fbuf_const data;
  full ← channels (fbuf_ data) 0;
  p ← rd full (Z.of_nat i);
  bands ← fbuf bands;
  ptrs ← ChannelBuffer.bands (fbuf_ bands) i;
  bank ← rd banks (Z.of_nat i);
  let n := cb_num_frames (fbuf_ data) in
  x ← fetch n p (cb_data (fbuf_ data));
  '(bank, split) ← ThreeBand.Analysis bank x n;
  d ← put_all ptrs split (cb_data (fbuf_ bands));
  banks ← wr banks (Z.of_nat i) bank;
  Ok (banks, data, MkIF (ivalid_ bands) (ibuf_ bands) (fvalid_ bands)
                     (with_data (fbuf_ bands) d)).

Definition three_bands_synthesis_channel (i : nat)
    (w : list ThreeBandFilterBank * IFChannelBuffer * IFChannelBuffer)
    : res (list ThreeBandFilterBank * IFChannelBuffer * IFChannelBuffer) :=
  let '(banks, bands, data) := w in
  bands ← fbuf_const bands;
  ptrs ← ChannelBuffer.bands (fbuf_ bands) i;
  data ← fbuf data;
  full ← channels (fbuf_ data) 0;
  p ← rd full (Z.of_nat i);
  bank ← rd banks (Z.of_nat i);
  let n := cb_num_frames_per_band (fbuf_ bands) in
  split ← fetch_all n (cb_num_bands (fbuf_ bands)) ptrs (cb_data (fbuf_ bands));
  '(bank, x) ← ThreeBand.Synthesis bank split n;
  d ← put p x (cb_data (fbuf_ data));
  banks ← wr banks (Z.of_nat i) bank;
  Ok (banks, bands, MkIF (ivalid_ data) (ibuf_ data) (fvalid_ data)
                      (with_data (fbuf_ data) d)).

Definition ThreeBandsAnalysis (sf : SplittingFilter) (data bands : IFChannelBuffer)
    : res (SplittingFilter * IFChannelBuffer * IFChannelBuffer) :=
  if negb (length (three_band_filter_banks_ sf) =? if_num_channels data)%nat
  then Fault AssertionFailed else
  '(banks, data, bands) ←
    loop (length (three_band_filter_banks_ sf)) three_bands_analysis_channel
      (three_band_filter_banks_ sf, data, bands);
  Ok (MkSplitting (sf_num_bands sf) (two_bands_states_ sf) banks, data, bands).

Definition ThreeBandsSynthesis (sf : SplittingFilter) (bands data : IFChannelBuffer)
    : res (SplittingFilter * IFChannelBuffer * IFChannelBuffer) :=
  if negb (if_num_channels data <=? length (three_band_filter_banks_ sf))%nat
  then Fault AssertionFailed else
  '(banks, bands, data) ←
    loop (if_num_channels data) three_bands_synthesis_channel
      (three_band_filter_banks_ sf, bands, data);
  Ok (MkSplitting (sf_num_bands sf) (two_bands_states_ sf) banks, bands, data).

(** The checks both directions share. *)
Definition shapes_match (sf : SplittingFilter) (data bands : IFChannelBuffer) : bool :=
  (sf_num_bands sf =? cb_num_bands (ibuf_ bands))%nat &&
  (if_num_channels data =? if_num_channels bands)%nat &&
  (cb_num_frames (ibuf_ data) =?
     cb_num_frames_per_band (ibuf_ bands) * cb_num_bands (ibuf_ bands))%nat.

Definition Analysis (sf : SplittingFilter) (data bands : IFChannelBuffer)
    : res (SplittingFilter * IFChannelBuffer * IFChannelBuffer) :=
  if negb (shapes_match sf data bands) then Fault AssertionFailed else
  if (cb_num_bands (ibuf_ bands) =? 2)%nat then TwoBandsAnalysis sf data bands
  else if (cb_num_bands (ibuf_ bands) =? 3)%nat then ThreeBandsAnalysis sf data bands
  else Ok (sf, data, bands).

Definition Synthesis (sf : SplittingFilter) (bands data : IFChannelBuffer)
    : res (SplittingFilter * IFChannelBuffer * IFChannelBuffer) :=
  if negb (shapes_match sf data bands) then Fault AssertionFailed else
  if (cb_num_bands (ibuf_ bands) =? 2)%nat then TwoBandsSynthesis sf bands data
  else if (cb_num_bands (ibuf_ bands) =? 3)%nat then ThreeBandsSynthesis sf bands data
  else Ok (sf, bands, data).

(** ** Audio buffer *)

Definition kSamplesPer16kHzChannel : nat := 160.
Definition kSamplesPer32kHzChannel : nat := 320.
Definition kSamplesPer48kHzChannel : nat := 480.

Definition NumBandsFromSamplesPerChannel (num_frames : nat) : res nat :=
  if (num_frames =? kSamplesPer32kHzChannel)%nat ||
     (num_frames =? kSamplesPer48kHzChannel)%nat
  then CheckedDivExact num_frames kSamplesPer16kHzChannel
  else Ok 1%nat.

Section resamplers.
Context `{LM : Libm, AR : Architecture}.

Record AudioBuffer := MkBuffer {
  input_num_frames_ : nat; num_input_channels_ : nat; proc_num_frames_ : nat;
  num_proc_channels_ : nat; output_num_frames_ : nat; num_channels_ : nat;
  num_bands_ : nat; num_split_frames_ : nat;
  mixed_low_pass_valid_ : bool; reference_copied_ : bool; activity_ : Z;
  data_ : IFChannelBuffer; split_data_ : option IFChannelBuffer;
  splitting_filter_ : option SplittingFilter;
  mixed_low_pass_channels_ : option (ChannelBuffer Z);
  low_pass_reference_channels_ : option (ChannelBuffer Z);
  input_buffer_ : option IFChannelBuffer; output_buffer_ : IFChannelBuffer;
  input_resamplers_ : list PushSincResampler; output_resamplers_ : list PushSincResampler;
  process_buffer_ : option (ChannelBuffer float); keyboard_data_ : option (list float)
}.

Definition buffer_eta (b : AudioBuffer) : AudioBuffer :=
  MkBuffer (input_num_frames_ b) (num_input_channels_ b) (proc_num_frames_ b)
    (num_proc_channels_ b) (output_num_frames_ b) (num_channels_ b) (num_bands_ b)
    (num_split_frames_ b) (mixed_low_pass_valid_ b) (reference_copied_ b) (activity_ b)
    (data_ b) (split_data_ b) (splitting_filter_ b) (mixed_low_pass_channels_ b)
    (low_pass_reference_channels_ b) (input_buffer_ b) (output_buffer_ b)
    (input_resamplers_ b) (output_resamplers_ b) (process_buffer_ b) (keyboard_data_ b).

Definition set_num_channels_ : nat -> AudioBuffer -> AudioBuffer :=
  ltac:(field_setter buffer_eta num_channels_).
Definition set_mixed_valid : bool -> AudioBuffer -> AudioBuffer :=
  ltac:(field_setter buffer_eta mixed_low_pass_valid_).
Definition set_reference_copied : bool -> AudioBuffer -> AudioBuffer :=
  ltac:(field_setter buffer_eta reference_copied_).
Definition set_activity : Z -> AudioBuffer -> AudioBuffer :=
  ltac:(field_setter buffer_eta activity_).
Definition set_data : IFChannelBuffer -> AudioBuffer -> AudioBuffer :=
  ltac:(field_setter buffer_eta data_).
Definition set_split_data : option IFChannelBuffer -> AudioBuffer -> AudioBuffer :=
  ltac:(field_setter buffer_eta split_data_).
Definition set_splitting_filter : option SplittingFilter -> AudioBuffer -> AudioBuffer :=
  ltac:(field_setter buffer_eta splitting_filter_).
Definition set_mixed_channels : option (ChannelBuffer Z) -> AudioBuffer -> AudioBuffer :=
  ltac:(field_setter buffer_eta mixed_low_pass_channels_).
Definition set_reference_channels
    : option (ChannelBuffer Z) -> AudioBuffer -> AudioBuffer :=
  ltac:(field_setter buffer_eta low_pass_reference_channels_).
Definition set_input_buffer : option IFChannelBuffer -> AudioBuffer -> AudioBuffer :=
  ltac:(field_setter buffer_eta input_buffer_).
Definition set_output_buffer : IFChannelBuffer -> AudioBuffer -> AudioBuffer :=
  ltac:(field_setter buffer_eta output_buffer_).
Definition set_input_resamplers : list PushSincResampler -> AudioBuffer -> AudioBuffer :=
  ltac:(field_setter buffer_eta input_resamplers_).
Definition set_output_resamplers : list PushSincResampler -> AudioBuffer -> AudioBuffer :=
  ltac:(field_setter buffer_eta output_resamplers_).
Definition set_process_buffer : option (ChannelBuffer float) -> AudioBuffer -> AudioBuffer :=
  ltac:(field_setter buffer_eta process_buffer_).
Definition set_keyboard_data : option (list float) -> AudioBuffer -> AudioBuffer :=
  ltac:(field_setter buffer_eta keyboard_data_).

Definition AudioBuffer_new (input_num_frames num_input_channels process_num_frames
    num_process_channels output_num_frames : nat) : res AudioBuffer :=
  num_bands ← NumBandsFromSamplesPerChannel process_num_frames;
  num_split_frames ← CheckedDivExact process_num_frames num_bands;
  data ← IFChannelBuffer_new process_num_frames num_process_channels 1;
  output ← IFChannelBuffer_new output_num_frames num_process_channels 1;
  if negb ((0 <? input_num_frames) && (0 <? process_num_frames) &&
           (0 <? output_num_frames) && (0 <? num_input_channels) &&
           (0 <? num_process_channels) &&
           (num_process_channels <=? num_input_channels))%nat
  then Fault AssertionFailed else
  process_buffer ←
    (if negb (input_num_frames =? process_num_frames)%nat ||
        negb (output_num_frames =? process_num_frames)%nat
     then x ← ChannelBuffer_new fzero process_num_frames num_process_channels 1; Ok (Some x)
     else Ok None);
  input_resamplers ←
    (if negb (input_num_frames =? process_num_frames)%nat
     then mapM (fun _ => PushSincResampler_new input_num_frames process_num_frames)
            (seq 0 num_process_channels) else Ok []);
  output_resamplers ←
    (if negb (output_num_frames =? process_num_frames)%nat
     then mapM (fun _ => PushSincResampler_new process_num_frames output_num_frames)
            (seq 0 num_process_channels) else Ok []);
  '(split, filter) ←
    (if (1 <? num_bands)%nat
     then split ← IFChannelBuffer_new process_num_frames num_process_channels num_bands;
          filter ← SplittingFilter_new num_process_channels num_bands process_num_frames;
          Ok (Some split, Some filter)
     else Ok (None, None));
  Ok (MkBuffer input_num_frames num_input_channels process_num_frames
        num_process_channels output_num_frames num_process_channels num_bands
        num_split_frames false false kVadUnknown data split filter None None None output
        input_resamplers output_resamplers process_buffer None).

(** The buffer changes the visible channels of [data_] and [split_data_]. *)
Definition buffer_set_num_channels (b : AudioBuffer) (num_channels : nat)
    : res AudioBuffer :=
  let b := set_num_channels_ num_channels b in
  data ← if_set_num_channels (data_ b) num_channels;
  let b := set_data data b in
  match split_data_ b with
  | Some split => split ← if_set_num_channels split num_channels;
                  Ok (set_split_data (Some split) b)
  | None => Ok b
  end.

Definition InitForNewData (b : AudioBuffer) : res AudioBuffer :=
  let b := b |> set_keyboard_data None |> set_mixed_valid false
             |> set_reference_copied false |> set_activity kVadUnknown in
  buffer_set_num_channels b (num_proc_channels_ b).

(** [split_bands(channel)] and [split_bands_const(channel)]: the pointers are into
    [split_data_], or into [data_] where there is none. *)
Definition split_buffer (b : AudioBuffer) : IFChannelBuffer :=
  match split_data_ b with Some split => split | None => data_ b end.

Definition set_split_buffer (x : IFChannelBuffer) (b : AudioBuffer) : AudioBuffer :=
  match split_data_ b with
  | Some _ => set_split_data (Some x) b
  | None => set_data x b
  end.

Definition split_bands (b : AudioBuffer) (channel : nat) : res (list nat * AudioBuffer) :=
  let b := set_mixed_valid false b in
  x ← ibuf (split_buffer b);
  ptrs ← bands (ibuf_ x) channel;
  Ok (ptrs, set_split_buffer x b).

Definition split_bands_const (b : AudioBuffer) (channel : nat)
    : res (list nat * AudioBuffer) :=
  x ← ibuf_const (split_buffer b);
  ptrs ← bands (ibuf_ x) channel;
  Ok (ptrs, set_split_buffer x b).

(** The samples behind such pointers, and writes through them. *)
Definition split_samples (b : AudioBuffer) : list Z := cb_data (ibuf_ (split_buffer b)).

Definition store_split (d : list Z) (b : AudioBuffer) : AudioBuffer :=
  let x := split_buffer b in
  set_split_buffer (MkIF (ivalid_ x) (with_data (ibuf_ x) d) (fvalid_ x) (fbuf_ x)) b.

Definition kBand0To8kHz : nat := 0.

(** Returns the samples the pointer designates. *)
Definition mixed_low_pass_data (b : AudioBuffer) : res (list Z * AudioBuffer) :=
  if (num_proc_channels_ b =? 1)%nat then
    '(ptrs, b) ← split_bands_const b 0;
    p ← rd ptrs (Z.of_nat kBand0To8kHz);
    x ← fetch (num_split_frames_ b) p (split_samples b);
    Ok (x, b)
  else
    b ← (if mixed_low_pass_valid_ b then Ok b else
      mixed ← match mixed_low_pass_channels_ b with
              | Some m => Ok m
              | None => ChannelBuffer_new 0 (num_split_frames_ b) 1 1
              end;
      x ← ibuf_const (split_buffer b);
      ptrs ← channels (ibuf_ x) kBand0To8kHz;
      let b := set_split_buffer x b in
      out ← DownmixToMono (split_samples b) ptrs (num_split_frames_ b) (num_channels_ b);
      first ← channels mixed 0;
      p ← rd first 0;
      d ← put p out (cb_data mixed);
      Ok (b |> set_mixed_channels (Some (with_data mixed d)) |> set_mixed_valid true));
    match mixed_low_pass_channels_ b with
    | None => Fault NullPointer
    | Some m =>
        first ← channels m 0;
        p ← rd first 0;
        x ← fetch (num_split_frames_ b) p (cb_data m);
        Ok (x, b)
    end.

(** [low_pass_reference(channel)]: [None] is the null pointer. *)
Definition low_pass_reference (b : AudioBuffer) (channel : nat) : res (option (list Z)) :=
  if negb (reference_copied_ b) then Ok None else
  match low_pass_reference_channels_ b with
  | None => Fault NullPointer
  | Some r =>
      ptrs ← channels r 0;
      p ← rd ptrs (Z.of_nat channel);
      x ← fetch (cb_num_frames r) p (cb_data r);
      Ok (Some x)
  end.

Definition CopyLowPassToReference (b : AudioBuffer) : res AudioBuffer :=
  let b := set_reference_copied true b in
  reference ← match low_pass_reference_channels_ b with
              | Some r => if (cb_num_channels r =? num_channels_ b)%nat then Ok r
                          else ChannelBuffer_new 0 (num_split_frames_ b)
                                 (num_proc_channels_ b) 1
              | None => ChannelBuffer_new 0 (num_split_frames_ b) (num_proc_channels_ b) 1
              end;
  '(b, reference) ← loop (num_proc_channels_ b) (fun i '(b, reference) =>
    dst ← channels reference 0;
    q ← rd dst (Z.of_nat i);
    '(ptrs, b) ← split_bands_const b i;
    p ← rd ptrs (Z.of_nat kBand0To8kHz);
    x ← fetch (cb_num_frames_per_band reference) p (split_samples b);
    d ← put q x (cb_data reference);
    Ok (b, with_data reference d)) (b, reference);
  Ok (set_reference_channels (Some reference) b).

(** The [len] samples of [source] through the resampler of channel [i], into that
    channel of [dst], of [n] frames.  The array for the result is the memory from the
    pointer on. *)
Definition push_channel (i n : nat) (source : list float) (len : nat)
    (dst : ChannelBuffer float) (rs : list PushSincResampler)
    : res (ChannelBuffer float * list PushSincResampler) :=
  r ← rd rs (Z.of_nat i);
  to ← channels dst 0;
  q ← rd to (Z.of_nat i);
  '(_, r, y) ← push_float r (Some source) len (drop q (cb_data dst)) n;
  let d := take q (cb_data dst) ++ y in
  rs ← wr rs (Z.of_nat i) r;
  Ok (with_data dst d, rs).

(** From a float buffer into another. *)
Definition resample_channel (i n : nat) (src dst : ChannelBuffer float)
    (rs : list PushSincResampler) : res (ChannelBuffer float * list PushSincResampler) :=
  from ← channels src 0;
  p ← rd from (Z.of_nat i);
  push_channel i n (drop p (cb_data src)) (cb_num_frames src) dst rs.

(** The first [k] channels, from [x] into [y] of [n] frames; the source is accessed
    by [fbuf_const] or [fbuf]. *)
Definition resample_all (access : IFChannelBuffer -> res IFChannelBuffer) (k n : nat)
    (x y : IFChannelBuffer) (rs : list PushSincResampler)
    : res (IFChannelBuffer * IFChannelBuffer * list PushSincResampler) :=
  loop k (fun i '(x, y, rs) =>
    x ← access x;
    y ← fbuf y;
    '(f, rs) ← resample_channel i n (fbuf_ x) (fbuf_ y) rs;
    Ok (x, MkIF (ivalid_ y) (ibuf_ y) (fvalid_ y) f, rs)) (x, y, rs).

(** Separates or downmixes the channels of a frame into [x]. *)
Definition deinterleave_into (b : AudioBuffer) (frame : list Z) (x : IFChannelBuffer)
    : res IFChannelBuffer :=
  x ← ibuf x;
  ptrs ← channels (ibuf_ x) 0;
  d ← (if (num_proc_channels_ b =? 1)%nat then
         out ← DownmixInterleavedToMono frame (input_num_frames_ b)
                 (num_input_channels_ b);
         p ← rd ptrs 0;
         put p out (cb_data (ibuf_ x))
       else if negb (num_proc_channels_ b =? num_input_channels_ b)%nat
       then Fault AssertionFailed
       else Deinterleave frame (input_num_frames_ b) (num_proc_channels_ b) ptrs
              (cb_data (ibuf_ x)));
  Ok (MkIF (ivalid_ x) (with_data (ibuf_ x) d) (fvalid_ x) (fbuf_ x)).

Definition DeinterleaveFrom (b : AudioBuffer) (frame : AudioFrame) : res AudioBuffer :=
  if negb (frame_num_channels_ frame =? num_input_channels_ b)%nat ||
     negb (samples_per_channel_ frame =? input_num_frames_ b)%nat
  then Fault AssertionFailed else
  b ← InitForNewData b;
  let b := set_activity (vad_activity_ frame) b in
  if (input_num_frames_ b =? proc_num_frames_ b)%nat then
    x ← deinterleave_into b (frame_data frame) (data_ b);
    Ok (set_data x b)
  else
    input ← match input_buffer_ b with
            | Some x => Ok x
            | None => IFChannelBuffer_new (input_num_frames_ b) (num_proc_channels_ b) 1
            end;
    input ← deinterleave_into b (frame_data frame) input;
    '(input, data, rs) ← resample_all fbuf_const (num_proc_channels_ b) (proc_num_frames_ b)
                           input (data_ b) (input_resamplers_ b);
    Ok (b |> set_input_buffer (Some input) |> set_data data |> set_input_resamplers rs).

Definition InterleaveTo (b : AudioBuffer) (frame : AudioFrame) (data_changed : bool)
    : res (AudioBuffer * AudioFrame) :=
  let frame := set_vad_activity (activity_ b) frame in
  if negb data_changed then Ok (b, frame) else
  if negb ((frame_num_channels_ frame =? num_channels_ b)%nat || (num_channels_ b =? 1)%nat)
     || negb (samples_per_channel_ frame =? output_num_frames_ b)%nat
  then Fault AssertionFailed else
  '(b, x) ← (if (proc_num_frames_ b =? output_num_frames_ b)%nat
             then x ← ibuf (data_ b); Ok (set_data x b, x)
             else
               '(data, out, rs) ← resample_all fbuf (num_channels_ b) (output_num_frames_ b)
                                    (data_ b) (output_buffer_ b) (output_resamplers_ b);
               x ← ibuf out;
               Ok (b |> set_data data |> set_output_buffer x |> set_output_resamplers rs,
                   x));
  ptrs ← channels (ibuf_ x) 0;
  let frame := mutable_data frame in
  d ← (if (frame_num_channels_ frame =? num_channels_ b)%nat then
         Interleave (cb_data (ibuf_ x)) ptrs (output_num_frames_ b) (num_channels_ b)
           (frame_data_ frame)
       else p ← rd ptrs 0;
            UpmixMonoToInterleaved (cb_data (ibuf_ x)) p (output_num_frames_ b)
              (frame_num_channels_ frame) (frame_data_ frame));
  Ok (b, set_frame_data d false frame).

Definition SplitIntoFrequencyBands (b : AudioBuffer) : res AudioBuffer :=
  match splitting_filter_ b, split_data_ b with
  | Some sf, Some split =>
      '(sf, data, split) ← Analysis sf (data_ b) split;
      Ok (b |> set_splitting_filter (Some sf) |> set_data data
            |> set_split_data (Some split))
  | _, _ => Fault NullPointer
  end.

Definition MergeFrequencyBands (b : AudioBuffer) : res AudioBuffer :=
  match splitting_filter_ b, split_data_ b with
  | Some sf, Some split =>
      '(sf, split, data) ← Synthesis sf split (data_ b);
      Ok (b |> set_splitting_filter (Some sf) |> set_data data
            |> set_split_data (Some split))
  | _, _ => Fault NullPointer
  end.

(** * Lemmas *)

(** ** Shapes *)

(** [nf] frames in [nb] bands, room for [n] channels, [k] of them visible. *)
Record shape {A} (nf nb n k : nat) (b : ChannelBuffer A) : Prop := {
  sh_ok : cb_ok b;
  sh_frames : cb_num_frames b = nf;
  sh_bands : cb_num_bands b = nb;
  sh_split : cb_num_frames_per_band b = (nf / nb)%nat;
  sh_alloc : cb_num_allocated_channels b = n;
  sh_channels : cb_num_channels b = k
}.

Lemma shape_data {A} nf nb n k (b : ChannelBuffer A) d :
  shape nf nb n k b -> length d = length (cb_data b) -> shape nf nb n k (with_data b d).
Proof. intros [] Hd. constructor; try done. by apply cb_ok_data. Qed.

Lemma shape_visible {A} nf nb n k k' (b : ChannelBuffer A) :
  shape nf nb n k b -> (k' <= n)%nat ->
  exists b', set_num_channels b k' = Ok b' /\ shape nf nb n k' b' /\ cb_data b' = cb_data b.
Proof.
  intros [H P1 P2 P3 P4 P5] Hk.
  destruct (cb_ok_visible b k' H ltac:(lia)) as (i & Ei & Hi & Di & A1 & A2 & A3 & A4 & A5).
  exists i. split; [done|]. split; [|done]. constructor; try congruence. apply A5.
Qed.

(** Length of the array. *)
Lemma shape_length {A} nf nb n k (b : ChannelBuffer A) :
  shape nf nb n k b -> length (cb_data b) = (nf * n)%nat.
Proof. intros [H <- _ _ <- _]. apply (cb_size _ H). Qed.

(** The pointers of the buffer. *)
Lemma shape_channel_pointers {A} nf nb n k (b : ChannelBuffer A) j :
  shape nf nb n k b -> (j < nb)%nat ->
  exists ptrs, channels b j = Ok ptrs /\
    (forall i, (i < n)%nat -> ptrs !! i = Some (i * nf + j * (nf / nb))%nat) /\
    pointers_ok (nf / nb) n ptrs (cb_data b) /\
    (j = 0%nat -> pointers_ok nf n ptrs (cb_data b)).
Proof.
  intros [Hi P1 P2 P3 P4 P5] Hj.
  eexists. split; [apply channels_ok; lia|]. split; [|split].
  - intros i Hi'. rewrite (channel_pointer _ i j Hi) by lia. unfold cb_start. by rewrite P1, P3.
  - rewrite <- P3. apply channels_pointers; [done|lia|lia].
  - intros ->. rewrite <- P1. apply frames_pointers; [done|lia|lia].
Qed.

Lemma shape_band_pointers {A} nf nb n k (b : ChannelBuffer A) i :
  shape nf nb n k b -> (i < k)%nat ->
  exists ptrs, bands b i = Ok ptrs /\
    (forall j, (j < nb)%nat -> ptrs !! j = Some (i * nf + j * (nf / nb))%nat) /\
    pointers_ok (nf / nb) nb ptrs (cb_data b).
Proof.
  intros [H P1 P2 P3 P4 P5] Hi.
  pose proof (cb_visible _ H). eexists. split; [apply bands_ok_ptr; lia|].
  assert (P : forall j, (j < nb)%nat -> drop (i * cb_num_bands b) (cb_bands b)
     !! j = Some (cb_start b i j)).
  { intros j Hj. apply band_pointer; [done|lia|lia]. }
  split; [intros j Hj; rewrite P by done; unfold cb_start; by rewrite P1, P3|].
  rewrite <- P3. constructor.
  - apply (table_count (cb_start b i)). exact P.
  - intros j p Hj Ep. rewrite P in Ep by done. injection Ep as <-.
    apply cb_start_range; [done|lia|lia].
  - intros j j' p q Hj Hj' Hne Ep Eq. rewrite P in Ep, Eq by done.
    injection Ep as <-. injection Eq as <-.
    apply cb_start_apart; [done|lia|lia|by right].
Qed.

(** Both sides of a buffer have the shape, and one of them is up to date. *)
Record plain (nf nb n k : nat) (x : IFChannelBuffer) : Prop := {
  pl_int : shape nf nb n k (ibuf_ x);
  pl_float : shape nf nb n k (fbuf_ x);
  pl_valid : ivalid_ x || fvalid_ x = true;
  pl_some : (0 < nb)%nat;
  plain_samples : Forall i16 (cb_data (ibuf_ x))
}.

Lemma plain_if_ok nf nb n k x : plain nf nb n k x -> if_ok x.
Proof.
  intros [[H A1 A2 A3 A4 A5] [H' B1 B2 B3 B4 B5] Hv Hb H16].
  constructor; try done; [lia|]. split_and!; congruence.
Qed.

Lemma plain_channels nf nb n k x : plain nf nb n k x -> if_num_channels x = k.
Proof. intros [[] [] _ _ _]. unfold if_num_channels. by destruct (ivalid_ x). Qed.

Lemma plain_new nf n nb :
  (0 < nb)%nat ->
  wp (IFChannelBuffer_new nf n nb) (fun x => plain nf nb n n x /\ ivalid_ x = true).
Proof.
  intros Hb. unfold IFChannelBuffer_new.
  apply wp_bind. eapply wp_mono; [by apply wp_ChannelBuffer_new|].
  intros i (Hi & Di & I1 & I2 & I3 & I4 & I5).
  apply wp_bind. eapply wp_mono; [by apply wp_ChannelBuffer_new|].
  intros f (Hf & Df & F1 & F2 & F3 & F4 & F5).
  apply wp_ret. split; [|done]. constructor; cbn; try done.
  rewrite Di. apply Forall_replicate. unfold i16. lia.
Qed.

Lemma plain_visible nf nb n k k' x :
  plain nf nb n k x -> (k' <= n)%nat ->
  wp (if_set_num_channels x k') (fun x' => plain nf nb n k' x' /\
    ivalid_ x' = ivalid_ x /\ cb_data (ibuf_ x') = cb_data (ibuf_ x)).
Proof.
  intros [Hi Hf Hv Hb H16] Hk.
  destruct (shape_visible _ _ _ _ _ _ Hi Hk) as (i & Ei & Hi' & Di).
  destruct (shape_visible _ _ _ _ _ _ Hf Hk) as (f & Ef & Hf' & Df).
  unfold if_set_num_channels. rewrite Ei, bind_ok, Ef, bind_ok. apply wp_ret.
  split; [|done]. constructor; try done. cbn. by rewrite Di.
Qed.

(** The integer samples of a buffer: what read access to them gives. *)
Definition ints (x : IFChannelBuffer) : list Z :=
  match ibuf_const x with Ok x' => cb_data (ibuf_ x') | Fault _ => [] end.

Lemma ints_valid x : ivalid_ x = true -> ints x = cb_data (ibuf_ x).
Proof. intros E. unfold ints, ibuf_const, RefreshI. by rewrite E. Qed.

Lemma plain_const nf nb n k x :
  plain nf nb n k x -> exists x', ibuf_const x = Ok x' /\ plain nf nb n k x' /\
    ivalid_ x' = true /\ cb_data (ibuf_ x') = ints x.
Proof.
  intros H. unfold ints. pose proof H as [Hi Hf Hv Hb H16]. unfold ibuf_const.
  destruct (ivalid_ x) eqn:E.
  { exists x. unfold RefreshI. by rewrite E. }
  destruct (proj1 (wp_ok _ _) (wp_RefreshI x (plain_if_ok _ _ _ _ _ H) E))
    as (x' & -> & Hok & Ef & Ev & Efv & Ek & _).
  exists x'. split; [done|]. split; [|done]. destruct Hok as [O1 O2 O3 O4 (S1 & S2 & S3 & S4) O6].
  rewrite Ef in *. constructor; try done; [|by rewrite Ef].
  destruct Hf as [_ F1 F2 F3 F4 F5]. constructor; [done|..]; congruence.
Qed.

Lemma plain_ibuf nf nb n k x :
  plain nf nb n k x -> exists x', ibuf x = Ok x' /\ plain nf nb n k x' /\
    ivalid_ x' = true /\ cb_data (ibuf_ x') = ints x.
Proof.
  intros H. destruct (plain_const _ _ _ _ _ H) as (y & E & [Hi Hf Hv Hb H16] & Ev & Ed).
  unfold ibuf, ibuf_const in *. rewrite E, bind_ok. eexists. split; [done|].
  split; [|done]. constructor; try done. cbn. by rewrite Ev.
Qed.

Lemma plain_ints nf nb n k x :
  plain nf nb n k x -> Forall i16 (ints x) /\ length (ints x) = (nf * n)%nat.
Proof.
  intros H. destruct (plain_const _ _ _ _ _ H) as (y & E & Hy & Ev & <-).
  split; [apply Hy|]. eapply shape_length. apply Hy.
Qed.

Lemma plain_length nf nb n k x :
  plain nf nb n k x -> length (cb_data (ibuf_ x)) = (nf * n)%nat.
Proof. intros H. eapply shape_length. apply H. Qed.

(** Access to the floats. *)
Lemma plain_fconst nf nb n k x :
  plain nf nb n k x -> wp (fbuf_const x) (fun x' => plain nf nb n k x' /\
    fvalid_ x' = true /\ ivalid_ x' = ivalid_ x /\ ibuf_ x' = ibuf_ x).
Proof.
  intros H. pose proof H as [Hi Hf Hv Hb H16]. unfold fbuf_const.
  destruct (fvalid_ x) eqn:E.
  { unfold RefreshF. rewrite E. by apply wp_ret. }
  eapply wp_mono; [by apply (wp_RefreshF x (plain_if_ok _ _ _ _ _ H) E)|].
  intros x' ([O1 O2 O3 O4 (S1 & S2 & S3 & S4) O6] & Ei & Eiv & Ev & Ek & _).
  rewrite Ei in *. rewrite orb_false_r in Hv. split; [|by rewrite Eiv, Hv].
  constructor; try done; try (by rewrite Ei).
  destruct Hi as [_ I1 I2 I3 I4 I5]. constructor; [done|..]; congruence.
Qed.

Lemma plain_fbuf nf nb n k x :
  plain nf nb n k x -> wp (fbuf x) (fun x' => plain nf nb n k x' /\ fvalid_ x' = true).
Proof.
  intros H. unfold fbuf. apply wp_bind. eapply wp_mono; [by apply plain_fconst|].
  intros y ([Hi Hf Hv Hb H16] & Ev & _). apply wp_ret. split; [|done]. constructor; try done.
Qed.

(** The buffer after writes to its integers, or to its floats. *)
Lemma plain_written nf nb n k x d v :
  plain nf nb n k x -> ivalid_ x = true -> length d = length (cb_data (ibuf_ x)) ->
  Forall i16 d ->
  plain nf nb n k (MkIF (ivalid_ x) (with_data (ibuf_ x) d) v (fbuf_ x)).
Proof.
  intros [Hi Hf Hv Hb H16] Ev Hd Hd16. constructor; try done; cbn.
  - by apply shape_data.
  - by rewrite Ev.
Qed.

Lemma plain_fwritten nf nb n k x d v :
  plain nf nb n k x -> fvalid_ x = true -> length d = length (cb_data (fbuf_ x)) ->
  plain nf nb n k (MkIF v (ibuf_ x) (fvalid_ x) (with_data (fbuf_ x) d)).
Proof.
  intros [Hi Hf Hv Hb H16] Ev Hd. constructor; try done; cbn.
  - by apply shape_data.
  - by rewrite Ev, orb_true_r.
Qed.

Lemma wrote_Forall {A} (P : A -> Prop) p xs (mem mem' : list A) :
  wrote (at_range p xs) mem mem' -> Forall P xs -> Forall P mem -> Forall P mem'.
Proof.
  intros [L H] Hx Hm. apply Forall_lookup_2. intros a v Hv.
  pose proof (lookup_lt_Some _ _ _ Hv) as Ha. rewrite H in Hv by lia. unfold at_range in Hv.
  destruct (decide (p <= a)%nat); [|by eapply Forall_lookup_1].
  destruct (xs !! (a - p)%nat) eqn:E; [|by eapply Forall_lookup_1].
  injection Hv as <-. exact (Forall_lookup_1 _ _ _ _ Hx E).
Qed.

(** Writing samples keeps the length and the range of the array. *)
Lemma wp_put_samples p xs mem :
  (p + length xs <= length mem)%nat -> Forall i16 xs -> Forall i16 mem ->
  wp (put p xs mem) (fun m => wrote (at_range p xs) mem m /\ length m = length mem /\
    Forall i16 m).
Proof.
  intros Hp Hx Hm. eapply wp_mono; [by apply wp_put|]. intros m Hw.
  split; [done|]. split; [apply Hw|]. by eapply wrote_Forall.
Qed.

(** ** Two bands *)

Definition states_ok (s : TwoBandsStates) : Prop :=
  analysis_ok (analysis_state1 s) (analysis_state2 s) /\
  synthesis_ok (synthesis_state1 s) (synthesis_state2 s).

Lemma states_ok_new : states_ok TwoBandsStates_new.
Proof. split; [apply analysis_ok_zero|apply synthesis_ok_zero]. Qed.

Lemma half_frames h : (2 * h / 2 = h)%nat.
Proof. by rewrite Nat.mul_comm, Nat.div_mul. Qed.

Lemma wp_two_bands_analysis_channel h n k i states data bands :
  plain (2 * h) 1 n k data -> plain (2 * h) 2 n k bands -> length states = n ->
  Forall states_ok states -> (i < n)%nat -> (0 < h <= kMaxBandFrameLength)%nat ->
  wp (two_bands_analysis_channel i (states, data, bands)) (fun '(states', data', bands') =>
    plain (2 * h) 1 n k data' /\ length states' = n /\ Forall states_ok states' /\
    plain (2 * h) 2 n k bands').
Proof.
  intros Hd0 Hb0 Hn Hst Hi Hh. unfold two_bands_analysis_channel.
  destruct (plain_const _ _ _ _ _ Hd0) as (d & -> & Hd & _). rewrite bind_ok.
  destruct (shape_channel_pointers _ _ _ _ _ 0 (pl_int _ _ _ _ _ Hd) ltac:(lia))
    as (full & -> & Pf & _).
  rewrite bind_ok, (rd_Some _ _ _ (Pf i Hi)), bind_ok.
  destruct (plain_ibuf _ _ _ _ _ Hb0) as (b & -> & Hb & Vb & _). rewrite bind_ok.
  destruct (shape_channel_pointers _ _ _ _ _ 0 (pl_int _ _ _ _ _ Hb) ltac:(lia))
    as (lows & -> & Pl & _).
  rewrite bind_ok.
  destruct (shape_channel_pointers _ _ _ _ _ 1 (pl_int _ _ _ _ _ Hb) ltac:(lia))
    as (highs & -> & Ph & _).
  rewrite bind_ok, (rd_Some _ _ _ (Pl i Hi)), bind_ok, (rd_Some _ _ _ (Ph i Hi)), bind_ok.
  rewrite half_frames.
  destruct (lookup_lt_is_Some_2 states i) as [st Est]; [lia|].
  pose proof (Forall_lookup_1 _ _ _ _ Hst Est) as [Ha Hs].
  rewrite (rd_Some _ _ _ Est), bind_ok. cbv zeta.
  rewrite (sh_frames _ _ _ _ _ (pl_int _ _ _ _ _ Hd)).
  pose proof (shape_length _ _ _ _ _ (pl_int _ _ _ _ _ Hd)) as Ld.
  pose proof (shape_length _ _ _ _ _ (pl_int _ _ _ _ _ Hb)) as Lb.
  rewrite fetch_ok, bind_ok by (rewrite Ld; nia).
  destruct (analysis_total (view (2 * h) (i * (2 * h) + 0 * (2 * h / 1)) (cb_data (ibuf_ d)))
    h _ _ (Forall_view _ _ _ _ (plain_samples _ _ _ _ _ Hd))
    ltac:(apply length_view; rewrite Ld; nia) Hh Ha)
    as (low & high & s1 & s2 & -> & [L16 Ll] & [H16 Lh] & Ha').
  rewrite bind_ok. apply wp_bind. eapply wp_mono.
  { apply wp_put_samples; [rewrite Ll, Lb; nia|done|by apply plain_samples in Hb]. }
  intros d1 (_ & L1 & D1). apply wp_bind. eapply wp_mono.
  { apply wp_put_samples; [rewrite Lh, L1, Lb; nia|done|done]. }
  intros d2 (_ & L2 & D2). apply wp_bind, wp_wr; [unfold zlen; lia|]. apply wp_ret.
  split; [done|]. rewrite length_insert. split; [done|]. split; [by apply Forall_insert|].
  apply (plain_written _ _ _ _ b); [done|done|congruence|done].
Qed.

Lemma wp_two_bands_synthesis_channel h n k i states bands data :
  plain (2 * h) 2 n k bands -> plain (2 * h) 1 n k data -> length states = n ->
  Forall states_ok states -> (i < n)%nat -> (0 < h <= kMaxBandFrameLength)%nat ->
  wp (two_bands_synthesis_channel i (states, bands, data)) (fun '(states', bands', data') =>
    plain (2 * h) 2 n k bands' /\ length states' = n /\ Forall states_ok states' /\
    plain (2 * h) 1 n k data').
Proof.
  intros Hb0 Hd0 Hn Hst Hi Hh. unfold two_bands_synthesis_channel.
  destruct (plain_const _ _ _ _ _ Hb0) as (b & -> & Hb & _). rewrite bind_ok.
  destruct (shape_channel_pointers _ _ _ _ _ 0 (pl_int _ _ _ _ _ Hb) ltac:(lia))
    as (lows & -> & Pl & _).
  rewrite bind_ok.
  destruct (shape_channel_pointers _ _ _ _ _ 1 (pl_int _ _ _ _ _ Hb) ltac:(lia))
    as (highs & -> & Ph & _).
  rewrite bind_ok, (rd_Some _ _ _ (Pl i Hi)), bind_ok, (rd_Some _ _ _ (Ph i Hi)), bind_ok.
  destruct (plain_ibuf _ _ _ _ _ Hd0) as (x & -> & Hd & Vx & _). rewrite bind_ok.
  destruct (shape_channel_pointers _ _ _ _ _ 0 (pl_int _ _ _ _ _ Hd) ltac:(lia))
    as (full & -> & Pf & _).
  rewrite bind_ok, (rd_Some _ _ _ (Pf i Hi)), bind_ok, half_frames.
  destruct (lookup_lt_is_Some_2 states i) as [st Est]; [lia|].
  pose proof (Forall_lookup_1 _ _ _ _ Hst Est) as [Ha Hs].
  rewrite (rd_Some _ _ _ Est), bind_ok. cbv zeta.
  rewrite (sh_split _ _ _ _ _ (pl_int _ _ _ _ _ Hb)), half_frames.
  pose proof (shape_length _ _ _ _ _ (pl_int _ _ _ _ _ Hd)) as Ld.
  pose proof (shape_length _ _ _ _ _ (pl_int _ _ _ _ _ Hb)) as Lb.
  rewrite !fetch_ok by (rewrite Lb; nia). rewrite !bind_ok.
  pose proof (plain_samples _ _ _ _ _ Hb) as B16.
  destruct (synthesis_total
    (view h (i * (2 * h) + 0 * h) (cb_data (ibuf_ b)))
    (view h (i * (2 * h) + 1 * h) (cb_data (ibuf_ b))) h _ _
    (Forall_view _ _ _ _ B16) (Forall_view _ _ _ _ B16)
    ltac:(apply length_view; rewrite Lb; nia) ltac:(apply length_view; rewrite Lb; nia)
    Hh Hs) as (out & s1 & s2 & -> & [O16 Lo] & Hs').
  rewrite bind_ok. apply wp_bind. eapply wp_mono.
  { apply wp_put_samples; [rewrite Lo, Ld; nia|done|by apply plain_samples in Hd]. }
  intros d1 (_ & L1 & D1). apply wp_bind, wp_wr; [unfold zlen; lia|]. apply wp_ret.
  split; [done|]. rewrite length_insert. split; [done|]. split; [by apply Forall_insert|].
  apply (plain_written _ _ _ _ x); [done|done|congruence|done].
Qed.

(** The checks of both directions. *)
Lemma shapes_match_ok nf nb n k sf data bands :
  plain nf 1 n k data -> plain nf nb n k bands -> sf_num_bands sf = nb ->
  (nf / nb * nb = nf)%nat -> shapes_match sf data bands = true.
Proof.
  intros Hd Hb H2 Hdiv. unfold shapes_match.
  rewrite (plain_channels _ _ _ _ _ Hd), (plain_channels _ _ _ _ _ Hb),
    (sh_bands _ _ _ _ _ (pl_int _ _ _ _ _ Hb)), (sh_frames _ _ _ _ _ (pl_int _ _ _ _ _ Hd)),
    (sh_split _ _ _ _ _ (pl_int _ _ _ _ _ Hb)), H2, Hdiv. by rewrite !Nat.eqb_refl.
Qed.

Lemma wp_Analysis2 h n sf data bands :
  plain (2 * h) 1 n n data -> plain (2 * h) 2 n n bands -> sf_num_bands sf = 2%nat ->
  length (two_bands_states_ sf) = n -> Forall states_ok (two_bands_states_ sf) ->
  (0 < h <= kMaxBandFrameLength)%nat ->
  wp (Analysis sf data bands) (fun '(sf', data', bands') =>
    plain (2 * h) 1 n n data' /\ plain (2 * h) 2 n n bands' /\ sf_num_bands sf' = 2%nat /\
    length (two_bands_states_ sf') = n /\ Forall states_ok (two_bands_states_ sf')).
Proof.
  intros Hd Hb H2 Hn Hst Hh. unfold Analysis.
  rewrite (shapes_match_ok (2 * h) 2 n n) by (done || (rewrite half_frames; lia)).
  rewrite (sh_bands _ _ _ _ _ (pl_int _ _ _ _ _ Hb)). cbn [Nat.eqb negb].
  unfold TwoBandsAnalysis. rewrite (plain_channels _ _ _ _ _ Hd), Hn, Nat.eqb_refl.
  cbn [negb]. apply wp_bind. eapply wp_mono.
  { apply (wp_loop_inv (fun '(st, d, b) => plain (2 * h) 1 n n d /\ length st = n /\
      Forall states_ok st /\ plain (2 * h) 2 n n b)); [done|].
    intros i [[st d] b] Hi (Hd' & Ls & Fs & Hb').
    by apply (wp_two_bands_analysis_channel h n n). }
  intros [[st d] b] (Hd' & Ls & Fs & Hb'). by apply wp_ret.
Qed.

Lemma wp_Synthesis2 h n k sf bands data :
  plain (2 * h) 2 n k bands -> plain (2 * h) 1 n k data -> sf_num_bands sf = 2%nat ->
  length (two_bands_states_ sf) = n -> Forall states_ok (two_bands_states_ sf) ->
  (k <= n)%nat -> (0 < h <= kMaxBandFrameLength)%nat ->
  wp (Synthesis sf bands data) (fun '(sf', bands', data') =>
    plain (2 * h) 2 n k bands' /\ plain (2 * h) 1 n k data' /\ sf_num_bands sf' = 2%nat /\
    length (two_bands_states_ sf') = n /\ Forall states_ok (two_bands_states_ sf')).
Proof.
  intros Hb Hd H2 Hn Hst Hk Hh. unfold Synthesis.
  rewrite (shapes_match_ok (2 * h) 2 n k) by (done || (rewrite half_frames; lia)).
  rewrite (sh_bands _ _ _ _ _ (pl_int _ _ _ _ _ Hb)). cbn [Nat.eqb negb].
  unfold TwoBandsSynthesis. rewrite (plain_channels _ _ _ _ _ Hd), Hn.
  rewrite (proj2 (Nat.leb_le _ _)) by done. cbn [negb]. apply wp_bind. eapply wp_mono.
  { apply (wp_loop_inv (fun '(st, b, d) => plain (2 * h) 2 n k b /\ length st = n /\
      Forall states_ok st /\ plain (2 * h) 1 n k d)); [done|].
    intros i [[st b] d] Hi (Hb' & Ls & Fs & Hd').
    apply (wp_two_bands_synthesis_channel h n k); done || lia. }
  intros [[st b] d] (Hb' & Ls & Fs & Hd'). by apply wp_ret.
Qed.

(** ** Three bands *)

Lemma wp_fetch_all {A} m c ptrs (mem : list A) :
  pointers_ok m c ptrs mem ->
  wp (fetch_all m c ptrs mem) (fun xss => length xss = c /\ Forall (fun x => length x = m) xss).
Proof.
  intros Hp. unfold fetch_all.
  assert (H : forall l, Forall (fun j => (j < c)%nat) l ->
    wp (mapM (fun j => p ← rd ptrs (Z.of_nat j); fetch m p mem) l)
       (fun xss => length xss = length l /\ Forall (fun x => length x = m) xss)).
  { induction 1 as [|j l Hj _ IH]; [by apply wp_ret|]. cbn [mapM].
    pose proof (ptr_count _ _ _ _ Hp) as Hc.
    destruct (lookup_lt_is_Some_2 ptrs j) as [p Ep]; [lia|].
    pose proof (ptr_range _ _ _ _ Hp j p Hj Ep).
    apply wp_bind. rewrite (rd_Some _ _ _ Ep), bind_ok, fetch_ok by done. apply wp_ret.
    apply wp_bind. eapply wp_mono; [exact IH|]. intros xss [L F]. apply wp_ret.
    split; [cbn; by rewrite L|]. constructor; [by apply length_view|done]. }
  eapply wp_mono; [apply H|].
  - apply Forall_forall. intros j Hj. apply in_seq in Hj. lia.
  - cbn. intros xss. by rewrite length_seq.
Qed.

Lemma wp_put_all {A} m c ptrs xss (mem : list A) :
  pointers_ok m c ptrs mem -> length xss = c -> Forall (fun x => length x = m) xss ->
  wp (put_all ptrs xss mem) (fun mem' => length mem' = length mem).
Proof.
  intros Hp Hc Hx. unfold put_all.
  apply (wp_loop_inv (fun mem' => length mem' = length mem)); [done|].
  intros j mem' Hj Hl. pose proof (ptr_count _ _ _ _ Hp).
  destruct (lookup_lt_is_Some_2 ptrs j) as [p Ep]; [lia|].
  destruct (lookup_lt_is_Some_2 xss j) as [xs Ex]; [lia|].
  pose proof (ptr_range _ _ _ _ Hp j p ltac:(lia) Ep).
  pose proof (Forall_lookup_1 _ _ _ _ Hx Ex) as Lx. cbn in Lx.
  rewrite (rd_Some _ _ _ Ep), bind_ok, (rd_Some _ _ _ Ex), bind_ok.
  eapply wp_mono; [apply wp_put; lia|]. intros mem2 [L _]. congruence.
Qed.

Lemma third_frames h : (3 * h / 3 = h)%nat.
Proof. by rewrite Nat.mul_comm, Nat.div_mul. Qed.

Lemma wp_three_bands_analysis_channel h n k i banks data bands :
  plain (3 * h) 1 n k data -> plain (3 * h) 3 n k bands -> length banks = n ->
  Forall (bank_ok h) banks -> (i < k)%nat -> (k <= n)%nat ->
  wp (three_bands_analysis_channel i (banks, data, bands)) (fun '(banks', data', bands') =>
    plain (3 * h) 1 n k data' /\ length banks' = n /\ Forall (bank_ok h) banks' /\
    plain (3 * h) 3 n k bands').
Proof.
  intros Hd0 Hb0 Hn Hbk Hi Hk. unfold three_bands_analysis_channel.
  apply wp_bind. eapply wp_mono; [by apply (plain_fconst _ _ _ _ _ Hd0)|].
  intros d (Hd & _).
  destruct (shape_channel_pointers _ _ _ _ _ 0 (pl_float _ _ _ _ _ Hd) ltac:(lia))
    as (full & -> & Pf & _ & Pok). specialize (Pok eq_refl).
  rewrite bind_ok, (rd_Some _ _ _ (Pf i ltac:(lia))), bind_ok.
  apply wp_bind. eapply wp_mono; [by apply (plain_fbuf _ _ _ _ _ Hb0)|].
  intros b (Hb & Vb).
  destruct (shape_band_pointers _ _ _ _ _ i (pl_float _ _ _ _ _ Hb) Hi) as (ptrs & -> & _ & Pb).
  rewrite third_frames in Pb. rewrite bind_ok.
  destruct (lookup_lt_is_Some_2 banks i) as [bank Ebank]; [lia|].
  pose proof (Forall_lookup_1 _ _ _ _ Hbk Ebank) as Hbank.
  rewrite (rd_Some _ _ _ Ebank), bind_ok. cbv zeta.
  rewrite (sh_frames _ _ _ _ _ (pl_float _ _ _ _ _ Hd)).
  pose proof (ptr_range _ _ _ _ Pok i _ ltac:(lia) (Pf i ltac:(lia))) as Hr.
  rewrite fetch_ok, bind_ok by exact Hr.
  apply wp_bind. eapply wp_mono.
  { apply (wp_bank_Analysis h); [done|]. by apply length_view. }
  intros [bank' split] [Hbank' [Ls Fs]].
  apply wp_bind. eapply wp_mono; [by apply (wp_put_all h 3 ptrs)|]. intros dd Ldd.
  apply wp_bind, wp_wr; [unfold zlen; lia|]. apply wp_ret.
  split; [done|]. rewrite length_insert. split; [done|]. split; [by apply Forall_insert|].
  by apply (plain_fwritten _ _ _ _ b).
Qed.

Lemma wp_three_bands_synthesis_channel h n k i banks bands data :
  plain (3 * h) 3 n k bands -> plain (3 * h) 1 n k data -> length banks = n ->
  Forall (bank_ok h) banks -> (i < k)%nat -> (k <= n)%nat ->
  wp (three_bands_synthesis_channel i (banks, bands, data)) (fun '(banks', bands', data') =>
    plain (3 * h) 3 n k bands' /\ length banks' = n /\ Forall (bank_ok h) banks' /\
    plain (3 * h) 1 n k data').
Proof.
  intros Hb0 Hd0 Hn Hbk Hi Hk. unfold three_bands_synthesis_channel.
  apply wp_bind. eapply wp_mono; [by apply (plain_fconst _ _ _ _ _ Hb0)|].
  intros b (Hb & _).
  destruct (shape_band_pointers _ _ _ _ _ i (pl_float _ _ _ _ _ Hb) Hi) as (ptrs & -> & _ & Pb).
  rewrite third_frames in Pb. rewrite bind_ok.
  apply wp_bind. eapply wp_mono; [by apply (plain_fbuf _ _ _ _ _ Hd0)|].
  intros d (Hd & Vd).
  destruct (shape_channel_pointers _ _ _ _ _ 0 (pl_float _ _ _ _ _ Hd) ltac:(lia))
    as (full & -> & Pf & _ & Pok). specialize (Pok eq_refl).
  rewrite bind_ok, (rd_Some _ _ _ (Pf i ltac:(lia))), bind_ok.
  destruct (lookup_lt_is_Some_2 banks i) as [bank Ebank]; [lia|].
  pose proof (Forall_lookup_1 _ _ _ _ Hbk Ebank) as Hbank.
  rewrite (rd_Some _ _ _ Ebank), bind_ok. cbv zeta.
  rewrite (sh_split _ _ _ _ _ (pl_float _ _ _ _ _ Hb)), third_frames,
    (sh_bands _ _ _ _ _ (pl_float _ _ _ _ _ Hb)).
  apply wp_bind. eapply wp_mono; [by apply (wp_fetch_all h 3 ptrs)|].
  intros split Hsplit.
  apply wp_bind. eapply wp_mono; [by apply (wp_bank_Synthesis h)|].
  intros [bank' x] [Hbank' Lx].
  pose proof (ptr_range _ _ _ _ Pok i _ ltac:(lia) (Pf i ltac:(lia))) as Hr.
  apply wp_bind. eapply wp_mono; [apply wp_put; rewrite Lx; exact Hr|]. intros dd [Ldd _].
  apply wp_bind, wp_wr; [unfold zlen; lia|]. apply wp_ret.
  split; [done|]. rewrite length_insert. split; [done|]. split; [by apply Forall_insert|].
  by apply (plain_fwritten _ _ _ _ d).
Qed.

Lemma wp_Analysis3 h n sf data bands :
  plain (3 * h) 1 n n data -> plain (3 * h) 3 n n bands -> sf_num_bands sf = 3%nat ->
  length (three_band_filter_banks_ sf) = n -> Forall (bank_ok h) (three_band_filter_banks_ sf) ->
  wp (Analysis sf data bands) (fun '(sf', data', bands') =>
    plain (3 * h) 1 n n data' /\ plain (3 * h) 3 n n bands' /\ sf_num_bands sf' = 3%nat /\
    length (three_band_filter_banks_ sf') = n /\
    Forall (bank_ok h) (three_band_filter_banks_ sf')).
Proof.
  intros Hd Hb H3 Hn Hbk. unfold Analysis.
  rewrite (shapes_match_ok (3 * h) 3 n n) by (done || (rewrite third_frames; lia)).
  rewrite (sh_bands _ _ _ _ _ (pl_int _ _ _ _ _ Hb)). cbn [Nat.eqb negb].
  unfold ThreeBandsAnalysis. rewrite (plain_channels _ _ _ _ _ Hd), Hn, Nat.eqb_refl.
  cbn [negb]. apply wp_bind. eapply wp_mono.
  { apply (wp_loop_inv (fun '(bk, d, b) => plain (3 * h) 1 n n d /\ length bk = n /\
      Forall (bank_ok h) bk /\ plain (3 * h) 3 n n b)); [done|].
    intros i [[bk d] b] Hi (Hd' & Ls & Fs & Hb').
    by apply (wp_three_bands_analysis_channel h n n). }
  intros [[bk d] b] (Hd' & Ls & Fs & Hb'). by apply wp_ret.
Qed.

Lemma wp_Synthesis3 h n k sf bands data :
  plain (3 * h) 3 n k bands -> plain (3 * h) 1 n k data -> sf_num_bands sf = 3%nat ->
  length (three_band_filter_banks_ sf) = n -> Forall (bank_ok h) (three_band_filter_banks_ sf) ->
  (k <= n)%nat ->
  wp (Synthesis sf bands data) (fun '(sf', bands', data') =>
    plain (3 * h) 3 n k bands' /\ plain (3 * h) 1 n k data' /\ sf_num_bands sf' = 3%nat /\
    length (three_band_filter_banks_ sf') = n /\
    Forall (bank_ok h) (three_band_filter_banks_ sf')).
Proof.
  intros Hb Hd H3 Hn Hbk Hk. unfold Synthesis.
  rewrite (shapes_match_ok (3 * h) 3 n k) by (done || (rewrite third_frames; lia)).
  rewrite (sh_bands _ _ _ _ _ (pl_int _ _ _ _ _ Hb)). cbn [Nat.eqb negb].
  unfold ThreeBandsSynthesis. rewrite (plain_channels _ _ _ _ _ Hd), Hn.
  rewrite (proj2 (Nat.leb_le _ _)) by done. cbn [negb]. apply wp_bind. eapply wp_mono.
  { apply (wp_loop_inv (fun '(bk, b, d) => plain (3 * h) 3 n k b /\ length bk = n /\
      Forall (bank_ok h) bk /\ plain (3 * h) 1 n k d)); [done|].
    intros i [[bk b] d] Hi (Hb' & Ls & Fs & Hd').
    by apply (wp_three_bands_synthesis_channel h n k). }
  intros [[bk b] d] (Hb' & Ls & Fs & Hd'). by apply wp_ret.
Qed.

(** ** Buffers without resampling

    [pf] frames per channel (80, 160, 320 or 480), [nin] input channels, [n] processing
    channels, [k] of them visible. *)

Definition frames_ok (pf : nat) : Prop :=
  pf = 80%nat \/ pf = 160%nat \/ pf = 320%nat \/ pf = 480%nat.
Definition band_count (pf : nat) : nat :=
  if (pf =? 320)%nat then 2 else if (pf =? 480)%nat then 3 else 1.
Definition split_frames (pf : nat) : nat := if (pf =? 80)%nat then 80 else 160.

Definition mixed_ok (m : nat) (c : ChannelBuffer Z) : Prop :=
  cb_ok c /\ cb_num_frames c = m /\ cb_num_bands c = 1%nat /\
  cb_num_frames_per_band c = m /\ cb_num_allocated_channels c = 1%nat /\
  Forall i16 (cb_data c).

Definition filter_ok (nb n : nat) (sf : SplittingFilter) : Prop :=
  sf_num_bands sf = nb /\
  (nb = 2%nat -> length (two_bands_states_ sf) = n /\ Forall states_ok (two_bands_states_ sf)) /\
  (nb = 3%nat -> length (three_band_filter_banks_ sf) = n /\
                 Forall (bank_ok 160) (three_band_filter_banks_ sf)).

Definition splitting_ok (pf n k : nat) (b : AudioBuffer) : Prop :=
  if (1 <? band_count pf)%nat then
    exists x sf, split_data_ b = Some x /\ splitting_filter_ b = Some sf /\
      plain pf (band_count pf) n k x /\ filter_ok (band_count pf) n sf
  else split_data_ b = None /\ splitting_filter_ b = None.

Record buffer_ok (pf nin n k : nat) (b : AudioBuffer) : Prop := {
  bo_inputs : num_input_channels_ b = nin;
  bo_proc : proc_num_frames_ b = pf;
  bo_procs : num_proc_channels_ b = n;
  bo_visible : num_channels_ b = k;
  bo_bands : num_bands_ b = band_count pf;
  bo_frames : num_split_frames_ b = split_frames pf;
  bo_data : plain pf 1 n k (data_ b);
  bo_split : splitting_ok pf n k b;
  bo_mixed c : mixed_low_pass_channels_ b = Some c -> mixed_ok (split_frames pf) c;
  bo_mixed_valid : mixed_low_pass_valid_ b = true -> mixed_low_pass_channels_ b <> None
}.

(** The device side: [inf] frames come in, [outf] go out; [c] bounds the calls of
    the resamplers so far. *)
Definition ready (B D n : nat) (c : Z) (rs : list PushSincResampler) : Prop :=
  length rs = n /\ Forall (stream_ok B D c) rs.

Lemma ready_mono B D n c c' rs : ready B D n c rs -> c <= c' -> ready B D n c' rs.
Proof.
  intros [L H] Hc. split; [done|]. eapply Forall_impl; [|exact H]. intros r Hr.
  by apply (stream_ok_mono B D c).
Qed.

Record devices_ok (inf pf outf n : nat) (c : Z) (b : AudioBuffer) : Prop := {
  de_input : input_num_frames_ b = inf;
  de_output : output_num_frames_ b = outf;
  de_in : inf <> pf -> ready inf pf n c (input_resamplers_ b);
  de_out : pf <> outf -> ready pf outf n c (output_resamplers_ b);
  de_process : inf <> pf \/ outf <> pf ->
    exists x, process_buffer_ b = Some x /\ shape pf 1 n n x;
  de_in_buffer x : input_buffer_ b = Some x -> plain inf 1 n n x;
  de_out_buffer : plain outf 1 n n (output_buffer_ b)
}.

(** The fields it is about. *)
Definition devices (b : AudioBuffer) :=
  (input_num_frames_ b, output_num_frames_ b, input_resamplers_ b, output_resamplers_ b,
   (process_buffer_ b, input_buffer_ b, output_buffer_ b)).

Lemma devices_same inf pf outf n c b b' :
  devices b' = devices b -> devices_ok inf pf outf n c b -> devices_ok inf pf outf n c b'.
Proof.
  intros E []. injection E as E1 E2 E3 E4 E5 E6 E7.
  constructor; rewrite ?E1, ?E2, ?E3, ?E4, ?E5, ?E7; try done. by rewrite E6.
Qed.

Lemma devices_mono inf pf outf n c c' b :
  devices_ok inf pf outf n c b -> c <= c' -> devices_ok inf pf outf n c' b.
Proof.
  intros [] Hc. constructor; try done; intros Hne; (eapply ready_mono; [|exact Hc]); auto.
Qed.

(** Numbers of frames that the resamplers convert. *)
Definition convertible (B D : nat) : Prop := B = D \/ good_pair B D = true.

Lemma convertible_rates a b :
  existsb (Z.eqb a) rates = true -> existsb (Z.eqb b) rates = true ->
  convertible (frames_of a) (frames_of b).
Proof.
  intros (a' & Ia & ->%Z.eqb_eq)%existsb_exists (b' & Ib & ->%Z.eqb_eq)%existsb_exists.
  right. by apply rates_good; apply list_elem_of_In.
Qed.

Lemma frames_div pf : frames_ok pf -> (pf / band_count pf)%nat = split_frames pf.
Proof. by intros [->|[->|[->| ->]]]. Qed.

Lemma band_count_pos pf : (0 < band_count pf)%nat.
Proof. unfold band_count. repeat case_if; lia. Qed.

Lemma frames_split pf :
  frames_ok pf -> pf = (band_count pf * split_frames pf)%nat /\
    (0 < split_frames pf)%nat.
Proof. intros [->|[->|[->| ->]]]; cbn; lia. Qed.

Lemma many_bands pf :
  frames_ok pf -> (1 < band_count pf)%nat -> pf = 320%nat \/ pf = 480%nat.
Proof. intros [->|[->|[->| ->]]]; cbn; lia. Qed.

Lemma wp_SplittingFilter_new pf n :
  frames_ok pf -> (1 < band_count pf)%nat ->
  wp (SplittingFilter_new n (band_count pf) pf) (filter_ok (band_count pf) n).
Proof.
  intros Hpf Hb. destruct (many_bands pf Hpf Hb) as [->| ->]; unfold SplittingFilter_new;
    cbn [band_count Nat.eqb].
  - apply wp_ret. split; [done|]. split; [|done]. intros _. cbn.
    split; [apply length_replicate|]. apply Forall_replicate, states_ok_new.
  - apply wp_bind. apply (wp_mono _ (fun banks => length banks = n /\ Forall (bank_ok 160) banks)).
    + enough (H : forall l : list nat, wp (mapM (fun _ => ThreeBandFilterBank_new 480) l)
        (fun banks => length banks = length l /\ Forall (bank_ok 160) banks)).
      { specialize (H (seq 0 n)). by rewrite length_seq in H. }
      induction l as [|i l IH]; [by apply wp_ret|]. cbn [mapM]. apply wp_bind.
      eapply wp_mono; [apply (ThreeBandFilterBank_new_spec 160)|]. intros bank Hbank.
      apply wp_bind. eapply wp_mono; [exact IH|]. intros banks [L F]. apply wp_ret.
      split; [cbn; by rewrite L|by constructor].
    + intros banks H. by apply wp_ret.
Qed.

Lemma wp_resamplers B D n :
  convertible B D ->
  wp (if negb (B =? D)%nat
      then mapM (fun _ => PushSincResampler_new B D) (seq 0 n) else Ok [])
     (fun rs => B <> D -> ready B D n 0 rs).
Proof.
  intros Hc. destruct (Nat.eqb_spec B D) as [E|Hne]; cbn [negb]; [by apply wp_ret|].
  destruct Hc as [|Hg]; [done|].
  destruct (proj1 (wp_ok _ _) (wp_PushSincResampler_new B D Hg)) as (p & E & Hp & _).
  rewrite (mapM_ok _ (fun _ => p)) by done. apply wp_ret. intros _. split.
  - by rewrite length_map, length_seq.
  - by apply Forall_map, Forall_true.
Qed.

Lemma wp_AudioBuffer_create inf pf outf nin n :
  frames_ok pf -> (0 < n <= nin)%nat -> (0 < inf)%nat -> (0 < outf)%nat ->
  convertible inf pf -> convertible pf outf ->
  wp (AudioBuffer_new inf nin pf n outf) (fun b =>
    buffer_ok pf nin n n b /\ devices_ok inf pf outf n 0 b).
Proof.
  intros Hpf Hn Hi Ho Hci Hco. unfold AudioBuffer_new.
  assert (E1 : NumBandsFromSamplesPerChannel pf = Ok (band_count pf))
    by (destruct Hpf as [->|[->|[->| ->]]]; reflexivity).
  assert (E2 : CheckedDivExact pf (band_count pf) = Ok (split_frames pf))
    by (destruct Hpf as [->|[->|[->| ->]]]; reflexivity).
  rewrite E1, bind_ok, E2, bind_ok.
  apply wp_bind. eapply wp_mono; [apply plain_new; lia|]. intros x [Hx _].
  apply wp_bind. eapply wp_mono; [apply plain_new; lia|]. intros y [Hy _].
  assert (0 < pf)%nat by (destruct Hpf as [->|[->|[->| ->]]]; lia).
  rewrite !(proj2 (Nat.ltb_lt 0 _)), (proj2 (Nat.leb_le _ _)) by lia.
  cbn [andb negb].
  apply wp_bind. apply (wp_mono _ (fun pb => inf <> pf \/ outf <> pf ->
    exists x, pb = Some x /\ shape pf 1 n n x)).
  { destruct (Nat.eqb_spec inf pf), (Nat.eqb_spec outf pf); cbn [negb orb];
      try (apply wp_ret; tauto);
      (apply wp_bind; eapply wp_mono; [apply wp_ChannelBuffer_new; lia|];
       intros c (Hc & _ & C1 & C2 & C3 & C4 & C5); apply wp_ret; intros _;
       exists c; split; [done|]; by constructor). }
  intros pb Hpb. apply wp_bind. eapply wp_mono; [by apply wp_resamplers|]. intros ri Hri.
  apply wp_bind. rewrite (Nat.eqb_sym outf). eapply wp_mono; [by apply wp_resamplers|].
  intros ro Hro.
  assert (Hrest : wp (if (1 <? band_count pf)%nat
     then split ← IFChannelBuffer_new pf n (band_count pf);
          filter ← SplittingFilter_new n (band_count pf) pf;
          Ok (Some split, Some filter) else Ok (None, None))
     (fun '(split, filter) => forall b, split_data_ b = split ->
        splitting_filter_ b = filter -> splitting_ok pf n n b)).
  { unfold splitting_ok. destruct (Nat.ltb_spec 1 (band_count pf)) as [Hb|Hb].
    - apply wp_bind. eapply wp_mono; [apply plain_new; lia|]. intros z [Hz _].
      apply wp_bind. eapply wp_mono; [by apply wp_SplittingFilter_new|]. intros sf Hsf.
      apply wp_ret. intros b -> ->. by exists z, sf.
    - apply wp_ret. by intros b -> ->. }
  apply wp_bind. eapply wp_mono; [exact Hrest|]. intros [sp fi] Hs. apply wp_ret.
  split; constructor; try done. by apply Hs.
Qed.

Lemma wp_AudioBuffer_new pf nin n :
  frames_ok pf -> (0 < n <= nin)%nat ->
  wp (AudioBuffer_new pf nin pf n pf) (buffer_ok pf nin n n).
Proof.
  intros Hpf Hn. assert (Hp0 : (0 < pf)%nat) by (destruct Hpf as [->|[->|[->| ->]]]; lia).
  eapply wp_mono; [apply (wp_AudioBuffer_create pf pf pf); try done; by left|].
  by intros b [H _].
Qed.

Lemma wp_buffer_set_num_channels pf nin n k k' b :
  buffer_ok pf nin n k b -> (k' <= n)%nat ->
  wp (buffer_set_num_channels b k') (fun b' => buffer_ok pf nin n k' b' /\
    devices b' = devices b).
Proof.
  intros H Hk. unfold buffer_set_num_channels. cbv zeta.
  apply wp_bind. change (data_ (set_num_channels_ k' b)) with (data_ b).
  eapply wp_mono; [apply (plain_visible _ _ _ _ _ _ (bo_data _ _ _ _ _ H) Hk)|].
  intros x [Hx _]. pose proof (bo_split _ _ _ _ _ H) as Hs. unfold splitting_ok in Hs.
  change (split_data_ (set_data x (set_num_channels_ k' b))) with (split_data_ b).
  destruct (1 <? band_count pf)%nat eqn:Eb.
  - destruct Hs as (y & sf & -> & Ef & Hy & Hrest). apply wp_bind.
    eapply wp_mono; [apply (plain_visible _ _ _ _ _ _ Hy Hk)|]. intros z [Hz _].
    apply wp_ret. split; [|done]. destruct H. constructor; try done. unfold splitting_ok.
    rewrite Eb. exists z, sf. exact (conj eq_refl (conj Ef (conj Hz Hrest))).
  - destruct Hs as [E1 E2]. rewrite E1. apply wp_ret. split; [|done]. destruct H.
    constructor; try done. unfold splitting_ok. by rewrite Eb.
Qed.

Lemma wp_InitForNewData pf nin n k b :
  buffer_ok pf nin n k b ->
  wp (InitForNewData b) (fun b' => buffer_ok pf nin n n b' /\ devices b' = devices b).
Proof.
  intros H. unfold InitForNewData. cbv zeta. cbn [num_proc_channels_].
  set (b' := set_activity _ _).
  change (num_proc_channels_ b') with (num_proc_channels_ b).
  rewrite (bo_procs _ _ _ _ _ H).
  eapply wp_mono; [apply (wp_buffer_set_num_channels pf nin n k n b'); [|done]|done].
  destruct H; by constructor.
Qed.

(** ** Frames in and out *)

Record audio_frame_ok (pf nin : nat) (f : AudioFrame) : Prop := {
  fr_frames : samples_per_channel_ f = pf;
  fr_channels : frame_num_channels_ f = nin;
  fr_fits : (pf * nin <= kMaxDataSizeSamples)%nat;
  fr_length : length (frame_data_ f) = kMaxDataSizeSamples;
  fr_samples : Forall i16 (frame_data_ f)
}.

Lemma frame_data_ok pf nin f :
  audio_frame_ok pf nin f -> length (frame_data f) = kMaxDataSizeSamples /\ Forall i16 (frame_data f).
Proof.
  intros H. unfold frame_data. destruct (muted_ f).
  - split; [apply length_replicate|]. apply Forall_replicate. unfold i16. lia.
  - split; apply H.
Qed.

Lemma downmix_single xs m ys :
  (m <= length xs)%nat -> length ys = m ->
  (forall i y, ys !! i = Some y -> y = Z.quot (zsum (view 1 (i * 1) xs)) (Z.of_nat 1) /\ i16 y) ->
  ys = lane m 1 xs.
Proof.
  intros Hx Hl Hy. apply list_eq. intros i. rewrite lookup_lane.
  destruct (decide (i < m)%nat) as [Hi|Hi]; [|by rewrite lookup_ge_None_2 by lia].
  destruct (lookup_lt_is_Some_2 ys i) as [y Ey]; [lia|]. rewrite Ey.
  destruct (Hy i y Ey) as [-> _].
  destruct (lookup_lt_is_Some_2 xs (i * 1)) as [v Ev]; [lia|]. rewrite Ev.
  unfold view. rewrite (drop_S _ _ _ Ev). cbn [take zsum]. rewrite Z.add_0_r.
  change (Z.of_nat 1) with 1. by rewrite Z.quot_1_r.
Qed.

Lemma wp_deinterleave_into pf nin n b xs x :
  num_proc_channels_ b = n -> input_num_frames_ b = pf -> num_input_channels_ b = nin ->
  plain pf 1 n n x -> (0 < pf)%nat -> (0 < n <= nin)%nat ->
  n = 1%nat \/ n = nin -> Z.of_nat nin <= 65536 ->
  (pf * nin <= length xs)%nat -> Forall i16 xs ->
  wp (deinterleave_into b xs x) (fun x' => plain pf 1 n n x' /\ ivalid_ x' = true /\
    (n = nin -> forall i, (i < n)%nat ->
       view pf (i * pf) (cb_data (ibuf_ x')) = lane pf n (drop i xs))).
Proof.
  intros Ep Ei Ein Hx0 Hpf Hn Hcase Hmax Hl H16. unfold deinterleave_into.
  destruct (plain_ibuf _ _ _ _ _ Hx0) as (y & -> & Hx & Vy & _). rewrite bind_ok.
  destruct (shape_channel_pointers _ _ _ _ _ 0 (pl_int _ _ _ _ _ Hx) ltac:(lia))
    as (ptrs & -> & Pp & _ & Pok).
  specialize (Pok eq_refl). rewrite bind_ok.
  rewrite Ep, Ei, Ein.
  pose proof (plain_length _ _ _ _ _ Hx) as Ly. pose proof (plain_samples _ _ _ _ _ Hx) as Y16.
  apply wp_bind. destruct (Nat.eqb_spec n 1) as [->|Hne].
  - apply wp_bind. eapply wp_mono; [apply wp_DownmixInterleavedToMono; done || lia|].
    intros ys [Ls Hys]. pose proof (rd_Some _ 0 _ (Pp 0%nat ltac:(lia))) as Er.
    change (Z.of_nat 0) with 0 in Er. rewrite Er, bind_ok.
    assert (Hys16 : Forall i16 ys).
    { apply Forall_lookup_2. intros i v Hv. by destruct (Hys i v Hv). }
    eapply wp_mono; [apply wp_put_samples; [rewrite Ls, Ly; lia|done|done]|].
    intros d (Hw & Ld & D16). apply wp_ret.
    split; [apply (plain_written _ _ _ _ y); done|]. split; [done|].
    intros E i Hi. assert (i = 0%nat) as -> by lia. rewrite drop_0.
    rewrite <- (downmix_single xs pf ys); [|lia|done|by rewrite <- E in Hys].
    rewrite <- Ls. apply (wrote_view _ _ (cb_data (ibuf_ y))); [rewrite Ls, Ly; lia|done].
  - destruct Hcase as [|<-]; [done|]. rewrite Nat.eqb_refl. cbn [negb].
    eapply wp_mono; [apply wp_and|].
    { by apply (wp_Deinterleave xs pf n ptrs). }
    { apply (wp_loop_inv (fun m => Forall i16 m /\ length m = length (cb_data (ibuf_ y))));
        [done|].
      intros i m Hi [Hm Hlm]. rewrite (rd_Some _ _ _ (Pp i Hi)), bind_ok.
      apply (wp_loop_inv (fun m => Forall i16 m /\ length m = length (cb_data (ibuf_ y))));
        [done|].
      intros j m' Hj [Hm' Hlm']. destruct (lookup_lt_is_Some_2 xs (i + j * n)) as [v Hv];
        [nia|]. rewrite (rd_Some _ _ _ Hv), bind_ok.
      apply wp_wr; [unfold zlen; rewrite Hlm', Ly; nia|].
      split; [|by rewrite length_insert]. apply Forall_insert; [done|].
      exact (Forall_lookup_1 _ _ _ _ H16 Hv). }
    intros d [(Ld & Hd & _) [D16 _]]. apply wp_ret.
    split; [by apply (plain_written _ _ _ _ y)|]. split; [done|]. intros _ i Hi.
    cbn. rewrite <- (Hd i _ Hi (Pp i Hi)). by rewrite Nat.add_0_r.
Qed.

(** One channel through its resampler. *)
Lemma wp_push_channel B D n c i source dst rs :
  (B <= length source)%nat -> shape D 1 n n dst -> (i < n)%nat -> length rs = n ->
  0 <= c < max_calls -> (forall r, rs !! i = Some r -> stream_ok B D c r) ->
  wp (push_channel i D source B dst rs) (fun '(dst', rs') => shape D 1 n n dst' /\
    exists r', rs' = <[i := r']> rs /\ stream_ok B D (c + 1) r').
Proof.
  intros Hs Hd Hi Lr Hc Hr. unfold push_channel.
  destruct (lookup_lt_is_Some_2 rs i ltac:(lia)) as [r Er]. specialize (Hr r Er).
  rewrite (rd_Some _ _ _ Er), bind_ok.
  destruct (shape_channel_pointers _ _ _ _ _ 0 Hd ltac:(lia)) as (to & -> & Pt & _).
  rewrite bind_ok, (rd_Some _ _ _ (Pt i Hi)), bind_ok, !Nat.mul_0_l, !Nat.add_0_r.
  pose proof (shape_length _ _ _ _ _ Hd) as Ld.
  assert (Hid : (i * D + D <= D * n)%nat) by nia.
  apply wp_bind. eapply wp_mono.
  { apply (wp_push_float B D c); [done|done|done| |lia]. rewrite length_drop. lia. }
  intros [[m r'] y] (_ & Ly & Hr' & _). rewrite length_drop in Ly.
  apply wp_bind. apply wp_wr; [unfold zlen; lia|]. apply wp_ret. split.
  - apply shape_data; [done|]. rewrite length_app, length_take. lia.
  - exists r'. by rewrite Nat2Z.id.
Qed.

Lemma wp_resample_channel B D n c i src dst rs :
  shape B 1 n n src -> shape D 1 n n dst -> (i < n)%nat -> length rs = n ->
  0 <= c < max_calls -> (forall r, rs !! i = Some r -> stream_ok B D c r) ->
  wp (resample_channel i D src dst rs) (fun '(dst', rs') => shape D 1 n n dst' /\
    exists r', rs' = <[i := r']> rs /\ stream_ok B D (c + 1) r').
Proof.
  intros Hs Hd Hi Lr Hc Hr. unfold resample_channel.
  destruct (shape_channel_pointers _ _ _ _ _ 0 Hs ltac:(lia)) as (from & -> & Pf & _).
  rewrite bind_ok, (rd_Some _ _ _ (Pf i Hi)), bind_ok, (sh_frames _ _ _ _ _ Hs).
  apply (wp_push_channel B D n c); try done.
  pose proof (shape_length _ _ _ _ _ Hs) as Ls. rewrite length_drop. nia.
Qed.

Lemma ready_step B D n c i rs r' :
  length rs = n -> (i < n)%nat ->
  (forall j r, rs !! j = Some r -> stream_ok B D (if decide (j < i)%nat then c + 1 else c) r) ->
  stream_ok B D (c + 1) r' ->
  length (<[i := r']> rs) = n /\
  (forall j r, <[i := r']> rs !! j = Some r ->
     stream_ok B D (if decide (j < S i)%nat then c + 1 else c) r).
Proof.
  intros Lr Hi Hr Hr'. split; [by rewrite length_insert|]. intros j r Ej.
  destruct (decide (j = i)) as [->|Hne].
  - rewrite list_lookup_insert in Ej. destruct (decide _); [|lia]. injection Ej as <-.
    by rewrite decide_True by lia.
  - rewrite list_lookup_insert_ne in Ej by done. specialize (Hr j r Ej).
    destruct (decide (j < i)%nat), (decide (j < S i)%nat); (done || lia).
Qed.

Lemma ready_steps B D n c rs :
  ready B D n c rs <-> length rs = n /\
  (forall j r, rs !! j = Some r -> stream_ok B D (if decide (j < 0)%nat then c + 1 else c) r).
Proof.
  unfold ready. rewrite Forall_lookup. split; intros [L H]; (split; [done|]); intros j r E;
    specialize (H j r E); by destruct (decide (j < 0)%nat); [lia|].
Qed.

Lemma steps_ready B D n c rs :
  length rs = n ->
  (forall j r, rs !! j = Some r -> stream_ok B D (if decide (j < n)%nat then c + 1 else c) r) ->
  ready B D n (c + 1) rs.
Proof.
  intros L H. split; [done|]. apply Forall_lookup. intros j r E. specialize (H j r E).
  pose proof (lookup_lt_Some _ _ _ E). by rewrite decide_True in H by lia.
Qed.

Lemma wp_resample_all access B D n c x y rs :
  (forall x, plain B 1 n n x -> wp (access x) (fun x' => plain B 1 n n x')) ->
  plain B 1 n n x -> plain D 1 n n y -> ready B D n c rs -> 0 <= c < max_calls ->
  wp (resample_all access n D x y rs) (fun '(x', y', rs') =>
    plain B 1 n n x' /\ plain D 1 n n y' /\ ready B D n (c + 1) rs').
Proof.
  intros Ha Hx Hy Hr Hc. apply ready_steps in Hr as [Lr Hr]. unfold resample_all.
  eapply wp_mono.
  { apply (wp_loop_index (fun i '(x, y, rs) => plain B 1 n n x /\ plain D 1 n n y /\
      length rs = n /\ forall j r, rs !! j = Some r ->
        stream_ok B D (if decide (j < i)%nat then c + 1 else c) r)); [done|].
    intros i [[x1 y1] rs1] Hi (Hx1 & Hy1 & L1 & H1).
    apply wp_bind. eapply wp_mono; [by apply Ha|]. intros x2 Hx2.
    apply wp_bind. eapply wp_mono; [by apply plain_fbuf|]. intros y2 [Hy2 Vy].
    apply wp_bind. eapply wp_mono.
    { apply (wp_resample_channel B D n c i); [apply Hx2|apply Hy2|done|done|done|].
      intros r Er. specialize (H1 i r Er). by rewrite decide_False in H1 by lia. }
    intros [f rs2] (Hf & r' & -> & Hr'). apply wp_ret. split; [done|]. split.
    - destruct Hy2 as [Hi2 Hf2 Hv2 Hb2 H16]. constructor; done.
    - by apply ready_step. }
  intros [[x' y'] rs'] (Hx' & Hy' & L' & H'). split; [done|]. split; [done|].
  by apply steps_ready.
Qed.

Lemma wp_DeinterleaveFrom inf pf outf nin n k c b f :
  buffer_ok pf nin n k b -> devices_ok inf pf outf n c b -> 0 <= c < max_calls ->
  audio_frame_ok inf nin f -> (0 < inf)%nat -> (0 < n <= nin)%nat ->
  n = 1%nat \/ n = nin -> Z.of_nat nin <= 65536 ->
  wp (DeinterleaveFrom b f) (fun b' => buffer_ok pf nin n n b' /\
    devices_ok inf pf outf n (c + 1) b' /\ activity_ b' = vad_activity_ f /\
    (inf = pf -> n = nin -> ivalid_ (data_ b') = true /\ forall i, (i < n)%nat ->
       view pf (i * pf) (cb_data (ibuf_ (data_ b'))) = lane pf n (drop i (frame_data f)))).
Proof.
  intros H Hdev Hc Hf Hinf Hn Hcase Hmax. unfold DeinterleaveFrom.
  rewrite (fr_frames _ _ _ Hf), (fr_channels _ _ _ Hf), (de_input _ _ _ _ _ _ Hdev),
    (bo_inputs _ _ _ _ _ H), !Nat.eqb_refl. cbn [negb orb].
  apply wp_bind. eapply wp_mono; [by apply (wp_InitForNewData pf nin n k)|].
  intros b1 [H1 D1]. apply (devices_same inf pf outf n c) in D1; [|done]. cbv zeta. set (b2 := set_activity (vad_activity_ f) b1).
  assert (H2 : buffer_ok pf nin n n b2) by (destruct H1; by constructor).
  assert (D2 : devices_ok inf pf outf n c b2) by (destruct D1; by constructor).
  rewrite (de_input _ _ _ _ _ _ D2), (bo_proc _ _ _ _ _ H2).
  destruct (frame_data_ok _ _ _ Hf) as [Lf F16].
  assert (Hlen : (inf * nin <= length (frame_data f))%nat) by (rewrite Lf; apply Hf).
  destruct (Nat.eqb_spec inf pf) as [->|Hne].
  - apply wp_bind. eapply wp_mono.
    { apply (wp_deinterleave_into pf nin n b2); try done; [apply H2|apply D2|apply H2|].
      apply (bo_data _ _ _ _ _ H2). }
    intros x (Hx & Vx & Hv). apply wp_ret. split; [destruct H2; by constructor|].
    split; [apply (devices_mono _ _ _ _ c); [|lia]; destruct D2; by constructor|].
    split; [done|]. intros _ E. split; [done|]. by apply Hv.
  - apply wp_bind. apply (wp_mono _ (plain inf 1 n n)).
    { destruct (input_buffer_ b2) as [x|] eqn:E.
      - apply wp_ret. by apply (de_in_buffer _ _ _ _ _ _ D2).
      - rewrite (bo_procs _ _ _ _ _ H2). eapply wp_mono; [apply plain_new; lia|]. by intros x [Hx _]. }
    intros x Hx. apply wp_bind. eapply wp_mono.
    { apply (wp_deinterleave_into inf nin n b2); try done; [apply H2|apply D2|apply H2]. }
    intros x1 (Hx1 & _). rewrite ?(bo_procs _ _ _ _ _ H2).
    apply wp_bind. eapply wp_mono.
    { apply (wp_resample_all fbuf_const inf pf n c); try done.
      - intros y Hy. eapply wp_mono; [by apply plain_fconst|]. by intros y' [Hy' _].
      - apply (bo_data _ _ _ _ _ H2).
      - by apply (de_in _ _ _ _ _ _ D2). }
    intros [[x2 d2] rs] (Hx2 & Hd2 & Hrs). apply wp_ret.
    split; [destruct H2; by constructor|]. split; [|done].
    destruct D2 as [E1 E2 Di Do Dp Db Dob]. constructor; try done.
    + intros Hne'. apply (ready_mono _ _ _ c); [by apply Do|lia].
    + intros y. cbn. by intros [= <-].
Qed.

Lemma mutable_data_ok pf nin f :
  audio_frame_ok pf nin f -> audio_frame_ok pf nin (mutable_data f).
Proof.
  intros H. unfold mutable_data. destruct (muted_ f); [|done].
  destruct H. constructor; try done; cbn; try apply length_replicate.
  apply Forall_replicate. unfold i16. lia.
Qed.

Lemma wp_Interleave_Forall {A} (P : A -> Prop) (mem : list A) ptrs n k out :
  pointers_ok n k ptrs mem -> (n * k <= length out)%nat -> Forall P mem -> Forall P out ->
  wp (Interleave mem ptrs n k out) (Forall P).
Proof.
  intros Hp Ho Hm Hout. eapply wp_mono.
  { apply (wp_loop_inv (fun m => Forall P m /\ length m = length out)); [done|].
    intros i m Hi [Hm1 L1]. destruct (ptr_get _ _ _ _ i Hp Hi) as [p Ep].
    rewrite (rd_Some _ _ _ Ep), bind_ok. pose proof (ptr_range _ _ _ _ Hp i p Hi Ep).
    apply (wp_loop_inv (fun m => Forall P m /\ length m = length out)); [done|].
    intros j m' Hj [Hm2 L2]. destruct (lookup_lt_is_Some_2 mem (p + j)) as [v Hv]; [lia|].
    unfold deref. rewrite (rd_Some _ _ _ Hv), bind_ok.
    apply wp_wr; [unfold zlen; rewrite L2; nia|].
    split; [|by rewrite length_insert]. apply Forall_insert; [done|].
    exact (Forall_lookup_1 _ _ _ _ Hm Hv). }
  by intros m [H _].
Qed.

(** The samples of a buffer into a frame. *)
Lemma interleaved_frame outf n x f ptrs :
  plain outf 1 n n x -> audio_frame_ok outf n f ->
  channels (ibuf_ x) 0 = Ok ptrs ->
  wp (Interleave (cb_data (ibuf_ x)) ptrs outf n (frame_data_ (mutable_data f))) (fun d =>
    audio_frame_ok outf n (set_frame_data d false (mutable_data f)) /\
    forall xs, (outf * n <= length xs)%nat ->
      (forall i, (i < n)%nat ->
         view outf (i * outf) (cb_data (ibuf_ x)) = lane outf n (drop i xs)) ->
      take (outf * n) d = take (outf * n) xs).
Proof.
  intros Hx Hf Ep. pose proof (mutable_data_ok _ _ _ Hf) as Hm.
  destruct (shape_channel_pointers _ _ _ _ _ 0 (pl_int _ _ _ _ _ Hx) ltac:(lia))
    as (ptrs' & E & Pp & _ & Pok).
  rewrite Ep in E. injection E as <-. specialize (Pok eq_refl).
  assert (Hlen : (outf * n <= length (frame_data_ (mutable_data f)))%nat).
  { rewrite (fr_length _ _ _ Hm). apply Hm. }
  destruct (proj1 (wp_ok _ _) (wp_Interleave (cb_data (ibuf_ x)) ptrs outf n
    (frame_data_ (mutable_data f)) Pok Hlen)) as (d & Ed & Ld & _).
  pose proof (wp_Interleave_Forall i16 (cb_data (ibuf_ x)) ptrs outf n _ Pok Hlen
    (plain_samples _ _ _ _ _ Hx) (fr_samples _ _ _ Hm)) as D16.
  rewrite Ed in *. apply wp_ret. split.
  - destruct Hm. constructor; try done. cbn. congruence.
  - intros xs Hxs Hv.
    destruct (interleave_deinterleaved xs (cb_data (ibuf_ x)) (frame_data_ (mutable_data f))
      outf n ptrs Pok) as (d' & Ed' & Ht & _); [|done|done|congruence].
    intros i p Hi E. rewrite (Pp i Hi) in E. injection E as <-.
    rewrite ?Nat.mul_0_l, Nat.add_0_r. by apply Hv.
Qed.

Lemma wp_InterleaveTo inf pf outf nin n c b f :
  buffer_ok pf nin n n b -> devices_ok inf pf outf n c b -> 0 <= c < max_calls ->
  audio_frame_ok outf n f ->
  wp (InterleaveTo b f true) (fun '(b', f') => buffer_ok pf nin n n b' /\
    devices_ok inf pf outf n (c + 1) b' /\ audio_frame_ok outf n f' /\
    muted_ f' = false /\ vad_activity_ f' = activity_ b /\
    (pf = outf -> forall xs, (pf * n <= length xs)%nat ->
      (forall i, (i < n)%nat ->
         view pf (i * pf) (ints (data_ b)) = lane pf n (drop i xs)) ->
      take (pf * n) (frame_data_ f') = take (pf * n) xs)).
Proof.
  intros H Hdev Hc Hf. unfold InterleaveTo. cbv zeta.
  set (f1 := set_vad_activity (activity_ b) f).
  assert (Hf1 : audio_frame_ok outf n f1) by (destruct Hf; by constructor).
  assert (Ha : vad_activity_ (mutable_data f1) = activity_ b)
    by (unfold mutable_data; by destruct (muted_ f1)).
  rewrite (fr_channels _ _ _ Hf1), (fr_frames _ _ _ Hf1), (bo_visible _ _ _ _ _ H),
    (de_output _ _ _ _ _ _ Hdev), (bo_proc _ _ _ _ _ H), !Nat.eqb_refl.
  cbn [negb orb].
  apply wp_bind. apply (wp_mono _ (fun '(b1, x) => buffer_ok pf nin n n b1 /\
    devices_ok inf pf outf n (c + 1) b1 /\ plain outf 1 n n x /\
    (pf = outf -> cb_data (ibuf_ x) = ints (data_ b)))).
  - destruct (Nat.eqb_spec pf outf) as [->|Hne].
    + destruct (plain_ibuf _ _ _ _ _ (bo_data _ _ _ _ _ H)) as (x & -> & Hx & Vx & Ex).
      rewrite bind_ok. apply wp_ret. split; [destruct H; by constructor|].
      split; [|done]. apply (devices_mono _ _ _ _ c); [|lia]. by apply (devices_same _ _ _ _ _ b).
    + apply wp_bind. eapply wp_mono.
      { apply (wp_resample_all fbuf pf outf n c); try done.
        - intros y Hy. eapply wp_mono; [by apply plain_fbuf|]. by intros y' [Hy' _].
        - apply (bo_data _ _ _ _ _ H).
        - apply (de_out_buffer _ _ _ _ _ _ Hdev).
        - by apply (de_out _ _ _ _ _ _ Hdev). }
      intros [[d o] rs] (Hd & Ho & Hrs).
      destruct (plain_ibuf _ _ _ _ _ Ho) as (x & -> & Hx & Vx & Ex). rewrite bind_ok.
      apply wp_ret. split; [destruct H; by constructor|]. split; [|done].
      destruct Hdev as [E1 E2 Di Do Dp Db Dob]. constructor; try done.
      intros Hne'. apply (ready_mono _ _ _ c); [by apply Di|lia].
  - intros [b1 x] (H1 & D1 & Hx & Ex).
    destruct (shape_channel_pointers _ _ _ _ _ 0 (pl_int _ _ _ _ _ Hx) ltac:(lia))
      as (ptrs & Ep & _). rewrite Ep, bind_ok.
    rewrite (fr_channels _ _ _ (mutable_data_ok _ _ _ Hf1)), (bo_visible _ _ _ _ _ H1),
      (de_output _ _ _ _ _ _ D1), Nat.eqb_refl.
    apply wp_bind. eapply wp_mono; [by apply (interleaved_frame outf n x f1 ptrs)|].
    intros d (Hd & Hv). apply wp_ret. split; [done|]. split; [done|]. split; [done|].
    split; [done|]. split; [done|]. intros -> xs Hxs Hvx. apply Hv; [done|].
    intros i Hi. rewrite Ex by done. by apply Hvx.
Qed.

(** ** Bands *)

Lemma wp_SplitIntoFrequencyBands pf nin n b :
  frames_ok pf -> (1 < band_count pf)%nat -> buffer_ok pf nin n n b ->
  wp (SplitIntoFrequencyBands b) (buffer_ok pf nin n n).
Proof.
  intros Hpf Hb H. pose proof (bo_split _ _ _ _ _ H) as Hs. unfold splitting_ok in Hs.
  rewrite (proj2 (Nat.ltb_lt _ _) Hb) in Hs. destruct Hs as (x & sf & Ex & Ef & Hx & Hn & H2 & H3).
  unfold SplitIntoFrequencyBands. rewrite Ex, Ef. apply wp_bind.
  pose proof (bo_data _ _ _ _ _ H) as Hd.
  destruct (many_bands pf Hpf Hb) as [->| ->]; cbn [band_count Nat.eqb] in *.
  - destruct (H2 eq_refl) as [Hl Hs].
    eapply wp_mono; [apply (wp_Analysis2 160 n); (done || (unfold kMaxBandFrameLength; lia))|].
    intros [[sf' d] x'] (Hd' & Hx' & Hn' & Hl' & Hs'). apply wp_ret.
    destruct H. constructor; try done. by exists x', sf'.
  - destruct (H3 eq_refl) as [Hl Hs].
    eapply wp_mono; [by apply (wp_Analysis3 160 n)|].
    intros [[sf' d] x'] (Hd' & Hx' & Hn' & Hl' & Hs'). apply wp_ret.
    destruct H. constructor; try done. by exists x', sf'.
Qed.

Lemma wp_MergeFrequencyBands pf nin n k b :
  frames_ok pf -> (1 < band_count pf)%nat -> buffer_ok pf nin n k b -> (k <= n)%nat ->
  wp (MergeFrequencyBands b) (buffer_ok pf nin n k).
Proof.
  intros Hpf Hb H Hk. pose proof (bo_split _ _ _ _ _ H) as Hs. unfold splitting_ok in Hs.
  rewrite (proj2 (Nat.ltb_lt _ _) Hb) in Hs. destruct Hs as (x & sf & Ex & Ef & Hx & Hn & H2 & H3).
  unfold MergeFrequencyBands. rewrite Ex, Ef. apply wp_bind.
  pose proof (bo_data _ _ _ _ _ H) as Hd.
  destruct (many_bands pf Hpf Hb) as [->| ->]; cbn [band_count Nat.eqb] in *.
  - destruct (H2 eq_refl) as [Hl Hs].
    eapply wp_mono; [apply (wp_Synthesis2 160 n k); (done || (unfold kMaxBandFrameLength; lia))|].
    intros [[sf' x'] d] (Hx' & Hd' & Hn' & Hl' & Hs'). apply wp_ret.
    destruct H. constructor; try done. by exists x', sf'.
  - destruct (H3 eq_refl) as [Hl Hs].
    eapply wp_mono; [by apply (wp_Synthesis3 160 n k)|].
    intros [[sf' x'] d] (Hx' & Hd' & Hn' & Hl' & Hs'). apply wp_ret.
    destruct H. constructor; try done. by exists x', sf'.
Qed.

Lemma split_plain pf nin n k b :
  buffer_ok pf nin n k b -> plain pf (band_count pf) n k (split_buffer b).
Proof.
  intros H. pose proof (bo_split _ _ _ _ _ H) as Hs. unfold splitting_ok in Hs.
  unfold split_buffer. destruct (Nat.ltb_spec 1 (band_count pf)) as [Hb|Hb].
  - by destruct Hs as (x & sf & -> & _ & Hx & _).
  - destruct Hs as [-> _]. pose proof (band_count_pos pf).
    replace (band_count pf) with 1%nat by lia. apply H.
Qed.

Lemma set_split_buffer_ok pf nin n k b x :
  buffer_ok pf nin n k b -> plain pf (band_count pf) n k x ->
  buffer_ok pf nin n k (set_split_buffer x b).
Proof.
  intros H Hx. pose proof (bo_split _ _ _ _ _ H) as Hs. unfold splitting_ok in Hs.
  unfold set_split_buffer. destruct (1 <? band_count pf)%nat eqn:Eb.
  - destruct Hs as (y & sf & Ey & Ef & Hy & Hrest). rewrite Ey.
    destruct H. constructor; try done. unfold splitting_ok. rewrite Eb. by exists x, sf.
  - destruct Hs as [E1 E2]. rewrite E1. apply Nat.ltb_ge in Eb. pose proof (band_count_pos pf).
    replace (band_count pf) with 1%nat in Hx by lia. by destruct H; constructor.
Qed.

Lemma split_buffer_set x b : split_buffer (set_split_buffer x b) = x.
Proof. unfold split_buffer, set_split_buffer. by destruct (split_data_ b) eqn:E; cbn; rewrite ?E. Qed.

(** The samples of the bands: what read access to them gives. *)
Definition band_samples (b : AudioBuffer) : list Z := ints (split_buffer b).

Lemma band_samples_ok pf nin n k b :
  buffer_ok pf nin n k b ->
  Forall i16 (band_samples b) /\ length (band_samples b) = (pf * n)%nat.
Proof. intros H. eapply plain_ints. by apply (split_plain _ nin). Qed.

(** Pointers to the bands of channel [i]. *)
Definition band_pointers (pf i : nat) (ptrs : list nat) (mem : list Z) : Prop :=
  (forall j, (j < band_count pf)%nat -> ptrs !! j = Some (i * pf + j * split_frames pf)%nat) /\
  pointers_ok (split_frames pf) (band_count pf) ptrs mem.

(** The state after an access to the bands: their samples are in the integers. *)
Definition accessed (pf nin n k : nat) (b b' : AudioBuffer) : Prop :=
  buffer_ok pf nin n k b' /\ ivalid_ (split_buffer b') = true /\
  split_samples b' = band_samples b /\ band_samples b' = band_samples b.

Lemma accessed_set pf nin n k b x :
  buffer_ok pf nin n k b -> plain pf (band_count pf) n k x -> ivalid_ x = true ->
  cb_data (ibuf_ x) = band_samples b -> accessed pf nin n k b (set_split_buffer x b).
Proof.
  intros H Hx Vx Ex. unfold accessed, split_samples, band_samples at 2.
  rewrite split_buffer_set, (ints_valid x Vx). split; [by apply set_split_buffer_ok|done].
Qed.

Lemma accessed_trans pf nin n k b b' b'' :
  accessed pf nin n k b b' -> accessed pf nin n k b' b'' -> accessed pf nin n k b b''.
Proof. intros (_ & _ & _ & E) (H & V & E1 & E2). split; [done|]. split; [done|]. split; congruence. Qed.

Lemma split_bands_const_spec pf nin n k b i :
  buffer_ok pf nin n k b -> frames_ok pf -> (i < k)%nat ->
  exists ptrs b', split_bands_const b i = Ok (ptrs, b') /\ accessed pf nin n k b b' /\
    num_split_frames_ b' = num_split_frames_ b /\
    band_pointers pf i ptrs (band_samples b).
Proof.
  intros H Hpf Hi.
  destruct (plain_const _ _ _ _ _ (split_plain _ _ _ _ _ H)) as (x & Ec & Hx & Vx & Ex).
  destruct (shape_band_pointers _ _ _ _ _ i (pl_int _ _ _ _ _ Hx) Hi) as (ptrs & E & P1 & P2).
  rewrite (frames_div pf Hpf) in P1, P2. rewrite Ex in P2.
  unfold split_bands_const. rewrite Ec, bind_ok, E, bind_ok.
  eexists _, _. split; [done|]. split; [by apply accessed_set|]. split; [|done].
  unfold set_split_buffer. by destruct (split_data_ b).
Qed.

Lemma split_bands_spec pf nin n k b i :
  buffer_ok pf nin n k b -> frames_ok pf -> (i < k)%nat ->
  exists ptrs b', split_bands b i = Ok (ptrs, b') /\ accessed pf nin n k b b' /\
    band_pointers pf i ptrs (band_samples b).
Proof.
  intros H Hpf Hi. set (b1 := set_mixed_valid false b).
  assert (H1 : buffer_ok pf nin n k b1) by (destruct H; by constructor).
  destruct (plain_ibuf _ _ _ _ _ (split_plain _ _ _ _ _ H1)) as (x & Ec & Hx & Vx & Ex).
  destruct (shape_band_pointers _ _ _ _ _ i (pl_int _ _ _ _ _ Hx) Hi) as (ptrs & E & P1 & P2).
  rewrite (frames_div pf Hpf) in P1, P2. rewrite Ex in P2.
  unfold split_bands. fold b1. rewrite Ec, bind_ok, E, bind_ok.
  eexists _, _. split; [done|]. split; [|done].
  by apply (accessed_set pf nin n k b1).
Qed.

Lemma store_split_ok pf nin n k b d :
  buffer_ok pf nin n k b -> ivalid_ (split_buffer b) = true ->
  length d = length (split_samples b) -> Forall i16 d ->
  buffer_ok pf nin n k (store_split d b) /\ band_samples (store_split d b) = d.
Proof.
  intros H V Hd D16. unfold store_split, band_samples. rewrite split_buffer_set. split.
  - apply set_split_buffer_ok; [done|]. apply plain_written; [|done|done|done].
    by apply (split_plain _ nin).
  - by rewrite ints_valid.
Qed.

(** The bands of channel [i] of a memory. *)
Definition channel_bands (pf i : nat) (mem : list Z) : list (list Z) :=
  map (fun j => view (split_frames pf) (i * pf + j * split_frames pf) mem)
      (seq 0 (band_count pf)).

Lemma channel_bands_ok pf i ptrs mem :
  band_pointers pf i ptrs mem -> Forall i16 mem ->
  length (channel_bands pf i mem) = band_count pf /\
  Forall (fun x => Forall i16 x /\ length x = split_frames pf) (channel_bands pf i mem).
Proof.
  intros [P1 P2] Hm. unfold channel_bands. rewrite length_map, length_seq. split; [done|].
  apply Forall_fmap, Forall_forall. intros j Hj. apply in_seq in Hj. cbn.
  split; [by apply Forall_view|]. apply length_view.
  apply (ptr_range _ _ _ _ P2 j); [lia|]. apply P1. lia.
Qed.

Lemma fetch_all_bands pf i ptrs mem :
  band_pointers pf i ptrs mem ->
  fetch_all (split_frames pf) (band_count pf) ptrs mem = Ok (channel_bands pf i mem).
Proof.
  intros [P1 P2]. unfold fetch_all, channel_bands.
  assert (Hall : Forall (fun j => (j < band_count pf)%nat) (seq 0 (band_count pf))).
  { apply Forall_forall. intros j Hj. apply in_seq in Hj. lia. }
  induction Hall as [|j l Hj _ IH]; [done|]. cbn [mapM map].
  pose proof (ptr_range _ _ _ _ P2 j _ Hj (P1 j Hj)).
  rewrite (rd_Some _ _ _ (P1 j Hj)), bind_ok, fetch_ok by lia.
  by rewrite bind_ok, IH.
Qed.

Lemma wp_put_all_bands pf i ptrs xss mem :
  band_pointers pf i ptrs mem -> length xss = band_count pf ->
  Forall (fun x => Forall i16 x /\ length x = split_frames pf) xss -> Forall i16 mem ->
  wp (put_all ptrs xss mem) (fun mem' => length mem' = length mem /\ Forall i16 mem' /\
    channel_bands pf i mem' = xss /\
    forall i' ptrs', i' <> i -> frames_ok pf -> band_pointers pf i' ptrs' mem ->
      channel_bands pf i' mem' = channel_bands pf i' mem).
Proof.
  intros [P1 P2] Hl Hx Hm. unfold put_all. rewrite Hl.
  assert (Hget : forall j, (j < band_count pf)%nat -> exists xs, xss !! j = Some xs /\
     Forall i16 xs /\ length xs = split_frames pf).
  { intros j Hj. destruct (lookup_lt_is_Some_2 xss j) as [xs E]; [lia|].
    exists xs. split; [done|]. by apply (Forall_lookup_1 _ _ _ _ Hx E). }
  eapply wp_mono; [apply wp_and|].
  { apply (wp_loop_regions (split_frames pf) (band_count pf) ptrs
      (fun j => default [] (xss !! j)) _ mem P2).
    - intros j Hj. destruct (Hget j Hj) as (xs & -> & _ & E). done.
    - intros j p m Hj Ep Hlm. destruct (Hget j Hj) as (xs & E & _ & Lx).
      rewrite (rd_Some _ _ _ Ep), bind_ok, (rd_Some _ _ _ E), bind_ok, E. cbn [default].
      apply wp_put. pose proof (ptr_range _ _ _ _ P2 j p Hj Ep). cbn. lia. }
  { apply (wp_loop_inv (fun m => Forall i16 m /\ length m = length mem)); [done|].
    intros j m Hj [M1 M2]. destruct (Hget j Hj) as (xs & E & X16 & Lx).
    rewrite (rd_Some _ _ _ (P1 j Hj)), bind_ok, (rd_Some _ _ _ E), bind_ok.
    pose proof (ptr_range _ _ _ _ P2 j _ Hj (P1 j Hj)).
    eapply wp_mono; [apply wp_put_samples; [lia|done|done]|].
    intros m' (_ & L' & M'). split; [done|congruence]. }
  intros mem' [(L & Hv & Ho) [M16 _]]. split; [done|]. split; [done|]. split.
  - apply list_eq. intros j. unfold channel_bands. rewrite list_lookup_fmap.
    destruct (decide (j < band_count pf)%nat) as [Hj|Hj].
    + rewrite lookup_seq_lt by done. cbn. rewrite (Hv j _ Hj (P1 j Hj)).
      by destruct (Hget j Hj) as (xs & -> & _).
    + rewrite lookup_seq_ge by lia. cbn. by rewrite lookup_ge_None_2 by lia.
  - intros i' ptrs' Hne Hpf [Q1 Q2]. unfold channel_bands. apply map_ext_in.
    intros j Hj. apply in_seq in Hj. pose proof (frames_split pf Hpf) as [Epf _].
    apply Ho.
    + apply (ptr_range _ _ _ _ Q2 j); [lia|]. apply Q1. lia.
    + intros j' p Hj' Ep. rewrite (P1 j' Hj') in Ep. injection Ep as <-.
      destruct (Nat.lt_trichotomy i i') as [Hlt|[->|Hlt]]; [right|done|left]; nia.
Qed.

(** ** Low band *)

Lemma wp_mixed_low_pass_data pf nin n k b :
  buffer_ok pf nin n k b -> frames_ok pf -> (0 < k <= n)%nat -> Z.of_nat n <= 65536 ->
  wp (mixed_low_pass_data b) (fun '(x, b') => Forall i16 x /\ length x = split_frames pf /\
    buffer_ok pf nin n k b' /\ band_samples b' = band_samples b).
Proof.
  intros H Hpf Hk Hmax. unfold mixed_low_pass_data. rewrite (bo_procs _ _ _ _ _ H).
  pose proof (split_plain _ _ _ _ _ H) as Hx.
  pose proof (band_samples_ok _ _ _ _ _ H) as [X16 _].
  destruct (Nat.eqb_spec n 1) as [->|Hne].
  - destruct (split_bands_const_spec _ _ _ _ _ 0 H Hpf ltac:(lia))
      as (ptrs & b1 & -> & (Hb1 & V1 & Es & Eb) & En & P1 & P2).
    rewrite bind_ok. specialize (P1 0%nat (band_count_pos pf)).
    rewrite (rd_Some ptrs kBand0To8kHz _ P1), bind_ok, (bo_frames _ _ _ _ _ Hb1), Es.
    pose proof (ptr_range _ _ _ _ P2 0%nat _ (band_count_pos pf) P1).
    rewrite fetch_ok, bind_ok by done. apply wp_ret.
    split; [by apply Forall_view|]. split; [by apply length_view|done].
  - assert (Hread : forall b', buffer_ok pf nin n k b' -> band_samples b' = band_samples b ->
      mixed_low_pass_channels_ b' <> None ->
      wp (match mixed_low_pass_channels_ b' with
          | None => Fault NullPointer
          | Some m => first ← channels m 0; p ← rd first 0;
                      x ← fetch (num_split_frames_ b') p (cb_data m); Ok (x, b')
          end) (fun '(x, b') => Forall i16 x /\ length x = split_frames pf /\
             buffer_ok pf nin n k b' /\ band_samples b' = band_samples b)).
    { intros b' Hb' Es Hm. destruct (mixed_low_pass_channels_ b') as [m|] eqn:Em; [|done].
      destruct (bo_mixed _ _ _ _ _ Hb' m Em) as (Cm & M1 & M2 & M3 & M4 & M5).
      rewrite channels_ok, bind_ok by lia.
      pose proof (channel_pointer m 0 0 Cm ltac:(lia) ltac:(lia)) as Ep.
      pose proof (rd_Some _ 0 _ Ep) as Er. change (Z.of_nat 0) with 0 in Er.
      rewrite Er, bind_ok, (bo_frames _ _ _ _ _ Hb').
      pose proof (cb_start_range m 0 0 Cm ltac:(lia) ltac:(lia)) as Hr. rewrite M3 in Hr.
      rewrite fetch_ok, bind_ok by done. apply wp_ret.
      split; [by apply Forall_view|]. split; [by apply length_view|done]. }
    destruct (mixed_low_pass_valid_ b) eqn:Ev.
    { rewrite bind_ok. apply Hread; [done|done|]. by apply (bo_mixed_valid _ _ _ _ _ H). }
    apply wp_bind, wp_bind. rewrite (bo_frames _ _ _ _ _ H).
    assert (Hm : wp (match mixed_low_pass_channels_ b with
        | Some m => Ok m | None => ChannelBuffer_new 0 (split_frames pf) 1 1 end)
        (mixed_ok (split_frames pf))).
    { destruct (mixed_low_pass_channels_ b) as [m|] eqn:Em.
      - apply wp_ret. by apply (bo_mixed _ _ _ _ _ H).
      - eapply wp_mono; [apply wp_ChannelBuffer_new; lia|].
        intros m (Cm & D & M1 & M2 & M3 & M4 & M5). rewrite Nat.div_1_r in M2.
        split_and!; try done. rewrite D. apply Forall_replicate. unfold i16. lia. }
    eapply wp_mono; [exact Hm|]. intros m (Cm & M1 & M2 & M3 & M4 & M5).
    destruct (plain_const _ _ _ _ _ Hx) as (x & Ex & Hx1 & Vx & Edx). rewrite Ex, bind_ok.
    destruct (shape_channel_pointers _ _ _ _ _ 0 (pl_int _ _ _ _ _ Hx1) (band_count_pos pf))
      as (ptrs & Ec & P1 & P2 & _).
    unfold kBand0To8kHz. rewrite Ec, bind_ok. cbv zeta.
    rewrite (frames_div pf Hpf), Edx in P2.
    destruct (accessed_set pf nin n k b x H Hx1 Vx Edx) as (H1 & V1 & Es & Eb).
    set (b1 := set_split_buffer x b) in *.
    rewrite (bo_frames _ _ _ _ _ H1), (bo_visible _ _ _ _ _ H1), Es.
    apply wp_bind. eapply wp_mono.
    { apply wp_DownmixToMono; [|lia|lia|done]. destruct P2 as [Q1 Q2 Q3].
      constructor; [lia|intros i p Hi; apply Q2; lia|].
      intros i j p q Hi Hj. apply Q3; lia. }
    intros out [Lo Ho].
    assert (O16 : Forall i16 out).
    { apply Forall_lookup_2. intros i v Hv. by destruct (Ho i v Hv). }
    rewrite channels_ok, bind_ok by lia.
    pose proof (channel_pointer m 0 0 Cm ltac:(lia) ltac:(lia)) as Ep.
    pose proof (rd_Some _ 0 _ Ep) as Er. change (Z.of_nat 0) with 0 in Er.
    rewrite Er, bind_ok. apply wp_bind.
    pose proof (cb_start_range m 0 0 Cm ltac:(lia) ltac:(lia)) as Hr. rewrite M3 in Hr.
    eapply wp_mono; [apply wp_put_samples; [lia|done|done]|].
    intros d (_ & Ld & D16). apply wp_ret. apply Hread.
    + destruct H1. constructor; try done. cbn. intros c [= <-].
      split_and!; try done. by apply cb_ok_data.
    + exact Eb.
    + done.
Qed.

End resamplers.

(** ** Streams of frames *)

(** A frame in, through the bands, and out into a copy of [target]. *)
Definition through_bands `{Architecture} (b : AudioBuffer) : res AudioBuffer :=
  if (1 <? num_bands_ b)%nat
  then b ← SplitIntoFrequencyBands b; MergeFrequencyBands b
  else Ok b.

Fixpoint through `{Architecture} (b : AudioBuffer) (target : AudioFrame)
    (frames : list AudioFrame) : res (list AudioFrame) :=
  match frames with
  | [] => Ok []
  | f :: frames' =>
      b ← DeinterleaveFrom b f;
      b ← through_bands b;
      '(b, out) ← InterleaveTo b target true;
      outs ← through b target frames';
      Ok (out :: outs)
  end.

Lemma frames_pos pf : frames_ok pf -> (0 < pf)%nat.
Proof. intros [->|[->|[->| ->]]]; lia. Qed.

Lemma channels_bound pf nin f :
  (0 < pf)%nat -> audio_frame_ok pf nin f -> Z.of_nat nin <= 65536.
Proof. intros Hp Hf. pose proof (fr_fits _ _ _ Hf). unfold kMaxDataSizeSamples in *. nia. Qed.

Lemma split_devices b b' : SplitIntoFrequencyBands b = Ok b' -> devices b' = devices b /\
  activity_ b' = activity_ b.
Proof.
  unfold SplitIntoFrequencyBands. destruct (splitting_filter_ b), (split_data_ b); try done.
  intros H. apply bind_inv in H as ([[sf d] x] & _ & H). by injection H as <-.
Qed.

Lemma merge_devices b b' : MergeFrequencyBands b = Ok b' -> devices b' = devices b /\
  activity_ b' = activity_ b.
Proof.
  unfold MergeFrequencyBands. destruct (splitting_filter_ b), (split_data_ b); try done.
  intros H. apply bind_inv in H as ([[sf d] x] & _ & H). by injection H as <-.
Qed.

Lemma wp_through_bands `{Architecture} pf nin n b :
  frames_ok pf -> buffer_ok pf nin n n b ->
  wp (through_bands b) (fun b' => buffer_ok pf nin n n b' /\ devices b' = devices b /\
    activity_ b' = activity_ b).
Proof.
  intros Hpf Hb. unfold through_bands. rewrite (bo_bands _ _ _ _ _ Hb).
  destruct (Nat.ltb_spec 1 (band_count pf)) as [Hm|Hm]; [|by apply wp_ret].
  destruct (proj1 (wp_ok _ _) (wp_SplitIntoFrequencyBands pf nin n b Hpf Hm Hb)) as (b1 & E1 & H1).
  rewrite E1, bind_ok. destruct (split_devices _ _ E1) as [D1 A1].
  destruct (proj1 (wp_ok _ _) (wp_MergeFrequencyBands pf nin n n b1 Hpf Hm H1 (le_n n)))
    as (b2 & E2 & H2).
  rewrite E2. destruct (merge_devices _ _ E2) as [D2 A2]. apply wp_ret. split; [done|].
  split; congruence.
Qed.

Lemma through_ok `{LM : Libm, AR : Architecture} inf pf outf nin n frames target :
  frames_ok pf -> (0 < inf)%nat -> (0 < n <= nin)%nat -> n = 1%nat \/ n = nin ->
  audio_frame_ok outf n target -> forall b k c,
  buffer_ok pf nin n k b -> devices_ok inf pf outf n c b -> 0 <= c ->
  c + 2 * zlen frames <= max_calls -> Forall (audio_frame_ok inf nin) frames ->
  exists outs, through b target frames = Ok outs /\
    Forall2 (fun f out => audio_frame_ok outf n out /\ muted_ out = false /\
      vad_activity_ out = vad_activity_ f) frames outs.
Proof.
  intros Hpf Hi Hn Hcase Ht. induction frames as [|f frames IH]; intros b k c Hb Hd Hc Hmax Hf.
  { exists []. split; [done|constructor]. }
  pose proof (Forall_inv Hf) as Hf0. apply Forall_inv_tail in Hf.
  assert (El : zlen (f :: frames) = 1 + zlen frames) by (unfold zlen; cbn; lia).
  assert (0 <= zlen frames) by (unfold zlen; lia).
  destruct (proj1 (wp_ok _ _) (wp_DeinterleaveFrom inf pf outf nin n k c b f Hb Hd ltac:(lia)
    Hf0 Hi Hn Hcase (channels_bound _ _ _ Hi Hf0))) as (b1 & E1 & H1 & D1 & A1 & _).
  destruct (proj1 (wp_ok _ _) (wp_through_bands pf nin n b1 Hpf H1)) as (b2 & E2 & H2 & D2 & A2).
  apply (devices_same inf pf outf n (c + 1)) in D2; [|done].
  destruct (proj1 (wp_ok _ _) (wp_InterleaveTo inf pf outf nin n (c + 1) b2 target H2 D2
    ltac:(lia) Ht)) as ([b3 out] & E3 & H3 & D3 & Ho & Hm & A3 & _).
  destruct (IH b3 n (c + 1 + 1) H3 D3 ltac:(lia) ltac:(lia) Hf) as (outs & E4 & Hall).
  exists (out :: outs). cbn [through]. rewrite E1, bind_ok, E2, bind_ok, E3, bind_ok, E4.
  split; [done|]. constructor; [|done]. split; [done|]. split; [done|]. congruence.
Qed.

(** * Theorems *)

(** C22: a frame that is separated into the channels of a buffer and interleaved
    again keeps its samples and its voice activity: with as many processing as
    input channels and without a change of the number of frames, for 8, 16, 32
    and 48 kHz, muted frames included, whatever the buffer and the target frame
    held before. *)
Theorem frame_roundtrip `{AR : Architecture} pf n k b f target :
  buffer_ok pf n n k b -> devices_ok pf pf pf n 0 b -> frames_ok pf -> (0 < n)%nat ->
  audio_frame_ok pf n f -> audio_frame_ok pf n target ->
  exists b' b'' out,
    DeinterleaveFrom b f = Ok b' /\ InterleaveTo b' target true = Ok (b'', out) /\
    buffer_ok pf n n n b'' /\ muted_ out = false /\
    vad_activity_ out = vad_activity_ f /\
    take (pf * n) (frame_data out) = take (pf * n) (frame_data f).
Proof.
  intros H Hdev Hpf Hn Hf Ht. pose proof (frames_pos pf Hpf) as Hp.
  pose proof (channels_bound pf n f Hp Hf) as Hmax.
  destruct (proj1 (wp_ok _ _) (wp_DeinterleaveFrom pf pf pf n n k 0 b f H Hdev ltac:(done)
    Hf Hp ltac:(lia) ltac:(by right) Hmax)) as (b' & E & Hb' & Hd' & Ha & Hv).
  destruct (Hv eq_refl eq_refl) as [Va Hview].
  destruct (proj1 (wp_ok _ _) (wp_InterleaveTo pf pf pf n n (0 + 1) b' target Hb' Hd'
    ltac:(done) Ht)) as ([b'' out] & E' & Hb'' & _ & _ & Hm & Hact & Hxs).
  exists b', b'', out. split; [done|]. split; [done|]. split; [done|]. split; [done|].
  split; [congruence|]. destruct (frame_data_ok _ _ _ Hf) as [Lf _].
  unfold frame_data at 1. rewrite Hm. apply Hxs; [done|rewrite Lf; apply Hf|].
  by rewrite (ints_valid _ Va).
Qed.

(** C24: a stream of frames through a buffer that works at another rate than its
    devices, with the split into bands and the merge where there are bands.  Between
    any of the rates for which there are resamplers (8 to 48 kHz), every one of the
    first [2 ^ 29] frames is taken in, converted, split, merged and given out: each
    of the resamplers of the channels is called once per frame in its direction,
    and no check fails; the frame given out has the output format, 16-bit samples and the
    voice activity of the frame taken in. *)
Theorem frames_through `{LM : Libm, AR : Architecture} inf pf outf nin n frames target :
  frames_ok pf -> (0 < inf)%nat -> (0 < outf)%nat ->
  convertible inf pf -> convertible pf outf ->
  (0 < n <= nin)%nat -> n = 1%nat \/ n = nin ->
  Forall (audio_frame_ok inf nin) frames -> audio_frame_ok outf n target ->
  2 * zlen frames <= max_calls ->
  exists b outs, AudioBuffer_new inf nin pf n outf = Ok b /\
    through b target frames = Ok outs /\
    Forall2 (fun f out => audio_frame_ok outf n out /\ muted_ out = false /\
      vad_activity_ out = vad_activity_ f) frames outs.
Proof.
  intros Hpf Hi Ho Hci Hco Hn Hcase Hf Ht Hmax.
  destruct (proj1 (wp_ok _ _) (wp_AudioBuffer_create inf pf outf nin n Hpf Hn Hi Ho Hci Hco))
    as (b & E & Hb & Hd).
  destruct (through_ok inf pf outf nin n frames target Hpf Hi Hn Hcase Ht b n 0 Hb Hd)
    as (outs & E' & Hall); [lia|lia|done|].
  by exists b, outs.
Qed.

(** A stereo frame of 10 ms at 48 kHz. *)
Definition stereo_frame : AudioFrame :=
  MkFrame 0 (-1) (-1) 480 48000 2 0 1 0 (replicate kMaxDataSizeSamples 5) false.

Lemma stereo_frame_ok : audio_frame_ok 480 2 stereo_frame.
Proof.
  constructor; try reflexivity.
  - unfold kMaxDataSizeSamples. lia.
  - apply Forall_replicate. unfold i16. lia.
Qed.

Lemma frame_roundtrip_witness :
  exists b b' b'' out, @AudioBuffer_new small_angles 480 2 480 2 480 = Ok b /\
    @DeinterleaveFrom with_sse b stereo_frame = Ok b' /\
    @InterleaveTo with_sse b' (Mute stereo_frame) true = Ok (b'', out) /\
    buffer_ok 480 2 2 2 b'' /\ muted_ out = false /\
    vad_activity_ out = vad_activity_ stereo_frame /\
    take (480 * 2) (frame_data out) = take (480 * 2) (frame_data stereo_frame).
Proof.
  destruct (proj1 (wp_ok _ _) (@wp_AudioBuffer_create small_angles 480 480 480 2 2
    ltac:(unfold frames_ok; lia) ltac:(lia) ltac:(lia) ltac:(lia) ltac:(by left) ltac:(by left)))
    as (b & E & Hb & Hd).
  destruct (@frame_roundtrip with_sse 480 2 2 b stereo_frame (Mute stereo_frame) Hb Hd
    ltac:(unfold frames_ok; lia) ltac:(lia) stereo_frame_ok) as (b' & b'' & out & R).
  - destruct stereo_frame_ok. by constructor.
  - exists b, b', b'', out. exact (conj E R).
Defined.

(** From 48 to 16 kHz and out again at 44.1 kHz. *)
Definition cd_frame : AudioFrame :=
  MkFrame 0 (-1) (-1) 441 44100 2 0 1 0 (replicate kMaxDataSizeSamples 0) true.

Lemma cd_frame_ok : audio_frame_ok 441 2 cd_frame.
Proof.
  constructor; try reflexivity.
  - unfold kMaxDataSizeSamples. lia.
  - apply Forall_replicate. unfold i16. lia.
Qed.

Lemma frames_through_witness :
  exists b outs, @AudioBuffer_new small_angles 480 2 160 2 441 = Ok b /\
    @through with_sse b cd_frame [stereo_frame; stereo_frame] = Ok outs /\
    Forall2 (fun f out => audio_frame_ok 441 2 out /\ muted_ out = false /\
      vad_activity_ out = vad_activity_ f) [stereo_frame; stereo_frame] outs.
Proof.
  apply (@frames_through small_angles with_sse 480 160 441 2 2).
  - unfold frames_ok. lia.
  - lia.
  - lia.
  - exact (convertible_rates 48000 16000 eq_refl eq_refl).
  - exact (convertible_rates 16000 44100 eq_refl eq_refl).
  - lia.
  - by right.
  - exact (Forall_cons_2 _ _ _ stereo_frame_ok
      (Forall_cons_2 _ _ _ stereo_frame_ok (Forall_nil_2 _))).
  - exact cd_frame_ok.
  - change (2 * 2 <= max_calls). vm_compute. discriminate.
Defined.

(** Fewer visible than processing channels: the reference copy reads the bands of
    a channel that is no longer visible. *)
Example reference_needs_all_channels :
  (b ← @AudioBuffer_new small_angles 80 2 80 2 80;
   b ← buffer_set_num_channels b 1;
   CopyLowPassToReference b) = Fault AssertionFailed.
Proof. vm_compute. reflexivity. Qed.
