(* ===== verification/FloatBuffer.v ===== *)
(** * The floating-point interface of audio buffers

    [StreamConfig] of [include/audio_processing.h], [AudioBuffer::CopyFrom] and
    [CopyTo] of [audio_buffer.cc], with the accessors to the floats of a buffer.
    The caller's channels are arrays of their own; a keyboard channel is kept with
    the contents it has when it is passed. *)
From S2P Require Import Prelude CInt AudioUtil ChannelBuffer SparseFir ThreeBand Double Conversions Sinc PushSinc AudioBuffer.

(** ** The format of a stream *)

Definition kChunkSizeMs : Z := 10.

Record StreamConfig := MkConfig {
  sample_rate_hz_ : Z; config_num_channels_ : Z; has_keyboard_ : bool; num_frames_ : Z
}.

(** A negative rate gives a huge number of frames. *)
Definition calculate_frames (sample_rate_hz : Z) : res Z :=
  x ← mul32 kChunkSizeMs sample_rate_hz;
  Ok (Z.quot x 1000 mod 2 ^ 64).

Definition StreamConfig_new (sample_rate_hz num_channels : Z) (has_keyboard : bool)
    : res StreamConfig :=
  frames ← calculate_frames sample_rate_hz;
  Ok (MkConfig sample_rate_hz num_channels has_keyboard frames).

Definition set_sample_rate_hz (c : StreamConfig) (value : Z) : res StreamConfig :=
  frames ← calculate_frames value;
  Ok (MkConfig value (config_num_channels_ c) (has_keyboard_ c) frames).
Definition config_set_num_channels (c : StreamConfig) (value : Z) : StreamConfig :=
  MkConfig (sample_rate_hz_ c) value (has_keyboard_ c) (num_frames_ c).
Definition set_has_keyboard (c : StreamConfig) (value : bool) : StreamConfig :=
  MkConfig (sample_rate_hz_ c) (config_num_channels_ c) value (num_frames_ c).

Definition num_samples (c : StreamConfig) : Z :=
  (config_num_channels_ c * num_frames_ c) mod 2 ^ 64.

(** [operator==] and [operator!=]; the number of frames follows from the rate. *)
Definition config_eqb (a b : StreamConfig) : bool :=
  (sample_rate_hz_ a =? sample_rate_hz_ b) &&
  (config_num_channels_ a =? config_num_channels_ b) &&
  Bool.eqb (has_keyboard_ a) (has_keyboard_ b).
Definition config_neqb (a b : StreamConfig) : bool := negb (config_eqb a b).

Definition KeyboardChannelIndex (c : StreamConfig) : res Z :=
  if negb (has_keyboard_ c) then Fault AssertionFailed
  else Ok (to_i32 (config_num_channels_ c)).

Section buffer.
Context `{LM : Libm, AR : Architecture}.

(** ** From the caller's channels *)

(** A buffer after writes to its floats. *)
Definition with_floats (d : list float) (x : IFChannelBuffer) : IFChannelBuffer :=
  MkIF (ivalid_ x) (ibuf_ x) (fvalid_ x) (with_data (fbuf_ x) d).

(** The memory that each pointer of [channels()] designates. *)
Definition channel_arrays (x : ChannelBuffer float) : res (list (list float)) :=
  ptrs ← channels x 0;
  Ok (map (fun p => drop p (cb_data x)) ptrs).

Definition downmix_input (b : AudioBuffer) (data : list (list float))
    : res (AudioBuffer * list (list float)) :=
  match input_buffer_ b with
  | None => Fault NullPointer
  | Some x =>
      x ← fbuf x;
      ptrs ← channels (fbuf_ x) 0;
      q ← rd ptrs 0;
      out ← DownmixToMono_float data (input_num_frames_ b) (num_input_channels_ b);
      d ← put q out (cb_data (fbuf_ x));
      x ← fbuf_const (with_floats d x);
      data_ptr ← channel_arrays (fbuf_ x);
      Ok (set_input_buffer (Some x) b, data_ptr)
  end.

Definition resample_input (b : AudioBuffer) (data_ptr : list (list float))
    : res (AudioBuffer * list (list float)) :=
  match process_buffer_ b with
  | None => Fault NullPointer
  | Some x =>
      '(x, rs) ← loop (num_proc_channels_ b) (fun i '(x, rs) =>
        source ← rd data_ptr (Z.of_nat i);
        push_channel i (proc_num_frames_ b) source (input_num_frames_ b) x rs)
        (x, input_resamplers_ b);
      data_ptr ← channel_arrays x;
      Ok (b |> set_process_buffer (Some x) |> set_input_resamplers rs, data_ptr)
  end.

(** One channel to the range of 16-bit samples. *)
Definition channel_to_s16 (i n : nat) (source : list float) (x : IFChannelBuffer)
    : res IFChannelBuffer :=
  x ← fbuf x;
  ptrs ← channels (fbuf_ x) 0;
  q ← rd ptrs (Z.of_nat i);
  d ← FloatToFloatS16_array source n (drop q (cb_data (fbuf_ x)));
  Ok (with_floats (take q (cb_data (fbuf_ x)) ++ d) x).

Definition CopyFrom (b : AudioBuffer) (data : list (list float)) (c : StreamConfig)
    : res AudioBuffer :=
  if negb (num_frames_ c =? Z.of_nat (input_num_frames_ b)) ||
     negb (config_num_channels_ c =? Z.of_nat (num_input_channels_ b))
  then Fault AssertionFailed else
  b ← InitForNewData b;
  let need_to_downmix := (1 <? num_input_channels_ b)%nat && (num_proc_channels_ b =? 1)%nat in
  b ← match input_buffer_ b with
      | None => if need_to_downmix
                then x ← IFChannelBuffer_new (input_num_frames_ b) (num_proc_channels_ b) 1;
                     Ok (set_input_buffer (Some x) b)
                else Ok b
      | Some _ => Ok b
      end;
  b ← (if has_keyboard_ c
       then k ← KeyboardChannelIndex c;
            keyboard ← rd data k;
            Ok (set_keyboard_data (Some keyboard) b)
       else Ok b);
  '(b, data_ptr) ← (if need_to_downmix then downmix_input b data else Ok (b, data));
  '(b, data_ptr) ← (if negb (input_num_frames_ b =? proc_num_frames_ b)%nat
                    then resample_input b data_ptr else Ok (b, data_ptr));
  x ← loop (num_proc_channels_ b) (fun i x =>
    source ← rd data_ptr (Z.of_nat i);
    channel_to_s16 i (proc_num_frames_ b) source x) (data_ b);
  Ok (set_data x b).

(** ** To the caller's channels *)

(** One channel to the range between -1 and 1, into [dst]. *)
Definition channel_to_float (i n : nat) (x : IFChannelBuffer) (dst : list float)
    : res (IFChannelBuffer * list float) :=
  x ← fbuf x;
  ptrs ← channels (fbuf_ x) 0;
  p ← rd ptrs (Z.of_nat i);
  d ← FloatS16ToFloat_array (drop p (cb_data (fbuf_ x))) n dst;
  Ok (x, d).

(** Through the intermediate buffer to other numbers of frames. *)
Definition resample_output (b : AudioBuffer) (data : list (list float))
    : res (AudioBuffer * list (list float)) :=
  match process_buffer_ b with
  | None => Fault NullPointer
  | Some y =>
      '(x, y) ← loop (num_channels_ b) (fun i '(x, y) =>
        ptrs ← channels y 0;
        q ← rd ptrs (Z.of_nat i);
        '(x, d) ← channel_to_float i (proc_num_frames_ b) x (drop q (cb_data y));
        Ok (x, with_data y (take q (cb_data y) ++ d))) (data_ b, y);
      data_ptr ← channel_arrays y;
      '(data, rs) ← loop (num_channels_ b) (fun i '(data, rs) =>
        r ← rd rs (Z.of_nat i);
        source ← rd data_ptr (Z.of_nat i);
        dst ← rd data (Z.of_nat i);
        '(_, r, dst) ← push_float r (Some source) (proc_num_frames_ b) dst
                         (output_num_frames_ b);
        data ← wr data (Z.of_nat i) dst;
        rs ← wr rs (Z.of_nat i) r;
        Ok (data, rs)) (data, output_resamplers_ b);
      Ok (b |> set_data x |> set_process_buffer (Some y) |> set_output_resamplers rs, data)
  end.

Definition CopyTo (b : AudioBuffer) (c : StreamConfig) (data : list (list float))
    : res (AudioBuffer * list (list float)) :=
  if negb (num_frames_ c =? Z.of_nat (output_num_frames_ b)) ||
     negb ((config_num_channels_ c =? Z.of_nat (num_channels_ b)) || (num_channels_ b =? 1)%nat)
  then Fault AssertionFailed else
  '(b, data) ← (if negb (output_num_frames_ b =? proc_num_frames_ b)%nat
                then resample_output b data
                else '(x, data) ← loop (num_channels_ b) (fun i '(x, data) =>
                       dst ← rd data (Z.of_nat i);
                       '(x, d) ← channel_to_float i (proc_num_frames_ b) x dst;
                       data ← wr data (Z.of_nat i) d;
                       Ok (x, data)) (data_ b, data);
                     Ok (set_data x b, data));
  data ← each (fun data i =>
    first ← rd data 0;
    xs ← fetch (output_num_frames_ b) 0 first;
    dst ← rd data (Z.of_nat i);
    dst ← put 0 xs dst;
    wr data (Z.of_nat i) dst) data
    (seq (num_channels_ b) (Z.to_nat (config_num_channels_ c) - num_channels_ b));
  Ok (b, data).

End buffer.

(** ** Accessors

    An accessor makes one side of [data_] or of the bands the valid one ([access]) and
    returns it or pointers into it ([side]); write access forgets the mono mix. *)

Definition access_data (access : IFChannelBuffer -> res IFChannelBuffer) (b : AudioBuffer)
    : res AudioBuffer :=
  x ← access (data_ b); Ok (set_data x b).

Definition access_split (access : IFChannelBuffer -> res IFChannelBuffer) (b : AudioBuffer)
    : res AudioBuffer :=
  x ← access (split_buffer b); Ok (set_split_buffer x b).

(** The objects themselves; the result is found in [data_] or in [split_buffer]. *)
Definition data (b : AudioBuffer) := access_data ibuf (set_mixed_valid false b).
Definition data_const := access_data ibuf_const.
Definition split_data (b : AudioBuffer) := access_split ibuf (set_mixed_valid false b).
Definition split_data_const := access_split ibuf_const.
Definition data_f (b : AudioBuffer) := access_data fbuf (set_mixed_valid false b).
Definition data_const_f := access_data fbuf_const.
Definition split_data_f (b : AudioBuffer) := access_split fbuf (set_mixed_valid false b).
Definition split_data_const_f := access_split fbuf_const.

Section pointers.
Context {A : Type} (access : IFChannelBuffer -> res IFChannelBuffer).
Context (side : IFChannelBuffer -> ChannelBuffer A).

Definition channel_pointers (b : AudioBuffer) : res (list nat * AudioBuffer) :=
  b ← access_data access b;
  ptrs ← channels (side (data_ b)) 0;
  Ok (ptrs, b).

Definition bands_pointers (b : AudioBuffer) (channel : nat) : res (list nat * AudioBuffer) :=
  b ← access_split access b;
  ptrs ← bands (side (split_buffer b)) channel;
  Ok (ptrs, b).

(** [None] is the null pointer: a buffer without bands has only the first. *)
Definition band_channels (b : AudioBuffer) (band : nat)
    : res (option (list nat) * AudioBuffer) :=
  match split_data_ b with
  | Some _ => b ← access_split access b;
              ptrs ← channels (side (split_buffer b)) band;
              Ok (Some ptrs, b)
  | None => if (band =? kBand0To8kHz)%nat
            then '(ptrs, b) ← channel_pointers b; Ok (Some ptrs, b)
            else Ok (None, b)
  end.

End pointers.

Definition channels_ (b : AudioBuffer) := channel_pointers ibuf ibuf_ (set_mixed_valid false b).
Definition channels_const := channel_pointers ibuf_const ibuf_.
Definition channels_f (b : AudioBuffer) := channel_pointers fbuf fbuf_ (set_mixed_valid false b).
Definition channels_const_f := channel_pointers fbuf_const fbuf_.
Definition split_channels (b : AudioBuffer) :=
  band_channels ibuf ibuf_ (set_mixed_valid false b).
Definition split_channels_const := band_channels ibuf_const ibuf_.
Definition split_channels_f (b : AudioBuffer) :=
  band_channels fbuf fbuf_ (set_mixed_valid false b).
Definition split_channels_const_f := band_channels fbuf_const fbuf_.
Definition split_bands_f (b : AudioBuffer) :=
  bands_pointers fbuf fbuf_ (set_mixed_valid false b).
Definition split_bands_const_f := bands_pointers fbuf_const fbuf_.

(** * Lemmas *)

(** What has been written from the start of an array. *)
Lemma wrote_prefix {A} (vs mem mem' : list A) :
  (length vs <= length mem)%nat -> wrote (at_range 0 vs) mem mem' ->
  mem' = vs ++ drop (length vs) mem.
Proof.
  intros Hl [L H]. apply list_eq. intros i.
  destruct (decide (i < length mem)%nat) as [Hi|Hi].
  - rewrite H by done. unfold at_range. rewrite decide_True by lia. rewrite Nat.sub_0_r.
    destruct (decide (i < length vs)%nat) as [Hv|Hv].
    + destruct (lookup_lt_is_Some_2 vs i Hv) as [v Ev]. by rewrite lookup_app_l, Ev.
    + rewrite (lookup_ge_None_2 vs), lookup_app_r, lookup_drop by lia. f_equal. lia.
  - rewrite !lookup_ge_None_2; [done| |lia]. rewrite length_app, length_drop. lia.
Qed.

Lemma wp_convert {A B} (f : A -> res B) (g : A -> B) src size dest :
  (forall v, f v = Ok (g v)) -> (size <= length src)%nat -> (size <= length dest)%nat ->
  wp (convert f src size dest) (fun d => d = map g (take size src) ++ drop size dest).
Proof.
  intros Hf Hs Hd. unfold convert.
  assert (Lt : length (map g (take size src)) = size) by (rewrite length_map, length_take; lia).
  eapply wp_mono.
  { apply (wp_loop_range size (map g (take size src)) 0); [done|lia|].
    intros i m v Hv _. pose proof (lookup_lt_Some _ _ _ Hv) as Hi. rewrite Lt in Hi.
    rewrite list_lookup_fmap, lookup_take_lt in Hv by done.
    destruct (src !! i) as [x|] eqn:Ex; [|done]. injection Hv as <-.
    by rewrite (rd_Some _ _ _ Ex), bind_ok, Hf, bind_ok. }
  intros d Hw. rewrite <- Lt at 2. apply wrote_prefix; [lia|done].
Qed.

Lemma splice_wrote {A} q (vs mem : list A) :
  (q + length vs <= length mem)%nat ->
  wrote (at_range q vs) mem (take q mem ++ vs ++ drop (length vs) (drop q mem)).
Proof.
  intros Hq. split.
  { rewrite !length_app, !length_drop, length_take. lia. }
  intros a Ha. unfold at_range. destruct (decide (q <= a)%nat) as [Hle|Hlt].
  - rewrite lookup_app_r; rewrite length_take, Nat.min_l by lia; [|lia].
    destruct (vs !! (a - q)%nat) as [v|] eqn:Ev.
    + by rewrite lookup_app_l by (by eapply lookup_lt_Some).
    + apply lookup_ge_None in Ev. rewrite lookup_app_r, !lookup_drop by lia. f_equal. lia.
  - rewrite lookup_app_l, lookup_take_lt by (rewrite ?length_take; lia). done.
Qed.

(** The float samples of a buffer: what access to them gives. *)
Definition floats (x : IFChannelBuffer) : list float :=
  match fbuf_const x with Ok x' => cb_data (fbuf_ x') | Fault _ => [] end.

Lemma floats_valid x : fvalid_ x = true -> floats x = cb_data (fbuf_ x).
Proof. intros E. unfold floats, fbuf_const, RefreshF. by rewrite E. Qed.

Lemma plain_floats nf nb n k x :
  plain nf nb n k x -> exists x', fbuf x = Ok x' /\ plain nf nb n k x' /\
    fvalid_ x' = true /\ ivalid_ x' = false /\ cb_data (fbuf_ x') = floats x.
Proof.
  intros H. unfold floats, fbuf.
  destruct (proj1 (wp_ok _ _) (plain_fconst _ _ _ _ _ H)) as (y & E & [Hi Hf Hv Hb H16] & Ev & _).
  unfold fbuf_const in *. rewrite E, bind_ok. eexists. split; [done|].
  split; [by constructor|]. by split_and!.
Qed.

Lemma with_floats_plain nf nb n k x d :
  plain nf nb n k x -> fvalid_ x = true -> length d = length (cb_data (fbuf_ x)) ->
  plain nf nb n k (with_floats d x).
Proof. intros. by apply plain_fwritten. Qed.

Definition floats_written (i n : nat) (vs : list float) (x x' : IFChannelBuffer) : Prop :=
  fvalid_ x' = true /\ ivalid_ x' = false /\ wrote (at_range (i * n) vs) (floats x) (floats x').

Lemma wp_channel_to_s16 pf n k i source x :
  plain pf 1 n k x -> (i < n)%nat -> (pf <= length source)%nat ->
  wp (channel_to_s16 i pf source x) (fun x' => plain pf 1 n k x' /\
    floats_written i pf (map FloatToFloatS16 (take pf source)) x x').
Proof.
  intros Hx Hi Hs. unfold channel_to_s16.
  destruct (plain_floats _ _ _ _ _ Hx) as (y & -> & Hy & Vy & Iy & Ey). rewrite bind_ok.
  destruct (shape_channel_pointers _ _ _ _ _ 0 (pl_float _ _ _ _ _ Hy) ltac:(lia))
    as (ptrs & -> & Pp & _).
  rewrite bind_ok, (rd_Some _ _ _ (Pp i Hi)), bind_ok, Nat.mul_0_l, Nat.add_0_r.
  pose proof (shape_length _ _ _ _ _ (pl_float _ _ _ _ _ Hy)) as Ld.
  assert (Hip : (i * pf + pf <= pf * n)%nat) by nia.
  apply wp_bind. eapply wp_mono.
  { apply (wp_convert _ FloatToFloatS16); [done|done|]. rewrite length_drop. lia. }
  set (vs := map FloatToFloatS16 (take pf source)).
  assert (Lv : length vs = pf) by (unfold vs; rewrite length_map, length_take; lia).
  intros d ->. apply wp_ret. pose proof (splice_wrote (i * pf) vs (cb_data (fbuf_ y))
    ltac:(lia)) as Hw. rewrite Lv in Hw.
  split; [apply with_floats_plain; [done|done|apply Hw]|].
  split; [done|]. split; [done|]. rewrite (floats_valid (with_floats _ _)) by done.
  by rewrite <- Ey.
Qed.

(** Arrays of the caller: at least [k], of at least [m] samples each. *)
Definition arrays_ok (m k : nat) (xs : list (list float)) : Prop :=
  (k <= length xs)%nat /\
  forall i x, (i < k)%nat -> xs !! i = Some x -> (m <= length x)%nat.

Lemma arrays_get m k xs i :
  arrays_ok m k xs -> (i < k)%nat -> exists x, xs !! i = Some x /\ (m <= length x)%nat.
Proof.
  intros [L F] Hi. destruct (lookup_lt_is_Some_2 xs i ltac:(lia)) as [x Ex].
  exists x. split; [done|]. by apply (F i).
Qed.

Lemma wp_all_to_s16 pf n k xs x :
  plain pf 1 n k x -> arrays_ok pf n xs ->
  wp (loop n (fun i x => source ← rd xs (Z.of_nat i); channel_to_s16 i pf source x) x)
    (fun x' => plain pf 1 n k x' /\ ((0 < n)%nat -> fvalid_ x' = true /\ ivalid_ x' = false) /\
      forall i source, (i < n)%nat -> xs !! i = Some source ->
        view pf (i * pf) (floats x') = map FloatToFloatS16 (take pf source)).
Proof.
  intros Hx Hxs. eapply wp_mono.
  { apply (wp_loop_index (fun i x => plain pf 1 n k x /\
      ((0 < i)%nat -> fvalid_ x = true /\ ivalid_ x = false) /\
      forall j source, (j < i)%nat -> xs !! j = Some source ->
        view pf (j * pf) (floats x) = map FloatToFloatS16 (take pf source))).
    - split; [done|]. split; lia.
    - intros i y Hi (Hy & _ & Hv). destruct (arrays_get _ _ _ i Hxs Hi) as (s & Es & Ls).
      rewrite (rd_Some _ _ _ Es), bind_ok.
      eapply wp_mono; [by apply (wp_channel_to_s16 pf n k)|]. intros y' (Hy' & V & I & W).
      split; [done|]. split; [done|]. intros j s' Hj Es'.
      assert (Lv : length (map FloatToFloatS16 (take pf s)) = pf)
        by (rewrite length_map, length_take; lia).
      assert (Lf : length (floats y) = (pf * n)%nat).
      { destruct (plain_floats _ _ _ _ _ Hy) as (z & _ & Hz & _ & _ & <-).
        by apply (shape_length _ _ _ _ _ (pl_float _ _ _ _ _ Hz)). }
      destruct (decide (j = i)) as [->|Hne].
      + rewrite Es in Es'. injection Es' as <-. rewrite <- Lv at 1.
        apply (wrote_view _ _ (floats y)); [rewrite Lv; nia|done].
      + rewrite <- (Hv j s') by (done || lia).
        apply (wrote_view_other _ _ _ _ _ _ W); [nia|rewrite Lv; nia]. }
  done.
Qed.

Lemma wp_channel_arrays m n k x :
  shape m 1 n k x -> wp (channel_arrays x) (arrays_ok m n).
Proof.
  intros Hx. unfold channel_arrays.
  destruct (shape_channel_pointers _ _ _ _ _ 0 Hx ltac:(lia)) as (ptrs & -> & Pp & _ & Hok).
  rewrite bind_ok. apply wp_ret. specialize (Hok eq_refl). split.
  - rewrite length_map. apply Hok.
  - intros i d Hi Ed. rewrite list_lookup_fmap, (Pp i Hi) in Ed. injection Ed as <-.
    rewrite length_drop. pose proof (ptr_range _ _ _ _ Hok i _ Hi (Pp i Hi)). lia.
Qed.

(** ** Downmixing and resampling of the input *)

Lemma float_of_count k : (0 < k)%nat -> Z.of_nat k < 2 ^ 24 ->
  float_of_int (Z.of_nat k) = Flt (Z.of_nat k) 0.
Proof. intros H1 H2. unfold float_of_int. by rewrite fl_exact by lia. Qed.

Lemma wp_DownmixToMono_float xs n k :
  (0 < k)%nat -> Z.of_nat k < 2 ^ 24 -> arrays_ok n k xs ->
  wp (DownmixToMono_float xs n k) (fun out => length out = n).
Proof.
  intros Hk Hmax Hxs. unfold DownmixToMono_float. eapply wp_mono.
  { apply (wp_map_seq (fun _ _ => True)). intros i Hi. cbv zeta.
    assert (Hs : forall j, (j < k)%nat ->
      wp (x ← rd xs (Z.of_nat j); rd x (Z.of_nat i)) (fun _ => True)).
    { intros j Hj. destruct (arrays_get _ _ _ j Hxs Hj) as (x & Ex & Lx).
      rewrite (rd_Some _ _ _ Ex), bind_ok. apply wp_rd; [unfold zlen; lia|done]. }
    apply wp_bind. eapply wp_mono; [by apply Hs|]. intros v _.
    apply wp_bind. eapply wp_mono.
    { apply (wp_each (fun _ => True) (fun j => j < k)%nat); [done| |].
      - apply Forall_forall. intros j Hj. apply in_seq in Hj. lia.
      - intros t j _ Hj. apply wp_bind. eapply wp_mono; [by apply Hs|]. done. }
    intros t _. rewrite float_of_count by done. unfold fdiv, divide. cbn [f_man].
    by rewrite (proj2 (Z.eqb_neq _ 0)) by lia. }
  by intros out [L _].
Qed.

Section input.
Context `{AR : Architecture}.

Lemma wp_downmix_input inf pf outf nin n c b x xs :
  buffer_ok pf nin n n b -> devices_ok inf pf outf n c b -> n = 1%nat -> (0 < nin)%nat ->
  Z.of_nat nin < 2 ^ 24 -> arrays_ok inf nin xs -> input_buffer_ b = Some x ->
  wp (downmix_input b xs) (fun '(b', ptrs) => buffer_ok pf nin n n b' /\
    devices_ok inf pf outf n c b' /\ keyboard_data_ b' = keyboard_data_ b /\
    arrays_ok inf n ptrs).
Proof.
  intros H Hdev -> Hn Hmax Hxs Ex. unfold downmix_input. rewrite Ex.
  destruct (plain_floats _ _ _ _ _ (de_in_buffer _ _ _ _ _ _ Hdev x Ex))
    as (y & -> & Hy & Vy & _). rewrite bind_ok.
  destruct (shape_channel_pointers _ _ _ _ _ 0 (pl_float _ _ _ _ _ Hy) ltac:(lia))
    as (ptrs & -> & Pp & _).
  pose proof (rd_Some ptrs 0 _ (Pp 0%nat ltac:(lia))) as E0. change (Z.of_nat 0) with 0 in E0.
  rewrite bind_ok, E0, bind_ok.
  rewrite (de_input _ _ _ _ _ _ Hdev), (bo_inputs _ _ _ _ _ H).
  apply wp_bind. eapply wp_mono; [by apply wp_DownmixToMono_float|]. intros out Lo.
  pose proof (shape_length _ _ _ _ _ (pl_float _ _ _ _ _ Hy)) as Ld.
  apply wp_bind. eapply wp_mono; [apply wp_put; rewrite !Nat.mul_0_l, Lo, Ld; lia|].
  intros d [L _].
  apply wp_bind. eapply wp_mono.
  { apply plain_fconst. by apply with_floats_plain. }
  intros z (Hz & _). apply wp_bind. eapply wp_mono; [exact (wp_channel_arrays _ _ _ _ (pl_float _ _ _ _ _ Hz))|].
  intros arr Harr. apply wp_ret. split; [destruct H; by constructor|]. split; [|done].
  destruct Hdev as [E1 E2 Di Do Dp Db Dob]. constructor; try done. cbn. by intros ? [= <-].
Qed.

Lemma wp_resample_input inf pf outf nin n c b xs :
  buffer_ok pf nin n n b -> devices_ok inf pf outf n c b -> inf <> pf ->
  0 <= c < max_calls -> arrays_ok inf n xs ->
  wp (resample_input b xs) (fun '(b', ptrs) => buffer_ok pf nin n n b' /\
    devices_ok inf pf outf n (c + 1) b' /\ keyboard_data_ b' = keyboard_data_ b /\
    arrays_ok pf n ptrs).
Proof.
  intros H Hdev Hne Hc Hxs. unfold resample_input.
  destruct (de_process _ _ _ _ _ _ Hdev (or_introl Hne)) as (x & -> & Hx).
  rewrite (de_input _ _ _ _ _ _ Hdev), (bo_proc _ _ _ _ _ H), (bo_procs _ _ _ _ _ H).
  pose proof (de_in _ _ _ _ _ _ Hdev Hne) as Hr. apply ready_steps in Hr as [Lr Hr].
  apply wp_bind. eapply wp_mono.
  { apply (wp_loop_index (fun i '(x, rs) => shape pf 1 n n x /\ length rs = n /\
      forall j r, rs !! j = Some r ->
        stream_ok inf pf (if decide (j < i)%nat then c + 1 else c) r)); [done|].
    intros i [y rs] Hi (Hy & L1 & H1). destruct (arrays_get _ _ _ i Hxs Hi) as (s & Es & Ls).
    rewrite (rd_Some _ _ _ Es), bind_ok. eapply wp_mono.
    { apply (wp_push_channel inf pf n c i s y); try done.
      intros r Er. specialize (H1 i r Er). by rewrite decide_False in H1 by lia. }
    intros [y' rs'] (Hy' & r' & -> & Hr'). split; [done|]. by apply ready_step. }
  intros [y rs] (Hy & L1 & H1). apply wp_bind.
  eapply wp_mono; [by apply (wp_channel_arrays pf n n)|]. intros arr Harr. apply wp_ret.
  split; [destruct H; by constructor|]. split; [|done].
  destruct Hdev as [E1 E2 Di Do Dp Db Dob]. constructor; try done.
  - intros _. by apply steps_ready.
  - intros Hne'. apply (ready_mono _ _ _ c); [by apply Do|lia].
  - intros _. by exists y.
Qed.

(** The caller's format and arrays, with a keyboard channel where the format says so. *)
Definition config_ok (m k : nat) (c : StreamConfig) : Prop :=
  num_frames_ c = Z.of_nat m /\ config_num_channels_ c = Z.of_nat k.

Definition input_ok (m k : nat) (c : StreamConfig) (xs : list (list float)) : Prop :=
  arrays_ok m k xs /\ (has_keyboard_ c = true -> (k < length xs)%nat).

Lemma set_num_channels_keyboard b k b' :
  buffer_set_num_channels b k = Ok b' -> keyboard_data_ b' = keyboard_data_ b.
Proof.
  unfold buffer_set_num_channels. cbv zeta. intros H. apply bind_inv in H as (x & _ & H).
  destruct (split_data_ _); [|by injection H as <-].
  apply bind_inv in H as (y & _ & H). by injection H as <-.
Qed.

Lemma wp_keyboard (b : AudioBuffer) c m k xs :
  config_ok m k c -> input_ok m k c xs -> Z.of_nat k < 2 ^ 24 ->
  keyboard_data_ b = None ->
  (if has_keyboard_ c
   then i ← KeyboardChannelIndex c; keyboard ← rd xs i; Ok (set_keyboard_data (Some keyboard) b)
   else Ok b) =
  Ok (set_keyboard_data (if has_keyboard_ c then xs !! k else None) b).
Proof.
  intros [_ Hc] [_ Hk] Hmax Eb. unfold KeyboardChannelIndex.
  destruct (has_keyboard_ c); cbn [negb].
  - rewrite bind_ok, Hc, to_i32_id by (unfold i32; lia).
    destruct (lookup_lt_is_Some_2 xs k (Hk eq_refl)) as [x Ex].
    by rewrite (rd_Some _ _ _ Ex), bind_ok, Ex.
  - rewrite <- Eb. by destruct b.
Qed.

Lemma wp_CopyFrom inf pf outf nin n k c b xs cfg :
  buffer_ok pf nin n k b -> devices_ok inf pf outf n c b -> 0 <= c < max_calls ->
  (0 < inf)%nat -> (0 < n <= nin)%nat -> Z.of_nat nin < 2 ^ 24 ->
  config_ok inf nin cfg -> input_ok inf nin cfg xs ->
  wp (CopyFrom b xs cfg) (fun b' => buffer_ok pf nin n n b' /\
    devices_ok inf pf outf n (c + 1) b' /\
    keyboard_data_ b' = (if has_keyboard_ cfg then xs !! nin else None) /\
    fvalid_ (data_ b') = true /\ ivalid_ (data_ b') = false /\
    (inf = pf -> n = nin -> forall i source, (i < n)%nat -> xs !! i = Some source ->
       view pf (i * pf) (floats (data_ b')) = map FloatToFloatS16 (take pf source))).
Proof.
  intros H Hdev Hc Hinf Hn Hmax Hcfg Hin. pose proof Hcfg as [F1 F2]. pose proof Hin as [Hxs _].
  unfold CopyFrom.
  rewrite F1, F2, (de_input _ _ _ _ _ _ Hdev), (bo_inputs _ _ _ _ _ H), !Z.eqb_refl.
  cbn [negb orb].
  destruct (proj1 (wp_ok _ _) (wp_InitForNewData pf nin n k b H)) as (b1 & E1 & H1 & D1).
  rewrite E1, bind_ok. apply set_num_channels_keyboard in E1.
  change (keyboard_data_ b1 = None) in E1.
  apply (devices_same inf pf outf n c) in D1; [|done]. cbv zeta.
  rewrite (bo_inputs _ _ _ _ _ H1), (bo_procs _ _ _ _ _ H1).
  set (mix := ((1 <? nin) && (n =? 1))%nat).
  apply wp_bind. apply (wp_mono _ (fun b2 => buffer_ok pf nin n n b2 /\
    devices_ok inf pf outf n c b2 /\ keyboard_data_ b2 = None /\
    (mix = true -> input_buffer_ b2 <> None))).
  { destruct (input_buffer_ b1) as [x|] eqn:Ex; [apply wp_ret; by rewrite Ex|].
    destruct mix; [|by apply wp_ret]. rewrite (de_input _ _ _ _ _ _ D1).
    apply wp_bind. eapply wp_mono; [apply plain_new; lia|]. intros x [Hx _]. apply wp_ret.
    split; [destruct H1; by constructor|]. split; [|done].
    destruct D1 as [A1 A2 Di Do Dp Db Dob]. constructor; try done. cbn. by intros ? [= <-]. }
  intros b2 (H2 & D2 & K2 & Hmix). rewrite (wp_keyboard b2 cfg inf nin xs) by done.
  rewrite bind_ok. set (key := if has_keyboard_ cfg then xs !! nin else None).
  set (b3 := set_keyboard_data key b2).
  assert (H3 : buffer_ok pf nin n n b3) by (destruct H2; by constructor).
  assert (D3 : devices_ok inf pf outf n c b3) by (destruct D2; by constructor).
  assert (Hxs3 : arrays_ok inf n xs).
  { destruct Hxs as [L F]. split; [lia|]. intros i x Hi. apply F. lia. }
  apply wp_bind. apply (wp_mono _ (fun '(b4, ptrs) => buffer_ok pf nin n n b4 /\
    devices_ok inf pf outf n c b4 /\ keyboard_data_ b4 = key /\ arrays_ok inf n ptrs /\
    (n = nin -> ptrs = xs))).
  { destruct mix eqn:Em; [|by apply wp_ret].
    apply andb_true_iff in Em as [Em1%Nat.ltb_lt Em2%Nat.eqb_eq].
    destruct (input_buffer_ b2) as [x|] eqn:Ex; [|by destruct (Hmix eq_refl)].
    eapply wp_mono; [apply (wp_downmix_input inf pf outf nin n c b3 x xs); (done || lia)|].
    intros [b4 ptrs] (? & ? & ? & ?). split_and!; try done. intros ?. exfalso. lia. }
  intros [b4 ptrs] (H4 & D4 & K4 & Hp & Ep).
  rewrite (de_input _ _ _ _ _ _ D4), (bo_proc _ _ _ _ _ H4).
  apply wp_bind. apply (wp_mono _ (fun '(b5, ptrs) => buffer_ok pf nin n n b5 /\
    devices_ok inf pf outf n (c + 1) b5 /\ keyboard_data_ b5 = key /\ arrays_ok pf n ptrs /\
    (inf = pf -> n = nin -> ptrs = xs))).
  { destruct (Nat.eqb_spec inf pf) as [->|Hne]; cbn [negb].
    - apply wp_ret. split; [done|]. split; [apply (devices_mono _ _ _ _ c); (done || lia)|].
      by split_and!.
    - eapply wp_mono; [by apply (wp_resample_input inf pf outf nin n c b4 ptrs)|].
      intros [b5 ptrs5] (? & ? & ? & ?). split_and!; try done; congruence. }
  intros [b5 ptrs5] (H5 & D5 & K5 & Hp5 & Ep5).
  rewrite (bo_procs _ _ _ _ _ H5), (bo_proc _ _ _ _ _ H5).
  apply wp_bind. eapply wp_mono.
  { apply (wp_all_to_s16 pf n n ptrs5); [apply H5|done]. }
  intros x (Hx & V & Hv). destruct (V ltac:(lia)) as [V1 V2]. apply wp_ret.
  split; [destruct H5; by constructor|]. split; [destruct D5; by constructor|].
  split; [done|]. split; [done|]. split; [done|]. intros E En. rewrite (Ep5 E En) in Hv. apply Hv.
Qed.

End input.

(** ** Output *)

Section output.
Context `{AR : Architecture}.

Lemma wp_channel_to_float pf n k i x dst :
  plain pf 1 n k x -> (i < n)%nat -> (pf <= length dst)%nat ->
  wp (channel_to_float i pf x dst) (fun '(x', d) => plain pf 1 n k x' /\
    floats x' = floats x /\
    d = map FloatS16ToFloat (view pf (i * pf) (floats x)) ++ drop pf dst).
Proof.
  intros Hx Hi Hd. unfold channel_to_float.
  destruct (plain_floats _ _ _ _ _ Hx) as (y & -> & Hy & Vy & Iy & Ey). rewrite bind_ok.
  destruct (shape_channel_pointers _ _ _ _ _ 0 (pl_float _ _ _ _ _ Hy) ltac:(lia))
    as (ptrs & -> & Pp & _).
  rewrite bind_ok, (rd_Some _ _ _ (Pp i Hi)), bind_ok, Nat.mul_0_l, Nat.add_0_r.
  pose proof (shape_length _ _ _ _ _ (pl_float _ _ _ _ _ Hy)) as Ld.
  apply wp_bind. eapply wp_mono.
  { apply (wp_convert _ FloatS16ToFloat); [done| |done]. rewrite length_drop. nia. }
  intros d ->. apply wp_ret. split; [done|]. rewrite (floats_valid y), Ey by done. done.
Qed.

(** The arrays [xs] after the first [i] have been overwritten by [f]. *)
Definition overwritten (f : nat -> list float -> list float) (i : nat)
    (xs ys : list (list float)) : Prop :=
  length ys = length xs /\
  forall j d, xs !! j = Some d -> ys !! j = Some (if decide (j < i)%nat then f j d else d).

Lemma overwritten_0 f xs : overwritten f 0 xs xs.
Proof. split; [done|]. intros j d Hj. by rewrite decide_False by lia. Qed.

Lemma overwritten_at f i xs ys d :
  overwritten f i xs ys -> xs !! i = Some d -> ys !! i = Some d.
Proof. intros [_ H] E. rewrite (H i d E). by rewrite decide_False by lia. Qed.

Lemma overwritten_step f i xs ys d :
  overwritten f i xs ys -> xs !! i = Some d -> overwritten f (S i) xs (<[i := f i d]> ys).
Proof.
  intros [L H] E. pose proof (lookup_lt_Some _ _ _ E) as Hi.
  split; [by rewrite length_insert|]. intros j e Ej.
  destruct (decide (j = i)) as [->|Hne].
  - rewrite E in Ej. injection Ej as <-. rewrite list_lookup_insert_eq by lia.
    by rewrite decide_True by lia.
  - rewrite list_lookup_insert_ne by done. rewrite (H j e Ej).
    by destruct (decide (j < i)%nat), (decide (j < S i)%nat); (done || lia).
Qed.

Lemma overwritten_arrays f m k i xs ys :
  (forall j d, (m <= length d)%nat -> (m <= length (f j d))%nat) ->
  overwritten f i xs ys -> arrays_ok m k xs -> arrays_ok m k ys.
Proof.
  intros Hf [L H] [Lx Hx]. split; [lia|]. intros j y Hj Ey.
  destruct (lookup_lt_is_Some_2 xs j ltac:(lia)) as [x Ex]. specialize (Hx j x Hj Ex).
  rewrite (H j x Ex) in Ey. injection Ey as <-. destruct (decide _); [by apply Hf|done].
Qed.

Lemma wp_each_seq {S} (I : nat -> S -> Prop) (f : S -> nat -> res S) k m s :
  I k s -> (forall i t, (k <= i < k + m)%nat -> I i t -> wp (f t i) (I (Datatypes.S i))) ->
  wp (each f s (seq k m)) (I (k + m)%nat).
Proof.
  revert k s. induction m as [|m IH]; intros k s Hs Hf.
  - rewrite Nat.add_0_r. by apply wp_ret.
  - cbn [seq each]. apply wp_bind. eapply wp_mono; [apply Hf; [lia|done]|].
    intros t Ht. rewrite Nat.add_succ_r. apply IH; [done|]. intros i u Hi. apply Hf. lia.
Qed.

(** Copies of the first array. *)
Lemma wp_upmix m k K xs first :
  (0 < k <= K)%nat -> arrays_ok m K xs -> xs !! 0%nat = Some first ->
  wp (each (fun xs i =>
        first ← rd xs 0; ys ← fetch m 0 first; dst ← rd xs (Z.of_nat i);
        dst ← put 0 ys dst; wr xs (Z.of_nat i) dst) xs (seq k (K - k)))
     (overwritten (fun j d => if decide (k <= j)%nat then take m first ++ drop m d else d) K xs).
Proof.
  intros Hk Hxs E0. set (f := fun (j : nat) (d : list float) =>
    if decide (k <= j)%nat then take m first ++ drop m d else d).
  replace K with (k + (K - k))%nat at 2 by lia.
  destruct (arrays_get _ _ _ 0 Hxs ltac:(lia)) as (x0 & Ex0 & L0).
  rewrite E0 in Ex0. injection Ex0 as <-.
  apply (wp_each_seq (fun i => overwritten f i xs)).
  { split; [done|]. intros j d Ej. unfold f.
    by destruct (decide (j < k)%nat), (decide (k <= j)%nat); (done || lia). }
  intros i ys Hi Hy. destruct (arrays_get _ _ _ i Hxs ltac:(lia)) as (d & Ed & Ld).
  assert (E0' : ys !! 0%nat = Some first).
  { rewrite (proj2 Hy 0%nat first E0). unfold f. by rewrite decide_True, decide_False by lia. }
  pose proof (rd_Some _ _ _ E0') as R. change (Z.of_nat 0) with 0 in R. rewrite R, bind_ok.
  unfold fetch. rewrite (proj2 (Nat.leb_le _ _)), bind_ok by done.
  rewrite (rd_Some _ _ _ (overwritten_at _ _ _ _ _ Hy Ed)), bind_ok.
  assert (Lv : length (view m 0 first) = m) by (apply length_view; lia).
  apply wp_bind. eapply wp_mono; [apply wp_put; lia|]. intros d' Hw.
  apply wrote_prefix in Hw; [|lia]. rewrite Lv in Hw. unfold view in Hw. rewrite drop_0 in Hw.
  pose proof (lookup_lt_Some _ _ _ Ed). destruct Hy as [Ly Hy].
  apply wp_wr; [unfold zlen; lia|]. rewrite Nat2Z.id.
  replace d' with (f i d) by (unfold f; by rewrite decide_True by lia).
  by apply overwritten_step.
Qed.

Definition sizes (xs : list (list float)) : list nat := map length xs.

Lemma sizes_insert xs i d d' :
  xs !! i = Some d -> length d' = length d -> sizes (<[i := d']> xs) = sizes xs.
Proof.
  intros E L. unfold sizes.
  apply list_eq. intros j. rewrite !list_lookup_fmap.
  destruct (decide (j = i)) as [->|Hne].
  - rewrite list_lookup_insert_eq by (by eapply lookup_lt_Some). rewrite E. cbn. by rewrite L.
  - by rewrite list_lookup_insert_ne.
Qed.

Lemma sizes_arrays m k xs ys : sizes ys = sizes xs -> arrays_ok m k xs -> arrays_ok m k ys.
Proof.
  unfold sizes. intros E [L H]. pose proof (f_equal length E) as El. rewrite !length_map in El.
  split; [lia|]. intros i y Hi Ey. destruct (lookup_lt_is_Some_2 xs i ltac:(lia)) as [x Ex].
  pose proof (f_equal (lookup i) E) as Ei. rewrite !list_lookup_fmap, Ey, Ex in Ei.
  injection Ei as ->. by apply (H i).
Qed.

Lemma overwritten_sizes f i xs ys :
  (forall j d, (j < i)%nat -> xs !! j = Some d -> length (f j d) = length d) ->
  overwritten f i xs ys -> sizes ys = sizes xs.
Proof.
  intros Hf [L H]. unfold sizes. apply list_eq. intros j. rewrite !list_lookup_fmap.
  destruct (xs !! j) as [d|] eqn:E; cbn.
  - rewrite (H j d E). cbn. destruct (decide (j < i)%nat); [|done]. by rewrite (Hf j d).
  - apply lookup_ge_None in E. by rewrite lookup_ge_None_2 by lia.
Qed.

Lemma wp_resample_output inf pf outf nin n k c b xs :
  buffer_ok pf nin n k b -> (k <= n)%nat -> devices_ok inf pf outf n c b -> pf <> outf ->
  0 <= c < max_calls -> arrays_ok outf k xs ->
  wp (resample_output b xs) (fun '(b', ys) => buffer_ok pf nin n k b' /\
    devices_ok inf pf outf n (c + 1) b' /\ sizes ys = sizes xs).
Proof.
  intros H Hk Hdev Hne Hc Hxs. unfold resample_output.
  destruct (de_process _ _ _ _ _ _ Hdev ltac:(by right)) as (y0 & -> & Hy0).
  rewrite (de_output _ _ _ _ _ _ Hdev), (bo_proc _ _ _ _ _ H), (bo_visible _ _ _ _ _ H).
  pose proof (de_out _ _ _ _ _ _ Hdev Hne) as Hr. apply ready_steps in Hr as [Lr Hr].
  apply wp_bind. eapply wp_mono.
  { apply (wp_loop_inv (fun '(x, y) => plain pf 1 n k x /\ shape pf 1 n n y)).
    { split; [apply H|done]. }
    intros i [x y] Hi [Hx Hy].
    destruct (shape_channel_pointers _ _ _ _ _ 0 Hy ltac:(lia)) as (ptrs & -> & Pp & _).
    rewrite bind_ok, (rd_Some _ _ _ (Pp i ltac:(lia))), bind_ok, Nat.mul_0_l, Nat.add_0_r.
    pose proof (shape_length _ _ _ _ _ Hy) as Ld. assert (i * pf + pf <= pf * n)%nat by nia.
    apply wp_bind. eapply wp_mono.
    { apply (wp_channel_to_float pf n k); [done|lia|]. rewrite length_drop. lia. }
    intros [x' d] (Hx' & _ & ->). apply wp_ret. split; [done|]. apply shape_data; [done|].
    assert (Lf : length (floats x) = (pf * n)%nat).
    { destruct (plain_floats _ _ _ _ _ Hx) as (z & _ & Hz & _ & _ & <-).
      by apply (shape_length _ _ _ _ _ (pl_float _ _ _ _ _ Hz)). }
    rewrite !length_app, !length_drop, length_take, length_map, length_view by lia. lia. }
  intros [x y] [Hx Hy]. apply wp_bind.
  eapply wp_mono; [by apply (wp_channel_arrays pf n n y)|]. intros arr Harr.
  apply wp_bind. eapply wp_mono.
  { apply (wp_loop_index (fun i '(ys, rs) => sizes ys = sizes xs /\ length rs = n /\
      forall j r, rs !! j = Some r ->
        stream_ok pf outf (if decide (j < i)%nat then c + 1 else c) r)); [done|].
    intros i [ys rs] Hi (Hy1 & L1 & H1).
    destruct (lookup_lt_is_Some_2 rs i ltac:(lia)) as [r Er].
    destruct (arrays_get _ _ _ i Harr ltac:(lia)) as (s & Es & Ls).
    destruct (arrays_get _ _ _ i (sizes_arrays _ _ _ _ Hy1 Hxs) Hi) as (d & Ed & Ld).
    rewrite (rd_Some _ _ _ Er), bind_ok, (rd_Some _ _ _ Es), bind_ok, (rd_Some _ _ _ Ed), bind_ok.
    pose proof (H1 i r Er) as Hri. rewrite decide_False in Hri by lia.
    apply wp_bind. eapply wp_mono; [apply (wp_push_float pf outf c); (done || lia)|].
    intros [[m r'] d'] (_ & Ld' & Hr' & _). pose proof (lookup_lt_Some _ _ _ Ed).
    apply wp_bind, wp_wr; [unfold zlen; lia|]. apply wp_bind, wp_wr; [unfold zlen; lia|].
    apply wp_ret. rewrite !Nat2Z.id. split.
    - rewrite <- Hy1. by apply (sizes_insert ys i d).
    - apply (ready_step pf outf n c i rs r'); (done || lia). }
  intros [ys rs] (Hys & L1 & H1). apply wp_ret.
  split; [destruct H; by constructor|]. split; [|done].
  destruct Hdev as [E1 E2 Di Do Dp Db Dob]. constructor; try done.
  - intros Hne'. apply (ready_mono _ _ _ c); [by apply Di|lia].
  - intros _. split; [done|]. apply Forall_lookup. intros j r Er. specialize (H1 j r Er).
    destruct (decide (j < k)%nat); [done|]. by apply (stream_ok_mono _ _ c); [|lia].
  - intros _. by exists y.
Qed.

(** What [CopyTo] leaves in array [j] when nothing is resampled: channel [j], or the
    only one, between -1 and 1. *)
Definition copied (pf k : nat) (x : IFChannelBuffer) (j : nat) (d : list float) : list float :=
  map FloatS16ToFloat (view pf ((if (k =? 1)%nat then 0 else j) * pf) (floats x)) ++ drop pf d.

Lemma wp_CopyTo inf pf outf nin n k c b xs K cfg :
  buffer_ok pf nin n k b -> (k <= n)%nat -> devices_ok inf pf outf n c b ->
  0 <= c < max_calls -> (0 < k <= K)%nat -> K = k \/ k = 1%nat ->
  config_ok outf K cfg -> arrays_ok outf K xs ->
  wp (CopyTo b cfg xs) (fun '(b', ys) => buffer_ok pf nin n k b' /\
    devices_ok inf pf outf n (c + 1) b' /\ sizes ys = sizes xs /\
    (pf = outf -> overwritten (copied pf k (data_ b)) K xs ys)).
Proof.
  intros H Hkn Hdev Hc Hk HK [F1 F2] Hxs. unfold CopyTo.
  rewrite F1, F2, (de_output _ _ _ _ _ _ Hdev), (bo_visible _ _ _ _ _ H), Z.eqb_refl.
  replace ((Z.of_nat K =? Z.of_nat k) || (k =? 1)%nat) with true
    by (destruct HK as [->| ->]; [by rewrite Z.eqb_refl|by rewrite orb_true_r]).
  cbn [negb orb]. rewrite (bo_proc _ _ _ _ _ H), (Nat.eqb_sym outf).
  assert (Hxsk : arrays_ok outf k xs) by (destruct Hxs as [L F]; split; [lia|intros ???; apply F; lia]).
  assert (Lf : length (floats (data_ b)) = (pf * n)%nat).
  { destruct (plain_floats _ _ _ _ _ (bo_data _ _ _ _ _ H)) as (z & _ & Hz & _ & _ & <-).
    by apply (shape_length _ _ _ _ _ (pl_float _ _ _ _ _ Hz)). }
  set (f := fun j d => map FloatS16ToFloat (view pf (j * pf) (floats (data_ b))) ++ drop pf d).
  assert (Lfd : forall j d, (j < k)%nat -> (pf <= length d)%nat -> length (f j d) = length d).
  { intros j d Hj Hd. unfold f. rewrite length_app, length_map, length_view, length_drop; nia. }
  apply wp_bind. apply (wp_mono _ (fun '(b1, ys) => buffer_ok pf nin n k b1 /\
    devices_ok inf pf outf n (c + 1) b1 /\ sizes ys = sizes xs /\
    (pf = outf -> overwritten f k xs ys))).
  { destruct (Nat.eqb_spec pf outf) as [<-|Hne]; cbn [negb].
    - apply wp_bind. eapply wp_mono.
      { apply (wp_loop_index (fun i '(x, ys) => plain pf 1 n k x /\
          floats x = floats (data_ b) /\ overwritten f i xs ys)).
        { split; [apply H|]. split; [done|apply overwritten_0]. }
        intros i [x ys] Hi (Hx & Ex & Hy). destruct (arrays_get _ _ _ i Hxsk Hi) as (d & Ed & Ld).
        rewrite (rd_Some _ _ _ (overwritten_at _ _ _ _ _ Hy Ed)), bind_ok.
        apply wp_bind. eapply wp_mono; [apply (wp_channel_to_float pf n k); (done || lia)|].
        intros [x' d'] (Hx' & Ex' & ->). pose proof (lookup_lt_Some _ _ _ Ed).
        rewrite Ex. apply wp_bind, wp_wr; [unfold zlen; rewrite (proj1 Hy); lia|].
        apply wp_ret. rewrite Nat2Z.id. split; [done|]. split; [congruence|].
        by apply (overwritten_step f). }
      intros [x ys] (Hx & Ex & Hy). apply wp_ret. split; [destruct H; by constructor|].
      split; [apply (devices_mono _ _ _ _ c); [|lia]; destruct Hdev; by constructor|].
      split; [|done]. apply (overwritten_sizes f k); [|done]. intros j d Hj Ed. apply Lfd; [done|].
      by apply (proj2 Hxsk j).
    - eapply wp_mono; [by apply (wp_resample_output inf pf outf nin n k c)|].
      intros [b1 ys] (? & ? & ?). by split_and!. }
  intros [b1 ys] (H1 & D1 & Sy & Hy).
  rewrite (bo_visible _ _ _ _ _ H1), (de_output _ _ _ _ _ _ D1), Nat2Z.id.
  pose proof (sizes_arrays _ _ _ _ Sy Hxs) as Hys.
  destruct (arrays_get _ _ _ 0 Hys ltac:(lia)) as (first & E0 & L0).
  apply wp_bind. eapply wp_mono; [by apply (wp_upmix outf k K ys first)|].
  intros zs Hz. apply wp_ret. split; [done|]. split; [done|]. split.
  - rewrite <- Sy. eapply overwritten_sizes; [|exact Hz]. intros j d Hj Ed. cbn.
    destruct (decide _); [|done]. pose proof (proj2 Hys j d Hj Ed).
    rewrite length_app, length_take, length_drop. lia.
  - intros <-. specialize (Hy eq_refl). destruct Hy as [Ly Hy], Hz as [Lz Hz].
    split; [congruence|]. intros j d Ed. pose proof (Hz _ _ (Hy j d Ed)) as Ez. rewrite Ez.
    f_equal. destruct (decide (j < K)%nat) as [HjK|HjK]; [|by rewrite decide_False by lia].
    unfold copied. destruct (decide (k <= j)%nat) as [Hkj|Hkj].
    + destruct HK as [->| ->]; [lia|]. rewrite decide_False by lia. cbn [Nat.eqb].
      destruct (arrays_get _ _ _ 0 Hxs ltac:(lia)) as (d0 & Ed0 & Ld0).
      pose proof (Hy _ _ Ed0) as E0'. rewrite E0, decide_True in E0' by lia. injection E0' as ->.
      unfold f. rewrite take_app_length'; [done|]. rewrite length_map, length_view; nia.
    + rewrite decide_True by lia. unfold f. destruct (Nat.eqb_spec k 1) as [->|]; [|done].
      by replace j with 0%nat by lia.
Qed.

End output.

(** The integers made of floats. *)
Lemma plain_converted nf nb n k x :
  plain nf nb n k x -> ivalid_ x = false -> fvalid_ x = true ->
  exists x', ibuf_const x = Ok x' /\ plain nf nb n k x' /\
    forall i, (i < k)%nat -> view nf (i * nf) (cb_data (ibuf_ x')) =
      map s16 (view nf (i * nf) (floats x)).
Proof.
  intros H Ei Ef. destruct (plain_const _ _ _ _ _ H) as (x' & E & Hx' & _).
  exists x'. split; [done|]. split; [done|]. intros i Hi.
  destruct (proj1 (wp_ok _ _) (wp_RefreshI x (plain_if_ok _ _ _ _ _ H) Ei))
    as (y & E' & _ & _ & _ & _ & _ & Hc).
  unfold ibuf_const in E. rewrite E in E'. injection E' as <-.
  rewrite (sh_channels _ _ _ _ _ (pl_float _ _ _ _ _ H)) in Hc. specialize (Hc i Hi).
  unfold channel in Hc.
  rewrite (sh_frames _ _ _ _ _ (pl_int _ _ _ _ _ Hx')),
    (sh_frames _ _ _ _ _ (pl_float _ _ _ _ _ H)) in Hc.
  by rewrite floats_valid.
Qed.

(** ** Streams *)

(** Frames in, through the bands, and out into copies of [target]. *)
Fixpoint floats_through `{Architecture} (b : AudioBuffer) (input output : StreamConfig)
    (target : list (list float)) (frames : list (list (list float)))
    : res (list (list (list float))) :=
  match frames with
  | [] => Ok []
  | f :: frames' =>
      b ← CopyFrom b f input;
      b ← through_bands b;
      '(b, out) ← CopyTo b output target;
      outs ← floats_through b input output target frames';
      Ok (out :: outs)
  end.

Lemma floats_through_ok `{AR : Architecture} inf pf outf nin n K input output target frames :
  frames_ok pf -> (0 < inf)%nat -> (0 < n <= nin)%nat -> Z.of_nat nin < 2 ^ 24 ->
  K = n \/ n = 1%nat -> (0 < K)%nat ->
  config_ok inf nin input -> config_ok outf K output -> arrays_ok outf K target -> forall b k c,
  buffer_ok pf nin n k b -> devices_ok inf pf outf n c b -> 0 <= c ->
  c + 2 * zlen frames <= max_calls -> Forall (input_ok inf nin input) frames ->
  exists outs, floats_through b input output target frames = Ok outs /\
    length outs = length frames /\ Forall (fun out => sizes out = sizes target) outs.
Proof.
  intros Hpf Hi Hn Hmax HK HK0 Hin Hout Ht.
  induction frames as [|f frames IH]; intros b k c Hb Hd Hc Hcalls Hf.
  { exists []. split_and!; [done|done|constructor]. }
  pose proof (Forall_inv Hf) as Hf0. apply Forall_inv_tail in Hf.
  assert (El : zlen (f :: frames) = 1 + zlen frames) by (unfold zlen; cbn; lia).
  assert (0 <= zlen frames) by (unfold zlen; lia).
  destruct (proj1 (wp_ok _ _) (wp_CopyFrom inf pf outf nin n k c b f input Hb Hd ltac:(lia)
    Hi Hn Hmax Hin Hf0)) as (b1 & E1 & H1 & D1 & _).
  destruct (proj1 (wp_ok _ _) (wp_through_bands pf nin n b1 Hpf H1)) as (b2 & E2 & H2 & D2 & _).
  apply (devices_same inf pf outf n (c + 1)) in D2; [|done].
  destruct (proj1 (wp_ok _ _) (wp_CopyTo inf pf outf nin n n (c + 1) b2 target K output H2
    (le_n n) D2 ltac:(lia) ltac:(lia) HK Hout Ht)) as ([b3 out] & E3 & H3 & D3 & S3 & _).
  destruct (IH b3 n (c + 1 + 1) H3 D3 ltac:(lia) ltac:(lia) Hf) as (outs & E4 & L4 & F4).
  exists (out :: outs). cbn [floats_through]. rewrite E1, bind_ok, E2, bind_ok, E3, bind_ok, E4.
  split; [done|]. split; [cbn; congruence|]. by constructor.
Qed.

(** * Theorems *)

(** C26: a frame of floats between -1 and 1, with as many processing as input channels
    and without a change of the number of frames.  After [CopyFrom] the integer side
    of every channel holds exactly what [FloatToS16] makes of each sample, and the
    keyboard channel, where the format has one, is kept; [CopyTo], for as many channels
    or from one channel to [K], gives each sample scaled to the 16-bit range and
    back, the channels above the first being copies of the only one.  What follows the
    frame in the caller's arrays, and the arrays above those of the format, stay as
    they were. *)
Theorem float_frame `{AR : Architecture} pf n K k b xs target cfg cfg_out :
  buffer_ok pf n n k b -> devices_ok pf pf pf n 0 b -> (0 < pf)%nat -> (0 < n)%nat ->
  Z.of_nat n < 2 ^ 24 -> config_ok pf n cfg -> input_ok pf n cfg xs ->
  K = n \/ n = 1%nat -> (0 < K)%nat -> config_ok pf K cfg_out -> arrays_ok pf K target ->
  exists b' ptrs c b'' out,
    CopyFrom b xs cfg = Ok b' /\
    keyboard_data_ b' = (if has_keyboard_ cfg then xs !! n else None) /\
    channels_const b' = Ok (ptrs, c) /\
    (forall i x, (i < n)%nat -> xs !! i = Some x ->
       exists p, ptrs !! i = Some p /\
         Forall2 (fun v s => FloatToS16 v = Ok s) (take pf x)
           (view pf p (cb_data (ibuf_ (data_ c))))) /\
    CopyTo b' cfg_out target = Ok (b'', out) /\ buffer_ok pf n n n b'' /\
    length out = length target /\
    forall i d, target !! i = Some d ->
      if decide (i < K)%nat
      then forall x, xs !! (if (n =? 1)%nat then 0%nat else i) = Some x ->
           out !! i = Some (map (fun v => FloatS16ToFloat (FloatToFloatS16 v)) (take pf x) ++ drop pf d)
      else out !! i = Some d.
Proof.
  intros H Hdev Hpf Hn Hmax Hcfg Hxs HK HK0 Hout Ht.
  destruct (proj1 (wp_ok _ _) (wp_CopyFrom pf pf pf n n k 0 b xs cfg H Hdev ltac:(done) Hpf
    ltac:(lia) Hmax Hcfg Hxs)) as (b' & E & Hb' & Hd' & Hkey & Vf & Vi & Hv).
  specialize (Hv eq_refl eq_refl).
  destruct (plain_converted _ _ _ _ _ (bo_data _ _ _ _ _ Hb') Vi Vf) as (x' & Ec & Hx' & Hc).
  destruct (shape_channel_pointers _ _ _ _ _ 0 (pl_int _ _ _ _ _ Hx') ltac:(lia))
    as (ptrs & Ep & Pp & _).
  destruct (proj1 (wp_ok _ _) (wp_CopyTo pf pf pf n n n (0 + 1) b' target K cfg_out Hb' (le_n n)
    Hd' ltac:(done) ltac:(lia) HK Hout Ht)) as ([b'' out] & E' & Hb'' & _ & _ & Ho).
  destruct (Ho eq_refl) as [Lo Ho']. clear Ho.
  exists b', ptrs, (set_data x' b'), b'', out.
  split; [done|]. split; [done|]. split.
  { unfold channels_const, channel_pointers, access_data. rewrite Ec, !bind_ok.
    cbn [data_]. change (data_ (set_data x' b')) with x'. by rewrite Ep, bind_ok. }
  split.
  { intros i x Hi Ex.
    exists (i * pf)%nat. split; [by rewrite (Pp i Hi), Nat.mul_0_l, Nat.add_0_r|].
    change (data_ (set_data x' b')) with x'. rewrite (Hc i Hi), (Hv i x Hi Ex), map_map.
    apply Forall2_fmap_r, Forall_Forall2_diag, Forall_true. intros v. cbn.
    rewrite two_ways. apply s16_spec. }
  split; [done|]. split; [done|]. split; [done|]. intros i d Ed. pose proof (Ho' i d Ed) as Eo.
  destruct (decide (i < K)%nat) as [Hi|]; [|done]. intros x Ex. rewrite Eo. f_equal. unfold copied.
  assert (Hj : ((if n =? 1 then 0 else i) < n)%nat) by (destruct (Nat.eqb_spec n 1); lia).
  by rewrite (Hv _ x Hj Ex), map_map.
Qed.

(** C25: a stream of float frames through a buffer at another rate than its devices,
    with downmixing to one channel, with the split into bands and the merge where
    there are bands, and with upmixing of one channel to any number: between any
    numbers of frames for which there are resamplers, no check fails and no access
    leaves its array for the first [2 ^ 29] frames. *)
Theorem float_streams `{LM : Libm, AR : Architecture} inf pf outf nin n K input output
    target frames :
  frames_ok pf -> (0 < inf)%nat -> (0 < outf)%nat ->
  convertible inf pf -> convertible pf outf ->
  (0 < n <= nin)%nat -> Z.of_nat nin < 2 ^ 24 -> K = n \/ n = 1%nat -> (0 < K)%nat ->
  config_ok inf nin input -> config_ok outf K output -> arrays_ok outf K target ->
  Forall (input_ok inf nin input) frames -> 2 * zlen frames <= max_calls ->
  exists b outs, AudioBuffer_new inf nin pf n outf = Ok b /\
    floats_through b input output target frames = Ok outs /\
    length outs = length frames /\ Forall (fun out => sizes out = sizes target) outs.
Proof.
  intros Hpf Hi Ho Hci Hco Hn Hmax HK HK0 Hin Hout Ht Hf Hcalls.
  destruct (proj1 (wp_ok _ _) (wp_AudioBuffer_create inf pf outf nin n Hpf Hn Hi Ho Hci Hco))
    as (b & E & Hb & Hd).
  destruct (floats_through_ok inf pf outf nin n K input output target frames Hpf Hi Hn Hmax
    HK HK0 Hin Hout Ht b n 0 Hb Hd) as (outs & E' & L & F); [lia|lia|done|].
  by exists b, outs.
Qed.

(** ** Examples *)

Lemma arrays_replicate m k k' x : (k <= k')%nat -> arrays_ok m k (replicate k' (replicate m x)).
Proof.
  intros Hk. split; [by rewrite length_replicate|]. intros i y Hi E.
  apply lookup_replicate in E as [-> _]. by rewrite length_replicate.
Qed.

(** Two channels and a keyboard channel at 8 kHz. *)
Definition voice : StreamConfig := MkConfig 8000 2 true 80.

Example voice_new : StreamConfig_new 8000 2 true = Ok voice.
Proof. reflexivity. Qed.

(** A negative rate is accepted and gives a huge number of frames. *)
Example negative_rate :
  num_frames_ <$> StreamConfig_new (-8000) 2 false = Ok (2 ^ 64 - 80).
Proof. reflexivity. Qed.

(** For every rate up to 214748364 Hz the product fits an [int], and the frames are those
    of 10 ms. *)
Lemma calculate_frames_ok rate :
  0 <= rate <= 214748364 -> calculate_frames rate = Ok (rate / 100).
Proof.
  intros Hr. unfold calculate_frames, kChunkSizeMs.
  assert (E : mul32 10 rate = Ok (10 * rate)) by (apply wp_pure, wp_mul32; [unfold i32; lia|done]).
  rewrite E, bind_ok, Z.quot_div_nonneg by lia. f_equal.
  replace 1000 with (10 * 100) by lia. rewrite Z.div_mul_cancel_l by lia.
  apply Z.mod_small. split; [apply Z.div_pos; lia|].
  apply Z.div_lt_upper_bound; lia.
Qed.

Definition loud_frame : list (list float) := replicate 3 (replicate 80 (Flt 1 (-1))).

(** One channel and a keyboard channel in, two channels out, into arrays for three. *)
Definition mono_voice : StreamConfig := MkConfig 8000 1 true 80.
Definition stereo_out : StreamConfig := MkConfig 8000 2 false 80.
Definition silent_target : list (list float) := replicate 3 (replicate 100 fzero).

Lemma float_frame_witness :
  exists b, @AudioBuffer_new small_angles 80 1 80 1 80 = Ok b /\
  exists b' ptrs c b'' out,
    @CopyFrom with_sse b loud_frame mono_voice = Ok b' /\
    keyboard_data_ b' = (if has_keyboard_ mono_voice then loud_frame !! 1%nat else None) /\
    channels_const b' = Ok (ptrs, c) /\
    (forall i x, (i < 1)%nat -> loud_frame !! i = Some x ->
       exists p, ptrs !! i = Some p /\
         Forall2 (fun v s => FloatToS16 v = Ok s) (take 80 x)
           (view 80 p (cb_data (ibuf_ (data_ c))))) /\
    @CopyTo with_sse b' stereo_out silent_target = Ok (b'', out) /\ buffer_ok 80 1 1 1 b'' /\
    length out = length silent_target /\
    forall i d, silent_target !! i = Some d ->
      if decide (i < 2)%nat
      then forall x, loud_frame !! 0%nat = Some x ->
           out !! i = Some (map (fun v => FloatS16ToFloat (FloatToFloatS16 v)) (take 80 x) ++ drop 80 d)
      else out !! i = Some d.
Proof.
  destruct (proj1 (wp_ok _ _) (@wp_AudioBuffer_create small_angles 80 80 80 1 1
    ltac:(unfold frames_ok; lia) ltac:(lia) ltac:(lia) ltac:(lia) ltac:(by left) ltac:(by left)))
    as (b & E & Hb & Hd).
  exists b. split; [exact E|].
  apply (@float_frame with_sse 80 1 2 1 b loud_frame silent_target mono_voice stereo_out Hb Hd).
  - lia.
  - lia.
  - lia.
  - by split.
  - split; [apply arrays_replicate; lia|]. intros _. cbn. lia.
  - by right.
  - lia.
  - by split.
  - split; [cbn; lia|]. intros i x _ [-> _]%lookup_replicate. rewrite length_replicate. lia.
Defined.

Lemma float_streams_witness :
  exists b outs, @AudioBuffer_new small_angles 80 2 160 1 441 = Ok b /\
    @floats_through with_sse b voice (MkConfig 44100 2 false 441)
      (replicate 2 (replicate 441 fzero)) [loud_frame; loud_frame] = Ok outs /\
    length outs = 2%nat /\
    Forall (fun out => sizes out = sizes (replicate 2 (replicate 441 fzero))) outs.
Proof.
  assert (Hl : input_ok 80 2 voice loud_frame).
  { split; [apply arrays_replicate; lia|]. intros _. cbn. lia. }
  apply (@float_streams small_angles with_sse 80 160 441 2 1 2).
  - unfold frames_ok. lia.
  - lia.
  - lia.
  - exact (convertible_rates 8000 16000 eq_refl eq_refl).
  - exact (convertible_rates 16000 44100 eq_refl eq_refl).
  - lia.
  - lia.
  - by right.
  - lia.
  - by split.
  - by split.
  - apply arrays_replicate. lia.
  - exact (Forall_cons_2 _ _ _ Hl (Forall_cons_2 _ _ _ Hl (Forall_nil_2 _))).
  - change (2 * 2 <= max_calls). vm_compute. discriminate.
Defined.
