(* ===== verification/MultiControl.v ===== *)
(** * The multi-channel gain control

    [gain_control_impl_webrtc.{h,cc}]: one AGC instance per channel, driven with
    the split bands of an audio buffer.  The checks [RTC_CHECK] and [RTC_DCHECK]
    are modelled as in a debug build, where a failed check aborts.  The locks are
    taken into account in the section on interleavings: a definition is one call
    without interference. *)
From S2P Require Import Prelude CInt Spl Vad GainTable Digital Instance Mic Analog.
From S2P Require Import Session Contract Numeric Qmf AudioUtil ChannelBuffer PushSinc AudioBuffer.

(** ** Codes and modes *)

Definition kNoError : Z := 0.
Definition kUnspecifiedError : Z := -1.
Definition kBadParameterError : Z := -6.
Definition kStreamParameterNotSetError : Z := -11.

Definition kAdaptiveAnalog : Z := 0.
Definition kAdaptiveDigital : Z := 1.
Definition kFixedDigital : Z := 2.

(** A value outside the enumeration reaches [RTC_NOTREACHED]. *)
Definition MapSetting (mode : Z) : res Z :=
  if mode =? kAdaptiveAnalog then Ok kAgcModeAdaptiveAnalog
  else if mode =? kAdaptiveDigital then Ok kAgcModeAdaptiveDigital
  else if mode =? kFixedDigital then Ok kAgcModeFixedDigital
  else Fault AssertionFailed.

Definition get {A} (o : option A) : res A :=
  match o with Some a => Ok a | None => Fault AssertionFailed end.

(** ** Controllers *)

Record GainController := MkController { state_ : LegacyAgc; capture_level_ : option Z }.

(** A new controller on memory with the given content; after an allocation that
    failed ([None]) the pointer is dereferenced before it is checked. *)
Definition GainController_new (mem : option LegacyAgc) : res GainController :=
  s ← WebRtcAgc_Create mem; Ok (MkController s None).

Definition GainController_Initialize (c : GainController)
    (minimum_capture_level maximum_capture_level mode sample_rate_hz capture_level : Z)
    : res GainController :=
  m ← MapSetting mode;
  '(error, s) ← WebRtcAgc_Init (state_ c) minimum_capture_level maximum_capture_level
                  m sample_rate_hz;
  if negb (error =? 0) then Fault AssertionFailed else
  Ok (MkController s (Some capture_level)).

(** ** The gain control *)

Record GainControlImpl := MkControl {
  enabled_ : bool; mode_ : Z;
  minimum_capture_level_ : Z; maximum_capture_level_ : Z;
  limiter_enabled_ : bool; target_level_dbfs_ : Z; compression_gain_db_ : Z;
  analog_capture_level_ : Z; was_analog_level_set_ : bool; stream_is_saturated_ : bool;
  gain_controllers_ : list GainController;
  num_proc_channels_ : option nat; sample_rate_hz_ : option Z
}.

Definition GainControlImpl_new : GainControlImpl :=
  MkControl false kAdaptiveAnalog 0 255 true 3 9 0 false false [] None None.

Definition control_eta (g : GainControlImpl) : GainControlImpl :=
  MkControl (enabled_ g) (mode_ g) (minimum_capture_level_ g) (maximum_capture_level_ g)
    (limiter_enabled_ g) (target_level_dbfs_ g) (compression_gain_db_ g)
    (analog_capture_level_ g) (was_analog_level_set_ g) (stream_is_saturated_ g)
    (gain_controllers_ g) (num_proc_channels_ g) (sample_rate_hz_ g).

Definition put_enabled : bool -> GainControlImpl -> GainControlImpl :=
  ltac:(field_setter control_eta enabled_).
Definition put_mode : Z -> GainControlImpl -> GainControlImpl :=
  ltac:(field_setter control_eta mode_).
Definition put_minimum : Z -> GainControlImpl -> GainControlImpl :=
  ltac:(field_setter control_eta minimum_capture_level_).
Definition put_maximum : Z -> GainControlImpl -> GainControlImpl :=
  ltac:(field_setter control_eta maximum_capture_level_).
Definition put_limiter : bool -> GainControlImpl -> GainControlImpl :=
  ltac:(field_setter control_eta limiter_enabled_).
Definition put_target : Z -> GainControlImpl -> GainControlImpl :=
  ltac:(field_setter control_eta target_level_dbfs_).
Definition put_gain : Z -> GainControlImpl -> GainControlImpl :=
  ltac:(field_setter control_eta compression_gain_db_).
Definition put_level : Z -> GainControlImpl -> GainControlImpl :=
  ltac:(field_setter control_eta analog_capture_level_).
Definition put_level_set : bool -> GainControlImpl -> GainControlImpl :=
  ltac:(field_setter control_eta was_analog_level_set_).
Definition put_saturated : bool -> GainControlImpl -> GainControlImpl :=
  ltac:(field_setter control_eta stream_is_saturated_).
Definition put_controllers : list GainController -> GainControlImpl -> GainControlImpl :=
  ltac:(field_setter control_eta gain_controllers_).
Definition put_channels : option nat -> GainControlImpl -> GainControlImpl :=
  ltac:(field_setter control_eta num_proc_channels_).
Definition put_rate : option Z -> GainControlImpl -> GainControlImpl :=
  ltac:(field_setter control_eta sample_rate_hz_).

(** *** Configuration *)

Definition config_of (g : GainControlImpl) : WebRtcAgcConfig :=
  {| c_targetLevelDbfs := to_i16 (target_level_dbfs_ g);
     c_compressionGaindB := to_i16 (compression_gain_db_ g);
     c_limiterEnable := if limiter_enabled_ g then 1 else 0 |}.

(** The loop over the controllers; the error of the last one that failed. *)
Fixpoint configure_all (config : WebRtcAgcConfig) (error : Z) (cs : list GainController)
    : res (Z * list GainController) :=
  match cs with
  | [] => Ok (error, [])
  | c :: cs' =>
      '(handle_error, s) ← WebRtcAgc_set_config (Some (state_ c)) config;
      s ← get s;
      let error := if negb (handle_error =? kNoError) then handle_error else error in
      '(error, cs') ← configure_all config error cs';
      Ok (error, MkController s (capture_level_ c) :: cs')
  end.

Definition Configure (g : GainControlImpl) : res (Z * GainControlImpl) :=
  '(error, cs) ← configure_all (config_of g) kNoError (gain_controllers_ g);
  Ok (error, put_controllers cs g).

(** [resize] and the loop that creates and initialises the controllers; [mem i] is
    the memory of a controller created for channel [i]. *)
Fixpoint initialize_all (mem : nat -> option LegacyAgc) (g : GainControlImpl) (rate : Z)
    (i n : nat) (cs : list GainController) : res (list GainController) :=
  match n with
  | O => Ok []
  | S n' =>
      c ← match cs with c :: _ => Ok c | [] => GainController_new (mem i) end;
      c ← GainController_Initialize c (minimum_capture_level_ g) (maximum_capture_level_ g)
            (mode_ g) rate (analog_capture_level_ g);
      cs' ← initialize_all mem g rate (S i) n' (tail cs);
      Ok (c :: cs')
  end.

Definition Initialize (mem : nat -> option LegacyAgc) (g : GainControlImpl)
    (num_proc_channels : nat) (sample_rate_hz : Z) : res GainControlImpl :=
  let g := g |> put_channels (Some num_proc_channels) |> put_rate (Some sample_rate_hz) in
  if negb (enabled_ g) then Ok g else
  cs ← initialize_all mem g sample_rate_hz 0 num_proc_channels (gain_controllers_ g);
  '(_, g) ← Configure (put_controllers cs g);
  Ok g.

(** [Initialize] with the current format. *)
Definition Reinitialize (mem : nat -> option LegacyAgc) (g : GainControlImpl)
    : res GainControlImpl :=
  n ← get (num_proc_channels_ g);
  rate ← get (sample_rate_hz_ g);
  Initialize mem g n rate.

Definition Enable (mem : nat -> option LegacyAgc) (g : GainControlImpl) (enable : bool)
    : res (Z * GainControlImpl) :=
  if enable && negb (enabled_ g)
  then g ← Reinitialize mem (put_enabled enable g); Ok (kNoError, g)
  else Ok (kNoError, put_enabled enable g).

Definition set_mode (mem : nat -> option LegacyAgc) (g : GainControlImpl) (mode : Z)
    : res (Z * GainControlImpl) :=
  m ← MapSetting mode;
  if m =? -1 then Ok (kBadParameterError, g) else
  g ← Reinitialize mem (put_mode mode g);
  Ok (kNoError, g).

Definition set_analog_level_limits (mem : nat -> option LegacyAgc) (g : GainControlImpl)
    (minimum maximum : Z) : res (Z * GainControlImpl) :=
  if minimum <? 0 then Ok (kBadParameterError, g) else
  if 65535 <? maximum then Ok (kBadParameterError, g) else
  if maximum <? minimum then Ok (kBadParameterError, g) else
  g ← Reinitialize mem (g |> put_minimum minimum |> put_maximum maximum);
  Ok (kNoError, g).

Definition set_stream_analog_level (g : GainControlImpl) (level : Z) : Z * GainControlImpl :=
  let g := put_level_set true g in
  if (level <? minimum_capture_level_ g) || (maximum_capture_level_ g <? level)
  then (kBadParameterError, g)
  else (kNoError, put_level level g).

Definition set_target_level_dbfs (g : GainControlImpl) (level : Z)
    : res (Z * GainControlImpl) :=
  if (31 <? level) || (level <? 0) then Ok (kBadParameterError, g)
  else Configure (put_target level g).

Definition set_compression_gain_db (g : GainControlImpl) (gain : Z)
    : res (Z * GainControlImpl) :=
  if (gain <? 0) || (90 <? gain) then Ok (kBadParameterError, g)
  else Configure (put_gain gain g).

Definition enable_limiter (g : GainControlImpl) (enable : bool) : res (Z * GainControlImpl) :=
  Configure (put_limiter enable g).

(** *** Audio *)

Section audio.

Definition PackRenderAudioBuffer (audio : AudioBuffer) : res (list Z * AudioBuffer) :=
  if negb (num_split_frames_ audio <=? 160)%nat then Fault AssertionFailed else
  '(_, audio) ← mixed_low_pass_data audio;
  '(x, audio) ← mixed_low_pass_data audio;
  Ok (x, audio).

Definition ProcessRenderAudio (g : GainControlImpl) (packed_render_audio : list Z)
    : res GainControlImpl :=
  if negb (enabled_ g) then Ok g else
  cs ← mapM (fun c =>
    '(_, s) ← WebRtcAgc_AddFarend (Some (state_ c)) packed_render_audio
                (length packed_render_audio);
    s ← get s;
    Ok (MkController s (capture_level_ c))) (gain_controllers_ g);
  Ok (put_controllers cs g).

(** The channel loop of a call: [step] processes the bands of one channel with its
    controller, in place; it returns an error code and updates the flag [sat].
    The first error ends the loop. *)
Definition channel_step : Type :=
  bool -> GainController -> list (list Z) -> res (Z * GainController * list (list Z) * bool).

Definition over_bands (step : channel_step) (audio : AudioBuffer) (channel : nat)
    (sat : bool) (c : GainController) : res (Z * GainController * AudioBuffer * bool) :=
  '(ptrs, audio) ← split_bands audio channel;
  xss ← fetch_all (num_split_frames_ audio) (num_bands_ audio) ptrs (split_samples audio);
  '(err, c, yss, sat) ← step sat c xss;
  d ← put_all ptrs yss (split_samples audio);
  Ok (err, c, store_split d audio, sat).

Fixpoint over_channels (step : channel_step) (channel : nat) (cs : list GainController)
    (audio : AudioBuffer) (sat : bool)
    : res (Z * list GainController * AudioBuffer * bool) :=
  match cs with
  | [] => Ok (kNoError, [], audio, sat)
  | c :: cs' =>
      '(err, c, audio, sat) ← over_bands step audio channel sat c;
      if negb (err =? kNoError) then Ok (kUnspecifiedError, c :: cs', audio, sat) else
      '(err, cs', audio, sat) ← over_channels step (S channel) cs' audio sat;
      Ok (err, c :: cs', audio, sat)
  end.

(** The calls for one channel. *)
Definition analyze_analog (level : Z) (frames : nat) : channel_step := fun sat c xss =>
  '(err, s, yss) ← WebRtcAgc_AddMic (state_ c) xss frames;
  Ok (err, MkController s (Some level), yss, sat).

Definition analyze_digital (level : Z) (frames : nat) : channel_step := fun sat c xss =>
  '(err, s, yss, capture_level_out) ← WebRtcAgc_VirtualMic (state_ c) xss frames level;
  Ok (err, MkController s (Some capture_level_out), yss, sat).

(** Input and output are the same bands. *)
Definition process_channel (echo : Z) (frames : nat) : channel_step := fun sat c xss =>
  level ← get (capture_level_ c);
  p ← WebRtcAgc_Process (Some (state_ c)) xss frames xss level 0 echo 0;
  s ← get (p_agc p);
  if negb (p_ret p =? kNoError)
  then Ok (p_ret p, MkController s (capture_level_ c), p_out p, sat)
  else Ok (kNoError, MkController s (Some (p_level p)), p_out p,
           if p_warning p =? 1 then true else sat).

Definition AnalyzeCaptureAudio (g : GainControlImpl) (audio : AudioBuffer)
    : res (Z * GainControlImpl * AudioBuffer) :=
  if negb (enabled_ g) then Ok (kNoError, g, audio) else
  n ← get (num_proc_channels_ g);
  if negb (num_split_frames_ audio <=? 160)%nat || negb (num_channels_ audio =? n)%nat ||
     negb (n <=? length (gain_controllers_ g))%nat
  then Fault AssertionFailed else
  let frames := num_split_frames_ audio in
  let level := analog_capture_level_ g in
  if mode_ g =? kAdaptiveAnalog then
    '(err, cs, audio, _) ← over_channels (analyze_analog level frames) 0
                             (gain_controllers_ g) audio false;
    Ok (err, put_controllers cs g, audio)
  else if mode_ g =? kAdaptiveDigital then
    '(err, cs, audio, _) ← over_channels (analyze_digital level frames) 0
                             (gain_controllers_ g) audio false;
    Ok (err, put_controllers cs g, audio)
  else Ok (kNoError, g, audio).

(** The average of the levels: the sum is an [int], the division one of
    [size_t]. *)
Definition average_level (cs : list GainController) (n : nat) : res Z :=
  sum ← each (fun sum c => l ← get (capture_level_ c); add32 sum l) 0 cs;
  if (n =? 0)%nat then Fault AssertionFailed else
  Ok (to_i32 ((sum mod 2 ^ 64) / Z.of_nat n)).

Definition ProcessCaptureAudio (g : GainControlImpl) (audio : AudioBuffer)
    (stream_has_echo : bool) : res (Z * GainControlImpl * AudioBuffer) :=
  if negb (enabled_ g) then Ok (kNoError, g, audio) else
  if (mode_ g =? kAdaptiveAnalog) && negb (was_analog_level_set_ g)
  then Ok (kStreamParameterNotSetError, g, audio) else
  n ← get (num_proc_channels_ g);
  if negb (num_split_frames_ audio <=? 160)%nat || negb (num_channels_ audio =? n)%nat
  then Fault AssertionFailed else
  '(err, cs, audio, sat) ←
    over_channels (process_channel (if stream_has_echo then 1 else 0)
                     (num_split_frames_ audio)) 0 (gain_controllers_ g) audio false;
  let g := g |> put_saturated sat |> put_controllers cs in
  if negb (err =? kNoError) then Ok (err, g, audio) else
  if (n =? 0)%nat then Fault AssertionFailed else
  g ← (if mode_ g =? kAdaptiveAnalog
       then l ← average_level cs n; Ok (put_level l g) else Ok g);
  Ok (kNoError, put_level_set false g, audio).

(** One frame through the system, as [ProcessOneFrame] of the unit test drives it:
    the return codes of the two calls are returned here. *)
Definition ProcessOneFrame (sample_rate_hz : Z) (render capture : AudioBuffer)
    (g : GainControlImpl)
    : res (Z * Z * AudioBuffer * AudioBuffer * GainControlImpl) :=
  '(render, capture) ←
    (if 16000 <? sample_rate_hz
     then render ← SplitIntoFrequencyBands render;
          capture ← SplitIntoFrequencyBands capture;
          Ok (render, capture)
     else Ok (render, capture));
  '(render_audio, render) ← PackRenderAudioBuffer render;
  g ← ProcessRenderAudio g render_audio;
  '(err1, g, capture) ← AnalyzeCaptureAudio g capture;
  '(err2, g, capture) ← ProcessCaptureAudio g capture false;
  capture ← (if 16000 <? sample_rate_hz then MergeFrequencyBands capture else Ok capture);
  Ok (err1, err2, render, capture, g).

End audio.

(** * Lemmas *)

Record control_settings_ok (g : GainControlImpl) : Prop := {
  so_mode : 0 <= mode_ g <= 2;
  so_limits : 0 <= minimum_capture_level_ g /\
              minimum_capture_level_ g + 42 <= maximum_capture_level_ g <= 65535;
  so_target : 0 <= target_level_dbfs_ g <= 31;
  so_gain : 0 <= compression_gain_db_ g <= 18;
  so_level : i32 (analog_capture_level_ g)
}.

(** The AGC mode of a setting. *)
Definition agc_mode (mode : Z) : Z :=
  if mode =? kAdaptiveAnalog then kAgcModeAdaptiveAnalog
  else if mode =? kAdaptiveDigital then kAgcModeAdaptiveDigital
  else kAgcModeFixedDigital.

(** The instance of a controller is in the mode of the settings, has the format
    and works with the level range of the settings. *)
Definition in_mode (g : GainControlImpl) (rate : Z) (s : LegacyAgc) : Prop :=
  fs s = rate /\ agcMode s = agc_mode (mode_ g).

Definition has_range (g : GainControlImpl) (s : LegacyAgc) : Prop :=
  mode_ g <> kAdaptiveDigital ->
  minLevel s = minimum_capture_level_ g /\ maxAnalog s = maximum_capture_level_ g.

Definition has_config (g : GainControlImpl) (s : LegacyAgc) : Prop :=
  usedConfig s = config_of g.

Definition level_known (c : GainController) : Prop :=
  exists l, capture_level_ c = Some l /\ i32 l.

Definition memories_ok (mem : nat -> option LegacyAgc) : Prop :=
  forall i, exists s, mem i = Some s /\ length (filterState s) = 8%nat.

Section control.
Context (inv : Z -> LegacyAgc -> Prop) `{!AgcChannel inv}.

Lemma MapSetting_ok mode :
  0 <= mode <= 2 -> MapSetting mode = Ok (agc_mode mode) /\ 1 <= agc_mode mode <= 3.
Proof.
  intros Hm. assert (E : mode = 0 \/ mode = 1 \/ mode = 2) by lia.
  by destruct E as [->|[->| ->]].
Qed.

Lemma config_values_ok g :
  control_settings_ok g -> config_ok (config_of g) /\ c_compressionGaindB (config_of g) <= 18.
Proof.
  intros H. pose proof (so_target _ H). pose proof (so_gain _ H).
  unfold config_ok, config_of. cbn. rewrite !to_i16_id by (unfold i16; lia).
  destruct (limiter_enabled_ g); unfold kAgcFalse, kAgcTrue; lia.
Qed.

(** Configuring every controller. *)
Definition configured (n : Z) (cfg : WebRtcAgcConfig) (c c' : GainController) : Prop :=
  inv n (state_ c') /\ capture_level_ c' = capture_level_ c /\
  setup (state_ c') = ((fs (state_ c), agcMode (state_ c), cfg),
                       (minLevel (state_ c), maxAnalog (state_ c))).

Lemma configure_all_spec n cfg cs :
  config_ok cfg -> c_compressionGaindB cfg <= 18 ->
  Forall (fun c => inv n (state_ c)) cs ->
  exists cs', configure_all cfg kNoError cs = Ok (kNoError, cs') /\
    Forall2 (configured n cfg) cs cs'.
Proof.
  intros Hc Hg. induction 1 as [|c cs Hi _ IH]; [by exists []|].
  destruct IH as (cs' & E & F). cbn [configure_all].
  destruct (proj1 (wp_ok _ _) (channel_set_config n (state_ c) cfg Hi Hc Hg))
    as ([ret o] & -> & -> & s' & -> & Hs' & Hset).
  cbn [mbind res_bind get]. change (negb (0 =? kNoError)) with false. cbv iota zeta.
  rewrite E. cbn [mbind res_bind]. eexists. split; [done|]. constructor; [|done].
  split; [exact Hs'|]. by split.
Qed.

Lemma Forall2_right {A B} (R : A -> B -> Prop) (P : A -> Prop) (Q : B -> Prop) l k :
  Forall2 R l k -> Forall P l -> (forall x y, P x -> R x y -> Q y) -> Forall Q k.
Proof.
  intros HR HP HQ. revert HP. induction HR; intros HP; [done|].
  inversion HP; subst. constructor; eauto.
Qed.

(** The controllers are sound; while the gain control is enabled there is one per
    channel, in its mode. *)
Record control_ok (n : Z) (m : nat) (rate : Z) (g : GainControlImpl) : Prop := {
  co_settings : control_settings_ok g;
  co_channels : num_proc_channels_ g = Some m;
  co_rate : sample_rate_hz_ g = Some rate;
  co_inv : Forall (fun c => inv n (state_ c)) (gain_controllers_ g);
  co_levels : Forall level_known (gain_controllers_ g);
  co_enabled : enabled_ g = true -> length (gain_controllers_ g) = m /\
    Forall (fun c => in_mode g rate (state_ c)) (gain_controllers_ g)
}.

(** In addition the configuration and the level range are those of the settings. *)
Definition configured_ok (g : GainControlImpl) : Prop :=
  enabled_ g = true -> Forall (fun c => has_config g (state_ c)) (gain_controllers_ g).
Definition ranges_ok (g : GainControlImpl) : Prop :=
  enabled_ g = true -> Forall (fun c => has_range g (state_ c)) (gain_controllers_ g).

Lemma Configure_all_spec n m rate g :
  control_ok n m rate g ->
  exists g', Configure g = Ok (kNoError, g') /\ control_ok n m rate g' /\
    configured_ok g' /\ (ranges_ok g -> ranges_ok g') /\
    g' = put_controllers (gain_controllers_ g') g.
Proof.
  intros [Hs Hm Hr Hi Hl He]. destruct (config_values_ok g Hs) as [Hc H18].
  destruct (configure_all_spec n (config_of g) (gain_controllers_ g) Hc H18 Hi)
    as (cs & E & F).
  exists (put_controllers cs g). unfold Configure. rewrite E. split; [done|].
  assert (Hlen : length cs = length (gain_controllers_ g))
    by (symmetry; by apply (Forall2_length F)).
  split; [|split; [|split; [|done]]].
  - constructor; try done.
    + by destruct Hs; constructor.
    + apply (Forall2_right _ _ _ _ _ F Hi). by intros c c' _ (? & _).
    + apply (Forall2_right _ _ _ _ _ F Hl). intros c c' (l & El & Hl') (_ & Ec & _).
      exists l. by rewrite Ec.
    + intros En. destruct (He En) as [E1 E2]. split; [cbn; congruence|].
      apply (Forall2_right _ _ _ _ _ F E2). intros c c' [M1 M2] (_ & _ & Es).
      injection Es as A1 A2 A3 A4 A5. split; cbn; congruence.
  - intros En. apply (Forall2_right _ (fun _ => True) _ _ _ F); [by apply Forall_true|].
    intros c c' _ (_ & _ & Es). injection Es as A1 A2 A3 A4 A5.
    unfold has_config. by rewrite A3.
  - intros Hrange En. apply (Forall2_right _ _ _ _ _ F (Hrange En)).
    intros c c' Hc' (_ & _ & Es) Hne. injection Es as A1 A2 A3 A4 A5.
    destruct (Hc' Hne). split; cbn; congruence.
Qed.

(** *** Initialisation *)

Definition fresh (g : GainControlImpl) (rate : Z) (c : GainController) : Prop :=
  inv 0 (state_ c) /\ in_mode g rate (state_ c) /\ has_range g (state_ c) /\ level_known c.

Lemma wp_GainController_Initialize g rate c :
  control_settings_ok g -> length (filterState (state_ c)) = 8%nat ->
  wp (GainController_Initialize c (minimum_capture_level_ g) (maximum_capture_level_ g)
        (mode_ g) rate (analog_capture_level_ g)) (fresh g rate).
Proof.
  intros Hs Hf. destruct (MapSetting_ok _ (so_mode _ Hs)) as [Em Hm].
  pose proof (so_limits _ Hs) as Hlim.
  unfold GainController_Initialize. rewrite Em, bind_ok. apply wp_bind.
  eapply wp_mono.
  { apply (channel_init (state_ c)); [done|lia|].
    unfold level_args_ok, i32. split; [lia|]. split; [lia|]. right. lia. }
  intros [ret s] (-> & Hi & H1 & H2 & H3). change (negb (0 =? 0)) with false. cbv iota.
  apply wp_ret. split; [done|]. split; [done|]. split.
  - intros Hne. apply H3. unfold agc_mode. destruct (Z.eqb_spec (mode_ g) kAdaptiveAnalog);
      [done|]. by rewrite (proj2 (Z.eqb_neq _ _) Hne).
  - exists (analog_capture_level_ g). split; [done|]. apply Hs.
Qed.

Lemma wp_initialize_all n mem g rate m i cs :
  control_settings_ok g -> memories_ok mem -> Forall (fun c => inv n (state_ c)) cs ->
  wp (initialize_all mem g rate i m cs)
     (fun cs' => length cs' = m /\ Forall (fresh g rate) cs').
Proof.
  intros Hs Hmem. revert i cs. induction m as [|m IH]; intros i cs Hcs; [done|].
  cbn [initialize_all]. apply wp_bind.
  assert (Hc : wp (match cs with c :: _ => Ok c | [] => GainController_new (mem i) end)
     (fun c => length (filterState (state_ c)) = 8%nat)).
  { destruct Hcs as [|c cs Hi _].
    - destruct (Hmem i) as (s & -> & Hf). by apply wp_ret.
    - apply wp_ret. by apply (channel_memory n). }
  eapply wp_mono; [exact Hc|]. intros c Hf. apply wp_bind.
  eapply wp_mono; [by apply wp_GainController_Initialize|]. intros c' Hc'.
  apply wp_bind. eapply wp_mono; [apply (IH (S i) (tail cs)); by destruct Hcs|].
  intros cs' [L F]. apply wp_ret. split; [cbn; lia|by constructor].
Qed.

(** The gain control [g'] differs from [g] in its controllers and its format. *)
Definition same_settings (g g' : GainControlImpl) : Prop :=
  (enabled_ g', mode_ g', minimum_capture_level_ g', maximum_capture_level_ g',
   limiter_enabled_ g', target_level_dbfs_ g', compression_gain_db_ g',
   analog_capture_level_ g', was_analog_level_set_ g') =
  (enabled_ g, mode_ g, minimum_capture_level_ g, maximum_capture_level_ g,
   limiter_enabled_ g, target_level_dbfs_ g, compression_gain_db_ g,
   analog_capture_level_ g, was_analog_level_set_ g).

Lemma Initialize_all_spec n m rate mem g :
  control_settings_ok g -> memories_ok mem -> 0 <= n ->
  Forall (fun c => inv n (state_ c)) (gain_controllers_ g) ->
  Forall level_known (gain_controllers_ g) ->
  exists g', Initialize mem g m rate = Ok g' /\ control_ok n m rate g' /\
    configured_ok g' /\ ranges_ok g' /\ same_settings g g'.
Proof.
  intros Hs Hmem Hn Hi Hl. unfold Initialize. cbv zeta.
  set (g1 := put_rate (Some rate) (put_channels (Some m) g)).
  assert (Hs1 : control_settings_ok g1) by (destruct Hs; by constructor).
  change (enabled_ g1) with (enabled_ g). change (gain_controllers_ g1) with (gain_controllers_ g).
  destruct (enabled_ g) eqn:En; cbn [negb].
  - destruct (proj1 (wp_ok _ _) (wp_initialize_all n mem g1 rate m 0 (gain_controllers_ g)
      Hs1 Hmem Hi)) as (cs & -> & Lc & Fc). rewrite bind_ok.
    assert (Hc : control_ok n m rate (put_controllers cs g1)).
    { constructor; try done.
      - by destruct Hs1; constructor.
      - revert Fc. apply Forall_impl. intros c (? & _). by apply (channel_mono 0).
      - revert Fc. apply Forall_impl. by intros c (_ & _ & _ & ?).
      - intros _. split; [done|]. revert Fc. apply Forall_impl. by intros c (_ & ? & _). }
    assert (Hr : ranges_ok (put_controllers cs g1)).
    { intros _. revert Fc. apply Forall_impl. by intros c (_ & _ & ? & _). }
    destruct (Configure_all_spec _ _ _ _ Hc) as (g' & -> & Hc' & Hcf & Hrr & Eg).
    exists g'. rewrite bind_ok. split; [done|]. split; [done|]. split; [done|].
    split; [by apply Hrr|]. rewrite Eg. reflexivity.
  - exists g1. split; [done|].
    assert (Hoff : forall P : Prop, enabled_ g1 = true -> P).
    { intros P E. change (enabled_ g1) with (enabled_ g) in E. congruence. }
    split; [|split; [|split; [|reflexivity]]].
    + constructor; try done. by apply Hoff.
    + intros E. by apply Hoff.
    + intros E. by apply Hoff.
Qed.

Lemma Reinitialize_all_spec n m rate mem g :
  control_settings_ok g -> num_proc_channels_ g = Some m -> sample_rate_hz_ g = Some rate ->
  memories_ok mem -> 0 <= n ->
  Forall (fun c => inv n (state_ c)) (gain_controllers_ g) ->
  Forall level_known (gain_controllers_ g) ->
  exists g', Reinitialize mem g = Ok g' /\ control_ok n m rate g' /\
    configured_ok g' /\ ranges_ok g' /\ same_settings g g'.
Proof.
  intros Hs Em Er Hmem Hn Hi Hl. unfold Reinitialize. rewrite Em, Er.
  by apply Initialize_all_spec.
Qed.

(** *** One channel after the other *)

Section bands.
Context (pf nin k : nat).
Hypothesis Hpf : frames_ok pf.

Implicit Types (audio : AudioBuffer) (step : channel_step).

(** [step] is defined, up to an overflow, on the controllers [P] describes, and
    leaves [Q]. *)
Definition step_ok step (P : GainController -> Prop)
    (Q : Z -> GainController -> GainController -> Prop) : Prop :=
  forall sat c xss, P c -> band_shape (split_frames pf) xss ->
  match step sat c xss with
  | Ok (err, c', yss, _) => Q err c c' /\ band_shape (split_frames pf) yss /\
                            length yss = length xss
  | Fault f => f = SignedOverflow
  end.

(** The flag only passes through. *)
Definition flag_or step : Prop := forall sat c xss,
  step sat c xss = '(err, c', yss, s) ← step false c xss; Ok (err, c', yss, sat || s).

(** Channel [i] is processed as if it were alone, [s] is its flag. *)
Definition alone step audio audio' (i : nat) (c c' : GainController) (s : bool) : Prop :=
  step false c (channel_bands pf i (band_samples audio)) =
    Ok (kNoError, c', channel_bands pf i (band_samples audio'), s).

Lemma over_bands_spec step P Q audio i sat c :
  step_ok step P Q -> P c -> buffer_ok pf nin k k audio -> (i < k)%nat ->
  match over_bands step audio i sat c with
  | Ok (err, c', audio', sat') =>
      Q err c c' /\ buffer_ok pf nin k k audio' /\
      step sat c (channel_bands pf i (band_samples audio)) =
        Ok (err, c', channel_bands pf i (band_samples audio'), sat') /\
      forall j, (j < k)%nat -> j <> i ->
        channel_bands pf j (band_samples audio') = channel_bands pf j (band_samples audio)
  | Fault f => f = SignedOverflow
  end.
Proof.
  intros Hstep Hc Ha Hi. unfold over_bands.
  destruct (split_bands_spec _ _ _ _ _ i Ha Hpf Hi) as (ptrs & a1 & -> & (Ha1 & V1 & Es & _) & Hp).
  rewrite bind_ok, (bo_frames _ _ _ _ _ Ha1), (bo_bands _ _ _ _ _ Ha1), Es.
  rewrite (fetch_all_bands pf i ptrs _ Hp), bind_ok.
  pose proof (band_samples_ok _ _ _ _ _ Ha) as [S16 _].
  destruct (channel_bands_ok pf i ptrs _ Hp S16) as [Lx Fx].
  assert (Hsh : band_shape (split_frames pf) (channel_bands pf i (band_samples audio))).
  { split; [rewrite Lx; apply band_count_pos|exact Fx]. }
  pose proof (Hstep sat c _ Hc Hsh) as Hs.
  destruct (step sat c _) as [[[[err c'] yss] sat']|f] eqn:E; [|exact Hs].
  destruct Hs as (HQ & [_ Fy] & Ly). rewrite bind_ok.
  destruct (proj1 (wp_ok _ _) (wp_put_all_bands pf i ptrs yss (band_samples audio) Hp
    ltac:(congruence) Fy S16)) as (d & -> & Ld & D16 & Ey & Hother).
  rewrite bind_ok. split; [done|].
  destruct (store_split_ok pf nin k k a1 d Ha1 V1 ltac:(congruence) D16) as [Hst Esd].
  split; [done|]. rewrite Esd, Ey. split; [done|]. intros j Hj Hne.
  destruct (split_bands_const_spec _ _ _ _ _ j Ha Hpf Hj) as (ptrs' & _ & _ & _ & _ & Hp').
  by apply (Hother j ptrs').
Qed.

Lemma over_channels_spec step P Q :
  step_ok step P Q -> flag_or step -> forall cs i audio sat,
  Forall P cs -> buffer_ok pf nin k k audio -> (i + length cs = k)%nat ->
  match over_channels step i cs audio sat with
  | Ok (err, cs', audio', sat') =>
      buffer_ok pf nin k k audio' /\
      (forall j, (j < i)%nat ->
         channel_bands pf j (band_samples audio') = channel_bands pf j (band_samples audio)) /\
      (err = kNoError /\ Forall2 (Q kNoError) cs cs' /\ (exists ss,
         length ss = length cs /\ sat' = sat || existsb id ss /\
         forall j c c' s, cs !! j = Some c -> cs' !! j = Some c' -> ss !! j = Some s ->
           alone step audio audio' (i + j) c c' s) \/
       err = kUnspecifiedError /\ exists cs1 c c' cs2 cs1' e,
         cs = cs1 ++ c :: cs2 /\ cs' = cs1' ++ c' :: cs2 /\ e <> kNoError /\
         Forall2 (Q kNoError) cs1 cs1' /\ Q e c c')
  | Fault f => f = SignedOverflow
  end.
Proof.
  intros Hstep Hflag.
  induction cs as [|c cs IH]; intros i audio sat HP Ha Hk; cbn [over_channels].
  { split; [done|]. split; [done|]. left. split; [done|]. split; [constructor|].
    exists []. split; [done|]. split; [by rewrite orb_false_r|done]. }
  pose proof (Forall_inv HP) as Hc. apply Forall_inv_tail in HP as Hcs. cbn [length] in Hk.
  pose proof (over_bands_spec step P Q audio i sat c Hstep Hc Ha ltac:(lia)) as H1.
  destruct (over_bands step audio i sat c) as [[[[err c'] a1] sat1]|f]; [|exact H1].
  destruct H1 as (HQ & Ha1 & Estep & Hother). rewrite bind_ok.
  destruct (Z.eqb_spec err kNoError) as [->|Hne]; cbn [negb].
  2:{ split; [done|]. split; [intros j Hj; apply Hother; lia|]. right. split; [done|].
      exists [], c, c', cs, [], err. by split_and!. }
  specialize (IH (S i) a1 sat1 Hcs Ha1 ltac:(lia)).
  destruct (over_channels step (S i) cs a1 sat1) as [[[[err cs'] a2] sat2]|f]; [|exact IH].
  destruct IH as (Ha2 & Hbefore & Hcase). rewrite bind_ok. split; [done|].
  split; [intros j Hj; rewrite Hbefore, Hother by lia; done|].
  destruct Hcase as [(-> & F & ss & Ls & Es & Hal)
                    |(-> & cs1 & d & d' & cs2 & cs1' & e & -> & -> & Hne & F & Hd)].
  - left. split; [done|]. split; [by constructor|].
    rewrite Hflag in Estep. apply bind_inv in Estep as ([[[e1 c1] y1] s1] & E1 & E2).
    injection E2 as -> -> -> <-.
    exists (s1 :: ss). split; [cbn; congruence|].
    split; [cbn; unfold id at 1; by rewrite orb_assoc|]. intros [|j] x x' s Ex Ex' Exs.
    + injection Ex as <-. injection Ex' as <-. injection Exs as <-. rewrite Nat.add_0_r.
      unfold alone. rewrite Hbefore by lia. exact E1.
    + cbn in Ex, Ex', Exs. pose proof (Hal j x x' s Ex Ex' Exs) as E. unfold alone in *.
      replace (S i + j)%nat with (i + S j)%nat in E by lia.
      rewrite <- (Hother (i + S j)%nat); [exact E|apply lookup_lt_Some in Ex; lia|lia].
  - right. split; [done|]. exists (c :: cs1), d, d', cs2, (c' :: cs1'), e.
    split_and!; try done. by constructor.
Qed.

(** What every step keeps is kept by the loop, also when it ends early. *)
Lemma over_channels_kept step P Q (R : GainController -> GainController -> Prop) :
  step_ok step P Q -> flag_or step ->
  (forall c, P c -> R c c) -> (forall e c c', P c -> Q e c c' -> R c c') ->
  forall cs audio sat,
  Forall P cs -> buffer_ok pf nin k k audio -> length cs = k ->
  upto (over_channels step 0 cs audio sat) (fun '(err, cs', audio', _) =>
    buffer_ok pf nin k k audio' /\ Forall2 R cs cs' /\
    (err = kNoError /\ Forall2 (Q kNoError) cs cs' \/
     err = kUnspecifiedError /\
     exists e c c', In c cs /\ Q e c c' /\ e <> kNoError)).
Proof.
  intros Hstep Hflag Hrefl HR cs audio sat HP Ha Hk.
  pose proof (over_channels_spec step P Q Hstep Hflag cs 0 audio sat HP Ha Hk) as H.
  destruct (over_channels step 0 cs audio sat) as [[[[err cs'] audio'] sat']|f]; [|exact H].
  assert (HQR : forall l l', Forall P l -> Forall2 (Q kNoError) l l' -> Forall2 R l l').
  { intros l l' Hl F. induction F; [done|]. inversion Hl; subst.
    constructor; [by eapply HR|auto]. }
  destruct H as (Ha' & _ & [(-> & F & _)|(-> & l1 & c & c' & l2 & l1' & e & -> & -> & Hne & F & Hc)]);
    (split; [exact Ha'|]).
  - split; [by apply HQR|by left].
  - apply Forall_app in HP as [P1 P2]. split.
    + apply Forall2_app; [by apply HQR|]. inversion P2 as [|? ? Pc Pl]; subst.
      constructor; [by eapply HR|]. clear -Pl Hrefl. induction Pl; constructor; auto.
    + right. split; [done|]. exists e, c, c'. split_and!; try done.
      apply in_or_app. right. by left.
Qed.

(** *** The calls of one channel *)

Lemma analyze_analog_flag level frames : flag_or (analyze_analog level frames).
Proof.
  intros sat c xss. unfold analyze_analog.
  destruct (WebRtcAgc_AddMic _ _ _) as [[[? ?] ?]|]; cbn; by rewrite ?orb_false_r.
Qed.

Lemma analyze_digital_flag level frames : flag_or (analyze_digital level frames).
Proof.
  intros sat c xss. unfold analyze_digital.
  destruct (WebRtcAgc_VirtualMic _ _ _ _) as [[[[? ?] ?] ?]|]; cbn; by rewrite ?orb_false_r.
Qed.

Lemma process_channel_flag echo frames : flag_or (process_channel echo frames).
Proof.
  intros sat c xss. unfold process_channel. destruct (get (capture_level_ c)); [|done]. rewrite !bind_ok.
  destruct (WebRtcAgc_Process _ _ _ _ _ _ _ _) as [p|]; [|done]. rewrite !bind_ok.
  destruct (get (p_agc p)); [|done]. rewrite !bind_ok. destruct (negb _); cbn; [by rewrite orb_false_r|].
  destruct (p_warning p =? 1); cbn; by rewrite ?orb_true_r, ?orb_false_r.
Qed.

(** The controller keeps its instance sound and set up as before. *)
Definition kept (n : Z) (c c' : GainController) : Prop :=
  inv n (state_ c') /\ setup (state_ c') = setup (state_ c) /\ level_known c'.

Definition level_in (c : GainController) : Prop :=
  exists l, capture_level_ c = Some l /\ minLevel (state_ c) <= l <= maxAnalog (state_ c).

Context (rate : Z).
Hypothesis Hrate : rate_ok rate.
Hypothesis Hlen : frame_len rate = split_frames pf.

Definition controller_ready (n : Z) (c : GainController) : Prop :=
  inv n (state_ c) /\ fs (state_ c) = rate /\ level_known c.

Lemma kept_refl n n' c : controller_ready n c -> n <= n' -> kept n' c c.
Proof. intros (Hi & _ & Hl) Hn. split_and!; try done. by apply (channel_mono n). Qed.

Lemma analyze_analog_ok n level :
  i32 level ->
  step_ok (analyze_analog level (split_frames pf)) (controller_ready n) (fun err c c' =>
    err = kNoError /\ kept n c c' /\ capture_level_ c' = Some level).
Proof.
  intros Hl sat c xss (Hi & Hf & _) Hx. unfold analyze_analog.
  rewrite <- Hlen, <- Hf in Hx |- *.
  pose proof (channel_add_mic n (state_ c) xss Hi Hx) as H.
  destruct (WebRtcAgc_AddMic _ _ _) as [[[ret s'] yss]|f]; [|exact H].
  destruct H as (-> & Hi' & Hs & Hy & Hly). rewrite bind_ok.
  split; [|done]. split; [done|]. split; [|done]. split_and!; try done. by exists level.
Qed.

Lemma analyze_digital_ok n level :
  i32 level ->
  step_ok (analyze_digital level (split_frames pf))
    (fun c => controller_ready n c /\ agcMode (state_ c) = kAgcModeAdaptiveDigital) (fun err c c' =>
    err = kNoError /\ kept n c c' /\ level_in c').
Proof.
  intros Hl sat c xss [(Hi & Hf & _) Hm] Hx. unfold analyze_digital.
  rewrite <- Hlen, <- Hf in Hx |- *.
  pose proof (channel_virtual_mic n (state_ c) xss level Hi Hm Hl Hx) as H.
  destruct (WebRtcAgc_VirtualMic _ _ _ _) as [[[[ret s'] yss] out]|f]; [|exact H].
  destruct H as (-> & Hi' & Hs & Ho & Hy & Hly). rewrite bind_ok.
  split; [|done]. split; [done|]. split.
  - split_and!; try done. exists out. split; [done|]. unfold i32. lia.
  - destruct (channel_digital_range n s' Hi') as [E1 E2].
    { unfold setup, usage in Hs. congruence. }
    exists out. cbn. by rewrite E1, E2.
Qed.

Lemma process_channel_ok n echo :
  0 <= n <= block_bound - 5 ->
  step_ok (process_channel echo (split_frames pf)) (controller_ready n) (fun err c c' =>
    kept (n + 5) c c' /\ (level_in c -> err = kNoError /\ level_in c') /\
    (agcMode (state_ c) = kAgcModeFixedDigital -> err = kNoError)).
Proof.
  intros Hn sat c xss (Hi & Hf & l & El & Hl) Hx. unfold process_channel.
  rewrite El. cbn [get]. rewrite bind_ok. pose proof Hrate as Hr.
  rewrite <- Hlen, <- Hf in Hx |- *. rewrite <- Hf in Hr.
  pose proof (channel_process n (state_ c) xss l echo Hi Hn Hr Hl Hx) as H.
  destruct (WebRtcAgc_Process _ _ _ _ _ _ _ _) as [p|f]; [|exact H].
  destruct H as ((s' & Es & Hi' & Hs) & Hy & Hly & Hret & Hlev & Hin & Hfix).
  rewrite bind_ok, Es. cbn [get]. rewrite bind_ok.
  assert (Hlim : minLevel s' = minLevel (state_ c) /\ maxAnalog s' = maxAnalog (state_ c))
    by (unfold setup in Hs; by injection Hs as _ _ _ -> ->).
  destruct (Z.eqb_spec (p_ret p) kNoError) as [E|Hne]; cbn [negb].
  - split; [|done]. split; [split_and!; try done; by exists (p_level p)|].
    split; [|done]. intros (l' & El' & Hl'). split; [done|].
    rewrite El in El'. injection El' as <-.
    exists (p_level p). split; [done|]. cbn. destruct Hlim as [-> ->]. by apply Hin.
  - split; [|done]. split; [split_and!; try done; by exists l|]. split.
    + intros (l' & El' & Hl'). rewrite El in El'. injection El' as <-. by destruct (Hin Hl').
    + intros Hm. by destruct Hne; apply Hfix.
Qed.

(** *** The calls of one frame *)

Definition same_control (g g' : GainControlImpl) : Prop :=
  (enabled_ g', mode_ g', minimum_capture_level_ g', maximum_capture_level_ g',
   limiter_enabled_ g', target_level_dbfs_ g', compression_gain_db_ g',
   num_proc_channels_ g', sample_rate_hz_ g') =
  (enabled_ g, mode_ g, minimum_capture_level_ g, maximum_capture_level_ g,
   limiter_enabled_ g, target_level_dbfs_ g, compression_gain_db_ g,
   num_proc_channels_ g, sample_rate_hz_ g).

(** [g'] is sound after five more blocks per frame; its settings are those of [g],
    and so are the configurations and ranges of its controllers. *)
Definition carries (n : Z) (g g' : GainControlImpl) : Prop :=
  control_ok n k rate g' /\ same_control g g' /\
  (configured_ok g -> configured_ok g') /\ (ranges_ok g -> ranges_ok g').

Lemma carries_trans n n' g g' g'' : carries n g g' -> carries n' g' g'' -> carries n' g g''.
Proof.
  intros (_ & E & C & R) (H & E' & C' & R'). split; [done|]. unfold same_control in *.
  split; [congruence|]. split; auto.
Qed.

Lemma carries_kept n n' g g' :
  control_ok n k rate g -> same_control g g' -> i32 (analog_capture_level_ g') ->
  Forall2 (kept n') (gain_controllers_ g) (gain_controllers_ g') -> carries n' g g'.
Proof.
  intros [Hs Hm Hr Hi Hl He] Hsame H32 F. pose proof Hsame as E. unfold same_control in E.
  injection E as E1 E2 E3 E4 E5 E6 E7 E8 E9.
  split; [|split; [done|split]].
  - constructor; try congruence.
    + destruct Hs. constructor; congruence.
    + apply (Forall2_right _ _ _ _ _ F Hi). by intros c c' _ (? & _).
    + apply (Forall2_right _ _ _ _ _ F Hl). by intros c c' _ (_ & _ & ?).
    + rewrite E1. intros En. destruct (He En) as [L1 L2].
      split; [rewrite <- L1; symmetry; by apply (Forall2_length F)|].
      apply (Forall2_right _ _ _ _ _ F L2). intros c c' [M1 M2] (_ & Es & _).
      unfold setup, usage in Es. injection Es as A1 A2 A3 A4 A5. unfold in_mode. split; congruence.
  - intros Hc. unfold configured_ok. rewrite E1. intros En.
    apply (Forall2_right _ _ _ _ _ F (Hc En)). intros c c' M (_ & Es & _).
    unfold setup, usage in Es. injection Es as A1 A2 A3 A4 A5.
    unfold has_config, config_of in *. rewrite E5, E6, E7. congruence.
  - intros Hc. unfold ranges_ok. rewrite E1. intros En.
    apply (Forall2_right _ _ _ _ _ F (Hc En)). intros c c' M (_ & Es & _).
    unfold setup, usage in Es. injection Es as A1 A2 A3 A4 A5.
    unfold has_range in *. rewrite E2, E3, E4, A4, A5. exact M.
Qed.

Lemma carries_refl n n' g : control_ok n k rate g -> n <= n' -> carries n' g g.
Proof.
  intros H Hn. split; [|done]. destruct H as [Hs Hm Hr Hi Hl He]. constructor; try done.
  revert Hi. apply Forall_impl. intros c Hc. by apply (channel_mono n).
Qed.

Lemma control_ready n g :
  control_ok n k rate g -> enabled_ g = true ->
  Forall (controller_ready n) (gain_controllers_ g) /\ length (gain_controllers_ g) = k.
Proof.
  intros [Hs Hm Hr Hi Hl He] En. destruct (He En) as [Hk Hmode]. split; [|done].
  apply Forall_lookup_2. intros i c E. split; [by apply (Forall_lookup_1 _ _ _ _ Hi E)|].
  split; [by apply (Forall_lookup_1 _ _ _ _ Hmode E)|by apply (Forall_lookup_1 _ _ _ _ Hl E)].
Qed.

Lemma upto_mapM {A B} (f : A -> res B) (P : A -> Prop) (R : A -> B -> Prop) l :
  (forall x, P x -> upto (f x) (R x)) -> Forall P l -> upto (mapM f l) (Forall2 R l).
Proof.
  intros Hf. induction 1 as [|x l Hx _ IH]; [by constructor|]. cbn [mapM].
  apply upto_bind. eapply upto_mono; [by apply Hf|]. intros y Hy.
  apply upto_bind. eapply upto_mono; [exact IH|]. intros ys Hys. by constructor.
Qed.

Lemma ProcessRenderAudio_spec n g x :
  control_ok n k rate g -> samples16 x ->
  upto (ProcessRenderAudio g x) (fun g' => carries n g g' /\
    same_settings g g').
Proof.
  intros H Hx. unfold ProcessRenderAudio. destruct (enabled_ g) eqn:En; cbn [negb].
  2:{ split; [by apply (carries_refl n)|done]. }
  apply upto_bind. eapply upto_mono.
  { apply (upto_mapM _ (controller_ready n) (kept n)).
    - intros c (Hi & _ & l & El & Hl). pose proof (channel_add_farend n (state_ c) x Hi Hx) as Hf.
      destruct (WebRtcAgc_AddFarend _ _ _) as [[ret o]|f]; [|exact Hf].
      destruct Hf as (s' & -> & Hi' & Hs). rewrite bind_ok. cbn [get]. rewrite bind_ok.
      split_and!; try done. by exists l.
    - by apply control_ready. }
  intros cs F. split; [|done].
  apply (carries_kept n); [done|done|apply (co_settings _ _ _ _ H)|exact F].
Qed.

(** No controller rejects its level. *)
Definition levels_accepted (g : GainControlImpl) : Prop :=
  mode_ g = kFixedDigital \/ Forall level_in (gain_controllers_ g).

Definition level_in_limits (g : GainControlImpl) : Prop :=
  mode_ g = kAdaptiveAnalog ->
  minimum_capture_level_ g <= analog_capture_level_ g <= maximum_capture_level_ g.

Lemma AnalyzeCaptureAudio_spec n g audio :
  control_ok n k rate g -> buffer_ok pf nin k k audio ->
  upto (AnalyzeCaptureAudio g audio) (fun '(err, g', audio') =>
    err = kNoError /\ carries n g g' /\ same_settings g g' /\
    buffer_ok pf nin k k audio' /\
    (enabled_ g = true -> ranges_ok g -> level_in_limits g -> levels_accepted g')).
Proof.
  intros H Ha. unfold AnalyzeCaptureAudio. destruct (enabled_ g) eqn:En; cbn [negb].
  2:{ split_and!; try done; by apply (carries_refl n). }
  destruct (control_ready n g H En) as [Hready Hk].
  pose proof (so_level _ (co_settings _ _ _ _ H)) as H32.
  assert (H160 : (split_frames pf <= 160)%nat) by (destruct Hpf as [->|[->|[->| ->]]]; cbn; lia).
  rewrite (co_channels _ _ _ _ H). cbn [get]. rewrite bind_ok.
  rewrite (bo_frames _ _ _ _ _ Ha), (bo_visible _ _ _ _ _ Ha), Hk.
  rewrite (proj2 (Nat.leb_le _ _) H160), Nat.eqb_refl, Nat.leb_refl. cbn [negb orb]. cbv zeta.
  destruct (Z.eqb_spec (mode_ g) kAdaptiveAnalog) as [Em|Hna];
    [|destruct (Z.eqb_spec (mode_ g) kAdaptiveDigital) as [Em|Hnd]].
  - apply upto_bind. eapply upto_mono.
    { apply (over_channels_kept _ _ _ (kept n) (analyze_analog_ok n _ H32)
        (analyze_analog_flag _ _)); try done.
      - intros c Hc. by apply (kept_refl n).
      - by intros e c c' _ (_ & ? & _). }
    intros [[[err cs'] audio'] sat'] (Ha' & F & Hcase).
    destruct Hcase as [(-> & FQ)|(_ & e & c & c' & _ & (-> & _) & Hne)]; [|done].
    assert (Hc : carries n g (put_controllers cs' g)) by by apply (carries_kept n).
    split_and!; try done. intros _ Hr Hlim. right.
    destruct Hc as (_ & _ & _ & Hrr). specialize (Hrr Hr En). cbn in Hrr |- *.
    apply Forall_lookup_2. intros i c' Ei.
    destruct (Forall2_lookup_r _ _ _ _ _ FQ Ei) as (c & _ & _ & _ & El).
    destruct (Forall_lookup_1 _ _ _ _ Hrr Ei) as [E1 E2].
    { cbn. by rewrite Em. }
    exists (analog_capture_level_ g). split; [done|]. rewrite E1, E2. by apply Hlim.
  - apply upto_bind. eapply upto_mono.
    { apply (over_channels_kept _ _ _ (kept n) (analyze_digital_ok n _ H32)
        (analyze_digital_flag _ _)); try done.
      - intros c [Hc _]. by apply (kept_refl n).
      - by intros e c c' _ (_ & ? & _).
      - apply Forall_lookup_2. intros i c E. split; [by apply (Forall_lookup_1 _ _ _ _ Hready E)|].
        destruct (co_enabled _ _ _ _ H En) as [_ Hm].
        destruct (Forall_lookup_1 _ _ _ _ Hm E) as [_ ->]. by rewrite Em. }
    intros [[[err cs'] audio'] sat'] (Ha' & F & Hcase).
    destruct Hcase as [(-> & FQ)|(_ & e & c & c' & _ & (-> & _) & Hne)]; [|done].
    assert (Hc : carries n g (put_controllers cs' g)) by by apply (carries_kept n).
    split_and!; try done. intros _ _ _. right. cbn.
    apply (Forall2_right _ (fun _ => True) _ _ _ FQ); [by apply Forall_true|].
    by intros c c' _ (_ & _ & ?).
  - split; [done|]. split; [by apply (carries_refl n)|]. split; [done|]. split; [done|].
    intros _ _ _. left.
    pose proof (so_mode _ (co_settings _ _ _ _ H)).
    unfold kAdaptiveAnalog, kAdaptiveDigital, kFixedDigital in *. lia.
Qed.

(** The average of levels between two bounds is between them. *)
Lemma average_level_spec lo hi cs :
  0 <= lo -> hi <= 65535 -> cs <> [] ->
  Forall (fun c => exists l, capture_level_ c = Some l /\ lo <= l <= hi) cs ->
  upto (average_level cs (length cs)) (fun l => lo <= l <= hi).
Proof.
  intros Hlo Hhi Hne Hcs. unfold average_level.
  assert (Hsum : forall s0 (P : Z -> Prop), i32 s0 ->
    (forall s, i32 s ->
       s0 + lo * Z.of_nat (length cs) <= s <= s0 + hi * Z.of_nat (length cs) -> P s) ->
    upto (each (fun sum c => l ← get (capture_level_ c); add32 sum l) s0 cs) P).
  { clear Hne. induction Hcs as [|c cs (l & El & Hl) _ IH]; intros s0 P H0 HP; cbn [each].
    - apply HP; [done|]. cbn. lia.
    - apply upto_bind. rewrite El. cbn [get]. rewrite bind_ok. unfold add32.
      apply upto_chk32. intros Hi. apply IH; [done|]. intros s Hs Hr. apply HP; [done|].
      cbn [length]. lia. }
  apply upto_bind, Hsum; [unfold i32; lia|]. intros s H32 Hs.
  assert (0 < Z.of_nat (length cs)) by (destruct cs; [done|cbn; lia]).
  destruct (Nat.eqb_spec (length cs) 0); [lia|].
  assert (Hs0 : 0 <= s < 2 ^ 64) by (unfold i32 in H32; nia). cbn [upto].
  rewrite Z.mod_small by exact Hs0.
  assert (Hq : lo <= s / Z.of_nat (length cs) <= hi).
  { split; [apply Z.div_le_lower_bound; lia|]. apply Z.div_le_upper_bound; lia. }
  rewrite to_i32_id; [exact Hq|]. unfold i32. lia.
Qed.

Lemma average_level_known cs :
  cs <> [] -> Forall level_known cs ->
  upto (average_level cs (length cs)) (fun l => i32 l /\ forall lo hi,
    0 <= lo -> hi <= 65535 ->
    Forall (fun c => exists l, capture_level_ c = Some l /\ lo <= l <= hi) cs -> lo <= l <= hi).
Proof.
  intros Hne Hk. apply upto_true.
  - unfold average_level. apply upto_bind.
    eapply (upto_mono _ (fun _ => True)); [|intros s _; by destruct cs].
    clear Hne. generalize 0. induction Hk as [|c cs (l & El & _) _ IH]; intros s0; [done|].
    cbn [each]. apply upto_bind. rewrite El. cbn [get]. rewrite bind_ok.
    apply upto_chk32. intros _. apply IH.
  - intros l El. split.
    + unfold average_level in El. apply bind_inv in El as (s & _ & El).
      case_match; [done|]. injection El as <-. apply to_i32_range.
    + intros lo hi Hlo Hhi Hl. pose proof (average_level_spec lo hi cs Hlo Hhi Hne Hl) as H.
      by rewrite El in H.
Qed.

(** The result of processing: the level is asked for in analog mode, and levels in
    their range are accepted and stay in range. *)
Definition process_code (g : GainControlImpl) : Z :=
  if enabled_ g && (mode_ g =? kAdaptiveAnalog) && negb (was_analog_level_set_ g)
  then kStreamParameterNotSetError else kNoError.

Lemma ProcessCaptureAudio_spec n g audio echo :
  0 <= n <= block_bound - 5 -> (0 < k)%nat ->
  control_ok n k rate g -> buffer_ok pf nin k k audio ->
  upto (ProcessCaptureAudio g audio echo) (fun '(err, g', audio') =>
    carries (n + 5) g g' /\ buffer_ok pf nin k k audio' /\
    (err <> kNoError \/ enabled_ g = false ->
       analog_capture_level_ g' = analog_capture_level_ g) /\
    ((enabled_ g = true -> ranges_ok g /\ levels_accepted g) ->
       err = process_code g /\
       (enabled_ g = true -> err = kNoError ->
          was_analog_level_set_ g' = false /\ level_in_limits g'))).
Proof.
  intros Hn Hk0 H Ha. unfold ProcessCaptureAudio, process_code.
  destruct (enabled_ g) eqn:En; cbn [negb].
  2:{ split; [apply (carries_refl n); [done|lia]|]. by split_and!. }
  destruct ((mode_ g =? kAdaptiveAnalog) && negb (was_analog_level_set_ g)) eqn:Eset; cbn [andb];
    rewrite Eset.
  { split; [apply (carries_refl n); [done|lia]|].
    split; [done|]. split; [done|]. by split. }
  destruct (control_ready n g H En) as [Hready Hk].
  assert (H160 : (split_frames pf <= 160)%nat) by (destruct Hpf as [->|[->|[->| ->]]]; cbn; lia).
  rewrite (co_channels _ _ _ _ H). cbn [get]. rewrite bind_ok.
  rewrite (bo_frames _ _ _ _ _ Ha), (bo_visible _ _ _ _ _ Ha).
  rewrite (proj2 (Nat.leb_le _ _) H160), Nat.eqb_refl. cbn [negb orb].
  apply upto_bind. eapply upto_mono.
  { apply (over_channels_kept _ _ _ (kept (n + 5)) (process_channel_ok n _ Hn)
      (process_channel_flag _ _)); try done.
    - intros c Hc. apply (kept_refl n); [done|lia].
    - by intros e c c' _ (? & _). }
  intros [[[err cs'] audio'] sat'] (Ha' & F & Hcase). cbv zeta.
  assert (Hcar : forall l b, i32 l ->
    carries (n + 5) g (put_level_set b (put_level l (put_controllers cs' (put_saturated sat' g)))))
    by (intros l b Hl; by apply (carries_kept n)).
  pose proof (so_level _ (co_settings _ _ _ _ H)) as H32.
  assert (Hne : cs' <> []).
  { intros ->. apply Forall2_length in F. cbn in F. lia. }
  assert (Hcode : ranges_ok g -> levels_accepted g -> err = kNoError).
  { intros Hr Hl. destruct Hcase as [[? _]|(_ & e & c & c' & Hin & (_ & Hlev & Hfix) & Hbad)]; [done|].
    destruct Hbad, Hl as [Hm|Hl].
    - apply Hfix. destruct (co_enabled _ _ _ _ H En) as [_ Hmode].
      rewrite Forall_forall in Hmode.
      destruct (Hmode c Hin) as [_ ->]. by rewrite Hm.
    - apply Hlev. rewrite Forall_forall in Hl. by apply Hl. }
  destruct Hcase as [(-> & FQ)|(-> & _)].
  2:{ split; [exact (Hcar _ (was_analog_level_set_ g) H32)|]. split; [done|].
      split; [done|]. intros Hg. destruct (Hg eq_refl). by discriminate Hcode. }
  change (negb (kNoError =? kNoError)) with false. cbv iota.
  destruct (Nat.eqb_spec k 0); [lia|].
  change (mode_ (put_controllers cs' (put_saturated sat' g))) with (mode_ g).
  assert (Ek : length cs' = k) by (rewrite <- Hk; symmetry; by apply (Forall2_length F)).
  destruct (Z.eqb_spec (mode_ g) kAdaptiveAnalog) as [Em|Hna].
  - apply upto_bind, upto_bind.
    replace (average_level cs' k) with (average_level cs' (length cs')) by (by rewrite Ek).
    eapply upto_mono.
    { apply average_level_known; [done|].
      apply (Forall2_right _ (fun _ => True) _ _ _ F); [by apply Forall_true|].
      by intros c c' _ (_ & _ & ?). }
    intros l [Hl32 Hl]. split; [by apply Hcar|]. split; [done|].
    split; [by intros [?|?]|]. intros Hg. destruct (Hg eq_refl) as [Hr Hlev]. split; [done|].
    intros _ _. split; [done|]. intros _. cbn.
    pose proof (so_limits _ (co_settings _ _ _ _ H)) as Hlim.
    apply Hl; [lia|lia|]. destruct Hlev as [Hm|Hlev]; [by rewrite Em in Hm|].
    apply Forall_lookup_2. intros i c' Ei.
    destruct (Forall2_lookup_r _ _ _ _ _ FQ Ei) as (c & Ec & (_ & Es & _) & Hin & _).
    destruct (Hin (Forall_lookup_1 _ _ _ _ Hlev Ec)) as (_ & l' & El' & Hl').
    destruct (Forall_lookup_1 _ _ _ _ (Hr En) Ec) as [M1 M2]; [by rewrite Em|].
    unfold setup in Es. injection Es as _ _ _ A4 A5. exists l'. split; [done|].
    by rewrite <- M1, <- M2, <- A4, <- A5.
  - split; [exact (Hcar _ false H32)|]. split; [done|]. split; [done|]. intros _.
    split; [done|]. intros _ _. split; [done|]. intros Hm. by destruct Hna.
Qed.

End bands.
End control.

(** Rates and the samples per frame of a buffer without resampling. *)
Definition format_ok (rate : Z) (pf : nat) : Prop :=
  (rate = 8000 /\ pf = 80%nat) \/ (rate = 16000 /\ pf = 160%nat) \/
  (rate = 32000 /\ pf = 320%nat) \/ (rate = 48000 /\ pf = 480%nat).

Lemma format_rate rate pf :
  format_ok rate pf -> frames_ok pf /\ rate_ok rate /\ frame_len rate = split_frames pf /\
    (16000 <? rate) = (1 <? band_count pf)%nat.
Proof.
  unfold format_ok, frames_ok, rate_ok.
  intros [[-> ->]|[[-> ->]|[[-> ->]|[-> ->]]]]; split_and!; auto 10.
Qed.

Section frame.
Context (inv : Z -> LegacyAgc -> Prop) `{!AgcChannel inv}.
Context (rate : Z) (pf k r nin nin' : nat).
Hypothesis Hformat : format_ok rate pf.

(** Bands are split and merged where there are several. *)
Lemma upto_split_both (render capture : AudioBuffer) :
  buffer_ok pf nin r r render -> buffer_ok pf nin' k k capture ->
  upto (if 16000 <? rate
        then render ← SplitIntoFrequencyBands render;
             capture ← SplitIntoFrequencyBands capture;
             Ok (render, capture)
        else Ok (render, capture))
       (fun '(render', capture') =>
          buffer_ok pf nin r r render' /\ buffer_ok pf nin' k k capture').
Proof.
  intros Hr Hc. destruct (format_rate _ _ Hformat) as (Hpf & _ & _ & ->).
  destruct (Nat.ltb_spec 1 (band_count pf)); [|done]. apply upto_wp.
  apply wp_bind. eapply wp_mono; [by apply wp_SplitIntoFrequencyBands|]. intros r1 Hr1.
  apply wp_bind. eapply wp_mono; [by apply wp_SplitIntoFrequencyBands|]. by intros c1 Hc1.
Qed.

Lemma wp_PackRenderAudioBuffer (render : AudioBuffer) :
  (0 < r)%nat -> Z.of_nat r <= 65536 -> buffer_ok pf nin r r render ->
  wp (PackRenderAudioBuffer render) (fun '(x, render') =>
    samples16 x /\ length x = split_frames pf /\ buffer_ok pf nin r r render').
Proof.
  intros H0 Hr H. destruct (format_rate _ _ Hformat) as (Hpf & _).
  assert (H160 : (split_frames pf <= 160)%nat) by (destruct Hpf as [->|[->|[->| ->]]]; cbn; lia).
  unfold PackRenderAudioBuffer. rewrite (bo_frames _ _ _ _ _ H).
  rewrite (proj2 (Nat.leb_le _ _) H160). cbn [negb].
  apply wp_bind. eapply wp_mono; [by apply (wp_mixed_low_pass_data pf nin r r)|].
  intros [x1 r1] (_ & _ & H1 & _).
  apply wp_bind. eapply wp_mono; [by apply (wp_mixed_low_pass_data pf nin r r)|].
  intros [x2 r2] (Hx & Hl & H2 & _). by apply wp_ret.
Qed.

Lemma upto_ProcessOneFrame n g (render capture : AudioBuffer) :
  0 <= n <= block_bound - 5 -> (0 < k)%nat -> (0 < r)%nat -> Z.of_nat r <= 65536 ->
  control_ok inv n k rate g -> ranges_ok g -> level_in_limits g ->
  buffer_ok pf nin r r render -> buffer_ok pf nin' k k capture ->
  upto (ProcessOneFrame rate render capture g)
    (fun '(err1, err2, render', capture', g') =>
       err1 = kNoError /\ err2 = process_code g /\
       carries inv k rate (n + 5) g g' /\ level_in_limits g' /\
       (enabled_ g = true -> err2 = kNoError -> was_analog_level_set_ g' = false) /\
       buffer_ok pf nin r r render' /\ buffer_ok pf nin' k k capture').
Proof.
  intros Hn Hk0 Hr0 Hr H Hrng Hlim Hren Hcap.
  destruct (format_rate _ _ Hformat) as (Hpf & Hrate & Hlen & Eband).
  unfold ProcessOneFrame. apply upto_bind.
  eapply upto_mono; [by apply upto_split_both|]. intros [r1 c1] [Hr1 Hc1].
  apply upto_bind. eapply upto_mono; [by apply upto_wp, wp_PackRenderAudioBuffer|].
  intros [x r2] (Hx & _ & Hr2).
  apply upto_bind. eapply upto_mono.
  { by apply (ProcessRenderAudio_spec inv k rate n). }
  intros g1 [Hg1 S1]. apply upto_bind.
  eapply upto_mono.
  { apply (AnalyzeCaptureAudio_spec inv pf nin' k Hpf rate Hlen n); [apply Hg1|done]. }
  intros [[err1 g2] c2] (-> & Hg2 & S2 & Hc2 & Hlev).
  pose proof (carries_trans inv k rate _ _ _ _ _ Hg1 Hg2) as Hg02.
  assert (S02 : same_settings g g2) by (unfold same_settings in *; congruence).
  assert (Hlev2 : enabled_ g2 = true -> ranges_ok g2 /\ levels_accepted g2).
  { intros En. split; [by apply Hg02|]. unfold same_settings in S1, S02.
    injection S02 as E1 E2 E3 E4 _ _ _ E5 _. injection S1 as A1 A2 A3 A4 _ _ _ A5 _.
    apply Hlev; [congruence|by apply Hg1|]. unfold level_in_limits in *.
    by rewrite A2, A3, A4, A5. }
  apply upto_bind. eapply upto_mono.
  { apply (ProcessCaptureAudio_spec inv pf nin' k Hpf rate Hrate Hlen n); try done.
    apply Hg02. }
  intros [[err2 g3] c3] (Hg3 & Hc3 & Hsame & Hcode). destruct (Hcode Hlev2) as [-> Hdone].
  assert (Ecode : process_code g2 = process_code g).
  { unfold same_settings in S02. injection S02 as E1 E2 _ _ _ _ _ _ E3.
    unfold process_code. by rewrite E1, E2, E3. }
  rewrite Ecode in *.
  pose proof (carries_trans inv k rate _ _ _ _ _ Hg02 Hg3) as Hg03.
  assert (Een : enabled_ g2 = enabled_ g) by (unfold same_settings in S02; by injection S02).
  assert (Hlim3 : level_in_limits g3).
  { destruct (decide (process_code g <> kNoError \/ enabled_ g2 = false)) as [Hd|Hd].
    - specialize (Hsame Hd). unfold level_in_limits in *. rewrite Hsame.
      unfold same_settings in S02. injection S02 as _ _ _ _ _ _ _ E _. rewrite E.
      destruct Hg03 as (_ & Es & _). unfold same_control in Es.
      injection Es as _ -> -> -> _ _ _ _ _. exact Hlim.
    - apply Hdone.
      + destruct (enabled_ g2); [done|]. by destruct Hd; right.
      + destruct (decide (process_code g = kNoError)); [done|]. by destruct Hd; left. }
  apply upto_bind. eapply (upto_mono _ (buffer_ok pf nin' k k)).
  { rewrite Eband. destruct (Nat.ltb_spec 1 (band_count pf)); [|done].
    apply upto_wp. by apply wp_MergeFrequencyBands. }
  intros c4 Hc4. split_and!; try done. intros En. rewrite <- Een in En. by apply Hdone.
Qed.
End frame.

(** * Theorems *)

(** A stereo gain control at 8 kHz, enabled, with level 100. *)
Definition started : res GainControlImpl :=
  g ← Initialize (fun _ => Some blank) GainControlImpl_new 2 8000;
  '(_, g) ← Enable (fun _ => Some blank) g true;
  Ok (set_stream_analog_level g 100).2.

Lemma started_ok : exists g, started = Ok g /\ control_ok agc_ok 0 2 8000 g /\
  configured_ok g /\ ranges_ok g /\ level_in_limits g /\ enabled_ g = true.
Proof.
  assert (Hmem : memories_ok (fun _ => Some blank)) by (intros i; by exists blank).
  assert (Hs : control_settings_ok GainControlImpl_new).
  { by constructor; cbn; unfold kAdaptiveAnalog, i32; try lia. }
  destruct (Initialize_all_spec agc_ok 0 2 8000 _ _ Hs Hmem ltac:(lia) ltac:(constructor)
    ltac:(constructor)) as (g & E & H & _ & _ & S).
  unfold started. rewrite E, bind_ok. unfold Enable. unfold same_settings in S.
  injection S as S1 S2 S3 S4 S5 S6 S7 S8 S9. rewrite S1. cbn [negb andb].
  assert (H1 : control_settings_ok (put_enabled true g)) by (destruct H as [[] _ _ _ _ _]; by constructor).
  destruct (Reinitialize_all_spec agc_ok 0 2 8000 _ _ H1 (co_channels _ _ _ _ _ H)
    (co_rate _ _ _ _ _ H) Hmem ltac:(lia) (co_inv _ _ _ _ _ H) (co_levels _ _ _ _ _ H))
    as (g' & -> & H' & Hc & Hr & S').
  unfold same_settings in S'. injection S' as T1 T2 T3 T4 T5 T6 T7 T8 T9.
  rewrite !bind_ok. eexists. split; [done|]. cbn in T1, T3, T4, S3, S4.
  unfold set_stream_analog_level. cbn. rewrite T3, T4, S3, S4. cbn.
  split; [|split; [exact Hc|split; [exact Hr|split; [|exact T1]]]].
  - destruct H' as [[] ? ? ? ? ?]. by constructor.
  - intros _. cbn. rewrite T3, T4, S3, S4. cbn. lia.
Qed.

(** C5: one frame through the gain control, at 8, 16, 32 and 48 kHz, with any number
    of channels and bands: on a sound gain control with a level in its limits the
    frame fails in no way but the overflow of a signed integer in the AGC; the
    analysis succeeds and the processing reports a missing level exactly in analog
    mode before a level was set; settings, configurations, level ranges and buffers
    stay sound, the level stays in its limits, and a successful call asks for a new
    level. *)
Theorem one_frame_outcome rate pf k r nin nin' n g
    (render capture : AudioBuffer) :
  format_ok rate pf -> 0 <= n <= block_bound - 5 ->
  (0 < k)%nat -> (0 < r)%nat -> Z.of_nat r <= 65536 ->
  control_ok agc_ok n k rate g -> configured_ok g -> ranges_ok g -> level_in_limits g ->
  buffer_ok pf nin r r render -> buffer_ok pf nin' k k capture ->
  match ProcessOneFrame rate render capture g with
  | Ok (err1, err2, render', capture', g') =>
      err1 = kNoError /\ err2 = process_code g /\
      control_ok agc_ok (n + 5) k rate g' /\ configured_ok g' /\ ranges_ok g' /\
      same_control g g' /\ level_in_limits g' /\
      (enabled_ g = true -> err2 = kNoError -> was_analog_level_set_ g' = false) /\
      buffer_ok pf nin r r render' /\ buffer_ok pf nin' k k capture'
  | Fault f => f = SignedOverflow
  end.
Proof.
  intros Hf Hn Hk Hr0 Hr H Hcf Hrng Hlim Hren Hcap.
  pose proof (upto_ProcessOneFrame agc_ok rate pf k r nin nin' Hf n g render capture
    Hn Hk Hr0 Hr H Hrng Hlim Hren Hcap) as Ho.
  destruct (ProcessOneFrame rate render capture g) as [[[[[e1 e2] r'] c'] g']|f]; [|exact Ho].
  destruct Ho as (-> & -> & (H' & Hs & Hc & Hr') & Hl & Hset & Hren' & Hcap').
  split_and!; auto.
Qed.

Lemma one_frame_outcome_witness :
  exists g (b : AudioBuffer), started = Ok g /\
    match ProcessOneFrame 8000 b b g with
    | Ok (err1, err2, render', capture', g') =>
        err1 = kNoError /\ err2 = process_code g /\
        control_ok agc_ok (0 + 5) 2 8000 g' /\ configured_ok g' /\ ranges_ok g' /\
        same_control g g' /\ level_in_limits g' /\
        (enabled_ g = true -> err2 = kNoError -> was_analog_level_set_ g' = false) /\
        buffer_ok 80 2 2 2 render' /\ buffer_ok 80 2 2 2 capture'
    | Fault f => f = SignedOverflow
    end.
Proof.
  destruct started_ok as (g & E & H & Hc & Hr & Hl & _).
  destruct (proj1 (wp_ok _ _) (@wp_AudioBuffer_new small_angles 80 2 2
    (or_introl eq_refl) ltac:(lia))) as (b & _ & Hb).
  exists g, b. split; [exact E|].
  exact (one_frame_outcome 8000 80 2 2 2 2 0 g b b (or_introl (conj eq_refl eq_refl))
    ltac:(unfold block_bound; lia) ltac:(lia) ltac:(lia) ltac:(lia) H Hc Hr Hl Hb Hb).
Defined.

(** C7: the channels are processed independently: after a successful call on an enabled
    gain control every channel has the bands, the controller and the level it would have if its
    controller had processed its bands alone, and the stream is saturated when one
    of the channels is. *)
Theorem channels_independent rate pf k nin n g (audio : AudioBuffer)
    echo g' audio' :
  format_ok rate pf -> 0 <= n <= block_bound - 5 ->
  control_ok agc_ok n k rate g -> enabled_ g = true -> buffer_ok pf nin k k audio ->
  ProcessCaptureAudio g audio echo = Ok (kNoError, g', audio') ->
  exists saturated, length saturated = k /\
    stream_is_saturated_ g' = existsb id saturated /\
    forall i c c' s, gain_controllers_ g !! i = Some c -> gain_controllers_ g' !! i = Some c' ->
      saturated !! i = Some s ->
      process_channel (if echo then 1 else 0) (split_frames pf) false c
        (channel_bands pf i (band_samples audio)) =
      Ok (kNoError, c', channel_bands pf i (band_samples audio'), s).
Proof.
  intros Hf Hn H En Ha Hok. destruct (format_rate _ _ Hf) as (Hpf & Hrate & Hlen & _).
  destruct (control_ready agc_ok k rate n g H En) as [Hready Hk].
  revert Hok. unfold ProcessCaptureAudio. rewrite En. cbn [negb]. case_match; [done|].
  rewrite (co_channels _ _ _ _ _ H). cbn [get]. rewrite bind_ok, (bo_frames _ _ _ _ _ Ha).
  case_match; [done|]. intros Hok.
  apply bind_inv in Hok as ([[[err cs'] a'] sat] & E & Hok).
  pose proof (over_channels_spec pf nin k Hpf _ _ _
    (process_channel_ok agc_ok pf rate Hrate Hlen n (if echo then 1 else 0) Hn)
    (process_channel_flag _ _)
    _ 0%nat audio false Hready Ha Hk) as Hs.
  rewrite E in Hs. destruct Hs as (_ & _ & [(-> & _ & ss & Ls & Es & Hal)|(-> & _)]); [|done].
  change (negb (kNoError =? kNoError)) with false in Hok. cbv iota zeta in Hok.
  destruct (k =? 0)%nat; [done|]. apply bind_inv in Hok as (g1 & E1 & Hok).
  injection Hok as <- <-. exists ss. split; [congruence|].
  assert (Eg : stream_is_saturated_ g1 = sat /\ gain_controllers_ g1 = cs').
  { destruct (_ =? kAdaptiveAnalog) in E1; [apply bind_inv in E1 as (l & _ & E1)|]; by injection E1 as <-. }
  destruct Eg as [<- <-]. split; [done|]. exact Hal.
Qed.

Lemma channels_independent_witness :
  exists g (b : AudioBuffer) g' b' saturated, started = Ok g /\
    ProcessCaptureAudio g b false = Ok (kNoError, g', b') /\ length saturated = 2%nat /\
    stream_is_saturated_ g' = existsb id saturated /\
    forall i c c' s, gain_controllers_ g !! i = Some c -> gain_controllers_ g' !! i = Some c' ->
      saturated !! i = Some s ->
      process_channel 0 (split_frames 80) false c
        (channel_bands 80 i (band_samples b)) =
      Ok (kNoError, c', channel_bands 80 i (band_samples b'), s).
Proof.
  destruct started_ok as (g & E & H & _ & _ & _ & En).
  destruct (proj1 (wp_ok _ _) (@wp_AudioBuffer_new small_angles 80 2 2
    (or_introl eq_refl) ltac:(lia))) as (b & Eb & Hb).
  assert (Hrun : match (g ← started; b ← @AudioBuffer_new small_angles 80 2 80 2 80;
                        ProcessCaptureAudio g b false) with
                 | Ok (err, _, _) => err = kNoError | Fault _ => False end)
    by (vm_compute; reflexivity).
  rewrite E, bind_ok, Eb, bind_ok in Hrun.
  destruct (ProcessCaptureAudio g b false) as [[[err g'] b']|] eqn:Ep; [|destruct Hrun].
  subst err.
  destruct (channels_independent 8000 80 2 2 0 g b false g' b'
    (or_introl (conj eq_refl eq_refl)) ltac:(unfold block_bound; lia) H En Hb Ep) as (ss & R).
  exists g, b, g', b', ss. exact (conj E (conj Ep R)).
Defined.
