(* ===== verification/MultiThreads.v ===== *)
(** * Interleavings of the calls of the gain control

    Render, capture and control threads call one [GainControlImpl].  Every access to
    its members holds [crit_capture_], so a call is a sequence of sections that
    run one at a time.  The setters of the target level, the compression gain, the
    limiter and the level limits store the setting in one section and apply it in
    a second one, [Configure] or [Initialize], after the lock was released: other
    sections may run in between.

    Soundness holds in every interleaving of calls that keep one format; that the
    settings are applied holds when no call is under way.  The copy of the format
    that [set_analog_level_limits] takes to its second section may be stale, so calls
    that change the format are left out.  That the sections are atomic, and that
    the locks themselves do not block, is the subject of [Locks]. *)
From stdpp Require Import relations.
From S2P Require Import Prelude CInt Spl Vad GainTable Digital Instance Mic Analog.
From S2P Require Import Session Contract Numeric Qmf AudioUtil ChannelBuffer PushSinc AudioBuffer.
From S2P Require Import MultiControl.

(** ** Sections *)

Section threads.

Inductive api_call :=
  | CInitialize (num_proc_channels : nat) (sample_rate_hz : Z)
  | CConfigure
  | CEnable (enable : bool)
  | CMode (mode : Z)
  | CLimits (minimum maximum : Z)
  | CLevel (level : Z)
  | CTarget (level : Z)
  | CGain (gain : Z)
  | CLimiter (enable : bool)
  | CRender (packed_render_audio : list Z)
  | CAnalyze (audio : AudioBuffer)
  | CProcess (audio : AudioBuffer) (stream_has_echo : bool).

(** The first section of a call: the code it returns when it is the last one, and
    the section that follows. *)
Definition run (mem : nat -> option LegacyAgc) (c : api_call) (g : GainControlImpl)
    : res (Z * GainControlImpl * list api_call) :=
  match c with
  | CInitialize n rate => g ← Initialize mem g n rate; Ok (kNoError, g, [])
  | CConfigure => '(err, g) ← Configure g; Ok (err, g, [])
  | CEnable enable => '(err, g) ← Enable mem g enable; Ok (err, g, [])
  | CMode mode => '(err, g) ← set_mode mem g mode; Ok (err, g, [])
  | CLimits minimum maximum =>
      if (minimum <? 0) || (65535 <? maximum) || (maximum <? minimum)
      then Ok (kBadParameterError, g, [])
      else
        let g := g |> put_minimum minimum |> put_maximum maximum in
        num_proc_channels_local ← get (num_proc_channels_ g);
        sample_rate_hz_local ← get (sample_rate_hz_ g);
        Ok (kNoError, g, [CInitialize num_proc_channels_local sample_rate_hz_local])
  | CLevel level => let '(err, g) := set_stream_analog_level g level in Ok (err, g, [])
  | CTarget level =>
      if (31 <? level) || (level <? 0) then Ok (kBadParameterError, g, [])
      else Ok (kNoError, put_target level g, [CConfigure])
  | CGain gain =>
      if (gain <? 0) || (90 <? gain) then Ok (kBadParameterError, g, [])
      else Ok (kNoError, put_gain gain g, [CConfigure])
  | CLimiter enable => Ok (kNoError, put_limiter enable g, [CConfigure])
  | CRender x => g ← ProcessRenderAudio g x; Ok (kNoError, g, [])
  | CAnalyze audio => '(err, g, _) ← AnalyzeCaptureAudio g audio; Ok (err, g, [])
  | CProcess audio echo =>
      '(err, g, _) ← ProcessCaptureAudio g audio echo; Ok (err, g, [])
  end.

(** Blocks of the AGC that a section processes. *)
Definition blocks (c : api_call) : Z := match c with CProcess _ _ => 5 | _ => 0 end.

(** Sections left of a call. *)
Definition sections (c : api_call) : nat :=
  match c with CLimits _ _ | CTarget _ | CGain _ | CLimiter _ => 2 | _ => 1 end.

(** ** Steps

    A configuration: blocks processed so far, the gain control, and the calls under
    way, each with its next section. *)
Record world := World { w_blocks : Z; w_control : GainControlImpl; w_calls : list api_call }.

Inductive runs (mem : nat -> option LegacyAgc) : world -> world -> Prop :=
  | runs_section n g g' err before c after next :
      run mem c g = Ok (err, g', next) ->
      runs mem (World n g (before ++ c :: after))
               (World (n + blocks c) g' (before ++ next ++ after)).

Inductive steps (legal : api_call -> Prop) (mem : nat -> option LegacyAgc)
    : world -> world -> Prop :=
  | step_call n g calls c :
      legal c -> steps legal mem (World n g calls) (World n g (c :: calls))
  | step_run w w' : runs mem w w' -> steps legal mem w w'.

(** A call without interference. *)
Definition sequential (mem : nat -> option LegacyAgc) (c : api_call) (g : GainControlImpl)
    : res (Z * GainControlImpl) :=
  match c with
  | CInitialize n rate => g ← Initialize mem g n rate; Ok (kNoError, g)
  | CConfigure => Configure g
  | CEnable enable => Enable mem g enable
  | CMode mode => set_mode mem g mode
  | CLimits minimum maximum => set_analog_level_limits mem g minimum maximum
  | CLevel level => Ok (set_stream_analog_level g level)
  | CTarget level => set_target_level_dbfs g level
  | CGain gain => set_compression_gain_db g gain
  | CLimiter enable => enable_limiter g enable
  | CRender x => g ← ProcessRenderAudio g x; Ok (kNoError, g)
  | CAnalyze audio => '(err, g, _) ← AnalyzeCaptureAudio g audio; Ok (err, g)
  | CProcess audio echo => '(err, g, _) ← ProcessCaptureAudio g audio echo; Ok (err, g)
  end.

(** All sections of a call, one after the other. *)
Definition run_alone (mem : nat -> option LegacyAgc) (c : api_call) (g : GainControlImpl)
    : res (Z * GainControlImpl) :=
  '(err, g, next) ← run mem c g;
  match next with
  | [] => Ok (err, g)
  | c' :: _ => '(err, g, _) ← run mem c' g; Ok (err, g)
  end.

End threads.

(** * Lemmas *)

(** Blocks are only added. *)
Lemma rtc_blocks P mem (w w' : world) :
  rtc (steps P mem) w w' -> w_blocks w <= w_blocks w'.
Proof.
  induction 1 as [|w v w' Hstep _ IH]; [lia|]. etransitivity; [clear IH|exact IH].
  destruct Hstep as [n g calls c Hc|v v' Hrun]; [cbn; lia|].
  destruct Hrun as [n g g' err before c after next E]. destruct c; cbn; lia.
Qed.

Section interleavings.
Context (inv : Z -> LegacyAgc -> Prop) `{!AgcChannel inv}.
Context (rate : Z) (pf k nin : nat) (mem : nat -> option LegacyAgc).
Hypothesis Hformat : format_ok rate pf.
Hypothesis Hk : (0 < k)%nat.
Hypothesis Hmem : memories_ok mem.

(** Calls with one format, 16-bit audio in sound buffers, and arguments that are
    rejected or in the range that the instances support. *)
Definition legal (c : api_call) : Prop :=
  match c with
  | CInitialize n r => n = k /\ r = rate
  | CMode mode => 0 <= mode <= 2
  | CLimits minimum maximum =>
      0 <= minimum <= maximum -> maximum <= 65535 -> minimum + 42 <= maximum
  | CGain gain => gain <= 18 \/ 90 < gain
  | CRender x => samples16 x
  | CAnalyze audio | CProcess audio _ => buffer_ok pf nin k k audio
  | _ => True
  end.

Definition configures (c : api_call) : bool :=
  match c with CConfigure | CInitialize _ _ => true | _ => false end.
Definition initializes (c : api_call) : bool :=
  match c with CInitialize _ _ => true | _ => false end.

(** The settings are applied, or a section that applies them is still to run. *)
Definition config_due (g : GainControlImpl) (calls : list api_call) : Prop :=
  configured_ok g \/ existsb configures calls = true.
Definition ranges_due (g : GainControlImpl) (calls : list api_call) : Prop :=
  ranges_ok g \/ existsb initializes calls = true.

Definition sections_left (calls : list api_call) : nat := list_sum (map sections calls).

(** The effect of a section. *)
Definition section_ok (n : Z) (g : GainControlImpl) (c : api_call)
    '((err, g', next) : Z * GainControlImpl * list api_call) : Prop :=
  control_ok inv (n + blocks c) k rate g' /\ Forall legal next /\
  (sections_left next < sections c)%nat /\
  (configured_ok g \/ configures c = true -> config_due g' next) /\
  (ranges_ok g \/ initializes c = true -> ranges_due g' next).

(** A section that applies the settings, and one that keeps them applied. *)
Lemma section_applied n g c err g' :
  control_ok inv (n + blocks c) k rate g' -> configured_ok g' -> ranges_ok g' ->
  section_ok n g c (err, g', []).
Proof.
  intros H Hc Hr. split; [done|]. split; [constructor|].
  split; [destruct c; cbn; lia|]. by split; left.
Qed.

Lemma section_kept n g c err g' :
  configures c = false -> control_ok inv (n + blocks c) k rate g' ->
  (configured_ok g -> configured_ok g') -> (ranges_ok g -> ranges_ok g') ->
  section_ok n g c (err, g', []).
Proof.
  intros Ec H Hc Hr. split; [done|]. split; [constructor|].
  split; [destruct c; cbn; lia|]. split; intros [?|E]; try (left; by auto).
  - by rewrite Ec in E.
  - destruct c; done.
Qed.

(** A section that stores a setting: [Configure] follows. *)
Lemma section_stored n g c err g' :
  sections c = 2%nat -> control_ok inv (n + blocks c) k rate g' ->
  initializes c = false -> (ranges_ok g -> ranges_ok g') ->
  section_ok n g c (err, g', [CConfigure]).
Proof.
  intros Es H Ei Hr. split; [done|]. split; [by constructor|].
  split; [rewrite Es; cbn; lia|]. split; [by right|].
  intros [?|E]; [left; by auto|]. by rewrite Ei in E.
Qed.

(** Storing a setting keeps the controllers sound. *)
Lemma control_stored n g g' :
  control_ok inv n k rate g -> control_settings_ok g' ->
  (num_proc_channels_ g', sample_rate_hz_ g', gain_controllers_ g', enabled_ g', mode_ g') =
  (num_proc_channels_ g, sample_rate_hz_ g, gain_controllers_ g, enabled_ g, mode_ g) ->
  control_ok inv n k rate g'.
Proof.
  intros [Hs Hm Hr Hi Hl He] Hs' E. injection E as E1 E2 E3 E4 E5.
  constructor; try done; try congruence; rewrite ?E3, ?E4; try done.
  intros En. destruct (He En) as [L F]. split; [done|]. revert F. apply Forall_impl.
  intros c [? ?]. split; [done|]. congruence.
Qed.

Lemma upto_eq {A} (m : res A) (a : A) (Q : A -> Prop) : m = Ok a -> Q a -> upto m Q.
Proof. by intros ->. Qed.

Lemma run_enable n g b :
  control_ok inv n k rate g -> 0 <= n ->
  upto (run mem (CEnable b) g) (section_ok n g (CEnable b)).
Proof.
  intros H Hn. cbn [run]. unfold Enable.
  destruct (b && negb (enabled_ g)) eqn:E.
  - apply andb_prop in E as [-> _].
    destruct (Reinitialize_all_spec inv n k rate mem (put_enabled true g)) as (g' & -> & H' & Hc & Hr & _);
      try (by apply H); try done.
    { destruct (co_settings _ _ _ _ _ H). by constructor. }
    rewrite !bind_ok. apply section_applied; [by rewrite Z.add_0_r|done|done].
  - rewrite bind_ok. assert (Hon : enabled_ (put_enabled b g) = true -> enabled_ g = true).
    { cbn. intros ->. by destruct (enabled_ g). }
    apply section_kept; [done| |intros Hc En; by apply Hc, Hon|intros Hr En; by apply Hr, Hon].
    rewrite Z.add_0_r. destruct H as [[] ? ? ? ? He]. constructor; try done.
    intros En. by apply He, Hon.
Qed.

Lemma run_mode n g mode :
  control_ok inv n k rate g -> 0 <= n -> 0 <= mode <= 2 ->
  upto (run mem (CMode mode) g) (section_ok n g (CMode mode)).
Proof.
  intros H Hn Hm. cbn [run]. unfold set_mode. destruct (MapSetting_ok _ Hm) as [-> Hr].
  rewrite bind_ok. destruct (Z.eqb_spec (agc_mode mode) (-1)); [lia|].
  destruct (Reinitialize_all_spec inv n k rate mem (put_mode mode g)) as (g' & -> & H' & Hc & Hrg & _);
    try (by apply H); try done.
  { destruct (co_settings _ _ _ _ _ H). by constructor. }
  rewrite !bind_ok. apply section_applied; [by rewrite Z.add_0_r|done|done].
Qed.

Lemma run_limits n g lo hi :
  control_ok inv n k rate g -> legal (CLimits lo hi) ->
  upto (run mem (CLimits lo hi) g) (section_ok n g (CLimits lo hi)).
Proof.
  intros H Hleg. cbn [run]. destruct (_ || _) eqn:E.
  { apply section_kept; auto. by rewrite Z.add_0_r. }
  apply orb_false_iff in E as [E E3%Z.ltb_ge]. apply orb_false_iff in E as [E1%Z.ltb_ge E2%Z.ltb_ge].
  cbn in Hleg. specialize (Hleg ltac:(lia) ltac:(lia)). cbv zeta.
  set (g1 := put_maximum hi (put_minimum lo g)).
  change (num_proc_channels_ g1) with (num_proc_channels_ g).
  change (sample_rate_hz_ g1) with (sample_rate_hz_ g).
  rewrite (co_channels _ _ _ _ _ H), (co_rate _ _ _ _ _ H). cbn [get]. rewrite !bind_ok.
  split; [|split; [by repeat constructor|split; [cbn; lia|split; by right]]].
  cbn [blocks]. rewrite Z.add_0_r. apply (control_stored n g); [done| |done].
  destruct (co_settings _ _ _ _ _ H). by constructor.
Qed.

Lemma run_level n g l :
  control_ok inv n k rate g -> upto (run mem (CLevel l) g) (section_ok n g (CLevel l)).
Proof.
  intros H. cbn [run]. unfold set_stream_analog_level. cbv zeta.
  pose proof (so_limits _ (co_settings _ _ _ _ _ H)) as Hlim.
  destruct (_ || _) eqn:E; apply section_kept; try done; cbn [blocks]; rewrite Z.add_0_r;
    (apply (control_stored n g); [done| |done]); destruct (co_settings _ _ _ _ _ H).
  - by constructor.
  - apply orb_false_iff in E as [E1%Z.ltb_ge E2%Z.ltb_ge]. constructor; try done.
    cbn in *. unfold i32. lia.
Qed.

Lemma run_settings n g c :
  control_ok inv n k rate g -> legal c -> sections c = 2%nat -> initializes c = false ->
  (forall lo hi, c <> CLimits lo hi) ->
  upto (run mem c g) (section_ok n g c).
Proof.
  intros H Hleg Es Ei Hne.
  assert (Hst : forall g', control_settings_ok g' ->
    (num_proc_channels_ g', sample_rate_hz_ g', gain_controllers_ g', enabled_ g', mode_ g') =
    (num_proc_channels_ g, sample_rate_hz_ g, gain_controllers_ g, enabled_ g, mode_ g) ->
    control_ok inv (n + blocks c) k rate g').
  { intros g' Hs E. replace (n + blocks c) with n by (destruct c; cbn in *; lia).
    by apply (control_stored n g). }
  pose proof (co_settings _ _ _ _ _ H) as [S1 S2 S3 S4 S5].
  destruct c; try done; [by destruct (Hne minimum maximum)|..]; cbn [run].
  - destruct (_ || _) eqn:E; [apply section_kept; auto; by apply Hst|].
    apply orb_false_iff in E as [E1%Z.ltb_ge E2%Z.ltb_ge].
    apply section_stored; auto. by apply Hst.
  - destruct (_ || _) eqn:E; [apply section_kept; auto; by apply Hst|].
    apply orb_false_iff in E as [E1%Z.ltb_ge E2%Z.ltb_ge]. cbn in Hleg.
    apply section_stored; auto. apply Hst; [|done]. constructor; try done. cbn. lia.
  - apply section_stored; auto. by apply Hst.
Qed.

Lemma run_audio n g c :
  control_ok inv n k rate g -> legal c -> 0 <= n -> n + blocks c <= block_bound ->
  match c with CRender _ | CAnalyze _ | CProcess _ _ => True | _ => False end ->
  upto (run mem c g) (section_ok n g c).
Proof.
  intros H Hleg Hn Hb Hc. destruct (format_rate _ _ Hformat) as (Hpf & Hrate & Hlen & _).
  destruct c; try done; cbn [run legal blocks] in *; apply upto_bind.
  - eapply upto_mono; [by apply (ProcessRenderAudio_spec inv k rate n)|].
    intros g' [(H' & _ & ? & ?) _]. apply section_kept; auto. by rewrite Z.add_0_r.
  - eapply upto_mono; [by apply (AnalyzeCaptureAudio_spec inv pf nin k Hpf rate Hlen n)|].
    intros [[err g'] a'] (_ & (H' & _ & ? & ?) & _). apply section_kept; auto.
    by rewrite Z.add_0_r.
  - eapply upto_mono.
    { apply (ProcessCaptureAudio_spec inv pf nin k Hpf rate Hrate Hlen n); try done. lia. }
    intros [[err g'] a'] ((H' & _ & ? & ?) & _). apply section_kept; auto.
Qed.

(** No section fails in another way than an overflow. *)
Lemma run_section_ok n g c :
  control_ok inv n k rate g -> legal c -> 0 <= n -> n + blocks c <= block_bound ->
  upto (run mem c g) (section_ok n g c).
Proof.
  intros H Hleg Hn Hb. destruct c.
  - destruct Hleg as [-> ->]. cbn [run].
    destruct (Initialize_all_spec inv n k rate mem g) as (g' & -> & H' & Hc & Hr & _);
      try (by apply H); try done.
    rewrite bind_ok. apply section_applied; [by rewrite Z.add_0_r|done|done].
  - cbn [run]. destruct (Configure_all_spec inv n k rate g H) as (g' & -> & H' & Hc & Hr & _).
    rewrite bind_ok. cbn [upto]. unfold section_ok. cbn [blocks]. rewrite Z.add_0_r.
    split; [done|]. split; [constructor|]. split; [cbn; lia|]. split; [by left|].
    intros [?|E]; [left; by auto|done].
  - by apply run_enable.
  - by apply run_mode.
  - by apply run_limits.
  - by apply run_level.
  - by apply run_settings.
  - by apply run_settings.
  - by apply run_settings.
  - by apply run_audio.
  - by apply run_audio.
  - by apply run_audio.
Qed.

(** ** Invariant of all interleavings *)

Record threads_ok (w : world) : Prop := {
  wo_blocks : 0 <= w_blocks w;
  wo_control : control_ok inv (w_blocks w) k rate (w_control w);
  wo_legal : Forall legal (w_calls w);
  wo_config : config_due (w_control w) (w_calls w);
  wo_ranges : ranges_due (w_control w) (w_calls w)
}.

(** What is due stays due or is done when a section runs. *)
Lemma due_runs (P P' : Prop) (b : api_call -> bool) before c after next :
  P \/ existsb b (before ++ c :: after) = true ->
  (P \/ b c = true -> P' \/ existsb b next = true) ->
  P' \/ existsb b (before ++ next ++ after) = true.
Proof.
  rewrite !existsb_app. cbn. intros H Hstep.
  destruct (existsb b before); [by right|]. destruct (existsb b after).
  { right. by rewrite orb_true_r. }
  rewrite orb_false_r in H |- *. cbn in *. auto.
Qed.

Lemma runs_ok w w' :
  threads_ok w -> w_blocks w' <= block_bound -> runs mem w w' ->
  threads_ok w' /\ (sections_left (w_calls w') < sections_left (w_calls w))%nat.
Proof.
  intros [Hn H Hl Hc Hr] Hb Hrun. destruct Hrun as [n g g' err before c after next E]. cbn in *.
  apply Forall_app in Hl as [Hl1 Hl2]. pose proof (Forall_inv Hl2) as Hleg.
  apply Forall_inv_tail in Hl2.
  pose proof (run_section_ok n g c H Hleg Hn Hb) as Hs. rewrite E in Hs.
  destruct Hs as (H' & Hnext & Hlt & Hcfg & Hrng). split.
  - constructor; cbn; try done.
    + destruct c; cbn in *; lia.
    + by rewrite !Forall_app.
    + eapply due_runs; [exact Hc|exact Hcfg].
    + eapply due_runs; [exact Hr|exact Hrng].
  - unfold sections_left in *. rewrite !map_app, !list_sum_app. cbn [map].
    change (list_sum (sections c :: map sections after))
      with (sections c + list_sum (map sections after))%nat. lia.
Qed.

Lemma steps_ok w w' :
  threads_ok w -> w_blocks w' <= block_bound -> steps legal mem w w' -> threads_ok w'.
Proof.
  intros H Hb Hstep. destruct Hstep as [n g calls c Hc|v v' Hrun]; [|exact (proj1 (runs_ok v v' H Hb Hrun))].
  destruct H as [Hn Hg Hl Hcf Hr]. cbn in *. constructor; cbn; try done.
  - by constructor.
  - destruct Hcf as [?|E]; [by left|right]. cbn. by rewrite E, orb_true_r.
  - destruct Hr as [?|E]; [by left|right]. cbn. by rewrite E, orb_true_r.
Qed.

Lemma reachable_ok w w' :
  threads_ok w -> rtc (steps legal mem) w w' -> w_blocks w' <= block_bound -> threads_ok w'.
Proof.
  intros Hw Hsteps. revert Hw. induction Hsteps as [w|w v w' Hs Hr IH]; intros Hw Hb; [done|].
  apply IH; [|done]. apply (steps_ok w); [done| |done].
  apply rtc_blocks in Hr. lia.
Qed.

End interleavings.

(** * Theorems *)

Lemma blank_memories : memories_ok (fun _ => Some blank).
Proof. intros i. by exists blank. Qed.

(** C6: render, capture and control threads may call the gain control in any
    order, as long as all calls of [Initialize] and all frames have the same number of
    channels and the same rate, the compression gain is at most 18 dB (or rejected)
    and a level range has at least 42 steps (or is rejected), and within three days of
    audio ([block_bound]): in every reachable configuration of any interleaving of their
    sections, the next section of every call under way fails in no way but the overflow
    of a signed integer in the AGC, and the controllers are sound, in the mode and the
    format of the settings; when no call is under way, every controller has the
    configuration and the level range of the settings.  Where a thread changes the
    format, a check can fail ([limits_undo_format]). *)
Theorem interleavings_safe rate pf k nin mem g w :
  format_ok rate pf -> (0 < k)%nat -> memories_ok mem ->
  control_ok agc_ok 0 k rate g -> configured_ok g -> ranges_ok g ->
  rtc (steps (legal rate pf k nin) mem) (World 0 g []) w ->
  w_blocks w <= block_bound - 5 ->
  control_ok agc_ok (w_blocks w) k rate (w_control w) /\
  (forall c, In c (w_calls w) -> upto (run mem c (w_control w)) (fun _ => True)) /\
  (w_calls w = [] -> configured_ok (w_control w) /\ ranges_ok (w_control w)).
Proof.
  intros Hf Hk Hmem H Hc Hr Hsteps Hb.
  assert (H0 : threads_ok agc_ok rate pf k nin (World 0 g [])).
  { constructor; cbn; try done; by left. }
  pose proof (reachable_ok agc_ok rate pf k nin mem Hf Hk Hmem _ _ H0 Hsteps ltac:(lia)) as Hw.
  destruct Hw as [Hn Hg Hl Hcf Hrg]. split; [done|]. split.
  - intros c Hin. rewrite Forall_forall in Hl.
    eapply upto_mono; [apply (run_section_ok agc_ok rate pf k nin mem Hf Hk Hmem (w_blocks w))|done];
      try done; [by apply Hl|]. destruct c; cbn; lia.
  - intros E. rewrite E in Hcf, Hrg. by destruct Hcf as [?|?], Hrg as [?|?].
Qed.

Lemma interleavings_safe_witness :
  exists g w, started = Ok g /\
    rtc (steps (legal 8000 80 2 2) (fun _ => Some blank)) (World 0 g []) w /\
    w_calls w = [CConfigure] /\ target_level_dbfs_ (w_control w) = 10 /\
    control_ok agc_ok (w_blocks w) 2 8000 (w_control w) /\
    (forall c, In c (w_calls w) ->
       upto (run (fun _ => Some blank) c (w_control w)) (fun _ => True)) /\
    (w_calls w = [] -> configured_ok (w_control w) /\ ranges_ok (w_control w)).
Proof.
  destruct started_ok as (g & E & H & Hc & Hr & _).
  set (mem := fun _ : nat => Some blank).
  assert (S : rtc (steps (legal 8000 80 2 2) mem) (World 0 g [])
                (World (0 + 0) (put_target 10 g) [CConfigure])).
  { eapply rtc_l; [by apply (step_call _ _ _ _ _ (CTarget 10))|]. apply rtc_once, step_run.
    exact (runs_section mem 0 g (put_target 10 g) kNoError [] (CTarget 10) [] [CConfigure] eq_refl). }
  eexists g, _. split; [exact E|]. split; [exact S|]. split; [reflexivity|].
  split; [reflexivity|].
  exact (interleavings_safe 8000 80 2 2 mem g _ (or_introl (conj eq_refl eq_refl)) ltac:(lia)
    blank_memories H Hc Hr S ltac:(cbn; unfold block_bound; lia)).
Defined.

(** A call without interference has the effect of its sections, one after the
    other. *)
Lemma sections_sequential mem (c : api_call) g :
  run_alone mem c g = sequential mem c g.
Proof.
  unfold run_alone. destruct c; cbn [run sequential].
  - by destruct (Initialize _ _ _ _).
  - by destruct (Configure _) as [[]|].
  - by destruct (Enable _ _ _) as [[]|].
  - by destruct (set_mode _ _ _) as [[]|].
  - unfold set_analog_level_limits, Reinitialize.
    destruct (minimum <? 0), (65535 <? maximum), (maximum <? minimum); try done. cbn [orb].
    cbv zeta. destruct (get (num_proc_channels_ _)); [|done]. cbn [mbind res_bind].
    destruct (get (sample_rate_hz_ _)); [|done]. cbn [mbind res_bind run].
    by destruct (Initialize _ _ _ _).
  - by destruct (set_stream_analog_level _ _).
  - unfold set_target_level_dbfs. destruct (_ || _); [done|]. rewrite bind_ok. cbn [run].
    by destruct (Configure _) as [[]|].
  - unfold set_compression_gain_db. destruct (_ || _); [done|]. rewrite bind_ok. cbn [run].
    by destruct (Configure _) as [[]|].
  - unfold enable_limiter. rewrite bind_ok. cbn [run]. by destruct (Configure _) as [[]|].
  - by destruct (ProcessRenderAudio _ _).
  - by destruct (AnalyzeCaptureAudio _ _) as [[[]]|].
  - by destruct (ProcessCaptureAudio _ _ _) as [[[]]|].
Qed.

Lemma Initialize_format mem g n r g' :
  Initialize mem g n r = Ok g' ->
  num_proc_channels_ g' = Some n /\ sample_rate_hz_ g' = Some r /\ enabled_ g' = enabled_ g.
Proof.
  unfold Initialize. cbv zeta. destruct (negb _); [by injection 1 as <-|].
  intros E. apply bind_inv in E as (cs & _ & E). apply bind_inv in E as ([err g1] & E1 & E).
  injection E as <-. unfold Configure in E1. apply bind_inv in E1 as ([e cs'] & _ & E1).
  by injection E1 as <- <-.
Qed.

(** The format that [set_analog_level_limits] passes to [Initialize] may be
    stale: when another thread changes the number of channels between the two
    sections, the second one goes back to the old number, and the next frame with
    the new number of channels fails a check. *)
Lemma limits_undo_format mem g lo hi n r n' r' :
  num_proc_channels_ g = Some n -> sample_rate_hz_ g = Some r -> enabled_ g = true ->
  0 <= lo <= hi -> hi <= 65535 ->
  exists g1 c, run mem (CLimits lo hi) g = Ok (kNoError, g1, [c]) /\
    forall g2 e2 next2 g3 e3 next3,
      run mem (CInitialize n' r') g1 = Ok (e2, g2, next2) ->
      run mem c g2 = Ok (e3, g3, next3) ->
      num_proc_channels_ g2 = Some n' /\ num_proc_channels_ g3 = Some n /\
      sample_rate_hz_ g2 = Some r' /\ sample_rate_hz_ g3 = Some r /\
      forall audio : AudioBuffer, num_channels_ audio = n' -> n' <> n ->
        AnalyzeCaptureAudio g3 audio = Fault AssertionFailed.
Proof.
  intros En Er Eon Hlo Hhi. exists (put_maximum hi (put_minimum lo g)), (CInitialize n r).
  cbn [run]. destruct (Z.ltb_spec lo 0); [lia|]. destruct (Z.ltb_spec 65535 hi); [lia|].
  destruct (Z.ltb_spec hi lo); [lia|]. cbn [orb]. cbv zeta.
  change (num_proc_channels_ (put_maximum hi (put_minimum lo g))) with (num_proc_channels_ g).
  change (sample_rate_hz_ (put_maximum hi (put_minimum lo g))) with (sample_rate_hz_ g).
  rewrite En, Er. split; [done|].
  intros g2 e2 next2 g3 e3 next3 R2 R3.
  apply bind_inv in R2 as (g2' & I2 & R2). injection R2 as <- <- <-.
  apply bind_inv in R3 as (g3' & I3 & R3). injection R3 as <- <- <-.
  destruct (Initialize_format _ _ _ _ _ I2) as (A1 & A2 & A3).
  destruct (Initialize_format _ _ _ _ _ I3) as (B1 & B2 & B3).
  split_and!; try done. intros audio Ha Hne. unfold AnalyzeCaptureAudio.
  rewrite B3, A3. cbn [enabled_ put_maximum put_minimum control_eta].
  rewrite Eon. cbn [negb]. rewrite B1. cbn [get]. rewrite bind_ok, Ha.
  rewrite (proj2 (Nat.eqb_neq _ _) Hne). cbn [negb]. by rewrite orb_true_r.
Qed.

(** The sections one after the other, with a frame of one channel at the end. *)
Example limits_undo_format_runs :
  (let mem := fun _ : nat => Some blank in
   g ← started;
   '(_, g, limits) ← run mem (CLimits 0 100) g;
   '(_, g, _) ← run mem (CInitialize 1 8000) g;
   '(_, g, _) ← match limits with c :: _ => run mem c g | [] => Ok (0, g, []) end;
   b ← @AudioBuffer_new small_angles 80 1 80 1 80;
   '(err, _, _) ← AnalyzeCaptureAudio g b;
   Ok err) = Fault AssertionFailed.
Proof. vm_compute. reflexivity. Qed.
