(* ===== verification/Locks.v ===== *)
(** * The locks of the gain control

    [crit_render_] and [crit_capture_] of [gain_control_impl_webrtc.{h,cc}]: the methods with the
    places where they enter and leave the two critical sections, nested as they call each
    other, on the recursive locks of [base/criticalsection.{h,cc}].  Threads move one at a
    time, by entering a lock, leaving it, or an access to the members between the two.
    The theorem says that the threads never block each other for ever, that the members
    are accessed under [crit_capture_] only, and that what they do to the members is what
    the sections of [MultiThreads] do in some order. *)
From stdpp Require Import relations.
From S2P Require Import Prelude CInt Instance AudioUtil ChannelBuffer AudioBuffer MultiControl MultiThreads.

(** ** Locks *)

Inductive lock := Render | Capture.

(** The thread that owns a lock and how often it has entered it. *)
Definition CriticalSection := option (nat * nat).

(** [None]: the thread has to wait. *)
Definition Enter (thread : nat) (c : CriticalSection) : option CriticalSection :=
  match c with
  | None => Some (Some (thread, 1%nat))
  | Some (owner, recursion_count) =>
      if (owner =? thread)%nat then Some (Some (owner, S recursion_count)) else None
  end.

(** Only the owner may leave a lock. *)
Definition Leave (thread : nat) (c : CriticalSection) : res CriticalSection :=
  match c with
  | Some (owner, S recursion_count) =>
      if (owner =? thread)%nat
      then Ok (if (recursion_count =? 0)%nat then None else Some (owner, recursion_count))
      else Fault AssertionFailed
  | _ => Fault AssertionFailed
  end.

(** ** Methods

    What is left to do of a call: locks to enter and to leave, and accesses to the members,
    on which the rest depends. *)
Inductive code :=
  | Return (err : Z)
  | Entering (l : lock) (k : code)
  | Leaving (l : lock) (k : code)
  | Access (f : GainControlImpl -> res (GainControlImpl * code)).

(** A method, given what is done after it has returned. *)
Definition method := (Z -> code) -> code.

(** A scope with a [CritScope]: every return leaves the lock. *)
Definition CritScope (l : lock) (body : method) : method :=
  fun k => Entering l (body (fun err => Leaving l (k err))).

Definition accessing (f : GainControlImpl -> res (Z * GainControlImpl)) : method :=
  fun k => Access (fun g => '(err, g) ← f g; Ok (g, k err)).

Section methods.
Context (mem : nat -> option LegacyAgc).

Definition locked_Configure : method :=
  CritScope Render (CritScope Capture (accessing Configure)).

Definition locked_Initialize (num_proc_channels : nat) (sample_rate_hz : Z) : method :=
  CritScope Render (CritScope Capture (fun k => Access (fun g =>
    let g := g |> put_channels (Some num_proc_channels) |> put_rate (Some sample_rate_hz) in
    if negb (enabled_ g) then Ok (g, k kNoError) else
    cs ← initialize_all mem g sample_rate_hz 0 num_proc_channels (gain_controllers_ g);
    Ok (put_controllers cs g, locked_Configure (fun _ => k kNoError))))).

Definition locked_Enable (enable : bool) : method :=
  CritScope Render (CritScope Capture (fun k => Access (fun g =>
    if enable && negb (enabled_ g) then
      let g := put_enabled enable g in
      n ← get (num_proc_channels_ g);
      rate ← get (sample_rate_hz_ g);
      Ok (g, locked_Initialize n rate (fun _ => k kNoError))
    else Ok (put_enabled enable g, k kNoError)))).

Definition locked_set_mode (mode : Z) : method :=
  CritScope Render (CritScope Capture (fun k => Access (fun g =>
    m ← MapSetting mode;
    if m =? -1 then Ok (g, k kBadParameterError) else
    let g := put_mode mode g in
    n ← get (num_proc_channels_ g);
    rate ← get (sample_rate_hz_ g);
    Ok (g, locked_Initialize n rate (fun _ => k kNoError))))).

(** The format is copied under the lock and used after the lock was left. *)
Definition locked_set_analog_level_limits (minimum maximum : Z) : method := fun k =>
  if minimum <? 0 then k kBadParameterError else
  if 65535 <? maximum then k kBadParameterError else
  if maximum <? minimum then k kBadParameterError else
  Entering Capture (Access (fun g =>
    let g := g |> put_minimum minimum |> put_maximum maximum in
    num_proc_channels_local ← get (num_proc_channels_ g);
    sample_rate_hz_local ← get (sample_rate_hz_ g);
    Ok (g, Leaving Capture
             (locked_Initialize num_proc_channels_local sample_rate_hz_local (fun _ => k kNoError))))).

(** A setter stores under one lock, and applies under both. *)
Definition storing (put : GainControlImpl -> GainControlImpl) : method := fun k =>
  CritScope Capture (accessing (fun g => Ok (kNoError, put g))) (fun _ => locked_Configure k).

Definition locked_set_target_level_dbfs (level : Z) : method := fun k =>
  if (31 <? level) || (level <? 0) then k kBadParameterError else storing (put_target level) k.
Definition locked_set_compression_gain_db (gain : Z) : method := fun k =>
  if (gain <? 0) || (90 <? gain) then k kBadParameterError else storing (put_gain gain) k.
Definition locked_enable_limiter (enable : bool) : method := storing (put_limiter enable).

Definition locked_set_stream_analog_level (level : Z) : method :=
  CritScope Capture (accessing (fun g => Ok (set_stream_analog_level g level))).
Definition locked_ProcessRenderAudio (packed_render_audio : list Z) : method :=
  CritScope Capture (accessing (fun g => g ← ProcessRenderAudio g packed_render_audio; Ok (kNoError, g))).
Definition locked_AnalyzeCaptureAudio (audio : AudioBuffer) : method :=
  CritScope Capture (accessing (fun g => '(err, g, _) ← AnalyzeCaptureAudio g audio; Ok (err, g))).
Definition locked_ProcessCaptureAudio (audio : AudioBuffer) (echo : bool) : method :=
  CritScope Capture (accessing (fun g => '(err, g, _) ← ProcessCaptureAudio g audio echo; Ok (err, g))).

Definition method_of (c : api_call) : method :=
  match c with
  | CInitialize n rate => locked_Initialize n rate
  | CConfigure => locked_Configure
  | CEnable enable => locked_Enable enable
  | CMode mode => locked_set_mode mode
  | CLimits minimum maximum => locked_set_analog_level_limits minimum maximum
  | CLevel level => locked_set_stream_analog_level level
  | CTarget level => locked_set_target_level_dbfs level
  | CGain gain => locked_set_compression_gain_db gain
  | CLimiter enable => locked_enable_limiter enable
  | CRender x => locked_ProcessRenderAudio x
  | CAnalyze audio => locked_AnalyzeCaptureAudio audio
  | CProcess audio echo => locked_ProcessCaptureAudio audio echo
  end.

(** The whole call. *)
Definition code_of (c : api_call) : code := method_of c Return.
End methods.

(** ** Threads *)

Record threads := Threads {
  t_control : GainControlImpl; crit_render_ : CriticalSection; crit_capture_ : CriticalSection;
  t_code : list code
}.

Definition critical (s : threads) (l : lock) : CriticalSection :=
  match l with Render => crit_render_ s | Capture => crit_capture_ s end.

(** Thread [i] goes on with [k], with lock [l] in state [c]. *)
Definition with_lock (l : lock) (c : CriticalSection) (i : nat) (k : code) (s : threads) : threads :=
  Threads (t_control s) (match l with Render => c | Capture => crit_render_ s end)
    (match l with Render => crit_capture_ s | Capture => c end) (<[i := k]> (t_code s)).

(** A move of thread [i]; [None] when it has returned or has to wait. *)
Definition move (i : nat) (s : threads) : res (option threads) :=
  match t_code s !! i with
  | None | Some (Return _) => Ok None
  | Some (Entering l k) =>
      Ok (option_map (fun c => with_lock l c i k s) (Enter i (critical s l)))
  | Some (Leaving l k) =>
      c ← Leave i (critical s l);
      Ok (Some (with_lock l c i k s))
  | Some (Access f) =>
      '(g, k) ← f (t_control s);
      Ok (Some (Threads g (crit_render_ s) (crit_capture_ s) (<[i := k]> (t_code s))))
  end.

Definition moves (s s' : threads) : Prop := exists i, move i s = Ok (Some s').

(** Each call in a thread of its own, and the locks free. *)
Definition start (mem : nat -> option LegacyAgc) (g : GainControlImpl) (calls : list api_call) : threads :=
  Threads g None None (map (code_of mem) calls).

Definition returned (k : code) : bool := match k with Return _ => true | _ => false end.

(** * Lemmas *)

(** ** The discipline of the locks

    [disciplined r c n k]: from a state in which the thread has entered the locks [r] and [c]
    times, [k] enters [Render] only while it does not hold [Capture] alone, leaves only what it
    has entered, accesses the members only under [Capture], has left everything when it
    returns, and moves at most [n] times. *)
Inductive disciplined : nat -> nat -> nat -> code -> Prop :=
  | disciplined_return n err : disciplined 0 0 n (Return err)
  | disciplined_render r c n k :
      (c = 0 \/ 0 < r)%nat -> disciplined (S r) c n k -> disciplined r c (S n) (Entering Render k)
  | disciplined_capture r c n k :
      disciplined r (S c) n k -> disciplined r c (S n) (Entering Capture k)
  | disciplined_leave_render r c n k :
      disciplined r c n k -> disciplined (S r) c (S n) (Leaving Render k)
  | disciplined_leave_capture r c n k :
      disciplined r c n k -> disciplined r (S c) (S n) (Leaving Capture k)
  | disciplined_access r c n f :
      (forall g g' k, f g = Ok (g', k) -> disciplined r (S c) n k) ->
      disciplined r (S c) (S n) (Access f).

(** The moves of a call. *)
Definition most_moves : nat := 15.

Ltac discipline :=
  repeat lazymatch goal with
  | |- disciplined _ _ _ (Return _) => apply disciplined_return
  | |- disciplined _ _ _ (Entering Render _) => apply disciplined_render; [lia|]
  | |- disciplined _ _ _ (Entering Capture _) => apply disciplined_capture
  | |- disciplined _ _ _ (Leaving Render _) => apply disciplined_leave_render
  | |- disciplined _ _ _ (Leaving Capture _) => apply disciplined_leave_capture
  end.

Lemma disciplined_more r c n m k : disciplined r c n k -> (n <= m)%nat -> disciplined r c m k.
Proof.
  intros H. revert m. induction H as [| | | | |r c n f _ IH]; intros m Hm; try (destruct m as [|m]; [lia|]);
    discipline; try (done || apply IHdisciplined; lia).
  apply disciplined_access. intros g g' k E. apply (IH g g' k E). lia.
Qed.

Section calls.
Context (mem : nat -> option LegacyAgc).

Lemma accessing_disciplined r c n f k :
  (forall err, disciplined r (S c) n (k err)) -> disciplined r (S c) (S n) (accessing f k).
Proof.
  intros H. apply disciplined_access. intros g g' k' E.
  apply bind_inv in E as ([err g1] & _ & E). by injection E as _ <-.
Qed.

Lemma Configure_disciplined r c n k :
  (c = 0 \/ 0 < r)%nat -> (forall err, disciplined r c n (k err)) ->
  disciplined r c (5 + n) (locked_Configure k).
Proof.
  intros Hr H. unfold locked_Configure, CritScope. cbn [Nat.add]. discipline.
  apply accessing_disciplined. intros err. by discipline.
Qed.

Lemma Initialize_disciplined r c n m rate k :
  (c = 0 \/ 0 < r)%nat -> (forall err, disciplined r c n (k err)) ->
  disciplined r c (10 + n) (locked_Initialize mem m rate k).
Proof.
  intros Hr H. unfold locked_Initialize, CritScope. cbn [Nat.add]. discipline.
  apply disciplined_access. intros g g' k' E. cbv zeta in E. destruct (negb _).
  - injection E as _ <-. discipline. by apply (disciplined_more _ _ n); [|lia].
  - apply bind_inv in E as (cs & _ & E). injection E as _ <-.
    apply (Configure_disciplined _ _ (2 + n)); [lia|]. intros _. by discipline.
Qed.

(** [Enable] and [set_mode] return or initialise under the locks. *)
Lemma reinitializing_disciplined f :
  (forall k g g' k', f k g = Ok (g', k') ->
     (exists err, k' = k err) \/ exists n rate, k' = locked_Initialize mem n rate (fun _ => k kNoError)) ->
  disciplined 0 0 15 (CritScope Render (CritScope Capture (fun k => Access (f k))) Return).
Proof.
  intros Hf. unfold CritScope. discipline. apply disciplined_access. intros g g' k' E.
  apply Hf in E as [[err ->]|(n & rate & ->)]; [by discipline|].
  apply (Initialize_disciplined 1 1 2); [lia|]. intros _. by discipline.
Qed.

Lemma storing_disciplined put : disciplined 0 0 15 (storing put Return).
Proof.
  unfold storing, CritScope. discipline. apply accessing_disciplined. intros _. discipline.
  apply (Configure_disciplined 0 0 7); [lia|]. intros err. by discipline.
Qed.

Lemma capture_disciplined f : disciplined 0 0 15 (CritScope Capture (accessing f) Return).
Proof. unfold CritScope. discipline. apply accessing_disciplined. intros e. by discipline. Qed.

Lemma code_of_disciplined (c : api_call) : disciplined 0 0 most_moves (code_of mem c).
Proof.
  unfold code_of, most_moves. destruct c; cbn [method_of]; try apply capture_disciplined.
  - apply (Initialize_disciplined 0 0 5); [lia|]. intros e. by discipline.
  - apply (Configure_disciplined 0 0 10); [lia|]. intros e. by discipline.
  - apply reinitializing_disciplined. intros k g g' k' E. destruct (_ && _).
    + cbv zeta in E. apply bind_inv in E as (n & _ & E). apply bind_inv in E as (r & _ & E).
      injection E as _ <-. right. by exists n, r.
    + injection E as _ <-. left. by exists kNoError.
  - apply reinitializing_disciplined. intros k g g' k' E. apply bind_inv in E as (m & _ & E).
    destruct (_ =? -1).
    + injection E as _ <-. left. by exists kBadParameterError.
    + cbv zeta in E. apply bind_inv in E as (n & _ & E). apply bind_inv in E as (r & _ & E).
      injection E as _ <-. right. by exists n, r.
  - unfold locked_set_analog_level_limits. do 3 (destruct (_ : bool); [by discipline|]). discipline.
    apply disciplined_access. intros g g' k' E. cbv zeta in E.
    apply bind_inv in E as (n & _ & E). apply bind_inv in E as (r & _ & E). injection E as _ <-.
    discipline. apply (Initialize_disciplined 0 0 2); [lia|]. intros e. by discipline.
  - unfold locked_set_target_level_dbfs. destruct (_ || _); [by discipline|apply storing_disciplined].
  - unfold locked_set_compression_gain_db. destruct (_ || _); [by discipline|apply storing_disciplined].
  - apply storing_disciplined.
Qed.
End calls.

(** ** Threads that keep the discipline *)

(** How often a thread has entered a lock. *)
Definition held (thread : nat) (c : CriticalSection) : nat :=
  match c with Some (owner, n) => if (owner =? thread)%nat then n else 0%nat | None => 0%nat end.

Definition lock_ok (threads : nat) (c : CriticalSection) : Prop :=
  match c with Some (owner, n) => (owner < threads)%nat /\ (0 < n)%nat | None => True end.

Lemma Enter_held i c c' t : Enter i c = Some c' -> (i < t)%nat -> lock_ok t c ->
  lock_ok t c' /\ held i c' = S (held i c) /\ forall j, j <> i -> held j c' = held j c.
Proof.
  unfold Enter, held, lock_ok. destruct c as [[o n]|].
  - destruct (Nat.eqb_spec o i) as [->|]; [|done]. intros [= <-] Hi [_ Hn]. rewrite Nat.eqb_refl.
    split; [lia|]. split; [done|]. intros j Hj. by rewrite (proj2 (Nat.eqb_neq i j)) by done.
  - intros [= <-] Hi _. rewrite Nat.eqb_refl. split; [lia|]. split; [done|].
    intros j Hj. by rewrite (proj2 (Nat.eqb_neq i j)) by done.
Qed.

Lemma held_owner i c n : S n = held i c -> exists n, c = Some (i, S n).
Proof.
  unfold held. destruct c as [[o k]|]; [|done]. destruct (Nat.eqb_spec o i) as [->|]; [|done].
  intros <-. by exists n.
Qed.

Lemma Enter_free i c : c = None \/ (0 < held i c)%nat -> exists c', Enter i c = Some c'.
Proof.
  intros [->|H]; [by eexists|]. destruct c as [[o n]|]; cbn in *; [|lia].
  destruct (o =? i)%nat; [by eexists|lia].
Qed.

Lemma Leave_held i c m t : held i c = S m -> lock_ok t c ->
  exists c', Leave i c = Ok c' /\ lock_ok t c' /\ held i c' = m /\ forall j, j <> i -> held j c' = held j c.
Proof.
  unfold Leave, held, lock_ok. destruct c as [[o n]|]; [|done].
  destruct (Nat.eqb_spec o i) as [->|]; [|done]. intros -> [Hi _]. eexists. split; [done|].
  assert (Hj : forall j, j <> i -> (i =? j)%nat = false) by (intros j Hj; apply Nat.eqb_neq; congruence).
  destruct (Nat.eqb_spec m 0) as [->|]; rewrite ?Nat.eqb_refl.
  - split; [done|]. split; [done|]. intros j H. by rewrite Hj.
  - split; [lia|]. split; [done|]. intros j H. by rewrite !Hj.
Qed.

(** Each thread keeps the discipline, with a bound on its moves. *)
Record guarded (s : threads) (ns : list nat) : Prop := {
  gd_bounds : length ns = length (t_code s);
  gd_render : lock_ok (length (t_code s)) (crit_render_ s);
  gd_capture : lock_ok (length (t_code s)) (crit_capture_ s);
  gd_code i k n : t_code s !! i = Some k -> ns !! i = Some n ->
    disciplined (held i (crit_render_ s)) (held i (crit_capture_ s)) n k }.

Lemma guarded_bound s ns i k : guarded s ns -> t_code s !! i = Some k ->
  exists n, ns !! i = Some n /\ disciplined (held i (crit_render_ s)) (held i (crit_capture_ s)) n k.
Proof.
  intros H E. destruct (lookup_lt_is_Some_2 ns i) as [n En].
  { rewrite (gd_bounds _ _ H). by eapply lookup_lt_Some. }
  exists n. split; [done|]. by apply (gd_code _ _ H i k n).
Qed.

Lemma list_sum_insert ns i n m : ns !! i = Some n -> (list_sum (<[i := m]> ns) + n = list_sum ns + m)%nat.
Proof.
  revert i. induction ns as [|x ns IH]; intros [|i] E; try done.
  - injection E as ->. change (m + list_sum ns + n = n + list_sum ns + m)%nat. lia.
  - specialize (IH i E). change (x + list_sum (<[i := m]> ns) + n = x + list_sum ns + m)%nat. lia.
Qed.

(** A thread that has moved with one of its moves spent. *)
Lemma guarded_moved s s' ns i k n :
  guarded s ns -> t_code s' = <[i := k]> (t_code s) -> ns !! i = Some (S n) ->
  lock_ok (length (t_code s)) (crit_render_ s') -> lock_ok (length (t_code s)) (crit_capture_ s') ->
  disciplined (held i (crit_render_ s')) (held i (crit_capture_ s')) n k ->
  (forall j, j <> i -> held j (crit_render_ s') = held j (crit_render_ s) /\
                       held j (crit_capture_ s') = held j (crit_capture_ s)) ->
  exists ns', guarded s' ns' /\ (list_sum ns' < list_sum ns)%nat.
Proof.
  intros H Ek En Hr Hc Hd Ho. exists (<[i := n]> ns). split.
  - split; rewrite ?Ek, ?length_insert; [apply H|done|done|]. intros j k' n' Ek' En'.
    destruct (decide (j = i)) as [->|Hj].
    + apply list_lookup_insert_Some in Ek' as [(_ & -> & _)|[? _]]; [|done].
      by apply list_lookup_insert_Some in En' as [(_ & -> & _)|[? _]].
    + rewrite list_lookup_insert_ne in Ek' by done. rewrite list_lookup_insert_ne in En' by done. destruct (Ho j Hj) as [-> ->].
      by apply (gd_code _ _ H).
  - pose proof (list_sum_insert ns i (S n) n En). lia.
Qed.

Lemma guarded_move s ns s' : guarded s ns -> moves s s' ->
  exists ns', guarded s' ns' /\ (list_sum ns' < list_sum ns)%nat.
Proof.
  intros H [i M]. unfold move in M. destruct (t_code s !! i) as [k|] eqn:Ek; [|done].
  assert (Hi : (i < length (t_code s))%nat) by by eapply lookup_lt_Some.
  destruct (guarded_bound s ns i k H Ek) as (n & En & D). pose proof H as [_ Hr Hc _].
  destruct k as [err|l k|l k|f]; [done| | |].
  - injection M as M. destruct (Enter i (critical s l)) as [c|] eqn:E; [|done]. injection M as <-.
    inversion D as [|r c0 m k0 Hor D'|r c0 m k0 D'| | |]; subst; cbn [critical] in E.
    + destruct (Enter_held i _ c _ E Hi Hr) as (O1 & O2 & O3).
      eapply (guarded_moved s _ ns i k m H); cbn; try done; [by rewrite O2|]. intros j Hj. by rewrite O3.
    + destruct (Enter_held i _ c _ E Hi Hc) as (O1 & O2 & O3).
      eapply (guarded_moved s _ ns i k m H); cbn; try done; [by rewrite O2|]. intros j Hj. by rewrite O3.
  - apply bind_inv in M as (c & E & M). injection M as <-.
    inversion D as [| | |r c0 m k0 D' Er|r c0 m k0 D' Er Ec|]; subst; cbn [critical] in E.
    + destruct (Leave_held i _ r _ (eq_sym Er) Hr) as (c' & E' & O1 & O2 & O3).
      rewrite E in E'. injection E' as <-.
      eapply (guarded_moved s _ ns i k m H); cbn; try done; [by rewrite O2|]. intros j Hj. by rewrite O3.
    + destruct (Leave_held i _ c0 _ (eq_sym Ec) Hc) as (c' & E' & O1 & O2 & O3).
      rewrite E in E'. injection E' as <-.
      eapply (guarded_moved s _ ns i k m H); cbn; try done; [by rewrite O2|]. intros j Hj. by rewrite O3.
  - apply bind_inv in M as ([g k] & E & M). injection M as <-.
    inversion D as [| | | | |r c m f0 D' Er Ec]; subst.
    eapply (guarded_moved s _ ns i k m H); cbn; try done. rewrite <- Ec. by apply (D' _ _ _ E).
Qed.

(** Only an access fails. *)
Lemma guarded_fault s ns i f : guarded s ns -> move i s = Fault f ->
  exists a, t_code s !! i = Some (Access a) /\ a (t_control s) = Fault f.
Proof.
  intros H M. unfold move in M. destruct (t_code s !! i) as [k|] eqn:Ek; [|done].
  destruct (guarded_bound s ns i k H Ek) as (n & En & D).
  destruct k as [err|l k|l k|a]; [done|done| |].
  - inversion D as [| | |r c0 m k0 D' Er|r c0 m k0 D' Er Ec|]; subst; cbn [critical] in M.
    + destruct (Leave_held i _ r _ (eq_sym Er) (gd_render _ _ H)) as (c' & E' & _). by rewrite E', bind_ok in M.
    + destruct (Leave_held i _ c0 _ (eq_sym Ec) (gd_capture _ _ H)) as (c' & E' & _). by rewrite E', bind_ok in M.
  - exists a. split; [done|]. destruct (a (t_control s)) as [[g k]|f1]; [done|]. cbn in M. congruence.
Qed.

(** A thread is not held up when it holds [Capture], when it holds [Render] and [Capture] is
    free, and when both are free. *)
Lemma unblocked s ns i k : guarded s ns -> t_code s !! i = Some k -> returned k = false ->
  (0 < held i (crit_capture_ s))%nat \/
  crit_capture_ s = None /\ ((0 < held i (crit_render_ s))%nat \/ crit_render_ s = None) ->
  (exists s', move i s = Ok (Some s')) \/ exists f, move i s = Fault f.
Proof.
  intros H Ek Hk Hh. destruct (guarded_bound s ns i k H Ek) as (n & En & D). unfold move. rewrite Ek.
  destruct k as [err|l k|l k|a]; [done| | |].
  - left. assert (F : exists c, Enter i (critical s l) = Some c).
    { apply Enter_free. inversion D as [|r c m k0 Hor _| | | |]; subst; cbn [critical].
      - destruct Hh as [Hh|[Ec [Hh|Hh]]]; [right; lia|by right|by left].
      - destruct Hh as [Hh|[Ec _]]; [by right|by left]. }
    destruct F as [c ->]. by eexists.
  - left. inversion D as [| | |r c0 m k0 D' Er|r c0 m k0 D' Er Ec|]; subst; cbn [critical].
    + destruct (Leave_held i _ r _ (eq_sym Er) (gd_render _ _ H)) as (c' & -> & _). by eexists.
    + destruct (Leave_held i _ c0 _ (eq_sym Ec) (gd_capture _ _ H)) as (c' & -> & _). by eexists.
  - destruct (a (t_control s)) as [[g k]|f]; [left|right]; by eexists.
Qed.

(** The owner of a lock has not returned. *)
Lemma owner_running s ns l o n : guarded s ns -> critical s l = Some (o, n) ->
  (0 < held o (critical s l))%nat /\ exists k, t_code s !! o = Some k /\ returned k = false.
Proof.
  intros H E. assert (L : lock_ok (length (t_code s)) (critical s l)) by (destruct l; apply H).
  rewrite E in L. destruct L as [Ho Hn]. assert (Hh : (0 < held o (critical s l))%nat).
  { rewrite E. cbn. by rewrite Nat.eqb_refl. }
  split; [done|]. apply lookup_lt_is_Some_2 in Ho as [k Ek]. exists k. split; [done|].
  destruct (guarded_bound s ns o k H Ek) as (m & _ & D). destruct k; [|done..].
  inversion D as [? ? Er Ec| | | | |]; subst. destruct l; cbn [critical] in Hh; lia.
Qed.

Lemma progress s ns : guarded s ns ->
  forallb returned (t_code s) = true \/
  (exists i s', move i s = Ok (Some s')) \/ exists i f, move i s = Fault f.
Proof.
  intros H. assert (G : forall i k, t_code s !! i = Some k -> returned k = false ->
    (0 < held i (crit_capture_ s))%nat \/
    crit_capture_ s = None /\ ((0 < held i (crit_render_ s))%nat \/ crit_render_ s = None) ->
    (exists i s', move i s = Ok (Some s')) \/ exists i f, move i s = Fault f).
  { intros i k Ek Hk Hh. destruct (unblocked s ns i k H Ek Hk Hh) as [[s' M]|[f M]]; [left|right];
      by do 2 eexists. }
  destruct (crit_capture_ s) as [[o n]|] eqn:Ec.
  { right. destruct (owner_running s ns Capture o n H Ec) as [Hh (k & Ek & Hk)]. cbn in Hh. rewrite Ec in Hh.
    apply (G o k); auto. }
  destruct (crit_render_ s) as [[o n]|] eqn:Er.
  { right. destruct (owner_running s ns Render o n H Er) as [Hh (k & Ek & Hk)]. cbn in Hh. rewrite Er in Hh.
    apply (G o k); auto. }
  destruct (forallb returned (t_code s)) eqn:Ea; [by left|right].
  assert (Hx : exists k, In k (t_code s) /\ returned k = false).
  { clear -Ea. induction (t_code s) as [|k l IH]; [done|]. cbn in Ea. destruct (returned k) eqn:E.
    - destruct (IH Ea) as (k' & ? & ?). exists k'. split; [by right|done].
    - exists k. split; [by left|done]. }
  destruct Hx as (k & Hin & Hk). apply list_elem_of_In, list_elem_of_lookup in Hin as [i Ek]. apply (G i k); auto.
Qed.

Lemma start_guarded mem g calls :
  guarded (start mem g calls) (replicate (length calls) most_moves).
Proof.
  split; cbn; [by rewrite length_replicate, length_map|done|done|]. intros i k n Ek En.
  apply lookup_replicate in En as [-> _]. rewrite list_lookup_fmap in Ek.
  destruct (calls !! i) as [c|]; [|done]. injection Ek as <-. apply code_of_disciplined.
Qed.

Lemma guarded_moves m s s' ns : guarded s ns -> nsteps moves m s s' ->
  exists ns', guarded s' ns' /\ (m + list_sum ns' <= list_sum ns)%nat.
Proof.
  intros H Hs. revert ns H. induction Hs as [s|m s v s' M _ IH]; intros ns H; [by exists ns|].
  destruct (guarded_move s ns v H M) as (ns1 & H1 & L1). destruct (IH ns1 H1) as (ns2 & H2 & L2).
  exists ns2. split; [done|lia].
Qed.

(** ** The sections of [MultiThreads] *)

(** What a thread that has entered [Capture] [n] times does until it has left it. *)
Fixpoint finish (n : nat) (k : code) (g : GainControlImpl) : res (GainControlImpl * code) :=
  match k with
  | Return _ => Fault AssertionFailed
  | Entering Render k | Leaving Render k => finish n k g
  | Entering Capture k => finish (S n) k g
  | Leaving Capture k => match n with S (S n) => finish (S n) k g | _ => Ok (g, k) end
  | Access f => match f g with Ok (g, k) => finish n k g | Fault f => Fault f end
  end.

Fixpoint drains (k : code) : Prop :=
  match k with Return _ => True | Leaving Render k => drains k | _ => False end.

Section simulation.
Context (mem : nat -> option LegacyAgc).

(** A thread that does not hold [Capture], with the sections it has to run: none, or
    one whose lock it will enter next. *)
Definition outside (k : code) (p : list api_call) : Prop :=
  match p with
  | [] => drains k
  | [c] => returned (code_of mem c) = false /\ (k = code_of mem c \/ code_of mem c = Entering Render k)
  | _ => False
  end.

(** A thread that holds [Capture] is in a section that began with [g0]. *)
Definition inside (n : nat) (g0 g : GainControlImpl) (k : code) (p : list api_call) : Prop :=
  exists c, p = [c] /\
    match run mem c g0 with
    | Ok (_, g', next) => exists k', finish n k g = Ok (g', k') /\ outside k' next
    | Fault f => finish n k g = Fault f
    end.

Lemma code_of_shape (c : api_call) : returned (code_of mem c) = false ->
  exists k, code_of mem c = Entering Capture k \/ code_of mem c = Entering Render (Entering Capture k).
Proof.
  unfold code_of. destruct c; cbn [method_of]; intros H; try (eexists; first [by left | by right; unfold CritScope]).
  - unfold locked_set_analog_level_limits in *. destruct (minimum <? 0); [done|].
    destruct (65535 <? maximum); [done|]. destruct (maximum <? minimum); [done|]. eexists. by left.
  - unfold locked_set_target_level_dbfs in *. destruct (_ || _); [done|]. eexists. by left.
  - unfold locked_set_compression_gain_db in *. destruct (_ || _); [done|]. eexists. by left.
Qed.

Lemma rejected (c : api_call) g : returned (code_of mem c) = true -> exists err, run mem c g = Ok (err, g, []).
Proof.
  unfold code_of. destruct c; cbn [method_of run]; try done.
  - unfold locked_set_analog_level_limits. destruct (minimum <? 0); [by eexists|].
    destruct (65535 <? maximum); [by eexists|]. destruct (maximum <? minimum); [by eexists|done].
  - unfold locked_set_target_level_dbfs. destruct (_ || _); [by eexists|done].
  - unfold locked_set_compression_gain_db. destruct (_ || _); [by eexists|done].
Qed.

Ltac through m :=
  destruct m as [?|?]; cbn [mbind res_bind finish]; [|done].

(** The accesses of [Configure] and [Initialize], called under the locks. *)
Lemma finish_Configure n g k :
  finish (S n) (locked_Configure k) g =
  match Configure g with Ok (err, g) => finish (S n) (Leaving Render (k err)) g | Fault f => Fault f end.
Proof.
  unfold locked_Configure, CritScope, accessing. cbn [finish]. by destruct (Configure g) as [[]|].
Qed.

Lemma finish_Initialize n g m rate k :
  finish (S n) (locked_Initialize mem m rate k) g =
  match Initialize mem g m rate with Ok g => finish (S n) (k kNoError) g | Fault f => Fault f end.
Proof.
  unfold locked_Initialize, CritScope, Initialize. cbn [finish]. cbv zeta.
  destruct (negb _); [done|]. through (initialize_all mem (put_rate (Some rate) (put_channels (Some m) g)) rate 0 m
    (gain_controllers_ (put_rate (Some rate) (put_channels (Some m) g)))).
  rewrite finish_Configure. by destruct (Configure _) as [[]|].
Qed.

(** The section of a call does what the call does while it holds [Capture]. *)
Lemma entered (c : api_call) k g :
  code_of mem c = Entering Capture k \/ code_of mem c = Entering Render (Entering Capture k) ->
  inside 1 g g k [c].
Proof.
  intros Hk. exists c. split; [done|]. revert Hk. unfold code_of. destruct c; cbn [method_of run].
  - unfold locked_Initialize, CritScope. intros [?|E]; [done|]. injection E as <-. cbn [finish].
    unfold Initialize. cbv zeta. destruct (negb _); [cbn; by eexists|].
    change (gain_controllers_ (put_rate _ (put_channels _ g))) with (gain_controllers_ g).
    through (initialize_all mem (put_rate (Some sample_rate_hz) (put_channels (Some num_proc_channels) g))
      sample_rate_hz 0 num_proc_channels (gain_controllers_ g)).
    rewrite finish_Configure. destruct (Configure _) as [[err g']|f]; [|done]. cbn. by eexists.
  - unfold locked_Configure, CritScope. intros [?|E]; [done|]. injection E as <-. cbn [finish accessing].
    destruct (Configure _) as [[err g']|f]; [|done]. cbn. by eexists.
  - unfold locked_Enable, CritScope. intros [?|E]; [done|]. injection E as <-. cbn [finish].
    unfold Enable, Reinitialize. destruct (_ && _); [|cbn; by eexists]. cbv zeta.
    change (num_proc_channels_ (put_enabled enable g)) with (num_proc_channels_ g).
    change (sample_rate_hz_ (put_enabled enable g)) with (sample_rate_hz_ g).
    through (get (num_proc_channels_ g)). through (get (sample_rate_hz_ g)). rewrite finish_Initialize.
    destruct (Initialize _ _ _ _) as [g'|f]; [|done]. cbn. by eexists.
  - unfold locked_set_mode, CritScope. intros [?|E]; [done|]. injection E as <-. cbn [finish].
    unfold set_mode, Reinitialize. through (MapSetting mode). destruct (_ =? -1); [cbn; by eexists|]. cbv zeta.
    change (num_proc_channels_ (put_mode mode g)) with (num_proc_channels_ g).
    change (sample_rate_hz_ (put_mode mode g)) with (sample_rate_hz_ g).
    through (get (num_proc_channels_ g)). through (get (sample_rate_hz_ g)). rewrite finish_Initialize.
    destruct (Initialize _ _ _ _) as [g'|f]; [|done]. cbn. by eexists.
  - unfold locked_set_analog_level_limits. destruct (minimum <? 0); [by intros []|].
    destruct (65535 <? maximum); [by intros []|]. destruct (maximum <? minimum); [by intros []|].
    intros [E|?]; [|done]. injection E as <-. cbn [finish orb]. cbv zeta.
    change (num_proc_channels_ (put_maximum maximum (put_minimum minimum g))) with (num_proc_channels_ g).
    change (sample_rate_hz_ (put_maximum maximum (put_minimum minimum g))) with (sample_rate_hz_ g).
    through (get (num_proc_channels_ g)). through (get (sample_rate_hz_ g)).
    eexists. split; [done|]. split; [done|by left].
  - unfold locked_set_stream_analog_level, CritScope. intros [E|?]; [|done]. injection E as <-.
    cbn [finish accessing mbind res_bind]. destruct (set_stream_analog_level g level). cbn. by eexists.
  - unfold locked_set_target_level_dbfs. destruct (_ || _); [by intros []|]. unfold storing, CritScope.
    intros [E|?]; [|done]. injection E as <-. eexists. split; [done|]. split; [done|by left].
  - unfold locked_set_compression_gain_db. destruct (_ || _); [by intros []|]. unfold storing, CritScope.
    intros [E|?]; [|done]. injection E as <-. eexists. split; [done|]. split; [done|by left].
  - unfold locked_enable_limiter, storing, CritScope.
    intros [E|?]; [|done]. injection E as <-. eexists. split; [done|]. split; [done|by left].
  - unfold locked_ProcessRenderAudio, CritScope. intros [E|?]; [|done]. injection E as <-.
    cbn [finish accessing]. through (ProcessRenderAudio g packed_render_audio). by eexists.
  - unfold locked_AnalyzeCaptureAudio, CritScope. intros [E|?]; [|done]. injection E as <-.
    cbn [finish accessing]. destruct (AnalyzeCaptureAudio g audio) as [[[err g'] a]|f]; [|done]. cbn. by eexists.
  - unfold locked_ProcessCaptureAudio, CritScope. intros [E|?]; [|done]. injection E as <-.
    cbn [finish accessing]. destruct (ProcessCaptureAudio g audio stream_has_echo) as [[[err g'] a]|f]; [|done]. cbn. by eexists.
Qed.

(** ** Threads and their sections *)

(** The threads [s] are in the middle of an interleaving of sections that is at [w]; [ps] has
    the sections of each thread. *)
Record linked (s : threads) (w : world) (ps : list (list api_call)) : Prop := {
  lk_length : length ps = length (t_code s);
  lk_calls : w_calls w = concat ps;
  lk_free : crit_capture_ s = None -> w_control w = t_control s;
  lk_thread i k p : t_code s !! i = Some k -> ps !! i = Some p ->
    match held i (crit_capture_ s) with
    | O => outside k p
    | S n => inside (S n) (w_control w) (t_control s) k p
    end }.

Lemma concat_at {A} (ps : list (list A)) i p q : ps !! i = Some p ->
  concat ps = concat (take i ps) ++ p ++ concat (drop (S i) ps) /\
  concat (<[i := q]> ps) = concat (take i ps) ++ q ++ concat (drop (S i) ps).
Proof.
  intros E. split.
  - rewrite <- (take_drop_middle ps i p E) at 1. by rewrite concat_app.
  - rewrite insert_take_drop by (by eapply lookup_lt_Some). by rewrite concat_app.
Qed.

Lemma linked_sections s w ps i k : linked s w ps -> t_code s !! i = Some k ->
  exists p, ps !! i = Some p /\
    match held i (crit_capture_ s) with
    | O => outside k p
    | S n => inside (S n) (w_control w) (t_control s) k p
    end.
Proof.
  intros H Ek. destruct (lookup_lt_is_Some_2 ps i) as [p Ep].
  { rewrite (lk_length _ _ _ H). by eapply lookup_lt_Some. }
  exists p. split; [done|]. by apply (lk_thread _ _ _ H).
Qed.

(** Thread [i] has moved; the others hold [Capture] as often as before, and not at all if the
    members or the sections have changed. *)
Lemma linked_moved s w ps s' w' i k p :
  linked s w ps -> (i < length (t_code s))%nat -> t_code s' = <[i := k]> (t_code s) ->
  w_calls w' = concat (<[i := p]> ps) ->
  (crit_capture_ s' = None -> w_control w' = t_control s') ->
  match held i (crit_capture_ s') with
  | O => outside k p
  | S n => inside (S n) (w_control w') (t_control s') k p
  end ->
  (forall j, j <> i -> held j (crit_capture_ s') = held j (crit_capture_ s) /\
     (held j (crit_capture_ s) = 0%nat \/ t_control s' = t_control s /\ w_control w' = w_control w)) ->
  linked s' w' (<[i := p]> ps).
Proof.
  intros H Hi Ek Ew Hf Hc Ho. split; [|done|done|].
  - rewrite Ek, !length_insert. apply H.
  - intros j k' p' Ek' Ep'. rewrite Ek in Ek'. destruct (decide (j = i)) as [->|Hj].
    + apply list_lookup_insert_Some in Ek' as [(_ & <- & _)|[? _]]; [|done].
      by apply list_lookup_insert_Some in Ep' as [(_ & <- & _)|[? _]].
    + rewrite list_lookup_insert_ne in Ek' by done. rewrite list_lookup_insert_ne in Ep' by done.
      pose proof (lk_thread _ _ _ H j k' p' Ek' Ep') as Hj'. destruct (Ho j Hj) as [-> [E|[-> ->]]]; [|done].
      by rewrite E in Hj' |- *.
Qed.

Lemma held_alone i j c : (0 < held i c)%nat -> j <> i -> held j c = 0%nat.
Proof.
  unfold held. destruct c as [[o n]|]; [|done]. destruct (Nat.eqb_spec o i) as [->|]; [|lia].
  intros _ Hj. by rewrite (proj2 (Nat.eqb_neq i j)) by done.
Qed.

Lemma held_None i c : c = None -> held i c = 0%nat.
Proof. by intros ->. Qed.

(** Before a section a thread enters its locks in their order. *)
Lemma outside_enter l k p : outside (Entering l k) p ->
  exists c, p = [c] /\ returned (code_of mem c) = false /\
    match l with
    | Render => code_of mem c = Entering Render k
    | Capture => code_of mem c = Entering Capture k \/ code_of mem c = Entering Render (Entering Capture k)
    end.
Proof.
  destruct p as [|c [|]]; [done| |done]. intros [Hr Hk]. exists c. split; [done|]. split; [done|].
  destruct (code_of_shape c Hr) as [k' Hs]. destruct l, Hk as [E|E]; try rewrite <- E in *; try rewrite E in *; auto.
  destruct Hs; congruence.
Qed.

Lemma linked_enter s ns w ps i l k c p :
  guarded s ns -> linked s w ps -> t_code s !! i = Some (Entering l k) -> ps !! i = Some p ->
  Enter i (critical s l) = Some c -> linked (with_lock l c i k s) w (<[i := p]> ps).
Proof.
  intros G H Ek Ep E. assert (Hi : (i < length (t_code s))%nat) by by eapply lookup_lt_Some.
  assert (Same : w_calls w = concat (<[i := p]> ps)) by (rewrite list_insert_id by done; apply H).
  pose proof (lk_thread _ _ _ H i _ p Ek Ep) as Hp. destruct l; cbn [critical] in E.
  - apply (linked_moved s w ps _ _ i k p H); cbn; try done; [apply H| |by auto].
    destruct (held i (crit_capture_ s)); [|done]. apply outside_enter in Hp as (a & -> & Hr & Ea).
    split; [done|by right].
  - destruct (Enter_held i _ c _ E Hi (gd_capture _ _ G)) as (Hc & Hh & Ho).
    apply (linked_moved s w ps _ _ i k p H); cbn; try done.
    + intros ->. cbn in Hh. lia.
    + rewrite Hh. destruct (held i (crit_capture_ s)) eqn:E0; [|done].
      apply outside_enter in Hp as (a & -> & Hr & Ea). rewrite (lk_free _ _ _ H); [by apply entered|].
      pose proof (gd_capture _ _ G) as Hl. unfold Enter in E. destruct (crit_capture_ s) as [[o m]|]; [|done].
      cbn in E0, Hl. destruct (o =? i)%nat; [lia|done].
    + intros j Hj. by rewrite (Ho j Hj); auto.
Qed.

Lemma linked_leave s ns w ps i l k c n p :
  guarded s ns -> linked s w ps -> t_code s !! i = Some (Leaving l k) -> ps !! i = Some p ->
  disciplined (held i (crit_render_ s)) (held i (crit_capture_ s)) n (Leaving l k) ->
  Leave i (critical s l) = Ok c ->
  exists w' ps', rtc (runs mem) w w' /\ linked (with_lock l c i k s) w' ps'.
Proof.
  intros G H Ek Ep D E. assert (Hi : (i < length (t_code s))%nat) by by eapply lookup_lt_Some.
  assert (Same : w_calls w = concat (<[i := p]> ps)) by (rewrite list_insert_id by done; apply H).
  pose proof (lk_thread _ _ _ H i _ p Ek Ep) as Hp. destruct l; cbn [critical] in E.
  - exists w, (<[i := p]> ps). split; [done|].
    apply (linked_moved s w ps _ _ i k p H); cbn; try done; [apply H| |by auto].
    destruct (held i (crit_capture_ s)); [|done]. destruct p as [|a [|]]; [done| |done].
    destruct Hp as [Hr Hk]. destruct (code_of_shape a Hr) as [k' [Es|Es]], Hk as [Ea|Ea]; congruence.
  - inversion D as [| | | |r m n' k0 D' Er Em|]; subst.
    destruct (Leave_held i _ m _ (eq_sym Em) (gd_capture _ _ G)) as (c' & E' & Hc & Hh & Ho).
    rewrite E in E'. injection E' as <-. rewrite <- Em in Hp. destruct m as [|m].
    + destruct Hp as (a & -> & Hp). cbn [finish] in Hp.
      destruct (run mem a (w_control w)) as [[[err g'] next]|f] eqn:Er'; [|done].
      destruct Hp as (k' & Ek' & Hk'). injection Ek' as <- <-.
      destruct (concat_at ps i [a] next Ep) as [E1 E2].
      exists (World (w_blocks w + blocks a) (t_control s) (concat (<[i := next]> ps))), (<[i := next]> ps). split.
      { apply rtc_once. pose proof (lk_calls _ _ _ H) as Ec. destruct w as [nb g0 calls]. cbn in *.
        rewrite Ec, E1, E2. by apply (runs_section mem nb g0 (t_control s) err). }
      apply (linked_moved s w ps _ _ i k next H); cbn; try done.
      * by rewrite Hh.
      * intros j Hj. split; [by apply Ho|]. left. apply (held_alone i); [lia|done].
    + exists w, (<[i := p]> ps). split; [done|]. apply (linked_moved s w ps _ _ i k p H); cbn; try done.
      * intros ->. by cbn in Hh.
      * by rewrite Hh.
      * intros j Hj. by rewrite (Ho j Hj); auto.
Qed.

(** Every move is at most one section of the interleaving. *)
Lemma linked_move s ns w ps s' : guarded s ns -> linked s w ps -> moves s s' ->
  exists w' ps', rtc (runs mem) w w' /\ linked s' w' ps'.
Proof.
  intros G H [i M]. unfold move in M. destruct (t_code s !! i) as [k|] eqn:Ek; [|done].
  assert (Hi : (i < length (t_code s))%nat) by by eapply lookup_lt_Some.
  destruct (guarded_bound s ns i k G Ek) as (n & En & D).
  destruct (linked_sections s w ps i k H Ek) as (p & Ep & Hp).
  assert (Same : w_calls w = concat (<[i := p]> ps)) by (rewrite list_insert_id by done; apply H).
  destruct k as [err|l k|l k|f]; [done| | |].
  - injection M as M. destruct (Enter i (critical s l)) as [c|] eqn:E; [|done]. injection M as <-.
    exists w, (<[i := p]> ps). split; [done|]. by apply (linked_enter s ns w ps i l k c p).
  - apply bind_inv in M as (c & E & M). injection M as <-.
    by apply (linked_leave s ns w ps i l k c n p).
  - apply bind_inv in M as ([g k] & E & M). injection M as <-. exists w, (<[i := p]> ps). split; [done|].
    assert (Hh : exists m, held i (crit_capture_ s) = S m) by (inversion D; subst; by eexists).
    destruct Hh as [m Hm]. rewrite Hm in Hp. apply (linked_moved s w ps _ _ i k p H); cbn; try done.
    + intros Ec. by rewrite Ec in Hm.
    + rewrite Hm. destruct Hp as (c & -> & Hp). exists c. split; [done|]. cbn [finish] in Hp. by rewrite E in Hp.
    + intros j Hj. split; [done|]. left. apply (held_alone i); [lia|done].
Qed.
(** Calls with arguments that are rejected take no lock. *)
Definition pending (c : api_call) : list api_call := if returned (code_of mem c) then [] else [c].

Lemma rejected_first n g pre calls :
  rtc (runs mem) (World n g (pre ++ calls)) (World n g (pre ++ concat (map pending calls))).
Proof.
  revert pre. induction calls as [|c calls IH]; intros pre; [done|]. cbn [map concat]. unfold pending at 1.
  destruct (returned (code_of mem c)) eqn:Er.
  - destruct (rejected c g Er) as [err E]. assert (Hb : blocks c = 0) by (destruct c; done).
    eapply rtc_l; [|apply IH]. pose proof (runs_section mem n g g err pre c calls [] E) as R.
    by rewrite Hb, Z.add_0_r in R.
  - specialize (IH (pre ++ [c])). by rewrite <- !app_assoc in IH.
Qed.

Lemma start_linked g calls :
  linked (start mem g calls) (World 0 g (concat (map pending calls))) (map pending calls).
Proof.
  split; cbn; [by rewrite !length_map|done|done|]. intros i k p Ek Ep.
  rewrite list_lookup_fmap in Ek. rewrite list_lookup_fmap in Ep. destruct (calls !! i) as [c|]; [|done].
  injection Ek as <-. injection Ep as <-. unfold pending. destruct (returned (code_of mem c)) eqn:Er; [|split; [done|by left]].
  cbn. revert Er. by destruct (code_of mem c).
Qed.

Lemma linked_moves m s s' ns w ps : guarded s ns -> linked s w ps -> nsteps moves m s s' ->
  exists w' ps', rtc (runs mem) w w' /\ linked s' w' ps'.
Proof.
  intros G H Hs. revert ns w ps G H. induction Hs as [s|m s v s' M _ IH]; intros ns w ps G H; [by exists w, ps|].
  destruct (linked_move s ns w ps v G H M) as (w1 & ps1 & R1 & H1).
  destruct (guarded_move s ns v G M) as (ns1 & G1 & _).
  destruct (IH ns1 w1 ps1 G1 H1) as (w2 & ps2 & R2 & H2). exists w2, ps2. split; [by etransitivity|done].
Qed.

(** A fault of a thread is one of its section. *)
Lemma linked_fault s ns w ps i f : guarded s ns -> linked s w ps -> move i s = Fault f ->
  exists c, In c (w_calls w) /\ run mem c (w_control w) = Fault f.
Proof.
  intros G H M. destruct (guarded_fault s ns i f G M) as (a & Ek & Ea).
  destruct (guarded_bound s ns i _ G Ek) as (n & _ & D).
  destruct (linked_sections s w ps i _ H Ek) as (p & Ep & Hp).
  inversion D as [| | | | |r m n' f0 D' Er Em]; subst. rewrite <- Em in Hp. destruct Hp as (c & -> & Hp).
  cbn [finish] in Hp. rewrite Ea in Hp. exists c. split.
  - rewrite (lk_calls _ _ _ H), (proj1 (concat_at ps i [c] [] Ep)). apply in_app_iff. right. by left.
  - destruct (run mem c (w_control w)) as [[[err g'] next]|f1]; [by destruct Hp as (k' & ? & _)|congruence].
Qed.

Lemma all_returned s ns w ps : guarded s ns -> linked s w ps -> forallb returned (t_code s) = true ->
  crit_render_ s = None /\ crit_capture_ s = None /\ w_calls w = [].
Proof.
  intros G H Ha. rewrite forallb_forall in Ha.
  assert (R : forall i k, t_code s !! i = Some k -> returned k = true).
  { intros i k Ek. apply Ha, list_elem_of_In. by eapply list_elem_of_lookup_2. }
  assert (Free : forall l, critical s l = None).
  { intros l. destruct (critical s l) as [[o n]|] eqn:E; [|done].
    destruct (owner_running s ns l o n G E) as [_ (k & Ek & Hk)]. by rewrite (R o k Ek) in Hk. }
  split; [exact (Free Render)|]. split; [exact (Free Capture)|]. rewrite (lk_calls _ _ _ H).
  assert (E : Forall (fun p => p = []) ps).
  { apply Forall_lookup_2. intros i p Ep. destruct (lookup_lt_is_Some_2 (t_code s) i) as [k Ek].
    { rewrite <- (lk_length _ _ _ H). by eapply lookup_lt_Some. }
    pose proof (lk_thread _ _ _ H i k p Ek Ep) as Hp. rewrite (held_None i _ (Free Capture : crit_capture_ s = None)) in Hp.
    pose proof (R i k Ek) as Hk. destruct k as [err| | |]; [|done..]. destruct p as [|c [|]]; [done| |done].
    destruct Hp as [Hr [E|E]]; [by rewrite <- E in Hr|].
    destruct (code_of_shape c Hr) as [k' [Es|Es]]; congruence. }
  clear -E. induction E as [|p ps' -> _ IH]; [done|exact IH].
Qed.
End simulation.

(** * Theorem *)

(** C37: however the threads of any calls are scheduled, with [crit_render_] and [crit_capture_]
    entered and left where the methods do it: the members are accessed by the owner of
    [crit_capture_] only; the threads never block each other for ever, since some thread can
    move as long as not all have returned (or an access has undefined behaviour), and no
    schedule has more than 15 moves per call; a lock is left by its owner only, and both
    are free at the end; and the threads are always in the middle of an interleaving of
    the sections of [MultiThreads], so that a fault is a fault of one of them, and all
    sections have run when all calls have returned. *)
Theorem locked_calls mem g calls m s :
  nsteps moves m (start mem g calls) s ->
  (m <= most_moves * length calls)%nat /\
  (forallb returned (t_code s) = true \/
   (exists i s', move i s = Ok (Some s')) \/ exists i f, move i s = Fault f) /\
  (forall i a, t_code s !! i = Some (Access a) -> exists n, crit_capture_ s = Some (i, S n)) /\
  (forall i l k, t_code s !! i = Some (Leaving l k) -> exists n, critical s l = Some (i, S n)) /\
  exists w, rtc (runs mem) (World 0 g calls) w /\
    (crit_capture_ s = None -> w_control w = t_control s) /\
    (forall i f, move i s = Fault f -> exists c, In c (w_calls w) /\ run mem c (w_control w) = Fault f) /\
    (forallb returned (t_code s) = true -> crit_render_ s = None /\ crit_capture_ s = None /\ w_calls w = []).
Proof.
  intros Hs. pose proof (start_guarded mem g calls) as G0.
  destruct (guarded_moves m _ s _ G0 Hs) as (ns & G & L).
  destruct (linked_moves mem m _ s _ _ _ G0 (start_linked mem g calls) Hs) as (w & ps & R & H).
  split; [|split; [by apply (progress s ns)|split]].
  - assert (E : forall n, list_sum (replicate n most_moves) = (most_moves * n)%nat).
    { induction n as [|n IH]; [done|]. change (most_moves + list_sum (replicate n most_moves) = most_moves * S n)%nat. lia. }
    rewrite E in L. lia.
  - intros i a Ek. destruct (guarded_bound s ns i _ G Ek) as (n & _ & D).
    inversion D as [| | | | |r c n' f0 D' Er Ec]; subst. by apply (held_owner i _ c).
  - split.
    + intros i l k Ek. destruct (guarded_bound s ns i _ G Ek) as (n & _ & D).
      inversion D as [| | |r c0 m0 k0 D' Er|r c0 m0 k0 D' Er Ec|]; subst;
        [by apply (held_owner i _ r)|by apply (held_owner i _ c0)].
    + exists w. split; [etransitivity; [exact (rejected_first mem 0 g [] calls)|exact R]|].
      split; [apply H|]. split; [intros i f; by apply (linked_fault mem s ns w ps)|by apply (all_returned mem s ns w ps)].
Qed.

(** A setter and a render call: the second thread has to wait for the first. *)
Lemma locked_calls_witness :
  let mem := fun _ : nat => Some blank in
  exists s, nsteps moves 1 (start mem GainControlImpl_new [CTarget 10; CRender []]) s /\
    move 1 s = Ok None /\
    (1 <= most_moves * length [CTarget 10; CRender []])%nat /\
    (forallb returned (t_code s) = true \/
     (exists i s', move i s = Ok (Some s')) \/ exists i f, move i s = Fault f) /\
    (forall i a, t_code s !! i = Some (Access a) -> exists n, crit_capture_ s = Some (i, S n)) /\
    (forall i l k, t_code s !! i = Some (Leaving l k) -> exists n, critical s l = Some (i, S n)) /\
    exists w, rtc (runs mem) (World 0 GainControlImpl_new [CTarget 10; CRender []]) w /\
      (crit_capture_ s = None -> w_control w = t_control s) /\
      (forall i f, move i s = Fault f -> exists c, In c (w_calls w) /\ run mem c (w_control w) = Fault f) /\
      (forallb returned (t_code s) = true -> crit_render_ s = None /\ crit_capture_ s = None /\ w_calls w = []).
Proof.
  intros mem. set (s0 := start mem GainControlImpl_new [CTarget 10; CRender []]).
  set (s := match move 0 s0 with Ok (Some s) => s | _ => s0 end).
  assert (M : nsteps moves 1 s0 s) by (apply nsteps_once; exists 0%nat; reflexivity).
  exists s. split; [exact M|]. split; [reflexivity|].
  exact (locked_calls mem GainControlImpl_new [CTarget 10; CRender []] 1 s M).
Defined.
